(* ===== verification/_CoqProject ===== *)
-Q . S2P
Prelude.v
Platform.v
Data.v
Crc.v
Backend.v
Rtu.v
Tcp.v
Core.v
Framing.v
Receive.v
Mapping.v
Reply.v
Spec.v
Bits.v
ReplyProofs.v
Wire.v
Client.v
Requests.v
Confirm.v
Config.v
ModbusCom.v
Loopback.v
Server.v
Master.v
EndToEnd.v
Calls.v
System.v
Session.v
Serial.v
Safety.v
Strings.v
Settings.v
Sending.v
AnyRequest.v
Memory.v
Intset.v
IntsetProofs.v
IntegerSets.v
Util.v
Decimal.v
Matching.v
Glob.v
Lzf.v
LzfProofs.v
LzfCompress.v
Dict.v
DictProofs.v
DictRehash.v
DictOps.v
DictClear.v
DictMap.v
DictScan.v
DictIter.v
DictRandom.v
Zskiplist.v
ZslOrder.v
ZslLinks.v
ZslProofs.v
ZslInsert.v
ZslDelete.v
ZslOps.v
ZslRange.v
ZsetDict.v
ZsetOps.v
ZsetEdit.v
ZsetRange.v
Zset.v
Ziplist.v
ZlMem.v
ZlEntry.v
ZlList.v
ZlCascade.v
ZlInsert.v
ZlDelete.v
ZlAccess.v
PackedList.v
Quicklist.v
QlList.v
QlEnds.v
QuicklistDeque.v
