(* ===== verification/Prelude.v ===== *)
(** Verification of the C code of TizerVisionService.

    The repository is a machine-vision workbench: C++ and C# programs around
    camera and image libraries, the C library through which they drive relays
    and PLCs (libmodbus, src/ModBusLibrary/ModBusLibrary/ModBus, with the class
    of ModbusCom.cpp on top), and a copy of Redis for Windows
    (src/win_redis/redis-5.0.10). This development models libmodbus as it is
    compiled on Windows, the relay driver, and self-contained parts of Redis (integer
    sets, decimal numbers, patterns, compression, hash tables, sorted sets, packed
    lists, quicklists), and proves them correct.

    ** How code is modelled

    C values are mathematical integers, wrapped where the code stores them into
    a narrower object ([u8], [u16], [u32], [i32]). A buffer is a list of bytes
    that may be uninitialised. Statements run in the monad [M] of this file over
    an abstract world: [Ret] with a value and a world, [Fault] for undefined
    behaviour (an access outside a buffer, the use of uninitialised memory or of
    a released block, ...), [NoFuel] when a loop was cut short. [wp] is total
    correctness: it excludes both. The operating system and winsock are the class
    [OS] of Platform, whose laws ([OSLaws]) state the documented contracts; every
    theorem about the code holds for any instance of them. The backends of the
    library are a record of functions ([modbus_backend_t], Backend), as in C.

    ** Files and the code they model

    - Platform: constants of the system headers, the interfaces [OS] and heap,
      the context structures of modbus-private.h, modbus-rtu-private.h and
      modbus-tcp-private.h.
    - Data (modbus-data.c), Crc ([crc16] of modbus-rtu.c), Rtu (the rest of
      modbus-rtu.c for Windows), Tcp (modbus-tcp.c for Windows).
    - Core (modbus.c: [send_msg], [_modbus_receive_msg], [check_confirmation] and
      what they call), Mapping ([modbus_mapping_new_start_address],
      [modbus_mapping_free]), Reply ([modbus_reply], [modbus_reply_exception]),
      Client (the request functions), Config (constructors, settings, [strlcpy],
      [modbus_strerror]), ModbusCom (ModbusCom.cpp).
    - Intset (Redis: intset.c), Util and Matching (Redis: the integer conversions
      and [stringmatchlen] of util.c), Lzf (Redis: lzf_c.c and lzf_d.c), Dict
      (Redis: dict.c and dict.h, on a heap of entries and tables; hash function,
      copies and destructors come with a [dictType], as in C), Zskiplist and Zset's
      operations (Redis: t_zset.c, on that heap and dictionary), Ziplist (Redis:
      ziplist.c, on the buffers of Intset), Quicklist (Redis: quicklist.c and
      quicklist.h, on a heap of nodes with the blocks of Ziplist and Lzf).

    An operation of the model has the name of its C function; a context or a
    buffer it changes is returned. The parts of a long function have names of
    their own ([reply_read_bits], [receive_step_meta], ...).

    ** Specifications and interfaces

    - Spec: the Modbus application protocol without the code: four address
      spaces, requests, answers, exceptions, and their encodings.
    - [Framing] (Framing): what a backend promises about the shape of its
      frames; [Stream] (Receive): how it delivers bytes; [Integrity] (Server):
      which frames it accepts; [Requests] (Confirm): what a client needs;
      [Guarded] (Safety): that its transfer operations stay in the buffer. All
      three backends are instances, and the theorems on the core, the server and
      the client are proved once, against the interfaces.
    - [Peer] (EndToEnd): what a client's calls need of the far end of the line;
      System shows that this library's server is one.
    - Loopback and the end of Safety: concrete platforms (a byte pipe, a network
      with this library's server behind it) on which the witnesses run. Sending
      models the network a client recovers on: sockets, connections that are
      dropped and refused, and bytes that arrive, as a script of faults says.

    ** What is proved

    - The server (ReplyProofs, Server): the reply to every well-formed request is
      the specified one and has the specified effect; unknown functions are
      refused; exceptions are sent as asked for.
    - Receiving (Receive, Wire, Safety): exactly one frame is taken off the
      line however it is cut up; whatever arrives instead, reception ends and
      stays in its buffer.
    - Any request (AnyRequest): [modbus_reply] is safe on arbitrary bytes, and a
      server that receives and answers for ever withstands any line.
    - The client (Requests, Confirm, Master, Calls): requests are built as
      specified; exactly the valid confirmations are accepted; transactions are
      numbered.
    - The composition (EndToEnd, System, Session): every call, and every sequence
      of calls, of a client connected to a server of this library returns what
      the specification answers; what was written is what is read back.
    - Sending (Sending): one transfer without link recovery; with it, whatever the
      script of faults, the frame goes out exactly once, with a new connection for
      each that was lost and one wait for each failed attempt; raw requests.
    - The serial line (Crc, Serial): the table-driven checksum is the polynomial
      one; burst errors are rejected; foreign frames are passed over; the port
      opens and closes.
    - Memory and settings (Memory, Settings, Strings): where [malloc] grants what it
      asks for, every constructor gives back what it took on every error path
      (where it does not, the constructor goes through the null pointer); tables and contexts own their
      blocks; settings round trip; the string copy is bounded.
    - Redis (IntsetProofs, IntegerSets, Decimal, Glob): a set of intset.c refines
      a finite set of integers and uses the narrowest element type; integers and
      their decimal texts correspond one to one; [stringmatchlen] decides the
      declarative meaning of a pattern.
    - Compression (LzfProofs, LzfCompress): the decompressor is safe on every
      input but the empty one and accepts exactly the well-formed texts that fit; what the compressor
      writes is one that expands to its input.

    - The hash table (DictProofs: the invariant and the run of a chain;
      DictRehash: incremental rehashing; DictOps, DictClear: the operations as
      functions on the places of the invariant; DictMap): whatever the state of the
      rehashing, the commands of dict.c are those of a finite map, and every block is
      released. DictScan: a scan interleaved with any changes comes to its end and
      visits every key that stays. DictIter: safe and unsafe iterators visit every entry once, and rehashing
      comes to its end. DictRandom: what sampling returns is stored.
    - Sorted sets (ZslOrder: scores and the order; ZslLinks, ZslProofs: the levels, spans
      and backward links of a skip list as an invariant; ZslInsert, ZslDelete, ZslOps,
      ZslRange: its operations; ZsetDict, ZsetOps, ZsetEdit, ZsetRange: skip list
      and dictionary together; Zset): the commands are those of a list sorted by score and
      element without duplicates, a rank leads back to its element, and every node and
      string is released once.
    - Packed lists (ZlMem: bytes in a block; ZlEntry: values and their encodings; ZlList,
      ZlCascade: entries, and the update that runs through them; ZlInsert, ZlDelete,
      ZlAccess: the operations; PackedList): the commands are those of a list of
      texts, and the update leaves every entry with the length of the one before it.
    - Quicklists (QlList: nodes, their blocks and the compression from both ends; QlEnds:
      links, new and deleted nodes, pushing and popping; QuicklistDeque): pushing, popping
      and counting are those of a double-ended queue of texts, and the release leaves
      nothing in memory. The proofs rest on those of ziplists and of compression.

    Some theorems state how the code fails: a write-and-read request below the
    start of the table writes out of bounds, and report-slave-id over TCP reads
    behind the request. So do lemmas of Serial (closing an unopened serial
    context, partial reads of the port), LzfCompress (inputs of one byte and
    none), Glob (where pattern matching departs from what patterns mean), DictMap
    (a table so large that its size in bytes wraps), DictIter (emptying a
    dictionary forgets its iterators) and PackedList (merging with an empty list
    loses the last entry), and QuicklistDeque (an index looked at and pops that leave a
    compressed node at the end, rotation in one block, the largest settings, an insertion
    behind an entry found from the end).

    ** Fuel

    A C [for] with a known bound is [for_loop]. A [while] takes fuel: the
    parameter [Fuel] of the core, of which 300 turns are enough to receive a
    message ([EnoughFuel]; every turn of reception takes a byte of a message of
    at most 260), and as many as the platform interrupts or fails before it
    recovers where the code retries ([PatientFuel]; the attempts and the bytes to
    flush of a script of faults in Sending). Loops over
    buffers take their length plus one; the bit loops of the client at most nine
    turns, the digit loop of [ll2string] at most eleven, [digits10] two levels of
    recursion, [stringmatchlen] one level per character of the pattern; the loops
    of LZF take a byte of their input in every turn. A chain of the hash table is
    at most as long as there are entries, a table is walked in as many turns as it
    has buckets, and random draws stop after a given number, which the theorems on
    sampling assume to be enough. A walk over a skip list takes one turn more than
    there are nodes, over its levels 64, and the levels of new nodes come from a list
    of draws; a walk over a ziplist takes at most one turn per byte, one
    over a quicklist a turn per node and one more. The theorems show that the
    fuel given is enough, so [NoFuel] never stands for a result.

    ** Not modelled

    - Messages printed in debug mode, and timing: a delay is an operation of the
      platform.
    - The POSIX branches of the serial and TCP backends (termios, RTS and RS485
      control), which the Windows build leaves out.
    - The copy of the library under src/TestModbus (identical text), and the C++,
      C# and generated code of the services, cameras and image programs: calls
      into vendor libraries that are not in the repository.
    - The rest of Redis: third-party code around system calls. Self-contained
      parts that remain, and would fit in beside Intset and Util: crc16.c and
      crc64.c and zipmap.c on the same buffers, adlist.c on a heap like
      that of Dict. Of quicklist.c: [quicklistDup], which needs a second list, and tests;
      insertion, ranges, iterators and merging are definitions about which nothing but the
      failures above is proved. Of t_zset.c: the encoding of small sets as ziplists and the
      conversion between the two, numeric bounds given as text ([strtod]) and the
      commands with their replies. Of ziplist.c: printing and tests. Of dict.c: statistics in text, the default hash functions (the
      hash of a dictionary is a parameter) and the benchmark.
    - Still open for the library: connecting over TCP when the platform refuses. *)
From stdpp Require Export base list numbers gmap.
From Stdlib Require Export ZArith Lia.
#[global] Open Scope Z_scope.

(** ** Machine integers

    C values are kept as mathematical integers; these are the conversions the
    C code performs when it stores into a fixed-width object. *)
Definition u8 (x : Z) : Z := x mod 256.
Definition u16 (x : Z) : Z := x mod 65536.
Definition u32 (x : Z) : Z := x mod 4294967296.
Definition i32 (x : Z) : Z := (x + 2147483648) mod 4294967296 - 2147483648.

Definition is_u8 (x : Z) : Prop := 0 <= x < 256.
Definition is_u16 (x : Z) : Prop := 0 <= x < 65536.
Definition is_u32 (x : Z) : Prop := 0 <= x < 4294967296.

(** The two bytes of a 16-bit quantity in network order, and the word they
    make: the C idioms [x >> 8], [x & 0x00ff] and [(hi << 8) + lo]. *)
Definition hi8 (x : Z) : Z := u8 (Z.shiftr x 8).
Definition lo8 (x : Z) : Z := u8 (Z.land x 255).
Definition be16 (h l : Z) : Z := Z.shiftl h 8 + l.

#[global] Arguments u8 : simpl never.
#[global] Arguments u16 : simpl never.
#[global] Arguments u32 : simpl never.
#[global] Arguments i32 : simpl never.
#[global] Arguments hi8 : simpl never.
#[global] Arguments lo8 : simpl never.
#[global] Arguments be16 : simpl never.

Create HintDb modbus.

(** [lia] with division and remainder by constants. *)
Ltac zdiv := Z.to_euclidean_division_equations; lia.

Lemma u8_range x : is_u8 (u8 x).
Proof. apply Z.mod_pos_bound. lia. Qed.
Lemma u16_range x : is_u16 (u16 x).
Proof. apply Z.mod_pos_bound. lia. Qed.
Lemma u32_range x : is_u32 (u32 x).
Proof. apply Z.mod_pos_bound. lia. Qed.
Lemma u8_id x : is_u8 x -> u8 x = x.
Proof. apply Z.mod_small. Qed.
Lemma u16_id x : is_u16 x -> u16 x = x.
Proof. apply Z.mod_small. Qed.
Lemma u32_id x : is_u32 x -> u32 x = x.
Proof. apply Z.mod_small. Qed.

Lemma land_255 x : Z.land x 255 = x mod 256.
Proof. change 255 with (Z.ones 8). rewrite Z.land_ones by lia. done. Qed.
Lemma hi8_div x : hi8 x = (x / 256) mod 256.
Proof. unfold hi8, u8. by rewrite Z.shiftr_div_pow2. Qed.
Lemma lo8_mod x : lo8 x = x mod 256.
Proof. unfold lo8, u8. rewrite land_255. rewrite Z.mod_mod by lia. done. Qed.
Lemma be16_eq h l : be16 h l = 256 * h + l.
Proof. unfold be16. rewrite Z.shiftl_mul_pow2 by lia. change (2 ^ 8) with 256. lia. Qed.
Lemma hi8_range x : is_u8 (hi8 x).
Proof. apply u8_range. Qed.
Lemma lo8_range x : is_u8 (lo8 x).
Proof. apply u8_range. Qed.
Lemma u8_hi8 x : u8 (hi8 x) = hi8 x.
Proof. apply u8_id, hi8_range. Qed.
Lemma u8_lo8 x : u8 (lo8 x) = lo8 x.
Proof. apply u8_id, lo8_range. Qed.
Lemma u8_u8 x : u8 (u8 x) = u8 x.
Proof. apply u8_id, u8_range. Qed.
Lemma be16_range h l : is_u8 h -> is_u8 l -> is_u16 (be16 h l).
Proof. unfold is_u8, is_u16. rewrite be16_eq. lia. Qed.
Lemma be16_split x : is_u16 x -> be16 (hi8 x) (lo8 x) = x.
Proof.
  unfold is_u16. intros H. rewrite be16_eq, hi8_div, lo8_mod.
  zdiv.
Qed.
Lemma hi8_be16 h l : is_u8 h -> is_u8 l -> hi8 (be16 h l) = h.
Proof.
  unfold is_u8. intros Hh Hl. rewrite be16_eq, hi8_div.
  replace (256 * h + l) with (h * 256 + l) by lia.
  rewrite Z.div_add_l, (Z.div_small l 256), Z.add_0_r by lia. apply Z.mod_small; lia.
Qed.
Lemma lo8_be16 h l : is_u8 h -> is_u8 l -> lo8 (be16 h l) = l.
Proof.
  unfold is_u8. intros Hh Hl. rewrite be16_eq, lo8_mod.
  replace (256 * h + l) with (l + h * 256) by lia.
  rewrite Z.mod_add by lia. apply Z.mod_small; lia.
Qed.
(** [(hi << 8) | lo], which the code writes as often as the sum. *)
Lemma lor_be16 h l : is_u8 l -> Z.lor (Z.shiftl h 8) l = be16 h l.
Proof.
  unfold be16, is_u8. intros Hl. symmetry.
  rewrite <- Z.lxor_lor, <- Z.add_nocarry_lxor; [done| |].
  all: apply Z.bits_inj'; intros n Hn; rewrite Z.land_spec, Z.bits_0.
  all: destruct (Z.ltb_spec n 8) as [Hlt|Hge];
    [rewrite Z.shiftl_spec_low by lia; done|].
  all: rewrite <- (Z.mod_small l (2 ^ 8)) by lia.
  all: rewrite Z.mod_pow2_bits_high by lia; apply andb_false_r.
Qed.

#[export] Hint Resolve u8_range u16_range u32_range hi8_range lo8_range be16_range : modbus.
#[export] Hint Rewrite u8_hi8 u8_lo8 u8_u8 : modbus.

(** ** Outcomes and the state monad

    A C statement either completes, runs into undefined behaviour, or (for the
    loops whose exit depends on the environment) exceeds the fuel given. *)
Inductive fault :=
  | OutOfBounds     (** access outside the array *)
  | Uninit          (** the value of a byte nobody wrote is used *)
  | NullDeref       (** member access through NULL *)
  | AssertFail      (** a failed [assert] *)
  | BadCast         (** [backend_data] read at the wrong type *)
  | DivByZero       (** an integer divided by zero *)
  | BadAlloc        (** the exception a failed [new] throws *)
  | BadArgument.    (** a library function called with an argument outside its domain *)

Inductive outcome (S A : Type) :=
  | Ret (a : A) (s : S)
  | Fault (f : fault)
  | NoFuel.
Arguments Ret {S A} a s.
Arguments Fault {S A} f.
Arguments NoFuel {S A}.

Definition M (S A : Type) : Type := S -> outcome S A.

Definition ret {S A} (a : A) : M S A := fun s => Ret a s.
Definition bind {S A B} (m : M S A) (f : A -> M S B) : M S B := fun s =>
  match m s with
  | Ret a s' => f a s'
  | Fault e => Fault e
  | NoFuel => NoFuel
  end.
Definition fail {S A} (e : fault) : M S A := fun _ => Fault e.
Definition get {S} : M S S := fun s => Ret s s.
Definition put {S} (s' : S) : M S unit := fun _ => Ret tt s'.

Declare Scope modbus_scope.
Delimit Scope modbus_scope with mb.
Notation "'let*' x ':=' m 'in' k" := (bind m (fun x => k))
  (at level 10, x pattern, m at level 200, k at level 200) : modbus_scope.
Notation "m ;;; k" := (bind m (fun _ => k))
  (at level 100, right associativity) : modbus_scope.
#[global] Open Scope modbus_scope.

(** A C truth value used as an integer. *)
Definition b2z (b : bool) : Z := if b then 1 else 0.

(** ** Byte buffers

    [uint8_t buf[n]]: a cell is [None] until it is written. *)
Abbreviation buf := (list (option Z)).
Definition zlen {A} (l : list A) : Z := Z.of_nat (length l).
Definition uninit (n : Z) : buf := replicate (Z.to_nat n) None.
#[global] Arguments zlen : simpl never.
#[global] Arguments uninit : simpl never.

Section memory.
Context {S : Type}.

Definition rd (b : buf) (i : Z) : M S Z := fun s =>
  if 0 <=? i then
    match b !! Z.to_nat i with
    | Some (Some x) => Ret x s
    | Some None => Fault Uninit
    | None => Fault OutOfBounds
    end
  else Fault OutOfBounds.

Definition wr (b : buf) (i v : Z) : M S buf := fun s =>
  if (0 <=? i) && (i <? zlen b) then Ret (<[Z.to_nat i := Some (u8 v)]> b) s
  else Fault OutOfBounds.

(** [memcpy(dst + doff, src + soff, n)]: whole cells move, so copying an
    unwritten byte is allowed and the copy is unwritten too. *)
Definition memcpy (dst : buf) (doff : Z) (src : buf) (soff n : Z) : M S buf := fun s =>
  if (0 <=? n) && (0 <=? doff) && (doff + n <=? zlen dst)
     && (0 <=? soff) && (soff + n <=? zlen src) then
    Ret (take (Z.to_nat doff) dst
           ++ take (Z.to_nat n) (drop (Z.to_nat soff) src)
           ++ drop (Z.to_nat (doff + n)) dst) s
  else Fault OutOfBounds.

(** The first [n] bytes of a buffer, as the operating system reads them when
    it is handed the pointer. *)
Fixpoint all_init (b : buf) : option (list Z) :=
  match b with
  | [] => Some []
  | Some x :: b' => match all_init b' with Some l => Some (x :: l) | None => None end
  | None :: _ => None
  end.
Definition rd_bytes (b : buf) (n : Z) : M S (list Z) := fun s =>
  if (0 <=? n) && (n <=? zlen b) then
    match all_init (take (Z.to_nat n) b) with
    | Some l => Ret l s
    | None => Fault Uninit
    end
  else Fault OutOfBounds.

(** Arrays that are initialised throughout. *)
Definition arr_get (l : list Z) (i : Z) : M S Z := fun s =>
  if 0 <=? i then
    match l !! Z.to_nat i with Some x => Ret x s | None => Fault OutOfBounds end
  else Fault OutOfBounds.
Definition arr_set (l : list Z) (i v : Z) : M S (list Z) := fun s =>
  if (0 <=? i) && (i <? zlen l) then Ret (<[Z.to_nat i := v]> l) s
  else Fault OutOfBounds.
End memory.

(** ** Loops

    [for_loop n i acc body]: [n] iterations of a C [for] whose counter starts
    at [i] and steps by one. [while_loop] iterates a body that either continues
    ([inl]) or leaves the loop ([inr]), at most [fuel] times. *)
Section loops.
Context {S A B : Type}.

Fixpoint for_loop (n : nat) (i : Z) (body : Z -> A -> M S A) (acc : A) : M S A :=
  match n with
  | O => ret acc
  | Datatypes.S n' => let* acc' := body i acc in for_loop n' (i + 1) body acc'
  end.

Fixpoint while_loop (fuel : nat) (body : A -> M S (A + B)) (acc : A) : M S B :=
  match fuel with
  | O => fun _ => NoFuel
  | Datatypes.S fuel' =>
      let* r := body acc in
      match r with
      | inl acc' => while_loop fuel' body acc'
      | inr b => ret b
      end
  end.
End loops.

(** ** Weakest preconditions

    [wp m Q s]: run from [s], the statement [m] completes (no undefined
    behaviour, enough fuel) and its result and final state satisfy [Q]. *)
Definition wp {S A} (m : M S A) (Q : A -> S -> Prop) (s : S) : Prop :=
  match m s with Ret a s' => Q a s' | _ => False end.

Section wp_rules.
Context {S : Type}.

Lemma wp_ret {A} (a : A) (Q : A -> S -> Prop) s : Q a s -> wp (ret a) Q s.
Proof. done. Qed.

Lemma wp_bind {A B} (m : M S A) (f : A -> M S B) Q s :
  wp m (fun a s' => wp (f a) Q s') s -> wp (bind m f) Q s.
Proof. unfold wp, bind. by destruct (m s). Qed.

Lemma wp_mono {A} (m : M S A) (P Q : A -> S -> Prop) s :
  wp m P s -> (forall a s', P a s' -> Q a s') -> wp m Q s.
Proof. unfold wp. destruct (m s); auto. Qed.

Lemma wp_eq {A} (m : M S A) Q s a s' : m s = Ret a s' -> Q a s' -> wp m Q s.
Proof. unfold wp. by intros ->. Qed.

Lemma wp_inv {A} (m : M S A) Q s : wp m Q s -> exists a s', m s = Ret a s' /\ Q a s'.
Proof. unfold wp. destruct (m s); [eauto|done..]. Qed.

Lemma bind_ret_eq {A B} (m : M S A) (f : A -> M S B) s a s' :
  m s = Ret a s' -> bind m f s = f a s'.
Proof. unfold bind. by intros ->. Qed.

Lemma bind_assoc {A B C} (m : M S A) (f : A -> M S B) (g : B -> M S C) s :
  bind (bind m f) g s = bind m (fun a => bind (f a) g) s.
Proof. unfold bind. by destruct (m s). Qed.

Lemma bind_ext {A B} (m m' : M S A) (f f' : A -> M S B) s :
  m s = m' s -> (forall a s', f a s' = f' a s') -> bind m f s = bind m' f' s.
Proof. unfold bind. intros -> E. destruct (m' s); [apply E|done..]. Qed.

Lemma bind_eq {A B} (m m' : M S A) (f : A -> M S B) s : m s = m' s -> bind m f s = bind m' f s.
Proof. unfold bind. by intros ->. Qed.

Lemma while_ext {A B} (f g : A -> M S (A + B)) :
  (forall a s, f a s = g a s) -> forall n a s, while_loop n f a s = while_loop n g a s.
Proof.
  intros E. induction n as [|n IH]; intros a s; [done|]. cbn [while_loop].
  apply bind_ext; [apply E|]. by intros [a'|b] s'; [apply IH|].
Qed.

(** A loop that ends with its first iteration. *)
Lemma while_once {A B} (body : A -> M S (A + B)) n a b s s' : (0 < n)%nat ->
  body a s = Ret (inr b) s' -> while_loop n body a s = Ret b s'.
Proof. intros Hn E. destruct n as [|n]; [lia|]. cbn [while_loop]. by erewrite bind_ret_eq by exact E. Qed.

Lemma wp_for {A} (body : Z -> A -> M S A) (I : Z -> A -> S -> Prop) n : forall i acc s,
  I i acc s ->
  (forall j a s', i <= j < i + Z.of_nat n -> I j a s' -> wp (body j a) (I (j + 1)) s') ->
  wp (for_loop n i body acc) (I (i + Z.of_nat n)) s.
Proof.
  induction n as [|n IH]; intros i acc s HI Hb; cbn [for_loop].
  - apply wp_ret. by rewrite Z.add_0_r.
  - apply wp_bind. eapply wp_mono; [apply Hb; [lia|done]|].
    intros a s' Ha. replace (i + Z.of_nat (Datatypes.S n)) with ((i + 1) + Z.of_nat n) by lia.
    apply IH; [done|]. intros. apply Hb; [lia|done].
Qed.

(** Total correctness of a fuelled loop: a variant that every continuing
    iteration decreases and that the fuel exceeds. *)
Lemma wp_while {A B} (body : A -> M S (A + B)) (I : A -> S -> Prop)
    (V : A -> S -> nat) (Q : B -> S -> Prop) :
  (forall a s, I a s ->
     wp (body a) (fun r s' => match r with
                              | inl a' => I a' s' /\ (V a' s' < V a s)%nat
                              | inr b => Q b s'
                              end) s) ->
  forall fuel a s, I a s -> (V a s < fuel)%nat -> wp (while_loop fuel body a) Q s.
Proof.
  intros Hb. induction fuel as [|fuel IH]; intros a s HI Hv; [lia|]. cbn [while_loop].
  apply wp_bind. eapply wp_mono; [by apply Hb|].
  intros [a'|b] s'; [intros [HI' HV']|by intros HQ; apply wp_ret].
  apply IH; [done|lia].
Qed.
End wp_rules.

(** ** Reading and writing buffers *)
Lemma zlen_app {A} (l k : list A) : zlen (l ++ k) = zlen l + zlen k.
Proof. unfold zlen. rewrite length_app. lia. Qed.
Lemma zlen_nonneg {A} (l : list A) : 0 <= zlen l.
Proof. unfold zlen. lia. Qed.
Lemma zlen_cons {A} (x : A) l : zlen (x :: l) = 1 + zlen l.
Proof. unfold zlen. cbn [length]. lia. Qed.
Lemma zlen_fmap {A B} (f : A -> B) (l : list A) : zlen (f <$> l) = zlen l.
Proof. unfold zlen. by rewrite length_fmap. Qed.
Lemma zlen_uninit n : 0 <= n -> zlen (uninit n) = n.
Proof. intros. unfold zlen, uninit. rewrite length_replicate. lia. Qed.
Lemma zlen_nil {A} : zlen (@nil A) = 0.
Proof. done. Qed.

(** Arithmetic on the sizes of lists made with [::], [++] and [<$>]. *)
Ltac zlen_solve := repeat first [rewrite zlen_cons | rewrite zlen_app | rewrite zlen_fmap | rewrite zlen_nil];
  repeat match goal with |- context [zlen ?l] =>
    lazymatch goal with H : 0 <= zlen l |- _ => fail | _ => pose proof (zlen_nonneg l) end end; lia.

(** The known prefix of a buffer. *)
Lemma lookup_prefix (l : list Z) (r : buf) k x :
  l !! k = Some x -> ((Some <$> l) ++ r) !! k = Some (Some x).
Proof. intros H. apply lookup_app_l_Some. by rewrite list_lookup_fmap, H. Qed.

Section memory_lemmas.
Context {S : Type}.
Implicit Types (b : buf) (s : S).

Lemma rd_eq b i x s : 0 <= i -> b !! Z.to_nat i = Some (Some x) -> rd b i s = Ret x s.
Proof. intros Hi H. unfold rd. rewrite (proj2 (Z.leb_le 0 i)) by done. by rewrite H. Qed.

Lemma wr_eq b i v s : 0 <= i < zlen b -> wr b i v s = Ret (<[Z.to_nat i := Some (u8 v)]> b) s.
Proof.
  intros Hi. unfold wr. by rewrite (proj2 (Z.leb_le 0 i)), (proj2 (Z.ltb_lt _ _)) by lia.
Qed.

(** Appending at the end of the written prefix [p]. *)
Lemma wr_app p x r v i s :
  i = zlen p -> wr (p ++ x :: r) i v s = Ret ((p ++ [Some (u8 v)]) ++ r) s.
Proof.
  intros ->. rewrite wr_eq.
  - unfold zlen. rewrite Nat2Z.id, insert_app_r_alt, Nat.sub_diag by lia.
    cbn. by rewrite <- app_assoc.
  - rewrite zlen_app, zlen_cons. pose proof (zlen_nonneg p). pose proof (zlen_nonneg r). lia.
Qed.

Lemma all_init_fmap (l : list Z) : all_init (Some <$> l) = Some l.
Proof. induction l as [|x l IH]; cbn; [done|]. by rewrite IH. Qed.

Lemma rd_bytes_eq (l : list Z) r s :
  rd_bytes ((Some <$> l) ++ r) (zlen l) s = Ret l s.
Proof.
  unfold rd_bytes. rewrite (proj2 (Z.leb_le 0 _)), (proj2 (Z.leb_le (zlen l) _)).
  - cbn. unfold zlen. rewrite Nat2Z.id.
    rewrite take_app_length' by (by rewrite length_fmap). by rewrite all_init_fmap.
  - rewrite zlen_app, zlen_fmap. pose proof (zlen_nonneg r). lia.
  - apply zlen_nonneg.
Qed.

(** Copying the bytes [l] of a source behind the prefix [p]. *)
Lemma memcpy_app p t src soff (l : list Z) x s :
  0 <= soff <= zlen src -> drop (Z.to_nat soff) src = (Some <$> l) ++ x -> zlen l <= zlen t ->
  memcpy (p ++ t) (zlen p) src soff (zlen l) s
    = Ret (p ++ (Some <$> l) ++ drop (length l) t) s.
Proof.
  intros Hs Hd Hl. pose proof (f_equal length Hd) as Hlen.
  rewrite length_drop, length_app, length_fmap in Hlen.
  unfold memcpy, zlen in *. rewrite length_app.
  rewrite !(proj2 (Z.leb_le _ _)) by lia. cbn [andb]. rewrite Hd, !Nat2Z.id.
  rewrite take_app_length, take_app_length' by (by rewrite length_fmap).
  do 3 f_equal. rewrite drop_app_ge by lia. f_equal. lia.
Qed.

Lemma arr_get_eq (l : list Z) i x s :
  0 <= i -> l !! Z.to_nat i = Some x -> arr_get l i s = Ret x s.
Proof. intros Hi H. unfold arr_get. rewrite (proj2 (Z.leb_le 0 i)) by done. by rewrite H. Qed.

Lemma arr_set_eq (l : list Z) i v s :
  0 <= i < zlen l -> arr_set l i v s = Ret (<[Z.to_nat i := v]> l) s.
Proof.
  intros Hi. unfold arr_set. by rewrite (proj2 (Z.leb_le 0 i)), (proj2 (Z.ltb_lt _ _)) by lia.
Qed.
End memory_lemmas.

(** ** Splicing

    [splice d i l]: the list [d] with the elements from index [i] on
    overwritten by [l]; what a sequence of stores into an array makes of it. *)
Definition splice {A} (d : list A) (i : Z) (l : list A) : list A :=
  take (Z.to_nat i) d ++ l ++ drop (Z.to_nat (i + zlen l)) d.

#[global] Arguments splice : simpl never.

Section splice.
Context {A : Type}.
Implicit Types d l : list A.

Lemma splice_nil d i : splice d i [] = d.
Proof. unfold splice. rewrite zlen_nil, Z.add_0_r. cbn. apply take_drop. Qed.

Lemma splice_snoc d i l x :
  0 <= i -> i + zlen l < zlen d ->
  <[Z.to_nat (i + zlen l) := x]> (splice d i l) = splice d i (l ++ [x]).
Proof.
  unfold splice, zlen. intros Hi Hl.
  rewrite length_app. cbn [length].
  rewrite (drop_S d (default x (d !! Z.to_nat (i + Z.of_nat (length l)))) (Z.to_nat (i + Z.of_nat (length l)))).
  2: { destruct (lookup_lt_is_Some_2 d (Z.to_nat (i + Z.of_nat (length l)))) as [y Hy]; [lia|].
       by rewrite Hy. }
  rewrite insert_app_r_alt by (rewrite length_take; lia).
  rewrite length_take, insert_app_r_alt by lia.
  replace (Z.to_nat (i + Z.of_nat (length l)) - _ - _)%nat with 0%nat by lia. cbn.
  rewrite <- app_assoc. cbn. do 4 f_equal. lia.
Qed.

Lemma length_splice d i l : 0 <= i -> i + zlen l <= zlen d -> zlen (splice d i l) = zlen d.
Proof.
  unfold splice, zlen. intros. rewrite !length_app, length_take, length_drop. lia.
Qed.

Lemma Forall_splice (Q : A -> Prop) d i l : Forall Q d -> Forall Q l -> Forall Q (splice d i l).
Proof.
  intros Hd Hl. unfold splice. apply Forall_app. split; [by apply Forall_take|].
  apply Forall_app. split; [done|by apply Forall_drop].
Qed.

Lemma splice_lookup_in d i l j :
  0 <= i -> i + zlen l <= zlen d -> i <= j < i + zlen l ->
  splice d i l !! Z.to_nat j = l !! Z.to_nat (j - i).
Proof.
  unfold splice, zlen. intros. rewrite lookup_app_r by (rewrite length_take; lia).
  rewrite length_take, lookup_app_l by lia. f_equal. lia.
Qed.

Lemma splice_lookup_out d i l j :
  0 <= i -> i + zlen l <= zlen d -> 0 <= j -> j < i \/ i + zlen l <= j ->
  splice d i l !! Z.to_nat j = d !! Z.to_nat j.
Proof.
  unfold splice, zlen. intros ??? [?|?].
  - rewrite lookup_app_l by (rewrite length_take; lia). apply lookup_take_lt. lia.
  - rewrite !lookup_app_r by (rewrite ?length_take; lia).
    rewrite length_take, lookup_drop. f_equal. lia.
Qed.
End splice.

(** A loop that stores [f j] at the indices [i, i + n) one after the other. *)
Lemma seqZ_snoc m n : 0 <= n -> seqZ m (n + 1) = seqZ m n ++ [m + n].
Proof. intros. rewrite seqZ_app by lia. done. Qed.
Lemma zlen_seqZ m n : 0 <= n -> zlen (seqZ m n) = n.
Proof. intros. unfold zlen. rewrite length_seqZ. lia. Qed.

Section fill.
Context {S A X : Type}.

(** The loop carries extra locals of type [X] beside the array. *)
Lemma wp_fill (body : Z -> list A * X -> M S (list A * X)) (f : Z -> A) (aux : Z -> X)
    (d : list A) x0 i n (s : S) :
  0 <= i -> 0 <= n -> i + n <= zlen d -> x0 = aux i ->
  (forall j d', i <= j < i + n -> zlen d' = zlen d ->
     body j (d', aux j) s = Ret (<[Z.to_nat j := f j]> d', aux (j + 1)) s) ->
  for_loop (Z.to_nat n) i body (d, x0) s
    = Ret (splice d i (f <$> seqZ i n), aux (i + n)) s.
Proof.
  intros Hi Hn Hle -> Hb.
  assert (Hg : wp (for_loop (Z.to_nat n) i body (d, aux i))
    (fun r s' => s' = s /\ r = (splice d i (f <$> seqZ i (i + Z.of_nat (Z.to_nat n) - i)),
                        aux (i + Z.of_nat (Z.to_nat n)))) s).
  { apply (wp_for body (fun j r s' => s' = s /\ r = (splice d i (f <$> seqZ i (j - i)), aux j))).
    - split; [done|]. rewrite Z.sub_diag. change (f <$> seqZ i 0) with (@nil A). by rewrite splice_nil.
    - intros j [d' x] s' Hj [-> [= -> ->]].
      assert (Hz : zlen (f <$> seqZ i (j - i)) = j - i) by (rewrite zlen_fmap, zlen_seqZ; lia).
      eapply wp_eq; [apply Hb; [lia|apply length_splice; lia]|].
      split; [done|]. f_equal.
      replace (j + 1 - i) with (j - i + 1) by lia.
      rewrite seqZ_snoc, fmap_app by lia. cbn.
      replace (i + (j - i)) with j by lia.
      rewrite <- splice_snoc by lia. do 2 f_equal. lia. }
  apply wp_inv in Hg as (r & s' & -> & -> & ->). f_equal. f_equal.
  - do 3 f_equal. lia.
  - f_equal. lia.
Qed.
End fill.
