(* ===== verification/Platform.v ===== *)
(** The platform the library runs on: constants of <errno.h>, <winsock2.h> and
    <windows.h>, the operations of the operating system as an interface over an
    abstract world, the heap, and the library's own context structures
    (modbus-private.h, modbus-rtu-private.h, modbus-tcp-private.h). *)
From S2P Require Import Prelude.


(** ** Constants of the Microsoft C runtime and of Winsock *)
Definition EINTR : Z := 4.
Definition EIO : Z := 5.
Definition EBADF : Z := 9.
Definition EINVAL : Z := 22.
Definition EPIPE : Z := 32.
Definition ECONNREFUSED : Z := 107.
Definition ECONNRESET : Z := 108.
Definition ENOPROTOOPT : Z := 109.
Definition ENOTSUP : Z := 129.
Definition ETIMEDOUT : Z := 138.
Definition WSAEWOULDBLOCK : Z := 10035.
Definition WSAEINPROGRESS : Z := 10036.
Definition PF_INET : Z := 2.
Definition AF_UNSPEC : Z := 0.
Definition AF_INET : Z := 2.
Definition SOCK_STREAM : Z := 1.
Definition IPPROTO_TCP : Z := 6.
Definition SOL_SOCKET : Z := 65535.
Definition SO_REUSEADDR : Z := 4.
Definition TCP_NODELAY : Z := 1.
Definition SHUT_RDWR : Z := 2.
Definition AI_PASSIVE : Z := 1.
Definition AI_ADDRCONFIG : Z := 1024.
Definition MAXDWORD : Z := 4294967295.
Definition INVALID_HANDLE_VALUE : Z := -1.
Definition ONESTOPBIT : Z := 0.
Definition TWOSTOPBITS : Z := 2.
Definition NOPARITY : Z := 0.
Definition ODDPARITY : Z := 1.
Definition EVENPARITY : Z := 2.

(** ** System data *)
Record timeval := { tv_sec : Z; tv_usec : Z }.

(** [struct sockaddr_in], or the opaque address of an [addrinfo]. *)
Inductive sockaddr :=
  | SockaddrIn (sin_port sin_addr : Z)
  | SockaddrAi (bytes : list Z).

Record addrinfo := { ai_family : Z; ai_socktype : Z; ai_protocol : Z; ai_addr : list Z }.

Record DCB := {
  BaudRate : Z; ByteSize : Z; StopBits : Z; Parity : Z;
  fParity : bool; fTXContinueOnXoff : bool; fOutX : bool; fInX : bool;
  fBinary : bool; fAbortOnError : bool;
  dcb_other : list Z    (** the members the library never touches *)
}.

Record COMMTIMEOUTS := {
  ReadIntervalTimeout : Z; ReadTotalTimeoutMultiplier : Z; ReadTotalTimeoutConstant : Z;
  WriteTotalTimeoutMultiplier : Z; WriteTotalTimeoutConstant : Z }.

(** ** The operating system

    Every call takes the world and its C arguments and returns the new world,
    the value it leaves in [errno] if it sets it, and its result. *)
Class OS (W : Type) := {
  os_wsastartup : W -> W * option Z * Z;
  os_wsa_last_error : W -> Z;
  os_socket : W -> Z -> Z -> Z -> W * option Z * Z;
  os_setsockopt : W -> Z -> Z -> Z -> Z -> W * option Z * Z;
  os_fionbio : W -> Z -> W * option Z * Z;
  os_connect : W -> Z -> sockaddr -> W * option Z * Z;
  os_select_read : W -> Z -> option timeval -> W * option Z * Z;
  os_select_write : W -> Z -> timeval -> W * option Z * Z;
  os_so_error : W -> Z -> W * option Z * (Z * Z);
  os_send : W -> Z -> list Z -> W * option Z * Z;
  os_recv : W -> Z -> Z -> W * option Z * (Z * list Z);
  os_shutdown : W -> Z -> Z -> W * option Z * Z;
  os_closesocket : W -> Z -> W * option Z * Z;
  os_bind : W -> Z -> sockaddr -> W * option Z * Z;
  os_listen : W -> Z -> Z -> W * option Z * Z;
  os_accept : W -> Z -> W * option Z * Z;
  os_inet_addr : list Z -> Z;
  os_getaddrinfo : W -> option (list Z) -> list Z -> Z -> W * option Z * (Z * list addrinfo);
  os_create_file : W -> list Z -> W * option Z * Z;
  os_get_comm_state : W -> Z -> W * option Z * option DCB;
  os_set_comm_state : W -> Z -> DCB -> W * option Z * bool;
  os_set_comm_timeouts : W -> Z -> COMMTIMEOUTS -> W * option Z * bool;
  os_read_file : W -> Z -> Z -> W * option Z * option (list Z);
  os_write_file : W -> Z -> list Z -> W * option Z * option Z;
  os_purge_comm : W -> Z -> W * option Z * bool;
  os_close_handle : W -> Z -> W * option Z * bool;
  os_sleep : W -> Z -> W * option Z * unit;
  os_malloc_succeeds : W -> Z -> W * option Z * bool
}.

(** What the library relies on: a transfer call reports at most what it was
    asked for, hands over exactly the bytes it reports, and [select] does not
    answer with EINTR for ever ([eintr_left] bounds how often it still may). *)
Class OSLaws (W : Type) `{OS W} := {
  recv_ok : forall w s n w' e rc l, 0 <= n ->
    os_recv w s n = (w', e, (rc, l)) ->
    -1 <= rc <= n /\ (0 <= rc -> zlen l = rc /\ Forall is_u8 l);
  send_ok : forall w s l w' e rc, os_send w s l = (w', e, rc) -> -1 <= rc <= zlen l;
  read_file_ok : forall w h n w' e l, 0 <= n ->
    os_read_file w h n = (w', e, Some l) -> zlen l <= n /\ Forall is_u8 l;
  write_file_ok : forall w h l w' e n, os_write_file w h l = (w', e, Some n) -> 0 <= n <= zlen l;
  eintr_left : W -> nat;
  select_eintr : forall w s tv w' e, os_select_read w s tv = (w', e, -1) ->
    e = None \/ e = Some EINTR -> (eintr_left w' < eintr_left w)%nat
}.

(** The bound on the loops whose exit the environment decides. *)
Class Fuel := fuel : nat.

(** Whether the build defines NDEBUG, which removes the assertions. *)
Class BuildConfig := NDEBUG : bool.

(** ** Context structures *)
Inductive modbus_backend_type_t := BACKEND_TYPE_RTU | BACKEND_TYPE_TCP.

(** Which of the three backend tables [ctx->backend] points to. *)
Inductive backend_id := RTU_BACKEND | TCP_BACKEND | TCP_PI_BACKEND.

Definition PY_BUF_SIZE : Z := 512.
Record win32_ser := { ws_fd : Z; ws_buf : buf; ws_n_bytes : Z }.

(** Fields [malloc] leaves uninitialised until a later call writes them are options. *)
Record modbus_rtu_t := {
  device : list Z; device_blk : positive;
  baud : Z; data_bit : Z; stop_bit : Z; parity : Z;
  w_ser : option win32_ser; old_dcb : option DCB;
  confirmation_to_ignore : bool }.

Record modbus_tcp_t := { tcp_t_id : Z; tcp_port : Z; tcp_ip : buf }.
Record modbus_tcp_pi_t := { pi_t_id : Z; pi_node : buf; pi_service : buf }.

Inductive backend_data_t :=
  | RtuData (d : modbus_rtu_t)
  | TcpData (d : modbus_tcp_t)
  | TcpPiData (d : modbus_tcp_pi_t).

Record modbus_t := {
  slave : Z; s : Z; debug : Z; error_recovery : Z;
  response_timeout : timeval; byte_timeout : timeval;
  backend : backend_id; backend_data : backend_data_t;
  ctx_blk : positive; data_blk : positive }.

Definition MODBUS_ERROR_RECOVERY_NONE : Z := 0.
Definition MODBUS_ERROR_RECOVERY_LINK : Z := 2.
Definition MODBUS_ERROR_RECOVERY_PROTOCOL : Z := 4.

(** [ctx->error_recovery & MODBUS_ERROR_RECOVERY_x] as a condition. *)
Definition recovery_link (c : modbus_t) : bool :=
  negb (Z.land (error_recovery c) MODBUS_ERROR_RECOVERY_LINK =? 0).
Definition recovery_protocol (c : modbus_t) : bool :=
  negb (Z.land (error_recovery c) MODBUS_ERROR_RECOVERY_PROTOCOL =? 0).

(** A [modbus_t *] argument of the public interface. *)
Inductive ctx_ptr := NULL | CTX.

(** Member updates of the context. *)
Definition with_slave (v : Z) (c : modbus_t) : modbus_t :=
  Build_modbus_t v (s c) (debug c) (error_recovery c) (response_timeout c) (byte_timeout c)
    (backend c) (backend_data c) (ctx_blk c) (data_blk c).
Definition with_s (v : Z) (c : modbus_t) : modbus_t :=
  Build_modbus_t (slave c) v (debug c) (error_recovery c) (response_timeout c) (byte_timeout c)
    (backend c) (backend_data c) (ctx_blk c) (data_blk c).
Definition with_debug (v : Z) (c : modbus_t) : modbus_t :=
  Build_modbus_t (slave c) (s c) v (error_recovery c) (response_timeout c) (byte_timeout c)
    (backend c) (backend_data c) (ctx_blk c) (data_blk c).
Definition with_error_recovery (v : Z) (c : modbus_t) : modbus_t :=
  Build_modbus_t (slave c) (s c) (debug c) v (response_timeout c) (byte_timeout c)
    (backend c) (backend_data c) (ctx_blk c) (data_blk c).
Definition with_response_timeout (v : timeval) (c : modbus_t) : modbus_t :=
  Build_modbus_t (slave c) (s c) (debug c) (error_recovery c) v (byte_timeout c)
    (backend c) (backend_data c) (ctx_blk c) (data_blk c).
Definition with_byte_timeout (v : timeval) (c : modbus_t) : modbus_t :=
  Build_modbus_t (slave c) (s c) (debug c) (error_recovery c) (response_timeout c) v
    (backend c) (backend_data c) (ctx_blk c) (data_blk c).
Definition with_backend_data (v : backend_data_t) (c : modbus_t) : modbus_t :=
  Build_modbus_t (slave c) (s c) (debug c) (error_recovery c) (response_timeout c) (byte_timeout c)
    (backend c) v (ctx_blk c) (data_blk c).

(** ** Program state *)
Record heap := { live : gset positive; next : positive }.
Record state (W : Type) := State { errno : Z; hp : heap; ctx : modbus_t; world : W }.
Arguments State {W}. Arguments errno {W}. Arguments hp {W}.
Arguments ctx {W}. Arguments world {W}.

Definition P (W A : Type) : Type := M (state W) A.

Section primitives.
Context {W : Type} `{OS W}.

Definition get_errno : P W Z := fun st => Ret (errno st) st.
Definition set_errno (e : Z) : P W unit := fun st =>
  Ret tt (State e (hp st) (ctx st) (world st)).
Definition get_ctx : P W modbus_t := fun st => Ret (ctx st) st.
Definition set_ctx (c : modbus_t) : P W unit := fun st =>
  Ret tt (State (errno st) (hp st) c (world st)).
Definition upd_ctx (f : modbus_t -> modbus_t) : P W unit := fun st =>
  Ret tt (State (errno st) (hp st) (f (ctx st)) (world st)).

(** A system call. *)
Definition sys {R} (op : W -> W * option Z * R) : P W R := fun st =>
  let '(w', e, r) := op (world st) in
  Ret r (State (default (errno st) e) (hp st) (ctx st) w').

(** [errno = e; return -1;] *)
Definition err (e : Z) : P W Z := set_errno e ;;; ret (-1).

(** The value of a member that [malloc] left uninitialised. *)
Definition defined {A} (o : option A) : P W A :=
  match o with Some a => ret a | None => fail Uninit end.

Definition malloc (size : Z) : P W (option positive) :=
  let* ok := sys (fun w => os_malloc_succeeds w size) in
  if (ok : bool) then
    fun st => let h := hp st in
      Ret (Some (next h))
        (State (errno st) {| live := {[next h]} ∪ live h; next := Pos.succ (next h) |}
           (ctx st) (world st))
  else ret None.

Definition free (p : option positive) : P W unit :=
  match p with
  | None => ret tt
  | Some b => fun st => let h := hp st in
      if decide (b ∈ live h) then
        Ret tt (State (errno st) {| live := live h ∖ {[b]}; next := next h |} (ctx st) (world st))
      else Fault OutOfBounds
  end.

(** A NUL-terminated string read from a character array. *)
Fixpoint cstr (b : buf) : P W (list Z) :=
  match b with
  | [] => fail OutOfBounds
  | None :: _ => fail Uninit
  | Some x :: b' => if x =? 0 then ret [] else let* r := cstr b' in ret (x :: r)
  end.
End primitives.
