(* ===== verification/Data.v ===== *)
(** modbus-data.c: moving bits between bytes and one-bit-per-byte arrays, and
    32-bit floats between two 16-bit registers in the four byte orders. A C
    [float] is its 32-bit pattern: every function moves it with [memcpy]. *)
From S2P Require Import Prelude.
#[local] Open Scope Z_scope.

Section data.
Context {S : Type}.

(** ** Bits *)
Definition modbus_set_bits_from_byte (dest : list Z) (idx value : Z) : M S (list Z) :=
  for_loop 8 0 (fun i dest =>
    arr_set dest (idx + i) (if Z.land value (Z.shiftl 1 i) =? 0 then 0 else 1)) dest.

(** [tab_byte] is the pointer [tab + base]. The counter is unsigned. *)
Definition modbus_set_bits_from_bytes (dest : list Z) (idx nb_bits : Z)
    (tab : buf) (base : Z) : M S (list Z) :=
  let start := u32 idx in
  let stop := u32 (idx + nb_bits) in
  let* r := for_loop (Z.to_nat (stop - start)) start (fun i '(dest, shift) =>
    let* b := rd tab (base + u32 (i - idx) / 8) in
    let* dest' := arr_set dest i (if Z.land b (Z.shiftl 1 shift) =? 0 then 0 else 1) in
    ret (dest', Z.rem (shift + 1) 8)) (dest, 0) in
  ret (fst r).

(** [assert] aborts unless the build defines NDEBUG (the release build does). *)
Definition modbus_get_byte_from_bits (NDEBUG : bool) (src : list Z) (idx nb_bits : Z) : M S Z :=
  let* nb_bits := (if 8 <? nb_bits then
                     if NDEBUG then ret 8
                     else if nb_bits <? 8 then ret 8 else fail AssertFail
                   else ret nb_bits) in
  for_loop (Z.to_nat nb_bits) 0 (fun i value =>
    let* b := arr_get src (idx + i) in ret (u8 (Z.lor value (Z.shiftl b i)))) 0.

(** ** Byte order *)
Definition bswap_16 (x : Z) : Z := u16 (Z.lor (Z.shiftr x 8) (Z.shiftl x 8)).
Definition bswap_32 (x : Z) : Z :=
  u32 (Z.lor (Z.shiftl (bswap_16 (Z.land x 65535)) 16) (bswap_16 (u16 (Z.shiftr x 16)))).
(** The library runs on a little-endian host. *)
Definition ntohl (x : Z) : Z := bswap_32 x.
Definition htonl (x : Z) : Z := bswap_32 x.

Definition modbus_get_float_abcd (src : list Z) : M S Z :=
  let* r0 := arr_get src 0 in let* r1 := arr_get src 1 in
  ret (ntohl (u32 (Z.shiftl r0 16 + r1))).
Definition modbus_get_float_dcba (src : list Z) : M S Z :=
  let* r0 := arr_get src 0 in let* r1 := arr_get src 1 in
  ret (ntohl (bswap_32 (u32 (Z.shiftl r0 16 + r1)))).
Definition modbus_get_float_badc (src : list Z) : M S Z :=
  let* r0 := arr_get src 0 in let* r1 := arr_get src 1 in
  ret (ntohl (u32 (u32 (Z.shiftl (bswap_16 r0) 16) + bswap_16 r1))).
Definition modbus_get_float_cdab (src : list Z) : M S Z :=
  let* r1 := arr_get src 1 in let* r0 := arr_get src 0 in
  ret (ntohl (u32 (Z.shiftl r1 16 + r0))).
Definition modbus_get_float (src : list Z) : M S Z :=
  let* r1 := arr_get src 1 in let* r0 := arr_get src 0 in
  ret (u32 (Z.shiftl r1 16 + r0)).

Definition modbus_set_float_abcd (f : Z) (dest : list Z) : M S (list Z) :=
  let i := htonl f in
  let* dest := arr_set dest 0 (u16 (Z.shiftr i 16)) in
  arr_set dest 1 (u16 i).
Definition modbus_set_float_dcba (f : Z) (dest : list Z) : M S (list Z) :=
  let i := bswap_32 (htonl f) in
  let* dest := arr_set dest 0 (u16 (Z.shiftr i 16)) in
  arr_set dest 1 (u16 i).
Definition modbus_set_float_badc (f : Z) (dest : list Z) : M S (list Z) :=
  let i := htonl f in
  let* dest := arr_set dest 0 (u16 (bswap_16 (u16 (Z.shiftr i 16)))) in
  arr_set dest 1 (u16 (bswap_16 (u16 (Z.land i 65535)))).
Definition modbus_set_float_cdab (f : Z) (dest : list Z) : M S (list Z) :=
  let i := htonl f in
  let* dest := arr_set dest 0 (u16 i) in
  arr_set dest 1 (u16 (Z.shiftr i 16)).
Definition modbus_set_float (f : Z) (dest : list Z) : M S (list Z) :=
  let* dest := arr_set dest 0 (u16 f) in
  arr_set dest 1 (u16 (Z.shiftr f 16)).
End data.

(** ** Bits: the reference reading

    Bit [j] of a byte string, least significant bit of each byte first. *)
Definition bit_at (bytes : list Z) (j : Z) : bool :=
  Z.testbit (nth (Z.to_nat (j / 8)) bytes 0) (j mod 8).
Definition unpack_bits (nb : Z) (bytes : list Z) : list Z :=
  (fun j => b2z (bit_at bytes j)) <$> seqZ 0 nb.

Lemma land_bit x k : 0 <= k -> (if Z.land x (Z.shiftl 1 k) =? 0 then 0 else 1) = b2z (Z.testbit x k).
Proof.
  intros Hk. rewrite Z.shiftl_1_l. destruct (Z.testbit x k) eqn:E; cbn.
  - rewrite (proj2 (Z.eqb_neq _ _)); [done|]. intros H0.
    assert (Z.testbit (Z.land x (2 ^ k)) k = false) as H1 by (rewrite H0; apply Z.bits_0).
    rewrite Z.land_spec, E, Z.pow2_bits_true in H1 by done. done.
  - rewrite (proj2 (Z.eqb_eq _ _)); [done|]. apply Z.bits_inj'. intros n Hn.
    rewrite Z.land_spec, Z.bits_0, Z.pow2_bits_eqb by done.
    destruct (Z.eqb_spec k n) as [<-|]; [by rewrite E|apply andb_false_r].
Qed.

Lemma fmap_seqZ_shift {A} (f g : Z -> A) i n :
  (forall j, 0 <= j < n -> f (i + j) = g j) -> f <$> seqZ i n = g <$> seqZ 0 n.
Proof.
  intros H. unfold seqZ. rewrite <- !list_fmap_compose. apply list_fmap_ext.
  intros k x Hx. apply lookup_seq in Hx as [-> Hk]. cbn.
  rewrite Z.add_comm, H by lia. f_equal. lia.
Qed.

(** The bits land at [idx], the rest of [dest] is untouched. *)
Lemma set_bits_from_bytes_eq {S} (dest : list Z) idx nb (tab : buf) base bytes (s : S) :
  0 <= idx -> 0 <= nb -> idx + nb <= zlen dest -> zlen dest < 4294967296 ->
  0 <= base -> nb <= 8 * zlen bytes ->
  (forall k x, bytes !! k = Some x -> tab !! (Z.to_nat base + k)%nat = Some (Some x)) ->
  modbus_set_bits_from_bytes dest idx nb tab base s
    = Ret (splice dest idx (unpack_bits nb bytes)) s.
Proof.
  intros Hi Hn Hle Hlt Hb Hlen Htab. unfold modbus_set_bits_from_bytes.
  rewrite !u32_id by (unfold is_u32; lia).
  replace (idx + nb - idx) with nb by lia.
  erewrite bind_ret_eq.
  2: { apply (wp_fill _ (fun i => b2z (bit_at bytes (i - idx))) (fun i => (i - idx) mod 8));
         [lia..|by rewrite Z.sub_diag|].
       intros j d' Hj Hd'. cbn beta iota zeta. rewrite u32_id by (unfold is_u32; lia).
       assert (Hq : 0 <= (j - idx) / 8 < zlen bytes) by zdiv.
       destruct (lookup_lt_is_Some_2 bytes (Z.to_nat ((j - idx) / 8))) as [x Hx];
         [unfold zlen in Hq; lia|].
       erewrite bind_ret_eq.
       2: { apply rd_eq; [lia|]. rewrite Z2Nat.inj_add by lia. by apply Htab. }
       rewrite land_bit by (apply Z.mod_pos_bound; lia).
       erewrite bind_ret_eq; [|apply arr_set_eq; lia]. unfold ret. f_equal. f_equal.
       - unfold bit_at. by rewrite (nth_lookup_Some _ _ 0 _ Hx).
       - rewrite Z.rem_mod_nonneg by zdiv. zdiv. }
  unfold ret. cbn. do 2 f_equal. unfold unpack_bits. apply fmap_seqZ_shift.
  intros j Hj. by replace (idx + j - idx) with j by lia.
Qed.

(** ** Floats: a word as its four bytes *)
Definition word4 (a b c d : Z) : Z := a * 16777216 + b * 65536 + c * 256 + d.

Lemma word4_surj x : is_u32 x ->
  exists a b c d, is_u8 a /\ is_u8 b /\ is_u8 c /\ is_u8 d /\ x = word4 a b c d.
Proof.
  unfold is_u32, is_u8, word4. intros H.
  exists (x / 16777216), (x / 65536 mod 256), (x / 256 mod 256), (x mod 256).
  repeat split; try zdiv.
Qed.

Lemma bswap_16_be16 h l : is_u8 h -> is_u8 l -> bswap_16 (be16 h l) = be16 l h.
Proof.
  unfold is_u8. intros Hh Hl. unfold bswap_16.
  rewrite Z.shiftr_div_pow2 by lia.
  assert (Hd : be16 h l / 2 ^ 8 = h) by (rewrite be16_eq; zdiv).
  rewrite Hd, Z.lor_comm, lor_be16 by done.
  unfold u16. rewrite !be16_eq. zdiv.
Qed.

Lemma lor_shl16 h l : is_u16 l -> Z.lor (Z.shiftl h 16) l = h * 65536 + l.
Proof.
  unfold is_u16. intros Hl. rewrite Z.shiftl_mul_pow2 by lia.
  rewrite <- Z.lxor_lor, <- Z.add_nocarry_lxor; [done| |].
  all: apply Z.bits_inj'; intros n Hn; rewrite Z.land_spec, Z.bits_0.
  all: destruct (Z.ltb_spec n 16) as [Hlt|Hge];
    [rewrite Z.mul_pow2_bits_low by lia; done|].
  all: rewrite <- (Z.mod_small l (2 ^ 16)) by lia.
  all: rewrite Z.mod_pow2_bits_high by lia; apply andb_false_r.
Qed.

Lemma land_65535 x : Z.land x 65535 = x mod 65536.
Proof. change 65535 with (Z.ones 16). by rewrite Z.land_ones by lia. Qed.

Section words.
Context (a b c d : Z) (Ha : is_u8 a) (Hb : is_u8 b) (Hc : is_u8 c) (Hd : is_u8 d).

Lemma word4_hi : u16 (Z.shiftr (word4 a b c d) 16) = be16 a b.
Proof.
  unfold is_u8 in *. rewrite Z.shiftr_div_pow2, be16_eq by lia.
  unfold u16, word4. change (2 ^ 16) with 65536. zdiv.
Qed.
Lemma word4_lo : u16 (word4 a b c d) = be16 c d.
Proof. unfold is_u8 in *. rewrite be16_eq. unfold u16, word4. zdiv. Qed.
Lemma word4_land : Z.land (word4 a b c d) 65535 = be16 c d.
Proof. rewrite land_65535. apply word4_lo. Qed.
Lemma word4_join : u32 (Z.shiftl (be16 a b) 16 + be16 c d) = word4 a b c d.
Proof.
  unfold is_u8 in *. rewrite Z.shiftl_mul_pow2, !be16_eq by lia.
  unfold u32, word4. change (2 ^ 16) with 65536. apply Z.mod_small || idtac. zdiv.
Qed.
Lemma bswap_32_word4 : bswap_32 (word4 a b c d) = word4 d c b a.
Proof.
  unfold bswap_32. rewrite word4_land, word4_hi, !bswap_16_be16 by done.
  rewrite lor_shl16 by auto with modbus.
  unfold is_u8 in *. rewrite !be16_eq. unfold u32, word4. zdiv.
Qed.
End words.
Lemma u16_be16 h l : is_u8 h -> is_u8 l -> u16 (be16 h l) = be16 h l.
Proof. intros. by apply u16_id, be16_range. Qed.
#[export] Hint Rewrite u16_be16 word4_hi word4_lo word4_land word4_join bswap_32_word4 bswap_16_be16
  using assumption : words.

(** ** Bits out of a byte and back *)
Lemma set_bits_from_byte_eq {S} (dest : list Z) idx v (s : S) :
  0 <= idx -> idx + 8 <= zlen dest ->
  modbus_set_bits_from_byte dest idx v s
    = Ret (splice dest idx ((fun j => b2z (Z.testbit v j)) <$> seqZ 0 8)) s.
Proof.
  intros Hi Hle. unfold modbus_set_bits_from_byte.
  assert (Hg : wp (for_loop 8 0 (fun i dest =>
      arr_set dest (idx + i) (if Z.land v (Z.shiftl 1 i) =? 0 then 0 else 1)) dest)
    (fun d' s' => s' = s /\ d' = splice dest idx ((fun j => b2z (Z.testbit v j)) <$> seqZ 0 8)) s).
  { apply (wp_for _ (fun j d' s' => s' = s /\
      d' = splice dest idx ((fun j => b2z (Z.testbit v j)) <$> seqZ 0 j)) 8).
    - split; [done|]. change (_ <$> seqZ 0 0) with (@nil Z). by rewrite splice_nil.
    - intros j d' s' Hj [-> ->].
      assert (Hz : zlen ((fun j => b2z (Z.testbit v j)) <$> seqZ 0 j) = j)
        by (rewrite zlen_fmap, zlen_seqZ; lia).
      eapply wp_eq; [apply arr_set_eq; rewrite length_splice; lia|].
      split; [done|]. rewrite land_bit by lia.
      rewrite seqZ_snoc, fmap_app by lia. cbn.
      rewrite <- splice_snoc by lia. by rewrite Hz. }
  apply wp_inv in Hg as (r & s' & -> & -> & ->). done.
Qed.

Lemma testbit_u8_high v k : is_u8 v -> 8 <= k -> Z.testbit v k = false.
Proof.
  unfold is_u8. intros. rewrite <- (Z.mod_small v (2 ^ 8)) by lia.
  by apply Z.mod_pow2_bits_high.
Qed.

(** Adding bit [k] to the low [k] bits of a byte. *)
Lemma mod_pow2_snoc v k : 0 <= k ->
  Z.lor (v mod 2 ^ k) (Z.shiftl (b2z (Z.testbit v k)) k) = v mod 2 ^ (k + 1).
Proof.
  intros Hk. apply Z.bits_inj'. intros n Hn.
  rewrite Z.lor_spec, Z.shiftl_spec by done.
  destruct (Z.lt_trichotomy n k) as [Hlt|[->|Hgt]].
  - rewrite !Z.mod_pow2_bits_low by lia. rewrite (Z.testbit_neg_r _ (n - k)) by lia.
    apply orb_false_r.
  - rewrite Z.mod_pow2_bits_high, Z.mod_pow2_bits_low, Z.sub_diag by lia.
    by destruct (Z.testbit v k).
  - rewrite !Z.mod_pow2_bits_high by lia. cbn.
    destruct (Z.testbit v k); cbn [b2z]; [|apply Z.bits_0].
    change 1 with (2 ^ 0). rewrite Z.pow2_bits_eqb by lia. apply Z.eqb_neq. lia.
Qed.

Lemma get_byte_from_bits_eq {S} nd (src : list Z) idx nb v (s : S) :
  0 <= idx -> 0 <= nb <= 8 -> is_u8 v ->
  (forall j, 0 <= j < nb -> src !! Z.to_nat (idx + j) = Some (b2z (Z.testbit v j))) ->
  modbus_get_byte_from_bits nd src idx nb s = Ret (v mod 2 ^ nb) s.
Proof.
  intros Hi Hn Hv Hsrc. unfold modbus_get_byte_from_bits.
  rewrite (proj2 (Z.ltb_ge 8 nb)) by lia.
  match goal with |- ?m s = _ => assert (Hg : wp m (fun r s' => s' = s /\ r = v mod 2 ^ nb) s) end.
  { apply wp_bind, wp_ret.
    replace (v mod 2 ^ nb) with (v mod 2 ^ (0 + Z.of_nat (Z.to_nat nb))) by (do 2 f_equal; lia).
    apply (wp_for _ (fun j x s' => s' = s /\ x = v mod 2 ^ j)).
    - split; [done|]. by rewrite Z.mod_1_r.
    - intros j x s' Hj [-> ->]. apply wp_bind. eapply wp_eq.
      { apply arr_get_eq; [lia|]. apply Hsrc. lia. }
      apply wp_ret. split; [done|]. rewrite mod_pow2_snoc by lia. apply u8_id.
      unfold is_u8 in *. pose proof (Z.mod_pos_bound v (2 ^ (j + 1))).
      assert (0 < 2 ^ (j + 1)) by (apply Z.pow_pos_nonneg; lia).
      pose proof (Z.mod_le v (2 ^ (j + 1))). lia. }
  apply wp_inv in Hg as (r & s' & -> & -> & ->). done.
Qed.

(** ** Properties *)

(** [modbus_set_bits_from_bytes] completes without touching memory outside
    the two arrays; the entries [idx, idx + nb_bits) of the destination receive
    the bits of the bytes, least significant first, every other entry keeps its
    value and the array its length. *)
Theorem set_bits_from_bytes_spec {S} (dest bytes : list Z) idx nb (s : S) :
  0 <= idx -> 0 <= nb -> idx + nb <= zlen dest -> zlen dest < 4294967296 ->
  nb <= 8 * zlen bytes ->
  exists dest', modbus_set_bits_from_bytes dest idx nb (Some <$> bytes) 0 s = Ret dest' s
    /\ zlen dest' = zlen dest
    /\ (forall j, 0 <= j < nb -> dest' !! Z.to_nat (idx + j) = Some (b2z (bit_at bytes j)))
    /\ (forall j, 0 <= j -> j < idx \/ idx + nb <= j -> dest' !! Z.to_nat j = dest !! Z.to_nat j).
Proof.
  intros Hi Hn Hle Hlt Hlen.
  assert (Hz : zlen (unpack_bits nb bytes) = nb) by (unfold unpack_bits; rewrite zlen_fmap, zlen_seqZ; lia).
  eexists. split.
  { apply (set_bits_from_bytes_eq _ _ _ _ _ bytes); [lia..|]. intros k x Hk. change (Z.to_nat 0 + k)%nat with k. by rewrite list_lookup_fmap, Hk. }
  split; [apply length_splice; lia|]. split.
  - intros j Hj. rewrite splice_lookup_in by lia. replace (idx + j - idx) with j by lia.
    unfold unpack_bits. rewrite list_lookup_fmap, lookup_seqZ_lt by lia. cbn. do 3 f_equal. lia.
  - intros j Hj Hout. apply splice_lookup_out; lia.
Qed.

Lemma set_bits_from_bytes_spec_witness :
  exists dest', modbus_set_bits_from_bytes [7; 7; 7; 7; 7] 1 3 (Some <$> [5]) 0 tt = Ret dest' tt
    /\ zlen dest' = 5
    /\ (forall j, 0 <= j < 3 -> dest' !! Z.to_nat (1 + j) = Some (b2z (bit_at [5] j)))
    /\ (forall j, 0 <= j -> j < 1 \/ 1 + 3 <= j -> dest' !! Z.to_nat j = [7; 7; 7; 7; 7] !! Z.to_nat j).
Proof.
  apply (set_bits_from_bytes_spec [7; 7; 7; 7; 7] [5] 1 3 tt); vm_compute; congruence.
Defined.

(** C39: a byte spread over eight array entries by [modbus_set_bits_from_byte]
    and collected again by [modbus_get_byte_from_bits] is the same byte, in the
    debug and in the release build. *)
Theorem byte_bits_roundtrip {S} NDEBUG (dest : list Z) idx v (s : S) :
  0 <= idx -> idx + 8 <= zlen dest -> is_u8 v ->
  (let* dest' := modbus_set_bits_from_byte dest idx v in
   modbus_get_byte_from_bits NDEBUG dest' idx 8) s = Ret v s.
Proof.
  intros Hi Hle Hv. erewrite bind_ret_eq by (by apply set_bits_from_byte_eq).
  erewrite (get_byte_from_bits_eq _ _ _ _ v); [|lia|lia|done|].
  - rewrite Z.mod_small; [done|exact Hv].
  - intros j Hj. rewrite splice_lookup_in; rewrite ?zlen_fmap, ?zlen_seqZ; [|lia..].
    rewrite list_lookup_fmap, lookup_seqZ_lt by lia. cbn. do 3 f_equal. lia.
Qed.

Lemma byte_bits_roundtrip_witness :
  (let* dest' := modbus_set_bits_from_byte (repeat 0 10) 1 178 in
   modbus_get_byte_from_bits false dest' 1 8) tt = Ret 178 tt.
Proof. apply (byte_bits_roundtrip false (repeat 0 10) 1 178 tt); vm_compute; split || idtac; congruence. Defined.

Lemma arr_pair {S} (dest : list Z) x y (s : S) : 2 <= zlen dest ->
  (let* d := arr_set dest 0 x in arr_set d 1 y) s = Ret (x :: y :: drop 2 dest) s.
Proof.
  destruct dest as [|a [|b l]]; rewrite ?zlen_cons, ?zlen_nil; intros Hl; [lia..|].
  pose proof (zlen_nonneg l).
  rewrite (bind_ret_eq _ _ _ _ _ (arr_set_eq (a :: b :: l) 0 x s ltac:(rewrite !zlen_cons; lia))).
  change (<[Z.to_nat 0:=x]> (a :: b :: l)) with (x :: b :: l).
  by rewrite arr_set_eq by (rewrite !zlen_cons; lia).
Qed.

Lemma arr_get_01 {S A} x y (l : list Z) (k : Z -> Z -> M S A) s :
  (let* r0 := arr_get (x :: y :: l) 0 in let* r1 := arr_get (x :: y :: l) 1 in k r0 r1) s = k x y s.
Proof. done. Qed.
Lemma arr_get_10 {S A} x y (l : list Z) (k : Z -> Z -> M S A) s :
  (let* r1 := arr_get (x :: y :: l) 1 in let* r0 := arr_get (x :: y :: l) 0 in k r1 r0) s = k y x s.
Proof. done. Qed.
Lemma u32_add_l x y : u32 (u32 x + y) = u32 (x + y).
Proof. unfold u32. by rewrite Zplus_mod_idemp_l. Qed.

Ltac word_norm := autorewrite with words.

(** C40: for each of the five byte orders, a float stored in two registers by
    [modbus_set_float_*] is read back unchanged by the matching
    [modbus_get_float_*], and the registers hold the bytes in the order the
    function is named after (bytes A B C D counted from the lowest address of
    the host's little-endian float). *)
Theorem float_roundtrip {S} (dest : list Z) f (s : S) :
  2 <= zlen dest -> is_u32 f ->
  (let* d := modbus_set_float_abcd f dest in modbus_get_float_abcd d) s = Ret f s /\
  (let* d := modbus_set_float_dcba f dest in modbus_get_float_dcba d) s = Ret f s /\
  (let* d := modbus_set_float_badc f dest in modbus_get_float_badc d) s = Ret f s /\
  (let* d := modbus_set_float_cdab f dest in modbus_get_float_cdab d) s = Ret f s /\
  (let* d := modbus_set_float f dest in modbus_get_float d) s = Ret f s /\
  exists a b c d, f = word4 d c b a /\
    modbus_set_float_abcd f dest s = Ret (be16 a b :: be16 c d :: drop 2 dest) s /\
    modbus_set_float_dcba f dest s = Ret (be16 d c :: be16 b a :: drop 2 dest) s /\
    modbus_set_float_badc f dest s = Ret (be16 b a :: be16 d c :: drop 2 dest) s /\
    modbus_set_float_cdab f dest s = Ret (be16 c d :: be16 a b :: drop 2 dest) s.
Proof.
  intros Hl Hf. destruct (word4_surj f Hf) as (d & c & b & a & Hd & Hc & Hb & Ha & ->).
  unfold modbus_set_float_abcd, modbus_set_float_dcba, modbus_set_float_badc,
    modbus_set_float_cdab, modbus_set_float, htonl.
  repeat split; [..|exists a, b, c, d; split; [done|]; repeat split].
  all: word_norm; try (rewrite arr_pair by done; by word_norm).
  all: erewrite bind_ret_eq by (by apply arr_pair).
  all: unfold modbus_get_float_abcd, modbus_get_float_dcba, modbus_get_float_badc,
    modbus_get_float_cdab, modbus_get_float, ntohl.
  all: rewrite ?arr_get_01, ?arr_get_10; unfold ret, ntohl; rewrite ?u32_add_l.
  all: f_equal; by word_norm.
Qed.

Lemma float_roundtrip_witness :
  (let* d := modbus_set_float_badc 305419896 [0; 0] in modbus_get_float_badc d) tt
    = Ret 305419896 tt.
Proof. apply (float_roundtrip [0; 0] 305419896 tt); vm_compute; split || idtac; congruence. Defined.
