(* ===== verification/Crc.v ===== *)
(** modbus-rtu.c, [crc16]: the table-driven checksum of RTU frames, its
    bit-by-bit reference (polynomial 0xA001, initial value 0xFFFF) and what it
    detects. *)
From S2P Require Import Prelude.
#[local] Open Scope Z_scope.

Definition table_crc_hi : list Z := [
     0; 193; 129;  64;   1; 192; 128;  65;   1; 192; 128;  65;   0; 193; 129;  64;
     1; 192; 128;  65;   0; 193; 129;  64;   0; 193; 129;  64;   1; 192; 128;  65;
     1; 192; 128;  65;   0; 193; 129;  64;   0; 193; 129;  64;   1; 192; 128;  65;
     0; 193; 129;  64;   1; 192; 128;  65;   1; 192; 128;  65;   0; 193; 129;  64;
     1; 192; 128;  65;   0; 193; 129;  64;   0; 193; 129;  64;   1; 192; 128;  65;
     0; 193; 129;  64;   1; 192; 128;  65;   1; 192; 128;  65;   0; 193; 129;  64;
     0; 193; 129;  64;   1; 192; 128;  65;   1; 192; 128;  65;   0; 193; 129;  64;
     1; 192; 128;  65;   0; 193; 129;  64;   0; 193; 129;  64;   1; 192; 128;  65;
     1; 192; 128;  65;   0; 193; 129;  64;   0; 193; 129;  64;   1; 192; 128;  65;
     0; 193; 129;  64;   1; 192; 128;  65;   1; 192; 128;  65;   0; 193; 129;  64;
     0; 193; 129;  64;   1; 192; 128;  65;   1; 192; 128;  65;   0; 193; 129;  64;
     1; 192; 128;  65;   0; 193; 129;  64;   0; 193; 129;  64;   1; 192; 128;  65;
     0; 193; 129;  64;   1; 192; 128;  65;   1; 192; 128;  65;   0; 193; 129;  64;
     1; 192; 128;  65;   0; 193; 129;  64;   0; 193; 129;  64;   1; 192; 128;  65;
     1; 192; 128;  65;   0; 193; 129;  64;   0; 193; 129;  64;   1; 192; 128;  65;
     0; 193; 129;  64;   1; 192; 128;  65;   1; 192; 128;  65;   0; 193; 129;  64].

Definition table_crc_lo : list Z := [
     0; 192; 193;   1; 195;   3;   2; 194; 198;   6;   7; 199;   5; 197; 196;   4;
   204;  12;  13; 205;  15; 207; 206;  14;  10; 202; 203;  11; 201;   9;   8; 200;
   216;  24;  25; 217;  27; 219; 218;  26;  30; 222; 223;  31; 221;  29;  28; 220;
    20; 212; 213;  21; 215;  23;  22; 214; 210;  18;  19; 211;  17; 209; 208;  16;
   240;  48;  49; 241;  51; 243; 242;  50;  54; 246; 247;  55; 245;  53;  52; 244;
    60; 252; 253;  61; 255;  63;  62; 254; 250;  58;  59; 251;  57; 249; 248;  56;
    40; 232; 233;  41; 235;  43;  42; 234; 238;  46;  47; 239;  45; 237; 236;  44;
   228;  36;  37; 229;  39; 231; 230;  38;  34; 226; 227;  35; 225;  33;  32; 224;
   160;  96;  97; 161;  99; 163; 162;  98; 102; 166; 167; 103; 165; 101; 100; 164;
   108; 172; 173; 109; 175; 111; 110; 174; 170; 106; 107; 171; 105; 169; 168; 104;
   120; 184; 185; 121; 187; 123; 122; 186; 190; 126; 127; 191; 125; 189; 188; 124;
   180; 116; 117; 181; 119; 183; 182; 118; 114; 178; 179; 115; 177; 113; 112; 176;
    80; 144; 145;  81; 147;  83;  82; 146; 150;  86;  87; 151;  85; 149; 148;  84;
   156;  92;  93; 157;  95; 159; 158;  94;  90; 154; 155;  91; 153;  89;  88; 152;
   136;  72;  73; 137;  75; 139; 138;  74;  78; 142; 143;  79; 141;  77;  76; 140;
    68; 132; 133;  69; 135;  71;  70; 134; 130;  66;  67; 131;  65; 129; 128;  64].

(** The buffer length is a [uint16_t]: longer lengths wrap. *)
Definition crc16 {S} (buffer : buf) (buffer_length : Z) : M S Z :=
  let* r := for_loop (Z.to_nat (u16 buffer_length)) 0 (fun k '(crc_hi, crc_lo) =>
    let* b := rd buffer k in
    let i := Z.lxor crc_hi b in
    let* th := arr_get table_crc_hi i in
    let* tl := arr_get table_crc_lo i in
    ret (Z.lxor crc_lo th, tl)) (255, 255) in
  let '(crc_hi, crc_lo) := r in
  ret (Z.lor (Z.shiftl crc_hi 8) crc_lo).

(** ** Reference: the shift register *)
Definition crc_bit (x : Z) : Z := Z.lxor (Z.shiftr x 1) (if Z.odd x then 40961 else 0).
Definition crc_bits (n : nat) (x : Z) : Z := Nat.iter n crc_bit x.
Definition crc_byte (c b : Z) : Z := crc_bits 8 (Z.lxor c b).
Definition crc_reg (l : list Z) : Z := fold_left crc_byte l 65535.
(** The register is transmitted low byte first, so the C function returns it
    with its bytes exchanged. *)
Definition crc_of (l : list Z) : Z := be16 (lo8 (crc_reg l)) (hi8 (crc_reg l)).

(** A message as one integer, first byte least significant. *)
Fixpoint le_int (l : list Z) : Z :=
  match l with [] => 0 | b :: l' => Z.lxor b (Z.shiftl (le_int l') 8) end.

(** ** The register is linear *)
Lemma crc_bit_lxor x y : crc_bit (Z.lxor x y) = Z.lxor (crc_bit x) (crc_bit y).
Proof.
  unfold crc_bit. rewrite Z.shiftr_lxor.
  assert (Ho : Z.odd (Z.lxor x y) = xorb (Z.odd x) (Z.odd y)) by (rewrite <- !Z.bit0_odd; apply Z.lxor_spec).
  rewrite Ho. destruct (Z.odd x), (Z.odd y); cbn [xorb]; rewrite ?Z.lxor_0_r;
    rewrite ?Z.lxor_assoc; f_equal.
  - by rewrite (Z.lxor_comm 40961), Z.lxor_assoc, Z.lxor_nilpotent, Z.lxor_0_r.
  - apply Z.lxor_comm.
Qed.
Lemma crc_bits_succ n x : crc_bits (S n) x = crc_bit (crc_bits n x).
Proof. done. Qed.
Lemma crc_bits_lxor n x y : crc_bits n (Z.lxor x y) = Z.lxor (crc_bits n x) (crc_bits n y).
Proof.
  induction n as [|n IH]; [done|]. by rewrite !crc_bits_succ, IH, crc_bit_lxor.
Qed.
Lemma crc_bits_add n m x : crc_bits (n + m) x = crc_bits n (crc_bits m x).
Proof. unfold crc_bits. apply Nat.iter_add. Qed.
Lemma crc_bits_succ_r n x : crc_bits (S n) x = crc_bits n (crc_bit x).
Proof. unfold crc_bits. apply Nat.iter_succ_r. Qed.
Lemma crc_bit_double x : crc_bit (Z.shiftl x 1) = x.
Proof.
  unfold crc_bit. rewrite Z.shiftr_shiftl_l by lia. cbn.
  replace (Z.odd (Z.shiftl x 1)) with false; [apply Z.lxor_0_r|].
  by rewrite <- Z.bit0_odd, Z.shiftl_spec_low.
Qed.
Lemma crc_bits_shiftl n x : crc_bits n (Z.shiftl x (Z.of_nat n)) = x.
Proof.
  induction n as [|n IH]; [apply Z.shiftl_0_r|].
  rewrite crc_bits_succ_r, Nat2Z.inj_succ, <- Z.add_1_r, <- Z.shiftl_shiftl by lia.
  by rewrite crc_bit_double.
Qed.

(** The whole message can be fed at once. *)
Lemma crc_fold l : forall c,
  fold_left crc_byte l c = crc_bits (8 * length l) (Z.lxor c (le_int l)).
Proof.
  induction l as [|b l IH]; intros c; cbn [fold_left le_int length].
  - by rewrite Z.lxor_0_r.
  - rewrite IH. replace (8 * S (length l))%nat with (8 * length l + 8)%nat by lia.
    rewrite crc_bits_add, <- Z.lxor_assoc, (crc_bits_lxor 8 (Z.lxor c b)).
    by rewrite (crc_bits_shiftl 8).
Qed.

(** ** Ranges *)
Lemma lxor_range x y k : 0 <= k -> 0 <= x < 2 ^ k -> 0 <= y < 2 ^ k -> 0 <= Z.lxor x y < 2 ^ k.
Proof.
  intros Hk Hx Hy. split; [apply Z.lxor_nonneg; lia|].
  destruct (Z.eq_dec (Z.lxor x y) 0) as [->|Hn]; [lia|].
  assert (0 <= Z.lxor x y) by (apply Z.lxor_nonneg; lia).
  apply Z.log2_lt_pow2; [lia|].
  assert (Hm : Z.log2 (Z.lxor x y) <= Z.max (Z.log2 x) (Z.log2 y)) by (apply Z.log2_lxor; lia).
  assert (Hk0 : k <> 0) by (intros ->; assert (x = 0) by lia; assert (y = 0) by lia; subst; done).
  assert (Hl : forall z, 0 <= z < 2 ^ k -> Z.log2 z < k).
  { intros z Hz. destruct (Z.eq_dec z 0) as [->|]; [cbn; lia|]. apply Z.log2_lt_pow2; lia. }
  pose proof (Hl x Hx). pose proof (Hl y Hy). lia.
Qed.
Lemma is_u16_lxor x y : is_u16 x -> is_u16 y -> is_u16 (Z.lxor x y).
Proof. apply (lxor_range x y 16); lia. Qed.
Lemma is_u8_lxor x y : is_u8 x -> is_u8 y -> is_u8 (Z.lxor x y).
Proof. apply (lxor_range x y 8); lia. Qed.
Lemma crc_bit_range x : is_u16 x -> is_u16 (crc_bit x).
Proof.
  intros Hx. apply is_u16_lxor; [|unfold is_u16; destruct (Z.odd x); lia].
  unfold is_u16 in *. rewrite Z.shiftr_div_pow2 by lia. change (2 ^ 1) with 2. zdiv.
Qed.
Lemma crc_bits_range n x : is_u16 x -> is_u16 (crc_bits n x).
Proof. intros Hx. induction n; [done|]. by apply crc_bit_range. Qed.
Lemma is_u8_u16 x : is_u8 x -> is_u16 x.
Proof. unfold is_u8, is_u16. lia. Qed.
Lemma crc_byte_range c b : is_u16 c -> is_u8 b -> is_u16 (crc_byte c b).
Proof. intros. apply crc_bits_range, is_u16_lxor; [done|by apply is_u8_u16]. Qed.
Lemma crc_fold_range l : forall c, is_u16 c -> Forall is_u8 l -> is_u16 (fold_left crc_byte l c).
Proof.
  induction l as [|b l IH]; intros c Hc Hl; [done|]. apply Forall_cons in Hl as [Hb Hl]. cbn.
  by apply IH; [apply crc_byte_range|].
Qed.
Lemma crc_reg_range l : Forall is_u8 l -> is_u16 (crc_reg l).
Proof. apply crc_fold_range. unfold is_u16. lia. Qed.
Lemma crc_of_range l : is_u16 (crc_of l).
Proof. apply be16_range; auto with modbus. Qed.

(** ** The tables agree with the register *)
Definition table_entry_ok (i : Z) : bool :=
  (nth (Z.to_nat i) table_crc_hi 0 =? lo8 (crc_bits 8 i))
  && (nth (Z.to_nat i) table_crc_lo 0 =? hi8 (crc_bits 8 i)).

Lemma tables_ok : forallb table_entry_ok (seqZ 0 256) = true.
Proof. vm_compute. reflexivity. Qed.

Lemma table_lookup i : is_u8 i ->
  table_crc_hi !! Z.to_nat i = Some (lo8 (crc_bits 8 i)) /\
  table_crc_lo !! Z.to_nat i = Some (hi8 (crc_bits 8 i)).
Proof.
  intros Hi. pose proof tables_ok as Ht. rewrite forallb_forall in Ht.
  specialize (Ht i). unfold table_entry_ok in Ht.
  rewrite andb_true_iff, !Z.eqb_eq in Ht.
  destruct Ht as [Hh Hl]; [apply list_elem_of_In, elem_of_seqZ; unfold is_u8 in Hi; lia|].
  unfold is_u8 in Hi. split.
  - destruct (lookup_lt_is_Some_2 table_crc_hi (Z.to_nat i)) as [x Hx]; [cbn; lia|].
    rewrite Hx, <- Hh. by rewrite (nth_lookup_Some _ _ 0 _ Hx).
  - destruct (lookup_lt_is_Some_2 table_crc_lo (Z.to_nat i)) as [x Hx]; [cbn; lia|].
    rewrite Hx, <- Hl. by rewrite (nth_lookup_Some _ _ 0 _ Hx).
Qed.

(** ** The table-driven routine computes the register *)
Lemma lo8_land x : lo8 x = Z.land x 255.
Proof. by rewrite lo8_mod, land_255. Qed.
Lemma lo8_lxor x y : lo8 (Z.lxor x y) = Z.lxor (lo8 x) (lo8 y).
Proof.
  rewrite !lo8_land. apply Z.bits_inj'. intros n Hn.
  rewrite Z.land_spec, !Z.lxor_spec, !Z.land_spec.
  by destruct (Z.testbit x n), (Z.testbit y n), (Z.testbit 255 n).
Qed.
Lemma hi8_shiftr x : is_u16 x -> hi8 x = Z.shiftr x 8.
Proof.
  unfold is_u16. intros Hx. rewrite hi8_div, Z.shiftr_div_pow2 by lia.
  change (2 ^ 8) with 256. zdiv.
Qed.
Lemma hi8_lxor x y : is_u16 x -> is_u16 y -> hi8 (Z.lxor x y) = Z.lxor (hi8 x) (hi8 y).
Proof. intros. by rewrite !hi8_shiftr, Z.shiftr_lxor by auto using is_u16_lxor. Qed.
Lemma word_split x : is_u16 x -> x = Z.lxor (lo8 x) (Z.shiftl (hi8 x) 8).
Proof.
  intros Hx. rewrite <- (be16_split x Hx) at 1.
  rewrite <- lor_be16 by auto with modbus. rewrite Z.lxor_comm. symmetry. apply Z.lxor_lor.
  apply Z.bits_inj'. intros n Hn. rewrite Z.land_spec, Z.bits_0.
  destruct (Z.ltb_spec n 8); [by rewrite Z.shiftl_spec_low by lia|].
  rewrite lo8_land, Z.land_spec.
  change 255 with (Z.ones 8). rewrite Z.ones_spec_high by lia. by rewrite !andb_false_r.
Qed.
Lemma lo8_u8 x : is_u8 x -> lo8 x = x.
Proof. rewrite lo8_mod. apply Z.mod_small. Qed.
Lemma hi8_u8 x : is_u8 x -> hi8 x = 0.
Proof. unfold is_u8. intros. rewrite hi8_div. rewrite Z.div_small by lia. done. Qed.

Lemma crc_step R b : is_u16 R -> is_u8 b ->
  let i := Z.lxor (lo8 R) b in
  crc_byte R b = Z.lxor (crc_bits 8 i) (hi8 R).
Proof.
  intros HR Hb i. unfold crc_byte. rewrite (word_split R HR) at 1.
  rewrite Z.lxor_assoc, (Z.lxor_comm _ b), <- Z.lxor_assoc.
  by rewrite crc_bits_lxor, (crc_bits_shiftl 8).
Qed.

Lemma crc_step_bytes R b : is_u16 R -> is_u8 b ->
  let i := Z.lxor (lo8 R) b in
  is_u8 i /\ lo8 (crc_byte R b) = Z.lxor (hi8 R) (lo8 (crc_bits 8 i)) /\
  hi8 (crc_byte R b) = hi8 (crc_bits 8 i).
Proof.
  intros HR Hb i.
  assert (Hi : is_u8 i) by (apply is_u8_lxor; auto with modbus).
  assert (is_u8 (hi8 R)) by auto with modbus.
  split; [done|]. rewrite crc_step by done. fold i. split.
  - rewrite lo8_lxor, (lo8_u8 (hi8 R)) by done. apply Z.lxor_comm.
  - rewrite hi8_lxor, (hi8_u8 (hi8 R)) by auto using crc_bits_range, is_u8_u16.
    apply Z.lxor_0_r.
Qed.

Lemma fold_crc_snoc l x c : fold_left crc_byte (l ++ [x]) c = crc_byte (fold_left crc_byte l c) x.
Proof. by rewrite fold_left_app. Qed.

Lemma crc16_eq {S} (b : buf) n l (s : S) :
  n = zlen l -> Forall is_u8 l -> n < 65536 ->
  (forall k x, l !! k = Some x -> b !! k = Some (Some x)) ->
  crc16 b n s = Ret (crc_of l) s.
Proof.
  intros -> Hl Hlen Hb. unfold crc16. pose proof (zlen_nonneg l).
  rewrite u16_id by (unfold is_u16; lia).
  match goal with |- (let* r := ?m in _) s = _ =>
    assert (Hg : wp m (fun r s' => s' = s /\ r = (lo8 (crc_reg l), hi8 (crc_reg l))) s) end.
  { eapply wp_mono.
    - apply (wp_for _ (fun k r s' => s' = s /\
        let R := crc_reg (take (Z.to_nat k) l) in r = (lo8 R, hi8 R))).
      + split; done.
      + intros k [crc_hi crc_lo] s' Hk [-> [= -> ->]].
        set (R := crc_reg (take (Z.to_nat k) l)).
        destruct (lookup_lt_is_Some_2 l (Z.to_nat k)) as [x Hx]; [unfold zlen in *; lia|].
        assert (HR : is_u16 R) by (apply crc_reg_range, Forall_take; done).
        assert (Hx8 : is_u8 x) by (by eapply Forall_lookup_1 in Hx).
        destruct (crc_step_bytes R x HR Hx8) as (Hi & Hlo & Hhi).
        destruct (table_lookup _ Hi) as [Hth Htl]. unfold is_u8 in Hi.
        apply wp_bind. eapply wp_eq; [apply rd_eq; [lia|by apply Hb]|].
        apply wp_bind. eapply wp_eq; [apply arr_get_eq; [lia|exact Hth]|].
        apply wp_bind. eapply wp_eq; [apply arr_get_eq; [lia|exact Htl]|].
        apply wp_ret. split; [done|].
        replace (Z.to_nat (k + 1)) with (Datatypes.S (Z.to_nat k)) by lia.
        rewrite (take_S_r _ _ x) by done. cbn zeta. unfold crc_reg.
        rewrite fold_crc_snoc. fold (crc_reg (take (Z.to_nat k) l)). fold R. by rewrite Hlo, Hhi.
    - intros r s' [-> ->]. split; [done|]. cbn zeta.
      unfold zlen in *. by rewrite take_ge by lia. }
  apply wp_inv in Hg as (r & s' & Hr & -> & ->). erewrite bind_ret_eq by exact Hr.
  unfold ret, crc_of. f_equal. apply lor_be16. auto with modbus.
Qed.

(** ** Error detection *)
Lemma crc_bit_zero x : is_u16 x -> crc_bit x = 0 -> x = 0.
Proof.
  unfold is_u16, crc_bit. intros Hx H.
  assert (Hs : Z.shiftr x 1 = x / 2) by (by rewrite Z.shiftr_div_pow2 by lia).
  apply Z.lxor_eq in H. rewrite Hs in H. pose proof (Z.div_mod x 2 ltac:(lia)) as Hdm.
  rewrite (Zmod_odd x) in Hdm. destruct (Z.odd x); lia.
Qed.
Lemma crc_bits_zero n x : is_u16 x -> crc_bits n x = 0 -> x = 0.
Proof.
  intros Hx. induction n as [|n IH]; [done|]. rewrite crc_bits_succ. intros H.
  apply IH, crc_bit_zero; [by apply crc_bits_range|done].
Qed.
Lemma crc_bits_0 n : crc_bits n 0 = 0.
Proof. induction n as [|n IH]; [done|]. by rewrite crc_bits_succ, IH. Qed.

Lemma le_int_range l : Forall is_u8 l -> 0 <= le_int l < 2 ^ (8 * zlen l).
Proof.
  induction l as [|b l IH]; intros Hl; cbn [le_int]; [unfold zlen; cbn; lia|].
  apply Forall_cons in Hl as [Hb Hl]. specialize (IH Hl). rewrite zlen_cons.
  pose proof (zlen_nonneg l).
  assert (Hp : 2 ^ (8 * (1 + zlen l)) = 256 * 2 ^ (8 * zlen l)).
  { rewrite Z.mul_add_distr_l, Z.pow_add_r by lia. done. }
  apply lxor_range; [lia| |].
  - unfold is_u8 in Hb. rewrite Hp. lia.
  - rewrite Hp, Z.shiftl_mul_pow2 by lia. change (2 ^ 8) with 256. lia.
Qed.

(** A burst of at most 16 bits never cancels out of the register. *)
Lemma burst_residue n p k : 0 < p < 65536 -> 0 <= k ->
  Z.shiftl p k < 2 ^ (8 * Z.of_nat n) -> crc_bits (8 * n) (Z.shiftl p k) <> 0.
Proof.
  intros Hp Hk Hlt H0.
  assert (Hkn : k < 8 * Z.of_nat n).
  { apply (Z.pow_lt_mono_r_iff 2); [lia|lia|].
    rewrite Z.shiftl_mul_pow2 in Hlt by lia. pose proof (Z.pow_pos_nonneg 2 k). nia. }
  assert (E : exists m, (8 * n = m + Z.to_nat k)%nat) by (exists (8 * n - Z.to_nat k)%nat; lia).
  destruct E as [m E]. rewrite E, crc_bits_add in H0.
  pose proof (crc_bits_shiftl (Z.to_nat k) p) as Hs. rewrite Z2Nat.id in Hs by done.
  rewrite Hs in H0. apply crc_bits_zero in H0; [lia|unfold is_u16; lia].
Qed.

Lemma crc_reg_diff l l' : length l = length l' ->
  Z.lxor (crc_reg l) (crc_reg l') = crc_bits (8 * length l) (Z.lxor (le_int l) (le_int l')).
Proof.
  intros Hlen. unfold crc_reg. rewrite !crc_fold, <- Hlen, <- crc_bits_lxor. f_equal.
  rewrite (Z.lxor_comm 65535 (le_int l)), Z.lxor_assoc, <- (Z.lxor_assoc 65535 65535).
  by rewrite Z.lxor_nilpotent, Z.lxor_0_l.
Qed.

Lemma burst_changes_reg l l' p k :
  length l = length l' -> Forall is_u8 l -> Forall is_u8 l' ->
  0 < p < 65536 -> 0 <= k -> Z.lxor (le_int l) (le_int l') = Z.shiftl p k ->
  crc_reg l <> crc_reg l'.
Proof.
  intros Hlen Hl Hl' Hp Hk He Heq.
  assert (Hx : Z.lxor (crc_reg l) (crc_reg l') = 0) by (rewrite Heq; apply Z.lxor_nilpotent).
  rewrite crc_reg_diff, He in Hx by done.
  apply (burst_residue (length l) p k Hp Hk); [|done]. rewrite <- He.
  apply le_int_range in Hl, Hl'. unfold zlen in *. rewrite <- Hlen in Hl'.
  apply lxor_range; lia.
Qed.

Lemma crc_of_inj l l' : Forall is_u8 l -> Forall is_u8 l' -> crc_of l = crc_of l' -> crc_reg l = crc_reg l'.
Proof.
  intros Hl Hl' H. apply crc_reg_range in Hl, Hl'. unfold crc_of in H.
  rewrite <- (be16_split _ Hl), <- (be16_split _ Hl').
  pose proof (f_equal hi8 H) as Hh. pose proof (f_equal lo8 H) as Hl0.
  rewrite !hi8_be16 in Hh by auto with modbus. rewrite !lo8_be16 in Hl0 by auto with modbus.
  by rewrite Hh, Hl0.
Qed.

(** The register over a message followed by its checksum bytes. *)
Lemma crc_reg_frame m a b : Forall is_u8 m -> is_u8 a -> is_u8 b ->
  crc_reg (m ++ [a; b]) = 0 <-> be16 a b = crc_of m.
Proof.
  intros Hm Ha Hb. unfold crc_reg at 1. rewrite fold_left_app. fold (crc_reg m).
  rewrite crc_fold. change (8 * length [a; b])%nat with 16%nat. cbn [le_int].
  rewrite Z.shiftl_0_l, Z.lxor_0_r.
  pose proof (crc_reg_range m Hm) as HR.
  assert (He : Z.lxor a (Z.shiftl b 8) = be16 b a).
  { rewrite (word_split (be16 b a)) by auto with modbus. by rewrite lo8_be16, hi8_be16. }
  rewrite He. unfold crc_of. split.
  - intros H0. apply crc_bits_zero in H0; [|by apply is_u16_lxor; auto with modbus].
    apply Z.lxor_eq in H0. rewrite H0. by rewrite lo8_be16, hi8_be16.
  - intros Hc. rewrite <- (be16_split _ HR).
    pose proof (f_equal hi8 Hc) as Hh. pose proof (f_equal lo8 Hc) as Hl.
    rewrite !hi8_be16 in Hh by auto with modbus. rewrite !lo8_be16 in Hl by auto with modbus.
    rewrite <- Hh, <- Hl, Z.lxor_nilpotent. apply crc_bits_0.
Qed.

(** ** Properties *)

(** C36: for every message shorter than 64 KiB the two-table routine returns the
    Modbus CRC-16 computed bit by bit with polynomial 0xA001 from 0xFFFF (bytes
    exchanged, the order in which they are transmitted), and it reads nothing
    beyond the message. *)
Theorem crc16_is_polynomial_crc {S} (l : list Z) (rest : buf) (s : S) :
  Forall is_u8 l -> zlen l < 65536 ->
  crc16 ((Some <$> l) ++ rest) (zlen l) s
    = Ret (be16 (lo8 (crc_reg l)) (hi8 (crc_reg l))) s.
Proof. intros Hl Hn. by apply (crc16_eq _ _ l); [| | |apply lookup_prefix]. Qed.

Lemma crc16_is_polynomial_crc_witness :
  crc16 ((Some <$> [1; 3; 0; 0; 0; 10]) ++ [None]) (zlen [1; 3; 0; 0; 0; 10]) tt
    = Ret 50637 tt.
Proof.
  apply (crc16_is_polynomial_crc [1; 3; 0; 0; 0; 10] [None] tt);
    [repeat constructor; vm_compute; congruence|reflexivity].
Defined.

(** C37: two messages of the same length that differ by a burst of at most 16
    bits, wherever it lies, have different checksums. *)
Theorem crc16_detects_bursts {S} (l l' : list Z) p k (s s' : S) :
  length l = length l' -> Forall is_u8 l -> Forall is_u8 l' -> zlen l < 65536 ->
  0 < p < 65536 -> 0 <= k -> Z.lxor (le_int l) (le_int l') = Z.shiftl p k ->
  exists c c', crc16 (Some <$> l) (zlen l) s = Ret c s /\
    crc16 (Some <$> l') (zlen l') s' = Ret c' s' /\ c <> c'.
Proof.
  intros Hlen Hl Hl' Hn Hp Hk He. exists (crc_of l), (crc_of l').
  split; [|split].
  - apply crc16_eq; [done..|]. intros i x Hx. by rewrite list_lookup_fmap, Hx.
  - apply crc16_eq; [done|done|unfold zlen in *; lia|].
    intros i x Hx. by rewrite list_lookup_fmap, Hx.
  - intros Heq. apply crc_of_inj in Heq; [|done..].
    by apply (burst_changes_reg l l' p k).
Qed.

Lemma crc16_detects_bursts_witness :
  exists c c', crc16 (Some <$> [1; 2; 3]) (zlen [1; 2; 3]) tt = Ret c tt /\
    crc16 (Some <$> [1; 4; 3]) (zlen [1; 4; 3]) tt = Ret c' tt /\ c <> c'.
Proof.
  apply (crc16_detects_bursts [1; 2; 3] [1; 4; 3] 3 9 tt tt);
    try (repeat constructor; vm_compute; congruence); vm_compute; split || idtac; congruence.
Defined.
