(* ===== verification/Backend.v ===== *)
(** The backend interface of the library: [modbus_backend_t] of
    modbus-private.h as a record of operations, and the protocol constants of
    modbus.h. *)
From S2P Require Import Prelude Platform.
#[local] Open Scope Z_scope.

(** ** modbus.h *)
Definition MODBUS_FC_READ_COILS : Z := 1.
Definition MODBUS_FC_READ_DISCRETE_INPUTS : Z := 2.
Definition MODBUS_FC_READ_HOLDING_REGISTERS : Z := 3.
Definition MODBUS_FC_READ_INPUT_REGISTERS : Z := 4.
Definition MODBUS_FC_WRITE_SINGLE_COIL : Z := 5.
Definition MODBUS_FC_WRITE_SINGLE_REGISTER : Z := 6.
Definition MODBUS_FC_READ_EXCEPTION_STATUS : Z := 7.
Definition MODBUS_FC_WRITE_MULTIPLE_COILS : Z := 15.
Definition MODBUS_FC_WRITE_MULTIPLE_REGISTERS : Z := 16.
Definition MODBUS_FC_REPORT_SLAVE_ID : Z := 17.
Definition MODBUS_FC_MASK_WRITE_REGISTER : Z := 22.
Definition MODBUS_FC_WRITE_AND_READ_REGISTERS : Z := 23.

Definition MODBUS_BROADCAST_ADDRESS : Z := 0.
Definition MODBUS_MAX_READ_BITS : Z := 2000.
Definition MODBUS_MAX_WRITE_BITS : Z := 1968.
Definition MODBUS_MAX_READ_REGISTERS : Z := 125.
Definition MODBUS_MAX_WRITE_REGISTERS : Z := 123.
Definition MODBUS_MAX_WR_WRITE_REGISTERS : Z := 121.
Definition MODBUS_MAX_WR_READ_REGISTERS : Z := 125.
Definition MODBUS_MAX_PDU_LENGTH : Z := 253.
Definition MODBUS_MAX_ADU_LENGTH : Z := 260.
Definition MODBUS_ENOBASE : Z := 112345678.

Definition MODBUS_EXCEPTION_ILLEGAL_FUNCTION : Z := 1.
Definition MODBUS_EXCEPTION_ILLEGAL_DATA_ADDRESS : Z := 2.
Definition MODBUS_EXCEPTION_ILLEGAL_DATA_VALUE : Z := 3.
Definition MODBUS_EXCEPTION_SLAVE_OR_SERVER_FAILURE : Z := 4.
Definition MODBUS_EXCEPTION_ACKNOWLEDGE : Z := 5.
Definition MODBUS_EXCEPTION_SLAVE_OR_SERVER_BUSY : Z := 6.
Definition MODBUS_EXCEPTION_NEGATIVE_ACKNOWLEDGE : Z := 7.
Definition MODBUS_EXCEPTION_MEMORY_PARITY : Z := 8.
Definition MODBUS_EXCEPTION_NOT_DEFINED : Z := 9.
Definition MODBUS_EXCEPTION_GATEWAY_PATH : Z := 10.
Definition MODBUS_EXCEPTION_GATEWAY_TARGET : Z := 11.
Definition MODBUS_EXCEPTION_MAX : Z := 12.

Definition EMBXILFUN : Z := MODBUS_ENOBASE + MODBUS_EXCEPTION_ILLEGAL_FUNCTION.
Definition EMBXILADD : Z := MODBUS_ENOBASE + MODBUS_EXCEPTION_ILLEGAL_DATA_ADDRESS.
Definition EMBXILVAL : Z := MODBUS_ENOBASE + MODBUS_EXCEPTION_ILLEGAL_DATA_VALUE.
Definition EMBXSFAIL : Z := MODBUS_ENOBASE + MODBUS_EXCEPTION_SLAVE_OR_SERVER_FAILURE.
Definition EMBXACK : Z := MODBUS_ENOBASE + MODBUS_EXCEPTION_ACKNOWLEDGE.
Definition EMBXSBUSY : Z := MODBUS_ENOBASE + MODBUS_EXCEPTION_SLAVE_OR_SERVER_BUSY.
Definition EMBXNACK : Z := MODBUS_ENOBASE + MODBUS_EXCEPTION_NEGATIVE_ACKNOWLEDGE.
Definition EMBXMEMPAR : Z := MODBUS_ENOBASE + MODBUS_EXCEPTION_MEMORY_PARITY.
Definition EMBXGPATH : Z := MODBUS_ENOBASE + MODBUS_EXCEPTION_GATEWAY_PATH.
Definition EMBXGTAR : Z := MODBUS_ENOBASE + MODBUS_EXCEPTION_GATEWAY_TARGET.
Definition EMBBADCRC : Z := EMBXGTAR + 1.
Definition EMBBADDATA : Z := EMBXGTAR + 2.
Definition EMBBADEXC : Z := EMBXGTAR + 3.
Definition EMBUNKEXC : Z := EMBXGTAR + 4.
Definition EMBMDATA : Z := EMBXGTAR + 5.
Definition EMBBADSLAVE : Z := EMBXGTAR + 6.

(** ** modbus-private.h *)
Definition _MIN_REQ_LENGTH : Z := 12.
Definition _REPORT_SLAVE_ID : Z := 180.
Definition _RESPONSE_TIMEOUT : Z := 500000.
Definition _BYTE_TIMEOUT : Z := 500000.
Definition MAX_MESSAGE_LENGTH : Z := 260.
Definition MSG_LENGTH_UNDEFINED : Z := -1.

Inductive msg_type_t := MSG_INDICATION | MSG_CONFIRMATION.

Record sft_t := { sft_slave : Z; sft_function : Z; sft_t_id : Z }.

(** Every operation but [receive], which is defined from the others in the file
    Receive. A pointer [p + off] into a buffer is the buffer and the offset. *)
Record modbus_backend_t (W : Type) := {
  backend_type : modbus_backend_type_t;
  header_length : Z;
  checksum_length : Z;
  max_adu_length : Z;
  set_slave : Z -> P W Z;
  build_request_basis : Z -> Z -> Z -> buf -> P W (Z * buf);
  build_response_basis : sft_t -> buf -> P W (Z * buf);
  prepare_response_tid : buf -> Z -> P W (Z * Z);
  send_msg_pre : buf -> Z -> P W (Z * buf);
  be_send : buf -> Z -> P W Z;
  be_recv : buf -> Z -> Z -> P W (Z * buf);
  check_integrity : buf -> Z -> P W Z;
  pre_check_confirmation : option (buf -> buf -> Z -> P W Z);
  be_connect : P W Z;
  be_close : P W unit;
  be_flush : P W Z;
  be_select : option timeval -> Z -> P W Z;
  be_free : P W unit
}.
Arguments backend_type {W}. Arguments header_length {W}. Arguments checksum_length {W}.
Arguments max_adu_length {W}. Arguments set_slave {W}. Arguments build_request_basis {W}.
Arguments build_response_basis {W}. Arguments prepare_response_tid {W}.
Arguments send_msg_pre {W}. Arguments be_send {W}. Arguments be_recv {W}.
Arguments check_integrity {W}. Arguments pre_check_confirmation {W}.
Arguments be_connect {W}. Arguments be_close {W}. Arguments be_flush {W}.
Arguments be_select {W}. Arguments be_free {W}.
