(* ===== verification/Rtu.v ===== *)
(** modbus-rtu.c, as compiled on Windows: the serial backend. First the
    framing (header, checksum, integrity check), then the win32 serial port
    with its receive buffer, then opening, closing and configuring the port. *)
From S2P Require Import Prelude Platform Crc Backend.
#[local] Open Scope Z_scope.

Definition _MODBUS_RTU_HEADER_LENGTH : Z := 1.
Definition _MODBUS_RTU_PRESET_REQ_LENGTH : Z := 6.
Definition _MODBUS_RTU_PRESET_RSP_LENGTH : Z := 2.
Definition _MODBUS_RTU_CHECKSUM_LENGTH : Z := 2.
Definition MODBUS_RTU_MAX_ADU_LENGTH : Z := 256.

Definition with_w_ser (v : option win32_ser) (d : modbus_rtu_t) : modbus_rtu_t :=
  Build_modbus_rtu_t (device d) (device_blk d) (baud d) (data_bit d) (stop_bit d) (parity d)
    v (old_dcb d) (confirmation_to_ignore d).
Definition with_old_dcb (v : option DCB) (d : modbus_rtu_t) : modbus_rtu_t :=
  Build_modbus_rtu_t (device d) (device_blk d) (baud d) (data_bit d) (stop_bit d) (parity d)
    (w_ser d) v (confirmation_to_ignore d).
Definition with_confirmation_to_ignore (v : bool) (d : modbus_rtu_t) : modbus_rtu_t :=
  Build_modbus_rtu_t (device d) (device_blk d) (baud d) (data_bit d) (stop_bit d) (parity d)
    (w_ser d) (old_dcb d) v.

Section rtu.
Context {W : Type} `{OS W} {BC : BuildConfig}.

(** [modbus_rtu_t *ctx_rtu = ctx->backend_data] *)
Definition get_rtu : P W modbus_rtu_t :=
  let* c := get_ctx in
  match backend_data c with RtuData d => ret d | _ => fail BadCast end.
Definition upd_rtu (f : modbus_rtu_t -> modbus_rtu_t) : P W unit :=
  let* d := get_rtu in upd_ctx (with_backend_data (RtuData (f d))).
Definition get_ser : P W win32_ser := let* d := get_rtu in defined (w_ser d).
Definition set_ser (ws : win32_ser) : P W unit := upd_rtu (with_w_ser (Some ws)).

(** ** Framing *)
Definition _modbus_rtu_set_slave (sl : Z) : P W Z :=
  if (0 <=? sl) && (sl <=? 247) then upd_ctx (with_slave sl) ;;; ret 0
  else err EINVAL.

Definition _modbus_rtu_build_request_basis (function addr nb : Z) (req : buf) : P W (Z * buf) :=
  let* c := get_ctx in
  (if NDEBUG || negb (slave c =? -1) then ret tt else fail AssertFail) ;;;
  let* req := wr req 0 (slave c) in
  let* req := wr req 1 function in
  let* req := wr req 2 (Z.shiftr addr 8) in
  let* req := wr req 3 (Z.land addr 255) in
  let* req := wr req 4 (Z.shiftr nb 8) in
  let* req := wr req 5 (Z.land nb 255) in
  ret (_MODBUS_RTU_PRESET_REQ_LENGTH, req).

Definition _modbus_rtu_build_response_basis (sft : sft_t) (rsp : buf) : P W (Z * buf) :=
  let* rsp := wr rsp 0 (sft_slave sft) in
  let* rsp := wr rsp 1 (sft_function sft) in
  ret (_MODBUS_RTU_PRESET_RSP_LENGTH, rsp).

Definition _modbus_rtu_prepare_response_tid (req : buf) (req_length : Z) : P W (Z * Z) :=
  ret (0, req_length - _MODBUS_RTU_CHECKSUM_LENGTH).

Definition _modbus_rtu_send_msg_pre (req : buf) (req_length : Z) : P W (Z * buf) :=
  let* crc := crc16 req req_length in
  let* req := wr req req_length (Z.shiftr crc 8) in
  let* req := wr req (req_length + 1) (Z.land crc 255) in
  ret (req_length + 2, req).

Definition _modbus_rtu_pre_check_confirmation (req rsp : buf) (rsp_length : Z) : P W Z :=
  let* r0 := rd req 0 in
  let* p0 := rd rsp 0 in
  if negb (r0 =? p0) && negb (r0 =? MODBUS_BROADCAST_ADDRESS) then err EMBBADSLAVE
  else ret 0.

(** ** The serial port *)
Definition win32_ser_init : P W unit :=
  set_ser {| ws_fd := INVALID_HANDLE_VALUE;
             ws_buf := replicate (Z.to_nat PY_BUF_SIZE) (Some 0);
             ws_n_bytes := 0 |}.

Definition win32_ser_select (max_len : Z) (tv : option timeval) : P W Z :=
  let* ws := get_ser in
  if 0 <? ws_n_bytes ws then ret 1
  else
    let msec := match tv with
                | None => MAXDWORD
                | Some tv =>
                    let m := u32 (tv_sec tv * 1000 + Z.quot (tv_usec tv) 1000) in
                    if m <? 1 then 1 else m
                end in
    let comm_to := {| ReadIntervalTimeout := msec; ReadTotalTimeoutMultiplier := 0;
                      ReadTotalTimeoutConstant := msec; WriteTotalTimeoutMultiplier := 0;
                      WriteTotalTimeoutConstant := 1000 |} in
    let* _ := sys (fun w => os_set_comm_timeouts w (ws_fd ws) comm_to) in
    let max_len := if (PY_BUF_SIZE <? max_len) || (max_len <? 0) then PY_BUF_SIZE else max_len in
    let* r := sys (fun w => os_read_file w (ws_fd ws) max_len) in
    match r with
    | Some bytes =>
        let* b := memcpy (ws_buf ws) 0 (Some <$> bytes) 0 (zlen bytes) in
        set_ser {| ws_fd := ws_fd ws; ws_buf := b; ws_n_bytes := zlen bytes |} ;;;
        if 0 <? zlen bytes then ret 1 else ret 0
    | None =>
        set_ser {| ws_fd := ws_fd ws; ws_buf := ws_buf ws; ws_n_bytes := 0 |} ;;;
        ret (-1)
    end.

Definition win32_ser_read (p_msg : buf) (off max_len : Z) : P W (Z * buf) :=
  let* ws := get_ser in
  let n := ws_n_bytes ws in
  let n := if u32 max_len <? n then u32 max_len else n in
  let* p_msg := (if 0 <? n then memcpy p_msg off (ws_buf ws) 0 n else ret p_msg) in
  set_ser {| ws_fd := ws_fd ws; ws_buf := ws_buf ws; ws_n_bytes := ws_n_bytes ws - n |} ;;;
  ret (n, p_msg).

Definition _modbus_rtu_send (req : buf) (req_length : Z) : P W Z :=
  let* ws := get_ser in
  let* bytes := rd_bytes req req_length in
  let* r := sys (fun w => os_write_file w (ws_fd ws) bytes) in
  match r with Some n_bytes => ret n_bytes | None => ret (-1) end.

Definition _modbus_rtu_recv (rsp : buf) (off rsp_length : Z) : P W (Z * buf) :=
  win32_ser_read rsp off rsp_length.

Definition _modbus_rtu_flush : P W Z :=
  let* ws := get_ser in
  set_ser {| ws_fd := ws_fd ws; ws_buf := ws_buf ws; ws_n_bytes := 0 |} ;;;
  let* ok := sys (fun w => os_purge_comm w (ws_fd ws)) in
  ret (b2z (negb ok)).

Definition _modbus_rtu_select (tv : option timeval) (length_to_read : Z) : P W Z :=
  let* s_rc := win32_ser_select length_to_read tv in
  if s_rc =? 0 then err ETIMEDOUT
  else if s_rc <? 0 then ret (-1)
  else ret s_rc.

Definition _modbus_rtu_check_integrity (msg : buf) (msg_length : Z) : P W Z :=
  let* c := get_ctx in
  let* sl := rd msg 0 in
  if negb (sl =? slave c) && negb (sl =? MODBUS_BROADCAST_ADDRESS) then ret 0
  else
    let* crc_calculated := crc16 msg (msg_length - 2) in
    let* h := rd msg (msg_length - 2) in
    let* l := rd msg (msg_length - 1) in
    let crc_received := u16 (Z.lor (Z.shiftl h 8) l) in
    if crc_calculated =? crc_received then ret msg_length
    else
      (if recovery_protocol c then let* _ := _modbus_rtu_flush in ret tt else ret tt) ;;;
      err EMBBADCRC.

(** ** Port configuration *)
Definition dcb_baud_rate (baud : Z) : Z :=
  if (baud =? 110) || (baud =? 300) || (baud =? 600) || (baud =? 1200) || (baud =? 2400)
     || (baud =? 4800) || (baud =? 9600) || (baud =? 14400) || (baud =? 19200)
     || (baud =? 38400) || (baud =? 57600) || (baud =? 115200) || (baud =? 230400)
     || (baud =? 250000) || (baud =? 460800) || (baud =? 500000) || (baud =? 921600)
     || (baud =? 1000000)
  then baud else 9600.
Definition dcb_byte_size (data_bit : Z) : Z :=
  if data_bit =? 5 then 5 else if data_bit =? 6 then 6 else if data_bit =? 7 then 7 else 8.
Definition dcb_stop_bits (stop_bit : Z) : Z :=
  if stop_bit =? 1 then ONESTOPBIT else TWOSTOPBITS.
(** 'N' is 78, 'E' is 69, 'O' is 79. *)
Definition dcb_parity (parity : Z) : Z * bool :=
  if parity =? 78 then (NOPARITY, false)
  else if parity =? 69 then (EVENPARITY, true)
  else (ODDPARITY, true).
Definition rtu_dcb (d : modbus_rtu_t) (old : DCB) : DCB :=
  {| BaudRate := dcb_baud_rate (baud d); ByteSize := dcb_byte_size (data_bit d);
     StopBits := dcb_stop_bits (stop_bit d);
     Parity := fst (dcb_parity (parity d)); fParity := snd (dcb_parity (parity d));
     fTXContinueOnXoff := true; fOutX := false; fInX := false;
     fBinary := true; fAbortOnError := false; dcb_other := dcb_other old |}.

(** [CloseHandle(fd); fd = INVALID_HANDLE_VALUE; return -1;] *)
Definition rtu_abandon_port (ws : win32_ser) : P W Z :=
  let* _ := sys (fun w => os_close_handle w (ws_fd ws)) in
  set_ser {| ws_fd := INVALID_HANDLE_VALUE; ws_buf := ws_buf ws; ws_n_bytes := ws_n_bytes ws |} ;;;
  ret (-1).

Definition _modbus_rtu_connect : P W Z :=
  win32_ser_init ;;;
  let* d := get_rtu in
  let* h := sys (fun w => os_create_file w (device d)) in
  let* ws := get_ser in
  let ws := {| ws_fd := h; ws_buf := ws_buf ws; ws_n_bytes := ws_n_bytes ws |} in
  set_ser ws ;;;
  if h =? INVALID_HANDLE_VALUE then ret (-1)
  else
    let* old := sys (fun w => os_get_comm_state w h) in
    match old with
    | None => rtu_abandon_port ws
    | Some old =>
        upd_rtu (with_old_dcb (Some old)) ;;;
        let* ok := sys (fun w => os_set_comm_state w h (rtu_dcb d old)) in
        if (ok : bool) then ret 0 else rtu_abandon_port ws
    end.

Definition _modbus_rtu_close : P W unit :=
  let* d := get_rtu in
  let* ws := defined (w_ser d) in
  let* old := defined (old_dcb d) in
  let* _ := sys (fun w => os_set_comm_state w (ws_fd ws) old) in
  let* _ := sys (fun w => os_close_handle w (ws_fd ws)) in
  ret tt.

Definition _modbus_rtu_free : P W unit :=
  let* d := get_rtu in
  let* c := get_ctx in
  free (Some (device_blk d)) ;;; free (Some (data_blk c)) ;;; free (Some (ctx_blk c)).

Definition _modbus_rtu_backend : modbus_backend_t W := {|
  backend_type := BACKEND_TYPE_RTU;
  header_length := _MODBUS_RTU_HEADER_LENGTH;
  checksum_length := _MODBUS_RTU_CHECKSUM_LENGTH;
  max_adu_length := MODBUS_RTU_MAX_ADU_LENGTH;
  set_slave := _modbus_rtu_set_slave;
  build_request_basis := _modbus_rtu_build_request_basis;
  build_response_basis := _modbus_rtu_build_response_basis;
  prepare_response_tid := _modbus_rtu_prepare_response_tid;
  send_msg_pre := _modbus_rtu_send_msg_pre;
  be_send := _modbus_rtu_send;
  be_recv := _modbus_rtu_recv;
  check_integrity := _modbus_rtu_check_integrity;
  pre_check_confirmation := Some _modbus_rtu_pre_check_confirmation;
  be_connect := _modbus_rtu_connect;
  be_close := _modbus_rtu_close;
  be_flush := _modbus_rtu_flush;
  be_select := _modbus_rtu_select;
  be_free := _modbus_rtu_free
|}.

(** ** Public serial settings

    Windows has neither TIOCSRS485 nor TIOCM_RTS, so each of these reports
    that the platform does not support it, once the backend is the right one. *)
Definition is_rtu_backend (c : modbus_t) : bool :=
  match backend c with RTU_BACKEND => true | _ => false end.
Definition rtu_unsupported (p : ctx_ptr) : P W Z :=
  match p with
  | NULL => err EINVAL
  | CTX => let* c := get_ctx in if is_rtu_backend c then err ENOTSUP else err EINVAL
  end.
Definition modbus_rtu_set_serial_mode (p : ctx_ptr) (mode : Z) : P W Z := rtu_unsupported p.
Definition modbus_rtu_get_serial_mode (p : ctx_ptr) : P W Z := rtu_unsupported p.
Definition modbus_rtu_get_rts (p : ctx_ptr) : P W Z := rtu_unsupported p.
Definition modbus_rtu_set_rts (p : ctx_ptr) (mode : Z) : P W Z := rtu_unsupported p.
Definition modbus_rtu_set_custom_rts (p : ctx_ptr) : P W Z := rtu_unsupported p.
Definition modbus_rtu_get_rts_delay (p : ctx_ptr) : P W Z := rtu_unsupported p.
Definition modbus_rtu_set_rts_delay (p : ctx_ptr) (us : Z) : P W Z :=
  match p with
  | NULL => err EINVAL
  | CTX => if us <? 0 then err EINVAL else rtu_unsupported p
  end.
End rtu.
