(* ===== verification/Tcp.v ===== *)
(** modbus-tcp.c, as compiled on Windows: the TCP and the protocol-independent
    TCP backends. First the framing (MBAP header, transaction identifier), then
    the transfer operations on the socket, then establishing connections and
    listening. *)
From S2P Require Import Prelude Platform Backend.
#[local] Open Scope Z_scope.

Definition _MODBUS_TCP_HEADER_LENGTH : Z := 7.
Definition _MODBUS_TCP_PRESET_REQ_LENGTH : Z := 12.
Definition _MODBUS_TCP_PRESET_RSP_LENGTH : Z := 8.
Definition _MODBUS_TCP_CHECKSUM_LENGTH : Z := 0.
Definition MODBUS_TCP_MAX_ADU_LENGTH : Z := 260.
Definition MODBUS_TCP_SLAVE : Z := 255.
Definition UINT16_MAX : Z := 65535.

Section tcp.
Context {W : Type} `{OS W} {FU : Fuel}.

(** ** Framing *)

(** [((modbus_tcp_t * )ctx->backend_data)->t_id]: the transaction identifier is
    the first member of both structures, so the cast reads it in either. *)
Definition get_t_id : P W Z :=
  let* c := get_ctx in
  match backend_data c with
  | TcpData d => ret (tcp_t_id d)
  | TcpPiData d => ret (pi_t_id d)
  | RtuData _ => fail BadCast
  end.
Definition set_t_id (t : Z) : P W unit :=
  let* c := get_ctx in
  match backend_data c with
  | TcpData d =>
      upd_ctx (with_backend_data (TcpData {| tcp_t_id := t; tcp_port := tcp_port d; tcp_ip := tcp_ip d |}))
  | TcpPiData d =>
      upd_ctx (with_backend_data (TcpPiData {| pi_t_id := t; pi_node := pi_node d; pi_service := pi_service d |}))
  | RtuData _ => fail BadCast
  end.
Definition get_tcp : P W modbus_tcp_t :=
  let* c := get_ctx in match backend_data c with TcpData d => ret d | _ => fail BadCast end.
Definition get_tcp_pi : P W modbus_tcp_pi_t :=
  let* c := get_ctx in match backend_data c with TcpPiData d => ret d | _ => fail BadCast end.

Definition _modbus_tcp_set_slave (sl : Z) : P W Z :=
  if (0 <=? sl) && (sl <=? 247) then upd_ctx (with_slave sl) ;;; ret 0
  else if sl =? MODBUS_TCP_SLAVE then upd_ctx (with_slave sl) ;;; ret 0
  else err EINVAL.

Definition _modbus_tcp_build_request_basis (function addr nb : Z) (req : buf) : P W (Z * buf) :=
  let* t := get_t_id in
  (if t <? UINT16_MAX then set_t_id (t + 1) else set_t_id 0) ;;;
  let* t := get_t_id in
  let* req := wr req 0 (Z.shiftr t 8) in
  let* req := wr req 1 (Z.land t 255) in
  let* req := wr req 2 0 in
  let* req := wr req 3 0 in
  let* c := get_ctx in
  let* req := wr req 6 (slave c) in
  let* req := wr req 7 function in
  let* req := wr req 8 (Z.shiftr addr 8) in
  let* req := wr req 9 (Z.land addr 255) in
  let* req := wr req 10 (Z.shiftr nb 8) in
  let* req := wr req 11 (Z.land nb 255) in
  ret (_MODBUS_TCP_PRESET_REQ_LENGTH, req).

Definition _modbus_tcp_build_response_basis (sft : sft_t) (rsp : buf) : P W (Z * buf) :=
  let* rsp := wr rsp 0 (Z.shiftr (sft_t_id sft) 8) in
  let* rsp := wr rsp 1 (Z.land (sft_t_id sft) 255) in
  let* rsp := wr rsp 2 0 in
  let* rsp := wr rsp 3 0 in
  let* rsp := wr rsp 6 (sft_slave sft) in
  let* rsp := wr rsp 7 (sft_function sft) in
  ret (_MODBUS_TCP_PRESET_RSP_LENGTH, rsp).

Definition _modbus_tcp_prepare_response_tid (req : buf) (req_length : Z) : P W (Z * Z) :=
  let* h := rd req 0 in
  let* l := rd req 1 in
  ret (be16 h l, req_length).

Definition _modbus_tcp_send_msg_pre (req : buf) (req_length : Z) : P W (Z * buf) :=
  let mbap_length := req_length - 6 in
  let* req := wr req 4 (Z.shiftr mbap_length 8) in
  let* req := wr req 5 (Z.land mbap_length 255) in
  ret (req_length, req).

Definition _modbus_tcp_check_integrity (msg : buf) (msg_length : Z) : P W Z := ret msg_length.

Definition _modbus_tcp_pre_check_confirmation (req rsp : buf) (rsp_length : Z) : P W Z :=
  let* q0 := rd req 0 in
  let* p0 := rd rsp 0 in
  let* differs := (if negb (q0 =? p0) then ret true
                   else let* q1 := rd req 1 in let* p1 := rd rsp 1 in ret (negb (q1 =? p1))) in
  if (differs : bool) then err EMBBADDATA
  else
    let* p2 := rd rsp 2 in
    let* bad := (if negb (p2 =? 0) then let* p3 := rd rsp 3 in ret (negb (p3 =? 0))
                 else ret false) in
    if (bad : bool) then err EMBBADDATA else ret 0.

(** ** Transfer *)
Definition _modbus_tcp_send (req : buf) (req_length : Z) : P W Z :=
  let* c := get_ctx in
  let* bytes := rd_bytes req req_length in
  sys (fun w => os_send w (s c) bytes).

Definition _modbus_tcp_recv (rsp : buf) (off rsp_length : Z) : P W (Z * buf) :=
  let* c := get_ctx in
  let* r := sys (fun w => os_recv w (s c) rsp_length) in
  let '(rc, bytes) := r in
  if 0 <? rc then
    let* rsp := memcpy rsp off (Some <$> bytes) 0 (zlen bytes) in ret (rc, rsp)
  else ret (rc, rsp).

Definition _modbus_tcp_flush : P W Z :=
  while_loop fuel (fun rc_sum =>
    let* c := get_ctx in
    let* rc := sys (fun w => os_select_read w (s c) (Some {| tv_sec := 0; tv_usec := 0 |})) in
    if rc =? -1 then ret (inr (-1))
    else
      let* rc := (if rc =? 1 then
                    let* r := sys (fun w => os_recv w (s c) MODBUS_TCP_MAX_ADU_LENGTH) in
                    ret (fst r)
                  else ret rc) in
      let rc_sum := if 0 <? rc then rc_sum + rc else rc_sum in
      if rc =? MODBUS_TCP_MAX_ADU_LENGTH then ret (inl rc_sum) else ret (inr rc_sum)) 0.

Definition _modbus_tcp_select (tv : option timeval) (length_to_read : Z) : P W Z :=
  let* s_rc := while_loop fuel (fun _ : unit =>
    let* c := get_ctx in
    let* s_rc := sys (fun w => os_select_read w (s c) tv) in
    if s_rc =? -1 then
      let* e := get_errno in
      if e =? EINTR then ret (inl tt) else ret (inr (-1))
    else ret (inr s_rc)) tt in
  if s_rc =? -1 then ret (-1)
  else if s_rc =? 0 then err ETIMEDOUT
  else ret s_rc.

Definition _modbus_tcp_close : P W unit :=
  let* c := get_ctx in
  if negb (s c =? -1) then
    let* _ := sys (fun w => os_shutdown w (s c) SHUT_RDWR) in
    let* _ := sys (fun w => os_closesocket w (s c)) in
    upd_ctx (with_s (-1))
  else ret tt.

Definition _modbus_tcp_free : P W unit :=
  let* c := get_ctx in
  free (Some (data_blk c)) ;;; free (Some (ctx_blk c)).

(** ** Connecting *)
Definition _modbus_tcp_init_win32 : P W Z :=
  let* rc := sys os_wsastartup in
  if negb (rc =? 0) then err EIO else ret 0.

Definition _modbus_tcp_set_ipv4_options (so : Z) : P W Z :=
  let* rc := sys (fun w => os_setsockopt w so IPPROTO_TCP TCP_NODELAY 1) in
  if rc =? -1 then ret (-1)
  else
    let* _ := sys (fun w => os_fionbio w so) in
    ret 0.

Definition _connect (sockfd : Z) (addr : sockaddr) (ro_tv : timeval) : P W Z :=
  let* rc := sys (fun w => os_connect w sockfd addr) in
  let* wsaError := (if rc =? -1 then fun st => Ret (os_wsa_last_error (world st)) st else ret 0) in
  if (wsaError =? WSAEWOULDBLOCK) || (wsaError =? WSAEINPROGRESS) then
    let* rc := sys (fun w => os_select_write w sockfd ro_tv) in
    if rc <=? 0 then ret (-1)
    else
      let* r := sys (fun w => os_so_error w sockfd) in
      let '(rc, optval) := r in
      if (rc =? 0) && (optval =? 0) then ret 0 else err ECONNREFUSED
  else ret rc.

(** [close(ctx->s); ctx->s = -1; return -1;] *)
Definition tcp_abandon_socket : P W Z :=
  let* c := get_ctx in
  let* _ := sys (fun w => os_closesocket w (s c)) in
  upd_ctx (with_s (-1)) ;;; ret (-1).

Definition _modbus_tcp_connect : P W Z :=
  let* d := get_tcp in
  let* rc := _modbus_tcp_init_win32 in
  if rc =? -1 then ret (-1)
  else
    let* so := sys (fun w => os_socket w PF_INET SOCK_STREAM 0) in
    upd_ctx (with_s so) ;;;
    if so =? -1 then ret (-1)
    else
      let* rc := _modbus_tcp_set_ipv4_options so in
      if rc =? -1 then tcp_abandon_socket
      else
        let* ip := cstr (tcp_ip d) in
        let* c := get_ctx in
        let* rc := _connect so (SockaddrIn (u16 (tcp_port d)) (os_inet_addr ip))
                     (response_timeout c) in
        if rc =? -1 then tcp_abandon_socket else ret 0.

(** One address of the list: [Some s] leaves the loop with the socket. *)
Definition tcp_pi_try (ai : addrinfo) : P W (option Z) :=
  let* so := sys (fun w => os_socket w (ai_family ai) (ai_socktype ai) (ai_protocol ai)) in
  if so <? 0 then ret None
  else
    (if ai_family ai =? AF_INET then let* _ := _modbus_tcp_set_ipv4_options so in ret tt
     else ret tt) ;;;
    let* c := get_ctx in
    let* rc := _connect so (SockaddrAi (ai_addr ai)) (response_timeout c) in
    if rc =? -1 then
      let* _ := sys (fun w => os_closesocket w so) in ret None
    else ret (Some so).

Fixpoint tcp_pi_connect_list (l : list addrinfo) : P W unit :=
  match l with
  | [] => ret tt
  | ai :: l' =>
      let* r := tcp_pi_try ai in
      match r with
      | Some so => upd_ctx (with_s so)
      | None => tcp_pi_connect_list l'
      end
  end.

Definition _modbus_tcp_pi_connect : P W Z :=
  let* d := get_tcp_pi in
  let* rc := _modbus_tcp_init_win32 in
  if rc =? -1 then ret (-1)
  else
    let* node := cstr (pi_node d) in
    let* service := cstr (pi_service d) in
    let* r := sys (fun w => os_getaddrinfo w (Some node) service AI_ADDRCONFIG) in
    let '(rc, ai_list) := r in
    if negb (rc =? 0) then err ECONNREFUSED
    else
      tcp_pi_connect_list ai_list ;;;
      let* c := get_ctx in
      if s c <? 0 then ret (-1) else ret 0.

(** ** Listening *)
Definition modbus_tcp_listen (p : ctx_ptr) (nb_connection : Z) : P W Z :=
  match p with
  | NULL => err EINVAL
  | CTX =>
      let* d := get_tcp in
      let* rc := _modbus_tcp_init_win32 in
      if rc =? -1 then ret (-1)
      else
        let* new_s := sys (fun w => os_socket w PF_INET SOCK_STREAM IPPROTO_TCP) in
        if new_s =? -1 then ret (-1)
        else
          let abandon_listen := let* _ := sys (fun w => os_closesocket w new_s) in ret (-1) in
          let* rc := sys (fun w => os_setsockopt w new_s SOL_SOCKET SO_REUSEADDR 1) in
          if rc =? -1 then abandon_listen
          else
            let* ip0 := rd (tcp_ip d) 0 in
            let* addr := (if ip0 =? 48 then ret 0
                          else let* ip := cstr (tcp_ip d) in ret (os_inet_addr ip)) in
            let* rc := sys (fun w => os_bind w new_s (SockaddrIn (u16 (tcp_port d)) addr)) in
            if rc =? -1 then abandon_listen
            else
              let* rc := sys (fun w => os_listen w new_s nb_connection) in
              if rc =? -1 then abandon_listen else ret new_s
  end.

(** One address of the list: [Some s] is the listening socket. *)
Definition tcp_pi_listen_try (nb_connection : Z) (ai : addrinfo) : P W (option Z) :=
  let* so := sys (fun w => os_socket w (ai_family ai) (ai_socktype ai) (ai_protocol ai)) in
  if so <? 0 then ret None
  else
    let abandon_listen := let* _ := sys (fun w => os_closesocket w so) in ret None in
    let* rc := sys (fun w => os_setsockopt w so SOL_SOCKET SO_REUSEADDR 1) in
    if negb (rc =? 0) then abandon_listen
    else
      let* rc := sys (fun w => os_bind w so (SockaddrAi (ai_addr ai))) in
      if negb (rc =? 0) then abandon_listen
      else
        let* rc := sys (fun w => os_listen w so nb_connection) in
        if negb (rc =? 0) then abandon_listen else ret (Some so).

Fixpoint tcp_pi_listen_list (nb_connection : Z) (l : list addrinfo) : P W Z :=
  match l with
  | [] => ret (-1)
  | ai :: l' =>
      let* r := tcp_pi_listen_try nb_connection ai in
      match r with Some so => ret so | None => tcp_pi_listen_list nb_connection l' end
  end.

Definition modbus_tcp_pi_listen (p : ctx_ptr) (nb_connection : Z) : P W Z :=
  match p with
  | NULL => err EINVAL
  | CTX =>
      let* d := get_tcp_pi in
      let* rc := _modbus_tcp_init_win32 in
      if rc =? -1 then ret (-1)
      else
        let* n0 := rd (pi_node d) 0 in
        let* node := (if n0 =? 0 then ret None
                      else let* n := cstr (pi_node d) in ret (Some n)) in
        let* s0 := rd (pi_service d) 0 in
        let* service := (if s0 =? 0 then ret [53; 48; 50] else cstr (pi_service d)) in
        let* r := sys (fun w => os_getaddrinfo w node service (Z.lor AI_PASSIVE AI_ADDRCONFIG)) in
        let '(rc, ai_list) := r in
        if negb (rc =? 0) then err ECONNREFUSED
        else
          let* new_s := tcp_pi_listen_list nb_connection ai_list in
          if new_s <? 0 then ret (-1) else ret new_s
  end.

Definition modbus_tcp_accept (p : ctx_ptr) (so : Z) : P W Z :=
  match p with
  | NULL => err EINVAL
  | CTX =>
      let* new_s := sys (fun w => os_accept w so) in
      upd_ctx (with_s new_s) ;;;
      let* c := get_ctx in
      if s c =? -1 then ret (-1) else ret (s c)
  end.

Definition modbus_tcp_pi_accept (p : ctx_ptr) (so : Z) : P W Z :=
  match p with
  | NULL => err EINVAL
  | CTX =>
      let* new_s := sys (fun w => os_accept w so) in
      upd_ctx (with_s new_s) ;;;
      let* c := get_ctx in
      if s c =? -1 then ret (-1) else ret (s c)
  end.

Definition _modbus_tcp_backend : modbus_backend_t W := {|
  backend_type := BACKEND_TYPE_TCP;
  header_length := _MODBUS_TCP_HEADER_LENGTH;
  checksum_length := _MODBUS_TCP_CHECKSUM_LENGTH;
  max_adu_length := MODBUS_TCP_MAX_ADU_LENGTH;
  set_slave := _modbus_tcp_set_slave;
  build_request_basis := _modbus_tcp_build_request_basis;
  build_response_basis := _modbus_tcp_build_response_basis;
  prepare_response_tid := _modbus_tcp_prepare_response_tid;
  send_msg_pre := _modbus_tcp_send_msg_pre;
  be_send := _modbus_tcp_send;
  be_recv := _modbus_tcp_recv;
  check_integrity := _modbus_tcp_check_integrity;
  pre_check_confirmation := Some _modbus_tcp_pre_check_confirmation;
  be_connect := _modbus_tcp_connect;
  be_close := _modbus_tcp_close;
  be_flush := _modbus_tcp_flush;
  be_select := _modbus_tcp_select;
  be_free := _modbus_tcp_free
|}.

Definition _modbus_tcp_pi_backend : modbus_backend_t W := {|
  backend_type := BACKEND_TYPE_TCP;
  header_length := _MODBUS_TCP_HEADER_LENGTH;
  checksum_length := _MODBUS_TCP_CHECKSUM_LENGTH;
  max_adu_length := MODBUS_TCP_MAX_ADU_LENGTH;
  set_slave := _modbus_tcp_set_slave;
  build_request_basis := _modbus_tcp_build_request_basis;
  build_response_basis := _modbus_tcp_build_response_basis;
  prepare_response_tid := _modbus_tcp_prepare_response_tid;
  send_msg_pre := _modbus_tcp_send_msg_pre;
  be_send := _modbus_tcp_send;
  be_recv := _modbus_tcp_recv;
  check_integrity := _modbus_tcp_check_integrity;
  pre_check_confirmation := Some _modbus_tcp_pre_check_confirmation;
  be_connect := _modbus_tcp_pi_connect;
  be_close := _modbus_tcp_close;
  be_flush := _modbus_tcp_flush;
  be_select := _modbus_tcp_select;
  be_free := _modbus_tcp_free
|}.
End tcp.
