(* ===== verification/Core.v ===== *)
(** modbus.c, the transport-independent core: sending a message with error
    recovery, receiving a message step by step, checking a confirmation against
    its request. The functions take the backend table [ctx->backend]. Messages
    printed when [ctx->debug] is set are not modelled. *)
From S2P Require Import Prelude Platform Backend Rtu Tcp.
#[local] Open Scope Z_scope.

Inductive _step_t := _STEP_FUNCTION | _STEP_META | _STEP_DATA.

(** The locals of [_modbus_receive_msg] that its loop changes. *)
Record recv_locals := {
  r_msg : buf; r_msg_length : Z; r_length_to_read : Z;
  r_step : _step_t; r_p_tv : option timeval }.

Section core.
Context {W : Type} `{OS W} {FU : Fuel} {BC : BuildConfig}.

(** The table [ctx->backend] points to. *)
Definition backend_of (b : backend_id) : modbus_backend_t W :=
  match b with
  | RTU_BACKEND => _modbus_rtu_backend
  | TCP_BACKEND => _modbus_tcp_backend
  | TCP_PI_BACKEND => _modbus_tcp_pi_backend
  end.
Definition get_backend : P W (modbus_backend_t W) :=
  let* c := get_ctx in ret (backend_of (backend c)).

Definition _sleep_response_timeout : P W unit :=
  let* c := get_ctx in
  let tv := response_timeout c in
  sys (fun w => os_sleep w (u32 (tv_sec tv * 1000 + Z.quot (tv_usec tv) 1000))).

Section with_backend.
Context (be : modbus_backend_t W).

Definition modbus_flush_be : P W Z := be_flush be.

(** [if (ctx->error_recovery & MODBUS_ERROR_RECOVERY_PROTOCOL) { sleep; flush }] *)
Definition protocol_recovery : P W unit :=
  let* c := get_ctx in
  if recovery_protocol c then
    _sleep_response_timeout ;;; let* _ := modbus_flush_be in ret tt
  else ret tt.

Definition compute_response_length_from_request (req : buf) : P W Z :=
  let offset := header_length be in
  let* fc := rd req offset in
  let finish length := ret (u32 (offset + length + checksum_length be)) in
  if (fc =? MODBUS_FC_READ_COILS) || (fc =? MODBUS_FC_READ_DISCRETE_INPUTS) then
    let* h := rd req (offset + 3) in
    let* l := rd req (offset + 4) in
    let nb := Z.lor (Z.shiftl h 8) l in
    finish (2 + Z.quot nb 8 + (if Z.rem nb 8 =? 0 then 0 else 1))
  else if (fc =? MODBUS_FC_WRITE_AND_READ_REGISTERS) || (fc =? MODBUS_FC_READ_HOLDING_REGISTERS)
          || (fc =? MODBUS_FC_READ_INPUT_REGISTERS) then
    let* h := rd req (offset + 3) in
    let* l := rd req (offset + 4) in
    finish (2 + 2 * Z.lor (Z.shiftl h 8) l)
  else if fc =? MODBUS_FC_READ_EXCEPTION_STATUS then finish 3
  else if fc =? MODBUS_FC_REPORT_SLAVE_ID then ret (u32 MSG_LENGTH_UNDEFINED)
  else if fc =? MODBUS_FC_MASK_WRITE_REGISTER then finish 7
  else finish 5.

(** One attempt of the sending loop and its recovery. *)
Definition send_attempt (msg : buf) (msg_length : Z) : P W Z :=
  let* rc := be_send be msg msg_length in
  let* c := get_ctx in
  (if (rc =? -1) && recovery_link c then
     let* saved_errno := get_errno in
     (if (saved_errno =? EBADF) || (saved_errno =? ECONNRESET) || (saved_errno =? EPIPE) then
        be_close be ;;; _sleep_response_timeout ;;;
        let* _ := be_connect be in ret tt
      else
        _sleep_response_timeout ;;; let* _ := modbus_flush_be in ret tt) ;;;
     set_errno saved_errno
   else ret tt) ;;;
  ret rc.

Definition send_msg (msg : buf) (msg_length : Z) : P W (Z * buf) :=
  let* (msg_length, msg) := send_msg_pre be msg msg_length in
  let* rc := while_loop fuel (fun _ : unit =>
    let* rc := send_attempt msg msg_length in
    let* c := get_ctx in
    if recovery_link c && (rc =? -1) then ret (inl tt) else ret (inr rc)) tt in
  if (0 <? rc) && negb (rc =? msg_length) then
    let* rc := err EMBBADDATA in ret (rc, msg)
  else ret (rc, msg).

(** The declared result type is [uint8_t]. *)
Definition compute_meta_length_after_function (function : Z) (msg_type : msg_type_t) : Z :=
  u8 match msg_type with
     | MSG_INDICATION =>
         if function <=? MODBUS_FC_WRITE_SINGLE_REGISTER then 4
         else if (function =? MODBUS_FC_WRITE_MULTIPLE_COILS)
                 || (function =? MODBUS_FC_WRITE_MULTIPLE_REGISTERS) then 5
         else if function =? MODBUS_FC_MASK_WRITE_REGISTER then 6
         else if function =? MODBUS_FC_WRITE_AND_READ_REGISTERS then 9
         else 0
     | MSG_CONFIRMATION =>
         if (function =? MODBUS_FC_WRITE_SINGLE_COIL)
            || (function =? MODBUS_FC_WRITE_SINGLE_REGISTER)
            || (function =? MODBUS_FC_WRITE_MULTIPLE_COILS)
            || (function =? MODBUS_FC_WRITE_MULTIPLE_REGISTERS) then 4
         else if function =? MODBUS_FC_MASK_WRITE_REGISTER then 6
         else 1
     end.

Definition compute_data_length_after_meta (msg : buf) (msg_type : msg_type_t) : P W Z :=
  let* function := rd msg (header_length be) in
  let* length :=
    match msg_type with
    | MSG_INDICATION =>
        if (function =? MODBUS_FC_WRITE_MULTIPLE_COILS)
           || (function =? MODBUS_FC_WRITE_MULTIPLE_REGISTERS)
        then rd msg (header_length be + 5)
        else if function =? MODBUS_FC_WRITE_AND_READ_REGISTERS
        then rd msg (header_length be + 9)
        else ret 0
    | MSG_CONFIRMATION =>
        if (function <=? MODBUS_FC_READ_INPUT_REGISTERS)
           || (function =? MODBUS_FC_REPORT_SLAVE_ID)
           || (function =? MODBUS_FC_WRITE_AND_READ_REGISTERS)
        then rd msg (header_length be + 1)
        else ret 0
    end in
  ret (length + checksum_length be).

(** What follows the bytes of a completed step: the next step and the bytes
    it needs, or [None] when the message cannot fit ([errno] is set). *)
Definition receive_step_meta (msg : buf) (msg_length : Z) (msg_type : msg_type_t)
    : P W (option (Z * _step_t)) :=
  let* length_to_read := compute_data_length_after_meta msg msg_type in
  if max_adu_length be <? msg_length + length_to_read then
    set_errno EMBBADDATA ;;; ret None
  else ret (Some (length_to_read, _STEP_DATA)).

Definition receive_next_step (msg : buf) (msg_length : Z) (step : _step_t)
    (msg_type : msg_type_t) : P W (option (Z * _step_t)) :=
  match step with
  | _STEP_FUNCTION =>
      let* function := rd msg (header_length be) in
      let length_to_read := compute_meta_length_after_function function msg_type in
      if negb (length_to_read =? 0) then ret (Some (length_to_read, _STEP_META))
      else receive_step_meta msg msg_length msg_type
  | _STEP_META => receive_step_meta msg msg_length msg_type
  | _STEP_DATA => ret (Some (0, _STEP_DATA))
  end.

(** Recovery after a failed [select]. *)
Definition receive_select_failed : P W unit :=
  let* c := get_ctx in
  if recovery_link c then
    let* saved_errno := get_errno in
    (if saved_errno =? ETIMEDOUT then
       _sleep_response_timeout ;;; let* _ := modbus_flush_be in ret tt
     else if saved_errno =? EBADF then
       be_close be ;;; let* _ := be_connect be in ret tt
     else ret tt) ;;;
    set_errno saved_errno
  else ret tt.

(** Recovery after a failed [recv]. *)
Definition receive_recv_failed : P W unit :=
  let* c := get_ctx in
  let* saved_errno := get_errno in
  if recovery_link c && ((saved_errno =? ECONNRESET) || (saved_errno =? ECONNREFUSED)
                         || (saved_errno =? EBADF)) then
    be_close be ;;; let* _ := be_connect be in set_errno saved_errno
  else ret tt.

(** One turn of the receiving loop; [inr None] returns -1. *)
Definition receive_turn (msg_type : msg_type_t) (l : recv_locals)
    : P W (recv_locals + option (buf * Z) * buf) :=
  if r_length_to_read l =? 0 then ret (inr (Some (r_msg l, r_msg_length l), r_msg l))
  else
    let* rc := be_select be (r_p_tv l) (r_length_to_read l) in
    if rc =? -1 then receive_select_failed ;;; ret (inr (None, r_msg l))
    else
      let* (rc, msg) := be_recv be (r_msg l) (r_msg_length l) (r_length_to_read l) in
      let* rc := (if rc =? 0 then err ECONNRESET else ret rc) in
      if rc =? -1 then receive_recv_failed ;;; ret (inr (None, msg))
      else
        let msg_length := r_msg_length l + rc in
        let length_to_read := r_length_to_read l - rc in
        let* next := (if length_to_read =? 0
                      then receive_next_step msg msg_length (r_step l) msg_type
                      else ret (Some (length_to_read, r_step l))) in
        match next with
        | None => ret (inr (None, msg))
        | Some (length_to_read, step) =>
            let* c := get_ctx in
            let bt := byte_timeout c in
            let p_tv := if (0 <? length_to_read) && ((0 <? tv_sec bt) || (0 <? tv_usec bt))
                        then Some bt else r_p_tv l in
            ret (inl {| r_msg := msg; r_msg_length := msg_length;
                        r_length_to_read := length_to_read; r_step := step; r_p_tv := p_tv |})
        end.

Definition _modbus_receive_msg (msg : buf) (msg_type : msg_type_t) : P W (Z * buf) :=
  let* c := get_ctx in
  let l := {| r_msg := msg; r_msg_length := 0;
              r_length_to_read := header_length be + 1;
              r_step := _STEP_FUNCTION;
              r_p_tv := match msg_type with
                        | MSG_INDICATION => None
                        | MSG_CONFIRMATION => Some (response_timeout c)
                        end |} in
  let* r := while_loop fuel (receive_turn msg_type) l in
  match r with
  | (None, msg) => ret (-1, msg)
  | (Some (msg, msg_length), _) =>
      let* rc := check_integrity be msg msg_length in ret (rc, msg)
  end.

(** The two sides of the number-of-values comparison. *)
Definition confirmation_values (function : Z) (req rsp : buf) : P W (Z * Z) :=
  let offset := header_length be in
  if (function =? MODBUS_FC_READ_COILS) || (function =? MODBUS_FC_READ_DISCRETE_INPUTS) then
    let* h := rd req (offset + 3) in
    let* l := rd req (offset + 4) in
    let req_nb_value := be16 h l in
    let req_nb_value := Z.quot req_nb_value 8 + (if Z.rem req_nb_value 8 =? 0 then 0 else 1) in
    let* rsp_nb_value := rd rsp (offset + 1) in
    ret (req_nb_value, rsp_nb_value)
  else if (function =? MODBUS_FC_WRITE_AND_READ_REGISTERS)
          || (function =? MODBUS_FC_READ_HOLDING_REGISTERS)
          || (function =? MODBUS_FC_READ_INPUT_REGISTERS) then
    let* h := rd req (offset + 3) in
    let* l := rd req (offset + 4) in
    let* n := rd rsp (offset + 1) in
    ret (be16 h l, Z.quot n 2)
  else if (function =? MODBUS_FC_WRITE_MULTIPLE_COILS)
          || (function =? MODBUS_FC_WRITE_MULTIPLE_REGISTERS) then
    let* h := rd req (offset + 3) in
    let* l := rd req (offset + 4) in
    let* h' := rd rsp (offset + 3) in
    let* l' := rd rsp (offset + 4) in
    ret (be16 h l, Z.lor (Z.shiftl h' 8) l')
  else if function =? MODBUS_FC_REPORT_SLAVE_ID then
    let* n := rd rsp (offset + 1) in ret (n, n)
  else ret (1, 1).

Definition check_confirmation (req rsp : buf) (rsp_length : Z) : P W Z :=
  let offset := header_length be in
  let* function := rd rsp offset in
  let* rc := match pre_check_confirmation be with
             | Some f => f req rsp rsp_length
             | None => ret 0
             end in
  if rc =? -1 then protocol_recovery ;;; ret (-1)
  else
    let* computed := compute_response_length_from_request req in
    let rsp_length_computed := i32 computed in
    if 128 <=? function then
      let* req_function := rd req offset in
      if (rsp_length =? offset + 2 + checksum_length be) && (req_function =? function - 128) then
        let* exception_code := rd rsp (offset + 1) in
        if exception_code <? MODBUS_EXCEPTION_MAX then err (MODBUS_ENOBASE + exception_code)
        else err EMBBADEXC
      else err EMBBADEXC
    else if ((rsp_length =? rsp_length_computed)
             || (rsp_length_computed =? MSG_LENGTH_UNDEFINED)) && (function <? 128) then
      let* req_function := rd req offset in
      if negb (function =? req_function) then protocol_recovery ;;; err EMBBADDATA
      else
        let* (req_nb_value, rsp_nb_value) := confirmation_values function req rsp in
        if req_nb_value =? rsp_nb_value then ret rsp_nb_value
        else protocol_recovery ;;; err EMBBADDATA
    else protocol_recovery ;;; err EMBBADDATA.

(** The reception of an indication by a TCP and by an RTU server. *)
Definition _modbus_tcp_receive (req : buf) : P W (Z * buf) :=
  _modbus_receive_msg req MSG_INDICATION.

Definition _modbus_rtu_receive (req : buf) : P W (Z * buf) :=
  let* d := get_rtu in
  if confirmation_to_ignore d then
    let* (_, req) := _modbus_receive_msg req MSG_CONFIRMATION in
    upd_rtu (with_confirmation_to_ignore false) ;;; ret (0, req)
  else
    let* (rc, req) := _modbus_receive_msg req MSG_INDICATION in
    (if rc =? 0 then upd_rtu (with_confirmation_to_ignore true) else ret tt) ;;;
    ret (rc, req).
End with_backend.

(** ** Public entry points *)
Definition modbus_flush (p : ctx_ptr) : P W Z :=
  match p with NULL => err EINVAL | CTX => let* be := get_backend in be_flush be end.

Definition modbus_receive (p : ctx_ptr) (req : buf) : P W (Z * buf) :=
  match p with
  | NULL => let* rc := err EINVAL in ret (rc, req)
  | CTX =>
      let* c := get_ctx in
      let be := backend_of (backend c) in
      match backend c with
      | RTU_BACKEND => _modbus_rtu_receive be req
      | _ => _modbus_tcp_receive be req
      end
  end.

Definition modbus_receive_confirmation (p : ctx_ptr) (rsp : buf) : P W (Z * buf) :=
  match p with
  | NULL => let* rc := err EINVAL in ret (rc, rsp)
  | CTX => let* be := get_backend in _modbus_receive_msg be rsp MSG_CONFIRMATION
  end.

Definition modbus_send_raw_request (p : ctx_ptr) (raw_req : buf) (raw_req_length : Z) : P W Z :=
  match p with
  | NULL => err EINVAL
  | CTX =>
      if (raw_req_length <? 2) || (MODBUS_MAX_PDU_LENGTH + 1 <? raw_req_length) then err EINVAL
      else
        let* be := get_backend in
        let* sl := rd raw_req 0 in
        let* fn := rd raw_req 1 in
        let sft := {| sft_slave := sl; sft_function := fn; sft_t_id := 0 |} in
        let* (req_length, req) := build_response_basis be sft (uninit MAX_MESSAGE_LENGTH) in
        let* (req_length, req) :=
          (if 2 <? raw_req_length then
             let* req := memcpy req req_length raw_req 2 (raw_req_length - 2) in
             ret (req_length + (raw_req_length - 2), req)
           else ret (req_length, req)) in
        let* (rc, _) := send_msg be req req_length in
        ret rc
  end.
End core.
