(* ===== verification/Framing.v ===== *)
(** What a backend promises to the core: the shape of its frames. The class
    [Framing] states it, the RTU and the TCP backends are instances, and the
    theorems about the core, the server and the client are proved against it. *)
From S2P Require Import Prelude Platform Crc Backend Rtu Tcp Core.
#[local] Open Scope Z_scope.

(** A frame is a header, the PDU (function code first) and a checksum. *)
Class Framing {W} `{OS W} `{BuildConfig} (be : modbus_backend_t W) := {
  (** header cells for a slave and transaction; some may not be written yet *)
  hdr : sft_t -> buf -> Prop;
  (** the complete frame *)
  adu : sft_t -> list Z -> list Z;
  (** the transaction identifier a receiver finds in a frame *)
  wire_tid : sft_t -> Z;
  (** the system call that puts a frame on the line *)
  transmit : list Z -> P W Z;
  header_bounds : 1 <= header_length be <= 7;
  checksum_bounds : 0 <= checksum_length be <= 2;
  max_adu_eq : max_adu_length be = header_length be + 253 + checksum_length be;
  max_adu_le : max_adu_length be <= MAX_MESSAGE_LENGTH;
  hdr_length : forall sft h, hdr sft h -> zlen h = header_length be;
  hdr_function : forall sft f h,
    hdr sft h -> hdr {| sft_slave := sft_slave sft; sft_function := f; sft_t_id := sft_t_id sft |} h;
  hdr_slave : forall sft h, hdr sft h -> is_u8 (sft_slave sft) ->
    h !! Z.to_nat (header_length be - 1) = Some (Some (sft_slave sft));
  adu_split : forall sft pdu, exists h t, adu sft pdu = h ++ pdu ++ t /\
    hdr sft (Some <$> h) /\ Forall is_u8 h /\ Forall is_u8 t /\ zlen t = checksum_length be;
  adu_function : forall sft f pdu,
    adu {| sft_slave := sft_slave sft; sft_function := f; sft_t_id := sft_t_id sft |} pdu = adu sft pdu;
  response_basis_eq : forall sft b, header_length be + 1 <= zlen b ->
    exists h r, hdr sft h /\ zlen (h ++ Some (u8 (sft_function sft)) :: r) = zlen b /\
      forall st, build_response_basis be sft b st
        = Ret (header_length be + 1, h ++ Some (u8 (sft_function sft)) :: r) st;
  send_msg_pre_eq : forall sft h pdu r n,
    hdr sft h -> Forall is_u8 pdu -> zlen pdu <= 253 -> checksum_length be <= zlen r ->
    n = header_length be + zlen pdu ->
    exists r', forall st, send_msg_pre be (h ++ (Some <$> pdu) ++ r) n st
      = Ret (zlen (adu sft pdu), (Some <$> adu sft pdu) ++ r') st;
  prepare_tid_eq : forall sft pdu r n st,
    prepare_response_tid be ((Some <$> adu sft pdu) ++ r) n st
      = Ret (wire_tid sft, n - checksum_length be) st;
  wire_sft : forall sft pdu f, is_u8 (sft_slave sft) ->
    adu {| sft_slave := sft_slave sft; sft_function := f; sft_t_id := wire_tid sft |} pdu = adu sft pdu;
  wire_hdr : forall sft h f, hdr sft h ->
    hdr {| sft_slave := sft_slave sft; sft_function := f; sft_t_id := wire_tid sft |} h;
  send_eq : forall l r st, be_send be ((Some <$> l) ++ r) (zlen l) st = transmit l st
}.

Section framing.
Context {W : Type} `{OS W} {FU : Fuel} {BC : BuildConfig}.
Context (be : modbus_backend_t W) {FR : Framing be}.

Lemma adu_length sft pdu :
  zlen (adu sft pdu) = header_length be + zlen pdu + checksum_length be.
Proof.
  destruct (adu_split sft pdu) as (h & t & -> & Hh & _ & _ & Ht).
  rewrite !zlen_app, Ht. apply hdr_length in Hh. rewrite zlen_fmap in Hh. lia.
Qed.

(** [send_msg] on the bytes of a complete frame. *)
Definition frame_attempt (l : list Z) : P W Z :=
  let* rc := transmit l in
  let* c := get_ctx in
  (if (rc =? -1) && recovery_link c then
     let* saved_errno := get_errno in
     (if (saved_errno =? EBADF) || (saved_errno =? ECONNRESET) || (saved_errno =? EPIPE) then
        be_close be ;;; _sleep_response_timeout ;;;
        let* _ := be_connect be in ret tt
      else
        _sleep_response_timeout ;;; let* _ := modbus_flush_be be in ret tt) ;;;
     set_errno saved_errno
   else ret tt) ;;;
  ret rc.
Definition send_frame (l : list Z) : P W Z :=
  let* rc := while_loop fuel (fun _ : unit =>
    let* rc := frame_attempt l in
    let* c := get_ctx in
    if recovery_link c && (rc =? -1) then ret (inl tt) else ret (inr rc)) tt in
  if (0 <? rc) && negb (rc =? zlen l) then err EMBBADDATA else ret rc.

Lemma send_attempt_frame l r st :
  send_attempt be ((Some <$> l) ++ r) (zlen l) st = frame_attempt l st.
Proof. unfold send_attempt, frame_attempt, bind at 1. rewrite send_eq. done. Qed.

Lemma send_msg_frame sft h pdu r n :
  hdr sft h -> Forall is_u8 pdu -> zlen pdu <= 253 -> checksum_length be <= zlen r ->
  n = header_length be + zlen pdu ->
  exists r', forall st, send_msg be (h ++ (Some <$> pdu) ++ r) n st
    = (let* rc := send_frame (adu sft pdu) in
       ret (rc, (Some <$> adu sft pdu) ++ r')) st.
Proof.
  intros Hh Hp Hl Hr Hn.
  destruct (send_msg_pre_eq sft h pdu r n Hh Hp Hl Hr Hn) as [r' Hpre].
  exists r'. intros st. unfold send_msg. erewrite bind_ret_eq by (apply Hpre). cbn beta iota.
  unfold send_frame. rewrite bind_assoc.
  apply bind_ext.
  - apply while_ext. intros a s. apply bind_ext; [apply send_attempt_frame|done].
  - intros rc s. by destruct (_ && _).
Qed.

(** ** Messages under construction *)

(** [(b, n)]: a buffer of [size] bytes holding the header for [sft] and the bytes
    [pdu], the next byte going to index [n]. *)
Definition is_msg (size : Z) (sft : sft_t) (pdu : list Z) (b : buf) (n : Z) : Prop :=
  exists h t, hdr sft h /\ b = h ++ (Some <$> pdu) ++ t /\
    n = header_length be + zlen pdu /\ zlen b = size /\ Forall is_u8 pdu.

Lemma is_msg_wr size sft pdu b n v :
  is_msg size sft pdu b n -> n < size ->
  exists b', is_msg size sft (pdu ++ [u8 v]) b' (n + 1) /\
    forall st : state W, wr b n v st = Ret b' st.
Proof.
  intros (h & t & Hh & -> & -> & Hz & Hp) Hn. rewrite !zlen_app, zlen_fmap in Hz.
  destruct t as [|x t]; [exfalso; rewrite zlen_nil in Hz; apply hdr_length in Hh; lia|].
  rewrite app_assoc. eexists. split; [|intros st; apply wr_app].
  - exists h, t. split; [done|]. split.
    { by rewrite fmap_app, <- !app_assoc. }
    split; [rewrite zlen_app, zlen_cons, zlen_nil; lia|]. split.
    + rewrite !zlen_app, zlen_fmap, !zlen_cons, zlen_nil in *. lia.
    + apply Forall_app. split; [done|]. repeat constructor; apply u8_range.
  - rewrite zlen_app, zlen_fmap. apply hdr_length in Hh. lia.
Qed.

Lemma is_msg_len size sft pdu b n : is_msg size sft pdu b n -> n = header_length be + zlen pdu.
Proof. by intros (h & t & _ & _ & -> & _). Qed.

(** Taking back the last bytes. *)
Lemma is_msg_shrink size sft pdu q b n :
  is_msg size sft (pdu ++ q) b n -> is_msg size sft pdu b (n - zlen q).
Proof.
  intros (h & t & Hh & -> & -> & Hz & Hp). exists h, ((Some <$> q) ++ t).
  apply Forall_app in Hp as [Hp _]. split_and!; [done| | |done|done].
  - by rewrite fmap_app, <- app_assoc.
  - rewrite zlen_app. lia.
Qed.

(** Sending it: the complete frame goes out. *)
Lemma send_is_msg size sft pdu b n : is_msg size sft pdu b n -> zlen pdu <= 253 ->
  header_length be + zlen pdu + checksum_length be <= size ->
  exists r', forall st, send_msg be b n st
    = (let* rc := send_frame (adu sft pdu) in ret (rc, (Some <$> adu sft pdu) ++ r')) st.
Proof.
  intros (h & t & Hh & -> & -> & Hz & Hp) Hl Hs.
  rewrite !zlen_app, zlen_fmap in Hz. pose proof (hdr_length _ _ Hh) as Hhl.
  apply send_msg_frame; (done || lia).
Qed.

(** Responses are built in buffers of the maximal size. *)
Definition is_rsp : sft_t -> list Z -> buf -> Z -> Prop := is_msg MAX_MESSAGE_LENGTH.

Lemma response_basis_rsp sft :
  exists rsp n, is_rsp sft [u8 (sft_function sft)] rsp n /\
    forall st, build_response_basis be sft (uninit MAX_MESSAGE_LENGTH) st = Ret (n, rsp) st.
Proof.
  pose proof header_bounds as Hb.
  destruct (response_basis_eq sft (uninit MAX_MESSAGE_LENGTH)) as (h & r & Hh & Hz & E).
  { rewrite zlen_uninit by done. unfold MAX_MESSAGE_LENGTH. lia. }
  do 2 eexists. split; [|exact E]. exists h, r. split; [done|]. split; [done|].
  split; [by rewrite zlen_cons|]. split; [by rewrite Hz, zlen_uninit|].
  repeat constructor; apply u8_range.
Qed.

Lemma is_rsp_wr sft pdu rsp n v :
  is_rsp sft pdu rsp n -> n < MAX_MESSAGE_LENGTH ->
  exists rsp', is_rsp sft (pdu ++ [u8 v]) rsp' (n + 1) /\
    forall st : state W, wr rsp n v st = Ret rsp' st.
Proof. apply is_msg_wr. Qed.

Lemma is_rsp_len sft pdu rsp n : is_rsp sft pdu rsp n -> n = header_length be + zlen pdu.
Proof. apply is_msg_len. Qed.

Lemma send_rsp sft pdu rsp n :
  is_rsp sft pdu rsp n -> zlen pdu <= 253 ->
  exists rsp', forall st, send_msg be rsp n st
    = (let* rc := send_frame (adu sft pdu) in ret (rc, rsp')) st.
Proof.
  intros Hm Hl. pose proof max_adu_eq as He. pose proof max_adu_le.
  destruct (send_is_msg _ _ _ _ _ Hm Hl) as [r' E]; [lia|]. eexists. exact E.
Qed.
End framing.

(** ** Storing at a constant index of a buffer whose first cells are explicit *)
Ltac wr_step :=
  match goal with
  | |- bind (wr ?b ?i ?v) _ ?st = _ =>
      rewrite (bind_ret_eq _ _ _ _ _ (wr_eq b i v st ltac:(zlen_solve)));
      let n := eval vm_compute in (Z.to_nat i) in change (Z.to_nat i) with n;
      cbn [insert list_insert]
  end.

(** ** The serial backend *)
Section rtu_framing.
Context {W : Type} `{OS W} {BC : BuildConfig}.

Definition rtu_adu (sft : sft_t) (pdu : list Z) : list Z :=
  let m := u8 (sft_slave sft) :: pdu in m ++ [hi8 (crc_of m); lo8 (crc_of m)].
Definition rtu_transmit (l : list Z) : P W Z :=
  let* ws := get_ser in
  let* r := sys (fun w => os_write_file w (ws_fd ws) l) in
  match r with Some n_bytes => ret n_bytes | None => ret (-1) end.

#[export] Program Instance rtu_framing : Framing _modbus_rtu_backend := {|
  hdr sft h := h = [Some (u8 (sft_slave sft))];
  adu := rtu_adu; wire_tid _ := 0; transmit := rtu_transmit |}.
Next Obligation. cbn. unfold _MODBUS_RTU_HEADER_LENGTH. lia. Qed.
Next Obligation. cbn. unfold _MODBUS_RTU_CHECKSUM_LENGTH. lia. Qed.
Next Obligation. done. Qed.
Next Obligation. done. Qed.
Next Obligation. intros ? ? ->. done. Qed.
Next Obligation. done. Qed.
Next Obligation. intros sft h -> Hs. cbn. by rewrite u8_id. Qed.
Next Obligation.
  intros sft pdu. set (m := u8 (sft_slave sft) :: pdu).
  exists [u8 (sft_slave sft)], [hi8 (crc_of m); lo8 (crc_of m)].
  repeat split; auto with modbus. all: repeat constructor; apply u8_range.
Qed.
Next Obligation. done. Qed.
Next Obligation.
  intros sft b. cbn [header_length _modbus_rtu_backend build_response_basis].
  unfold _MODBUS_RTU_HEADER_LENGTH, _modbus_rtu_build_response_basis. intros Hl.
  destruct b as [|c0 [|c1 r]]; rewrite ?zlen_cons, ?zlen_nil in Hl; [lia..|].
  exists [Some (u8 (sft_slave sft))], r. split; [done|]. split; [zlen_solve|].
  intros st. do 2 wr_step. done.
Qed.
Next Obligation.
  intros sft h pdu r n -> Hp Hl Hr Hn. cbn [header_length checksum_length _modbus_rtu_backend send_msg_pre] in *.
  unfold _MODBUS_RTU_HEADER_LENGTH, _MODBUS_RTU_CHECKSUM_LENGTH, _modbus_rtu_send_msg_pre in *.
  destruct r as [|c0 [|c1 r]]; rewrite ?zlen_cons, ?zlen_nil in Hr; [lia..|].
  set (m := u8 (sft_slave sft) :: pdu).
  assert (Hm : Forall is_u8 m) by (constructor; [apply u8_range|done]).
  assert (Hn' : n = zlen m) by (unfold m; rewrite zlen_cons; lia).
  exists r. intros st. change ([Some (u8 (sft_slave sft))] ++ (Some <$> pdu) ++ c0 :: c1 :: r)
    with ((Some <$> m) ++ c0 :: c1 :: r).
  erewrite bind_ret_eq; [|apply (crc16_eq _ _ m); [done|done|lia|apply lookup_prefix]].
  erewrite bind_ret_eq; [|apply wr_app; by rewrite zlen_fmap].
  erewrite bind_ret_eq; [|apply wr_app; rewrite zlen_app, zlen_fmap, zlen_cons, zlen_nil; lia].
  unfold ret. unfold rtu_adu. fold m. rewrite zlen_app, !zlen_cons, zlen_nil.
  rewrite fmap_app, <- !app_assoc. cbn. do 2 f_equal. lia.
Qed.
Next Obligation. done. Qed.
Next Obligation. done. Qed.
Next Obligation. done. Qed.
Next Obligation.
  intros l r st. cbn [be_send _modbus_rtu_backend]. unfold _modbus_rtu_send, rtu_transmit.
  apply bind_ext; [done|]. intros ws s'. by erewrite bind_ret_eq by apply rd_bytes_eq.
Qed.
End rtu_framing.

(** ** The TCP backends *)
Section tcp_framing.
Context {W : Type} `{OS W} {FU : Fuel} {BC : BuildConfig}.

Definition tcp_hdr (sft : sft_t) (h : buf) : Prop := exists x y,
  h = [Some (hi8 (sft_t_id sft)); Some (lo8 (sft_t_id sft)); Some 0; Some 0; x; y;
       Some (u8 (sft_slave sft))].
Definition tcp_adu (sft : sft_t) (pdu : list Z) : list Z :=
  [hi8 (sft_t_id sft); lo8 (sft_t_id sft); 0; 0; hi8 (1 + zlen pdu); lo8 (1 + zlen pdu);
   u8 (sft_slave sft)] ++ pdu.
Definition tcp_transmit (l : list Z) : P W Z :=
  let* c := get_ctx in sys (fun w => os_send w (s c) l).
Definition tcp_wire_tid (sft : sft_t) : Z := be16 (hi8 (sft_t_id sft)) (lo8 (sft_t_id sft)).

Lemma tcp_wire_hi sft : hi8 (tcp_wire_tid sft) = hi8 (sft_t_id sft).
Proof. apply hi8_be16; auto with modbus. Qed.
Lemma tcp_wire_lo sft : lo8 (tcp_wire_tid sft) = lo8 (sft_t_id sft).
Proof. apply lo8_be16; auto with modbus. Qed.

Lemma tcp_response_basis_eq sft (b : buf) : 8 <= zlen b ->
  exists h r, tcp_hdr sft h /\ zlen (h ++ Some (u8 (sft_function sft)) :: r) = zlen b /\
    forall st : state W, _modbus_tcp_build_response_basis sft b st
      = Ret (8, h ++ Some (u8 (sft_function sft)) :: r) st.
Proof.
  intros Hl. unfold _modbus_tcp_build_response_basis.
  destruct b as [|c0 [|c1 [|c2 [|c3 [|c4 [|c5 [|c6 [|c7 r]]]]]]]];
    rewrite ?zlen_cons, ?zlen_nil in Hl; [lia..|].
  exists [Some (hi8 (sft_t_id sft)); Some (lo8 (sft_t_id sft)); Some 0; Some 0; c4; c5;
       Some (u8 (sft_slave sft))], r.
  split; [by exists c4, c5|]. split; [zlen_solve|].
  intros st. do 6 wr_step. done.
Qed.

Lemma tcp_send_msg_pre_eq sft h pdu r n (st : state W) :
  tcp_hdr sft h -> n = 7 + zlen pdu ->
  _modbus_tcp_send_msg_pre (h ++ (Some <$> pdu) ++ r) n st
    = Ret (zlen (tcp_adu sft pdu), (Some <$> tcp_adu sft pdu) ++ r) st.
Proof.
  intros (x & y & ->) ->. unfold _modbus_tcp_send_msg_pre. cbn [app].
  do 2 wr_step. unfold ret. f_equal. f_equal.
  - unfold tcp_adu. zlen_solve.
  - unfold tcp_adu. cbn. rewrite fmap_app || idtac. unfold hi8, lo8.
    replace (7 + zlen pdu - 6) with (1 + zlen pdu) by lia. done.
Qed.

Lemma tcp_prepare_tid_eq sft pdu r n (st : state W) :
  _modbus_tcp_prepare_response_tid ((Some <$> tcp_adu sft pdu) ++ r) n st
    = Ret (tcp_wire_tid sft, n - 0) st.
Proof. rewrite Z.sub_0_r. done. Qed.

Lemma tcp_send_eq l r (st : state W) :
  _modbus_tcp_send ((Some <$> l) ++ r) (zlen l) st = tcp_transmit l st.
Proof.
  unfold _modbus_tcp_send, tcp_transmit. apply bind_ext; [done|].
  intros c s'. by erewrite bind_ret_eq by apply rd_bytes_eq.
Qed.

Lemma tcp_adu_split sft pdu : exists h t, tcp_adu sft pdu = h ++ pdu ++ t /\
  tcp_hdr sft (Some <$> h) /\ Forall is_u8 h /\ Forall is_u8 t /\ zlen t = 0.
Proof.
  eexists _, []. rewrite app_nil_r. split; [reflexivity|].
  split; [by do 2 eexists|]. split; [|by split].
  repeat constructor; try apply u8_range; lia.
Qed.

Lemma tcp_hdr_slave sft h : tcp_hdr sft h -> is_u8 (sft_slave sft) ->
  h !! 6%nat = Some (Some (sft_slave sft)).
Proof. intros (x & y & ->) Hs. cbn. by rewrite u8_id. Qed.

Lemma tcp_wire_sft sft pdu f : 
  tcp_adu {| sft_slave := sft_slave sft; sft_function := f; sft_t_id := tcp_wire_tid sft |} pdu
    = tcp_adu sft pdu.
Proof. unfold tcp_adu. cbn. by rewrite tcp_wire_hi, tcp_wire_lo. Qed.
Lemma tcp_wire_hdr sft h f : tcp_hdr sft h ->
  tcp_hdr {| sft_slave := sft_slave sft; sft_function := f; sft_t_id := tcp_wire_tid sft |} h.
Proof. intros (x & y & ->). exists x, y. cbn. by rewrite tcp_wire_hi, tcp_wire_lo. Qed.

#[export] Instance tcp_framing : Framing _modbus_tcp_backend.
Proof.
  refine {| hdr := tcp_hdr; adu := tcp_adu; wire_tid := tcp_wire_tid; transmit := tcp_transmit |};
    cbn; unfold _MODBUS_TCP_HEADER_LENGTH, _MODBUS_TCP_CHECKSUM_LENGTH; try lia; try done.
  - intros sft h (x & y & ->). done.
  - apply tcp_hdr_slave.
  - apply tcp_adu_split.
  - apply tcp_response_basis_eq.
  - intros sft h pdu r n Hh _ _ _ Hn. exists r. intros st. by apply tcp_send_msg_pre_eq.
  - intros sft pdu r n st. apply tcp_prepare_tid_eq.
  - intros. by apply (tcp_wire_sft sft pdu 0).
  - intros. by apply tcp_wire_hdr.
  - apply tcp_send_eq.
Defined.

#[export] Instance tcp_pi_framing : Framing _modbus_tcp_pi_backend.
Proof.
  refine {| hdr := tcp_hdr; adu := tcp_adu; wire_tid := tcp_wire_tid; transmit := tcp_transmit |};
    cbn; unfold _MODBUS_TCP_HEADER_LENGTH, _MODBUS_TCP_CHECKSUM_LENGTH; try lia; try done.
  - intros sft h (x & y & ->). done.
  - apply tcp_hdr_slave.
  - apply tcp_adu_split.
  - apply tcp_response_basis_eq.
  - intros sft h pdu r n Hh _ _ _ Hn. exists r. intros st. by apply tcp_send_msg_pre_eq.
  - intros sft pdu r n st. apply tcp_prepare_tid_eq.
  - intros. by apply (tcp_wire_sft sft pdu 0).
  - intros. by apply tcp_wire_hdr.
  - apply tcp_send_eq.
Defined.
End tcp_framing.
