(* ===== verification/Receive.v ===== *)
(** Receiving: the byte stream a backend delivers, as an interface, and the
    theorem that [_modbus_receive_msg] takes exactly one frame off it, however
    the stream is cut into pieces. *)
From S2P Require Import Prelude Platform Backend Rtu Tcp Core Framing.
#[local] Open Scope Z_scope.

(** Receiving may change the serial port's buffer; everything else in the context
    stays. *)
Definition same_data (d d' : backend_data_t) : Prop :=
  match d, d' with
  | RtuData a, RtuData a' => a' = with_w_ser (w_ser a') a
  | RtuData _, _ => False
  | _, _ => d' = d
  end.
Definition same_members (c c' : modbus_t) : Prop := c' = with_backend_data (backend_data c') c.
Definition same_settings (c c' : modbus_t) : Prop :=
  same_members c c' /\ same_data (backend_data c) (backend_data c').
#[export] Instance same_members_preorder : PreOrder same_members.
Proof.
  split.
  - by intros [].
  - intros a b c Hab Hbc. unfold same_members in *. rewrite Hbc, Hab. by destruct a, c.
Qed.
#[export] Instance same_settings_preorder : PreOrder same_settings.
Proof.
  split.
  - intros [? ? ? ? ? ? ? d ? ?]. split; [done|]. cbn. by destruct d as [[]| |].
  - intros a b c [Hab Dab] [Hbc Dbc]. split; [by etransitivity|].
    destruct (backend_data a), (backend_data b), (backend_data c); cbn in *; try done; try congruence.
    rewrite Dbc, Dab. by destruct d1.
Qed.
Lemma same_members_backend c c' : same_members c c' -> backend c' = backend c.
Proof. by intros ->. Qed.
Lemma same_settings_backend c c' : same_settings c c' -> backend c' = backend c.
Proof. by intros [-> _]. Qed.
Lemma same_settings_slave c c' : same_settings c c' -> slave c' = slave c.
Proof. by intros [-> _]. Qed.

(** ** Stream interfaces *)

(** A platform that connects two byte streams: when bytes are waiting, [select]
    sees them and a transfer call hands over a non-empty prefix. What was sent has
    gone to a [far_side], which receiving does not change. *)
Class StreamOS (W : Type) `{OS W} := {
  incoming : W -> list Z;
  far_side : Type;
  outgoing : W -> far_side;
  select_incoming : forall w so tv, incoming w <> [] ->
    exists w' e rc, os_select_read w so tv = (w', e, rc) /\ 0 < rc /\ incoming w' = incoming w /\
      outgoing w' = outgoing w;
  recv_incoming : forall w so n, incoming w <> [] -> 1 <= n ->
    exists w' e (k : nat), os_recv w so n = (w', e, (Z.of_nat k, take k (incoming w))) /\
      (1 <= k)%nat /\ Z.of_nat k <= n /\ (k <= length (incoming w))%nat /\
      incoming w' = drop k (incoming w) /\ outgoing w' = outgoing w;
  set_timeouts_incoming : forall w fd t,
    exists w' e ok, os_set_comm_timeouts w fd t = (w', e, ok) /\ incoming w' = incoming w /\
      outgoing w' = outgoing w;
  read_file_incoming : forall w fd n, incoming w <> [] -> 1 <= n ->
    exists w' e (k : nat), os_read_file w fd n = (w', e, Some (take k (incoming w))) /\
      (1 <= k)%nat /\ Z.of_nat k <= n /\ (k <= length (incoming w))%nat /\
      incoming w' = drop k (incoming w) /\ outgoing w' = outgoing w
}.

(** What the receiving loop needs from a backend: in a state that is [ready]
    with the bytes [l] to come, one [select] and one [recv] deliver a non-empty
    piece of at most the requested size and leave a ready state. *)
Class Stream {W} `{OS W} {SO : StreamOS W} (be : modbus_backend_t W) := {
  ready : state W -> list Z -> Prop;
  stream_turn : forall st l tv n p (r : buf), ready st l -> l <> [] -> 1 <= n <= PY_BUF_SIZE ->
    n <= zlen r ->
    exists rc st1 st2 (k : nat), be_select be tv n st = Ret rc st1 /\ rc <> -1 /\
      be_recv be (p ++ r) (zlen p) n st1
        = Ret (Z.of_nat k, p ++ (Some <$> take k l) ++ drop k r) st2 /\
      (1 <= k)%nat /\ Z.of_nat k <= n /\ (k <= length l)%nat /\ ready st2 (drop k l) /\
      same_settings (ctx st) (ctx st2) /\ outgoing (world st2) = outgoing (world st)
}.

(** Fuel for every loop that receives: a frame has at most 260 bytes, and each
    turn takes at least one. *)
Class EnoughFuel `{FU : Fuel} := enough_fuel : (300 <= fuel)%nat.

Section tcp_stream.
Context {W : Type} `{OS W} {FU : Fuel} {EF : EnoughFuel} {BC : BuildConfig} {SO : StreamOS W}.

Definition tcp_ready (st : state W) (l : list Z) : Prop := incoming (world st) = l.

Lemma tcp_turn st l tv n p (r : buf) : tcp_ready st l -> l <> [] -> 1 <= n -> n <= zlen r ->
  exists rc st1 st2 (k : nat), _modbus_tcp_select tv n st = Ret rc st1 /\ rc <> -1 /\
    _modbus_tcp_recv (p ++ r) (zlen p) n st1
      = Ret (Z.of_nat k, p ++ (Some <$> take k l) ++ drop k r) st2 /\
    (1 <= k)%nat /\ Z.of_nat k <= n /\ (k <= length l)%nat /\ tcp_ready st2 (drop k l) /\
    same_settings (ctx st) (ctx st2) /\ outgoing (world st2) = outgoing (world st).
Proof.
  intros Hrd Hl Hn Hr. unfold tcp_ready in *. subst l.
  destruct (select_incoming (world st) (s (ctx st)) tv Hl) as (w1 & e1 & rc & E1 & Hrc & Hw1 & Ho1).
  rewrite <- Hw1 in Hl.
  destruct (recv_incoming w1 (s (ctx st)) n Hl Hn) as (w2 & e2 & k & E2 & Hk1 & Hkn & Hkl & Hw2 & Ho2).
  exists rc, (State (default (errno st) e1) (hp st) (ctx st) w1),
    (State (default (default (errno st) e1) e2) (hp st) (ctx st) w2), k.
  split_and!; try done; try lia.
  - unfold _modbus_tcp_select. pose proof enough_fuel as Hf. destruct fuel as [|fu]; [lia|].
    erewrite bind_ret_eq.
    2: { cbn [while_loop]. unfold bind at 1 2, get_ctx. unfold bind at 1, sys. rewrite E1.
         rewrite (proj2 (Z.eqb_neq rc (-1))) by lia. reflexivity. }
    rewrite (proj2 (Z.eqb_neq rc (-1))), (proj2 (Z.eqb_neq rc 0)) by lia. done.
  - unfold _modbus_tcp_recv, bind at 1, get_ctx. unfold bind at 1, sys. cbn [world ctx errno hp].
    rewrite E2. rewrite (proj2 (Z.ltb_lt _ _)) by lia.
    erewrite bind_ret_eq.
    2: { apply (memcpy_app _ _ _ 0 _ []); [pose proof (zlen_nonneg (Some <$> take k (incoming w1))); lia| |].
         - by rewrite app_nil_r.
         - unfold zlen in *. rewrite length_take. lia. }
    rewrite length_take, Nat.min_l by lia. by rewrite Hw1.
  - by rewrite Hw1 in *.
  - cbn. by rewrite Hw2, Hw1.
  - cbn. by rewrite Ho2, Ho1.
Qed.

#[export] Program Instance tcp_backend_stream : Stream _modbus_tcp_backend := {| ready := tcp_ready |}.
Next Obligation. intros st l tv n p r Hrd Hl Hn Hr. apply tcp_turn; (done || lia). Qed.
#[export] Program Instance tcp_pi_backend_stream : Stream _modbus_tcp_pi_backend := {| ready := tcp_ready |}.
Next Obligation. intros st l tv n p r Hrd Hl Hn Hr. apply tcp_turn; (done || lia). Qed.
End tcp_stream.

Section rtu_stream.
Context {W : Type} `{OS W} {BC : BuildConfig} {SO : StreamOS W}.

(** The port is open and its receive buffer is empty. *)
Definition rtu_ready (st : state W) (l : list Z) : Prop := exists d ws,
  backend_data (ctx st) = RtuData d /\ w_ser d = Some ws /\ ws_n_bytes ws = 0 /\
  zlen (ws_buf ws) = PY_BUF_SIZE /\ incoming (world st) = l.

Lemma get_rtu_eq d (st : state W) : backend_data (ctx st) = RtuData d -> get_rtu st = Ret d st.
Proof. intros E. unfold get_rtu, bind, get_ctx. by rewrite E. Qed.
Lemma get_ser_eq d ws (st : state W) : backend_data (ctx st) = RtuData d -> w_ser d = Some ws ->
  get_ser st = Ret ws st.
Proof. intros E Ew. unfold get_ser. erewrite bind_ret_eq by (by apply get_rtu_eq). by rewrite Ew. Qed.
(** The state after a store into the port structure. *)
Definition stored_ser (d : modbus_rtu_t) (ws : win32_ser) (st : state W) : state W :=
  State (errno st) (hp st) (with_backend_data (RtuData (with_w_ser (Some ws) d)) (ctx st)) (world st).
Lemma set_ser_eq d ws (st : state W) : backend_data (ctx st) = RtuData d ->
  set_ser ws st = Ret tt (stored_ser d ws st).
Proof. intros E. unfold set_ser, upd_rtu. by erewrite bind_ret_eq by (by apply get_rtu_eq). Qed.

Lemma sys_eq {R} (op : W -> W * option Z * R) (st : state W) w' e r : op (world st) = (w', e, r) ->
  sys op st = Ret r (State (default (errno st) e) (hp st) (ctx st) w').
Proof. intros E. unfold sys. by rewrite E. Qed.

(** The same as rules for the weakest precondition. *)
Lemma wp_get_rtu {A} d (f : modbus_rtu_t -> P W A) Q st :
  backend_data (ctx st) = RtuData d -> wp (f d) Q st -> wp (let* d := get_rtu in f d) Q st.
Proof. intros E Hf. apply wp_bind. eapply wp_eq; [by apply get_rtu_eq|done]. Qed.
Lemma wp_sys {A R} (op : W -> W * option Z * R) (f : R -> P W A) Q st :
  (forall w' e r, op (world st) = (w', e, r) ->
     wp (f r) Q (State (default (errno st) e) (hp st) (ctx st) w')) ->
  wp (let* r := sys op in f r) Q st.
Proof.
  intros Hf. apply wp_bind. destruct (op (world st)) as [[w' e] r] eqn:E.
  eapply wp_eq; [apply sys_eq, E|]. by apply Hf.
Qed.
Lemma wp_set_ser {A} d ws (k : P W A) Q st :
  backend_data (ctx st) = RtuData d -> wp k Q (stored_ser d ws st) -> wp (set_ser ws ;;; k) Q st.
Proof. intros E Hk. apply wp_bind. eapply wp_eq; [by apply set_ser_eq|done]. Qed.

(** What [select] reads into the port's buffer, [recv] takes out completely. *)
Lemma rtu_turn st l tv n p (r : buf) : rtu_ready st l -> l <> [] -> 1 <= n <= PY_BUF_SIZE -> n <= zlen r ->
  exists rc st1 st2 (k : nat), _modbus_rtu_select tv n st = Ret rc st1 /\ rc <> -1 /\
    _modbus_rtu_recv (p ++ r) (zlen p) n st1
      = Ret (Z.of_nat k, p ++ (Some <$> take k l) ++ drop k r) st2 /\
    (1 <= k)%nat /\ Z.of_nat k <= n /\ (k <= length l)%nat /\ rtu_ready st2 (drop k l) /\
    same_settings (ctx st) (ctx st2) /\ outgoing (world st2) = outgoing (world st).
Proof.
  intros (d & ws & Ed & Ews & En & Ez & El) Hl Hn Hr. subst l. unfold PY_BUF_SIZE in *.
  unfold _modbus_rtu_select, win32_ser_select.
  rewrite bind_assoc. rewrite (bind_ret_eq get_ser _ st ws st) by (by eapply get_ser_eq).
  rewrite En. cbn [Z.ltb Z.compare]. cbv zeta. rewrite bind_assoc.
  set (ct := Build_COMMTIMEOUTS _ _ _ _ _).
  destruct (set_timeouts_incoming (world st) (ws_fd ws) ct) as (w1 & e1 & ok & E1 & Hw1 & Ho1).
  erewrite (bind_ret_eq (sys _)) by (apply sys_eq, E1).
  replace ((PY_BUF_SIZE <? n) || (n <? 0)) with false by (unfold PY_BUF_SIZE; lia).
  rewrite <- Hw1 in Hl.
  destruct (read_file_incoming w1 (ws_fd ws) n Hl) as (w2 & e2 & k & E2 & Hk1 & Hkn & Hkl & Hw2 & Ho2); [lia|].
  rewrite bind_assoc. erewrite (bind_ret_eq (sys _)) by (apply sys_eq; exact E2).
  cbn beta iota. cbn [errno hp ctx world].
  set (bytes := take k (incoming w1)) in *.
  assert (Hb : zlen bytes = Z.of_nat k) by (unfold bytes, zlen; rewrite length_take; lia).
  rewrite bind_assoc. erewrite (bind_ret_eq (memcpy _ _ _ _ _)).
  2: { apply (memcpy_app [] (ws_buf ws) _ 0 bytes []); [split; [done|apply zlen_nonneg]| |lia].
       by rewrite app_nil_r. }
  rewrite bind_assoc. erewrite (bind_ret_eq (set_ser _)) by (by apply set_ser_eq).
  rewrite Hb. rewrite (proj2 (Z.ltb_lt 0 (Z.of_nat k))) by lia.
  set (ws' := Build_win32_ser _ _ _). set (st1 := stored_ser _ _ _).
  exists 1, st1, (stored_ser (with_w_ser (Some ws') d)
      {| ws_fd := ws_fd ws'; ws_buf := ws_buf ws'; ws_n_bytes := Z.of_nat k - Z.of_nat k |} st1), k.
  split_and!; try done; try lia.
  - unfold _modbus_rtu_recv, win32_ser_read.
    rewrite (bind_ret_eq get_ser _ st1 ws' st1) by (by eapply get_ser_eq). cbv zeta.
    assert (Eg : (if u32 n <? ws_n_bytes ws' then u32 n else ws_n_bytes ws') = Z.of_nat k).
    { rewrite u32_id by (unfold is_u32; lia). cbn. destruct (Z.ltb_spec n (Z.of_nat k)); lia. }
    rewrite Eg, (proj2 (Z.ltb_lt 0 (Z.of_nat k))) by lia.
    erewrite bind_ret_eq.
    2: { rewrite <- Hb at 1. apply (memcpy_app p r _ 0 bytes (drop (length bytes) (ws_buf ws)));
           [split; [done|apply zlen_nonneg]|done|lia]. }
    erewrite bind_ret_eq by (by apply set_ser_eq).
    unfold bytes. rewrite length_take, Nat.min_l, Hw1 by lia. done.
  - by rewrite Hw1 in Hkl.
  - exists (with_w_ser (Some {| ws_fd := ws_fd ws'; ws_buf := ws_buf ws'; ws_n_bytes := Z.of_nat k - Z.of_nat k |}) (with_w_ser (Some ws') d)).
    eexists. split; [reflexivity|]. split; [reflexivity|]. cbn. split; [lia|].
    split; [|by rewrite Hw2, Hw1].
    unfold zlen in *. rewrite length_app, length_fmap, length_drop. unfold PY_BUF_SIZE. lia.
  - split; [done|]. cbn. rewrite Ed. by destruct d.
  - cbn. by rewrite Ho2, Ho1.
Qed.

#[export] Program Instance rtu_backend_stream : Stream _modbus_rtu_backend := {| ready := rtu_ready |}.
Next Obligation. intros st l tv n p r Hrd Hl Hn Hr. apply rtu_turn; (done || lia). Qed.
End rtu_stream.

(** ** The length of a message, as its own bytes announce it *)
Section frame.
Context {W : Type} `{OS W} {FU : Fuel} {EF : EnoughFuel} {BC : BuildConfig} {SO : StreamOS W}.
Context (be : modbus_backend_t W) {FR : Framing be} {SB : Stream be}.

Definition announced_data (msg_type : msg_type_t) (F : list Z) : Z :=
  let function := nth (Z.to_nat (header_length be)) F 0 in
  let at_ i := nth (Z.to_nat (header_length be + i)) F 0 in
  match msg_type with
  | MSG_INDICATION =>
      if (function =? 15) || (function =? 16) then at_ 5
      else if function =? 23 then at_ 9 else 0
  | MSG_CONFIRMATION =>
      if (function <=? 4) || (function =? 17) || (function =? 23) then at_ 1 else 0
  end.
Definition meta_end (msg_type : msg_type_t) (F : list Z) : Z :=
  header_length be + 1
    + compute_meta_length_after_function (nth (Z.to_nat (header_length be)) F 0) msg_type.

(** [F] is one message: exactly as long as it announces, and not too long. *)
Record complete (msg_type : msg_type_t) (F : list Z) : Prop := {
  complete_length : zlen F = meta_end msg_type F + announced_data msg_type F + checksum_length be;
  complete_bound : zlen F <= max_adu_length be;
  complete_bytes : Forall is_u8 F
}.

Lemma nth_u8 F i : Forall is_u8 F -> 0 <= nth i F 0.
Proof.
  intros Hu. destruct (F !! i) as [x|] eqn:E.
  - rewrite (nth_lookup_Some _ _ _ _ E). eapply Forall_lookup_1 in E; [|done]. apply E.
  - rewrite nth_overflow; [done|]. by apply lookup_ge_None in E.
Qed.

(** The bytes after the function code decide; those behind do not matter. *)
Lemma nth_prefix F l i : (i < length F)%nat -> nth i (F ++ l) 0 = nth i F 0.
Proof. intros Hi. by apply app_nth1. Qed.
Lemma meta_prefix mt F l : header_length be + 1 <= zlen F -> meta_end mt (F ++ l) = meta_end mt F.
Proof.
  intros Hl. pose proof header_bounds. unfold meta_end. by rewrite nth_prefix by (unfold zlen in *; lia).
Qed.

(** Which byte carries the length of the data. *)
Lemma meta_covers mt F : Forall is_u8 F -> meta_end mt F <= zlen F ->
  let f := nth (Z.to_nat (header_length be)) F 0 in 0 <= f /\
  match mt with
  | MSG_INDICATION => ((f =? 15) || (f =? 16) = true -> header_length be + 5 < zlen F) /\
      (f = 23 -> header_length be + 9 < zlen F)
  | MSG_CONFIRMATION => (f <=? 4) || (f =? 17) || (f =? 23) = true -> header_length be + 1 < zlen F
  end.
Proof.
  intros Hu Hm f. split; [by apply nth_u8|]. unfold meta_end, compute_meta_length_after_function in Hm. fold f in Hm.
  unfold MODBUS_FC_WRITE_SINGLE_REGISTER, MODBUS_FC_WRITE_MULTIPLE_COILS,
    MODBUS_FC_WRITE_MULTIPLE_REGISTERS, MODBUS_FC_MASK_WRITE_REGISTER,
    MODBUS_FC_WRITE_AND_READ_REGISTERS, MODBUS_FC_WRITE_SINGLE_COIL in Hm.
  destruct mt; [split|]; intros E.
  - rewrite (proj2 (Z.leb_gt f 6)), E in Hm by lia. change (u8 5) with 5 in Hm. lia.
  - rewrite E in Hm. change (u8 _) with 9 in Hm. lia.
  - replace ((f =? 5) || (f =? 6) || (f =? 15) || (f =? 16)) with false in Hm by lia.
    replace (f =? 22) with false in Hm by lia. change (u8 1) with 1 in Hm. lia.
Qed.

Lemma announced_prefix mt F l : Forall is_u8 F -> header_length be + 1 <= zlen F -> meta_end mt F <= zlen F ->
  announced_data mt (F ++ l) = announced_data mt F.
Proof.
  intros Hu Hh Hm. pose proof header_bounds. pose proof (meta_covers mt F Hu Hm) as [Hf Hc].
  unfold announced_data, zlen in *. rewrite !(nth_prefix F l (Z.to_nat (header_length be))) by lia.
  set (f := nth (Z.to_nat (header_length be)) F 0) in *. destruct mt.
  - destruct ((f =? 15) || (f =? 16)); [rewrite nth_prefix by (destruct Hc; lia); done|].
    destruct (Z.eqb_spec f 23); [|done]. rewrite nth_prefix by (destruct Hc; lia). done.
  - destruct (_ || _); [|done]. rewrite nth_prefix by lia. done.
Qed.

(** The data length the code computes once the meta data [F] are there. *)
Lemma data_length_any mt F (r : buf) (st : state W) : Forall is_u8 F ->
  header_length be + 1 <= zlen F -> meta_end mt F <= zlen F ->
  compute_data_length_after_meta be ((Some <$> F) ++ r) mt st
    = Ret (announced_data mt F + checksum_length be) st.
Proof.
  intros Hu Hh Hm. pose proof header_bounds. pose proof (meta_covers mt F Hu Hm) as [Hf Hc].
  assert (Hrd : forall i, 0 <= i < zlen F -> rd ((Some <$> F) ++ r) i st = Ret (nth (Z.to_nat i) F 0) st).
  { intros i Hi. apply rd_eq; [lia|]. apply lookup_prefix.
    destruct (lookup_lt_is_Some_2 F (Z.to_nat i)) as [x Hx]; [unfold zlen in *; lia|].
    by rewrite (nth_lookup_Some _ _ _ _ Hx). }
  unfold compute_data_length_after_meta. erewrite bind_ret_eq by (apply Hrd; lia).
  unfold announced_data, MODBUS_FC_WRITE_MULTIPLE_COILS, MODBUS_FC_WRITE_MULTIPLE_REGISTERS,
    MODBUS_FC_WRITE_AND_READ_REGISTERS, MODBUS_FC_READ_INPUT_REGISTERS, MODBUS_FC_REPORT_SLAVE_ID.
  set (f := nth (Z.to_nat (header_length be)) F 0) in *. destruct mt.
  - destruct ((f =? 15) || (f =? 16)); [by erewrite bind_ret_eq by (apply Hrd; destruct Hc; lia)|].
    destruct (Z.eqb_spec f 23); [|done]. by erewrite bind_ret_eq by (apply Hrd; destruct Hc; lia).
  - destruct (_ || _); [|done]. by erewrite bind_ret_eq by (apply Hrd; lia).
Qed.

Context (mt : msg_type_t) (F more : list Z) (msg0 : buf).
Context (HF : complete mt F) (Hmsg : max_adu_length be <= zlen msg0).

Definition filled (k : nat) : buf := (Some <$> take k F) ++ drop k msg0.

Lemma rd_filled k i (st : state W) : 0 <= i -> (Z.to_nat i < k)%nat -> (k <= length F)%nat ->
  rd (filled k) i st = Ret (nth (Z.to_nat i) F 0) st.
Proof.
  intros Hi Hk Hle. apply rd_eq; [done|]. apply lookup_prefix. rewrite lookup_take_lt by done.
  destruct (lookup_lt_is_Some_2 F (Z.to_nat i)) as [x Hx]; [lia|]. by rewrite (nth_lookup_Some _ _ _ _ Hx).
Qed.

Definition stage (k : nat) (step : _step_t) (n : Z) : Prop :=
  0 <= n /\ match step with
  | _STEP_FUNCTION => 0 < n /\ Z.of_nat k + n = header_length be + 1
  | _STEP_META => 0 < n /\ Z.of_nat k + n = meta_end mt F
  | _STEP_DATA => Z.of_nat k + n = zlen F
  end.

Lemma announced_nonneg : 0 <= announced_data mt F.
Proof.
  pose proof (fun i => nth_u8 F i (complete_bytes _ _ HF)) as Hn. unfold announced_data.
  destruct mt; [destruct (_ || _); [apply Hn|]; destruct (_ =? _); [apply Hn|lia]
               |destruct (_ || _); [apply Hn|lia]].
Qed.
Lemma stage_bounds : 0 <= header_length be /\ 0 <= checksum_length be /\
  header_length be + 1 <= meta_end mt F /\ meta_end mt F <= zlen F /\ zlen F <= 260.
Proof.
  pose proof announced_nonneg. pose proof header_bounds. pose proof checksum_bounds.
  pose proof (complete_length _ _ HF). pose proof (complete_bound _ _ HF). pose proof max_adu_le.
  unfold meta_end, compute_meta_length_after_function in *.
  pose proof (u8_range) as Hu. unfold is_u8, MAX_MESSAGE_LENGTH in *.
  match goal with |- context [u8 ?x] => specialize (Hu x) end. lia.
Qed.

(** The data length the code computes once the meta data are there. *)
Lemma data_length_eq k (st : state W) : meta_end mt F <= Z.of_nat k -> (k <= length F)%nat ->
  compute_data_length_after_meta be (filled k) mt st
    = Ret (announced_data mt F + checksum_length be) st.
Proof.
  intros Hk Hle. pose proof stage_bounds as Hb.
  assert (Hz : zlen (take k F) = Z.of_nat k) by (unfold zlen; rewrite length_take; lia).
  assert (Hu : Forall is_u8 (take k F)) by (apply Forall_take, HF).
  assert (Em : meta_end mt (take k F) = meta_end mt F).
  { rewrite <- (take_drop k F) at 2. by rewrite meta_prefix by lia. }
  unfold filled. rewrite data_length_any by (done || lia).
  rewrite <- (take_drop k F) at 2. by rewrite announced_prefix by (done || lia).
Qed.

Lemma step_meta_eq k (st : state W) : Z.of_nat k = meta_end mt F -> 
  receive_step_meta be (filled k) (Z.of_nat k) mt st
    = Ret (Some (zlen F - Z.of_nat k, _STEP_DATA)) st.
Proof.
  intros Hk. pose proof stage_bounds as Hb. pose proof (complete_length _ _ HF) as Hl.
  pose proof (complete_bound _ _ HF) as Hm.
  unfold receive_step_meta. erewrite bind_ret_eq by (apply data_length_eq; unfold zlen in *; lia).
  rewrite (proj2 (Z.ltb_ge _ _)) by lia. unfold ret. do 3 f_equal. lia.
Qed.

Lemma next_step_eq k step (st : state W) :
  match step with
  | _STEP_FUNCTION => Z.of_nat k = header_length be + 1
  | _STEP_META => Z.of_nat k = meta_end mt F
  | _STEP_DATA => Z.of_nat k = zlen F
  end ->
  exists n' step', receive_next_step be (filled k) (Z.of_nat k) step mt st = Ret (Some (n', step')) st /\
    stage k step' n'.
Proof.
  intros Hk'. pose proof stage_bounds as Hb. unfold zlen in Hb.
  destruct step; cbn [receive_next_step].
  - erewrite bind_ret_eq by (apply rd_filled; lia).
    unfold meta_end in Hb. set (len := compute_meta_length_after_function _ _) in *.
    destruct (Z.eqb_spec len 0) as [E|Hne]; cbn [negb].
    + assert (Hm : meta_end mt F = Z.of_nat k) by (unfold meta_end; fold len; lia).
      do 2 eexists. split; [by apply step_meta_eq|]. split; unfold zlen; lia.
    + do 2 eexists. split; [reflexivity|]. unfold stage, meta_end. fold len. lia.
  - do 2 eexists. split; [by apply step_meta_eq|]. split; unfold zlen; lia.
  - do 2 eexists. split; [reflexivity|]. split; lia.
Qed.

(** Before a turn: the bytes taken so far are in the buffer, the rest is to come. *)
Definition turn_locals (st0 : state W) (l : recv_locals) (k : nat) (st : state W) : Prop :=
  r_msg l = filled k /\ r_msg_length l = Z.of_nat k /\
  stage k (r_step l) (r_length_to_read l) /\ (k <= length F)%nat /\ ready st (drop k F ++ more) /\
  same_settings (ctx st0) (ctx st) /\ outgoing (world st) = outgoing (world st0).

(** One turn: the loop ends with the whole frame, or takes more bytes. *)
Lemma turn_ok st0 l k st : turn_locals st0 l k st ->
  wp (receive_turn be mt l) (fun r st' => match r with
     | inl l' => exists k', turn_locals st0 l' k' st' /\ (k < k')%nat
     | inr (o, _) => o = Some (filled (length F), zlen F) /\ ready st' more /\
         same_settings (ctx st0) (ctx st') /\ outgoing (world st') = outgoing (world st0)
     end) st.
Proof.
  intros (Em & Ek & Hst & Hkl & Hrd & Hset & Hout). pose proof stage_bounds as Hb. unfold zlen in Hb.
  unfold receive_turn. destruct (Z.eqb_spec (r_length_to_read l) 0) as [E0|Hne].
  - apply wp_ret. rewrite E0 in Hst. unfold stage, zlen in Hst.
    assert (Hk : k = length F) by (destruct (r_step l); lia).
    rewrite Em, Ek. subst k. rewrite drop_all in Hrd. done.
  - set (n := r_length_to_read l) in *.
    assert (Hn : 1 <= n /\ Z.of_nat k + n <= zlen F) by (unfold stage, zlen in *; destruct (r_step l); lia).
    assert (Hms : length msg0 = (k + length (drop k msg0))%nat).
    { rewrite length_drop. pose proof (complete_bound _ _ HF). unfold zlen in *. lia. }
    destruct (stream_turn st (drop k F ++ more) (r_p_tv l) n (Some <$> take k F) (drop k msg0) Hrd)
      as (rc & st1 & st2 & j & Es & Hrc & Er & Hj1 & Hjn & _ & Hrd2 & Hset2 & Hout2).
    + intros E. apply (f_equal length) in E. rewrite length_app, length_drop in E. cbn in E. unfold zlen in *. lia.
    + unfold PY_BUF_SIZE, zlen in *. lia.
    + pose proof (complete_bound _ _ HF). unfold zlen in *. lia.
    + apply wp_bind. eapply wp_eq; [exact Es|]. rewrite (proj2 (Z.eqb_neq rc (-1))) by done.
      apply wp_bind. rewrite Em, Ek. fold (filled k) in Er.
      assert (Hz : zlen (Some <$> take k F) = Z.of_nat k)
        by (rewrite zlen_fmap; unfold zlen; rewrite length_take; lia).
      rewrite Hz in Er. eapply wp_eq; [exact Er|].
      assert (Hfill : (Some <$> take k F) ++ (Some <$> take j (drop k F ++ more)) ++ drop j (drop k msg0)
                      = filled (k + j)).
      { unfold filled. rewrite take_app_le by (rewrite length_drop; unfold zlen in *; lia).
        rewrite app_assoc, <- fmap_app, take_take_drop, drop_drop. done. }
      rewrite Hfill. apply wp_bind. rewrite (proj2 (Z.eqb_neq (Z.of_nat j) 0)) by lia.
      apply wp_ret. rewrite (proj2 (Z.eqb_neq (Z.of_nat j) (-1))) by lia.
      replace (Z.of_nat k + Z.of_nat j) with (Z.of_nat (k + j)) by lia.
      assert (Hset' : same_settings (ctx st0) (ctx st2)) by (by etransitivity).
      rewrite Hout in Hout2.
      assert (Hrd' : ready st2 (drop (k + j) F ++ more)).
      { rewrite drop_app_le in Hrd2 by (rewrite length_drop; unfold zlen in *; lia).
        by rewrite drop_drop in Hrd2. }
      apply wp_bind. destruct (Z.eqb_spec (n - Z.of_nat j) 0) as [Ez|Hnz].
      * destruct (next_step_eq (k + j) (r_step l) st2) as (n' & step' & En & Hst').
        { unfold stage in Hst. fold n in Hst. destruct (r_step l); lia. }
        eapply wp_eq; [exact En|]. apply wp_bind. eapply wp_eq; [reflexivity|]. apply wp_ret.
        exists (k + j)%nat. split; [|lia]. split_and!; [done|done|exact Hst'| |exact Hrd'|done|done].
        unfold zlen in *. lia.
      * apply wp_ret. apply wp_bind. eapply wp_eq; [reflexivity|]. apply wp_ret.
        exists (k + j)%nat. split; [|lia]. split_and!; [done|done| | |exact Hrd'|done|done].
        -- unfold stage in *. fold n in Hst. cbn. destruct (r_step l); lia.
        -- unfold zlen in *. lia.
Qed.

(** The loop ends, with the frame and nothing but the frame. *)
Lemma receive_msg_eq st : ready st (F ++ more) ->
  exists st', ready st' more /\ same_settings (ctx st) (ctx st') /\
    outgoing (world st') = outgoing (world st) /\
    _modbus_receive_msg be msg0 mt st
      = (let* rc := check_integrity be (filled (length F)) (zlen F) in
         ret (rc, filled (length F))) st'.
Proof.
  intros Hrd. pose proof stage_bounds as Hb. pose proof enough_fuel as Hf.
  unfold _modbus_receive_msg.
  rewrite (bind_ret_eq get_ctx _ st (ctx st) st eq_refl).
  set (l0 := Build_recv_locals _ _ _ _ _).
  assert (Hl0 : turn_locals st l0 0 st).
  { split; [by unfold filled|]. split; [done|]. split; [|split; [lia|done]].
    unfold stage. cbn. lia. }
  assert (Hw : wp (while_loop fuel (receive_turn be mt) l0)
    (fun r st' => fst r = Some (filled (length F), zlen F) /\ ready st' more /\
      same_settings (ctx st) (ctx st') /\ outgoing (world st') = outgoing (world st)) st).
  { apply (wp_while _ (fun l s' => exists k, turn_locals st l k s') (fun l _ => Z.to_nat (zlen F - r_msg_length l))).
    - intros l s' [k Hl]. eapply wp_mono; [by apply (turn_ok st l k)|].
      intros [l'|[o b]] s'' Hr; [|done].
      destruct Hr as (k' & Hl' & Hlt). split; [eauto|].
      destruct Hl as (_ & -> & _ & Hkl & _), Hl' as (_ & -> & _ & Hkl' & _). unfold zlen in *. lia.
    - eauto.
    - cbn. unfold zlen in *. lia. }
  apply wp_inv in Hw as ([o b] & st' & E & Eo & Hrd' & Hset & Hout). cbn in Eo. subst o.
  exists st'. do 3 (split; [done|]). by erewrite bind_ret_eq by exact E.
Qed.
End frame.
