(* ===== verification/Mapping.v ===== *)
(** modbus.c, the register and bit tables of a server: [modbus_mapping_t], its
    allocation and its release. *)
From S2P Require Import Prelude Platform.
#[local] Open Scope Z_scope.

(** A table pointer: [NULL], or a block of the heap and its contents. *)
Record table := { tab_blk : option positive; cells : list Z }.

Record modbus_mapping_t := {
  map_blk : positive;
  nb_bits : Z; start_bits : Z; nb_input_bits : Z; start_input_bits : Z;
  nb_input_registers : Z; start_input_registers : Z; nb_registers : Z; start_registers : Z;
  tab_bits : table; tab_input_bits : table;
  tab_input_registers : table; tab_registers : table
}.

Definition sizeof_mapping : Z := 48.

Section mapping.
Context {W : Type} `{OS W}.

(** [malloc(nb * size)] and [memset] to zero, or [NULL] for [nb = 0]; [inl]
    when the allocation failed. [size_t] has 32 bits, so the product wraps; the
    cells are those of the block. *)
Definition new_table (nb size : Z) : P W (unit + table) :=
  if nb =? 0 then ret (inr {| tab_blk := None; cells := [] |})
  else
    let bytes := u32 (nb * size) in
    let* p := malloc bytes in
    match p with
    | None => ret (inl tt)
    | Some b => ret (inr {| tab_blk := Some b; cells := replicate (Z.to_nat (bytes / size)) 0 |})
    end.

(** The arguments are [unsigned int]; the counts are stored as [int]. *)
Definition modbus_mapping_new_start_address
    (start_bits nb_bits start_input_bits nb_input_bits
     start_registers nb_registers start_input_registers nb_input_registers : Z)
    : P W (option modbus_mapping_t) :=
  let* mb_mapping := malloc sizeof_mapping in
  match mb_mapping with
  | None => ret None
  | Some mb =>
      let* bits := new_table nb_bits 1 in
      match bits with
      | inl _ => free (Some mb) ;;; ret None
      | inr bits =>
          let* input_bits := new_table nb_input_bits 1 in
          match input_bits with
          | inl _ => free (tab_blk bits) ;;; free (Some mb) ;;; ret None
          | inr input_bits =>
              let* registers := new_table nb_registers 2 in
              match registers with
              | inl _ =>
                  free (tab_blk input_bits) ;;; free (tab_blk bits) ;;; free (Some mb) ;;; ret None
              | inr registers =>
                  let* input_registers := new_table nb_input_registers 2 in
                  match input_registers with
                  | inl _ =>
                      free (tab_blk registers) ;;; free (tab_blk input_bits) ;;;
                      free (tab_blk bits) ;;; free (Some mb) ;;; ret None
                  | inr input_registers =>
                      ret (Some {|
                        map_blk := mb;
                        nb_bits := i32 nb_bits; start_bits := i32 start_bits;
                        nb_input_bits := i32 nb_input_bits;
                        start_input_bits := i32 start_input_bits;
                        nb_input_registers := i32 nb_input_registers;
                        start_input_registers := i32 start_input_registers;
                        nb_registers := i32 nb_registers;
                        start_registers := i32 start_registers;
                        tab_bits := bits; tab_input_bits := input_bits;
                        tab_input_registers := input_registers;
                        tab_registers := registers |})
                  end
              end
          end
      end
  end.

(** The [int] arguments convert to [unsigned int]. *)
Definition modbus_mapping_new (nb_bits nb_input_bits nb_registers nb_input_registers : Z)
    : P W (option modbus_mapping_t) :=
  modbus_mapping_new_start_address 0 (u32 nb_bits) 0 (u32 nb_input_bits)
    0 (u32 nb_registers) 0 (u32 nb_input_registers).

Definition modbus_mapping_free (mb_mapping : option modbus_mapping_t) : P W unit :=
  match mb_mapping with
  | None => ret tt
  | Some m =>
      free (tab_blk (tab_input_registers m)) ;;;
      free (tab_blk (tab_registers m)) ;;;
      free (tab_blk (tab_input_bits m)) ;;;
      free (tab_blk (tab_bits m)) ;;;
      free (Some (map_blk m))
  end.
End mapping.

(** Stores into the two writable tables. *)
Definition with_bits (l : list Z) (m : modbus_mapping_t) : modbus_mapping_t :=
  Build_modbus_mapping_t (map_blk m) (nb_bits m) (start_bits m) (nb_input_bits m)
    (start_input_bits m) (nb_input_registers m) (start_input_registers m) (nb_registers m)
    (start_registers m) {| tab_blk := tab_blk (tab_bits m); cells := l |} (tab_input_bits m)
    (tab_input_registers m) (tab_registers m).
Definition with_registers (l : list Z) (m : modbus_mapping_t) : modbus_mapping_t :=
  Build_modbus_mapping_t (map_blk m) (nb_bits m) (start_bits m) (nb_input_bits m)
    (start_input_bits m) (nb_input_registers m) (start_input_registers m) (nb_registers m)
    (start_registers m) (tab_bits m) (tab_input_bits m)
    (tab_input_registers m) {| tab_blk := tab_blk (tab_registers m); cells := l |}.
