(* ===== verification/Reply.v ===== *)
(** modbus.c, the server side: analysing a request, executing it on the tables
    and building the response ([modbus_reply], [modbus_reply_exception]). *)
From S2P Require Import Prelude Platform Data Backend Core Mapping.
#[local] Open Scope Z_scope.

(** LIBMODBUS_VERSION_STRING is the literal "@LIBMODBUS_VERSION@" and the reply
    carries it after "LMB". *)
Definition LIBMODBUS_VERSION_STRING : list Z :=
  [64; 76; 73; 66; 77; 79; 68; 66; 85; 83; 95; 86; 69; 82; 83; 73; 79; 78; 64].
Definition LMB : list Z := [76; 77; 66].

Section reply.
Context {W : Type} `{OS W} {FU : Fuel} {BC : BuildConfig}.
Context (be : modbus_backend_t W).

(** [rsp[offset++] = v] *)
Definition put (r : buf * Z) (v : Z) : P W (buf * Z) :=
  let '(rsp, offset) := r in
  let* rsp := wr rsp offset v in ret (rsp, offset + 1).

Definition response_io_status (tab_io_status : list Z) (address nb : Z) (rsp : buf) (offset : Z)
    : P W (Z * buf) :=
  let* r := for_loop (Z.to_nat nb) address (fun i '(rsp, offset, one_byte, shift) =>
    let* b := arr_get tab_io_status i in
    let one_byte := Z.lor one_byte (Z.shiftl b shift) in
    if shift =? 7 then
      let* (rsp, offset) := put (rsp, offset) one_byte in ret (rsp, offset, 0, 0)
    else ret (rsp, offset, one_byte, shift + 1)) (rsp, offset, 0, 0) in
  let '(rsp, offset, one_byte, shift) := r in
  if negb (shift =? 0) then
    let* (rsp, offset) := put (rsp, offset) one_byte in ret (offset, rsp)
  else ret (offset, rsp).

Definition response_exception (sft : sft_t) (exception_code : Z) (rsp : buf) (to_flush : bool)
    : P W (Z * buf) :=
  (if to_flush then _sleep_response_timeout ;;; let* _ := be_flush be in ret tt else ret tt) ;;;
  let sft := {| sft_slave := sft_slave sft; sft_function := sft_function sft + 128;
                sft_t_id := sft_t_id sft |} in
  let* (rsp_length, rsp) := build_response_basis be sft rsp in
  let* (rsp, rsp_length) := put (rsp, rsp_length) exception_code in
  ret (rsp_length, rsp).

(** [(req[i] << 8) + req[i + 1]] *)
Definition rd16 (req : buf) (i : Z) : P W Z :=
  let* h := rd req i in let* l := rd req (i + 1) in ret (be16 h l).

(** The branches of the [switch] return the response and the tables. *)
Definition reply_t : Type := (Z * buf) * modbus_mapping_t.

Definition exception_reply (sft : sft_t) (code : Z) (to_flush : bool) (m : modbus_mapping_t)
    : P W reply_t :=
  let* r := response_exception sft code (uninit MAX_MESSAGE_LENGTH) to_flush in ret (r, m).

(** [memcpy(rsp, req, req_length); rsp_length = req_length;] *)
Definition echo_reply (req : buf) (req_length : Z) (m : modbus_mapping_t) : P W reply_t :=
  let* rsp := memcpy (uninit MAX_MESSAGE_LENGTH) 0 req 0 req_length in
  ret ((req_length, rsp), m).

Definition reply_read_bits (is_input : bool) (sft : sft_t) (req : buf) (address : Z)
    (m : modbus_mapping_t) : P W reply_t :=
  let offset := header_length be in
  let start_bits := if is_input then start_input_bits m else start_bits m in
  let nb_bits := if is_input then nb_input_bits m else nb_bits m in
  let tab_bits := cells (if is_input then tab_input_bits m else tab_bits m) in
  let* nb := rd16 req (offset + 3) in
  let mapping_address := address - start_bits in
  if (nb <? 1) || (MODBUS_MAX_READ_BITS <? nb) then
    exception_reply sft MODBUS_EXCEPTION_ILLEGAL_DATA_VALUE true m
  else if (mapping_address <? 0) || (nb_bits <? mapping_address + nb) then
    exception_reply sft MODBUS_EXCEPTION_ILLEGAL_DATA_ADDRESS false m
  else
    let* (rsp_length, rsp) := build_response_basis be sft (uninit MAX_MESSAGE_LENGTH) in
    let* (rsp, rsp_length) :=
      put (rsp, rsp_length) (Z.quot nb 8 + (if Z.rem nb 8 =? 0 then 0 else 1)) in
    let* r := response_io_status tab_bits mapping_address nb rsp rsp_length in
    ret (r, m).

(** The registers [i, i + nb) of a table, high byte first. *)
Definition put_registers (tab : list Z) (i nb : Z) (r : buf * Z) : P W (buf * Z) :=
  for_loop (Z.to_nat nb) i (fun i r =>
    let* v := arr_get tab i in
    let* r := put r (Z.shiftr v 8) in
    put r (Z.land v 255)) r.

Definition reply_read_registers (is_input : bool) (sft : sft_t) (req : buf) (address : Z)
    (m : modbus_mapping_t) : P W reply_t :=
  let offset := header_length be in
  let start_registers := if is_input then start_input_registers m else start_registers m in
  let nb_registers := if is_input then nb_input_registers m else nb_registers m in
  let tab_registers := cells (if is_input then tab_input_registers m else tab_registers m) in
  let* nb := rd16 req (offset + 3) in
  let mapping_address := address - start_registers in
  if (nb <? 1) || (MODBUS_MAX_READ_REGISTERS <? nb) then
    exception_reply sft MODBUS_EXCEPTION_ILLEGAL_DATA_VALUE true m
  else if (mapping_address <? 0) || (nb_registers <? mapping_address + nb) then
    exception_reply sft MODBUS_EXCEPTION_ILLEGAL_DATA_ADDRESS false m
  else
    let* (rsp_length, rsp) := build_response_basis be sft (uninit MAX_MESSAGE_LENGTH) in
    let* r := put (rsp, rsp_length) (Z.shiftl nb 1) in
    let* (rsp, rsp_length) := put_registers tab_registers mapping_address nb r in
    ret ((rsp_length, rsp), m).

Definition reply_write_single_coil (sft : sft_t) (req : buf) (req_length address : Z)
    (m : modbus_mapping_t) : P W reply_t :=
  let offset := header_length be in
  let mapping_address := address - start_bits m in
  if (mapping_address <? 0) || (nb_bits m <=? mapping_address) then
    exception_reply sft MODBUS_EXCEPTION_ILLEGAL_DATA_ADDRESS false m
  else
    let* data := rd16 req (offset + 3) in
    if (data =? 65280) || (data =? 0) then
      let* tab := arr_set (cells (tab_bits m)) mapping_address (if data =? 0 then 0 else 1) in
      echo_reply req req_length (with_bits tab m)
    else exception_reply sft MODBUS_EXCEPTION_ILLEGAL_DATA_VALUE false m.

Definition reply_write_single_register (sft : sft_t) (req : buf) (req_length address : Z)
    (m : modbus_mapping_t) : P W reply_t :=
  let offset := header_length be in
  let mapping_address := address - start_registers m in
  if (mapping_address <? 0) || (nb_registers m <=? mapping_address) then
    exception_reply sft MODBUS_EXCEPTION_ILLEGAL_DATA_ADDRESS false m
  else
    let* data := rd16 req (offset + 3) in
    let* tab := arr_set (cells (tab_registers m)) mapping_address (u16 data) in
    echo_reply req req_length (with_registers tab m).

(** [build_response_basis], then the address and the quantity of the request. *)
Definition acknowledge_write (sft : sft_t) (req : buf) (m : modbus_mapping_t) : P W reply_t :=
  let* (rsp_length, rsp) := build_response_basis be sft (uninit MAX_MESSAGE_LENGTH) in
  let* rsp := memcpy rsp rsp_length req rsp_length 4 in
  ret ((rsp_length + 4, rsp), m).

Definition reply_write_multiple_coils (sft : sft_t) (req : buf) (address : Z)
    (m : modbus_mapping_t) : P W reply_t :=
  let offset := header_length be in
  let* nb := rd16 req (offset + 3) in
  let mapping_address := address - start_bits m in
  if (nb <? 1) || (MODBUS_MAX_WRITE_BITS <? nb) then
    exception_reply sft MODBUS_EXCEPTION_ILLEGAL_DATA_VALUE true m
  else if (mapping_address <? 0) || (nb_bits m <? mapping_address + nb) then
    exception_reply sft MODBUS_EXCEPTION_ILLEGAL_DATA_ADDRESS false m
  else
    let* tab := modbus_set_bits_from_bytes (cells (tab_bits m)) mapping_address nb
                  req (offset + 6) in
    acknowledge_write sft req (with_bits tab m).

(** [for (i = a, j = j0; i < a + nb; i++, j += 2)
       tab_registers[i] = (req[offset + j] << 8) + req[offset + j + 1];] *)
Definition store_registers (tab : list Z) (mapping_address nb : Z) (req : buf) (pos : Z)
    : P W (list Z) :=
  let* r := for_loop (Z.to_nat nb) mapping_address (fun i '(tab, j) =>
    let* v := rd16 req j in
    let* tab := arr_set tab i (u16 v) in
    ret (tab, j + 2)) (tab, pos) in
  ret (fst r).

Definition reply_write_multiple_registers (sft : sft_t) (req : buf) (address : Z)
    (m : modbus_mapping_t) : P W reply_t :=
  let offset := header_length be in
  let* nb := rd16 req (offset + 3) in
  let mapping_address := address - start_registers m in
  if (nb <? 1) || (MODBUS_MAX_WRITE_REGISTERS <? nb) then
    exception_reply sft MODBUS_EXCEPTION_ILLEGAL_DATA_VALUE true m
  else if (mapping_address <? 0) || (nb_registers m <? mapping_address + nb) then
    exception_reply sft MODBUS_EXCEPTION_ILLEGAL_DATA_ADDRESS false m
  else
    let* tab := store_registers (cells (tab_registers m)) mapping_address nb req (offset + 6) in
    acknowledge_write sft req (with_registers tab m).

Definition reply_report_slave_id (sft : sft_t) (m : modbus_mapping_t) : P W reply_t :=
  let* (rsp_length, rsp) := build_response_basis be sft (uninit MAX_MESSAGE_LENGTH) in
  let byte_count_pos := rsp_length in
  let rsp_length := rsp_length + 1 in
  let* (rsp, rsp_length) := put (rsp, rsp_length) _REPORT_SLAVE_ID in
  let* (rsp, rsp_length) := put (rsp, rsp_length) 255 in
  let str_len := 3 + zlen LIBMODBUS_VERSION_STRING in
  let* rsp := memcpy rsp rsp_length (Some <$> (LMB ++ LIBMODBUS_VERSION_STRING)) 0 str_len in
  let rsp_length := rsp_length + str_len in
  let* rsp := wr rsp byte_count_pos (rsp_length - byte_count_pos - 1) in
  ret ((rsp_length, rsp), m).

Definition reply_mask_write_register (sft : sft_t) (req : buf) (req_length address : Z)
    (m : modbus_mapping_t) : P W reply_t :=
  let offset := header_length be in
  let mapping_address := address - start_registers m in
  if (mapping_address <? 0) || (nb_registers m <=? mapping_address) then
    exception_reply sft MODBUS_EXCEPTION_ILLEGAL_DATA_ADDRESS false m
  else
    let* data := arr_get (cells (tab_registers m)) mapping_address in
    let* v := rd16 req (offset + 3) in
    let and := u16 v in
    let* v := rd16 req (offset + 5) in
    let or := u16 v in
    let data := u16 (Z.lor (Z.land data and) (Z.land or (Z.lnot and))) in
    let* tab := arr_set (cells (tab_registers m)) mapping_address data in
    echo_reply req req_length (with_registers tab m).

(** The source tests [mapping_address < 0] twice and never
    [mapping_address_write < 0]. *)
Definition reply_write_and_read_registers (sft : sft_t) (req : buf) (address : Z)
    (m : modbus_mapping_t) : P W reply_t :=
  let offset := header_length be in
  let* nb := rd16 req (offset + 3) in
  let* v := rd16 req (offset + 5) in
  let address_write := u16 v in
  let* nb_write := rd16 req (offset + 7) in
  let* nb_write_bytes := rd req (offset + 9) in
  let mapping_address := address - start_registers m in
  let mapping_address_write := address_write - start_registers m in
  if (nb_write <? 1) || (MODBUS_MAX_WR_WRITE_REGISTERS <? nb_write)
     || (nb <? 1) || (MODBUS_MAX_WR_READ_REGISTERS <? nb)
     || negb (nb_write_bytes =? nb_write * 2) then
    exception_reply sft MODBUS_EXCEPTION_ILLEGAL_DATA_VALUE true m
  else if (mapping_address <? 0) || (nb_registers m <? mapping_address + nb)
          || (mapping_address <? 0) || (nb_registers m <? mapping_address_write + nb_write) then
    exception_reply sft MODBUS_EXCEPTION_ILLEGAL_DATA_ADDRESS false m
  else
    let* (rsp_length, rsp) := build_response_basis be sft (uninit MAX_MESSAGE_LENGTH) in
    let* r := put (rsp, rsp_length) (Z.shiftl nb 1) in
    let* tab := store_registers (cells (tab_registers m)) mapping_address_write nb_write
                  req (offset + 10) in
    let* (rsp, rsp_length) := put_registers tab mapping_address nb r in
    ret ((rsp_length, rsp), with_registers tab m).

(** The [switch] of [modbus_reply]; [None] when it returns -1 at once. *)
Definition reply_dispatch (function : Z) (sft : sft_t) (req : buf) (req_length address : Z)
    (m : modbus_mapping_t) : P W (option reply_t) :=
  let some (r : P W reply_t) := let* r := r in ret (Some r) in
  if function =? MODBUS_FC_READ_COILS then some (reply_read_bits false sft req address m)
  else if function =? MODBUS_FC_READ_DISCRETE_INPUTS then some (reply_read_bits true sft req address m)
  else if function =? MODBUS_FC_READ_HOLDING_REGISTERS then
    some (reply_read_registers false sft req address m)
  else if function =? MODBUS_FC_READ_INPUT_REGISTERS then
    some (reply_read_registers true sft req address m)
  else if function =? MODBUS_FC_WRITE_SINGLE_COIL then
    some (reply_write_single_coil sft req req_length address m)
  else if function =? MODBUS_FC_WRITE_SINGLE_REGISTER then
    some (reply_write_single_register sft req req_length address m)
  else if function =? MODBUS_FC_WRITE_MULTIPLE_COILS then
    some (reply_write_multiple_coils sft req address m)
  else if function =? MODBUS_FC_WRITE_MULTIPLE_REGISTERS then
    some (reply_write_multiple_registers sft req address m)
  else if function =? MODBUS_FC_REPORT_SLAVE_ID then some (reply_report_slave_id sft m)
  else if function =? MODBUS_FC_READ_EXCEPTION_STATUS then
    set_errno ENOPROTOOPT ;;; ret None
  else if function =? MODBUS_FC_MASK_WRITE_REGISTER then
    some (reply_mask_write_register sft req req_length address m)
  else if function =? MODBUS_FC_WRITE_AND_READ_REGISTERS then
    some (reply_write_and_read_registers sft req address m)
  else some (exception_reply sft MODBUS_EXCEPTION_ILLEGAL_FUNCTION true m).

Definition reply_with (req : buf) (req_length : Z) (m : modbus_mapping_t)
    : P W (Z * modbus_mapping_t) :=
  let offset := header_length be in
  let* slave := rd req (offset - 1) in
  let* function := rd req offset in
  let* v := rd16 req (offset + 1) in
  let address := u16 v in
  let* (t_id, req_length) := prepare_response_tid be req req_length in
  let sft := {| sft_slave := slave; sft_function := function; sft_t_id := t_id |} in
  let* r := reply_dispatch function sft req req_length address m in
  match r with
  | None => ret (-1, m)
  | Some ((rsp_length, rsp), m) =>
      if slave =? MODBUS_BROADCAST_ADDRESS then ret (0, m)
      else let* (rc, _) := send_msg be rsp rsp_length in ret (rc, m)
  end.

Definition reply_exception_with (req : buf) (exception_code : Z) : P W Z :=
  let offset := header_length be in
  let* slave := rd req (offset - 1) in
  let* function := rd req offset in
  let* (t_id, _) := prepare_response_tid be req 99 in
  let sft := {| sft_slave := slave; sft_function := function + 128; sft_t_id := t_id |} in
  let* (rsp_length, rsp) := build_response_basis be sft (uninit MAX_MESSAGE_LENGTH) in
  if exception_code <? MODBUS_EXCEPTION_MAX then
    let* (rsp, rsp_length) := put (rsp, rsp_length) exception_code in
    let* (rc, _) := send_msg be rsp rsp_length in ret rc
  else err EINVAL.
End reply.

Section reply_api.
Context {W : Type} `{OS W} {FU : Fuel} {BC : BuildConfig}.

Definition modbus_reply (p : ctx_ptr) (req : buf) (req_length : Z) (m : modbus_mapping_t)
    : P W (Z * modbus_mapping_t) :=
  match p with
  | NULL => let* rc := err EINVAL in ret (rc, m)
  | CTX => let* be := get_backend in reply_with be req req_length m
  end.

(** [exception_code] is [unsigned int]. *)
Definition modbus_reply_exception (p : ctx_ptr) (req : buf) (exception_code : Z) : P W Z :=
  match p with
  | NULL => err EINVAL
  | CTX => let* be := get_backend in reply_exception_with be req exception_code
  end.
End reply_api.
