(* ===== verification/Spec.v ===== *)
(** The Modbus application protocol, independently of the code: what a server
    with four address spaces answers to each request, and how requests and
    answers are encoded. The server and the client are proved against it. *)
From S2P Require Import Prelude Data Backend Mapping Reply.
#[local] Open Scope Z_scope.

(** ** Encodings *)
Definition word_bytes (v : Z) : list Z := [hi8 v; lo8 v].
Definition words_bytes (vs : list Z) : list Z := vs ≫= word_bytes.

(** Bits into bytes, least significant first, the last byte padded with zeros. *)
Fixpoint pack_from (k : Z) (l : list Z) : Z :=
  match l with [] => 0 | b :: l' => Z.lor (Z.shiftl b k) (pack_from (k + 1) l') end.
Fixpoint pack_chunks (n : nat) (l : list Z) : list Z :=
  match n, l with
  | Datatypes.S n', _ :: _ => pack_from 0 (take 8 l) :: pack_chunks n' (drop 8 l)
  | _, _ => []
  end.
Definition pack_bits (l : list Z) : list Z := pack_chunks (length l) l.

(** Bytes needed for [nb] bits. *)
Definition bytes_for (nb : Z) : Z := Z.quot nb 8 + (if Z.rem nb 8 =? 0 then 0 else 1).

(** ** Requests *)
Inductive request :=
  | ReadBits (is_input : bool) (addr nb : Z)
  | ReadRegisters (is_input : bool) (addr nb : Z)
  | WriteCoil (addr value : Z)
  | WriteRegister (addr value : Z)
  | WriteCoils (addr nb : Z) (data : list Z)       (** [data] are the packed bytes *)
  | WriteRegisters (addr nb : Z) (words : list Z)
  | ReportSlaveId
  | MaskWrite (addr and_mask or_mask : Z)
  | WriteRead (addr nb write_addr write_nb : Z) (words : list Z).

Definition function_code (r : request) : Z :=
  match r with
  | ReadBits false _ _ => 1 | ReadBits true _ _ => 2
  | ReadRegisters false _ _ => 3 | ReadRegisters true _ _ => 4
  | WriteCoil _ _ => 5 | WriteRegister _ _ => 6
  | WriteCoils _ _ _ => 15 | WriteRegisters _ _ _ => 16
  | ReportSlaveId => 17 | MaskWrite _ _ _ => 22 | WriteRead _ _ _ _ _ => 23
  end.

Definition encode_request (r : request) : list Z :=
  function_code r ::
  match r with
  | ReadBits _ a n | ReadRegisters _ a n => word_bytes a ++ word_bytes n
  | WriteCoil a v | WriteRegister a v => word_bytes a ++ word_bytes v
  | WriteCoils a n data => word_bytes a ++ word_bytes n ++ [zlen data] ++ data
  | WriteRegisters a n ws => word_bytes a ++ word_bytes n ++ [2 * zlen ws] ++ words_bytes ws
  | ReportSlaveId => []
  | MaskWrite a am om => word_bytes a ++ word_bytes am ++ word_bytes om
  | WriteRead a n wa wn ws =>
      word_bytes a ++ word_bytes n ++ word_bytes wa ++ word_bytes wn ++ [2 * zlen ws] ++ words_bytes ws
  end.

(** The fields fit their width and the data the request announces is there. *)
Definition wf_request (r : request) : Prop :=
  match r with
  | ReadBits _ a n | ReadRegisters _ a n => is_u16 a /\ is_u16 n
  | WriteCoil a v | WriteRegister a v => is_u16 a /\ is_u16 v
  | WriteCoils a n data =>
      is_u16 a /\ is_u16 n /\ Forall is_u8 data /\ zlen data <= 246 /\ (n <= 1968 -> n <= 8 * zlen data)
  | WriteRegisters a n ws =>
      is_u16 a /\ is_u16 n /\ Forall is_u16 ws /\ zlen ws <= 123 /\ (n <= 123 -> n <= zlen ws)
  | ReportSlaveId => True
  | MaskWrite a am om => is_u16 a /\ is_u16 am /\ is_u16 om
  | WriteRead a n wa wn ws =>
      is_u16 a /\ is_u16 n /\ is_u16 wa /\ is_u16 wn /\ Forall is_u16 ws /\ zlen ws <= 121
  end.

(** ** The server's address spaces *)
Record store := {
  coils : Z -> option Z; inputs : Z -> option Z;
  holding : Z -> option Z; input_regs : Z -> option Z }.

Definition store_equiv (a b : store) : Prop := forall x,
  coils a x = coils b x /\ inputs a x = inputs b x /\
  holding a x = holding b x /\ input_regs a x = input_regs b x.
#[export] Instance store_equiv_equivalence : Equivalence store_equiv.
Proof.
  split.
  - intros a x. done.
  - intros a b Hab x. destruct (Hab x) as (-> & -> & -> & ->). done.
  - intros a b c Hab Hbc x. destruct (Hab x) as (-> & -> & -> & ->). apply Hbc.
Qed.

Definition read_range (v : Z -> option Z) (a n : Z) : option (list Z) := mapM v (seqZ a n).
Definition write_range (v : Z -> option Z) (a : Z) (l : list Z) : Z -> option Z := fun x =>
  if (a <=? x) && (x <? a + zlen l) then l !! Z.to_nat (x - a) else v x.

Definition with_coils (v : Z -> option Z) (st : store) : store :=
  {| coils := v; inputs := inputs st; holding := holding st; input_regs := input_regs st |}.
Definition with_holding (v : Z -> option Z) (st : store) : store :=
  {| coils := coils st; inputs := inputs st; holding := v; input_regs := input_regs st |}.

Inductive answer := Exception (code : Z) | Normal (data : list Z).

Definition encode_answer (r : request) (a : answer) : list Z :=
  match a with
  | Exception code => [function_code r + 128; code]
  | Normal data => function_code r :: data
  end.

(** Executing a request. Quantities are checked before addresses. *)
Definition exec (st : store) (r : request) : store * answer :=
  match r with
  | ReadBits is_input a n =>
      if (n <? 1) || (2000 <? n) then (st, Exception 3)
      else match read_range (if is_input then inputs st else coils st) a n with
           | Some bits => (st, Normal (bytes_for n :: pack_bits bits))
           | None => (st, Exception 2)
           end
  | ReadRegisters is_input a n =>
      if (n <? 1) || (125 <? n) then (st, Exception 3)
      else match read_range (if is_input then input_regs st else holding st) a n with
           | Some ws => (st, Normal (2 * n :: words_bytes ws))
           | None => (st, Exception 2)
           end
  | WriteCoil a v =>
      match coils st a with
      | None => (st, Exception 2)
      | Some _ =>
          if (v =? 65280) || (v =? 0) then
            (with_coils (write_range (coils st) a [if v =? 0 then 0 else 1]) st,
             Normal (word_bytes a ++ word_bytes v))
          else (st, Exception 3)
      end
  | WriteRegister a v =>
      match holding st a with
      | None => (st, Exception 2)
      | Some _ => (with_holding (write_range (holding st) a [v]) st,
                   Normal (word_bytes a ++ word_bytes v))
      end
  | WriteCoils a n data =>
      if (n <? 1) || (1968 <? n) then (st, Exception 3)
      else match read_range (coils st) a n with
           | None => (st, Exception 2)
           | Some _ => (with_coils (write_range (coils st) a (unpack_bits n data)) st,
                        Normal (word_bytes a ++ word_bytes n))
           end
  | WriteRegisters a n ws =>
      if (n <? 1) || (123 <? n) then (st, Exception 3)
      else match read_range (holding st) a n with
           | None => (st, Exception 2)
           | Some _ => (with_holding (write_range (holding st) a (take (Z.to_nat n) ws)) st,
                        Normal (word_bytes a ++ word_bytes n))
           end
  | ReportSlaveId =>
      (st, Normal ([24; 180; 255] ++ LMB ++ LIBMODBUS_VERSION_STRING))
  | MaskWrite a am om =>
      match holding st a with
      | None => (st, Exception 2)
      | Some v =>
          (with_holding (write_range (holding st) a
             [Z.lor (Z.land v am) (Z.land om (Z.lxor am 65535))]) st,
           Normal (word_bytes a ++ word_bytes am ++ word_bytes om))
      end
  | WriteRead a n wa wn ws =>
      if (wn <? 1) || (121 <? wn) || (n <? 1) || (125 <? n) || negb (zlen ws =? wn) then
        (st, Exception 3)
      else match read_range (holding st) a n, read_range (holding st) wa wn with
           | Some _, Some _ =>
               let st' := with_holding (write_range (holding st) wa ws) st in
               match read_range (holding st') a n with
               | Some vs => (st', Normal (2 * n :: words_bytes vs))
               | None => (st, Exception 2)
               end
           | _, _ => (st, Exception 2)
           end
  end.
