(* ===== verification/Bits.v ===== *)
(** Packing bits into bytes: the lemmas about [pack_bits] of Spec and
    [unpack_bits] of Data that the server's and the client's loops share. *)
From S2P Require Import Prelude Data Spec.
#[local] Open Scope Z_scope.

Definition is_bit (x : Z) : Prop := x = 0 \/ x = 1.

Lemma pack_chunks_fuel l : forall n m, (length l <= n)%nat -> (length l <= m)%nat ->
  pack_chunks n l = pack_chunks m l.
Proof.
  induction l as [l IH] using (induction_ltof1 _ (@length Z)). unfold ltof in IH.
  intros [|n] [|m] Hn Hm; destruct l as [|b l]; cbn [length] in *; try lia; try done.
  cbn [pack_chunks]. f_equal. apply IH; rewrite length_drop; cbn [length]; lia.
Qed.

Lemma pack_bits_cons l : l <> [] -> pack_bits l = pack_from 0 (take 8 l) :: pack_bits (drop 8 l).
Proof.
  destruct l as [|b l]; [done|]. intros _. unfold pack_bits. cbn [length pack_chunks]. f_equal.
  apply pack_chunks_fuel; rewrite length_drop; cbn [length]; lia.
Qed.

Lemma pack_bits_app k : forall q r, length q = (8 * k)%nat ->
  pack_bits (q ++ r) = pack_bits q ++ pack_bits r.
Proof.
  induction k as [|k IH]; intros q r Hq; [by destruct q|].
  assert (Hne : q <> []) by (intros ->; cbn in Hq; lia).
  rewrite (pack_bits_cons (q ++ r)), (pack_bits_cons q) by (destruct q; done).
  rewrite take_app_le, drop_app_le by lia. cbn. f_equal. apply IH.
  rewrite length_drop. lia.
Qed.

Lemma pack_bits_small c : c <> [] -> (length c <= 8)%nat -> pack_bits c = [pack_from 0 c].
Proof. intros Hne Hc. rewrite pack_bits_cons by done. by rewrite take_ge, drop_ge by lia. Qed.

(** One more byte of eight (or the last few) bits. *)
Lemma pack_bits_next l i : (8 * i < length l)%nat ->
  pack_bits (take (8 * i) l) ++ [pack_from 0 (take 8 (drop (8 * i) l))] = pack_bits (take (8 * S i) l).
Proof.
  intros Hi. replace (8 * S i)%nat with (8 * i + 8)%nat by lia.
  rewrite <- take_take_drop, (pack_bits_app i) by (rewrite length_take; lia). f_equal.
  rewrite (pack_bits_small (take 8 _)); [done| |rewrite length_take; lia].
  intros E. apply (f_equal length) in E. rewrite length_take, length_drop in E. cbn [length] in E. lia.
Qed.

Lemma pack_from_snoc l b : forall k,
  pack_from k (l ++ [b]) = Z.lor (pack_from k l) (Z.shiftl b (k + zlen l)).
Proof.
  induction l as [|x l IH]; intros k; cbn [pack_from app].
  - by rewrite Z.lor_0_r, Z.lor_0_l, Z.add_0_r.
  - rewrite IH, zlen_cons, Z.lor_assoc. do 2 f_equal. lia.
Qed.

Lemma lor_range x y k : 0 <= k -> 0 <= x < 2 ^ k -> 0 <= y < 2 ^ k -> 0 <= Z.lor x y < 2 ^ k.
Proof.
  intros Hk Hx Hy. split; [apply Z.lor_nonneg; lia|].
  destruct (Z.eq_dec (Z.lor x y) 0) as [->|Hne]; [lia|].
  assert (0 < Z.lor x y) by (assert (0 <= Z.lor x y) by (apply Z.lor_nonneg; lia); lia).
  apply Z.log2_lt_pow2; [lia|]. rewrite Z.log2_lor by lia.
  assert (k <> 0) by (intros ->; assert (x = 0) by lia; assert (y = 0) by lia; subst; done).
  assert (Hl : forall z, 0 <= z < 2 ^ k -> Z.log2 z < k).
  { intros z Hz. destruct (Z.eq_dec z 0) as [->|]; [cbn; lia|]. apply Z.log2_lt_pow2; lia. }
  pose proof (Hl x Hx). pose proof (Hl y Hy). lia.
Qed.

Lemma pack_from_range l : forall k, 0 <= k -> Forall is_bit l ->
  0 <= pack_from k l < 2 ^ (k + zlen l).
Proof.
  induction l as [|b l IH]; intros k Hk Hl; cbn [pack_from].
  - change (zlen (@nil Z)) with 0. rewrite Z.add_0_r.
    pose proof (Z.pow_pos_nonneg 2 k ltac:(lia) Hk). lia.
  - apply Forall_cons in Hl as [Hb Hl]. rewrite zlen_cons. pose proof (zlen_nonneg l).
    replace (k + (1 + zlen l)) with (k + 1 + zlen l) by lia.
    apply lor_range; [lia| |apply IH; [lia|done]].
    rewrite Z.shiftl_mul_pow2 by lia.
    assert (2 ^ (k + 1) <= 2 ^ (k + 1 + zlen l)) by (apply Z.pow_le_mono_r; lia).
    assert (2 ^ (k + 1) = 2 * 2 ^ k) by (rewrite Z.pow_add_r by lia; lia).
    pose proof (Z.pow_pos_nonneg 2 k ltac:(lia) ltac:(lia)).
    destruct Hb as [-> | ->]; lia.
Qed.

Lemma pack_from_u8 l : Forall is_bit l -> (length l <= 8)%nat -> is_u8 (pack_from 0 l).
Proof.
  intros Hb Hl. pose proof (pack_from_range l 0 ltac:(lia) Hb) as Hr.
  assert (2 ^ (0 + zlen l) <= 2 ^ 8) by (apply Z.pow_le_mono_r; unfold zlen; lia).
  unfold is_u8. change (2 ^ 8) with 256 in *. lia.
Qed.

Lemma pack_from_testbit l : forall k j, 0 <= k -> 0 <= j -> Forall is_bit l ->
  Z.testbit (pack_from k l) j = (k <=? j) && (default 0 (l !! Z.to_nat (j - k)) =? 1).
Proof.
  induction l as [|b l IH]; intros k j Hk Hj Hl; cbn [pack_from].
  - rewrite Z.bits_0. cbn. by rewrite andb_false_r.
  - apply Forall_cons in Hl as [Hb Hl]. rewrite Z.lor_spec, IH by (lia || done).
    rewrite Z.shiftl_spec by lia.
    destruct (Z.leb_spec (k + 1) j), (Z.leb_spec k j); try lia; cbn [andb].
    + replace (Z.to_nat (j - k)) with (Datatypes.S (Z.to_nat (j - (k + 1)))) by lia. cbn.
      replace (Z.testbit b (j - k)) with false; [done|].
      destruct Hb as [-> | ->]; [by rewrite Z.bits_0|].
      change 1 with (2 ^ 0). rewrite Z.pow2_bits_eqb by lia. symmetry. apply Z.eqb_neq. lia.
    + replace j with k by lia. rewrite Z.sub_diag, orb_false_r. by destruct Hb as [-> | ->].
    + rewrite Z.testbit_neg_r by lia. done.
Qed.

(** Inducting over a list eight elements at a time. *)
Lemma list_chunk8_ind (Q : list Z -> Prop) :
  Q [] -> (forall l, l <> [] -> Q (drop 8 l) -> Q l) -> forall l, Q l.
Proof.
  intros H0 Hs l. induction l as [l IH] using (induction_ltof1 _ (@length Z)). unfold ltof in IH.
  destruct (decide (l = [])) as [->|Hne]; [done|]. apply Hs; [done|]. apply IH.
  rewrite length_drop. destruct l; [done|]. cbn. lia.
Qed.

Lemma bytes_for_div n : 0 <= n -> bytes_for n = (n + 7) / 8.
Proof.
  intros Hn. unfold bytes_for. rewrite Z.quot_div_nonneg, Z.rem_mod_nonneg by lia.
  destruct (Z.eqb_spec (n mod 8) 0); zdiv.
Qed.

Lemma zlen_pack_bits l : zlen (pack_bits l) = bytes_for (zlen l).
Proof.
  induction l as [|l Hne IH] using list_chunk8_ind; [done|].
  rewrite pack_bits_cons, zlen_cons, IH, !bytes_for_div by (done || apply zlen_nonneg).
  unfold zlen. rewrite length_drop.
  destruct l as [|x l]; [done|]. cbn [length].
  destruct (decide (S (length l) <= 8)%nat).
  - replace (S (length l) - 8)%nat with 0%nat by lia. zdiv.
  - replace (Z.of_nat (S (length l) - 8)) with (Z.of_nat (S (length l)) - 8) by lia. zdiv.
Qed.

Lemma pack_bits_u8 l : Forall is_bit l -> Forall is_u8 (pack_bits l).
Proof.
  induction l as [|l Hne IH] using list_chunk8_ind; [done|]. intros Hb.
  rewrite pack_bits_cons by done. constructor; [|by apply IH, Forall_drop].
  apply pack_from_u8; [by apply Forall_take|]. rewrite length_take. lia.
Qed.

(** Unpacking gives the bits back; the padding is zero. *)
Lemma bit_at_pack_bits l : Forall is_bit l -> forall j, 0 <= j ->
  bit_at (pack_bits l) j = (default 0 (l !! Z.to_nat j) =? 1).
Proof.
  induction l as [|l Hne IH] using list_chunk8_ind; intros Hb j Hj.
  - unfold bit_at. cbn. destruct (Z.to_nat (j / 8)); apply Z.bits_0.
  - rewrite pack_bits_cons by done. unfold bit_at.
    destruct (Z.ltb_spec j 8) as [Hlt|Hge].
    + rewrite Z.div_small, Z.mod_small by lia. change (Z.to_nat 0) with 0%nat. cbn [nth].
      rewrite pack_from_testbit by (lia || by apply Forall_take). cbn [andb Z.leb].
      rewrite (proj2 (Z.leb_le 0 j)), Z.sub_0_r by lia. by rewrite lookup_take_lt by lia.
    + replace (Z.to_nat (j / 8)) with (S (Z.to_nat ((j - 8) / 8))) by zdiv. cbn [nth].
      replace (j mod 8) with ((j - 8) mod 8) by zdiv.
      change (bit_at (pack_bits (drop 8 l)) (j - 8) = (default 0 (l !! Z.to_nat j) =? 1)).
      rewrite IH by (lia || by apply Forall_drop). rewrite lookup_drop. do 4 f_equal. lia.
Qed.

Lemma unpack_pack_bits l : Forall is_bit l -> unpack_bits (zlen l) (pack_bits l) = l.
Proof.
  intros Hb. apply list_eq. intros i. unfold unpack_bits. rewrite list_lookup_fmap.
  destruct (l !! i) as [x|] eqn:E.
  - assert (i < length l)%nat by (by apply lookup_lt_Some in E).
    rewrite (lookup_seqZ_lt 0) by (unfold zlen; lia). cbn. f_equal.
    rewrite bit_at_pack_bits by (done || lia). rewrite Z.add_0_l, Nat2Z.id, E. cbn.
    eapply Forall_lookup_1 in E; [|done]. by destruct E as [-> | ->].
  - apply lookup_ge_None in E. rewrite lookup_seqZ_ge by (unfold zlen; lia). done.
Qed.

Lemma unpack_bits_is_bit n data : Forall is_bit (unpack_bits n data).
Proof.
  unfold unpack_bits. apply Forall_fmap, Forall_true. intros j. cbn. unfold is_bit.
  destruct (bit_at data j); auto.
Qed.
Lemma zlen_unpack_bits n data : 0 <= n -> zlen (unpack_bits n data) = n.
Proof. intros. unfold unpack_bits. by rewrite zlen_fmap, zlen_seqZ. Qed.

(** Words in network order. *)
Lemma words_bytes_lookup ws : forall k w, ws !! k = Some w ->
  words_bytes ws !! (2 * k)%nat = Some (hi8 w) /\ words_bytes ws !! (2 * k + 1)%nat = Some (lo8 w).
Proof.
  induction ws as [|v ws IH]; intros [|k] w Hk; try done.
  - injection Hk as ->. done.
  - apply IH in Hk as [H1 H2].
    replace (2 * S k)%nat with (S (S (2 * k))) by lia.
    replace (S (S (2 * k)) + 1)%nat with (S (S (2 * k + 1))) by lia. done.
Qed.
Lemma zlen_words_bytes ws : zlen (words_bytes ws) = 2 * zlen ws.
Proof.
  induction ws as [|v ws IH]; [done|]. change (words_bytes (v :: ws)) with (hi8 v :: lo8 v :: words_bytes ws).
  rewrite !zlen_cons, IH. lia.
Qed.
