(* ===== verification/ReplyProofs.v ===== *)
(** The server refines the protocol: [modbus_reply] on the frame of a request
    sends the frame of the answer the specification gives and leaves the tables
    as the specification says. *)
From S2P Require Import Prelude Platform Data Backend Core Framing Mapping Reply Spec Bits.
#[local] Open Scope Z_scope.

(** ** The address spaces a mapping represents *)
Definition view (start nb : Z) (l : list Z) : Z -> option Z := fun x =>
  if (start <=? x) && (x <? start + nb) then l !! Z.to_nat (x - start) else None.

Definition abs (m : modbus_mapping_t) : store := {|
  coils := view (start_bits m) (nb_bits m) (cells (tab_bits m));
  inputs := view (start_input_bits m) (nb_input_bits m) (cells (tab_input_bits m));
  holding := view (start_registers m) (nb_registers m) (cells (tab_registers m));
  input_regs := view (start_input_registers m) (nb_input_registers m)
                  (cells (tab_input_registers m)) |}.

(** The counts are the table sizes, bits are 0 or 1, registers fit 16 bits. *)
Record wf_mapping (m : modbus_mapping_t) : Prop := {
  wf_bits : zlen (cells (tab_bits m)) = nb_bits m;
  wf_input_bits : zlen (cells (tab_input_bits m)) = nb_input_bits m;
  wf_registers : zlen (cells (tab_registers m)) = nb_registers m;
  wf_input_registers : zlen (cells (tab_input_registers m)) = nb_input_registers m;
  wf_bits_val : Forall is_bit (cells (tab_bits m));
  wf_input_bits_val : Forall is_bit (cells (tab_input_bits m));
  wf_registers_val : Forall is_u16 (cells (tab_registers m));
  wf_input_registers_val : Forall is_u16 (cells (tab_input_registers m));
  wf_bits_size : nb_bits m < 2147483648
}.

(** Executing requests changes the contents of the two writable tables only. *)
Definition same_layout (m m' : modbus_mapping_t) : Prop :=
  m' = with_bits (cells (tab_bits m')) (with_registers (cells (tab_registers m')) m).
#[export] Instance same_layout_preorder : PreOrder same_layout.
Proof.
  split.
  - intros [? ? ? ? ? ? ? ? ? [] [] [] []]. done.
  - intros a b c Hab Hbc. unfold same_layout in *. rewrite Hbc, Hab. by destruct a, b, c.
Qed.
Definition evolves (m m' : modbus_mapping_t) : Prop := wf_mapping m' /\ same_layout m m'.

Lemma view_inside s nb l a n :
  zlen l = nb -> 0 <= n -> s <= a -> a - s + n <= nb ->
  read_range (view s nb l) a n = Some (take (Z.to_nat n) (drop (Z.to_nat (a - s)) l)).
Proof.
  intros Hl Hn Hs Hle. unfold read_range. apply mapM_Some, Forall2_same_length_lookup.
  unfold zlen in *. split.
  - rewrite length_seqZ, length_take, length_drop. lia.
  - intros i x y Hx Hy. apply lookup_seqZ in Hx as [-> Hi].
    unfold view. rewrite (proj2 (Z.leb_le _ _)), (proj2 (Z.ltb_lt _ _)) by lia. cbn.
    rewrite lookup_take_lt in Hy by lia. rewrite lookup_drop in Hy. rewrite <- Hy. f_equal. lia.
Qed.

Lemma mapM_None_lookup {A B} (f : A -> option B) (l : list A) i x :
  l !! i = Some x -> f x = None -> mapM f l = None.
Proof.
  intros Hx Hf. destruct (mapM f l) as [k|] eqn:E; [|done].
  apply mapM_Some in E. destruct (Forall2_lookup_l _ _ _ _ _ E Hx) as (y & _ & Hy). congruence.
Qed.

Lemma view_range s nb l a n :
  zlen l = nb -> 1 <= n ->
  read_range (view s nb l) a n =
    if (a - s <? 0) || (nb <? a - s + n) then None
    else Some (take (Z.to_nat n) (drop (Z.to_nat (a - s)) l)).
Proof.
  intros Hl Hn. destruct (Z.ltb_spec (a - s) 0) as [Hlt|Hge]; cbn [orb].
  { apply (mapM_None_lookup _ _ 0 a).
    - rewrite lookup_seqZ. lia.
    - unfold view. rewrite (proj2 (Z.leb_gt _ _)) by lia. done. }
  destruct (Z.ltb_spec nb (a - s + n)) as [Hlt|Hle]; [|apply view_inside; lia].
  apply (mapM_None_lookup _ _ (Z.to_nat (n - 1)) (a + (n - 1))).
  - rewrite lookup_seqZ. lia.
  - unfold view. rewrite (proj2 (Z.ltb_ge _ _)) by lia. by rewrite andb_false_r.
Qed.

Lemma view_one s nb l a : zlen l = nb ->
  view s nb l a = if (a - s <? 0) || (nb <=? a - s) then None else l !! Z.to_nat (a - s).
Proof.
  intros Hl. unfold view.
  destruct (Z.leb_spec s a), (Z.ltb_spec (a - s) 0), (Z.ltb_spec a (s + nb)),
    (Z.leb_spec nb (a - s)); cbn; try lia; done.
Qed.

Lemma view_splice s nb l a k x :
  zlen l = nb -> s <= a -> a - s + zlen k <= nb ->
  view s nb (splice l (a - s) k) x = write_range (view s nb l) a k x.
Proof.
  intros Hl Hs Hle. unfold view, write_range. pose proof (zlen_nonneg k).
  destruct (Z.leb_spec s x), (Z.ltb_spec x (s + nb)), (Z.leb_spec a x), (Z.ltb_spec x (a + zlen k));
    cbn [andb]; try lia; try done.
  - rewrite splice_lookup_in by lia. f_equal. lia.
  - rewrite splice_lookup_out by lia. done.
  - rewrite splice_lookup_out by lia. done.
Qed.

Lemma view_insert s nb l a v x :
  zlen l = nb -> s <= a -> a - s < nb ->
  view s nb (<[Z.to_nat (a - s) := v]> l) x = write_range (view s nb l) a [v] x.
Proof.
  intros Hl Hs Hle. rewrite <- view_splice by (rewrite ?zlen_cons, ?zlen_nil; lia).
  pose proof (splice_snoc l (a - s) [] v) as E.
  change (zlen (@nil Z)) with 0 in E. rewrite Z.add_0_r, splice_nil in E.
  rewrite E by lia. done.
Qed.

(** ** Reading the fields of a request *)
Section proofs.
Context {W : Type} `{OS W} {FU : Fuel} {BC : BuildConfig}.
Context (be : modbus_backend_t W) {FR : Framing be}.

Definition received (sft : sft_t) (pdu : list Z) (rest : buf) : buf :=
  (Some <$> adu sft pdu) ++ rest.

Lemma received_lookup sft pdu rest k x : pdu !! k = Some x ->
  received sft pdu rest !! (Z.to_nat (header_length be) + k)%nat = Some (Some x).
Proof.
  intros Hx. unfold received. destruct (adu_split sft pdu) as (h & t & -> & Hh & _).
  apply hdr_length in Hh. rewrite zlen_fmap in Hh.
  apply lookup_prefix. unfold zlen in Hh. rewrite lookup_app_r by lia.
  replace (_ + k - length h)%nat with k by lia. by apply lookup_app_l_Some.
Qed.

Lemma rd_pdu sft pdu rest k x (st : state W) : 0 <= k -> pdu !! Z.to_nat k = Some x ->
  rd (received sft pdu rest) (header_length be + k) st = Ret x st.
Proof.
  intros Hk Hx. pose proof header_bounds as Hb. apply rd_eq; [lia|].
  rewrite Z2Nat.inj_add by lia. by apply received_lookup.
Qed.

Lemma rd16_pdu sft pdu rest k h l (st : state W) :
  0 <= k -> pdu !! Z.to_nat k = Some h -> pdu !! Z.to_nat (k + 1) = Some l ->
  rd16 (received sft pdu rest) (header_length be + k) st = Ret (be16 h l) st.
Proof.
  intros Hk Hh Hl. unfold rd16. erewrite bind_ret_eq by (by apply rd_pdu).
  rewrite <- Z.add_assoc. erewrite bind_ret_eq by (apply rd_pdu; [lia|done]). done.
Qed.

Lemma rd_slave sft pdu rest (st : state W) : is_u8 (sft_slave sft) ->
  rd (received sft pdu rest) (header_length be - 1) st = Ret (sft_slave sft) st.
Proof.
  intros Hs. pose proof header_bounds as Hb.
  unfold received. destruct (adu_split sft pdu) as (h & t & -> & Hh & _).
  apply rd_eq; [lia|].
  pose proof (hdr_slave _ _ Hh Hs) as Hl. rewrite list_lookup_fmap in Hl.
  destruct (h !! Z.to_nat (header_length be - 1)) as [x|] eqn:E; [|done].
  injection Hl as ->. apply lookup_prefix. by apply lookup_app_l_Some.
Qed.

(** ** The shape of a branch *)
Definition flush_if (b : bool) : P W unit :=
  if b then _sleep_response_timeout ;;; let* _ := be_flush be in ret tt else ret tt.

(** The branch builds the response [pdu], leaves the tables [m], and before
    that only flushes. *)
Definition builds (sft : sft_t) (c : P W reply_t) (flush : bool) (pdu : list Z)
    (m : modbus_mapping_t) : Prop :=
  forall st, exists rsp n, is_rsp be sft pdu rsp n /\
    c st = (flush_if flush ;;; ret ((n, rsp), m)) st.

Lemma builds_exception sft code fl m :
  is_u8 code ->
  builds sft (exception_reply be sft code fl m) fl [u8 (sft_function sft + 128); code] m.
Proof.
  intros Hcode.
  set (sft' := {| sft_slave := sft_slave sft; sft_function := sft_function sft + 128;
                  sft_t_id := sft_t_id sft |}).
  pose proof header_bounds as Hb.
  destruct (response_basis_rsp be sft') as (rsp & n & Hr & E).
  destruct (is_rsp_wr be sft' _ rsp n code Hr) as (rsp' & Hr' & E').
  { rewrite (is_rsp_len be _ _ _ _ Hr), zlen_cons, zlen_nil. unfold MAX_MESSAGE_LENGTH. lia. }
  intros st. exists rsp', (n + 1). split.
  - rewrite (u8_id code) in Hr' by done. destruct Hr' as (h & t & Hh & Hrest). exists h, t.
    split; [|exact Hrest].
    by apply (hdr_function sft' (sft_function sft)) in Hh; destruct sft.
  - unfold exception_reply, response_exception. rewrite bind_assoc.
    apply bind_ext; [done|]. intros _ s'. rewrite bind_assoc.
    erewrite bind_ret_eq by apply E. cbn beta iota. rewrite bind_assoc. unfold put.
    by erewrite bind_ret_eq by (by erewrite bind_ret_eq by apply E').
Qed.

(** ** Loops that extend a response *)
Lemma put_rsp sft pdu rsp n v (st : state W) :
  is_rsp be sft pdu rsp n -> n < MAX_MESSAGE_LENGTH ->
  exists rsp', put (rsp, n) v st = Ret (rsp', n + 1) st /\
    is_rsp be sft (pdu ++ [u8 v]) rsp' (n + 1).
Proof.
  intros Hr Hn. destruct (is_rsp_wr be sft pdu rsp n v Hr Hn) as (rsp' & Hr' & E).
  exists rsp'. split; [|done]. unfold put. by erewrite bind_ret_eq by apply E.
Qed.

(** After [j] bits: the complete bytes [q] are in the response, the remaining
    [cur] in [one_byte]. *)
Definition io_inv (sft : sft_t) (pdu bits : list Z) (j : Z) (rsp : buf)
    (offset one_byte shift : Z) : Prop :=
  exists q cur k, take (Z.to_nat j) bits = q ++ cur /\ length q = (8 * k)%nat /\
    zlen cur = shift /\ shift < 8 /\ one_byte = pack_from 0 cur /\
    is_rsp be sft (pdu ++ pack_bits q) rsp offset.

(** A completed byte still fits. *)
Lemma io_room sft pdu (bits : list Z) n rsp offset q (c : list Z) k :
  n = header_length be + zlen pdu -> n + bytes_for (zlen bits) <= MAX_MESSAGE_LENGTH ->
  is_rsp be sft (pdu ++ pack_bits q) rsp offset -> length q = (8 * k)%nat ->
  (0 < length c)%nat -> (length q + length c <= length bits)%nat ->
  offset < MAX_MESSAGE_LENGTH.
Proof.
  intros -> Hroom Hr Hk Hc Hle. rewrite (is_rsp_len be _ _ _ _ Hr), zlen_app, zlen_pack_bits.
  rewrite bytes_for_div in * by apply zlen_nonneg. unfold zlen in *.
  assert ((Z.of_nat (length q) + 7) / 8 < (Z.of_nat (length bits) + 7) / 8) by zdiv. lia.
Qed.

(** Writing the byte that [cur] makes. *)
Lemma io_flush sft pdu (bits : list Z) n rsp offset q cur k (st : state W) :
  n = header_length be + zlen pdu -> n + bytes_for (zlen bits) <= MAX_MESSAGE_LENGTH ->
  is_rsp be sft (pdu ++ pack_bits q) rsp offset -> length q = (8 * k)%nat ->
  cur <> [] -> (length cur <= 8)%nat -> Forall is_bit cur ->
  (length q + length cur <= length bits)%nat ->
  exists rsp', put (rsp, offset) (pack_from 0 cur) st = Ret (rsp', offset + 1) st /\
    is_rsp be sft (pdu ++ pack_bits (q ++ cur)) rsp' (offset + 1).
Proof.
  intros Hn Hroom Hr Hk Hne Hc Hb Hle.
  assert (Hlen : offset < MAX_MESSAGE_LENGTH).
  { eapply (io_room sft pdu bits n rsp offset q cur); [done..| |done]. destruct cur; [done|cbn; lia]. }
  destruct (put_rsp _ _ _ _ (pack_from 0 cur) st Hr Hlen) as (rsp' & E & Hr').
  exists rsp'. split; [done|].
  rewrite (pack_bits_app k), (pack_bits_small cur), app_assoc by done.
  by rewrite u8_id in Hr' by by apply pack_from_u8.
Qed.

Lemma io_status_rsp sft pdu rsp n tab a nb (st : state W) :
  is_rsp be sft pdu rsp n -> 0 <= a -> 0 <= nb -> a + nb <= zlen tab -> Forall is_bit tab ->
  n + bytes_for nb <= MAX_MESSAGE_LENGTH ->
  let bits := take (Z.to_nat nb) (drop (Z.to_nat a) tab) in
  wp (response_io_status tab a nb rsp n) (fun '(n', rsp') s' => s' = st /\
      is_rsp be sft (pdu ++ pack_bits bits) rsp' n') st.
Proof.
  intros Hr Ha Hnb Hle Hbit Hroom bits.
  assert (Hbits : zlen bits = nb) by (unfold zlen, bits in *; rewrite length_take, length_drop; lia).
  assert (Hbb : Forall is_bit bits) by (by apply Forall_take, Forall_drop).
  pose proof (is_rsp_len be _ _ _ _ Hr) as Hn0. rewrite <- Hbits in Hroom.
  apply wp_bind. eapply wp_mono.
  - apply (wp_for _ (fun i '(rsp, offset, one_byte, shift) s' => s' = st /\
        io_inv sft pdu bits (i - a) rsp offset one_byte shift)).
    + split; [done|]. exists [], [], 0%nat. rewrite Z.sub_diag. cbn. by rewrite app_nil_r.
    + intros i [[[rsp' offset] one_byte] shift] s' Hi
        (-> & q & cur & k & Hq & Hk & Hcur & Hs & -> & Hr').
      destruct (lookup_lt_is_Some_2 bits (Z.to_nat (i - a))) as [x Hx]; [unfold zlen in *; lia|].
      assert (Htake : take (Z.to_nat (i + 1 - a)) bits = q ++ (cur ++ [x])).
      { replace (Z.to_nat (i + 1 - a)) with (Datatypes.S (Z.to_nat (i - a))) by lia.
        by rewrite (take_S_r _ _ x), Hq, <- app_assoc. }
      pose proof (f_equal length Htake) as Hl. rewrite length_take, !length_app in Hl. cbn in Hl.
      pose proof (Forall_take _ (Z.to_nat (i + 1 - a)) _ Hbb) as Hcb.
      rewrite Htake in Hcb. apply Forall_app in Hcb as [_ Hcb].
      apply wp_bind. eapply wp_eq.
      { apply arr_get_eq; [lia|]. unfold bits in Hx. rewrite lookup_take_lt in Hx by lia.
        rewrite lookup_drop in Hx. rewrite <- Hx. f_equal. lia. }
      cbv zeta. replace (Z.lor _ _) with (pack_from 0 (cur ++ [x]))
        by (by rewrite pack_from_snoc, <- Hcur).
      destruct (Z.eqb_spec shift 7) as [->|Hne].
      * destruct (io_flush sft pdu bits n rsp' offset q (cur ++ [x]) k st) as (rsp'' & E & Hr'');
          [done..|by destruct cur| |done| |];
          rewrite ?length_app; unfold zlen in *; cbn [length]; try lia.
        apply wp_bind. eapply wp_eq; [exact E|]. apply wp_ret.
        split; [done|]. exists (q ++ cur ++ [x]), [], (k + 1)%nat.
        rewrite app_nil_r, !length_app. unfold zlen in *. cbn [length].
        split_and!; (done || lia).
      * apply wp_ret. split; [done|]. exists q, (cur ++ [x]), k.
        rewrite zlen_app, zlen_cons, Hcur. change (zlen (@nil Z)) with 0.
        split_and!; (done || lia).
  - intros [[[rsp' offset] one_byte] shift] s' (-> & q & cur & k & Hq & Hk & Hcur & Hs & -> & Hr').
    replace (Z.to_nat (a + Z.of_nat (Z.to_nat nb) - a)) with (length bits) in Hq by (unfold zlen in *; lia).
    rewrite firstn_all in Hq.
    destruct (Z.eqb_spec shift 0) as [->|Hne]; cbn [negb].
    + apply wp_ret. split; [done|].
      destruct cur as [|? ?]; [|rewrite zlen_cons in Hcur; pose proof (zlen_nonneg cur); lia].
      rewrite Hq, app_nil_r. done.
    + pose proof Hbb as Hcb. rewrite Hq in Hcb. apply Forall_app in Hcb as [_ Hcb].
      destruct (io_flush sft pdu bits n rsp' offset q cur k st) as (rsp'' & E & Hr'');
        [done..|by intros -> | |done| |].
      * unfold zlen in Hcur. lia.
      * by rewrite Hq, length_app.
      * apply wp_bind. eapply wp_eq; [exact E|]. apply wp_ret. by rewrite Hq.
Qed.

Lemma put_registers_rsp sft pdu rsp n tab i nb (st : state W) :
  is_rsp be sft pdu rsp n -> 0 <= i -> 0 <= nb -> i + nb <= zlen tab ->
  n + 2 * nb <= MAX_MESSAGE_LENGTH ->
  wp (put_registers tab i nb (rsp, n)) (fun '(rsp', n') s' => s' = st /\
      is_rsp be sft (pdu ++ words_bytes (take (Z.to_nat nb) (drop (Z.to_nat i) tab))) rsp' n') st.
Proof.
  intros Hr Hi Hnb Hle Hroom. unfold zlen in Hle.
  pose proof (is_rsp_len be _ _ _ _ Hr) as Hn0.
  eapply wp_mono.
  - apply (wp_for _ (fun j '(rsp', n') s' => s' = st /\ n' = n + 2 * (j - i) /\
        is_rsp be sft (pdu ++ words_bytes (take (Z.to_nat (j - i)) (drop (Z.to_nat i) tab))) rsp' n')).
    + rewrite Z.sub_diag. cbn. rewrite app_nil_r. split_and!; (done || lia).
    + intros j [rsp' n'] s' Hj (-> & -> & Hr').
      destruct (lookup_lt_is_Some_2 tab (Z.to_nat j)) as [x Hx]; [lia|].
      apply wp_bind. eapply wp_eq; [apply arr_get_eq; [lia|exact Hx]|].
      destruct (put_rsp _ _ _ _ (Z.shiftr x 8) st Hr') as (r1 & E1 & Hr1); [lia|].
      apply wp_bind. eapply wp_eq; [exact E1|].
      destruct (put_rsp _ _ _ _ (Z.land x 255) st Hr1) as (r2 & E2 & Hr2); [lia|].
      eapply wp_eq; [exact E2|].
      split; [done|]. split; [lia|].
      replace (Z.to_nat (j + 1 - i)) with (Datatypes.S (Z.to_nat (j - i))) by lia.
      rewrite (take_S_r _ _ x).
      2: { rewrite lookup_drop, <- Hx. f_equal. lia. }
      unfold words_bytes in *. rewrite bind_app, app_assoc. cbn [mbind list_bind app].
      rewrite <- app_assoc in Hr2. exact Hr2.
  - intros [rsp' n'] s' (-> & _ & Hr'). split; [done|].
    replace (Z.to_nat (i + Z.of_nat (Z.to_nat nb) - i)) with (Z.to_nat nb) in Hr' by lia. done.
Qed.

(** The registers a request carries, stored into the table. *)
Lemma store_registers_eq tab a nb req base ws (st : state W) :
  0 <= a -> 0 <= nb -> a + nb <= zlen tab -> nb <= zlen ws -> Forall is_u16 ws ->
  (forall k w, ws !! Z.to_nat k = Some w -> 0 <= k -> rd16 req (base + 2 * k) st = Ret w st) ->
  store_registers tab a nb req base st = Ret (splice tab a (take (Z.to_nat nb) ws)) st.
Proof.
  intros Ha Hnb Hle Hws Hu Hrd. unfold store_registers.
  erewrite bind_ret_eq.
  2: { apply (wp_fill _ (fun i => default 0 (ws !! Z.to_nat (i - a))) (fun i => base + 2 * (i - a)));
    [lia|lia|lia|lia|].
    intros j d' Hj Hd'. unfold zlen in Hws.
    destruct (lookup_lt_is_Some_2 ws (Z.to_nat (j - a))) as [x Hx]; [lia|].
    erewrite bind_ret_eq by (apply Hrd; [exact Hx|lia]).
    erewrite bind_ret_eq by (apply arr_set_eq; lia).
    rewrite Hx. cbn [default]. rewrite u16_id by (by eapply Forall_lookup_1 in Hx).
    unfold ret. do 2 f_equal. lia. }
  unfold ret. cbn [fst]. f_equal. f_equal. unfold zlen in Hws.
  apply list_eq_same_length with (Z.to_nat nb);
    rewrite ?length_fmap, ?length_seqZ, ?length_take; try lia.
  intros i x y Hi Hx Hy. rewrite list_lookup_fmap, lookup_seqZ_lt in Hx by lia.
  rewrite lookup_take_lt in Hy by lia. injection Hx as <-.
  replace (Z.to_nat (a + Z.of_nat i - a)) with i by lia. by rewrite Hy.
Qed.

(** ** The branches *)
Lemma builds_bind {B} sft (c : P W B) f v fl pdu m :
  (forall st, c st = Ret v st) -> builds sft (f v) fl pdu m -> builds sft (let* x := c in f x) fl pdu m.
Proof. intros Hc Hf st. unfold bind. rewrite Hc. apply Hf. Qed.

Lemma builds_wp sft (c : P W reply_t) pdu m :
  (forall st, wp c (fun '((n, rsp), m') s' => s' = st /\ m' = m /\ is_rsp be sft pdu rsp n) st) ->
  builds sft c false pdu m.
Proof.
  intros Hc st. specialize (Hc st). apply wp_inv in Hc as ([[n rsp] m'] & s' & E & -> & -> & Hr).
  exists rsp, n. split; [done|]. rewrite E. done.
Qed.

(** The server waits out the response timeout and flushes before it refuses
    a quantity; a wrong coil value is refused without. *)
Definition flushes (r : request) (a : answer) : bool :=
  match a, r with
  | Normal _, _ => false
  | Exception _, WriteCoil _ _ => false
  | Exception code, _ => code =? 3
  end.

(** What the response is addressed to: the slave and the transaction that the
    request carries. *)
Definition reply_sft (sft : sft_t) (f : Z) : sft_t :=
  {| sft_slave := sft_slave sft; sft_function := f; sft_t_id := wire_tid sft |}.

Definition implements (sft : sft_t) (r : request) (m : modbus_mapping_t) (c : P W reply_t) : Prop :=
  exists m', evolves m m' /\ store_equiv (abs m') (fst (exec (abs m) r)) /\
    builds (reply_sft sft (function_code r)) c (flushes r (snd (exec (abs m) r)))
      (encode_answer r (snd (exec (abs m) r))) m'.

Lemma function_code_u8 r : u8 (function_code r) = function_code r.
Proof. by destruct r as [[]|[]| | | | | | |]. Qed.
Lemma function_code_exc r : u8 (function_code r + 128) = function_code r + 128.
Proof. by destruct r as [[]|[]| | | | | | |]. Qed.

Lemma implements_exception sft r m code c fl :
  wf_mapping m -> is_u8 code -> exec (abs m) r = (abs m, Exception code) ->
  fl = flushes r (Exception code) ->
  c = exception_reply be (reply_sft sft (function_code r)) code fl m ->
  implements sft r m c.
Proof.
  intros Hwf Hc E -> ->. exists m. rewrite E. cbn [fst snd]. split; [by split|]. split; [reflexivity|].
  cbn [encode_answer]. rewrite <- function_code_exc. by apply builds_exception.
Qed.

Lemma rd_word sft pdu rest k v (st : state W) :
  0 <= k -> is_u16 v -> pdu !! Z.to_nat k = Some (hi8 v) -> pdu !! Z.to_nat (k + 1) = Some (lo8 v) ->
  rd16 (received sft pdu rest) (header_length be + k) st = Ret v st.
Proof. intros Hk Hv Hh Hl. rewrite (rd16_pdu _ _ _ _ (hi8 v) (lo8 v)) by done. by rewrite be16_split. Qed.

Lemma implements_bind {B} sft r m (c : P W B) f v :
  (forall st, c st = Ret v st) -> implements sft r m (f v) -> implements sft r m (let* x := c in f x).
Proof.
  intros Hc (m' & Hm & He & Hb). exists m'. split; [done|]. split; [done|].
  by eapply builds_bind.
Qed.

Lemma view_bits (b : bool) m a n : wf_mapping m -> 1 <= n ->
  read_range (if b then inputs (abs m) else coils (abs m)) a n =
  let start := if b then start_input_bits m else start_bits m in
  let nb := if b then nb_input_bits m else nb_bits m in
  if (a - start <? 0) || (nb <? a - start + n) then None
  else Some (take (Z.to_nat n) (drop (Z.to_nat (a - start))
         (cells (if b then tab_input_bits m else tab_bits m)))).
Proof. intros [] Hn. destruct b; cbn; by apply view_range. Qed.
Lemma view_regs (b : bool) m a n : wf_mapping m -> 1 <= n ->
  read_range (if b then input_regs (abs m) else holding (abs m)) a n =
  let start := if b then start_input_registers m else start_registers m in
  let nb := if b then nb_input_registers m else nb_registers m in
  if (a - start <? 0) || (nb <? a - start + n) then None
  else Some (take (Z.to_nat n) (drop (Z.to_nat (a - start))
         (cells (if b then tab_input_registers m else tab_registers m)))).
Proof. intros [] Hn. destruct b; cbn; by apply view_range. Qed.

Context (sft : sft_t) (rest : buf) (m : modbus_mapping_t) (Hwf : wf_mapping m).

Lemma read_bits_ok b a n : wf_request (ReadBits b a n) ->
  implements sft (ReadBits b a n) m
    (reply_read_bits be b (reply_sft sft (function_code (ReadBits b a n)))
       (received sft (encode_request (ReadBits b a n)) rest) a m).
Proof.
  intros [Ha Hn]. unfold reply_read_bits.
  eapply implements_bind; [intros st; by apply (rd_word _ _ _ 3 n)|].
  cbv zeta. destruct ((n <? 1) || (MODBUS_MAX_READ_BITS <? n)) eqn:Eq.
  { apply (implements_exception _ _ _ 3 _ true); [done|unfold is_u8; lia| |done|done].
    cbn [exec]. unfold MODBUS_MAX_READ_BITS in Eq. by rewrite Eq. }
  apply orb_false_iff in Eq as Hq. destruct Hq as [Hq1 Hq2].
  apply Z.ltb_ge in Hq1, Hq2. unfold MODBUS_MAX_READ_BITS in *.
  pose proof (view_bits b m a n Hwf Hq1) as Ev. cbv zeta in Ev.
  set (start := if b then start_input_bits m else start_bits m) in *.
  set (nb := if b then nb_input_bits m else nb_bits m) in *.
  set (tab := cells (if b then tab_input_bits m else tab_bits m)) in *.
  assert (Htab : zlen tab = nb /\ Forall is_bit tab) by (subst tab nb; destruct Hwf, b; done).
  destruct ((a - start <? 0) || (nb <? a - start + n)) eqn:Er.
  { apply (implements_exception _ _ _ 2 _ false); [done|unfold is_u8; lia| |done|done].
    cbn [exec]. by rewrite Eq, Ev. }
  apply orb_false_iff in Er as [Er1%Z.ltb_ge Er2%Z.ltb_ge].
  exists m. cbn [exec]. rewrite Eq, Ev. cbn [fst snd].
  split; [done|]. split; [reflexivity|]. apply builds_wp. intros st.
  pose proof header_bounds as Hb.
  destruct (response_basis_rsp be (reply_sft sft (function_code (ReadBits b a n)))) as (rsp & n0 & Hr & E).
  apply wp_bind. eapply wp_eq; [apply E|].
  assert (Hbf : bytes_for n <= 250) by (rewrite bytes_for_div by lia; zdiv).
  assert (Hbf0 : 0 <= bytes_for n) by (rewrite bytes_for_div by lia; zdiv).
  pose proof (is_rsp_len be _ _ _ _ Hr) as Hn0. rewrite zlen_cons in Hn0. change (zlen (@nil Z)) with 0 in Hn0.
  fold (bytes_for n).
  destruct (put_rsp _ _ _ _ (bytes_for n) st Hr) as (r1 & E1 & Hr1);
    [unfold MAX_MESSAGE_LENGTH; lia|].
  apply wp_bind. eapply wp_eq; [exact E1|].
  apply wp_bind. eapply wp_mono.
  { apply (io_status_rsp _ _ _ _ tab (a - start) n st Hr1);
      [lia|lia|lia|by destruct Htab|unfold MAX_MESSAGE_LENGTH; lia]. }
  intros [n' rsp'] s' [-> Hr']. apply wp_ret. split; [done|]. split; [done|].
  cbn [sft_function reply_sft] in Hr'. rewrite function_code_u8, (u8_id (bytes_for n)) in Hr' by (unfold is_u8; lia).
  exact Hr'.
Qed.

Lemma read_registers_ok b a n : wf_request (ReadRegisters b a n) ->
  implements sft (ReadRegisters b a n) m
    (reply_read_registers be b (reply_sft sft (function_code (ReadRegisters b a n)))
       (received sft (encode_request (ReadRegisters b a n)) rest) a m).
Proof.
  intros [Ha Hn]. unfold reply_read_registers.
  eapply implements_bind; [intros st; by apply (rd_word _ _ _ 3 n)|].
  cbv zeta. destruct ((n <? 1) || (MODBUS_MAX_READ_REGISTERS <? n)) eqn:Eq.
  { apply (implements_exception _ _ _ 3 _ true); [done|unfold is_u8; lia| |done|done].
    cbn [exec]. unfold MODBUS_MAX_READ_REGISTERS in Eq. by rewrite Eq. }
  apply orb_false_iff in Eq as Hq. destruct Hq as [Hq1 Hq2].
  apply Z.ltb_ge in Hq1, Hq2. unfold MODBUS_MAX_READ_REGISTERS in *.
  pose proof (view_regs b m a n Hwf Hq1) as Ev. cbv zeta in Ev.
  set (start := if b then start_input_registers m else start_registers m) in *.
  set (nb := if b then nb_input_registers m else nb_registers m) in *.
  set (tab := cells (if b then tab_input_registers m else tab_registers m)) in *.
  assert (Htab : zlen tab = nb) by (subst tab nb; destruct Hwf, b; done).
  destruct ((a - start <? 0) || (nb <? a - start + n)) eqn:Er.
  { apply (implements_exception _ _ _ 2 _ false); [done|unfold is_u8; lia| |done|done].
    cbn [exec]. by rewrite Eq, Ev. }
  apply orb_false_iff in Er as [Er1%Z.ltb_ge Er2%Z.ltb_ge].
  exists m. cbn [exec]. rewrite Eq, Ev. cbn [fst snd].
  split; [done|]. split; [reflexivity|]. apply builds_wp. intros st.
  pose proof header_bounds as Hb.
  destruct (response_basis_rsp be (reply_sft sft (function_code (ReadRegisters b a n)))) as (rsp & n0 & Hr & E).
  apply wp_bind. eapply wp_eq; [apply E|].
  pose proof (is_rsp_len be _ _ _ _ Hr) as Hn0. rewrite zlen_cons in Hn0. change (zlen (@nil Z)) with 0 in Hn0.
  destruct (put_rsp _ _ _ _ (Z.shiftl n 1) st Hr) as (r1 & E1 & Hr1);
    [unfold MAX_MESSAGE_LENGTH; lia|].
  apply wp_bind. eapply wp_eq; [exact E1|].
  apply wp_bind. eapply wp_mono.
  { apply (put_registers_rsp _ _ _ _ tab (a - start) n st Hr1);
      [lia|lia|lia|unfold MAX_MESSAGE_LENGTH; lia]. }
  intros [rsp' n'] s' [-> Hr']. apply wp_ret. split; [done|]. split; [done|].
  rewrite Z.shiftl_mul_pow2, Z.mul_comm in Hr' by lia. change (2 ^ 1) with 2 in Hr'.
  cbn [sft_function reply_sft] in Hr'. rewrite function_code_u8, (u8_id (2 * n)) in Hr' by (unfold is_u8; lia).
  exact Hr'.
Qed.

(** *** Responses that repeat the request *)
Lemma received_drop p q :
  exists x, drop (Z.to_nat (header_length be + zlen p)) (received sft (p ++ q) rest) = (Some <$> q) ++ x /\
    header_length be + zlen p <= zlen (received sft (p ++ q) rest).
Proof.
  unfold received. destruct (adu_split sft (p ++ q)) as (h & t & -> & Hh & _ & _ & Ht).
  apply hdr_length in Hh. rewrite zlen_fmap in Hh. pose proof header_bounds as Hb.
  exists ((Some <$> t) ++ rest). split.
  - rewrite !fmap_app, <- !app_assoc, app_assoc.
    rewrite drop_app_length' by (unfold zlen in *; rewrite length_app, !length_fmap; lia). done.
  - rewrite zlen_app, zlen_fmap, !zlen_app. pose proof (zlen_nonneg q). pose proof (zlen_nonneg t).
    pose proof (zlen_nonneg rest). lia.
Qed.

Lemma echo_ok f data m1 : Forall is_u8 (f :: data) -> zlen (f :: data) <= 253 ->
  builds (reply_sft sft f)
    (echo_reply (received sft (f :: data) rest) (header_length be + zlen (f :: data)) m1)
    false (f :: data) m1.
Proof.
  intros Hp Hl. apply builds_wp. intros st. pose proof header_bounds as Hb.
  set (pdu := f :: data) in *. unfold echo_reply, received.
  destruct (adu_split sft pdu) as (h & t & -> & Hh & _ & _ & Ht).
  pose proof (hdr_length _ _ Hh) as Hz. rewrite zlen_fmap in Hz.
  apply wp_bind.
  replace (header_length be + zlen pdu) with (zlen (h ++ pdu)) by (rewrite zlen_app; lia).
  eapply wp_eq.
  { apply (memcpy_app [] (uninit MAX_MESSAGE_LENGTH) _ 0 (h ++ pdu) ((Some <$> t) ++ rest)).
    - split; [done|apply zlen_nonneg].
    - by rewrite app_assoc, (fmap_app _ (h ++ pdu)), <- app_assoc.
    - rewrite zlen_uninit by done. rewrite zlen_app. unfold MAX_MESSAGE_LENGTH. lia. }
  apply wp_ret. split; [done|]. split; [done|]. cbn [app].
  exists (Some <$> h). rewrite fmap_app, <- app_assoc. eexists.
  split; [by apply wire_hdr|]. split; [reflexivity|]. split; [by rewrite zlen_app, Hz|].
  split; [|done]. unfold MAX_MESSAGE_LENGTH, zlen, uninit in *.
  rewrite !length_app, length_drop, !length_fmap, length_replicate. cbn [length] in *. lia.
Qed.

Lemma rsp_memcpy s' p l q x rsp n src soff (st : state W) :
  is_rsp be s' p rsp n -> 0 <= soff <= zlen src -> drop (Z.to_nat soff) src = (Some <$> l ++ q) ++ x ->
  n + zlen l <= MAX_MESSAGE_LENGTH -> Forall is_u8 l ->
  exists rsp', memcpy rsp n src soff (zlen l) st = Ret rsp' st /\
    is_rsp be s' (p ++ l) rsp' (n + zlen l).
Proof.
  intros (h & t & Hh & -> & -> & Hz & Hp) Hs Hd Hroom Hl. apply hdr_length in Hh as Hhl.
  rewrite fmap_app, <- app_assoc in Hd.
  rewrite !zlen_app, zlen_fmap in Hz. eexists. split.
  - replace (header_length be + zlen p) with (zlen (h ++ (Some <$> p) : buf)) by (rewrite zlen_app, zlen_fmap; lia).
    rewrite app_assoc. eapply memcpy_app; [done|exact Hd|]. lia.
  - exists h. eexists. split; [done|]. split; [by rewrite fmap_app, <- !app_assoc|].
    split; [rewrite zlen_app; lia|]. split; [|by apply Forall_app].
    unfold zlen in *. rewrite !length_app, length_drop, !length_fmap. lia.
Qed.

Lemma acknowledge_ok f d tl m1 : u8 f = f -> length d = 4%nat -> Forall is_u8 d ->
  builds (reply_sft sft f) (acknowledge_write be (reply_sft sft f) (received sft (f :: d ++ tl) rest) m1)
    false (f :: d) m1.
Proof.
  intros Hf Hd Hu. apply builds_wp. intros st. pose proof header_bounds as Hb.
  destruct (response_basis_rsp be (reply_sft sft f)) as (rsp & n & Hr & E).
  apply wp_bind. eapply wp_eq; [apply E|].
  pose proof (is_rsp_len be _ _ _ _ Hr) as Hn.
  destruct (received_drop [f] (d ++ tl)) as (x & Hx & Hxl).
  assert (Hz : zlen d = 4) by (unfold zlen; lia). rewrite zlen_cons in *.
  change (zlen (@nil Z)) with 0 in *.
  destruct (rsp_memcpy _ _ d tl x _ _ (received sft (f :: d ++ tl) rest) n st Hr) as (rsp' & E' & Hr').
  - rewrite Hn. split; [lia|exact Hxl].
  - rewrite Hn. exact Hx.
  - unfold MAX_MESSAGE_LENGTH. lia.
  - done.
  - rewrite Hz in *. apply wp_bind. eapply wp_eq; [exact E'|]. apply wp_ret.
    split; [done|]. split; [done|]. cbn [reply_sft sft_function] in Hr'. by rewrite Hf in Hr'.
Qed.

(** *** Stores into the writable tables *)
Lemma wf_with_bits l : zlen l = nb_bits m -> Forall is_bit l -> evolves m (with_bits l m).
Proof. intros Hl Hb. split; [destruct Hwf; by split|]. by destruct m as [? ? ? ? ? ? ? ? ? [] [] [] []]. Qed.
Lemma wf_with_registers l : zlen l = nb_registers m -> Forall is_u16 l -> evolves m (with_registers l m).
Proof. intros Hl Hb. split; [destruct Hwf; by split|]. by destruct m as [? ? ? ? ? ? ? ? ? [] [] [] []]. Qed.

Lemma abs_with_bits l a k :
  (forall x, view (start_bits m) (nb_bits m) l x = write_range (coils (abs m)) a k x) ->
  store_equiv (abs (with_bits l m)) (with_coils (write_range (coils (abs m)) a k) (abs m)).
Proof. intros E x. cbn. by rewrite E. Qed.
Lemma abs_with_registers l a k :
  (forall x, view (start_registers m) (nb_registers m) l x = write_range (holding (abs m)) a k x) ->
  store_equiv (abs (with_registers l m)) (with_holding (write_range (holding (abs m)) a k) (abs m)).
Proof. intros E x. cbn. by rewrite E. Qed.

Lemma word_bytes_u8 v : Forall is_u8 (word_bytes v).
Proof. repeat constructor; apply u8_range. Qed.
Lemma words_bytes_u8 l : Forall is_u8 (words_bytes l).
Proof.
  induction l as [|v l IH]; [constructor|]. apply Forall_app. split; [apply word_bytes_u8|exact IH].
Qed.

(** One entry of the writable tables. *)
Lemma coil_at a : coils (abs m) a =
  if (a - start_bits m <? 0) || (nb_bits m <=? a - start_bits m) then None
  else cells (tab_bits m) !! Z.to_nat (a - start_bits m).
Proof. destruct Hwf. cbn. by apply view_one. Qed.
Lemma register_at a : holding (abs m) a =
  if (a - start_registers m <? 0) || (nb_registers m <=? a - start_registers m) then None
  else cells (tab_registers m) !! Z.to_nat (a - start_registers m).
Proof. destruct Hwf. cbn. by apply view_one. Qed.

(** The length [modbus_reply] passes on is that of the request without its
    checksum. *)
Definition plain_length (r : request) : Z := header_length be + zlen (encode_request r).

Lemma write_coil_ok a v : wf_request (WriteCoil a v) ->
  implements sft (WriteCoil a v) m
    (reply_write_single_coil be (reply_sft sft 5)
       (received sft (encode_request (WriteCoil a v)) rest) (plain_length (WriteCoil a v)) a m).
Proof.
  intros [Ha Hv]. unfold reply_write_single_coil. cbv zeta.
  pose proof (coil_at a) as Ec.
  destruct ((a - start_bits m <? 0) || (nb_bits m <=? a - start_bits m)) eqn:Er.
  { apply (implements_exception _ _ _ 2 _ false); [done|unfold is_u8; lia| |done|done].
    cbn [exec]. by rewrite Ec. }
  apply orb_false_iff in Er as [Er1%Z.ltb_ge Er2%Z.leb_gt].
  pose proof (wf_bits m Hwf) as Hl.
  destruct (lookup_lt_is_Some_2 (cells (tab_bits m)) (Z.to_nat (a - start_bits m))) as [old Hold];
    [unfold zlen in Hl; lia|]. rewrite Hold in Ec.
  eapply implements_bind; [intros st; by apply (rd_word _ _ _ 3 v)|].
  destruct ((v =? 65280) || (v =? 0)) eqn:Ev.
  2: { apply (implements_exception _ _ _ 3 _ false); [done|unfold is_u8; lia| |done|done].
       cbn [exec]. by rewrite Ec, Ev. }
  eapply implements_bind; [intros st; apply arr_set_eq; lia|].
  exists (with_bits (<[Z.to_nat (a - start_bits m) := if v =? 0 then 0 else 1]> (cells (tab_bits m))) m).
  split; [|split]; [..|cbn [exec]; rewrite Ec, Ev; cbn [fst snd flushes encode_answer]].
  - apply wf_with_bits; [unfold zlen in *; by rewrite length_insert|].
    apply Forall_insert; [apply Hwf|]. unfold is_bit. destruct (v =? 0); auto.
  - cbn [exec]. rewrite Ec, Ev. cbn [fst]. apply abs_with_bits. intros x. apply view_insert; (done || lia).
  - apply echo_ok; [|done]. constructor; [by split|]. apply Forall_app; split; apply word_bytes_u8.
Qed.

Lemma write_register_ok a v : wf_request (WriteRegister a v) ->
  implements sft (WriteRegister a v) m
    (reply_write_single_register be (reply_sft sft 6)
       (received sft (encode_request (WriteRegister a v)) rest) (plain_length (WriteRegister a v)) a m).
Proof.
  intros [Ha Hv]. unfold reply_write_single_register. cbv zeta.
  pose proof (register_at a) as Ec.
  destruct ((a - start_registers m <? 0) || (nb_registers m <=? a - start_registers m)) eqn:Er.
  { apply (implements_exception _ _ _ 2 _ false); [done|unfold is_u8; lia| |done|done].
    cbn [exec]. by rewrite Ec. }
  apply orb_false_iff in Er as [Er1%Z.ltb_ge Er2%Z.leb_gt].
  pose proof (wf_registers m Hwf) as Hl.
  destruct (lookup_lt_is_Some_2 (cells (tab_registers m)) (Z.to_nat (a - start_registers m))) as [old Hold];
    [unfold zlen in Hl; lia|]. rewrite Hold in Ec.
  eapply implements_bind; [intros st; by apply (rd_word _ _ _ 3 v)|].
  eapply implements_bind; [intros st; apply arr_set_eq; lia|]. rewrite u16_id by done.
  exists (with_registers (<[Z.to_nat (a - start_registers m) := v]> (cells (tab_registers m))) m).
  split; [|split]; [..|cbn [exec]; rewrite Ec; cbn [fst snd flushes encode_answer]].
  - apply wf_with_registers; [unfold zlen in *; by rewrite length_insert|].
    apply Forall_insert; [apply Hwf|done].
  - cbn [exec]. rewrite Ec. cbn [fst]. apply abs_with_registers. intros x. apply view_insert; (done || lia).
  - apply echo_ok; [|done]. constructor; [by split|]. apply Forall_app; split; apply word_bytes_u8.
Qed.

(** The code computes in 16 bits with [~and], the specification with the
    complement of a word. *)
Lemma mask_word v am om : is_u16 v -> is_u16 am -> is_u16 om ->
  Z.lor (Z.land v am) (Z.land om (Z.lnot am)) = Z.lor (Z.land v am) (Z.land om (Z.lxor am 65535)) /\
  is_u16 (Z.lor (Z.land v am) (Z.land om (Z.lxor am 65535))).
Proof.
  intros Hv Ham Hom.
  assert (E : Z.land om (Z.lnot am) = Z.land om (Z.lxor am 65535)).
  { change 65535 with (Z.ones 16). apply Z.bits_inj'. intros k Hk.
    rewrite !Z.land_spec, Z.lnot_spec, Z.lxor_spec by done.
    destruct (Z.ltb_spec k 16).
    - rewrite Z.ones_spec_low by lia. by rewrite xorb_true_r.
    - rewrite <- (Z.mod_small om (2 ^ 16)) by done. by rewrite Z.mod_pow2_bits_high by lia. }
  rewrite E. split; [done|]. unfold is_u16 in *. change 65536 with (2 ^ 16) in *.
  assert (Hr : forall x y, 0 <= x < 2 ^ 16 -> 0 <= Z.land x y < 2 ^ 16).
  { intros x y Hx. rewrite <- (Z.mod_small x (2 ^ 16)) by done.
    rewrite <- Z.land_ones, <- Z.land_assoc, (Z.land_comm (Z.ones 16)), Z.land_assoc by done.
    rewrite Z.land_ones by done. by apply Z.mod_pos_bound. }
  apply lor_range; [done|by apply Hr..].
Qed.

Lemma mask_write_ok a am om : wf_request (MaskWrite a am om) ->
  implements sft (MaskWrite a am om) m
    (reply_mask_write_register be (reply_sft sft 22)
       (received sft (encode_request (MaskWrite a am om)) rest) (plain_length (MaskWrite a am om)) a m).
Proof.
  intros (Ha & Ham & Hom). unfold reply_mask_write_register. cbv zeta.
  pose proof (register_at a) as Ec.
  destruct ((a - start_registers m <? 0) || (nb_registers m <=? a - start_registers m)) eqn:Er.
  { apply (implements_exception _ _ _ 2 _ false); [done|unfold is_u8; lia| |done|done].
    cbn [exec]. by rewrite Ec. }
  apply orb_false_iff in Er as [Er1%Z.ltb_ge Er2%Z.leb_gt].
  pose proof (wf_registers m Hwf) as Hl.
  destruct (lookup_lt_is_Some_2 (cells (tab_registers m)) (Z.to_nat (a - start_registers m))) as [v Hold];
    [unfold zlen in Hl; lia|]. rewrite Hold in Ec.
  assert (Hv : is_u16 v) by (by eapply Forall_lookup_1 in Hold; [|apply Hwf]).
  eapply implements_bind; [intros st; by apply arr_get_eq|].
  eapply implements_bind; [intros st; by apply (rd_word _ _ _ 3 am)|].
  eapply implements_bind; [intros st; by apply (rd_word _ _ _ 5 om)|].
  destruct (mask_word v am om Hv Ham Hom) as [Em Hm].
  rewrite (u16_id am), (u16_id om), Em, u16_id by done.
  eapply implements_bind; [intros st; apply arr_set_eq; lia|].
  set (w := Z.lor (Z.land v am) (Z.land om (Z.lxor am 65535))) in *.
  exists (with_registers (<[Z.to_nat (a - start_registers m) := w]> (cells (tab_registers m))) m).
  split; [|split]; [..|cbn [exec]; rewrite Ec; cbn [fst snd flushes encode_answer]].
  - apply wf_with_registers; [unfold zlen in *; by rewrite length_insert|].
    apply Forall_insert; [apply Hwf|done].
  - cbn [exec]. rewrite Ec. cbn [fst]. apply abs_with_registers. intros x. apply view_insert; (done || lia).
  - apply echo_ok; [|done]. constructor; [by split|].
    repeat (apply Forall_app; split); apply word_bytes_u8.
Qed.

(** The words a request carries behind the fields [p]. *)
Lemma rd_carried ws p k w off (st : state W) : Forall is_u16 ws ->
  ws !! Z.to_nat k = Some w -> 0 <= k -> zlen p = off ->
  rd16 (received sft (p ++ words_bytes ws) rest) (header_length be + off + 2 * k) st = Ret w st.
Proof.
  intros Hu Hk Hk0 <-. pose proof (zlen_nonneg p).
  destruct (words_bytes_lookup ws _ _ Hk) as [H1 H2].
  rewrite <- Z.add_assoc. apply rd_word; [lia|by eapply Forall_lookup_1 in Hk| |].
  - rewrite lookup_app_r by (unfold zlen; lia). rewrite <- H1. f_equal. unfold zlen. lia.
  - rewrite lookup_app_r by (unfold zlen; lia). rewrite <- H2. f_equal. unfold zlen. lia.
Qed.

Lemma write_coils_ok a n data : wf_request (WriteCoils a n data) ->
  implements sft (WriteCoils a n data) m
    (reply_write_multiple_coils be (reply_sft sft 15)
       (received sft (encode_request (WriteCoils a n data)) rest) a m).
Proof.
  intros (Ha & Hn & Hu & Hlen & Hdata). unfold reply_write_multiple_coils. cbv zeta.
  eapply implements_bind; [intros st; by apply (rd_word _ _ _ 3 n)|].
  destruct ((n <? 1) || (MODBUS_MAX_WRITE_BITS <? n)) eqn:Eq.
  { apply (implements_exception _ _ _ 3 _ true); [done|unfold is_u8; lia| |done|done].
    cbn [exec]. unfold MODBUS_MAX_WRITE_BITS in Eq. by rewrite Eq. }
  apply orb_false_iff in Eq as Hq. destruct Hq as [Hq1%Z.ltb_ge Hq2%Z.ltb_ge].
  unfold MODBUS_MAX_WRITE_BITS in *.
  pose proof (view_bits false m a n Hwf Hq1) as Ev. cbv zeta iota in Ev.
  destruct ((a - start_bits m <? 0) || (nb_bits m <? a - start_bits m + n)) eqn:Er.
  { apply (implements_exception _ _ _ 2 _ false); [done|unfold is_u8; lia| |done|done].
    cbn [exec]. by rewrite Eq, Ev. }
  apply orb_false_iff in Er as [Er1%Z.ltb_ge Er2%Z.ltb_ge].
  pose proof (wf_bits m Hwf) as Hl. pose proof header_bounds as Hb.
  assert (Hz : zlen (unpack_bits n data) = n)
    by (apply zlen_unpack_bits; lia).
  pose proof (wf_bits_size m Hwf) as Hsz.
  eapply implements_bind.
  { intros st. apply (set_bits_from_bytes_eq _ _ _ _ _ data); [lia..|].
    intros k y Hy. replace (header_length be + 6) with (header_length be + 1 * 6) by lia.
    rewrite Z2Nat.inj_add, <- Nat.add_assoc by lia. by apply received_lookup. }
  exists (with_bits (splice (cells (tab_bits m)) (a - start_bits m) (unpack_bits n data)) m).
  cbn [exec]. rewrite Eq, Ev. cbn [fst snd flushes encode_answer]. split; [|split].
  - apply wf_with_bits; [rewrite length_splice; lia|].
    apply Forall_splice; [apply Hwf|apply unpack_bits_is_bit].
  - apply abs_with_bits. intros y. apply view_splice; lia.
  - apply (acknowledge_ok 15 (word_bytes a ++ word_bytes n) (zlen data :: data)); [done|done|].
    apply Forall_app; split; apply word_bytes_u8.
Qed.

Lemma write_registers_ok a n ws : wf_request (WriteRegisters a n ws) ->
  implements sft (WriteRegisters a n ws) m
    (reply_write_multiple_registers be (reply_sft sft 16)
       (received sft (encode_request (WriteRegisters a n ws)) rest) a m).
Proof.
  intros (Ha & Hn & Hu & Hlen & Hdata). unfold reply_write_multiple_registers. cbv zeta.
  eapply implements_bind; [intros st; by apply (rd_word _ _ _ 3 n)|].
  destruct ((n <? 1) || (MODBUS_MAX_WRITE_REGISTERS <? n)) eqn:Eq.
  { apply (implements_exception _ _ _ 3 _ true); [done|unfold is_u8; lia| |done|done].
    cbn [exec]. unfold MODBUS_MAX_WRITE_REGISTERS in Eq. by rewrite Eq. }
  apply orb_false_iff in Eq as Hq. destruct Hq as [Hq1%Z.ltb_ge Hq2%Z.ltb_ge].
  unfold MODBUS_MAX_WRITE_REGISTERS in *.
  pose proof (view_regs false m a n Hwf Hq1) as Ev. cbv zeta iota in Ev.
  destruct ((a - start_registers m <? 0) || (nb_registers m <? a - start_registers m + n)) eqn:Er.
  { apply (implements_exception _ _ _ 2 _ false); [done|unfold is_u8; lia| |done|done].
    cbn [exec]. by rewrite Eq, Ev. }
  apply orb_false_iff in Er as [Er1%Z.ltb_ge Er2%Z.ltb_ge].
  pose proof (wf_registers m Hwf) as Hl. pose proof header_bounds as Hb.
  assert (Hz : zlen (take (Z.to_nat n) ws) = n) by (unfold zlen in *; rewrite length_take; lia).
  eapply implements_bind.
  { intros st. apply (store_registers_eq _ _ _ _ _ ws); [lia|lia|lia|lia|done|].
    intros k w Hk Hk0. by apply (rd_carried _ [16; hi8 a; lo8 a; hi8 n; lo8 n; 2 * zlen ws]). }
  exists (with_registers (splice (cells (tab_registers m)) (a - start_registers m) (take (Z.to_nat n) ws)) m).
  cbn [exec]. rewrite Eq, Ev. cbn [fst snd flushes encode_answer]. split; [|split].
  - apply wf_with_registers; [rewrite length_splice; lia|].
    apply Forall_splice; [apply Hwf|by apply Forall_take].
  - apply abs_with_registers. intros y. apply view_splice; lia.
  - apply (acknowledge_ok 16 (word_bytes a ++ word_bytes n) (2 * zlen ws :: words_bytes ws)); [done|done|].
    apply Forall_app; split; apply word_bytes_u8.
Qed.

(** The byte count of the report is written last, into the cell left for it. *)
Lemma report_slave_id_ok :
  implements sft ReportSlaveId m (reply_report_slave_id be (reply_sft sft 17) m).
Proof.
  exists m. cbn [exec fst snd flushes]. split; [done|]. split; [reflexivity|].
  apply builds_wp. intros st. pose proof header_bounds as Hb. unfold reply_report_slave_id.
  destruct (response_basis_rsp be (reply_sft sft 17)) as (rsp & n & (h & t & Hh & -> & -> & Hz & _) & E).
  apply wp_bind. eapply wp_eq; [apply E|]. cbv zeta. apply hdr_length in Hh as Hhl.
  rewrite !zlen_app, zlen_fmap, Hhl in Hz. change (zlen [u8 (sft_function (reply_sft sft 17))]) with 1 in *.
  unfold MAX_MESSAGE_LENGTH in Hz.
  destruct t as [|c0 [|c1 [|c2 t]]]; rewrite ?zlen_cons in Hz; change (zlen (@nil (option Z))) with 0 in Hz;
    [lia..|].
  set (p := h ++ (Some <$> [u8 (sft_function (reply_sft sft 17))])).
  assert (Hp : zlen p = header_length be + 1) by (unfold p; rewrite zlen_app, Hhl; done).
  replace (h ++ _ ++ c0 :: c1 :: c2 :: t) with ((p ++ [c0]) ++ c1 :: c2 :: t)
    by (unfold p; by rewrite <- !app_assoc).
  unfold put. apply wp_bind. eapply wp_eq.
  { erewrite bind_ret_eq; [reflexivity|]. apply wr_app. rewrite zlen_app, Hp. done. }
  apply wp_bind. eapply wp_eq.
  { erewrite bind_ret_eq; [reflexivity|]. apply wr_app. rewrite !zlen_app, Hp. done. }
  apply wp_bind. set (text := LMB ++ LIBMODBUS_VERSION_STRING).
  eapply wp_eq.
  { replace (header_length be + 1 + 1 + 1 + 1)
      with (zlen (((p ++ [c0]) ++ [Some (u8 _REPORT_SLAVE_ID)]) ++ [Some (u8 255)]))
      by (rewrite !zlen_app, Hp; done).
    apply (memcpy_app _ t _ 0 text []); [done| |change (zlen text) with 22; lia].
    by rewrite app_nil_r. }
  apply wp_bind. eapply wp_eq.
  { rewrite <- !app_assoc. apply wr_eq. rewrite zlen_app, Hp. cbn [app]. rewrite zlen_cons.
    match goal with |- context [zlen ?l] => pose proof (zlen_nonneg l) end. lia. }
  apply wp_ret. split; [done|]. split; [done|].
  rewrite insert_app_r_alt by (unfold zlen in Hp; lia).
  replace (Z.to_nat (header_length be + 1) - length p)%nat with 0%nat by (unfold zlen in Hp; lia).
  exists h. eexists. split; [exact Hh|]. split.
  { unfold p. rewrite <- app_assoc. f_equal.
    change (encode_answer ReportSlaveId _) with ([17; 24; 180; 255] ++ text).
    rewrite fmap_app, <- app_assoc. cbn [app insert list_insert].
    replace (header_length be + 1 + 1 + 1 + 1 + (3 + zlen LIBMODBUS_VERSION_STRING)
               - (header_length be + 1) - 1) with 24
      by (change (zlen LIBMODBUS_VERSION_STRING) with 19; lia).
    reflexivity. }
  split.
  { change (zlen LIBMODBUS_VERSION_STRING) with 19. change (zlen (encode_answer _ _)) with 26. lia. }
  split.
  - rewrite zlen_app, Hp. cbn [insert list_insert app]. rewrite !zlen_cons, zlen_app, zlen_fmap.
    change (zlen text) with 22. change (length text) with 22%nat.
    unfold MAX_MESSAGE_LENGTH, zlen in *. rewrite length_drop. lia.
  - apply (Forall_impl (fun x => (0 <=? x) && (x <? 256) = true)).
    + by repeat constructor.
    + unfold is_u8. intros x. lia.
Qed.

Lemma read_range_ext (f g : Z -> option Z) a n : (forall x, f x = g x) -> read_range f a n = read_range g a n.
Proof. intros E. unfold read_range. induction (seqZ a n) as [|x l IH]; cbn; [done|]. by rewrite E, IH. Qed.

Lemma write_read_ok a n wa wn ws : wf_request (WriteRead a n wa wn ws) ->
  start_registers m <= wa ->
  implements sft (WriteRead a n wa wn ws) m
    (reply_write_and_read_registers be (reply_sft sft 23)
       (received sft (encode_request (WriteRead a n wa wn ws)) rest) a m).
Proof.
  intros (Ha & Hn & Hwa & Hwn & Hu & Hlen) Hstart. unfold reply_write_and_read_registers. cbv zeta.
  eapply implements_bind; [intros st; by apply (rd_word _ _ _ 3 n)|].
  eapply implements_bind; [intros st; by apply (rd_word _ _ _ 5 wa)|].
  eapply implements_bind; [intros st; by apply (rd_word _ _ _ 7 wn)|].
  eapply implements_bind; [intros st; by apply (rd_pdu _ _ _ 9 (2 * zlen ws))|].
  rewrite (u16_id wa) by done.
  replace (2 * zlen ws =? wn * 2) with (zlen ws =? wn) by lia.
  destruct ((wn <? 1) || (MODBUS_MAX_WR_WRITE_REGISTERS <? wn) || (n <? 1)
            || (MODBUS_MAX_WR_READ_REGISTERS <? n) || negb (zlen ws =? wn)) eqn:Eq.
  { apply (implements_exception _ _ _ 3 _ true); [done|unfold is_u8; lia| |done|done].
    cbn [exec]. unfold MODBUS_MAX_WR_WRITE_REGISTERS, MODBUS_MAX_WR_READ_REGISTERS in Eq. by rewrite Eq. }
  unfold MODBUS_MAX_WR_WRITE_REGISTERS, MODBUS_MAX_WR_READ_REGISTERS in *.
  assert (Hq : 1 <= wn <= 121 /\ 1 <= n <= 125 /\ zlen ws = wn) by lia.
  destruct Hq as (Hq1 & Hq2 & <-).
  pose proof (view_regs false m a n Hwf ltac:(lia)) as Ev.
  pose proof (view_regs false m wa (zlen ws) Hwf ltac:(lia)) as Ew. cbv zeta iota in Ev, Ew.
  rewrite (proj2 (Z.ltb_ge (wa - start_registers m) 0)) in Ew by lia. cbn [orb] in Ew.
  set (nb := nb_registers m) in *. set (start := start_registers m) in *.
  set (tab := cells (tab_registers m)) in *.
  assert (Eg : forall p q r : bool, p || q || p || r = (p || q) || r) by (by intros [] [] []).
  rewrite Eg.
  destruct ((a - start <? 0) || (nb <? a - start + n)) eqn:Er; cbn [orb].
  { apply (implements_exception _ _ _ 2 _ false); [done|unfold is_u8; lia| |done|done].
    cbn [exec]. by rewrite Eq, Ev. }
  destruct (nb <? wa - start + zlen ws) eqn:Er'.
  { apply (implements_exception _ _ _ 2 _ false); [done|unfold is_u8; lia| |done|done].
    cbn [exec]. by rewrite Eq, Ev, Ew. }
  apply orb_false_iff in Er as [Er1%Z.ltb_ge Er2%Z.ltb_ge]. apply Z.ltb_ge in Er'.
  pose proof (wf_registers m Hwf) as Hl. pose proof header_bounds as Hb. fold tab nb in Hl.
  set (tab' := splice tab (wa - start) ws).
  assert (Hl' : zlen tab' = nb) by (unfold tab'; rewrite length_splice; lia).
  assert (Eabs : forall x, view start nb tab' x = write_range (holding (abs m)) wa ws x)
    by (intros x; apply view_splice; lia).
  assert (Ev' : read_range (write_range (holding (abs m)) wa ws) a n =
      Some (take (Z.to_nat n) (drop (Z.to_nat (a - start)) tab'))).
  { rewrite <- (read_range_ext _ _ _ _ Eabs). apply view_inside; lia. }
  exists (with_registers tab' m). cbn [exec]. rewrite Eq, Ev, Ew.
  cbn [with_holding holding]. rewrite Ev'. cbn [fst snd flushes encode_answer]. split; [|split].
  - apply wf_with_registers; [done|]. apply Forall_splice; [apply Hwf|done].
  - by apply abs_with_registers.
  - apply builds_wp. intros st.
    destruct (response_basis_rsp be (reply_sft sft 23)) as (rsp & n0 & Hr & E).
    apply wp_bind. eapply wp_eq; [apply E|].
    pose proof (is_rsp_len be _ _ _ _ Hr) as Hn0. rewrite zlen_cons in Hn0. change (zlen (@nil Z)) with 0 in Hn0.
    destruct (put_rsp _ _ _ _ (Z.shiftl n 1) st Hr) as (r1 & E1 & Hr1);
      [unfold MAX_MESSAGE_LENGTH; lia|].
    apply wp_bind. eapply wp_eq; [exact E1|].
    apply wp_bind. eapply wp_eq.
    { apply (store_registers_eq _ _ _ _ _ ws); [lia|lia|lia|lia|done|].
      intros k w Hk Hk0. by apply (rd_carried _ [23; hi8 a; lo8 a; hi8 n; lo8 n; hi8 wa; lo8 wa; hi8 (zlen ws); lo8 (zlen ws); 2 * zlen ws]). }
    rewrite take_ge by (unfold zlen; lia). fold tab'.
    apply wp_bind. eapply wp_mono.
    { apply (put_registers_rsp _ _ _ _ tab' (a - start) n st Hr1);
        [lia|lia|lia|unfold MAX_MESSAGE_LENGTH; lia]. }
    intros [rsp' n'] s' [-> Hr']. apply wp_ret. split; [done|]. split; [done|].
    rewrite Z.shiftl_mul_pow2, Z.mul_comm in Hr' by lia. change (2 ^ 1) with 2 in Hr'.
    cbn [sft_function reply_sft] in Hr'. rewrite (u8_id (2 * n)) in Hr' by (unfold is_u8; lia).
    exact Hr'.
Qed.

(** ** The dispatch *)

(** The 16-bit field behind the function code, which [modbus_reply] reads
    for every request. A report request has none: the two bytes after the
    function code are the checksum where the backend has one, and otherwise
    whatever the receive buffer holds behind the request. *)
Definition readable (r : request) : Prop :=
  r = ReportSlaveId -> checksum_length be < 2 -> exists x y t, rest = Some x :: Some y :: t.

(** The one check the code does not make: a write part that starts below the
    table. *)
Definition write_starts_inside (r : request) : Prop :=
  match r with WriteRead _ _ wa _ _ => start_registers m <= wa | _ => True end.

Definition request_address (r : request) (a : Z) : Prop :=
  match r with
  | ReadBits _ x _ | ReadRegisters _ x _ | WriteCoil x _ | WriteRegister x _ | WriteCoils x _ _
  | WriteRegisters x _ _ | MaskWrite x _ _ | WriteRead x _ _ _ _ => a = x
  | ReportSlaveId => True
  end.

Lemma rd_address r : wf_request r -> readable r -> exists a, request_address r (u16 a) /\
  forall st : state W, rd16 (received sft (encode_request r) rest) (header_length be + 1) st = Ret a st.
Proof.
  intros Hr Hread.
  assert (Ha : forall p x, is_u16 x -> p !! 1%nat = Some (hi8 x) -> p !! 2%nat = Some (lo8 x) ->
      exists a, u16 a = x /\
      forall st : state W, rd16 (received sft p rest) (header_length be + 1) st = Ret a st).
  { intros p x Hx H1 H2. exists x. split; [by apply u16_id|]. intros st. by apply rd_word. }
  destruct r; cbn [request_address wf_request] in *; try (apply Ha; [apply Hr|done..]).
  assert (Hl : exists l t, rest = (Some <$> l) ++ t /\ 2 <= checksum_length be + zlen l).
  { destruct (Z.lt_ge_cases (checksum_length be) 2) as [Hlt|]; [|exists [], rest; split; [done|change (zlen []) with 0; lia]].
    destruct (Hread eq_refl Hlt) as (x & y & t & E). exists [x; y], t. split; [done|].
    pose proof checksum_bounds. change (zlen [x; y]) with 2. lia. }
  destruct Hl as (l & t & -> & Hl). pose proof header_bounds as Hb.
  assert (Hcell : forall k, (k = 1 \/ k = 2) -> exists v,
    forall st : state W, rd (received sft [17] ((Some <$> l) ++ t)) (header_length be + k) st = Ret v st).
  { intros k Hk. unfold received. destruct (adu_split sft [17]) as (h & c & -> & Hh & _ & _ & Hc).
    apply hdr_length in Hh. rewrite zlen_fmap in Hh.
    destruct ((c ++ l) !! Z.to_nat (k - 1)) as [v|] eqn:E.
    - exists v. intros st. apply rd_eq; [lia|].
      replace ((Some <$> h ++ [17] ++ c) ++ (Some <$> l) ++ t)
        with ((Some <$> (h ++ [17]) ++ (c ++ l)) ++ t)
        by (rewrite !fmap_app, <- !app_assoc; done).
      apply lookup_prefix. rewrite lookup_app_r by (unfold zlen in *; rewrite length_app; cbn; lia).
      rewrite <- E. f_equal. unfold zlen in *. rewrite length_app. cbn. lia.
    - apply lookup_ge_None in E. rewrite length_app in E. cbn in E. unfold zlen in *. lia. }
  destruct (Hcell 1) as [v1 H1]; [auto|]. destruct (Hcell 2) as [v2 H2]; [auto|].
  exists (be16 v1 v2). split; [done|]. intros st. unfold rd16.
  erewrite bind_ret_eq by apply H1. rewrite <- Z.add_assoc. by erewrite bind_ret_eq by apply H2.
Qed.

(** The branch of the [switch] that handles a request. *)
Definition branch (r : request) : P W reply_t :=
  let sft' := reply_sft sft (function_code r) in
  let req := received sft (encode_request r) rest in
  match r with
  | ReadBits b a _ => reply_read_bits be b sft' req a m
  | ReadRegisters b a _ => reply_read_registers be b sft' req a m
  | WriteCoil a _ => reply_write_single_coil be sft' req (plain_length r) a m
  | WriteRegister a _ => reply_write_single_register be sft' req (plain_length r) a m
  | WriteCoils a _ _ => reply_write_multiple_coils be sft' req a m
  | WriteRegisters a _ _ => reply_write_multiple_registers be sft' req a m
  | ReportSlaveId => reply_report_slave_id be sft' m
  | MaskWrite a _ _ => reply_mask_write_register be sft' req (plain_length r) a m
  | WriteRead a _ _ _ _ => reply_write_and_read_registers be sft' req a m
  end.

Lemma dispatch_branch r a : request_address r a ->
  reply_dispatch be (function_code r) (reply_sft sft (function_code r))
    (received sft (encode_request r) rest) (plain_length r) a m = let* x := branch r in ret (Some x).
Proof.
  intros Ha. destruct r as [[]| []| | | | | | |]; cbn [request_address] in Ha; try subst a; reflexivity.
Qed.

Lemma branch_ok r : wf_request r -> write_starts_inside r -> implements sft r m (branch r).
Proof.
  intros Hr Hw. destruct r as [b ? ?|b ? ?|? ?|? ?|? ? ?|? ? ?| |? ? ?|? ? ? ? ?].
  - by apply read_bits_ok.
  - by apply read_registers_ok.
  - by apply write_coil_ok.
  - by apply write_register_ok.
  - by apply write_coils_ok.
  - by apply write_registers_ok.
  - by apply report_slave_id_ok.
  - by apply mask_write_ok.
  - by apply write_read_ok.
Qed.

Lemma read_range_length f a n l : 0 <= n -> read_range f a n = Some l -> zlen l = n.
Proof.
  intros Hn E. apply mapM_Some, Forall2_length in E. unfold zlen. rewrite <- E, length_seqZ. lia.
Qed.

(** Every answer fits a PDU. *)
Lemma answer_fits s0 r : zlen (encode_answer r (snd (exec s0 r))) <= 253.
Proof.
  destruct r as [b a n|b a n|? ?|? ?|? n ?|? n ?| |? ? ?|a n wa wn ws]; cbn [exec].
  - destruct ((n <? 1) || (2000 <? n)) eqn:En; [done|].
    destruct (read_range _ a n) as [l|] eqn:E; [|done]. cbn [snd encode_answer].
    apply read_range_length in E; [|lia]. rewrite !zlen_cons, zlen_pack_bits, E, bytes_for_div by lia. zdiv.
  - destruct ((n <? 1) || (125 <? n)) eqn:En; [done|].
    destruct (read_range _ a n) as [l|] eqn:E; [|done]. cbn [snd encode_answer].
    apply read_range_length in E; [|lia]. rewrite !zlen_cons, zlen_words_bytes, E. lia.
  - destruct (coils _ _); [|done]. by destruct (_ || _).
  - by destruct (holding _ _).
  - destruct (_ || _); [done|]. by destruct (read_range _ _ _).
  - destruct (_ || _); [done|]. by destruct (read_range _ _ _).
  - done.
  - by destruct (holding _ _).
  - destruct (_ || negb _) eqn:En; [done|].
    destruct (read_range (holding s0) a n), (read_range (holding s0) wa wn); try done. cbn [with_holding holding].
    destruct (read_range (write_range _ _ _) a n) as [k|] eqn:E; [|done]. cbn [snd encode_answer].
    apply read_range_length in E; [|lia]. rewrite !zlen_cons, zlen_words_bytes, E. lia.
Qed.

(** From the branch to the whole function. *)
Lemma reply_with_builds f pdu a c fl ans m' :
  is_u8 (sft_slave sft) -> pdu !! 0%nat = Some f ->
  (forall st : state W, rd16 (received sft pdu rest) (header_length be + 1) st = Ret a st) ->
  reply_dispatch be f (reply_sft sft f) (received sft pdu rest) (header_length be + zlen pdu) (u16 a) m
    = (let* x := c in ret (Some x)) ->
  builds (reply_sft sft f) c fl ans m' -> zlen ans <= 253 ->
  forall st, reply_with be (received sft pdu rest) (zlen (adu sft pdu)) m st =
    (flush_if fl ;;;
     if sft_slave sft =? MODBUS_BROADCAST_ADDRESS then ret (0, m')
     else let* rc := send_frame be (adu sft ans) in ret (rc, m')) st.
Proof.
  intros Hs Hf Ea Ed Hb Hl st. unfold reply_with. cbv zeta.
  erewrite bind_ret_eq by (by apply rd_slave).
  erewrite bind_ret_eq.
  2: { rewrite <- (Z.add_0_r (header_length be)). by apply rd_pdu. }
  erewrite bind_ret_eq by apply Ea.
  erewrite bind_ret_eq by apply prepare_tid_eq. cbn beta iota.
  rewrite adu_length, Z.add_simpl_r. fold (reply_sft sft f). rewrite Ed, bind_assoc.
  destruct (Hb st) as (rsp & n & Hrsp & Ec).
  rewrite (bind_eq _ _ _ _ Ec), bind_assoc. apply bind_ext; [done|]. intros [] st'.
  rewrite !(bind_ret_eq (ret _) _ st' _ st' eq_refl). cbn beta iota. cbn [reply_sft sft_slave].
  destruct (_ =? _); [done|].
  destruct (send_rsp be _ _ _ _ Hrsp) as [rsp' E]; [done|].
  unfold bind at 1. rewrite E. unfold reply_sft. rewrite wire_sft by done.
  unfold bind. by destruct (send_frame _ _ st').
Qed.

Lemma reply_with_ok r : is_u8 (sft_slave sft) -> wf_request r -> readable r -> write_starts_inside r ->
  let ans := snd (exec (abs m) r) in
  exists m', evolves m m' /\ store_equiv (abs m') (fst (exec (abs m) r)) /\
  forall st, reply_with be (received sft (encode_request r) rest)
               (zlen (adu sft (encode_request r))) m st =
    (flush_if (flushes r ans) ;;;
     if sft_slave sft =? MODBUS_BROADCAST_ADDRESS then ret (0, m')
     else let* rc := send_frame be (adu sft (encode_answer r ans)) in ret (rc, m')) st.
Proof.
  intros Hs Hr Hread Hw ans.
  destruct (branch_ok r Hr Hw) as (m' & Hm' & He & Hb). fold ans in Hb.
  destruct (rd_address r Hr Hread) as (a & Ha & Ea).
  exists m'. split; [done|]. split; [done|].
  by apply (reply_with_builds (function_code r) _ a (branch r));
    [..|apply dispatch_branch| |apply answer_fits].
Qed.

(** A function code the server does not know. *)
Definition unsupported (f : Z) : Prop :=
  ~ In f [1; 2; 3; 4; 5; 6; 7; 15; 16; 17; 22; 23].

Lemma unsupported_ok f x y tl : is_u8 (sft_slave sft) -> unsupported f ->
  forall st, reply_with be (received sft (f :: x :: y :: tl) rest) (zlen (adu sft (f :: x :: y :: tl))) m st =
    (flush_if true ;;;
     if sft_slave sft =? MODBUS_BROADCAST_ADDRESS then ret (0, m)
     else let* rc := send_frame be (adu sft [u8 (f + 128); 1]) in ret (rc, m)) st.
Proof.
  intros Hs Hf. eapply (reply_with_builds f _ (be16 x y) (exception_reply be (reply_sft sft f) 1 true m));
    [done|done| | |apply builds_exception; unfold is_u8; lia|done].
  - intros st. by apply rd16_pdu.
  - unfold unsupported in Hf. cbn [In] in Hf. unfold reply_dispatch.
    repeat match goal with |- (if f =? ?k then _ else _) = _ =>
      let k' := eval vm_compute in k in
      rewrite (proj2 (Z.eqb_neq f k)) by (change k with k'; lia) end.
    done.
Qed.
(** The write part of a write-and-read request is stored without a test of
    its lower end. *)
Lemma write_read_underflow a n wa wn ws : is_u8 (sft_slave sft) ->
  wf_request (WriteRead a n wa wn ws) -> 1 <= n <= 125 -> 1 <= wn <= 121 -> zlen ws = wn ->
  start_registers m <= a -> a - start_registers m + n <= nb_registers m ->
  wa < start_registers m -> wa - start_registers m + wn <= nb_registers m ->
  forall st, reply_with be (received sft (encode_request (WriteRead a n wa wn ws)) rest)
               (zlen (adu sft (encode_request (WriteRead a n wa wn ws)))) m st = Fault OutOfBounds.
Proof.
  intros Hs Hr Hn Hwn Hws Ha Han Hwa Hwan st. set (r := WriteRead a n wa wn ws) in *.
  assert (Hr' := Hr). destruct Hr' as (Hua & Hun & Huwa & Huwn & Hu & Hlen).
  destruct (rd_address r Hr) as (a' & Ha' & Ea); [discriminate|].
  unfold reply_with. cbv zeta. erewrite bind_ret_eq by (by apply rd_slave).
  rewrite (bind_ret_eq _ _ st 23 st).
  2: { rewrite <- (Z.add_0_r (header_length be)). by apply (rd_pdu _ _ _ _ 23). }
  erewrite bind_ret_eq by apply Ea.
  erewrite bind_ret_eq by apply prepare_tid_eq. cbn beta iota.
  rewrite adu_length, Z.add_simpl_r. fold (reply_sft sft 23) (plain_length r).
  pose proof (dispatch_branch r _ Ha') as Ed. change (function_code r) with 23 in Ed.
  rewrite Ed, bind_assoc. cbn [branch r function_code]. unfold reply_write_and_read_registers. cbv zeta.
  erewrite (bind_eq (let* nb := rd16 _ _ in _) (fun _ => Fault OutOfBounds)); [done|].
  erewrite bind_ret_eq by (by apply (rd_word _ _ _ 3 n)).
  erewrite bind_ret_eq by (by apply (rd_word _ _ _ 5 wa)).
  erewrite bind_ret_eq by (by apply (rd_word _ _ _ 7 wn)).
  erewrite bind_ret_eq by (by apply (rd_pdu _ _ _ 9 (2 * zlen ws))).
  rewrite (u16_id wa) by done. unfold MODBUS_MAX_WR_WRITE_REGISTERS, MODBUS_MAX_WR_READ_REGISTERS.
  replace (_ || _ || _ || _ || negb _) with false by lia.
  replace (_ || _ || _ || _) with false by lia.
  destruct (response_basis_rsp be (reply_sft sft 23)) as (rsp & n0 & Hrsp & E).
  erewrite bind_ret_eq by apply E. cbn beta iota.
  pose proof header_bounds as Hb.
  pose proof (is_rsp_len be _ _ _ _ Hrsp) as Hn0. rewrite zlen_cons in Hn0. change (zlen (@nil Z)) with 0 in Hn0.
  destruct (put_rsp _ _ _ _ (Z.shiftl n 1) st Hrsp) as (r1 & E1 & _); [unfold MAX_MESSAGE_LENGTH; lia|].
  erewrite bind_ret_eq by exact E1.
  assert (Ef : store_registers (cells (tab_registers m)) (wa - start_registers m) wn
      (received sft (encode_request r) rest) (header_length be + 10) st = Fault OutOfBounds).
  { unfold store_registers. destruct ws as [|w ws]; [change (zlen (@nil Z)) with 0 in Hws; lia|].
    destruct (Z.to_nat wn) as [|k] eqn:Ek; [lia|]. cbn [for_loop].
    unfold bind at 1 2. erewrite bind_ret_eq.
    2: { replace (header_length be + 10) with (header_length be + 10 + 2 * 0) by lia.
         by apply (rd_carried (w :: ws) [23; hi8 a; lo8 a; hi8 n; lo8 n; hi8 wa; lo8 wa; hi8 wn; lo8 wn; 2 * zlen (w :: ws)] 0 w 10). }
    unfold bind, arr_set. by rewrite (proj2 (Z.leb_gt _ _)) by lia. }
  unfold bind at 1. by rewrite Ef.
Qed.

(** [modbus_reply_exception] *)
Lemma reply_exception_ok f tl code : is_u8 (sft_slave sft) -> is_u8 code -> forall st,
  reply_exception_with be (received sft (f :: tl) rest) code st =
    if code <? MODBUS_EXCEPTION_MAX then send_frame be (adu sft [u8 (f + 128); code]) st
    else err EINVAL st.
Proof.
  intros Hs Hcode st. unfold reply_exception_with. cbv zeta.
  erewrite bind_ret_eq by (by apply rd_slave).
  erewrite bind_ret_eq.
  2: { rewrite <- (Z.add_0_r (header_length be)). by apply rd_pdu. }
  erewrite bind_ret_eq by apply prepare_tid_eq. cbn beta iota. fold (reply_sft sft (f + 128)).
  destruct (response_basis_rsp be (reply_sft sft (f + 128))) as (rsp & n & Hrsp & E).
  erewrite bind_ret_eq by apply E. cbn beta iota.
  destruct (code <? MODBUS_EXCEPTION_MAX); [|done].
  pose proof header_bounds as Hb.
  pose proof (is_rsp_len be _ _ _ _ Hrsp) as Hn. rewrite zlen_cons in Hn. change (zlen (@nil Z)) with 0 in Hn.
  destruct (put_rsp _ _ _ _ code st Hrsp) as (r1 & E1 & Hr1); [unfold MAX_MESSAGE_LENGTH; lia|].
  erewrite bind_ret_eq by exact E1. cbn beta iota.
  destruct (send_rsp be _ _ _ _ Hr1) as [rsp' E2]; [done|].
  unfold bind at 1. rewrite E2. rewrite (u8_id code) by done. cbn [app reply_sft sft_function].
  unfold reply_sft. rewrite wire_sft by done.
  unfold bind. by destruct (send_frame _ _ st).
Qed.
End proofs.

(** The backend a context points to has frames. *)
#[export] Instance backend_framing {W} `{OS W} {FU : Fuel} {BC : BuildConfig} b : Framing (backend_of b) :=
  match b with
  | RTU_BACKEND => rtu_framing | TCP_BACKEND => tcp_framing | TCP_PI_BACKEND => tcp_pi_framing
  end.
