(* ===== verification/Wire.v ===== *)
(** Requests and answers on the wire: the frame of every well-formed request is
    one complete indication and the frame of every answer one complete
    confirmation, so the receiver takes exactly these bytes. *)
From S2P Require Import Prelude Platform Data Backend Core Framing Receive Mapping Reply Spec Bits ReplyProofs.
#[local] Open Scope Z_scope.

Lemma encode_request_u8 r : wf_request r -> Forall is_u8 (encode_request r).
Proof.
  assert (Hf : is_u8 (function_code r)) by (destruct r as [[]|[]| | | | | | |]; cbn; unfold is_u8; lia).
  destruct r; cbn [wf_request encode_request]; intros Hr; constructor; try done;
    repeat (apply Forall_app; split); try apply word_bytes_u8; try apply words_bytes_u8;
    try match goal with |- Forall _ (_ :: _) => constructor end;
    try match goal with |- Forall _ [] => constructor end.
  - destruct Hr as (_ & _ & _ & Hl & _). pose proof (zlen_nonneg data). unfold is_u8. lia.
  - apply Hr.
  - destruct Hr as (_ & _ & _ & Hl & _). pose proof (zlen_nonneg words). unfold is_u8. lia.
  - destruct Hr as (_ & _ & _ & _ & _ & Hl). pose proof (zlen_nonneg words). unfold is_u8. lia.
Qed.

Lemma zlen_word_bytes v : zlen (word_bytes v) = 2.
Proof. done. Qed.
Create HintDb zlen.
#[export] Hint Rewrite @zlen_cons @zlen_app zlen_word_bytes zlen_words_bytes zlen_pack_bits @zlen_nil : zlen.

Section wire.
Context {W : Type} `{OS W} {BC : BuildConfig}.
Context (be : modbus_backend_t W) {FR : Framing be}.

Lemma adu_u8 sft pdu : Forall is_u8 pdu -> Forall is_u8 (adu sft pdu).
Proof.
  intros Hp. destruct (adu_split sft pdu) as (h & t & -> & _ & Hh & Ht & _).
  by repeat (apply Forall_app; split).
Qed.

Lemma adu_nth sft pdu i : 0 <= i < zlen pdu ->
  nth (Z.to_nat (header_length be + i)) (adu sft pdu) 0 = nth (Z.to_nat i) pdu 0.
Proof.
  intros Hi. destruct (adu_split sft pdu) as (h & t & -> & Hh & _).
  apply hdr_length in Hh. rewrite zlen_fmap in Hh. pose proof header_bounds as Hb.
  unfold zlen in *. rewrite app_nth2 by lia. rewrite app_nth1 by lia. f_equal. lia.
Qed.

Lemma adu_function_byte sft f data :
  nth (Z.to_nat (header_length be)) (adu sft (f :: data)) 0 = f.
Proof.
  pose proof (adu_nth sft (f :: data) 0) as E. rewrite Z.add_0_r in E. rewrite E; [done|].
  rewrite zlen_cons. pose proof (zlen_nonneg data). lia.
Qed.

Lemma complete_adu mt sft f data m d :
  Forall is_u8 (f :: data) -> zlen (f :: data) <= 253 ->
  compute_meta_length_after_function f mt = m ->
  announced_data be mt (adu sft (f :: data)) = d ->
  1 + m + d = zlen (f :: data) ->
  complete be mt (adu sft (f :: data)).
Proof.
  intros Hu Hl Hm Hd Hlen. split.
  - unfold meta_end. rewrite adu_function_byte, Hm, Hd, adu_length. lia.
  - rewrite adu_length, max_adu_eq. lia.
  - by apply adu_u8.
Qed.

Lemma announced_indication sft f data :
  announced_data be MSG_INDICATION (adu sft (f :: data)) =
    if (f =? 15) || (f =? 16) then nth (Z.to_nat (header_length be + 5)) (adu sft (f :: data)) 0
    else if f =? 23 then nth (Z.to_nat (header_length be + 9)) (adu sft (f :: data)) 0 else 0.
Proof.
  unfold announced_data. by rewrite adu_function_byte.
Qed.
Lemma announced_confirmation sft f data :
  announced_data be MSG_CONFIRMATION (adu sft (f :: data)) =
    if (f <=? 4) || (f =? 17) || (f =? 23) then nth (Z.to_nat (header_length be + 1)) (adu sft (f :: data)) 0
    else 0.
Proof.
  unfold announced_data. by rewrite adu_function_byte.
Qed.

Lemma encode_request_length r : wf_request r -> zlen (encode_request r) <= 253.
Proof.
  destruct r; unfold encode_request; cbn [wf_request]; intros Hr; try done;
    autorewrite with zlen.
  - destruct Hr as (_ & _ & _ & Hl & _). lia.
  - destruct Hr as (_ & _ & _ & Hl & _). lia.
  - destruct Hr as (_ & _ & _ & _ & _ & Hl). lia.
Qed.

Lemma complete_request sft r : wf_request r -> complete be MSG_INDICATION (adu sft (encode_request r)).
Proof.
  intros Hr. pose proof (encode_request_u8 r Hr) as Hu. pose proof (encode_request_length r Hr) as Hl.
  assert (Hdata : forall f data m k d, Forall is_u8 (f :: data) -> zlen (f :: data) <= 253 ->
      compute_meta_length_after_function f MSG_INDICATION = m ->
      1 + m + d = zlen (f :: data) -> 0 <= k < zlen (f :: data) ->
      ((f =? 15) || (f =? 16) = true /\ k = 5 \/ f = 23 /\ k = 9) ->
      nth (Z.to_nat k) (f :: data) 0 = d -> complete be MSG_INDICATION (adu sft (f :: data))).
  { intros f data m k d Hu' Hl' Hm Hlen Hk Hf Hd.
    eapply complete_adu; [done|done|exact Hm| |exact Hlen].
    rewrite announced_indication. destruct Hf as [[-> ->]|[-> ->]]; cbn [Z.eqb Pos.eqb orb];
      by rewrite adu_nth. }
  unfold encode_request in *. destruct r as [[] ? ?|[] ? ?|? ?|? ?|? ? data|? ? words| |? ? ?|? ? ? ? words]; cbn [function_code] in *.
  all: try (eapply complete_adu;
    [exact Hu|exact Hl|reflexivity|rewrite announced_indication; reflexivity|reflexivity]).
  - apply (Hdata _ _ 5 5 (zlen data)); [exact Hu|exact Hl|done| | |by left|done];
      autorewrite with zlen; pose proof (zlen_nonneg data); lia.
  - apply (Hdata _ _ 5 5 (2 * zlen words)); [exact Hu|exact Hl|done| | |by left|done];
      autorewrite with zlen; pose proof (zlen_nonneg words); lia.
  - apply (Hdata _ _ 9 9 (2 * zlen words)); [exact Hu|exact Hl|done| | |by right|done];
      autorewrite with zlen; pose proof (zlen_nonneg words); lia.
Qed.

(** The shape of a normal answer. *)
Lemma answer_shape s0 r data : snd (exec s0 r) = Normal data ->
  match r with
  | ReadBits _ _ n => 1 <= n <= 2000 /\ exists bits, zlen bits = n /\ data = bytes_for n :: pack_bits bits
  | ReadRegisters _ _ n => 1 <= n <= 125 /\ exists ws, zlen ws = n /\ data = 2 * n :: words_bytes ws
  | WriteCoil a v | WriteRegister a v => data = word_bytes a ++ word_bytes v
  | WriteCoils a n _ | WriteRegisters a n _ => data = word_bytes a ++ word_bytes n
  | ReportSlaveId => data = [24; 180; 255] ++ LMB ++ LIBMODBUS_VERSION_STRING
  | MaskWrite a am om => data = word_bytes a ++ word_bytes am ++ word_bytes om
  | WriteRead _ n _ _ _ => 1 <= n <= 125 /\ exists ws, zlen ws = n /\ data = 2 * n :: words_bytes ws
  end.
Proof.
  destruct r as [b a n|b a n|? ?|? ?|? n ?|? n ?| |? ? ?|a n wa wn ws]; cbn [exec].
  - destruct ((n <? 1) || (2000 <? n)) eqn:En; [done|].
    destruct (read_range _ a n) as [l|] eqn:E; [|done]. intros [= <-].
    apply read_range_length in E; [|lia]. split; [lia|]. by exists l.
  - destruct ((n <? 1) || (125 <? n)) eqn:En; [done|].
    destruct (read_range _ a n) as [l|] eqn:E; [|done]. intros [= <-].
    apply read_range_length in E; [|lia]. split; [lia|]. by exists l.
  - destruct (coils _ _); [|done]. destruct (_ || _); [|done]. by intros [= <-].
  - destruct (holding _ _); [|done]. by intros [= <-].
  - destruct (_ || _); [done|]. destruct (read_range _ _ _); [|done]. by intros [= <-].
  - destruct (_ || _); [done|]. destruct (read_range _ _ _); [|done]. by intros [= <-].
  - by intros [= <-].
  - destruct (holding _ _); [|done]. by intros [= <-].
  - destruct (_ || negb _) eqn:En; [done|].
    destruct (read_range (holding s0) a n), (read_range (holding s0) wa wn); try done.
    cbn [with_holding holding].
    destruct (read_range (write_range _ _ _) a n) as [k|] eqn:E; [|done]. intros [= <-].
    apply read_range_length in E; [|lia]. split; [lia|]. by exists k.
Qed.

Lemma complete_answer sft s0 r :
  Forall is_u8 (encode_answer r (snd (exec s0 r))) ->
  complete be MSG_CONFIRMATION (adu sft (encode_answer r (snd (exec s0 r)))).
Proof.
  intros Hu. pose proof (answer_fits s0 r) as Hl. revert Hu Hl.
  destruct (snd (exec s0 r)) as [code|data] eqn:E; cbn [encode_answer]; intros Hu Hl.
  - eapply (complete_adu _ _ _ _ 1 0); [exact Hu|exact Hl| | |done].
    + by destruct r as [[]|[]| | | | | | |].
    + rewrite announced_confirmation. by destruct r as [[]|[]| | | | | | |].
  - apply answer_shape in E.
    destruct r as [b a n|b a n|? ?|? ?|? ? ?|? ? ?| |? ? ?|a n wa wn ws]; cbn [function_code] in *.
    all: try (subst data; eapply complete_adu; [exact Hu|exact Hl|reflexivity|rewrite announced_confirmation; reflexivity|reflexivity]).
    + destruct E as (Hn & bits & Hb & ->).
      eapply (complete_adu _ _ _ _ 1 (bytes_for n)); [exact Hu|exact Hl|by destruct b| |].
      * rewrite announced_confirmation.
        rewrite adu_nth by (rewrite !zlen_cons; pose proof (zlen_nonneg (pack_bits bits)); lia). by destruct b.
      * autorewrite with zlen. rewrite Hb. lia.
    + destruct E as (Hn & bits & Hb & ->).
      eapply (complete_adu _ _ _ _ 1 (2 * n)); [exact Hu|exact Hl|by destruct b| |].
      * rewrite announced_confirmation.
        rewrite adu_nth by (autorewrite with zlen; pose proof (zlen_nonneg bits); lia). by destruct b.
      * autorewrite with zlen. rewrite Hb. lia.
    + subst data. eapply (complete_adu _ _ _ _ 1 24); [exact Hu|exact Hl|done| |done].
      rewrite announced_confirmation. by rewrite adu_nth by (split; [lia|reflexivity]).
    + destruct E as (Hn & bits & Hb & ->).
      eapply (complete_adu _ _ _ _ 1 (2 * n)); [exact Hu|exact Hl|done| |].
      * rewrite announced_confirmation.
        rewrite adu_nth by (autorewrite with zlen; pose proof (zlen_nonneg bits); lia). done.
      * autorewrite with zlen. rewrite Hb. lia.
Qed.
End wire.
