(* ===== verification/Client.v ===== *)
(** modbus.c, the client side: the requests of a Modbus master. Each builds a
    request, sends it, receives the confirmation, checks it against the request
    and extracts the values. *)
From S2P Require Import Prelude Platform Backend Core.
#[local] Open Scope Z_scope.

Section client.
Context {W : Type} `{OS W} {FU : Fuel} {BC : BuildConfig}.
Context (be : modbus_backend_t W).

(** Send [req], wait for the confirmation and check it: the confirmation and
    the number of values, [None] when the function returns [rc] at once
    because nothing was sent ([rc <= 0]) or an error was found ([rc = -1]). *)
Definition exchange (req : buf) (req_length : Z) : P W (Z * option buf) :=
  let* (rc, req) := send_msg be req req_length in
  if 0 <? rc then
    let* (rc, rsp) := _modbus_receive_msg be (uninit MAX_MESSAGE_LENGTH) MSG_CONFIRMATION in
    if rc =? -1 then ret (-1, None)
    else
      let* rc := check_confirmation be req rsp rc in
      if rc =? -1 then ret (-1, None) else ret (rc, Some rsp)
  else ret (rc, None).

(** [for (bit = 0x01; (bit & 0xff) && (pos < nb);)
       { dest[pos++] = (temp & bit) ? TRUE : FALSE; bit = bit << 1; }] *)
Definition unpack_byte (temp nb : Z) (dest : list Z) (pos : Z) : P W (list Z * Z) :=
  while_loop 9 (fun '(bit, dest, pos) =>
    if negb (Z.land bit 255 =? 0) && (pos <? nb) then
      let* dest := arr_set dest pos (if Z.land temp bit =? 0 then 0 else 1) in
      ret (inl (Z.shiftl bit 1, dest, pos + 1))
    else ret (inr (dest, pos))) (1, dest, pos).

Definition read_io_status (function addr nb : Z) (dest : list Z) : P W (Z * list Z) :=
  let* (req_length, req) := build_request_basis be function addr nb (uninit _MIN_REQ_LENGTH) in
  let* (rc, rsp) := exchange req req_length in
  match rsp with
  | None => ret (rc, dest)
  | Some rsp =>
      let offset := header_length be + 2 in
      let* (dest, _) := for_loop (Z.to_nat rc) offset (fun i '(dest, pos) =>
        let* temp := rd rsp i in unpack_byte temp nb dest pos) (dest, 0) in
      ret (rc, dest)
  end.

Definition read_bits_with (function addr nb : Z) (dest : list Z) : P W (Z * list Z) :=
  if MODBUS_MAX_READ_BITS <? nb then
    let* rc := err EMBMDATA in ret (rc, dest)
  else
    let* (rc, dest) := read_io_status function addr nb dest in
    if rc =? -1 then ret (-1, dest) else ret (nb, dest).

(** [for (i = 0; i < rc; i++)
       dest[i] = (rsp[offset + 2 + (i << 1)] << 8) | rsp[offset + 3 + (i << 1)];] *)
Definition extract_registers (rsp : buf) (rc : Z) (dest : list Z) : P W (list Z) :=
  let offset := header_length be in
  for_loop (Z.to_nat rc) 0 (fun i dest =>
    let* h := rd rsp (offset + 2 + Z.shiftl i 1) in
    let* l := rd rsp (offset + 3 + Z.shiftl i 1) in
    arr_set dest i (u16 (Z.lor (Z.shiftl h 8) l))) dest.

Definition read_registers (function addr nb : Z) (dest : list Z) : P W (Z * list Z) :=
  if MODBUS_MAX_READ_REGISTERS <? nb then
    let* rc := err EMBMDATA in ret (rc, dest)
  else
    let* (req_length, req) := build_request_basis be function addr nb (uninit _MIN_REQ_LENGTH) in
    let* (rc, rsp) := exchange req req_length in
    match rsp with
    | None => ret (rc, dest)
    | Some rsp => let* dest := extract_registers rsp rc dest in ret (rc, dest)
    end.

(** A request whose confirmation carries no values to extract. *)
Definition exchange_ack (req : buf) (req_length : Z) : P W Z :=
  let* (rc, _) := exchange req req_length in ret rc.

Definition write_single (function addr value : Z) : P W Z :=
  let* (req_length, req) := build_request_basis be function addr value (uninit _MIN_REQ_LENGTH) in
  exchange_ack req req_length.

(** [while ((bit & 0xFF) && (bit_check++ < nb))
       { if (src[pos++]) req[req_length] |= bit; else req[req_length] &=~ bit; bit = bit << 1; }] *)
Definition pack_byte (src : list Z) (nb : Z) (req : buf) (req_length bit_check pos : Z)
    : P W (buf * Z * Z) :=
  while_loop 9 (fun '(bit, req, bit_check, pos) =>
    if Z.land bit 255 =? 0 then ret (inr (req, bit_check, pos))
    else if bit_check <? nb then
      let* v := arr_get src pos in
      let* old := rd req req_length in
      let* req := wr req req_length
                    (if v =? 0 then Z.land old (Z.lnot bit) else Z.lor old bit) in
      ret (inl (Z.shiftl bit 1, req, bit_check + 1, pos + 1))
    else ret (inr (req, bit_check + 1, pos))) (1, req, bit_check, pos).

Definition put_bits (src : list Z) (nb byte_count : Z) (req : buf) (req_length : Z)
    : P W (buf * Z) :=
  let* r := for_loop (Z.to_nat byte_count) 0 (fun _ '(req, req_length, bit_check, pos) =>
    let* req := wr req req_length 0 in
    let* (req, bit_check, pos) := pack_byte src nb req req_length bit_check pos in
    ret (req, req_length + 1, bit_check, pos)) (req, req_length, 0, 0) in
  let '(req, req_length, _, _) := r in ret (req, req_length).

Definition write_bits_with (addr nb : Z) (src : list Z) : P W Z :=
  if MODBUS_MAX_WRITE_BITS <? nb then err EMBMDATA
  else
    let* (req_length, req) := build_request_basis be MODBUS_FC_WRITE_MULTIPLE_COILS addr nb
                                (uninit MAX_MESSAGE_LENGTH) in
    let byte_count := Z.quot nb 8 + (if Z.rem nb 8 =? 0 then 0 else 1) in
    let* req := wr req req_length byte_count in
    let* (req, req_length) := put_bits src nb byte_count req (req_length + 1) in
    exchange_ack req req_length.

(** [for (i = 0; i < nb; i++)
       { req[req_length++] = src[i] >> 8; req[req_length++] = src[i] & 0x00FF; }] *)
Definition put_words (src : list Z) (nb : Z) (req : buf) (req_length : Z) : P W (buf * Z) :=
  for_loop (Z.to_nat nb) 0 (fun i '(req, req_length) =>
    let* v := arr_get src i in
    let* req := wr req req_length (Z.shiftr v 8) in
    let* req := wr req (req_length + 1) (Z.land v 255) in
    ret (req, req_length + 2)) (req, req_length).

Definition write_registers_with (addr nb : Z) (src : list Z) : P W Z :=
  if MODBUS_MAX_WRITE_REGISTERS <? nb then err EMBMDATA
  else
    let* (req_length, req) := build_request_basis be MODBUS_FC_WRITE_MULTIPLE_REGISTERS addr nb
                                (uninit MAX_MESSAGE_LENGTH) in
    let* req := wr req req_length (nb * 2) in
    let* (req, req_length) := put_words src nb req (req_length + 1) in
    exchange_ack req req_length.

Definition mask_write_register_with (addr and_mask or_mask : Z) : P W Z :=
  let* (req_length, req) := build_request_basis be MODBUS_FC_MASK_WRITE_REGISTER addr 0
                              (uninit (_MIN_REQ_LENGTH + 2)) in
  let req_length := req_length - 2 in
  let* req := wr req req_length (Z.shiftr and_mask 8) in
  let* req := wr req (req_length + 1) (Z.land and_mask 255) in
  let* req := wr req (req_length + 2) (Z.shiftr or_mask 8) in
  let* req := wr req (req_length + 3) (Z.land or_mask 255) in
  exchange_ack req (req_length + 4).

Definition write_and_read_registers_with (write_addr write_nb : Z) (src : list Z)
    (read_addr read_nb : Z) (dest : list Z) : P W (Z * list Z) :=
  if MODBUS_MAX_WR_WRITE_REGISTERS <? write_nb then
    let* rc := err EMBMDATA in ret (rc, dest)
  else if MODBUS_MAX_WR_READ_REGISTERS <? read_nb then
    let* rc := err EMBMDATA in ret (rc, dest)
  else
    let* (req_length, req) := build_request_basis be MODBUS_FC_WRITE_AND_READ_REGISTERS
                                read_addr read_nb (uninit MAX_MESSAGE_LENGTH) in
    let* req := wr req req_length (Z.shiftr write_addr 8) in
    let* req := wr req (req_length + 1) (Z.land write_addr 255) in
    let* req := wr req (req_length + 2) (Z.shiftr write_nb 8) in
    let* req := wr req (req_length + 3) (Z.land write_nb 255) in
    let* req := wr req (req_length + 4) (write_nb * 2) in
    let* (req, req_length) := put_words src write_nb req (req_length + 5) in
    let* (rc, rsp) := exchange req req_length in
    match rsp with
    | None => ret (rc, dest)
    | Some rsp => let* dest := extract_registers rsp rc dest in ret (rc, dest)
    end.

(** [for (i = 0; i < rc && i < max_dest; i++) dest[i] = rsp[offset + i];] *)
Definition report_slave_id_with (max_dest : Z) (dest : list Z) : P W (Z * list Z) :=
  let* (req_length, req) := build_request_basis be MODBUS_FC_REPORT_SLAVE_ID 0 0
                              (uninit _MIN_REQ_LENGTH) in
  let* (rc, rsp) := exchange req (req_length - 4) in
  match rsp with
  | None => ret (rc, dest)
  | Some rsp =>
      let offset := header_length be + 2 in
      let* dest := for_loop (Z.to_nat (Z.min rc max_dest)) 0 (fun i dest =>
        let* v := rd rsp (offset + i) in arr_set dest i v) dest in
      ret (rc, dest)
  end.
End client.

(** ** The public functions *)
Section client_api.
Context {W : Type} `{OS W} {FU : Fuel} {BC : BuildConfig}.

Definition modbus_read_bits (p : ctx_ptr) (addr nb : Z) (dest : list Z) : P W (Z * list Z) :=
  match p with
  | NULL => let* rc := err EINVAL in ret (rc, dest)
  | CTX => let* be := get_backend in read_bits_with be MODBUS_FC_READ_COILS addr nb dest
  end.
Definition modbus_read_input_bits (p : ctx_ptr) (addr nb : Z) (dest : list Z) : P W (Z * list Z) :=
  match p with
  | NULL => let* rc := err EINVAL in ret (rc, dest)
  | CTX => let* be := get_backend in read_bits_with be MODBUS_FC_READ_DISCRETE_INPUTS addr nb dest
  end.
Definition modbus_read_registers (p : ctx_ptr) (addr nb : Z) (dest : list Z) : P W (Z * list Z) :=
  match p with
  | NULL => let* rc := err EINVAL in ret (rc, dest)
  | CTX =>
      if MODBUS_MAX_READ_REGISTERS <? nb then let* rc := err EMBMDATA in ret (rc, dest)
      else let* be := get_backend in
           read_registers be MODBUS_FC_READ_HOLDING_REGISTERS addr nb dest
  end.
Definition modbus_read_input_registers (p : ctx_ptr) (addr nb : Z) (dest : list Z) : P W (Z * list Z) :=
  match p with
  | NULL => let* rc := err EINVAL in ret (rc, dest)
  | CTX =>
      if MODBUS_MAX_READ_REGISTERS <? nb then let* rc := err EMBMDATA in ret (rc, dest)
      else let* be := get_backend in
           read_registers be MODBUS_FC_READ_INPUT_REGISTERS addr nb dest
  end.
Definition modbus_write_bit (p : ctx_ptr) (addr status : Z) : P W Z :=
  match p with
  | NULL => err EINVAL
  | CTX => let* be := get_backend in
           write_single be MODBUS_FC_WRITE_SINGLE_COIL addr (if status =? 0 then 0 else 65280)
  end.
Definition modbus_write_register (p : ctx_ptr) (addr value : Z) : P W Z :=
  match p with
  | NULL => err EINVAL
  | CTX => let* be := get_backend in write_single be MODBUS_FC_WRITE_SINGLE_REGISTER addr value
  end.
Definition modbus_write_bits (p : ctx_ptr) (addr nb : Z) (src : list Z) : P W Z :=
  match p with
  | NULL => err EINVAL
  | CTX => let* be := get_backend in write_bits_with be addr nb src
  end.
Definition modbus_write_registers (p : ctx_ptr) (addr nb : Z) (src : list Z) : P W Z :=
  match p with
  | NULL => err EINVAL
  | CTX => let* be := get_backend in write_registers_with be addr nb src
  end.
(** No test for [NULL] here: [ctx->backend] is read at once. *)
Definition modbus_mask_write_register (p : ctx_ptr) (addr and_mask or_mask : Z) : P W Z :=
  match p with
  | NULL => fail NullDeref
  | CTX => let* be := get_backend in mask_write_register_with be addr and_mask or_mask
  end.
Definition modbus_write_and_read_registers (p : ctx_ptr) (write_addr write_nb : Z) (src : list Z)
    (read_addr read_nb : Z) (dest : list Z) : P W (Z * list Z) :=
  match p with
  | NULL => let* rc := err EINVAL in ret (rc, dest)
  | CTX => let* be := get_backend in
           write_and_read_registers_with be write_addr write_nb src read_addr read_nb dest
  end.
Definition modbus_report_slave_id (p : ctx_ptr) (max_dest : Z) (dest : list Z) : P W (Z * list Z) :=
  match p with
  | NULL => let* rc := err EINVAL in ret (rc, dest)
  | CTX =>
      if max_dest <=? 0 then let* rc := err EINVAL in ret (rc, dest)
      else let* be := get_backend in report_slave_id_with be max_dest dest
  end.
End client_api.
