(* ===== verification/Requests.v ===== *)
(** The loops with which the client writes bits and registers into a request
    and takes them out of a confirmation. *)
From S2P Require Import Prelude Platform Data Backend Core Framing Receive Mapping Reply Spec Bits ReplyProofs Wire Client.
#[local] Open Scope Z_scope.

(** A C integer as a coil. *)
Definition coil_of (v : Z) : Z := if v =? 0 then 0 else 1.
Lemma coil_of_bit l : Forall is_bit (coil_of <$> l).
Proof. apply Forall_fmap, Forall_true. intros v. unfold is_bit, coil_of. cbn. destruct (v =? 0); auto. Qed.
Lemma coil_of_id l : Forall is_bit l -> coil_of <$> l = l.
Proof. induction 1 as [|x l Hx _ IH]; [done|]. cbn. rewrite IH. by destruct Hx as [-> | ->]. Qed.

(** Setting and clearing bit [k] above the bits [c] of a byte. *)
Lemma pack_from_bound c : Forall is_bit c -> 0 <= pack_from 0 c < 2 ^ zlen c.
Proof. intros Hc. exact (pack_from_range c 0 ltac:(lia) Hc). Qed.
Lemma set_bit c : Z.lor (pack_from 0 c) (Z.shiftl 1 (zlen c)) = pack_from 0 (c ++ [1]).
Proof. by rewrite pack_from_snoc. Qed.
Lemma clear_bit c : Forall is_bit c ->
  Z.land (pack_from 0 c) (Z.lnot (Z.shiftl 1 (zlen c))) = pack_from 0 (c ++ [0]).
Proof.
  intros Hc. rewrite pack_from_snoc, Z.shiftl_0_l, Z.lor_0_r. pose proof (pack_from_bound c Hc) as Hr.
  pose proof (zlen_nonneg c). apply Z.bits_inj'. intros n Hn.
  rewrite Z.land_spec, Z.lnot_spec, Z.shiftl_1_l, Z.pow2_bits_eqb by lia.
  destruct (Z.eqb_spec (zlen c) n) as [<-|]; [|by rewrite andb_true_r].
  rewrite andb_false_r. symmetry.
  rewrite <- (Z.mod_small (pack_from 0 c) (2 ^ zlen c)) by done. by apply Z.mod_pow2_bits_high.
Qed.

(** The store of one coil into the byte that collects them. *)
Lemma pack_bit c v : Forall is_bit c -> zlen c < 8 ->
  u8 (if v =? 0 then Z.land (pack_from 0 c) (Z.lnot (Z.shiftl 1 (zlen c)))
      else Z.lor (pack_from 0 c) (Z.shiftl 1 (zlen c))) = pack_from 0 (c ++ [coil_of v]).
Proof.
  intros Hc Hl. unfold coil_of.
  assert (Hx : forall x, is_bit x -> u8 (pack_from 0 (c ++ [x])) = pack_from 0 (c ++ [x])).
  { intros x Hx. apply u8_id, pack_from_u8; [apply Forall_app; split; [done|by constructor]|].
    rewrite length_app. cbn. unfold zlen in Hl. lia. }
  destruct (v =? 0); [rewrite clear_bit by done|rewrite set_bit]; apply Hx; unfold is_bit; auto.
Qed.

(** The mask [bit & 0xff] dies with the eighth shift. *)
Lemma mask_dead k : 0 <= k <= 8 -> (Z.land (Z.shiftl 1 k) 255 =? 0) = (k =? 8).
Proof.
  intros Hk. assert (Hc : k ∈ [0; 1; 2; 3; 4; 5; 6; 7; 8]) by (rewrite !elem_of_cons; lia).
  repeat (apply elem_of_cons in Hc as [-> | Hc]; [done|]). by apply elem_of_nil in Hc.
Qed.

Section loops.
Context {W : Type} `{OS W} {FU : Fuel} {BC : BuildConfig}.

(** One byte of coils. *)
Lemma pack_byte_eq src nb pos pre post (st : state W) :
  let c := coil_of <$> take (Z.to_nat (Z.min 8 (nb - pos))) (drop (Z.to_nat pos) src) in
  0 <= pos < nb -> nb <= zlen src ->
  exists bc, pack_byte src nb (pre ++ Some 0 :: post) (zlen pre) pos pos st
    = Ret (pre ++ Some (pack_from 0 c) :: post, bc, pos + zlen c) st /\
    (8 <= nb - pos -> bc = pos + 8).
Proof.
  intros c Hpos Hnb.
  assert (Hc : zlen c = Z.min 8 (nb - pos)).
  { unfold c, zlen in *. rewrite length_fmap, length_take, length_drop. lia. }
  assert (Hb : forall k, Forall is_bit (take k c)) by (intros k; apply Forall_take, coil_of_bit).
  unfold pack_byte.
  assert (Hw : wp (while_loop 9 (fun '(bit, req, bit_check, pos) =>
      if Z.land bit 255 =? 0 then ret (inr (req, bit_check, pos))
      else if bit_check <? nb then
        let* v := arr_get src pos in
        let* old := rd req (zlen pre) in
        let* req := wr req (zlen pre)
                      (if v =? 0 then Z.land old (Z.lnot bit) else Z.lor old bit) in
        ret (inl (Z.shiftl bit 1, req, bit_check + 1, pos + 1))
      else ret (inr (req, bit_check + 1, pos))) (1, pre ++ Some 0 :: post, pos, pos))
    (fun r st' => st' = st /\ exists bc, r = (pre ++ Some (pack_from 0 c) :: post, bc, pos + zlen c) /\
       (8 <= nb - pos -> bc = pos + 8)) st).
  2: { apply wp_inv in Hw as (r & st' & E & -> & bc & -> & Hbc). eauto. }
  apply (wp_while _ (fun a st' => st' = st /\ exists k, (k <= length c)%nat /\
      a = (Z.shiftl 1 (Z.of_nat k), pre ++ Some (pack_from 0 (take k c)) :: post, pos + Z.of_nat k, pos + Z.of_nat k))
    (fun '(_, _, bc, _) _ => Z.to_nat (pos + 8 - bc))).
  - intros [[[bit req] bc] ps] st' (-> & k & Hk & [= -> -> -> ->]).
    assert (Hk8 : Z.of_nat k <= 8) by (unfold zlen in Hc; lia).
    rewrite mask_dead by lia. destruct (Z.eqb_spec (Z.of_nat k) 8) as [E8|Hne].
    + apply wp_ret. split; [done|].
      rewrite take_ge by (unfold zlen in Hc; lia). exists (pos + Z.of_nat k).
      split; [|lia]. unfold zlen in *. do 2 f_equal. lia.
    + destruct (Z.ltb_spec (pos + Z.of_nat k) nb) as [Hlt|Hge].
      * assert (Hlc : (k < length c)%nat) by (unfold zlen in Hc; lia).
        destruct (lookup_lt_is_Some_2 c k Hlc) as [x Hx].
        pose proof Hx as Hv. unfold c in Hv. rewrite list_lookup_fmap in Hv.
        destruct (take _ _ !! k) as [v|] eqn:Ev; [|done]. injection Hv as Hv.
        rewrite lookup_take_lt, lookup_drop in Ev by (unfold zlen in Hc; lia).
        apply wp_bind. eapply wp_eq.
        { apply arr_get_eq; [lia|]. rewrite <- Ev. f_equal. lia. }
        apply wp_bind. eapply wp_eq.
        { apply rd_eq; [apply zlen_nonneg|]. unfold zlen. rewrite Nat2Z.id. by rewrite list_lookup_middle. }
        apply wp_bind. eapply wp_eq.
        { apply wr_eq. rewrite zlen_app, zlen_cons. pose proof (zlen_nonneg pre). pose proof (zlen_nonneg post). lia. }
        apply wp_ret. split; [|lia]. split; [done|]. exists (S k). split; [lia|].
        rewrite (take_S_r _ _ _ Hx).
        assert (Hzk : zlen (take k c) = Z.of_nat k) by (unfold zlen; rewrite length_take; lia).
        rewrite <- Hzk, pack_bit, Hv, Hzk by (done || lia).
        f_equal; [f_equal; [f_equal|]|]; [|unfold zlen; rewrite Nat2Z.id|lia|lia].
        -- rewrite Z.shiftl_shiftl by lia. f_equal. lia.
        -- by rewrite insert_app_r_alt, Nat.sub_diag by lia.
      * apply wp_ret. split; [done|].
        assert (Hfull : Z.of_nat k = zlen c) by (unfold zlen in *; lia).
        rewrite take_ge by (unfold zlen in *; lia). exists (pos + Z.of_nat k + 1).
        split; [|lia]. by rewrite Hfull.
  - split; [done|]. exists 0%nat. split; [lia|]. cbn. by rewrite Z.add_0_r.
  - lia.
Qed.

Context (be : modbus_backend_t W) {FR : Framing be}.

(** The last byte of a message under construction may still change. *)
Lemma is_msg_last size q pdu x req n : is_msg be size q (pdu ++ [x]) req (n + 1) ->
  exists pre post, req = pre ++ Some x :: post /\ zlen pre = n /\
    forall y, is_u8 y -> is_msg be size q (pdu ++ [y]) (pre ++ Some y :: post) (n + 1).
Proof.
  intros (h & t & Hh & -> & Hn & Hz & Hp). exists (h ++ (Some <$> pdu)), t.
  pose proof (hdr_length _ _ Hh) as Hl. rewrite zlen_app in Hn. change (zlen [x]) with 1 in Hn.
  split_and!.
  - by rewrite fmap_app, <- !app_assoc.
  - rewrite zlen_app, zlen_fmap. lia.
  - intros y Hy. apply Forall_app in Hp as [Hp _].
    exists h, t. split_and!; [done|by rewrite fmap_app, <- !app_assoc| | |].
    + rewrite zlen_app. change (zlen [y]) with 1. lia.
    + rewrite <- Hz. rewrite <- app_assoc, !zlen_app, fmap_app, zlen_app, !zlen_cons. cbn. rewrite ?zlen_cons, ?zlen_nil. lia.
    + apply Forall_app. split; [done|]. by constructor.
Qed.

(** The request's data are the packed coils. *)
Lemma put_bits_eq size q pdu req n src nb (st : state W) :
  is_msg be size q pdu req n -> 0 <= nb <= zlen src -> n + bytes_for nb <= size ->
  exists req', put_bits src nb (bytes_for nb) req n st = Ret (req', n + bytes_for nb) st /\
    is_msg be size q (pdu ++ pack_bits (coil_of <$> take (Z.to_nat nb) src)) req' (n + bytes_for nb).
Proof.
  intros Hm Hnb Hs. set (bits := coil_of <$> take (Z.to_nat nb) src).
  assert (Hbits : zlen bits = nb) by (unfold bits, zlen in *; rewrite length_fmap, length_take; lia).
  assert (Hbf : bytes_for nb = (nb + 7) / 8) by (apply bytes_for_div; lia).
  assert (Hbf0 : 0 <= bytes_for nb) by (rewrite Hbf; zdiv).
  unfold put_bits.
  assert (Hw : wp (for_loop (Z.to_nat (bytes_for nb)) 0 (fun _ '(req, req_length, bit_check, pos) =>
      let* req := wr req req_length 0 in
      let* (req, bit_check, pos) := pack_byte src nb req req_length bit_check pos in
      ret (req, req_length + 1, bit_check, pos)) (req, n, 0, 0))
    (fun r st' => st' = st /\ exists req' bc ps, r = (req', n + bytes_for nb, bc, ps) /\
       is_msg be size q (pdu ++ pack_bits bits) req' (n + bytes_for nb)) st).
  2: { apply wp_inv in Hw as ([[[req' n'] bc] ps] & st' & E & -> & ? & ? & ? & [= -> -> -> ->] & Hm').
       exists x. split; [|done]. by erewrite bind_ret_eq by exact E. }
  eapply wp_mono; [apply (wp_for _ (fun i acc st' => st' = st /\ exists req' bc ps,
      acc = (req', n + i, bc, ps) /\ (i < bytes_for nb -> bc = 8 * i /\ ps = 8 * i) /\
      is_msg be size q (pdu ++ pack_bits (take (8 * Z.to_nat i) bits)) req' (n + i)))|].
  - split; [done|]. exists req, 0, 0. rewrite Z.add_0_r. split; [done|]. split; [lia|].
    cbn. by rewrite app_nil_r.
  - intros i acc st' Hi (-> & req' & bc & ps & -> & Hpos & Hm').
    destruct Hpos as [-> ->]; [lia|].
    destruct (is_msg_wr be _ _ _ _ _ 0 Hm') as (req1 & Hm1 & E1); [lia|].
    apply wp_bind. eapply wp_eq; [apply E1|]. change (u8 0) with 0 in Hm1.
    destruct (is_msg_last _ _ _ _ _ _ Hm1) as (pre & post & -> & Hpre & Hset).
    destruct (pack_byte_eq src nb (8 * i) pre post st) as (bc & E & Hbc); [zdiv|lia|].
    rewrite Hpre in E. apply wp_bind. eapply wp_eq; [exact E|]. apply wp_ret.
    split; [done|]. set (c := coil_of <$> take (Z.to_nat (Z.min 8 (nb - 8 * i))) _) in *.
    assert (Ec : c = take 8 (drop (8 * Z.to_nat i) bits)).
    { unfold c, bits. rewrite !fmap_take, !fmap_drop, skipn_firstn_comm, firstn_firstn.
      f_equal; [zdiv|]. f_equal. lia. }
    assert (Hcz : zlen c = Z.min 8 (nb - 8 * i)).
    { rewrite Ec. unfold zlen in *. rewrite length_take, length_drop. zdiv. }
    exists (pre ++ Some (pack_from 0 c) :: post), bc, (8 * i + zlen c).
    split; [do 3 f_equal; lia|]. split; [intros; rewrite Hcz; split; [rewrite Hbc|]; zdiv|].
    replace (n + (i + 1)) with (n + i + 1) by lia.
    replace (Z.to_nat (i + 1)) with (S (Z.to_nat i)) by lia.
    rewrite <- pack_bits_next, <- Ec, app_assoc by (unfold zlen in Hbits; zdiv).
    apply Hset, pack_from_u8; [rewrite Ec; apply Forall_take, Forall_drop, coil_of_bit|unfold zlen in Hcz; lia].
  - intros acc st' (-> & req' & bc & ps & -> & _ & Hm'). split; [done|].
    rewrite Z.add_0_l, Z2Nat.id in * by lia. exists req', bc, ps. split; [done|].
    rewrite take_ge in Hm' by (unfold zlen in Hbits; zdiv). done.
Qed.

(** The request's data are the registers, high byte first. *)
Lemma put_words_eq size q pdu req n src nb (st : state W) :
  is_msg be size q pdu req n -> 0 <= nb <= zlen src -> n + 2 * nb <= size ->
  exists req', put_words src nb req n st = Ret (req', n + 2 * nb) st /\
    is_msg be size q (pdu ++ words_bytes (take (Z.to_nat nb) src)) req' (n + 2 * nb).
Proof.
  intros Hm Hnb Hs. unfold zlen in Hnb.
  assert (Hw : wp (put_words src nb req n) (fun r st' => st' = st /\ exists req', r = (req', n + 2 * nb) /\
      is_msg be size q (pdu ++ words_bytes (take (Z.to_nat nb) src)) req' (n + 2 * nb)) st).
  2: { apply wp_inv in Hw as (r & st' & E & -> & req' & -> & Hm'). eauto. }
  eapply wp_mono; [apply (wp_for _ (fun i acc st' => st' = st /\ exists req', acc = (req', n + 2 * i) /\
      is_msg be size q (pdu ++ words_bytes (take (Z.to_nat i) src)) req' (n + 2 * i)))|].
  - split; [done|]. exists req. cbn. rewrite app_nil_r, Z.add_0_r. done.
  - intros i acc st' Hi (-> & req' & -> & Hm').
    destruct (lookup_lt_is_Some_2 src (Z.to_nat i)) as [v Hv]; [lia|].
    apply wp_bind. eapply wp_eq; [apply arr_get_eq; [lia|exact Hv]|].
    destruct (is_msg_wr be _ _ _ _ _ (Z.shiftr v 8) Hm') as (b1 & Hm1 & E1); [lia|].
    apply wp_bind. eapply wp_eq; [apply E1|].
    destruct (is_msg_wr be _ _ _ _ _ (Z.land v 255) Hm1) as (b2 & Hm2 & E2); [lia|].
    apply wp_bind. eapply wp_eq; [apply E2|]. apply wp_ret. split; [done|].
    exists b2. split; [f_equal; lia|].
    replace (Z.to_nat (i + 1)) with (S (Z.to_nat i)) by lia. rewrite (take_S_r _ _ v) by done.
    unfold words_bytes in *. rewrite bind_app, app_assoc. cbn [mbind list_bind app].
    rewrite <- app_assoc in Hm2. by replace (n + 2 * (i + 1)) with (n + 2 * i + 1 + 1) by lia.
  - intros acc st' (-> & req' & -> & Hm'). split; [done|].
    rewrite Z.add_0_l, Z2Nat.id in * by lia. eauto.
Qed.

(** ** Taking the values out of a confirmation *)
Lemma extract_registers_eq q f k ws rest dest (st : state W) :
  Forall is_u16 ws -> zlen ws <= zlen dest ->
  extract_registers be (received be q (f :: k :: words_bytes ws) rest) (zlen ws) dest st
    = Ret (splice dest 0 ws) st.
Proof.
  intros Hu Hd.
  assert (Hw : wp (extract_registers be (received be q (f :: k :: words_bytes ws) rest) (zlen ws) dest)
    (fun r st' => st' = st /\ r = splice dest 0 ws) st).
  2: { by apply wp_inv in Hw as (r & st' & E & -> & ->). }
  eapply wp_mono; [apply (wp_for _ (fun i acc st' => st' = st /\ acc = splice dest 0 (take (Z.to_nat i) ws)))|].
  - split; [done|]. change (take (Z.to_nat 0) ws) with (@nil Z). by rewrite splice_nil.
  - intros i acc st' Hi (-> & ->). unfold zlen in *.
    destruct (lookup_lt_is_Some_2 ws (Z.to_nat i)) as [w Hx]; [lia|].
    destruct (words_bytes_lookup ws _ _ Hx) as [H1 H2].
    rewrite Z.shiftl_mul_pow2 by lia. change (2 ^ 1) with 2. rewrite <- !Z.add_assoc.
    apply wp_bind. eapply wp_eq.
    { apply rd_pdu; [lia|]. replace (Z.to_nat (2 + i * 2)) with (S (S (2 * Z.to_nat i))) by lia. exact H1. }
    apply wp_bind. eapply wp_eq.
    { apply rd_pdu; [lia|]. replace (Z.to_nat (3 + i * 2)) with (S (S (2 * Z.to_nat i + 1))) by lia. exact H2. }
    rewrite lor_be16 by apply lo8_range.
    assert (Hw16 : is_u16 w) by (by eapply Forall_lookup_1 in Hx). rewrite be16_split, u16_id by done.
    assert (Hz : zlen (take (Z.to_nat i) ws) = i) by (unfold zlen; rewrite length_take; lia).
    eapply wp_eq; [apply arr_set_eq; rewrite length_splice; unfold zlen in *; lia|].
    split; [done|]. replace (Z.to_nat (i + 1)) with (S (Z.to_nat i)) by lia.
    rewrite (take_S_r _ _ w) by done. rewrite <- splice_snoc by (rewrite ?Hz; unfold zlen; lia).
    by rewrite Hz.
  - intros acc st' (-> & ->). split; [done|]. rewrite take_ge; [done|unfold zlen; lia].
Qed.

(** One byte of coils, as far as the quantity asked for reaches. *)
Lemma unpack_byte_eq data nb dest i x (st : state W) :
  0 <= i -> 8 * i < nb -> nb <= zlen dest -> data !! Z.to_nat i = Some x ->
  unpack_byte x nb (splice dest 0 (unpack_bits (8 * i) data)) (8 * i) st
    = Ret (splice dest 0 (unpack_bits (Z.min (8 * i + 8) nb) data), Z.min (8 * i + 8) nb) st.
Proof.
  intros Hi Hlt Hd Hx. unfold unpack_byte.
  match goal with |- ?e st = Ret ?v st =>
    assert (Hw : wp e (fun r st' => st' = st /\ r = v) st); [|by apply wp_inv in Hw as (r & st' & E & -> & ->)] end.
  apply (wp_while _ (fun a st' => st' = st /\ exists k, 0 <= k <= 8 /\ 8 * i + k <= nb /\
      a = (Z.shiftl 1 k, splice dest 0 (unpack_bits (8 * i + k) data), 8 * i + k))
    (fun '(_, _, pos) _ => Z.to_nat (8 * i + 8 - pos))).
  - intros [[bit d] pos] st' (-> & k & Hk & Hle & [= -> -> ->]).
    rewrite mask_dead by done. destruct (Z.eqb_spec k 8) as [->|Hne]; cbn [negb andb].
    { apply wp_ret. split; [done|]. by rewrite Z.min_l by lia. }
    destruct (Z.ltb_spec (8 * i + k) nb) as [Hin|Hge].
    2: { apply wp_ret. split; [done|]. rewrite Z.min_r by lia. by replace (8 * i + k) with nb by lia. }
    assert (Hz : zlen (unpack_bits (8 * i + k) data) = 8 * i + k) by (apply zlen_unpack_bits; lia).
    apply wp_bind. eapply wp_eq.
    { apply arr_set_eq. rewrite length_splice by lia. lia. }
    apply wp_ret. split; [|lia]. split; [done|]. exists (k + 1). split; [lia|]. split; [lia|].
    rewrite Z.shiftl_shiftl, land_bit, Z.add_assoc by lia.
    assert (Hb : b2z (Z.testbit x k) = b2z (bit_at data (8 * i + k))).
    { unfold bit_at. replace ((8 * i + k) / 8) with i by zdiv. replace ((8 * i + k) mod 8) with k by zdiv.
      by rewrite (nth_lookup_Some _ _ 0 _ Hx). }
    do 2 f_equal. rewrite Hb. unfold unpack_bits at 2. rewrite seqZ_snoc, fmap_app by lia. cbn [fmap list_fmap].
    fold (unpack_bits (8 * i + k) data). rewrite Z.add_0_l, <- splice_snoc by lia. do 2 f_equal. lia.
  - split; [done|]. exists 0. rewrite Z.add_0_r. split_and!; (done || lia).
  - lia.
Qed.

(** All of them. *)
Lemma extract_bits_eq q f k data rest nb dest (st : state W) :
  zlen data = bytes_for nb -> 0 <= nb <= zlen dest ->
  for_loop (Z.to_nat (bytes_for nb)) (header_length be + 2) (fun i '(dest, pos) =>
      let* temp := rd (received be q (f :: k :: data) rest) i in unpack_byte temp nb dest pos) (dest, 0) st
    = Ret (splice dest 0 (unpack_bits nb data), nb) st.
Proof.
  intros Hd Hnb. rewrite bytes_for_div in * by lia.
  match goal with |- ?e st = Ret ?v st =>
    assert (Hw : wp e (fun r st' => st' = st /\ r = v) st); [|by apply wp_inv in Hw as (r & st' & E & -> & ->)] end.
  set (h := header_length be).
  eapply wp_mono; [apply (wp_for _ (fun j acc st' => st' = st /\
      acc = (splice dest 0 (unpack_bits (Z.min (8 * (j - (h + 2))) nb) data), Z.min (8 * (j - (h + 2))) nb)))|].
  - split; [done|]. rewrite Z.sub_diag, Z.min_l by lia. change (unpack_bits (8 * 0) data) with (@nil Z).
    by rewrite splice_nil.
  - intros j acc st' Hj (-> & ->).
    destruct (lookup_lt_is_Some_2 data (Z.to_nat (j - (h + 2)))) as [x Hx]; [unfold zlen in Hd; zdiv|].
    apply wp_bind. eapply wp_eq.
    { replace j with (h + (2 + (j - (h + 2)))) by lia. apply rd_pdu; [lia|].
      replace (Z.to_nat (2 + (j - (h + 2)))) with (S (S (Z.to_nat (j - (h + 2))))) by lia. exact Hx. }
    rewrite Z.min_l by zdiv. eapply wp_eq; [apply unpack_byte_eq; [lia|zdiv|lia|exact Hx]|].
    replace (8 * (j + 1 - (h + 2))) with (8 * (j - (h + 2)) + 8) by lia. done.
  - intros acc st' (-> & ->). split; [done|]. rewrite !Z.min_r by zdiv. done.
Qed.
End loops.
