(* ===== verification/Confirm.v ===== *)
(** Confirmations: which bytes the client accepts as the answer to its request.
    [judge] says it at the level of the protocol; [check_confirmation] is shown
    to decide it, for every backend. *)
From S2P Require Import Prelude Platform Data Backend Core Framing Receive Mapping Reply Spec Bits ReplyProofs Wire.
#[local] Open Scope Z_scope.

(** ** The protocol's view of an answer *)
Inductive verdict :=
  | Accepted (count : Z)     (** the number of values the answer carries *)
  | Refused (e : Z)          (** an exception, as the value of [errno] *)
  | Nonsense.

(** The values announced by the data [data] of a normal answer to [r]. *)
Definition answered (r : request) (data : list Z) : option Z :=
  match r, data with
  | ReadBits _ _ n, k :: _ => if k =? bytes_for n then Some k else None
  | (ReadRegisters _ _ n | WriteRead _ n _ _ _), k :: _ => if k =? 2 * n then Some n else None
  | (WriteCoils _ n _ | WriteRegisters _ n _), [_; _; h; l] =>
      if be16 h l =? n then Some n else None
  | (WriteCoil _ _ | WriteRegister _ _ | MaskWrite _ _ _), _ => Some 1
  | ReportSlaveId, k :: _ => Some k
  | _, _ => None
  end.

Definition judge (r : request) (pdu : list Z) : verdict :=
  match pdu with
  | f :: data =>
      if 128 <=? f then
        match data with
        | [code] => Refused (if (f =? function_code r + 128) && (code <? MODBUS_EXCEPTION_MAX)
                             then MODBUS_ENOBASE + code else EMBBADEXC)
        | _ => Refused EMBBADEXC
        end
      else if f =? function_code r then
        match answered r data with Some n => Accepted n | None => Nonsense end
      else Nonsense
  | [] => Nonsense
  end.

(** The values a normal answer to [r] carries. *)
Definition count (r : request) : Z :=
  match r with
  | ReadBits _ _ n => bytes_for n
  | ReadRegisters _ _ n | WriteRead _ n _ _ _ | WriteCoils _ n _ | WriteRegisters _ n _ => n
  | WriteCoil _ _ | WriteRegister _ _ | MaskWrite _ _ _ => 1
  | ReportSlaveId => 24
  end.

#[export] Instance request_eq_dec : EqDecision request.
Proof. unfold EqDecision, Decision. decide equality; apply decide; apply _. Defined.

(** ** What a backend promises to the client *)
Class Requests {W} `{OS W} {BC : BuildConfig} (be : modbus_backend_t W) {FR : Framing be} := {
  usable : modbus_t -> Prop;
  (** the slave and transaction of the next request, the context after it *)
  next_sft : modbus_t -> sft_t;
  after_request : modbus_t -> modbus_t;
  (** why the backend rejects an answer framed for [p] to a request framed for [q] *)
  mismatch : sft_t -> sft_t -> option Z;
  request_basis_eq : forall c f a n b, usable c -> header_length be + 5 <= zlen b ->
    exists h r, hdr (next_sft c) h /\
      zlen (h ++ (Some <$> (u8 f :: word_bytes a ++ word_bytes n)) ++ r) = zlen b /\
      forall st, ctx st = c -> build_request_basis be f a n b st
        = Ret (header_length be + 5, h ++ (Some <$> (u8 f :: word_bytes a ++ word_bytes n)) ++ r)
            (State (errno st) (hp st) (after_request c) (world st));
  pre_check_eq : forall q qs r1 p ps r2 n st,
    match pre_check_confirmation be with
    | Some f => f (received be q qs r1) (received be p ps r2) n
    | None => ret 0
    end st = match mismatch q p with None => Ret 0 st | Some e => err e st end;
  mismatch_refl : forall q, mismatch q q = None
}.

Lemma function_code_range r : 1 <= function_code r <= 23.
Proof. destruct r as [[]|[]| | | | | | |]; cbn; lia. Qed.

(** The length of a normal answer to [r], where the request determines it. *)
Definition answer_length (r : request) : Z :=
  match r with
  | ReadBits _ _ n => 2 + bytes_for n
  | ReadRegisters _ _ n | WriteRead _ n _ _ _ => 2 + 2 * n
  | MaskWrite _ _ _ => 7
  | _ => 5
  end.

Lemma i32_u32 x : -2147483648 <= x < 2147483648 -> i32 (u32 x) = x.
Proof. unfold i32, u32. intros. zdiv. Qed.

Section confirm.
Context {W : Type} `{OS W} {FU : Fuel} {BC : BuildConfig}.
Context (be : modbus_backend_t W) {FR : Framing be}.
Context (q : sft_t) (r1 : buf) (r : request) (Hr : wf_request r).
#[local] Notation req := (received be q (encode_request r) r1).

Lemma rd_function p f data rest (st : state W) :
  rd (received be p (f :: data) rest) (header_length be) st = Ret f st.
Proof. rewrite <- (Z.add_0_r (header_length be)). by apply rd_pdu. Qed.

Lemma rd_request_function (st : state W) : rd req (header_length be) st = Ret (function_code r) st.
Proof. apply rd_function. Qed.

(** The quantity field of the requests that have one. *)
Definition quantity (n : Z) : Prop :=
  match r with
  | ReadBits _ _ m | ReadRegisters _ _ m | WriteRead _ m _ _ _ | WriteCoils _ m _
  | WriteRegisters _ m _ => n = m
  | _ => False
  end.
Lemma rd_quantity n (st : state W) : quantity n ->
  is_u16 n /\ rd req (header_length be + 3) st = Ret (hi8 n) st /\
  rd req (header_length be + 4) st = Ret (lo8 n) st.
Proof.
  unfold quantity. destruct r as [[] ? ?|[] ? ?|? ?|? ?|? ? ?|? ? ?| |? ? ?|? ? ? ? ?];
    intros Hq; try done; subst n; cbn [wf_request] in Hr;
    (split; [tauto|]); split; apply rd_pdu; done || lia.
Qed.

Lemma response_length_eq (st : state W) :
  compute_response_length_from_request be req st
    = Ret (match r with
           | ReportSlaveId => u32 MSG_LENGTH_UNDEFINED
           | _ => u32 (header_length be + answer_length r + checksum_length be)
           end) st.
Proof.
  unfold compute_response_length_from_request. erewrite bind_ret_eq by apply rd_request_function.
  cbv zeta. pose proof (fun n => rd_quantity n st) as Hq. unfold quantity in Hq.
  assert (Hl : forall n, is_u16 n -> Z.lor (Z.shiftl (hi8 n) 8) (lo8 n) = n).
  { intros n Hn. rewrite lor_be16 by apply lo8_range. by apply be16_split. }
  destruct r as [[] ? n|[] ? n|? ?|? ?|? n ?|? n ?| |? ? ?|? n ? ? ?]; cbn [function_code]; cbn; try done.
  all: destruct (Hq n eq_refl) as (Hn & E1 & E2).
  all: erewrite bind_ret_eq by exact E1; erewrite bind_ret_eq by exact E2.
  all: rewrite !Hl by done; unfold ret; do 2 f_equal; cbn [answer_length]; unfold bytes_for; lia.
Qed.

(** What a complete confirmation announces about itself. *)
Lemma complete_data p f data : Forall is_u8 (f :: data) ->
  complete be MSG_CONFIRMATION (adu p (f :: data)) ->
  zlen data = compute_meta_length_after_function f MSG_CONFIRMATION
    + (if (f <=? 4) || (f =? 17) || (f =? 23) then nth 0 data 0 else 0).
Proof.
  intros Hu Hc. pose proof (complete_length _ _ _ Hc) as Hl.
  pose proof (announced_nonneg be MSG_CONFIRMATION _ Hc) as Hn.
  rewrite adu_length, zlen_cons in Hl. unfold meta_end in Hl.
  rewrite announced_confirmation in Hl, Hn. rewrite adu_function_byte in Hl.
  destruct (_ || _) eqn:E; [|lia].
  destruct data as [|k l].
  - exfalso. change (zlen (@nil Z)) with 0 in Hl.
    unfold compute_meta_length_after_function, MODBUS_FC_WRITE_SINGLE_COIL, MODBUS_FC_WRITE_SINGLE_REGISTER,
      MODBUS_FC_WRITE_MULTIPLE_COILS, MODBUS_FC_WRITE_MULTIPLE_REGISTERS, MODBUS_FC_MASK_WRITE_REGISTER in Hl.
    replace ((f =? 5) || (f =? 6) || (f =? 15) || (f =? 16)) with false in Hl by lia.
    replace (f =? 22) with false in Hl by lia. change (u8 1) with 1 in Hl. lia.
  - rewrite adu_nth in Hl; [cbn [nth]; change (nth (Z.to_nat 1) (f :: k :: l) 0) with k in Hl; lia|].
    rewrite !zlen_cons. pose proof (zlen_nonneg l). lia.
Qed.

(** A complete answer to [r] that is too long or too short is no answer. *)
Lemma answered_length p data n : Forall is_u8 (function_code r :: data) ->
  complete be MSG_CONFIRMATION (adu p (function_code r :: data)) ->
  answered r data = Some n -> r = ReportSlaveId \/ zlen (function_code r :: data) = answer_length r.
Proof.
  intros Hu Hc Ha. apply (complete_data p _ _ Hu) in Hc. rewrite zlen_cons.
  destruct r as [[] ? m|[] ? m|? ?|? ?|? m ?|? m ?| |? ? ?|? m ? ? ?]; cbn [function_code answer_length] in *;
    try (by left); right; rewrite Hc; clear Hc; try done.
  all: destruct data as [|k l]; [done|]; cbn [answered nth] in *; revert Ha.
  all: destruct (k =? _) eqn:E; [|done]; apply Z.eqb_eq in E; subst k; intros _.
  all: change (compute_meta_length_after_function _ _) with 1; cbn [Z.leb Z.eqb orb Z.compare Pos.compare Pos.compare_cont Pos.eqb]; lia.
Qed.

(** The data of a complete confirmation that starts with a byte count. *)
Lemma counted_data p f data : Forall is_u8 (f :: data) -> f = 17 \/ f = 23 \/ 1 <= f <= 4 ->
  complete be MSG_CONFIRMATION (adu p (f :: data)) -> exists l, data = zlen l :: l.
Proof.
  intros Hu Hf Hc. apply (complete_data p _ _ Hu) in Hc.
  unfold compute_meta_length_after_function, MODBUS_FC_WRITE_SINGLE_COIL, MODBUS_FC_WRITE_SINGLE_REGISTER,
    MODBUS_FC_WRITE_MULTIPLE_COILS, MODBUS_FC_WRITE_MULTIPLE_REGISTERS, MODBUS_FC_MASK_WRITE_REGISTER in Hc.
  replace ((f =? 5) || (f =? 6) || (f =? 15) || (f =? 16)) with false in Hc by lia.
  replace (f =? 22) with false in Hc by lia. change (u8 1) with 1 in Hc.
  replace ((f <=? 4) || (f =? 17) || (f =? 23)) with true in Hc by lia.
  destruct data as [|k l]; [by rewrite zlen_nil in Hc|]. exists l. rewrite zlen_cons in Hc. cbn [nth] in Hc.
  f_equal. lia.
Qed.

Lemma zlen_4 (l : list Z) : zlen l = 4 -> exists a b c d, l = [a; b; c; d].
Proof.
  unfold zlen. intros Hl. destruct l as [|a [|b [|c [|d [|? ?]]]]]; cbn [length] in Hl; try lia. eauto.
Qed.

Lemma confirmation_values_eq p data r2 (st : state W) : Forall is_u8 (function_code r :: data) ->
  complete be MSG_CONFIRMATION (adu p (function_code r :: data)) ->
  r = ReportSlaveId \/ zlen (function_code r :: data) = answer_length r ->
  exists a b, confirmation_values be (function_code r) req (received be p (function_code r :: data) r2) st
      = Ret (a, b) st /\ answered r data = if a =? b then Some b else None.
Proof.
  intros Hu Hc Hlen. rewrite zlen_cons in Hlen.
  pose proof (fun n => rd_quantity n st) as Hq. unfold quantity in Hq. unfold confirmation_values. cbv zeta.
  pose proof (fun f => counted_data p f data) as Hk.
  destruct r as [[] ? n|[] ? n|? ?|? ?|? n ?|? n ?| |? ? ?|? n ? ? ?];
    cbn [function_code answer_length] in *; cbn -[received];
    try (destruct (Hq n eq_refl) as (Hn & E1 & E2);
         erewrite bind_ret_eq by exact E1; erewrite bind_ret_eq by exact E2; rewrite be16_split by done);
    try (do 2 eexists; split; [reflexivity|done]).
  5-6: destruct Hlen as [|Hlen]; [done|]; destruct (zlen_4 data) as (x & y & h & l & ->); [lia|];
    erewrite bind_ret_eq by (by apply rd_pdu); erewrite bind_ret_eq by (by apply rd_pdu);
    rewrite lor_be16 by (by do 4 (apply Forall_cons in Hu as [_ Hu]); apply Forall_cons in Hu as [? _]).
  5-6: exists n, (be16 h l); split; [done|]; rewrite Z.eqb_sym; by destruct (Z.eqb_spec n (be16 h l)) as [->|].
  all: edestruct Hk as [l ->]; [exact Hu|lia|exact Hc|]; erewrite bind_ret_eq by (by apply rd_pdu).
  all: do 2 eexists; split; [reflexivity|].
  1-2: by rewrite Z.eqb_sym.
  3: by rewrite Z.eqb_refl.
  all: destruct Hlen as [|Hlen]; [done|]; rewrite zlen_cons in Hlen.
  all: assert (El : zlen l = n * 2) by lia; rewrite El, Z.quot_mul by lia.
  all: by rewrite Z.eqb_refl, (proj2 (Z.eqb_eq _ _)) by lia.
Qed.

Context {RQ : Requests be}.

(** What the code does with a verdict. *)
Definition act_on (v : verdict) : P W Z :=
  match v with
  | Accepted n => ret n
  | Refused e => err e
  | Nonsense => protocol_recovery be ;;; err EMBBADDATA
  end.
Definition reject (e : Z) : P W Z := let* _ := err e in protocol_recovery be ;;; ret (-1).

Lemma quantity_u16 n : quantity n -> is_u16 n.
Proof. unfold quantity. destruct r; cbn [wf_request] in Hr; intros Hq; try done; subst n; tauto. Qed.

Lemma answer_length_range : 2 <= answer_length r <= 200000.
Proof.
  pose proof quantity_u16 as Hn. unfold quantity, is_u16 in Hn.
  destruct r as [? ? n|? ? n| | | | | | |? n ? ? ?]; cbn [answer_length]; try lia.
  all: specialize (Hn n eq_refl); rewrite ?bytes_for_div by lia; zdiv.
Qed.

(** The comparison of the received with the computed length. *)
Lemma length_agrees p f data c : (exists st : state W,
    compute_response_length_from_request be req st = Ret c st) ->
  ((zlen (adu p (f :: data)) =? i32 c) || (i32 c =? MSG_LENGTH_UNDEFINED)) = true <->
  r = ReportSlaveId \/ zlen (f :: data) = answer_length r.
Proof.
  intros [st E]. rewrite response_length_eq in E. injection E as <-.
  pose proof answer_length_range as Ha. pose proof (header_bounds (be := be)) as Hh.
  pose proof (checksum_bounds (be := be)) as Hc. pose proof (zlen_nonneg (f :: data)).
  rewrite adu_length. destruct (decide (r = ReportSlaveId)) as [->|Hne].
  - split; [by left|]. intros _. apply orb_true_iff. by right.
  - replace (match r with ReportSlaveId => _ | _ => _ end)
      with (u32 (header_length be + answer_length r + checksum_length be)) by (by destruct r).
    rewrite i32_u32 by lia. unfold MSG_LENGTH_UNDEFINED. split; [|intros [?|?]; [done|]; lia].
    intros Hz. right. lia.
Qed.

(** [check_confirmation] decides by [judge]. *)
Lemma check_confirmation_eq p f data r2 (st : state W) : Forall is_u8 (f :: data) ->
  complete be MSG_CONFIRMATION (adu p (f :: data)) ->
  check_confirmation be req (received be p (f :: data) r2) (zlen (adu p (f :: data))) st
    = match mismatch q p with
      | Some e => reject e st
      | None => act_on (judge r (f :: data)) st
      end.
Proof.
  intros Hu Hc. unfold check_confirmation. cbv zeta.
  erewrite bind_ret_eq by apply rd_function.
  set (rc := zlen (adu p (f :: data))).
  destruct (mismatch q p) as [e|] eqn:Em.
  - erewrite bind_ret_eq by (etransitivity; [apply pre_check_eq|rewrite Em; reflexivity]). done.
  - erewrite bind_ret_eq by (etransitivity; [apply pre_check_eq|rewrite Em; reflexivity]). cbn [Z.eqb Pos.eqb].
    destruct (ltac:(eexists; apply response_length_eq) : exists c,
      compute_response_length_from_request be req st = Ret c st) as [c Ec].
    erewrite bind_ret_eq by exact Ec.
    pose proof (length_agrees p f data c (ex_intro _ st Ec)) as Hlen. fold rc in Hlen.
    pose proof (complete_data p _ _ Hu Hc) as Hd.
    unfold judge. destruct (Z.leb_spec 128 f) as [Hf|Hf].
    + erewrite bind_ret_eq by apply rd_request_function.
      assert (Hm : compute_meta_length_after_function f MSG_CONFIRMATION = 1).
      { unfold compute_meta_length_after_function, MODBUS_FC_WRITE_SINGLE_COIL, MODBUS_FC_WRITE_SINGLE_REGISTER,
          MODBUS_FC_WRITE_MULTIPLE_COILS, MODBUS_FC_WRITE_MULTIPLE_REGISTERS, MODBUS_FC_MASK_WRITE_REGISTER.
        replace ((f =? 5) || (f =? 6) || (f =? 15) || (f =? 16)) with false by lia.
        by replace (f =? 22) with false by lia. }
      replace ((f <=? 4) || (f =? 17) || (f =? 23)) with false in Hd by lia.
      destruct data as [|code [|? ?]]; rewrite ?zlen_cons in Hd;
        [change (zlen (@nil Z)) with 0 in Hd; lia| |pose proof (zlen_nonneg l); lia].
      unfold rc. rewrite adu_length, !zlen_cons. change (zlen (@nil Z)) with 0.
      rewrite (proj2 (Z.eqb_eq _ _)) by lia. cbn [andb].
      replace (function_code r =? f - 128) with (f =? function_code r + 128) by lia.
      destruct (f =? function_code r + 128); cbn [andb]; [|done].
      erewrite bind_ret_eq by (by apply rd_pdu). by destruct (code <? MODBUS_EXCEPTION_MAX).
    + rewrite (proj2 (Z.ltb_lt f 128)), andb_true_r by done.
      destruct ((rc =? i32 c) || (i32 c =? MSG_LENGTH_UNDEFINED)) eqn:El.
      * erewrite bind_ret_eq by apply rd_request_function.
        destruct (Z.eqb_spec f (function_code r)) as [->|]; cbn [negb]; [|done].
        destruct (confirmation_values_eq p data r2 st Hu Hc (proj1 Hlen eq_refl)) as (a & b & E & ->).
        erewrite bind_ret_eq by exact E. cbn beta iota. by destruct (a =? b).
      * destruct (Z.eqb_spec f (function_code r)) as [->|]; [|done].
        destruct (answered r data) as [n|] eqn:Ea; [|done].
        by apply (answered_length p data n Hu Hc), Hlen in Ea.
Qed.
End confirm.
