(* ===== verification/Config.v ===== *)
(** modbus.c, modbus-rtu.c and modbus-tcp.c: creating, configuring and releasing
    a context, the error messages, and the bounded string copy the
    constructors use. *)
From S2P Require Import Prelude Platform Backend Rtu Tcp Core.
From stdpp Require Import strings.
#[local] Open Scope Z_scope.

Definition modbus_strerror (errnum : Z) : string :=
  if errnum =? EMBXILFUN then "Illegal function"
  else if errnum =? EMBXILADD then "Illegal data address"
  else if errnum =? EMBXILVAL then "Illegal data value"
  else if errnum =? EMBXSFAIL then "Slave device or server failure"
  else if errnum =? EMBXACK then "Acknowledge"
  else if errnum =? EMBXSBUSY then "Slave device or server is busy"
  else if errnum =? EMBXNACK then "Negative acknowledge"
  else if errnum =? EMBXMEMPAR then "Memory parity error"
  else if errnum =? EMBXGPATH then "Gateway path unavailable"
  else if errnum =? EMBXGTAR then "Target device failed to respond"
  else if errnum =? EMBBADCRC then "Invalid CRC"
  else if errnum =? EMBBADDATA then "Invalid data"
  else if errnum =? EMBBADEXC then "Invalid exception code"
  else if errnum =? EMBMDATA then "Too many data"
  else if errnum =? EMBBADSLAVE then "Response not from requested slave"
  else "Response not from requested slave".

(** ** strlcpy

    [d], [s] are the indices of the C pointers, [n] the remaining room. Both
    loops end after at most as many turns as the array they walk has cells. *)
Section strlcpy.
Context {S : Type}.

Definition strlcpy_copy (dest src : buf) (n : Z) : M S (buf * Z * Z * Z) :=
  while_loop (Z.to_nat n) (fun '(dest, d, s, n) =>
    let* c := rd src s in
    let* dest := wr dest d c in
    if c =? 0 then ret (inr (dest, d + 1, s + 1, n))
    else
      let n := n - 1 in
      if negb (n =? 0) then ret (inl (dest, d + 1, s + 1, n))
      else ret (inr (dest, d + 1, s + 1, n))) (dest, 0, 0, n).

(** [while ( *s++ ) ;] *)
Definition strlcpy_skip (src : buf) (s : Z) : M S Z :=
  while_loop (Datatypes.S (length src)) (fun s =>
    let* c := rd src s in
    if c =? 0 then ret (inr (s + 1)) else ret (inl (s + 1))) s.

Definition strlcpy (dest src : buf) (dest_size : Z) : M S (Z * buf) :=
  let n := dest_size in
  let n := if negb (n =? 0) then n - 1 else n in
  let* (dest, d, s, n) :=
    (if negb (dest_size =? 0) && negb (n =? 0) then strlcpy_copy dest src n
     else ret (dest, 0, 0, n)) in
  let* (dest, s) :=
    (if n =? 0 then
       let* dest := (if negb (dest_size =? 0) then wr dest d 0 else ret dest) in
       let* s := strlcpy_skip src s in ret (dest, s)
     else ret (dest, s)) in
  ret (s - 1, dest).
End strlcpy.

Definition sizeof_modbus : Z := 48.
Definition sizeof_rtu : Z := 600.
Definition sizeof_tcp : Z := 24.
Definition sizeof_tcp_pi : Z := 1068.
Definition _MODBUS_TCP_PI_NODE_LENGTH : Z := 1025.
Definition _MODBUS_TCP_PI_SERVICE_LENGTH : Z := 32.

(** The members [_modbus_init_common] writes. *)
Definition _modbus_init_common (c : modbus_t) : modbus_t :=
  {| slave := -1; s := -1; debug := 0; error_recovery := MODBUS_ERROR_RECOVERY_NONE;
     response_timeout := {| tv_sec := 0; tv_usec := _RESPONSE_TIMEOUT |};
     byte_timeout := {| tv_sec := 0; tv_usec := _BYTE_TIMEOUT |};
     backend := backend c; backend_data := backend_data c;
     ctx_blk := ctx_blk c; data_blk := data_blk c |}.

Section config.
Context {W : Type} `{OS W} {FU : Fuel} {BC : BuildConfig}.

(** [p = malloc(n)] used without a test for [NULL]. *)
Definition malloc_unchecked (size : Z) : P W positive :=
  let* p := malloc size in
  match p with Some b => ret b | None => fail NullDeref end.

(** [malloc] of the context and of its backend data: [_modbus_init_common] and
    the assignments of [backend] and [backend_data]. *)
Definition alloc_ctx (sz : Z) (bk : backend_id) (data : backend_data_t) : P W unit :=
  let* cb := malloc_unchecked sizeof_modbus in
  let* db := malloc_unchecked sz in
  set_ctx (_modbus_init_common
    {| slave := 0; s := 0; debug := 0; error_recovery := 0;
       response_timeout := {| tv_sec := 0; tv_usec := 0 |};
       byte_timeout := {| tv_sec := 0; tv_usec := 0 |};
       backend := bk; backend_data := data; ctx_blk := cb; data_blk := db |}).

Definition modbus_free (p : ctx_ptr) : P W unit :=
  match p with NULL => ret tt | CTX => let* be := get_backend in be_free be end.

(** [modbus_free(ctx); errno = EINVAL; return NULL;] *)
Definition abandon_ctx : P W ctx_ptr :=
  modbus_free CTX ;;; set_errno EINVAL ;;; ret NULL.

Definition modbus_new_tcp (ip : option buf) (port : Z) : P W ctx_ptr :=
  let d := {| tcp_t_id := 0; tcp_port := port; tcp_ip := uninit 16 |} in
  alloc_ctx sizeof_tcp TCP_BACKEND (TcpData d) ;;;
  upd_ctx (with_slave MODBUS_TCP_SLAVE) ;;;
  let finish ip := upd_ctx (with_backend_data
      (TcpData {| tcp_t_id := 0; tcp_port := port; tcp_ip := ip |})) ;;; ret CTX in
  match ip with
  | Some ip =>
      let dest_size := 16 in
      let* (ret_size, dest) := strlcpy (uninit 16) ip dest_size in
      if ret_size =? 0 then abandon_ctx
      else if dest_size <=? ret_size then abandon_ctx
      else finish dest
  | None => let* dest := wr (uninit 16) 0 48 in finish dest
  end.

Definition modbus_new_tcp_pi (node service : option buf) : P W ctx_ptr :=
  let d := {| pi_t_id := 0; pi_node := uninit _MODBUS_TCP_PI_NODE_LENGTH;
              pi_service := uninit _MODBUS_TCP_PI_SERVICE_LENGTH |} in
  alloc_ctx sizeof_tcp_pi TCP_PI_BACKEND (TcpPiData d) ;;;
  upd_ctx (with_slave MODBUS_TCP_SLAVE) ;;;
  let* node :=
    match node with
    | None => let* dest := wr (pi_node d) 0 0 in ret (Some dest)
    | Some node =>
        let dest_size := _MODBUS_TCP_PI_NODE_LENGTH in
        let* (ret_size, dest) := strlcpy (pi_node d) node dest_size in
        if (ret_size =? 0) || (dest_size <=? ret_size) then ret None else ret (Some dest)
    end in
  match node with
  | None => abandon_ctx
  | Some node =>
      match service with
      | None => abandon_ctx
      | Some service =>
          let dest_size := _MODBUS_TCP_PI_SERVICE_LENGTH in
          let* (ret_size, dest) := strlcpy (pi_service d) service dest_size in
          if ret_size =? 0 then abandon_ctx
          else if dest_size <=? ret_size then abandon_ctx
          else
            upd_ctx (with_backend_data
              (TcpPiData {| pi_t_id := 0; pi_node := node; pi_service := dest |})) ;;;
            ret CTX
      end
  end.

(** [data_bit] and [stop_bit] are stored in a [uint8_t]; 'N' = 78, 'E' = 69, 'O' = 79. *)
Definition modbus_new_rtu (device : option (list Z)) (baud parity data_bit stop_bit : Z)
    : P W ctx_ptr :=
  match device with
  | None | Some [] => set_errno EINVAL ;;; ret NULL
  | Some device =>
      if baud =? 0 then set_errno EINVAL ;;; ret NULL
      else
        let rtu blk := RtuData {|
          device := device; device_blk := blk; baud := baud;
          data_bit := u8 data_bit; stop_bit := u8 stop_bit; parity := parity;
          w_ser := None; old_dcb := None; confirmation_to_ignore := false |} in
        alloc_ctx sizeof_rtu RTU_BACKEND (rtu 1%positive) ;;;
        let* blk := malloc_unchecked (zlen device + 1) in
        upd_ctx (with_backend_data (rtu blk)) ;;;
        if (parity =? 78) || (parity =? 69) || (parity =? 79) then ret CTX
        else abandon_ctx
  end.

(** ** Setters and getters *)
Definition modbus_set_slave (p : ctx_ptr) (sl : Z) : P W Z :=
  match p with NULL => err EINVAL | CTX => let* be := get_backend in set_slave be sl end.

Definition modbus_set_error_recovery (p : ctx_ptr) (mode : Z) : P W Z :=
  match p with
  | NULL => err EINVAL
  | CTX => upd_ctx (with_error_recovery (u8 mode)) ;;; ret 0
  end.

Definition modbus_set_socket (p : ctx_ptr) (so : Z) : P W Z :=
  match p with NULL => err EINVAL | CTX => upd_ctx (with_s so) ;;; ret 0 end.

Definition modbus_get_socket (p : ctx_ptr) : P W Z :=
  match p with NULL => err EINVAL | CTX => let* c := get_ctx in ret (s c) end.

(** The out parameters are returned beside the result; the members of
    [struct timeval] are 32-bit [long]s. *)
Definition modbus_get_response_timeout (p : ctx_ptr) : P W (Z * option (Z * Z)) :=
  match p with
  | NULL => let* rc := err EINVAL in ret (rc, None)
  | CTX =>
      let* c := get_ctx in
      let tv := response_timeout c in ret (0, Some (u32 (tv_sec tv), u32 (tv_usec tv)))
  end.

Definition modbus_set_response_timeout (p : ctx_ptr) (to_sec to_usec : Z) : P W Z :=
  match p with
  | NULL => err EINVAL
  | CTX =>
      if ((to_sec =? 0) && (to_usec =? 0)) || (999999 <? to_usec) then err EINVAL
      else
        upd_ctx (with_response_timeout {| tv_sec := i32 to_sec; tv_usec := i32 to_usec |}) ;;;
        ret 0
  end.

Definition modbus_get_byte_timeout (p : ctx_ptr) : P W (Z * option (Z * Z)) :=
  match p with
  | NULL => let* rc := err EINVAL in ret (rc, None)
  | CTX =>
      let* c := get_ctx in
      let tv := byte_timeout c in ret (0, Some (u32 (tv_sec tv), u32 (tv_usec tv)))
  end.

Definition modbus_set_byte_timeout (p : ctx_ptr) (to_sec to_usec : Z) : P W Z :=
  match p with
  | NULL => err EINVAL
  | CTX =>
      if 999999 <? to_usec then err EINVAL
      else
        upd_ctx (with_byte_timeout {| tv_sec := i32 to_sec; tv_usec := i32 to_usec |}) ;;;
        ret 0
  end.

Definition modbus_get_header_length (p : ctx_ptr) : P W Z :=
  match p with NULL => err EINVAL | CTX => let* be := get_backend in ret (header_length be) end.

Definition modbus_connect (p : ctx_ptr) : P W Z :=
  match p with NULL => err EINVAL | CTX => let* be := get_backend in be_connect be end.

Definition modbus_close (p : ctx_ptr) : P W unit :=
  match p with NULL => ret tt | CTX => let* be := get_backend in be_close be end.

Definition modbus_set_debug (p : ctx_ptr) (flag : Z) : P W Z :=
  match p with NULL => err EINVAL | CTX => upd_ctx (with_debug flag) ;;; ret 0 end.
End config.
