(* ===== verification/ModbusCom.v ===== *)
(** ModbusCom.cpp: the class through which the project drives its relay board
    with the library. *)
From S2P Require Import Prelude Platform Backend Core Client Config.
#[local] Open Scope Z_scope.

Record modbus_com := { _ctx : ctx_ptr; m_bConnect : bool }.

Section modbus_com.
Context {W : Type} `{OS W} {FU : Fuel} {BC : BuildConfig}.

Definition ModbusCom_new : modbus_com := {| _ctx := NULL; m_bConnect := false |}.

Definition Close (o : modbus_com) : P W (Z * modbus_com) :=
  match _ctx o with
  | NULL => ret (0, o)
  | CTX => modbus_close CTX ;;; modbus_free CTX ;;;
           ret (0, {| _ctx := NULL; m_bConnect := m_bConnect o |})
  end.

Definition Connect (o : modbus_com) (ip : buf) (port nSlaveID : Z) : P W (Z * modbus_com) :=
  let* (_, o) := Close o in
  let* p := modbus_new_tcp (Some ip) port in
  let* _ := modbus_set_slave p nSlaveID in
  let* _ := modbus_set_debug p 1 in
  let* rc := modbus_connect p in
  if rc =? -1 then
    modbus_free p ;;; ret (-1, {| _ctx := NULL; m_bConnect := m_bConnect o |})
  else ret (0, {| _ctx := p; m_bConnect := true |}).

Definition Open (o : modbus_com) (iCol : Z) : P W Z := modbus_write_bit (_ctx o) iCol 255.
Definition Close_col (o : modbus_com) (iCol : Z) : P W Z := modbus_write_bit (_ctx o) iCol 0.

(** [new uint8_t[num]], which throws for a negative length or when there is no
    memory, and is never deleted; the quantity written is always 4. *)
Definition CloseAllCol (o : modbus_com) (num : Z) : P W Z :=
  let* p := (if num <? 0 then ret None else malloc num) in
  match p with
  | None => fail BadAlloc
  | Some _ => modbus_write_bits (_ctx o) 0 4 (replicate (Z.to_nat num) 0)
  end.
End modbus_com.
