(* ===== verification/Loopback.v ===== *)
(** Concrete platforms on which the definitions run: a byte pipe, and a network
    whose far end is a server running [modbus_receive] and [modbus_reply] of
    this library. Both hand received bytes over in pieces of at most a given
    size. They instantiate the platform interface for the witnesses and for the
    end-to-end theorems. *)
From S2P Require Import Prelude Platform Backend Rtu Tcp Core Receive Mapping Reply.
#[local] Open Scope Z_scope.

#[export] Instance test_fuel : Fuel := 1000%nat.
#[export] Instance test_fuel_enough : EnoughFuel.
Proof. unfold EnoughFuel, fuel, test_fuel. lia. Qed.
#[export] Instance release_build : BuildConfig := true.

Definition blank_dcb : DCB :=
  {| BaudRate := 9600; ByteSize := 8; StopBits := 0; Parity := 0; fParity := false;
     fTXContinueOnXoff := false; fOutX := false; fInX := false; fBinary := true;
     fAbortOnError := false; dcb_other := [] |}.

(** A platform made of a source and a sink of bytes. Nothing is ever refused:
    sockets, ports and memory are available, a connection succeeds at once, an
    empty source makes [select] time out. *)
Definition transport_os {W} (take_bytes : W -> Z -> W * list Z) (readable : W -> bool)
    (give : W -> list Z -> W) : OS W := {|
  os_wsastartup w := (w, None, 0);
  os_wsa_last_error _ := 0;
  os_socket w _ _ _ := (w, None, 3);
  os_setsockopt w _ _ _ _ := (w, None, 0);
  os_fionbio w _ := (w, None, 0);
  os_connect w _ _ := (w, None, 0);
  os_select_read w _ _ := (w, None, if readable w then 1 else 0);
  os_select_write w _ _ := (w, None, 1);
  os_so_error w _ := (w, None, (0, 0));
  os_send w _ l := (give w l, None, zlen l);
  os_recv w _ n := let '(w', l) := take_bytes w n in (w', None, (zlen l, l));
  os_shutdown w _ _ := (w, None, 0);
  os_closesocket w _ := (w, None, 0);
  os_bind w _ _ := (w, None, 0);
  os_listen w _ _ := (w, None, 0);
  os_accept w _ := (w, None, 4);
  os_inet_addr _ := 0;
  os_getaddrinfo w _ _ _ := (w, None, (0, []));
  os_create_file w _ := (w, None, 5);
  os_get_comm_state w _ := (w, None, Some blank_dcb);
  os_set_comm_state w _ _ := (w, None, true);
  os_set_comm_timeouts w _ _ := (w, None, true);
  os_read_file w _ n := let '(w', l) := take_bytes w n in (w', None, Some l);
  os_write_file w _ l := (give w l, None, Some (zlen l));
  os_purge_comm w _ := (w, None, true);
  os_close_handle w _ := (w, None, true);
  os_sleep w _ := (w, None, tt);
  os_malloc_succeeds w _ := (w, None, true)
|}.

(** ** The pipe *)
Record pipe := { rx : list Z; tx : list Z; chunk : Z }.

Definition pipe_take (w : pipe) (n : Z) : pipe * list Z :=
  let k := Z.to_nat (Z.min n (Z.max 1 (chunk w))) in
  ({| rx := drop k (rx w); tx := tx w; chunk := chunk w |}, u8 <$> take k (rx w)).

#[export] Instance pipe_os : OS pipe :=
  transport_os pipe_take (fun w => match rx w with [] => false | _ => true end)
    (fun w l => {| rx := rx w; tx := tx w ++ l; chunk := chunk w |}).

(** Taking bytes off a queue [q], at most [n] and at most [c] at once. *)
Lemma take_some (q : list Z) n c : (u8 <$> q) <> [] -> 1 <= n ->
  let k := Z.to_nat (Z.min n (Z.max 1 c)) in
  exists j : nat, u8 <$> take k q = take j (u8 <$> q) /\ u8 <$> drop k q = drop j (u8 <$> q) /\
    zlen (take j (u8 <$> q)) = Z.of_nat j /\
    (1 <= j)%nat /\ Z.of_nat j <= n /\ (j <= length (u8 <$> q))%nat.
Proof.
  intros Hq Hn k. exists (Nat.min k (length q)).
  assert (0 < length q)%nat by (destruct q; [done|cbn; lia]).
  unfold zlen. rewrite length_fmap. rewrite length_take, length_fmap.
  assert (E : u8 <$> take k q = take (Nat.min k (length q)) (u8 <$> q) /\
              u8 <$> drop k q = drop (Nat.min k (length q)) (u8 <$> q)).
  { rewrite fmap_take, fmap_drop. destruct (Nat.min_spec k (length q)) as [[_ ->]|[Hle ->]]; [done|].
    by rewrite !take_ge, !drop_ge by (rewrite ?length_fmap; lia). }
  destruct E as [-> ->]. split_and!; try done; lia.
Qed.

#[export] Program Instance pipe_stream : StreamOS pipe :=
  {| incoming w := u8 <$> rx w; far_side := list Z; outgoing := tx |}.
Next Obligation.
  intros w so tv Hw. cbn in *. exists w, None, 1. destruct (rx w); [done|]. by split_and!.
Qed.
Next Obligation.
  intros w so n Hw Hn. destruct (take_some (rx w) n (chunk w) Hw Hn) as (j & Et & Ed & Ez & ? & ? & ?).
  cbn in *. do 2 eexists. exists j. rewrite Et, Ez. cbn. by split_and!.
Qed.
Next Obligation. intros w fd t. by exists w, None, true. Qed.
Next Obligation.
  intros w so n Hw Hn. destruct (take_some (rx w) n (chunk w) Hw Hn) as (j & Et & Ed & Ez & ? & ? & ?).
  cbn in *. do 2 eexists. exists j. rewrite Et. cbn. by split_and!.
Qed.

(** ** Contexts *)
Definition tcp_ctx (sl : Z) : modbus_t :=
  {| slave := sl; s := 3; debug := 0; error_recovery := 0;
     response_timeout := {| tv_sec := 0; tv_usec := 500000 |};
     byte_timeout := {| tv_sec := 0; tv_usec := 500000 |};
     backend := TCP_BACKEND;
     backend_data := TcpData {| tcp_t_id := 0; tcp_port := 502;
                                tcp_ip := [Some 49; Some 0] |};
     ctx_blk := 1%positive; data_blk := 2%positive |}.
Definition rtu_ctx (sl : Z) : modbus_t :=
  {| slave := sl; s := -1; debug := 0; error_recovery := 0;
     response_timeout := {| tv_sec := 0; tv_usec := 500000 |};
     byte_timeout := {| tv_sec := 0; tv_usec := 500000 |};
     backend := RTU_BACKEND;
     backend_data := RtuData {| device := [67]; device_blk := 3%positive; baud := 9600;
       data_bit := 8; stop_bit := 1; parity := 78;
       w_ser := Some {| ws_fd := 5; ws_buf := replicate 512 (Some 0); ws_n_bytes := 0 |};
       old_dcb := Some blank_dcb; confirmation_to_ignore := false |};
     ctx_blk := 1%positive; data_blk := 2%positive |}.
Definition start_heap : heap := {| live := {[1%positive; 2%positive; 3%positive]}; next := 4%positive |}.
Definition start {W} (c : modbus_t) (w : W) : state W := State 0 start_heap c w.

(** ** The server at the far end *)

(** One turn of a server's loop: receive into [query], answer what was received. *)
Definition serve_turn {W} `{OS W} {FU : Fuel} {BC : BuildConfig} (query : buf) (m : modbus_mapping_t)
    : P W modbus_mapping_t :=
  let* (rc, req) := modbus_receive CTX query in
  if 0 <? rc then let* (_, m) := modbus_reply CTX req rc m in ret m else ret m.

Definition serve (c : modbus_t) (m : modbus_mapping_t) (request : list Z)
    : modbus_mapping_t * list Z :=
  match serve_turn (uninit MODBUS_TCP_MAX_ADU_LENGTH) m
          (start c {| rx := request; tx := []; chunk := 5 |}) with
  | Ret m' st => (m', tx (world st))
  | _ => (m, [])
  end.

Record loop := { l_rx : list Z; l_chunk : Z; l_server : modbus_t; l_map : modbus_mapping_t }.
Definition loop_take (w : loop) (n : Z) : loop * list Z :=
  let k := Z.to_nat (Z.min n (Z.max 1 (l_chunk w))) in
  ({| l_rx := drop k (l_rx w); l_chunk := l_chunk w; l_server := l_server w; l_map := l_map w |},
   u8 <$> take k (l_rx w)).
#[export] Instance loop_os : OS loop :=
  transport_os loop_take (fun w => match l_rx w with [] => false | _ => true end)
    (fun w l => let '(m, reply) := serve (l_server w) (l_map w) l in
       {| l_rx := l_rx w ++ reply; l_chunk := l_chunk w; l_server := l_server w; l_map := m |}).

Definition mk_table (l : list Z) : table := {| tab_blk := None; cells := l |}.
(** Tables of a given contents starting at the given addresses. *)
Definition mk_mapping (sb : Z) (bits : list Z) (sib : Z) (ibits : list Z)
    (sr : Z) (regs : list Z) (sir : Z) (iregs : list Z) : modbus_mapping_t :=
  {| map_blk := 1%positive;
     nb_bits := zlen bits; start_bits := sb; nb_input_bits := zlen ibits; start_input_bits := sib;
     nb_input_registers := zlen iregs; start_input_registers := sir;
     nb_registers := zlen regs; start_registers := sr;
     tab_bits := mk_table bits; tab_input_bits := mk_table ibits;
     tab_input_registers := mk_table iregs; tab_registers := mk_table regs |}.

(** The client's end of the loop. The far side is the server. *)
#[export] Program Instance loop_stream : StreamOS loop :=
  {| incoming w := u8 <$> l_rx w; far_side := modbus_t * modbus_mapping_t;
     outgoing w := (l_server w, l_map w) |}.
Next Obligation.
  intros w so tv Hw. cbn in *. exists w, None, 1. destruct (l_rx w); [done|]. by split_and!.
Qed.
Next Obligation.
  intros w so n Hw Hn. destruct (take_some (l_rx w) n (l_chunk w) Hw Hn) as (j & Et & Ed & Ez & ? & ? & ?).
  cbn in *. do 2 eexists. exists j. rewrite Et, Ez. cbn. by split_and!.
Qed.
Next Obligation. intros w fd t. by exists w, None, true. Qed.
Next Obligation.
  intros w so n Hw Hn. destruct (take_some (l_rx w) n (l_chunk w) Hw Hn) as (j & Et & Ed & Ez & ? & ? & ?).
  cbn in *. do 2 eexists. exists j. rewrite Et. cbn. by split_and!.
Qed.
