(* ===== verification/Server.v ===== *)
(** The server: what [modbus_receive] followed by [modbus_reply] does with the
    frame of a request, for every backend, against the specification in Spec. *)
From S2P Require Import Prelude Platform Data Crc Backend Rtu Tcp Core Framing Receive Mapping Reply Spec Bits ReplyProofs Wire Loopback.
#[local] Open Scope Z_scope.

(** ** Accepting a frame

    [accepts c sft]: a context [c] does not filter out frames for [sft]. *)
Class Integrity {W} `{OS W} {BC : BuildConfig} (be : modbus_backend_t W) {FR : Framing be} := {
  accepts : modbus_t -> sft_t -> Prop;
  integrity_ok : forall sft pdu rest st, Forall is_u8 pdu -> zlen pdu <= 253 -> accepts (ctx st) sft ->
    check_integrity be ((Some <$> adu sft pdu) ++ rest) (zlen (adu sft pdu)) st
      = Ret (zlen (adu sft pdu)) st
}.

Section integrity.
Context {W : Type} `{OS W} {FU : Fuel} {BC : BuildConfig}.

(** A serial slave takes the frames addressed to it and to everyone. *)
Definition rtu_accepts (c : modbus_t) (sft : sft_t) : Prop :=
  u8 (sft_slave sft) = slave c \/ u8 (sft_slave sft) = MODBUS_BROADCAST_ADDRESS.

Lemma rtu_integrity_ok sft pdu rest (st : state W) :
  Forall is_u8 pdu -> zlen pdu <= 253 -> rtu_accepts (ctx st) sft ->
  _modbus_rtu_check_integrity ((Some <$> rtu_adu sft pdu) ++ rest) (zlen (rtu_adu sft pdu)) st
    = Ret (zlen (rtu_adu sft pdu)) st.
Proof.
  intros Hp Hl Ha. unfold rtu_adu. set (m := u8 (sft_slave sft) :: pdu).
  assert (Hm : Forall is_u8 m) by (constructor; [apply u8_range|done]).
  assert (Hz : zlen (m ++ [hi8 (crc_of m); lo8 (crc_of m)]) = zlen m + 2) by (by rewrite zlen_app).
  assert (Hlm : 0 <= zlen m <= 254) by (unfold m; rewrite zlen_cons; pose proof (zlen_nonneg pdu); lia).
  rewrite Hz. unfold _modbus_rtu_check_integrity.
  rewrite (bind_ret_eq get_ctx _ st (ctx st) st eq_refl).
  erewrite bind_ret_eq by (by apply rd_eq).
  replace (negb (u8 (sft_slave sft) =? slave (ctx st)) && negb (u8 (sft_slave sft) =? MODBUS_BROADCAST_ADDRESS))
    with false.
  2: { destruct Ha as [-> | ->]; [by rewrite Z.eqb_refl|by rewrite andb_false_r]. }
  rewrite fmap_app, <- app_assoc.
  erewrite bind_ret_eq.
  2: { apply (crc16_eq _ _ m); [lia|done|lia|apply lookup_prefix]. }
  assert (Hat : forall k x, (k = 0 \/ k = 1) -> [hi8 (crc_of m); lo8 (crc_of m)] !! Z.to_nat k = Some x ->
    rd ((Some <$> m) ++ (Some <$> [hi8 (crc_of m); lo8 (crc_of m)]) ++ rest) (zlen m + k) st = Ret x st).
  { intros k x Hk Hx. apply rd_eq; [lia|]. rewrite app_assoc, <- fmap_app.
    apply lookup_prefix. unfold zlen. rewrite lookup_app_r by lia. rewrite <- Hx. f_equal. lia. }
  replace (zlen m + 2 - 2) with (zlen m + 0) by lia. replace (zlen m + 2 - 1) with (zlen m + 1) by lia.
  erewrite bind_ret_eq by (apply Hat; [by left|reflexivity]).
  erewrite bind_ret_eq by (apply Hat; [by right|reflexivity]).
  rewrite lor_be16 by apply lo8_range. rewrite be16_split by apply crc_of_range.
  rewrite u16_id by apply crc_of_range. by rewrite Z.eqb_refl.
Qed.

#[export] Instance rtu_integrity : Integrity _modbus_rtu_backend :=
  @Build_Integrity W _ _ _modbus_rtu_backend rtu_framing rtu_accepts rtu_integrity_ok.
#[export] Program Instance tcp_integrity : Integrity _modbus_tcp_backend := {| accepts _ _ := True |}.
Next Obligation. done. Qed.
#[export] Program Instance tcp_pi_integrity : Integrity _modbus_tcp_pi_backend := {| accepts _ _ := True |}.
Next Obligation. done. Qed.

#[export] Instance backend_integrity b : Integrity (backend_of b) :=
  match b with
  | RTU_BACKEND => rtu_integrity | TCP_BACKEND => tcp_integrity | TCP_PI_BACKEND => tcp_pi_integrity
  end.

Context {EF : EnoughFuel} {SO : StreamOS W}.
#[export] Instance backend_stream b : Stream (backend_of b) :=
  match b with
  | RTU_BACKEND => rtu_backend_stream | TCP_BACKEND => tcp_backend_stream
  | TCP_PI_BACKEND => tcp_pi_backend_stream
  end.
End integrity.

(** ** Receiving an indication *)
#[local] Abbreviation frame b := (adu (be := backend_of b)).

Section server.
Context {W : Type} `{OS W} {FU : Fuel} {EF : EnoughFuel} {BC : BuildConfig} {SO : StreamOS W}.

(** A serial server that is not waiting for another slave's confirmation to pass. *)
Definition listening (c : modbus_t) : Prop :=
  match backend_data c with RtuData d => confirmation_to_ignore d = false | _ => True end.

Lemma frame_pos b sft pdu : 0 < zlen (frame b sft pdu).
Proof.
  rewrite adu_length. pose proof (header_bounds (be := backend_of b)).
  pose proof (checksum_bounds (be := backend_of b)). pose proof (zlen_nonneg pdu). lia.
Qed.

Lemma receive_complete mt b sft pdu more query st :
  Forall is_u8 pdu -> zlen pdu <= 253 -> complete (backend_of b) mt (frame b sft pdu) ->
  max_adu_length (backend_of b) <= zlen query ->
  ready (be := backend_of b) st (frame b sft pdu ++ more) -> accepts (be := backend_of b) (ctx st) sft ->
  exists st', ready (be := backend_of b) st' more /\ same_settings (ctx st) (ctx st') /\
    outgoing (world st') = outgoing (world st) /\
    _modbus_receive_msg (backend_of b) query mt st
      = Ret (zlen (frame b sft pdu), (Some <$> frame b sft pdu) ++ drop (length (frame b sft pdu)) query) st'.
Proof.
  intros Hu Hl Hc Hq Hr Ha.
  destruct (receive_msg_eq (backend_of b) mt (frame b sft pdu) more query Hc Hq st Hr)
    as (st' & Hr' & Hset & Hout & E).
  exists st'. do 3 (split; [done|]). rewrite E. unfold filled. rewrite firstn_all.
  erewrite bind_ret_eq; [done|]. apply integrity_ok; [done|done|].
  destruct b; cbn in *; [|done..]. unfold rtu_accepts in *. by rewrite (same_settings_slave _ _ Hset).
Qed.

Lemma receive_indication sft pdu more query st : let be := backend_of (backend (ctx st)) in
  Forall is_u8 pdu -> zlen pdu <= 253 -> complete be MSG_INDICATION (frame (backend (ctx st)) sft pdu) ->
  max_adu_length be <= zlen query -> listening (ctx st) ->
  ready (be := be) st (frame (backend (ctx st)) sft pdu ++ more) -> accepts (be := be) (ctx st) sft ->
  exists st', ready (be := be) st' more /\ same_settings (ctx st) (ctx st') /\
    outgoing (world st') = outgoing (world st) /\
    modbus_receive CTX query st
      = Ret (zlen (frame (backend (ctx st)) sft pdu), (Some <$> frame (backend (ctx st)) sft pdu) ++ drop (length (frame (backend (ctx st)) sft pdu)) query) st'.
Proof.
  intros be Hu Hl Hc Hq Hlis Hr Ha.
  destruct (receive_complete _ _ sft pdu more query st Hu Hl Hc Hq Hr Ha) as (st' & Hr' & Hset & Hout & E).
  exists st'. do 3 (split; [done|]). unfold modbus_receive.
  rewrite (bind_ret_eq get_ctx _ st (ctx st) st eq_refl). fold be in E |- *.
  destruct (backend (ctx st)) eqn:Eb; try exact E.
  destruct Hr as (d & ws & Ed & _). unfold listening in Hlis. rewrite Ed in Hlis.
  unfold _modbus_rtu_receive. erewrite bind_ret_eq by (by apply get_rtu_eq). rewrite Hlis.
  erewrite bind_ret_eq by exact E. cbn beta iota.
  rewrite (proj2 (Z.eqb_neq _ 0)); [done|]. apply Z.neq_sym, Z.lt_neq, (frame_pos RTU_BACKEND sft pdu).
Qed.

(** ** Answering it *)
Lemma reply_ok b sft r rest m :
  is_u8 (sft_slave sft) -> wf_mapping m -> wf_request r -> readable (backend_of (W := W) b) rest r -> write_starts_inside m r ->
  let ans := snd (exec (abs m) r) in
  exists m', evolves m m' /\ store_equiv (abs m') (fst (exec (abs m) r)) /\
  forall st, backend (ctx st) = b ->
    modbus_reply CTX ((Some <$> frame b sft (encode_request r)) ++ rest)
      (zlen (frame b sft (encode_request r))) m st =
    (flush_if (backend_of b) (flushes r ans) ;;;
     if sft_slave sft =? MODBUS_BROADCAST_ADDRESS then ret (0, m')
     else let* rc := send_frame (backend_of b) (frame b sft (encode_answer r ans)) in ret (rc, m')) st.
Proof.
  intros Hs Hm Hr Hread Hw ans.
  destruct (reply_with_ok (backend_of b) sft rest m Hm r Hs Hr Hread Hw) as (m' & Hm' & He & E).
  exists m'. split; [done|]. split; [done|]. intros st Hb. rewrite <- E.
  unfold modbus_reply, get_backend. rewrite bind_assoc.
  rewrite (bind_ret_eq get_ctx _ st (ctx st) st eq_refl), Hb. done.
Qed.

(** One turn of the loop around them. *)
Lemma serve_turn_ok b sft r m query more (st : state W) :
  backend (ctx st) = b -> is_u8 (sft_slave sft) -> wf_mapping m -> wf_request r ->
  readable (backend_of (W := W) b) (drop (length (frame b sft (encode_request r))) query) r ->
  write_starts_inside m r ->
  max_adu_length (backend_of b) <= zlen query -> listening (ctx st) ->
  accepts (be := backend_of b) (ctx st) sft ->
  ready (be := backend_of b) st (frame b sft (encode_request r) ++ more) ->
  let ans := snd (exec (abs m) r) in
  exists st' m', ready (be := backend_of b) st' more /\ same_settings (ctx st) (ctx st') /\
    outgoing (world st') = outgoing (world st) /\
    evolves m m' /\ store_equiv (abs m') (fst (exec (abs m) r)) /\
    serve_turn query m st =
      (flush_if (backend_of b) (flushes r ans) ;;;
       if sft_slave sft =? MODBUS_BROADCAST_ADDRESS then ret m'
       else let* _ := send_frame (backend_of b) (frame b sft (encode_answer r ans)) in
            ret m') st'.
Proof.
  intros Hb Hs Hm Hr Hread Hw Hq Hlis Hacc Hrd ans. subst b.
  destruct (receive_indication sft (encode_request r) more query st) as (st' & Hrd' & Hset & Hout & E);
    [by apply encode_request_u8|by apply encode_request_length|by apply complete_request|done..|].
  destruct (reply_ok (backend (ctx st)) sft r _ m Hs Hm Hr Hread Hw) as (m' & Hm' & He & Er).
  exists st', m'. do 5 (split; [done|]). unfold serve_turn.
  erewrite bind_ret_eq by exact E. cbn beta iota.
  rewrite (proj2 (Z.ltb_lt _ _)) by apply frame_pos.
  rewrite (bind_eq _ _ _ _ (Er st' (same_settings_backend _ _ Hset))), bind_assoc.
  apply bind_ext; [done|]. intros _ s'. destruct (_ =? _); [done|]. by rewrite bind_assoc.
Qed.
End server.

(** C3: the server refines the protocol. Given a receive buffer that starts with
    the frame of a well-formed request, on any of the three backends,
    [modbus_reply] leaves tables that represent the address spaces the
    specification computes, and sends exactly the frame of the specified answer
    (addressed to the slave and transaction of the request), after waiting and
    flushing where it refuses a quantity; it sends nothing to a broadcast. Two
    conditions: over TCP, the buffer holds two more initialised bytes behind a
    report-slave-id request ([readable]), because the code reads an address there
    (on a serial line it reads the checksum); and the
    write part of a write-and-read request does not start below the register table
    ([write_starts_inside]), which the code does not check: C39 states the
    out-of-bounds write that happens otherwise. *)
Theorem modbus_reply_refines {W} `{OS W} {FU : Fuel} {BC : BuildConfig} b sft r rest m :
  is_u8 (sft_slave sft) -> wf_mapping m -> wf_request r -> readable (backend_of (W := W) b) rest r -> write_starts_inside m r ->
  let ans := snd (exec (abs m) r) in
  exists m', evolves m m' /\ store_equiv (abs m') (fst (exec (abs m) r)) /\
  forall st, backend (ctx st) = b ->
    modbus_reply CTX ((Some <$> adu (be := backend_of b) sft (encode_request r)) ++ rest)
      (zlen (adu (be := backend_of b) sft (encode_request r))) m st =
    (flush_if (backend_of b) (flushes r ans) ;;;
     if sft_slave sft =? MODBUS_BROADCAST_ADDRESS then ret (0, m')
     else let* rc := send_frame (backend_of b) (adu (be := backend_of b) sft (encode_answer r ans)) in
          ret (rc, m')) st.
Proof. apply reply_ok. Qed.

(** C4: one turn of a server's loop. When the next bytes on the line are the
    frame of a request the context accepts, in whatever pieces they arrive,
    [modbus_receive] takes exactly that frame, leaving what follows, and the
    reply is the specified one. The conditions on the request are those of C3:
    over TCP the array [query] holds two more initialised bytes behind the place of a
    report-slave-id frame, and the write part of a write-and-read request does not
    start below the register table (C39). The array holds a message of the
    maximal length, and a serial context is not waiting for another slave's
    answer. *)
Theorem server_turn_serves {W} `{OS W} {FU : Fuel} {EF : EnoughFuel} {BC : BuildConfig}
    {SO : StreamOS W} b sft r m query more (st : state W) :
  backend (ctx st) = b -> is_u8 (sft_slave sft) -> wf_mapping m -> wf_request r ->
  readable (backend_of (W := W) b) (drop (length (adu (be := backend_of b) sft (encode_request r))) query) r ->
  write_starts_inside m r ->
  max_adu_length (backend_of b) <= zlen query -> listening (ctx st) ->
  accepts (be := backend_of b) (ctx st) sft ->
  ready (be := backend_of b) st (adu (be := backend_of b) sft (encode_request r) ++ more) ->
  let ans := snd (exec (abs m) r) in
  exists st' m', ready (be := backend_of b) st' more /\ outgoing (world st') = outgoing (world st) /\
    evolves m m' /\ store_equiv (abs m') (fst (exec (abs m) r)) /\
    serve_turn query m st =
      (flush_if (backend_of b) (flushes r ans) ;;;
       if sft_slave sft =? MODBUS_BROADCAST_ADDRESS then ret m'
       else let* _ := send_frame (backend_of b) (adu (be := backend_of b) sft (encode_answer r ans)) in
            ret m') st'.
Proof.
  intros Hb Hs Hm Hr Hread Hw Hq Hlis Hacc Hrd ans.
  destruct (serve_turn_ok b sft r m query more st) as (st' & m' & ? & _ & ? & ? & ? & ?); [done..|].
  by exists st', m'.
Qed.

(** C38: a request with a function code the server does not implement is refused
    with exception 1 after waiting and flushing; the tables are untouched. *)
Theorem unknown_function_refused {W} `{OS W} {FU : Fuel} {BC : BuildConfig} b sft f x y tl rest m
    (st : state W) :
  is_u8 (sft_slave sft) -> unsupported f -> backend (ctx st) = b ->
  modbus_reply CTX ((Some <$> adu (be := backend_of b) sft (f :: x :: y :: tl)) ++ rest)
    (zlen (adu (be := backend_of b) sft (f :: x :: y :: tl))) m st =
  (flush_if (backend_of b) true ;;;
   if sft_slave sft =? MODBUS_BROADCAST_ADDRESS then ret (0, m)
   else let* rc := send_frame (backend_of b)
                     (adu (be := backend_of b) sft [u8 (f + 128); MODBUS_EXCEPTION_ILLEGAL_FUNCTION]) in
        ret (rc, m)) st.
Proof.
  intros Hs Hf <-. unfold modbus_reply, get_backend. rewrite bind_assoc.
  rewrite (bind_ret_eq get_ctx _ st (ctx st) st eq_refl).
  by apply (unsupported_ok (backend_of (backend (ctx st))) sft rest m f x y tl).
Qed.

(** [modbus_reply_exception] answers the request in the buffer with the given
    exception when its code is below MODBUS_EXCEPTION_MAX, and otherwise sends
    nothing and reports EINVAL. *)
Theorem reply_exception_sends {W} `{OS W} {FU : Fuel} {BC : BuildConfig} b sft f tl rest code
    (st : state W) :
  is_u8 (sft_slave sft) -> is_u8 code -> backend (ctx st) = b ->
  modbus_reply_exception CTX ((Some <$> adu (be := backend_of b) sft (f :: tl)) ++ rest) code st =
  if code <? MODBUS_EXCEPTION_MAX
  then send_frame (backend_of b) (adu (be := backend_of b) sft [u8 (f + 128); code]) st
  else Ret (-1) (State EINVAL (hp st) (ctx st) (world st)).
Proof.
  intros Hs Hc <-. unfold modbus_reply_exception, get_backend. rewrite bind_assoc.
  rewrite (bind_ret_eq get_ctx _ st (ctx st) st eq_refl).
  etransitivity; [by apply (reply_exception_ok (backend_of (backend (ctx st))) sft rest f tl code)|].
  by destruct (_ <? _).
Qed.

(** C39: memory safety fails in one place. A write-and-read request whose write
    part starts below the first register of the table, everything else about it
    being acceptable, makes [modbus_reply] write outside the table: the test of
    the lower bound names the read address twice. *)
Theorem write_and_read_writes_out_of_bounds {W} `{OS W} {FU : Fuel} {BC : BuildConfig} b sft rest m
    a n wa wn ws (st : state W) :
  is_u8 (sft_slave sft) -> wf_mapping m -> wf_request (WriteRead a n wa wn ws) ->
  1 <= n <= 125 -> 1 <= wn <= 121 -> zlen ws = wn ->
  start_registers m <= a -> a - start_registers m + n <= nb_registers m ->
  wa < start_registers m -> wa - start_registers m + wn <= nb_registers m ->
  backend (ctx st) = b ->
  modbus_reply CTX ((Some <$> adu (be := backend_of b) sft (encode_request (WriteRead a n wa wn ws))) ++ rest)
    (zlen (adu (be := backend_of b) sft (encode_request (WriteRead a n wa wn ws)))) m st = Fault OutOfBounds.
Proof.
  intros ?????????? <-. unfold modbus_reply, get_backend. rewrite bind_assoc.
  rewrite (bind_ret_eq get_ctx _ st (ctx st) st eq_refl).
  by apply (write_read_underflow (backend_of (backend (ctx st))) sft rest m).
Qed.

(** [modbus_reply] reads an address field whatever the function is. On a
    report-slave-id request over TCP it reads the two bytes behind the request,
    which nobody wrote when the buffer is fresh. *)
Theorem report_slave_id_reads_past_request {W} `{OS W} {FU : Fuel} {BC : BuildConfig} sft m
    (st : state W) :
  backend (ctx st) = TCP_BACKEND ->
  modbus_reply CTX ((Some <$> adu (be := backend_of TCP_BACKEND) sft [17]) ++ uninit 252)
    (zlen (adu (be := backend_of TCP_BACKEND) sft [17])) m st = Fault Uninit.
Proof.
  intros Hb. unfold modbus_reply, get_backend. rewrite bind_assoc.
  rewrite (bind_ret_eq get_ctx _ st (ctx st) st eq_refl), Hb. reflexivity.
Qed.

(** ** The theorems on concrete inputs *)
Definition sample_map : modbus_mapping_t :=
  mk_mapping 0 [1; 0; 1; 1; 0; 0; 1; 0; 1; 1] 10 [0; 1; 1] 100 [7; 8; 9; 10] 0 [65535; 258].
Definition sample_sft : sft_t := {| sft_slave := 17; sft_function := 0; sft_t_id := 513 |}.
Definition sample_request : request := WriteRead 100 3 101 2 [4660; 255].

Lemma sample_map_wf : wf_mapping sample_map.
Proof.
  split; [reflexivity..| | | | |reflexivity];
    repeat (apply Forall_cons; split; [unfold is_bit, is_u16; lia|]); constructor.
Defined.
Lemma sample_request_wf : wf_request sample_request.
Proof. cbn. unfold is_u16. split_and!; try lia; [repeat constructor; lia|done]. Defined.

Lemma modbus_reply_refines_witness :
  exists m', evolves sample_map m' /\ store_equiv (abs m') (fst (exec (abs sample_map) sample_request)) /\
  forall st : state pipe, backend (ctx st) = TCP_BACKEND ->
    modbus_reply CTX ((Some <$> adu (be := backend_of TCP_BACKEND) sample_sft (encode_request sample_request)) ++ [])
      (zlen (adu (be := backend_of TCP_BACKEND) sample_sft (encode_request sample_request))) sample_map st =
    (flush_if (backend_of TCP_BACKEND) false ;;;
     let* rc := send_frame (backend_of TCP_BACKEND)
       [2; 1; 0; 0; 0; 9; 17; 23; 6; 0; 7; 18; 52; 0; 255] in ret (rc, m')) st.
Proof.
  apply (modbus_reply_refines (W := pipe) TCP_BACKEND sample_sft sample_request [] sample_map);
    [unfold is_u8; cbn; lia|exact sample_map_wf|exact sample_request_wf|discriminate|cbn; lia].
Defined.

Definition sample_tcp : state pipe := start (tcp_ctx 17) {| rx := []; tx := []; chunk := 3 |}.
Definition sample_line : state pipe :=
  start (rtu_ctx 17) {| rx := [17; 3; 0; 100; 0; 2; 135; 68; 1; 2]; tx := []; chunk := 3 |}.

Lemma server_turn_serves_witness :
  exists (st' : state pipe) m', ready (be := backend_of RTU_BACKEND) st' [1; 2] /\ tx (world st') = [] /\
    evolves sample_map m' /\ store_equiv (abs m') (fst (exec (abs sample_map) (ReadRegisters false 100 2))) /\
    serve_turn (uninit 256) sample_map sample_line =
      (flush_if (backend_of RTU_BACKEND) false ;;;
       let* _ := send_frame (backend_of RTU_BACKEND) [17; 3; 4; 0; 7; 0; 8; 91; 245] in ret m') st'.
Proof.
  destruct (server_turn_serves (W := pipe) RTU_BACKEND sample_sft (ReadRegisters false 100 2) sample_map
           (uninit 256) [1; 2] sample_line) as (st' & m' & Hr & Ho & Hm & He & E);
    [done|unfold is_u8; cbn; lia|exact sample_map_wf|cbn; unfold is_u16; lia|discriminate|done|done|done
    |by left| |].
  - do 2 eexists. split_and!; reflexivity.
  - exists st', m'. split_and!; [exact Hr|exact Ho|exact Hm|exact He|]. rewrite E. reflexivity.
Defined.

Lemma unknown_function_refused_witness :
  modbus_reply CTX ((Some <$> adu (be := backend_of TCP_BACKEND) sample_sft [99; 1; 2]) ++ [])
    (zlen (adu (be := backend_of (W := pipe) TCP_BACKEND) sample_sft [99; 1; 2])) sample_map sample_tcp =
  (flush_if (backend_of TCP_BACKEND) true ;;;
   let* rc := send_frame (backend_of TCP_BACKEND) [2; 1; 0; 0; 0; 3; 17; 227; 1] in
   ret (rc, sample_map)) sample_tcp.
Proof.
  apply (unknown_function_refused (W := pipe) TCP_BACKEND sample_sft 99 1 2 [] [] sample_map sample_tcp);
    [unfold is_u8; cbn; lia|unfold unsupported; cbn; lia|reflexivity].
Defined.

Lemma reply_exception_sends_witness :
  modbus_reply_exception CTX ((Some <$> adu (be := backend_of (W := pipe) TCP_BACKEND) sample_sft [3; 0; 1]) ++ [])
    4 sample_tcp =
  send_frame (backend_of TCP_BACKEND) [2; 1; 0; 0; 0; 3; 17; 131; 4] sample_tcp.
Proof.
  apply (reply_exception_sends (W := pipe) TCP_BACKEND sample_sft 3 [0; 1] [] 4 sample_tcp);
    [unfold is_u8; cbn; lia|unfold is_u8; lia|reflexivity].
Defined.

Lemma write_and_read_writes_out_of_bounds_witness :
  modbus_reply CTX
    ((Some <$> adu (be := backend_of (W := pipe) TCP_BACKEND) sample_sft (encode_request (WriteRead 100 1 98 2 [1; 2]))) ++ [])
    (zlen (adu (be := backend_of (W := pipe) TCP_BACKEND) sample_sft (encode_request (WriteRead 100 1 98 2 [1; 2]))))
    sample_map sample_tcp = Fault OutOfBounds.
Proof.
  apply (write_and_read_writes_out_of_bounds (W := pipe) TCP_BACKEND sample_sft [] sample_map 100 1 98 2 [1; 2]
           sample_tcp);
    [unfold is_u8; cbn; lia|exact sample_map_wf| |lia|lia|reflexivity|done..].
  cbn. unfold is_u16. split_and!; try lia; [repeat constructor; lia|done].
Defined.

Lemma report_slave_id_reads_past_request_witness :
  modbus_reply CTX ((Some <$> adu (be := backend_of (W := pipe) TCP_BACKEND) sample_sft [17]) ++ uninit 252)
    8 sample_map sample_tcp = Fault Uninit.
Proof. apply (report_slave_id_reads_past_request (W := pipe) sample_sft sample_map sample_tcp). reflexivity. Defined.
