(* ===== verification/Master.v ===== *)
(** The client's transactions: every backend keeps the promises of [Requests],
    and sending a request, receiving the confirmation and checking it comes out
    as [judge] says, whatever the confirmation is. *)
From S2P Require Import Prelude Platform Data Crc Backend Rtu Tcp Core Framing Receive Mapping Reply Spec Bits ReplyProofs Wire Client Confirm Loopback Server.
#[local] Open Scope Z_scope.

(** ** Building requests *)
Section rtu_requests.
Context {W : Type} `{OS W} {FU : Fuel} {BC : BuildConfig}.

Definition rtu_usable (c : modbus_t) : Prop := NDEBUG || negb (slave c =? -1) = true.
Definition rtu_next (c : modbus_t) : sft_t :=
  {| sft_slave := slave c; sft_function := 0; sft_t_id := 0 |}.
(** A request to everyone is answered by anyone. *)
Definition rtu_mismatch (q p : sft_t) : option Z :=
  if negb (u8 (sft_slave q) =? u8 (sft_slave p)) && negb (u8 (sft_slave q) =? MODBUS_BROADCAST_ADDRESS)
  then Some EMBBADSLAVE else None.

#[export] Instance rtu_requests : Requests _modbus_rtu_backend (FR := rtu_framing).
Proof.
  refine {| usable := rtu_usable; next_sft := rtu_next; after_request c := c; mismatch := rtu_mismatch |}.
  - intros c f a n b Hu Hb. cbn [header_length _modbus_rtu_backend build_request_basis] in *.
    unfold _MODBUS_RTU_HEADER_LENGTH in *.
    destruct b as [|c0 [|c1 [|c2 [|c3 [|c4 [|c5 b]]]]]]; rewrite ?zlen_cons in Hb;
      try (exfalso; revert Hb; rewrite ?zlen_nil; lia).
    exists [Some (u8 (slave c))], b. split; [done|]. split; [cbn; rewrite !zlen_cons; lia|].
    intros st <-. unfold _modbus_rtu_build_request_basis.
    rewrite (bind_ret_eq get_ctx _ st (ctx st) st eq_refl).
    erewrite bind_ret_eq by (by rewrite Hu). do 6 wr_step. by destruct st.
  - intros q qs r1 p ps r2 n st. cbn [pre_check_confirmation _modbus_rtu_backend].
    unfold _modbus_rtu_pre_check_confirmation, rtu_mismatch.
    erewrite bind_ret_eq by (by apply rd_eq). erewrite bind_ret_eq by (by apply rd_eq).
    by destruct (_ && _).
  - intros q. unfold rtu_mismatch. by rewrite Z.eqb_refl.
Defined.
End rtu_requests.

Section tcp_requests.
Context {W : Type} `{OS W} {FU : Fuel} {BC : BuildConfig}.

(** The transaction identifier of the context, and its successor. *)
Definition t_id (c : modbus_t) : option Z :=
  match backend_data c with
  | TcpData d => Some (tcp_t_id d) | TcpPiData d => Some (pi_t_id d) | RtuData _ => None
  end.
Definition next_t_id (t : Z) : Z := if t <? UINT16_MAX then t + 1 else 0.
Definition with_t_id (t : Z) (c : modbus_t) : modbus_t :=
  match backend_data c with
  | TcpData d => with_backend_data (TcpData {| tcp_t_id := t; tcp_port := tcp_port d; tcp_ip := tcp_ip d |}) c
  | TcpPiData d => with_backend_data (TcpPiData {| pi_t_id := t; pi_node := pi_node d; pi_service := pi_service d |}) c
  | RtuData _ => c
  end.
Definition tcp_usable (c : modbus_t) : Prop := is_Some (t_id c).
Definition tcp_next (c : modbus_t) : sft_t :=
  {| sft_slave := slave c; sft_function := 0; sft_t_id := next_t_id (default 0 (t_id c)) |}.
Definition tcp_after (c : modbus_t) : modbus_t := with_t_id (next_t_id (default 0 (t_id c))) c.
Definition tcp_mismatch (q p : sft_t) : option Z :=
  if (hi8 (sft_t_id q) =? hi8 (sft_t_id p)) && (lo8 (sft_t_id q) =? lo8 (sft_t_id p))
  then None else Some EMBBADDATA.

Lemma get_t_id_eq t (st : state W) : t_id (ctx st) = Some t -> get_t_id st = Ret t st.
Proof.
  unfold t_id, get_t_id, bind, get_ctx. destruct (backend_data (ctx st)); intros Ht; [done|..]; by injection Ht as <-.
Qed.
Lemma set_t_id_eq t (st : state W) : is_Some (t_id (ctx st)) ->
  set_t_id t st = Ret tt (State (errno st) (hp st) (with_t_id t (ctx st)) (world st)).
Proof.
  unfold t_id, set_t_id, with_t_id, bind, get_ctx, upd_ctx.
  destruct (backend_data (ctx st)); [by intros []|done|done].
Qed.
Lemma t_id_with t c : is_Some (t_id c) -> t_id (with_t_id t c) = Some t.
Proof. unfold t_id, with_t_id. destruct (backend_data c); [by intros []|done|done]. Qed.
Lemma slave_with t c : slave (with_t_id t c) = slave c.
Proof. unfold with_t_id. by destruct (backend_data c). Qed.

Lemma tcp_request_basis_eq c f a n (b : buf) : tcp_usable c -> 12 <= zlen b ->
  exists h r, tcp_hdr (tcp_next c) h /\
    zlen (h ++ (Some <$> (u8 f :: word_bytes a ++ word_bytes n)) ++ r) = zlen b /\
    forall st : state W, ctx st = c -> _modbus_tcp_build_request_basis f a n b st
      = Ret (12, h ++ (Some <$> (u8 f :: word_bytes a ++ word_bytes n)) ++ r)
          (State (errno st) (hp st) (tcp_after c) (world st)).
Proof.
  intros [t Ht] Hb. unfold tcp_next, tcp_after. rewrite Ht. cbn [default].
  destruct b as [|c0 [|c1 [|c2 [|c3 [|c4 [|c5 [|c6 [|c7 [|c8 [|c9 [|c10 [|c11 b]]]]]]]]]]]];
    rewrite ?zlen_cons in Hb; try (exfalso; revert Hb; rewrite ?zlen_nil; lia).
  set (u := next_t_id t).
  exists [Some (hi8 u); Some (lo8 u); Some 0; Some 0; c4; c5; Some (u8 (slave c))], b.
  split; [by do 2 eexists|]. split; [cbn; rewrite !zlen_cons; lia|].
  intros st <-. unfold _modbus_tcp_build_request_basis.
  erewrite bind_ret_eq by (by apply get_t_id_eq).
  assert (Hs : is_Some (t_id (ctx st))) by (by rewrite Ht).
  erewrite bind_ret_eq.
  2: { instantiate (1 := State (errno st) (hp st) (with_t_id u (ctx st)) (world st)).
       unfold u, next_t_id. by destruct (_ <? _); rewrite set_t_id_eq. }
  erewrite bind_ret_eq by (apply get_t_id_eq; by apply t_id_with).
  do 4 wr_step. erewrite bind_ret_eq by done. cbn [ctx]. rewrite slave_with.
  do 6 wr_step. done.
Qed.

Lemma tcp_pre_check_eq (be : modbus_backend_t W) {FR : Framing be} q qs r1 p ps r2 n (st : state W) :
  (forall sft pdu, adu sft pdu = tcp_adu sft pdu) ->
  _modbus_tcp_pre_check_confirmation (received be q qs r1) (received be p ps r2) n st
    = match tcp_mismatch q p with None => Ret 0 st | Some e => err e st end.
Proof.
  intros E. unfold received, tcp_mismatch. rewrite !E. unfold _modbus_tcp_pre_check_confirmation.
  do 2 (erewrite bind_ret_eq by (by apply rd_eq)).
  destruct (Z.eqb_spec (hi8 (sft_t_id q)) (hi8 (sft_t_id p))); cbn [negb andb]; [|done].
  rewrite bind_assoc. erewrite bind_ret_eq by (by apply rd_eq).
  rewrite bind_assoc. erewrite bind_ret_eq by (by apply rd_eq).
  by destruct (Z.eqb_spec (lo8 (sft_t_id q)) (lo8 (sft_t_id p))).
Qed.

Lemma tcp_mismatch_refl q : tcp_mismatch q q = None.
Proof. unfold tcp_mismatch. by rewrite !Z.eqb_refl. Qed.

#[export] Instance tcp_requests : Requests _modbus_tcp_backend :=
  @Build_Requests W _ BC _modbus_tcp_backend tcp_framing tcp_usable tcp_next tcp_after tcp_mismatch
    tcp_request_basis_eq
    (fun q qs r1 p ps r2 n st => tcp_pre_check_eq _modbus_tcp_backend (FR := tcp_framing) q qs r1 p ps r2 n st (fun _ _ => eq_refl))
    tcp_mismatch_refl.
#[export] Instance tcp_pi_requests : Requests _modbus_tcp_pi_backend :=
  @Build_Requests W _ BC _modbus_tcp_pi_backend tcp_pi_framing tcp_usable tcp_next tcp_after tcp_mismatch
    tcp_request_basis_eq
    (fun q qs r1 p ps r2 n st => tcp_pre_check_eq _modbus_tcp_pi_backend (FR := tcp_pi_framing) q qs r1 p ps r2 n st (fun _ _ => eq_refl))
    tcp_mismatch_refl.

#[export] Instance backend_requests b : Requests (backend_of b) :=
  match b with
  | RTU_BACKEND => rtu_requests | TCP_BACKEND => tcp_requests | TCP_PI_BACKEND => tcp_pi_requests
  end.
End tcp_requests.

(** ** Sending a request and taking its confirmation *)
#[local] Abbreviation frame b := (adu (be := backend_of b)).

Section transactions.
Context {W : Type} `{OS W} {FU : Fuel} {EF : EnoughFuel} {BC : BuildConfig} {SO : StreamOS W}.
Context (b : backend_id).
#[local] Notation be := (backend_of (W := W) b).

(** A request as [build_request_basis] leaves it in a fresh buffer. *)
Lemma start_request c size f a n : usable (be := be) c -> is_u8 f -> 12 <= size ->
  exists req, is_msg be size (next_sft (be := be) c) (f :: word_bytes a ++ word_bytes n) req (header_length be + 5) /\
    forall st, ctx st = c -> build_request_basis be f a n (uninit size) st
      = Ret (header_length be + 5, req) (State (errno st) (hp st) (after_request (be := be) c) (world st)).
Proof.
  intros Hc Hf Hs. pose proof (header_bounds (be := be)).
  destruct (request_basis_eq (be := be) c f a n (uninit size) Hc) as (h & r & Hh & Hz & E).
  { rewrite zlen_uninit; lia. }
  rewrite u8_id in * by done. eexists. split; [|exact E].
  exists h, r. split_and!; [done|done|done|by rewrite Hz, zlen_uninit by lia|].
  constructor; [done|]. apply Forall_app. split; apply word_bytes_u8.
Qed.

(** What the client makes of the answer [pdu] framed for [p] to its request [r]
    framed for [q]. *)
Definition conclude (q p : sft_t) (r : request) (pdu : list Z) : P W Z :=
  match mismatch (be := be) q p with
  | Some e => reject be e
  | None => act_on be (judge r pdu)
  end.

Lemma exchange_eq size q r req n : is_msg be size q (encode_request r) req n ->
  n + checksum_length be <= size -> wf_request r ->
  forall st st' p f data more,
  send_frame be (frame b q (encode_request r)) st = Ret (zlen (frame b q (encode_request r))) st' ->
  Forall is_u8 (f :: data) -> complete be MSG_CONFIRMATION (frame b p (f :: data)) ->
  accepts (be := be) (ctx st') p -> ready (be := be) st' (frame b p (f :: data) ++ more) ->
  exists st'' rest, ready (be := be) st'' more /\ same_settings (ctx st') (ctx st'') /\
    outgoing (world st'') = outgoing (world st') /\
    exchange be req n st =
      (let* rc := conclude q p r (f :: data) in
       if rc =? -1 then ret (-1, None) else ret (rc, Some (received be p (f :: data) rest))) st''.
Proof.
  intros Hm Hs Hr st st' p f data more Hsend Hu Hc Ha Hrd.
  pose proof (encode_request_length r Hr) as Hlen.
  pose proof (is_msg_len _ _ _ _ _ _ Hm) as Hn.
  destruct (send_is_msg be _ _ _ _ _ Hm Hlen) as [r1 E1]; [lia|].
  pose proof (complete_bound _ _ _ Hc) as Hb. rewrite adu_length, max_adu_eq in Hb.
  destruct (receive_complete MSG_CONFIRMATION b p (f :: data) more (uninit MAX_MESSAGE_LENGTH) st')
    as (st'' & Hrd' & Hset & Hout & E2); [done|lia|done| |done|done|].
  { rewrite zlen_uninit by done. apply max_adu_le. }
  exists st'', (drop (length (frame b p (f :: data))) (uninit MAX_MESSAGE_LENGTH)).
  do 3 (split; [done|]). unfold exchange.
  erewrite bind_ret_eq by (rewrite E1; by erewrite bind_ret_eq by exact Hsend).
  cbn beta iota. rewrite (proj2 (Z.ltb_lt _ _)) by apply frame_pos.
  erewrite bind_ret_eq by exact E2. cbn beta iota.
  pose proof (frame_pos b p (f :: data)). rewrite (proj2 (Z.eqb_neq _ _)) by lia.
  apply bind_eq. fold (received be q (encode_request r) r1).
  etransitivity; [by apply (check_confirmation_eq be q r1 r Hr p f data)|].
  unfold conclude. by destruct (mismatch q p).
Qed.
End transactions.

(** ** Properties of the client's side *)

(** C6: [check_confirmation] accepts exactly the answers to the request. Given
    the frame of a request and any complete confirmation frame, it rejects a
    frame with another transaction (TCP) or slave (serial), and otherwise
    returns the number of values of a valid answer, turns an exception into the
    matching [errno], and refuses everything else. *)
Theorem check_confirmation_decides {W} `{OS W} {FU : Fuel} {BC : BuildConfig} {SO : StreamOS W}
    b q r rest p f data rest' (st : state W) :
  wf_request r -> Forall is_u8 (f :: data) ->
  complete (backend_of b) MSG_CONFIRMATION (adu (be := backend_of b) p (f :: data)) ->
  check_confirmation (backend_of b)
    ((Some <$> adu (be := backend_of b) q (encode_request r)) ++ rest)
    ((Some <$> adu (be := backend_of b) p (f :: data)) ++ rest')
    (zlen (adu (be := backend_of b) p (f :: data))) st
  = conclude b q p r (f :: data) st.
Proof.
  intros Hr Hu Hc. etransitivity; [by apply (check_confirmation_eq (backend_of b) q rest r Hr p f data)|].
  unfold conclude. by destruct (mismatch q p).
Qed.

(** Every request of a TCP client carries the next transaction identifier,
    modulo 65536, in its first two bytes, and the context keeps it; an answer to
    the previous request is rejected. *)
Theorem tcp_requests_are_numbered {W} `{OS W} {FU : Fuel} {BC : BuildConfig} t f a n req (st : state W) :
  t_id (ctx st) = Some t -> is_u16 t -> 12 <= zlen req ->
  exists req' st', _modbus_tcp_build_request_basis f a n req st = Ret (12, req') st' /\
    t_id (ctx st') = Some ((t + 1) mod 65536) /\
    take 2 req' = [Some (hi8 ((t + 1) mod 65536)); Some (lo8 ((t + 1) mod 65536))] /\
    (forall p pdu rest k, sft_t_id p = t ->
       _modbus_tcp_pre_check_confirmation req' ((Some <$> tcp_adu p pdu) ++ rest) k st' = err EMBBADDATA st').
Proof.
  intros Ht Hu Hl.
  destruct (tcp_request_basis_eq (W := W) (ctx st) f a n req) as (h & r & (x & y & Eh) & _ & E); [by eexists|done|].
  exists (h ++ (Some <$> (u8 f :: word_bytes a ++ word_bytes n)) ++ r).
  exists (State (errno st) (hp st) (tcp_after (ctx st)) (world st)).
  split; [by apply E|]. unfold tcp_after. subst h. unfold tcp_next. cbn [sft_t_id]. rewrite Ht.
  change (default 0 (Some t)) with t. set (u := (t + 1) mod 65536).
  assert (next_t_id t = u) as ->.
  { unfold u, next_t_id, UINT16_MAX, is_u16 in *. destruct (Z.ltb_spec t 65535); zdiv. }
  split_and!.
  - cbn [ctx]. by rewrite t_id_with by (by rewrite Ht).
  - done.
  - intros p pdu rest k Hp. unfold _modbus_tcp_pre_check_confirmation.
    do 2 (erewrite bind_ret_eq by (by apply rd_eq)). rewrite Hp.
    destruct (hi8 u =? hi8 t); cbn [negb]; [|done].
    rewrite bind_assoc. erewrite bind_ret_eq by (by apply rd_eq).
    rewrite bind_assoc. erewrite bind_ret_eq by (by apply rd_eq). rewrite Hp.
    rewrite (proj2 (Z.eqb_neq (lo8 u) (lo8 t))); [done|].
    rewrite !lo8_mod. unfold u, is_u16 in *. zdiv.
Qed.

(** ** The theorems on concrete inputs *)
Definition asked_tcp : state pipe := start (tcp_ctx 17) {| rx := []; tx := []; chunk := 3 |}.
Definition asked_sft : sft_t := {| sft_slave := 17; sft_function := 0; sft_t_id := 513 |}.
Definition asked_frame : list Z := [2; 1; 0; 0; 0; 6; 17; 3; 0; 100; 0; 2].

Lemma check_confirmation_decides_witness :
  check_confirmation (backend_of TCP_BACKEND) (Some <$> asked_frame)
    (Some <$> [2; 1; 0; 0; 0; 7; 17; 3; 4; 0; 7; 0; 8]) 13 asked_tcp = Ret 2 asked_tcp /\
  check_confirmation (backend_of TCP_BACKEND) (Some <$> asked_frame)
    (Some <$> [2; 1; 0; 0; 0; 3; 17; 131; 2]) 9 asked_tcp
  = Ret (-1) (State EMBXILADD (hp asked_tcp) (ctx asked_tcp) (world asked_tcp)).
Proof.
  assert (Hr : wf_request (ReadRegisters false 100 2)) by (cbn; unfold is_u16; lia).
  split.
  - pose proof (check_confirmation_decides (W := pipe) TCP_BACKEND asked_sft (ReadRegisters false 100 2) []
      asked_sft 3 [4; 0; 7; 0; 8] [] asked_tcp Hr) as E.
    refine (eq_trans (E _ _) _); [repeat constructor; unfold is_u8; lia| |reflexivity].
    split; [reflexivity|vm_compute; discriminate|apply adu_u8; repeat constructor; unfold is_u8; lia].
  - pose proof (check_confirmation_decides (W := pipe) TCP_BACKEND asked_sft (ReadRegisters false 100 2) []
      asked_sft 131 [2] [] asked_tcp Hr) as E.
    refine (eq_trans (E _ _) _); [repeat constructor; unfold is_u8; lia| |reflexivity].
    split; [reflexivity|vm_compute; discriminate|apply adu_u8; repeat constructor; unfold is_u8; lia].
Defined.

Lemma tcp_requests_are_numbered_witness :
  exists req' st', _modbus_tcp_build_request_basis 3 100 2 (uninit 12) asked_tcp = Ret (12, req') st' /\
    t_id (ctx st') = Some 1 /\ take 2 req' = [Some 0; Some 1].
Proof.
  destruct (tcp_requests_are_numbered (W := pipe) 0 3 100 2 (uninit 12) asked_tcp) as (req' & st' & E & Et & Ereq & _);
    [done|unfold is_u16; lia|done|]. exists req', st'. split_and!; [exact E|exact Et|exact Ereq].
Defined.
