(* ===== verification/EndToEnd.v ===== *)
(** The whole system: a client of this library whose requests reach a server.
    The interface [Peer] says what a server's end of the line does; every call
    of the client then has the effect the protocol specification gives to its
    request. *)
From S2P Require Import Prelude Platform Data Crc Backend Rtu Tcp Core Framing Receive Mapping Reply Spec Bits ReplyProofs Wire Client Confirm Loopback Server Master Requests.
#[local] Open Scope Z_scope.

(** ** The specification's answers *)

(** Coils are bits and registers fit 16 bits. *)
Definition store_ok (s0 : store) : Prop := forall x v,
  (coils s0 x = Some v -> is_bit v) /\ (inputs s0 x = Some v -> is_bit v) /\
  (holding s0 x = Some v -> is_u16 v) /\ (input_regs s0 x = Some v -> is_u16 v).

Lemma read_range_Forall (Q : Z -> Prop) f a n l :
  (forall x v, f x = Some v -> Q v) -> read_range f a n = Some l -> Forall Q l.
Proof.
  intros Hf Hl. apply mapM_Some in Hl. apply Forall_lookup. intros i v Hv.
  destruct (Forall2_lookup_r _ _ _ _ _ Hl Hv) as (x & _ & Hx). eauto.
Qed.

Lemma exec_exception s0 r code : snd (exec s0 r) = Exception code -> code = 2 \/ code = 3.
Proof.
  destruct r as [? ? ?|? ? ?|? ?|? ?|? ? ?|? ? ?| |? ? ?|? ? ? ? ?]; cbn [exec]; intros E;
    repeat first [ match type of E with context [match ?x with _ => _ end] => destruct x end
                 | injection E as <-; auto | discriminate E ].
Qed.

Lemma write_range_ok v a l : (forall x w, v x = Some w -> is_u16 w) -> Forall is_u16 l ->
  forall x w, write_range v a l x = Some w -> is_u16 w.
Proof.
  intros Hv Hl x w. unfold write_range. destruct (_ && _); [|apply Hv].
  intros E. by eapply Forall_lookup_1 in E.
Qed.

(** The data of a normal answer, by kind of request. *)
Lemma answer_values s0 r data : store_ok s0 -> wf_request r -> snd (exec s0 r) = Normal data ->
  match r with
  | ReadBits b a n => 1 <= n <= 2000 /\ exists bits, zlen bits = n /\ Forall is_bit bits /\
      read_range (if b then inputs s0 else coils s0) a n = Some bits /\ data = bytes_for n :: pack_bits bits
  | ReadRegisters b a n => 1 <= n <= 125 /\ exists ws, zlen ws = n /\ Forall is_u16 ws /\
      read_range (if b then input_regs s0 else holding s0) a n = Some ws /\ data = 2 * n :: words_bytes ws
  | WriteRead a n wa _ k => 1 <= n <= 125 /\ exists ws, zlen ws = n /\ Forall is_u16 ws /\
      read_range (write_range (holding s0) wa k) a n = Some ws /\ data = 2 * n :: words_bytes ws
  | _ => True
  end.
Proof.
  intros Hs Hr E. pose proof (answer_shape s0 r data E) as Hsh.
  destruct r as [b a n|b a n|? ?|? ?|? n ?|? n ?| |? ? ?|a n wa wn ws]; try done; cbn [exec] in E.
  - destruct ((n <? 1) || (2000 <? n)); [done|]. destruct Hsh as [Hn _]. split; [done|].
    destruct (read_range _ a n) as [l|] eqn:El; [|done]. injection E as <-.
    assert (zlen l = n) by (eapply read_range_length; [|exact El]; lia). exists l. split_and!; try done.
    eapply read_range_Forall; [|exact El]. intros x v. destruct b; apply (Hs x v).
  - destruct ((n <? 1) || (125 <? n)); [done|]. destruct Hsh as [Hn _]. split; [done|].
    destruct (read_range _ a n) as [l|] eqn:El; [|done]. injection E as <-.
    assert (zlen l = n) by (eapply read_range_length; [|exact El]; lia). exists l. split_and!; try done.
    eapply read_range_Forall; [|exact El]. intros x v. destruct b; apply (Hs x v).
  - destruct (_ || negb _); [done|]. destruct Hsh as [Hn _]. split; [done|].
    destruct (read_range (holding s0) a n), (read_range (holding s0) wa wn); try done.
    cbn [with_holding holding] in E.
    destruct (read_range (write_range _ _ _) a n) as [vs|] eqn:El; [|done]. injection E as <-.
    assert (zlen vs = n) by (eapply read_range_length; [|exact El]; lia). exists vs. split_and!; try done.
    eapply read_range_Forall; [|exact El]. apply write_range_ok; [|by apply Hr].
    intros x v. apply (Hs x v).
Qed.

Lemma encode_answer_u8 s0 r : store_ok s0 -> wf_request r ->
  Forall is_u8 (encode_answer r (snd (exec s0 r))).
Proof.
  intros Hs Hr. pose proof (function_code_range r) as Hf. destruct (snd (exec s0 r)) as [code|data] eqn:E.
  - apply exec_exception in E. cbn [encode_answer]. repeat constructor; unfold is_u8; lia.
  - pose proof (answer_values s0 r data Hs Hr E) as Hv. apply answer_shape in E. cbn [encode_answer].
    constructor; [unfold is_u8; lia|].
    destruct r as [b a n|b a n|? ?|? ?|? n ?|? n ?| |? ? ?|a n wa wn ws].
    + destruct Hv as (Hn & bits & _ & Hb & _ & ->). constructor; [|by apply pack_bits_u8].
      unfold is_u8. rewrite bytes_for_div by lia. zdiv.
    + destruct Hv as (Hn & ws & _ & _ & _ & ->). constructor; [unfold is_u8; lia|apply words_bytes_u8].
    + subst data. apply Forall_app. split; apply word_bytes_u8.
    + subst data. apply Forall_app. split; apply word_bytes_u8.
    + subst data. apply Forall_app. split; apply word_bytes_u8.
    + subst data. apply Forall_app. split; apply word_bytes_u8.
    + subst data. by repeat (constructor; [unfold is_u8; lia|]).
    + subst data. do 2 (apply Forall_app; split; [apply word_bytes_u8|]). apply word_bytes_u8.
    + destruct Hv as (Hn & l & _ & _ & _ & ->). constructor; [unfold is_u8; lia|apply words_bytes_u8].
Qed.

(** The client takes every answer of the specification for what it is. *)
Lemma judge_answer s0 r : store_ok s0 -> wf_request r ->
  judge r (encode_answer r (snd (exec s0 r))) =
    match snd (exec s0 r) with
    | Exception code => Refused (MODBUS_ENOBASE + code)
    | Normal _ => Accepted (count r)
    end.
Proof.
  intros Hs Hr. pose proof (function_code_range r) as Hf.
  destruct (snd (exec s0 r)) as [code|data] eqn:E; cbn [encode_answer judge].
  - apply exec_exception in E. rewrite (proj2 (Z.leb_le _ _)), Z.eqb_refl by lia. cbn [andb].
    by rewrite (proj2 (Z.ltb_lt _ _)) by (unfold MODBUS_EXCEPTION_MAX; lia).
  - rewrite (proj2 (Z.leb_gt _ _)), Z.eqb_refl by lia. apply answer_shape in E.
    destruct r as [b a n|b a n|? ?|? ?|? n ?|? n ?| |? ? ?|a n wa wn ws]; cbn [answered count wf_request] in *.
    + destruct E as (_ & bits & _ & ->). by rewrite Z.eqb_refl.
    + destruct E as (_ & bits & _ & ->). by rewrite Z.eqb_refl.
    + done.
    + done.
    + subst data. cbn [word_bytes app]. by rewrite be16_split, Z.eqb_refl by apply Hr.
    + subst data. cbn [word_bytes app]. by rewrite be16_split, Z.eqb_refl by apply Hr.
    + by subst data.
    + done.
    + destruct E as (_ & bits & _ & ->). by rewrite Z.eqb_refl.
Qed.

(** ** The far end *)
#[local] Abbreviation frame b := (adu (be := backend_of b)).

(** What a server does for a client on the backend [b]: it stands for address
    spaces, and each request it [serves] is answered, at once and in full, as
    the specification says. *)
Class Peer {W} `{OS W} {FU : Fuel} {EF : EnoughFuel} {BC : BuildConfig} {SO : StreamOS W}
    (b : backend_id) := {
  peer_ok : far_side -> Prop;
  peer_store : far_side -> store;
  (** frames for this slave and transaction get there *)
  reaches : far_side -> sft_t -> Prop;
  serves : far_side -> sft_t -> request -> Prop;
  peer_store_ok : forall k, peer_ok k -> store_ok (peer_store k);
  peer_serves : forall st q r, ready (be := backend_of b) st [] -> peer_ok (outgoing (world st)) ->
    wf_request r -> reaches (outgoing (world st)) q -> serves (outgoing (world st)) q r ->
    let ex := exec (peer_store (outgoing (world st))) r in
    exists st', send_frame (backend_of b) (frame b q (encode_request r)) st
        = Ret (zlen (frame b q (encode_request r))) st' /\
      ready (be := backend_of b) st' (frame b q (encode_answer r (snd ex))) /\
      ctx st' = ctx st /\ peer_ok (outgoing (world st')) /\
      ((forall q', reaches (outgoing (world st)) q' -> reaches (outgoing (world st')) q') /\
       forall q' r', serves (outgoing (world st)) q' r' -> serves (outgoing (world st')) q' r') /\
      store_equiv (peer_store (outgoing (world st'))) (fst ex)
}.

Section transaction.
Context {W : Type} `{OS W} {FU : Fuel} {EF : EnoughFuel} {BC : BuildConfig} {SO : StreamOS W}.
Context (b : backend_id) {PR : Peer b}.
#[local] Notation be := (backend_of (W := W) b).

(** A client at rest: its context can make requests, nothing is on the line, and
    the far end is in order. *)
Record online (st : state W) : Prop := {
  online_backend : backend (ctx st) = b;
  online_usable : usable (be := be) (ctx st);
  online_slave : is_u8 (slave (ctx st));
  online_ready : ready (be := be) st [];
  online_peer : peer_ok (outgoing (world st))
}.
Definition remote (st : state W) : store := peer_store (outgoing (world st)).
(** What reaches the far end of [st] and is served there still is in [st']. *)
Definition still_reached (st st' : state W) : Prop :=
  (forall q, reaches (outgoing (world st)) q -> reaches (outgoing (world st')) q) /\
  forall q r, serves (outgoing (world st)) q r -> serves (outgoing (world st')) q r.

Lemma ready_errno e (st : state W) l : ready (be := be) st l ->
  ready (be := be) (State e (hp st) (ctx st) (world st)) l.
Proof. by destruct b. Qed.
Lemma ready_after (st : state W) l e : ready (be := be) st l ->
  ready (be := be) (State e (hp st) (after_request (be := be) (ctx st)) (world st)) l.
Proof. by destruct b. Qed.

Lemma accepts_own (c : modbus_t) : is_u8 (slave c) -> accepts (be := be) c (next_sft (be := be) c).
Proof. intros Hs. destruct b; [|done..]. left. cbn. by apply u8_id. Qed.
Lemma accepts_slave (c c' : modbus_t) q : slave c' = slave c -> accepts (be := be) c q -> accepts (be := be) c' q.
Proof. intros E. destruct b; [|done..]. cbn. unfold rtu_accepts. by rewrite E. Qed.
Lemma after_slave c : slave (after_request (be := be) c) = slave c.
Proof. destruct b; [done|apply slave_with..]. Qed.
Lemma after_backend c : backend (after_request (be := be) c) = backend c.
Proof. destruct b; [done|..]; cbn; unfold tcp_after, with_t_id; by destruct (backend_data c). Qed.

Lemma usable_settings c c' : same_settings c c' -> usable (be := be) c -> usable (be := be) c'.
Proof.
  intros [Hm Hd]. pose proof (same_settings_slave _ _ (conj Hm Hd)) as Hs.
  destruct b; cbn; unfold rtu_usable, tcp_usable, t_id, same_data in *; [by rewrite Hs|..].
  all: destruct (backend_data c), (backend_data c'); by intros [].
Qed.
Lemma after_usable c : usable (be := be) c -> usable (be := be) (after_request (be := be) c).
Proof. destruct b; [done|..]; intros Hu; cbn in *; unfold tcp_usable, tcp_after; by rewrite t_id_with. Qed.

(** One request: the far end executes it, and the client learns the answer. *)
Lemma transaction size r req n (st : state W) : let c := ctx st in let q := next_sft (be := be) c in
  let ex := exec (remote st) r in
  online st -> wf_request r -> reaches (outgoing (world st)) q -> serves (outgoing (world st)) q r ->
  is_msg be size q (encode_request r) req n -> n + checksum_length be <= size ->
  let st1 := State (errno st) (hp st) (after_request (be := be) c) (world st) in
  exists st', online st' /\ store_equiv (remote st') (fst ex) /\
    same_settings (after_request (be := be) c) (ctx st') /\ still_reached st st' /\
    match snd ex with
    | Normal data => exists rest,
        exchange be req n st1 = Ret (count r, Some (received be q (function_code r :: data) rest)) st'
    | Exception code => exchange be req n st1 = Ret (-1, None) st' /\ errno st' = MODBUS_ENOBASE + code
    end.
Proof.
  intros c q ex [Hb Hu Hsl Hrd Hpk] Hr Hq Hsv Hm Hsz st1.
  destruct (peer_serves st1 q r) as (st2 & Hsend & Hrd2 & Hctx & Hpk2 & Hreach & Heq);
    [by apply ready_after|done|done|done|done|]. cbn [world st1] in *. fold (remote st) in *. fold ex in Hrd2, Heq.
  pose proof (peer_store_ok _ Hpk) as Hok.
  pose proof (encode_answer_u8 _ r Hok Hr) as Hau. fold (remote st) in Hau.
  pose proof (judge_answer _ r Hok Hr) as Hj. fold (remote st) in Hj. fold ex in Hau, Hj.
  pose proof (complete_answer be q (remote st) r) as Hca. fold ex in Hca. specialize (Hca Hau).
  destruct (encode_answer r (snd ex)) as [|f data] eqn:Ee; [by destruct (snd ex)|].
  rewrite <- (app_nil_r (frame b q (f :: data))) in Hrd2.
  destruct (exchange_eq b size q r req n Hm Hsz Hr st1 st2 q f data [] Hsend Hau Hca)
    as (st3 & rest & Hrd3 & Hset & Hout & E).
  { apply (accepts_slave c); [by rewrite Hctx; apply after_slave|by apply accepts_own]. }
  { exact Hrd2. }
  rewrite Hctx in Hset. cbn [ctx st1] in Hset.
  assert (Hon : forall e, online (State e (hp st3) (ctx st3) (world st3))).
  { intros e. split; cbn [ctx world].
    - by rewrite (same_settings_backend _ _ Hset), after_backend.
    - eapply usable_settings; [exact Hset|by apply after_usable].
    - by rewrite (same_settings_slave _ _ Hset), after_slave.
    - by apply ready_errno.
    - by rewrite Hout. }
  unfold conclude in E. rewrite mismatch_refl, Hj in E. unfold remote, still_reached in *.
  rewrite <- Hout in Heq, Hreach.
  destruct (snd ex) as [code|data'] eqn:Ex; cbn [act_on] in E.
  - exists (State (MODBUS_ENOBASE + code) (hp st3) (ctx st3) (world st3)). do 4 (split; [first [apply Hon|done]|]).
    split; [|done]. rewrite E. reflexivity.
  - exists st3. split; [by destruct st3; apply Hon|]. do 3 (split; [done|]).
    cbn [encode_answer] in Ee. injection Ee as <- <-. exists rest. rewrite E.
    erewrite bind_ret_eq by reflexivity. rewrite (proj2 (Z.eqb_neq _ _)); [done|].
    enough (0 <= count r) by lia.
    apply answer_shape in Ex. destruct r; cbn [count wf_request] in *; unfold is_u16 in *; try lia.
    rewrite bytes_for_div by lia. zdiv.
Qed.

Lemma get_backend_eq (st : state W) : online st -> get_backend st = Ret be st.
Proof. intros Ho. unfold get_backend, bind, get_ctx, ret. by rewrite (online_backend _ Ho). Qed.

(** What a call that returns [res ans] for the answer [ans] has done. *)
Definition done_with {A} (r : request) (st : state W) (res : answer -> A) (m : P W A) (st0 : state W) : Prop :=
  let ex := exec (remote st) r in
  exists st', m st0 = Ret (res (snd ex)) st' /\ online st' /\ store_equiv (remote st') (fst ex) /\
    same_settings (after_request (be := be) (ctx st)) (ctx st') /\ still_reached st st' /\
    (forall code, snd ex = Exception code -> errno st' = MODBUS_ENOBASE + code).

Lemma transact {A} size r req n (st : state W) (k : Z * option buf -> P W A) (res : answer -> A) :
  let q := next_sft (be := be) (ctx st) in let ex := exec (remote st) r in
  online st -> wf_request r -> reaches (outgoing (world st)) q -> serves (outgoing (world st)) q r ->
  is_msg be size q (encode_request r) req n -> n + checksum_length be <= size ->
  (forall data rest st', snd ex = Normal data ->
     k (count r, Some (received be q (function_code r :: data) rest)) st' = Ret (res (Normal data)) st') ->
  (forall code st', k (-1, None) st' = Ret (res (Exception code)) st') ->
  done_with r st res (bind (exchange be req n) k)
    (State (errno st) (hp st) (after_request (be := be) (ctx st)) (world st)).
Proof.
  intros q ex Ho Hr Hq Hsv Hm Hsz Hn He.
  destruct (transaction size r req n st Ho Hr Hq Hsv Hm Hsz) as (st' & Hon & Heq & Hset & Hst & E).
  exists st'. fold ex in Heq, E |- *. split; [|do 4 (split; [done|])].
  - destruct (snd ex) as [code|data] eqn:Ex.
    + destruct E as [E _]. erewrite bind_ret_eq by exact E. apply He.
    + destruct E as [rest E]. erewrite bind_ret_eq by exact E. by apply Hn.
  - intros code Ex. rewrite Ex in E. apply E.
Qed.

Lemma header_checksum : 1 <= header_length be /\ 0 <= checksum_length be /\
  header_length be + checksum_length be <= 7.
Proof.
  pose proof (max_adu_eq (be := be)). pose proof (max_adu_le (be := be)).
  pose proof (header_bounds (be := be)). pose proof (checksum_bounds (be := be)).
  unfold MAX_MESSAGE_LENGTH in *. lia.
Qed.
End transaction.

(** ** The calls of a client *)
Inductive call :=
  | CallReadBits (is_input : bool) (addr nb : Z) (dest : list Z)
  | CallReadRegisters (is_input : bool) (addr nb : Z) (dest : list Z)
  | CallWriteBit (addr status : Z)
  | CallWriteRegister (addr value : Z)
  | CallWriteBits (addr nb : Z) (src : list Z)
  | CallWriteRegisters (addr nb : Z) (src : list Z)
  | CallMaskWrite (addr and_mask or_mask : Z)
  | CallWriteAndRead (write_addr write_nb : Z) (src : list Z) (read_addr read_nb : Z) (dest : list Z)
  | CallReportSlaveId (max_dest : Z) (dest : list Z).

(** The function of the library, with the array it fills. *)
Definition perform {W} `{OS W} {FU : Fuel} {BC : BuildConfig} (c : call) : P W (Z * list Z) :=
  match c with
  | CallReadBits false a n dest => modbus_read_bits CTX a n dest
  | CallReadBits true a n dest => modbus_read_input_bits CTX a n dest
  | CallReadRegisters false a n dest => modbus_read_registers CTX a n dest
  | CallReadRegisters true a n dest => modbus_read_input_registers CTX a n dest
  | CallWriteBit a v => let* rc := modbus_write_bit CTX a v in ret (rc, [])
  | CallWriteRegister a v => let* rc := modbus_write_register CTX a v in ret (rc, [])
  | CallWriteBits a n src => let* rc := modbus_write_bits CTX a n src in ret (rc, [])
  | CallWriteRegisters a n src => let* rc := modbus_write_registers CTX a n src in ret (rc, [])
  | CallMaskWrite a am om => let* rc := modbus_mask_write_register CTX a am om in ret (rc, [])
  | CallWriteAndRead wa wn src a n dest => modbus_write_and_read_registers CTX wa wn src a n dest
  | CallReportSlaveId m dest => modbus_report_slave_id CTX m dest
  end.

(** The request it stands for. *)
Definition as_request (c : call) : request :=
  match c with
  | CallReadBits i a n _ => ReadBits i a n
  | CallReadRegisters i a n _ => ReadRegisters i a n
  | CallWriteBit a v => WriteCoil a (if v =? 0 then 0 else 65280)
  | CallWriteRegister a v => WriteRegister a v
  | CallWriteBits a n src => WriteCoils a n (pack_bits (coil_of <$> take (Z.to_nat n) src))
  | CallWriteRegisters a n src => WriteRegisters a n (take (Z.to_nat n) src)
  | CallMaskWrite a am om => MaskWrite a am om
  | CallWriteAndRead wa wn src a n _ => WriteRead a n wa wn (take (Z.to_nat wn) src)
  | CallReportSlaveId _ _ => ReportSlaveId
  end.

(** The arguments are in range and the arrays are large enough. *)
Definition valid (c : call) : Prop :=
  match c with
  | CallReadBits _ a n dest => is_u16 a /\ 0 <= n <= 2000 /\ n <= zlen dest
  | CallReadRegisters _ a n dest => is_u16 a /\ 0 <= n <= 125 /\ n <= zlen dest
  | CallWriteBit a _ => is_u16 a
  | CallWriteRegister a v => is_u16 a /\ is_u16 v
  | CallWriteBits a n src => is_u16 a /\ 0 <= n <= 1968 /\ n <= zlen src
  | CallWriteRegisters a n src => is_u16 a /\ 0 <= n <= 123 /\ n <= zlen src /\ Forall is_u16 src
  | CallMaskWrite a am om => is_u16 a /\ is_u16 am /\ is_u16 om
  | CallWriteAndRead wa wn src a n dest =>
      is_u16 wa /\ 0 <= wn <= 121 /\ wn <= zlen src /\ Forall is_u16 src /\
      is_u16 a /\ 0 <= n <= 125 /\ n <= zlen dest
  | CallReportSlaveId m dest => 0 < m /\ Z.min 24 m <= zlen dest
  end.

(** Bytes as registers, high byte first. *)
Fixpoint bytes_words (l : list Z) : list Z :=
  match l with h :: l :: rest => be16 h l :: bytes_words rest | _ => [] end.
Lemma bytes_words_bytes ws : Forall is_u16 ws -> bytes_words (words_bytes ws) = ws.
Proof.
  induction 1 as [|w ws Hw _ IH]; [done|].
  change (words_bytes (w :: ws)) with (hi8 w :: lo8 w :: words_bytes ws). cbn [bytes_words].
  by rewrite be16_split, IH by done.
Qed.

(** What it returns: the value, and the array afterwards. *)
Definition result (c : call) (ans : answer) : Z * list Z :=
  match c, ans with
  | (CallReadBits _ _ _ dest | CallReadRegisters _ _ _ dest | CallWriteAndRead _ _ _ _ _ dest
     | CallReportSlaveId _ dest), Exception _ => (-1, dest)
  | _, Exception _ => (-1, [])
  | CallReadBits _ _ n dest, Normal data => (n, splice dest 0 (unpack_bits n (tail data)))
  | (CallReadRegisters _ _ n dest | CallWriteAndRead _ _ _ _ n dest), Normal data =>
      (n, splice dest 0 (bytes_words (tail data)))
  | (CallWriteBit _ _ | CallWriteRegister _ _ | CallMaskWrite _ _ _), Normal _ => (1, [])
  | (CallWriteBits _ n _ | CallWriteRegisters _ n _), Normal _ => (n, [])
  | CallReportSlaveId m dest, Normal data => (24, splice dest 0 (take (Z.to_nat m) (tail data)))
  end.

Lemma valid_wf c : valid c -> wf_request (as_request c).
Proof.
  destruct c as [i a n dest|i a n dest|a v|a v|a n src|a n src|a am om|wa wn src a n dest|m dest];
    cbn; unfold is_u16; intros Hv; try tauto.
  - lia.
  - lia.
  - split; [done|]. destruct (v =? 0); lia.
  - destruct Hv as (? & ? & ?).
    assert (Hz : zlen (coil_of <$> take (Z.to_nat n) src) = n)
      by (unfold zlen in *; rewrite length_fmap, length_take; lia).
    split_and!; try lia; [apply pack_bits_u8, coil_of_bit|..]; rewrite zlen_pack_bits, Hz, bytes_for_div by lia; zdiv.
  - destruct Hv as (? & ? & ? & ?). split_and!; try lia; [by apply Forall_take|..];
      unfold zlen in *; rewrite length_take; lia.
  - destruct Hv as (? & ? & ? & ? & ? & ? & ?). split_and!; try lia; [by apply Forall_take|].
    unfold zlen in *; rewrite length_take; lia.
Qed.
