(* ===== verification/Calls.v ===== *)
(** Every call of the client against a [Peer]: it has the effect of its request
    on the remote address spaces and returns what the answer says. *)
From S2P Require Import Prelude Platform Data Backend Core Framing Receive Mapping Reply Spec Bits ReplyProofs Wire Client Confirm Loopback Server Master Requests EndToEnd.
#[local] Open Scope Z_scope.

Lemma zlen_take {A} (l : list A) n : 0 <= n <= zlen l -> zlen (take (Z.to_nat n) l) = n.
Proof. unfold zlen. intros. rewrite length_take. lia. Qed.
Lemma coils_length n src : 0 <= n <= zlen src ->
  zlen (pack_bits (coil_of <$> take (Z.to_nat n) src)) = bytes_for n.
Proof. intros Hn. by rewrite zlen_pack_bits, zlen_fmap, zlen_take. Qed.

Section calls.
Context {W : Type} `{OS W} {FU : Fuel} {EF : EnoughFuel} {BC : BuildConfig} {SO : StreamOS W}.
Context (b : backend_id) {PR : Peer b}.
#[local] Notation be := (backend_of (W := W) b).
Context (st : state W) (Ho : online b st).
#[local] Notation q := (next_sft (be := be) (ctx st)).
#[local] Notation st1 := (State (errno st) (hp st) (after_request (be := be) (ctx st)) (world st)).

Lemma done_with_eq {A} r (res : answer -> A) (m m' : P W A) s s' :
  m s = m' s' -> done_with b r st res m' s' -> done_with b r st res m s.
Proof. intros E (st' & Em & Hrest). exists st'. by rewrite E. Qed.

(** The call starts by building the header and the first two fields. *)
Lemma begin_done {A} size f a n k r (res : answer -> A) (m : P W A) : is_u8 f -> 12 <= size ->
  m st = bind (build_request_basis be f a n (uninit size)) k st ->
  (forall req, is_msg be size q (f :: word_bytes a ++ word_bytes n) req (header_length be + 5) ->
     done_with b r st res (k (header_length be + 5, req)) st1) ->
  done_with b r st res m st.
Proof.
  intros Hf Hs E Hk. destruct (start_request b (ctx st) size f a n (online_usable _ _ Ho) Hf Hs) as (req & Hm & Eb).
  eapply done_with_eq; [|by apply (Hk req)]. rewrite E. by erewrite bind_ret_eq by (by apply Eb).
Qed.

(** A store into the request. *)
Lemma put_done {A} size pdu req n v k r (res : answer -> A) (m : P W A) s :
  is_msg be size q pdu req n -> n < size -> m s = bind (wr req n v) k s ->
  (forall req', is_msg be size q (pdu ++ [u8 v]) req' (n + 1) -> done_with b r st res (k req') s) ->
  done_with b r st res m s.
Proof.
  intros Hm Hn E Hk. destruct (is_msg_wr be _ _ _ _ _ v Hm Hn) as (req' & Hm' & Ew).
  eapply done_with_eq; [|by apply (Hk req')]. rewrite E. by erewrite bind_ret_eq by (by apply Ew).
Qed.

Context (c : call) (Hv : valid c) (Hq : reaches (outgoing (world st)) q) (Hsv : serves (outgoing (world st)) q (as_request c)).

Lemma read_bits_call i a n dest : c = CallReadBits i a n dest ->
  done_with b (as_request c) st (result c) (perform c) st.
Proof.
  intros ->. pose proof (valid_wf _ Hv) as Hwf. destruct Hv as (_ & Hn & Hd). pose proof (header_checksum b).
  set (f := if i then 2 else 1).
  eapply (begin_done 12 f a n); [by destruct i|done| |].
  { transitivity (read_bits_with be f a n dest st).
    - by destruct i; cbn [perform]; unfold modbus_read_bits, modbus_read_input_bits;
        erewrite bind_ret_eq by (by apply (get_backend_eq b st Ho)).
    - unfold read_bits_with. rewrite (proj2 (Z.ltb_ge _ _)) by (unfold MODBUS_MAX_READ_BITS; lia).
      unfold read_io_status. by rewrite bind_assoc. }
  intros req Hm. cbn beta iota.
  eapply done_with_eq; [by apply bind_assoc|].
  eapply (transact b 12); try done; [lia|].
  intros data rest st' Ea. cbn beta iota.
    destruct (answer_values _ _ _ (peer_store_ok _ (online_peer _ _ Ho)) Hwf Ea) as (_ & bits & Hz & _ & _ & ->).
    cbn [as_request count]. rewrite bind_assoc. erewrite bind_ret_eq.
    2: { apply extract_bits_eq; [by rewrite zlen_pack_bits, Hz|lia]. }
    cbn beta iota. erewrite bind_ret_eq by reflexivity. cbn beta iota.
    rewrite (proj2 (Z.eqb_neq _ _)); [done|]. rewrite bytes_for_div by lia. zdiv.
Qed.

Lemma read_registers_call i a n dest : c = CallReadRegisters i a n dest ->
  done_with b (as_request c) st (result c) (perform c) st.
Proof.
  intros ->. pose proof (valid_wf _ Hv) as Hwf. destruct Hv as (_ & Hn & Hd). pose proof (header_checksum b).
  set (f := if i then 4 else 3).
  eapply (begin_done 12 f a n); [unfold f, is_u8; destruct i; lia|done| |].
  { transitivity (read_registers be f a n dest st).
    - destruct i; cbn [perform]; unfold modbus_read_registers, modbus_read_input_registers;
        rewrite (proj2 (Z.ltb_ge _ _)) by (unfold MODBUS_MAX_READ_REGISTERS; lia);
        by erewrite bind_ret_eq by (by apply (get_backend_eq b st Ho)).
    - unfold read_registers. by rewrite (proj2 (Z.ltb_ge _ _)) by (unfold MODBUS_MAX_READ_REGISTERS; lia). }
  intros req Hm. cbn beta iota.
  eapply (transact b 12); try done; [lia|].
  intros data rest st' Ea. cbn beta iota.
  destruct (answer_values _ _ _ (peer_store_ok _ (online_peer _ _ Ho)) Hwf Ea) as (_ & ws & <- & Hu & _ & ->).
  cbn [as_request count]. erewrite bind_ret_eq by (by apply extract_registers_eq).
  unfold ret, result. cbn [tail]. by rewrite bytes_words_bytes.
Qed.

(** Requests whose confirmation carries no values. *)
Lemma acknowledge size req n r (v : Z) :
  as_request c = r -> is_msg be size q (encode_request r) req n -> n + checksum_length be <= size ->
  count r = v -> (forall d, result c (Normal d) = (v, [])) -> (forall e, result c (Exception e) = (-1, [])) ->
  done_with b r st (result c) (let* rc := exchange_ack be req n in ret (rc, [])) st1.
Proof.
  intros <- Hm Hs Hc Hn He. pose proof (valid_wf _ Hv) as Hwf. unfold exchange_ack.
  eapply done_with_eq; [by apply bind_assoc|].
  eapply (transact b size); try done.
  - intros data rest st' _. cbn beta iota. erewrite bind_ret_eq by reflexivity. by rewrite Hn, Hc.
  - intros code st'. cbn beta iota. erewrite bind_ret_eq by reflexivity. by rewrite He.
Qed.

Lemma write_bit_call a v : c = CallWriteBit a v ->
  done_with b (as_request c) st (result c) (perform c) st.
Proof.
  intros E. pose proof (header_checksum b).
  eapply (begin_done 12 5 a (if v =? 0 then 0 else 65280)); [done|done| |].
  { rewrite E. cbn [perform]. unfold modbus_write_bit. rewrite bind_assoc.
    erewrite bind_ret_eq by (by apply (get_backend_eq b st Ho)). unfold write_single. by rewrite bind_assoc. }
  intros req Hm. cbn beta iota. eapply (acknowledge 12); (rewrite E; done) || lia.
Qed.

Lemma write_register_call a v : c = CallWriteRegister a v ->
  done_with b (as_request c) st (result c) (perform c) st.
Proof.
  intros E. pose proof (header_checksum b).
  eapply (begin_done 12 6 a v); [done|done| |].
  { rewrite E. cbn [perform]. unfold modbus_write_register. rewrite bind_assoc.
    erewrite bind_ret_eq by (by apply (get_backend_eq b st Ho)). unfold write_single. by rewrite bind_assoc. }
  intros req Hm. cbn beta iota. eapply (acknowledge 12); (rewrite E; done) || lia.
Qed.

Lemma write_bits_call a n src : c = CallWriteBits a n src ->
  done_with b (as_request c) st (result c) (perform c) st.
Proof.
  intros E. pose proof Hv as Hv'. rewrite E in Hv'. destruct Hv' as (_ & Hn & Hd). pose proof (header_checksum b).
  pose proof (bytes_for_div n ltac:(lia)) as Hbf.
  eapply (begin_done MAX_MESSAGE_LENGTH 15 a n); [done|done| |].
  { rewrite E. cbn [perform]. unfold modbus_write_bits. rewrite bind_assoc.
    erewrite bind_ret_eq by (by apply (get_backend_eq b st Ho)). unfold write_bits_with.
    rewrite (proj2 (Z.ltb_ge _ _)) by (unfold MODBUS_MAX_WRITE_BITS; lia). by rewrite bind_assoc. }
  intros req Hm. cbn beta iota. fold (bytes_for n).
  eapply (put_done _ _ _ _ (bytes_for n)); [exact Hm|unfold MAX_MESSAGE_LENGTH; lia|apply bind_assoc|].
  intros req1 Hm1. rewrite u8_id in Hm1 by (unfold is_u8; rewrite Hbf; zdiv). cbn beta.
  destruct (put_bits_eq be _ _ _ _ _ src n st1 Hm1) as (req2 & E2 & Hm2); [lia|unfold MAX_MESSAGE_LENGTH; rewrite Hbf; zdiv|].
  replace (header_length be + 5 + 1) with (header_length be + 6) in * by lia.
  eapply done_with_eq; [etransitivity; [apply bind_assoc|]; by erewrite bind_ret_eq by exact E2|]. cbn beta iota.
  eapply (acknowledge MAX_MESSAGE_LENGTH); try (rewrite E; done).
  - rewrite E. cbn [as_request]. unfold encode_request. rewrite <- !app_assoc in Hm2.
        rewrite coils_length by lia. exact Hm2.
  - unfold MAX_MESSAGE_LENGTH. rewrite Hbf. zdiv.
Qed.

Lemma write_registers_call a n src : c = CallWriteRegisters a n src ->
  done_with b (as_request c) st (result c) (perform c) st.
Proof.
  intros E. pose proof Hv as Hv'. rewrite E in Hv'. destruct Hv' as (_ & Hn & Hd & _).
  pose proof (header_checksum b).
  eapply (begin_done MAX_MESSAGE_LENGTH 16 a n); [done|done| |].
  { rewrite E. cbn [perform]. unfold modbus_write_registers. rewrite bind_assoc.
    erewrite bind_ret_eq by (by apply (get_backend_eq b st Ho)). unfold write_registers_with.
    rewrite (proj2 (Z.ltb_ge _ _)) by (unfold MODBUS_MAX_WRITE_REGISTERS; lia). by rewrite bind_assoc. }
  intros req Hm. cbn beta iota.
  eapply (put_done _ _ _ _ (n * 2)); [exact Hm|unfold MAX_MESSAGE_LENGTH; lia|apply bind_assoc|].
  intros req1 Hm1. rewrite u8_id, (Z.mul_comm n 2) in Hm1 by (unfold is_u8; lia). cbn beta.
  destruct (put_words_eq be _ _ _ _ _ src n st1 Hm1) as (req2 & E2 & Hm2); [lia|unfold MAX_MESSAGE_LENGTH; lia|].
  replace (header_length be + 5 + 1) with (header_length be + 6) in * by lia.
  eapply done_with_eq; [etransitivity; [apply bind_assoc|]; by erewrite bind_ret_eq by exact E2|]. cbn beta iota.
  eapply (acknowledge MAX_MESSAGE_LENGTH); try (rewrite E; done).
  - rewrite E. cbn [as_request]. unfold encode_request. rewrite <- !app_assoc in Hm2.
    rewrite zlen_take by lia. exact Hm2.
  - unfold MAX_MESSAGE_LENGTH. lia.
Qed.

Lemma mask_write_call a am om : c = CallMaskWrite a am om ->
  done_with b (as_request c) st (result c) (perform c) st.
Proof.
  intros E. pose proof (header_checksum b).
  eapply (begin_done 14 22 a 0); [done|done| |].
  { rewrite E. cbn [perform]. unfold modbus_mask_write_register. rewrite bind_assoc.
    erewrite bind_ret_eq by (by apply (get_backend_eq b st Ho)). unfold mask_write_register_with.
    by rewrite bind_assoc. }
  intros req Hm. cbn beta iota.
  change (22 :: word_bytes a ++ word_bytes 0) with ((22 :: word_bytes a) ++ word_bytes 0) in Hm.
  apply is_msg_shrink in Hm. change (zlen (word_bytes 0)) with 2 in Hm.
  replace (header_length be + 5 - 2) with (header_length be + 3) in * by lia.
  eapply (put_done 14 _ _ _ (Z.shiftr am 8)); [exact Hm|lia|apply bind_assoc|]. clear req Hm. intros req Hm. cbn beta.
  eapply (put_done 14 _ _ _ (Z.land am 255)); [exact Hm|lia|apply bind_assoc|]. clear req Hm. intros req Hm. cbn beta.
  replace (header_length be + 3 + 1 + 1) with (header_length be + 3 + 2) in * by lia.
  eapply (put_done 14 _ _ _ (Z.shiftr om 8)); [exact Hm|lia|apply bind_assoc|]. clear req Hm. intros req Hm. cbn beta.
  replace (header_length be + 3 + 2 + 1) with (header_length be + 3 + 3) in * by lia.
  eapply (put_done 14 _ _ _ (Z.land om 255)); [exact Hm|lia|apply bind_assoc|]. clear req Hm. intros req Hm. cbn beta.
  replace (header_length be + 3 + 3 + 1) with (header_length be + 3 + 4) in * by lia.
  rewrite <- !app_assoc in Hm.
  eapply (acknowledge 14); (rewrite E; done) || lia.
Qed.

(** The common start of the request to write and to read. *)
Lemma write_and_read_call wa wn src a n dest : c = CallWriteAndRead wa wn src a n dest ->
  done_with b (as_request c) st (result c) (perform c) st.
Proof.
  intros E. pose proof (header_checksum b). pose proof (valid_wf _ Hv) as Hwf.
  pose proof Hv as Hv'. rewrite E in Hv'. destruct Hv' as (_ & Hwn & Hsrc & _ & _ & Hn & Hd).
  assert (HM : header_length be + 10 + 2 * wn + checksum_length be <= MAX_MESSAGE_LENGTH) by (unfold MAX_MESSAGE_LENGTH; lia).
  eapply (begin_done MAX_MESSAGE_LENGTH 23 a n); [done|done| |].
  { rewrite E. cbn [perform]. unfold modbus_write_and_read_registers.
    erewrite bind_ret_eq by (by apply (get_backend_eq b st Ho)). unfold write_and_read_registers_with.
    rewrite (proj2 (Z.ltb_ge _ _)) by (unfold MODBUS_MAX_WR_WRITE_REGISTERS; lia).
    by rewrite (proj2 (Z.ltb_ge _ _)) by (unfold MODBUS_MAX_WR_READ_REGISTERS; lia). }
  intros req Hm. cbn beta iota.
  eapply (put_done _ _ _ _ (Z.shiftr wa 8)); [exact Hm|lia|reflexivity|]. clear req Hm. intros req Hm. cbn beta.
  eapply (put_done _ _ _ _ (Z.land wa 255)); [exact Hm|lia|reflexivity|]. clear req Hm. intros req Hm. cbn beta.
  replace (header_length be + 5 + 1 + 1) with (header_length be + 5 + 2) in * by lia.
  eapply (put_done _ _ _ _ (Z.shiftr wn 8)); [exact Hm|lia|reflexivity|]. clear req Hm. intros req Hm. cbn beta.
  replace (header_length be + 5 + 2 + 1) with (header_length be + 5 + 3) in * by lia.
  eapply (put_done _ _ _ _ (Z.land wn 255)); [exact Hm|lia|reflexivity|]. clear req Hm. intros req Hm. cbn beta.
  replace (header_length be + 5 + 3 + 1) with (header_length be + 5 + 4) in * by lia.
  eapply (put_done _ _ _ _ (wn * 2)); [exact Hm|lia|reflexivity|]. clear req Hm. intros req Hm. cbn beta.
  rewrite (u8_id (wn * 2)), (Z.mul_comm wn 2) in Hm by (unfold is_u8; lia).
  replace (header_length be + 5 + 4 + 1) with (header_length be + 5 + 5) in * by lia.
  destruct (put_words_eq be _ _ _ _ _ src wn st1 Hm) as (req2 & E2 & Hm2); [lia|lia|].
  eapply done_with_eq; [by erewrite bind_ret_eq by exact E2|]. cbn beta iota.
  rewrite <- !app_assoc in Hm2. rewrite E in *. cbn [as_request] in *.
  eapply (transact b MAX_MESSAGE_LENGTH); try done; [|lia|].
  - unfold encode_request. rewrite zlen_take by lia. exact Hm2.
  - intros data rest st' Ea. cbn beta iota.
    destruct (answer_values _ _ _ (peer_store_ok _ (online_peer _ _ Ho)) Hwf Ea) as (_ & ws & <- & Hu & _ & ->).
    cbn [count]. erewrite bind_ret_eq by (by apply extract_registers_eq).
    unfold ret, result. cbn [tail]. by rewrite bytes_words_bytes.
Qed.

(** [for (i = 0; i < rc && i < max_dest; i++) dest[i] = rsp[offset + i];] *)
Lemma copy_bytes_eq p f k data rest n dest (s : state W) : 0 <= n <= zlen data -> n <= zlen dest ->
  for_loop (Z.to_nat n) 0 (fun i dest =>
      let* v := rd (received be p (f :: k :: data) rest) (header_length be + 2 + i) in arr_set dest i v) dest s
    = Ret (splice dest 0 (take (Z.to_nat n) data)) s.
Proof.
  intros Hn Hd. unfold zlen in *.
  match goal with |- ?e s = Ret ?v s =>
    assert (Hw : wp e (fun r s' => s' = s /\ r = v) s); [|by apply wp_inv in Hw as (r & s' & E & -> & ->)] end.
  eapply wp_mono; [apply (wp_for _ (fun i acc s' => s' = s /\ acc = splice dest 0 (take (Z.to_nat i) data)))|].
  - split; [done|]. change (take (Z.to_nat 0) data) with (@nil Z). by rewrite splice_nil.
  - intros i acc s' Hi (-> & ->).
    destruct (lookup_lt_is_Some_2 data (Z.to_nat i)) as [x Hx]; [lia|].
    apply wp_bind. eapply wp_eq.
    { rewrite <- Z.add_assoc. apply rd_pdu; [lia|]. by replace (Z.to_nat (2 + i)) with (S (S (Z.to_nat i))) by lia. }
    assert (Hz : zlen (take (Z.to_nat i) data) = i) by (unfold zlen; rewrite length_take; lia).
    eapply wp_eq; [apply arr_set_eq; rewrite length_splice; unfold zlen in *; lia|].
    split; [done|]. replace (Z.to_nat (i + 1)) with (S (Z.to_nat i)) by lia.
    rewrite (take_S_r _ _ x) by done. rewrite <- splice_snoc by (rewrite ?Hz; unfold zlen; lia). by rewrite Hz.
  - intros acc s' (-> & ->). split; [done|]. rewrite Z.add_0_l, Z2Nat.id by lia. done.
Qed.

Lemma report_slave_id_call m dest : c = CallReportSlaveId m dest ->
  done_with b (as_request c) st (result c) (perform c) st.
Proof.
  intros E. pose proof (header_checksum b). pose proof (valid_wf _ Hv) as Hwf.
  pose proof Hv as Hv'. rewrite E in Hv'. destruct Hv' as (Hm0 & Hd).
  eapply (begin_done 12 17 0 0); [done|done| |].
  { rewrite E. cbn [perform]. unfold modbus_report_slave_id. rewrite (proj2 (Z.leb_gt _ _)) by lia.
    by erewrite bind_ret_eq by (by apply (get_backend_eq b st Ho)). }
  intros req Hm. cbn beta iota.
  change (17 :: word_bytes 0 ++ word_bytes 0) with ([17] ++ [0; 0; 0; 0]) in Hm.
  apply is_msg_shrink in Hm. change (zlen [0; 0; 0; 0]) with 4 in Hm. rewrite E in *.
  eapply (transact b 12); try done; [lia|].
  intros data rest st' Ea. cbn beta iota. cbv zeta. apply answer_shape in Ea. cbn [as_request] in Ea.
  cbn [as_request count]. subst data. erewrite bind_ret_eq.
  2: { apply (copy_bytes_eq q 17 24 ([180; 255] ++ LMB ++ LIBMODBUS_VERSION_STRING)); [|lia].
       change (zlen ([180; 255] ++ _)) with 24. lia. }
  unfold ret, result. cbn [tail]. do 3 f_equal. destruct (Z.le_gt_cases 24 m).
  - rewrite Z.min_l by lia. by rewrite !take_ge by (cbn; lia).
  - by rewrite Z.min_r by lia.
Qed.

Lemma call_ok : done_with b (as_request c) st (result c) (perform c) st.
Proof.
  destruct (ex_intro (fun c' => c = c') c eq_refl) as [c' E]. destruct c'.
  - by eapply read_bits_call.
  - by eapply read_registers_call.
  - by eapply write_bit_call.
  - by eapply write_register_call.
  - by eapply write_bits_call.
  - by eapply write_registers_call.
  - by eapply mask_write_call.
  - by eapply write_and_read_call.
  - by eapply report_slave_id_call.
Qed.
End calls.
