(* ===== verification/System.v ===== *)
(** Client and server of this library joined by a network: the far end of the
    loop of Loopback, which runs [modbus_receive] and [modbus_reply], is a
    [Peer], so every call of the client is executed there. *)
From S2P Require Import Prelude Platform Data Crc Backend Rtu Tcp Core Framing Receive Mapping Reply Spec Bits ReplyProofs Wire Client Confirm Loopback Server Master Requests EndToEnd Calls.
#[local] Open Scope Z_scope.

(** Frames as the server's end makes them. *)
#[local] Abbreviation frame b := (adu (be := backend_of (W := pipe) b)).

(** A frame that goes out at the first attempt. *)
Lemma send_once {W} `{OS W} {FU : Fuel} {EF : EnoughFuel} {BC : BuildConfig} (be : modbus_backend_t W)
    {FR : Framing be} l st st' :
  transmit l st = Ret (zlen l) st' -> send_frame be l st = Ret (zlen l) st'.
Proof.
  intros E. pose proof (zlen_nonneg l). pose proof enough_fuel.
  assert (Ea : frame_attempt be l st = Ret (zlen l) st').
  { unfold frame_attempt. erewrite bind_ret_eq by exact E.
    rewrite (bind_ret_eq get_ctx _ st' (ctx st') st' eq_refl).
    by rewrite (proj2 (Z.eqb_neq _ _)) by lia. }
  unfold send_frame. erewrite bind_ret_eq.
  2: { apply while_once; [lia|]. erewrite bind_ret_eq by exact Ea.
       rewrite (bind_ret_eq get_ctx _ st' (ctx st') st' eq_refl).
       by rewrite (proj2 (Z.eqb_neq (zlen l) (-1))), andb_false_r by lia. }
  by rewrite Z.eqb_refl, andb_false_r.
Qed.

(** ** The server's end *)
Section pipe.
Context (b : backend_id).
#[local] Notation be := (backend_of (W := pipe) b).

(** Sending puts the bytes into the sink. *)
Lemma pipe_send (st : state pipe) l F : ready (be := be) st l ->
  exists st', send_frame be F st = Ret (zlen F) st' /\ tx (world st') = tx (world st) ++ F.
Proof.
  intros Hrd. destruct b; cbn in Hrd.
  - destruct Hrd as (d & ws & Ed & Ews & _). eexists. split.
    + apply (send_once _modbus_rtu_backend). cbn. unfold rtu_transmit.
      erewrite bind_ret_eq by (by eapply get_ser_eq). reflexivity.
    + done.
  - eexists. split; [by apply (send_once _modbus_tcp_backend)|done].
  - eexists. split; [by apply (send_once _modbus_tcp_pi_backend)|done].
Qed.

(** Waiting and flushing an empty line changes nothing that matters. *)
Lemma pipe_tcp_flush (st : state pipe) : rx (world st) = [] ->
  exists st', _modbus_tcp_flush st = Ret 0 st' /\ world st' = world st.
Proof.
  intros Hrx. unfold _modbus_tcp_flush. eexists. split.
  - apply while_once; [unfold fuel, test_fuel; lia|].
    rewrite (bind_ret_eq get_ctx _ st (ctx st) st eq_refl).
    erewrite bind_ret_eq by (apply sys_eq; cbn; rewrite Hrx; reflexivity). reflexivity.
  - done.
Qed.
Lemma pipe_flush fl (st : state pipe) : ready (be := be) st [] ->
  exists st', flush_if be fl st = Ret tt st' /\ ready (be := be) st' [] /\ tx (world st') = tx (world st).
Proof.
  intros Hrd. destruct fl; [|by exists st]. unfold flush_if.
  assert (Hsleep : exists st1 : state pipe, _sleep_response_timeout st = Ret tt st1 /\ ctx st1 = ctx st /\ world st1 = world st)
    by (eexists; split; [unfold _sleep_response_timeout; rewrite (bind_ret_eq get_ctx _ st (ctx st) st eq_refl); by apply sys_eq|done]).
  destruct Hsleep as (st1 & Es & Ec & Ew). erewrite bind_ret_eq by exact Es.
  assert (Hrx : forall l, u8 <$> l = [] -> l = []) by (by intros []).
  destruct b; cbn in Hrd |- *.
  - destruct Hrd as (d & ws & Ed & Ews & En & Ez & Hin). unfold _modbus_rtu_flush.
    assert (Ed1 : backend_data (ctx st1) = RtuData d) by (by rewrite Ec).
    eexists. split.
    + rewrite bind_assoc. erewrite bind_ret_eq by (by eapply get_ser_eq).
      rewrite bind_assoc. erewrite bind_ret_eq by (by apply set_ser_eq). reflexivity.
    + split; [|cbn; by rewrite Ew]. do 2 eexists. split; [reflexivity|]. split; [reflexivity|].
      cbn. by rewrite Ew.
  - destruct (pipe_tcp_flush st1) as (st' & E & Ew'); [rewrite Ew; by apply Hrx|].
    exists st'. erewrite bind_ret_eq by exact E. unfold tcp_ready. by rewrite Ew', Ew.
  - destruct (pipe_tcp_flush st1) as (st' & E & Ew'); [rewrite Ew; by apply Hrx|].
    exists st'. erewrite bind_ret_eq by exact E. unfold tcp_ready. by rewrite Ew', Ew.
Qed.
End pipe.

(** The tables of a mapping hold bits and registers. *)
Lemma view_Forall (Q : Z -> Prop) s0 nb l x v : Forall Q l -> view s0 nb l x = Some v -> Q v.
Proof.
  unfold view. destruct (_ && _); [|done]. intros Hl E. by eapply Forall_lookup_1 in E.
Qed.
Lemma abs_ok m : wf_mapping m -> store_ok (abs m).
Proof.
  intros Hm x v. split_and!; cbn; apply view_Forall; apply Hm.
Qed.

Section server_end.
Context (b : backend_id).
#[local] Notation be := (backend_of (W := pipe) b).

(** A server whose context is connected and whose tables are in order. *)
Definition far_ok (k : modbus_t * modbus_mapping_t) : Prop := let '(c, m) := k in
  backend c = b /\ wf_mapping m /\ listening c /\
  ready (be := be) (start c {| rx := []; tx := []; chunk := 5 |}) [].

(** Frames for [q] are for this server alone; it answers [r] when the address
    field is there and a write part does not start below the table. *)
Definition far_reaches (k : modbus_t * modbus_mapping_t) (q : sft_t) : Prop :=
  1 <= sft_slave q < 256 /\ accepts (be := be) (fst k) q.
Definition far_serves (k : modbus_t * modbus_mapping_t) (q : sft_t) (r : request) : Prop :=
  readable be (drop (length (frame b q (encode_request r))) (uninit MODBUS_TCP_MAX_ADU_LENGTH)) r /\
  write_starts_inside (snd k) r.

Lemma fmap_u8 l : Forall is_u8 l -> u8 <$> l = l.
Proof. induction 1 as [|x l Hx _ IH]; [done|]. cbn. by rewrite IH, u8_id. Qed.

Lemma serve_ok c m q r : far_ok (c, m) -> wf_request r -> far_reaches (c, m) q -> far_serves (c, m) q r ->
  let ex := exec (abs m) r in
  exists m', serve c m (frame b q (encode_request r)) = (m', frame b q (encode_answer r (snd ex))) /\
    evolves m m' /\ store_equiv (abs m') (fst ex).
Proof.
  intros (Hb & Hm & Hlis & Hrd) Hr [Hs Ha] [Hread Hw] ex. cbn [fst snd] in *.
  set (F := frame b q (encode_request r)) in *.
  set (st := start c {| rx := F; tx := []; chunk := 5 |}).
  assert (HF : Forall is_u8 F) by (by apply adu_u8, encode_request_u8).
  assert (Hrd' : ready (be := be) st (F ++ [])).
  { rewrite app_nil_r. destruct b; cbn in *; [|by apply fmap_u8..].
    destruct Hrd as (d & ws & ? & ? & ? & ? & _). exists d, ws. split_and!; try done. by apply fmap_u8. }
  destruct (serve_turn_ok b q r m (uninit MODBUS_TCP_MAX_ADU_LENGTH) [] st) as (st1 & m' & Hrd1 & _ & Hout & Hm' & He & E);
    try done; [unfold is_u8; lia|rewrite zlen_uninit by done; apply (max_adu_le (be := be))|].
  exists m'. split; [|done]. unfold serve. fold st. rewrite E.
  destruct (pipe_flush b (flushes r (snd ex)) st1 Hrd1) as (st2 & Ef & Hrd2 & Htx).
  erewrite bind_ret_eq by exact Ef. rewrite (proj2 (Z.eqb_neq _ _)) by (unfold MODBUS_BROADCAST_ADDRESS; lia).
  destruct (pipe_send b st2 [] (frame b q (encode_answer r (snd ex))) Hrd2) as (st3 & Es & Htx3).
  erewrite bind_ret_eq by exact Es. cbn. rewrite Htx3, Htx. f_equal.
  cbn in Hout. by rewrite Hout.
Qed.

(** The two ends frame alike. *)
Lemma frame_loop q pdu : adu (be := backend_of (W := loop) b) q pdu = frame b q pdu.
Proof. by destruct b. Qed.

(** Sending over the loop runs the server. *)
Lemma loop_send (st : state loop) F m' reply : ready (be := backend_of b) st [] ->
  serve (l_server (world st)) (l_map (world st)) F = (m', reply) -> Forall is_u8 reply ->
  exists st', send_frame (backend_of b) F st = Ret (zlen F) st' /\ ready (be := backend_of b) st' reply /\
    ctx st' = ctx st /\ l_server (world st') = l_server (world st) /\ l_map (world st') = m'.
Proof.
  intros Hrd E Hu.
  assert (Hrx : forall l, u8 <$> l = [] -> u8 <$> (l ++ reply) = reply) by (intros [] ?; [by apply fmap_u8|done]).
  set (w' := {| l_rx := l_rx (world st) ++ reply; l_chunk := l_chunk (world st);
                l_server := l_server (world st); l_map := m' |}).
  exists (State (errno st) (hp st) (ctx st) w'). split; [|split; [|done]].
  - destruct b; cbn in Hrd.
    + destruct Hrd as (d & ws & Ed & Ews & _). apply (send_once _modbus_rtu_backend). cbn. unfold rtu_transmit.
      erewrite bind_ret_eq by (by eapply get_ser_eq). erewrite bind_ret_eq by (apply sys_eq; cbn; rewrite E; reflexivity).
      reflexivity.
    + apply (send_once _modbus_tcp_backend). cbn. rewrite E. reflexivity.
    + apply (send_once _modbus_tcp_pi_backend). cbn. rewrite E. reflexivity.
  - destruct b; cbn in *; [|by apply Hrx..].
    destruct Hrd as (d & ws & ? & ? & ? & ? & ?). exists d, ws. split_and!; try done. by apply Hrx.
Qed.

#[export] Instance loop_peer : Peer (W := loop) b.
Proof.
  refine {| peer_ok := far_ok : far_side -> Prop; peer_store := fun k : far_side => abs (snd k);
            reaches := far_reaches : far_side -> sft_t -> Prop;
            serves := far_serves : far_side -> sft_t -> request -> Prop |}.
  - intros [c m] (_ & Hm & _). by apply abs_ok.
  - intros st q r Hrd Hk Hr Hq Hs ex.
    destruct (serve_ok (l_server (world st)) (l_map (world st)) q r Hk Hr Hq Hs) as (m' & E & Hm' & He).
    rewrite !frame_loop.
    destruct (loop_send st (frame b q (encode_request r)) m' _ Hrd E) as (st' & Es & Hrd' & Hc & Hsv & Hmp).
    { apply adu_u8, encode_answer_u8; [|done]. destruct Hk as (_ & Hm & _). by apply abs_ok. }
    exists st'. split; [exact Es|]. split; [exact Hrd'|]. split; [done|].
    destruct Hk as (Hb & _ & Hl & Hrdy). cbn. rewrite Hsv, Hmp. destruct Hm' as [Hm' Hlay].
    split; [by split_and!|]. split; [|exact He]. split; [done|]. intros q' r' [? Hin]. split; [done|].
    destruct r'; try done. cbn in *. by rewrite Hlay.
Defined.
End server_end.

(** ** Calls on the loop *)

(** A client on the loop: its own end is [online], and the server's end accepts
    the frames of its next request. *)
Record joined (b : backend_id) (st : state loop) : Prop := {
  joined_online : online b st;
  joined_reaches : reaches (b := b) (outgoing (world st)) (next_sft (be := backend_of (W := loop) b) (ctx st))
}.

(** The tables the server holds. *)
Definition tables (st : state loop) : store := abs (l_map (world st)).

(** What the server needs of a request beyond being addressed by it. *)
Definition answerable (b : backend_id) (st : state loop) (r : request) : Prop :=
  serves (b := b) (outgoing (world st)) (next_sft (be := backend_of (W := loop) b) (ctx st)) r.

(** Reaching a server depends on the slave only. *)
Lemma reaches_slave b k q q' : sft_slave q' = sft_slave q -> reaches (b := b) k q -> reaches (b := b) k q'.
Proof.
  intros E [Hs Ha]. split; [by rewrite E|]. destruct b; [|done..]. cbn in *. unfold rtu_accepts in *. by rewrite E.
Qed.
Lemma next_slave b c : sft_slave (next_sft (be := backend_of (W := loop) b) c) = slave c.
Proof. by destruct b. Qed.

(** Whether a request can be answered does not depend on its transaction. *)
Lemma serves_sft b k q q' r : serves (b := b) k q r -> serves (b := b) k q' r.
Proof.
  intros [Hr Hw]. split; [|exact Hw]. revert Hr.
  pose proof (adu_length (backend_of (W := pipe) b) q (encode_request r)) as E.
  pose proof (adu_length (backend_of (W := pipe) b) q' (encode_request r)) as E'.
  unfold zlen in E, E'.
  replace (length (adu (be := backend_of (W := pipe) b) q (encode_request r)))
    with (length (adu (be := backend_of (W := pipe) b) q' (encode_request r))) by lia.
  done.
Qed.

Lemma loop_call b c st : joined b st -> valid c -> answerable b st (as_request c) ->
  let ex := exec (tables st) (as_request c) in
  exists st', perform c st = Ret (result c (snd ex)) st' /\ joined b st' /\
    store_equiv (tables st') (fst ex) /\
    (forall code, snd ex = Exception code -> errno st' = MODBUS_ENOBASE + code) /\
    (forall r, answerable b st r -> answerable b st' r).
Proof.
  intros [Ho Hq] Hv Hans ex.
  destruct (call_ok b st Ho c Hv Hq Hans) as (st' & E & Ho' & He & Hset & [Hreach Hserve] & Herr).
  exists st'. split; [exact E|]. split; [|split; [exact He|split; [exact Herr|]]].
  - split; [done|]. apply Hreach. eapply reaches_slave; [|exact Hq]. rewrite !next_slave.
    rewrite (same_settings_slave _ _ Hset). apply (after_slave (PR := loop_peer b) b).
  - intros r Hr. apply Hserve. by eapply serves_sft.
Qed.

(** What was written is what is read. *)
Lemma read_write_range v a l : read_range (write_range v a l) a (zlen l) = Some l.
Proof.
  apply mapM_Some, Forall2_same_length_lookup. unfold zlen. split; [by rewrite length_seqZ, Nat2Z.id|].
  intros i x y Hx Hy. apply lookup_seqZ in Hx as [-> Hi]. unfold write_range, zlen.
  rewrite (proj2 (Z.leb_le _ _)), (proj2 (Z.ltb_lt _ _)) by lia. cbn. rewrite <- Hy. f_equal. lia.
Qed.

Lemma write_registers_exec s0 a ws : 1 <= zlen ws <= 123 -> is_Some (read_range (holding s0) a (zlen ws)) ->
  exec s0 (WriteRegisters a (zlen ws) ws)
    = (with_holding (write_range (holding s0) a ws) s0, Normal (word_bytes a ++ word_bytes (zlen ws))).
Proof.
  intros Hn [l E]. cbn [exec]. rewrite !(proj2 (Z.ltb_ge _ _)) by lia. cbn [orb]. rewrite E.
  rewrite take_ge by (unfold zlen; lia). done.
Qed.
Lemma write_coils_exec s0 a bits : Forall is_bit bits -> 1 <= zlen bits <= 1968 ->
  is_Some (read_range (coils s0) a (zlen bits)) ->
  exec s0 (WriteCoils a (zlen bits) (pack_bits bits))
    = (with_coils (write_range (coils s0) a bits) s0, Normal (word_bytes a ++ word_bytes (zlen bits))).
Proof.
  intros Hb Hn [l E]. cbn [exec]. rewrite !(proj2 (Z.ltb_ge _ _)) by lia. cbn [orb]. rewrite E.
  by rewrite unpack_pack_bits.
Qed.

(** C1: the system as a whole. For each backend, a call of the client on a network
    whose far end runs this library's server returns what the protocol
    specification answers to the call's request on the server's tables, changes
    these tables as the specification says, sets [errno] to the exception when
    the answer is one, and leaves both ends ready for the next call. The arguments are
    [valid], and the request is [answerable] by a server of this layout: a
    write-and-read request whose write part starts below the register table is
    excluded, since the server then writes out of bounds (C39), and so is
    report-slave-id over TCP, whose reply reads behind the request. *)
Theorem client_server_end_to_end b c (st : state loop) :
  joined b st -> valid c -> answerable b st (as_request c) ->
  let ex := exec (tables st) (as_request c) in
  exists st', perform c st = Ret (result c (snd ex)) st' /\ joined b st' /\
    store_equiv (tables st') (fst ex) /\
    (forall code, snd ex = Exception code -> errno st' = MODBUS_ENOBASE + code).
Proof.
  intros Hj Hv Ha ex. destruct (loop_call b c st Hj Hv Ha) as (st' & ? & ? & ? & ? & _). by exists st'.
Qed.

(** C32: a client that writes registers and reads them back gets them back,
    through the frames of both directions and the server's tables. *)
Theorem written_registers_are_read b a ws dest (st : state loop) :
  joined b st -> is_u16 a -> Forall is_u16 ws -> 1 <= zlen ws <= 123 -> zlen ws <= zlen dest ->
  is_Some (read_range (holding (tables st)) a (zlen ws)) ->
  exists st', (let* w := modbus_write_registers CTX a (zlen ws) ws in
               let* r := modbus_read_registers CTX a (zlen ws) dest in ret (w, r)) st
    = Ret (zlen ws, (zlen ws, splice dest 0 ws)) st' /\ joined b st'.
Proof.
  intros Hj Ha Hu Hn Hd Hin.
  assert (Hfull : take (Z.to_nat (zlen ws)) ws = ws) by (apply take_ge; unfold zlen; lia).
  destruct (loop_call b (CallWriteRegisters a (zlen ws) ws) st Hj) as (st1 & E1 & Hj1 & He1 & _);
    [cbn; split_and!; (done || lia)|by split|].
  cbn [as_request] in E1, He1. rewrite Hfull, write_registers_exec in E1, He1 by done.
  destruct (loop_call b (CallReadRegisters false a (zlen ws) dest) st1 Hj1) as (st2 & E2 & Hj2 & _);
    [cbn; split_and!; (done || lia)|by split|].
  exists st2. split; [|done]. cbn [perform] in E1, E2.
  assert (Hex : snd (exec (tables st1) (as_request (CallReadRegisters false a (zlen ws) dest)))
                = Normal (2 * zlen ws :: words_bytes ws)).
  { cbn [as_request exec]. rewrite !(proj2 (Z.ltb_ge _ _)) by lia. cbn [orb].
    rewrite (read_range_ext _ (write_range (holding (tables st)) a ws)) by (intros x; apply (He1 x)).
    by rewrite read_write_range. }
  rewrite Hex in E2. cbn [result tail] in E2. rewrite bytes_words_bytes in E2 by done.
  unfold bind in E1. destruct (modbus_write_registers CTX a (zlen ws) ws st) as [w s1| |] eqn:Ew; try done.
  injection E1 as -> ->. erewrite bind_ret_eq by exact Ew. by erewrite bind_ret_eq by exact E2.
Qed.

(** C33: the same for coils, whose values are packed eight to a byte on the way
    and come back as 0 and 1. *)
Theorem written_coils_are_read b a src dest (st : state loop) :
  joined b st -> is_u16 a -> 1 <= zlen src <= 1968 -> zlen src <= zlen dest ->
  is_Some (read_range (coils (tables st)) a (zlen src)) ->
  exists st', (let* w := modbus_write_bits CTX a (zlen src) src in
               let* r := modbus_read_bits CTX a (zlen src) dest in ret (w, r)) st
    = Ret (zlen src, (zlen src, splice dest 0 (coil_of <$> src))) st' /\ joined b st'.
Proof.
  intros Hj Ha Hn Hd Hin.
  assert (Hfull : take (Z.to_nat (zlen src)) src = src) by (apply take_ge; unfold zlen; lia).
  assert (Hz : zlen (coil_of <$> src) = zlen src) by apply zlen_fmap.
  destruct (loop_call b (CallWriteBits a (zlen src) src) st Hj) as (st1 & E1 & Hj1 & He1 & _);
    [cbn; split_and!; (done || lia)|by split|].
  cbn [as_request] in E1, He1. rewrite Hfull, <- Hz, write_coils_exec in E1, He1
    by (rewrite ?Hz; first [done | apply coil_of_bit]).
  destruct (loop_call b (CallReadBits false a (zlen src) dest) st1 Hj1) as (st2 & E2 & Hj2 & _);
    [cbn; split_and!; (done || lia)|by split|].
  exists st2. split; [|done]. cbn [perform] in E1, E2.
  assert (Hex : snd (exec (tables st1) (as_request (CallReadBits false a (zlen src) dest)))
                = Normal (bytes_for (zlen src) :: pack_bits (coil_of <$> src))).
  { cbn [as_request exec]. rewrite !(proj2 (Z.ltb_ge _ _)) by lia. cbn [orb].
    rewrite (read_range_ext _ (write_range (coils (tables st)) a (coil_of <$> src))) by (intros x; apply (He1 x)).
    by rewrite <- Hz, read_write_range. }
  rewrite Hex in E2. cbn [result tail] in E2. rewrite <- Hz, unpack_pack_bits, Hz in E2 by apply coil_of_bit.
  unfold bind in E1. rewrite Hz in E1.
  destruct (modbus_write_bits CTX a (zlen src) src st) as [w s1| |] eqn:Ew; try done.
  injection E1 as -> ->. erewrite bind_ret_eq by exact Ew. by erewrite bind_ret_eq by exact E2.
Qed.

(** ** The theorems on concrete inputs *)
#[local] Ltac arguments := cbn; unfold is_u16, zlen; cbn [length]; try split_and!; try done; try lia; repeat constructor; lia.

Definition serial_system : state loop :=
  start (rtu_ctx 17) {| l_rx := []; l_chunk := 3; l_server := rtu_ctx 17; l_map := sample_map |}.
Definition tcp_system : state loop :=
  start (tcp_ctx 17) {| l_rx := []; l_chunk := 2; l_server := tcp_ctx 255; l_map := sample_map |}.

Lemma serial_system_joined : joined RTU_BACKEND serial_system.
Proof.
  split; [split|].
  - done.
  - done.
  - unfold is_u8. cbn. lia.
  - do 2 eexists. split_and!; reflexivity.
  - split; [done|]. split; [exact sample_map_wf|]. split; [done|]. do 2 eexists. split_and!; reflexivity.
  - split; [cbn; lia|by left].
Defined.
Lemma tcp_system_joined : joined TCP_BACKEND tcp_system.
Proof.
  split; [split|].
  - done.
  - by eexists.
  - unfold is_u8. cbn. lia.
  - done.
  - split; [done|]. split; [exact sample_map_wf|]. by split.
  - by split; [cbn; lia|].
Defined.

Lemma client_server_end_to_end_witness :
  (exists st', perform (CallReadBits false 2 7 [9; 9; 9; 9; 9; 9; 9; 9]) serial_system
     = Ret (7, [1; 1; 0; 0; 1; 0; 1; 9]) st' /\ joined RTU_BACKEND st') /\
  (exists st', perform (CallWriteAndRead 102 2 [1; 2] 100 4 [0; 0; 0; 0]) tcp_system
     = Ret (4, [7; 8; 1; 2]) st' /\ joined TCP_BACKEND st') /\
  (exists st', perform (CallReadRegisters false 103 2 [0; 0]) tcp_system = Ret (-1, [0; 0]) st' /\ errno st' = EMBXILADD).
Proof.
  split_and!.
  - destruct (client_server_end_to_end RTU_BACKEND (CallReadBits false 2 7 [9; 9; 9; 9; 9; 9; 9; 9]) serial_system)
      as (st' & E & Hj & _); [exact serial_system_joined|arguments|by split|].
    exists st'. split; [exact E|exact Hj].
  - destruct (client_server_end_to_end TCP_BACKEND (CallWriteAndRead 102 2 [1; 2] 100 4 [0; 0; 0; 0]) tcp_system)
      as (st' & E & Hj & _); [exact tcp_system_joined|arguments|split; [done|cbn; lia]|].
    exists st'. split; [exact E|exact Hj].
  - destruct (client_server_end_to_end TCP_BACKEND (CallReadRegisters false 103 2 [0; 0]) tcp_system)
      as (st' & E & _ & _ & He); [exact tcp_system_joined|arguments|by split|].
    exists st'. split; [exact E|]. exact (He 2 eq_refl).
Defined.

Lemma written_registers_are_read_witness :
  exists st', (let* w := modbus_write_registers CTX 101 2 [4660; 65535] in
               let* r := modbus_read_registers CTX 101 2 [0; 0; 5] in ret (w, r)) serial_system
    = Ret (2, (2, [4660; 65535; 5])) st' /\ joined RTU_BACKEND st'.
Proof.
  apply (written_registers_are_read RTU_BACKEND 101 [4660; 65535] [0; 0; 5] serial_system);
    [exact serial_system_joined|arguments..|by eexists].
Defined.

Lemma written_coils_are_read_witness :
  exists st', (let* w := modbus_write_bits CTX 1 9 [1; 0; 7; 1; 1; 0; 1; 0; 1] in
               let* r := modbus_read_bits CTX 1 9 [5; 5; 5; 5; 5; 5; 5; 5; 5; 5] in ret (w, r)) tcp_system
    = Ret (9, (9, [1; 0; 1; 1; 1; 0; 1; 0; 1; 5])) st' /\ joined TCP_BACKEND st'.
Proof.
  apply (written_coils_are_read TCP_BACKEND 1 [1; 0; 7; 1; 1; 0; 1; 0; 1] [5; 5; 5; 5; 5; 5; 5; 5; 5; 5] tcp_system);
    [exact tcp_system_joined|arguments..|by eexists].
Defined.
