(* ===== verification/Session.v ===== *)
(** Sessions: a client that makes one call after the other. The connection of
    System survives every call, so the results of a whole sequence are those
    the specification gives, one request after the other, on the server's
    tables. *)
From S2P Require Import Prelude Platform Data Backend Core Framing Receive Mapping Reply Spec ReplyProofs Wire Client Loopback Server Master Requests EndToEnd Calls System.
#[local] Open Scope Z_scope.

(** ** The specification respects equal address spaces *)
#[export] Instance write_range_proper :
  Proper (pointwise_relation Z eq ==> eq ==> eq ==> pointwise_relation Z eq) write_range.
Proof. intros f g Hfg a _ <- l _ <- x. unfold write_range. by rewrite Hfg. Qed.
#[export] Instance read_range_proper : Proper (pointwise_relation Z eq ==> eq ==> eq ==> eq) read_range.
Proof. intros f g Hfg a _ <- n _ <-. by apply read_range_ext. Qed.

Definition answer_equiv (a b : store * answer) : Prop := store_equiv (fst a) (fst b) /\ snd a = snd b.
#[export] Instance exec_proper : Proper (store_equiv ==> eq ==> answer_equiv) exec.
Proof.
  intros s1 s2 Hs r _ <-.
  assert (Hc : pointwise_relation Z eq (coils s1) (coils s2)) by (intros x; apply (Hs x)).
  assert (Hi : pointwise_relation Z eq (inputs s1) (inputs s2)) by (intros x; apply (Hs x)).
  assert (Hh : pointwise_relation Z eq (holding s1) (holding s2)) by (intros x; apply (Hs x)).
  assert (Hr : pointwise_relation Z eq (input_regs s1) (input_regs s2)) by (intros x; apply (Hs x)).
  assert (Hwc : forall a l, store_equiv (with_coils (write_range (coils s1) a l) s1)
    (with_coils (write_range (coils s2) a l) s2)).
  { intros a l x. cbn. split; [by apply write_range_proper|]. by split_and!. }
  assert (Hwh : forall a l, store_equiv (with_holding (write_range (holding s1) a l) s1)
    (with_holding (write_range (holding s2) a l) s2)).
  { intros a l x. cbn. split; [done|]. split; [done|]. split; [by apply write_range_proper|done]. }
  unfold answer_equiv.
  destruct r as [b a n|b a n|a v|a v|a n data|a n ws| |a am om|a n wa wn ws]; cbn [exec].
  - destruct (_ || _); [done|].
    replace (read_range (if b then inputs s2 else coils s2) a n) with (read_range (if b then inputs s1 else coils s1) a n)
      by (destruct b; by apply read_range_proper).
    destruct (read_range _ a n); by split.
  - destruct (_ || _); [done|].
    replace (read_range (if b then input_regs s2 else holding s2) a n)
      with (read_range (if b then input_regs s1 else holding s1) a n) by (destruct b; by apply read_range_proper).
    destruct (read_range _ a n); by split.
  - rewrite <- (Hc a). destruct (coils s1 a); [|by split]. destruct (_ || _); by split; [first [apply Hwc|exact Hs]|].
  - rewrite <- (Hh a). destruct (holding s1 a); by split; [first [apply Hwh|exact Hs]|].
  - destruct (_ || _); [done|]. rewrite (read_range_proper _ _ Hc a a eq_refl n n eq_refl).
    destruct (read_range (coils s2) a n); by split; [first [apply Hwc|exact Hs]|].
  - destruct (_ || _); [done|]. rewrite (read_range_proper _ _ Hh a a eq_refl n n eq_refl).
    destruct (read_range (holding s2) a n); by split; [first [apply Hwh|exact Hs]|].
  - done.
  - rewrite <- (Hh a). destruct (holding s1 a); by split; [first [apply Hwh|exact Hs]|].
  - destruct (_ || _); [done|]. rewrite (read_range_proper _ _ Hh a a eq_refl n n eq_refl).
    rewrite (read_range_proper _ _ Hh wa wa eq_refl wn wn eq_refl). cbv zeta.
    destruct (read_range (holding s2) a n), (read_range (holding s2) wa wn); try done.
    cbn [with_holding holding].
    rewrite (read_range_proper _ _ (write_range_proper _ _ Hh wa wa eq_refl ws ws eq_refl) a a eq_refl n n eq_refl).
    destruct (read_range (write_range (holding s2) wa ws) a n); [|done]. by split; [apply Hwh|].
Qed.

(** ** Sequences *)

(** The answers to a sequence of requests, and the tables they leave. *)
Fixpoint exec_all (s0 : store) (rs : list request) : store * list answer :=
  match rs with
  | [] => (s0, [])
  | r :: rs =>
      let '(s1, a) := exec s0 r in
      let '(s2, l) := exec_all s1 rs in (s2, a :: l)
  end.

Fixpoint perform_all {W} `{OS W} {FU : Fuel} {BC : BuildConfig} (cs : list call) : P W (list (Z * list Z)) :=
  match cs with
  | [] => ret []
  | c :: cs => let* r := perform c in let* rs := perform_all cs in ret (r :: rs)
  end.

Lemma exec_all_proper rs : forall s1 s2, store_equiv s1 s2 ->
  store_equiv (fst (exec_all s1 rs)) (fst (exec_all s2 rs)) /\ snd (exec_all s1 rs) = snd (exec_all s2 rs).
Proof.
  induction rs as [|r rs IH]; intros s1 s2 Hs; [done|]. cbn [exec_all].
  pose proof (exec_proper s1 s2 Hs r r eq_refl) as [He Ha].
  destruct (exec s1 r) as [t1 a1], (exec s2 r) as [t2 a2]. cbn [fst snd] in He, Ha. subst a2.
  destruct (IH t1 t2 He) as [Hf Hl].
  destruct (exec_all t1 rs) as [u1 l1], (exec_all t2 rs) as [u2 l2]. cbn in *. by subst l2.
Qed.

Lemma session_ok b cs : forall st, joined b st -> Forall valid cs ->
  Forall (fun c => answerable b st (as_request c)) cs ->
  let ex := exec_all (tables st) (as_request <$> cs) in
  exists st', perform_all cs st = Ret (zip_with result cs (snd ex)) st' /\ joined b st' /\
    store_equiv (tables st') (fst ex).
Proof.
  induction cs as [|c cs IH]; intros st Hj Hv Ha; [by exists st|].
  apply Forall_cons in Hv as [Hv Hvs]. apply Forall_cons in Ha as [Ha Has].
  destruct (loop_call b c st Hj Hv Ha) as (st1 & E & Hj1 & He & _ & Hsv).
  destruct (IH st1 Hj1 Hvs) as (st2 & E2 & Hj2 & He2).
  { eapply Forall_impl; [exact Has|]. intros c'. apply Hsv. }
  exists st2. cbn [fmap list_fmap exec_all perform_all].
  destruct (exec (tables st) (as_request c)) as [s1 a]. cbn [fst snd] in E, He.
  destruct (exec_all_proper (as_request <$> cs) _ _ He) as [Hf Hl].
  change (list_fmap _ _ as_request cs) with (as_request <$> cs).
  destruct (exec_all s1 (as_request <$> cs)) as [s2 l]. cbn [fst snd zip_with] in *.
  split; [|split; [done|by rewrite He2]].
  erewrite bind_ret_eq by exact E. erewrite bind_ret_eq by exact E2. unfold ret. by rewrite Hl.
Qed.

(** C2: a whole session. For each backend, any sequence of valid calls that the
    server's layout can answer returns, call by call, what the specification
    answers to the sequence of their requests on the server's tables, each
    request seeing the effects of those before it; afterwards the tables are
    those of the specification and the client is ready for more. *)
Theorem client_session b cs (st : state loop) : joined b st -> Forall valid cs ->
  Forall (fun c => answerable b st (as_request c)) cs ->
  let ex := exec_all (tables st) (as_request <$> cs) in
  exists st', perform_all cs st = Ret (zip_with result cs (snd ex)) st' /\ joined b st' /\
    store_equiv (tables st') (fst ex).
Proof. apply session_ok. Qed.

(** Write two registers, mask the first, read four, and ask for one too many. *)
Definition sample_calls : list call :=
  [CallWriteRegisters 101 2 [4660; 22136]; CallMaskWrite 101 240 3;
   CallReadRegisters false 100 4 [0; 0; 0; 0]; CallReadRegisters false 100 5 [0; 0; 0; 0; 0]].
Lemma client_session_witness : exists st',
  perform_all sample_calls serial_system
    = Ret [(2, []); (1, []); (4, [7; 51; 22136; 10]); (-1, [0; 0; 0; 0; 0])] st' /\ joined RTU_BACKEND st'.
Proof.
  destruct (client_session RTU_BACKEND sample_calls serial_system serial_system_joined) as (st' & E & Hj & _).
  - repeat constructor; cbn; unfold is_u16, zlen; cbn [length]; try lia; repeat constructor; lia.
  - repeat constructor; done.
  - exists st'. split; [refine (eq_trans E _); vm_compute; reflexivity|exact Hj].
Defined.
