(* ===== verification/Serial.v ===== *)
(** The serial line: the checksum as the receiver uses it, the frames a slave
    lets pass, the port's receive buffer, and opening and closing the port. *)
From S2P Require Import Prelude Platform Data Crc Backend Rtu Tcp Core Framing Receive Mapping Reply Spec Bits ReplyProofs Wire Loopback Server Config.
#[local] Open Scope Z_scope.

Section integrity.
Context {W : Type} `{OS W} {BC : BuildConfig}.

(** The check on a frame [l] for this slave is the check that the register
    over the whole frame is zero. *)
Lemma check_integrity_eq l a b rest (st : state W) :
  Forall is_u8 (l ++ [a; b]) -> l <> [] -> zlen l < 65534 ->
  recovery_protocol (ctx st) = false ->
  _modbus_rtu_check_integrity ((Some <$> (l ++ [a; b])) ++ rest) (zlen (l ++ [a; b])) st =
    if negb (default 0 (head l) =? slave (ctx st)) && negb (default 0 (head l) =? MODBUS_BROADCAST_ADDRESS)
    then Ret 0 st
    else if crc_of l =? be16 a b then Ret (zlen (l ++ [a; b])) st
    else Ret (-1) (State EMBBADCRC (hp st) (ctx st) (world st)).
Proof.
  intros Hu Hne Hz Hrec. apply Forall_app in Hu as [Hl Hab].
  apply Forall_cons in Hab as [Ha Hb]. apply Forall_cons in Hb as [Hb _].
  assert (Hzl : zlen (l ++ [a; b]) = zlen l + 2) by (by rewrite zlen_app). rewrite Hzl.
  unfold _modbus_rtu_check_integrity. rewrite (bind_ret_eq get_ctx _ st (ctx st) st eq_refl).
  rewrite (bind_ret_eq (rd _ 0) _ st (default 0 (head l)) st).
  2: { apply rd_eq; [done|]. destruct l; done. }
  destruct (negb _ && negb _); [done|].
  rewrite fmap_app, <- app_assoc.
  erewrite bind_ret_eq.
  2: { apply (crc16_eq _ _ l); [lia|done|lia|apply lookup_prefix]. }
  assert (Hat : forall k x, (k = 0 \/ k = 1) -> [a; b] !! Z.to_nat k = Some x ->
    rd ((Some <$> l) ++ (Some <$> [a; b]) ++ rest) (zlen l + k) st = Ret x st).
  { intros k x Hk Hx. pose proof (zlen_nonneg l). apply rd_eq; [lia|]. rewrite app_assoc, <- fmap_app.
    apply lookup_prefix. unfold zlen in *. rewrite lookup_app_r by lia. rewrite <- Hx. f_equal. lia. }
  replace (zlen l + 2 - 2) with (zlen l + 0) by lia. replace (zlen l + 2 - 1) with (zlen l + 1) by lia.
  erewrite bind_ret_eq by (apply Hat; [by left|reflexivity]).
  erewrite bind_ret_eq by (apply Hat; [by right|reflexivity]).
  rewrite lor_be16 by done. rewrite u16_be16 by done.
  destruct (_ =? _); [done|]. rewrite Hrec. done.
Qed.
End integrity.

(** C35: a frame the backend completes is a frame the backend accepts: the two
    bytes [_modbus_rtu_send_msg_pre] appends satisfy [_modbus_rtu_check_integrity]
    at a slave with that address, and at every slave for a broadcast. *)
Theorem rtu_checksum_roundtrip {W} `{OS W} {BC : BuildConfig} sl pdu rest (st : state W) :
  is_u8 sl -> Forall is_u8 pdu -> zlen pdu <= 253 -> 2 <= zlen rest ->
  sl = slave (ctx st) \/ sl = MODBUS_BROADCAST_ADDRESS ->
  exists b n, n = zlen pdu + 3 /\
    _modbus_rtu_send_msg_pre ((Some <$> sl :: pdu) ++ rest) (zlen (sl :: pdu)) st = Ret (n, b) st /\
    _modbus_rtu_check_integrity b n st = Ret n st.
Proof.
  intros Hs Hp Hl Hr Ha. set (sft := {| sft_slave := sl; sft_function := 0; sft_t_id := 0 |}).
  destruct (send_msg_pre_eq (be := _modbus_rtu_backend) sft [Some sl] pdu rest (zlen (sl :: pdu)))
    as [r' E]; [cbn; by rewrite u8_id|done|done|done|by rewrite zlen_cons|].
  exists ((Some <$> rtu_adu sft pdu) ++ r'), (zlen (rtu_adu sft pdu)). split; [|split].
  - unfold rtu_adu. rewrite zlen_app, zlen_cons. change (zlen [_; _]) with 2. lia.
  - apply E.
  - apply rtu_integrity_ok; [done|done|]. unfold rtu_accepts. cbn. by rewrite u8_id.
Qed.

Lemma rtu_checksum_roundtrip_witness : exists b n, n = 8 /\
  _modbus_rtu_send_msg_pre ((Some <$> [17; 3; 0; 107; 0; 3]) ++ [None; None]) 6 sample_line = Ret (n, b) sample_line /\
  _modbus_rtu_check_integrity b n sample_line = Ret n sample_line.
Proof.
  apply (rtu_checksum_roundtrip 17 [3; 0; 107; 0; 3] [None; None] sample_line);
    [unfold is_u8; lia|repeat constructor; unfold is_u8; lia|done|done|by left].
Defined.

(** C34: no frame hit by an error burst of at most 16 bits is accepted, wherever
    the burst lies, checksum included: either the frame is filtered out because
    the burst changed the address, or the context reports EMBBADCRC. *)
Theorem rtu_burst_rejected {W} `{OS W} {BC : BuildConfig} l l' a b rest p k (st : state W) :
  let F := l ++ [hi8 (crc_of l); lo8 (crc_of l)] in
  Forall is_u8 l -> Forall is_u8 (l' ++ [a; b]) -> length l' = length l -> l <> [] -> zlen l < 65534 ->
  0 < p < 65536 -> 0 <= k -> Z.lxor (le_int F) (le_int (l' ++ [a; b])) = Z.shiftl p k ->
  recovery_protocol (ctx st) = false ->
  exists rc st', _modbus_rtu_check_integrity ((Some <$> (l' ++ [a; b])) ++ rest) (zlen (l' ++ [a; b])) st
                   = Ret rc st' /\
    (rc = 0 /\ st' = st \/ rc = -1 /\ errno st' = EMBBADCRC).
Proof.
  intros F Hl Hu' Hlen Hne Hz Hp Hk Hx Hrec.
  assert (Hne' : l' <> []) by (intros ->; by destruct l).
  assert (Hz' : zlen l' < 65534) by (unfold zlen in *; lia).
  rewrite check_integrity_eq by done.
  destruct (negb _ && negb _); [do 2 eexists; split; [reflexivity|by left]|].
  destruct (Z.eqb_spec (crc_of l') (be16 a b)) as [E|Hc].
  - exfalso. assert (HuF : Forall is_u8 F).
    { apply Forall_app. split; [done|]. repeat constructor; apply u8_range. }
    apply (burst_changes_reg F (l' ++ [a; b]) p k); [|done..|].
    + unfold F. rewrite !length_app, Hlen. done.
    + apply Forall_app in Hu' as [Hl' Hab].
      apply Forall_cons in Hab as [Ha Hb]. apply Forall_cons in Hb as [Hb _].
      rewrite (proj2 (crc_reg_frame l' a b Hl' Ha Hb)) by done.
      apply crc_reg_frame; [done|apply hi8_range|apply lo8_range|].
      apply be16_split, crc_of_range.
  - do 2 eexists. split; [reflexivity|by right].
Qed.

Lemma rtu_burst_rejected_witness : exists rc st',
  _modbus_rtu_check_integrity ((Some <$> ([17; 3; 0; 251; 0; 3] ++ [118; 135])) ++ []) 8 sample_line = Ret rc st' /\
  (rc = 0 /\ st' = sample_line \/ rc = -1 /\ errno st' = EMBBADCRC).
Proof.
  apply (rtu_burst_rejected [17; 3; 0; 107; 0; 3] [17; 3; 0; 251; 0; 3] 118 135 [] 9 28 sample_line);
    try reflexivity; try done; repeat constructor; unfold is_u8; lia.
Defined.

(** ** Sharing the line with other slaves *)
Section sharing.
Context {W : Type} `{OS W} {FU : Fuel} {EF : EnoughFuel} {BC : BuildConfig} {SO : StreamOS W}.
#[local] Abbreviation rtu := (_modbus_rtu_backend (W := W)).

(** A frame for someone else. *)
Definition foreign (c : modbus_t) (sft : sft_t) : Prop :=
  u8 (sft_slave sft) <> slave c /\ u8 (sft_slave sft) <> MODBUS_BROADCAST_ADDRESS.

Lemma foreign_filtered sft pdu query mt more (st : state W) :
  complete rtu mt (rtu_adu sft pdu) -> MODBUS_RTU_MAX_ADU_LENGTH <= zlen query ->
  rtu_ready st (rtu_adu sft pdu ++ more) -> foreign (ctx st) sft ->
  exists st' q, rtu_ready st' more /\ same_settings (ctx st) (ctx st') /\ zlen q = zlen query /\
    _modbus_receive_msg rtu query mt st = Ret (0, q) st'.
Proof.
  intros Hc Hq Hr [Hf1 Hf2].
  destruct (receive_msg_eq rtu (SB := rtu_backend_stream) mt (rtu_adu sft pdu) more query Hc Hq st Hr) as (st' & Hr' & Hset & _ & E).
  exists st', (filled (rtu_adu sft pdu) query (length (rtu_adu sft pdu))).
  split; [done|]. split; [done|]. split.
  { unfold filled, zlen. rewrite length_app, length_fmap, length_take, length_drop.
    pose proof (complete_bound _ _ _ Hc) as Hcb. change (max_adu_length _) with 256 in Hcb.
    unfold MODBUS_RTU_MAX_ADU_LENGTH, zlen in *. lia. }
  rewrite E. unfold filled. rewrite firstn_all. cbn [check_integrity _modbus_rtu_backend].
  unfold _modbus_rtu_check_integrity. rewrite bind_assoc.
  rewrite (bind_ret_eq get_ctx _ st' (ctx st') st' eq_refl), bind_assoc.
  erewrite (bind_ret_eq (rd _ 0)) by (apply rd_eq; [done|reflexivity]).
  rewrite (same_settings_slave _ _ Hset).
  rewrite (proj2 (Z.eqb_neq _ _) Hf1), (proj2 (Z.eqb_neq _ _) Hf2). done.
Qed.

Lemma rtu_ready_flag b st l d : backend_data (ctx st) = RtuData d -> rtu_ready st l ->
  rtu_ready (State (errno st) (hp st) (with_backend_data (RtuData (with_confirmation_to_ignore b d)) (ctx st))
               (world st)) l.
Proof.
  intros Ed (d' & ws & Ed' & Ews & En & Ez & Ei). rewrite Ed in Ed'. injection Ed' as <-.
  by exists (with_confirmation_to_ignore b d), ws.
Qed.

(** What a reception of a foreign frame leaves: the flag is flipped. *)
Lemma receive_foreign sft pdu query more d (st : state W) :
  backend (ctx st) = RTU_BACKEND -> backend_data (ctx st) = RtuData d ->
  complete rtu (if confirmation_to_ignore d then MSG_CONFIRMATION else MSG_INDICATION) (rtu_adu sft pdu) ->
  MODBUS_RTU_MAX_ADU_LENGTH <= zlen query ->
  rtu_ready st (rtu_adu sft pdu ++ more) -> foreign (ctx st) sft ->
  exists st' q d', rtu_ready st' more /\ backend (ctx st') = RTU_BACKEND /\ slave (ctx st') = slave (ctx st) /\
    backend_data (ctx st') = RtuData d' /\ confirmation_to_ignore d' = negb (confirmation_to_ignore d) /\
    zlen q = zlen query /\ modbus_receive CTX query st = Ret (0, q) st'.
Proof.
  intros Hb Hd Hc Hq Hr Hf.
  destruct (foreign_filtered sft pdu query _ more st Hc Hq Hr Hf) as (st1 & q & Hr1 & Hset & Hz & E).
  assert (Hd1 : exists d1, backend_data (ctx st1) = RtuData d1) by (destruct Hr1 as (d1 & ? & ? & _); eauto).
  destruct Hd1 as [d1 Hd1].
  exists (State (errno st1) (hp st1)
    (with_backend_data (RtuData (with_confirmation_to_ignore (negb (confirmation_to_ignore d)) d1)) (ctx st1))
    (world st1)), q, (with_confirmation_to_ignore (negb (confirmation_to_ignore d)) d1).
  split; [by apply rtu_ready_flag|].
  split; [cbn; by rewrite (same_settings_backend _ _ Hset)|].
  split; [cbn; by rewrite (same_settings_slave _ _ Hset)|].
  do 3 (split; [done|]).
  unfold modbus_receive. rewrite (bind_ret_eq get_ctx _ st (ctx st) st eq_refl), Hb.
  unfold _modbus_rtu_receive. cbn [backend_of]. erewrite bind_ret_eq by (by apply get_rtu_eq).
  destruct (confirmation_to_ignore d); erewrite bind_ret_eq by exact E; cbn beta iota.
  - unfold upd_rtu. rewrite bind_assoc. by erewrite bind_ret_eq by (by apply get_rtu_eq).
  - cbn [Z.eqb]. unfold upd_rtu. rewrite bind_assoc. by erewrite bind_ret_eq by (by apply get_rtu_eq).
Qed.
End sharing.

(** C37: a serial slave sits out the exchange of another slave: it lets the
    request pass, then the confirmation that follows it, each as one whole
    frame, and is back to listening for requests. *)
Theorem rtu_foreign_exchange_ignored {W} `{OS W} {FU : Fuel} {EF : EnoughFuel} {BC : BuildConfig}
    {SO : StreamOS W} sft r s0 query more d (st : state W) :
  backend (ctx st) = RTU_BACKEND -> backend_data (ctx st) = RtuData d -> confirmation_to_ignore d = false ->
  wf_request r -> Forall is_u8 (encode_answer r (snd (exec s0 r))) ->
  MODBUS_RTU_MAX_ADU_LENGTH <= zlen query -> foreign (ctx st) sft ->
  rtu_ready st (rtu_adu sft (encode_request r) ++ rtu_adu sft (encode_answer r (snd (exec s0 r))) ++ more) ->
  exists st' q, rtu_ready st' more /\ listening (ctx st') /\
    (let* (rc1, query) := modbus_receive CTX query in
     let* (rc2, query) := modbus_receive CTX query in ret (rc1, rc2, query)) st = Ret (0, 0, q) st'.
Proof.
  intros Hb Hd Hi Hr Hu Hq Hf Hrd.
  destruct (receive_foreign sft (encode_request r) query
              (rtu_adu sft (encode_answer r (snd (exec s0 r))) ++ more) d st)
    as (st1 & q1 & d1 & Hr1 & Hb1 & Hs1 & Hd1 & Hi1 & Hz1 & E1); [done|done| |done|done|done|].
  { rewrite Hi. by apply (complete_request _modbus_rtu_backend (FR := rtu_framing) sft). }
  rewrite Hi in Hi1. cbn in Hi1.
  destruct (receive_foreign sft (encode_answer r (snd (exec s0 r))) q1 more d1 st1)
    as (st2 & q2 & d2 & Hr2 & _ & _ & Hd2 & Hi2 & _ & E2); [done|done| |lia|done| |].
  { rewrite Hi1. by apply (complete_answer _modbus_rtu_backend (FR := rtu_framing) sft). }
  { unfold foreign in *. by rewrite Hs1. }
  exists st2, q2. split; [done|]. split.
  - unfold listening. rewrite Hd2, Hi2, Hi1. done.
  - erewrite bind_ret_eq by exact E1. cbn beta iota. by erewrite bind_ret_eq by exact E2.
Qed.

Definition foreign_line : state pipe :=
  start (rtu_ctx 9) {| rx := rtu_adu sample_sft [3; 0; 100; 0; 1] ++ rtu_adu sample_sft [3; 2; 0; 7] ++ [5];
                       tx := []; chunk := 2 |}.

Lemma rtu_foreign_exchange_ignored_witness : exists st' q, rtu_ready st' [5] /\ listening (ctx st') /\
  (let* (rc1, query) := modbus_receive CTX (uninit 256) in
   let* (rc2, query) := modbus_receive CTX query in ret (rc1, rc2, query)) foreign_line = Ret (0, 0, q) st'.
Proof.
  destruct (rtu_foreign_exchange_ignored sample_sft (ReadRegisters false 100 1) (abs sample_map) (uninit 256)
    [5] {| device := [67]; device_blk := 3%positive; baud := 9600;
       data_bit := 8; stop_bit := 1; parity := 78;
       w_ser := Some {| ws_fd := 5; ws_buf := replicate 512 (Some 0); ws_n_bytes := 0 |};
       old_dcb := Some blank_dcb; confirmation_to_ignore := false |} foreign_line)
    as (st' & q & Hr & Hl & E);
    [done|done|done|cbn; unfold is_u16; lia| |done|by split| |].
  - apply (Forall_impl (fun x => (0 <=? x) && (x <? 256) = true)); [by repeat constructor|unfold is_u8; lia].
  - do 2 eexists. by split_and!.
  - exists st', q. split; [exact Hr|]. split; [exact Hl|exact E].
Defined.

(** ** Opening and closing the port *)
Section port.
Context {W : Type} `{OS W} {FU : Fuel} {BC : BuildConfig}.

(** An initialised port structure with an empty buffer. *)
Definition port_state (d : modbus_rtu_t) (fd : Z) : Prop := exists ws,
  w_ser d = Some ws /\ ws_fd ws = fd /\ ws_n_bytes ws = 0 /\ zlen (ws_buf ws) = PY_BUF_SIZE.

Definition opened (st st' : state W) (rc : Z) : Prop := same_members (ctx st) (ctx st') /\
  exists d', backend_data (ctx st') = RtuData d' /\
    (rc = 0 /\ is_Some (old_dcb d') /\ (exists fd, fd <> INVALID_HANDLE_VALUE /\ port_state d' fd) \/
     rc = -1 /\ port_state d' INVALID_HANDLE_VALUE).

Lemma rtu_connect_opened st d : backend_data (ctx st) = RtuData d ->
  wp _modbus_rtu_connect (fun rc st' => opened st st' rc) st.
Proof.
  intros Ed. unfold _modbus_rtu_connect, win32_ser_init.
  eapply wp_set_ser; [exact Ed|]. eapply wp_get_rtu; [reflexivity|].
  apply wp_sys. intros w1 e1 h E1.
  apply wp_bind. eapply wp_eq; [by eapply get_ser_eq|]. cbv zeta.
  eapply wp_set_ser; [reflexivity|].
  assert (Habandon : forall ws d' st' , backend_data (ctx st') = RtuData d' ->
    same_members (ctx st) (ctx st') -> ws_n_bytes ws = 0 -> zlen (ws_buf ws) = PY_BUF_SIZE ->
    wp (rtu_abandon_port ws) (fun rc s' => opened st s' rc) st').
  { intros ws d' st' Ed' Hset Hn Hz. unfold rtu_abandon_port. apply wp_sys. intros w2 e2 r2 _.
    eapply wp_set_ser; [exact Ed'|]. apply wp_ret. split.
    - etransitivity; [exact Hset|]. unfold same_members. cbn. by destruct (ctx st').
    - eexists. split; [reflexivity|]. right. split; [done|]. by eexists. }
  assert (Hset1 : forall dd c', c' = with_backend_data (RtuData dd) (ctx st) -> same_members (ctx st) c').
  { intros dd c' ->. unfold same_members. cbn. by destruct (ctx st). }
  destruct (Z.eqb_spec h INVALID_HANDLE_VALUE) as [->|Hh].
  - apply wp_ret. split; [by eapply Hset1|].
    eexists. split; [reflexivity|]. right. split; [done|]. by eexists.
  - apply wp_sys. intros w2 e2 [old|] E2.
    2: { eapply Habandon; [reflexivity|by eapply Hset1|done|done]. }
    apply wp_bind. eapply wp_eq.
    { unfold upd_rtu. by erewrite bind_ret_eq by (by apply get_rtu_eq). }
    apply wp_sys. intros w3 e3 [] E3.
    + apply wp_ret. split; [by eapply Hset1|].
      eexists. split; [reflexivity|]. left. split; [done|]. split; [by eexists|].
      exists h. split; [done|]. by eexists.
    + eapply Habandon; [reflexivity|by eapply Hset1|done|done].
Qed.

Lemma rtu_close_ok st d fd : backend_data (ctx st) = RtuData d -> port_state d fd -> is_Some (old_dcb d) ->
  wp _modbus_rtu_close (fun _ st' => ctx st' = ctx st) st.
Proof.
  intros Ed (ws & Ews & _) [old Eold]. unfold _modbus_rtu_close.
  eapply wp_get_rtu; [exact Ed|]. rewrite Ews, Eold. apply wp_bind, wp_ret, wp_bind, wp_ret.
  apply wp_sys. intros w1 e1 r1 _. apply wp_sys. intros w2 e2 r2 _. by apply wp_ret.
Qed.
End port.

(** On any platform, opening the port of a serial context completes; it
    returns 0 with a valid handle, the saved settings and an empty receive
    buffer, or -1 with the handle invalidated, and changes no other member of
    the context. When it succeeded, closing the port completes too. *)
Theorem rtu_open_close {W} `{OS W} {FU : Fuel} {BC : BuildConfig} d (st : state W) :
  backend (ctx st) = RTU_BACKEND -> backend_data (ctx st) = RtuData d ->
  wp (modbus_connect CTX) (fun rc st' => opened st st' rc /\
        (rc = 0 -> wp (modbus_close CTX) (fun _ st'' => ctx st'' = ctx st') st')) st.
Proof.
  intros Hb Hd. unfold modbus_connect, get_backend.
  apply wp_bind. eapply wp_eq; [reflexivity|]. rewrite Hb.
  eapply wp_mono; [by eapply rtu_connect_opened|].
  intros rc st' Ho. split; [done|]. intros ->. destruct Ho as (Hset & d' & Ed' & [(_ & Hold & fd & _ & Hp)|[]]);
    [|done].
  unfold modbus_close, get_backend. apply wp_bind. eapply wp_eq; [reflexivity|].
  rewrite (same_members_backend _ _ Hset), Hb. by eapply rtu_close_ok.
Qed.

Lemma rtu_open_close_witness :
  wp (modbus_connect CTX) (fun rc st' => opened sample_line st' rc /\
        (rc = 0 -> wp (modbus_close CTX) (fun _ st'' => ctx st'' = ctx st') st')) sample_line.
Proof. eapply rtu_open_close; reflexivity. Defined.

(** C34: closing a serial context that was never opened uses the port structure
    and the saved settings, which [modbus_new_rtu] leaves uninitialised. *)
Theorem rtu_close_unopened {W} `{OS W} {FU : Fuel} {BC : BuildConfig} d (st : state W) :
  backend (ctx st) = RTU_BACKEND -> backend_data (ctx st) = RtuData d -> w_ser d = None ->
  modbus_close CTX st = Fault Uninit.
Proof.
  intros Hb Hd Hw. unfold modbus_close, get_backend. rewrite bind_assoc.
  rewrite (bind_ret_eq get_ctx _ st (ctx st) st eq_refl), Hb.
  rewrite (bind_ret_eq (ret _) _ st _ st eq_refl). cbn [backend_of be_close _modbus_rtu_backend].
  unfold _modbus_rtu_close. erewrite bind_ret_eq by (by apply get_rtu_eq). by rewrite Hw.
Qed.

Definition fresh_rtu : state pipe := Eval vm_compute in
  match modbus_new_rtu (Some [67; 79; 77; 49]) 9600 78 8 1 sample_tcp with Ret _ st => st | _ => sample_tcp end.

Lemma rtu_close_unopened_witness :
  modbus_new_rtu (Some [67; 79; 77; 49]) 9600 78 8 1 sample_tcp = Ret CTX fresh_rtu /\
  modbus_close CTX fresh_rtu = Fault Uninit.
Proof. split; [vm_compute; reflexivity|]. eapply rtu_close_unopened; reflexivity. Defined.

(** C35: [win32_ser_read] does not move what it leaves in the port's buffer. When
    fewer bytes are asked for than the buffer holds, the next read delivers the
    same bytes again instead of the ones that follow. *)
Theorem win32_ser_read_repeats {W} `{OS W} {BC : BuildConfig} d l n (r1 r2 : buf) junk h (st : state W) :
  backend_data (ctx st) = RtuData d ->
  w_ser d = Some {| ws_fd := h; ws_buf := (Some <$> l) ++ junk; ws_n_bytes := zlen l |} ->
  1 <= n -> 2 * n <= zlen l -> zlen l <= PY_BUF_SIZE -> n <= zlen r1 -> n <= zlen r2 ->
  exists st' st'', win32_ser_read r1 0 n st
      = Ret (n, (Some <$> take (Z.to_nat n) l) ++ drop (Z.to_nat n) r1) st' /\
    win32_ser_read r2 0 n st' = Ret (n, (Some <$> take (Z.to_nat n) l) ++ drop (Z.to_nat n) r2) st''.
Proof.
  intros Hd Hw Hn Hnl Hl Hr1 Hr2. unfold PY_BUF_SIZE in Hl.
  assert (Hread : forall (r : buf) d' (s' : state W) k, backend_data (ctx s') = RtuData d' ->
    w_ser d' = Some {| ws_fd := h; ws_buf := (Some <$> l) ++ junk; ws_n_bytes := k |} ->
    n <= k -> n <= zlen r ->
    win32_ser_read r 0 n s' = Ret (n, (Some <$> take (Z.to_nat n) l) ++ drop (Z.to_nat n) r)
      (stored_ser d' {| ws_fd := h; ws_buf := (Some <$> l) ++ junk; ws_n_bytes := k - n |} s')).
  { intros r d' s' k Hd' Hw' Hk Hr. unfold win32_ser_read.
    rewrite (bind_ret_eq get_ser _ s' _ s' (get_ser_eq _ _ _ Hd' Hw')). cbn [ws_n_bytes ws_buf ws_fd]. cbv zeta.
    replace (if u32 n <? k then u32 n else k) with n.
    2: { rewrite u32_id by (unfold is_u32; lia). destruct (Z.ltb_spec n k); lia. }
    rewrite (proj2 (Z.ltb_lt 0 n)) by lia.
    assert (Hz : zlen (take (Z.to_nat n) l) = n) by (unfold zlen in *; rewrite length_take; lia).
    erewrite (bind_ret_eq (memcpy _ _ _ _ _)).
    2: { rewrite <- Hz at 1. apply (memcpy_app [] r _ 0 (take (Z.to_nat n) l)
           ((Some <$> drop (Z.to_nat n) l) ++ junk)); [split; [done|apply zlen_nonneg]| |lia].
         change (drop (Z.to_nat 0) ((Some <$> l) ++ junk)) with ((Some <$> l) ++ junk).
         by rewrite app_assoc, <- fmap_app, take_drop. }
    erewrite (bind_ret_eq (set_ser _)) by (by apply set_ser_eq).
    replace (length (take (Z.to_nat n) l)) with (Z.to_nat n) by (unfold zlen in Hz; lia). done. }
  do 2 eexists. split; [by apply (Hread r1 d st (zlen l)); try lia|].
  eapply (Hread r2); [reflexivity|reflexivity|lia|done].
Qed.

Definition rtu_ctx_holding (l : list Z) : modbus_t :=
  with_backend_data (RtuData {| device := [67]; device_blk := 3%positive; baud := 9600;
       data_bit := 8; stop_bit := 1; parity := 78;
       w_ser := Some {| ws_fd := 5; ws_buf := Some <$> l; ws_n_bytes := zlen l |};
       old_dcb := Some blank_dcb; confirmation_to_ignore := false |}) (rtu_ctx 17).

Lemma win32_ser_read_repeats_witness : exists st' st'',
  win32_ser_read (uninit 2) 0 2 (start (rtu_ctx_holding [1; 2; 3; 4]) {| rx := []; tx := []; chunk := 1 |})
    = Ret (2, [Some 1; Some 2]) st' /\
  win32_ser_read (uninit 2) 0 2 st' = Ret (2, [Some 1; Some 2]) st''.
Proof.
  eapply (win32_ser_read_repeats _ [1; 2; 3; 4] 2 (uninit 2) (uninit 2) [] 5); [reflexivity|reflexivity|done..].
Defined.
