(* ===== verification/Safety.v ===== *)
(** Reception against an arbitrary line: whatever bytes arrive, in whatever
    pieces and with whatever errors, receiving stays inside its buffer, ends,
    and a message it accepts is complete. *)
From S2P Require Import Prelude Platform Crc Backend Rtu Tcp Core Framing Receive Mapping Reply Spec ReplyProofs Loopback Server Serial.
#[local] Open Scope Z_scope.

(** The fuel also covers the calls of [select] that a signal interrupts. *)
Class PatientFuel (W : Type) `{OSLaws W} {FU : Fuel} := patient_fuel : forall w : W, (eintr_left w < fuel)%nat.

(** ** What a backend guarantees on any platform *)
Class Guarded {W} `{OS W} (be : modbus_backend_t W) := {
  sane : state W -> Prop;
  sane_errno : forall st e, sane st -> sane (State e (hp st) (ctx st) (world st));
  select_safe : forall st tv n, sane st -> 0 < n ->
    wp (be_select be tv n) (fun _ st' => sane st' /\ same_settings (ctx st) (ctx st')) st;
  recv_safe : forall st p (r : buf) n, sane st -> 0 < n <= zlen r -> n < 65536 ->
    wp (be_recv be (p ++ r) (zlen p) n) (fun '(rc, b) st' => sane st' /\ same_settings (ctx st) (ctx st') /\
      -1 <= rc <= n /\ (rc <= 0 -> b = p ++ r) /\
      (0 < rc -> exists l, zlen l = rc /\ Forall is_u8 l /\ b = p ++ (Some <$> l) ++ drop (length l) r)) st;
  integrity_safe : forall st F rest, sane st -> Forall is_u8 F -> zlen F <= 260 ->
    header_length be + 1 + checksum_length be <= zlen F -> recovery_protocol (ctx st) = false ->
    wp (check_integrity be ((Some <$> F) ++ rest) (zlen F)) (fun rc st' => sane st' /\
      same_settings (ctx st) (ctx st') /\ (rc = -1 \/ rc = 0 \/ rc = zlen F)) st
}.

Section guarded.
Context {W : Type} `{OS W} {OL : OSLaws W} {FU : Fuel} {PF : PatientFuel W} {BC : BuildConfig}.

Lemma tcp_select_safe (st : state W) tv n :
  wp (_modbus_tcp_select tv n) (fun _ st' => True /\ same_settings (ctx st) (ctx st')) st.
Proof.
  unfold _modbus_tcp_select. apply wp_bind.
  eapply wp_mono; [apply (wp_while _ (fun _ st' => same_settings (ctx st) (ctx st'))
    (fun _ st' => eintr_left (world st')) (fun _ st' => same_settings (ctx st) (ctx st')))|].
  - intros [] st1 Hset. eapply wp_bind, wp_eq; [reflexivity|]. apply wp_sys. intros w' e rc E.
    destruct (Z.eqb_spec rc (-1)) as [->|]; [|by apply wp_ret].
    eapply wp_bind, wp_eq; [reflexivity|]. cbn [errno].
    destruct (Z.eqb_spec (default (errno st1) e) EINTR) as [He|]; apply wp_ret; [|done].
    split; [done|]. cbn [world]. apply (select_eintr _ _ _ _ _ E).
    destruct e as [e|]; [right; cbn in He; by rewrite He|by left].
  - done.
  - apply patient_fuel.
  - intros rc st' Hset. destruct (rc =? -1); [by apply wp_ret|]. by destruct (rc =? 0).
Qed.

Lemma tcp_recv_safe (st : state W) p (r : buf) n : 0 < n <= zlen r ->
  wp (_modbus_tcp_recv (p ++ r) (zlen p) n) (fun '(rc, b) st' => True /\ same_settings (ctx st) (ctx st') /\
    -1 <= rc <= n /\ (rc <= 0 -> b = p ++ r) /\
    (0 < rc -> exists l, zlen l = rc /\ Forall is_u8 l /\ b = p ++ (Some <$> l) ++ drop (length l) r)) st.
Proof.
  intros Hn. unfold _modbus_tcp_recv. eapply wp_bind, wp_eq; [reflexivity|].
  apply wp_sys. intros w' e [rc l] E. apply recv_ok in E as [Hrc Hl]; [|lia]. cbn beta iota.
  destruct (Z.ltb_spec 0 rc).
  - destruct Hl as [Hl Hu]; [lia|]. eapply wp_bind, wp_eq.
    { apply (memcpy_app p r _ 0 l []); [split; [done|apply zlen_nonneg]|by rewrite app_nil_r|lia]. }
    apply wp_ret. split_and!; try done; try lia. intros _. by exists l.
  - apply wp_ret. split_and!; try done; lia.
Qed.

#[export] Instance tcp_guarded : Guarded _modbus_tcp_backend.
Proof.
  refine {| sane _ := True |}.
  - done.
  - intros st tv n _ _. apply tcp_select_safe.
  - intros st p r n _ Hn _. by apply tcp_recv_safe.
  - intros st F rest _ _ _ _ _. apply wp_ret. split_and!; auto. reflexivity.
Defined.
#[export] Instance tcp_pi_guarded : Guarded _modbus_tcp_pi_backend.
Proof.
  refine {| sane _ := True |}.
  - done.
  - intros st tv n _ _. apply tcp_select_safe.
  - intros st p r n _ Hn _. by apply tcp_recv_safe.
  - intros st F rest _ _ _ _ _. apply wp_ret. split_and!; auto. reflexivity.
Defined.

(** The port's buffer: what it counts has been written. *)
Definition sane_ser (ws : win32_ser) : Prop := zlen (ws_buf ws) = PY_BUF_SIZE /\
  exists l t, ws_buf ws = (Some <$> l) ++ t /\ zlen l = ws_n_bytes ws /\ Forall is_u8 l.
Definition rtu_sane (st : state W) : Prop := exists d ws,
  backend_data (ctx st) = RtuData d /\ w_ser d = Some ws /\ sane_ser ws.

Lemma stored_sane d ws ws0 (st st1 : state W) : backend_data (ctx st) = RtuData d -> w_ser d = Some ws0 ->
  ctx st1 = ctx st -> sane_ser ws ->
  rtu_sane (stored_ser d ws st1) /\ same_settings (ctx st) (ctx (stored_ser d ws st1)).
Proof.
  intros Ed Ew Ec Hs. split; [by exists (with_w_ser (Some ws) d), ws|].
  cbn. rewrite Ec. split; [by destruct (ctx st)|]. cbn. rewrite Ed. by destruct d.
Qed.

Lemma rtu_select_safe (st : state W) tv n : rtu_sane st -> 0 < n ->
  wp (_modbus_rtu_select tv n) (fun _ st' => rtu_sane st' /\ same_settings (ctx st) (ctx st')) st.
Proof.
  intros Hsane Hn. pose proof Hsane as (d & ws & Ed & Ews & Hz & Hl).
  assert (Hend : forall e rc, wp (if rc =? 0 then err ETIMEDOUT else if rc <? 0 then ret (-1) else ret rc)
    (fun _ st' => rtu_sane st' /\ same_settings (ctx st) (ctx st')) e <->
    rtu_sane e /\ same_settings (ctx st) (ctx e)).
  { intros e rc. destruct (rc =? 0); [done|]. by destruct (rc <? 0). }
  unfold _modbus_rtu_select, win32_ser_select. apply wp_bind, wp_bind.
  eapply wp_eq; [by eapply get_ser_eq|]. destruct (0 <? ws_n_bytes ws).
  { apply wp_ret, Hend. split; [done|reflexivity]. }
  cbv zeta. apply wp_sys. intros w1 e1 b1 _. set (m := if _ || _ then _ else n).
  assert (Hm : 0 <= m <= PY_BUF_SIZE).
  { unfold m, PY_BUF_SIZE. destruct ((512 <? n) || (n <? 0)) eqn:E; lia. }
  apply wp_sys. intros w2 e2 [l|] E2; cbn [errno hp ctx world] in *.
  - apply read_file_ok in E2 as [Hlen Hu]; [|lia].
    apply wp_bind. eapply wp_eq.
    { apply (memcpy_app [] (ws_buf ws) _ 0 l []); [split; [done|apply zlen_nonneg]|by rewrite app_nil_r|lia]. }
    eapply wp_set_ser; [exact Ed|]. set (st2 := stored_ser _ _ _).
    assert (Hst : rtu_sane st2 /\ same_settings (ctx st) (ctx st2)).
    { eapply stored_sane; [exact Ed|exact Ews|done|]. split.
      - cbn. unfold zlen in *. rewrite length_app, length_fmap, length_drop. lia.
      - by exists l, (drop (length l) (ws_buf ws)). }
    destruct (0 <? zlen l); apply wp_ret, Hend, Hst.
  - eapply wp_set_ser; [exact Ed|]. apply wp_ret, Hend. eapply stored_sane; [exact Ed|exact Ews|done|].
    split; [done|]. by exists [], (ws_buf ws).
Qed.

Lemma rtu_recv_safe (st : state W) p (r : buf) n : rtu_sane st -> 0 < n <= zlen r -> n < 65536 ->
  wp (_modbus_rtu_recv (p ++ r) (zlen p) n) (fun '(rc, b) st' => rtu_sane st' /\ same_settings (ctx st) (ctx st') /\
    -1 <= rc <= n /\ (rc <= 0 -> b = p ++ r) /\
    (0 < rc -> exists l, zlen l = rc /\ Forall is_u8 l /\ b = p ++ (Some <$> l) ++ drop (length l) r)) st.
Proof.
  intros Hsane Hn Hn'. pose proof Hsane as (d & ws & Ed & Ews & Hz & l & t & Eb & El & Hu).
  unfold _modbus_rtu_recv, win32_ser_read. apply wp_bind. eapply wp_eq; [by eapply get_ser_eq|]. cbv zeta.
  rewrite u32_id by (unfold is_u32; lia). pose proof (zlen_nonneg l).
  set (k := if n <? ws_n_bytes ws then n else ws_n_bytes ws).
  assert (Hk : 0 <= k <= n /\ k <= zlen l) by (unfold k; destruct (Z.ltb_spec n (ws_n_bytes ws)); lia).
  set (c := take (Z.to_nat k) l).
  assert (Hc : zlen c = k) by (unfold c, zlen in *; rewrite length_take; lia).
  assert (Hs2 : sane_ser {| ws_fd := ws_fd ws; ws_buf := ws_buf ws; ws_n_bytes := ws_n_bytes ws - k |}).
  { split; [done|]. exists (take (Z.to_nat (zlen l - k)) l), ((Some <$> drop (Z.to_nat (zlen l - k)) l) ++ t).
    split; [cbn; by rewrite app_assoc, <- fmap_app, take_drop|].
    split; [unfold zlen in *; cbn; rewrite length_take; lia|by apply Forall_take]. }
  destruct (Z.ltb_spec 0 k).
  - apply wp_bind. eapply wp_eq.
    { rewrite <- Hc. apply (memcpy_app p r _ 0 c ((Some <$> drop (Z.to_nat k) l) ++ t));
        [split; [done|apply zlen_nonneg]| |lia].
      cbn. rewrite drop_0. unfold c. by rewrite app_assoc, <- fmap_app, take_drop. }
    eapply wp_set_ser; [exact Ed|]. apply wp_ret.
    destruct (stored_sane d _ ws st st Ed Ews eq_refl Hs2) as [? ?].
    split_and!; try done; try lia. intros _. exists c. split_and!; [done|by apply Forall_take|done].
  - apply wp_bind. eapply wp_eq; [reflexivity|].
    eapply wp_set_ser; [exact Ed|]. apply wp_ret.
    destruct (stored_sane d _ ws st st Ed Ews eq_refl Hs2) as [? ?].
    split_and!; try done; lia.
Qed.

Lemma rtu_integrity_safe (st : state W) F rest : rtu_sane st -> Forall is_u8 F -> zlen F <= 260 ->
  4 <= zlen F -> recovery_protocol (ctx st) = false ->
  wp (_modbus_rtu_check_integrity ((Some <$> F) ++ rest) (zlen F)) (fun rc st' => rtu_sane st' /\
    same_settings (ctx st) (ctx st') /\ (rc = -1 \/ rc = 0 \/ rc = zlen F)) st.
Proof.
  intros Hsane Hu Hz H4 Hrec.
  assert (Hl : exists l a b, F = l ++ [a; b]).
  { exists (take (length F - 2) F). pose proof (take_drop (length F - 2) F) as E.
    assert (Hd : length (drop (length F - 2) F) = 2%nat) by (rewrite length_drop; unfold zlen in *; lia).
    destruct (drop (length F - 2) F) as [|a [|b [|? ?]]]; try done. by exists a, b. }
  destruct Hl as (l & a & b & ->). rewrite zlen_app in Hz, H4. change (zlen [a; b]) with 2 in Hz, H4.
  unfold wp. rewrite check_integrity_eq; [|done|intros ->; by cbn in H4|lia|done].
  destruct (_ && _); [by split_and!; auto|]. destruct (_ =? _); [by split_and!; auto|].
  split_and!; [exact Hsane|done|by left].
Qed.

#[export] Instance rtu_guarded : Guarded _modbus_rtu_backend.
Proof.
  refine {| sane := rtu_sane |}.
  - done.
  - apply rtu_select_safe.
  - apply rtu_recv_safe.
  - intros st F rest Hs Hu Hz Hl Hrec. by apply rtu_integrity_safe.
Defined.

#[export] Instance backend_guarded b : Guarded (backend_of b) :=
  match b with
  | RTU_BACKEND => rtu_guarded | TCP_BACKEND => tcp_guarded | TCP_PI_BACKEND => tcp_pi_guarded
  end.
End guarded.

(** ** The receiving loop *)
Section any_line.
Context {W : Type} `{OS W} {FU : Fuel} {EF : EnoughFuel} {BC : BuildConfig}.
Context (be : modbus_backend_t W) {FR : Framing be} {GU : Guarded be}.
Context (mt : msg_type_t) (msg0 : buf) (Hmsg : max_adu_length be <= zlen msg0).
Context (st0 : state W) (Hrec : error_recovery (ctx st0) = MODBUS_ERROR_RECOVERY_NONE).

Definition got (F : list Z) : buf := (Some <$> F) ++ drop (length F) msg0.

(** How far the message [F] has come: [n] bytes to the end of the step. *)
Definition going (F : list Z) (step : _step_t) (n : Z) : Prop := 0 <= n /\ match step with
  | _STEP_FUNCTION => 0 < n /\ zlen F + n = header_length be + 1
  | _STEP_META => 0 < n /\ header_length be + 1 <= zlen F /\ zlen F + n = meta_end be mt F
  | _STEP_DATA => header_length be + 1 <= zlen F /\ meta_end be mt F <= zlen F /\
      zlen F + n = meta_end be mt F + announced_data be mt F + checksum_length be
  end.

Definition fine (st : state W) : Prop := sane st /\ same_settings (ctx st0) (ctx st).
Lemma fine_errno st e : fine st -> fine (State e (hp st) (ctx st) (world st)).
Proof. intros [Hs Hc]. split; [by apply sane_errno|done]. Qed.
Lemma fine_no_recovery st : fine st ->
  recovery_link (ctx st) = false /\ recovery_protocol (ctx st) = false.
Proof.
  intros [_ [Hm _]]. unfold recovery_link, recovery_protocol. rewrite Hm. cbn. by rewrite Hrec.
Qed.

Lemma meta_range f : 0 <= compute_meta_length_after_function f mt <= 9.
Proof.
  unfold compute_meta_length_after_function. destruct mt;
    repeat match goal with |- context [if ?x then _ else _] => destruct x end; vm_compute; by split.
Qed.
Lemma announced_data_nonneg F : Forall is_u8 F -> 0 <= announced_data be mt F.
Proof.
  intros Hu. pose proof (fun i => nth_u8 F i Hu). unfold announced_data.
  destruct mt; repeat match goal with |- context [if ?x then _ else _] => destruct x end; auto; lia.
Qed.

Lemma step_meta_safe F r st : Forall is_u8 F -> header_length be + 1 <= zlen F ->
  zlen F = meta_end be mt F -> fine st ->
  wp (receive_step_meta be ((Some <$> F) ++ r) (zlen F) mt) (fun o st' => fine st' /\
    forall n step, o = Some (n, step) -> going F step n /\ zlen F + n <= max_adu_length be) st.
Proof.
  intros Hu Hh Hm Hf. unfold receive_step_meta. apply wp_bind.
  eapply wp_eq; [apply data_length_any; (done || lia)|].
  pose proof (announced_data_nonneg F Hu). pose proof (checksum_bounds (be := be)).
  destruct (Z.ltb_spec (max_adu_length be) (zlen F + (announced_data be mt F + checksum_length be))).
  - split; [by apply fine_errno|done].
  - apply wp_ret. split; [done|]. intros n step [= <- <-]. unfold going. split_and!; lia.
Qed.

(** All bytes of the step are there. *)
Definition arrived (F : list Z) (step : _step_t) : Prop := header_length be + 1 <= zlen F /\ match step with
  | _STEP_FUNCTION => zlen F = header_length be + 1
  | _STEP_META => zlen F = meta_end be mt F
  | _STEP_DATA => meta_end be mt F <= zlen F /\
      zlen F = meta_end be mt F + announced_data be mt F + checksum_length be
  end.

Lemma next_step_safe F step (r : buf) st : Forall is_u8 F -> arrived F step -> zlen F <= max_adu_length be ->
  fine st ->
  wp (receive_next_step be ((Some <$> F) ++ r) (zlen F) step mt) (fun o st' => fine st' /\
    forall n step', o = Some (n, step') -> going F step' n /\ zlen F + n <= max_adu_length be) st.
Proof.
  intros Hu [Hh Ha] Hz Hf. pose proof (header_bounds (be := be)).
  destruct step; cbn [receive_next_step].
  - apply wp_bind. eapply wp_eq.
    { apply rd_eq; [lia|]. apply lookup_prefix.
      destruct (lookup_lt_is_Some_2 F (Z.to_nat (header_length be))) as [x Hx]; [unfold zlen in *; lia|].
      rewrite Hx. f_equal. symmetry. exact (nth_lookup_Some _ _ 0 _ Hx). }
    set (f := nth _ F 0). pose proof (meta_range f) as Hr.
    destruct (Z.eqb_spec (compute_meta_length_after_function f mt) 0) as [E0|]; cbn [negb].
    + apply step_meta_safe; [done|done| |done]. unfold meta_end. fold f. lia.
    + apply wp_ret. split; [done|]. intros k step [= <- <-].
      pose proof (max_adu_eq (be := be)). pose proof (checksum_bounds (be := be)).
      unfold going, meta_end. fold f. split_and!; lia.
  - by apply step_meta_safe.
  - apply wp_ret. split; [done|]. intros n step [= <- <-]. unfold going. split_and!; lia.
Qed.

(** Before a turn. *)
Definition turn_inv (l : recv_locals) (st : state W) : Prop := exists F, r_msg l = got F /\
  r_msg_length l = zlen F /\ Forall is_u8 F /\ going F (r_step l) (r_length_to_read l) /\
  zlen F + r_length_to_read l <= max_adu_length be /\ fine st.

(** What the loop leaves: nothing, or a complete message at the front of the buffer. *)
Definition received_any (o : option (buf * Z)) (b : buf) : Prop := zlen b = zlen msg0 /\
  (exists F, Forall is_u8 F /\ b = got F) /\ forall b' n, o = Some (b', n) -> b' = b /\ exists F, complete be mt F /\ b = got F /\ n = zlen F.

Lemma zlen_got F : zlen F <= zlen msg0 -> zlen (got F) = zlen msg0.
Proof. unfold got, zlen. rewrite length_app, length_fmap, length_drop. lia. Qed.

(** More bytes of the same step. *)
Lemma going_more F step n l : Forall is_u8 F -> going F step n -> zlen l <= n ->
  if zlen l =? n then arrived (F ++ l) step else going (F ++ l) step (n - zlen l).
Proof.
  intros Hu [Hn Hg] Hl. pose proof (zlen_nonneg l).
  assert (Hst : header_length be + 1 <= zlen F -> meta_end be mt (F ++ l) = meta_end be mt F)
    by exact (meta_prefix be mt F l).
  assert (Han : header_length be + 1 <= zlen F -> meta_end be mt F <= zlen F ->
    announced_data be mt (F ++ l) = announced_data be mt F) by (exact (fun Hh Hm => announced_prefix be mt F l Hu Hh Hm)).
  pose proof (zlen_app F l) as Ha. unfold arrived, going.
  destruct (Z.eqb_spec (zlen l) n) as [E|E], step; rewrite ?Hst, ?Han by lia; lia.
Qed.

(** The loop gives up. *)
Lemma none_received F st : Forall is_u8 F -> fine st -> zlen F <= zlen msg0 ->
  received_any None (got F) /\ fine st.
Proof. intros Hu Hf Hz. split; [|done]. split; [by apply zlen_got|]. split; [by exists F|done]. Qed.

Lemma turn_safe l st : turn_inv l st ->
  wp (receive_turn be mt l) (fun r st' => match r with
    | inl l' => turn_inv l' st' /\ r_msg_length l < r_msg_length l'
    | inr (o, b) => received_any o b /\ fine st'
    end) st.
Proof.
  intros (F & Em & Ek & Hu & Hg & Hb & Hf). pose proof (max_adu_le (be := be)). unfold MAX_MESSAGE_LENGTH in *.
  assert (Hz : zlen F <= zlen msg0) by (destruct Hg; lia).
  unfold receive_turn. set (n := r_length_to_read l) in *. rewrite Em, Ek.
  destruct (Z.eqb_spec n 0) as [E0|Hn].
  { apply wp_ret. split; [|done]. split; [by apply zlen_got|]. split; [by exists F|]. intros b' k [= <- <-]. split; [done|].
    exists F. split; [|done]. destruct Hg as [_ Hg]. rewrite E0 in *. split; [|lia|done].
    destruct (r_step l); lia. }
  assert (Hpos : 0 < n) by (destruct Hg; lia).
  apply wp_bind. eapply wp_mono; [by apply select_safe; [apply Hf|]|].
  intros rc1 st1 [Hs1 Hc1]. cbn beta in *.
  assert (Hf1 : fine st1) by (split; [done|by etransitivity; [apply Hf|]]).
  destruct (fine_no_recovery st1 Hf1) as [Hl1 _].
  destruct (rc1 =? -1).
  { unfold receive_select_failed. apply wp_bind, wp_bind. eapply wp_eq; [reflexivity|].
    rewrite Hl1. apply wp_ret, wp_ret. by apply none_received. }
  assert (Hzd : zlen (drop (length F) msg0) = zlen msg0 - zlen F) by (unfold zlen in *; rewrite length_drop; lia).
  unfold got at 1. rewrite <- (zlen_fmap Some F) at 1.
  pose proof (zlen_nonneg F). apply wp_bind. eapply wp_mono; [by apply recv_safe; [exact Hs1|lia|lia]|].
  intros [rc b] st2 (Hs2 & Hc2 & Hrc & Hle & Hgt).
  assert (Hf2 : fine st2) by (split; [done|by etransitivity; [apply Hf1|]]).
  assert (Hfail : forall s2, fine s2 -> b = got F ->
    wp (receive_recv_failed be ;;; ret (inr (None, b))) (fun r st' => match r with
      | inl l' => turn_inv l' st' /\ zlen F < r_msg_length l'
      | inr (o, b) => received_any o b /\ fine st' end) s2).
  { intros s2 Hfs ->. unfold receive_recv_failed. destruct (fine_no_recovery s2 Hfs) as [Hl2 _].
    apply wp_bind, wp_bind. eapply wp_eq; [reflexivity|]. apply wp_bind. eapply wp_eq; [reflexivity|].
    rewrite Hl2. apply wp_ret, wp_ret. by apply none_received. }
  destruct (Z.eqb_spec rc 0) as [->|Hrc0].
  { apply wp_bind. eapply wp_eq; [reflexivity|]. apply Hfail; [by apply fine_errno|]. apply Hle. lia. }
  apply wp_bind, wp_ret. destruct (Z.eqb_spec rc (-1)) as [->|Hrc1]; [apply Hfail; [done|apply Hle; lia]|].
  destruct Hgt as (k & <- & Huk & ->); [lia|].
  assert (Hgot : (Some <$> F) ++ (Some <$> k) ++ drop (length k) (drop (length F) msg0) = got (F ++ k)).
  { unfold got. by rewrite fmap_app, <- app_assoc, length_app, drop_drop. }
  rewrite Hgot. replace (zlen F + zlen k) with (zlen (F ++ k)) by apply zlen_app.
  assert (HuFk : Forall is_u8 (F ++ k)) by (by apply Forall_app).
  pose proof (going_more F (r_step l) n k Hu Hg ltac:(lia)) as Hmore.
  pose proof (zlen_app F k) as HzFk.
  replace (n - zlen k =? 0) with (zlen k =? n) by lia. apply wp_bind.
  eapply (wp_mono _ (fun o st' => fine st' /\ forall n' step', o = Some (n', step') ->
    going (F ++ k) step' n' /\ zlen (F ++ k) + n' <= max_adu_length be)).
  - destruct (zlen k =? n); [apply next_step_safe; (done || lia)|].
    apply wp_ret. split; [done|]. intros n' step' [= <- <-]. split; [done|lia].
  - intros [[n' step']|] st3 [Hf3 Hnext]; [|by apply wp_ret, none_received; [| |lia]].
    destruct (Hnext _ _ eq_refl) as [Hg' Hb']. apply wp_bind. eapply wp_eq; [reflexivity|].
    apply wp_ret. split; [|cbn; lia]. by exists (F ++ k).
Qed.

(** Receiving ends, with an error or with a complete message. *)
Lemma receive_safe : sane st0 -> wp (_modbus_receive_msg be msg0 mt) (fun '(rc, b) st' => fine st' /\
    zlen b = zlen msg0 /\ (exists F, Forall is_u8 F /\ b = got F) /\ -1 <= rc <= max_adu_length be /\
    (0 < rc -> exists F, complete be mt F /\ zlen F = rc /\ b = got F)) st0.
Proof.
  intros Hs. pose proof (header_bounds (be := be)). pose proof (checksum_bounds (be := be)).
  pose proof (max_adu_eq (be := be)). pose proof (max_adu_le (be := be)). unfold MAX_MESSAGE_LENGTH in *.
  unfold _modbus_receive_msg. apply wp_bind. eapply wp_eq; [reflexivity|]. apply wp_bind.
  set (l0 := Build_recv_locals _ _ _ _ _).
  eapply wp_mono; [apply (wp_while _ turn_inv (fun l _ => Z.to_nat (max_adu_length be - r_msg_length l))
    (fun '(o, b) st' => received_any o b /\ fine st'))|].
  - intros l st Hl. eapply wp_mono; [by apply turn_safe|]. intros [l'|[o b]] st' Hr; [|done].
    destruct Hr as [Hl' Hlt]. split; [done|].
    destruct Hl' as (F & _ & Ek & _ & [Hg _] & Hb & _). lia.
  - exists []. unfold got, going. cbn. change (zlen (@nil Z)) with 0. split_and!; (done || lia).
  - cbn. pose proof enough_fuel. lia.
  - intros [[[b' k]|] b] st' [(Hz & Hg & Ho) Hf].
    + destruct (Ho _ _ eq_refl) as (-> & F & Hc & -> & ->). apply wp_bind.
      destruct (fine_no_recovery st' Hf) as [_ Hp].
      assert (Hlen : header_length be + 1 + checksum_length be <= zlen F).
      { rewrite (complete_length _ _ _ Hc). unfold meta_end. pose proof (announced_data_nonneg F (complete_bytes _ _ _ Hc)).
        pose proof (meta_range (nth (Z.to_nat (header_length be)) F 0)). lia. }
      pose proof (complete_bound _ _ _ Hc).
      eapply wp_mono; [apply integrity_safe; [apply Hf|apply Hc|lia|done|done]|].
      intros rc st2 (Hs2 & Hc2 & Hrc). apply wp_ret. cbn beta iota. split; [split; [done|by etransitivity; [apply Hf|]]|].
      split; [done|]. split; [done|]. split; [lia|]. intros Hpos. exists F. split_and!; (done || lia).
    + apply wp_ret. split_and!; (done || lia).
Qed.
End any_line.

(** ** The public entry points *)
Section entry.
Context {W : Type} `{OS W} {OL : OSLaws W} {FU : Fuel} {EF : EnoughFuel} {PF : PatientFuel W} {BC : BuildConfig}.

(** Marking the next message on the line as one to ignore keeps the port sane. *)
Lemma upd_ignore_safe v (st : state W) : rtu_sane st ->
  wp (upd_rtu (with_confirmation_to_ignore v)) (fun _ st' => rtu_sane st' /\ same_members (ctx st) (ctx st')) st.
Proof.
  intros (d & ws & Ed & Ews & Hs). unfold upd_rtu. eapply wp_get_rtu; [exact Ed|].
  split; [by exists (with_confirmation_to_ignore v d), ws|]. cbn. by destruct (ctx st).
Qed.

(** What a reception leaves: the settings, a buffer whose first cells are bytes,
    and at its front the message a positive result announces. *)
Definition reception (b : backend_id) (mt : msg_type_t) (query : buf) (st : state W) (r : Z * buf)
    (st' : state W) : Prop := let be := backend_of (W := W) b in
  sane (be := be) st' /\ same_members (ctx st) (ctx st') /\ zlen (snd r) = zlen query /\
  (exists F, Forall is_u8 F /\ snd r = (Some <$> F) ++ drop (length F) query) /\
  -1 <= fst r <= max_adu_length be /\
  (0 < fst r -> exists F, complete be mt F /\ zlen F = fst r /\ snd r = (Some <$> F) ++ drop (length F) query).

Lemma receive_msg_safe b mt query (st : state W) : sane (be := backend_of b) st ->
  error_recovery (ctx st) = MODBUS_ERROR_RECOVERY_NONE -> max_adu_length (backend_of (W := W) b) <= zlen query ->
  wp (_modbus_receive_msg (backend_of b) query mt) (reception b mt query st) st.
Proof.
  intros Hs Hrec Hq. eapply wp_mono; [by apply (receive_safe (backend_of b) mt query Hq st Hrec)|].
  by intros [rc req] st' ([? [? _]] & ?).
Qed.

Lemma rtu_receive_safe query (st : state W) : rtu_sane st ->
  error_recovery (ctx st) = MODBUS_ERROR_RECOVERY_NONE -> 256 <= zlen query ->
  wp (_modbus_rtu_receive _modbus_rtu_backend query) (reception RTU_BACKEND MSG_INDICATION query st) st.
Proof.
  intros Hs Hrec Hq. pose proof Hs as (d & ws & Ed & _).
  unfold _modbus_rtu_receive. eapply wp_get_rtu; [exact Ed|].
  destruct (confirmation_to_ignore d); apply wp_bind.
  - eapply wp_mono; [by apply (receive_msg_safe RTU_BACKEND)|]. intros [rc req] st' (Hs' & Hset & Hz & Hg & Hrc & _).
    cbn beta iota. apply wp_bind. eapply wp_mono; [by apply upd_ignore_safe|]. intros [] st2 [Hs2 Hset2].
    apply wp_ret. split; [done|]. split; [by etransitivity|]. cbn [fst snd] in *. split; [done|]. split; [done|].
    change (max_adu_length _) with 256. lia.
  - eapply wp_mono; [by apply (receive_msg_safe RTU_BACKEND)|]. intros [rc req] st' (Hs' & Hset & Hrest).
    cbn beta iota. apply wp_bind. destruct (rc =? 0); [|by apply wp_ret, wp_ret].
    eapply wp_mono; [by apply upd_ignore_safe|]. intros [] st2 [Hs2 Hset2]. apply wp_ret.
    split; [done|]. split; [by etransitivity|done].
Qed.

Lemma modbus_receive_safe query (st : state W) : let b := backend (ctx st) in
  sane (be := backend_of b) st -> error_recovery (ctx st) = MODBUS_ERROR_RECOVERY_NONE ->
  max_adu_length (backend_of (W := W) b) <= zlen query ->
  wp (modbus_receive CTX query) (reception b MSG_INDICATION query st) st.
Proof.
  intros b Hs Hrec Hq. unfold b in *. unfold modbus_receive. apply wp_bind. eapply wp_eq; [reflexivity|].
  destruct (backend (ctx st)); [by apply rtu_receive_safe|..].
  - by apply (receive_msg_safe TCP_BACKEND).
  - by apply (receive_msg_safe TCP_PI_BACKEND).
Qed.
End entry.

(** C5: reception is memory safe and ends, whatever is on the line. On any
    platform that keeps the documented contract of its calls, for each backend,
    [modbus_receive] without error recovery terminates without undefined
    behaviour, returns -1, 0 or a length that fits, leaves the backend's data
    sound, and a positive result is the length of one complete message, which
    stands at the front of the buffer, the rest of which is untouched. *)
Theorem receive_stays_in_bounds {W} `{OS W} {OL : OSLaws W} {FU : Fuel} {EF : EnoughFuel}
    {PF : PatientFuel W} {BC : BuildConfig} query (st : state W) : let be := backend_of (backend (ctx st)) in
  sane (be := be) st -> error_recovery (ctx st) = MODBUS_ERROR_RECOVERY_NONE ->
  max_adu_length be <= zlen query ->
  wp (modbus_receive CTX query) (fun '(rc, req) st' => sane (be := be) st' /\
    zlen req = zlen query /\ -1 <= rc <= max_adu_length be /\
    (0 < rc -> exists F, complete be MSG_INDICATION F /\ zlen F = rc /\
       req = (Some <$> F) ++ drop (length F) query)) st.
Proof.
  intros be Hs Hrec Hq. eapply wp_mono; [by apply modbus_receive_safe|].
  by intros [rc req] st' (? & _ & ? & _ & ?).
Qed.

(** ** The theorem on a concrete input *)

(** A platform made of a source and a sink keeps the contract if the source does. *)
Section transport_laws.
Context {W : Type} (take_bytes : W -> Z -> W * list Z) (readable : W -> bool) (give : W -> list Z -> W).
Hypothesis take_ok : forall w n, 0 <= n -> zlen (snd (take_bytes w n)) <= n /\ Forall is_u8 (snd (take_bytes w n)).

#[program] Definition transport_laws : @OSLaws W (transport_os take_bytes readable give) :=
  {| eintr_left _ := 0%nat |}.
Next Obligation.
  intros w so n w' e rc l Hn E. cbn in E. pose proof (take_ok w n Hn) as [Hl Hu].
  destruct (take_bytes w n) as [w2 l2]. injection E as <- <- <- <-. cbn in *. pose proof (zlen_nonneg l2).
  split; [lia|]. by split.
Qed.
Next Obligation. intros w so l w' e rc [= <- <- <-]. pose proof (zlen_nonneg l). lia. Qed.
Next Obligation.
  intros w h n w' e l Hn E. cbn in E. pose proof (take_ok w n Hn) as [Hl Hu].
  destruct (take_bytes w n) as [w2 l2]. injection E as <- <- <-. by split.
Qed.
Next Obligation. intros w h l w' e n [= <- <- <-]. pose proof (zlen_nonneg l). lia. Qed.
Next Obligation. intros w so tv w' e E. cbn in E. by destruct (readable w). Qed.
End transport_laws.

Lemma taken_ok (q : list Z) n k : 0 <= n -> k <= n ->
  zlen (u8 <$> take (Z.to_nat k) q) <= n /\ Forall is_u8 (u8 <$> take (Z.to_nat k) q).
Proof.
  intros Hn Hk. unfold zlen. rewrite length_fmap, length_take. split; [lia|].
  apply Forall_fmap, Forall_true. intros x. apply u8_range.
Qed.
#[export] Instance pipe_laws : OSLaws pipe.
Proof. apply transport_laws. intros w n Hn. apply taken_ok; lia. Defined.
#[export] Instance pipe_patient : PatientFuel pipe.
Proof. intros w. cbn. unfold fuel, test_fuel. lia. Qed.

(** Noise on a serial line: a length byte that does not match what follows. *)
Definition noisy_line : state pipe :=
  start (rtu_ctx 17) {| rx := [17; 16; 0; 0; 0; 1; 255; 3; 3; 3]; tx := []; chunk := 4 |}.
Lemma receive_stays_in_bounds_witness :
  wp (modbus_receive CTX (uninit 256)) (fun '(rc, req) _ => zlen req = 256 /\ -1 <= rc <= 256) noisy_line.
Proof.
  eapply wp_mono; [apply (receive_stays_in_bounds (W := pipe) (uninit 256) noisy_line)|].
  - do 2 eexists. split; [reflexivity|]. split; [reflexivity|]. split; [done|]. by exists [], (replicate 512 (Some 0)).
  - done.
  - done.
  - intros [rc req] st' (_ & Hz & Hrc & _). by split.
Defined.
