(* ===== verification/Strings.v ===== *)
(** [strlcpy] of modbus-tcp.c, the bounded string copy of the constructors: what
    it stores, that it never leaves the destination, and its result. *)
From S2P Require Import Prelude Platform Backend Rtu Tcp Core Config.
#[local] Open Scope Z_scope.

(** The characters of a C string, and an array that holds one. *)
Definition chars (l : list Z) : Prop := Forall (fun x => x <> 0 /\ is_u8 x) l.
Definition string_at (src : buf) (l : list Z) : Prop :=
  chars l /\ exists rest, src = (Some <$> l) ++ Some 0 :: rest.

(** The array after [k] characters of [l] were copied to its front. *)
Definition copied (l : list Z) (dest : buf) (k : nat) : buf := (Some <$> take k l) ++ drop k dest.

(** What [strlcpy] makes of a destination: as much of the string as fits in front
    of the terminating zero. *)
Definition strlcpy_result (l : list Z) (dest : buf) (size : Z) : buf :=
  if size =? 0 then dest
  else let k := Nat.min (length l) (Z.to_nat (size - 1)) in
       (Some <$> take k l) ++ Some 0 :: drop (S k) dest.

Section strlcpy_proof.
Context {S : Type}.
Implicit Types (s : S) (l : list Z) (dest src : buf).

Lemma copied_snoc l dest k x : l !! k = Some x -> (k < length dest)%nat ->
  <[k := Some x]> (copied l dest k) = copied l dest (k + 1).
Proof.
  intros Hx Hk. pose proof (lookup_lt_Some _ _ _ Hx). unfold copied.
  rewrite insert_app_r_alt by (rewrite length_fmap, length_take; lia).
  rewrite length_fmap, length_take, Nat.min_l, Nat.sub_diag by lia.
  rewrite Nat.add_1_r, (take_S_r _ _ _ Hx), fmap_app, <- app_assoc.
  destruct (lookup_lt_is_Some_2 dest k Hk) as [y Hy]. by rewrite (drop_S _ _ _ Hy).
Qed.
Lemma copied_end l dest k : (k <= length l)%nat -> (k < length dest)%nat ->
  <[k := Some 0]> (copied l dest k) = (Some <$> take k l) ++ Some 0 :: drop (Datatypes.S k) dest.
Proof.
  intros Hl Hk. unfold copied.
  rewrite insert_app_r_alt by (rewrite length_fmap, length_take; lia).
  rewrite length_fmap, length_take, Nat.min_l, Nat.sub_diag by lia.
  destruct (lookup_lt_is_Some_2 dest k Hk) as [y Hy]. by rewrite (drop_S _ _ _ Hy).
Qed.
Lemma length_copied l dest k : (k <= length l)%nat -> (k <= length dest)%nat ->
  length (copied l dest k) = length dest.
Proof. intros. unfold copied. rewrite length_app, length_fmap, length_take, length_drop. lia. Qed.

(** The character at index [k], or the terminator. *)
Lemma rd_string src l k s : string_at src l -> (k <= length l)%nat ->
  rd src (Z.of_nat k) s = Ret (default 0 (l !! k)) s.
Proof.
  intros [_ [rest ->]] Hk. apply rd_eq; [lia|]. rewrite Nat2Z.id.
  destruct (decide (k < length l)%nat) as [Hlt|Hge].
  - destruct (lookup_lt_is_Some_2 l k Hlt) as [x Hx]. rewrite Hx. by apply lookup_prefix.
  - rewrite lookup_app_r by (rewrite length_fmap; lia). rewrite length_fmap.
    replace (k - length l)%nat with 0%nat by lia.
    by rewrite (lookup_ge_None_2 l k) by lia.
Qed.
Lemma string_char src l k x : string_at src l -> l !! k = Some x -> (x =? 0) = false /\ u8 x = x.
Proof.
  intros [Hc _] Hx. destruct (Forall_lookup_1 _ _ _ _ Hc Hx) as [? ?].
  split; [lia|by apply u8_id].
Qed.

(** The copying loop: the whole string with its zero, or the room used up. *)
Definition copy_end l dest (n0 : Z) (r : buf * Z * Z * Z) : Prop :=
  let L := length l in
  if decide (Z.of_nat L < n0) then
    r = ((Some <$> l) ++ Some 0 :: drop (Datatypes.S L) dest, Z.of_nat L + 1, Z.of_nat L + 1, n0 - Z.of_nat L)
  else r = (copied l dest (Z.to_nat n0), n0, n0, 0).

Lemma strlcpy_copy_ok dest src l n0 s : string_at src l -> 1 <= n0 < zlen dest ->
  wp (strlcpy_copy dest src n0) (fun r s' => s' = s /\ copy_end l dest n0 r) s.
Proof.
  intros Hsrc Hn. unfold zlen in Hn. unfold strlcpy_copy.
  apply (wp_while _
    (fun '(d', d, i, n) s' => s' = s /\ exists k : nat, d' = copied l dest k /\ d = Z.of_nat k /\
       i = Z.of_nat k /\ n = n0 - Z.of_nat k /\ 1 <= n /\ (k <= length l)%nat)
    (fun '(_, _, _, n) _ => Z.to_nat (n - 1))).
  2: { split; [done|]. exists 0%nat. split_and!; try done; lia. }
  2: lia.
  intros [[[d' d] i] n] s' [-> (k & -> & -> & -> & -> & Hk1 & Hk2)].
  unfold wp. erewrite bind_ret_eq by by apply rd_string.
  erewrite bind_ret_eq by (apply wr_eq; unfold zlen; rewrite length_copied by lia; lia).
  rewrite Nat2Z.id. destruct (l !! k) as [x|] eqn:Hx; cbn [default].
  - destruct (string_char _ _ _ _ Hsrc Hx) as [E0 E8]. change (id x) with x. rewrite E0, E8.
    pose proof (lookup_lt_Some _ _ _ Hx).
    rewrite copied_snoc by (done || lia). destruct (Z.eqb_spec (n0 - Z.of_nat k - 1) 0); cbn.
    + split; [done|]. unfold copy_end. rewrite decide_False by lia.
      repeat f_equal; lia.
    + split; [|lia]. split; [done|]. exists (k + 1)%nat. split_and!; try done; lia.
  - apply lookup_ge_None in Hx. replace k with (length l) in * by lia. cbn. split; [done|].
    unfold copy_end. rewrite decide_True by lia.
    rewrite copied_end, take_ge by lia. done.
Qed.

Lemma strlcpy_skip_ok src l k s : string_at src l -> (k <= length l)%nat ->
  wp (strlcpy_skip src (Z.of_nat k)) (fun i s' => s' = s /\ i = zlen l + 1) s.
Proof.
  intros Hsrc Hk. unfold strlcpy_skip.
  assert (Hlen : (length l < length src)%nat).
  { destruct Hsrc as [_ [rest ->]]. rewrite length_app, length_fmap. cbn. lia. }
  apply (wp_while _ (fun i s' => s' = s /\ exists j : nat, i = Z.of_nat j /\ (j <= length l)%nat)
    (fun i _ => (length l - Z.to_nat i)%nat)).
  2: { split; [done|]. by exists k. }
  2: lia.
  intros i s' [-> (j & -> & Hj)]. unfold wp. erewrite bind_ret_eq by by apply rd_string.
  destruct (l !! j) as [x|] eqn:Hx; cbn [default].
  - destruct (string_char _ _ _ _ Hsrc Hx) as [E0 _]. change (id x) with x. rewrite E0.
    pose proof (lookup_lt_Some _ _ _ Hx). cbn. split; [|lia]. split; [done|]. exists (j + 1)%nat. lia.
  - apply lookup_ge_None in Hx. cbn. split; [done|]. unfold zlen. lia.
Qed.

Lemma strlcpy_eq dest src l size s : string_at src l -> 0 <= size <= zlen dest ->
  strlcpy dest src size s = Ret (zlen l, strlcpy_result l dest size) s.
Proof.
  intros Hsrc Hsz. assert (E : wp (strlcpy dest src size)
    (fun r s' => s' = s /\ r = (zlen l, strlcpy_result l dest size)) s).
  2: { apply wp_inv in E as (r & s' & -> & -> & ->). done. }
  unfold strlcpy, strlcpy_result. destruct (Z.eqb_spec size 0) as [->|Hne]; cbn [negb andb].
  { unfold wp. rewrite (bind_ret_eq _ _ _ (dest, 0, 0, 0) s) by done. cbn beta iota.
    change (0 =? 0) with true. cbn iota. rewrite bind_assoc, (bind_ret_eq (ret dest) _ _ dest s) by done.
    change 0 with (Z.of_nat 0) at 1.
    destruct (wp_inv _ _ _ (strlcpy_skip_ok src l 0 s Hsrc ltac:(lia))) as (i & s' & E & -> & ->).
    rewrite bind_assoc. erewrite bind_ret_eq by exact E. cbn. split; [done|]. f_equal. lia. }
  apply wp_bind. destruct (Z.eqb_spec (size - 1) 0) as [E1|E1]; cbn [negb].
  - (* no room for a character *)
    replace size with 1 in * by lia. apply wp_ret. cbn beta iota. change (1 - 1 =? 0) with true. cbn iota.
    unfold wp. rewrite bind_assoc.
    erewrite bind_ret_eq by (apply wr_eq; lia). rewrite bind_assoc.
    change 0 with (Z.of_nat 0) at 1.
    destruct (wp_inv _ _ _ (strlcpy_skip_ok src l 0 s Hsrc ltac:(lia))) as (i & s' & E & -> & ->).
    erewrite bind_ret_eq by exact E. cbn. split; [done|].
    destruct dest; [cbn in Hsz; unfold zlen in Hsz; cbn in Hsz; lia|]. cbn.
    replace (Nat.min (length l) (Z.to_nat (1 - 1))) with 0%nat by lia. cbn. f_equal. lia.
  - eapply wp_mono; [apply strlcpy_copy_ok; [done|lia]|].
    intros [[[d' d] i] n] s' [-> Hend]. unfold copy_end in Hend.
    destruct (decide _) as [Hlt|Hge]; injection Hend as -> -> -> ->.
    + rewrite (proj2 (Z.eqb_neq _ 0)) by lia. unfold wp. cbn.
      split; [done|]. unfold zlen. rewrite Nat.min_l, take_ge by lia. f_equal. lia.
    + cbn [Z.eqb]. unfold wp. rewrite bind_assoc. unfold zlen in Hsz.
      erewrite bind_ret_eq by (apply wr_eq; unfold zlen; rewrite length_copied by lia; lia).
      rewrite bind_assoc.
      destruct (wp_inv _ _ _ (strlcpy_skip_ok src l (Z.to_nat (size - 1)) s Hsrc ltac:(lia)))
        as (i & s' & E & -> & ->).
      rewrite Z2Nat.id in E by lia. erewrite bind_ret_eq by exact E. cbn. split; [done|].
      change (u8 0) with 0. rewrite copied_end by lia. rewrite Nat.min_r by lia. f_equal. unfold zlen. lia.
Qed.
End strlcpy_proof.

(** C26: [strlcpy] stays in bounds. For any string and any destination with at
    least [size] cells it completes, returns the length of the string, changes
    nothing behind the first [size] cells, and leaves there the string, cut to
    [size - 1] characters and always terminated, unless [size] is 0. *)
Theorem strlcpy_bounded {St} dest src l size (s : St) : string_at src l -> 0 <= size <= zlen dest ->
  exists dest', strlcpy dest src size s = Ret (zlen l, dest') s /\ zlen dest' = zlen dest /\
    (forall i, size <= i -> dest' !! Z.to_nat i = dest !! Z.to_nat i) /\
    (0 < size -> string_at dest' (take (Z.to_nat (size - 1)) l)).
Proof.
  intros Hsrc Hsz. exists (strlcpy_result l dest size). split; [by apply strlcpy_eq|].
  unfold strlcpy_result. destruct (Z.eqb_spec size 0); [split_and!; [done|done|lia]|].
  set (k := Nat.min (length l) (Z.to_nat (size - 1))). unfold zlen in *.
  assert (Hk : length (Some <$> take k l) = k) by (rewrite length_fmap, length_take; lia).
  split_and!.
  - rewrite length_app, Hk. cbn [length]. rewrite length_drop. lia.
  - intros i Hi. rewrite lookup_app_r by lia. rewrite Hk.
    rewrite lookup_cons_ne_0 by lia. rewrite lookup_drop. f_equal. lia.
  - intros _. destruct Hsrc as [Hc _]. split; [by apply Forall_take|].
    exists (drop (S k) dest). f_equal. f_equal. unfold k.
    destruct (Nat.le_gt_cases (length l) (Z.to_nat (size - 1))).
    + by rewrite Nat.min_l, !take_ge by lia.
    + by rewrite Nat.min_r by lia.
Qed.
(** "192.168.1.10" cut to 7 characters in an array of 10. *)
Lemma strlcpy_bounded_witness :
  exists dest', strlcpy (uninit 10) (Some <$> [49; 57; 50; 46; 49; 54; 56; 46; 49; 46; 49; 48; 0]) 8 tt
    = Ret (12, dest') tt /\ string_at dest' [49; 57; 50; 46; 49; 54; 56].
Proof.
  destruct (strlcpy_bounded (uninit 10) (Some <$> [49; 57; 50; 46; 49; 54; 56; 46; 49; 46; 49; 48; 0])
    [49; 57; 50; 46; 49; 54; 56; 46; 49; 46; 49; 48] 8 tt) as (d & E & _ & _ & Hs).
  - split; [|by exists []]. repeat constructor; unfold is_u8; lia.
  - vm_compute. split; discriminate.
  - exists d. split; [exact E|]. apply Hs. reflexivity.
Defined.
