(* ===== verification/Settings.v ===== *)
(** The settings of a context: the timeouts a program sets are the ones it gets
    back, and the slave, recovery and debug settings change nothing else. *)
From S2P Require Import Prelude Platform Backend Rtu Tcp Core Config Receive Loopback.
#[local] Open Scope Z_scope.

Lemma u32_i32 x : is_u32 x -> u32 (i32 x) = x.
Proof. unfold is_u32, u32, i32. intros H. zdiv. Qed.
Lemma i32_range x : -2147483648 <= i32 x < 2147483648.
Proof. unfold i32. zdiv. Qed.
Lemma i32_small x : 0 <= x < 2147483648 -> i32 x = x.
Proof. unfold i32. intros H. zdiv. Qed.
Lemma i32_large x : 2147483648 <= x < 4294967296 -> i32 x = x - 4294967296.
Proof. unfold i32. intros H. zdiv. Qed.

(** The two timeouts: setter, getter, the member, and what the setter accepts. *)
Inductive timeout := ResponseTimeout | ByteTimeout.

Section timeouts.
Context {W : Type} `{OS W} {FU : Fuel} {BC : BuildConfig}.

Definition set_timeout (k : timeout) : ctx_ptr -> Z -> Z -> P W Z :=
  match k with ResponseTimeout => modbus_set_response_timeout | ByteTimeout => modbus_set_byte_timeout end.
Definition get_timeout (k : timeout) : ctx_ptr -> P W (Z * option (Z * Z)) :=
  match k with ResponseTimeout => modbus_get_response_timeout | ByteTimeout => modbus_get_byte_timeout end.
Definition timeout_of (k : timeout) (c : modbus_t) : timeval :=
  match k with ResponseTimeout => response_timeout c | ByteTimeout => byte_timeout c end.
Definition with_timeout (k : timeout) (v : timeval) (c : modbus_t) : modbus_t :=
  match k with ResponseTimeout => with_response_timeout v c | ByteTimeout => with_byte_timeout v c end.
Definition timeout_ok (k : timeout) (sec usec : Z) : bool :=
  (usec <=? 999999) && match k with ResponseTimeout => negb ((sec =? 0) && (usec =? 0)) | ByteTimeout => true end.

Lemma set_timeout_eq k sec usec (st : state W) :
  set_timeout k CTX sec usec st =
    if timeout_ok k sec usec
    then Ret 0 (State (errno st) (hp st)
           (with_timeout k {| tv_sec := i32 sec; tv_usec := i32 usec |} (ctx st)) (world st))
    else Ret (-1) (State EINVAL (hp st) (ctx st) (world st)).
Proof.
  unfold timeout_ok; destruct k; cbn [set_timeout]; unfold modbus_set_response_timeout, modbus_set_byte_timeout;
    rewrite (Z.leb_antisym 999999 usec); destruct (999999 <? usec); cbn [negb andb orb].
  - by rewrite orb_true_r.
  - rewrite orb_false_r. by destruct ((sec =? 0) && (usec =? 0)).
  - done.
  - done.
Qed.
Lemma get_timeout_eq k (st : state W) :
  get_timeout k CTX st = Ret (0, Some (u32 (tv_sec (timeout_of k (ctx st))), u32 (tv_usec (timeout_of k (ctx st))))) st.
Proof. by destruct k. Qed.
End timeouts.

(** The timeouts of a context. Every pair of 32-bit numbers is either
    refused with EINVAL and changes nothing, which happens exactly for a
    microsecond count of a second or more and for a response timeout of zero,
    or it is the pair the getter returns. Seconds from 2^31 on are kept as a
    negative [tv_sec]. *)
Theorem timeout_roundtrip {W} `{OS W} {FU : Fuel} {BC : BuildConfig} k sec usec (st : state W) :
  is_u32 sec -> is_u32 usec ->
  wp (let* rc := set_timeout k CTX sec usec in let* r := get_timeout k CTX in ret (rc, r))
    (fun '(rc, (rc', got)) st' => rc' = 0 /\
       if timeout_ok k sec usec
       then rc = 0 /\ got = Some (sec, usec) /\ errno st' = errno st /\
            (0 <= tv_sec (timeout_of k (ctx st')) <-> sec < 2147483648) /\
            ctx st' = with_timeout k (timeout_of k (ctx st')) (ctx st)
       else rc = -1 /\ errno st' = EINVAL /\ ctx st' = ctx st) st.
Proof.
  intros Hs Hu. apply wp_bind. unfold wp at 1. rewrite set_timeout_eq.
  destruct (timeout_ok k sec usec).
  - apply wp_bind. eapply wp_eq; [apply get_timeout_eq|]. apply wp_ret. split; [done|].
    assert (Ht : forall v, timeout_of k (with_timeout k v (ctx st)) = v) by (by destruct k).
    cbn [ctx]. rewrite Ht. cbn [tv_sec tv_usec]. rewrite !u32_i32 by done. split_and!; try done.
    unfold is_u32 in *. destruct (Z.lt_ge_cases sec 2147483648); [rewrite i32_small|rewrite i32_large]; lia.
  - apply wp_bind. eapply wp_eq; [apply get_timeout_eq|]. by apply wp_ret.
Qed.
Lemma timeout_roundtrip_witness :
  wp (let* rc := set_timeout ResponseTimeout CTX 4294967295 250000 in
      let* r := get_timeout ResponseTimeout CTX in ret (rc, r))
    (fun '(rc, (_, got)) st' => rc = 0 /\ got = Some (4294967295, 250000) /\
       ~ 0 <= tv_sec (timeout_of ResponseTimeout (ctx st')))
    (start (tcp_ctx 1) {| rx := []; tx := []; chunk := 1 |}).
Proof.
  eapply wp_mono; [apply (timeout_roundtrip (W := pipe)); unfold is_u32; lia|].
  intros [rc [rc' got]] st' (_ & -> & -> & _ & Hn & _). split; [done|]. split; [done|]. rewrite Hn. lia.
Defined.

(** ** Slave addresses *)

(** The slaves a context accepts: 0 to 247, and over TCP also 255. *)
Definition slave_ok (b : backend_id) (sl : Z) : bool :=
  (0 <=? sl) && (sl <=? 247) || match b with RTU_BACKEND => false | _ => sl =? MODBUS_TCP_SLAVE end.

(** [modbus_set_slave] accepts exactly the addresses of the backend, stores
    the accepted one and nothing else, and refuses the others with EINVAL. *)
Theorem set_slave_decides {W} `{OS W} {FU : Fuel} {BC : BuildConfig} sl (st : state W) :
  modbus_set_slave CTX sl st =
    if slave_ok (backend (ctx st)) sl
    then Ret 0 (State (errno st) (hp st) (with_slave sl (ctx st)) (world st))
    else Ret (-1) (State EINVAL (hp st) (ctx st) (world st)).
Proof.
  unfold modbus_set_slave, get_backend, slave_ok. rewrite bind_assoc.
  rewrite (bind_ret_eq get_ctx _ st (ctx st) st eq_refl), (bind_ret_eq (ret _) _ st _ st eq_refl).
  destruct (backend (ctx st)); cbn [backend_of set_slave _modbus_rtu_backend _modbus_tcp_backend _modbus_tcp_pi_backend];
    unfold _modbus_rtu_set_slave, _modbus_tcp_set_slave; destruct ((0 <=? sl) && (sl <=? 247)); cbn [orb]; try done;
    by destruct (sl =? MODBUS_TCP_SLAVE).
Qed.
