(* ===== verification/Sending.v ===== *)
(** Sending: how often a message is put on the line. Without link recovery
    [send_msg] transmits once; with it, on a network that drops connections, refuses
    new ones and fails in other ways, it waits, flushes or reconnects, and
    tries again until the network takes the message. A raw request goes out as the
    frame of its bytes. *)
From S2P Require Import Prelude Platform Crc Backend Rtu Tcp Core Framing Receive ReplyProofs Strings Config Mapping Reply Spec Loopback Serial.
#[local] Open Scope Z_scope.

(** ** One transmission *)
Section once.
Context {W : Type} `{OS W} {FU : Fuel} {BC : BuildConfig}.

(** Transmitting changes neither the context nor the heap. *)
Lemma transmit_keeps b l (st : state W) : wp (transmit (be := backend_of b) l)
  (fun _ st' => ctx st' = ctx st) st \/
  exists f, transmit (be := backend_of b) l st = Fault f.
Proof.
  destruct b; cbn.
  - unfold rtu_transmit, get_ser, get_rtu, wp, bind, get_ctx.
    destruct (backend_data (ctx st)) as [d| |]; [|right; by eexists..]. cbn.
    destruct (w_ser d) as [ws|]; [left|right; by eexists]. cbn. unfold sys.
    destruct (os_write_file _ _ _) as [[w e] [n|]]; done.
  - left. unfold tcp_transmit, wp, bind, get_ctx, sys. by destruct (os_send _ _ _) as [[w e] rc].
  - left. unfold tcp_transmit, wp, bind, get_ctx, sys. by destruct (os_send _ _ _) as [[w e] rc].
Qed.

(** Without link recovery the loop is left after its first turn. *)
Lemma send_frame_once b l (st : state W) : (0 < fuel)%nat -> recovery_link (ctx st) = false ->
  send_frame (backend_of b) l st =
    (let* rc := transmit (be := backend_of b) l in
     if (0 <? rc) && negb (rc =? zlen l) then err EMBBADDATA else ret rc) st.
Proof.
  intros Hf Hr. destruct (transmit_keeps b l st) as [Ht|[f Ht]].
  - apply wp_inv in Ht as (rc & st' & E & Ec).
    assert (Ea : frame_attempt (backend_of b) l st = Ret rc st').
    { unfold frame_attempt. erewrite bind_ret_eq by exact E.
      rewrite (bind_ret_eq get_ctx _ st' (ctx st') st' eq_refl). by rewrite Ec, Hr, andb_false_r. }
    unfold send_frame. erewrite bind_ret_eq.
    2: { apply while_once; [done|]. erewrite bind_ret_eq by exact Ea.
         rewrite (bind_ret_eq get_ctx _ st' (ctx st') st' eq_refl). by rewrite Ec, Hr. }
    by erewrite bind_ret_eq by exact E.
  - unfold send_frame, bind at 1. destruct fuel as [|n] eqn:En; [lia|]. cbn [while_loop].
    unfold frame_attempt, bind. by rewrite !Ht.
Qed.
End once.

(** Without link recovery a message is transmitted once. For a message under
    construction (a header and a PDU that fits) on any of the three backends,
    [send_msg] completes it to the frame, makes exactly one transfer call, and
    returns its result, or -1 with EMBBADDATA if it took a part only. *)
Theorem send_msg_single {W} `{OS W} {FU : Fuel} {BC : BuildConfig} b sft size pdu msg n :
  (0 < fuel)%nat -> is_msg (backend_of (W := W) b) size sft pdu msg n -> zlen pdu <= 253 ->
  header_length (backend_of (W := W) b) + zlen pdu + checksum_length (backend_of (W := W) b) <= size ->
  let frame := adu (be := backend_of (W := W) b) sft pdu in
  exists r, forall st, recovery_link (ctx st) = false ->
    send_msg (backend_of b) msg n st =
      (let* rc := transmit (be := backend_of b) frame in
       if (0 <? rc) && negb (rc =? zlen frame)
       then let* rc := err EMBBADDATA in ret (rc, (Some <$> frame) ++ r)
       else ret (rc, (Some <$> frame) ++ r)) st.
Proof.
  intros Hf Hm Hl Hs frame. destruct (send_is_msg _ _ _ _ _ _ Hm Hl Hs) as [r E].
  exists r. intros st Hr. rewrite E.
  rewrite (bind_eq _ _ _ st (send_frame_once b (adu sft pdu) st Hf Hr)), bind_assoc.
  apply bind_ext; [done|]. intros rc st'. fold frame. by destruct ((0 <? rc) && negb (rc =? zlen frame)).
Qed.

(** A request header over TCP for register 107, in a 12-byte array. *)
Definition sample_msg : buf :=
  (Some <$> [0; 7; 0; 0; 0; 0; 17]) ++ (Some <$> [3; 0; 107; 0; 3]).
Lemma send_msg_single_witness :
  send_msg (backend_of TCP_BACKEND) sample_msg 12 (start (tcp_ctx 17) {| rx := []; tx := []; chunk := 8 |})
  = Ret (12, Some <$> [0; 7; 0; 0; 0; 6; 17; 3; 0; 107; 0; 3])
      (start (tcp_ctx 17) {| rx := []; tx := [0; 7; 0; 0; 0; 6; 17; 3; 0; 107; 0; 3]; chunk := 8 |}).
Proof.
  destruct (send_msg_single (W := pipe) TCP_BACKEND {| sft_slave := 17; sft_function := 3; sft_t_id := 7 |}
    12 [3; 0; 107; 0; 3] sample_msg 12) as [r E].
  - unfold fuel, test_fuel. lia.
  - exists (Some <$> [0; 7; 0; 0; 0; 0; 17]), []. split; [by do 2 eexists|]. split; [done|].
    split; [done|]. split; [done|].
    apply (Forall_impl (fun x => (0 <=? x) && (x <? 256) = true)); [by repeat constructor|unfold is_u8; lia].
  - vm_compute. discriminate.
  - vm_compute. discriminate.
  - refine (eq_trans (E (start (tcp_ctx 17) {| rx := []; tx := []; chunk := 8 |}) eq_refl) _).
    assert (r = []) as ->; [|reflexivity].
    pose proof (E (start (tcp_ctx 17) {| rx := []; tx := []; chunk := 8 |}) eq_refl) as E1.
    vm_compute in E1. by injection E1.
Defined.

(** ** Raw requests *)
Section raw.
Context {W : Type} `{OS W} {FU : Fuel} {BC : BuildConfig}.

Lemma raw_request_eq b l rest (st : state W) : backend (ctx st) = b -> Forall is_u8 l -> 2 <= zlen l <= 254 ->
  let sft := {| sft_slave := nth 0 l 0; sft_function := nth 1 l 0; sft_t_id := 0 |} in
  modbus_send_raw_request CTX ((Some <$> l) ++ rest) (zlen l) st =
    send_frame (backend_of b) (adu (be := backend_of b) sft (tail l)) st.
Proof.
  intros Hb Hu Hl sft. destruct l as [|sl [|fn data]]; [unfold zlen in Hl; cbn in Hl; lia..|].
  pose proof (zlen_nonneg data) as Hnn. rewrite !zlen_cons in *.
  apply Forall_cons in Hu as [Hsl Hu]. apply Forall_cons in Hu as [Hfn Hu].
  unfold modbus_send_raw_request, MODBUS_MAX_PDU_LENGTH.
  rewrite (proj2 (Z.ltb_ge _ _)), (proj2 (Z.ltb_ge _ _)) by lia. cbn [orb].
  unfold get_backend. rewrite bind_assoc, (bind_ret_eq get_ctx _ st (ctx st) st eq_refl).
  rewrite (bind_ret_eq (ret _) _ st _ st eq_refl), Hb.
  rewrite (bind_ret_eq _ _ _ _ _ (rd_eq ((Some <$> sl :: fn :: data) ++ rest) 0 sl st ltac:(lia) ltac:(done))).
  rewrite (bind_ret_eq _ _ _ _ _ (rd_eq ((Some <$> sl :: fn :: data) ++ rest) 1 fn st ltac:(lia) ltac:(done))).
  cbv zeta. fold sft. change {| sft_slave := sl; sft_function := fn; sft_t_id := 0 |} with sft.
  destruct (response_basis_rsp (backend_of b) sft) as (rsp & n & Hr & E).
  rewrite (bind_ret_eq _ _ _ _ _ (E st)). cbn beta iota.
  pose proof (is_rsp_len (backend_of b) _ _ _ _ Hr) as Hn.
  pose proof (header_bounds (be := backend_of (W := W) b)) as Hhb.
  assert (Hpost : exists rsp' n', is_rsp (backend_of b) sft (fn :: data) rsp' n' /\
    (if 2 <? 1 + (1 + zlen data)
     then let* req := memcpy rsp n ((Some <$> sl :: fn :: data) ++ rest) 2 (1 + (1 + zlen data) - 2) in
          ret (n + (1 + (1 + zlen data) - 2), req)
     else ret (n, rsp)) st = Ret (n', rsp') st).
  { assert (Efn : u8 (sft_function sft) = fn) by (cbn; by apply u8_id). rewrite Efn in Hr.
    change (zlen [u8 (sft_function sft)]) with 1 in Hn.
    destruct (Z.ltb_spec 2 (1 + (1 + zlen data))).
    - replace (1 + (1 + zlen data) - 2) with (zlen data) by lia.
      destruct (rsp_memcpy (backend_of b) sft [fn] data [] rest rsp n
        ((Some <$> sl :: fn :: data) ++ rest) 2 st Hr) as (rsp' & E' & Hr').
      + rewrite zlen_app, zlen_fmap, !zlen_cons. pose proof (zlen_nonneg rest). lia.
      + by rewrite app_nil_r.
      + rewrite Hn. unfold MAX_MESSAGE_LENGTH. cbn -[zlen] in *. change (zlen [fn]) with 1. lia.
      + done.
      + exists rsp', (n + zlen data). split; [exact Hr'|]. by erewrite bind_ret_eq by exact E'.
    - assert (data = []) as -> by (destruct data; [done|rewrite zlen_cons in *; pose proof (zlen_nonneg data); lia]).
      by exists rsp, n. }
  destruct Hpost as (rsp' & n' & Hr' & E'). erewrite bind_ret_eq by exact E'. cbn beta iota.
  destruct (send_rsp (backend_of b) sft (fn :: data) rsp' n' Hr') as [r Es]; [rewrite zlen_cons; lia|].
  rewrite (bind_eq _ _ _ _ (Es st)), bind_assoc. cbn [tail].
  unfold bind. destruct (send_frame _ _ st) as [rc st'| |]; done.
Qed.
End raw.

(** [modbus_send_raw_request] sends the frame of the bytes it is given: the
    first is the slave, the rest the PDU, framed as the backend frames
    responses. Fewer than 2 or more than 254 bytes are refused with EINVAL
    and nothing is sent. *)
Theorem raw_request_framed {W} `{OS W} {FU : Fuel} {BC : BuildConfig} b l rest (st : state W) :
  backend (ctx st) = b -> Forall is_u8 l ->
  let sft := {| sft_slave := nth 0 l 0; sft_function := nth 1 l 0; sft_t_id := 0 |} in
  modbus_send_raw_request CTX ((Some <$> l) ++ rest) (zlen l) st =
    (if (2 <=? zlen l) && (zlen l <=? 254)
     then send_frame (backend_of b) (adu (be := backend_of b) sft (tail l))
     else err EINVAL) st.
Proof.
  intros Hb Hu sft. destruct (Z.leb_spec 2 (zlen l)); [destruct (Z.leb_spec (zlen l) 254)|]; cbn [andb].
  - by apply raw_request_eq.
  - unfold modbus_send_raw_request, MODBUS_MAX_PDU_LENGTH.
    rewrite (proj2 (Z.ltb_ge (zlen l) 2)), (proj2 (Z.ltb_lt _ _)) by lia. done.
  - unfold modbus_send_raw_request. by rewrite (proj2 (Z.ltb_lt _ _)) by lia.
Qed.
Lemma raw_request_framed_witness :
  exists st', modbus_send_raw_request CTX ((Some <$> [17; 3; 0; 1; 0; 5]) ++ []) 6
    (start (rtu_ctx 17) {| rx := []; tx := []; chunk := 8 |}) = Ret 8 st' /\
    take 6 (tx (world st')) = [17; 3; 0; 1; 0; 5].
Proof.
  pose proof (raw_request_framed (W := pipe) RTU_BACKEND [17; 3; 0; 1; 0; 5] []
    (start (rtu_ctx 17) {| rx := []; tx := []; chunk := 8 |}) eq_refl) as T.
  specialize (T ltac:(apply (Forall_impl (fun x => (0 <=? x) && (x <? 256) = true)); [by repeat constructor|unfold is_u8; lia])).
  eexists. split; [refine (eq_trans T _); vm_compute; reflexivity|reflexivity].
Defined.

(** ** A network that fails

    A client's end of a network, with the faults still to come as a script: the
    next transmission fails as the first event says, one per event, and with an empty
    script transmissions succeed. *)
Inductive event :=
  | Dropped (e : Z) (k : nat)       (** the peer is gone, and refuses the next [k] connections *)
  | Busy (e : Z) (noise : list Z).  (** the connection lives, and bytes that belong to nothing arrive *)

Record net := Net {
  script : list event;
  refused : nat;          (** connections the peer still refuses *)
  sock : Z;               (** the socket handed out last *)
  up : bool;              (** that socket is connected *)
  opened : gset Z;        (** sockets not closed yet *)
  stale : list Z;         (** bytes waiting to be received *)
  delivered : list Z;     (** bytes the network took *)
  connects : nat;         (** connections established *)
  waits : nat             (** calls of Sleep *) }.

Definition linked (so : Z) (w : net) : bool := (so =? sock w) && up w.

(** What the calls of the operating system do to it. *)
Definition net_socket (w : net) : net :=
  Net (script w) (refused w) (sock w + 1) false ({[sock w + 1]} ∪ opened w) (stale w) (delivered w) (connects w) (waits w).
Definition net_connect (so : Z) (w : net) : net :=
  if so =? sock w then
    match refused w with
    | Datatypes.S k => Net (script w) k (sock w) false (opened w) (stale w) (delivered w) (connects w) (waits w)
    | O => Net (script w) 0 (sock w) true (opened w) [] (delivered w) (Datatypes.S (connects w)) (waits w)
    end
  else w.
Definition net_send (so : Z) (l : list Z) (w : net) : net * option Z * Z :=
  if linked so w then
    match script w with
    | [] => (Net [] (refused w) (sock w) true (opened w) (stale w) (delivered w ++ l) (connects w) (waits w), None, zlen l)
    | Dropped e k :: r => (Net r k (sock w) false (opened w) (stale w) (delivered w) (connects w) (waits w), Some e, -1)
    | Busy e noise :: r =>
        (Net r (refused w) (sock w) true (opened w) (stale w ++ noise) (delivered w) (connects w) (waits w), Some e, -1)
    end
  else (w, Some EBADF, -1).
Definition with_stale (l : list Z) (w : net) : net :=
  Net (script w) (refused w) (sock w) (up w) (opened w) l (delivered w) (connects w) (waits w).
Definition net_close (so : Z) (w : net) : net :=
  Net (script w) (refused w) (sock w) (if so =? sock w then false else up w) (opened w ∖ {[so]}) (stale w) (delivered w)
    (connects w) (waits w).
Definition net_sleep (w : net) : net :=
  Net (script w) (refused w) (sock w) (up w) (opened w) (stale w) (delivered w) (connects w) (Datatypes.S (waits w)).

(** Sockets connect without blocking, so [connect] reports that it would block and
    SO_ERROR tells how it ended. A name has one address. There is no serial port. *)
#[export] Instance net_os : OS net := {|
  os_wsastartup w := (w, None, 0);
  os_wsa_last_error _ := WSAEWOULDBLOCK;
  os_socket w _ _ _ := (net_socket w, None, sock w + 1);
  os_setsockopt w _ _ _ _ := (w, None, 0);
  os_fionbio w _ := (w, None, 0);
  os_connect w so _ := (net_connect so w, None, -1);
  os_select_read w so _ := if linked so w then (w, None, if 0 <? zlen (stale w) then 1 else 0) else (w, Some EBADF, -1);
  os_select_write w _ _ := (w, None, 1);
  os_so_error w so := (w, None, (0, if linked so w then 0 else ECONNREFUSED));
  os_send w so l := net_send so l w;
  os_recv w so n := if linked so w
    then (with_stale (drop (Z.to_nat n) (stale w)) w, None, (zlen (take (Z.to_nat n) (stale w)), take (Z.to_nat n) (stale w)))
    else (w, Some EBADF, (-1, []));
  os_shutdown w _ _ := (w, None, 0);
  os_closesocket w so := (net_close so w, None, 0);
  os_bind w _ _ := (w, None, 0);
  os_listen w _ _ := (w, None, 0);
  os_accept w _ := (w, Some EBADF, -1);
  os_inet_addr _ := 0;
  os_getaddrinfo w _ _ _ :=
    (w, None, (0, [{| ai_family := AF_INET; ai_socktype := SOCK_STREAM; ai_protocol := IPPROTO_TCP; ai_addr := [] |}]));
  os_create_file w _ := (w, None, INVALID_HANDLE_VALUE);
  os_get_comm_state w _ := (w, None, None);
  os_set_comm_state w _ _ := (w, None, false);
  os_set_comm_timeouts w _ _ := (w, None, false);
  os_read_file w _ _ := (w, None, None);
  os_write_file w _ _ := (w, None, None);
  os_purge_comm w _ := (w, None, false);
  os_close_handle w _ := (w, None, false);
  os_sleep w _ := (net_sleep w, None, tt);
  os_malloc_succeeds w _ := (w, None, true)
|}.

(** The errors a dropped connection is reported with make the library reconnect, the
    others make it flush. *)
Definition fatal (e : Z) : bool := (e =? EBADF) || (e =? ECONNRESET) || (e =? EPIPE).
Definition event_ok (ev : event) : Prop := match ev with Dropped e _ => fatal e = true | Busy e _ => fatal e = false end.

(** How many transmissions an event makes fail, how many connections it costs, and
    the bytes it leaves to be flushed. *)
Definition event_tries (ev : event) : nat := match ev with Dropped _ k => Datatypes.S k | Busy _ _ => 1 end.
Definition event_connects (ev : event) : nat := match ev with Dropped _ _ => 1 | Busy _ _ => 0 end.
Definition event_noise (ev : event) : nat := match ev with Dropped _ _ => 0 | Busy _ noise => length noise end.
Definition tries (so : Z) (w : net) : nat :=
  ((if linked so w then 0 else Datatypes.S (refused w)) + sum_list_with event_tries (script w))%nat.
Definition connects_after (so : Z) (w : net) : nat :=
  (connects w + (if linked so w then 0 else 1) + sum_list_with event_connects (script w))%nat.
Definition load (w : net) : nat := (length (stale w) + sum_list_with event_noise (script w))%nat.

(** The client has no socket, or the one handed out last, and no other is open. *)
Definition one_socket (so : Z) (w : net) : Prop :=
  0 <= sock w /\ (so = -1 /\ up w = false /\ opened w = ∅ \/ so = sock w /\ opened w = {[so]}).

(** The address of the server, for each backend. *)
Definition dialable (b : backend_id) (d : backend_data_t) : Prop :=
  match b, d with
  | TCP_BACKEND, TcpData d => exists l, string_at (tcp_ip d) l
  | TCP_PI_BACKEND, TcpPiData d => (exists l, string_at (pi_node d) l) /\ exists l, string_at (pi_service d) l
  | _, _ => False
  end.

Lemma cstr_eq {W} `{OS W} (a : buf) l (st : state W) : string_at a l -> cstr a st = Ret l st.
Proof.
  intros [Hc [rest ->]]. induction Hc as [|x l [Hx _] Hc IH]; [done|]. cbn.
  rewrite (proj2 (Z.eqb_neq x 0)) by done. by erewrite bind_ret_eq by exact IH.
Qed.

Section network.
Context {FU : Fuel} {BC : BuildConfig}.
Implicit Types (w : net) (st : state net).

(** The state after a call: the socket of the context and the world. *)
Definition now e so w st : state net := State e (hp st) (with_s so (ctx st)) w.

(** *** What recovery does to the network *)
Definition hung_up w : net :=
  Net (script w) (refused w) (sock w) false ∅ (stale w) (delivered w) (connects w) (waits w).
Definition redialled w : net :=
  match refused w with
  | Datatypes.S k => Net (script w) k (sock w + 1) false ∅ (stale w) (delivered w) (connects w) (waits w)
  | O => Net (script w) 0 (sock w + 1) true {[sock w + 1]} [] (delivered w) (Datatypes.S (connects w)) (waits w)
  end.
Definition redialled_socket w : Z := match refused w with O => sock w + 1 | _ => -1 end.

Lemma net_close_eq st : one_socket (s (ctx st)) (world st) ->
  wp _modbus_tcp_close (fun _ st' => st' = now (errno st) (-1) (hung_up (world st)) st) st.
Proof.
  destruct st as [e h c [sc r so u op sl d n ws]]. intros [Hso Ho]. cbn in Hso, Ho.
  unfold _modbus_tcp_close. eapply wp_bind, wp_eq; [reflexivity|]. cbn [ctx].
  destruct Ho as [(E & -> & ->)|[E ->]]; rewrite E.
  - apply wp_ret. unfold now, hung_up. cbn. by rewrite <- E; destruct c.
  - rewrite (proj2 (Z.eqb_neq so (-1))) by lia. cbn [negb]. do 2 (eapply wp_bind, wp_eq; [reflexivity|]).
    unfold wp, upd_ctx, now, hung_up, net_close. cbn. rewrite Z.eqb_refl. do 2 f_equal. set_solver.
Qed.

(** One attempt to connect the socket just made. *)
Lemma connect_eq st so a tv : sock (world st) = so ->
  wp (_connect so a tv) (fun rc st' => exists e, st' = State e (hp st) (ctx st) (net_connect so (world st)) /\
    rc = match refused (world st) with O => 0 | _ => -1 end) st.
Proof.
  destruct st as [e h c [sc r so' u op sl d n ws]]. cbn. intros ->. unfold wp, _connect, bind, sys. cbn. unfold net_connect. cbn. rewrite Z.eqb_refl.
  destruct r as [|r]; cbn; unfold linked; cbn; rewrite Z.eqb_refl; cbn; by eexists.
Qed.

#[local] Ltac call := eapply wp_bind, wp_eq; [reflexivity|]; cbn beta iota.

Lemma tcp_dial st : dialable TCP_BACKEND (backend_data (ctx st)) -> s (ctx st) = -1 ->
  opened (world st) = ∅ -> 0 <= sock (world st) ->
  wp _modbus_tcp_connect (fun _ st' => exists e, st' = now e (redialled_socket (world st)) (redialled (world st)) st) st.
Proof.
  intros Hd Hs Ho Hso. unfold _modbus_tcp_connect, get_tcp.
  destruct (backend_data (ctx st)) as [|d|] eqn:Ed; try done. destruct Hd as [ip Hip].
  apply wp_bind. call. rewrite Ed. apply wp_ret. unfold _modbus_tcp_init_win32. apply wp_bind. call. apply wp_ret.
  do 2 call. cbn [world]. rewrite (proj2 (Z.eqb_neq (sock (world st) + 1) (-1))) by lia.
  unfold _modbus_tcp_set_ipv4_options. apply wp_bind. call. cbn [Z.eqb]. call. apply wp_ret. cbn [Z.eqb].
  eapply wp_bind, wp_eq; [by apply cstr_eq|]. call. apply wp_bind. eapply wp_mono; [by apply connect_eq|].
  cbn beta. intros rc st' (e & -> & ->). destruct st as [e0 h c [sc r so u op sl d' n ws]]. cbn in Hs, Ho, Hso |- *. subst op.
  unfold redialled, redialled_socket, now, net_connect. cbn. rewrite Z.eqb_refl. assert (Hop : {[so + 1]} ∪ ∅ = ({[so + 1]} : gset Z)) by set_solver.
  destruct r as [|r]; cbn.
  - eexists. by rewrite Hop.
  - eexists. unfold with_s, net_close. cbn. rewrite Z.eqb_refl. do 2 f_equal. set_solver.
Qed.

Lemma tcp_pi_dial st : dialable TCP_PI_BACKEND (backend_data (ctx st)) -> s (ctx st) = -1 ->
  opened (world st) = ∅ -> 0 <= sock (world st) ->
  wp _modbus_tcp_pi_connect (fun _ st' => exists e, st' = now e (redialled_socket (world st)) (redialled (world st)) st) st.
Proof.
  intros Hd Hs Ho Hso. unfold _modbus_tcp_pi_connect, get_tcp_pi.
  destruct (backend_data (ctx st)) as [| |d] eqn:Ed; try done. destruct Hd as [[node Hnode] [service Hservice]].
  apply wp_bind. call. rewrite Ed. apply wp_ret. unfold _modbus_tcp_init_win32. apply wp_bind. call. apply wp_ret. cbn [Z.eqb].
  eapply wp_bind, wp_eq; [by apply cstr_eq|]. eapply wp_bind, wp_eq; [by apply cstr_eq|]. call. cbn [Z.eqb negb].
  cbn [tcp_pi_connect_list]. unfold tcp_pi_try. cbn [ai_family ai_socktype ai_protocol]. apply wp_bind, wp_bind. call.
  cbn [world]. rewrite (proj2 (Z.ltb_ge (sock (world st) + 1) 0)) by lia. do 2 call.
  apply wp_bind. eapply wp_mono; [by apply connect_eq|]. cbn beta.
  intros rc st' (e & -> & ->). destruct st as [e0 h c [sc r so u op sl d' n ws]]. cbn in Hs, Ho, Hso |- *. subst op.
  unfold redialled, redialled_socket, now, net_connect. cbn. rewrite Z.eqb_refl. assert (Hop : {[so + 1]} ∪ ∅ = ({[so + 1]} : gset Z)) by set_solver.
  destruct r as [|r]; unfold wp, bind; cbn.
  - rewrite (proj2 (Z.ltb_ge (so + 1) 0)) by lia. eexists. by rewrite Hop.
  - rewrite Hs. cbn. eexists. unfold net_close. cbn. rewrite Z.eqb_refl. f_equal; [by rewrite <- Hs; destruct c|f_equal; set_solver].
Qed.

Lemma net_dial b st : dialable b (backend_data (ctx st)) -> s (ctx st) = -1 ->
  opened (world st) = ∅ -> 0 <= sock (world st) ->
  wp (be_connect (backend_of b)) (fun _ st' => exists e, st' = now e (redialled_socket (world st)) (redialled (world st)) st) st.
Proof. destruct b; [done|apply tcp_dial|apply tcp_pi_dial]. Qed.

(** Flushing takes what waits to be received, a buffer at a time. *)
Lemma net_flush st : linked (s (ctx st)) (world st) = true -> zlen (stale (world st)) < 260 * Z.of_nat fuel ->
  wp _modbus_tcp_flush (fun _ st' => st' = State (errno st) (hp st) (ctx st) (with_stale [] (world st))) st.
Proof.
  intros Hl Hf. unfold _modbus_tcp_flush.
  apply (wp_while _ (fun _ st' => exists l, st' = State (errno st) (hp st) (ctx st) (with_stale l (world st)) /\
      zlen l < 260 * Z.of_nat fuel)
    (fun _ st' => Z.to_nat (zlen (stale (world st')) / 260))).
  2: { exists (stale (world st)). split; [|done]. by destruct st as [e h c []]. }
  2: { pose proof (zlen_nonneg (stale (world st))). pose proof (Z.div_lt_upper_bound (zlen (stale (world st))) 260 (Z.of_nat fuel)).
       pose proof (Z.div_pos (zlen (stale (world st))) 260). lia. }
  intros sum st' (l & -> & Hlen). call. cbn [ctx].
  assert (Hl' : forall x, linked (s (ctx st)) (with_stale x (world st)) = true) by (intros; exact Hl).
  eapply wp_bind, wp_eq; [apply sys_eq; cbn; by rewrite Hl'|]. cbn [with_stale stale default ctx errno hp world].
  destruct (Z.ltb_spec 0 (zlen l)) as [Hpos|Hz]; cbn [Z.eqb Pos.eqb].
  2: { call. apply wp_ret. by destruct l; [|rewrite zlen_cons in Hz; pose proof (zlen_nonneg l); lia]. }
  apply wp_bind. eapply wp_bind, wp_eq; [apply sys_eq; cbn; by rewrite Hl'|]. apply wp_ret. cbn [fst].
  cbn [with_stale stale default ctx errno hp world]. unfold MODBUS_TCP_MAX_ADU_LENGTH. change (Z.to_nat 260) with 260%nat.
  assert (Ht : zlen (take 260 l) = Z.min 260 (zlen l)) by (unfold zlen; rewrite length_take; lia).
  assert (Hd : zlen (drop 260 l) = Z.max 0 (zlen l - 260)) by (unfold zlen; rewrite length_drop; lia).
  rewrite Ht. destruct (Z.eqb_spec (Z.min 260 (zlen l)) 260); apply wp_ret.
  - split; [exists (drop 260 l); split; [done|lia]|]. cbn. rewrite Hd. pose proof (Z.div_add (zlen l - 260) 1 260).
    replace (zlen l - 260 + 1 * 260) with (zlen l) in * by lia. pose proof (Z.div_pos (zlen l - 260) 260). rewrite Z.max_r by lia. lia.
  - rewrite (drop_ge l 260) by (unfold zlen in *; lia). done.
Qed.

(** *** An attempt *)

(** What an attempt keeps, from socket [so] and network [w] to [so'] and [w']. *)
Record on_course (so : Z) w (so' : Z) w' : Prop := {
  course_connects : connects_after so' w' = connects_after so w;
  course_load : (load w' <= load w)%nat;
  course_delivered : delivered w' = delivered w;
  course_events : Forall event_ok (script w) -> Forall event_ok (script w');
  course_socket : one_socket so w -> one_socket so' w' }.

Lemma course_trans so w so1 w1 so2 w2 : on_course so w so1 w1 -> on_course so1 w1 so2 w2 -> on_course so w so2 w2.
Proof. intros [? ? ? ? ?] [? ? ? ? ?]. split; (congruence || lia || auto). Qed.

(** A transmission that fails leaves the connection dead, or alive with bytes to flush. *)
Definition after_failure n so w (e : Z) w' : Prop := on_course so w so w' /\ waits w' = waits w /\
  if fatal e then linked so w' = false /\ tries so w' = Datatypes.S n else linked so w' = true /\ tries so w' = n.

Lemma transmit_fails l n st : tries (s (ctx st)) (world st) = Datatypes.S n -> Forall event_ok (script (world st)) ->
  wp (tcp_transmit l) (fun rc st' => rc = -1 /\ exists e w, st' = State e (hp st) (ctx st) w /\
    after_failure n (s (ctx st)) (world st) e w) st.
Proof.
  destruct st as [e0 h c w]. cbn [ctx world hp]. intros Ht He. unfold tcp_transmit. call.
  unfold wp, sys. cbn [ctx world errno hp os_send net_os]. unfold net_send.
  destruct (linked (s c) w) eqn:El.
  2: { split; [done|]. exists EBADF, w. split; [done|]. split; [by split|]. split; [done|]. cbn. by rewrite El. }
  destruct w as [sc r so u op sl d k ws]. unfold linked in El. cbn in El. apply andb_true_iff in El as [Eso ->].
  unfold tries, linked in Ht. cbn in Ht, He. rewrite Eso in Ht. cbn in Ht.
  destruct sc as [|[e j|e noise] sc]; [done| |]; apply Forall_cons in He as [Hev He]; cbn in Hev;
    (split; [done|]); exists e; eexists; (split; [reflexivity|]); unfold after_failure; rewrite Hev;
    unfold tries, linked; cbn; rewrite Eso; cbn in Ht |- *.
  - split; [|split; [done|split; [done|lia]]].
    split; unfold connects_after, load, linked; cbn; rewrite ?Eso; cbn; try done; try lia.
    intros [Hs [(_ & Hup & _)|Hown]]; [done|]. split; [done|]. by right.
  - split; [|split; [done|split; [done|lia]]].
    split; unfold connects_after, load, linked; cbn; rewrite ?Eso, ?length_app; cbn; try done; lia.
Qed.

(** Recovery brings the connection back, or uses up a refusal. *)
Definition recovered n so w so' w' : Prop := on_course so w so' w' /\ tries so' w' = n /\
  waits w' = Datatypes.S (waits w) /\ (linked so' w' = true -> stale w' = []).

Lemma redial_recovers b n st : dialable b (backend_data (ctx st)) -> one_socket (s (ctx st)) (world st) ->
  linked (s (ctx st)) (world st) = false -> tries (s (ctx st)) (world st) = Datatypes.S n ->
  wp (be_close (backend_of b) ;;; _sleep_response_timeout ;;; let* _ := be_connect (backend_of b) in ret tt)
    (fun _ st' => exists e so w, st' = now e so w st /\ recovered n (s (ctx st)) (world st) so w) st.
Proof.
  intros Hd Hone Hl Ht. pose proof Hone as [Hso _].
  assert (Eclose : be_close (backend_of b) = _modbus_tcp_close) by by destruct b. rewrite Eclose.
  apply wp_bind. eapply wp_mono; [by apply net_close_eq|]. intros [] st1 ->.
  apply wp_bind. eapply wp_bind, wp_eq; [reflexivity|]. eapply wp_eq; [by apply sys_eq|]. cbn [default].
  apply wp_bind. eapply wp_mono; [apply net_dial; done|]. intros rc st2 (e & ->). apply wp_ret.
  exists e. do 2 eexists. split; [reflexivity|].
  destruct st as [e0 h c [sc r so u op sl d k ws]]. cbn in Hso, Hl, Ht |- *. unfold tries in Ht. rewrite Hl in Ht.
  unfold redialled_socket, redialled. cbn in Ht |- *.
  destruct r as [|r]; cbn; unfold recovered, tries, linked; cbn; rewrite ?Z.eqb_refl; cbn.
  - split; [|split; [lia|done]]. split; unfold connects_after, load; rewrite ?Hl; unfold linked; cbn; rewrite ?Z.eqb_refl; cbn; try done; try lia.
    intros _. split; [cbn; lia|]. by right.
  - rewrite andb_false_r. split; [|split; [lia|done]].
    split; unfold connects_after, load; rewrite ?Hl; unfold linked; cbn; rewrite ?andb_false_r; try done; try lia.
    intros _. split; [cbn; lia|]. by left.
Qed.

Lemma flush_recovers b n st : dialable b (backend_data (ctx st)) -> linked (s (ctx st)) (world st) = true ->
  tries (s (ctx st)) (world st) = n -> Z.of_nat (load (world st)) < 260 * Z.of_nat fuel ->
  wp (_sleep_response_timeout ;;; let* _ := modbus_flush_be (backend_of b) in ret tt)
    (fun _ st' => exists e so w, st' = now e so w st /\ recovered n (s (ctx st)) (world st) so w) st.
Proof.
  intros Hd Hl Ht Hf.
  assert (Eflush : modbus_flush_be (backend_of b) = _modbus_tcp_flush) by by destruct b. rewrite Eflush.
  apply wp_bind. eapply wp_bind, wp_eq; [reflexivity|]. eapply wp_eq; [by apply sys_eq|]. cbn [default].
  apply wp_bind. eapply wp_mono; [apply net_flush|]; [exact Hl|unfold load in Hf; cbn; unfold zlen; lia|].
  intros _ st' ->. apply wp_ret. destruct st as [e0 h c [sc r so u op sl d k ws]]. cbn in *.
  exists e0, (s c). eexists. split; [unfold now; cbn; by destruct c|].
  unfold recovered, with_stale. cbn. split; [|split; [exact Ht|done]].
  split; unfold connects_after, load; cbn; try done; lia.
Qed.

Section sending.
Context (b : backend_id) `{!Framing (backend_of (W := net) b)}.
#[local] Abbreviation be := (backend_of (W := net) b).
Context (transmit_tcp : forall l, transmit (be := be) l = tcp_transmit l).

Lemma attempt_fails l n st : dialable b (backend_data (ctx st)) -> recovery_link (ctx st) = true ->
  one_socket (s (ctx st)) (world st) -> Forall event_ok (script (world st)) ->
  Z.of_nat (load (world st)) < 260 * Z.of_nat fuel -> tries (s (ctx st)) (world st) = Datatypes.S n ->
  wp (frame_attempt be l) (fun rc st' => rc = -1 /\
    exists e so w, st' = now e so w st /\ recovered n (s (ctx st)) (world st) so w) st.
Proof.
  intros Hd Hr Hone Hev Hf Ht. unfold frame_attempt. rewrite transmit_tcp. apply wp_bind.
  eapply wp_mono; [by apply transmit_fails|]. intros rc st1 (-> & e & w & -> & Hc & Hw & Hcase). call. cbn [ctx Z.eqb Pos.eqb].
  rewrite Hr. cbn [andb]. apply wp_bind. call. cbn [errno]. change ((e =? EBADF) || _ || _) with (fatal e).
  apply wp_bind. apply (wp_mono _ (fun _ st' => exists e' so w', st' = now e' so w' st /\ recovered n (s (ctx st)) w so w')).
  - destruct (fatal e), Hcase as [Hl Ht'].
    + eapply wp_mono; [apply (redial_recovers b n); cbn [ctx world]; [done|by apply (course_socket _ _ _ _ Hc)|done|done]|].
      intros _ st2 (e' & so & w' & -> & Hrec). by exists e', so, w'.
    + eapply wp_mono; [apply (flush_recovers b n); cbn [ctx world]; [done|done|done|pose proof (course_load _ _ _ _ Hc); lia]|].
      intros _ st2 (e' & so & w' & -> & Hrec). by exists e', so, w'.
  - intros _ st2 (e' & so & w' & -> & Hc' & Ht' & Hw' & Hst). eapply wp_eq; [reflexivity|]. apply wp_ret. split; [done|].
    exists e, so, w'. split; [done|]. split; [by eapply course_trans|]. split; [done|]. split; [congruence|done].
Qed.

(** What the network looks like when the message is out. *)
Definition message_out (l : list Z) (so0 : Z) w0 (so : Z) w : Prop :=
  script w = [] /\ linked so w = true /\ (one_socket so0 w0 -> one_socket so w) /\ delivered w = delivered w0 ++ l /\
  connects w = connects_after so0 w0 /\ waits w = (waits w0 + tries so0 w0)%nat /\
  stale w = match tries so0 w0 with O => stale w0 | _ => [] end.

Lemma no_tries so w : tries so w = 0%nat -> linked so w = true /\ script w = [].
Proof.
  unfold tries. destruct (linked so w); [|done]. destruct (script w) as [|[e k|e noise] sc]; cbn; [done|lia|lia].
Qed.

Lemma attempt_succeeds l st : recovery_link (ctx st) = true -> tries (s (ctx st)) (world st) = 0%nat ->
  wp (frame_attempt be l) (fun rc st' => rc = zlen l /\ exists w, st' = State (errno st) (hp st) (ctx st) w /\
    message_out l (s (ctx st)) (world st) (s (ctx st)) w) st.
Proof.
  intros Hr Ht. pose proof (no_tries _ _ Ht) as [Hl Hs]. unfold frame_attempt. rewrite transmit_tcp.
  destruct st as [e h c w]. cbn [ctx world] in *. unfold tcp_transmit. apply wp_bind. call.
  eapply wp_eq; [apply sys_eq; cbn; unfold net_send; rewrite Hl, Hs; reflexivity|]. call. pose proof (zlen_nonneg l).
  rewrite (proj2 (Z.eqb_neq (zlen l) (-1))) by lia. call. apply wp_ret. split; [done|]. eexists. split; [reflexivity|].
  unfold message_out. cbn [ctx world default]. rewrite Ht. unfold connects_after, linked in *. rewrite Hl, Hs.
  apply andb_true_iff in Hl as [Hl Hup]. cbn. rewrite Hl. split_and!; try done; try lia.
  intros [Hso [(_ & Hup' & _)|Hown]]; [congruence|]. split; [done|]. by right.
Qed.

Lemma send_frame_recovers l st : dialable b (backend_data (ctx st)) -> recovery_link (ctx st) = true ->
  one_socket (s (ctx st)) (world st) -> Forall event_ok (script (world st)) ->
  Z.of_nat (load (world st)) < 260 * Z.of_nat fuel -> (tries (s (ctx st)) (world st) < fuel)%nat ->
  wp (send_frame be l) (fun rc st' => rc = zlen l /\ exists e so w, st' = now e so w st /\
    message_out l (s (ctx st)) (world st) so w) st.
Proof.
  intros Hd Hr Hone Hev Hf Ht. set (so0 := s (ctx st)) in *. set (w0 := world st) in *. unfold send_frame. apply wp_bind.
  eapply wp_mono; [apply (wp_while _ (fun _ st' => exists e so w, st' = now e so w st /\ on_course so0 w0 so w /\
      (waits w + tries so w = waits w0 + tries so0 w0)%nat /\ (tries so w <= tries so0 w0)%nat /\
      (linked so w = true -> stale w = match tries so0 w0 with O => stale w0 | _ => [] end \/ tries so w <> 0%nat))
    (fun _ st' => tries (s (ctx st')) (world st'))
    (fun rc st' => rc = zlen l /\ exists e so w, st' = now e so w st /\ message_out l so0 w0 so w)); [| |done]|].
  - intros [] st' (e & so & w & -> & Hc & Hw & Hle & Hst). apply wp_bind.
    assert (Hr' : recovery_link (ctx (now e so w st)) = true) by done.
    destruct (tries so w) as [|n] eqn:En.
    + eapply wp_mono; [by apply attempt_succeeds|]. intros rc st2 (-> & w' & -> & Hout). call. cbn [ctx]. pose proof (zlen_nonneg l).
      rewrite (proj2 (Z.eqb_neq (zlen l) (-1))), andb_false_r by lia. apply wp_ret. split; [done|].
      exists e, so, w'. split; [done|]. destruct Hout as (? & ? & Hs' & Hdel & Hcon & Hwait & Hstale). cbn in Hs', Hdel, Hcon, Hwait, Hstale.
      rewrite En in Hwait, Hstale. pose proof (no_tries so w En) as [Hl _]. split_and!; try done.
      * intros Hone0. by apply Hs', (course_socket _ _ _ _ Hc).
      * by rewrite Hdel, (course_delivered _ _ _ _ Hc).
      * rewrite Hcon. apply (course_connects _ _ _ _ Hc).
      * lia.
      * rewrite Hstale. by destruct (Hst Hl).
    + eapply wp_mono; [apply (attempt_fails l n); [done|done|by apply (course_socket _ _ _ _ Hc)|by apply (course_events _ _ _ _ Hc)| |done]|].
      { pose proof (course_load _ _ _ _ Hc). cbn [world now]. lia. }
      intros rc st2 (-> & e' & so' & w' & -> & Hc' & Ht' & Hw' & Hst'). call. cbn [ctx now]. cbn in Hw'.
      change (recovery_link (with_s so' (with_s so (ctx st)))) with (recovery_link (ctx st)). rewrite Hr. apply wp_ret. split.
      * exists e', so', w'. split; [done|]. split; [by eapply course_trans|]. split; [lia|]. split; [lia|].
        intros Hl. left. rewrite (Hst' Hl). destruct (tries so0 w0) eqn:E0; [lia|done].
      * cbn. rewrite Ht', En. lia.
  - exists (errno st), so0, w0. split; [by destruct st as [? ? [] ?]|]. split; [by split|]. split; [done|]. split; [done|].
    intros _. destruct (tries so0 w0); [by left|by right].
  - intros rc st' (-> & Hout). cbn beta. rewrite Z.eqb_refl, andb_false_r. by apply wp_ret.
Qed.
End sending.
End network.


(** A request whose connection is reset, is refused twice, and then finds the line busy. *)
Definition faulty : state net :=
  start (with_error_recovery MODBUS_ERROR_RECOVERY_LINK (tcp_ctx 17))
    (Net [Dropped ECONNRESET 2; Busy EIO [1; 2; 3]] 0 3 true {[3]} [9] [] 1 0).
