(* ===== verification/AnyRequest.v ===== *)
(** The server against any request: whatever bytes a message holds, answering it
    stays inside the buffers and tables, ends, and leaves well-formed tables; and so
    does a server that receives and answers for ever, on any line. *)
From S2P Require Import Prelude Platform Data Crc Backend Rtu Tcp Core Framing Receive Mapping Reply Spec Bits ReplyProofs Loopback Server Serial Safety Sending.
#[local] Open Scope Z_scope.

(** A receive queue that [_modbus_tcp_flush] can empty: [queued] bounds how many
    times in a row it fills a whole buffer. *)
Class DrainingLine (W : Type) `{OS W} {FU : Fuel} := {
  queued : W -> nat;
  recv_drains : forall w so w' e rc l, os_recv w so MODBUS_TCP_MAX_ADU_LENGTH = (w', e, (rc, l)) ->
    rc = MODBUS_TCP_MAX_ADU_LENGTH -> (queued w' < queued w)%nat;
  select_drains : forall w so tv w' e rc, os_select_read w so tv = (w', e, rc) ->
    (queued w' <= queued w)%nat /\ rc <= 1;
  drain_fuel : forall w, (queued w < fuel)%nat
}.

(** ** What a backend does with bytes that need not be a frame *)
Class Answering {W} `{OS W} {BC : BuildConfig} (be : modbus_backend_t W) {FR : Framing be} {GU : Guarded be} := {
  sane_ctx : forall st st' : state W, ctx st' = ctx st -> sane (be := be) st -> sane (be := be) st';
  pre_any : forall k r, Forall is_u8 k -> header_length be + 1 <= zlen k <= header_length be + 253 ->
    checksum_length be <= zlen r ->
    exists l r', zlen l = zlen k + checksum_length be /\
      forall st, send_msg_pre be ((Some <$> k) ++ r) (zlen k) st = Ret (zlen l, (Some <$> l) ++ r') st;
  tid_any : forall R n, Forall is_u8 R -> 2 <= zlen R -> exists t,
    (forall sl f, wire_tid {| sft_slave := sl; sft_function := f; sft_t_id := t |} = t) /\
    forall st, prepare_response_tid be (Some <$> R) n st = Ret (t, n - checksum_length be) st;
  transmit_safe : forall l st, sane (be := be) st ->
    wp (transmit (be := be) l) (fun rc st' => ctx st' = ctx st /\ -1 <= rc <= zlen l) st;
  flush_safe : forall st, sane (be := be) st ->
    wp (be_flush be) (fun _ st' => sane (be := be) st' /\ same_settings (ctx st) (ctx st')) st
}.

Section answering.
Context {W : Type} `{OS W} {OL : OSLaws W} {FU : Fuel} {PF : PatientFuel W} {DL : DrainingLine W} {BC : BuildConfig}.

Lemma tcp_pre_any k r : Forall is_u8 k -> 8 <= zlen k ->
  exists l r', zlen l = zlen k + 0 /\
    forall st : state W, _modbus_tcp_send_msg_pre ((Some <$> k) ++ r) (zlen k) st = Ret (zlen l, (Some <$> l) ++ r') st.
Proof.
  intros Hu Hk. destruct k as [|k0 [|k1 [|k2 [|k3 [|k4 [|k5 k]]]]]];
    rewrite ?zlen_cons, ?zlen_nil in Hk; try lia; [pose proof (zlen_nonneg (@nil Z)); unfold zlen in *; cbn in *; lia..|].
  set (n := zlen _). exists (k0 :: k1 :: k2 :: k3 :: u8 (Z.shiftr (n - 6) 8) :: u8 (Z.land (n - 6) 255) :: k), r.
  split; [unfold n; rewrite !zlen_cons; lia|]. intros st. unfold _modbus_tcp_send_msg_pre.
  cbn [fmap list_fmap app]. pose proof (zlen_nonneg k). do 2 wr_step. unfold ret, n. by rewrite !zlen_cons.
Qed.

Lemma tcp_tid_any R n : Forall is_u8 R -> 2 <= zlen R -> exists t,
  (forall sl f, tcp_wire_tid {| sft_slave := sl; sft_function := f; sft_t_id := t |} = t) /\
  forall st : state W, _modbus_tcp_prepare_response_tid (Some <$> R) n st = Ret (t, n - 0) st.
Proof.
  intros Hu HR. destruct R as [|h [|l R]]; rewrite ?zlen_cons, ?zlen_nil in HR; [lia..|].
  apply Forall_cons in Hu as [Hh Hu]. apply Forall_cons in Hu as [Hl _].
  exists (be16 h l). split; [|intros st; by rewrite Z.sub_0_r].
  intros sl f. unfold tcp_wire_tid. cbn. by rewrite hi8_be16, lo8_be16.
Qed.

Lemma tcp_transmit_safe l (st : state W) :
  wp (tcp_transmit l) (fun rc st' => ctx st' = ctx st /\ -1 <= rc <= zlen l) st.
Proof.
  unfold tcp_transmit. eapply wp_bind, wp_eq; [reflexivity|].
  destruct (os_send (world st) (s (ctx st)) l) as [[w' e] rc] eqn:E.
  eapply wp_eq; [by apply sys_eq|]. by apply send_ok in E.
Qed.

Lemma tcp_flush_safe (st : state W) :
  wp _modbus_tcp_flush (fun _ st' => True /\ same_settings (ctx st) (ctx st')) st.
Proof.
  unfold _modbus_tcp_flush. eapply wp_mono; [apply (wp_while _ (fun _ st' => ctx st' = ctx st)
    (fun _ st' => queued (world st')) (fun _ st' => ctx st' = ctx st)); [|done|apply drain_fuel]|].
  - intros sum st1 Hc. eapply wp_bind, wp_eq; [reflexivity|]. apply wp_sys. intros w2 e2 rc E2.
    apply select_drains in E2 as [Hq2 Hle]. destruct (rc =? -1); [by apply wp_ret|]. apply wp_bind.
    eapply (wp_mono _ (fun r st' => ctx st' = ctx st /\
      (r = MODBUS_TCP_MAX_ADU_LENGTH -> (queued (world st') < queued (world st1))%nat))).
    + destruct (Z.eqb_spec rc 1) as [->|Hrc].
      * apply wp_sys. intros w3 e3 [n3 l3] E3. pose proof (recv_drains _ _ _ _ _ _ E3) as Hq3.
        apply wp_ret. split; [done|]. intros Hn. specialize (Hq3 Hn). cbn in *. lia.
      * apply wp_ret. split; [done|]. unfold MODBUS_TCP_MAX_ADU_LENGTH. lia.
    + intros r st3 [Hc3 Hq3]. cbv zeta. destruct (Z.eqb_spec r MODBUS_TCP_MAX_ADU_LENGTH) as [E|];
        apply wp_ret; [|done]. split; [done|]. by apply Hq3.
  - intros ? st' Hc. cbn beta in Hc. split; [done|]. by rewrite Hc.
Qed.

#[export] Instance tcp_answering : Answering _modbus_tcp_backend.
Proof.
  split; cbn; unfold _MODBUS_TCP_HEADER_LENGTH, _MODBUS_TCP_CHECKSUM_LENGTH.
  - done.
  - intros k r Hu Hk _. apply tcp_pre_any; [done|lia].
  - apply tcp_tid_any.
  - intros l st _. apply tcp_transmit_safe.
  - intros st _. apply tcp_flush_safe.
Qed.
#[export] Instance tcp_pi_answering : Answering _modbus_tcp_pi_backend.
Proof.
  split; cbn; unfold _MODBUS_TCP_HEADER_LENGTH, _MODBUS_TCP_CHECKSUM_LENGTH.
  - done.
  - intros k r Hu Hk _. apply tcp_pre_any; [done|lia].
  - apply tcp_tid_any.
  - intros l st _. apply tcp_transmit_safe.
  - intros st _. apply tcp_flush_safe.
Qed.

Lemma rtu_pre_any k r : Forall is_u8 k -> zlen k <= 254 -> 2 <= zlen r ->
  exists l r', zlen l = zlen k + 2 /\
    forall st : state W, _modbus_rtu_send_msg_pre ((Some <$> k) ++ r) (zlen k) st = Ret (zlen l, (Some <$> l) ++ r') st.
Proof.
  intros Hu Hk Hr. destruct r as [|c0 [|c1 r]]; rewrite ?zlen_cons, ?zlen_nil in Hr; [lia..|].
  exists (k ++ [hi8 (crc_of k); lo8 (crc_of k)]), r. split; [by rewrite zlen_app|]. intros st.
  unfold _modbus_rtu_send_msg_pre.
  erewrite bind_ret_eq; [|apply (crc16_eq _ _ k); [done|done|lia|apply lookup_prefix]].
  erewrite bind_ret_eq; [|apply wr_app; by rewrite zlen_fmap].
  erewrite bind_ret_eq; [|apply wr_app; rewrite zlen_app, zlen_fmap, zlen_cons, zlen_nil; lia].
  unfold ret. rewrite zlen_app, !zlen_cons, zlen_nil, fmap_app, <- !app_assoc. cbn. do 2 f_equal.
Qed.

Lemma rtu_transmit_safe l (st : state W) : rtu_sane st ->
  wp (rtu_transmit l) (fun rc st' => ctx st' = ctx st /\ -1 <= rc <= zlen l) st.
Proof.
  intros (d & ws & Ed & Ews & _). pose proof (zlen_nonneg l). unfold rtu_transmit.
  eapply wp_bind, wp_eq; [by eapply get_ser_eq|].
  apply wp_sys. intros w' e [k|] Ew; apply wp_ret; (split; [done|]); [apply write_file_ok in Ew|]; lia.
Qed.

Lemma rtu_flush_safe (st : state W) : rtu_sane st ->
  wp _modbus_rtu_flush (fun _ st' => rtu_sane st' /\ same_settings (ctx st) (ctx st')) st.
Proof.
  intros (d & ws & Ed & Ews & Hz & Hl). unfold _modbus_rtu_flush. eapply wp_bind, wp_eq; [by eapply get_ser_eq|].
  eapply wp_set_ser; [exact Ed|]. apply wp_sys. intros w' e ok _. apply wp_ret.
  destruct (stored_sane d {| ws_fd := ws_fd ws; ws_buf := ws_buf ws; ws_n_bytes := 0 |} ws st st Ed Ews eq_refl)
    as [Hs Hc]; [|done]. split; [done|]. by exists [], (ws_buf ws).
Qed.

#[export] Instance rtu_answering : Answering _modbus_rtu_backend.
Proof.
  split; cbn; unfold _MODBUS_RTU_HEADER_LENGTH, _MODBUS_RTU_CHECKSUM_LENGTH.
  - intros st st' Hc (d & ws & Ed & Hrest). exists d, ws. by rewrite Hc.
  - intros k r Hu Hk Hr. apply rtu_pre_any; (done || lia).
  - intros R n _ _. by exists 0.
  - apply rtu_transmit_safe.
  - apply rtu_flush_safe.
Qed.

#[export] Instance backend_answering b : Answering (backend_of b) :=
  match b with
  | RTU_BACKEND => rtu_answering | TCP_BACKEND => tcp_answering | TCP_PI_BACKEND => tcp_pi_answering
  end.
End answering.

(** ** The fields of a buffer of bytes *)
Section fields.
Context {W : Type} (R : list Z) (HR : Forall is_u8 R).
#[local] Abbreviation req := (Some <$> R : buf).

Lemma nth_bytes i : 0 <= i < zlen R ->
  R !! Z.to_nat i = Some (nth (Z.to_nat i) R 0) /\ is_u8 (nth (Z.to_nat i) R 0).
Proof.
  intros Hi. destruct (lookup_lt_is_Some_2 R (Z.to_nat i)) as [x Hx]; [unfold zlen in Hi; lia|].
  rewrite (nth_lookup_Some _ _ 0 _ Hx). split; [done|]. by eapply Forall_lookup_1 in Hx.
Qed.
Lemma rd_nth i (st : state W) : 0 <= i < zlen R -> rd req i st = Ret (nth (Z.to_nat i) R 0) st.
Proof. intros Hi. apply rd_eq; [lia|]. by rewrite list_lookup_fmap, (proj1 (nth_bytes i Hi)). Qed.

(** The 16-bit field at [i], as a number. *)
Definition word (i : Z) : Z := be16 (nth (Z.to_nat i) R 0) (nth (Z.to_nat (i + 1)) R 0).
Lemma word_u16 i : 0 <= i < zlen R - 1 -> is_u16 (word i).
Proof. intros Hi. apply be16_range; apply nth_bytes; lia. Qed.
Lemma rd16_word i (st : state W) : 0 <= i < zlen R - 1 -> rd16 req i st = Ret (word i) st.
Proof.
  intros Hi. unfold rd16. erewrite bind_ret_eq by (apply rd_nth; lia). by erewrite bind_ret_eq by (apply rd_nth; lia).
Qed.
End fields.

(** ** Answering *)
Section any_request.
Context {W : Type} `{OS W} {OL : OSLaws W} {FU : Fuel} {BC : BuildConfig}.
Context (be : modbus_backend_t W) {FR : Framing be} {GU : Guarded be} {AN : Answering be}.
Context (st0 : state W) (Hrec : error_recovery (ctx st0) = MODBUS_ERROR_RECOVERY_NONE) (Hfuel : (0 < fuel)%nat).

(** The backend's data is sound and no setting has changed. *)
Definition steady (st : state W) : Prop := sane (be := be) st /\ same_members (ctx st0) (ctx st).

Lemma steady_ctx (st st' : state W) : ctx st' = ctx st -> steady st -> steady st'.
Proof. intros E [Hs Hm]. split; [by eapply sane_ctx|by rewrite E]. Qed.
Lemma steady_settings (st st' : state W) : steady st -> sane (be := be) st' -> same_settings (ctx st) (ctx st') ->
  steady st'.
Proof. intros [_ Hm] Hs [Hc _]. split; [done|by etransitivity]. Qed.
Lemma steady_no_recovery (st : state W) : steady st -> recovery_link (ctx st) = false.
Proof. intros [_ Hm]. unfold recovery_link. rewrite Hm. cbn. by rewrite Hrec. Qed.

(** Without link recovery a frame goes out once, and nothing else happens. *)
Lemma send_frame_safe l (st : state W) : steady st ->
  wp (send_frame be l) (fun rc st' => steady st' /\ -1 <= rc <= zlen l) st.
Proof.
  intros Hst. pose proof (steady_no_recovery st Hst) as Hr. pose proof (zlen_nonneg l).
  pose proof (transmit_safe l st (proj1 Hst)) as Ht. apply wp_inv in Ht as (rc & st' & E & Ec & Hrc).
  assert (Ea : frame_attempt be l st = Ret rc st').
  { unfold frame_attempt. erewrite bind_ret_eq by exact E.
    rewrite (bind_ret_eq get_ctx _ st' (ctx st') st' eq_refl). by rewrite Ec, Hr, andb_false_r. }
  unfold send_frame. apply wp_bind. eapply wp_eq.
  { apply while_once; [done|]. erewrite bind_ret_eq by exact Ea.
    rewrite (bind_ret_eq get_ctx _ st' (ctx st') st' eq_refl). by rewrite Ec, Hr. }
  pose proof (steady_ctx _ _ Ec Hst) as Hst'.
  destruct (_ && _); [|by apply wp_ret]. split; [by eapply steady_ctx; [|exact Hst']|lia].
Qed.

(** What [modbus_reply] hands to [send_msg]: a response under construction, or
    bytes copied from the request. *)
Definition copied (rsp : buf) (n : Z) : Prop := exists k r, rsp = (Some <$> k) ++ r /\ n = zlen k /\
  Forall is_u8 k /\ header_length be + 1 <= n <= header_length be + 253 /\ checksum_length be <= zlen r.
Definition sendable (rsp : buf) (n : Z) : Prop :=
  (exists sft pdu, is_rsp be sft pdu rsp n /\ zlen pdu <= 253) \/ copied rsp n.

Lemma send_msg_copied rsp n : copied rsp n -> exists l rsp', zlen l = n + checksum_length be /\
  forall st, send_msg be rsp n st = (let* rc := send_frame be l in ret (rc, rsp')) st.
Proof.
  intros (k & r & -> & -> & Hu & Hk & Hr). destruct (pre_any k r Hu Hk Hr) as (l & r' & Hl & Hpre).
  exists l, ((Some <$> l) ++ r'). split; [done|]. intros st.
  unfold send_msg. erewrite bind_ret_eq by (apply Hpre). cbn beta iota. unfold send_frame. rewrite bind_assoc.
  apply bind_ext.
  - apply while_ext. intros a s. apply bind_ext; [apply send_attempt_frame|done].
  - intros rc s. by destruct (_ && _).
Qed.

Lemma send_safe rsp n (st : state W) : sendable rsp n -> steady st ->
  wp (send_msg be rsp n) (fun '(rc, _) st' => steady st' /\ -1 <= rc <= max_adu_length be) st.
Proof.
  intros Hsend Hst. pose proof (max_adu_eq (be := be)).
  assert (He : exists l rsp', zlen l <= max_adu_length be /\
    forall st, send_msg be rsp n st = (let* rc := send_frame be l in ret (rc, rsp')) st).
  { destruct Hsend as [(sft & pdu & Hr & Hl)|Hc].
    - destruct (send_rsp be sft pdu rsp n Hr Hl) as [rsp' E]. exists (adu sft pdu), rsp'.
      split; [|done]. rewrite (adu_length be). lia.
    - destruct (send_msg_copied rsp n Hc) as (l & rsp' & Hl & E). exists l, rsp'.
      destruct Hc as (k & r & _ & _ & _ & Hk & _). split; [lia|done]. }
  destruct He as (l & rsp' & Hl & E). unfold wp. rewrite E. apply wp_bind.
  eapply wp_mono; [by apply send_frame_safe|]. intros rc st' [? ?]. apply wp_ret. split; [done|lia].
Qed.

Lemma flush_if_safe fl (st : state W) : steady st -> wp (flush_if be fl) (fun _ st' => steady st') st.
Proof.
  intros Hst. destruct fl; [|by apply wp_ret]. unfold flush_if. apply wp_bind.
  apply (wp_mono _ (fun _ st' => steady st')).
  { unfold _sleep_response_timeout. eapply wp_bind, wp_eq; [reflexivity|].
    unfold wp, sys. destruct (os_sleep _ _) as [[w e] r]. by eapply steady_ctx; [|exact Hst]. }
  intros _ st1 Hst1. apply wp_bind. eapply wp_mono; [apply flush_safe, Hst1|].
  intros _ st2 [Hs2 Hc2]. apply wp_ret. by eapply steady_settings.
Qed.

(** *** The branches of the [switch] *)

(** A computation that only inspects memory, its result satisfying [Q]. *)
Definition inspects {A} (c : P W A) (Q : A -> Prop) : Prop :=
  forall st, wp c (fun a st' => st' = st /\ Q a) st.

Lemma inspects_ret {A} (a : A) (Q : A -> Prop) : Q a -> inspects (ret a) Q.
Proof. intros HQ st. by apply wp_ret. Qed.
Lemma inspects_bind {A B} (c : P W A) (f : A -> P W B) Q R :
  inspects c Q -> (forall a, Q a -> inspects (f a) R) -> inspects (bind c f) R.
Proof.
  intros Hc Hf st. apply wp_bind. eapply wp_mono; [apply Hc|]. intros a st' [-> Ha]. by apply Hf.
Qed.
Lemma inspects_eq {A} (c : P W A) (Q : A -> Prop) a : (forall st, c st = Ret a st) -> Q a -> inspects c Q.
Proof. intros E HQ st. by eapply wp_eq. Qed.

Context (R : list Z) (HR : Forall is_u8 R) (HRl : max_adu_length be <= zlen R).
#[local] Abbreviation req := (Some <$> R : buf).

Lemma rd_any i : 0 <= i < zlen R -> inspects (rd req i) (eq (nth (Z.to_nat i) R 0)).
Proof. intros Hi. eapply inspects_eq; [intros st; by apply rd_nth|done]. Qed.
Lemma rd16_any i : 0 <= i < zlen R - 1 -> inspects (rd16 req i) (eq (word R i)).
Proof. intros Hi. eapply inspects_eq; [intros st; by apply rd16_word|done]. Qed.
Lemma req_drop i : 0 <= i <= zlen R -> drop (Z.to_nat i) req = Some <$> drop (Z.to_nat i) R.
Proof. intros _. by rewrite fmap_drop. Qed.

Context (m : modbus_mapping_t) (Hwf : wf_mapping m).

(** The branch ends with well-formed tables and a response that can be sent. *)
Definition answers (c : P W reply_t) : Prop := forall st, steady st ->
  wp c (fun '((n, rsp), m') st' => steady st' /\ evolves m m' /\ sendable rsp n) st.

Lemma answers_bind {A} (c : P W A) f (Q : A -> Prop) :
  inspects c Q -> (forall a, Q a -> answers (f a)) -> answers (bind c f).
Proof.
  intros Hc Hf st Hst. apply wp_bind. eapply wp_mono; [apply Hc|]. intros a st' [-> Ha]. by apply Hf.
Qed.
Lemma answers_ret rsp n m' : evolves m m' -> sendable rsp n -> answers (ret ((n, rsp), m')).
Proof. intros Hm Hs st Hst. by apply wp_ret. Qed.
Lemma answers_builds sft c fl pdu m' : builds be sft c fl pdu m' -> zlen pdu <= 253 -> evolves m m' -> answers c.
Proof.
  intros Hb Hl Hm st Hst. destruct (Hb st) as (rsp & n & Hr & E). unfold wp. rewrite E.
  apply wp_bind. eapply wp_mono; [by apply flush_if_safe|]. intros [] st' Hst'. apply wp_ret.
  split; [done|]. split; [done|]. left. by exists sft, pdu.
Qed.

Lemma answers_exception sft code fl : is_u8 code -> answers (exception_reply be sft code fl m).
Proof. intros Hc. eapply answers_builds; [by apply builds_exception|done|by split]. Qed.

(** Steps of building a response. *)
Lemma basis_any sft : inspects (build_response_basis be sft (uninit MAX_MESSAGE_LENGTH))
  (fun '(n, rsp) => is_rsp be sft [u8 (sft_function sft)] rsp n).
Proof. destruct (response_basis_rsp be sft) as (rsp & n & Hr & E). by eapply inspects_eq. Qed.
Lemma put_any sft pdu rsp n v : is_rsp be sft pdu rsp n -> zlen pdu < 253 ->
  inspects (put (rsp, n) v) (fun '(rsp', n') => is_rsp be sft (pdu ++ [u8 v]) rsp' n').
Proof.
  intros Hr Hl. pose proof (is_rsp_len be _ _ _ _ Hr) as Hn. pose proof (header_bounds (be := be)).
  intros st. destruct (put_rsp be sft pdu rsp n v st Hr) as (rsp' & E & Hr'); [unfold MAX_MESSAGE_LENGTH; lia|].
  by eapply wp_eq.
Qed.
Lemma io_any sft pdu rsp n tab a nb : is_rsp be sft pdu rsp n -> 0 <= a -> 0 <= nb -> a + nb <= zlen tab ->
  Forall is_bit tab -> zlen pdu + bytes_for nb <= 253 ->
  inspects (response_io_status tab a nb rsp n) (fun '(n', rsp') =>
    is_rsp be sft (pdu ++ pack_bits (take (Z.to_nat nb) (drop (Z.to_nat a) tab))) rsp' n').
Proof.
  intros Hr Ha Hnb Hle Hb Hl st. pose proof (is_rsp_len be _ _ _ _ Hr) as Hn. pose proof (header_bounds (be := be)).
  eapply wp_mono; [apply (io_status_rsp be _ _ _ _ _ _ _ st Hr)|by intros [n' rsp'] st' [? ?]];
    (done || unfold MAX_MESSAGE_LENGTH; lia).
Qed.
Lemma put_registers_any sft pdu rsp n tab i nb : is_rsp be sft pdu rsp n -> 0 <= i -> 0 <= nb -> i + nb <= zlen tab ->
  zlen pdu + 2 * nb <= 253 ->
  inspects (put_registers tab i nb (rsp, n)) (fun '(rsp', n') =>
    is_rsp be sft (pdu ++ words_bytes (take (Z.to_nat nb) (drop (Z.to_nat i) tab))) rsp' n').
Proof.
  intros Hr Hi Hnb Hle Hl st. pose proof (is_rsp_len be _ _ _ _ Hr) as Hn. pose proof (header_bounds (be := be)).
  eapply wp_mono; [apply (put_registers_rsp be _ _ _ _ _ _ _ st Hr)|by intros [n' rsp'] st' [? ?]];
    (done || unfold MAX_MESSAGE_LENGTH; lia).
Qed.
Lemma answers_rsp sft pdu rsp n m' : is_rsp be sft pdu rsp n -> zlen pdu <= 253 -> evolves m m' ->
  answers (ret ((n, rsp), m')).
Proof. intros Hr Hl Hm. apply answers_ret; [done|]. left. by exists sft, pdu. Qed.

Lemma read_bits_any b sft a : answers (reply_read_bits be b sft req a m).
Proof.
  pose proof (header_bounds (be := be)). pose proof (checksum_bounds (be := be)). pose proof (max_adu_eq (be := be)).
  unfold reply_read_bits. cbv zeta. eapply answers_bind; [apply rd16_any; lia|]. intros n Hn.
  set (start := if b then start_input_bits m else start_bits m).
  set (nb := if b then nb_input_bits m else nb_bits m).
  set (tab := cells (if b then tab_input_bits m else tab_bits m)).
  assert (Htab : zlen tab = nb /\ Forall is_bit tab) by (subst tab nb; destruct Hwf, b; done).
  destruct (_ || _) eqn:Eq; [by apply answers_exception|]. apply orb_false_iff in Eq as [Eq1%Z.ltb_ge Eq2%Z.ltb_ge].
  destruct ((a - start <? 0) || _) eqn:Er; [by apply answers_exception|].
  apply orb_false_iff in Er as [Er1%Z.ltb_ge Er2%Z.ltb_ge]. unfold MODBUS_MAX_READ_BITS in Eq2.
  assert (Hbf : 0 <= bytes_for n <= 250) by (rewrite bytes_for_div by lia; zdiv).
  eapply answers_bind; [apply basis_any|]. intros [n0 rsp] Hr. eapply answers_bind; [by apply (put_any _ _ _ _ _ Hr)|].
  intros [rsp1 n1] Hr1. destruct Htab as [Htab Hbits].
  eapply answers_bind; [apply (io_any _ _ _ _ tab (a - start) n Hr1); [lia|lia|lia|done|]|].
  { change (zlen (_ ++ _)) with 2. lia. }
  intros [n2 rsp2] Hr2. eapply answers_rsp; [exact Hr2| |by split].
  set (bits := take _ _). assert (Hl : zlen bits <= n) by (unfold bits, zlen; rewrite length_take; lia).
  rewrite zlen_app, zlen_pack_bits, bytes_for_div by apply zlen_nonneg. change (zlen (_ ++ _)) with 2.
  pose proof (zlen_nonneg bits). zdiv.
Qed.

Lemma read_registers_any b sft a : answers (reply_read_registers be b sft req a m).
Proof.
  pose proof (header_bounds (be := be)). pose proof (checksum_bounds (be := be)). pose proof (max_adu_eq (be := be)).
  unfold reply_read_registers. cbv zeta. eapply answers_bind; [apply rd16_any; lia|]. intros n Hn.
  set (start := if b then start_input_registers m else start_registers m).
  set (nb := if b then nb_input_registers m else nb_registers m).
  set (tab := cells (if b then tab_input_registers m else tab_registers m)).
  assert (Htab : zlen tab = nb) by (subst tab nb; destruct Hwf, b; done).
  destruct (_ || _) eqn:Eq; [by apply answers_exception|]. apply orb_false_iff in Eq as [Eq1%Z.ltb_ge Eq2%Z.ltb_ge].
  destruct ((a - start <? 0) || _) eqn:Er; [by apply answers_exception|].
  apply orb_false_iff in Er as [Er1%Z.ltb_ge Er2%Z.ltb_ge]. unfold MODBUS_MAX_READ_REGISTERS in Eq2.
  eapply answers_bind; [apply basis_any|]. intros [n0 rsp] Hr. eapply answers_bind; [by apply (put_any _ _ _ _ _ Hr)|].
  intros [rsp1 n1] Hr1.
  eapply answers_bind; [apply (put_registers_any _ _ _ _ tab (a - start) n Hr1); [lia..|]|].
  { change (zlen (_ ++ _)) with 2. lia. }
  intros [rsp2 n2] Hr2. eapply answers_rsp; [exact Hr2| |by split].
  rewrite zlen_app, zlen_words_bytes. change (zlen (_ ++ _)) with 2. unfold zlen. rewrite length_take. lia.
Qed.

(** Repeating the request. *)
Lemma echo_any n m' : header_length be + 1 <= n <= header_length be + 253 -> evolves m m' ->
  answers (echo_reply req n m').
Proof.
  intros Hn Hm. pose proof (header_bounds (be := be)). pose proof (checksum_bounds (be := be)).
  pose proof (max_adu_eq (be := be)). pose proof (max_adu_le (be := be)).
  set (k := take (Z.to_nat n) R). assert (Hk : zlen k = n) by (unfold k, zlen in *; rewrite length_take; lia).
  unfold echo_reply. eapply (answers_bind _ _ (fun rsp => rsp = (Some <$> k) ++ drop (length k) (uninit MAX_MESSAGE_LENGTH))).
  - rewrite <- Hk. eapply inspects_eq; [|reflexivity]. intros st.
    apply (memcpy_app [] (uninit MAX_MESSAGE_LENGTH) req 0 k (Some <$> drop (Z.to_nat n) R)).
    + split; [done|apply zlen_nonneg].
    + change (drop (Z.to_nat 0) req) with req. unfold k. by rewrite <- fmap_app, take_drop.
    + rewrite zlen_uninit by done. lia.
  - intros rsp ->. apply answers_ret; [done|]. right. exists k. eexists. split; [reflexivity|].
    split; [done|]. split; [by apply Forall_take|]. split; [done|]. unfold MAX_MESSAGE_LENGTH, uninit, zlen in *.
    rewrite length_drop, length_replicate. lia.
Qed.

Lemma acknowledge_any sft m' : evolves m m' -> answers (acknowledge_write be sft req m').
Proof.
  intros Hm. pose proof (header_bounds (be := be)). pose proof (checksum_bounds (be := be)).
  pose proof (max_adu_eq (be := be)). unfold acknowledge_write.
  eapply answers_bind; [apply basis_any|]. intros [n rsp] Hr.
  pose proof (is_rsp_len be _ _ _ _ Hr) as Hn. change (zlen [_]) with 1 in Hn.
  set (l := take 4 (drop (Z.to_nat n) R)).
  assert (Hl : zlen l = 4) by (unfold l, zlen in *; rewrite length_take, length_drop; lia).
  eapply (answers_bind _ _ (fun rsp' => is_rsp be sft ([u8 (sft_function sft)] ++ l) rsp' (n + 4))).
  - intros st. destruct (rsp_memcpy be sft _ l (drop 4 (drop (Z.to_nat n) R)) [] rsp n req n st Hr) as (rsp' & E & Hr').
    + rewrite zlen_fmap. lia.
    + rewrite req_drop by lia. unfold l. by rewrite take_drop, app_nil_r.
    + rewrite Hl. unfold MAX_MESSAGE_LENGTH. lia.
    + by apply Forall_take, Forall_drop.
    + rewrite Hl in *. by eapply wp_eq.
  - intros rsp' Hr'. eapply answers_rsp; [exact Hr'| |done]. rewrite zlen_app, Hl. done.
Qed.

(** Stores into the writable tables. *)
Lemma write_coil_any sft n a : header_length be + 1 <= n <= header_length be + 253 ->
  answers (reply_write_single_coil be sft req n a m).
Proof.
  intros Hn. pose proof (header_bounds (be := be)). pose proof (checksum_bounds (be := be)).
  pose proof (max_adu_eq (be := be)). pose proof (wf_bits m Hwf). unfold reply_write_single_coil. cbv zeta.
  destruct (_ || _) eqn:Er; [by apply answers_exception|]. apply orb_false_iff in Er as [Er1%Z.ltb_ge Er2%Z.leb_gt].
  eapply answers_bind; [apply rd16_any; lia|]. intros v Hv. destruct (_ || _); [|by apply answers_exception].
  eapply answers_bind; [eapply inspects_eq; [intros st; apply arr_set_eq; lia|exact eq_refl]|]. intros tab <-.
  apply echo_any; [done|]. apply wf_with_bits; [done|unfold zlen in *; by rewrite length_insert|].
  apply Forall_insert; [apply Hwf|]. unfold is_bit. destruct (v =? 0); auto.
Qed.

Lemma write_register_any sft n a : header_length be + 1 <= n <= header_length be + 253 ->
  answers (reply_write_single_register be sft req n a m).
Proof.
  intros Hn. pose proof (header_bounds (be := be)). pose proof (checksum_bounds (be := be)).
  pose proof (max_adu_eq (be := be)). pose proof (wf_registers m Hwf). unfold reply_write_single_register. cbv zeta.
  destruct (_ || _) eqn:Er; [by apply answers_exception|]. apply orb_false_iff in Er as [Er1%Z.ltb_ge Er2%Z.leb_gt].
  eapply answers_bind; [apply rd16_any; lia|]. intros v Hv.
  eapply answers_bind; [eapply inspects_eq; [intros st; apply arr_set_eq; lia|exact eq_refl]|]. intros tab <-.
  apply echo_any; [done|]. apply wf_with_registers; [done|unfold zlen in *; by rewrite length_insert|].
  apply Forall_insert; [apply Hwf|apply u16_range].
Qed.

Lemma mask_write_any sft n a : header_length be + 1 <= n <= header_length be + 253 ->
  answers (reply_mask_write_register be sft req n a m).
Proof.
  intros Hn. pose proof (header_bounds (be := be)). pose proof (checksum_bounds (be := be)).
  pose proof (max_adu_eq (be := be)). pose proof (wf_registers m Hwf) as Hl. unfold reply_mask_write_register. cbv zeta.
  destruct (_ || _) eqn:Er; [by apply answers_exception|]. apply orb_false_iff in Er as [Er1%Z.ltb_ge Er2%Z.leb_gt].
  destruct (lookup_lt_is_Some_2 (cells (tab_registers m)) (Z.to_nat (a - start_registers m))) as [old Hold];
    [unfold zlen in Hl; lia|].
  eapply answers_bind; [eapply inspects_eq; [intros st; by apply arr_get_eq; [lia|exact Hold]|exact eq_refl]|]. intros d <-.
  eapply answers_bind; [apply rd16_any; lia|]. intros v Hv. eapply answers_bind; [apply rd16_any; lia|]. intros w Hw.
  eapply answers_bind; [eapply inspects_eq; [intros st; apply arr_set_eq; lia|exact eq_refl]|]. intros tab <-.
  apply echo_any; [done|]. apply wf_with_registers; [done|unfold zlen in *; by rewrite length_insert|].
  apply Forall_insert; [apply Hwf|apply u16_range].
Qed.

Lemma write_coils_any sft a : answers (reply_write_multiple_coils be sft req a m).
Proof.
  pose proof (header_bounds (be := be)). pose proof (checksum_bounds (be := be)).
  pose proof (max_adu_eq (be := be)). pose proof (wf_bits m Hwf). pose proof (wf_bits_size m Hwf).
  unfold reply_write_multiple_coils. cbv zeta. eapply answers_bind; [apply rd16_any; lia|]. intros n Hn.
  destruct (_ || _) eqn:Eq; [by apply answers_exception|]. apply orb_false_iff in Eq as [Eq1%Z.ltb_ge Eq2%Z.ltb_ge].
  destruct ((_ <? 0) || _) eqn:Er; [by apply answers_exception|].
  apply orb_false_iff in Er as [Er1%Z.ltb_ge Er2%Z.ltb_ge]. unfold MODBUS_MAX_WRITE_BITS in Eq2.
  set (data := drop (Z.to_nat (header_length be + 6)) R).
  eapply answers_bind.
  { eapply inspects_eq; [|exact eq_refl]. intros st. apply (set_bits_from_bytes_eq _ _ _ _ _ data); [lia..| |].
    - unfold data, zlen in *. rewrite length_drop. lia.
    - intros k x Hx. unfold data in Hx. rewrite lookup_drop in Hx. by rewrite list_lookup_fmap, Hx. }
  intros tab <-. apply acknowledge_any. pose proof (zlen_unpack_bits n data).
  apply wf_with_bits; [done|rewrite length_splice; lia|]. apply Forall_splice; [apply Hwf|apply unpack_bits_is_bit].
Qed.

(** The words behind [pos], which the request need not have announced. *)
Lemma store_any tab a n pos : 0 <= a -> 0 <= n -> a + n <= zlen tab -> Forall is_u16 tab -> 0 <= pos ->
  pos + 2 * n <= zlen R ->
  inspects (store_registers tab a n req pos) (fun tab' => zlen tab' = zlen tab /\ Forall is_u16 tab').
Proof.
  intros Ha Hn Hle Hu Hp Hlen. set (ws := (fun k => word R (pos + 2 * k)) <$> seqZ 0 n).
  assert (Hz : zlen ws = n) by (unfold ws; by rewrite zlen_fmap, zlen_seqZ).
  assert (Hw : Forall is_u16 ws).
  { apply Forall_fmap, Forall_forall. intros k Hk%elem_of_seqZ. apply word_u16; [done|lia]. }
  intros st. eapply wp_eq.
  { apply (store_registers_eq _ _ _ _ _ ws); [lia..|done|]. intros k w Hk Hk0. unfold ws in Hk.
    assert (k < n) by (apply lookup_lt_Some in Hk; rewrite length_fmap, length_seqZ in Hk; lia).
    rewrite list_lookup_fmap, lookup_seqZ_lt in Hk by lia. injection Hk as <-.
    replace (0 + Z.of_nat (Z.to_nat k)) with k by lia. apply rd16_word; (done || lia). }
  split; [done|]. rewrite take_ge by (unfold zlen in Hz; lia).
  split; [rewrite length_splice; lia|by apply Forall_splice].
Qed.

Lemma write_registers_any sft a : answers (reply_write_multiple_registers be sft req a m).
Proof.
  pose proof (header_bounds (be := be)). pose proof (checksum_bounds (be := be)).
  pose proof (max_adu_eq (be := be)). pose proof (wf_registers m Hwf).
  unfold reply_write_multiple_registers. cbv zeta. eapply answers_bind; [apply rd16_any; lia|]. intros n Hn.
  destruct (_ || _) eqn:Eq; [by apply answers_exception|]. apply orb_false_iff in Eq as [Eq1%Z.ltb_ge Eq2%Z.ltb_ge].
  destruct ((_ <? 0) || _) eqn:Er; [by apply answers_exception|].
  apply orb_false_iff in Er as [Er1%Z.ltb_ge Er2%Z.ltb_ge]. unfold MODBUS_MAX_WRITE_REGISTERS in Eq2.
  eapply answers_bind; [apply store_any; [lia..|apply Hwf|lia|lia]|]. intros tab [Hz Hu].
  apply acknowledge_any. apply wf_with_registers; [done|lia|done].
Qed.

(** A write part that starts below the table is the one case to exclude. *)
Lemma write_read_any sft a : start_registers m <= word R (header_length be + 5) ->
  answers (reply_write_and_read_registers be sft req a m).
Proof.
  intros Hw. pose proof (header_bounds (be := be)). pose proof (checksum_bounds (be := be)).
  pose proof (max_adu_eq (be := be)). pose proof (wf_registers m Hwf).
  unfold reply_write_and_read_registers. cbv zeta. eapply answers_bind; [apply rd16_any; lia|]. intros n _.
  eapply answers_bind; [apply rd16_any; lia|]. intros wa <-. rewrite u16_id by (apply word_u16; [done|lia]).
  eapply answers_bind; [apply rd16_any; lia|]. intros nw _. eapply answers_bind; [apply rd_any; lia|]. intros nb _.
  destruct (_ || negb _) eqn:Eq; [by apply answers_exception|].
  destruct ((_ <? 0) || _ || _ || _) eqn:Er; [by apply answers_exception|].
  apply orb_false_iff in Eq as [Eq _]. unfold MODBUS_MAX_WR_WRITE_REGISTERS, MODBUS_MAX_WR_READ_REGISTERS in Eq.
  eapply answers_bind; [apply basis_any|]. intros [n0 rsp] Hr. eapply answers_bind; [by apply (put_any _ _ _ _ _ Hr)|].
  intros [rsp1 n1] Hr1. eapply answers_bind; [apply store_any; [lia..|apply Hwf|lia|lia]|]. intros tab [Hz Hu].
  eapply answers_bind; [apply (put_registers_any _ _ _ _ tab (a - start_registers m) n Hr1); [lia..|]|].
  { change (zlen (_ ++ _)) with 2. lia. }
  intros [rsp2 n2] Hr2. eapply answers_rsp; [exact Hr2| |by apply wf_with_registers; [|lia|]].
  rewrite zlen_app, zlen_words_bytes. change (zlen (_ ++ _)) with 2. unfold zlen. rewrite length_take. lia.
Qed.

Lemma report_any sft : sft_function sft = 17 -> wire_tid sft = sft_t_id sft -> answers (reply_report_slave_id be sft m).
Proof.
  intros Ef Et. destruct (report_slave_id_ok be sft m Hwf) as (m' & Hm & _ & Hb).
  assert (E : reply_sft be sft 17 = sft) by (unfold reply_sft; rewrite Et, <- Ef; by destruct sft). rewrite E in Hb.
  eapply answers_builds; [exact Hb|apply answer_fits|exact Hm].
Qed.

(** The [switch], for any function code. *)
Definition writes_inside (f : Z) : Prop := f = MODBUS_FC_WRITE_AND_READ_REGISTERS ->
  start_registers m <= word R (header_length be + 5).

Lemma dispatch_any f sft n a : header_length be + 1 <= n <= header_length be + 253 -> sft_function sft = f ->
  wire_tid sft = sft_t_id sft -> writes_inside f ->
  forall st, steady st -> wp (reply_dispatch be f sft req n a m) (fun o st' => steady st' /\
    forall rsp k m', o = Some ((k, rsp), m') -> evolves m m' /\ sendable rsp k) st.
Proof.
  intros Hn Ef Et Hin st Hst.
  assert (Hsome : forall c, answers c -> wp (let* r := c in ret (Some r)) (fun o st' => steady st' /\
      forall rsp k m', o = Some ((k, rsp), m') -> evolves m m' /\ sendable rsp k) st).
  { intros c Hc. apply wp_bind. eapply wp_mono; [by apply Hc|]. intros [[k rsp] m'] st' (? & ? & ?).
    apply wp_ret. split; [done|]. by intros ? ? ? [= <- <- <-]. }
  unfold reply_dispatch. cbv zeta.
  repeat match goal with |- context [if f =? ?k then _ else _] => destruct (Z.eqb_spec f k) as [Hf|_] end.
  all: try (apply Hsome; auto using read_bits_any, read_registers_any, write_coil_any, write_register_any,
    write_coils_any, write_registers_any, mask_write_any; fail).
  - apply Hsome, report_any; [by rewrite Ef|done].
  - apply wp_bind. eapply wp_eq; [reflexivity|]. apply wp_ret. split; [by eapply steady_ctx; [|exact Hst]|done].
  - apply Hsome, write_read_any. auto.
  - apply Hsome, answers_exception. by split.
Qed.

(** The whole function: it ends, without a fault, with well-formed tables. *)
Lemma reply_any n : header_length be + 1 + checksum_length be <= n <= max_adu_length be ->
  writes_inside (nth (Z.to_nat (header_length be)) R 0) -> forall st, steady st ->
  wp (reply_with be req n m) (fun '(rc, m') st' => steady st' /\ evolves m m' /\ -1 <= rc <= max_adu_length be) st.
Proof.
  intros Hn Hin st Hst. pose proof (header_bounds (be := be)). pose proof (checksum_bounds (be := be)).
  pose proof (max_adu_eq (be := be)). unfold reply_with. cbv zeta.
  eapply wp_bind, wp_eq; [apply rd_nth; (done || lia)|]. set (sl := nth _ R 0).
  eapply wp_bind, wp_eq; [apply rd_nth; (done || lia)|]. set (f := nth _ R 0) in *.
  eapply wp_bind, wp_eq; [apply rd16_word; (done || lia)|].
  destruct (tid_any (be := be) R n HR) as (t & Ht & Et); [lia|]. eapply wp_bind, wp_eq; [apply Et|]. cbn beta iota.
  apply wp_bind. eapply wp_mono; [apply dispatch_any; [lia|done|apply Ht|done|exact Hst]|].
  intros [[[k rsp] m']|] st1 [Hst1 Ho]; cbn beta in *.
  - destruct (Ho _ _ _ eq_refl) as [Hm Hs]. destruct (sl =? _); [apply wp_ret; split_and!; (done || lia)|].
    apply wp_bind. eapply wp_mono; [by apply send_safe|]. intros [rc b] st2 [Hst2 Hrc]. by apply wp_ret.
  - apply wp_ret. split; [done|]. split; [by split|lia].
Qed.
End any_request.

(** C8: no request can harm the server. On any platform that keeps the documented
    contract of its calls, for each backend without error recovery
    (MODBUS_ERROR_RECOVERY_NONE, the default of a new context), [modbus_reply]
    on a buffer of arbitrary bytes - any slave, function, address, quantity and byte
    count, consistent or not - ends without undefined behaviour, leaves
    well-formed tables of the same layout and sound backend data, and returns -1 or
    a length that fits. The one condition on the bytes is [writes_inside]: the start
    of the write part of a write-and-read request is not below the register table,
    which the code does not check; C39 states the write out of bounds that happens
    otherwise. The line stops filling the buffer of a flush after a number of
    turns the fuel covers ([DrainingLine]), and interrupts stop likewise
    ([PatientFuel]). *)
Theorem any_request_is_safe {W} `{OS W} {OL : OSLaws W} {FU : Fuel} {PF : PatientFuel W} {DL : DrainingLine W}
    {BC : BuildConfig} R n m (st : state W) : let be := backend_of (backend (ctx st)) in
  sane (be := be) st -> error_recovery (ctx st) = MODBUS_ERROR_RECOVERY_NONE -> wf_mapping m ->
  Forall is_u8 R -> max_adu_length be <= zlen R ->
  header_length be + 1 + checksum_length be <= n <= max_adu_length be ->
  writes_inside be R m (nth (Z.to_nat (header_length be)) R 0) ->
  wp (modbus_reply CTX (Some <$> R) n m) (fun '(rc, m') st' => sane (be := be) st' /\
    same_members (ctx st) (ctx st') /\ evolves m m' /\ -1 <= rc <= max_adu_length be) st.
Proof.
  intros be Hs Hrec Hwf HR HRl Hn Hin. pose proof (drain_fuel (world st)) as Hf.
  unfold modbus_reply. apply wp_bind. eapply wp_eq; [reflexivity|].
  eapply wp_mono; [apply (reply_any be st Hrec ltac:(lia) R HR HRl m Hwf n Hn Hin st); by split|].
  intros [rc m'] st' ([? ?] & ? & ?). done.
Qed.

(** ** A server *)

(** [for (;;) { rc = modbus_receive(ctx, query); if (rc > 0) modbus_reply(ctx, query, rc, map); }],
    for [k] turns, the array [query] being used again and again. *)
Fixpoint serve_turns {W} `{OS W} {FU : Fuel} {BC : BuildConfig} (k : nat) (query : buf) (m : modbus_mapping_t)
    : P W (buf * modbus_mapping_t) :=
  match k with
  | O => ret (query, m)
  | Datatypes.S k =>
      let* (rc, query) := modbus_receive CTX query in
      if 0 <? rc then let* (_, m) := modbus_reply CTX query rc m in serve_turns k query m
      else serve_turns k query m
  end.

Section server.
Context {W : Type} `{OS W} {OL : OSLaws W} {FU : Fuel} {EF : EnoughFuel} {PF : PatientFuel W} {DL : DrainingLine W}
  {BC : BuildConfig}.

(** What the loop keeps, [b] being the backend: a filled array and sound tables. *)
Definition serving (b : backend_id) (m0 : modbus_mapping_t) (Q : list Z) (m : modbus_mapping_t) (st : state W) : Prop :=
  backend (ctx st) = b /\ sane (be := backend_of b) st /\
  error_recovery (ctx st) = MODBUS_ERROR_RECOVERY_NONE /\ Forall is_u8 Q /\
  max_adu_length (backend_of (W := W) b) <= zlen Q /\ evolves m0 m.

Lemma serving_step b m0 Q m Q' m' (st st' : state W) : serving b m0 Q m st ->
  sane (be := backend_of b) st' -> same_members (ctx st) (ctx st') -> Forall is_u8 Q' -> zlen Q' = zlen Q ->
  evolves m m' -> serving b m0 Q' m' st'.
Proof.
  intros (Hb & _ & Hrec & _ & Hl & [_ Hm]) Hs Hc Hu Hz [Hwf Hm'].
  split; [by rewrite (same_members_backend _ _ Hc)|]. split; [done|].
  split; [by rewrite Hc|]. split; [done|]. split; [lia|]. split; [done|by etransitivity].
Qed.

Lemma filled_again (F Q : list Z) (req : buf) : Forall is_u8 F -> Forall is_u8 Q ->
  req = (Some <$> F) ++ drop (length F) (Some <$> Q) -> exists Q', req = Some <$> Q' /\ Forall is_u8 Q'.
Proof.
  intros HF HQ ->. exists (F ++ drop (length F) Q). split; [by rewrite fmap_app, fmap_drop|].
  apply Forall_app. split; [done|by apply Forall_drop].
Qed.

(** A complete message is long enough to be answered. *)
Lemma complete_bounds b mt F : complete (backend_of (W := W) b) mt F ->
  header_length (backend_of (W := W) b) + 1 + checksum_length (backend_of (W := W) b) <= zlen F.
Proof.
  intros Hc. rewrite (complete_length _ _ _ Hc). unfold meta_end.
  pose proof (announced_data_nonneg (backend_of (W := W) b) mt F (complete_bytes _ _ _ Hc)).
  pose proof (meta_range mt (nth (Z.to_nat (header_length (backend_of (W := W) b))) F 0)). lia.
Qed.

Lemma serve_turns_safe b m0 k : start_registers m0 = 0 -> forall Q m st, serving b m0 Q m st ->
  wp (serve_turns k (Some <$> Q) m) (fun '(q, m') st' => exists Q', q = Some <$> Q' /\ zlen Q' = zlen Q /\
    serving b m0 Q' m' st') st.
Proof.
  intros Hstart. induction k as [|k IH]; intros Q m st Hsv; [by apply wp_ret; exists Q|].
  cbn [serve_turns]. pose proof Hsv as (<- & Hs & Hrec & HQ & Hl & Hwf & Hlay). apply wp_bind.
  eapply wp_mono; [apply modbus_receive_safe; [done|done|by rewrite zlen_fmap]|].
  intros [rc req] st1 (Hs1 & Hc1 & Hz & (F & HF & Hreq) & Hrc & Hpos). cbn [fst snd] in *.
  destruct (filled_again F Q req HF HQ Hreq) as (Q1 & -> & HQ1). rewrite !zlen_fmap in Hz.
  assert (Hsv1 : serving (backend (ctx st)) m0 Q1 m st1) by (eapply serving_step; by try exact Hsv).
  assert (Hagain : forall m' st', serving (backend (ctx st)) m0 Q1 m' st' ->
    wp (serve_turns k (Some <$> Q1) m') (fun '(q, m') st' => exists Q', q = Some <$> Q' /\ zlen Q' = zlen Q /\
      serving (backend (ctx st)) m0 Q' m' st') st').
  { intros m' st' Hst'. rewrite <- Hz. by apply IH. }
  destruct (Z.ltb_spec 0 rc); [|by apply Hagain]. apply wp_bind.
  destruct (Hpos ltac:(lia)) as (F' & Hcomp & <- & _). apply complete_bounds in Hcomp.
  pose proof Hsv1 as (Eb & _ & Hrec1 & _ & Hl1 & _). pose proof (drain_fuel (world st1)) as Hf.
  unfold modbus_reply. apply wp_bind. eapply wp_eq; [reflexivity|]. rewrite Eb.
  eapply wp_mono; [apply (reply_any _ st1 Hrec1 ltac:(lia) Q1 HQ1 Hl1 m Hwf); [lia| |by split]|].
  - intros _. replace (start_registers m) with (start_registers m0) by (by rewrite Hlay). rewrite Hstart.
    pose proof (header_bounds (be := backend_of (W := W) (backend (ctx st)))).
    pose proof (checksum_bounds (be := backend_of (W := W) (backend (ctx st)))).
    pose proof (max_adu_eq (be := backend_of (W := W) (backend (ctx st)))).
    apply (word_u16 Q1 HQ1). lia.
  - intros [rc' m'] st2 ([Hs2 Hc2] & Hm' & _). cbn beta iota. apply Hagain.
    eapply serving_step; [exact Hsv1|exact Hs2|exact Hc2|done|done|exact Hm'].
Qed.
End server.

(** C9: a server withstands any line. On any platform that keeps the documented
    contract of its calls, for each backend without error recovery
    (MODBUS_ERROR_RECOVERY_NONE, the default of a new context), with a register table
    that starts at address 0 - with another start C39 applies - and on a line that
    stops filling the buffer of a flush ([DrainingLine]), a server that receives into one array and answers,
    over and over, never runs into undefined behaviour and gets through every
    number of turns, whatever arrives, in whatever pieces; its tables stay
    well-formed and of the same layout. *)
Theorem server_withstands_any_line {W} `{OS W} {OL : OSLaws W} {FU : Fuel} {EF : EnoughFuel} {PF : PatientFuel W}
    {DL : DrainingLine W} {BC : BuildConfig} k Q m (st : state W) : let be := backend_of (backend (ctx st)) in
  sane (be := be) st -> error_recovery (ctx st) = MODBUS_ERROR_RECOVERY_NONE -> wf_mapping m ->
  start_registers m = 0 -> Forall is_u8 Q -> max_adu_length be <= zlen Q ->
  wp (serve_turns k (Some <$> Q) m) (fun '(_, m') st' => sane (be := be) st' /\ evolves m m') st.
Proof.
  intros be Hs Hrec Hwf Hstart HQ Hl.
  eapply wp_mono; [apply (serve_turns_safe (backend (ctx st)) m k Hstart Q m st); by split_and!|].
  intros [q m'] st' (Q' & _ & _ & _ & Hs' & _ & _ & _ & Hm). done.
Qed.

(** ** The theorems on concrete inputs *)

(** A network that hands over at most eight bytes at a time. *)
Record trickle := { to_come : list Z; gone : list Z }.
Definition trickle_take (w : trickle) (n : Z) : trickle * list Z :=
  let k := Z.to_nat (Z.min n 8) in
  ({| to_come := drop k (to_come w); gone := gone w |}, u8 <$> take k (to_come w)).
#[export] Instance trickle_os : OS trickle :=
  transport_os trickle_take (fun w => match to_come w with [] => false | _ => true end)
    (fun w l => {| to_come := to_come w; gone := gone w ++ l |}).
#[export] Instance trickle_laws : OSLaws trickle.
Proof. apply transport_laws. intros w n Hn. apply taken_ok; lia. Defined.
#[export] Instance trickle_patient : PatientFuel trickle.
Proof. intros w. cbn. unfold fuel, test_fuel. lia. Qed.
#[export] Instance trickle_drains : DrainingLine trickle.
Proof.
  refine {| queued _ := 0%nat |}.
  - intros w so w' e rc l E Hrc. exfalso. cbn in E. injection E as _ _ <- _.
    pose proof (taken_ok (to_come w) 8 8 ltac:(lia) ltac:(lia)) as [Hl _]. unfold MODBUS_TCP_MAX_ADU_LENGTH in *.
    change (Z.to_nat (260 `min` 8)) with (Z.to_nat 8) in Hrc. lia.
  - intros w so tv w' e rc E. cbn in E. destruct (to_come w); injection E as <- _ <-; lia.
  - intros w. unfold fuel, test_fuel. lia.
Defined.

Definition zero_map : modbus_mapping_t := mk_mapping 0 [0; 1; 0] 0 [1] 0 [7; 8; 9] 0 [5].
Lemma zero_map_wf : wf_mapping zero_map.
Proof.
  split; try done; unfold zero_map, mk_mapping, mk_table, is_bit, is_u16; cbn; repeat constructor; lia.
Qed.

(** An array left over from earlier messages, and a request that claims to write
    two registers but carries none. *)
Definition stale : list Z := replicate 260 170.
Definition hostile : list Z := [0; 1; 0; 0; 0; 7; 17; 16; 0; 1; 0; 2; 0].
Lemma bytes_u8 l : forallb (fun x => (0 <=? x) && (x <? 256)) l = true -> Forall is_u8 l.
Proof.
  rewrite forallb_forall, Forall_forall. intros Hl x Hx. apply list_elem_of_In in Hx. specialize (Hl x Hx).
  unfold is_u8. lia.
Qed.

Lemma any_request_is_safe_witness :
  wp (modbus_reply CTX (Some <$> (hostile ++ drop 13 stale)) 13 zero_map)
    (fun '(rc, m') _ => evolves zero_map m' /\ -1 <= rc <= 260)
    (start (tcp_ctx 17) {| to_come := []; gone := [] |}).
Proof.
  eapply wp_mono; [apply (any_request_is_safe (W := trickle) (hostile ++ drop 13 stale) 13 zero_map)|].
  - done.
  - reflexivity.
  - apply zero_map_wf.
  - by apply bytes_u8.
  - vm_compute. discriminate.
  - vm_compute. split; discriminate.
  - intros E. vm_compute in E. discriminate.
  - intros [rc m'] st' (_ & _ & ? & ?). done.
Defined.

Lemma server_withstands_any_line_witness :
  wp (serve_turns 5 (Some <$> stale) zero_map) (fun '(_, m') _ => evolves zero_map m')
    (start (rtu_ctx 17) {| to_come := [17; 16; 0; 0; 0; 1; 255; 3; 3; 3]; gone := [] |}).
Proof.
  eapply wp_mono; [apply (server_withstands_any_line (W := trickle) 5 stale zero_map)|].
  - do 2 eexists. split; [reflexivity|]. split; [reflexivity|]. split; [done|]. by exists [], (replicate 512 (Some 0)).
  - reflexivity.
  - apply zero_map_wf.
  - reflexivity.
  - by apply bytes_u8.
  - vm_compute. discriminate.
  - intros [q m'] st' (_ & ?). done.
Defined.

(** The write handlers never compare the byte count with the quantity: the
    hostile request is acknowledged, and two registers take bytes
    that were in the array before it arrived. *)
Example short_write_stores_stale :
  match serve_turns 1 (Some <$> stale) zero_map (start (tcp_ctx 17) {| to_come := hostile; gone := [] |}) with
  | Ret (_, m') st' => cells (tab_registers m') = [7; 43690; 43690] /\
      gone (world st') = [0; 1; 0; 0; 0; 6; 17; 16; 0; 1; 0; 2]
  | _ => False
  end.
Proof. vm_compute. by split. Qed.
