(* ===== verification/Memory.v ===== *)
(** Ownership of heap blocks: what the allocating functions of the library leave
    on the heap. The tables of a server ([modbus_mapping_new] and
    [modbus_mapping_free]) and the contexts ([modbus_new_rtu],
    [modbus_new_tcp], [modbus_new_tcp_pi] and [modbus_free]) own exactly the
    blocks they can release, and give everything back on every error path. *)
From S2P Require Import Prelude Platform Data Backend Rtu Tcp Core Mapping Reply Spec Bits ReplyProofs Config Strings Receive Loopback.
#[local] Open Scope Z_scope.

(** ** Owning blocks *)

(** The allocator never handed out a block from [next] on. *)
Definition fresh_heap (h : heap) : Prop := forall b, b ∈ live h -> (b < next h)%positive.

(** Beside the live blocks [L] the heap holds exactly the blocks [bs]. *)
Record holds {W} (bs : list positive) (L : gset positive) (st : state W) : Prop := {
  holds_nodup : NoDup bs;
  holds_live : live (hp st) = list_to_set bs ∪ L;
  holds_apart : forall b, b ∈ bs -> b ∉ L;
  holds_fresh : fresh_heap (hp st) }.

(** Two states with the same heap. *)
Lemma holds_hp {W} bs L (st st' : state W) : hp st' = hp st -> holds bs L st -> holds bs L st'.
Proof. intros E [A B C D]. split; rewrite ?E; done. Qed.
Lemma holds_refl {W} (st : state W) : fresh_heap (hp st) -> holds [] (live (hp st)) st.
Proof. intros F. split; [constructor|set_solver|set_solver|done]. Qed.

(** The allocator grants these requests, one after the other. *)
Fixpoint granted {W} `{OS W} (sizes : list Z) (w : W) : bool :=
  match sizes with
  | [] => true
  | n :: sizes => let '((w, _), ok) := os_malloc_succeeds w n in ok && granted sizes w
  end.

Section ownership.
Context {W : Type} `{OS W}.
Implicit Types (st : state W) (L : gset positive) (bs : list positive).

(** The two outcomes of [malloc]. *)
Lemma malloc_cases bs L n st : holds bs L st ->
  exists st', ctx st' = ctx st /\
    ((malloc n st = Ret None st' /\ holds bs L st' /\ forall ns, granted (n :: ns) (world st) = false) \/
     exists b, malloc n st = Ret (Some b) st' /\ holds (b :: bs) L st' /\
       forall ns, granted (n :: ns) (world st) = granted ns (world st')).
Proof.
  intros [ND Lv Ap Fr]. unfold malloc, bind, sys. cbn [granted].
  destruct (os_malloc_succeeds (world st) n) as [[w e] [|]].
  2: { eexists. split; [|left; split; [reflexivity|by split]]. done. }
  eexists. split; [|right; eexists; split; [reflexivity|split; [|done]]]; [done|].
  assert (Hnew : forall b, b ∈ bs \/ b ∈ L -> (b < next (hp st))%positive).
  { intros b Hb. apply Fr. rewrite Lv. set_solver. }
  cbn. split; cbn.
  - constructor; [|done]. intros Hin. specialize (Hnew _ (or_introl Hin)). lia.
  - rewrite Lv. set_solver.
  - intros b [->|Hin]%elem_of_cons; [|by apply Ap]. intros HL. specialize (Hnew _ (or_intror HL)). lia.
  - intros b Hin. cbn in *. apply elem_of_union in Hin as [->%elem_of_singleton|Hin]; [lia|].
    apply Fr in Hin. lia.
Qed.
Lemma wp_malloc {A} bs L n (f : option positive -> P W A) Q st : holds bs L st ->
  (forall st', holds bs L st' -> ctx st' = ctx st -> wp (f None) Q st') ->
  (forall b st', holds (b :: bs) L st' -> ctx st' = ctx st -> wp (f (Some b)) Q st') ->
  wp (bind (malloc n) f) Q st.
Proof.
  intros Hb HN HS. unfold wp.
  destruct (malloc_cases _ _ n _ Hb) as (st' & Hc & [(E & Hh & _)|(b & E & Hh & _)]);
    erewrite bind_ret_eq by exact E; [by apply HN|by apply HS].
Qed.

(** Releasing a block that is owned. *)
Lemma wp_free {A} b bs L (f : unit -> P W A) Q st : holds (b :: bs) L st ->
  (forall st', holds bs L st' -> ctx st' = ctx st -> wp (f tt) Q st') ->
  wp (bind (free (Some b)) f) Q st.
Proof.
  intros [ND Lv Ap Fr] HQ. apply NoDup_cons in ND as [Hnb ND].
  unfold wp, bind, free. rewrite decide_True by (rewrite Lv; set_solver).
  apply HQ; [|done]. split; cbn; [done| | |].
  - rewrite Lv. assert (b ∉ L) by (apply Ap; set_solver). set_solver.
  - intros c Hc. apply Ap. set_solver.
  - intros c Hc. cbn in *. apply Fr. set_solver.
Qed.

(** The block of a pointer, if it has one. *)
Definition blk (p : option positive) : list positive := option_list p.

Lemma wp_free_opt {A} p bs L (f : unit -> P W A) Q st : holds (blk p ++ bs) L st ->
  (forall st', holds bs L st' -> ctx st' = ctx st -> wp (f tt) Q st') ->
  wp (bind (free p) f) Q st.
Proof. destruct p as [b|]; [apply wp_free|]. intros Hb HQ. apply HQ; [done|done]. Qed.
Lemma wp_free_last p bs L (Q : unit -> state W -> Prop) st : holds (blk p ++ bs) L st ->
  (forall st', holds bs L st' -> ctx st' = ctx st -> Q tt st') -> wp (free p) Q st.
Proof.
  intros Hb HQ. assert (Hr : wp (bind (free p) ret) Q st).
  { eapply wp_free_opt; [exact Hb|]. intros. by apply wp_ret, HQ. }
  unfold wp, bind in *. by destruct (free p st).
Qed.

(** ** The tables of a server *)
Definition blocks (m : modbus_mapping_t) : list positive :=
  blk (tab_blk (tab_input_registers m)) ++ blk (tab_blk (tab_registers m)) ++
  blk (tab_blk (tab_input_bits m)) ++ blk (tab_blk (tab_bits m)) ++ [map_blk m].

(** A table of [nb] zeros. *)
Definition zeros (nb size : Z) (t : table) : Prop :=
  cells t = replicate (Z.to_nat (u32 (nb * size) / size)) 0.

Lemma wp_new_table {A} bs L nb size (f : unit + table -> P W A) Q st : holds bs L st ->
  (forall st', holds bs L st' -> ctx st' = ctx st -> wp (f (inl tt)) Q st') ->
  (forall t st', holds (blk (tab_blk t) ++ bs) L st' -> ctx st' = ctx st -> zeros nb size t ->
     wp (f (inr t)) Q st') ->
  wp (bind (new_table nb size) f) Q st.
Proof.
  intros Hb HN HS. unfold new_table. destruct (Z.eqb_spec nb 0) as [->|Hnb].
  - apply HS; [done|done|]. unfold zeros. cbn. done.
  - apply wp_bind. cbn zeta. eapply wp_malloc; [exact Hb| |].
    + intros st' H1 H2. apply wp_ret. by apply HN.
    + intros b st' H1 H2. apply wp_ret. apply HS; [exact H1|done|]. done.
Qed.

(** Releases in any order the source uses. *)
Ltac release := repeat (first [eapply wp_free; [eassumption|]|eapply wp_free_opt; [eassumption|]]; intros ???).

(** The tables that [modbus_mapping_new_start_address] makes, as stored. *)
Definition fresh_tables (sb nb si ni sr nr sir nir : Z) (m : modbus_mapping_t) : Prop :=
  nb_bits m = i32 nb /\ start_bits m = i32 sb /\
  nb_input_bits m = i32 ni /\ start_input_bits m = i32 si /\
  nb_registers m = i32 nr /\ start_registers m = i32 sr /\
  nb_input_registers m = i32 nir /\ start_input_registers m = i32 sir /\
  zeros nb 1 (tab_bits m) /\ zeros ni 1 (tab_input_bits m) /\
  zeros nr 2 (tab_registers m) /\ zeros nir 2 (tab_input_registers m).

Lemma mapping_new_ok L sb nb si ni sr nr sir nir st : holds [] L st ->
  wp (modbus_mapping_new_start_address sb nb si ni sr nr sir nir) (fun r st' =>
    ctx st' = ctx st /\
    match r with
    | None => holds [] L st'
    | Some m => holds (blocks m) L st' /\ fresh_tables sb nb si ni sr nr sir nir m
    end) st.
Proof.
  intros Hb. unfold modbus_mapping_new_start_address.
  eapply wp_malloc; [exact Hb|intros st1 H1 C1; apply wp_ret; split; [congruence|done]|intros mb st1 H1 C1; cbn beta iota].
  eapply wp_new_table; [exact H1|intros st2 H2 C2; cbn beta iota|intros bits st2 H2 C2 Z1; cbn beta iota].
  { release. apply wp_ret. cbn beta iota. split; [congruence|done]. }
  eapply wp_new_table; [exact H2|intros st3 H3 C3; cbn beta iota|intros ibits st3 H3 C3 Z2; cbn beta iota].
  { release. apply wp_ret. cbn beta iota. split; [congruence|done]. }
  eapply wp_new_table; [exact H3|intros st4 H4 C4; cbn beta iota|intros regs st4 H4 C4 Z3; cbn beta iota].
  { release. apply wp_ret. cbn beta iota. split; [congruence|done]. }
  eapply wp_new_table; [exact H4|intros st5 H5 C5; cbn beta iota|intros iregs st5 H5 C5 Z4; cbn beta iota].
  { release. apply wp_ret. cbn beta iota. split; [congruence|done]. }
  apply wp_ret. split; [congruence|]. split; [exact H5|]. by repeat split.
Qed.

Lemma mapping_free_ok L m st : holds (blocks m) L st ->
  wp (modbus_mapping_free (Some m)) (fun _ st' => holds [] L st' /\ ctx st' = ctx st) st.
Proof.
  intros Hb. unfold modbus_mapping_free, blocks in *.
  eapply wp_free_opt; [exact Hb|intros st1 H1 C1]. eapply wp_free_opt; [exact H1|intros st2 H2 C2].
  eapply wp_free_opt; [exact H2|intros st3 H3 C3]. eapply wp_free_opt; [exact H3|intros st4 H4 C4].
  apply (wp_free_last (Some (map_blk m)) [] L); [exact H4|]. intros st5 H5 C5. split; [done|congruence].
Qed.
End ownership.

(** The address space of [n] zeros from [s] on. *)
Definition zero_zone (s n : Z) : Z -> option Z := fun x =>
  if (s <=? x) && (x <? s + n) then Some 0 else None.
Definition zero_store (sb nb si ni sr nr sir nir : Z) : store :=
  {| coils := zero_zone sb nb; inputs := zero_zone si ni;
     holding := zero_zone sr nr; input_regs := zero_zone sir nir |}.

(** A non-negative [int]. *)
Definition is_count (n : Z) : Prop := 0 <= n < 2147483648.
Lemma i32_count n : is_count n -> i32 n = n.
Proof. unfold is_count, i32. intros. rewrite Z.mod_small; lia. Qed.
Lemma zeros_length nb size t : is_count nb -> size = 1 \/ size = 2 -> zeros nb size t ->
  cells t = replicate (Z.to_nat nb) 0.
Proof.
  unfold is_count, zeros, u32. intros Hn Hs ->. f_equal. f_equal.
  rewrite Z.mod_small by lia. apply Z.div_mul. lia.
Qed.
Lemma zlen_replicate {A} n (x : A) : 0 <= n -> zlen (replicate (Z.to_nat n) x) = n.
Proof. intros. unfold zlen. rewrite length_replicate. lia. Qed.
Lemma view_zeros s n x : 0 <= n -> view s n (replicate (Z.to_nat n) 0) x = zero_zone s n x.
Proof.
  intros Hn. unfold view, zero_zone. destruct (Z.leb_spec s x); [|done].
  destruct (Z.ltb_spec x (s + n)); [|done]. cbn. apply lookup_replicate_2. lia.
Qed.

Lemma fresh_tables_wf sb nb si ni sr nr sir nir m :
  Forall is_count [sb; nb; si; ni; sr; nr; sir; nir] ->
  fresh_tables sb nb si ni sr nr sir nir m ->
  wf_mapping m /\ store_equiv (abs m) (zero_store sb nb si ni sr nr sir nir).
Proof.
  rewrite !Forall_cons. intros (?&?&?&?&?&?&?&?&_) (E1&E2&E3&E4&E5&E6&E7&E8&Z1&Z2&Z3&Z4).
  rewrite i32_count in E1, E2, E3, E4, E5, E6, E7, E8 by done.
  apply zeros_length in Z1, Z2, Z3, Z4; try (done || lia).
  unfold is_count in *. split.
  - split; rewrite ?Z1, ?Z2, ?Z3, ?Z4, ?E1, ?E3, ?E5, ?E7; try (apply zlen_replicate; lia); try lia;
      apply Forall_replicate; unfold is_bit, is_u16; lia.
  - intros x. cbn. rewrite Z1, Z2, Z3, Z4, E1, E2, E3, E4, E5, E6, E7, E8.
    by rewrite !view_zeros by lia.
Qed.

(** C23: allocation of the tables. Whichever of the allocations fail,
    [modbus_mapping_new_start_address] completes; on success the tables are
    well-formed and hold zeros at exactly the addresses asked for, and the heap
    grew by exactly the blocks of the mapping; otherwise the result is [NULL]
    and everything allocated on the way is released again. *)
Theorem mapping_new_owns {W} `{OS W} sb nb si ni sr nr sir nir (st : state W) :
  fresh_heap (hp st) -> Forall is_count [sb; nb; si; ni; sr; nr; sir; nir] ->
  wp (modbus_mapping_new_start_address sb nb si ni sr nr sir nir) (fun r st' =>
    ctx st' = ctx st /\
    match r with
    | None => live (hp st') = live (hp st)
    | Some m =>
        NoDup (blocks m) /\ (forall b, b ∈ blocks m -> b ∉ live (hp st)) /\
        live (hp st') = list_to_set (blocks m) ∪ live (hp st) /\
        wf_mapping m /\ store_equiv (abs m) (zero_store sb nb si ni sr nr sir nir)
    end) st.
Proof.
  intros Hf Hc. eapply wp_mono; [by apply mapping_new_ok, holds_refl|].
  intros [m|] st' [Hctx Hr]; (split; [done|]).
  - destruct Hr as [[ND Lv Ap Fr] Ht]. apply (fresh_tables_wf _ _ _ _ _ _ _ _ _ Hc) in Ht as [? ?].
    by split_and!.
  - destruct Hr as [ND -> Ap Fr]. cbn. set_solver.
Qed.

(** Two coils from address 3 and four registers from address 100. *)
Lemma mapping_new_owns_witness :
  wp (modbus_mapping_new_start_address 3 2 0 0 100 4 0 0) (fun r st' =>
    exists m, r = Some m /\ holding (abs m) 103 = Some 0 /\ holding (abs m) 104 = None)
    (start (tcp_ctx 1) {| rx := []; tx := []; chunk := 1 |}).
Proof.
  pose proof (mapping_new_owns (W := pipe) 3 2 0 0 100 4 0 0
    (start (tcp_ctx 1) {| rx := []; tx := []; chunk := 1 |})) as T.
  specialize (T ltac:(intros b Hb; cbn in Hb |- *; set_unfold in Hb; lia)).
  specialize (T ltac:(repeat constructor; unfold is_count; lia)).
  apply wp_inv in T as ([m|] & st' & E & _ & Hr).
  - apply (wp_eq _ _ _ _ _ E). exists m. destruct Hr as (_ & _ & _ & _ & Hs).
    destruct (Hs 103) as (_ & _ & -> & _). destruct (Hs 104) as (_ & _ & -> & _). by split_and!.
  - vm_compute in E. discriminate E.
Defined.

(** C24: a mapping that was used is released without a leak. Whatever the
    allocations do, [modbus_mapping_new_start_address] followed by
    [modbus_mapping_free] on the tables, with any contents, completes and
    leaves the heap as it was; no block is released twice. *)
Theorem mapping_lifecycle {W} `{OS W} sb nb si ni sr nr sir nir bits regs (st : state W) :
  fresh_heap (hp st) ->
  wp (let* r := modbus_mapping_new_start_address sb nb si ni sr nr sir nir in
      modbus_mapping_free ((fun m => with_bits bits (with_registers regs m)) <$> r))
    (fun _ st' => live (hp st') = live (hp st) /\ ctx st' = ctx st) st.
Proof.
  intros Hf. apply wp_bind. eapply wp_mono; [by apply mapping_new_ok, holds_refl|].
  intros [m|] st1 [Hctx Hr]; cbn [fmap option_fmap option_map].
  - eapply wp_mono; [by apply (mapping_free_ok (live (hp st))), Hr|].
    intros _ st2 [[ND -> Ap Fr] Hc]. split; [cbn; set_solver|congruence].
  - apply wp_ret. destruct Hr as [ND -> Ap Fr]. split; [cbn; set_solver|done].
Qed.
Lemma mapping_lifecycle_witness :
  wp (let* r := modbus_mapping_new_start_address 0 8 0 8 0 4 0 4 in
      modbus_mapping_free ((fun m => with_bits [1; 1] (with_registers [7] m)) <$> r))
    (fun _ st' => live (hp st') = {[1%positive; 2%positive; 3%positive]})
    (start (tcp_ctx 1) {| rx := []; tx := []; chunk := 1 |}).
Proof.
  eapply wp_mono; [apply (mapping_lifecycle (W := pipe))|by intros ? ? [-> _]].
  intros b Hb. cbn in Hb |- *. set_unfold in Hb. lia.
Defined.

(** ** Contexts *)

(** The arguments of the three constructors; a string is its characters. *)
Inductive constructor :=
  | NewRtu (device : option (list Z)) (baud parity data_bit stop_bit : Z)
  | NewTcp (ip : option (list Z)) (port : Z)
  | NewTcpPi (node service : option (list Z)).

Definition c_string (l : list Z) : buf := (Some <$> l) ++ [Some 0].
Lemma c_string_at l : chars l -> string_at (c_string l) l.
Proof. intros Hc. split; [done|]. by exists []. Qed.

Definition construct {W} `{OS W} {FU : Fuel} {BC : BuildConfig} (k : constructor) : P W ctx_ptr :=
  match k with
  | NewRtu device baud parity data_bit stop_bit => modbus_new_rtu device baud parity data_bit stop_bit
  | NewTcp ip port => modbus_new_tcp (c_string <$> ip) port
  | NewTcpPi node service => modbus_new_tcp_pi (c_string <$> node) (c_string <$> service)
  end.

Definition arguments (k : constructor) : Prop :=
  match k with
  | NewRtu _ _ _ _ _ => True
  | NewTcp ip _ => from_option chars True ip
  | NewTcpPi node service => from_option chars True node /\ from_option chars True service
  end.

(** A string that fills at least one cell and leaves room for its terminator. *)
Definition fits (size : Z) (l : list Z) : bool := (0 <? zlen l) && (zlen l <? size).
Definition accepted (k : constructor) : bool :=
  match k with
  | NewRtu device baud parity _ _ =>
      match device with Some (_ :: _) => true | _ => false end &&
      negb (baud =? 0) && ((parity =? 78) || (parity =? 69) || (parity =? 79))
  | NewTcp ip _ => from_option (fits 16) true ip
  | NewTcpPi node service =>
      from_option (fits _MODBUS_TCP_PI_NODE_LENGTH) true node &&
      from_option (fits _MODBUS_TCP_PI_SERVICE_LENGTH) false service
  end.

(** What the backend of a new context holds. *)
Definition new_backend (k : constructor) (c : modbus_t) : Prop :=
  match k with
  | NewRtu dev b p d sb => backend c = RTU_BACKEND /\ exists blk, backend_data c = RtuData {|
        device := default [] dev; device_blk := blk; baud := b; data_bit := u8 d;
        stop_bit := u8 sb; parity := p; w_ser := None; old_dcb := None;
        confirmation_to_ignore := false |}
  | NewTcp ip port => backend c = TCP_BACKEND /\ exists b, backend_data c = TcpData
        {| tcp_t_id := 0; tcp_port := port; tcp_ip := b |} /\ zlen b = 16 /\
        match ip with Some l => string_at b l | None => b !! 0%nat = Some (Some 48) end
  | NewTcpPi node service => backend c = TCP_PI_BACKEND /\ exists b b', backend_data c = TcpPiData
        {| pi_t_id := 0; pi_node := b; pi_service := b' |} /\
        zlen b = _MODBUS_TCP_PI_NODE_LENGTH /\ zlen b' = _MODBUS_TCP_PI_SERVICE_LENGTH /\
        string_at b (default [] node) /\ string_at b' (default [] service)
  end.
Definition new_context (k : constructor) (c : modbus_t) : Prop :=
  new_backend k c /\
  slave c = match k with NewRtu _ _ _ _ _ => -1 | _ => MODBUS_TCP_SLAVE end /\
  s c = -1 /\ debug c = 0 /\ error_recovery c = MODBUS_ERROR_RECOVERY_NONE /\
  response_timeout c = {| tv_sec := 0; tv_usec := 500000 |} /\
  byte_timeout c = {| tv_sec := 0; tv_usec := 500000 |}.

(** The blocks a context owns. *)
Definition ctx_blocks (c : modbus_t) : list positive :=
  match backend_data c with RtuData d => [device_blk d] | _ => [] end ++ [data_blk c; ctx_blk c].

(** The blocks a constructor asks for. *)
Definition requests (k : constructor) : list Z :=
  match k with
  | NewRtu (Some ((_ :: _) as device)) baud _ _ _ =>
      if baud =? 0 then [] else [sizeof_modbus; sizeof_rtu; zlen device + 1]
  | NewRtu _ _ _ _ _ => []
  | NewTcp _ _ => [sizeof_modbus; sizeof_tcp]
  | NewTcpPi _ _ => [sizeof_modbus; sizeof_tcp_pi]
  end.

(** What a constructor does where its requests are granted, [g], and where one
    of them is not: then it goes through the null pointer it got. *)
Definition wpn {S A} (g : bool) (m : M S A) (Q : A -> S -> Prop) (s : S) : Prop :=
  if g then wp m Q s else m s = Fault NullDeref.

Section constructors.
Context {W : Type} `{OS W} {FU : Fuel} {BC : BuildConfig}.
Implicit Types (st : state W) (L : gset positive) (bs : list positive).

Lemma wpn_eq {A B} g (m : P W A) (f : A -> P W B) Q st a st' :
  m st = Ret a st' -> wpn g (f a) Q st' -> wpn g (bind m f) Q st.
Proof. intros E. unfold wpn, wp. by erewrite bind_ret_eq by exact E. Qed.
Lemma wpn_assoc {A B C} g (m : P W A) (f : A -> P W B) (h : B -> P W C) Q st :
  wpn g (bind m (fun a => bind (f a) h)) Q st -> wpn g (bind (bind m f) h) Q st.
Proof. unfold wpn, wp. by rewrite bind_assoc. Qed.
Lemma wpn_malloc {A} g ns bs L n (f : positive -> P W A) Q st : holds bs L st ->
  granted (n :: ns) (world st) = g ->
  (forall b st', holds (b :: bs) L st' -> ctx st' = ctx st -> granted ns (world st') = g -> wpn g (f b) Q st') ->
  wpn g (bind (malloc_unchecked n) f) Q st.
Proof.
  intros Hb Hg Hf. unfold malloc_unchecked. apply wpn_assoc.
  destruct (malloc_cases _ _ n _ Hb) as (st' & Hc & [(E & Hh & Hr)|(b & E & Hh & Hr)]);
    (eapply wpn_eq; [exact E|]); rewrite Hr in Hg.
  - by subst g.
  - by apply Hf.
Qed.

(** The context and its backend data are allocated and initialised. *)
Lemma wpn_alloc_ctx {A} g ns L sz bk data (f : unit -> P W A) Q st : holds [] L st ->
  granted (sizeof_modbus :: sz :: ns) (world st) = g ->
  (forall cb db st', holds [db; cb] L st' -> ctx st' = _modbus_init_common
      {| slave := 0; s := 0; debug := 0; error_recovery := 0;
         response_timeout := {| tv_sec := 0; tv_usec := 0 |};
         byte_timeout := {| tv_sec := 0; tv_usec := 0 |};
         backend := bk; backend_data := data; ctx_blk := cb; data_blk := db |} ->
     granted ns (world st') = g -> wpn g (f tt) Q st') ->
  wpn g (bind (alloc_ctx sz bk data) f) Q st.
Proof.
  intros Hb Hg Hf. unfold alloc_ctx. apply wpn_assoc.
  eapply wpn_malloc; [exact Hb|exact Hg|]. intros cb st1 H1 _ Hg1. apply wpn_assoc.
  eapply wpn_malloc; [exact H1|exact Hg1|]. intros db st2 H2 _ Hg2.
  eapply wpn_eq; [reflexivity|]. eapply Hf; [|reflexivity|exact Hg2]. by eapply holds_hp; [|exact H2].
Qed.

(** [modbus_free] releases exactly the blocks of the context. *)
Lemma modbus_free_ok L st : holds (ctx_blocks (ctx st)) L st ->
  match backend (ctx st), backend_data (ctx st) with
  | RTU_BACKEND, RtuData _ | TCP_BACKEND, TcpData _ | TCP_PI_BACKEND, TcpPiData _ => True
  | _, _ => False
  end ->
  wp (modbus_free CTX) (fun _ st' => holds [] L st' /\ ctx st' = ctx st) st.
Proof.
  intros Hb Hk. unfold modbus_free, get_backend. apply wp_bind, wp_bind.
  eapply wp_eq; [reflexivity|]. apply wp_ret. unfold ctx_blocks in Hb.
  destruct (ctx st) as [? ? ? ? ? ? bk data cb db] eqn:Ec; cbn in *.
  destruct bk, data; try done; cbn [backend_of be_free _modbus_rtu_backend _modbus_tcp_backend _modbus_tcp_pi_backend].
  - unfold _modbus_rtu_free. apply wp_bind. unfold get_rtu. apply wp_bind.
    eapply wp_eq; [reflexivity|]. rewrite Ec. apply wp_ret. apply wp_bind.
    eapply wp_eq; [reflexivity|]. rewrite Ec. cbn.
    eapply wp_free; [exact Hb|intros st1 H1 C1]. eapply wp_free; [exact H1|intros st2 H2 C2].
    apply (wp_free_last (Some cb) [] L); [exact H2|]. intros. split; [done|congruence].
  - unfold _modbus_tcp_free. apply wp_bind. eapply wp_eq; [reflexivity|]. rewrite Ec. cbn.
    eapply wp_free; [exact Hb|intros st2 H2 C2].
    apply (wp_free_last (Some cb) [] L); [exact H2|]. intros. split; [done|congruence].
  - unfold _modbus_tcp_free. apply wp_bind. eapply wp_eq; [reflexivity|]. rewrite Ec. cbn.
    eapply wp_free; [exact Hb|intros st2 H2 C2].
    apply (wp_free_last (Some cb) [] L); [exact H2|]. intros. split; [done|congruence].
Qed.

(** The backend table and the backend data of a new context fit together. *)
Lemma new_backend_shape k c : new_backend k c ->
  match backend c, backend_data c with
  | RTU_BACKEND, RtuData _ | TCP_BACKEND, TcpData _ | TCP_PI_BACKEND, TcpPiData _ => True
  | _, _ => False
  end.
Proof.
  destruct k; intros [-> Hd];
    [destruct Hd as [? ->]|destruct Hd as (? & -> & _)|destruct Hd as (? & ? & -> & _)]; done.
Qed.

(** What a constructor leaves: a new context that owns its blocks, or nothing. *)
Definition built (k : constructor) L (p : ctx_ptr) st : Prop :=
  match p with
  | CTX => accepted k = true /\ holds (ctx_blocks (ctx st)) L st /\ new_context k (ctx st)
  | NULL => accepted k = false /\ errno st = EINVAL /\ holds [] L st
  end.

Lemma abandon_built k L st : holds (ctx_blocks (ctx st)) L st ->
  match backend (ctx st), backend_data (ctx st) with
  | RTU_BACKEND, RtuData _ | TCP_BACKEND, TcpData _ | TCP_PI_BACKEND, TcpPiData _ => True
  | _, _ => False
  end ->
  accepted k = false -> wpn true abandon_ctx (built k L) st.
Proof.
  intros Hb Hk Ha. unfold abandon_ctx. apply wp_bind.
  eapply wp_mono; [by apply modbus_free_ok|]. intros [] st' [Hb' _].
  apply wp_bind. eapply wp_eq; [reflexivity|]. apply wp_ret. split; [done|].
  split; [done|]. by eapply holds_hp; [|exact Hb'].
Qed.

(** [strlcpy] into a member and the tests of its result. *)
Lemma fits_string size l : 0 < size -> chars l ->
  ((zlen l =? 0) || (size <=? zlen l)) = negb (fits size l).
Proof. intros. unfold fits. pose proof (zlen_nonneg l). destruct (Z.eqb_spec (zlen l) 0), (Z.leb_spec size (zlen l)), (Z.ltb_spec 0 (zlen l)), (Z.ltb_spec (zlen l) size); cbn; (done || lia). Qed.
Lemma strlcpy_fits dest l size : chars l -> zlen dest = size -> 0 < size -> fits size l = true ->
  exists b, zlen b = size /\ string_at b l /\
    forall st, strlcpy dest (c_string l) size st = Ret (zlen l, b) st.
Proof.
  intros Hc Hd Hs Hf. exists (strlcpy_result l dest size).
  unfold fits in Hf. apply andb_true_iff in Hf as [H1%Z.ltb_lt H2%Z.ltb_lt].
  unfold strlcpy_result. rewrite (proj2 (Z.eqb_neq _ _)) by lia. unfold zlen in *.
  rewrite Nat.min_l, take_ge by lia. split_and!.
  - rewrite length_app, length_fmap. cbn [length]. rewrite length_drop. lia.
  - split; [done|]. by eexists.
  - intros st. rewrite (strlcpy_eq _ _ l) by (by apply c_string_at || (unfold zlen; lia)).
    unfold strlcpy_result. rewrite (proj2 (Z.eqb_neq _ _)) by lia. unfold zlen in *.
    by rewrite Nat.min_l, take_ge by lia.
Qed.
Lemma strlcpy_any dest l size : chars l -> zlen dest = size -> 0 < size ->
  exists b, forall st, strlcpy dest (c_string l) size st = Ret (zlen l, b) st.
Proof. intros Hc Hd Hs. eexists. intros st. apply strlcpy_eq; [by apply c_string_at|lia]. Qed.

Lemma new_tcp_built ip port L st : holds [] L st -> from_option chars True ip ->
  wpn (granted (requests (NewTcp ip port)) (world st)) (construct (NewTcp ip port)) (built (NewTcp ip port) L) st.
Proof.
  intros Hb Hc. cbn [construct]. unfold modbus_new_tcp. cbn zeta.
  eapply wpn_alloc_ctx; [exact Hb|reflexivity|]. intros cb db st1 H1 C1 <-.
  eapply wpn_eq; [reflexivity|].
  assert (H2 : holds [db; cb] L (State (errno st1) (hp st1) (with_slave MODBUS_TCP_SLAVE (ctx st1)) (world st1)))
    by (by eapply holds_hp; [|exact H1]). rewrite C1 in *.
  destruct ip as [l|]; cbn [fmap option_fmap option_map].
  - pose proof (fits_string 16 l ltac:(lia) Hc) as Ht.
    destruct (fits 16 l) eqn:Hf.
    + destruct (strlcpy_fits (uninit 16) l 16) as (b & Hz & Hs & E); [done..|].
      eapply wpn_eq; [apply E|]. cbn beta iota. apply orb_false_iff in Ht as [-> ->].
      eapply wpn_eq; [reflexivity|]. unfold wpn, wp. cbn. rewrite Hf.
      split; [done|]. split; [by eapply holds_hp; [|exact H2]|]. split; [|done].
      split; [done|]. by exists b.
    + destruct (strlcpy_any (uninit 16) l 16) as [b E]; [done..|].
      eapply wpn_eq; [apply E|]. cbn beta iota. cbn [negb] in Ht.
      assert (Hg : wpn true abandon_ctx (built (NewTcp (Some l) port) L) (State (errno st1) (hp st1)
        (with_slave MODBUS_TCP_SLAVE (ctx st1)) (world st1))).
      { rewrite C1. apply abandon_built; [exact H2|done|done]. }
      rewrite C1 in Hg. destruct (zlen l =? 0); [exact Hg|]. cbn [orb] in Ht. rewrite Ht. exact Hg.
  - eapply wpn_eq; [reflexivity|]. eapply wpn_eq; [reflexivity|]. unfold wpn, wp. cbn.
    split; [done|]. split; [by eapply holds_hp; [|exact H2]|]. split; [|done].
    split; [done|]. eexists. by split_and!.
Qed.

(** The node name of a [modbus_tcp_pi_t]: [NULL] stands for the empty name. *)
Lemma copy_node node : from_option chars True node ->
  exists r, (forall st,
    match c_string <$> node with
    | None => let* dest := wr (uninit _MODBUS_TCP_PI_NODE_LENGTH) 0 0 in ret (Some dest)
    | Some node =>
        let* (ret_size, dest) := strlcpy (uninit _MODBUS_TCP_PI_NODE_LENGTH) node
                                   _MODBUS_TCP_PI_NODE_LENGTH in
        if (ret_size =? 0) || (_MODBUS_TCP_PI_NODE_LENGTH <=? ret_size) then ret None else ret (Some dest)
    end st = Ret r st) /\
  if from_option (fits _MODBUS_TCP_PI_NODE_LENGTH) true node
  then exists b, r = Some b /\ zlen b = _MODBUS_TCP_PI_NODE_LENGTH /\ string_at b (default [] node)
  else r = None.
Proof.
  destruct node as [l|]; cbn [fmap option_fmap option_map from_option]; intros Hc.
  - pose proof (fits_string _MODBUS_TCP_PI_NODE_LENGTH l ltac:(done) Hc) as Ht.
    destruct (fits _MODBUS_TCP_PI_NODE_LENGTH l) eqn:Hf.
    + destruct (strlcpy_fits (uninit _MODBUS_TCP_PI_NODE_LENGTH) l _MODBUS_TCP_PI_NODE_LENGTH)
        as (b & Hz & Hs & E); [done..|].
      exists (Some b). split; [|by exists b]. intros st. erewrite bind_ret_eq by apply E. cbn beta iota. by rewrite Ht.
    + destruct (strlcpy_any (uninit _MODBUS_TCP_PI_NODE_LENGTH) l _MODBUS_TCP_PI_NODE_LENGTH)
        as [b E]; [done..|].
      exists None. split; [|done]. intros st. erewrite bind_ret_eq by apply E. cbn beta iota. by rewrite Ht.
  - eexists. split; [intros st; reflexivity|]. eexists. split; [reflexivity|].
    split; [done|]. split; [constructor|]. eexists. reflexivity.
Qed.

Lemma new_tcp_pi_built node service L st : holds [] L st ->
  from_option chars True node -> from_option chars True service ->
  wpn (granted (requests (NewTcpPi node service)) (world st)) (construct (NewTcpPi node service))
    (built (NewTcpPi node service) L) st.
Proof.
  intros Hb Hc Hc'. cbn [construct]. unfold modbus_new_tcp_pi. cbn zeta.
  eapply wpn_alloc_ctx; [exact Hb|reflexivity|]. intros cb db st1 H1 C1 <-.
  eapply wpn_eq; [reflexivity|]. set (st2 := State _ _ _ _).
  assert (Hg : accepted (NewTcpPi node service) = false ->
    wpn true abandon_ctx (built (NewTcpPi node service) L) st2).
  { intros Ha. unfold st2. rewrite C1. apply abandon_built; [by eapply holds_hp; [|exact H1]|done|done]. }
  destruct (copy_node node Hc) as (r & E & Hnode).
  eapply wpn_eq; [apply E|]. clear E. cbn [accepted] in Hg.
  destruct (from_option (fits _MODBUS_TCP_PI_NODE_LENGTH) true node) eqn:Hfn.
  2: { subst r. by apply Hg. }
  destruct Hnode as (b & -> & Hz & Hs).
  destruct service as [l|]; cbn [fmap option_fmap option_map from_option] in *; [|by apply Hg].
  pose proof (fits_string _MODBUS_TCP_PI_SERVICE_LENGTH l ltac:(done) Hc') as Ht.
  destruct (fits _MODBUS_TCP_PI_SERVICE_LENGTH l) eqn:Hf.
  - destruct (strlcpy_fits (uninit _MODBUS_TCP_PI_SERVICE_LENGTH) l _MODBUS_TCP_PI_SERVICE_LENGTH)
      as (b' & Hz' & Hs' & E); [done..|].
    eapply wpn_eq; [apply E|]. cbn beta iota. apply orb_false_iff in Ht as [-> ->].
    eapply wpn_eq; [reflexivity|]. unfold wpn, wp, st2. cbn [accepted from_option]. rewrite C1. cbn.
    split; [by rewrite Hfn|]. split; [by eapply holds_hp; [|exact H1]|]. split; [|done].
    split; [done|]. by exists b, b'.
  - destruct (strlcpy_any (uninit _MODBUS_TCP_PI_SERVICE_LENGTH) l _MODBUS_TCP_PI_SERVICE_LENGTH)
      as [b' E]; [done..|].
    eapply wpn_eq; [apply E|]. cbn beta iota. cbn [negb] in Ht. specialize (Hg eq_refl).
    destruct (zlen l =? 0); [exact Hg|]. cbn [orb] in Ht. rewrite Ht. exact Hg.
Qed.

Lemma new_rtu_built device baud parity data_bit stop_bit L st : holds [] L st ->
  wpn (granted (requests (NewRtu device baud parity data_bit stop_bit)) (world st))
    (construct (NewRtu device baud parity data_bit stop_bit))
    (built (NewRtu device baud parity data_bit stop_bit) L) st.
Proof.
  intros Hb. cbn [construct]. unfold modbus_new_rtu.
  assert (Hn : accepted (NewRtu device baud parity data_bit stop_bit) = false ->
    wpn true (set_errno EINVAL ;;; ret NULL) (built (NewRtu device baud parity data_bit stop_bit) L) st).
  { intros Ha. unfold wpn, wp. cbn. split; [done|]. split; [done|]. by eapply holds_hp; [|exact Hb]. }
  destruct device as [[|x device]|]; [by apply Hn| |by apply Hn].
  cbn [requests]. destruct (Z.eqb_spec baud 0) as [->|Hbaud]; [by apply Hn|]. clear Hn. cbn zeta.
  eapply wpn_alloc_ctx; [exact Hb|reflexivity|]. intros cb db st1 H1 C1 Hg.
  eapply wpn_malloc; [exact H1|exact Hg|]. intros blk st2 H2 C2 <-.
  eapply wpn_eq; [reflexivity|]. rewrite C2, C1.
  assert (Ha : accepted (NewRtu (Some (x :: device)) baud parity data_bit stop_bit) =
    ((parity =? 78) || (parity =? 69) || (parity =? 79))).
  { cbn. by rewrite (proj2 (Z.eqb_neq baud 0)). }
  destruct ((parity =? 78) || (parity =? 69) || (parity =? 79)).
  - unfold wpn, wp. cbn [ret built]. split; [done|]. split; [by eapply holds_hp; [|exact H2]|].
    split; [|done]. split; [done|]. by exists blk.
  - apply abandon_built; [by eapply holds_hp; [|exact H2]|done|done].
Qed.

Lemma construct_built k L st : holds [] L st -> arguments k ->
  wpn (granted (requests k) (world st)) (construct k) (built k L) st.
Proof.
  destruct k; intros Hb Ha; [by apply new_rtu_built|by apply new_tcp_built|].
  destruct Ha. by apply new_tcp_pi_built.
Qed.
End constructors.

(** C22: creating a context. For any arguments and whatever the allocator does:
    if it grants the blocks the constructor asks for ([requests], none for a
    missing or empty device name or a baud rate of zero), the constructor
    completes and accepts exactly the documented arguments: then it returns a
    context with the default settings and the strings and numbers given, and the
    heap grew by the blocks of that context; otherwise it returns [NULL], sets
    [errno] to EINVAL and has released all it allocated. If one of the requests
    fails, and only then, the constructor goes through the null pointer, since
    it does not look at the result of [malloc]. *)
Theorem constructors_own {W} `{OS W} {FU : Fuel} {BC : BuildConfig} k (st : state W) :
  fresh_heap (hp st) -> arguments k ->
  if granted (requests k) (world st) then
    wp (construct k) (fun p st' =>
      match p with
      | CTX => accepted k = true /\ new_context k (ctx st') /\ NoDup (ctx_blocks (ctx st')) /\
          (forall b, b ∈ ctx_blocks (ctx st') -> b ∉ live (hp st)) /\
          live (hp st') = list_to_set (ctx_blocks (ctx st')) ∪ live (hp st)
      | NULL => accepted k = false /\ errno st' = EINVAL /\ live (hp st') = live (hp st)
      end) st
  else construct k st = Fault NullDeref.
Proof.
  intros Hf Ha. pose proof (construct_built k _ st (holds_refl st Hf) Ha) as Hb. unfold wpn in Hb.
  destruct (granted _ _); [|done]. eapply wp_mono; [exact Hb|]. intros [|] st'.
  - intros (? & ? & [_ -> _ _]). split_and!; [done..|]. cbn. set_solver.
  - intros (? & [? ? ? ?] & ?). by split_and!.
Qed.
Lemma constructors_own_witness :
  wp (construct (NewTcp (Some [49; 46; 50]) 1502)) (fun p st' =>
    p = CTX /\ new_context (NewTcp (Some [49; 46; 50]) 1502) (ctx st'))
    (start (tcp_ctx 1) {| rx := []; tx := []; chunk := 1 |}).
Proof.
  pose proof (constructors_own (W := pipe) (NewTcp (Some [49; 46; 50]) 1502)
    (start (tcp_ctx 1) {| rx := []; tx := []; chunk := 1 |})) as T.
  specialize (T ltac:(intros b Hb; cbn in Hb |- *; set_unfold in Hb; lia)).
  specialize (T ltac:(repeat constructor; unfold is_u8; lia)).
  eapply wp_mono; [exact T|]. intros [|] st'; [by intros [? _]|]. by intros (_ & ? & _).
Defined.

(** C25: the life of a context. For any arguments, if the allocator grants the
    blocks the constructor asks for, creating a context and freeing it completes
    and leaves the heap as it was, on every path through the constructors, those
    that refuse the arguments included; every block is released exactly once.
    If a request fails, the constructor goes through a null pointer. *)
Theorem context_lifecycle {W} `{OS W} {FU : Fuel} {BC : BuildConfig} k (st : state W) :
  fresh_heap (hp st) -> arguments k ->
  if granted (requests k) (world st) then
    wp (let* p := construct k in modbus_free p) (fun _ st' => live (hp st') = live (hp st)) st
  else (let* p := construct k in modbus_free p) st = Fault NullDeref.
Proof.
  intros Hf Ha. pose proof (construct_built k _ st (holds_refl st Hf) Ha) as Hb. unfold wpn in Hb.
  destruct (granted _ _); [|by unfold bind; rewrite Hb].
  apply wp_bind. eapply wp_mono; [exact Hb|]. intros [|] st'.
  - intros (_ & _ & [_ E _ _]). apply wp_ret. rewrite E. cbn. set_solver.
  - intros (_ & Hb' & [Hn _]). eapply wp_mono; [apply (modbus_free_ok _ _ Hb' (new_backend_shape _ _ Hn))|].
    intros _ st2 [[_ -> _ _] _]. cbn. set_solver.
Qed.
Lemma context_lifecycle_witness :
  wp (let* p := construct (NewRtu (Some [67; 79; 77; 49]) 19200 69 8 1) in modbus_free p)
    (fun _ st' => live (hp st') = {[1%positive; 2%positive; 3%positive]})
    (start (tcp_ctx 1) {| rx := []; tx := []; chunk := 1 |}).
Proof.
  pose proof (context_lifecycle (W := pipe) (NewRtu (Some [67; 79; 77; 49]) 19200 69 8 1)
    (start (tcp_ctx 1) {| rx := []; tx := []; chunk := 1 |})) as T.
  specialize (T ltac:(intros b Hb; cbn in Hb |- *; set_unfold in Hb; lia) I).
  eapply wp_mono; [exact T|]. by intros u st' ->.
Defined.
