(* ===== verification/Intset.v ===== *)
(** intset.c of the Redis the project ships: a set of integers as a sorted array
    of 16, 32 or 64 bit elements in one block of bytes, whose element size grows
    when a value needs it. The elements are kept as the little-endian bytes they
    are (the [intrev] and [memrev] macros of endianconv.h do nothing on a
    little-endian machine). [zmalloc] and [zrealloc] end the program when memory
    is exhausted, so a result is always there. *)
From S2P Require Import Prelude.
#[local] Open Scope Z_scope.

Record intset := { encoding : Z; length_ : Z; contents : buf }.
Definition INTSET_ENC_INT16 : Z := 2.
Definition INTSET_ENC_INT32 : Z := 4.
Definition INTSET_ENC_INT64 : Z := 8.
Definition INT16_MIN : Z := -32768.
Definition INT16_MAX : Z := 32767.
Definition INT32_MIN : Z := -2147483648.
Definition INT32_MAX : Z := 2147483647.
Definition INT64_MIN : Z := -9223372036854775808.
Definition INT64_MAX : Z := 9223372036854775807.
(** [sizeof(intset)]: the two members in front of the contents. *)
Definition sizeof_intset : Z := 8.

Definition with_contents (b : buf) (iset : intset) : intset :=
  {| encoding := encoding iset; length_ := length_ iset; contents := b |}.
Definition with_length (n : Z) (iset : intset) : intset :=
  {| encoding := encoding iset; length_ := n; contents := contents iset |}.
Definition with_encoding (e : Z) (iset : intset) : intset :=
  {| encoding := e; length_ := length_ iset; contents := contents iset |}.

Section intset.
Context {S : Type}.

(** Loading and storing an [n]-byte integer at the offset [off]. *)
Fixpoint load_le (b : buf) (off : Z) (n : nat) : M S Z :=
  match n with
  | O => ret 0
  | Datatypes.S n =>
      let* x := rd b off in
      let* r := load_le b (off + 1) n in ret (x + 256 * r)
  end.
Fixpoint store_le (b : buf) (off : Z) (n : nat) (v : Z) : M S buf :=
  match n with
  | O => ret b
  | Datatypes.S n => let* b := wr b off v in store_le b (off + 1) n (v / 256)
  end.
(** The value of an unsigned [8 * n]-bit number as a signed one. *)
Definition as_signed (n v : Z) : Z := if v <? 2 ^ (8 * n - 1) then v else v - 2 ^ (8 * n).

Definition _intsetValueEncoding (v : Z) : Z :=
  if (v <? INT32_MIN) || (INT32_MAX <? v) then INTSET_ENC_INT64
  else if (v <? INT16_MIN) || (INT16_MAX <? v) then INTSET_ENC_INT32
  else INTSET_ENC_INT16.

Definition _intsetGetEncoded (iset : intset) (pos enc : Z) : M S Z :=
  if enc =? INTSET_ENC_INT64 then
    let* v := load_le (contents iset) (pos * 8) 8 in ret (as_signed 8 v)
  else if enc =? INTSET_ENC_INT32 then
    let* v := load_le (contents iset) (pos * 4) 4 in ret (as_signed 4 v)
  else
    let* v := load_le (contents iset) (pos * 2) 2 in ret (as_signed 2 v).

Definition _intsetGet (iset : intset) (pos : Z) : M S Z := _intsetGetEncoded iset pos (encoding iset).

Definition _intsetSet (iset : intset) (pos value : Z) : M S intset :=
  let* b := (if encoding iset =? INTSET_ENC_INT64 then store_le (contents iset) (pos * 8) 8 value
             else if encoding iset =? INTSET_ENC_INT32 then store_le (contents iset) (pos * 4) 4 value
             else store_le (contents iset) (pos * 2) 2 value) in
  ret (with_contents b iset).

Definition intsetNew : M S intset :=
  ret {| encoding := INTSET_ENC_INT16; length_ := 0; contents := [] |}.

(** [zrealloc]: the bytes that fit stay, new ones are not initialised. *)
Definition zrealloc (b : buf) (size : Z) : buf :=
  take (Z.to_nat size) b ++ replicate (Z.to_nat size - length b) None.
Definition intsetResize (iset : intset) (len : Z) : M S intset :=
  ret (with_contents (zrealloc (contents iset) (u32 (len * encoding iset))) iset).

(** The result and the position it stores through [pos]. *)
Definition intsetSearch (iset : intset) (value : Z) : M S (Z * Z) :=
  let max := i32 (length_ iset - 1) in
  if length_ iset =? 0 then ret (0, 0)
  else
    let* last := _intsetGet iset max in
    if last <? value then ret (0, length_ iset)
    else
      let* first := _intsetGet iset 0 in
      if value <? first then ret (0, 0)
      else
        let* r := while_loop (Datatypes.S (Z.to_nat (length_ iset))) (fun '(min, max, mid, cur) =>
          if max <? min then ret (inr (min, mid, cur))
          else
            let mid := i32 (Z.shiftr (u32 (u32 min + u32 max)) 1) in
            let* cur := _intsetGet iset mid in
            if cur <? value then ret (inl (mid + 1, max, mid, cur))
            else if value <? cur then ret (inl (min, mid - 1, mid, cur))
            else ret (inr (min, mid, cur))) (0, max, -1, -1) in
        let '(min, mid, cur) := r in
        if value =? cur then ret (1, mid) else ret (0, min).

Definition intsetUpgradeAndAdd (iset : intset) (value : Z) : M S intset :=
  let curenc := encoding iset in
  let newenc := _intsetValueEncoding value in
  let length := i32 (length_ iset) in
  let prepend := if value <? 0 then 1 else 0 in
  let iset := with_encoding newenc iset in
  let* iset := intsetResize iset (u32 (length_ iset + 1)) in
  (* while(length--): a negative length starts in front of the array *)
  (if length <? 0 then fail OutOfBounds else ret tt) ;;;
  let* iset := for_loop (Z.to_nat length) 1 (fun j iset =>
    let length := length - j in
    let* v := _intsetGetEncoded iset length curenc in
    _intsetSet iset (length + prepend) v) iset in
  let* iset := (if negb (prepend =? 0) then _intsetSet iset 0 value
              else _intsetSet iset (length_ iset) value) in
  ret (with_length (u32 (length_ iset + 1)) iset).

(** [memmove] of the bytes from the element [from] on to the element [to]. *)
Definition intsetMoveTail (iset : intset) (from to : Z) : M S intset :=
  let bytes := u32 (length_ iset - from) in
  let e := if encoding iset =? INTSET_ENC_INT64 then 8
           else if encoding iset =? INTSET_ENC_INT32 then 4 else 2 in
  let* b := memcpy (contents iset) (e * to) (contents iset) (e * from) (u32 (bytes * e)) in
  ret (with_contents b iset).

(** The set and the value stored through [success]. *)
Definition intsetAdd (iset : intset) (value : Z) : M S (intset * Z) :=
  let valenc := _intsetValueEncoding value in
  if encoding iset <? valenc then
    let* iset := intsetUpgradeAndAdd iset value in ret (iset, 1)
  else
    let* (found, pos) := intsetSearch iset value in
    if negb (found =? 0) then ret (iset, 0)
    else
      let* iset := intsetResize iset (u32 (length_ iset + 1)) in
      let* iset := (if pos <? length_ iset then intsetMoveTail iset pos (u32 (pos + 1)) else ret iset) in
      let* iset := _intsetSet iset pos value in
      ret (with_length (u32 (length_ iset + 1)) iset, 1).

Definition intsetRemove (iset : intset) (value : Z) : M S (intset * Z) :=
  let valenc := _intsetValueEncoding value in
  let* (found, pos) := (if valenc <=? encoding iset then intsetSearch iset value else ret (0, 0)) in
  if negb (found =? 0) then
    let len := length_ iset in
    let* iset := (if pos <? u32 (len - 1) then intsetMoveTail iset (u32 (pos + 1)) pos else ret iset) in
    let* iset := intsetResize iset (u32 (len - 1)) in
    ret (with_length (u32 (len - 1)) iset, 1)
  else ret (iset, 0).

Definition intsetFind (iset : intset) (value : Z) : M S Z :=
  let valenc := _intsetValueEncoding value in
  if valenc <=? encoding iset then
    let* (found, _) := intsetSearch iset value in ret (b2z (negb (found =? 0)))
  else ret 0.

(** [rand] is what the C function of that name returned. *)
Definition intsetRandom (iset : intset) (rand : Z) : M S Z :=
  if length_ iset =? 0 then fail DivByZero else _intsetGet iset (u32 rand mod length_ iset).

(** The result, and the value stored when it is 1. *)
Definition intsetGet (iset : intset) (pos : Z) : M S (Z * option Z) :=
  if pos <? length_ iset then let* v := _intsetGet iset pos in ret (1, Some v) else ret (0, None).

Definition intsetLen (iset : intset) : Z := length_ iset.
Definition intsetBlobLen (iset : intset) : Z := sizeof_intset + u32 (length_ iset * encoding iset).
End intset.
