(* ===== verification/IntsetProofs.v ===== *)
(** The set of intset.c refines a finite set of integers: loads and stores of
    elements, the binary search, insertion with and without a change of the
    element size, and removal. *)
From S2P Require Import Prelude Intset.
From stdpp Require Import sorting gmap.
#[local] Open Scope Z_scope.

(** ** Elements in bytes *)
Definition byte_at (v k : Z) : Z := (v / 256 ^ k) mod 256.
(** The [e]-byte element with index [i] is [v]. *)
Definition elem_at (e : Z) (b : buf) (i v : Z) : Prop :=
  forall k, 0 <= k < e -> b !! Z.to_nat (i * e + k) = Some (Some (byte_at v k)).
Definition is_enc (e : Z) : Prop := e = 2 \/ e = 4 \/ e = 8.
(** The values an [e]-byte element can hold. *)
Definition in_range (e v : Z) : Prop := - 2 ^ (8 * e - 1) <= v < 2 ^ (8 * e - 1).

Lemma in_range_eq e v : is_enc e -> in_range e v <->
  (e = 2 /\ -32768 <= v < 32768) \/ (e = 4 /\ -2147483648 <= v < 2147483648) \/
  (e = 8 /\ -9223372036854775808 <= v < 9223372036854775808).
Proof. intros [->|[->| ->]]; unfold in_range; cbn; lia. Qed.
Lemma byte_at_0 v : byte_at v 0 = v mod 256.
Proof. unfold byte_at. by rewrite Z.pow_0_r, Z.div_1_r. Qed.
Lemma byte_at_succ v k : 0 <= k -> byte_at v (k + 1) = byte_at (v / 256) k.
Proof.
  intros Hk. unfold byte_at. rewrite Z.pow_add_r, Z.pow_1_r by lia.
  rewrite Z.mul_comm, Z.div_div by (try lia; apply Z.pow_pos_nonneg; lia). done.
Qed.

Section bytes.
Context {S : Type}.
Implicit Types (s : S) (b : buf).

Lemma load_eq n : forall b off v s, 0 <= off ->
  (forall k, 0 <= k < Z.of_nat n -> b !! Z.to_nat (off + k) = Some (Some (byte_at v k))) ->
  load_le b off n s = Ret (v mod 256 ^ Z.of_nat n) s.
Proof.
  induction n as [|n IH]; intros b off v s Ho Hb; cbn [load_le].
  - by rewrite Z.mod_1_r.
  - erewrite bind_ret_eq by (apply rd_eq; [done|]; rewrite <- (Z.add_0_r off); apply Hb; lia).
    erewrite bind_ret_eq.
    2: { apply (IH _ _ (v / 256)); [lia|]. intros k Hk. rewrite <- byte_at_succ by lia.
         rewrite <- Hb by lia. do 2 f_equal. lia. }
    unfold ret. f_equal. rewrite byte_at_0, Nat2Z.inj_succ, Z.pow_succ_r by lia.
    rewrite Z.rem_mul_r; [done|lia|]. apply Z.pow_pos_nonneg; lia.
Qed.

Lemma store_ok n : forall b off v s, 0 <= off -> off + Z.of_nat n <= zlen b ->
  exists b', store_le b off n v s = Ret b' s /\ zlen b' = zlen b /\
    (forall k, 0 <= k < Z.of_nat n -> b' !! Z.to_nat (off + k) = Some (Some (byte_at v k))) /\
    (forall j, 0 <= j -> j < off \/ off + Z.of_nat n <= j -> b' !! Z.to_nat j = b !! Z.to_nat j).
Proof.
  induction n as [|n IH]; intros b off v s Ho Hl; cbn [store_le].
  - exists b. split_and!; try done. lia.
  - destruct (IH (<[Z.to_nat off := Some (u8 v)]> b) (off + 1) (v / 256) s) as (b' & E & Hz & Hin & Hout);
      [lia|unfold zlen in *; rewrite length_insert; lia|].
    exists b'. erewrite bind_ret_eq by (apply wr_eq; lia). split; [exact E|].
    split; [rewrite Hz; unfold zlen; by rewrite length_insert|]. split.
    + intros k Hk. destruct (Z.eq_dec k 0) as [->|Hk0].
      * rewrite Z.add_0_r, Hout by lia. rewrite list_lookup_insert_eq by (unfold zlen in *; lia). by rewrite byte_at_0.
      * replace (off + k) with (off + 1 + (k - 1)) by lia. rewrite Hin by lia.
        rewrite <- byte_at_succ by lia. by replace (k - 1 + 1) with k by lia.
    + intros j Hj Hd. rewrite Hout by lia. apply list_lookup_insert_ne. lia.
Qed.

Lemma as_signed_range e v : is_enc e -> in_range e v -> as_signed e (v mod 256 ^ e) = v.
Proof.
  intros He Hr. pose proof (proj1 (in_range_eq e v He) Hr) as H3. clear Hr.
  destruct He as [->|[->| ->]]; unfold as_signed; cbn [Z.mul Z.sub Z.pow Z.pow_pos Pos.iter Z.add] in *.
  all: destruct H3 as [[? ?]|[[? ?]|[? ?]]]; try lia.
  all: match goal with |- context [?x mod ?m] => pose proof (Z.mod_pos_bound x m ltac:(lia)); pose proof (Z.div_mod x m ltac:(lia)) end.
  all: match goal with |- context [if ?c then _ else _] => destruct c eqn:Ec end; lia.
Qed.

Lemma get_encoded_eq iset i e v s : is_enc e -> 0 <= i -> elem_at e (contents iset) i v -> in_range e v ->
  _intsetGetEncoded iset i e s = Ret v s.
Proof.
  intros He Hi Hb Hr. pose proof (as_signed_range e v He Hr) as Hs. unfold _intsetGetEncoded.
  destruct He as [->|[->| ->]]; cbn [Z.eqb Pos.eqb INTSET_ENC_INT64 INTSET_ENC_INT32];
    (erewrite bind_ret_eq by (apply load_eq; [lia|exact Hb])); unfold ret; f_equal; exact Hs.
Qed.

Lemma set_ok iset i v s : is_enc (encoding iset) -> 0 <= i -> (i + 1) * encoding iset <= zlen (contents iset) ->
  exists b', _intsetSet iset i v s = Ret (with_contents b' iset) s /\ zlen b' = zlen (contents iset) /\
    elem_at (encoding iset) b' i v /\
    (forall j, 0 <= j -> j < i * encoding iset \/ (i + 1) * encoding iset <= j ->
       b' !! Z.to_nat j = contents iset !! Z.to_nat j).
Proof.
  intros He Hi Hl.
  destruct (store_ok (Z.to_nat (encoding iset)) (contents iset) (i * encoding iset) v s) as (b' & E & Hz & Hin & Hout);
    [unfold is_enc in He; lia|unfold is_enc in He; lia|].
  exists b'. rewrite Z2Nat.id in * by (unfold is_enc in He; lia). split_and!; [|done|done|].
  - unfold _intsetSet. destruct He as [He|[He|He]]; rewrite He in *; cbn [Z.eqb Pos.eqb INTSET_ENC_INT64 INTSET_ENC_INT32];
      by erewrite bind_ret_eq by exact E.
  - intros j Hj Hd. apply Hout; lia.
Qed.
End bytes.

Definition is_i64 (v : Z) : Prop := INT64_MIN <= v <= INT64_MAX.

(** The encoding chosen for a value is the smallest that holds it. *)
Lemma value_encoding_ok v : is_i64 v ->
  is_enc (_intsetValueEncoding v) /\
  forall e, is_enc e -> (in_range e v <-> _intsetValueEncoding v <= e).
Proof.
  unfold is_i64, _intsetValueEncoding, INTSET_ENC_INT16, INTSET_ENC_INT32, INTSET_ENC_INT64,
    INT64_MIN, INT64_MAX, INT32_MIN, INT32_MAX, INT16_MIN, INT16_MAX. intros Hv.
  destruct ((v <? -2147483648) || (2147483647 <? v)) eqn:E4;
    [|destruct ((v <? -32768) || (32767 <? v)) eqn:E2]; (split; [unfold is_enc; lia|]);
    intros e He; rewrite in_range_eq by done; destruct He as [->|[->| ->]]; lia.
Qed.
Lemma in_range_mono e e' v : is_enc e -> is_enc e' -> e <= e' -> in_range e v -> in_range e' v.
Proof. intros He He' Hle. rewrite !in_range_eq by done. unfold is_enc in *. lia. Qed.

(** ** Sorted sequences *)
Definition sorted (xs : list Z) : Prop := StronglySorted Z.lt xs.
Lemma sorted_lookup xs i j x y : sorted xs -> (i < j)%nat -> xs !! i = Some x -> xs !! j = Some y -> x < y.
Proof.
  intros Hs. revert i j. induction Hs as [|z l Hs IH Hz]; intros i j Hij Hi Hj; [done|].
  destruct j as [|j]; [lia|]. cbn in Hj. destruct i as [|i]; cbn in Hi.
  - injection Hi as ->. by eapply Forall_lookup_1 in Hj.
  - apply (IH i j); (done || lia).
Qed.

(** [v] belongs in front of the element with index [p]. *)
Definition gap (xs : list Z) (v p : Z) : Prop := 0 <= p <= zlen xs /\
  forall i x, xs !! i = Some x -> if Z.of_nat i <? p then x < v else v < x.
Definition insert_at (xs : list Z) (p v : Z) : list Z := take (Z.to_nat p) xs ++ v :: drop (Z.to_nat p) xs.
Definition remove_at (xs : list Z) (p : Z) : list Z := take (Z.to_nat p) xs ++ drop (S (Z.to_nat p)) xs.

Lemma gap_not_in xs v p : gap xs v p -> v ∉ xs.
Proof.
  intros [_ Hg] [i Hi]%list_elem_of_lookup. specialize (Hg i v Hi). destruct (_ <? _); lia.
Qed.
Lemma gap_take xs v p : gap xs v p -> Forall (fun x => x < v) (take (Z.to_nat p) xs).
Proof.
  intros [Hp Hg]. apply Forall_lookup. intros i x Hi. apply lookup_take_Some in Hi as [Hi Hlt].
  specialize (Hg i x Hi). rewrite (proj2 (Z.ltb_lt _ _)) in Hg by lia. done.
Qed.
Lemma gap_drop xs v p : gap xs v p -> Forall (fun x => v < x) (drop (Z.to_nat p) xs).
Proof.
  intros [Hp Hg]. apply Forall_lookup. intros i x Hi. rewrite lookup_drop in Hi.
  specialize (Hg _ x Hi). rewrite (proj2 (Z.ltb_ge _ _)) in Hg by lia. done.
Qed.
Lemma sorted_insert xs v p : sorted xs -> gap xs v p -> sorted (insert_at xs p v).
Proof.
  intros Hs Hg. pose proof (gap_take _ _ _ Hg) as Ht. pose proof (gap_drop _ _ _ Hg) as Hd.
  unfold sorted, insert_at in *. rewrite <- (take_drop (Z.to_nat p) xs) in Hs.
  apply StronglySorted_app in Hs as (Hc & H1 & H2). apply StronglySorted_app. split; [|split; [done|by constructor]].
  intros x y Hx [->|Hy]%elem_of_cons; [|by apply Hc]. by eapply (proj1 (Forall_forall _ _)) in Hx; [|exact Ht].
Qed.
Lemma sorted_remove xs p : sorted xs -> sorted (remove_at xs p).
Proof.
  unfold sorted, remove_at. intros Hs. rewrite <- (take_drop (Z.to_nat p) xs) in Hs.
  apply StronglySorted_app in Hs as (Hc & H1 & H2).
  replace (drop (S (Z.to_nat p)) xs) with (drop 1 (drop (Z.to_nat p) xs)) by (rewrite drop_drop; f_equal; lia).
  apply StronglySorted_app. split; [|split; [done|]].
  - intros x y Hx Hy. apply Hc; [done|]. apply list_elem_of_lookup in Hy as [i Hi]. rewrite lookup_drop in Hi.
    by eapply list_elem_of_lookup_2.
  - destruct H2; [constructor|done].
Qed.
Lemma zlen_insert_at xs p v : 0 <= p <= zlen xs -> zlen (insert_at xs p v) = zlen xs + 1.
Proof. unfold zlen, insert_at. intros. rewrite length_app, length_take. cbn [length]. rewrite length_drop. lia. Qed.
Lemma zlen_remove_at xs p : 0 <= p < zlen xs -> zlen (remove_at xs p) = zlen xs - 1.
Proof. unfold zlen, remove_at. intros. rewrite length_app, length_take, length_drop. lia. Qed.
Lemma lookup_insert_at xs p v i : 0 <= p <= zlen xs ->
  insert_at xs p v !! i = if decide (Z.of_nat i < p) then xs !! i
                          else if decide (Z.of_nat i = p) then Some v else xs !! (i - 1)%nat.
Proof.
  unfold zlen, insert_at. intros Hp. destruct (decide (Z.of_nat i < p)).
  - rewrite lookup_app_l by (rewrite length_take; lia). by rewrite lookup_take_lt by lia.
  - rewrite lookup_app_r by (rewrite length_take; lia). rewrite length_take, Nat.min_l by lia.
    destruct (decide (Z.of_nat i = p)); [by replace (i - Z.to_nat p)%nat with 0%nat by lia|].
    rewrite lookup_cons_ne_0 by lia. rewrite lookup_drop. f_equal. lia.
Qed.
Lemma lookup_remove_at xs p i : 0 <= p < zlen xs ->
  remove_at xs p !! i = if decide (Z.of_nat i < p) then xs !! i else xs !! (i + 1)%nat.
Proof.
  unfold zlen, remove_at. intros Hp. destruct (decide (Z.of_nat i < p)).
  - rewrite lookup_app_l by (rewrite length_take; lia). by rewrite lookup_take_lt by lia.
  - rewrite lookup_app_r by (rewrite length_take; lia). rewrite length_take, Nat.min_l, lookup_drop by lia.
    f_equal. lia.
Qed.

(** ** What a set represents *)
Record repr (iset : intset) (xs : list Z) : Prop := {
  r_enc : is_enc (encoding iset);
  r_length : length_ iset = zlen xs;
  r_size : zlen (contents iset) = zlen xs * encoding iset;
  r_elems : forall i x, xs !! i = Some x -> elem_at (encoding iset) (contents iset) (Z.of_nat i) x;
  r_range : Forall (in_range (encoding iset)) xs;
  r_sorted : sorted xs
}.
(** Sizes in bytes stay below 2^32. *)
Definition room (n : Z) : Prop := 0 <= n < 536870912.

Section search.
Context {S : Type}.
Implicit Types (s : S) (iset : intset).

Lemma get_eq iset xs i x s : repr iset xs -> 0 <= i -> xs !! Z.to_nat i = Some x -> _intsetGet iset i s = Ret x s.
Proof.
  intros Hr Hi Hx. apply get_encoded_eq; [apply Hr|done| |].
  - rewrite <- (Z2Nat.id i) by done. by apply Hr.
  - eapply Forall_lookup_1; [apply Hr|exact Hx].
Qed.

(** The outcome of the search: the index of the value, or where it belongs. *)
Definition searched (xs : list Z) (v : Z) (r : Z * Z) : Prop :=
  (fst r = 1 /\ 0 <= snd r /\ xs !! Z.to_nat (snd r) = Some v) \/ (fst r = 0 /\ gap xs v (snd r)).

(** The loop invariant: everything in front of [min] is smaller, everything
    behind [max] is larger, and the last element looked at is not the value. *)
Definition search_inv (xs : list Z) (v : Z) (l : Z * Z * Z * Z) : Prop :=
  let '(min, max, mid, cur) := l in
  0 <= min /\ min <= max + 1 /\ max < zlen xs /\
  (forall i x, xs !! i = Some x -> (Z.of_nat i < min -> x < v) /\ (max < Z.of_nat i -> v < x)) /\
  (min <= max \/ cur <> v).

Lemma search_turn iset xs v min max mid cur s : repr iset xs -> room (zlen xs) ->
  search_inv xs v (min, max, mid, cur) -> min <= max ->
  exists m x, i32 (Z.shiftr (u32 (u32 min + u32 max)) 1) = m /\ min <= m <= max /\
    _intsetGet iset m s = Ret x s /\
    (x < v -> search_inv xs v (m + 1, max, m, x)) /\ (v < x -> search_inv xs v (min, m - 1, m, x)) /\
    xs !! Z.to_nat m = Some x.
Proof.
  intros Hr Hroom (H0 & H1 & H2 & Hb & Hc) Hle. unfold room in Hroom.
  assert (Hm : i32 (Z.shiftr (u32 (u32 min + u32 max)) 1) = (min + max) / 2).
  { rewrite !(u32_id min), !(u32_id max) by (unfold is_u32; lia). rewrite u32_id by (unfold is_u32; lia).
    rewrite Z.shiftr_div_pow2 by lia. change (2 ^ 1) with 2. unfold i32. zdiv. }
  exists ((min + max) / 2). assert (Hmid : min <= (min + max) / 2 <= max) by zdiv.
  set (m := (min + max) / 2) in *.
  destruct (lookup_lt_is_Some_2 xs (Z.to_nat m)) as [x Hx]; [unfold zlen in *; lia|].
  exists x. split; [exact Hm|]. split; [done|]. split; [by eapply get_eq; [| lia|]|].
  pose proof (r_sorted _ _ Hr) as Hs. split; [|split; [|done]]; intros Hlt.
  - split_and!; try lia. intros i y Hi. split; [|by apply Hb]. intros Hi'.
    destruct (Nat.eq_dec i (Z.to_nat m)) as [->|]; [by replace y with x by congruence|].
    assert (y < x) by (eapply (sorted_lookup xs i (Z.to_nat m)); (done || lia)). lia.
  - split_and!; try lia. intros i y Hi. split; [by apply Hb|]. intros Hi'.
    destruct (Nat.eq_dec i (Z.to_nat m)) as [->|]; [by replace y with x by congruence|].
    assert (x < y) by (eapply (sorted_lookup xs (Z.to_nat m) i); (done || lia)). lia.
Qed.

Lemma search_loop iset xs v s : repr iset xs -> room (zlen xs) -> 1 <= zlen xs ->
  wp (while_loop (Datatypes.S (Z.to_nat (zlen xs))) (fun '(min, max, mid, cur) =>
          if max <? min then ret (inr (min, mid, cur))
          else
            let mid := i32 (Z.shiftr (u32 (u32 min + u32 max)) 1) in
            let* cur := _intsetGet iset mid in
            if cur <? v then ret (inl (mid + 1, max, mid, cur))
            else if v <? cur then ret (inl (min, mid - 1, mid, cur))
            else ret (inr (min, mid, cur))) (0, zlen xs - 1, -1, -1))
    (fun '(min, mid, cur) s' => s' = s /\
       if v =? cur then 0 <= mid /\ xs !! Z.to_nat mid = Some v else gap xs v min) s.
Proof.
  intros Hr Hroom Hn.
  apply (wp_while _ (fun l s' => s' = s /\ search_inv xs v l)
    (fun '(min, max, _, _) _ => Z.to_nat (max + 1 - min))).
  - intros [[[min max] mid] cur] s' [-> Hinv].
    destruct (Z.ltb_spec max min) as [Hlt|Hle].
    + apply wp_ret. split; [done|]. destruct Hinv as (H0 & H1 & H2 & Hb & Hc).
      rewrite (proj2 (Z.eqb_neq v cur)) by lia. split; [lia|]. intros i x Hx. destruct (Hb i x Hx).
      destruct (Z.ltb_spec (Z.of_nat i) min); [auto|]. assert (max < Z.of_nat i) by lia. auto.
    + destruct (search_turn iset xs v min max mid cur s Hr Hroom Hinv Hle)
        as (m & x & -> & Hm & E & Hlow & Hhigh & Hx). cbv zeta.
      apply wp_bind. eapply wp_eq; [exact E|].
      destruct (Z.ltb_spec x v); [apply wp_ret; split; [by auto|lia]|].
      destruct (Z.ltb_spec v x); [apply wp_ret; split; [by auto|lia]|].
      apply wp_ret. split; [done|]. destruct Hinv as [Hmin _].
      replace x with v in * by lia. rewrite Z.eqb_refl. split; [lia|done].
  - split; [done|]. split_and!; try lia. intros i x Hx. apply lookup_lt_Some in Hx. unfold zlen. split; lia.
  - lia.
Qed.

Lemma search_ok iset xs v s : repr iset xs -> room (zlen xs) ->
  wp (intsetSearch iset v) (fun r s' => s' = s /\ searched xs v r) s.
Proof.
  intros Hr Hroom. pose proof (r_length _ _ Hr) as Hl. pose proof (r_sorted _ _ Hr) as Hs.
  unfold room in Hroom. unfold intsetSearch. cbv zeta.
  assert (Hmax : i32 (length_ iset - 1) = zlen xs - 1) by (rewrite Hl; unfold i32; zdiv).
  rewrite Hmax, Hl. destruct (Z.eqb_spec (zlen xs) 0) as [E0|Hne].
  { apply wp_ret. split; [done|]. right. split; [done|]. split; [cbn; lia|].
    intros i x Hx. apply lookup_lt_Some in Hx. unfold zlen in E0. lia. }
  destruct (lookup_lt_is_Some_2 xs (Z.to_nat (zlen xs - 1))) as [z Hz]; [unfold zlen in *; lia|].
  destruct (lookup_lt_is_Some_2 xs (Z.to_nat 0)) as [a Ha]; [unfold zlen in *; lia|].
  apply wp_bind. eapply wp_eq; [eapply get_eq; [exact Hr|lia|exact Hz]|].
  destruct (Z.ltb_spec z v) as [Hlt|Hge].
  { apply wp_ret. split; [done|]. right. split; [done|]. split; [cbn; lia|]. intros i x Hx. cbn [snd].
    pose proof (lookup_lt_Some _ _ _ Hx). rewrite (proj2 (Z.ltb_lt _ _)) by (unfold zlen; lia).
    destruct (Nat.eq_dec i (Z.to_nat (zlen xs - 1))) as [->|]; [by replace x with z by congruence|].
    assert (x < z) by (eapply (sorted_lookup xs i (Z.to_nat (zlen xs - 1))); (done || unfold zlen in *; lia)). lia. }
  apply wp_bind. eapply wp_eq; [eapply get_eq; [exact Hr|lia|exact Ha]|].
  destruct (Z.ltb_spec v a) as [Hlt|Hge'].
  { apply wp_ret. split; [done|]. right. split; [done|]. split; [cbn; lia|]. intros i x Hx. cbn [snd].
    rewrite (proj2 (Z.ltb_ge _ _)) by lia. destruct (Nat.eq_dec i 0%nat) as [->|]; [change (Z.to_nat 0) with 0%nat in Ha; by replace x with a by congruence|].
    assert (a < x) by (eapply (sorted_lookup xs 0%nat i); (done || lia)). lia. }
  apply wp_bind. eapply wp_mono; [apply search_loop; (done || lia)|].
  intros [[min mid] cur] s' [-> Hres]. destruct (v =? cur); apply wp_ret; (split; [done|]).
  - by left.
  - by right.
Qed.
End search.

(** ** Moving elements *)
Section moving.
Context {S : Type}.
Implicit Types (s : S) (iset : intset).

Lemma memcpy_lookup (dst src : buf) doff soff n s :
  0 <= n -> 0 <= doff -> doff + n <= zlen dst -> 0 <= soff -> soff + n <= zlen src ->
  exists b', memcpy dst doff src soff n s = Ret b' s /\ zlen b' = zlen dst /\
    forall j, 0 <= j -> b' !! Z.to_nat j =
      if decide (doff <= j < doff + n) then src !! Z.to_nat (j - doff + soff) else dst !! Z.to_nat j.
Proof.
  intros Hn Hd Hd' Hs Hs'. unfold zlen in *. unfold memcpy. case_match eqn:Ec; [|unfold zlen in *; lia].
  eexists. split; [reflexivity|]. clear Ec.
  split; [rewrite !length_app, !length_take, !length_drop; lia|]. intros j Hj.
  destruct (decide (doff <= j < doff + n)) as [Hin|Hout].
  - rewrite lookup_app_r by (rewrite length_take; lia). rewrite length_take, Nat.min_l by lia.
    rewrite lookup_app_l by (rewrite length_take, length_drop; lia).
    rewrite lookup_take_lt, lookup_drop by lia. f_equal. lia.
  - destruct (decide (j < doff)).
    + rewrite lookup_app_l by (rewrite length_take; lia). by rewrite lookup_take_lt by lia.
    + rewrite !lookup_app_r by (rewrite ?length_take, ?length_drop; lia).
      rewrite !length_take, !length_drop, lookup_drop. f_equal. lia.
Qed.

(** Elements survive what leaves their bytes alone. *)
Lemma elem_at_eq e (b b' : buf) i i' v : is_enc e -> 0 <= i -> 0 <= i' ->
  elem_at e b i v ->
  (forall k, 0 <= k < e -> b' !! Z.to_nat (i' * e + k) = b !! Z.to_nat (i * e + k)) -> elem_at e b' i' v.
Proof. intros He Hi Hi' Hb Heq k Hk. rewrite Heq by done. by apply Hb. Qed.

Lemma elem_in e (b : buf) i v : is_enc e -> 0 <= i -> elem_at e b i v -> (i + 1) * e <= zlen b.
Proof.
  intros He Hi Hb. specialize (Hb (e - 1) ltac:(unfold is_enc in He; lia)).
  apply lookup_lt_Some in Hb. unfold zlen. unfold is_enc in He. nia.
Qed.

Lemma zlen_resize (b : buf) n : 0 <= n -> zlen (zrealloc b n) = n.
Proof. intros. unfold zrealloc, zlen. rewrite length_app, length_take, length_replicate. lia. Qed.
Lemma lookup_resize (b : buf) n j : 0 <= j -> j < n -> j < zlen b -> zrealloc b n !! Z.to_nat j = b !! Z.to_nat j.
Proof.
  intros. unfold zrealloc, zlen in *. rewrite lookup_app_l by (rewrite length_take; lia). by rewrite lookup_take_lt by lia.
Qed.
Lemma elem_at_resize e (b : buf) n i v : is_enc e -> 0 <= i -> (i + 1) * e <= n ->
  elem_at e b i v -> elem_at e (zrealloc b n) i v.
Proof.
  intros He Hi Hn Hb. pose proof (elem_in _ _ _ _ He Hi Hb). eapply elem_at_eq; [done..|].
  intros k Hk. apply lookup_resize; unfold is_enc in He; nia.
Qed.

Lemma resize_eq iset n s : is_enc (encoding iset) -> room n ->
  intsetResize iset n s = Ret (with_contents (zrealloc (contents iset) (n * encoding iset)) iset) s.
Proof.
  intros He Hn. unfold intsetResize, ret. rewrite u32_id; [done|]. unfold is_u32, room, is_enc in *. nia.
Qed.

(** The tail of the array moves as a block; what lies in front of its new place stays. *)
Lemma move_tail_ok iset from to s : is_enc (encoding iset) -> room (length_ iset) ->
  0 <= from <= length_ iset -> 0 <= to ->
  (to + (length_ iset - from)) * encoding iset <= zlen (contents iset) ->
  length_ iset * encoding iset <= zlen (contents iset) ->
  exists b', intsetMoveTail iset from to s = Ret (with_contents b' iset) s /\
    zlen b' = zlen (contents iset) /\
    forall i v, 0 <= i -> elem_at (encoding iset) (contents iset) i v ->
      (i < to -> elem_at (encoding iset) b' i v) /\
      (from <= i < length_ iset -> elem_at (encoding iset) b' (i + (to - from)) v).
Proof.
  intros He Hroom Hf Ht Hlen Hlen'. unfold room in Hroom. set (e := encoding iset) in *.
  assert (Hw : u32 (u32 (length_ iset - from) * e) = (length_ iset - from) * e).
  { rewrite (u32_id (length_ iset - from)) by (unfold is_u32; lia). apply u32_id.
    unfold is_u32, is_enc in *. nia. }
  destruct (memcpy_lookup (contents iset) (contents iset) (e * to) (e * from) ((length_ iset - from) * e) s)
    as (b' & E & Hz & Hb'); try (unfold is_enc in He; nia).
  exists b'. split_and!; [|done|].
  - unfold intsetMoveTail. cbv zeta. fold e.
    assert (He' : (if e =? INTSET_ENC_INT64 then 8 else if e =? INTSET_ENC_INT32 then 4 else 2) = e).
    { destruct He as [->|[->| ->]]; reflexivity. }
    rewrite He', Hw. by erewrite bind_ret_eq by exact E.
  - intros i v Hi Hv. split; intros Hi'; (eapply elem_at_eq; [done| |  |exact Hv|]; [lia..|]); intros k Hk.
    + rewrite Hb' by (unfold is_enc in He; nia). rewrite decide_False by (unfold is_enc in He; nia). done.
    + rewrite Hb' by (unfold is_enc in He; nia). rewrite decide_True by (unfold is_enc in He; nia). f_equal. lia.
Qed.
End moving.

(** ** Insertion and removal *)
Section updates.
Context {S : Type}.
Implicit Types (s : S) (iset : intset).

(** A set with one slot more than it has elements, whose slot [p] is to be filled. *)
Record opened (e : Z) (b : buf) (xs : list Z) (p : Z) : Prop := {
  o_size : zlen b = (zlen xs + 1) * e;
  o_low : forall i x, xs !! i = Some x -> Z.of_nat i < p -> elem_at e b (Z.of_nat i) x;
  o_high : forall i x, xs !! i = Some x -> p <= Z.of_nat i -> elem_at e b (Z.of_nat i + 1) x
}.

(** Storing the value in the slot and counting it finishes an insertion. *)
Lemma fill_ok iset xs p v s : is_enc (encoding iset) -> room (zlen xs + 1) -> length_ iset = zlen xs ->
  sorted xs -> gap xs v p -> in_range (encoding iset) v -> Forall (in_range (encoding iset)) xs ->
  opened (encoding iset) (contents iset) xs p ->
  exists b', _intsetSet iset p v s = Ret (with_contents b' iset) s /\
    repr (with_length (u32 (length_ (with_contents b' iset) + 1)) (with_contents b' iset)) (insert_at xs p v).
Proof.
  intros He Hroom Hl Hs Hg Hv Hxs [Hsz Hlow Hhigh]. pose proof (proj1 Hg) as Hp. unfold room in Hroom.
  destruct (set_ok iset p v s) as (b' & E & Hz & Hin & Hout); [done|lia| |].
  { rewrite Hsz. apply Z.mul_le_mono_nonneg_r; [unfold is_enc in He; lia|lia]. }
  exists b'. split; [exact E|]. pose proof (zlen_insert_at xs p v Hp) as Hn.
  split; cbn [encoding length_ contents with_length with_contents].
  - done.
  - rewrite Hn, Hl. apply u32_id. unfold is_u32. lia.
  - by rewrite Hn, Hz.
  - intros i x Hi. rewrite lookup_insert_at in Hi by done.
    destruct (decide (Z.of_nat i < p)); [|destruct (decide (Z.of_nat i = p))].
    + eapply elem_at_eq; [done| | |by apply Hlow|]; [lia..|]. intros k Hk. apply Hout; unfold is_enc in He; nia.
    + injection Hi as ->. by replace (Z.of_nat i) with p by lia.
    + replace (Z.of_nat i) with (Z.of_nat (i - 1) + 1) by lia.
      eapply elem_at_eq; [done| | |apply Hhigh; [exact Hi|lia]|]; [lia..|].
      intros k Hk. apply Hout; unfold is_enc in He; nia.
  - unfold insert_at. apply Forall_app. split; [by apply Forall_take|].
    constructor; [done|by apply Forall_drop].
  - by apply sorted_insert.
Qed.

Lemma insert_ok iset xs p v s : repr iset xs -> room (zlen xs + 1) -> gap xs v p ->
  in_range (encoding iset) v ->
  wp (let* iset := intsetResize iset (u32 (length_ iset + 1)) in
      let* iset := (if p <? length_ iset then intsetMoveTail iset p (u32 (p + 1)) else ret iset) in
      let* iset := _intsetSet iset p v in
      ret (with_length (u32 (length_ iset + 1)) iset, 1))
    (fun r s' => s' = s /\ snd r = 1 /\ encoding (fst r) = encoding iset /\ repr (fst r) (insert_at xs p v)) s.
Proof.
  intros [He Hl Hsz Hel Hrg Hs] Hroom Hg Hv. pose proof (proj1 Hg) as Hp. unfold room in Hroom.
  rewrite u32_id by (rewrite Hl; unfold is_u32; lia).
  apply wp_bind. eapply wp_eq; [apply resize_eq; [done|unfold room; lia]|].
  set (b1 := zrealloc _ _). set (is1 := with_contents b1 iset).
  assert (Hb1 : zlen b1 = (zlen xs + 1) * encoding iset).
  { unfold b1. rewrite zlen_resize; [by rewrite Hl|]. unfold is_enc in He. nia. }
  assert (Hel1 : forall i x, xs !! i = Some x -> elem_at (encoding iset) b1 (Z.of_nat i) x).
  { intros i x Hi. pose proof (lookup_lt_Some _ _ _ Hi). apply elem_at_resize; [done|lia| |by apply Hel].
    rewrite Hl. apply Z.mul_le_mono_nonneg_r; [unfold is_enc in He; lia|unfold zlen; lia]. }
  assert (Hopen : exists b2, (if p <? length_ is1 then intsetMoveTail is1 p (u32 (p + 1)) else ret is1) s
                    = Ret (with_contents b2 iset) s /\ opened (encoding iset) b2 xs p).
  { cbn [length_ is1 with_contents]. rewrite u32_id by (unfold is_u32; lia).
    destruct (Z.ltb_spec p (length_ iset)).
    - destruct (move_tail_ok is1 p (p + 1) s) as (b2 & E & Hz & Hm);
        cbn [encoding length_ contents is1 with_contents]; try done; try (unfold room; lia);
        try (rewrite Hb1, Hl; apply Z.mul_le_mono_nonneg_r; [unfold is_enc in He; lia|lia]).
      exists b2. split; [exact E|]. cbn [encoding length_ contents is1 with_contents] in *. split.
      + by rewrite Hz.
      + intros i x Hi Hip. by eapply (Hm (Z.of_nat i) x); [lia|apply Hel1|lia].
      + intros i x Hi Hip. pose proof (lookup_lt_Some _ _ _ Hi). replace 1 with (p + 1 - p) by lia.
        eapply (Hm (Z.of_nat i) x); [lia|by apply Hel1|unfold zlen in *; lia].
    - exists b1. split; [done|]. split; [done|auto|]. intros i x Hi Hip.
      pose proof (lookup_lt_Some _ _ _ Hi). unfold zlen in *. lia. }
  destruct Hopen as (b2 & E2 & Ho). apply wp_bind. eapply wp_eq; [exact E2|].
  destruct (fill_ok (with_contents b2 iset) xs p v s) as (b3 & E3 & Hr3); try done.
  apply wp_bind. eapply wp_eq; [exact E3|]. apply wp_ret. by split_and!.
Qed.

(** While the elements are widened from the last to the first: those still in
    front keep their old size, those behind have the new one, [prepend] places
    further on. *)
Record widening (cur new : Z) (b : buf) (xs : list Z) (prepend l : Z) : Prop := {
  w_size : zlen b = (zlen xs + 1) * new;
  w_old : forall i x, xs !! i = Some x -> Z.of_nat i < l -> elem_at cur b (Z.of_nat i) x;
  w_new : forall i x, xs !! i = Some x -> l <= Z.of_nat i -> elem_at new b (Z.of_nat i + prepend) x
}.

Lemma widen_ok iset cur xs prepend l s : is_enc cur -> is_enc (encoding iset) -> cur <= encoding iset ->
  Forall (in_range cur) xs -> 0 <= prepend <= 1 -> 0 <= l < zlen xs ->
  widening cur (encoding iset) (contents iset) xs prepend (l + 1) ->
  wp (let* v := _intsetGetEncoded iset l cur in _intsetSet iset (l + prepend) v)
    (fun iset' s' => s' = s /\ encoding iset' = encoding iset /\ length_ iset' = length_ iset /\
       widening cur (encoding iset) (contents iset') xs prepend l) s.
Proof.
  intros Hc He Hce Hrg Hp Hl [Hsz Hold Hnew].
  destruct (lookup_lt_is_Some_2 xs (Z.to_nat l)) as [x Hx]; [unfold zlen in *; lia|].
  apply wp_bind. eapply wp_eq.
  { apply get_encoded_eq with (v := x); [done|lia| |by eapply Forall_lookup_1].
    replace l with (Z.of_nat (Z.to_nat l)) by lia. apply Hold; [done|lia]. }
  destruct (set_ok iset (l + prepend) x s) as (b' & E & Hz & Hin & Hout); [done|lia| |].
  { rewrite Hsz. apply Z.mul_le_mono_nonneg_r; [unfold is_enc in He; lia|lia]. }
  eapply wp_eq; [exact E|]. cbn [encoding length_ contents with_contents]. split_and!; try done.
  split; [by rewrite Hz| |]; intros i y Hi Hil.
  - eapply elem_at_eq; [done| | |apply Hold; [exact Hi|lia]|]; [lia..|]. intros k Hk.
    apply Hout; [assert (0 <= Z.of_nat i * cur) by (apply Z.mul_nonneg_nonneg; unfold is_enc in Hc; lia); lia|]. left.
    assert ((Z.of_nat i + 1) * cur <= l * cur) by (apply Z.mul_le_mono_nonneg_r; lia).
    assert (l * cur <= l * encoding iset) by (apply Z.mul_le_mono_nonneg_l; lia).
    assert (0 <= prepend * encoding iset) by (apply Z.mul_nonneg_nonneg; lia). lia.
  - destruct (Z.eq_dec (Z.of_nat i) l) as [E'|Hne].
    + rewrite E'. replace y with x; [done|]. replace (Z.to_nat l) with i in Hx by lia. congruence.
    + eapply elem_at_eq; [done| | |apply Hnew; [exact Hi|lia]|]; [lia..|]. intros k Hk.
      apply Hout; [unfold is_enc in He; nia|]. right. unfold is_enc in He. nia.
Qed.

(** A value that needs larger elements lies outside the range of all others. *)
Lemma upgrade_gap xs e v : is_enc e -> Forall (in_range e) xs -> ~ in_range e v ->
  gap xs v (if v <? 0 then 0 else zlen xs).
Proof.
  intros He Hrg Hv. split; [pose proof (zlen_nonneg xs); destruct (v <? 0); lia|].
  intros i x Hi. pose proof (Forall_lookup_1 _ _ _ _ Hrg Hi) as Hx. rewrite in_range_eq in Hx, Hv by done.
  apply lookup_lt_Some in Hi. unfold zlen. destruct (Z.ltb_spec v 0).
  - rewrite (proj2 (Z.ltb_ge _ _)) by lia. unfold is_enc in He. lia.
  - rewrite (proj2 (Z.ltb_lt _ _)) by lia. unfold is_enc in He. lia.
Qed.

Lemma upgrade_ok iset xs v s : repr iset xs -> room (zlen xs + 1) -> is_i64 v ->
  encoding iset < _intsetValueEncoding v ->
  wp (intsetUpgradeAndAdd iset v)
    (fun iset' s' => s' = s /\ encoding iset' = _intsetValueEncoding v /\
       repr iset' (insert_at xs (if v <? 0 then 0 else zlen xs) v)) s.
Proof.
  intros [He Hl Hsz Hel Hrg Hs] Hroom Hv Hlt. destruct (value_encoding_ok v Hv) as [He' Hfit].
  unfold room in Hroom. pose proof (zlen_nonneg xs) as H0.
  assert (Hnr : ~ in_range (encoding iset) v) by (rewrite Hfit by done; lia).
  pose proof (upgrade_gap xs _ v He Hrg Hnr) as Hg.
  unfold intsetUpgradeAndAdd. cbv zeta. set (new := _intsetValueEncoding v) in *.
  set (prepend := if v <? 0 then 1 else 0). set (p := if v <? 0 then 0 else zlen xs) in *.
  assert (Hn : i32 (length_ iset) = zlen xs) by (rewrite Hl; unfold i32; zdiv). rewrite Hn.
  cbn [length_ with_encoding]. rewrite u32_id by (rewrite Hl; unfold is_u32; lia).
  apply wp_bind. eapply wp_eq; [apply resize_eq; [done|unfold room; lia]|].
  cbn [encoding contents with_encoding]. rewrite (proj2 (Z.ltb_ge _ _)) by lia.
  apply wp_bind, wp_ret, wp_bind. rewrite Hl. eapply wp_mono.
  { apply (wp_for _ (fun j is' s' => s' = s /\ encoding is' = new /\ length_ is' = zlen xs /\
       widening (encoding iset) new (contents is') xs prepend (zlen xs + 1 - j))).
    - split_and!; cbn [encoding length_ contents with_contents with_encoding]; try done. split.
      + apply zlen_resize. unfold is_enc in He'. nia.
      + intros i x Hi _. pose proof (lookup_lt_Some _ _ _ Hi). apply elem_at_resize; [done|lia| |by apply Hel].
        unfold zlen in *. unfold is_enc in He, He'. nia.
      + intros i x Hi ?. pose proof (lookup_lt_Some _ _ _ Hi). unfold zlen in *. lia.
    - intros j is' s' Hj (-> & E1 & E2 & Hw). rewrite <- E1 in Hw |- *.
      eapply wp_mono; [apply widen_ok with (xs := xs); try done; try lia|].
      + by rewrite E1.
      + unfold prepend. destruct (v <? 0); lia.
      + by replace (zlen xs - j + 1) with (zlen xs + 1 - j) by lia.
      + intros is'' s'' (-> & E3 & E4 & Hw'). rewrite E1 in *. split_and!; try congruence.
        by replace (zlen xs + 1 - (j + 1)) with (zlen xs - j) by lia. }
  intros is1 s' (-> & E1 & E2 & Hw). replace (zlen xs + 1 - (1 + Z.of_nat (Z.to_nat (zlen xs)))) with 0 in Hw by lia.
  assert (Hset : (if negb (prepend =? 0) then _intsetSet is1 0 v else _intsetSet is1 (length_ is1) v : M S intset)
                 = _intsetSet is1 p v) by (unfold prepend, p; rewrite E2; by destruct (v <? 0)).
  rewrite Hset. destruct (fill_ok is1 xs p v s) as (b & E & Hr); rewrite ?E1; try done.
  - rewrite Hfit by done. lia.
  - eapply Forall_impl; [exact Hrg|]. intros x Hx. eapply in_range_mono; [exact He|done|lia|done].
  - destruct Hw as [Hz _ Hnew]. split; [done| |]; intros i x Hi Hip;
      pose proof (Hnew i x Hi ltac:(lia)) as Hx; pose proof (lookup_lt_Some _ _ _ Hi);
      unfold prepend, p in *; destruct (v <? 0); unfold zlen in *; try lia; try done.
    by rewrite Z.add_0_r in Hx.
  - apply wp_bind. eapply wp_eq; [exact E|]. by apply wp_ret.
Qed.
End updates.

(** ** The operations on the represented sequence *)
Section operations.
Context {S : Type}.
Implicit Types (s : S) (iset : intset).

Lemma zlen_take_drop (xs : list Z) p : zlen xs = zlen (take p xs) + zlen (drop p xs).
Proof. unfold zlen. rewrite length_take, length_drop. lia. Qed.

(** Outcome of an operation: the new sequence and the flag it stores. *)
Definition outcome (xs' : list Z) (flag e : Z) (r : intset * Z) : Prop :=
  repr (fst r) xs' /\ snd r = flag /\ encoding (fst r) = e.

Lemma add_ok iset xs v s : repr iset xs -> room (zlen xs + 1) -> is_i64 v ->
  wp (intsetAdd iset v) (fun r s' => s' = s /\
    let e := Z.max (encoding iset) (_intsetValueEncoding v) in
    (v ∈ xs /\ outcome xs 0 e r) \/ (exists p, gap xs v p /\ outcome (insert_at xs p v) 1 e r)) s.
Proof.
  intros Hr Hroom Hv. pose proof (r_enc _ _ Hr) as He. destruct (value_encoding_ok v Hv) as [He' Hfit].
  unfold intsetAdd. destruct (Z.ltb_spec (encoding iset) (_intsetValueEncoding v)) as [Hlt|Hge].
  - apply wp_bind. eapply wp_mono; [by apply (upgrade_ok iset xs)|].
    intros iset' s' (-> & E & Hr'). apply wp_ret. split; [done|]. right. eexists. split; [|split; [exact Hr'|]].
    + eapply upgrade_gap; [exact He|apply Hr|]. rewrite Hfit by done. lia.
    + cbn [fst snd]. rewrite Z.max_r by lia. done.
  - apply wp_bind. eapply wp_mono; [apply (search_ok iset xs v s Hr)|].
    { unfold room in *. pose proof (zlen_nonneg xs). lia. }
    intros [f p] s' [-> [(Hf & Hp & Hx)|[Hf Hg]]]; cbn [fst snd] in *; rewrite Hf; cbn [Z.eqb negb].
    + apply wp_ret. split; [done|]. left. split; [by eapply list_elem_of_lookup_2|].
      split; [done|]. split; [done|]. cbn [fst]. lia.
    + eapply wp_mono; [apply (insert_ok iset xs p v); [done..|]; apply Hfit; [done|lia]|].
      intros [iset' fl] s' (-> & Efl & E & Hr'). split; [done|]. right. exists p. split; [done|].
      split; [exact Hr'|]. split; [done|]. cbn [fst] in *. lia.
Qed.

Lemma remove_at_ok iset xs p v s : repr iset xs -> room (zlen xs) -> 0 <= p -> xs !! Z.to_nat p = Some v ->
  wp (let len := length_ iset in
      let* iset1 := (if p <? u32 (len - 1) then intsetMoveTail iset (u32 (p + 1)) p else ret iset) in
      let* iset2 := intsetResize iset1 (u32 (len - 1)) in
      ret (with_length (u32 (len - 1)) iset2, 1))
    (fun r s' => s' = s /\ outcome (remove_at xs p) 1 (encoding iset) r) s.
Proof.
  intros [He Hl Hsz Hel Hrg Hs] Hroom H0 Hp. pose proof (lookup_lt_Some _ _ _ Hp) as Hlt.
  assert (Hpl : 0 <= p < zlen xs) by (unfold zlen; lia). unfold room in Hroom.
  assert (Hmoved : exists b1, (if p <? u32 (length_ iset - 1) then intsetMoveTail iset (u32 (p + 1)) p else ret iset) s
            = Ret (with_contents b1 iset) s /\ zlen b1 = zlen (contents iset) /\
            forall i x, remove_at xs p !! i = Some x -> elem_at (encoding iset) b1 (Z.of_nat i) x).
  { rewrite !u32_id by (unfold is_u32; lia). destruct (Z.ltb_spec p (length_ iset - 1)).
    - destruct (move_tail_ok iset (p + 1) p s) as (b1 & E & Hz & Hm); try done; try (unfold room; lia);
        try (rewrite Hsz, Hl; apply Z.mul_le_mono_nonneg_r; [unfold is_enc in He; lia|lia]).
      exists b1. split_and!; [done..|]. intros i x Hi. rewrite lookup_remove_at in Hi by done.
      destruct (decide (Z.of_nat i < p)); [by eapply Hm; [lia|apply Hel|]|].
      pose proof (lookup_lt_Some _ _ _ Hi). replace (Z.of_nat i) with (Z.of_nat (i + 1) + (p - (p + 1))) by lia.
      eapply Hm; [lia|by apply Hel|unfold zlen in *; lia].
    - exists (contents iset). split_and!; [by destruct iset|done|].
      intros i x Hi. rewrite lookup_remove_at in Hi by done.
      destruct (decide (Z.of_nat i < p)); pose proof (lookup_lt_Some _ _ _ Hi); [by apply Hel|unfold zlen in *; lia]. }
  destruct Hmoved as (b1 & E1 & Hz1 & Hel1). cbv zeta. apply wp_bind. eapply wp_eq; [exact E1|].
  rewrite u32_id by (rewrite Hl; unfold is_u32; lia).
  apply wp_bind. eapply wp_eq; [apply resize_eq; [done|unfold room; lia]|]. apply wp_ret. split; [done|].
  split; [|done]. pose proof (zlen_remove_at xs p Hpl) as Hn.
  split; cbn [fst encoding length_ contents with_length with_contents]; [done|lia| | | |].
  - rewrite zlen_resize, Hn, Hl; [done|]. unfold is_enc in He. nia.
  - intros i x Hi. pose proof (lookup_lt_Some _ _ _ Hi). apply elem_at_resize; [done|lia| |by apply Hel1].
    rewrite Hl. apply Z.mul_le_mono_nonneg_r; [unfold is_enc in He; lia|unfold zlen in *; lia].
  - unfold remove_at. apply Forall_app. split; [by apply Forall_take|by apply Forall_drop].
  - by apply sorted_remove.
Qed.

(** The search as the operations call it: values too large for the elements are absent. *)
Lemma present_ok iset xs v s : repr iset xs -> room (zlen xs) -> is_i64 v ->
  wp (if _intsetValueEncoding v <=? encoding iset then intsetSearch iset v else ret (0, 0))
    (fun r s' => s' = s /\ ((fst r = 1 /\ 0 <= snd r /\ xs !! Z.to_nat (snd r) = Some v) \/ (fst r = 0 /\ v ∉ xs))) s.
Proof.
  intros Hr Hroom Hv. destruct (value_encoding_ok v Hv) as [He' Hfit].
  destruct (Z.leb_spec (_intsetValueEncoding v) (encoding iset)) as [Hle|Hlt].
  - eapply wp_mono; [by apply (search_ok iset xs v s)|]. intros [f p] s' [-> [H|[H Hg]]]; (split; [done|]).
    + by left.
    + right. split; [done|]. by eapply gap_not_in.
  - apply wp_ret. split; [done|]. right. split; [done|]. intros Hin.
    pose proof (proj1 (Forall_forall _ _) (r_range _ _ Hr) v Hin) as Hx.
    apply Hfit in Hx; [lia|apply Hr].
Qed.

Lemma remove_ok iset xs v s : repr iset xs -> room (zlen xs) -> is_i64 v ->
  wp (intsetRemove iset v) (fun r s' => s' = s /\
    ((v ∉ xs /\ outcome xs 0 (encoding iset) r) \/
     (exists p, 0 <= p /\ xs !! Z.to_nat p = Some v /\ outcome (remove_at xs p) 1 (encoding iset) r))) s.
Proof.
  intros Hr Hroom Hv. unfold intsetRemove. apply wp_bind.
  eapply wp_mono; [by apply (present_ok iset xs v s)|].
  intros [f p] s' [-> [(Hf & Hp & Hx)|[Hf Hn]]]; cbn [fst snd] in *; rewrite Hf; cbn [Z.eqb negb].
  - eapply wp_mono; [by apply (remove_at_ok iset xs p v s)|]. intros r s' [-> Ho]. split; [done|]. right. eauto.
  - apply wp_ret. split; [done|]. left. done.
Qed.

Lemma find_ok iset xs v s : repr iset xs -> room (zlen xs) -> is_i64 v ->
  intsetFind iset v s = Ret (b2z (bool_decide (v ∈ xs))) s.
Proof.
  intros Hr Hroom Hv. pose proof (present_ok iset xs v s Hr Hroom Hv) as Hp. unfold intsetFind.
  destruct (_intsetValueEncoding v <=? encoding iset); apply wp_inv in Hp as ([f p] & s' & E & -> & Hfp); cbn [fst snd] in Hfp.
  - erewrite bind_ret_eq by exact E. cbn beta iota. unfold ret. f_equal.
    destruct Hfp as [(-> & Hp & Hx)|[-> Hn]]; [rewrite bool_decide_true|rewrite bool_decide_false]; try done.
    by eapply list_elem_of_lookup_2.
  - unfold ret in *. injection E as <- <-. destruct Hfp as [[? _]|[_ Hn]]; [lia|]. by rewrite bool_decide_false.
Qed.

Lemma get_ok iset xs pos s : repr iset xs -> 0 <= pos ->
  intsetGet iset pos s =
    Ret (match xs !! Z.to_nat pos with Some x => (1, Some x) | None => (0, None) end) s.
Proof.
  intros Hr Hp. unfold intsetGet. rewrite (r_length _ _ Hr). destruct (Z.ltb_spec pos (zlen xs)) as [Hlt|Hge].
  - destruct (lookup_lt_is_Some_2 xs (Z.to_nat pos)) as [x Hx]; [unfold zlen in *; lia|]. rewrite Hx.
    by erewrite bind_ret_eq by (by eapply get_eq).
  - by rewrite lookup_ge_None_2 by (unfold zlen in *; lia).
Qed.
End operations.
