(* ===== verification/IntegerSets.v ===== *)
(** What a set of intset.c is for its callers: a finite set of 64-bit integers,
    in order, whose elements take as few bytes as the values added so far allow. *)
From S2P Require Import Prelude Intset IntsetProofs.
From stdpp Require Import sorting gmap.
#[local] Open Scope Z_scope.

(** ** Operations and answers *)
Inductive op : Type :=
| Add (v : Z)
| Remove (v : Z)
| Find (v : Z)
| Get (pos : Z)
| Len.
Inductive answer : Type :=
| Flag (n : Z)
| Element (n : Z) (v : option Z).

Definition perform {S} (o : op) (iset : intset) : M S (intset * answer) :=
  match o with
  | Add v => let* (iset, success) := intsetAdd iset v in ret (iset, Flag success)
  | Remove v => let* (iset, success) := intsetRemove iset v in ret (iset, Flag success)
  | Find v => let* r := intsetFind iset v in ret (iset, Flag r)
  | Get pos => let* (r, v) := intsetGet iset pos in ret (iset, Element r v)
  | Len => ret (iset, Flag (intsetLen iset))
  end.
Fixpoint run {S} (ops : list op) (iset : intset) : M S (intset * list answer) :=
  match ops with
  | [] => ret (iset, [])
  | o :: ops =>
      let* (iset, a) := perform o iset in
      let* (iset, l) := run ops iset in ret (iset, a :: l)
  end.

(** ** The specification: a set of integers *)
Definition in_order (X : gset Z) : list Z := merge_sort Z.le (elements X).
Definition spec (o : op) (X : gset Z) : gset Z * answer :=
  match o with
  | Add v => ({[ v ]} ∪ X, Flag (b2z (bool_decide (v ∉ X))))
  | Remove v => (X ∖ {[ v ]}, Flag (b2z (bool_decide (v ∈ X))))
  | Find v => (X, Flag (b2z (bool_decide (v ∈ X))))
  | Get pos => (X, match in_order X !! Z.to_nat pos with
                   | Some x => Element 1 (Some x) | None => Element 0 None end)
  | Len => (X, Flag (Z.of_nat (size X)))
  end.
Fixpoint spec_run (ops : list op) (X : gset Z) : gset Z * list answer :=
  match ops with
  | [] => (X, [])
  | o :: ops => let '(X1, a) := spec o X in let '(X2, l) := spec_run ops X1 in (X2, a :: l)
  end.

(** Arguments are of the parameters' types. *)
Definition op_ok (o : op) : Prop :=
  match o with
  | Add v | Remove v | Find v => is_i64 v
  | Get pos => is_u32 pos
  | Len => True
  end.
Definition grows (o : op) : Z := match o with Add _ => 1 | _ => 0 end.
Fixpoint growth (ops : list op) : Z := match ops with [] => 0 | o :: ops => grows o + growth ops end.
(** The bytes one element needs after the operations, [e] before them. *)
Definition width (e : Z) (o : op) : Z := match o with Add v => Z.max e (_intsetValueEncoding v) | _ => e end.

(** ** The abstraction *)
Definition represents (iset : intset) (X : gset Z) : Prop :=
  exists xs, repr iset xs /\ forall x, x ∈ X <-> x ∈ xs.

Lemma sorted_NoDup xs : sorted xs -> NoDup xs.
Proof.
  intros Hs. apply NoDup_alt. intros i j x Hi Hj.
  destruct (Nat.lt_trichotomy i j) as [Hlt|[?|Hlt]]; [|done|];
    pose proof (sorted_lookup _ _ _ _ _ Hs Hlt ltac:(eassumption) ltac:(eassumption)); lia.
Qed.
Lemma in_order_eq xs (X : gset Z) : sorted xs -> (forall x, x ∈ X <-> x ∈ xs) -> in_order X = xs.
Proof.
  intros Hs HX. apply (StronglySorted_unique Z.le).
  - apply StronglySorted_merge_sort; apply _.
  - clear HX. induction Hs as [|x l Hs IH Hx]; constructor; [done|].
    eapply Forall_impl; [exact Hx|]. intros y Hy. cbn beta in Hy. lia.
  - unfold in_order. rewrite merge_sort_Permutation. apply NoDup_Permutation.
    + apply NoDup_elements.
    + by apply sorted_NoDup.
    + intros x. by rewrite elem_of_elements.
Qed.
Lemma size_eq xs (X : gset Z) : sorted xs -> (forall x, x ∈ X <-> x ∈ xs) -> Z.of_nat (size X) = zlen xs.
Proof.
  intros Hs HX. rewrite <- (in_order_eq _ _ Hs HX). unfold zlen, in_order, size, set_size. cbn.
  by rewrite merge_sort_Permutation.
Qed.
Lemma elem_of_insert_at xs p v x : x ∈ insert_at xs p v <-> x = v \/ x ∈ xs.
Proof.
  unfold insert_at. rewrite <- (take_drop (Z.to_nat p) xs) at 3. rewrite !elem_of_app, elem_of_cons. tauto.
Qed.
Lemma elem_of_remove_at xs p v x : sorted xs -> xs !! Z.to_nat p = Some v ->
  x ∈ remove_at xs p <-> x ∈ xs /\ x <> v.
Proof.
  intros Hs Hp. pose proof (sorted_NoDup _ Hs) as Hnd. unfold remove_at.
  rewrite <- (take_drop_middle xs _ _ Hp) in Hnd. rewrite <- (take_drop_middle xs _ _ Hp) at 3.
  apply NoDup_app in Hnd as (_ & Hd & [Hd' _]%NoDup_cons). rewrite !elem_of_app, elem_of_cons. split.
  - intros [Hx|Hx]; (split; [tauto|]); intros ->; [apply (Hd v Hx); set_solver|done].
  - intros [[Hx|[->|Hx]] Hne]; tauto.
Qed.

Lemma growth_nonneg ops : 0 <= growth ops.
Proof. induction ops as [|[] ops IH]; cbn; lia. Qed.
Lemma spec_size o X : Z.of_nat (size (fst (spec o X))) <= Z.of_nat (size X) + grows o.
Proof.
  destruct o as [v|v|v|pos|]; cbn [spec grows fst]; try lia.
  - destruct (decide (v ∈ X)).
    + rewrite (subseteq_union_1_L {[v]} X) by set_solver. lia.
    + rewrite size_union by set_solver. rewrite size_singleton. lia.
  - pose proof (subseteq_size (X ∖ {[v]}) X ltac:(set_solver)). lia.
Qed.
Lemma spec_run_size ops : forall X, Z.of_nat (size (fst (spec_run ops X))) <= Z.of_nat (size X) + growth ops.
Proof.
  induction ops as [|o ops IH]; intros X; cbn [spec_run growth]; [cbn; lia|].
  pose proof (spec_size o X) as Ho. destruct (spec o X) as [X1 a]. specialize (IH X1).
  destruct (spec_run ops X1) as [X2 l]. cbn [fst] in *. lia.
Qed.

Section refinement.
Context {S : Type}.
Implicit Types (s : S) (iset : intset) (X : gset Z).

(** One operation on a representation gives the answer of the set and a representation of its successor. *)
Lemma perform_ok o iset X s : represents iset X -> op_ok o -> room (Z.of_nat (size X) + grows o) ->
  exists iset', perform o iset s = Ret (iset', snd (spec o X)) s /\
    represents iset' (fst (spec o X)) /\ encoding iset' = width (encoding iset) o.
Proof.
  intros (xs & Hr & HX) Hok Hroom. pose proof (r_sorted _ _ Hr) as Hs.
  rewrite (size_eq _ _ Hs HX) in Hroom. pose proof (zlen_nonneg xs) as H0.
  assert (Hroom' : room (zlen xs)) by (unfold room in *; destruct o; cbn [grows] in *; lia).
  assert (Hin : forall v, bool_decide (v ∈ X) = bool_decide (v ∈ xs)) by (intros; apply bool_decide_ext, HX).
  destruct o as [v|v|v|pos|]; cbn [perform spec fst snd width grows op_ok] in *.
  - pose proof (add_ok iset xs v s Hr Hroom Hok) as Hw.
    apply wp_inv in Hw as ([iset' fl] & s' & E & -> & Ho). exists iset'.
    erewrite bind_ret_eq by exact E. unfold ret. cbn beta iota.
    destruct Ho as [[Hv (Hr' & Hf & He)]|(p & Hg & Hr' & Hf & He)]; cbn [fst snd] in *; subst fl.
    + assert (HX' : forall x, x ∈ {[v]} ∪ X <-> x ∈ xs) by (intros x; rewrite elem_of_union, elem_of_singleton, HX; naive_solver).
      rewrite bool_decide_false by (rewrite HX; tauto). by split_and!; [|exists xs|].
    + assert (HX' : forall x, x ∈ {[v]} ∪ X <-> x ∈ insert_at xs p v).
      { intros x. by rewrite elem_of_union, elem_of_singleton, HX, elem_of_insert_at. }
      rewrite bool_decide_true by (rewrite HX; by eapply gap_not_in).
      by split_and!; [|exists (insert_at xs p v)|].
  - pose proof (remove_ok iset xs v s Hr Hroom' Hok) as Hw.
    apply wp_inv in Hw as ([iset' fl] & s' & E & -> & Ho). exists iset'.
    erewrite bind_ret_eq by exact E. unfold ret. cbn beta iota. rewrite Hin.
    destruct Ho as [[Hv (Hr' & Hf & He)]|(p & Hp & Hx & Hr' & Hf & He)]; cbn [fst snd] in *; subst fl.
    + assert (HX' : forall x, x ∈ X ∖ {[v]} <-> x ∈ xs).
      { intros x. rewrite elem_of_difference, elem_of_singleton, HX. naive_solver. }
      rewrite bool_decide_false by done. by split_and!; [|exists xs|].
    + assert (HX' : forall x, x ∈ X ∖ {[v]} <-> x ∈ remove_at xs p).
      { intros x. by rewrite elem_of_difference, elem_of_singleton, HX, (elem_of_remove_at xs p v). }
      rewrite bool_decide_true by (by eapply list_elem_of_lookup_2).
      by split_and!; [|exists (remove_at xs p)|].
  - exists iset. erewrite bind_ret_eq by (by apply (find_ok iset xs)). rewrite Hin.
    by split_and!; [|exists xs|].
  - exists iset. erewrite bind_ret_eq by (apply (get_ok iset xs pos s Hr); unfold is_u32 in Hok; lia).
    rewrite (in_order_eq _ _ Hs HX). split_and!; [by destruct (xs !! _)|by exists xs|done].
  - exists iset. unfold ret, intsetLen. rewrite (r_length _ _ Hr), (size_eq _ _ Hs HX).
    by split_and!; [|exists xs|].
Qed.

Lemma run_ok ops : forall iset X s, represents iset X -> Forall op_ok ops ->
  room (Z.of_nat (size X) + growth ops) ->
  exists iset', run ops iset s = Ret (iset', snd (spec_run ops X)) s /\
    represents iset' (fst (spec_run ops X)) /\ encoding iset' = foldl width (encoding iset) ops.
Proof.
  induction ops as [|o ops IH]; intros iset X s HX Hok Hroom; cbn [run spec_run growth foldl] in *.
  - by exists iset.
  - apply Forall_cons in Hok as [Ho Hok]. pose proof (growth_nonneg ops) as Hg. unfold room in Hroom.
    destruct (perform_ok o iset X s HX Ho) as (iset1 & E1 & HX1 & He1).
    { unfold room. destruct o; cbn [grows] in *; lia. }
    pose proof (spec_size o X) as Hsz.
    destruct (spec o X) as [X1 a]. cbn [fst snd] in *.
    destruct (IH iset1 X1 s HX1 Hok) as (iset2 & E2 & HX2 & He2); [unfold room; lia|].
    destruct (spec_run ops X1) as [X2 l]. cbn [fst snd] in *. exists iset2.
    erewrite bind_ret_eq by exact E1. cbn beta iota. erewrite bind_ret_eq by exact E2.
    split_and!; [done|done|]. by rewrite He2, He1.
Qed.

Lemma width_spec ops : forall e, is_enc e -> Forall op_ok ops ->
  let w := foldl width e ops in
  is_enc w /\ e <= w /\ (forall v, Add v ∈ ops -> _intsetValueEncoding v <= w) /\
  (w = e \/ exists v, Add v ∈ ops /\ w = _intsetValueEncoding v).
Proof.
  induction ops as [|o ops IH]; intros e He Hok; cbn zeta; cbn [foldl].
  - split_and!; [done|lia|set_solver|by left].
  - apply Forall_cons in Hok as [Ho Hok].
    assert (Hw : is_enc (width e o) /\ e <= width e o).
    { destruct o as [v|v|v|pos|]; cbn [width op_ok] in *; try (split; [done|lia]).
      destruct (value_encoding_ok v Ho) as [He' _]. unfold is_enc in *. lia. }
    destruct Hw as [Hw Hle]. destruct (IH _ Hw Hok) as (H1 & H2 & H3 & H4). split; [done|]. split; [lia|]. split.
    + intros v [<-|Hv]%elem_of_cons; [|by apply H3]. cbn [width] in *. lia.
    + destruct H4 as [E|(v & Hv & E)]; [|right; exists v; split; [set_solver|done]].
      rewrite E. destruct o as [v|v|v|pos|]; cbn [width]; try by left.
      destruct (Z.max_spec e (_intsetValueEncoding v)) as [[_ ->]|[_ ->]]; [right|by left].
      exists v. split; [set_solver|done].
Qed.

Lemma new_represents s : exists iset, intsetNew s = Ret iset s /\ represents iset ∅ /\ encoding iset = 2.
Proof.
  eexists. split; [reflexivity|]. split; [|done]. exists []. split; [|set_solver].
  split; cbn; [by left|done|done|done|constructor|constructor].
Qed.
End refinement.

(** ** Properties *)

(** C27: from a new set, any sequence of insertions, removals, lookups by value
    and by position answers exactly as a finite set of integers does, and never
    leaves the block of bytes the set is kept in: the binary search finds what is
    there, values that are larger than the elements widen all of them without
    losing one, and every set can be left with the elements of the specification.
    The bound keeps the size of the block below 2^32 bytes. *)
Theorem integer_set_refines {S} (ops : list op) (s : S) :
  Forall op_ok ops -> growth ops < 536870912 ->
  exists iset, (let* iset := intsetNew in run ops iset) s = Ret (iset, snd (spec_run ops ∅)) s /\
    represents iset (fst (spec_run ops ∅)).
Proof.
  intros Hok Hg. destruct (new_represents s) as (i0 & E0 & H0 & _). pose proof (growth_nonneg ops).
  destruct (run_ok ops i0 ∅ s H0 Hok) as (iset & E & HX & _); [unfold room; rewrite size_empty; lia|].
  exists iset. by erewrite bind_ret_eq by exact E0.
Qed.

Definition some_ops : list op :=
  [Add 5; Add (-40000); Add 5; Add 9223372036854775807; Find 5; Find 6; Remove 5; Get 0; Get 5; Len].
Lemma some_ops_ok : Forall op_ok some_ops.
Proof. unfold some_ops, op_ok, is_i64, is_u32. repeat constructor; done. Defined.

Lemma integer_set_refines_witness :
  snd (spec_run some_ops ∅) =
    [Flag 1; Flag 1; Flag 0; Flag 1; Flag 1; Flag 0; Flag 1; Element 1 (Some (-40000)); Element 0 None; Flag 2] /\
  exists iset, (let* iset := intsetNew in run some_ops iset) tt = Ret (iset, snd (spec_run some_ops ∅)) tt /\
    represents iset (fst (spec_run some_ops ∅)).
Proof.
  split; [vm_compute; reflexivity|]. apply (integer_set_refines some_ops tt); [exact some_ops_ok|vm_compute; reflexivity].
Defined.

(** C28: the type of the elements of a set is, after any sequence of operations, the
    narrowest of the three: 16, 32 or 64 bits, as a number of bytes. Every value passed to
    [intsetAdd] so far lies in its range, and for each narrower type one of these values
    does not; so it is 16 bits when nothing was added, and removing values never
    narrows it. The size [intsetBlobLen] reports is the header and that many bytes per
    element. The set stays below 2^29 elements. *)
Theorem element_type_fits {S} (ops : list op) (s : S) :
  Forall op_ok ops -> growth ops < 536870912 ->
  exists iset l, (let* iset := intsetNew in run ops iset) s = Ret (iset, l) s /\
    (encoding iset = 2 \/ encoding iset = 4 \/ encoding iset = 8) /\
    (forall v, Add v ∈ ops -> in_range (encoding iset) v) /\
    (forall e, e = 2 \/ e = 4 -> e < encoding iset -> exists v, Add v ∈ ops /\ ~ in_range e v) /\
    intsetBlobLen iset = 8 + Z.of_nat (size (fst (spec_run ops ∅))) * encoding iset /\
    zlen (contents iset) = intsetBlobLen iset - sizeof_intset.
Proof.
  intros Hok Hg. destruct (new_represents s) as (i0 & E0 & H0 & He0). pose proof (growth_nonneg ops).
  destruct (run_ok ops i0 ∅ s H0 Hok) as (iset & E & HX & He); [unfold room; rewrite size_empty; lia|].
  rewrite He0 in He. exists iset, (snd (spec_run ops ∅)). erewrite bind_ret_eq by exact E0.
  split; [exact E|]. destruct (width_spec ops 2 ltac:(by left) Hok) as (H1 & _ & H3 & H4). rewrite <- He in H1, H3, H4.
  destruct HX as (xs & Hr & HX). pose proof (size_eq _ _ (r_sorted _ _ Hr) HX) as Hsz. rewrite Forall_forall in Hok.
  assert (Hblob : intsetBlobLen iset = 8 + zlen xs * encoding iset).
  { unfold intsetBlobLen. rewrite (r_length _ _ Hr), u32_id; [done|].
    rewrite <- Hsz. pose proof (spec_run_size ops ∅). rewrite size_empty in *. unfold is_u32, is_enc in *. lia. }
  split_and!.
  - exact H1.
  - intros v Hv. apply value_encoding_ok; [exact (Hok _ Hv)|done|by apply H3].
  - intros e Hen Hlt. destruct H4 as [H4|(v & Hv & H4)]; [lia|]. exists v. split; [done|].
    rewrite (proj2 (value_encoding_ok v (Hok _ Hv))) by (unfold is_enc; lia). lia.
  - by rewrite Hblob, Hsz.
  - rewrite Hblob, (r_size _ _ Hr). unfold sizeof_intset. lia.
Qed.
Lemma element_type_fits_witness :
  exists iset l, (let* iset := intsetNew in run some_ops iset) tt = Ret (iset, l) tt /\
    (encoding iset = 2 \/ encoding iset = 4 \/ encoding iset = 8) /\
    (forall v, Add v ∈ some_ops -> in_range (encoding iset) v) /\
    (forall e, e = 2 \/ e = 4 -> e < encoding iset -> exists v, Add v ∈ some_ops /\ ~ in_range e v) /\
    intsetBlobLen iset = 8 + Z.of_nat (size (fst (spec_run some_ops ∅))) * encoding iset /\
    zlen (contents iset) = intsetBlobLen iset - sizeof_intset.
Proof. apply (element_type_fits some_ops tt); [exact some_ops_ok|vm_compute; reflexivity]. Defined.

(** [intsetRandom] returns a member of a set that has one, whatever [rand]
    returned, and every member for some value of [rand]; on an empty set it
    divides by zero. *)
Theorem random_is_member {S} (iset : intset) (X : gset Z) (s : S) :
  represents iset X -> room (Z.of_nat (size X)) ->
  if decide (X = ∅) then forall rand, intsetRandom iset rand s = Fault DivByZero
  else (forall rand, exists v, intsetRandom iset rand s = Ret v s /\ v ∈ X) /\
       (forall v, v ∈ X -> exists rand, 0 <= rand <= INT32_MAX /\ intsetRandom iset rand s = Ret v s).
Proof.
  intros (xs & Hr & HX) Hroom. pose proof (size_eq _ _ (r_sorted _ _ Hr) HX) as Hsz. unfold room in Hroom.
  unfold intsetRandom. rewrite (r_length _ _ Hr). destruct (decide (X = ∅)) as [->|Hne].
  - rewrite size_empty in Hsz. intros rand. by rewrite <- Hsz.
  - assert (Hpos : 0 < zlen xs).
    { assert (size X <> 0%nat); [|lia]. by rewrite size_non_empty_iff, leibniz_equiv_iff. }
    rewrite (proj2 (Z.eqb_neq _ _)) by lia. split.
    + intros rand. pose proof (Z.mod_pos_bound (u32 rand) (zlen xs) Hpos) as Hm.
      destruct (lookup_lt_is_Some_2 xs (Z.to_nat (u32 rand mod zlen xs))) as [v Hv]; [unfold zlen in *; lia|].
      exists v. split; [by eapply get_eq; [| lia|]|]. apply HX. by eapply list_elem_of_lookup_2.
    + intros v [i Hi]%HX%list_elem_of_lookup. pose proof (lookup_lt_Some _ _ _ Hi).
      exists (Z.of_nat i). unfold INT32_MAX, zlen in *. split; [lia|].
      rewrite u32_id by (unfold is_u32; lia). rewrite Z.mod_small by lia.
      eapply get_eq; [exact Hr|lia|]. by rewrite Nat2Z.id.
Qed.


Definition five : intset := {| encoding := 2; length_ := 1; contents := [Some 5; Some 0] |}.
Lemma five_represents : represents five {[ 5 ]}.
Proof.
  exists [5]. split; [|set_solver]. split; cbn [five encoding length_ contents]; try done.
  - by left.
  - intros [|[]] x Hx; [|done..]. injection Hx as <-. intros k Hk.
    assert (k = 0 \/ k = 1) as [-> | ->] by lia; reflexivity.
  - by repeat constructor.
  - by repeat constructor.
Qed.
Lemma random_is_member_witness :
  (forall rand, exists v, intsetRandom five rand tt = Ret v tt /\ v ∈ ({[ 5 ]} : gset Z)) /\
  (forall v, v ∈ ({[ 5 ]} : gset Z) -> exists rand, 0 <= rand <= INT32_MAX /\ intsetRandom five rand tt = Ret v tt).
Proof.
  refine (random_is_member five {[ 5 ]} tt five_represents _).
  rewrite size_singleton. unfold room. lia.
Defined.
