(* ===== verification/Util.v ===== *)
(** util.c of the Redis the project ships: the conversions between integers and
    their decimal text. A text is a buffer of bytes with its length, as the C
    code passes it; characters are their ASCII codes. *)
From S2P Require Import Prelude.
From Stdlib Require Import String Ascii.
#[local] Open Scope Z_scope.

Definition LLONG_MIN : Z := -9223372036854775808.
Definition LLONG_MAX : Z := 9223372036854775807.
Definition ULLONG_MAX : Z := 18446744073709551615.
Definition u64 (x : Z) : Z := x mod 18446744073709551616.
Definition i64 (x : Z) : Z := (x + 9223372036854775808) mod 18446744073709551616 - 9223372036854775808.

(** The static table of [ll2string], with the zero that ends the literal. *)
Definition digits : list Z :=
  map (fun c => Z.of_nat (nat_of_ascii c)) (list_ascii_of_string (
    "0001020304050607080910111213141516171819" ++
    "2021222324252627282930313233343536373839" ++
    "4041424344454647484950515253545556575859" ++
    "6061626364656667686970717273747576777879" ++
    "8081828384858687888990919293949596979899")%string) ++ [0].

Section util.
Context {S : Type}.

(** The recursion divides by 10^12, so a 64-bit number needs two levels. *)
Fixpoint digits10_rec (fuel : nat) (v : Z) : M S Z :=
  match fuel with
  | O => fun _ => NoFuel
  | Datatypes.S fuel =>
      if v <? 10 then ret 1
      else if v <? 100 then ret 2
      else if v <? 1000 then ret 3
      else if v <? 1000000000000 then
        if v <? 100000000 then
          if v <? 1000000 then
            if v <? 10000 then ret 4 else ret (5 + b2z (100000 <=? v))
          else ret (7 + b2z (10000000 <=? v))
        else if v <? 10000000000 then ret (9 + b2z (1000000000 <=? v))
        else ret (11 + b2z (100000000000 <=? v))
      else let* r := digits10_rec fuel (v / 1000000000000) in ret (u32 (12 + r))
  end.
Definition digits10 (v : Z) : M S Z := digits10_rec 2 v.

(** [(uint64_t)-v]. *)
Definition sdigits10 (v : Z) : M S Z :=
  if v <? 0 then
    let uv := if negb (v =? LLONG_MIN) then u64 (- v) else u64 (LLONG_MAX + 1) in
    let* r := digits10 uv in ret (u32 (r + 1))
  else digits10 v.

(** The buffer and the result. *)
Definition ll2string (dst : buf) (dstlen svalue : Z) : M S (buf * Z) :=
  let '(value, negative) :=
    if svalue <? 0 then
      (if negb (svalue =? LLONG_MIN) then (u64 (- svalue), 1) else (u64 (LLONG_MAX + 1), 1))
    else (u64 svalue, 0) in
  let* d := digits10 value in
  let length := u32 (d + negative) in
  if dstlen <=? length then ret (dst, 0)
  else
    let* dst := wr dst length 0 in
    let* r := while_loop 11 (fun '(value, next, dst) =>
      if 100 <=? value then
        let i := i32 (value mod 100 * 2) in
        let value := value / 100 in
        let* x := arr_get digits (i + 1) in
        let* dst := wr dst next x in
        let* y := arr_get digits i in
        let* dst := wr dst (u32 (next - 1)) y in
        ret (inl (value, u32 (next - 2), dst))
      else ret (inr (value, next, dst))) (value, u32 (length - 1), dst) in
    let '(value, next, dst) := r in
    let* dst := (if value <? 10 then wr dst next (48 + u32 value)
                 else
                   let i := i32 (u32 value * 2) in
                   let* x := arr_get digits (i + 1) in
                   let* dst := wr dst next x in
                   let* y := arr_get digits i in
                   wr dst (u32 (next - 1)) y) in
    let* dst := (if negb (negative =? 0) then wr dst 0 45 else ret dst) in
    ret (dst, i32 length).

(** The result, and the value stored when it is 1. [plen] is also the distance
    of [p] from [s]. *)
Definition string2ll (s : buf) (slen : Z) : M S (Z * option Z) :=
  if slen =? 0 then ret (0, None)
  else
    let* c := rd s 0 in
    if (slen =? 1) && (c =? 48) then ret (1, Some 0)
    else
      let '(negative, plen) := if c =? 45 then (1, 1) else (0, 0) in
      if negb (negative =? 0) && (plen =? slen) then ret (0, None)
      else
        let* c := rd s plen in
        if (49 <=? c) && (c <=? 57) then
          let* r := while_loop (Z.to_nat (slen + 1)) (fun '(v, plen) =>
            if plen <? slen then
              let* c := rd s plen in
              if (48 <=? c) && (c <=? 57) then
                if ULLONG_MAX / 10 <? v then ret (inr None)
                else
                  let v := u64 (v * 10) in
                  if ULLONG_MAX - (c - 48) <? v then ret (inr None)
                  else ret (inl (u64 (v + (c - 48)), plen + 1))
              else ret (inr (Some (v, plen)))
            else ret (inr (Some (v, plen)))) (c - 48, plen + 1) in
          match r with
          | None => ret (0, None)
          | Some (v, plen) =>
              if plen <? slen then ret (0, None)
              else if negb (negative =? 0) then
                if u64 (- (LLONG_MIN + 1)) + 1 <? v then ret (0, None) else ret (1, Some (i64 (- v)))
              else if LLONG_MAX <? v then ret (0, None) else ret (1, Some (i64 v))
          end
        else ret (0, None).

(** [PORT_LONG] has 64 bits in a 64-bit build and 32 in a 32-bit one. *)
Definition string2l (PORT_LONG_MIN PORT_LONG_MAX : Z) (s : buf) (slen : Z) : M S (Z * option Z) :=
  let* (r, llval) := string2ll s slen in
  match llval with
  | Some llval =>
      if r =? 0 then ret (0, None)
      else if (llval <? PORT_LONG_MIN) || (PORT_LONG_MAX <? llval) then ret (0, None)
      else ret (1, Some llval)
  | None => ret (0, None)
  end.
End util.
