(* ===== verification/Decimal.v ===== *)
(** Decimal texts: what util.c takes for the text of an integer, the proofs that
    [string2ll] accepts exactly these and that [ll2string] writes them. *)
From S2P Require Import Prelude Util.
#[local] Open Scope Z_scope.

(** ** Numerals *)
Definition is_digit (c : Z) : Prop := 48 <= c <= 57.
Definition value (l : list Z) : Z := foldl (fun v c => 10 * v + (c - 48)) 0 l.
(** The digits of a natural number, without superfluous zeros in front. *)
Definition numeral (l : list Z) (v : Z) : Prop :=
  Forall is_digit l /\ l <> [] /\ (l !! 0%nat = Some 48 -> l = [48]) /\ v = value l.
(** The text of an integer. *)
Definition decimal (l : list Z) (v : Z) : Prop :=
  if v <? 0 then exists l', l = 45 :: l' /\ numeral l' (- v) else numeral l v.
Definition is_ll (v : Z) : Prop := LLONG_MIN <= v <= LLONG_MAX.

Lemma value_snoc l c : value (l ++ [c]) = 10 * value l + (c - 48).
Proof. unfold value. by rewrite foldl_app. Qed.
Lemma fold_ge q : forall a, 0 <= a -> Forall is_digit q -> a <= foldl (fun v c => 10 * v + (c - 48)) a q.
Proof.
  induction q as [|c q IH]; intros a Ha Hq; cbn [foldl]; [lia|]. apply Forall_cons in Hq as [Hc Hq].
  unfold is_digit in Hc. specialize (IH (10 * a + (c - 48)) ltac:(lia) Hq). lia.
Qed.
Lemma value_nonneg l : Forall is_digit l -> 0 <= value l.
Proof. intros Hl. by apply fold_ge. Qed.
Lemma value_prefix p q : Forall is_digit (p ++ q) -> value p <= value (p ++ q).
Proof.
  intros [Hp Hq]%Forall_app. unfold value at 2. rewrite foldl_app. apply fold_ge; [by apply value_nonneg|done].
Qed.

(** Appending a digit to a numeral other than "0" multiplies by ten. *)
Lemma numeral_snoc l v d : numeral l v -> 0 < v -> 0 <= d <= 9 -> numeral (l ++ [48 + d]) (10 * v + d).
Proof.
  intros (Hl & Hne & Hz & ->) Hv Hd. split_and!.
  - apply Forall_app. split; [done|]. apply Forall_singleton. unfold is_digit. lia.
  - by destruct l.
  - destruct l as [|c l]; [done|]. cbn. intros [= ->]. rewrite (Hz eq_refl) in Hv. done.
  - rewrite value_snoc. lia.
Qed.
Lemma numeral_digit d : 0 <= d <= 9 -> numeral [48 + d] d.
Proof.
  intros Hd. split_and!; [apply Forall_singleton; unfold is_digit; lia|done| |unfold value; cbn [foldl]; lia].
  by intros [= ->].
Qed.
(** The last digit of a numeral of more than one digit. *)
Lemma numeral_last l v : numeral l v -> 10 <= v ->
  exists l', l = l' ++ [48 + v mod 10] /\ numeral l' (v / 10).
Proof.
  intros (Hl & Hne & Hz & Ev) Hv. destruct (exists_last Hne) as (l' & c & ->). exists l'.
  apply Forall_app in Hl as [Hl' Hc]. rewrite Forall_singleton in Hc. unfold is_digit in Hc.
  rewrite value_snoc in Ev. pose proof (value_nonneg _ Hl').
  assert (Hm : v mod 10 = c - 48) by zdiv.
  assert (Hd : v / 10 = value l') by zdiv.
  split; [do 2 f_equal; lia|]. split_and!; [done| |..|done].
  - intros ->. unfold value in Ev; cbn [foldl] in Ev. lia.
  - intros H0. rewrite lookup_app_l in Hz by (by eapply lookup_lt_Some).
    pose proof (Hz H0) as E. by destruct l' as [|? [|]].
Qed.
Lemma numeral_small l v : numeral l v -> v < 10 -> l = [48 + v].
Proof.
  intros (Hl & Hne & Hz & Ev) Hv. destruct (exists_last Hne) as (l' & c & ->).
  apply Forall_app in Hl as [Hl' Hc]. rewrite Forall_singleton in Hc. unfold is_digit in Hc.
  rewrite value_snoc in Ev. pose proof (value_nonneg _ Hl').
  destruct l' as [|a l']; [unfold value in Ev; cbn [foldl app] in *; f_equal; lia|]. exfalso. assert (E0 : value (a :: l') = 0) by lia.
  pose proof (value_prefix [a] l' Hl') as Hp. cbn [app] in Hp. rewrite E0 in Hp.
  apply Forall_cons in Hl' as [Ha _]. unfold is_digit in Ha. cbn in Hp. assert (a = 48) as -> by lia.
  specialize (Hz eq_refl). by destruct l'.
Qed.

(** Every natural number has exactly one numeral. *)
Lemma numeral_exists v : 0 <= v -> exists l, numeral l v.
Proof.
  intros Hv. revert v Hv. apply (Zlt_0_ind (fun v => exists l, numeral l v)). intros v IH Hv.
  destruct (Z_lt_le_dec v 10) as [?|?]; [exists [48 + v]; apply numeral_digit; lia|].
  destruct (IH (v / 10)) as [m Hm]; [zdiv|]. exists (m ++ [48 + v mod 10]).
  replace v with (10 * (v / 10) + v mod 10) at 2 by zdiv. apply numeral_snoc; [done|zdiv|zdiv].
Qed.
Lemma numeral_unique v : 0 <= v -> forall l l', numeral l v -> numeral l' v -> l = l'.
Proof.
  revert v. apply (Zlt_0_ind (fun v => forall l l', numeral l v -> numeral l' v -> l = l')). intros v IH Hv l l' H H'.
  destruct (Z_lt_le_dec v 10); [by rewrite (numeral_small _ _ H), (numeral_small _ _ H')|].
  destruct (numeral_last _ _ H) as (p & -> & Hp); [done|].
  destruct (numeral_last _ _ H') as (p' & -> & Hp'); [done|]. f_equal. apply (IH (v / 10)); [zdiv|done..].
Qed.

(** How many digits there are. *)
Lemma numeral_bounds v : 0 <= v -> forall l, numeral l v -> v < 10 ^ zlen l /\ (0 < v -> 10 ^ (zlen l - 1) <= v).
Proof.
  revert v. apply (Zlt_0_ind (fun v => forall l, numeral l v -> v < 10 ^ zlen l /\ (0 < v -> 10 ^ (zlen l - 1) <= v))).
  intros v IH Hv l H. destruct (Z_lt_le_dec v 10).
  - rewrite (numeral_small _ _ H) by done. change (zlen [48 + v]) with 1. change (10 ^ 1) with 10. change (10 ^ (1 - 1)) with 1. lia.
  - destruct (numeral_last _ _ H) as (p & -> & Hp); [done|].
    destruct (IH (v / 10) ltac:(zdiv) p Hp) as [H1 H2]. specialize (H2 ltac:(zdiv)).
    assert (Hz : zlen (p ++ [48 + v mod 10]) = zlen p + 1) by (unfold zlen; rewrite length_app; cbn [length]; lia).
    rewrite Hz. assert (Hpos : 1 <= zlen p) by (destruct Hp as (_ & Hne & _); destruct p; [done|unfold zlen; cbn [length]; lia]).
    rewrite Z.pow_add_r by lia. replace (zlen p + 1 - 1) with (zlen p - 1 + 1) by lia.
    rewrite Z.pow_add_r by lia. change (10 ^ 1) with 10. split; [zdiv|]. intros _. zdiv.
Qed.
Lemma numeral_length l v n : numeral l v -> 0 < v -> 10 ^ (n - 1) <= v < 10 ^ n -> 1 <= n -> zlen l = n.
Proof.
  intros Hl Hv [H1 H2] Hn. destruct (numeral_bounds v ltac:(lia) l Hl) as [H3 H4]. specialize (H4 Hv).
  assert (zlen l - 1 < n) by (apply (Z.pow_lt_mono_r_iff 10); unfold zlen in *; lia).
  assert (n - 1 < zlen l) by (apply (Z.pow_lt_mono_r_iff 10); unfold zlen in *; lia). lia.
Qed.

(** ** Counting digits *)
Definition digit_count (v n : Z) : Prop := 1 <= n <= 20 /\ v < 10 ^ n /\ (10 <= v \/ 2 <= n -> 10 ^ (n - 1) <= v).

Lemma digit_count_length l v n : numeral l v -> 0 <= v -> digit_count v n -> zlen l = n.
Proof.
  intros Hl Hv (Hn & H1 & H2). destruct (Z_lt_le_dec v 10) as [Hlt|Hge].
  - rewrite (numeral_small _ _ Hl) by done. change (zlen [48 + v]) with 1.
    destruct (Z.eq_dec n 1); [done|]. specialize (H2 ltac:(lia)).
    pose proof (Z.pow_le_mono_r 10 1 (n - 1) ltac:(lia) ltac:(lia)). lia.
  - eapply numeral_length; [done|lia|split; [apply H2; lia|done]|lia].
Qed.

Section counting.
Context {S : Type}.
Implicit Types s : S.

Ltac count := eexists; split; [reflexivity|]; unfold digit_count, b2z; repeat case_match; cbn; lia.
Lemma digits10_small fuel v s : 0 <= v < 1000000000000 ->
  exists n, digits10_rec (Datatypes.S fuel) v s = Ret n s /\ digit_count v n /\ n <= 12.
Proof.
  intros Hv. cbn [digits10_rec].
  destruct (Z.ltb_spec v 10); [count|]. destruct (Z.ltb_spec v 100); [count|].
  destruct (Z.ltb_spec v 1000); [count|]. rewrite (proj2 (Z.ltb_lt v 1000000000000)) by lia.
  destruct (Z.ltb_spec v 100000000).
  - destruct (Z.ltb_spec v 1000000); [destruct (Z.ltb_spec v 10000)|]; count.
  - destruct (Z.ltb_spec v 10000000000); count.
Qed.
Lemma digits10_ok v s : 0 <= v <= ULLONG_MAX -> exists n, digits10 v s = Ret n s /\ digit_count v n.
Proof.
  unfold ULLONG_MAX. intros Hv. unfold digits10. destruct (Z_lt_le_dec v 1000000000000) as [Hlt|Hge].
  - destruct (digits10_small 1 v s) as (n & E & Hn & _); [lia|]. eauto.
  - assert (Hq : 1 <= v / 1000000000000 < 18446745) by zdiv.
    destruct (digits10_small 0 (v / 1000000000000) s) as (n & E & (Hn & H1 & H2) & _); [lia|].
    exists (12 + n). change (digits10_rec 2 v) with (digits10_rec (S := S) (Datatypes.S 1) v). cbn [digits10_rec].
    rewrite !(proj2 (Z.ltb_ge v _)) by lia. cbn [digits10_rec] in E. erewrite bind_ret_eq by exact E.
    assert (Hn8 : n <= 8).
    { destruct (Z_le_gt_dec n 8); [done|]. specialize (H2 ltac:(lia)).
      pose proof (Z.pow_le_mono_r 10 8 (n - 1) ltac:(lia) ltac:(lia)). lia. }
    split; [unfold ret; rewrite u32_id; [done|unfold is_u32; lia]|].
    split; [lia|]. rewrite Z.pow_add_r by lia. change (10 ^ 12) with 1000000000000. split; [zdiv|]. intros _.
    replace (12 + n - 1) with (12 + (n - 1)) by lia. rewrite Z.pow_add_r by lia. change (10 ^ 12) with 1000000000000.
    destruct (Z.eq_dec n 1) as [->|]; [cbn; lia|]. specialize (H2 ltac:(lia)). zdiv.
Qed.
End counting.

(** ** Reading a number *)
Section reading.
Context {S : Type}.
Implicit Types s : S.

(** The digits read so far. *)
Definition reading (sign m : list Z) (a : Z * Z) : Prop :=
  let '(v, plen) := a in exists k, plen = zlen sign + Z.of_nat k /\ (1 <= k <= length m)%nat /\
    Forall is_digit (take k m) /\ v = value (take k m) /\ v <= ULLONG_MAX.
(** How the loop over the digits ends. *)
Definition digits_read (sign m : list Z) (r : option (Z * Z)) : Prop :=
  match r with
  | None => forall w, numeral m w -> ULLONG_MAX < w
  | Some (v, plen) => 0 <= v <= ULLONG_MAX /\
      ((plen = zlen sign + zlen m /\ numeral m v) \/
       (plen < zlen sign + zlen m /\ forall w, ~ numeral m w))
  end.

Lemma read_digit (sign m : list Z) rest k c s : m !! k = Some c ->
  rd ((Some <$> sign ++ m) ++ rest) (zlen sign + Z.of_nat k) s = Ret c s.
Proof.
  intros Hc. apply rd_eq; [unfold zlen; lia|]. pose proof (lookup_lt_Some _ _ _ Hc).
  rewrite lookup_app_l by (rewrite length_fmap, length_app; unfold zlen; lia).
  rewrite list_lookup_fmap, lookup_app_r by (unfold zlen; lia).
  replace (Z.to_nat _ - _)%nat with k by (unfold zlen; lia). by rewrite Hc.
Qed.

Lemma numeral_ge m w k c : numeral m w -> m !! k = Some c -> 10 * value (take k m) + (c - 48) <= w.
Proof.
  intros (Hm & _ & _ & ->) Hc. rewrite <- value_snoc, <- (take_S_r _ _ _ Hc).
  rewrite <- (take_drop (Datatypes.S k) m) at 2. apply value_prefix. by rewrite take_drop.
Qed.

Lemma read_digits sign m rest c s : m !! 0%nat = Some c -> 49 <= c <= 57 ->
  let text := (Some <$> sign ++ m) ++ rest in let slen := zlen sign + zlen m in
  wp (while_loop (Z.to_nat (slen + 1)) (fun '(v, plen) =>
        if plen <? slen then
          let* c := rd text plen in
          if (48 <=? c) && (c <=? 57) then
            if ULLONG_MAX / 10 <? v then ret (inr None)
            else
              let v := u64 (v * 10) in
              if ULLONG_MAX - (c - 48) <? v then ret (inr None)
              else ret (inl (u64 (v + (c - 48)), plen + 1))
          else ret (inr (Some (v, plen)))
        else ret (inr (Some (v, plen)))) (c - 48, zlen sign + 1))
    (fun r s' => s' = s /\ digits_read sign m r) s.
Proof.
  intros Hc Hc' text slen.
  apply (wp_while _ (fun a s' => s' = s /\ reading sign m a) (fun a _ => Z.to_nat (slen - snd a))).
  - intros [v plen] s' [-> (k & -> & Hk & Hd & -> & Hmax)]. pose proof (value_nonneg _ Hd) as H0.
    unfold ULLONG_MAX in *. destruct (Z.ltb_spec (zlen sign + Z.of_nat k) slen) as [Hlt|Hge].
    + destruct (lookup_lt_is_Some_2 m k) as [d Hdk]; [unfold slen, zlen in *; lia|].
      apply wp_bind. eapply wp_eq; [by apply read_digit|].
      destruct ((48 <=? d) && (d <=? 57)) eqn:Ed.
      * assert (Hdig : is_digit d) by (unfold is_digit; lia). cbv zeta.
        change (18446744073709551615 / 10) with 1844674407370955161.
        destruct (Z.ltb_spec 1844674407370955161 (value (take k m))) as [Hbig|Hsmall].
        { apply wp_ret. split; [done|]. intros w Hw. pose proof (numeral_ge m w k d Hw Hdk). unfold ULLONG_MAX. lia. }
        assert (Hu : u64 (value (take k m) * 10) = value (take k m) * 10) by (apply Z.mod_small; lia). rewrite Hu.
        destruct (Z.ltb_spec (18446744073709551615 - (d - 48)) (value (take k m) * 10)) as [Hbig'|Hsmall'].
        { apply wp_ret. split; [done|]. intros w Hw. pose proof (numeral_ge m w k d Hw Hdk). unfold ULLONG_MAX. lia. }
        assert (Hu' : u64 (value (take k m) * 10 + (d - 48)) = 10 * value (take k m) + (d - 48)).
        { unfold is_digit in Hdig. unfold u64. rewrite Z.mod_small; lia. }
        rewrite Hu'. apply wp_ret. split; [split; [done|]|cbn [snd]; lia].
        exists (Datatypes.S k). rewrite (take_S_r _ _ _ Hdk), value_snoc.
        split_and!; [lia|lia|unfold slen, zlen in *; lia| |done|unfold ULLONG_MAX; lia].
        apply Forall_app. split; [done|]. by apply Forall_singleton.
      * apply wp_ret. split; [done|]. split; [unfold ULLONG_MAX; lia|]. right. split; [done|].
        intros w (Hm & _). pose proof (Forall_lookup_1 _ _ _ _ Hm Hdk) as Hdig. unfold is_digit in Hdig. lia.
    + apply wp_ret. split; [done|]. assert (k = length m) as -> by (unfold slen, zlen in *; lia).
      rewrite firstn_all in *. split; [unfold ULLONG_MAX; lia|]. left. split; [done|].
      split_and!; [done|by intros ->|rewrite Hc; intros [= ->]; lia|done].
  - split; [done|]. pose proof (lookup_lt_Some _ _ _ Hc). exists 1%nat. rewrite (take_S_r _ _ _ Hc), value_snoc.
    change (take 0 m) with (@nil Z). change (value []) with 0. unfold ULLONG_MAX. split_and!; try lia.
    apply Forall_singleton. unfold is_digit. lia.
  - cbn [snd]. unfold slen, zlen. lia.
Qed.

(** The outcome of parsing a text. *)
Definition parsed (l : list Z) (a : Z * option Z) : Prop :=
  match snd a with
  | Some v => fst a = 1 /\ decimal l v /\ is_ll v
  | None => fst a = 0 /\ forall v, is_ll v -> ~ decimal l v
  end.

Lemma numeral_nonneg m w : numeral m w -> 0 <= w.
Proof. intros (Hm & _ & _ & ->). by apply value_nonneg. Qed.
Lemma decimal_unsigned m v : m !! 0%nat <> Some 45 -> decimal m v <-> numeral m v.
Proof.
  intros Hm. unfold decimal. destruct (Z.ltb_spec v 0); [|done]. split.
  - intros (l' & -> & _). by destruct Hm.
  - intros Hn%numeral_nonneg. lia.
Qed.
Lemma decimal_signed m v : decimal (45 :: m) v <-> v < 0 /\ numeral m (- v).
Proof.
  unfold decimal. destruct (Z.ltb_spec v 0).
  - split; [by intros (l' & [= <-] & Hn)|]. intros [_ Hn]. eauto.
  - split; [|lia]. intros ([Hd _]%Forall_cons & _). unfold is_digit in Hd. lia.
Qed.

(** What follows the sign. *)
Lemma parse_digits (negative : Z) sign m rest c s : m !! 0%nat = Some c ->
  (negative = 0 /\ sign = [] /\ c <> 45 /\ m <> [48]) \/ (negative = 1 /\ sign = [45]) ->
  let text := (Some <$> sign ++ m) ++ rest in let slen := zlen sign + zlen m in
  wp (let* c := rd text (zlen sign) in
      if (49 <=? c) && (c <=? 57) then
        let* r := while_loop (Z.to_nat (slen + 1)) (fun '(v, plen) =>
          if plen <? slen then
            let* c := rd text plen in
            if (48 <=? c) && (c <=? 57) then
              if ULLONG_MAX / 10 <? v then ret (inr None)
              else
                let v := u64 (v * 10) in
                if ULLONG_MAX - (c - 48) <? v then ret (inr None)
                else ret (inl (u64 (v + (c - 48)), plen + 1))
            else ret (inr (Some (v, plen)))
          else ret (inr (Some (v, plen)))) (c - 48, zlen sign + 1) in
        match r with
        | None => ret (0, None)
        | Some (v, plen) =>
            if plen <? slen then ret (0, None)
            else if negb (negative =? 0) then
              if u64 (- (LLONG_MIN + 1)) + 1 <? v then ret (0, None) else ret (1, Some (i64 (- v)))
            else if LLONG_MAX <? v then ret (0, None) else ret (1, Some (i64 v))
        end
      else ret (0, None)) (fun a s' => s' = s /\ parsed (sign ++ m) a) s.
Proof.
  intros Hc Hsign text slen. change (u64 (- (LLONG_MIN + 1)) + 1) with 9223372036854775808.
  assert (Hdec : forall v, decimal (sign ++ m) v <-> if negative =? 0 then numeral m v else v < 0 /\ numeral m (- v)).
  { intros v. destruct Hsign as [(-> & -> & Hne & _)|[-> ->]]; cbn [Z.eqb app].
    - apply decimal_unsigned. rewrite Hc. by intros [= ->].
    - apply decimal_signed. }
  assert (Hno : (forall w, numeral m w -> negative <> 0 /\ w = 0) -> forall v, is_ll v -> ~ decimal (sign ++ m) v).
  { intros H v _ Hv. apply Hdec in Hv. destruct (Z.eqb_spec negative 0); [by apply H in Hv as [? _]|].
    destruct Hv as [Hv [_ Hw]%H]. lia. }
  apply wp_bind. eapply wp_eq; [rewrite <- (Z.add_0_r (zlen sign)); by apply (read_digit sign m rest 0)|].
  destruct ((49 <=? c) && (c <=? 57)) eqn:Ec.
  - apply wp_bind. eapply wp_mono; [apply read_digits; [done|lia]|].
    unfold is_ll, LLONG_MIN, LLONG_MAX in *.
    intros [[v plen]|] s' [-> Hr]; cbn [digits_read] in Hr.
    + destruct Hr as [Hv [[-> Hn]|[Hlt Hn]]]; subst slen.
      * rewrite Z.ltb_irrefl. assert (Hi : forall x, is_ll x -> i64 x = x).
        { unfold is_ll, LLONG_MIN, LLONG_MAX, i64. intros x Hx. rewrite Z.mod_small by lia. lia. }
        unfold is_ll, LLONG_MIN, LLONG_MAX in Hi.
        assert (Huniq : forall w, numeral m w -> w = v) by (intros w (_ & _ & _ & ->); by destruct Hn as (_ & _ & _ & ->)).
        destruct (negative =? 0) eqn:En; cbn [negb].
        -- destruct (Z.ltb_spec 9223372036854775807 v); apply wp_ret; (split; [done|]); (split; [done|]); cbn [snd].
           ++ intros w Hw Hdw. apply Hdec, Huniq in Hdw. unfold is_ll, LLONG_MIN, LLONG_MAX in Hw. lia.
           ++ rewrite Hi by lia. split; [by apply Hdec|unfold is_ll, LLONG_MIN, LLONG_MAX; lia].
        -- destruct (Z.ltb_spec 9223372036854775808 v); apply wp_ret; (split; [done|]); (split; [done|]); cbn [snd].
           ++ intros w Hw Hdw. apply Hdec in Hdw as [_ Hdw%Huniq]. unfold is_ll, LLONG_MIN, LLONG_MAX in Hw. lia.
           ++ rewrite Hi by lia. split; [|unfold is_ll, LLONG_MIN, LLONG_MAX; lia]. apply Hdec.
              pose proof (numeral_ge m v 0 c Hn Hc) as Hge. change (value (take 0 m)) with 0 in Hge.
              rewrite Z.opp_involutive. split; [lia|done].
      * rewrite (proj2 (Z.ltb_lt _ _)) by done. apply wp_ret. split; [done|]. split; [done|]. apply Hno.
        intros w Hw. by destruct (Hn w).
    + apply wp_ret. split; [done|]. split; [done|]. intros v Hv Hd. apply Hdec in Hd.
      unfold ULLONG_MAX, is_ll, LLONG_MIN, LLONG_MAX in *. destruct (negative =? 0); [apply Hr in Hd|destruct Hd as [_ Hd%Hr]]; lia.
  - apply wp_ret. split; [done|]. split; [done|]. apply Hno. intros w (Hm & _ & Hz & ->).
    pose proof (Forall_lookup_1 _ _ _ _ Hm Hc) as Hd. unfold is_digit in Hd. assert (c = 48) as -> by lia.
    specialize (Hz Hc). destruct Hsign as [(_ & _ & _ & Hne)|[-> _]]; [done|]. split; [lia|]. by rewrite Hz.
Qed.

Lemma string2ll_ok l rest s :
  wp (string2ll ((Some <$> l) ++ rest) (zlen l)) (fun a s' => s' = s /\ parsed l a) s.
Proof.
  unfold string2ll. destruct l as [|c0 l].
  - apply wp_ret. split; [done|]. split; [done|]. intros v _. unfold decimal.
    destruct (v <? 0); [by intros (? & ? & _)|by intros (_ & ? & _)].
  - assert (Hz : zlen (c0 :: l) = 1 + zlen l) by (unfold zlen; cbn [length]; lia).
    pose proof (zlen_nonneg l) as H0. rewrite (proj2 (Z.eqb_neq (zlen (c0 :: l)) 0)) by lia.
    apply wp_bind. eapply wp_eq; [by apply (read_digit [] (c0 :: l) rest 0)|].
    destruct ((zlen (c0 :: l) =? 1) && (c0 =? 48)) eqn:E0.
    { apply wp_ret. split; [done|]. apply andb_true_iff in E0 as [E0%Z.eqb_eq ->%Z.eqb_eq].
      destruct l as [|c l]; [|unfold zlen in *; cbn [length] in *; lia].
      split; [done|]. split; [|unfold is_ll, LLONG_MIN, LLONG_MAX; lia].
      apply (numeral_digit 0). lia. }
    destruct (Z.eqb_spec c0 45) as [->|Hne]; cbn beta iota.
    + destruct l as [|c l].
      { apply wp_ret. split; [done|]. split; [done|]. intros v _ [_ (_ & ? & _)]%decimal_signed. done. }
      change (negb (1 =? 0)) with true. cbn [andb]. rewrite (proj2 (Z.eqb_neq 1 (zlen (45 :: c :: l)))) by (unfold zlen; cbn [length]; lia).
      rewrite Hz. by apply (parse_digits 1 [45] (c :: l) rest c); [|right].
    + apply (parse_digits 0 [] (c0 :: l) rest c0); [done|]. left. split_and!; [done..|].
      intros [= -> ->]. change (zlen [48]) with 1 in E0. done.
Qed.
End reading.

(** ** Writing a number *)
Lemma digits_table x : 0 <= x < 100 ->
  digits !! Z.to_nat (x * 2) = Some (48 + x / 10) /\ digits !! Z.to_nat (x * 2 + 1) = Some (48 + x mod 10).
Proof.
  intros Hx. assert (Hall : Forall (fun x => digits !! Z.to_nat (x * 2) = Some (48 + x / 10) /\
    digits !! Z.to_nat (x * 2 + 1) = Some (48 + x mod 10)) (seqZ 0 100)).
  { apply Forall_forall. rewrite <- Forall_forall. by repeat constructor. }
  rewrite Forall_forall in Hall. apply Hall, elem_of_seqZ. lia.
Qed.

(** The last two digits of a numeral of at least three, and of one of two. *)
Lemma numeral_last_two l v : numeral l v -> 100 <= v -> exists l',
  l = l' ++ [48 + v mod 100 / 10; 48 + v mod 100 mod 10] /\ numeral l' (v / 100).
Proof.
  intros Hl Hv. destruct (numeral_last l v Hl) as (l1 & -> & H1); [lia|].
  destruct (numeral_last l1 _ H1) as (l2 & -> & H2); [zdiv|]. exists l2.
  replace (v / 100) with (v / 10 / 10) by zdiv. split; [|done].
  rewrite <- (assoc_L app). cbn [app]. do 3 f_equal; [zdiv|f_equal; zdiv].
Qed.
Lemma numeral_two l v : numeral l v -> 10 <= v < 100 -> l = [48 + v / 10; 48 + v mod 10].
Proof.
  intros Hl Hv. destruct (numeral_last l v Hl) as (l1 & -> & H1); [lia|].
  by rewrite (numeral_small l1 _ H1) by zdiv.
Qed.

Section writing.
Context {S : Type}.
Implicit Types s : S.

(** [dst'] holds the digits of [L] from the [k]-th on behind [neg] characters,
    and otherwise what [dst] holds. *)
Definition written (neg : Z) (L : list Z) (dst dst' : buf) (k : nat) : Prop :=
  zlen dst' = zlen dst /\ forall j, 0 <= j -> dst' !! Z.to_nat j =
    if decide (neg + Z.of_nat k <= j < neg + zlen L) then Some <$> L !! Z.to_nat (j - neg) else dst !! Z.to_nat j.

(** One more digit in front. *)
Lemma write_digit neg L dst dst' k c s : 0 <= neg -> neg + zlen L <= zlen dst -> is_digit c ->
  written neg L dst dst' (Datatypes.S k) -> L !! k = Some c ->
  exists dst'', wr dst' (neg + Z.of_nat k) c s = Ret dst'' s /\ written neg L dst dst'' k.
Proof.
  intros Hneg Hlen Hc [Hz Hw] Hk. pose proof (lookup_lt_Some _ _ _ Hk). eexists. split.
  { apply wr_eq. unfold zlen in *. lia. }
  unfold written. rewrite u8_id by (unfold is_digit, is_u8 in *; lia).
  split; [unfold zlen in *; by rewrite length_insert|]. intros j Hj.
  destruct (Z.eq_dec j (neg + Z.of_nat k)) as [->|Hne].
  - rewrite list_lookup_insert_eq by (unfold zlen in *; lia). rewrite decide_True by (unfold zlen; lia).
    replace (Z.to_nat (neg + Z.of_nat k - neg)) with k by lia. by rewrite Hk.
  - rewrite list_lookup_insert_ne by lia. rewrite Hw by done.
    destruct (decide (neg + Z.of_nat (Datatypes.S k) <= j < neg + zlen L));
      [by rewrite decide_True by lia|by rewrite decide_False by lia].
Qed.

Lemma write_two neg L dst dst' k l1 v s : 0 <= neg -> neg + zlen L <= zlen dst -> neg + zlen L < 100 ->
  0 <= v < 100 -> written neg L dst dst' k -> (k <= length L)%nat ->
  take k L = l1 ++ [48 + v / 10; 48 + v mod 10] ->
  exists x y d1 d2, arr_get digits (i32 (v * 2) + 1) s = Ret x s /\
    wr dst' (neg + Z.of_nat k - 1) x s = Ret d1 s /\
    arr_get digits (i32 (v * 2)) s = Ret y s /\
    wr d1 (u32 (neg + Z.of_nat k - 1 - 1)) y s = Ret d2 s /\
    written neg L dst d2 (k - 2) /\ (2 <= k)%nat /\ l1 = take (k - 2) L.
Proof.
  intros Hneg Hlen Hsmall Hv Hw Hk Ht. destruct (digits_table v Hv) as [D0 D1].
  assert (Hi : i32 (v * 2) = v * 2) by (unfold i32; rewrite Z.mod_small by lia; lia). rewrite Hi.
  assert (Hk2 : k = (length l1 + 2)%nat).
  { apply (f_equal length) in Ht. rewrite length_take, length_app in Ht. cbn [length] in Ht. lia. }
  set (n := length l1) in *. destruct (Nat.le_exists_sub 2 k) as (n' & Hn' & _); [lia|].
  assert (Hat : forall i, (i < k)%nat -> L !! i = (l1 ++ [48 + v / 10; 48 + v mod 10]) !! i).
  { intros i Hik. by rewrite <- Ht, lookup_take_lt. }
  assert (H1 : L !! Datatypes.S n = Some (48 + v mod 10)).
  { rewrite Hat by lia. rewrite lookup_app_r by (unfold n; lia). by replace (Datatypes.S n - length l1)%nat with 1%nat by (unfold n; lia). }
  assert (H0 : L !! n = Some (48 + v / 10)).
  { rewrite Hat by lia. rewrite lookup_app_r by (unfold n; lia). by replace (n - length l1)%nat with 0%nat by (unfold n; lia). }
  replace k with (Datatypes.S (Datatypes.S n)) in * by lia.
  destruct (write_digit neg L dst dst' (Datatypes.S n) (48 + v mod 10) s Hneg Hlen ltac:(unfold is_digit; zdiv) Hw H1) as (d1 & E1 & W1).
  destruct (write_digit neg L dst d1 n (48 + v / 10) s Hneg Hlen ltac:(unfold is_digit; zdiv) W1 H0) as (d2 & E2 & W2).
  exists (48 + v mod 10), (48 + v / 10), d1, d2. split_and!.
  - apply arr_get_eq; [lia|exact D1].
  - rewrite <- E1. f_equal. lia.
  - apply arr_get_eq; [lia|exact D0].
  - rewrite <- E2. f_equal. rewrite u32_id by (unfold is_u32, zlen in *; lia). lia.
  - by replace (Datatypes.S (Datatypes.S n) - 2)%nat with n by lia.
  - lia.
  - replace (Datatypes.S (Datatypes.S n) - 2)%nat with n by lia.
    assert (E : take n (take (Datatypes.S (Datatypes.S n)) L) = take n L) by (rewrite take_take; f_equal; lia).
    rewrite <- E, Ht. unfold n. by rewrite take_app_length.
Qed.

(** The loop that writes two digits at a time. *)
Lemma write_loop neg L v dst s : 0 <= neg -> neg + zlen L <= zlen dst -> neg + zlen L < 100 -> zlen L <= 20 ->
  numeral L v -> 0 <= v ->
  wp (while_loop 11 (fun '(value, next, dst) =>
      if 100 <=? value then
        let i := i32 (value mod 100 * 2) in
        let value := value / 100 in
        let* x := arr_get digits (i + 1) in
        let* dst := wr dst next x in
        let* y := arr_get digits i in
        let* dst := wr dst (u32 (next - 1)) y in
        ret (inl (value, u32 (next - 2), dst))
      else ret (inr (value, next, dst))) (v, neg + zlen L - 1, dst))
    (fun '(value, next, dst') s' => s' = s /\ 0 <= value < 100 /\ exists k, (k <= length L)%nat /\
       numeral (take k L) value /\ next = neg + Z.of_nat k - 1 /\ written neg L dst dst' k) s.
Proof.
  intros Hneg Hlen Hsmall H20 HL Hv.
  apply (wp_while _ (fun '(value, next, dst') s' => s' = s /\ 0 <= value /\ exists k, (k <= length L)%nat /\
       numeral (take k L) value /\ next = neg + Z.of_nat k - 1 /\ written neg L dst dst' k)
    (fun a _ => Z.to_nat ((snd (fst a) + 1 - neg) / 2))).
  - intros [[value next] dst'] s' (-> & H0 & k & Hk & Hn & -> & Hw). destruct (Z.leb_spec 100 value) as [Hge|Hlt].
    + destruct (numeral_last_two _ _ Hn Hge) as (l1 & Ht & Hn1). cbv zeta.
      destruct (write_two neg L dst dst' k l1 (value mod 100) s) as (x & y & d1 & d2 & E1 & E2 & E3 & E4 & Hw2 & Hk2 & Hl1);
        try done; try zdiv.
      apply wp_bind. eapply wp_eq; [exact E1|]. apply wp_bind. eapply wp_eq; [exact E2|].
      apply wp_bind. eapply wp_eq; [exact E3|]. apply wp_bind. eapply wp_eq; [exact E4|].
      assert (Hk3 : (3 <= k)%nat).
      { destruct Hn1 as (_ & Hne & _). rewrite Hl1 in Hne. destruct (decide (k = 2%nat)) as [->|]; [done|lia]. }
      assert (Hu : u32 (neg + Z.of_nat k - 1 - 2) = neg + Z.of_nat (k - 2) - 1).
      { rewrite u32_id by (unfold is_u32, zlen in *; lia). lia. }
      apply wp_ret. rewrite Hu. split.
      * split; [done|]. split; [zdiv|]. exists (k - 2)%nat. split_and!; [lia| |done|done]. by rewrite <- Hl1.
      * cbn [fst snd]. zdiv.
    + apply wp_ret. split; [done|]. split; [lia|]. eauto 10.
  - split; [done|]. split; [done|]. exists (length L). rewrite firstn_all. split_and!; [lia|done|done|].
    split; [done|]. intros j Hj. by rewrite decide_False by (unfold zlen; lia).
  - cbn [fst snd]. zdiv.
Qed.

(** The loop leaves one or two digits to write. *)
Lemma write_rest neg L v dst dst' k s : 0 <= neg -> neg + zlen L <= zlen dst -> neg + zlen L < 100 ->
  0 <= v < 100 -> (k <= length L)%nat -> numeral (take k L) v -> written neg L dst dst' k ->
  wp (if v <? 10 then wr dst' (neg + Z.of_nat k - 1) (48 + u32 v)
      else
        let i := i32 (u32 v * 2) in
        let* x := arr_get digits (i + 1) in
        let* dst := wr dst' (neg + Z.of_nat k - 1) x in
        let* y := arr_get digits i in
        wr dst (u32 (neg + Z.of_nat k - 1 - 1)) y)
    (fun dst'' s' => s' = s /\ written neg L dst dst'' 0) s.
Proof.
  intros Hneg Hlen Hsmall Hv Hk Hn Hw. rewrite !(u32_id v) by (unfold is_u32; lia).
  destruct (Z.ltb_spec v 10) as [Hlt|Hge].
  - pose proof (numeral_small _ _ Hn Hlt) as Ht. assert (k = 1%nat) as ->.
    { apply (f_equal length) in Ht. rewrite length_take in Ht. cbn [length] in Ht. lia. }
    destruct (write_digit neg L dst dst' 0 (48 + v) s) as (d & E & Hd); try done; [unfold is_digit; lia| |].
    { rewrite <- (lookup_take_lt L 1 0) by lia. by rewrite Ht. }
    eapply wp_eq; [|by split; [|exact Hd]]. rewrite <- E. f_equal. lia.
  - pose proof (numeral_two _ _ Hn ltac:(lia)) as Ht.
    destruct (write_two neg L dst dst' k [] v s) as (x & y & d1 & d2 & E1 & E2 & E3 & E4 & Hw2 & Hk2 & Hl1); try done.
    cbv zeta. apply wp_bind. eapply wp_eq; [exact E1|]. apply wp_bind. eapply wp_eq; [exact E2|].
    apply wp_bind. eapply wp_eq; [exact E3|]. eapply wp_eq; [exact E4|]. split; [done|].
    assert (k = 2%nat) as ->; [|exact Hw2].
    apply (f_equal length) in Ht. rewrite length_take in Ht. cbn [length] in Ht. lia.
Qed.

(** The buffer with a text and the zero behind it. *)
Definition text_in (l : list Z) (dst : buf) : buf := (Some <$> l) ++ Some 0 :: drop (Datatypes.S (length l)) dst.

Lemma written_text sign L dst dst1 dst' : zlen sign + zlen L < zlen dst ->
  written (zlen sign) L (<[Z.to_nat (zlen sign + zlen L) := Some 0]> dst) dst1 0 ->
  (forall i, (length sign <= i)%nat -> dst' !! i = dst1 !! i) ->
  (forall i c, sign !! i = Some c -> dst' !! i = Some (Some c)) ->
  dst' = text_in (sign ++ L) dst.
Proof.
  unfold zlen. intros Hlen [_ Hw] Hrest Hsign. unfold zlen in *.
  assert (Hl : length (sign ++ L) = Z.to_nat (Z.of_nat (length sign) + Z.of_nat (length L))) by (rewrite length_app; lia).
  apply list_eq. intros i. unfold text_in. destruct (decide (i < length sign)%nat) as [Hi|Hi].
  { destruct (lookup_lt_is_Some_2 sign i Hi) as [c Hc]. rewrite (Hsign i c Hc).
    rewrite lookup_app_l by (rewrite length_fmap, length_app; lia).
    by rewrite list_lookup_fmap, lookup_app_l, Hc by lia. }
  pose proof (Hw (Z.of_nat i) ltac:(lia)) as Hwi. rewrite Nat2Z.id in Hwi.
  rewrite Hrest, Hwi by lia.
  destruct (decide (i < length (sign ++ L))%nat) as [Hi'|Hi'].
  - rewrite decide_True by (rewrite length_app in Hi'; lia). rewrite lookup_app_l by (by rewrite length_fmap).
    rewrite list_lookup_fmap, lookup_app_r by lia. do 2 f_equal. lia.
  - rewrite decide_False by (rewrite length_app in Hi'; lia).
    rewrite lookup_app_r by (rewrite length_fmap; lia). rewrite length_fmap.
    destruct (Nat.eq_dec i (length (sign ++ L))) as [->|Hne].
    + rewrite Nat.sub_diag. cbn. rewrite <- Hl. apply list_lookup_insert_eq. lia.
    + rewrite list_lookup_insert_ne by lia. rewrite lookup_cons_ne_0 by lia. rewrite lookup_drop. f_equal. lia.
Qed.

(** The magnitude and the sign the conversion starts from. *)
Lemma ll_magnitude v : is_ll v ->
  (if v <? 0 then (if negb (v =? LLONG_MIN) then (u64 (- v), 1) else (u64 (LLONG_MAX + 1), 1)) else (u64 v, 0))
    = (Z.abs v, b2z (v <? 0)).
Proof.
  unfold is_ll, u64, LLONG_MIN, LLONG_MAX. intros Hv. destruct (Z.ltb_spec v 0).
  - destruct (Z.eqb_spec v (-9223372036854775808)) as [->|]; [done|]. cbn [negb]. rewrite Z.mod_small by lia.
    f_equal. lia.
  - rewrite Z.mod_small by lia. f_equal. lia.
Qed.
Lemma ll_digits v L : is_ll v -> numeral L (Z.abs v) -> zlen L <= 19.
Proof.
  unfold is_ll, LLONG_MIN, LLONG_MAX. intros Hv HL. destruct (Z_le_gt_dec (zlen L) 19); [done|].
  destruct (numeral_bounds (Z.abs v) ltac:(lia) L HL) as [_ Hb].
  destruct (Z.eq_dec v 0) as [->|]; [rewrite (numeral_small L 0 HL) by lia; done|]. specialize (Hb ltac:(lia)).
  pose proof (Z.pow_le_mono_r 10 19 (zlen L - 1) ltac:(lia) ltac:(lia)). lia.
Qed.

Lemma ll2string_ok dst dstlen v s : is_ll v -> 0 <= dstlen <= zlen dst ->
  exists l, decimal l v /\ zlen l <= 20 /\
    wp (ll2string dst dstlen v) (fun r s' => s' = s /\
      r = if dstlen <=? zlen l then (dst, 0) else (text_in l dst, zlen l)) s.
Proof.
  intros Hv Hd. destruct (numeral_exists (Z.abs v)) as [L HL]; [lia|].
  set (sign := if v <? 0 then [45] else []). exists (sign ++ L).
  assert (Hdec : decimal (sign ++ L) v).
  { unfold decimal, sign. destruct (Z.ltb_spec v 0); [exists L; split; [done|]|];
      [by replace (- v) with (Z.abs v) by lia|by replace v with (Z.abs v) by lia]. }
  pose proof Hv as Hll. unfold is_ll, LLONG_MIN, LLONG_MAX in Hv.
  destruct (digits10_ok (Z.abs v) s) as (n & En & Hn); [unfold ULLONG_MAX; lia|].
  pose proof (digit_count_length L _ n HL ltac:(lia) Hn) as HnL. pose proof (proj1 Hn) as Hn20.
  pose proof (ll_digits v L Hll HL) as HL19.
  assert (Hsign : zlen sign = b2z (v <? 0)) by (unfold sign, b2z; by destruct (v <? 0)).
  assert (Hlen : zlen (sign ++ L) = b2z (v <? 0) + n) by (rewrite zlen_app; lia).
  split; [done|]. split; [rewrite Hlen; unfold b2z; destruct (v <? 0); lia|].
  unfold ll2string.
  rewrite ll_magnitude by done. apply wp_bind. eapply wp_eq; [exact En|]. cbv zeta.
  assert (Hneg : 0 <= b2z (v <? 0) <= 1) by (unfold b2z; destruct (v <? 0); lia).
  rewrite !(u32_id (n + b2z (v <? 0))) by (unfold is_u32; lia).
  rewrite Hlen, (Z.add_comm n). destruct (Z.leb_spec dstlen (b2z (v <? 0) + n)); [by apply wp_ret|].
  apply wp_bind. eapply wp_eq; [apply wr_eq; lia|]. set (dst1 := <[_ := _]> dst).
  assert (Hz1 : zlen dst1 = zlen dst) by (unfold dst1, zlen; by rewrite length_insert).
  apply wp_bind. rewrite u32_id, <- HnL, <- Hsign by (unfold is_u32; lia).
  eapply wp_mono; [apply write_loop with (L := L) (dst := dst1); try done; lia|].
  intros [[value next] dst2] s' (-> & Hv2 & k & Hk & Hnk & -> & Hw). apply wp_bind.
  eapply wp_mono; [apply write_rest with (L := L) (dst := dst1); try done; lia|].
  intros dst3 s' [-> Hw3]. apply wp_bind.
  assert (Hi : i32 (zlen sign + zlen L) = zlen (sign ++ L)) by (rewrite zlen_app; unfold i32; rewrite Z.mod_small by lia; lia).
  unfold dst1 in Hw3. rewrite (u8_id 0) in Hw3 by done. rewrite <- HnL, <- Hsign in Hw3. rewrite <- HnL, <- Hsign in Hlen.
  assert (Hz3 : zlen dst3 = zlen dst) by (destruct Hw3 as [-> _]; unfold zlen; by rewrite length_insert).
  destruct (Z.eqb_spec (zlen sign) 0) as [E0|Hne]; cbn [negb].
  - apply wp_ret, wp_ret. rewrite Hi. split; [done|]. f_equal; [|apply zlen_app].
    apply written_text with (dst1 := dst3); [lia|done|done|].
    destruct sign; [done|]. unfold zlen in E0. cbn [length] in E0. lia.
  - eapply wp_eq; [apply wr_eq; lia|]. apply wp_ret. rewrite Hi. split; [done|].
    f_equal; [|apply zlen_app].
    assert (Es : sign = [45]) by (unfold sign, b2z in *; destruct (v <? 0); [done|lia]). rewrite Es in *.
    apply written_text with (dst1 := dst3); [lia|done| |].
    + intros i Hi1. cbn [length] in Hi1. by rewrite list_lookup_insert_ne by lia.
    + intros [|i] c; [|done]. intros [= <-]. apply list_lookup_insert_eq. unfold zlen in *. lia.
Qed.
End writing.

(** ** Properties *)
Lemma decimal_functional l v v' : decimal l v -> decimal l v' -> v = v'.
Proof.
  destruct (decide (l !! 0%nat = Some 45)) as [H|H].
  - destruct l as [|c l]; [done|]. injection H as ->. rewrite !decimal_signed.
    intros [_ (_ & _ & _ & E)] [_ (_ & _ & _ & E')]. lia.
  - rewrite !decimal_unsigned by done. by intros (_ & _ & _ & ->) (_ & _ & _ & ->).
Qed.
Lemma decimal_unique l l' v : decimal l v -> decimal l' v -> l = l'.
Proof.
  unfold decimal. destruct (Z.ltb_spec v 0).
  - intros (m & -> & Hm) (m' & -> & Hm'). f_equal. by eapply (numeral_unique (- v)); [lia|..].
  - by apply numeral_unique.
Qed.
(** The return value that goes with a stored one. *)
Definition accepted (o : option Z) : Z := match o with Some _ => 1 | None => 0 end.
Lemma parsed_iff l a : parsed l a ->
  fst a = accepted (snd a) /\ forall v, snd a = Some v <-> decimal l v /\ is_ll v.
Proof.
  destruct a as [r [v'|]]; unfold parsed; cbn [fst snd accepted]; intros H.
  - destruct H as (-> & Hd & Hv). split; [done|]. intros v. split; [by intros [= <-]|].
    intros [Hd' _]. f_equal. by eapply decimal_functional.
  - destruct H as [-> Hn]. split; [done|]. intros v. split; [done|]. intros [Hd Hv]. by destruct (Hn v Hv).
Qed.

(** C29: [string2ll] always returns, reading nothing behind the text, and accepts
    exactly the decimal texts of 64-bit integers: digits with no superfluous
    zero in front, a minus sign only in front of a number that is not zero, no
    space or other character, and a value that fits. What it stores is the value
    of the text. [string2l] accepts those whose value its own type can hold. *)
Theorem string2ll_decides {S} (l : list Z) (rest : buf) (lo hi : Z) (s : S) :
  (exists o, string2ll ((Some <$> l) ++ rest) (zlen l) s = Ret (accepted o, o) s /\
     forall v, o = Some v <-> decimal l v /\ is_ll v) /\
  (exists o, string2l lo hi ((Some <$> l) ++ rest) (zlen l) s = Ret (accepted o, o) s /\
     forall v, o = Some v <-> decimal l v /\ is_ll v /\ lo <= v <= hi).
Proof.
  pose proof (string2ll_ok l rest s) as Hw. apply wp_inv in Hw as ([r o] & s' & E & -> & H).
  apply parsed_iff in H as [Hr Ho]. cbn [fst snd] in *. subst r. split; [by exists o|].
  unfold string2l. erewrite (bind_ret_eq _ _ _ _ _ E). cbn beta iota. destruct o as [v|].
  - destruct (proj1 (Ho v) eq_refl) as [Hd Hv]. cbn [Z.eqb].
    destruct ((v <? lo) || (hi <? v)) eqn:Er.
    + exists None. split; [done|]. intros w. split; [done|]. intros (Hdw & Hw & Hr).
      pose proof (decimal_functional _ _ _ Hd Hdw). lia.
    + exists (Some v). split; [done|]. intros w. split; [intros [= <-]; split_and!; (done || lia)|].
      intros (Hdw & _). f_equal. by eapply decimal_functional.
  - exists None. split; [done|]. intros w. split; [done|]. intros (Hd & Hv & _). by apply Ho.
Qed.

Lemma sdigits10_ok {S} v l (s : S) : is_ll v -> decimal l v -> sdigits10 v s = Ret (zlen l) s.
Proof.
  unfold is_ll, decimal, sdigits10, u64, LLONG_MIN, LLONG_MAX, ULLONG_MAX. intros Hv Hl.
  destruct (Z.ltb_spec v 0).
  - destruct Hl as (m & -> & Hm).
    assert (Hu : (if negb (v =? -9223372036854775808) then - v mod 18446744073709551616
                  else (9223372036854775807 + 1) mod 18446744073709551616) = - v).
    { destruct (Z.eqb_spec v (-9223372036854775808)) as [->|]; [done|]. cbn [negb]. by rewrite Z.mod_small by lia. }
    cbv zeta. rewrite Hu. destruct (digits10_ok (- v) s) as (n & E & Hn); [unfold ULLONG_MAX; lia|].
    pose proof (digit_count_length m _ n Hm ltac:(lia) Hn) as Hmn. destruct Hn as [Hn _].
    erewrite (bind_ret_eq _ _ _ _ _ E). unfold ret. f_equal. rewrite u32_id by (unfold is_u32; lia).
    unfold zlen in *. cbn [length]. lia.
  - destruct (digits10_ok v s) as (n & E & Hn); [unfold ULLONG_MAX; lia|].
    by rewrite E, (digit_count_length l _ n Hl ltac:(lia) Hn).
Qed.

(** C30: every 64-bit integer has exactly one decimal text; it has as many
    characters as [sdigits10] counts, at most 20. [ll2string] writes that text
    and a zero behind it, changing no other byte, when the room it is given is
    enough for both, and [string2ll] then reads the integer back; otherwise it
    returns 0 and leaves the buffer as it was. *)
Theorem decimal_roundtrip {S} (v dstlen : Z) (dst : buf) (s : S) :
  is_ll v -> 0 <= dstlen <= zlen dst ->
  exists l, (forall l', decimal l' v <-> l' = l) /\ zlen l <= 20 /\
    sdigits10 v s = Ret (zlen l) s /\
    if dstlen <=? zlen l then ll2string dst dstlen v s = Ret (dst, 0) s
    else ll2string dst dstlen v s = Ret (text_in l dst, zlen l) s /\
         string2ll (text_in l dst) (zlen l) s = Ret (1, Some v) s.
Proof.
  intros Hv Hd. destruct (ll2string_ok dst dstlen v s Hv Hd) as (l & Hl & H20 & Hw). exists l.
  apply wp_inv in Hw as (r & s' & E & -> & ->). split_and!; [|done|by apply sdigits10_ok|].
  { intros l'. split; [intros Hl'; by eapply decimal_unique|by intros ->]. }
  destruct (dstlen <=? zlen l); [done|]. split; [done|]. unfold text_in.
  destruct (wp_inv _ _ _ (string2ll_ok l (Some 0 :: drop (Datatypes.S (length l)) dst) s)) as ([r o] & s' & E' & -> & H).
  apply parsed_iff in H as [Hr Ho]. cbn [fst snd] in *. rewrite E'.
  destruct (Ho v) as [_ Hs]. rewrite Hs in * by done. by rewrite Hr.
Qed.

Lemma decimal_roundtrip_witness :
  ll2string (replicate 8 None) 8 (-42) tt = Ret ([Some 45; Some 52; Some 50; Some 0; None; None; None; None], 3) tt /\
  exists l, (forall l', decimal l' (-42) <-> l' = l) /\ zlen l <= 20 /\
    sdigits10 (-42) tt = Ret (zlen l) tt /\
    if 8 <=? zlen l then ll2string (replicate 8 None) 8 (-42) tt = Ret (replicate 8 None, 0) tt
    else ll2string (replicate 8 None) 8 (-42) tt = Ret (text_in l (replicate 8 None), zlen l) tt /\
         string2ll (text_in l (replicate 8 None)) (zlen l) tt = Ret (1, Some (-42)) tt.
Proof.
  split; [vm_compute; reflexivity|].
  apply (decimal_roundtrip (-42) 8 (replicate 8 None) tt); [done|]. split; [done|]. vm_compute. discriminate.
Defined.
