(* ===== verification/Matching.v ===== *)
(** util.c of the Redis the project ships: matching a string against a pattern
    with wildcards. Pattern and string are buffers, a pointer into one is an
    index; the bytes are [char]s, which are signed. *)
From S2P Require Import Prelude.
#[local] Open Scope Z_scope.

(** A byte as a [char] converted to [int]. *)
Definition schar (x : Z) : Z := if x <? 128 then x else x - 256.

Section matching.
Context {S : Type}.

(** The C function, in the "C" locale: its argument is an [unsigned char] or [EOF]. *)
Definition lower (c : Z) : Z := if (65 <=? c) && (c <=? 90) then c + 32 else c.
Definition tolower (c : Z) : M S Z :=
  if (c <? -1) || (255 <? c) then fail BadArgument else ret (lower c).

(** Whether two characters are the same, for [nocase] up to case. *)
Definition same_char (nocase x c : Z) : M S bool :=
  if nocase =? 0 then ret (x =? c)
  else
    let* a := tolower (schar x) in
    let* b := tolower (schar c) in ret (a =? b).

(** [while (pattern[off] == '*')]. *)
Definition skip_stars (pat : buf) (off : Z) : Z * Z -> M S (Z * Z) :=
  while_loop (Datatypes.S (length pat)) (fun '(p, plen) =>
    let* c := rd pat (p + off) in
    if c =? 42 then ret (inl (p + 1, plen - 1)) else ret (inr (p, plen))).

(** One turn of the loop over the members of a bracketed class; the result
    carries the place where the loop ends and [match]. *)
Definition class_turn (nocase : Z) (pat str : buf) (s : Z) (st : Z * Z * Z) : M S (Z * Z * Z + Z * Z * Z) :=
  let '(p, plen, mtch) := st in
  let* c0 := rd pat p in
  if (c0 =? 92) && (2 <=? plen) then
    let p := p + 1 in
    let plen := plen - 1 in
    let* x := rd pat p in
    let* c := rd str s in
    ret (inl (p + 1, plen - 1, if x =? c then 1 else mtch))
  else if c0 =? 93 then ret (inr (p, plen, mtch))
  else if plen =? 0 then ret (inr (p - 1, plen + 1, mtch))
  else
    let* c1 := rd pat (p + 1) in
    if (c1 =? 45) && (3 <=? plen) then
      let* start := rd pat p in
      let* end_ := rd pat (p + 2) in
      let* c := rd str s in
      let '(start, end_, c) := (schar start, schar end_, schar c) in
      let '(start, end_) := if end_ <? start then (end_, start) else (start, end_) in
      let* t := (if nocase =? 0 then ret (start, end_, c)
                 else
                   let* start := tolower start in
                   let* end_ := tolower end_ in
                   let* c := tolower c in ret (start, end_, c)) in
      let '(start, end_, c) := t in
      let p := p + 2 in
      let plen := plen - 2 in
      ret (inl (p + 1, plen - 1, if (start <=? c) && (c <=? end_) then 1 else mtch))
    else
      let* x := rd pat p in
      let* c := rd str s in
      let* e := same_char nocase x c in
      ret (inl (p + 1, plen - 1, if e : bool then 1 else mtch)).

(** The case '[': where the pattern continues, [None] for [return 0]. *)
Definition match_class (nocase : Z) (pat str : buf) (p plen s : Z) : M S (option (Z * Z)) :=
  let p := p + 1 in
  let plen := plen - 1 in
  let* c := rd pat p in
  let not := b2z (c =? 94) in
  let '(p, plen) := if negb (not =? 0) then (p + 1, plen - 1) else (p, plen) in
  let* r := while_loop (Datatypes.S (length pat)) (class_turn nocase pat str s) (p, plen, 0) in
  let '(p, plen, mtch) := r in
  let mtch := if negb (not =? 0) then b2z (mtch =? 0) else mtch in
  if mtch =? 0 then ret None else ret (Some (p, plen)).

(** The cases that consume one character of the string, all but the star. *)
Definition match_one (nocase : Z) (pat str : buf) (p plen s slen c0 : Z) : M S (option (Z * Z)) :=
  if c0 =? 63 then (if slen =? 0 then ret None else ret (Some (p, plen)))
  else if c0 =? 91 then match_class nocase pat str p plen s
  else
    let '(p, plen) := if (c0 =? 92) && (2 <=? plen) then (p + 1, plen - 1) else (p, plen) in
    let* x := rd pat p in
    let* c := rd str s in
    let* e := same_char nocase x c in
    if e : bool then ret (Some (p, plen)) else ret None.

(** [stringmatchlen(pattern + p, plen, string + s, slen, nocase)]. A star calls
    the function for what follows it at every place of the rest of the string. *)
Fixpoint stringmatch_rec (fuel : nat) (pat str : buf) (nocase p plen s slen : Z) : M S Z :=
  match fuel with
  | O => fun _ => NoFuel
  | Datatypes.S fuel =>
      let* r := while_loop (Datatypes.S (Z.to_nat slen)) (fun '(p, plen, s, slen) =>
        if (plen =? 0) || (slen =? 0) then ret (inr (inr (plen, slen)))
        else
          let* c0 := rd pat p in
          if c0 =? 42 then
            let* (p, plen) := skip_stars pat 1 (p, plen) in
            if plen =? 1 then ret (inr (inl 1))
            else
              let* r := while_loop (Datatypes.S (Z.to_nat slen)) (fun '(s, slen) =>
                if slen =? 0 then ret (inr 0)
                else
                  let* m := stringmatch_rec fuel pat str nocase (p + 1) (plen - 1) s slen in
                  if negb (m =? 0) then ret (inr 1) else ret (inl (s + 1, slen - 1))) (s, slen) in
              ret (inr (inl r))
          else
            let* step := match_one nocase pat str p plen s slen c0 in
            match step with
            | None => ret (inr (inl 0))
            | Some (p, plen) =>
                let '(p, plen, s, slen) := (p + 1, plen - 1, s + 1, slen - 1) in
                if slen =? 0 then
                  let* (p, plen) := skip_stars pat 0 (p, plen) in ret (inr (inr (plen, slen)))
                else ret (inl (p, plen, s, slen))
            end) (p, plen, s, slen) in
      match r with
      | inl v => ret v
      | inr (plen, slen) => ret (b2z ((plen =? 0) && (slen =? 0)))
      end
  end.
Definition stringmatchlen (pat : buf) (plen : Z) (str : buf) (slen nocase : Z) : M S Z :=
  stringmatch_rec (Datatypes.S (Z.to_nat plen)) pat str nocase 0 plen 0 slen.

(** [strlen]: the distance of the first zero. *)
Definition strlen (b : buf) : M S Z :=
  while_loop (Datatypes.S (length b)) (fun i =>
    let* c := rd b i in if c =? 0 then ret (inr i) else ret (inl (i + 1))) 0.
Definition stringmatch (pat str : buf) (nocase : Z) : M S Z :=
  let* plen := strlen pat in
  let* slen := strlen str in stringmatchlen pat plen str slen nocase.
End matching.
