(* ===== verification/Glob.v ===== *)
(** What the patterns of util.c mean: a declarative account of wildcards, and the
    proof that [stringmatchlen] decides it without leaving its buffers. *)
From S2P Require Import Prelude Matching.
#[local] Open Scope Z_scope.

(** ** Patterns *)

(** Members of a bracketed class. *)
Inductive item : Type :=
| Exact (x : Z)        (** \x: itself, whatever [nocase] *)
| Char (x : Z)
| Range (a b : Z).     (** a-b, in either order *)

(** The members of the class that starts here and what follows it. A class may
    end with the pattern, without its bracket. *)
Fixpoint class_items (l : list Z) : list item * list Z :=
  match l with
  | [] => ([], [])
  | a :: l1 =>
      if a =? 92 then
        match l1 with
        | x :: r => let '(its, rest) := class_items r in (Exact x :: its, rest)
        | [] => ([Char 92], [])
        end
      else if a =? 93 then ([], l1)
      else
        match l1 with
        | d :: b :: r =>
            if d =? 45 then let '(its, rest) := class_items r in (Range a b :: its, rest)
            else let '(its, rest) := class_items l1 in (Char a :: its, rest)
        | _ => let '(its, rest) := class_items l1 in (Char a :: its, rest)
        end
  end.

Section meaning.
Variable nocase : Z.

Definition fold_char (c : Z) : Z := if nocase =? 0 then c else lower c.
Definition same (x c : Z) : bool := if nocase =? 0 then x =? c else lower (schar x) =? lower (schar c).
Definition item_ok (c : Z) (it : item) : bool :=
  match it with
  | Exact x => x =? c
  | Char x => same x c
  | Range a b =>
      (fold_char (Z.min (schar a) (schar b)) <=? fold_char (schar c)) &&
      (fold_char (schar c) <=? fold_char (Z.max (schar a) (schar b)))
  end.

(** '[' and '[^': the character belongs to the class, or does not. *)
Definition class_ok (q : list Z) (c : Z) : bool * list Z :=
  let '(not, q) := match q with
                   | a :: q' => if a =? 94 then (true, q') else (false, q)
                   | [] => (false, [])
                   end in
  (xorb not (existsb (item_ok c) (fst (class_items q))), snd (class_items q)).

(** [glob p s]: the whole string [s] matches the pattern [p]. *)
Inductive glob : list Z -> list Z -> Prop :=
| glob_nil : glob [] []
| glob_star p u v : glob p v -> glob (42 :: p) (u ++ v)
| glob_any p c s : glob p s -> glob (63 :: p) (c :: s)
| glob_class q rest c s : class_ok q c = (true, rest) -> glob rest s -> glob (91 :: q) (c :: s)
| glob_escape x p c s : same x c = true -> glob p s -> glob (92 :: x :: p) (c :: s)
| glob_char x p c s : x <> 42 -> x <> 63 -> x <> 91 -> (x = 92 -> p = []) ->
    same x c = true -> glob p s -> glob (x :: p) (c :: s).

Lemma glob_empty p : glob [] p <-> p = [].
Proof. split; [by inversion 1|]. intros ->. constructor. Qed.
Lemma glob_star_iff p s : glob (42 :: p) s <-> exists i, glob p (drop i s).
Proof.
  split.
  - inversion 1; subst; try done. exists (length u). by rewrite drop_app_length.
  - intros [i H]. rewrite <- (take_drop i s). by constructor.
Qed.
Lemma glob_any_iff p c s : glob (63 :: p) (c :: s) <-> glob p s.
Proof. split; [by inversion 1|by constructor]. Qed.
Lemma glob_class_iff q c s : glob (91 :: q) (c :: s) <-> fst (class_ok q c) = true /\ glob (snd (class_ok q c)) s.
Proof.
  split.
  - inversion 1; subst; try done. match goal with E : class_ok _ _ = _ |- _ => rewrite E end. done.
  - intros [H1 H2]. econstructor; [|exact H2]. by rewrite <- H1, <- surjective_pairing.
Qed.
Lemma glob_escape_iff x p c s : glob (92 :: x :: p) (c :: s) <-> same x c = true /\ glob p s.
Proof.
  split; [|by intros []; constructor]. inversion 1; subst; [done|].
  match goal with H : 92 = 92 -> _ |- _ => by specialize (H eq_refl) end.
Qed.
Lemma glob_char_iff x p c s : x <> 42 -> x <> 63 -> x <> 91 -> (x = 92 -> p = []) ->
  glob (x :: p) (c :: s) <-> same x c = true /\ glob p s.
Proof.
  intros H1 H2 H3 H4. split; [|by intros []; apply glob_char].
  inversion 1; subst; try done. match goal with H : 92 = 92 -> _ |- _ => by specialize (H eq_refl) end.
Qed.
Lemma glob_nil_star p : glob p [] -> p = [] \/ exists q, p = 42 :: q.
Proof. inversion 1; subst; eauto. Qed.

(** Consecutive stars are one. *)
Lemma glob_stars k p s : glob (42 :: replicate k 42 ++ p) s <-> glob (42 :: p) s.
Proof.
  revert s. induction k as [|k IH]; intros s; [done|]. cbn [replicate app]. rewrite glob_star_iff. split.
  - intros [i [j H]%IH%glob_star_iff]. apply glob_star_iff. rewrite drop_drop in H. eauto.
  - intros H. exists 0%nat. rewrite drop_0. by apply IH.
Qed.
Lemma glob_stars_nil k p : p !! 0%nat <> Some 42 -> glob (replicate k 42 ++ p) [] <-> p = [].
Proof.
  intros Hp. induction k as [|k IH]; cbn [replicate app].
  - split; [|intros ->; constructor]. intros [?|(q & ->)]%glob_nil_star; done.
  - rewrite glob_star_iff, <- IH. split; [intros [i H]; by rewrite drop_nil in H|]. intros H. exists 0%nat. by rewrite drop_nil.
Qed.
End meaning.

(** ** Places in the buffers *)
Section places.
Context {S : Type}.
Variables (P T : list Z) (restP restT : buf) (nocase : Z).
Hypothesis Hcase : nocase = 0 \/ Forall (fun x => 0 <= x < 128) P /\ Forall (fun x => 0 <= x < 128) T.
Let pat : buf := (Some <$> P) ++ Some 0 :: restP.
Let str : buf := (Some <$> T) ++ restT.
Implicit Types s : S.

(** Index [p] with [plen] characters left, which are [l]. *)
Definition at_place (full : list Z) (p plen : Z) (l : list Z) : Prop :=
  0 <= p /\ plen = zlen l /\ drop (Z.to_nat p) full = l /\ p + plen = zlen full.

Lemma at_start full : at_place full 0 (zlen full) full.
Proof. by split_and!. Qed.
Lemma at_next full p plen c l : at_place full p plen (c :: l) -> at_place full (p + 1) (plen - 1) l.
Proof.
  intros (Hp & Hl & Hd & Hf). unfold at_place, zlen in *. cbn [length] in *. split_and!; try lia.
  replace (Z.to_nat (p + 1)) with (Z.to_nat p + 1)%nat by lia. by rewrite <- drop_drop, Hd.
Qed.
Lemma at_drop full p plen l i : at_place full p plen l -> 0 <= i <= plen ->
  at_place full (p + i) (plen - i) (drop (Z.to_nat i) l).
Proof.
  intros (Hp & Hl & Hd & Hf) Hi. unfold at_place, zlen in *. split_and!; try lia; [rewrite length_drop; lia|].
  replace (Z.to_nat (p + i)) with (Z.to_nat p + Z.to_nat i)%nat by lia. by rewrite <- drop_drop, Hd.
Qed.

Lemma rd_pat p plen l k s : at_place P p plen l -> 0 <= k <= plen ->
  rd pat (p + k) s = Ret (default 0 (l !! Z.to_nat k)) s.
Proof.
  intros (Hp & Hl & Hd & Hf) Hk. unfold zlen in *. apply rd_eq; [lia|]. unfold pat.
  rewrite <- Hd, lookup_drop. replace (Z.to_nat (p + k)) with (Z.to_nat p + Z.to_nat k)%nat by lia.
  destruct (decide (Z.to_nat p + Z.to_nat k < length P)%nat) as [H|H].
  - destruct (lookup_lt_is_Some_2 P _ H) as [c Hc]. rewrite Hc, lookup_app_l by (by rewrite length_fmap).
    by rewrite list_lookup_fmap, Hc.
  - rewrite (lookup_ge_None_2 P) by lia. rewrite lookup_app_r, length_fmap by (rewrite length_fmap; lia).
    by replace (Z.to_nat p + Z.to_nat k - length P)%nat with 0%nat by lia.
Qed.
Lemma rd_pat0 p plen l s : at_place P p plen l -> rd pat p s = Ret (default 0 (l !! 0%nat)) s.
Proof.
  intros Hp. rewrite <- (Z.add_0_r p) at 1. apply (rd_pat p plen l 0 s Hp). destruct Hp as (_ & -> & _). pose proof (zlen_nonneg l). lia.
Qed.
Lemma rd_str i slen c l s : at_place T i slen (c :: l) -> rd str i s = Ret c s.
Proof.
  intros (Hp & Hl & Hd & Hf). unfold zlen in *. apply rd_eq; [lia|]. unfold str. cbn [length] in Hl.
  rewrite lookup_app_l, list_lookup_fmap by (rewrite length_fmap; lia).
  assert (H : T !! (Z.to_nat i + 0)%nat = Some c) by (by rewrite <- lookup_drop, Hd).
  rewrite Nat.add_0_r in H. by rewrite H.
Qed.

Lemma skip_stars_ok off p plen q s : at_place P (p + off) (plen - off) q ->
  wp (skip_stars pat off (p, plen)) (fun '(p', plen') s' => s' = s /\ exists k q',
    q = replicate k 42 ++ q' /\ q' !! 0%nat <> Some 42 /\ at_place P (p' + off) (plen' - off) q') s.
Proof.
  intros Hq. apply (wp_while _ (fun '(p1, plen1) s' => s' = s /\ exists k q1,
      q = replicate k 42 ++ q1 /\ at_place P (p1 + off) (plen1 - off) q1)
    (fun a _ => Z.to_nat (snd a - off))).
  - intros [p1 plen1] s' (-> & k & q1 & -> & H1). apply wp_bind. eapply wp_eq; [by eapply rd_pat0|].
    destruct q1 as [|c q1].
    + cbn. apply wp_ret. split; [done|]. by exists k, [].
    + cbn [lookup list_lookup default]. change (id c) with c. destruct (Z.eqb_spec c 42) as [->|Hne]; apply wp_ret.
      * split.
        -- split; [done|]. exists (Datatypes.S k), q1. split.
           ++ by rewrite replicate_S_end, <- app_assoc.
           ++ apply at_next in H1. by replace (p1 + 1 + off) with (p1 + off + 1) by lia;
                replace (plen1 - 1 - off) with (plen1 - off - 1) by lia.
        -- destruct H1 as (_ & H1 & _). unfold zlen in H1. cbn [length snd] in *. lia.
      * split; [done|]. exists k, (c :: q1). split_and!; [done|cbn; congruence|done].
  - split; [done|]. by exists 0%nat, q.
  - destruct Hq as (? & Hl & _ & Hf). cbn [snd]. unfold pat. rewrite length_app, length_fmap. cbn [length].
    unfold zlen in *. lia.
Qed.

(** *** Characters *)
Lemma tolower_ok c s : 0 <= c < 128 -> tolower (schar c) s = Ret (lower (schar c)) s.
Proof.
  intros Hc. unfold tolower, schar. rewrite (proj2 (Z.ltb_lt c 128)) by lia.
  by rewrite (proj2 (Z.ltb_ge c (-1))), (proj2 (Z.ltb_ge 255 c)) by lia.
Qed.
Lemma at_in full p plen l x : at_place full p plen l -> x ∈ l -> x ∈ full.
Proof. intros (_ & _ & <- & _) Hx. rewrite <- (take_drop (Z.to_nat p) full). apply elem_of_app. by right. Qed.
Lemma case_ok x c : x ∈ P -> c ∈ T -> nocase <> 0 -> 0 <= x < 128 /\ 0 <= c < 128.
Proof.
  intros Hx Hc Hn. destruct Hcase as [?|[HP HT]]; [done|]. rewrite Forall_forall in HP, HT. auto.
Qed.
Lemma same_char_ok x c s : x ∈ P -> c ∈ T -> same_char nocase x c s = Ret (same nocase x c) s.
Proof.
  intros Hx Hc. unfold same_char, same. destruct (Z.eqb_spec nocase 0) as [E|Hne]; [done|].
  destruct (case_ok x c Hx Hc Hne). erewrite bind_ret_eq by (by apply tolower_ok).
  by erewrite bind_ret_eq by (by apply tolower_ok).
Qed.

(** *** Classes *)
Lemma class_items_escape x r : class_items (92 :: x :: r) = (Exact x :: fst (class_items r), snd (class_items r)).
Proof. cbn. by destruct (class_items r). Qed.
Lemma class_items_range a b r : a <> 92 -> a <> 93 ->
  class_items (a :: 45 :: b :: r) = (Range a b :: fst (class_items r), snd (class_items r)).
Proof.
  intros H1 H2. cbn -[Z.eqb]. rewrite (proj2 (Z.eqb_neq a 92)), (proj2 (Z.eqb_neq a 93)) by done.
  change (45 =? 45) with true. by destruct (class_items r).
Qed.
Lemma class_items_char a l : a <> 93 -> (a = 92 -> l = []) -> (l !! 0%nat = Some 45 -> length l = 1%nat) ->
  class_items (a :: l) = (Char a :: fst (class_items l), snd (class_items l)).
Proof.
  intros H1 H2 H3. destruct (Z.eq_dec a 92) as [->|Hne]; [by rewrite (H2 eq_refl)|].
  destruct l as [|d [|b r]]; cbn -[Z.eqb];
    rewrite (proj2 (Z.eqb_neq a 92)), (proj2 (Z.eqb_neq a 93)) by done; [done| |].
  - by destruct (if d =? 92 then _ else _).
  - destruct (Z.eqb_spec d 45) as [->|]; [by specialize (H3 eq_refl)|]. by destruct (if d =? 92 then _ else _).
Qed.

Lemma class_items_length n : forall l, (length l <= n)%nat -> (length (snd (class_items l)) <= length l)%nat.
Proof.
  induction n as [|n IH]; intros [|a l1] Hl; cbn [length] in *; [done|lia|done|].
  destruct (decide (a = 93)) as [->|H93]; [cbn; lia|]. destruct (decide (a = 92 /\ l1 <> [])) as [[-> Hne]|H92].
  { destruct l1 as [|x r]; [done|]. rewrite class_items_escape. cbn [snd length] in *. specialize (IH r). lia. }
  destruct (decide (l1 !! 0%nat = Some 45 /\ length l1 <> 1%nat)) as [[H45 Hl1]|H45].
  - destruct l1 as [|d [|b r]]; [done..|]. injection H45 as ->.
    rewrite class_items_range by (intros ->; by apply H92 || done). cbn [snd length] in *. specialize (IH r). lia.
  - rewrite class_items_char; [cbn [snd]; specialize (IH l1); lia|done| |].
    + intros ->. destruct l1; [done|]. exfalso. by apply H92.
    + intros E. destruct (decide (length l1 = 1%nat)); [done|]. exfalso. by apply H45.
Qed.
Lemma class_ok_length q c : (length (snd (class_ok nocase q c)) <= length q)%nat.
Proof.
  unfold class_ok. destruct q as [|a q]; [done|]. destruct (a =? 94); cbn [snd].
  - pose proof (class_items_length _ q ltac:(reflexivity)). cbn [length]. lia.
  - by apply (class_items_length (length (a :: q))).
Qed.

(** The tests of the code lead to the case of a single member. *)
Lemma class_items_member a l plen : plen = Z.of_nat (Datatypes.S (length l)) -> a <> 93 ->
  (a =? 92) && (2 <=? plen) = false -> (default 0 (l !! 0%nat) =? 45) && (3 <=? plen) = false ->
  class_items (a :: l) = (Char a :: fst (class_items l), snd (class_items l)).
Proof.
  intros Hplen H93 E1 E2. apply class_items_char; [done| |].
  - intros ->. destruct l; [done|]. cbn [length] in *. lia.
  - intros H45. rewrite H45 in E2. destruct l as [|? [|]]; [done..|]. cbn [length default] in *.
    change (id 45) with 45 in E2. lia.
Qed.

(** What has been found so far and what the rest of the class holds. *)
Definition in_class (c : Z) (q : list Z) (st : Z * Z * Z) : Prop :=
  let '(p, plen, m) := st in exists q1, at_place P p plen q1 /\ (m = 0 \/ m = 1) /\
    snd (class_items q1) = snd (class_items q) /\
    (m =? 1) || existsb (item_ok nocase c) (fst (class_items q1)) = existsb (item_ok nocase c) (fst (class_items q)).

Lemma in_class_step c q p plen m it l : at_place P p plen l -> m = 0 \/ m = 1 ->
  snd (class_items l) = snd (class_items q) ->
  (m =? 1) || (item_ok nocase c it || existsb (item_ok nocase c) (fst (class_items l)))
    = existsb (item_ok nocase c) (fst (class_items q)) ->
  in_class c q (p, plen, if item_ok nocase c it then 1 else m).
Proof.
  intros Hp Hm Hs He. exists l. split_and!; [done|by destruct (item_ok _ _ _); auto|done|].
  rewrite <- He. destruct (item_ok nocase c it); [by rewrite orb_true_r|done].
Qed.

Lemma range_ok a b c s : a ∈ P -> b ∈ P -> c ∈ T ->
  exists lo hi x, (let '(start, end_) := if schar b <? schar a then (schar b, schar a) else (schar a, schar b) in
     if nocase =? 0 then ret (start, end_, schar c)
     else
       let* start := tolower start in
       let* end_ := tolower end_ in
       let* c := tolower (schar c) in ret (start, end_, c)) s = Ret (lo, hi, x) s /\
    (lo <=? x) && (x <=? hi) = item_ok nocase c (Range a b).
Proof.
  intros Ha Hb Hc. unfold item_ok, fold_char.
  assert (Hsort : (if schar b <? schar a then (schar b, schar a) else (schar a, schar b))
                  = (Z.min (schar a) (schar b), Z.max (schar a) (schar b))).
  { destruct (Z.ltb_spec (schar b) (schar a)); f_equal; lia. }
  rewrite Hsort. destruct (Z.eqb_spec nocase 0) as [E|Hne]; [by do 3 eexists|].
  destruct (case_ok a c Ha Hc Hne) as [Ha' Hc']. destruct (case_ok b c Hb Hc Hne) as [Hb' _].
  assert (Hl : forall x, 0 <= x < 128 -> forall y, 0 <= y < 128 ->
    tolower (Z.min (schar x) (schar y)) s = Ret (lower (Z.min (schar x) (schar y))) s /\
    tolower (Z.max (schar x) (schar y)) s = Ret (lower (Z.max (schar x) (schar y))) s).
  { intros x Hx y Hy. destruct (Z.le_ge_cases (schar x) (schar y)).
    - rewrite Z.min_l, Z.max_r by lia. split; by apply tolower_ok.
    - rewrite Z.min_r, Z.max_l by lia. split; by apply tolower_ok. }
  destruct (Hl a Ha' b Hb') as [H1 H2]. do 3 eexists. split; [|reflexivity].
  erewrite bind_ret_eq by exact H1. erewrite bind_ret_eq by exact H2.
  by erewrite bind_ret_eq by (by apply tolower_ok).
Qed.

Lemma class_turn_ok c T' i slen q st s : at_place T i slen (c :: T') -> in_class c q st ->
  wp (class_turn nocase pat str i st) (fun r s' => s' = s /\
    match r with
    | inl st' => in_class c q st' /\ snd (fst st') < snd (fst st)
    | inr (p', plen', m) => m = b2z (existsb (item_ok nocase c) (fst (class_items q))) /\
        at_place P (p' + 1) (plen' - 1) (snd (class_items q))
    end) s.
Proof.
  destruct st as [[p plen] m]. intros HT (q1 & Hq & Hm & Hs & He). pose proof (rd_str i slen c T' s HT) as Ec.
  assert (Hc : c ∈ T) by (eapply at_in; [exact HT|set_solver]).
  assert (Hplen : plen = zlen q1) by apply Hq.
  unfold class_turn. apply wp_bind. eapply wp_eq; [by eapply rd_pat0|].
  destruct q1 as [|a l].
  { cbn [lookup list_lookup default]. cbn in Hplen. subst plen. cbn -[Z.sub Z.add]. apply wp_ret. split; [done|].
    rewrite <- Hs. split; [|by replace (p - 1 + 1) with p by lia].
    rewrite <- He. cbn. destruct Hm as [-> | ->]; done. }
  cbn [lookup list_lookup default]. change (id a) with a.
  assert (Ha : a ∈ P) by (eapply at_in; [exact Hq|set_solver]).
  pose proof (at_next _ _ _ _ _ Hq) as Hq'. unfold zlen in Hplen. cbn [length] in Hplen.
  destruct ((a =? 92) && (2 <=? plen)) eqn:E1.
  - apply andb_true_iff in E1 as [->%Z.eqb_eq E1]. destruct l as [|x r]; [cbn [length] in *; lia|].
    rewrite class_items_escape in Hs, He. cbn [fst snd existsb] in Hs, He.
    apply wp_bind. eapply wp_eq; [by eapply rd_pat0|]. cbn [lookup list_lookup default]. change (id x) with x.
    apply wp_bind. eapply wp_eq; [exact Ec|]. apply wp_ret. split; [done|]. split; [|cbn [fst snd]; lia].
    apply at_next in Hq'. by apply (in_class_step c q _ _ m (Exact x) r).
  - destruct (Z.eqb_spec a 93) as [->|H93].
    { apply wp_ret. split; [done|]. cbn in Hs, He. rewrite <- Hs. split; [|done].
      rewrite <- He, orb_false_r. destruct Hm as [-> | ->]; done. }
    rewrite (proj2 (Z.eqb_neq plen 0)) by lia.
    apply wp_bind. eapply wp_eq; [eapply rd_pat; [exact Hq|lia]|].
    change ((a :: l) !! Z.to_nat 1) with (l !! 0%nat).
    destruct ((default 0 (l !! 0%nat) =? 45) && (3 <=? plen)) eqn:E2.
    + apply andb_true_iff in E2 as [E2%Z.eqb_eq E3]. destruct l as [|d [|b r]]; cbn [length] in *; [lia..|].
      cbn in E2. change (id d) with d in E2. subst d.
      assert (H92 : a <> 92) by (intros ->; cbn in E1; lia).
      rewrite class_items_range in Hs, He by done. cbn [fst snd existsb] in Hs, He.
      assert (Hb : b ∈ P) by (eapply at_in; [exact Hq|set_solver]).
      apply wp_bind. eapply wp_eq; [by eapply rd_pat0|]. cbn [lookup list_lookup default]. change (id a) with a.
      apply wp_bind. eapply wp_eq; [eapply rd_pat; [exact Hq|lia]|].
      change (default 0 ((a :: 45 :: b :: r) !! Z.to_nat 2)) with b.
      apply wp_bind. eapply wp_eq; [exact Ec|].
      destruct (range_ok a b c s Ha Hb Hc) as (lo & hi & x & Er & Eok).
      cbv zeta. destruct (if schar b <? schar a then _ else _) as [st en].
      apply wp_bind. eapply wp_eq; [exact Er|]. cbn beta iota. rewrite Eok. apply wp_ret. split; [done|].
      split; [|cbn [fst snd]; lia]. apply at_next, at_next in Hq'.
      apply (in_class_step c q _ _ m (Range a b) r); try done.
      by replace (p + 2 + 1) with (p + 1 + 1 + 1) by lia; replace (plen - 2 - 1) with (plen - 1 - 1 - 1) by lia.
    + assert (Hci : class_items (a :: l) = (Char a :: fst (class_items l), snd (class_items l))).
      { by apply (class_items_member a l plen). }
      rewrite Hci in Hs, He. cbn [fst snd existsb] in Hs, He.
      apply wp_bind. eapply wp_eq; [by eapply rd_pat0|]. cbn [lookup list_lookup default]. change (id a) with a.
      apply wp_bind. eapply wp_eq; [exact Ec|].
      apply wp_bind. eapply wp_eq; [by apply same_char_ok|]. apply wp_ret. split; [done|].
      split; [|cbn [fst snd]; lia]. by apply (in_class_step c q _ _ m (Char a) l).
Qed.

Lemma class_loop_ok p plen q i slen c T' s : at_place P p plen q -> at_place T i slen (c :: T') ->
  wp (while_loop (Datatypes.S (length pat)) (class_turn nocase pat str i) (p, plen, 0))
    (fun '(p', plen', m) s' => s' = s /\ m = b2z (existsb (item_ok nocase c) (fst (class_items q))) /\
       at_place P (p' + 1) (plen' - 1) (snd (class_items q))) s.
Proof.
  intros Hq HT. apply (wp_while _ (fun st s' => s' = s /\ in_class c q st) (fun st _ => Z.to_nat (snd (fst st)))).
  - intros st s' [-> Hst]. eapply wp_mono; [by eapply class_turn_ok|]. cbn beta. intros [st'|[[p' plen'] m]] s' [-> H].
    + destruct H as [H Hlt]. split; [done|]. destruct st as [[p1 plen1] m1], st' as [[p2 plen2] m2], H as (q2 & Hq2 & _).
      destruct Hq2 as (_ & -> & _). cbn [fst snd] in *. unfold zlen in *. lia.
    + done.
  - split; [done|]. exists q. split_and!; [done|by left|done|done].
  - cbn [fst snd]. destruct Hq as (Hp & _ & _ & Hf). unfold pat. rewrite length_app, length_fmap. cbn [length].
    unfold zlen in Hf. lia.
Qed.

Lemma match_class_ok p plen q i slen c T' s : at_place P p plen (91 :: q) -> at_place T i slen (c :: T') ->
  wp (match_class nocase pat str p plen i) (fun r s' => s' = s /\
    match r with
    | None => fst (class_ok nocase q c) = false
    | Some (p', plen') => fst (class_ok nocase q c) = true /\ at_place P (p' + 1) (plen' - 1) (snd (class_ok nocase q c))
    end) s.
Proof.
  intros Hp HT. apply at_next in Hp. unfold match_class. cbv zeta. apply wp_bind. eapply wp_eq; [by eapply rd_pat0|].
  assert (Hq : exists (not : bool) q', class_ok nocase q c
                = (xorb not (existsb (item_ok nocase c) (fst (class_items q'))), snd (class_items q')) /\
              (default 0 (q !! 0%nat) =? 94) = not /\
              let '(p1, plen1) := if negb (b2z not =? 0) then (p + 1 + 1, plen - 1 - 1) else (p + 1, plen - 1) in
              at_place P p1 plen1 q').
  { unfold class_ok. destruct q as [|a q]; [by exists false, []|]. cbn [lookup list_lookup default]. change (id a) with a.
    destruct (a =? 94); [exists true, q|exists false, (a :: q)]; (split; [done|]); (split; [done|]); [|done].
    by apply at_next in Hp. }
  destruct Hq as (not & q' & -> & -> & Hq'). destruct (if negb _ then _ else _) as [p1 plen1].
  apply wp_bind. eapply wp_mono; [by eapply class_loop_ok|]. intros [[p' plen'] m] s' (-> & -> & Hp'). cbn [fst snd].
  destruct not, (existsb _ _); by apply wp_ret.
Qed.

Lemma match_one_ok p plen c0 q i slen c T' s : at_place P p plen (c0 :: q) -> at_place T i slen (c :: T') -> c0 <> 42 ->
  wp (match_one nocase pat str p plen i slen c0) (fun r s' => s' = s /\
    match r with
    | None => forall U, ~ glob nocase (c0 :: q) (c :: U)
    | Some (p', plen') => exists q', at_place P (p' + 1) (plen' - 1) q' /\ (length q' <= length q)%nat /\
        forall U, glob nocase (c0 :: q) (c :: U) <-> glob nocase q' U
    end) s.
Proof.
  intros Hp HT H42. unfold match_one. assert (Hplen : plen = 1 + zlen q).
  { destruct Hp as (_ & -> & _). unfold zlen. cbn [length]. lia. }
  assert (Hslen : slen = 1 + zlen T'). { destruct HT as (_ & -> & _). unfold zlen. cbn [length]. lia. }
  pose proof (zlen_nonneg q). pose proof (zlen_nonneg T').
  assert (Hc : c ∈ T) by (eapply at_in; [exact HT|set_solver]).
  destruct (Z.eqb_spec c0 63) as [->|H63].
  { rewrite (proj2 (Z.eqb_neq slen 0)) by lia. apply wp_ret. split; [done|]. exists q.
    split_and!; [by apply at_next in Hp|done|]. intros U. apply glob_any_iff. }
  destruct (Z.eqb_spec c0 91) as [->|H91].
  { eapply wp_mono; [by eapply match_class_ok|]. cbn beta. intros [[p' plen']|] s' [-> H']; (split; [done|]).
    - exists (snd (class_ok nocase q c)). split_and!; [apply H'|apply class_ok_length|].
      intros U. rewrite glob_class_iff. tauto.
    - intros U HU. apply glob_class_iff in HU as [HU _]. congruence. }
  assert (Hx : exists x q' p1 plen1, (if (c0 =? 92) && (2 <=? plen) then (p + 1, plen - 1) else (p, plen)) = (p1, plen1) /\
      at_place P p1 plen1 (x :: q') /\ (length q' <= length q)%nat /\
      forall U, glob nocase (c0 :: q) (c :: U) <-> same nocase x c = true /\ glob nocase q' U).
  { destruct ((c0 =? 92) && (2 <=? plen)) eqn:E.
    - apply andb_true_iff in E as [->%Z.eqb_eq E]. destruct q as [|x q']; [unfold zlen in *; cbn [length] in *; lia|].
      exists x, q', (p + 1), (plen - 1). split_and!; [done|by apply at_next in Hp|cbn [length]; lia|].
      intros U. apply glob_escape_iff.
    - exists c0, q, p, plen. split_and!; [done|done|done|]. intros U. apply glob_char_iff; try done.
      intros ->. destruct q; [done|]. unfold zlen in *. cbn [length] in *. lia. }
  destruct Hx as (x & q' & p1 & plen1 & -> & Hp1 & Hlen & Hglob).
  assert (Hx : x ∈ P) by (eapply at_in; [exact Hp1|set_solver]).
  apply wp_bind. eapply wp_eq; [by eapply rd_pat0|]. cbn [lookup list_lookup default]. change (id x) with x.
  apply wp_bind. eapply wp_eq; [by eapply rd_str|]. apply wp_bind. eapply wp_eq; [by apply same_char_ok|].
  destruct (same nocase x c) eqn:Es; apply wp_ret; (split; [done|]).
  - exists q'. split_and!; [by apply at_next in Hp1|done|]. intros U. specialize (Hglob U). tauto.
  - intros U HU. apply Hglob in HU as [HU _]. congruence.
Qed.

(** *** The whole pattern *)
Definition decided (A : Prop) (r : Z) : Prop := (r = 1 /\ A) \/ (r = 0 /\ ~ A).
Lemma decided_iff A B r : (A <-> B) -> decided A r -> decided B r.
Proof. unfold decided. tauto. Qed.

(** A recursive call decides the rest of the pattern on a string that is not empty. *)
Definition decides (f : Z -> Z -> Z -> Z -> M S Z) (q : list Z) : Prop := forall p plen i slen t s,
  at_place P p plen q -> at_place T i slen t -> t <> [] ->
  wp (f p plen i slen) (fun r s' => s' = s /\ decided (glob nocase q t) r) s.

(** The star: the rest of the pattern is tried at every place of the string. *)
Lemma star_ok f q p plen i slen t s : decides f q -> q <> [] -> q !! 0%nat <> Some 42 ->
  at_place P p plen q -> at_place T i slen t ->
  wp (while_loop (Datatypes.S (Z.to_nat slen)) (fun '(s, slen) =>
        if slen =? 0 then ret (inr 0)
        else
          let* m := f p plen s slen in
          if negb (m =? 0) then ret (inr 1) else ret (inl (s + 1, slen - 1))) (i, slen))
    (fun r s' => s' = s /\ decided (glob nocase (42 :: q) t) r) s.
Proof.
  intros Hf Hne H42 Hq Ht.
  apply (wp_while _ (fun '(i1, slen1) s' => s' = s /\ exists j, 0 <= j <= slen /\
      i1 = i + j /\ slen1 = slen - j /\ forall k, Z.of_nat k < j -> ~ glob nocase q (drop k t))
    (fun a _ => Z.to_nat (snd a))).
  - intros [i1 slen1] s' (-> & j & Hj & -> & -> & Hno). pose proof (at_drop _ _ _ _ j Ht Hj) as Htj.
    assert (Hslen : slen = zlen t) by apply Ht. unfold zlen in Hslen.
    destruct (Z.eqb_spec (slen - j) 0) as [E|Hgt].
    + apply wp_ret. split; [done|]. right. split; [done|]. rewrite glob_star_iff. intros [k Hk].
      destruct (decide (Z.of_nat k < j)); [by eapply Hno|]. rewrite drop_ge in Hk by lia.
      apply glob_nil_star in Hk as [?|[? ->]]; [done|]. by destruct H42.
    + apply wp_bind. eapply wp_mono; [apply Hf; [exact Hq|exact Htj|]|].
      { intros E%(f_equal length). rewrite length_drop in E. cbn [length] in E. lia. }
      intros r s' [-> [[-> Hg]|[-> Hg]]]; cbn [Z.eqb negb]; apply wp_ret; (split; [|]).
      * done.
      * left. split; [done|]. apply glob_star_iff. eauto.
      * split; [done|]. exists (j + 1). split_and!; [lia|lia|lia|lia|]. intros k Hk.
        destruct (Z.eq_dec (Z.of_nat k) j) as [<-|]; [by rewrite Nat2Z.id in Hg|apply Hno; lia].
      * cbn [snd]. lia.
  - split; [done|]. exists 0. destruct Ht as (_ & -> & _). pose proof (zlen_nonneg t). split_and!; lia.
  - cbn [snd]. lia.
Qed.

(** What the main loop keeps: the rest of the pattern on the rest of the string
    decides the match. *)
Definition matching (fuel : nat) (q t : list Z) (st : Z * Z * Z * Z) : Prop :=
  let '(p1, plen1, i1, slen1) := st in exists q1 t1, at_place P p1 plen1 q1 /\ at_place T i1 slen1 t1 /\
    t1 <> [] /\ zlen q1 <= Z.of_nat fuel /\ (glob nocase q1 t1 <-> glob nocase q t).

Lemma stringmatch_rec_ok fuel : forall q, zlen q < Z.of_nat fuel ->
  decides (stringmatch_rec fuel pat str nocase) q.
Proof.
  induction fuel as [|fuel IH]; intros q Hfuel p plen i slen t s Hq Ht Hne; [pose proof (zlen_nonneg q); lia|].
  cbn [stringmatch_rec]. apply wp_bind. eapply wp_mono.
  { apply (wp_while _ (fun st s' => s' = s /\ matching fuel q t st) (fun st _ => Z.to_nat (snd st))
      (fun r s' => s' = s /\ decided (glob nocase q t)
         (match r with inl v => v | inr (plen, slen) => b2z ((plen =? 0) && (slen =? 0)) end))).
    - intros [[[p1 plen1] i1] slen1] s' (-> & q1 & t1 & Hq1 & Ht1 & Hne1 & Hle & Hiff).
      assert (Hplen : plen1 = zlen q1) by apply Hq1. assert (Hslen : slen1 = zlen t1) by apply Ht1.
      destruct t1 as [|c t1]; [done|]. rewrite zlen_cons in Hslen. pose proof (zlen_nonneg t1) as Ht0.
      rewrite (proj2 (Z.eqb_neq slen1 0)) by lia. rewrite orb_false_r. destruct q1 as [|c0 q1].
      { change (zlen (@nil Z)) with 0 in Hplen. subst plen1. change (0 =? 0) with true. cbn beta iota.
        apply wp_ret. split; [done|]. right. rewrite (proj2 (Z.eqb_neq slen1 0)) by lia.
        split; [done|]. by rewrite <- Hiff, glob_empty. }
      rewrite zlen_cons in Hplen, Hle. pose proof (zlen_nonneg q1) as Hq0. rewrite (proj2 (Z.eqb_neq plen1 0)) by lia.
      apply wp_bind. eapply wp_eq; [by eapply rd_pat0|]. cbn [lookup list_lookup default]. change (id c0) with c0.
      destruct (Z.eqb_spec c0 42) as [->|H42].
      + apply wp_bind. eapply wp_mono; [apply skip_stars_ok; by eapply at_next|].
        intros [p' plen'] s' (-> & k & q' & -> & Hq' & Hp'). rewrite glob_stars in Hiff.
        assert (Hplen' : plen' - 1 = zlen q') by apply Hp'.
        destruct (Z.eqb_spec plen' 1) as [->|Hne'].
        * apply wp_ret. split; [done|]. left. split; [done|]. apply Hiff, glob_star_iff. exists (length (c :: t1)).
          rewrite drop_all. destruct q'; [constructor|]. rewrite zlen_cons in Hplen'. pose proof (zlen_nonneg q'). lia.
        * apply wp_bind. eapply wp_mono; [eapply (star_ok (stringmatch_rec fuel pat str nocase) q'); try done|].
          -- apply IH. rewrite zlen_app in Hle. pose proof (zlen_nonneg (replicate k 42)). lia.
          -- intros ->. change (zlen (@nil Z)) with 0 in Hplen'. lia.
          -- intros r s' [-> Hr]. apply wp_ret. split; [done|]. by eapply decided_iff.
      + apply wp_bind. eapply wp_mono; [by eapply match_one_ok|]. cbn beta. intros [[p' plen']|] s' [-> Hr].
        * destruct Hr as (q' & Hq' & Hlen & Hglob). rewrite (Hglob t1) in Hiff. apply at_next in Ht1.
          cbn beta iota zeta. destruct (Z.eqb_spec (slen1 - 1) 0) as [E|Hne2].
          -- assert (t1 = []) as -> by (destruct t1; [done|]; rewrite zlen_cons in *; pose proof (zlen_nonneg t1); lia).
             apply wp_bind. eapply wp_mono; [apply (skip_stars_ok 0); by rewrite Z.add_0_r, Z.sub_0_r|].
             intros [p2 plen2] s' (-> & k & q2 & -> & Hh & Hp2). rewrite Z.sub_0_r in Hp2. apply wp_ret. split; [done|].
             apply (decided_iff _ _ _ Hiff). unfold decided. rewrite glob_stars_nil by done. rewrite E. cbn [Z.eqb].
             rewrite andb_true_r. destruct Hp2 as (_ & -> & _). destruct q2 as [|a q2]; [by left|].
             rewrite zlen_cons. pose proof (zlen_nonneg q2). rewrite (proj2 (Z.eqb_neq _ 0)) by lia. by right.
          -- apply wp_ret. split; [split; [done|]|cbn [snd]; lia]. exists q', t1. split_and!; [done|done| | |done].
             ++ intros ->. change (zlen (@nil Z)) with 0 in Hslen. lia.
             ++ unfold zlen in *. lia.
        * apply wp_ret. split; [done|]. right. split; [done|]. rewrite <- Hiff. apply Hr.
    - split; [done|]. exists q, t. split_and!; try done. lia.
    - cbn [snd]. lia. }
  intros [v|[plen' slen']] s' [-> Hr]; by apply wp_ret.
Qed.
End places.

(** ** Properties *)
Lemma strlen_ok {S} (l : list Z) rest (s : S) : 0 ∉ l -> strlen ((Some <$> l) ++ Some 0 :: rest) s = Ret (zlen l) s.
Proof.
  intros Hl. set (b := (Some <$> l) ++ Some 0 :: rest).
  assert (Hrd : forall i, 0 <= i <= zlen l -> rd b i s = Ret (default 0 (l !! Z.to_nat i)) s).
  { intros i Hi. apply (rd_pat l rest 0 (zlen l) l i s); [by split_and!|done]. }
  assert (Hw : wp (strlen b) (fun n s' => s' = s /\ n = zlen l) s).
  { apply (wp_while _ (fun i s' => s' = s /\ 0 <= i <= zlen l) (fun i _ => Z.to_nat (zlen l - i))).
    - intros i s' [-> Hi]. apply wp_bind. eapply wp_eq; [by apply Hrd|].
      destruct (decide (i = zlen l)) as [->|Hne].
      + rewrite lookup_ge_None_2 by (unfold zlen; lia). by apply wp_ret.
      + destruct (lookup_lt_is_Some_2 l (Z.to_nat i)) as [c Hc]; [unfold zlen in *; lia|]. rewrite Hc.
        cbn [default]. change (id c) with c. destruct (Z.eqb_spec c 0) as [->|_].
        * destruct Hl. by eapply list_elem_of_lookup_2.
        * apply wp_ret. split; [split; [done|lia]|lia].
    - split; [done|]. pose proof (zlen_nonneg l). lia.
    - unfold b, zlen. rewrite length_app, length_fmap. cbn [length]. lia. }
  apply wp_inv in Hw as (n & s' & -> & -> & ->). done.
Qed.

(** C31: on a pattern with a zero behind it [stringmatchlen] ends without reading
    outside its arguments, and returns 1 when the string matches the pattern and
    0 when it does not, except that the empty string is matched by the empty
    pattern only, not by stars. Case is folded for ASCII text only. [stringmatch]
    returns the same for strings that end with their first zero. *)
Theorem stringmatch_decides {S} (nocase : Z) (P T : list Z) (restP restT : buf) (s : S) :
  nocase = 0 \/ Forall (fun x => 0 <= x < 128) P /\ Forall (fun x => 0 <= x < 128) T ->
  exists r, stringmatchlen ((Some <$> P) ++ Some 0 :: restP) (zlen P) ((Some <$> T) ++ restT) (zlen T) nocase s
      = Ret r s /\ (r = 0 \/ r = 1) /\
    (r = 1 <-> glob nocase P T /\ (T = [] -> P = [])) /\
    (0 ∉ P -> 0 ∉ T -> forall rest, restT = Some 0 :: rest ->
       stringmatch ((Some <$> P) ++ Some 0 :: restP) ((Some <$> T) ++ restT) nocase s = Ret r s).
Proof.
  intros Hcase.
  assert (Hr : exists r, stringmatchlen ((Some <$> P) ++ Some 0 :: restP) (zlen P) ((Some <$> T) ++ restT) (zlen T) nocase s
      = Ret r s /\ (r = 0 \/ r = 1) /\ (r = 1 <-> glob nocase P T /\ (T = [] -> P = []))).
  { unfold stringmatchlen. destruct T as [|c T].
    - exists (b2z (zlen P =? 0)). split.
      + change (zlen (@nil Z)) with 0. cbn [stringmatch_rec while_loop Z.to_nat]. change (0 =? 0) with true.
        rewrite (orb_true_r (zlen P =? 0)). unfold bind, ret. by rewrite andb_true_r.
      + split; [unfold b2z; destruct (zlen P =? 0); auto|]. destruct P as [|x P].
        * split; [intros _; split; [constructor|done]|done].
        * rewrite zlen_cons. pose proof (zlen_nonneg P). rewrite (proj2 (Z.eqb_neq _ 0)) by lia.
          split; [done|]. intros [_ H']. by specialize (H' eq_refl).
    - pose proof (zlen_nonneg P).
      destruct (wp_inv _ _ _ (stringmatch_rec_ok P (c :: T) restP restT nocase Hcase (Datatypes.S (Z.to_nat (zlen P))) P
        ltac:(lia) 0 (zlen P) 0 (zlen (c :: T)) (c :: T) s (at_start _) (at_start _) ltac:(done))) as (r & s' & -> & -> & Hr).
      exists r. split; [done|]. destruct Hr as [[-> Hg]|[-> Hg]]; (split; [auto|]); (split; [|]); try done; tauto. }
  destruct Hr as (r & E & H01 & Hiff). exists r. split_and!; [done..|]. intros HP HT rest ->.
  unfold stringmatch. erewrite bind_ret_eq by (by apply strlen_ok). by erewrite bind_ret_eq by (by apply strlen_ok).
Qed.

(** The pattern [he\*l?[k-o]] and the string [HE*lxO], without regard to case. *)
Definition some_pattern : list Z := [104; 101; 92; 42; 42; 108; 63; 91; 107; 45; 111; 93].
Definition some_string : list Z := [72; 69; 42; 108; 120; 79].
Lemma stringmatch_decides_witness :
  stringmatch ((Some <$> some_pattern) ++ [Some 0]) ((Some <$> some_string) ++ [Some 0]) 1 tt = Ret 1 tt /\
  exists r, stringmatchlen ((Some <$> some_pattern) ++ [Some 0]) (zlen some_pattern)
      ((Some <$> some_string) ++ [Some 0]) (zlen some_string) 1 tt = Ret r tt /\ (r = 0 \/ r = 1) /\
    (r = 1 <-> glob 1 some_pattern some_string /\ (some_string = [] -> some_pattern = [])) /\
    (0 ∉ some_pattern -> 0 ∉ some_string -> forall rest, [Some 0] = Some 0 :: rest ->
       stringmatch ((Some <$> some_pattern) ++ [Some 0]) ((Some <$> some_string) ++ [Some 0]) 1 tt = Ret r tt).
Proof.
  split; [vm_compute; reflexivity|].
  apply (stringmatch_decides 1 some_pattern some_string [] [Some 0] tt).
  right. split; repeat constructor; done.
Defined.

(** A star does not match the empty string, though it stands for any sequence. *)
Lemma star_misses_empty {S} (s : S) : stringmatch [Some 42; Some 0] [Some 0] 0 s = Ret 0 s /\ glob 0 [42] [].
Proof. split; [reflexivity|]. apply (glob_star 0 [] [] []). constructor. Qed.
(** Without regard to case, "[C-a]" contains neither 'C' nor 'a': the bounds are
    put in order before they are folded. *)
Lemma mixed_range_is_empty {S} (s : S) :
  stringmatch (Some <$> [91; 67; 45; 97; 93; 0]) (Some <$> [67; 0]) 1 s = Ret 0 s /\
  stringmatch (Some <$> [91; 67; 45; 97; 93; 0]) (Some <$> [97; 0]) 1 s = Ret 0 s.
Proof. split; reflexivity. Qed.
(** Without regard to case, "[\a]" does not contain 'A'. *)
Lemma escaped_member_keeps_case {S} (s : S) :
  stringmatch (Some <$> [91; 92; 97; 93; 0]) (Some <$> [65; 0]) 1 s = Ret 0 s /\
  stringmatch (Some <$> [91; 97; 93; 0]) (Some <$> [65; 0]) 1 s = Ret 1 s.
Proof. split; reflexivity. Qed.
(** The length of the pattern does not bound what is read of it: with another star
    behind a pattern that is not terminated, the function runs off its end. *)
Lemma unterminated_pattern_overread {S} (s : S) :
  stringmatchlen [Some 42; Some 42] 1 [Some 97] 1 0 s = Fault OutOfBounds.
Proof. reflexivity. Qed.
