(* ===== verification/Lzf.v ===== *)
(** lzf_c.c and lzf_d.c of the Redis the project ships: LZF compression, in the
    64-bit Windows configuration of lzfP.h (VERY_FAST, table of offsets, no
    initialisation of the table, input checked, bytes compared one by one).
    A pointer into the input or the output is an index. *)
From S2P Require Import Prelude Util.
#[local] Open Scope Z_scope.

Definition E2BIG : Z := 7.
Definition EINVAL : Z := 22.

Definition HLOG : Z := 16.
Definition HSIZE : Z := Z.shiftl 1 HLOG.
Definition MAX_LIT : Z := Z.shiftl 1 5.
Definition MAX_OFF : Z := Z.shiftl 1 13.
Definition MAX_REF : Z := Z.shiftl 1 8 + Z.shiftl 1 3.

(** [unsigned int htab[HSIZE]]: never initialised, so that any contents may be
    found in it. *)
Definition LZF_STATE : Type := Z -> Z.
Definition set_slot (htab : LZF_STATE) (i v : Z) : LZF_STATE := fun j => if j =? i then v else htab j.

(** The locals of [lzf_compress] that its loop changes, with the output. *)
Record lzf_locals := { ip : Z; op : Z; hval : Z; lit : Z; htab : LZF_STATE; out : buf }.

Section compress.
Context {S : Type}.

Definition FRST (p : list Z) (ip : Z) : M S Z :=
  let* a := arr_get p ip in
  let* b := arr_get p (ip + 1) in ret (Z.lor (Z.shiftl a 8) b).
Definition NEXT (v : Z) (p : list Z) (ip : Z) : M S Z :=
  let* c := arr_get p (ip + 2) in ret (Z.lor (u32 (Z.shiftl v 8)) c).
Definition IDX (h : Z) : Z := Z.land (u32 (Z.shiftr h (3 * 8 - HLOG) - u32 (h * 5))) (HSIZE - 1).

(** Whether the three bytes at [ref] are those at [ip], and [ref] is close enough. *)
Definition is_match (p : list Z) (ref ip : Z) : M S bool :=
  if (u64 (ip - ref - 1) <? MAX_OFF) && (0 <? ref) then
    let* r2 := arr_get p (ref + 2) in
    let* i2 := arr_get p (ip + 2) in
    if r2 =? i2 then
      let* r1 := arr_get p (ref + 1) in
      let* r0 := arr_get p ref in
      let* i1 := arr_get p (ip + 1) in
      let* i0 := arr_get p ip in
      ret (Z.lor (Z.shiftl r1 8) r0 =? Z.lor (Z.shiftl i1 8) i0)
    else ret false
  else ret false.

(** [len++; if (ref [len] != ip [len]) break;], written [k] times; whether all
    of them were passed. *)
Fixpoint compare_bytes (p : list Z) (ref ip : Z) (k : nat) (len : Z) : M S (Z * bool) :=
  match k with
  | O => ret (len, true)
  | Datatypes.S k =>
      let len := len + 1 in
      let* a := arr_get p (ref + len) in
      let* b := arr_get p (ip + len) in
      if a =? b then compare_bytes p ref ip k len else ret (len, false)
  end.

(** [for (;;) { if (maxlen > 16) { ... } do len++; while (...); break; }] *)
Definition match_length (p : list Z) (ref ip maxlen : Z) : M S Z :=
  let len := 2 in
  let* (len, equal) := (if 16 <? maxlen then compare_bytes p ref ip 16 len else ret (len, true)) in
  if (equal : bool) then
    while_loop (Z.to_nat MAX_REF) (fun len =>
      let len := len + 1 in
      if len <? maxlen then
        let* a := arr_get p (ref + len) in
        let* b := arr_get p (ip + len) in
        if a =? b then ret (inl len) else ret (inr len)
      else ret (inr len)) len
  else ret len.

(** [op [- lit - 1] = lit - 1] *)
Definition stop_run (l : lzf_locals) : M S buf := wr (out l) (op l - lit l - 1) (lit l - 1).

(** Entering the position [ip] into the table, [hval] being that of the bytes
    before it. *)
Definition enter (in_data : list Z) (hval ip : Z) (htab : LZF_STATE) : M S (Z * LZF_STATE) :=
  let* hval := NEXT hval in_data ip in ret (hval, set_slot htab (IDX hval) (u32 ip)).

(** The bytes of a back reference, [len] being the number of octets less 2. *)
Definition put_reference (off len : Z) (out : buf) (op : Z) : M S (buf * Z) :=
  let* (out, op) :=
    (if len <? 7 then
       let* out := wr out op (Z.shiftr off 8 + Z.shiftl len 5) in ret (out, op + 1)
     else
       let* out := wr out op (Z.shiftr off 8 + Z.shiftl 7 5) in
       let* out := wr out (op + 1) (len - 7) in ret (out, op + 2)) in
  let* out := wr out op off in ret (out, op + 1).

(** A match was found at [ref]. A result [inr (l, b)] leaves the loop: with a
    [return 0], or for [b] true with a [break]. *)
Definition emit_match (in_data : list Z) (in_len out_len ref : Z) (l : lzf_locals)
    : M S (lzf_locals + lzf_locals * bool) :=
  let off := u64 (ip l - ref - 1) in
  let maxlen := u32 (in_len - ip l - 2) in
  let maxlen := if MAX_REF <? maxlen then MAX_REF else maxlen in
  if (out_len <=? op l + 3 + 1) && (out_len <=? op l - b2z (lit l =? 0) + 3 + 1) then ret (inr (l, false))
  else
    let* out := stop_run l in
    let op := op l - b2z (lit l =? 0) in
    let* len := match_length in_data ref (ip l) maxlen in
    let len := len - 2 in
    let ip := ip l + 1 in
    let* (out, op) := put_reference off len out op in
    let op := op + 1 in
    let ip := ip + (len + 1) in
    if in_len - 2 <=? ip then
      ret (inr ({| ip := ip; op := op; hval := hval l; lit := 0; htab := htab l; out := out |}, true))
    else
      let ip := ip - 1 in
      let ip := ip - 1 in
      let* hval := FRST in_data ip in
      let* (hval, htab) := enter in_data hval ip (htab l) in
      let ip := ip + 1 in
      let* (hval, htab) := enter in_data hval ip htab in
      let ip := ip + 1 in
      ret (inl {| ip := ip; op := op; hval := hval; lit := 0; htab := htab; out := out |}).

(** [lit++; *op++ = *ip++;] and, when the run is full, the start of another. *)
Definition emit_literal (in_data : list Z) (l : lzf_locals) : M S lzf_locals :=
  let* v := arr_get in_data (ip l) in
  let* out := wr (out l) (op l) v in
  let l := {| ip := ip l + 1; op := op l + 1; hval := hval l; lit := lit l + 1; htab := htab l; out := out |} in
  if lit l =? MAX_LIT then
    let* out := stop_run l in
    ret {| ip := ip l; op := op l + 1; hval := hval l; lit := 0; htab := htab l; out := out |}
  else ret l.

Definition compress_turn (in_data : list Z) (in_len out_len : Z) (l : lzf_locals)
    : M S (lzf_locals + lzf_locals * bool) :=
  if ip l <? in_len - 2 then
    let* hval := NEXT (hval l) in_data (ip l) in
    let ref := htab l (IDX hval) in
    let l := {| ip := ip l; op := op l; hval := hval; lit := lit l;
                htab := set_slot (htab l) (IDX hval) (u32 (ip l)); out := out l |} in
    let* hit := is_match in_data ref (ip l) in
    if (hit : bool) then emit_match in_data in_len out_len ref l
    else if out_len <=? op l then ret (inr (l, false))
    else let* l := emit_literal in_data l in ret (inl l)
  else ret (inr (l, true)).

(** What follows the loop: the last bytes, the end of the run. *)
Definition compress_end (in_data : list Z) (in_len out_len : Z) (l : lzf_locals) : M S (Z * buf) :=
  if out_len <? op l + 3 then ret (0, out l)
  else
    let* l := while_loop (Datatypes.S (length in_data)) (fun l =>
      if ip l <? in_len then let* l := emit_literal in_data l in ret (inl l) else ret (inr l)) l in
    let* out := stop_run l in
    ret (op l - b2z (lit l =? 0), out).

(** Returns the length of the output and the output; [htab] is what the
    uninitialised table holds. *)
Definition lzf_compress (htab : LZF_STATE) (in_data : list Z) (in_len : Z) (out_data : buf) (out_len : Z)
    : M S (Z * buf) :=
  if (in_len =? 0) || (out_len =? 0) then ret (0, out_data)
  else
    let* hval := FRST in_data 0 in
    let* r := while_loop (Datatypes.S (length in_data)) (compress_turn in_data in_len out_len)
      {| ip := 0; op := 1; hval := hval; lit := 0; htab := htab; out := out_data |} in
    let '(l, go_on) := r in
    if go_on then compress_end in_data in_len out_len l else ret (0, out l).
End compress.

(** ** lzf_d.c

    The state is [errno]. *)

(** [*op++ = *ip++], [n] times. *)
Definition copy_in {S} (n : nat) (in_data : list Z) (ip : Z) (out : buf) (op : Z) : M S buf :=
  for_loop n 0 (fun i out => let* v := arr_get in_data (ip + i) in wr out (op + i) v) out.
(** [*op++ = *ref++], [n] times, inside the output. *)
Definition copy_out {S} (n : nat) (out : buf) (op ref : Z) : M S buf :=
  for_loop n 0 (fun i out => let* v := rd out (ref + i) in wr out (op + i) v) out.

(** [errno = e; return 0;] *)
Definition set_errno_return (e : Z) (out : buf) : M Z (Z * Z * buf + Z * buf) :=
  Prelude.put e ;;; ret (inr (0, out)).

Definition literal_run (in_data : list Z) (in_len out_len ctrl : Z) (l : Z * Z * buf)
    : M Z (Z * Z * buf + Z * buf) :=
  let '(ip, op, out) := l in
  let ctrl := ctrl + 1 in
  if out_len <? op + ctrl then set_errno_return E2BIG out
  else if in_len <? ip + ctrl then set_errno_return EINVAL out
  else let* out := copy_in (Z.to_nat ctrl) in_data ip out op in ret (inl (ip + ctrl, op + ctrl, out)).

(** The [switch] on the length of a back reference: up to 9 the copy is
    unrolled, above it is a [memcpy] where the areas do not overlap. *)
Definition copy_reference (len : Z) (out : buf) (op ref : Z) : M Z (Z * buf) :=
  if len <=? 9 then let* out := copy_out (Z.to_nat (len + 2)) out op ref in ret (op + (len + 2), out)
  else
    let len := len + 2 in
    let* out := (if ref + len <=? op then memcpy out op out ref len
                 else copy_out (Z.to_nat len) out op ref) in
    ret (op + len, out).

Definition back_reference (in_data : list Z) (in_len out_len ctrl : Z) (l : Z * Z * buf)
    : M Z (Z * Z * buf + Z * buf) :=
  let '(ip, op, out) := l in
  let len := Z.shiftr ctrl 5 in
  let ref := op - Z.shiftl (Z.land ctrl 31) 8 - 1 in
  if in_len <=? ip then set_errno_return EINVAL out
  else
    let* (len, ip) := (if len =? 7 then let* x := arr_get in_data ip in ret (len + x, ip + 1)
                       else ret (len, ip)) in
    if (Z.shiftr ctrl 5 =? 7) && (in_len <=? ip) then set_errno_return EINVAL out
    else
      let* x := arr_get in_data ip in
      let ref := ref - x in
      let ip := ip + 1 in
      if out_len <? op + len + 2 then set_errno_return E2BIG out
      else if ref <? 0 then set_errno_return EINVAL out
      else let* (op, out) := copy_reference len out op ref in ret (inl (ip, op, out)).

Definition decompress_turn (in_data : list Z) (in_len out_len : Z) (l : Z * Z * buf)
    : M Z (Z * Z * buf + Z * buf) :=
  let '(ip, op, out) := l in
  let* ctrl := arr_get in_data ip in
  let ip := ip + 1 in
  let* r := (if ctrl <? Z.shiftl 1 5 then literal_run in_data in_len out_len ctrl (ip, op, out)
             else back_reference in_data in_len out_len ctrl (ip, op, out)) in
  match r with
  | inr z => ret (inr z)
  | inl (ip, op, out) => if ip <? in_len then ret (inl (ip, op, out)) else ret (inr (op, out))
  end.

Definition lzf_decompress (in_data : list Z) (in_len : Z) (out_data : buf) (out_len : Z) : M Z (Z * buf) :=
  while_loop (Datatypes.S (length in_data)) (decompress_turn in_data in_len out_len) (0, 0, out_data).
