(* ===== verification/LzfProofs.v ===== *)
(** LZF: what a compressed text means, that [lzf_decompress] computes it, that
    [lzf_compress] produces a text that means its input, and that neither leaves
    its buffers. *)
From S2P Require Import Prelude Util Lzf.
#[local] Open Scope Z_scope.

(** ** The format

    A compressed text is a sequence of runs of literals and of references to
    what was expanded before: [Ref off len] repeats the [len + 2] bytes that begin
    [off + 1] bytes back, byte by byte, so that it may run into itself. *)
Inductive token := Lit (l : list Z) | Ref (off len : Z).

Definition encode_token (t : token) : list Z :=
  match t with
  | Lit l => (zlen l - 1) :: l
  | Ref off len =>
      if len <? 7 then [off / 256 + 32 * len; off mod 256] else [off / 256 + 224; len - 7; off mod 256]
  end.
Definition encode (ts : list token) : list Z := ts ≫= encode_token.

Definition repeat_one (dist : Z) (h : list Z) : list Z := h ++ [nth (Z.to_nat (zlen h - dist)) h 0].
Definition repeat_back (n : nat) (dist : Z) (h : list Z) : list Z := Nat.iter n (repeat_one dist) h.
Definition expand_token (h : list Z) (t : token) : list Z :=
  match t with Lit l => h ++ l | Ref off len => repeat_back (Z.to_nat (len + 2)) (off + 1) h end.
Definition expand (h : list Z) (ts : list token) : list Z := foldl expand_token h ts.

Definition wf_token (h : list Z) (t : token) : Prop :=
  match t with
  | Lit l => 1 <= zlen l <= 32 /\ Forall is_u8 l
  | Ref off len => 0 <= off < 8192 /\ 1 <= len <= 262 /\ off < zlen h
  end.
Fixpoint wf_tokens (h : list Z) (ts : list token) : Prop :=
  match ts with [] => True | t :: ts => wf_token h t /\ wf_tokens (expand_token h t) ts end.

Lemma expand_app h ts ts' : expand h (ts ++ ts') = expand (expand h ts) ts'.
Proof. apply foldl_app. Qed.
Lemma wf_tokens_app ts : forall h ts', wf_tokens h (ts ++ ts') <-> wf_tokens h ts /\ wf_tokens (expand h ts) ts'.
Proof.
  induction ts as [|t ts IH]; intros h ts'; cbn [app wf_tokens]; [tauto|]. rewrite IH. cbn. tauto.
Qed.
Lemma encode_app ts ts' : encode (ts ++ ts') = encode ts ++ encode ts'.
Proof. apply bind_app. Qed.
Lemma encode_one t : encode [t] = encode_token t.
Proof. unfold encode. cbn. by rewrite app_nil_r. Qed.

(** *** Repeating *)
Lemma repeat_S n d h : repeat_back (Datatypes.S n) d h =
  repeat_back n d h ++ [nth (Z.to_nat (zlen (repeat_back n d h) - d)) (repeat_back n d h) 0].
Proof. done. Qed.
Lemma zlen_repeat n d h : zlen (repeat_back n d h) = Z.of_nat n + zlen h.
Proof.
  induction n as [|n IH]; [done|]. rewrite repeat_S, zlen_app, IH. change (zlen [_]) with 1. lia.
Qed.
Lemma repeat_prefix n d h : exists k, repeat_back n d h = h ++ k.
Proof.
  induction n as [|n [k IH]]; [exists []; by rewrite app_nil_r|]. rewrite repeat_S, IH, <- app_assoc. by eexists.
Qed.
Lemma expand_prefix h t : exists k, expand_token h t = h ++ k.
Proof. destruct t as [l|off len]; [by exists l|apply repeat_prefix]. Qed.
Lemma expand_grows ts : forall h, zlen h <= zlen (expand h ts).
Proof.
  induction ts as [|t ts IH]; intros h; [done|]. pose proof (IH (expand_token h t)) as Hle.
  destruct (expand_prefix h t) as [k Hk]. rewrite Hk, zlen_app in Hle. pose proof (zlen_nonneg k).
  change (expand h (t :: ts)) with (expand (expand_token h t) ts). rewrite Hk. lia.
Qed.

(** A text that repeats itself [n] bytes from [ip] on is what repeating gives. *)
Lemma repeat_text (data : list Z) ip ref n : 0 <= ref < ip -> ip + Z.of_nat n <= zlen data ->
  (forall j, 0 <= j < Z.of_nat n -> data !! Z.to_nat (ref + j) = data !! Z.to_nat (ip + j)) ->
  repeat_back n (ip - ref) (take (Z.to_nat ip) data) = take (Z.to_nat (ip + Z.of_nat n)) data.
Proof.
  intros Hr. induction n as [|n IH]; intros Hn Hj; [by rewrite Z.add_0_r|].
  rewrite repeat_S, IH by (try lia; intros; apply Hj; lia).
  destruct (lookup_lt_is_Some_2 data (Z.to_nat (ip + Z.of_nat n))) as [x Hx]; [unfold zlen in Hn; lia|].
  replace (Z.to_nat (ip + Z.of_nat (Datatypes.S n))) with (Datatypes.S (Z.to_nat (ip + Z.of_nat n))) by lia.
  rewrite (take_S_r _ _ x Hx). do 2 f_equal.
  assert (Hz : zlen (take (Z.to_nat (ip + Z.of_nat n)) data) = ip + Z.of_nat n)
    by (unfold zlen in *; rewrite length_take; lia).
  rewrite Hz, nth_lookup, lookup_take_lt by lia. replace (ip + Z.of_nat n - (ip - ref)) with (ref + Z.of_nat n) by lia.
  by rewrite Hj, Hx by lia.
Qed.

(** ** Expanding *)
Section decompress.
Implicit Types (e : Z) (h r : list Z) (q : buf).

Lemma out_read h q i e : 0 <= i < zlen h -> rd ((Some <$> h) ++ q) i e = Ret (nth (Z.to_nat i) h 0) e.
Proof.
  intros Hi. destruct (lookup_lt_is_Some_2 h (Z.to_nat i)) as [x Hx]; [unfold zlen in Hi; lia|].
  rewrite (nth_lookup_Some _ _ 0 _ Hx). apply rd_eq; [lia|by apply lookup_prefix].
Qed.
(** The next byte of the output. *)
Lemma out_write {S} h q v (e : S) : 0 < zlen q ->
  wr ((Some <$> h) ++ q) (zlen h) v e = Ret ((Some <$> h ++ [u8 v]) ++ drop 1 q) e.
Proof.
  intros Hq. destruct q as [|c q]; [by cbn in Hq|].
  rewrite wr_app by (by rewrite zlen_fmap). by rewrite fmap_app.
Qed.
Lemma in_read (p : list Z) k l i x e : 0 <= k -> drop (Z.to_nat k) p = l -> l !! Z.to_nat i = Some x -> 0 <= i ->
  arr_get p (k + i) e = Ret x e.
Proof.
  intros Hk <- Hx Hi. apply arr_get_eq; [lia|]. rewrite lookup_drop in Hx. rewrite <- Hx. f_equal. lia.
Qed.

Lemma copy_in_ok p ip l more h q e : 0 <= ip -> drop (Z.to_nat ip) p = l ++ more -> Forall is_u8 l -> zlen l <= zlen q ->
  copy_in (length l) p ip ((Some <$> h) ++ q) (zlen h) e = Ret ((Some <$> h ++ l) ++ drop (length l) q) e.
Proof.
  intros Hi Hd Hu Hq. unfold copy_in.
  assert (Hg : wp (for_loop (length l) 0 (fun i out => let* v := arr_get p (ip + i) in wr out (zlen h + i) v)
    ((Some <$> h) ++ q)) (fun out e' => e' = e /\
      out = (Some <$> h ++ take (Z.to_nat (0 + Z.of_nat (length l))) l) ++ drop (Z.to_nat (0 + Z.of_nat (length l))) q) e).
  { apply (wp_for _ (fun i out e' => e' = e /\ out = (Some <$> h ++ take (Z.to_nat i) l) ++ drop (Z.to_nat i) q)).
    - split; [done|]. change (Z.to_nat 0) with 0%nat. by rewrite take_0, app_nil_r, drop_0.
    - intros i out e' Hi' [-> ->]. destruct (lookup_lt_is_Some_2 l (Z.to_nat i)) as [x Hx]; [lia|].
      apply wp_bind. eapply wp_eq; [apply (in_read p ip _ i x e Hi Hd); [by apply lookup_app_l_Some|lia]|].
      assert (Hz : zlen (h ++ take (Z.to_nat i) l) = zlen h + i) by (rewrite zlen_app; unfold zlen; rewrite length_take; lia).
      rewrite <- Hz. eapply wp_eq; [apply out_write; unfold zlen in *; rewrite length_drop; lia|]. split; [done|].
      replace (Z.to_nat (i + 1)) with (Datatypes.S (Z.to_nat i)) by lia.
      rewrite drop_drop, (take_S_r _ _ x Hx), app_assoc. rewrite u8_id by (by eapply Forall_lookup_1 in Hx).
      do 2 f_equal. lia. }
  apply wp_inv in Hg as (out & e' & -> & -> & ->). replace (Z.to_nat _) with (length l) by lia. by rewrite firstn_all.
Qed.

Lemma repeat_u8 n d h : Forall is_u8 h -> Forall is_u8 (repeat_back n d h).
Proof.
  intros Hh. induction n as [|n IH]; [done|]. rewrite repeat_S. apply Forall_app. split; [done|]. apply Forall_singleton. rewrite nth_lookup.
  destruct (_ !! _) as [x|] eqn:E; [by eapply Forall_lookup_1 in E|]. cbn. by split.
Qed.

Lemma copy_out_ok n d h q e : 1 <= d <= zlen h -> Forall is_u8 h -> Z.of_nat n <= zlen q ->
  copy_out n ((Some <$> h) ++ q) (zlen h) (zlen h - d) e = Ret ((Some <$> repeat_back n d h) ++ drop n q) e.
Proof.
  intros Hd Hu Hq. unfold copy_out.
  assert (Hg : wp (for_loop n 0 (fun i out => let* v := rd out (zlen h - d + i) in wr out (zlen h + i) v)
    ((Some <$> h) ++ q)) (fun out e' => e' = e /\
      out = (Some <$> repeat_back (Z.to_nat (0 + Z.of_nat n)) d h) ++ drop (Z.to_nat (0 + Z.of_nat n)) q) e).
  { apply (wp_for _ (fun i out e' => e' = e /\ out = (Some <$> repeat_back (Z.to_nat i) d h) ++ drop (Z.to_nat i) q)).
    - split; [done|]. change (Z.to_nat 0) with 0%nat. by rewrite drop_0.
    - intros i out e' Hi [-> ->]. pose proof (zlen_repeat (Z.to_nat i) d h) as Hz.
      replace (zlen h + i) with (zlen (repeat_back (Z.to_nat i) d h)) by lia.
      apply wp_bind. eapply wp_eq; [apply out_read; lia|].
      eapply wp_eq; [apply out_write; unfold zlen in *; rewrite length_drop; lia|]. split; [done|].
      replace (Z.to_nat (i + 1)) with (Datatypes.S (Z.to_nat i)) by lia. rewrite drop_drop.
      pose proof (repeat_u8 (Datatypes.S (Z.to_nat i)) d h Hu) as Hu'.
      rewrite repeat_S in *. apply Forall_app in Hu' as [_ Hx]. rewrite Forall_singleton in Hx.
      replace (zlen h - d + i) with (zlen (repeat_back (Z.to_nat i) d h) - d) by lia. rewrite u8_id by exact Hx. do 2 f_equal. lia. }
  apply wp_inv in Hg as (out & e' & -> & -> & ->). by replace (Z.to_nat _) with n by lia.
Qed.

(** Areas that do not overlap are copied at once. *)
Lemma repeat_disjoint n d h : 1 <= d <= zlen h -> Z.of_nat n <= d ->
  repeat_back n d h = h ++ take n (drop (Z.to_nat (zlen h - d)) h).
Proof.
  intros Hd. induction n as [|n IH]; intros Hn; [by rewrite take_0, app_nil_r|].
  rewrite repeat_S, IH by lia. destruct (lookup_lt_is_Some_2 h (Z.to_nat (zlen h - d) + n)) as [x Hx]; [unfold zlen in *; lia|].
  rewrite (take_S_r _ _ x) by (by rewrite lookup_drop). rewrite app_assoc. do 2 f_equal.
  set (k := take n _). assert (Hk : zlen k = Z.of_nat n) by (unfold k, zlen in *; rewrite length_take, length_drop; lia).
  rewrite zlen_app, Hk, nth_lookup, lookup_app_l by (unfold zlen in *; lia).
  replace (Z.to_nat (zlen h + Z.of_nat n - d)) with (Z.to_nat (zlen h - d) + n)%nat by lia. by rewrite Hx.
Qed.

Lemma copy_reference_ok len d h q e : 1 <= d <= zlen h -> Forall is_u8 h -> 1 <= len -> len + 2 <= zlen q ->
  copy_reference len ((Some <$> h) ++ q) (zlen h) (zlen h - d) e =
    Ret (zlen h + (len + 2), (Some <$> repeat_back (Z.to_nat (len + 2)) d h) ++ drop (Z.to_nat (len + 2)) q) e.
Proof.
  intros Hd Hu Hl Hq. unfold copy_reference.
  destruct (len <=? 9); [by erewrite bind_ret_eq by (apply copy_out_ok; (done || lia))|].
  cbv zeta. destruct (Z.leb_spec (zlen h - d + (len + 2)) (zlen h)).
  - erewrite bind_ret_eq; [reflexivity|].
    pose (k := take (Z.to_nat (len + 2)) (drop (Z.to_nat (zlen h - d)) h)).
    assert (Hk : zlen k = len + 2) by (unfold k, zlen in *; rewrite length_take, length_drop; lia).
    assert (Hkn : length k = Z.to_nat (len + 2)) by (unfold zlen in Hk; lia).
    rewrite repeat_disjoint by lia. fold k. rewrite <- Hk, <- (zlen_fmap Some h) at 1.
    rewrite fmap_app, <- app_assoc, <- Hkn.
    replace (Z.to_nat (zlen k)) with (length k) by (unfold zlen; lia).
    apply (memcpy_app (Some <$> h) q _ _ k ((Some <$> drop (Z.to_nat (len + 2)) (drop (Z.to_nat (zlen h - d)) h)) ++ q)).
    + rewrite zlen_app, zlen_fmap. pose proof (zlen_nonneg q). lia.
    + rewrite drop_app_le by (rewrite length_fmap; unfold zlen in *; lia).
      rewrite <- fmap_drop, app_assoc, <- fmap_app. unfold k. by rewrite take_drop.
    + lia.
  - by erewrite bind_ret_eq by (apply copy_out_ok; (done || lia)).
Qed.

(** The first byte of a reference. *)
Lemma ctrl_fields hi k : 0 <= hi < 32 -> 0 <= k -> Z.shiftr (hi + 32 * k) 5 = k /\ Z.land (hi + 32 * k) 31 = hi.
Proof.
  intros Hh Hk. rewrite Z.shiftr_div_pow2 by lia. change 31 with (Z.ones 5). rewrite Z.land_ones by lia.
  change (2 ^ 5) with 32. split; zdiv.
Qed.

(** One turn handles one token, if its expansion fits. *)
Definition after_turn (data pre : list Z) (t : token) (h : list Z) (q : buf) : Z * Z * buf + Z * buf :=
  let h' := expand_token h t in
  let q' := drop (length h' - length h) q in
  if zlen (pre ++ encode_token t) <? zlen data
  then inl (zlen (pre ++ encode_token t), zlen h', (Some <$> h') ++ q') else inr (zlen h', (Some <$> h') ++ q').

Lemma turn_literals data pre l post h q e : data = pre ++ encode_token (Lit l) ++ post -> wf_token h (Lit l) ->
  let out := (Some <$> h) ++ q in
  decompress_turn data (zlen data) (zlen out) (zlen pre, zlen h, out) e =
    if zlen h + zlen l <=? zlen out then Ret (after_turn data pre (Lit l) h q) e else Ret (inr (0, out)) E2BIG.
Proof.
  intros Hdata [Hl Hu] out. cbn [encode_token] in Hdata. pose proof (zlen_nonneg pre). pose proof (zlen_nonneg post).
  assert (Hz : zlen data = zlen pre + (1 + zlen l) + zlen post) by (rewrite Hdata, !zlen_app, zlen_cons; lia).
  unfold decompress_turn. erewrite bind_ret_eq.
  2: { apply arr_get_eq; [done|]. rewrite Hdata, lookup_app_r by (unfold zlen; lia).
       replace (_ - _)%nat with 0%nat by (unfold zlen; lia). reflexivity. }
  change (Z.shiftl 1 5) with 32. rewrite (proj2 (Z.ltb_lt _ _)) by lia. unfold literal_run.
  replace (zlen l - 1 + 1) with (zlen l) by lia. cbv zeta.
  destruct (Z.leb_spec (zlen h + zlen l) (zlen out)) as [Hle|Hgt].
  2: { rewrite (proj2 (Z.ltb_lt _ _)) by lia. done. }
  rewrite (proj2 (Z.ltb_ge _ _)), (proj2 (Z.ltb_ge _ _)) by lia.
  replace (Z.to_nat (zlen l)) with (length l) by (unfold zlen; lia).
  assert (Hq : zlen l <= zlen q) by (unfold out in Hle; rewrite zlen_app, zlen_fmap in Hle; lia).
  rewrite bind_assoc. erewrite bind_ret_eq.
  2: { apply (copy_in_ok data (zlen pre + 1) l post h q); [lia| |done|done].
       rewrite Hdata. change (zlen l - 1 :: l) with ([zlen l - 1] ++ l). rewrite <- app_assoc, app_assoc.
       rewrite drop_app_length' by (rewrite length_app; unfold zlen; cbn; lia). done. }
  rewrite (bind_ret_eq (ret _) _ e _ e eq_refl). unfold after_turn. cbn [expand_token encode_token].
  rewrite !zlen_app, zlen_cons. replace (zlen pre + 1 + zlen l) with (zlen pre + (1 + zlen l)) by lia.
  rewrite length_app. replace (length h + length l - length h)%nat with (length l) by lia.
  by destruct (_ <? _).
Qed.

Lemma after_get (pre l : list Z) k x e : l !! Z.to_nat (k - zlen pre) = Some x -> zlen pre <= k ->
  arr_get (pre ++ l) k e = Ret x e.
Proof.
  intros Hx Hk. pose proof (zlen_nonneg pre). apply arr_get_eq; [lia|].
  rewrite lookup_app_r by (unfold zlen in *; lia). rewrite <- Hx. f_equal. unfold zlen in *. lia.
Qed.

(** What a reference does once its bytes are read. *)
Lemma reference_copied off len h q ip e : wf_token h (Ref off len) -> Forall is_u8 h ->
  let out := (Some <$> h) ++ q in
  (if zlen out <? zlen h + len + 2 then set_errno_return E2BIG out
   else if zlen h - (off + 1) <? 0 then set_errno_return EINVAL out
   else let* (op, out) := copy_reference len out (zlen h) (zlen h - (off + 1)) in ret (inl (ip, op, out))) e =
  (if zlen (expand_token h (Ref off len)) <=? zlen out then
     Ret (inl (ip, zlen (expand_token h (Ref off len)), (Some <$> expand_token h (Ref off len)) ++
       drop (length (expand_token h (Ref off len)) - length h) q)) e
   else Ret (inr (0, out)) E2BIG).
Proof.
  intros (Ho & Hl & Hh) Hu out. cbn [expand_token].
  pose proof (zlen_repeat (Z.to_nat (len + 2)) (off + 1) h) as Hz.
  replace (zlen (repeat_back _ _ _)) with (zlen h + (len + 2)) by lia.
  destruct (Z.leb_spec (zlen h + (len + 2)) (zlen out)) as [Hle|Hgt].
  - rewrite (proj2 (Z.ltb_ge _ _)), (proj2 (Z.ltb_ge _ _)) by lia. unfold out in *. rewrite zlen_app, zlen_fmap in Hle.
    erewrite bind_ret_eq by (apply copy_reference_ok; (done || lia)).
    replace (length (repeat_back _ _ _) - length h)%nat with (Z.to_nat (len + 2)) by (unfold zlen in *; lia). done.
  - by rewrite (proj2 (Z.ltb_lt _ _)) by lia.
Qed.
Lemma turn_reference data pre off len post h q e : data = pre ++ encode_token (Ref off len) ++ post ->
  wf_token h (Ref off len) -> Forall is_u8 h ->
  let out := (Some <$> h) ++ q in
  decompress_turn data (zlen data) (zlen out) (zlen pre, zlen h, out) e =
    if zlen (expand_token h (Ref off len)) <=? zlen out
    then Ret (after_turn data pre (Ref off len) h q) e else Ret (inr (0, out)) E2BIG.
Proof.
  intros -> Hwf Hu out. pose proof Hwf as (Ho & Hl & Hh). pose proof (zlen_nonneg pre). pose proof (zlen_nonneg post).
  pose proof (Z.div_mod off 256 ltac:(lia)) as Hoff. assert (Hhi : 0 <= off / 256 < 32) by zdiv.
  pose proof (Z.mod_pos_bound off 256 ltac:(lia)) as Hlo. pose proof (reference_copied off len h q) as Hcopy.
  unfold decompress_turn, back_reference, after_turn. fold out in Hcopy |- *. cbn [encode_token].
  assert (Hfin : zlen h - Z.shiftl (off / 256) 8 - 1 - off mod 256 = zlen h - (off + 1))
    by (rewrite Z.shiftl_mul_pow2 by lia; lia).
  destruct (Z.ltb_spec len 7).
  - destruct (ctrl_fields (off / 256) len Hhi ltac:(lia)) as [Ec Em].
    erewrite bind_ret_eq by (apply after_get; [by rewrite Z.sub_diag|lia]).
    rewrite (proj2 (Z.ltb_ge _ _)) by (change (Z.shiftl 1 5) with 32; lia). rewrite Ec, Em. cbv zeta.
    rewrite !zlen_app, !zlen_cons. change (zlen (@nil Z)) with 0.
    rewrite (proj2 (Z.leb_gt _ _)) by lia. rewrite (proj2 (Z.eqb_neq _ _)) by lia. cbn [andb].
    rewrite bind_assoc, (bind_ret_eq (ret _) _ e _ e eq_refl). cbn beta iota. rewrite bind_assoc.
    erewrite bind_ret_eq by (apply after_get; [by replace (zlen pre + 1 - zlen pre) with 1 by lia|lia]).
    rewrite Hfin.
    specialize (Hcopy (zlen pre + 1 + 1) e Hwf Hu). cbv zeta in Hcopy.
    destruct (_ <=? zlen out); erewrite bind_ret_eq by exact Hcopy; [|done]. cbn beta iota.
    replace (zlen pre + (1 + (1 + 0))) with (zlen pre + 1 + 1) by lia. by destruct (zlen pre + 1 + 1 <? _).
  - replace (off / 256 + 224) with (off / 256 + 32 * 7) by lia.
    destruct (ctrl_fields (off / 256) 7 Hhi ltac:(lia)) as [Ec Em].
    erewrite bind_ret_eq by (apply after_get; [by rewrite Z.sub_diag|lia]).
    rewrite (proj2 (Z.ltb_ge _ _)) by (change (Z.shiftl 1 5) with 32; lia). rewrite Ec, Em. cbv zeta.
    rewrite !zlen_app, !zlen_cons. change (zlen (@nil Z)) with 0.
    rewrite (proj2 (Z.leb_gt _ _)) by lia. change (7 =? 7) with true. cbn [andb]. rewrite !bind_assoc.
    erewrite bind_ret_eq by (apply after_get; [by replace (zlen pre + 1 - zlen pre) with 1 by lia|lia]).
    rewrite (bind_ret_eq (ret _) _ e _ e eq_refl). cbn beta iota.
    rewrite (proj2 (Z.leb_gt _ _)) by lia. rewrite bind_assoc.
    erewrite bind_ret_eq by (apply after_get; [by replace (zlen pre + 1 + 1 - zlen pre) with 2 by lia|lia]).
    rewrite Hfin. replace (7 + (len - 7)) with len by lia.
    specialize (Hcopy (zlen pre + 1 + 1 + 1) e Hwf Hu). cbv zeta in Hcopy.
    destruct (_ <=? zlen out); erewrite bind_ret_eq by exact Hcopy; [|done]. cbn beta iota.
    replace (zlen pre + (1 + (1 + (1 + 0)))) with (zlen pre + 1 + 1 + 1) by lia. by destruct (zlen pre + 1 + 1 + 1 <? _).
Qed.

Lemma turn_token data pre t post h q e : data = pre ++ encode_token t ++ post -> wf_token h t -> Forall is_u8 h ->
  let out := (Some <$> h) ++ q in
  decompress_turn data (zlen data) (zlen out) (zlen pre, zlen h, out) e =
    if zlen (expand_token h t) <=? zlen out then Ret (after_turn data pre t h q) e else Ret (inr (0, out)) E2BIG.
Proof.
  intros Hd Hwf Hu. destruct t as [l|off len].
  - cbn [expand_token]. rewrite (zlen_app h l). by eapply turn_literals.
  - by eapply turn_reference.
Qed.
Lemma expand_token_u8 h t : wf_token h t -> Forall is_u8 h -> Forall is_u8 (expand_token h t).
Proof. destruct t as [l|off len]; [intros [_ Hl] Hh; by apply Forall_app|intros _; apply repeat_u8]. Qed.
Lemma encode_token_long t h : wf_token h t -> 2 <= zlen (encode_token t).
Proof. destruct t as [l|off len]; cbn; [rewrite zlen_cons; lia|]. by destruct (len <? 7). Qed.

(** The rest of a text, [h] having been expanded. *)
Lemma expand_rest data N ts : forall pre h q e n, ts <> [] -> data = pre ++ encode ts -> wf_tokens h ts -> Forall is_u8 h ->
  zlen h + zlen q = N -> (length ts <= n)%nat ->
  exists out', zlen out' = N /\
    while_loop n (decompress_turn data (zlen data) N) (zlen pre, zlen h, (Some <$> h) ++ q) e =
      (if zlen (expand h ts) <=? N then Ret (zlen (expand h ts), out') e else Ret (0, out') E2BIG) /\
    (zlen (expand h ts) <= N -> out' = (Some <$> expand h ts) ++ drop (length (expand h ts) - length h) q).
Proof.
  induction ts as [|t ts IH]; [done|]. intros pre h q e n _ Hdata [Hwf Hwfs] Hu HN Hn.
  destruct n as [|n]; [cbn in Hn; lia|]. cbn [while_loop]. change (expand h (t :: ts)) with (expand (expand_token h t) ts).
  pose proof (expand_grows ts (expand_token h t)) as Hgrow. destruct (expand_prefix h t) as [k Hk].
  assert (Hz : zlen (expand_token h t) = zlen h + zlen k) by (by rewrite Hk, zlen_app). pose proof (zlen_nonneg k).
  assert (HN' : zlen ((Some <$> h) ++ q) = N) by (rewrite zlen_app, zlen_fmap; lia).
  change (encode (t :: ts)) with (encode_token t ++ encode ts) in Hdata.
  pose proof (turn_token data pre t (encode ts) h q e Hdata Hwf Hu) as Ht. cbv zeta in Ht. rewrite HN' in Ht.
  destruct (Z.leb_spec (zlen (expand_token h t)) N) as [Hle|Hgt].
  2: { exists ((Some <$> h) ++ q). erewrite bind_ret_eq by exact Ht. rewrite (proj2 (Z.leb_gt _ _)) by lia.
       split; [done|]. split; [done|lia]. }
  erewrite bind_ret_eq by exact Ht. unfold after_turn. set (q' := drop _ q).
  assert (Hq' : zlen (expand_token h t) + zlen q' = N) by (unfold q', zlen in *; rewrite length_drop; lia).
  destruct ts as [|t' ts].
  - rewrite app_nil_r in Hdata. rewrite <- Hdata, Z.ltb_irrefl. cbn [expand foldl]. rewrite (proj2 (Z.leb_le _ _)) by lia.
    eexists. split; [|split; [reflexivity|done]]. rewrite zlen_app, zlen_fmap. lia.
  - assert (Hmore : 0 < zlen (encode (t' :: ts))).
    { change (encode (t' :: ts)) with (encode_token t' ++ encode ts). rewrite zlen_app.
      pose proof (encode_token_long t' _ (proj1 Hwfs)). pose proof (zlen_nonneg (encode ts)). lia. }
    rewrite (proj2 (Z.ltb_lt _ _)) by (rewrite Hdata, !zlen_app; lia).
    destruct (IH (pre ++ encode_token t) (expand_token h t) q' e n) as (out' & Hz' & E & Ho);
      [done|by rewrite <- app_assoc|done|by apply expand_token_u8|done|cbn in *; lia|].
    exists out'. split; [done|]. split; [exact E|]. intros Hfit. rewrite (Ho Hfit). f_equal. unfold q'.
    rewrite drop_drop. f_equal. unfold zlen in *. lia.
Qed.

(** [lzf_decompress] expands a well-formed text, or reports E2BIG if it does
    not fit. *)
Lemma decompress_expands ts out e : ts <> [] -> wf_tokens [] ts ->
  exists out', zlen out' = zlen out /\
    lzf_decompress (encode ts) (zlen (encode ts)) out (zlen out) e =
      (if zlen (expand [] ts) <=? zlen out then Ret (zlen (expand [] ts), out') e else Ret (0, out') E2BIG) /\
    (zlen (expand [] ts) <= zlen out -> out' = (Some <$> expand [] ts) ++ drop (length (expand [] ts)) out).
Proof.
  intros Hne Hwf. destruct (expand_rest (encode ts) (zlen out) ts [] [] out e (Datatypes.S (length (encode ts))))
    as (out' & Hz & E & Ho); try done.
  - assert (Hlen : forall ts h, wf_tokens h ts -> (length ts <= length (encode ts))%nat).
    { clear. induction ts as [|t ts IH]; intros h Hts; [done|]. destruct Hts as [Ht Hts].
      change (encode (t :: ts)) with (encode_token t ++ encode ts). rewrite length_app.
      apply encode_token_long in Ht. apply IH in Hts. unfold zlen in Ht. cbn [length]. lia. }
    pose proof (Hlen ts [] Hwf). lia.
  - exists out'. split; [done|]. split; [exact E|]. intros Hfit. rewrite (Ho Hfit). by rewrite Nat.sub_0_r.
Qed.

(** *** Arbitrary input *)

(** A turn on any bytes finds a token, or reports an error. *)
Definition turn_fails (data pre h : list Z) (q : buf) (e : Z) : Prop := exists e',
  decompress_turn data (zlen data) (zlen ((Some <$> h) ++ q)) (zlen pre, zlen h, (Some <$> h) ++ q) e =
    Ret (inr (0, (Some <$> h) ++ q)) e' /\ (e' = E2BIG \/ e' = EINVAL).
Definition token_next (h l : list Z) : Prop := exists t post, l = encode_token t ++ post /\ wf_token h t.

Lemma any_literals pre h q e c rest : Forall is_u8 (c :: rest) -> c < 32 ->
  token_next h (c :: rest) \/ turn_fails (pre ++ c :: rest) pre h q e.
Proof.
  intros Hu Hc. apply Forall_cons in Hu as [Hcu Hu]. unfold is_u8 in Hcu.
  assert (Hlen : zlen (pre ++ c :: rest) = zlen pre + 1 + zlen rest) by (rewrite zlen_app, zlen_cons; lia).
  assert (Hget : forall e, arr_get (pre ++ c :: rest) (zlen pre) e = Ret c e)
    by (intros; apply after_get; [by rewrite Z.sub_diag|lia]).
  destruct (Z.ltb_spec (zlen ((Some <$> h) ++ q)) (zlen h + (c + 1))) as [Hbig|Hfit].
  - right. exists E2BIG. split; [|by left]. unfold decompress_turn. erewrite bind_ret_eq by apply Hget.
    rewrite (proj2 (Z.ltb_lt _ _)) by (change (Z.shiftl 1 5) with 32; lia). unfold literal_run. cbv zeta.
    by rewrite (proj2 (Z.ltb_lt _ _)) by lia.
  - destruct (Z.ltb_spec (zlen rest) (c + 1)) as [Hshort|Hl].
    + right. exists EINVAL. split; [|by right]. unfold decompress_turn. erewrite bind_ret_eq by apply Hget.
      rewrite (proj2 (Z.ltb_lt _ _)) by (change (Z.shiftl 1 5) with 32; lia). unfold literal_run. cbv zeta.
      rewrite (proj2 (Z.ltb_ge _ _)) by lia. by rewrite (proj2 (Z.ltb_lt _ _)) by lia.
    + left. set (l := take (Z.to_nat (c + 1)) rest).
      assert (Hz : zlen l = c + 1) by (unfold l, zlen in *; rewrite length_take; lia).
      exists (Lit l), (drop (Z.to_nat (c + 1)) rest). split.
      * cbn [encode_token]. rewrite Hz. replace (c + 1 - 1) with c by lia. cbn. unfold l. by rewrite take_drop.
      * split; [lia|]. by apply Forall_take.
Qed.

Lemma any_reference pre h q e c rest : Forall is_u8 (c :: rest) -> 32 <= c ->
  token_next h (c :: rest) \/ turn_fails (pre ++ c :: rest) pre h q e.
Proof.
  intros Hu Hc. apply Forall_cons in Hu as [Hcu Hu]. unfold is_u8 in Hcu.
  pose proof (Z.div_mod c 32 ltac:(lia)) as Hdm. assert (Hq : 1 <= c / 32 <= 7) by zdiv.
  pose proof (Z.mod_pos_bound c 32 ltac:(lia)) as Hm.
  destruct (ctrl_fields (c mod 32) (c / 32) Hm ltac:(lia)) as [Ec Em].
  replace (c mod 32 + 32 * (c / 32)) with c in Ec, Em by lia.
  assert (Hget : forall e, arr_get (pre ++ c :: rest) (zlen pre) e = Ret c e)
    by (intros; apply after_get; [by rewrite Z.sub_diag|lia]).
  assert (Hlen : zlen (pre ++ c :: rest) = zlen pre + 1 + zlen rest) by (rewrite zlen_app, zlen_cons; lia).
  assert (Hstart : forall k, back_reference (pre ++ c :: rest) (zlen (pre ++ c :: rest)) (zlen ((Some <$> h) ++ q)) c
      (zlen pre + 1, zlen h, (Some <$> h) ++ q) e = Ret (inr (0, (Some <$> h) ++ q)) k -> k = E2BIG \/ k = EINVAL ->
      turn_fails (pre ++ c :: rest) pre h q e).
  { intros k E Hk. exists k. split; [|done]. unfold decompress_turn. erewrite bind_ret_eq by apply Hget.
    rewrite (proj2 (Z.ltb_ge _ _)) by (change (Z.shiftl 1 5) with 32; lia). by erewrite bind_ret_eq by exact E. }
  unfold back_reference in Hstart. rewrite Ec, Em, Hlen in Hstart. cbv zeta in Hstart.
  destruct rest as [|x rest].
  { right. apply (Hstart EINVAL); [|by right]. change (zlen (@nil Z)) with 0. by rewrite (proj2 (Z.leb_le _ _)) by lia. }
  apply Forall_cons in Hu as [Hx Hu]. unfold is_u8 in Hx. rewrite zlen_cons in Hstart. pose proof (zlen_nonneg rest).
  rewrite (proj2 (Z.leb_gt _ _)) in Hstart by lia.
  assert (Hgetx : forall e, arr_get (pre ++ c :: x :: rest) (zlen pre + 1) e = Ret x e)
    by (intros; apply after_get; [by replace (zlen pre + 1 - zlen pre) with 1 by lia|lia]).
  assert (Htok : forall off len l, 0 <= off < 8192 -> 1 <= len <= 262 -> c :: x :: rest = encode_token (Ref off len) ++ l ->
    (forall k, (if zlen ((Some <$> h) ++ q) <? zlen h + len + 2 then k = E2BIG
                else zlen h - off - 1 < 0 /\ k = EINVAL) -> turn_fails (pre ++ c :: x :: rest) pre h q e) ->
    token_next h (c :: x :: rest) \/ turn_fails (pre ++ c :: x :: rest) pre h q e).
  { intros off len l Ho Hl E Hfail. destruct (_ <? zlen h + len + 2); [right; by apply (Hfail E2BIG)|].
    destruct (Z.ltb_spec (zlen h - off - 1) 0); [right; by apply (Hfail EINVAL)|].
    left. exists (Ref off len), l. split; [done|]. cbn. lia. }
  destruct (Z.eqb_spec (c / 32) 7) as [E7|Hn7].
  - destruct rest as [|y rest].
    { right. apply (Hstart EINVAL); [|by right]. rewrite bind_assoc. erewrite bind_ret_eq by apply Hgetx.
      rewrite (bind_ret_eq (ret _) _ e _ e eq_refl). cbn beta iota. change (zlen (@nil Z)) with 0.
      by rewrite (proj2 (Z.leb_le _ _)) by lia. }
    apply Forall_cons in Hu as [Hy Hu]. unfold is_u8 in Hy. rewrite zlen_cons in Hstart. pose proof (zlen_nonneg rest).
    apply (Htok (256 * (c mod 32) + y) (7 + x) rest); [lia|lia| |].
    + cbn [encode_token]. rewrite (proj2 (Z.ltb_ge _ _)) by lia. cbn [app]. repeat f_equal; zdiv.
    + intros k Hk. apply (Hstart k); [|destruct (_ <? _) in Hk; [by left|right; apply Hk]]. rewrite bind_assoc. erewrite bind_ret_eq by apply Hgetx.
      rewrite (bind_ret_eq (ret _) _ e _ e eq_refl). cbn beta iota. rewrite E7, (proj2 (Z.leb_gt _ _)) by lia.
      cbn [andb]. erewrite bind_ret_eq.
      2: { apply after_get; [by replace (zlen pre + 1 + 1 - zlen pre) with 2 by lia|lia]. }
      destruct (_ <? _); [by subst k|]. destruct Hk as [Hneg ->].
      rewrite (proj2 (Z.ltb_lt _ 0)) by (rewrite Z.shiftl_mul_pow2 by lia; lia). done.
  - apply (Htok (256 * (c mod 32) + x) (c / 32) rest); [lia|lia| |].
    + cbn [encode_token]. rewrite (proj2 (Z.ltb_lt _ _)) by lia. cbn [app]. repeat f_equal; zdiv.
    + intros k Hk. apply (Hstart k); [|destruct (_ <? _) in Hk; [by left|right; apply Hk]].
      rewrite (bind_ret_eq (ret _) _ e _ e eq_refl). cbn [andb]. erewrite bind_ret_eq by apply Hgetx.
      destruct (_ <? _); [by subst k|]. destruct Hk as [Hneg ->].
      rewrite (proj2 (Z.ltb_lt _ 0)) by (rewrite Z.shiftl_mul_pow2 by lia; lia). done.
Qed.

Lemma any_rest n : forall l pre h q e, l <> [] -> Forall is_u8 l -> Forall is_u8 h -> (length l <= n)%nat ->
  let N := zlen ((Some <$> h) ++ q) in
  (exists ts, ts <> [] /\ l = encode ts /\ wf_tokens h ts) \/
  (exists out' e', zlen out' = N /\ (e' = E2BIG \/ e' = EINVAL) /\
    while_loop n (decompress_turn (pre ++ l) (zlen (pre ++ l)) N) (zlen pre, zlen h, (Some <$> h) ++ q) e = Ret (0, out') e').
Proof.
  induction n as [|n IH]; intros l pre h q e Hl Hu Hh Hn N; [destruct l; [done|cbn in Hn; lia]|]. cbn [while_loop].
  assert (Hany : token_next h l \/ turn_fails (pre ++ l) pre h q e).
  { destruct l as [|c l]; [done|]. destruct (Z.lt_ge_cases c 32); [apply any_literals|apply any_reference]; done. }
  destruct Hany as [(t & post & -> & Hwf)|(e' & E & He)].
  2: { right. exists ((Some <$> h) ++ q), e'. split; [done|]. split; [done|]. by erewrite bind_ret_eq by exact E. }
  apply Forall_app in Hu as [_ Hu]. pose proof (encode_token_long t h Hwf) as Hlong.
  destruct post as [|c post].
  { left. exists [t]. split; [done|]. split; [by rewrite app_nil_r, encode_one|done]. }
  set (post' := c :: post) in *. assert (Hpost : 0 < zlen post') by (unfold post'; rewrite zlen_cons; pose proof (zlen_nonneg post); lia).
  pose proof (turn_token _ pre t post' h q e eq_refl Hwf Hh) as Ht. cbv zeta in Ht. fold N in Ht.
  destruct (Z.leb_spec (zlen (expand_token h t)) N) as [Hle|Hgt].
  2: { right. exists ((Some <$> h) ++ q), E2BIG. split; [done|]. split; [by left|]. by erewrite bind_ret_eq by exact Ht. }
  unfold after_turn in Ht. rewrite (proj2 (Z.ltb_lt _ _)) in Ht by (rewrite !zlen_app; lia).
  set (q' := drop _ q) in Ht. destruct (expand_prefix h t) as [k Hk].
  assert (HN : zlen ((Some <$> expand_token h t) ++ q') = N).
  { unfold N, q' in *. rewrite Hk in *. unfold zlen in *. rewrite !length_app, !length_fmap, length_drop, !length_app in *. lia. }
  destruct (IH post' (pre ++ encode_token t) (expand_token h t) q' e) as [(ts & Hts & Ep & Hwfs)|(out' & e' & Hz & He & E)];
    [done|done|by apply expand_token_u8|rewrite length_app in Hn; unfold zlen in Hlong; lia|left|right].
  - exists (t :: ts). split; [done|]. by rewrite Ep.
  - rewrite HN in Hz, E. rewrite <- app_assoc in E. exists out', e'. split; [done|]. split; [done|].
    by erewrite bind_ret_eq by exact Ht.
Qed.
End decompress.

(** What a text of the format stands for. *)
Definition spells data (text : list Z) : Prop :=
  exists ts, ts <> [] /\ data = encode ts /\ wf_tokens [] ts /\ text = expand [] ts.

(** The first token has nothing to refer to, so it is a run of literals. *)
Lemma expand_pos ts : ts <> [] -> wf_tokens [] ts -> 0 < zlen (expand [] ts).
Proof.
  destruct ts as [|t ts]; [done|]. intros _ [Ht _]. pose proof (expand_grows ts (expand_token [] t)) as Hle.
  change (expand [] (t :: ts)) with (expand (expand_token [] t) ts).
  destruct t as [l|off len]; cbn in Ht, Hle |- *; [lia|]. change (zlen []) with 0 in Ht. lia.
Qed.

(** What [lzf_decompress] does with a text of the format. *)
Definition expanded (text : list Z) (out : buf) (e n : Z) (out' : buf) (e' : Z) : Prop :=
  if zlen text <=? zlen out then n = zlen text /\ 0 < n /\ e' = e /\ out' = (Some <$> text) ++ drop (length text) out
  else n = 0 /\ e' = E2BIG.

Lemma spells_expanded data out e text : spells data text -> exists n out' e', zlen out' = zlen out /\
  lzf_decompress data (zlen data) out (zlen out) e = Ret (n, out') e' /\ expanded text out e n out' e'.
Proof.
  intros (ts & Hts & -> & Hwf & ->). pose proof (expand_pos ts Hts Hwf) as Hpos. unfold expanded.
  destruct (decompress_expands ts out e Hts Hwf) as (out' & Hz & E & Ho).
  destruct (Z.leb_spec (zlen (expand [] ts)) (zlen out)) as [Hfit|_]; eexists _, out', _; (split; [done|]; split; [exact E|]).
  - by rewrite (Ho Hfit).
  - done.
Qed.

(** C21: [lzf_decompress] accepts exactly the well-formed texts. For any non-empty
    sequence of bytes and any output buffer it ends without undefined behaviour and keeps
    the length of the buffer. If the input is the encoding of a sequence of tokens and
    what it stands for fits the buffer, exactly full included, the result is its length,
    it stands at the front of the buffer, the rest of the buffer and errno are untouched;
    if it does not fit, the result is 0 with E2BIG. If the input is no such encoding,
    the result is 0 with E2BIG or EINVAL. An empty input is read out of bounds (lemma
    [decompress_reads_empty] of LzfCompress). *)
Theorem lzf_decompress_accepts data out e : Forall is_u8 data -> data <> [] ->
  wp (lzf_decompress data (zlen data) out (zlen out)) (fun '(n, out') e' => zlen out' = zlen out /\
    (forall text, spells data text ->
       if zlen text <=? zlen out then n = zlen text /\ 0 < n /\ e' = e /\ out' = (Some <$> text) ++ drop (length text) out
       else n = 0 /\ e' = E2BIG) /\
    ((exists text, spells data text) \/ n = 0 /\ (e' = E2BIG \/ e' = EINVAL))) e.
Proof.
  intros Hu Hne.
  assert (Hspelt : forall n out' e', lzf_decompress data (zlen data) out (zlen out) e = Ret (n, out') e' ->
    forall text, spells data text -> expanded text out e n out' e').
  { intros n out' e' E text Ht. destruct (spells_expanded data out e text Ht) as (n2 & out2 & e2 & _ & E2 & H2). congruence. }
  destruct (any_rest (Datatypes.S (length data)) data [] [] out e) as [(ts & Hts & Ed & Hwf)|(out' & e' & Hz & He & E)];
    [done|done|done|lia| |].
  - assert (Ht : spells data (expand [] ts)) by by exists ts.
    destruct (spells_expanded data out e _ Ht) as (n & out' & e' & Hz & E & _).
    eapply wp_eq; [exact E|]. split; [done|]. split; [by apply Hspelt|]. left. by eexists.
  - eapply wp_eq; [exact E|]. split; [done|]. split; [by apply Hspelt|by right].
Qed.
