(* ===== verification/LzfCompress.v ===== *)
(** LZF: [lzf_compress] produces a well-formed text of its input, whatever its
    uninitialised table holds, and stays inside its buffers. *)
From S2P Require Import Prelude Util Lzf LzfProofs.
#[local] Open Scope Z_scope.

Section compress.
Context {S : Type} (data : list Z) (Hu : Forall is_u8 data) (Hlen : zlen data < 4294967296).
#[local] Abbreviation n := (zlen data).
Implicit Types e : S.

(** *** Reading the input *)
Definition byte (i : Z) : Z := nth (Z.to_nat i) data 0.

Lemma get_byte i e : 0 <= i < n -> arr_get data i e = Ret (byte i) e.
Proof.
  intros Hi. destruct (lookup_lt_is_Some_2 data (Z.to_nat i)) as [x Hx]; [unfold zlen in Hi; lia|].
  apply arr_get_eq; [lia|]. unfold byte. by rewrite (nth_lookup_Some _ _ 0 _ Hx).
Qed.
Lemma byte_lookup i : 0 <= i < n -> data !! Z.to_nat i = Some (byte i).
Proof.
  intros Hi. destruct (lookup_lt_is_Some_2 data (Z.to_nat i)) as [x Hx]; [unfold zlen in Hi; lia|].
  unfold byte. by rewrite (nth_lookup_Some _ _ 0 _ Hx).
Qed.
Lemma byte_u8 i : 0 <= i < n -> is_u8 (byte i).
Proof. intros Hi. apply byte_lookup in Hi. by eapply Forall_lookup_1 in Hi. Qed.

(** The bytes from [ref] on are those from [ip] on, [k] of them. *)
Definition same_bytes (ref ip k : Z) : Prop := forall j, 0 <= j < k -> byte (ref + j) = byte (ip + j).

Lemma is_match_ok ref ip e : is_u32 ref -> 0 <= ip < n - 2 ->
  wp (is_match data ref ip) (fun b e' => e' = e /\ (b = true ->
    0 < ref < ip /\ u64 (ip - ref - 1) = ip - ref - 1 /\ ip - ref - 1 < 8192 /\ same_bytes ref ip 3)) e.
Proof.
  intros Hr Hip. unfold is_match, is_u32 in *. change MAX_OFF with 8192.
  destruct (Z.ltb_spec (u64 (ip - ref - 1)) 8192) as [Hoff|]; cbn [andb]; [|by apply wp_ret].
  destruct (Z.ltb_spec 0 ref); [|by apply wp_ret].
  assert (Hlt : ref < ip) by (unfold u64 in Hoff; zdiv).
  assert (Ho : u64 (ip - ref - 1) = ip - ref - 1) by (unfold u64; apply Z.mod_small; lia).
  do 2 (apply wp_bind; eapply wp_eq; [apply get_byte; lia|]).
  destruct (Z.eqb_spec (byte (ref + 2)) (byte (ip + 2))) as [E2|]; [|by apply wp_ret].
  do 4 (apply wp_bind; eapply wp_eq; [apply get_byte; lia|]). apply wp_ret. split; [done|].
  intros E%Z.eqb_eq. rewrite !lor_be16 in E by (apply byte_u8; lia).
  assert (E1 : byte (ref + 1) = byte (ip + 1)).
  { pose proof (hi8_be16 (byte (ref + 1)) (byte ref)) as H1. pose proof (hi8_be16 (byte (ip + 1)) (byte ip)) as H2.
    rewrite <- H1, <- H2, E by (apply byte_u8; lia). done. }
  assert (E0 : byte ref = byte ip).
  { pose proof (lo8_be16 (byte (ref + 1)) (byte ref)) as H1. pose proof (lo8_be16 (byte (ip + 1)) (byte ip)) as H2.
    rewrite <- H1, <- H2, E by (apply byte_u8; lia). done. }
  split; [done|]. split; [done|]. split; [lia|]. intros j Hj.
  assert (j = 0 \/ j = 1 \/ j = 2) as [->|[->| ->]] by lia; by rewrite ?Z.add_0_r.
Qed.

(** *** The length of a match *)
Lemma compare_bytes_ok ref ip k : forall len e, 0 <= ref < ip -> 0 <= len -> ip + len + Z.of_nat k < n ->
  same_bytes ref ip (len + 1) ->
  wp (compare_bytes data ref ip k len) (fun '(len', b) e' => e' = e /\ len <= len' <= len + Z.of_nat k /\
    (if b : bool then len' = len + Z.of_nat k /\ same_bytes ref ip (len' + 1)
     else len < len' /\ same_bytes ref ip len')) e.
Proof.
  induction k as [|k IH]; intros len e Hr Hl Hle Hs; cbn [compare_bytes].
  - apply wp_ret. split; [done|]. rewrite Z.add_0_r. split; [lia|done].
  - do 2 (apply wp_bind; eapply wp_eq; [apply get_byte; lia|]).
    destruct (Z.eqb_spec (byte (ref + (len + 1))) (byte (ip + (len + 1)))) as [E|].
    + eapply wp_mono; [apply IH; [lia..|]|].
      * intros j Hj. destruct (Z.eq_dec j (len + 1)) as [->|]; [done|]. apply Hs. lia.
      * intros [len' b] e' (-> & Hl' & Hb). split; [done|]. split; [lia|]. destruct b; (split; [lia|apply Hb]).
    + apply wp_ret. split; [done|]. split; [lia|]. split; [lia|done].
Qed.

Lemma match_length_ok ref ip e : 0 <= ref < ip -> ip < n - 2 -> same_bytes ref ip 3 ->
  let maxlen := if MAX_REF <? n - ip - 2 then MAX_REF else n - ip - 2 in
  wp (match_length data ref ip maxlen) (fun len e' => e' = e /\ 3 <= len <= 264 /\ ip + len <= n /\
    same_bytes ref ip len) e.
Proof.
  intros Hr Hip Hs maxlen. change MAX_REF with 264 in *. unfold match_length. cbv zeta.
  assert (Hmax : 1 <= maxlen <= 264 /\ maxlen <= n - ip - 2) by (unfold maxlen; destruct (Z.ltb_spec 264 (n - ip - 2)); lia).
  apply wp_bind. eapply (wp_mono _ (fun '(len, b) e' => e' = e /\ (if b : bool
    then (len = 2 \/ len = 18) /\ ip + len < n /\ same_bytes ref ip (len + 1)
    else 3 <= len <= 264 /\ ip + len <= n /\ same_bytes ref ip len))).
  { destruct (Z.ltb_spec 16 maxlen); [|apply wp_ret; split; [done|]; split; [by left|]; split; [lia|done]].
    eapply wp_mono; [apply compare_bytes_ok; [lia..|done]|]. intros [len b] e' (-> & Hl & Hb). split; [done|].
    destruct b; [split; [lia|]; split; [lia|apply Hb]|]. split; [lia|]. split; [lia|apply Hb]. }
  intros [len b] e' [-> Hb]. destruct b; [|by apply wp_ret]. destruct Hb as (Hl & Hle & Hsl).
  apply (wp_while _ (fun len e' => e' = e /\ 2 <= len < 264 /\ ip + len < n /\ same_bytes ref ip (len + 1))
    (fun len _ => Z.to_nat (264 - len))); [|split; [done|]; split; [lia|done]|change (Z.to_nat MAX_REF) with 264%nat; lia].
  intros k e' (-> & Hk & Hkn & Hks). cbv zeta. destruct (Z.ltb_spec (k + 1) maxlen).
  - do 2 (apply wp_bind; eapply wp_eq; [apply get_byte; lia|]).
    destruct (Z.eqb_spec (byte (ref + (k + 1))) (byte (ip + (k + 1)))) as [E|]; apply wp_ret.
    + split; [|lia]. split; [done|]. split; [lia|]. split; [lia|].
      intros j Hj. destruct (Z.eq_dec j (k + 1)) as [->|]; [done|]. apply Hks. lia.
    + split; [done|]. split; [lia|]. split; [lia|done].
  - apply wp_ret. split; [done|]. split; [lia|]. split; [lia|done].
Qed.

(** *** The output under construction

    After [ip] bytes: the tokens [ts] are complete, the literals [pend] stand
    behind the cell kept for their run's header. *)
Record text (N : Z) (l : lzf_locals) (ts : list token) (pend : list Z) : Prop := {
  text_wf : wf_tokens [] ts;
  text_expands : expand [] ts ++ pend = take (Z.to_nat (ip l)) data;
  text_lit : lit l = zlen pend;
  text_run : zlen pend < 32;
  text_op : op l = zlen (encode ts) + 1 + zlen pend;
  text_ip : 0 <= ip l <= n;
  text_size : zlen (out l) = N;
  text_out : exists tail, out l = (Some <$> encode ts) ++ tail /\
    (pend = [] \/ exists c t, tail = c :: (Some <$> pend) ++ t);
  text_table : forall i, is_u32 (htab l i);
  text_cost : 32 * zlen (encode ts) <= 33 * zlen (expand [] ts)
}.

(** The tokens [ts] are complete and nothing is pending: [op] bytes. *)
Definition ended (N : Z) (ip op : Z) (out : buf) (ts : list token) : Prop :=
  wf_tokens [] ts /\ expand [] ts = take (Z.to_nat ip) data /\ op = zlen (encode ts) /\ zlen out = N /\
  32 * zlen (encode ts) <= 33 * zlen (expand [] ts) + 32 /\ exists q, out = (Some <$> encode ts) ++ q.

Lemma text_prefix N l ts pend : text N l ts pend -> zlen (encode ts) <= N /\ Forall is_u8 pend.
Proof.
  intros T. destruct (text_out _ _ _ _ T) as (tail & Eo & _). pose proof (text_size _ _ _ _ T) as Hz.
  rewrite Eo, zlen_app, zlen_fmap in Hz. pose proof (zlen_nonneg tail). split; [lia|].
  pose proof (Forall_take is_u8 (Z.to_nat (ip l)) data Hu) as Ht. rewrite <- (text_expands _ _ _ _ T) in Ht.
  by apply Forall_app in Ht as [_ ?].
Qed.

Lemma wf_snoc ts t : wf_tokens [] ts -> wf_token (expand [] ts) t -> wf_tokens [] (ts ++ [t]).
Proof. intros Hts Ht. apply wf_tokens_app. split; [done|]. by split. Qed.
Lemma encode_snoc ts t : encode (ts ++ [t]) = encode ts ++ encode_token t.
Proof. by rewrite encode_app, encode_one. Qed.
Lemma expand_snoc ts t : expand [] (ts ++ [t]) = expand_token (expand [] ts) t.
Proof. by rewrite expand_app. Qed.

Lemma stop_run_ok N l ts pend e : text N l ts pend -> zlen (encode ts) < N ->
  wp (stop_run l) (fun out' e' => e' = e /\ exists ts', ended N (ip l) (op l - b2z (lit l =? 0)) out' ts') e.
Proof.
  intros T Hroom. pose proof T as [Hwf Hexp Hlit Hrun Hop Hip Hz (tail & Eo & Htail) _ Hcost].
  destruct (text_prefix _ _ _ _ T) as [_ Hup]. unfold stop_run. rewrite Hlit, Hop, Eo.
  replace (zlen (encode ts) + 1 + zlen pend - zlen pend - 1) with (zlen (encode ts)) by lia.
  assert (Ht : 0 < zlen tail) by (rewrite Eo, zlen_app, zlen_fmap in Hz; lia).
  eapply wp_eq; [by apply out_write|]. split; [done|].
  assert (Hn' : forall v, zlen ((Some <$> encode ts ++ [v]) ++ drop 1 tail) = N).
  { intros v. rewrite <- Hz, Eo. unfold zlen in *. rewrite !length_app, !length_fmap, length_app, length_drop. cbn. lia. }
  destruct pend as [|p pend].
  - exists ts. rewrite app_nil_r in Hexp. unfold ended. rewrite Hn'. split; [done|]. split; [done|].
    split; [change (zlen (@nil Z)) with 0; cbn; lia|]. split; [done|]. split; [lia|]. eexists. by rewrite fmap_app, <- app_assoc.
  - destruct Htail as [|(c & t & ->)]; [done|].
    pose proof (zlen_nonneg pend). rewrite zlen_cons in *.
    exists (ts ++ [Lit (p :: pend)]). unfold ended. rewrite encode_snoc, expand_snoc, Hn'.
    split; [apply wf_snoc; [done|]; split; [rewrite zlen_cons; lia|done]|]. split; [done|].
    rewrite (proj2 (Z.eqb_neq _ _)) by lia. cbn [encode_token b2z]. rewrite zlen_app, !zlen_cons.
    split; [lia|]. split; [done|]. split; [cbn [expand_token]; zlen_solve|].
    exists t. rewrite u8_id by (unfold is_u8; lia).
    rewrite !fmap_app, <- !app_assoc. cbn. by replace (1 + zlen pend - 1) with (zlen pend) by lia.
Qed.

Lemma emit_literal_ok N l ts pend e : text N l ts pend -> op l < N -> ip l < n ->
  wp (emit_literal data l) (fun l' e' => e' = e /\ (exists ts' pend', text N l' ts' pend') /\ ip l' = ip l + 1 /\
    op l' = op l + 1 + b2z (lit l =? 31) /\ lit l' = if lit l =? 31 then 0 else lit l + 1) e.
Proof.
  intros T Hroom Hip'. pose proof T as [Hwf Hexp Hlit Hrun Hop Hip Hz (tail & Eo & Htail) Htab Hcost].
  pose proof (zlen_nonneg pend). unfold emit_literal. apply wp_bind. eapply wp_eq; [apply get_byte; lia|].
  set (v := byte (ip l)). assert (Hv : is_u8 v) by (apply byte_u8; lia).
  assert (Hshape : exists c x t, tail = c :: (Some <$> pend) ++ x :: t).
  { rewrite Eo, zlen_app, zlen_fmap in Hz. destruct Htail as [->|(c & t & ->)].
    - destruct tail as [|c [|x t]]; rewrite ?zlen_cons in Hz; change (zlen (@nil Z)) with 0 in *;
        change (zlen (@nil (option Z))) with 0 in *; [lia..|by exists c, x, t].
    - rewrite zlen_cons, zlen_app, zlen_fmap in Hz. destruct t as [|x t]; [change (zlen (@nil (option Z))) with 0 in Hz; lia|].
      by exists c, x, t. }
  destruct Hshape as (c & x & t & ->). cbv zeta.
  assert (Ew : wr (out l) (op l) v e = Ret ((Some <$> encode ts) ++ c :: (Some <$> pend ++ [v]) ++ t) e).
  { rewrite Eo. change (c :: (Some <$> pend) ++ x :: t) with ([c] ++ (Some <$> pend) ++ x :: t). rewrite !app_assoc.
    rewrite wr_app by (rewrite !zlen_app, !zlen_fmap; change (zlen [c]) with 1; lia).
    rewrite u8_id by done. by rewrite fmap_app, <- !app_assoc. }
  apply wp_bind. eapply wp_eq; [exact Ew|]. cbn [lit ip op hval htab out].
  set (l1 := Build_lzf_locals _ _ _ _ _ _).
  assert (Hexp1 : expand [] ts ++ pend ++ [v] = take (Z.to_nat (ip l + 1)) data).
  { replace (Z.to_nat (ip l + 1)) with (Datatypes.S (Z.to_nat (ip l))) by lia.
    rewrite (take_S_r _ _ v) by (apply byte_lookup; lia). by rewrite app_assoc, Hexp. }
  assert (Hz1 : zlen ((Some <$> encode ts) ++ c :: (Some <$> pend ++ [v]) ++ t) = N).
  { rewrite Eo in Hz. rewrite <- Hz. zlen_solve. }
  change MAX_LIT with 32. rewrite Hlit. destruct (Z.eqb_spec (zlen pend + 1) 32) as [E|].
  - rewrite (proj2 (Z.eqb_eq (zlen pend) 31)) by lia. apply wp_bind.
    assert (Es : stop_run l1 e = Ret ((Some <$> encode (ts ++ [Lit (pend ++ [v])])) ++ t) e).
    { unfold stop_run, l1. cbn [lit op out].
      rewrite (wr_app (Some <$> encode ts)) by (rewrite zlen_fmap; lia). rewrite encode_snoc. cbn [encode_token].
      rewrite zlen_app. change (zlen [v]) with 1. rewrite Hlit, u8_id by (unfold is_u8; lia).
      rewrite !fmap_app, <- !app_assoc. cbn. by rewrite fmap_app, <- app_assoc. }
    eapply wp_eq; [exact Es|]. apply wp_ret. cbn [ip op lit]. split; [done|]. split; [|split; [lia|split; [cbn; lia|done]]].
    exists (ts ++ [Lit (pend ++ [v])]), []. destruct (text_prefix _ _ _ _ T) as [_ Hup].
    split; cbn [ip op lit out htab]; try done.
    + apply wf_snoc; [done|]. split; [rewrite zlen_app; change (zlen [v]) with 1; lia|]. apply Forall_app. by split; [|constructor].
    + by rewrite app_nil_r, expand_snoc.
    + rewrite encode_snoc, zlen_app. cbn [encode_token]. rewrite zlen_cons, zlen_app. change (zlen [v]) with 1.
      change (zlen (@nil Z)) with 0. lia.
    + lia.
    + rewrite <- Hz1, encode_snoc. cbn [encode_token]. zlen_solve.
    + exists t. split; [done|]. by left.
    + rewrite encode_snoc, expand_snoc. cbn [encode_token expand_token]. rewrite !zlen_app, zlen_cons, !zlen_app.
      change (zlen [v]) with 1. lia.
  - rewrite (proj2 (Z.eqb_neq (zlen pend) 31)) by lia. apply wp_ret. split; [done|].
    split; [|split; [done|split; cbn; lia]]. exists ts, (pend ++ [v]).
    pose proof (zlen_app pend [v]) as Hpv. change (zlen [v]) with 1 in Hpv.
    unfold l1. split; cbn [ip op lit out htab]; try (done || lia).
    eexists. split; [reflexivity|]. right. by exists c, t.
Qed.

(** *** A match *)
Lemma put_reference_ok off k h q e : 0 <= off < 8192 -> 1 <= k <= 262 -> 3 <= zlen q ->
  exists q', put_reference off k ((Some <$> h) ++ q) (zlen h) e =
    Ret ((Some <$> h ++ encode_token (Ref off k)) ++ q', zlen (h ++ encode_token (Ref off k))) e /\
    zlen (h ++ encode_token (Ref off k)) + zlen q' = zlen h + zlen q.
Proof.
  intros Ho Hk Hq. unfold put_reference. rewrite Z.shiftr_div_pow2, !Z.shiftl_mul_pow2 by lia.
  change (2 ^ 8) with 256. change (2 ^ 5) with 32. assert (Hhi : 0 <= off / 256 < 32) by zdiv.
  assert (Hd : forall j, (0 <= j)%nat -> zlen (drop j q) = Z.max 0 (zlen q - Z.of_nat j)) by (intros; unfold zlen; rewrite length_drop; lia).
  cbn [encode_token]. destruct (Z.ltb_spec k 7); rewrite bind_assoc.
  - exists (drop 2 q). erewrite bind_ret_eq by (apply out_write; lia). rewrite (bind_ret_eq (ret _) _ e _ e eq_refl).
    cbn beta iota. set (b1 := u8 _).
    replace (zlen h + 1) with (zlen (h ++ [b1])) by (rewrite zlen_app; done).
    erewrite bind_ret_eq by (apply out_write; rewrite Hd by lia; lia). rewrite drop_drop, <- app_assoc.
    unfold b1. rewrite (u8_id (_ + _)) by (unfold is_u8; lia). rewrite (Z.mul_comm k 32).
    split; [|rewrite zlen_app, Hd by lia; cbn; change (zlen [_; _]) with 2; lia].
    unfold ret. rewrite !zlen_app. unfold u8. do 2 f_equal. change (zlen [_; _]) with 2. change (zlen [_]) with 1. lia.
  - exists (drop 3 q). erewrite bind_ret_eq by (apply out_write; lia). set (b1 := u8 _).
    replace (zlen h + 1) with (zlen (h ++ [b1])) by (rewrite zlen_app; done).
    rewrite bind_assoc. erewrite bind_ret_eq by (apply out_write; rewrite Hd by lia; lia).
    rewrite (bind_ret_eq (ret _) _ e _ e eq_refl). cbn beta iota. set (b2 := u8 (k - 7)).
    replace (zlen h + 2) with (zlen ((h ++ [b1]) ++ [b2])) by (rewrite !zlen_app; change (zlen [b1]) with 1; change (zlen [b2]) with 1; lia).
    erewrite bind_ret_eq by (apply out_write; rewrite drop_drop, Hd by lia; lia). rewrite !drop_drop, <- !app_assoc.
    unfold b1, b2. rewrite (u8_id (_ + _)), (u8_id (k - 7)) by (unfold is_u8; lia).
    split; [|rewrite zlen_app, Hd by lia; change (zlen [_; _; _]) with 3; lia].
    unfold ret. rewrite !zlen_app. unfold u8. do 2 f_equal. change (zlen [_; _; _]) with 3. change (zlen [_]) with 1. lia.
Qed.

(** What a turn leaves: more of the input read, the end of the loop, or no room. *)
Definition turned (N : Z) (l : lzf_locals) (r : lzf_locals + lzf_locals * bool) : Prop :=
  match r with
  | inl l' => ip l < ip l' /\ exists ts pend, text N l' ts pend
  | inr (l', true) => n - 2 <= ip l' /\ exists ts pend, text N l' ts pend
  | inr (l', false) => zlen (out l') = N
  end.

(** After a reference the output is complete up to [op], which the header of the
    next run follows. *)
Lemma ended_text N ip ref len op out0 ts q hv tab : ended N ip op out0 ts -> 0 <= ref < ip -> ip - ref - 1 < 8192 ->
  3 <= len <= 264 -> ip + len <= n -> same_bytes ref ip len -> (forall i, is_u32 (tab i)) ->
  let t := Ref (ip - ref - 1) (len - 2) in
  zlen (encode ts ++ encode_token t) + zlen q = N ->
  text N {| ip := ip + len; op := zlen (encode ts ++ encode_token t) + 1; hval := hv; lit := 0; htab := tab;
            out := (Some <$> encode ts ++ encode_token t) ++ q |} (ts ++ [t]) [].
Proof.
  intros (Hwf & Hexp & _ & Hz & Hcost & _) Hr Hoff Hl Hle Hs Htab t Hq.
  assert (Hip : zlen (expand [] ts) = ip) by (rewrite Hexp; unfold zlen in *; rewrite length_take; lia).
  split; cbn [Lzf.ip Lzf.op Lzf.lit Lzf.out Lzf.htab]; try done.
  - apply wf_snoc; [done|]. cbn. lia.
  - rewrite app_nil_r, expand_snoc, Hexp. cbn [t expand_token].
    replace (ip - ref - 1 + 1) with (ip - ref) by lia. replace (len - 2 + 2) with len by lia.
    rewrite repeat_text; [f_equal; lia|lia|lia|]. intros j Hj. rewrite !byte_lookup by lia. f_equal. apply Hs. lia.
  - rewrite encode_snoc. change (zlen (@nil Z)) with 0. lia.
  - lia.
  - rewrite zlen_app, zlen_fmap. lia.
  - rewrite encode_snoc. exists q. split; [done|]. by left.
  - rewrite encode_snoc, expand_snoc, zlen_app. cbn [t encode_token expand_token]. rewrite zlen_repeat.
    destruct (Z.ltb_spec (len - 2) 7); [change (zlen [_; _]) with 2|change (zlen [_; _; _]) with 3]; lia.
Qed.

Lemma store_u32 tab i v : (forall i, is_u32 (tab i)) -> forall j, is_u32 (set_slot tab i (u32 v) j).
Proof. intros Htab j. unfold set_slot. destruct (j =? i); [apply u32_range|apply Htab]. Qed.
Lemma enter_ok hv i tab e : 0 <= i < n - 2 -> (forall i, is_u32 (tab i)) ->
  wp (enter data hv i tab) (fun '(_, tab') e' => e' = e /\ forall i, is_u32 (tab' i)) e.
Proof.
  intros Hi Htab. unfold enter, NEXT. apply wp_bind, wp_bind. eapply wp_eq; [apply get_byte; lia|].
  apply wp_ret, wp_ret. split; [done|]. by apply store_u32.
Qed.

Lemma emit_match_ok N l ts pend ref e : text N l ts pend -> 0 < ref < ip l -> ip l < n - 2 ->
  u64 (ip l - ref - 1) = ip l - ref - 1 -> ip l - ref - 1 < 8192 -> same_bytes ref (ip l) 3 ->
  wp (emit_match data n N ref l) (fun r e' => e' = e /\ turned N l r) e.
Proof.
  intros T Hr Hip Ho Hoff Hs. pose proof T as [_ _ Hlit Hrun Hop _ Hz _ Htab _]. pose proof (zlen_nonneg pend).
  pose proof (zlen_nonneg (encode ts)). unfold emit_match. rewrite Ho. cbv zeta.
  assert (Hb : 0 <= b2z (lit l =? 0) <= 1) by (destruct (lit l =? 0); cbn; lia).
  rewrite (u32_id (n - ip l - 2)) by (unfold is_u32; lia).
  destruct (_ && _) eqn:Eroom; [by apply wp_ret|].
  assert (Hroom : op l - b2z (lit l =? 0) + 4 < N) by lia.
  apply wp_bind. eapply wp_mono; [apply (stop_run_ok N l ts pend e T); lia|].
  intros out1 e1 (-> & ts1 & He). pose proof He as (Hwf1 & Hexp1 & Hop1 & Hz1 & _ & q1 & ->).
  apply wp_bind. eapply wp_mono; [apply match_length_ok; [lia|lia|done]|]. intros len e1 (-> & Hl & Hle & Hsl).
  rewrite Hop1 in *. rewrite zlen_app, zlen_fmap in Hz1.
  destruct (put_reference_ok (ip l - ref - 1) (len - 2) (encode ts1) q1 e) as (q2 & Ep & Hq2); [lia..|].
  apply wp_bind. eapply wp_eq; [exact Ep|]. cbn beta iota. replace (ip l + 1 + (len - 2 + 1)) with (ip l + len) by lia.
  assert (Htext : forall hv tab, (forall i, is_u32 (tab i)) -> exists ts pend, text N {| ip := ip l + len;
    op := zlen (encode ts1 ++ encode_token (Ref (ip l - ref - 1) (len - 2))) + 1; hval := hv; lit := 0; htab := tab;
    out := (Some <$> encode ts1 ++ encode_token (Ref (ip l - ref - 1) (len - 2))) ++ q2 |} ts pend).
  { intros hv tab Ht. do 2 eexists. eapply ended_text; [exact He|lia..|done|done|lia]. }
  destruct (Z.leb_spec (n - 2) (ip l + len)); [apply wp_ret; split; [done|]; split; [done|by apply Htext]|].
  unfold FRST. apply wp_bind, wp_bind. eapply wp_eq; [apply get_byte; lia|].
  apply wp_bind. eapply wp_eq; [apply get_byte; lia|]. apply wp_ret.
  apply wp_bind. eapply wp_mono; [apply enter_ok; [lia|done]|]. intros [hv1 tab1] e1 [-> Ht1].
  apply wp_bind. eapply wp_mono; [apply enter_ok; [lia|done]|]. intros [hv2 tab2] e1 [-> Ht2].
  apply wp_ret. split; [done|]. replace (ip l + len - 1 - 1 + 1 + 1) with (ip l + len) by lia.
  split; [cbn; lia|]. by apply Htext.
Qed.

Lemma compress_turn_ok N l ts pend e : text N l ts pend ->
  wp (compress_turn data n N l) (fun r e' => e' = e /\ turned N l r) e.
Proof.
  intros T. pose proof (text_ip _ _ _ _ T) as Hip. unfold compress_turn.
  destruct (Z.ltb_spec (ip l) (n - 2)); [|apply wp_ret; split; [done|]; split; [done|by do 2 eexists]].
  unfold NEXT. apply wp_bind, wp_bind. eapply wp_eq; [apply get_byte; lia|]. apply wp_ret. cbv zeta.
  set (hv := Z.lor _ _). set (l1 := Build_lzf_locals _ _ _ _ _ _).
  assert (T1 : text N l1 ts pend).
  { destruct T. unfold l1. split; cbn [ip op lit out htab]; try done. by apply store_u32. }
  change (ip l1) with (ip l). apply wp_bind. eapply wp_mono; [apply is_match_ok; [apply (text_table _ _ _ _ T)|lia]|].
  intros hit e1 [-> Hhit]. destruct hit.
  - destruct (Hhit eq_refl) as (Hr & Ho & Hoff & Hs). exact (emit_match_ok N l1 ts pend _ e T1 Hr ltac:(done) Ho Hoff Hs).
  - destruct (Z.leb_spec N (op l1)); [apply wp_ret; split; [done|]; apply T1|].
    apply wp_bind. eapply wp_mono; [by apply (emit_literal_ok N l1 ts pend); [|done|cbn; lia]|].
    intros l2 e1 (-> & HT2 & Hip2 & _). apply wp_ret. split; [done|]. split; [rewrite Hip2; cbn; lia|done].
Qed.

(** *** The end of the text *)

(** What the compressor returns: nothing, or a text of its whole input. *)
Definition compressed (N : Z) (r : Z * buf) : Prop := zlen (snd r) = N /\
  (fst r = 0 \/ 0 < fst r <= N /\ exists ts, ts <> [] /\ ended N n (fst r) (snd r) ts).

(** A literal takes a cell, and one more where it completes a run of 32. *)
Lemma run_room N op lit k : 1 <= k <= 2 -> 0 <= lit < 32 -> op + k + b2z (32 <=? lit + k) <= N ->
  op + 1 + b2z (lit =? 31) + (k - 1) + b2z (32 <=? (if lit =? 31 then 0 else lit + 1) + (k - 1)) <= N.
Proof.
  intros Hk Hl. destruct (Z.leb_spec 32 (lit + k)), (Z.eqb_spec lit 31);
    match goal with |- context [32 <=? ?x] => destruct (Z.leb_spec 32 x) end; cbn [b2z]; lia.
Qed.

Lemma compress_end_ok N l ts pend e : 1 <= n -> text N l ts pend -> n - 2 <= ip l ->
  wp (compress_end data n N l) (fun r e' => e' = e /\ compressed N r) e.
Proof.
  intros Hn T Hip. pose proof (text_ip _ _ _ _ T). unfold compress_end.
  destruct (Z.ltb_spec N (op l + 3)); [apply wp_ret; split; [done|]; split; [apply T|by left]|].
  apply wp_bind. eapply wp_mono; [apply (wp_while _
    (fun l e' => e' = e /\ (exists ts pend, text N l ts pend) /\ n - 2 <= ip l /\
       op l + (n - ip l) + b2z (32 <=? lit l + (n - ip l)) <= N)
    (fun l _ => Z.to_nat (n - ip l)) (fun l e' => e' = e /\ (exists ts pend, text N l ts pend) /\ ip l = n /\ op l <= N))|].
  - intros l1 e1 (-> & (ts1 & pend1 & T1) & Hip1 & Hroom). pose proof (text_ip _ _ _ _ T1).
    pose proof (text_lit _ _ _ _ T1). pose proof (text_run _ _ _ _ T1). pose proof (zlen_nonneg pend1).
    destruct (Z.ltb_spec (ip l1) n).
    + apply wp_bind. eapply wp_mono; [apply (emit_literal_ok N l1 ts1 pend1); [done|destruct (_ <=? _); cbn in Hroom; lia|done]|].
      intros l2 e2 (-> & HT2 & Hip2 & Hop2 & Hlit2). apply wp_ret. split; [|lia]. split; [done|]. split; [done|].
      split; [lia|]. rewrite Hop2, Hlit2, Hip2. pose proof (run_room N (op l1) (lit l1) (n - ip l1)) as Hrr.
      replace (n - (ip l1 + 1)) with (n - ip l1 - 1) by lia. apply Hrr; lia.
    + apply wp_ret. split; [done|]. split; [by do 2 eexists|]. split; [lia|]. destruct (_ <=? _); cbn in Hroom; lia.
  - split; [done|]. split; [by do 2 eexists|]. split; [done|]. destruct (_ <=? _); cbn; lia.
  - unfold zlen in *. lia.
  - intros l1 e1 (-> & (ts1 & pend1 & T1) & Hip1 & Hop1).
    pose proof (text_op _ _ _ _ T1) as Ho. pose proof (zlen_nonneg pend1).
    apply wp_bind. eapply wp_mono; [apply (stop_run_ok N l1 ts1 pend1 e T1); lia|].
    intros out1 e1 (-> & ts2 & He). rewrite Hip1 in He. apply wp_ret. split; [done|].
    pose proof He as (Hwf2 & Hexp2 & Hop2 & Hz2 & _ & q & Eq). split; [done|]. right. cbn [fst snd].
    assert (Hne : ts2 <> []).
    { intros ->. apply (f_equal length) in Hexp2. rewrite length_take in Hexp2. unfold zlen in *. cbn in Hexp2. lia. }
    assert (Hpos : 0 < zlen (encode ts2)).
    { destruct ts2 as [|t ts2]; [done|]. change (encode (t :: ts2)) with (encode_token t ++ encode ts2).
      rewrite zlen_app. pose proof (encode_token_long t [] (proj1 Hwf2)). pose proof (zlen_nonneg (encode ts2)). lia. }
    split; [|by exists ts2]. split; [lia|]. destruct (lit l1 =? 0); cbn [b2z]; lia.
Qed.

Lemma lzf_compress_ok htab out e : 2 <= n -> (forall i, is_u32 (htab i)) ->
  wp (lzf_compress htab data n out (zlen out)) (fun r e' => e' = e /\ compressed (zlen out) r) e.
Proof.
  intros Hn Htab. unfold lzf_compress. destruct (_ || _); [apply wp_ret; split; [done|]; split; [done|by left]|].
  unfold FRST. apply wp_bind, wp_bind. eapply wp_eq; [apply get_byte; lia|].
  apply wp_bind. eapply wp_eq; [apply get_byte; lia|]. apply wp_ret. apply wp_bind.
  eapply wp_mono; [apply (wp_while _ (fun l e' => e' = e /\ exists ts pend, text (zlen out) l ts pend)
    (fun l _ => Z.to_nat (n - ip l)) (fun r e' => e' = e /\ let '(l, go_on) := r in
       if go_on : bool then n - 2 <= ip l /\ exists ts pend, text (zlen out) l ts pend else zlen (Lzf.out l) = zlen out))|].
  - intros l e1 (-> & ts & pend & T). eapply wp_mono; [by eapply compress_turn_ok|].
    intros [l'|[l' []]] e1 [-> Ht]; [|done|done]. destruct Ht as [Hlt (ts' & pend' & T')].
    split; [split; [done|by do 2 eexists]|]. pose proof (text_ip _ _ _ _ T'). lia.
  - split; [done|]. exists [], []. split; cbn; try done; try lia. by exists out; split; [|left].
  - cbn. unfold zlen. lia.
  - intros [l []] e1 [-> Hl].
    + destruct Hl as (Hip & ts & pend & T). eapply compress_end_ok; [lia|exact T|done].
    + apply wp_ret. split; [done|]. split; [done|by left].
Qed.
End compress.

(** A positive result is the length of a text from which the input is restored. *)
Lemma compressed_restores data N r : zlen data < 4294967296 -> compressed data N r ->
  fst r = 0 \/ 0 < fst r <= N /\ 32 * fst r <= 33 * zlen data + 32 /\ exists c q, snd r = (Some <$> c) ++ q /\ zlen c = fst r /\
    forall back e0, zlen data <= zlen back ->
      lzf_decompress c (fst r) back (zlen back) e0 = Ret (zlen data, (Some <$> data) ++ drop (length data) back) e0.
Proof.
  intros Hlen [Hz [->|[Hn (ts & Hne & Hwf & Hexp & E & _ & Hcost & q & Eq)]]]; [by left|]. right. rewrite E in *. split; [lia|].
  assert (Ed : expand [] ts = data) by (rewrite Hexp; apply take_ge; unfold zlen; lia). rewrite Ed in *. split; [lia|].
  exists (encode ts), q. split; [done|]. split; [done|]. intros back e0 Hroom.
  destruct (decompress_expands ts back e0 Hne Hwf) as (out' & _ & Ed' & Ho). rewrite Ed in *.
  rewrite Ed', (Ho Hroom). by rewrite (proj2 (Z.leb_le _ _)) by lia.
Qed.

(** C20: LZF compression loses nothing. For every input of at least two bytes,
    every output buffer and whatever the uninitialised table holds, [lzf_compress]
    ends without undefined behaviour and stays inside its buffers; the result
    exceeds the input by at most a byte in 32 and one more; a positive
    result is the length of a text at the front of the output from which
    [lzf_decompress], given room, restores exactly the input. *)
Theorem lzf_round_trip {S} data out htab (e : S) : Forall is_u8 data -> 2 <= zlen data < 4294967296 ->
  (forall i, is_u32 (htab i)) ->
  wp (lzf_compress htab data (zlen data) out (zlen out)) (fun '(n, out') e' => e' = e /\ zlen out' = zlen out /\
    0 <= n <= zlen out /\ 32 * n <= 33 * zlen data + 32 /\
    (0 < n -> exists c q, out' = (Some <$> c) ++ q /\ zlen c = n /\
       forall back e0, zlen data <= zlen back ->
         lzf_decompress c n back (zlen back) e0 = Ret (zlen data, (Some <$> data) ++ drop (length data) back) e0)) e.
Proof.
  intros Hu Hlen Htab. pose proof (zlen_nonneg out).
  eapply wp_mono; [apply (lzf_compress_ok data Hu ltac:(lia) htab out e); [lia|done]|].
  intros [n out'] e' [-> Hc]. destruct (compressed_restores data (zlen out) (n, out') ltac:(lia) Hc) as [Hn|(Hn & Hcost & Hr)]; cbn [fst snd] in *; (split; [done|]); (split; [apply Hc|]).
  - subst n. split; [lia|]. split; [lia|]. lia.
  - split; [lia|]. split; [lia|]. by intros _.
Qed.

(** ** The theorems on concrete inputs *)
Definition sample_text : list Z := [1; 2; 3; 4; 1; 2; 3; 4; 1; 2; 3; 4; 1; 2; 3; 4; 1; 2; 3; 4; 9].
Lemma sample_text_u8 : Forall is_u8 sample_text.
Proof. unfold sample_text. repeat constructor; unfold is_u8; lia. Qed.

(** The first byte is never the target of a reference, so the period is found
    one round later. *)
Lemma lzf_round_trip_witness :
  exists c q, lzf_compress (fun _ => 77) sample_text 21 (uninit 20) 20 tt = Ret (12, (Some <$> c) ++ q) tt /\
    forall back e0, 21 <= zlen back ->
      lzf_decompress c 12 back (zlen back) e0 = Ret (21, (Some <$> sample_text) ++ drop 21 back) e0.
Proof.
  pose proof (lzf_round_trip sample_text (uninit 20) (fun _ => 77) tt sample_text_u8) as T.
  specialize (T ltac:(vm_compute; split; [discriminate|reflexivity]) ltac:(intros; unfold is_u32; lia)).
  unfold wp in T. change (zlen sample_text) with 21 in T. change (zlen (uninit 20)) with 20 in T.
  assert (E : exists b, lzf_compress (fun _ => 77) sample_text 21 (uninit 20) 20 tt = Ret (12, b) tt)
    by (eexists; vm_compute; reflexivity).
  destruct E as [b E]. rewrite E in T. destruct T as (_ & _ & _ & _ & T). destruct (T ltac:(lia)) as (c & q & -> & _ & R).
  exists c, q. split; [exact E|exact R].
Defined.

(** A text of three literals and a repetition of ten bytes, into a buffer it fills
    and into one that is a byte too short. *)
Lemma lzf_decompress_accepts_witness :
  wp (lzf_decompress [2; 7; 8; 9; 224; 1; 2] 7 (uninit 13) 13) (fun '(n, out') e' =>
    n = 13 /\ e' = 0 /\ out' = Some <$> [7; 8; 9; 7; 8; 9; 7; 8; 9; 7; 8; 9; 7]) 0 /\
  wp (lzf_decompress [2; 7; 8; 9; 224; 1; 2] 7 (uninit 12) 12) (fun '(n, _) e' => n = 0 /\ e' = E2BIG) 0.
Proof.
  assert (Hu : Forall is_u8 [2; 7; 8; 9; 224; 1; 2]) by (repeat constructor; unfold is_u8; lia).
  assert (Ht : spells [2; 7; 8; 9; 224; 1; 2] [7; 8; 9; 7; 8; 9; 7; 8; 9; 7; 8; 9; 7]).
  { exists [Lit [7; 8; 9]; Ref 2 8]. split; [done|]. split; [done|]. split; [|done].
    cbn. repeat split; repeat constructor; unfold is_u8; vm_compute; congruence. }
  split.
  - eapply wp_mono; [apply (lzf_decompress_accepts _ (uninit 13) 0 Hu); done|].
    intros [n out'] e' (_ & H & _). destruct (H _ Ht) as (Hn & _ & He & Ho). done.
  - eapply wp_mono; [apply (lzf_decompress_accepts _ (uninit 12) 0 Hu); done|].
    intros [n out'] e' (_ & H & _). exact (H _ Ht).
Defined.

(** Where the code departs from its documentation. An input of one byte is read
    beyond its end: the hash of the first two is computed before the length is
    looked at. *)
Lemma compress_reads_past_one_byte {S} htab x out out_len (e : S) : out_len <> 0 ->
  lzf_compress htab [x] 1 out out_len e = Fault OutOfBounds.
Proof. intros H. unfold lzf_compress. by rewrite (proj2 (Z.eqb_neq _ _) H). Qed.
(** An empty input is read by the decompressor. *)
Lemma decompress_reads_empty out out_len e : lzf_decompress [] 0 out out_len e = Fault OutOfBounds.
Proof. done. Qed.
(** Two bytes become three, which is more than 104 percent. *)
Example two_bytes_grow : lzf_compress (fun _ => 0) [5; 6] 2 (uninit 4) 4 tt =
  Ret (3, [Some 1; Some 5; Some 6; None]) tt.
Proof. vm_compute. reflexivity. Qed.
