(* ===== verification/Dict.v ===== *)
(** dict.c of the Redis the project ships: the hash table behind every database,
    with chains of entries and two tables between which entries move a
    bucket at a time while the dictionary is in use (64-bit Windows).

    Entries and tables are blocks of a heap, addressed by positive numbers; a
    pointer is an option. Keys and values are pointers the dictionary does not
    look into: what it does with them goes through the functions of a [dictType]. *)
From S2P Require Import Prelude Util.
#[local] Open Scope Z_scope.

Definition DICT_OK : Z := 0.
Definition DICT_ERR : Z := 1.
Definition DICT_HT_INITIAL_SIZE : Z := 4.
Definition dict_force_resize_ratio : Z := 5.
Definition PORT_LONG_MAX : Z := 9223372036854775807.

(** The union [v] is uninitialised until a value is set. *)
Record dictEntry (K V : Type) := { key : K; v : option V; next : option positive }.
Arguments key {K V}.
Arguments v {K V}.
Arguments next {K V}.

(** A destructor has no result: all that is kept of it is whether there is one. *)
Record dictType (K V : Type) := {
  hashFunction : K -> Z;
  keyDup : option (K -> K);
  valDup : option (V -> V);
  keyCompare : option (K -> K -> bool);
  keyDestructor : bool;
  valDestructor : bool
}.
Arguments hashFunction {K V}.
Arguments keyDup {K V}.
Arguments valDup {K V}.
Arguments keyCompare {K V}.
Arguments keyDestructor {K V}.
Arguments valDestructor {K V}.

Record dictht := { table : option positive; hsize : Z; sizemask : Z; used : Z }.
Record dict := { ht0 : dictht; ht1 : dictht; rehashidx : Z; iterators : Z }.

(** The dictionary, [None] before it is created and after it is released; the live
    blocks; the calls of the destructors, the last one first; and two global
    variables. [brk] is the next address to be handed out. *)
Record world (K V : Type) := {
  the_dict : option dict;
  entries : gmap positive (dictEntry K V);
  tables : gmap positive (list (option positive));
  brk : positive;
  freed_keys : list K;
  freed_vals : list V;
  dict_can_resize : bool;
  g_IsForkedProcess : bool
}.
Arguments the_dict {K V}.
Arguments entries {K V}.
Arguments tables {K V}.
Arguments brk {K V}.
Arguments freed_keys {K V}.
Arguments freed_vals {K V}.
Arguments dict_can_resize {K V}.
Arguments g_IsForkedProcess {K V}.

Section heap.
Context {K V : Type}.
Implicit Types w : world K V.

Definition with_the_dict (d : option dict) w : world K V :=
  {| the_dict := d; entries := entries w; tables := tables w; brk := brk w; freed_keys := freed_keys w;
     freed_vals := freed_vals w; dict_can_resize := dict_can_resize w; g_IsForkedProcess := g_IsForkedProcess w |}.
Definition with_entries E w : world K V :=
  {| the_dict := the_dict w; entries := E; tables := tables w; brk := brk w; freed_keys := freed_keys w;
     freed_vals := freed_vals w; dict_can_resize := dict_can_resize w; g_IsForkedProcess := g_IsForkedProcess w |}.
Definition with_tables T w : world K V :=
  {| the_dict := the_dict w; entries := entries w; tables := T; brk := brk w; freed_keys := freed_keys w;
     freed_vals := freed_vals w; dict_can_resize := dict_can_resize w; g_IsForkedProcess := g_IsForkedProcess w |}.
Definition with_brk p w : world K V :=
  {| the_dict := the_dict w; entries := entries w; tables := tables w; brk := p; freed_keys := freed_keys w;
     freed_vals := freed_vals w; dict_can_resize := dict_can_resize w; g_IsForkedProcess := g_IsForkedProcess w |}.
Definition with_freed ks vs w : world K V :=
  {| the_dict := the_dict w; entries := entries w; tables := tables w; brk := brk w; freed_keys := ks;
     freed_vals := vs; dict_can_resize := dict_can_resize w; g_IsForkedProcess := g_IsForkedProcess w |}.
Definition with_resize b w : world K V :=
  {| the_dict := the_dict w; entries := entries w; tables := tables w; brk := brk w; freed_keys := freed_keys w;
     freed_vals := freed_vals w; dict_can_resize := b; g_IsForkedProcess := g_IsForkedProcess w |}.

Definition upd (f : world K V -> world K V) : M (world K V) unit := let* w := get in put (f w).
Definition the : M (world K V) dict := fun w =>
  match the_dict w with Some d => Ret d w | None => Fault OutOfBounds end.
Definition upd_dict (f : dict -> dict) : M (world K V) unit :=
  let* d := the in upd (with_the_dict (Some (f d))).

(** [*p], for an entry. *)
Definition load (p : positive) : M (world K V) (dictEntry K V) := fun w =>
  match entries w !! p with Some e => Ret e w | None => Fault OutOfBounds end.
Definition save (p : positive) (e : dictEntry K V) : M (world K V) unit := fun w =>
  match entries w !! p with Some _ => Ret tt (with_entries (<[p := e]> (entries w)) w) | None => Fault OutOfBounds end.

(** [t[i]], for a table. *)
Definition bucket (t : option positive) (i : Z) : M (world K V) (option positive) := fun w =>
  match t with
  | None => Fault NullDeref
  | Some t =>
      match (if 0 <=? i then tables w !! t ≫= (.!! Z.to_nat i) else None) with
      | Some p => Ret p w
      | None => Fault OutOfBounds
      end
  end.
Definition set_bucket (t : option positive) (i : Z) (p : option positive) : M (world K V) unit := fun w =>
  match t with
  | None => Fault NullDeref
  | Some t =>
      match tables w !! t with
      | Some b => if (0 <=? i) && (i <? zlen b)
                  then Ret tt (with_tables (<[t := <[Z.to_nat i := p]> b]> (tables w)) w)
                  else Fault OutOfBounds
      | None => Fault OutOfBounds
      end
  end.

(** The allocator returns or ends the process. *)
Definition new_entry (e : dictEntry K V) : M (world K V) positive := fun w =>
  Ret (brk w) (with_brk (Pos.succ (brk w)) (with_entries (<[brk w := e]> (entries w)) w)).
(** [zcalloc(bytes)] for an array of pointers. *)
Definition new_buckets (bytes : Z) : M (world K V) positive := fun w =>
  Ret (brk w) (with_brk (Pos.succ (brk w))
    (with_tables (<[brk w := replicate (Z.to_nat (bytes / 8)) None]> (tables w)) w)).
Definition free_entry (p : positive) : M (world K V) unit := fun w =>
  match entries w !! p with
  | Some _ => Ret tt (with_entries (delete p (entries w)) w)
  | None => Fault BadArgument
  end.
Definition free_table (t : option positive) : M (world K V) unit := fun w =>
  match t with
  | None => Ret tt w
  | Some t =>
      match tables w !! t with
      | Some _ => Ret tt (with_tables (delete t (tables w)) w)
      | None => Fault BadArgument
      end
  end.

(** A chain of entries has at most as many links as there are entries. *)
Definition chain_fuel : M (world K V) nat := let* w := get in ret (Datatypes.S (base.size (entries w))).
End heap.

Section dict.
Context {K V : Type} `{EqDecision K}.
Variable type : dictType K V.
Abbreviation D := (M (world K V)).

(** ** The macros of dict.h *)
Definition dictIsRehashing (d : dict) : bool := negb (rehashidx d =? -1).
Definition dictSize (d : dict) : Z := u64 (used (ht0 d) + used (ht1 d)).
Definition dictHashKey (k : K) : Z := hashFunction type k.
Definition dictCompareKeys (k1 k2 : K) : bool :=
  match keyCompare type with Some f => f k1 k2 | None => bool_decide (k1 = k2) end.
Definition dictFreeKey (e : dictEntry K V) : D unit :=
  if keyDestructor type then upd (fun w => with_freed (key e :: freed_keys w) (freed_vals w) w) else ret tt.
Definition dictFreeVal (e : dictEntry K V) : D unit :=
  if valDestructor type then
    match v e with
    | Some x => upd (fun w => with_freed (freed_keys w) (x :: freed_vals w) w)
    | None => fail Uninit
    end
  else ret tt.
Definition dup_key (k : K) : K := match keyDup type with Some f => f k | None => k end.
Definition dup_val (x : V) : V := match valDup type with Some f => f x | None => x end.
Definition dictSetVal (p : positive) (x : V) : D unit :=
  let* e := load p in save p {| key := key e; v := Some (dup_val x); next := next e |}.

(** The table [ht[t]]. *)
Definition ht (d : dict) (t : bool) : dictht := if t then ht1 d else ht0 d.
Definition with_ht (t : bool) (h : dictht) (d : dict) : dict :=
  if t then {| ht0 := ht0 d; ht1 := h; rehashidx := rehashidx d; iterators := iterators d |}
  else {| ht0 := h; ht1 := ht1 d; rehashidx := rehashidx d; iterators := iterators d |}.
Definition with_rehashidx (i : Z) (d : dict) : dict :=
  {| ht0 := ht0 d; ht1 := ht1 d; rehashidx := i; iterators := iterators d |}.
Definition with_iterators (n : Z) (d : dict) : dict :=
  {| ht0 := ht0 d; ht1 := ht1 d; rehashidx := rehashidx d; iterators := n |}.
Definition with_used (n : Z) (h : dictht) : dictht :=
  {| table := table h; hsize := hsize h; sizemask := sizemask h; used := u64 n |}.
(** [ht[t].used += n] *)
Definition add_used (t : bool) (n : Z) : D unit :=
  upd_dict (fun d => with_ht t (with_used (used (ht d t) + n) (ht d t)) d).

(** ** Creation *)
Definition reset : dictht := {| table := None; hsize := 0; sizemask := 0; used := 0 |}.
Definition _dictReset (t : bool) : D unit := upd_dict (with_ht t reset).
Definition _dictInit : dict := {| ht0 := reset; ht1 := reset; rehashidx := -1; iterators := 0 |}.
Definition dictCreate : D unit := upd (with_the_dict (Some _dictInit)).

(** ** Resizing *)

(** The loop doubles [i]; a 64-bit number needs at most 62 turns. *)
Definition _dictNextPower (size : Z) : D Z :=
  if PORT_LONG_MAX <=? size then ret (u64 (PORT_LONG_MAX + 1))
  else while_loop 64 (fun i => if size <=? i then ret (inr i) else ret (inl (u64 (i * 2)))) DICT_HT_INITIAL_SIZE.

Definition dictExpand (size : Z) : D Z :=
  let* d := the in
  if dictIsRehashing d || (size <? used (ht0 d)) then ret DICT_ERR
  else
    let* realsize := _dictNextPower size in
    if realsize =? hsize (ht0 d) then ret DICT_ERR
    else
      let* t := new_buckets (u64 (realsize * 8)) in
      let n := {| table := Some t; hsize := realsize; sizemask := u64 (realsize - 1); used := 0 |} in
      match table (ht0 d) with
      | None => upd_dict (with_ht false n) ;;; ret DICT_OK
      | Some _ => upd_dict (with_ht true n) ;;; upd_dict (with_rehashidx 0) ;;; ret DICT_OK
      end.

Definition dictResize : D Z :=
  let* w := get in
  let* d := the in
  if negb (dict_can_resize w) || dictIsRehashing d then ret DICT_ERR
  else
    let minimal := i32 (used (ht0 d)) in
    let minimal := if minimal <? DICT_HT_INITIAL_SIZE then DICT_HT_INITIAL_SIZE else minimal in
    dictExpand minimal.

Definition dictEnableResize : D unit := upd (with_resize true).
Definition dictDisableResize : D unit := upd (with_resize false).

(** ** Incremental rehashing *)

(** [while(ht[0].table[rehashidx] == NULL) ...]: [None] when too many buckets
    were empty, else the visits that are left. *)
Definition skip_turn (empty_visits : Z) : D (Z + option Z) :=
  let* d := the in
  let* b := bucket (table (ht0 d)) (rehashidx d) in
  match b with
  | Some _ => ret (inr (Some empty_visits))
  | None =>
      upd_dict (with_rehashidx (rehashidx d + 1)) ;;;
      let empty_visits := i32 (empty_visits - 1) in
      if empty_visits =? 0 then ret (inr None) else ret (inl empty_visits)
  end.
Definition skip_empty (empty_visits : Z) : D (option Z) :=
  let* d := the in while_loop (Datatypes.S (Z.to_nat (hsize (ht0 d)))) skip_turn empty_visits.

(** [while(de) ...]: the entries of a chain go to the second table. *)
Definition move_turn (de : option positive) : D (option positive + unit) :=
  match de with
  | None => ret (inr tt)
  | Some p =>
      let* e := load p in
      let nextde := next e in
      let* d := the in
      let h := Z.land (dictHashKey (key e)) (sizemask (ht1 d)) in
      let* head := bucket (table (ht1 d)) h in
      save p {| key := key e; v := v e; next := head |} ;;;
      set_bucket (table (ht1 d)) h (Some p) ;;;
      add_used false (-1) ;;;
      add_used true 1 ;;;
      ret (inl nextde)
  end.
Definition move_chain (de : option positive) : D unit :=
  let* n := chain_fuel in while_loop n move_turn de.

(** What follows the loop: [false] when the rehashing is over. *)
Definition check_rehashed : D bool :=
  let* d := the in
  if used (ht0 d) =? 0 then
    free_table (table (ht0 d)) ;;;
    upd_dict (fun d => with_ht false (ht1 d) d) ;;;
    _dictReset true ;;;
    upd_dict (with_rehashidx (-1)) ;;;
    ret false
  else ret true.

(** [while(n-- && ht[0].used != 0)]: [false] for the [return 1] in its body. *)
Definition rehash_turn (a : Z * Z) : D (Z * Z + bool) :=
  let '(n, empty_visits) := a in
  let* d := the in
  if (n =? 0) || (used (ht0 d) =? 0) then ret (inr true)
  else if hsize (ht0 d) <=? u64 (rehashidx d) then fail AssertFail
  else
    let* visits := skip_empty empty_visits in
    match visits with
    | None => ret (inr false)
    | Some empty_visits =>
        let* d := the in
        let* de := bucket (table (ht0 d)) (rehashidx d) in
        move_chain de ;;;
        set_bucket (table (ht0 d)) (rehashidx d) None ;;;
        upd_dict (with_rehashidx (rehashidx d + 1)) ;;;
        ret (inl (i32 (n - 1), empty_visits))
    end.
Definition rehash_loop (n empty_visits : Z) : D bool :=
  let* d := the in while_loop (Datatypes.S (Z.to_nat (hsize (ht0 d)))) rehash_turn (n, empty_visits).

(** The result is whether there is more to move. *)
Definition dictRehash (n : Z) : D bool :=
  let* w := get in
  if g_IsForkedProcess w then ret false
  else
    let empty_visits := i32 (n * 10) in
    let* d := the in
    if negb (dictIsRehashing d) then ret false
    else
      let* go_on := rehash_loop n empty_visits in
      if (go_on : bool) then check_rehashed else ret true.

(** [clock i] is what the call number [i] of [timeInMilliseconds] returns. *)
Definition rehash_round (clock : nat -> Z) (ms : Z) (a : nat * Z) : D (nat * Z + Z) :=
  let '(i, rehashes) := a in
  let* more := dictRehash 100 in
  if more then
    let rehashes := i32 (rehashes + 100) in
    if ms <? clock i - clock 0%nat then ret (inr rehashes) else ret (inl (Datatypes.S i, rehashes))
  else ret (inr rehashes).
Definition dictRehashMilliseconds (clock : nat -> Z) (ms : Z) : D Z :=
  let* d := the in while_loop (2 + Z.to_nat (hsize (ht0 d))) (rehash_round clock ms) (1%nat, 0).

Definition _dictRehashStep : D unit :=
  let* d := the in
  if iterators d =? 0 then dictRehash 1 ;;; ret tt else ret tt.

(** [if (dictIsRehashing(d)) _dictRehashStep(d);] *)
Definition step_if_rehashing : D unit :=
  let* d := the in if dictIsRehashing d then _dictRehashStep else ret tt.

(** ** Looking up *)
Definition same_key (k k' : K) : bool := bool_decide (k = k') || dictCompareKeys k k'.

(** [while(he) { if (key==he->key || dictCompareKeys(d, key, he->key)) ...; he = he->next; }] *)
Definition search_chain (k : K) (he : option positive) : D (option positive) :=
  let* n := chain_fuel in
  while_loop n (fun he =>
    match he with
    | None => ret (inr None)
    | Some p => let* e := load p in if same_key k (key e) then ret (inr (Some p)) else ret (inl (next e))
    end) he.

(** The body of [for (table = 0; table <= 1; table++)] in a search. *)
Definition search_table (k : K) (h : Z) (t : bool) : D (option positive) :=
  let* d := the in
  let* he := bucket (table (ht d t)) (Z.land h (sizemask (ht d t))) in
  search_chain k he.

(** Both tables, the second while rehashing. *)
Definition search_tables (k : K) (h : Z) : D (option positive) :=
  let* he := search_table k h false in
  match he with
  | Some p => ret (Some p)
  | None => let* d := the in if negb (dictIsRehashing d) then ret None else search_table k h true
  end.

Definition dictFind (k : K) : D (option positive) :=
  let* d := the in
  if u64 (used (ht0 d) + used (ht1 d)) =? 0 then ret None
  else step_if_rehashing ;;; search_tables k (dictHashKey k).

(** [None] is NULL. *)
Definition dictFetchValue (k : K) : D (option V) :=
  let* he := dictFind k in
  match he with
  | None => ret None
  | Some p => let* e := load p in match v e with Some x => ret (Some x) | None => fail Uninit end
  end.

Definition dictGetHash (k : K) : Z := dictHashKey k.

(** ** Adding *)
Definition _dictExpandIfNeeded : D Z :=
  let* w := get in
  let* d := the in
  if dictIsRehashing d then ret DICT_OK
  else if hsize (ht0 d) =? 0 then dictExpand DICT_HT_INITIAL_SIZE
  else if (hsize (ht0 d) <=? used (ht0 d)) &&
          (dict_can_resize w || (dict_force_resize_ratio <? used (ht0 d) / hsize (ht0 d)))
  then dictExpand (u64 (used (ht0 d) * 2))
  else ret DICT_OK.

(** The index and [*existing]. *)
Definition _dictKeyIndex (k : K) (hash : Z) : D (Z * option positive) :=
  let* r := _dictExpandIfNeeded in
  if r =? DICT_ERR then ret (-1, None)
  else
    let* he := search_tables k hash in
    match he with
    | Some p => ret (-1, Some p)
    | None =>
        let* d := the in
        ret (Z.land hash (sizemask (ht d (dictIsRehashing d))), None)
    end.

(** The entry that was added, and [*existing]. *)
Definition dictAddRaw (k : K) : D (option positive * option positive) :=
  step_if_rehashing ;;;
  let* (index, existing) := _dictKeyIndex k (dictHashKey k) in
  if index =? -1 then ret (None, existing)
  else
    let* d := the in
    let t := dictIsRehashing d in
    let* head := bucket (table (ht d t)) index in
    let* entry := new_entry {| key := dup_key k; v := None; next := head |} in
    set_bucket (table (ht d t)) index (Some entry) ;;;
    add_used t 1 ;;;
    ret (Some entry, None).

Definition dictAdd (k : K) (x : V) : D Z :=
  let* (entry, _) := dictAddRaw k in
  match entry with
  | None => ret DICT_ERR
  | Some p => dictSetVal p x ;;; ret DICT_OK
  end.

Definition dictReplace (k : K) (x : V) : D Z :=
  let* (entry, existing) := dictAddRaw k in
  match entry with
  | Some p => dictSetVal p x ;;; ret 1
  | None =>
      match existing with
      | None => fail NullDeref
      | Some p => let* auxentry := load p in dictSetVal p x ;;; dictFreeVal auxentry ;;; ret 0
      end
  end.

Definition dictAddOrFind (k : K) : D (option positive) :=
  let* (entry, existing) := dictAddRaw k in
  ret (match entry with Some p => Some p | None => existing end).

(** ** Removing *)

(** [dictFreeKey(d, he); dictFreeVal(d, he); zfree(he);] *)
Definition release_entry (p : positive) : D unit :=
  let* e := load p in dictFreeKey e ;;; dictFreeVal e ;;; free_entry p.

(** [prevHe->next = he->next], or the bucket where there is no [prevHe]. *)
Definition unlink (t : option positive) (idx : Z) (prevHe : option positive) (e : dictEntry K V) : D unit :=
  match prevHe with
  | Some q => let* eq := load q in save q {| key := key eq; v := v eq; next := next e |}
  | None => set_bucket t idx (next e)
  end.

(** The body of the loop over the tables in [dictGenericDelete]: [h] is the hash
    of the key and [idx] its bucket. *)
Definition delete_turn (k : K) (idx : Z) (nofree t : bool) (a : option positive * option positive)
    : D (option positive * option positive + option positive) :=
  let '(prevHe, he) := a in
  match he with
  | None => ret (inr None)
  | Some p =>
      let* e := load p in
      if same_key k (key e) then
        let* d := the in
        unlink (table (ht d t)) idx prevHe e ;;;
        (if negb nofree then release_entry p else ret tt) ;;;
        add_used t (-1) ;;;
        ret (inr (Some p))
      else ret (inl (Some p, next e))
  end.
Definition delete_from (k : K) (h : Z) (nofree t : bool) : D (option positive) :=
  let* d := the in
  let idx := Z.land h (sizemask (ht d t)) in
  let* he := bucket (table (ht d t)) idx in
  let* n := chain_fuel in
  while_loop n (delete_turn k idx nofree t) (None, he).

Definition dictGenericDelete (k : K) (nofree : bool) : D (option positive) :=
  let* d := the in
  if (used (ht0 d) =? 0) && (used (ht1 d) =? 0) then ret None
  else
    step_if_rehashing ;;;
    let h := dictHashKey k in
    let* he := delete_from k h nofree false in
    match he with
    | Some p => ret (Some p)
    | None => let* d := the in if negb (dictIsRehashing d) then ret None else delete_from k h nofree true
    end.

Definition dictDelete (k : K) : D Z :=
  let* he := dictGenericDelete k false in ret (match he with Some _ => DICT_OK | None => DICT_ERR end).
Definition dictUnlink (k : K) : D (option positive) := dictGenericDelete k true.
Definition dictFreeUnlinkedEntry (he : option positive) : D unit :=
  match he with None => ret tt | Some p => release_entry p end.

(** [while(he) ...] in [_dictClear]. *)
Definition clear_entry (t : bool) (he : option positive) : D (option positive + unit) :=
  match he with
  | None => ret (inr tt)
  | Some p =>
      let* e := load p in
      let nextHe := next e in
      release_entry p ;;;
      add_used t (-1) ;;;
      ret (inl nextHe)
  end.
Definition clear_turn (t : bool) (i : Z) : D (Z + unit) :=
  let* d := the in
  if (i <? hsize (ht d t)) && (0 <? used (ht d t)) then
    let* he := bucket (table (ht d t)) i in
    let* n := chain_fuel in
    while_loop n (clear_entry t) he ;;;
    ret (inl (i + 1))
  else ret (inr tt).

Definition _dictClear (t : bool) : D Z :=
  let* d := the in
  while_loop (Datatypes.S (Z.to_nat (hsize (ht d t)))) (clear_turn t) 0 ;;;
  let* d := the in
  free_table (table (ht d t)) ;;;
  _dictReset t ;;;
  ret DICT_OK.

Definition dictRelease : D unit :=
  _dictClear false ;;; _dictClear true ;;; the ;;; upd (with_the_dict None).

Definition dictEmpty : D unit :=
  _dictClear false ;;; _dictClear true ;;; upd_dict (with_rehashidx (-1)) ;;; upd_dict (with_iterators 0).

(** The reference the last function returns: a bucket of a table, or the [next] of
    an entry. *)
Inductive reference := InBucket (t : option positive) (i : Z) | InNext (p : positive).

(** [while(he) { if (oldptr==he->key) return heref; heref = &he->next; he = *heref; }] *)
Definition find_ref_in (oldptr : K) (hash : Z) (t : bool) : D (option reference) :=
  let* d := the in
  let idx := Z.land hash (sizemask (ht d t)) in
  let* he := bucket (table (ht d t)) idx in
  let* n := chain_fuel in
  while_loop n (fun '(heref, he) =>
    match he with
    | None => ret (inr None)
    | Some p =>
        let* e := load p in
        if bool_decide (oldptr = key e) then ret (inr (Some heref)) else ret (inl (InNext p, next e))
    end) (InBucket (table (ht d t)) idx, he).

Definition dictFindEntryRefByPtrAndHash (oldptr : K) (hash : Z) : D (option reference) :=
  let* d := the in
  if u64 (used (ht0 d) + used (ht1 d)) =? 0 then ret None
  else
    let* r := find_ref_in oldptr hash false in
    match r with
    | Some x => ret (Some x)
    | None => if negb (dictIsRehashing d) then ret None else find_ref_in oldptr hash true
    end.

(** ** Scanning *)

(** [~x] *)
Definition not64 (x : Z) : Z := u64 (Z.lnot x).

(** [while ((s >>= 1) > 0)], of which there are six turns. *)
Fixpoint rev_loop (fuel : nat) (s mask v : Z) : Z :=
  match fuel with
  | O => v
  | Datatypes.S fuel =>
      let s := Z.shiftr s 1 in
      if 0 <? s then
        let mask := Z.lxor mask (u64 (Z.shiftl mask s)) in
        rev_loop fuel s mask (Z.lor (Z.land (Z.shiftr v s) mask) (Z.land (u64 (Z.shiftl v s)) (not64 mask)))
      else v
  end.
Definition rev (v : Z) : Z := rev_loop 7 64 (not64 0) v.

(** [v |= ~m; v = rev(v); v++; v = rev(v);] *)
Definition next_cursor (v m : Z) : Z :=
  let v := Z.lor v (not64 m) in
  let v := rev v in
  let v := u64 (v + 1) in
  rev v.

(** [while (de) { next = de->next; fn(privdata, de); de = next; }]: the calls of [fn] are
    collected. *)
Definition emit_bucket (t : bool) (i : Z) (emitted : list positive) : D (list positive) :=
  let* d := the in
  let* de := bucket (table (ht d t)) i in
  let* n := chain_fuel in
  while_loop n (fun '(de, emitted) =>
    match de with
    | None => ret (inr emitted)
    | Some p => let* e := load p in ret (inl (next e, emitted ++ [p]))
    end) (de, emitted).

(** The [do ... while] over the expansions of the cursor in the larger table [t1]. *)
Definition scan_turn (t1 : bool) (m0 m1 : Z) (a : Z * list positive) : D (Z * list positive + Z * list positive) :=
  let '(v, emitted) := a in
  let* emitted := emit_bucket t1 (Z.land v m1) emitted in
  let v := next_cursor v m1 in
  ret (if Z.land v (Z.lxor m0 m1) =? 0 then inr (v, emitted) else inl (v, emitted)).

(** The new cursor and the entries [fn] was called with; there is no [bucketfn]. *)
Definition dictScan (v : Z) : D (Z * list positive) :=
  let* d := the in
  if dictSize d =? 0 then ret (0, [])
  else if negb (dictIsRehashing d) then
    let m0 := sizemask (ht0 d) in
    let* emitted := emit_bucket false (Z.land v m0) [] in
    ret (next_cursor v m0, emitted)
  else
    let t0 := hsize (ht1 d) <? hsize (ht0 d) in
    let t1 := negb t0 in
    let m0 := sizemask (ht d t0) in
    let m1 := sizemask (ht d t1) in
    let* emitted := emit_bucket t0 (Z.land v m0) [] in
    while_loop (Datatypes.S (Z.to_nat (hsize (ht d t1)))) (scan_turn t1 m0 m1) (v, emitted).

(** ** Sampling

    [rnd i] is what the call number [i] of [random] returns, within one call of a
    function below. *)
Section random.
Variable rnd : nat -> Z.

(** A turn of [do ... while(he == NULL)]: the head of a bucket that is not empty, and
    how many numbers were drawn. *)
Definition random_turn (i : nat) : D (nat + option positive * nat) :=
  let* d := the in
  let* he :=
    (if dictIsRehashing d then
       let n := u64 (u64 (hsize (ht0 d) + hsize (ht1 d)) - rehashidx d) in
       if n =? 0 then fail DivByZero
       else
         let h := u64 (rehashidx d + rnd i mod n) in
         if hsize (ht0 d) <=? h then bucket (table (ht1 d)) (h - hsize (ht0 d)) else bucket (table (ht0 d)) h
     else bucket (table (ht0 d)) (Z.land (rnd i) (sizemask (ht0 d)))) in
  ret (match he with None => inl (Datatypes.S i) | Some _ => inr (he, Datatypes.S i) end).

(** [while(he) { he = he->next; listlen++; }] *)
Definition chain_length (he : option positive) : D Z :=
  let* n := chain_fuel in
  while_loop n (fun '(he, listlen) =>
    match he with
    | None => ret (inr listlen)
    | Some p => let* e := load p in ret (inl (next e, i32 (listlen + 1)))
    end) (he, 0).
(** [while(listele--) he = he->next;] *)
Fixpoint chain_nth (n : nat) (he : option positive) : D (option positive) :=
  match n with
  | O => ret he
  | Datatypes.S n =>
      match he with
      | None => fail NullDeref
      | Some p => let* e := load p in chain_nth n (next e)
      end
  end.

(** The loop ends when the random numbers let it, within [fuel] turns. *)
Definition dictGetRandomKey (fuel : nat) : D (option positive) :=
  let* d := the in
  if dictSize d =? 0 then ret None
  else
    step_if_rehashing ;;;
    let* (he, i) := while_loop fuel random_turn 0%nat in
    let* listlen := chain_length he in
    if listlen =? 0 then fail DivByZero
    else chain_nth (Z.to_nat (rnd i mod listlen)) he.

(** The locals of [dictGetSomeKeys]: the bucket, the empty ones in a row, what is
    stored into [des], and the numbers drawn. *)
Record sampling := { spot : Z; emptylen : Z; des : list positive; drawn : nat }.

(** [while (he) { *des = he; ... if (stored == count) return stored; }]: [true] for the
    [return]. *)
Definition collect (count : Z) (he : option positive) (des : list positive) : D (list positive * bool) :=
  let* n := chain_fuel in
  while_loop n (fun '(he, des) =>
    match he with
    | None => ret (inr (des, false))
    | Some p =>
        let* e := load p in
        let des := des ++ [p] in
        if zlen des =? count then ret (inr (des, true)) else ret (inl (next e, des))
    end) (he, des).

(** The body of [for (j = 0; j < tables; j++)]. *)
Definition sample_table (count maxsizemask : Z) (rehashing t : bool) (s : sampling) : D (sampling * bool) :=
  let* d := the in
  let skip := rehashing && negb t && (spot s <? rehashidx d) in
  if skip && (spot s <? hsize (ht1 d)) then ret (s, false)
  else
    let i := if skip then rehashidx d else spot s in
    if hsize (ht d t) <=? i then ret ({| spot := i; emptylen := emptylen s; des := des s; drawn := drawn s |}, false)
    else
      let* he := bucket (table (ht d t)) i in
      match he with
      | None =>
          let e := emptylen s + 1 in
          if (5 <=? e) && (count <? e) then
            ret ({| spot := Z.land (rnd (drawn s)) maxsizemask; emptylen := 0; des := des s; drawn := Datatypes.S (drawn s) |}, false)
          else ret ({| spot := i; emptylen := e; des := des s; drawn := drawn s |}, false)
      | Some _ =>
          let* (des, full) := collect count he (des s) in
          ret ({| spot := i; emptylen := 0; des := des; drawn := drawn s |}, full)
      end.

(** A turn of [while(stored < count && maxsteps--)]. *)
Definition sample_turn (count maxsizemask : Z) (rehashing : bool) (a : sampling * Z) : D (sampling * Z + list positive) :=
  let '(s, maxsteps) := a in
  if (zlen (des s) <? count) && negb (maxsteps =? 0) then
    let* (s, full) := sample_table count maxsizemask rehashing false s in
    if (full : bool) then ret (inr (des s))
    else
      let* (s, full) := (if rehashing then sample_table count maxsizemask rehashing true s else ret (s, false)) in
      if (full : bool) then ret (inr (des s))
      else ret (inl ({| spot := Z.land (u64 (spot s + 1)) maxsizemask; emptylen := emptylen s; des := des s; drawn := drawn s |},
                     maxsteps - 1))
  else ret (inr (des s)).

(** [for (j = 0; j < count; j++) { if (dictIsRehashing(d)) ...; else break; }] *)
Definition rehash_turn_of (count j : Z) : D (Z + unit) :=
  if j <? count then
    let* d := the in if dictIsRehashing d then _dictRehashStep ;;; ret (inl (j + 1)) else ret (inr tt)
  else ret (inr tt).

(** The entries stored, at most [count] of them. *)
Definition dictGetSomeKeys (count : Z) : D (list positive) :=
  let* d := the in
  let count := if dictSize d <? count then u32 (dictSize d) else count in
  let maxsteps := u32 (count * 10) in
  while_loop (Datatypes.S (Z.to_nat count)) (rehash_turn_of count) 0 ;;;
  let* d := the in
  let rehashing := dictIsRehashing d in
  let maxsizemask := u32 (sizemask (ht0 d)) in
  let maxsizemask := if rehashing && (maxsizemask <? sizemask (ht1 d)) then u32 (sizemask (ht1 d)) else maxsizemask in
  while_loop (Datatypes.S (Z.to_nat maxsteps)) (sample_turn count maxsizemask rehashing)
    ({| spot := Z.land (rnd 0%nat) maxsizemask; emptylen := 0; des := []; drawn := 1 |}, maxsteps).
End random.

(** ** Iterating *)
Record dictIterator := { index : Z; itable : bool; safe : bool; entry : option positive; nextEntry : option positive;
  fingerprint : Z }.

(** [hash = ...], for each of six numbers. *)
Definition mix (hash : Z) : Z :=
  let hash := u64 (not64 hash + u64 (Z.shiftl hash 21)) in
  let hash := Z.lxor hash (Z.shiftr hash 24) in
  let hash := u64 (u64 (hash + u64 (Z.shiftl hash 3)) + u64 (Z.shiftl hash 8)) in
  let hash := Z.lxor hash (Z.shiftr hash 14) in
  let hash := u64 (u64 (hash + u64 (Z.shiftl hash 2)) + u64 (Z.shiftl hash 4)) in
  let hash := Z.lxor hash (Z.shiftr hash 28) in
  u64 (hash + u64 (Z.shiftl hash 31)).

(** The number a pointer is. *)
Variable pointer : option positive -> Z.

Definition dictFingerprint (d : dict) : Z :=
  let integers := [pointer (table (ht0 d)); hsize (ht0 d); used (ht0 d);
                   pointer (table (ht1 d)); hsize (ht1 d); used (ht1 d)] in
  i64 (fold_left (fun hash x => mix (u64 (hash + x))) integers 0).

(** The member [fingerprint] is not initialised before the first [dictNext]; nothing reads
    it then. *)
Definition dictGetIterator : dictIterator :=
  {| index := -1; itable := false; safe := false; entry := None; nextEntry := None; fingerprint := 0 |}.
Definition dictGetSafeIterator : dictIterator :=
  {| index := -1; itable := false; safe := true; entry := None; nextEntry := None; fingerprint := 0 |}.

(** The first call: the dictionary learns of a safe iterator, an unsafe one takes
    the fingerprint. *)
Definition start_iterator (iter : dictIterator) : D dictIterator :=
  if (index iter =? -1) && negb (itable iter) then
    if safe iter then upd_dict (fun d => with_iterators (u64 (iterators d + 1)) d) ;;; ret iter
    else
      let* d := the in
      ret {| index := index iter; itable := itable iter; safe := safe iter; entry := entry iter;
             nextEntry := nextEntry iter; fingerprint := dictFingerprint d |}
  else ret iter.

Definition at_bucket (i : Z) (t : bool) (e : option positive) (iter : dictIterator) : dictIterator :=
  {| index := i; itable := t; safe := safe iter; entry := e; nextEntry := nextEntry iter; fingerprint := fingerprint iter |}.

(** [iter->index++] and what follows it. *)
Definition next_bucket (iter : dictIterator) : D (dictIterator + dictIterator) :=
  let* d := the in
  let i := index iter + 1 in
  if i64 (hsize (ht d (itable iter))) <=? i then
    if dictIsRehashing d && negb (itable iter) then
      let* e := bucket (table (ht1 d)) 0 in ret (inl (at_bucket 0 true e iter))
    else ret (inr (at_bucket i (itable iter) None iter))
  else
    let* e := bucket (table (ht d (itable iter))) i in ret (inl (at_bucket i (itable iter) e iter)).

(** The choice of the entry in a turn of [while (1)]: [inr] for the [break]. *)
Definition advance (iter : dictIterator) : D (dictIterator + dictIterator) :=
  match entry iter with
  | None => let* iter := start_iterator iter in next_bucket iter
  | Some _ => ret (inl (at_bucket (index iter) (itable iter) (nextEntry iter) iter))
  end.

Definition next_turn (iter : dictIterator) : D (dictIterator + dictIterator * option positive) :=
  let* r := advance iter in
  match r with
  | inr iter => ret (inr (iter, None))
  | inl iter =>
      match entry iter with
      | Some p =>
          let* e := load p in
          ret (inr ({| index := index iter; itable := itable iter; safe := safe iter; entry := Some p;
                       nextEntry := next e; fingerprint := fingerprint iter |}, Some p))
      | None => ret (inl iter)
      end
  end.

(** Every turn but the last moves on to another bucket. *)
Definition dictNext (iter : dictIterator) : D (dictIterator * option positive) :=
  let* d := the in
  while_loop (3 + Z.to_nat (hsize (ht0 d) + hsize (ht1 d))) next_turn iter.

Definition dictReleaseIterator (iter : dictIterator) : D unit :=
  if negb ((index iter =? -1) && negb (itable iter)) then
    if safe iter then upd_dict (fun d => with_iterators (u64 (iterators d - 1)) d)
    else
      let* d := the in
      if fingerprint iter =? dictFingerprint d then ret tt else fail AssertFail
  else ret tt.
End dict.
