(* ===== verification/DictProofs.v ===== *)
(** The hash table of dict.c: what a dictionary looks like in the heap, and that
    the steps of its operations - searching, growing, moving entries to the
    second table - keep it so. *)
From S2P Require Import Prelude Util Dict.
#[local] Open Scope Z_scope.

(** What the documentation of a [dictType] asks for: keys have a content, which
    decides comparisons and hashes and which a duplicate keeps. *)
Class DictLaws {K V : Type} `{EqDecision K} (type : dictType K V) (C : Type) `{Countable C} := {
  content : K -> C;
  compare_content : forall k k', dictCompareKeys type k k' = bool_decide (content k = content k');
  hash_content : forall k k', content k = content k' -> hashFunction type k = hashFunction type k';
  hash_range : forall k, 0 <= hashFunction type k < 2 ^ 64;
  dup_content : forall k, content (dup_key type k) = content k
}.
Arguments content {K V _ type C _ _ _} _.

(** An entry as the proofs see it: its address with its key and value. *)
Record node (K V : Type) := { addr : positive; nkey : K; nval : option V }.
Arguments addr {K V}.
Arguments nkey {K V}.
Arguments nval {K V}.

(** Following [next] from [p] leads through the nodes [l], in this order, to NULL. *)
Fixpoint chain {K V} (E : gmap positive (dictEntry K V)) (p : option positive) (l : list (node K V)) : Prop :=
  match l with
  | [] => p = None
  | n :: l => p = Some (addr n) /\ exists q, E !! addr n = Some {| key := nkey n; v := nval n; next := q |} /\ chain E q l
  end.

Lemma u64_id x : 0 <= x < 2 ^ 64 -> u64 x = x.
Proof. apply Z.mod_small. Qed.

Section chains.
Context {K V : Type}.
Implicit Types (E : gmap positive (dictEntry K V)) (l : list (node K V)) (L : list (list (node K V))).

Lemma chain_insert E p l a e : a ∉ addr <$> l -> chain E p l -> chain (<[a := e]> E) p l.
Proof.
  revert p. induction l as [|n l IH]; intros p Ha Hc; [done|]. cbn [fmap list_fmap] in Ha.
  apply not_elem_of_cons in Ha as [Hn Hl]. destruct Hc as [-> (q & Hq & Hc)]. split; [done|]. exists q.
  rewrite lookup_insert_ne by done. split; [done|]. by apply IH.
Qed.
Lemma chain_delete E p l a : a ∉ addr <$> l -> chain E p l -> chain (delete a E) p l.
Proof.
  revert p. induction l as [|n l IH]; intros p Ha Hc; [done|]. cbn [fmap list_fmap] in Ha.
  apply not_elem_of_cons in Ha as [Hn Hl]. destruct Hc as [-> (q & Hq & Hc)]. split; [done|]. exists q.
  rewrite lookup_delete_ne by done. split; [done|]. by apply IH.
Qed.
Lemma chain_live E p l a : chain E p l -> a ∈ addr <$> l -> a ∈ dom E.
Proof.
  revert p. induction l as [|n l IH]; intros p Hc Ha; [by apply elem_of_nil in Ha|].
  destruct Hc as [-> (q & Hq & Hc)]. cbn in Ha. apply elem_of_cons in Ha as [->|Ha].
  - apply elem_of_dom. by eexists.
  - by eapply IH.
Qed.

(** Chains live in the heap, so the fuel of a walk is enough. *)
Lemma chain_short E p l : chain E p l -> NoDup (addr <$> l) -> (length l <= base.size E)%nat.
Proof.
  intros Hc Hd. rewrite <- (length_fmap addr), <- (size_list_to_set (C := gset positive)) by done.
  rewrite <- size_dom. apply subseteq_size. intros a Ha. rewrite elem_of_list_to_set in Ha. by eapply chain_live.
Qed.

Lemma chains_insert E ps L a e : a ∉ addr <$> concat L -> Forall2 (chain E) ps L -> Forall2 (chain (<[a := e]> E)) ps L.
Proof.
  intros Ha HF. induction HF as [|p l ps L Hc HF IH]; [done|]. cbn in Ha. rewrite fmap_app in Ha.
  apply not_elem_of_app in Ha as [Hl HL]. constructor; [by apply chain_insert|by apply IH].
Qed.
Lemma chains_delete E ps L a : a ∉ addr <$> concat L -> Forall2 (chain E) ps L -> Forall2 (chain (delete a E)) ps L.
Proof.
  intros Ha HF. induction HF as [|p l ps L Hc HF IH]; [done|]. cbn in Ha. rewrite fmap_app in Ha.
  apply not_elem_of_app in Ha as [Hl HL]. constructor; [by apply chain_delete|by apply IH].
Qed.
End chains.

(** ** Lists of buckets *)
Lemma concat_bucket {A} (L : list (list A)) i l : L !! i = Some l ->
  exists R, concat L ≡ₚ l ++ R /\ forall l', concat (<[i := l']> L) ≡ₚ l' ++ R.
Proof.
  revert i. induction L as [|x L IH]; intros i Hi; [done|]. destruct i as [|i].
  - injection Hi as ->. by exists (concat L).
  - destruct (IH i Hi) as (R & HR & HR'). exists (x ++ R). cbn. split.
    + rewrite HR. solve_Permutation.
    + intros l'. cbn. rewrite HR'. solve_Permutation.
Qed.
Lemma elem_of_concat {A} (L : list (list A)) x : x ∈ concat L <-> exists i l, L !! i = Some l /\ x ∈ l.
Proof.
  split.
  - intros Hx. apply list_elem_of_In, in_concat in Hx as (l & Hl & Hx).
    apply list_elem_of_In, list_elem_of_lookup in Hl as [i Hi]. exists i, l. split; [done|]. by apply list_elem_of_In.
  - intros (i & l & Hi & Hx). apply list_elem_of_In, in_concat. exists l.
    split; apply list_elem_of_In; [|done]. by eapply list_elem_of_lookup_2.
Qed.
Lemma NoDup_fmap_inj_on {A B} (f : A -> B) (l : list A) x y : NoDup (f <$> l) -> x ∈ l -> y ∈ l -> f x = f y -> x = y.
Proof.
  induction l as [|z l IH]; intros Hd Hx Hy E; [by apply elem_of_nil in Hx|]. cbn in Hd. apply NoDup_cons in Hd as [Hz Hd].
  apply elem_of_cons in Hx as [->|Hx], Hy as [->|Hy]; [done| | |by apply IH]; exfalso; apply Hz.
  - rewrite E. by apply list_elem_of_fmap_2.
  - rewrite <- E. by apply list_elem_of_fmap_2.
Qed.
(** Two buckets share nothing. *)
Lemma bucket_disjoint {A B} (f : A -> B) (L : list (list A)) i j l l' x : NoDup (f <$> concat L) ->
  L !! i = Some l -> L !! j = Some l' -> i <> j -> x ∈ f <$> l -> x ∉ f <$> l'.
Proof.
  intros Hd Hi Hj Hij Hx Hx'. destruct (concat_bucket L i l Hi) as (R & HR & HR'). rewrite HR, fmap_app in Hd.
  apply NoDup_app in Hd as (_ & Hd & _). apply (Hd x Hx). apply list_elem_of_fmap in Hx' as (y & -> & Hy).
  apply list_elem_of_fmap_2. rewrite <- (app_nil_l R), <- HR'. apply elem_of_concat. exists j, l'.
  by rewrite list_lookup_insert_ne.
Qed.
Lemma concat_empty {A} n : concat (replicate n (@nil A)) = [].
Proof. by induction n. Qed.

(** The buckets stay, or they are the empty ones of a new table. *)
Definition widened {A} (L L' : list (list A)) : Prop := L' = L \/ (L = [] /\ exists m, L' = replicate m []).
Lemma widened_concat {A} (L L' : list (list A)) : widened L L' -> concat L' = concat L.
Proof. intros [->|[-> [m ->]]]; [done|by rewrite concat_empty]. Qed.
Lemma widened_refl {A} (L : list (list A)) : widened L L.
Proof. by left. Qed.
Lemma widened_new {A} m : widened (@nil (list A)) (replicate m []).
Proof. right. split; [done|by exists m]. Qed.
Lemma widened_fmap {A B} (f : A -> B) (L L' : list (list A)) : widened L L' -> widened (fmap (M := list) f <$> L) (fmap (M := list) f <$> L').
Proof. intros [->|[-> [m ->]]]; [by left|]. rewrite fmap_replicate. apply widened_new. Qed.

(** The pieces of a world that never matter to a proof about its blocks. *)
Definition same_rest {K V} (w w' : world K V) : Prop :=
  dict_can_resize w' = dict_can_resize w /\ g_IsForkedProcess w' = g_IsForkedProcess w.
(** Neither has the destructors been called. *)
Definition quiet {K V} (w w' : world K V) : Prop :=
  freed_keys w' = freed_keys w /\ freed_vals w' = freed_vals w /\ same_rest w w'.
#[export] Instance same_rest_preorder {K V} : PreOrder (@same_rest K V).
Proof. split; [done|]. intros w1 w2 w3 [H1 H2] [H3 H4]. split; congruence. Qed.
#[export] Instance quiet_preorder {K V} : PreOrder (@quiet K V).
Proof.
  split; [done|]. intros w1 w2 w3 (H1 & H2 & H3) (H4 & H5 & H6).
  split_and!; [congruence..|by etransitivity].
Qed.

Section laws.
Context {K V : Type} {EK : EqDecision K} (type : dictType K V) {C : Type} {EC : EqDecision C} {CC : Countable C} {DL : DictLaws type C}.
Implicit Types (w : world K V) (E : gmap positive (dictEntry K V)) (l N U : list (node K V))
  (L : list (list (node K V))) (n : node K V) (k : K) (d : dict) (h : dictht).

Lemma same_key_content k k' : same_key type k k' = bool_decide (content k = content k').
Proof.
  unfold same_key. rewrite compare_content. destruct (bool_decide_reflect (k = k')) as [->|]; [|done].
  by rewrite bool_decide_true.
Qed.

(** The bucket of a key among [size]. *)
Definition slot (size : Z) (k : K) : Z := hashFunction type k mod size.

(** A table [ps] of the heap holds the buckets [L]. *)
Record shape E h (ps : list (option positive)) L : Prop := {
  sh_chains : Forall2 (chain E) ps L;
  sh_pow : exists e, 2 <= e <= 60 /\ hsize h = 2 ^ e;
  sh_size : zlen L = hsize h;
  sh_mask : sizemask h = hsize h - 1;
  sh_used : used h = zlen (concat L);
  sh_placed : forall i l, L !! i = Some l -> Forall (fun n => slot (hsize h) (nkey n) = Z.of_nat i) l
}.

(** The buckets of a table of a dictionary, none before it is allocated. *)
Definition table_ok w h L : Prop :=
  match table h with
  | None => h = reset /\ L = []
  | Some t => exists ps, tables w !! t = Some ps /\ shape (entries w) h ps L
  end.

(** No content is stored twice, and the entries alive are those of the buckets and those
    that were unlinked. *)
Record nodes_ok w N U : Prop := {
  no_contents : NoDup ((fun n => content (nkey n)) <$> N);
  no_addrs : NoDup (addr <$> N ++ U);
  no_exact : dom (entries w) = list_to_set (addr <$> N ++ U);
  no_unlinked : Forall (fun n => exists q, entries w !! addr n = Some {| key := nkey n; v := nval n; next := q |}) U;
  no_few : zlen N <= 2 ^ 59
}.

Definition table_set d : gset positive := list_to_set (omap id [table (ht0 d); table (ht1 d)]).

Record rehash_ok d (L0 L1 : list (list (node K V))) : Prop := {
  re_idle : rehashidx d = -1 -> table (ht1 d) = None;
  re_busy : rehashidx d <> -1 -> table (ht0 d) <> None /\ table (ht1 d) <> None /\
    0 <= rehashidx d <= hsize (ht0 d) /\
    forall i, Z.of_nat i < rehashidx d -> forall l, L0 !! i = Some l -> l = []
}.

(** The state of a dictionary: the buckets [L0] and [L1] of its tables, and the
    entries [U] that were unlinked and not released yet. While it is being cleared
    ([g] is [false]), its rehashing index means nothing. *)
Record dict_inv {g : bool} w d L0 L1 U : Prop := {
  ok_dict : the_dict w = Some d;
  ok_ht0 : table_ok w (ht0 d) L0;
  ok_ht1 : table_ok w (ht1 d) L1;
  ok_consistent : g = true -> rehash_ok d L0 L1;
  ok_nodes : nodes_ok w (concat L0 ++ concat L1) U;
  ok_tables : dom (tables w) = table_set d;
  ok_apart : forall t, table (ht0 d) = Some t -> table (ht1 d) <> Some t;
  ok_brk : forall a, a ∈ dom (entries w) \/ a ∈ dom (tables w) -> (a < brk w)%positive;
  ok_iterators : 0 <= iterators d < 2 ^ 64
}.
Abbreviation dict_ok := (dict_inv (g := true)).
Lemma ok_rehash w d L0 L1 U : dict_ok w d L0 L1 U -> rehash_ok d L0 L1.
Proof. intros Hok. by apply Hok. Qed.

(** *** Indices *)
Lemma shape_index E h ps L k : shape E h ps L ->
  Z.land (hashFunction type k) (sizemask h) = slot (hsize h) k /\ 0 <= slot (hsize h) k < zlen L.
Proof.
  intros Hs. destruct (sh_pow _ _ _ _ Hs) as (e & He & Hp). rewrite (sh_mask _ _ _ _ Hs), (sh_size _ _ _ _ Hs).
  unfold slot. rewrite Hp. split.
  - replace (2 ^ e - 1) with (Z.ones e) by (rewrite Z.ones_equiv; lia). apply Z.land_ones. lia.
  - apply Z.mod_pos_bound. lia.
Qed.

Lemma shape_bucket E h ps L k : shape E h ps L -> exists i p l, Z.of_nat i = slot (hsize h) k /\
  ps !! i = Some p /\ L !! i = Some l /\ chain E p l.
Proof.
  intros Hs. destruct (shape_index E h ps L k Hs) as [_ Hi].
  destruct (lookup_lt_is_Some_2 L (Z.to_nat (slot (hsize h) k))) as [l Hl]; [unfold zlen in Hi; lia|].
  pose proof (sh_chains _ _ _ _ Hs) as HF.
  destruct (Forall2_lookup_r _ _ _ _ _ HF Hl) as (p & Hp & Hc).
  eexists _, p, l. split_and!; [|done..]. lia.
Qed.
Lemma bucket_eq w t ps i p : tables w !! t = Some ps -> ps !! i = Some p ->
  bucket (Some t) (Z.of_nat i) w = Ret p w.
Proof.
  intros Ht Hp. unfold bucket. rewrite (proj2 (Z.leb_le _ _)) by lia. rewrite Ht. cbn. by rewrite Nat2Z.id, Hp.
Qed.
Lemma set_bucket_eq w t ps i p : tables w !! t = Some ps -> (i < length ps)%nat ->
  set_bucket (Some t) (Z.of_nat i) p w = Ret tt (with_tables (<[t := <[i := p]> ps]> (tables w)) w).
Proof.
  intros Ht Hi. unfold set_bucket. rewrite Ht.
  rewrite (proj2 (Z.leb_le _ _)), (proj2 (Z.ltb_lt _ _)) by (unfold zlen; lia). cbn. by rewrite Nat2Z.id.
Qed.
Lemma the_eq w d : the_dict w = Some d -> the w = Ret d w.
Proof. unfold the. by intros ->. Qed.
Lemma upd_dict_eq w d f : the_dict w = Some d -> upd_dict f w = Ret tt (with_the_dict (Some (f d)) w).
Proof. intros Hd. unfold upd_dict. by rewrite (bind_ret_eq _ _ _ _ _ (the_eq w d Hd)). Qed.

(** *** Searching *)
Definition lookup_node (c : C) N : option (node K V) := List.find (fun n => bool_decide (c = content (nkey n))) N.

Lemma lookup_node_app c N N' :
  lookup_node c (N ++ N') = match lookup_node c N with Some n => Some n | None => lookup_node c N' end.
Proof. induction N as [|n N IH]; cbn; [done|]. case_bool_decide; [done|apply IH]. Qed.
Lemma lookup_node_None c N : lookup_node c N = None <-> forall n, n ∈ N -> content (nkey n) <> c.
Proof.
  split.
  - intros Hf n Hn E. apply list_elem_of_In in Hn. pose proof (List.find_none _ _ Hf n Hn) as Hc. cbn in Hc.
    by rewrite bool_decide_eq_false in Hc.
  - intros Hn. destruct (lookup_node c N) as [n|] eqn:E; [|done]. exfalso.
    apply List.find_some in E as [Hin E]. apply bool_decide_eq_true in E. apply list_elem_of_In in Hin.
    by eapply Hn.
Qed.
Lemma lookup_node_Some c N n : NoDup ((fun n => content (nkey n)) <$> N) ->
  lookup_node c N = Some n <-> n ∈ N /\ content (nkey n) = c.
Proof.
  intros Hd. split.
  - intros E. apply List.find_some in E as [Hin E]. apply bool_decide_eq_true in E.
    by apply list_elem_of_In in Hin.
  - intros [Hn <-]. induction N as [|x N IH]; [by apply elem_of_nil in Hn|]. cbn. apply NoDup_cons in Hd as [Hx Hd].
    case_bool_decide as Ec.
    + apply elem_of_cons in Hn as [->|Hn]; [done|]. exfalso. apply Hx. rewrite <- Ec.
      by apply (list_elem_of_fmap_2 (fun n => content (nkey n))).
    + apply elem_of_cons in Hn as [->|Hn]; [done|]. by apply IH.
Qed.
Lemma lookup_node_perm c N N' : NoDup ((fun n => content (nkey n)) <$> N) -> N ≡ₚ N' ->
  lookup_node c N = lookup_node c N'.
Proof.
  intros Hd Hp. assert (Hd' : NoDup ((fun n => content (nkey n)) <$> N')) by by rewrite <- Hp.
  destruct (lookup_node c N') as [n|] eqn:E.
  - apply lookup_node_Some; [done|]. rewrite Hp. by apply lookup_node_Some.
  - apply lookup_node_None. intros n. rewrite Hp. by apply lookup_node_None.
Qed.

(** Only the bucket of a key can hold it. *)
Lemma lookup_node_slot E h ps L k i l : shape E h ps L -> Z.of_nat i = slot (hsize h) k -> L !! i = Some l ->
  NoDup ((fun n => content (nkey n)) <$> concat L) -> lookup_node (content k) l = lookup_node (content k) (concat L).
Proof.
  intros Hs Hi Hl Hd. destruct (lookup_node (content k) (concat L)) as [n|] eqn:En.
  - apply lookup_node_Some in En as [Hn Hc]; [|done]. apply elem_of_concat in Hn as (j & l' & Hj & Hn).
    pose proof (sh_placed _ _ _ _ Hs j l' Hj) as Hp. rewrite Forall_forall in Hp. specialize (Hp n Hn).
    assert (i = j) as <-.
    { unfold slot in *. rewrite (hash_content (type := type) _ _ Hc) in Hp. lia. }
    rewrite Hl in Hj. injection Hj as <-. destruct (concat_bucket L i l Hl) as (R & HR & _).
    rewrite HR, fmap_app in Hd. apply NoDup_app in Hd as [Hd _]. by apply lookup_node_Some.
  - apply lookup_node_None. intros n Hn. apply (proj1 (lookup_node_None _ _) En), elem_of_concat. by exists i, l.
Qed.

Lemma search_chain_eq w k p l : chain (entries w) p l -> NoDup (addr <$> l) ->
  search_chain type k p w = Ret (addr <$> lookup_node (content k) l) w.
Proof.
  intros Hc Hd. pose proof (chain_short _ _ _ Hc Hd) as Hf. unfold search_chain, chain_fuel.
  erewrite bind_ret_eq by (erewrite bind_ret_eq by reflexivity; reflexivity).
  clear Hd. revert p Hc. assert (Hm : (length l < Datatypes.S (base.size (entries w)))%nat) by lia. clear Hf.
  revert Hm. generalize (Datatypes.S (base.size (entries w))) as m. induction l as [|n l IH]; intros m Hm p Hc;
    (destruct m as [|m]; [lia|]); cbn [while_loop].
  - cbn in Hc. subst p. done.
  - destruct Hc as [-> (q & Hq & Hc)]. cbn [length] in Hm. unfold bind at 1 2, load. rewrite Hq. cbn [key next].
    rewrite same_key_content. cbn [lookup_node List.find]. case_bool_decide; [done|].
    apply IH; [lia|done].
Qed.

(** *** Changing a bucket *)
Lemma shape_frame E E' h ps L : (forall l, l ∈ L -> forall p, chain E p l -> chain E' p l) ->
  shape E h ps L -> shape E' h ps L.
Proof.
  intros Hf [Hc Hp Hz Hm Hu Hpl]. split; [|done..]. apply Forall2_same_length_lookup.
  split; [by eapply Forall2_length|]. intros i p l Hi Hl. apply Hf; [by eapply list_elem_of_lookup_2|].
  by eapply Forall2_lookup_lr.
Qed.

Lemma shape_update E E' h h' ps L i p l' : shape E h ps L -> (i < length L)%nat -> chain E' p l' ->
  (forall j l, j <> i -> L !! j = Some l -> forall p, chain E p l -> chain E' p l) ->
  Forall (fun n => slot (hsize h) (nkey n) = Z.of_nat i) l' ->
  hsize h' = hsize h -> sizemask h' = sizemask h -> used h' = zlen (concat (<[i := l']> L)) ->
  shape E' h' (<[i := p]> ps) (<[i := l']> L).
Proof.
  intros [Hc Hp Hz Hm Hu Hpl] Hi Hp' Hf Hl' Hs' Hm' Hu'. pose proof (Forall2_length _ _ _ Hc) as Hlen. split.
  - apply Forall2_same_length_lookup. split; [by rewrite !length_insert|]. intros j q l Hj Hl.
    destruct (decide (j = i)) as [->|Hne].
    + rewrite list_lookup_insert_eq in Hj by lia. rewrite list_lookup_insert_eq in Hl by lia. congruence.
    + rewrite list_lookup_insert_ne in Hj by done. rewrite list_lookup_insert_ne in Hl by done. eapply Hf; [done|done|]. by eapply Forall2_lookup_lr.
  - by rewrite Hs'.
  - unfold zlen. by rewrite length_insert, Hs'.
  - by rewrite Hm', Hs'.
  - done.
  - intros j l Hl. rewrite Hs'. destruct (decide (j = i)) as [->|Hne].
    + rewrite list_lookup_insert_eq in Hl by lia. by injection Hl as <-.
    + rewrite list_lookup_insert_ne in Hl by done. by apply Hpl.
Qed.

(** *** The two tables *)
Lemma nodes_buckets {g} w d (L0 L1 : list (list (node K V))) U : dict_inv (g := g) w d L0 L1 U ->
  NoDup (addr <$> concat L0) /\ NoDup (addr <$> concat L1) /\
  NoDup ((fun n => content (nkey n)) <$> concat L0) /\ NoDup ((fun n => content (nkey n)) <$> concat L1).
Proof.
  intros Hok. pose proof (ok_nodes _ _ _ _ _ Hok) as Hn. pose proof (no_addrs _ _ _ Hn) as Ha.
  pose proof (no_contents _ _ _ Hn) as Hc. rewrite !fmap_app in Ha. rewrite fmap_app in Hc.
  apply NoDup_app in Ha as (Ha & _ & _). apply NoDup_app in Ha as (Ha & _ & Ha').
  apply NoDup_app in Hc as (Hc & _ & Hc'). done.
Qed.

Definition buckets (L0 L1 : list (list (node K V))) (t : bool) := if t then L1 else L0.

Lemma ok_ht {g} w d L0 L1 U t : dict_inv (g := g) w d L0 L1 U -> table_ok w (ht d t) (buckets L0 L1 t).
Proof. intros Hok. destruct t; apply Hok. Qed.

Lemma search_table_eq w d L0 L1 U k t : dict_ok w d L0 L1 U -> table (ht d t) <> None ->
  search_table type k (dictHashKey type k) t w = Ret (addr <$> lookup_node (content k) (concat (buckets L0 L1 t))) w.
Proof.
  intros Hok Ht. pose proof (ok_ht _ _ _ _ _ t Hok) as Htab. unfold table_ok in Htab.
  destruct (table (ht d t)) as [b|] eqn:Eb; [|done]. destruct Htab as (ps & Hps & Hs).
  destruct (nodes_buckets _ _ _ _ _ Hok) as (Ha0 & Ha1 & Hc0 & Hc1).
  assert (Ha : NoDup (addr <$> concat (buckets L0 L1 t))) by by destruct t.
  assert (Hc : NoDup ((fun n => content (nkey n)) <$> concat (buckets L0 L1 t))) by by destruct t.
  destruct (shape_bucket _ _ _ _ k Hs) as (i & p & l & Hi & Hp & Hl & Hch).
  unfold search_table. rewrite (bind_ret_eq _ _ _ _ _ (the_eq w d (ok_dict _ _ _ _ _ Hok))), Eb.
  unfold dictHashKey. rewrite (proj1 (shape_index _ _ _ _ k Hs)), <- Hi.
  rewrite (bind_ret_eq _ _ _ _ _ (bucket_eq w b ps i p Hps Hp)).
  rewrite (search_chain_eq w k p l Hch), (lookup_node_slot _ _ _ _ _ _ _ Hs Hi Hl Hc); [done|].
  destruct (concat_bucket _ i l Hl) as (R & HR & _). rewrite HR, fmap_app in Ha. by apply NoDup_app in Ha as [Ha _].
Qed.

Lemma rehashing_table w d L0 L1 U : dict_ok w d L0 L1 U -> dictIsRehashing d = false -> table (ht1 d) = None /\ L1 = [].
Proof.
  intros Hok Hr. unfold dictIsRehashing in Hr. apply negb_false_iff, Z.eqb_eq in Hr.
  pose proof (re_idle _ _ _ (ok_rehash _ _ _ _ _ Hok) Hr) as Ht. split; [done|].
  pose proof (ok_ht1 _ _ _ _ _ Hok) as Htab. unfold table_ok in Htab. rewrite Ht in Htab. apply Htab.
Qed.
Lemma rehashing_busy w d L0 L1 U : dict_ok w d L0 L1 U -> dictIsRehashing d = true ->
  table (ht0 d) <> None /\ table (ht1 d) <> None /\ 0 <= rehashidx d <= hsize (ht0 d) /\
  forall i, Z.of_nat i < rehashidx d -> forall l, L0 !! i = Some l -> l = [].
Proof.
  intros Hok Hr. unfold dictIsRehashing in Hr. apply negb_true_iff, Z.eqb_neq in Hr.
  apply (re_busy _ _ _ (ok_rehash _ _ _ _ _ Hok) Hr).
Qed.

Lemma search_tables_eq w d L0 L1 U k : dict_ok w d L0 L1 U -> table (ht0 d) <> None ->
  search_tables type k (dictHashKey type k) w = Ret (addr <$> lookup_node (content k) (concat L0 ++ concat L1)) w.
Proof.
  intros Hok Ht. unfold search_tables. rewrite (bind_ret_eq _ _ _ _ _ (search_table_eq w d L0 L1 U k false Hok Ht)).
  rewrite lookup_node_app. cbn [buckets]. destruct (lookup_node (content k) (concat L0)); [done|]. cbn [fmap option_fmap option_map].
  rewrite (bind_ret_eq _ _ _ _ _ (the_eq w d (ok_dict _ _ _ _ _ Hok))).
  destruct (dictIsRehashing d) eqn:Er; cbn [negb].
  - destruct (rehashing_busy _ _ _ _ _ Hok Er) as (_ & Ht1 & _).
    by rewrite (search_table_eq w d L0 L1 U k true Hok Ht1).
  - by destruct (rehashing_table _ _ _ _ _ Hok Er) as [_ ->].
Qed.

(** *** Growing *)
Lemma dictNextPower_eq size w : size <= 2 ^ 60 -> exists e, 2 <= e <= 60 /\
  _dictNextPower size w = Ret (2 ^ e) w /\ size <= 2 ^ e /\ (e = 2 \/ 2 ^ (e - 1) < size).
Proof.
  intros Hs. unfold _dictNextPower. unfold PORT_LONG_MAX. rewrite (proj2 (Z.leb_gt _ _)) by lia.
  change DICT_HT_INITIAL_SIZE with (2 ^ 2).
  enough (Hg : forall m j, 2 <= j <= 60 -> 60 - j < Z.of_nat m -> j = 2 \/ 2 ^ (j - 1) < size -> exists e, 2 <= e <= 60 /\
    while_loop m (fun i => if size <=? i then ret (inr i) else ret (inl (u64 (i * 2)))) (2 ^ j) w = Ret (2 ^ e) w /\
    size <= 2 ^ e /\ (e = 2 \/ 2 ^ (e - 1) < size)) by (apply Hg; lia).
  induction m as [|m IH]; intros j Hj Hm Hlow; [lia|]. cbn [while_loop]. unfold bind at 1.
  destruct (Z.leb_spec size (2 ^ j)); [by exists j|]. cbn. assert (j < 60) by (destruct (Z.eq_dec j 60) as [->|]; lia).
  replace (u64 (2 ^ j * 2)) with (2 ^ (j + 1)).
  - apply IH; [lia..|]. right. by replace (j + 1 - 1) with j by lia.
  - rewrite Z.pow_add_r by lia. symmetry. apply u64_id. pose proof (Z.pow_le_mono_r 2 j 60). lia.
Qed.

Definition new_ht (t : positive) (size : Z) : dictht :=
  {| table := Some t; hsize := size; sizemask := u64 (size - 1); used := 0 |}.

Lemma shape_new E t e : 2 <= e <= 60 ->
  shape E (new_ht t (2 ^ e)) (replicate (Z.to_nat (u64 (2 ^ e * 8) / 8)) None) (replicate (Z.to_nat (2 ^ e)) []).
Proof.
  intros He. pose proof (Z.pow_le_mono_r 2 e 60). pose proof (Z.pow_pos_nonneg 2 e).
  assert (Hz : u64 (2 ^ e * 8) = 2 ^ e * 8) by (apply u64_id; lia). rewrite Hz, Z.div_mul by lia. split.
  - apply Forall2_replicate. done.
  - by exists e.
  - unfold zlen. rewrite length_replicate. cbn. lia.
  - cbn. apply u64_id. lia.
  - by rewrite concat_empty.
  - intros i l Hl. apply lookup_replicate in Hl as [-> _]. constructor.
Qed.

Lemma table_ok_frame w w' h L : entries w' = entries w ->
  (forall t, table h = Some t -> tables w' !! t = tables w !! t) -> table_ok w h L -> table_ok w' h L.
Proof. intros He Ht. unfold table_ok. rewrite He. destruct (table h) as [t|]; [|done]. by rewrite (Ht t). Qed.

Lemma nodes_ok_frame w w' N U : entries w' = entries w -> nodes_ok w N U -> nodes_ok w' N U.
Proof. intros E [H1 H2 H3 H4 H5]. split; by rewrite ?E. Qed.

Lemma table_live {g} w d L0 L1 U t b : dict_inv (g := g) w d L0 L1 U -> table (ht d t) = Some b -> b ∈ dom (tables w).
Proof.
  intros Hok Hb. pose proof (ok_ht _ _ _ _ _ t Hok) as Ht. unfold table_ok in Ht. rewrite Hb in Ht.
  destruct Ht as (ps & Hps & _). apply elem_of_dom. by eexists.
Qed.

(** The world after [dictExpand] has allocated its table. *)
Definition grown (e : Z) w : world K V :=
  with_brk (Pos.succ (brk w))
    (with_tables (<[brk w := replicate (Z.to_nat (u64 (2 ^ e * 8) / 8)) None]> (tables w)) w).

Lemma grown_first w d L0 L1 U e : dict_ok w d L0 L1 U -> table (ht0 d) = None -> 2 <= e <= 60 ->
  dict_ok (with_the_dict (Some (with_ht false (new_ht (brk w) (2 ^ e)) d)) (grown e w))
    (with_ht false (new_ht (brk w) (2 ^ e)) d) (replicate (Z.to_nat (2 ^ e)) []) L1 U.
Proof.
  intros Hok Ht He. assert (HL0 : L0 = []).
  { pose proof (ok_ht0 _ _ _ _ _ Hok) as Htab. unfold table_ok in Htab. rewrite Ht in Htab. apply Htab. }
  assert (Hidle : rehashidx d = -1).
  { destruct (decide (rehashidx d = -1)); [done|]. by destruct (re_busy _ _ _ (ok_rehash _ _ _ _ _ Hok)). }
  pose proof (re_idle _ _ _ (ok_rehash _ _ _ _ _ Hok) Hidle) as Ht1.
  split; cbn.
  - done.
  - eexists. split; [by rewrite lookup_insert_eq|]. by apply shape_new.
  - pose proof (ok_ht1 _ _ _ _ _ Hok) as H1. unfold table_ok in H1 |- *. by rewrite Ht1 in H1 |- *.
  - split; cbn; [done|]. by intros [].
  - rewrite concat_empty. pose proof (ok_nodes _ _ _ _ _ Hok) as Hn. rewrite HL0 in Hn.
    by eapply nodes_ok_frame, Hn.
  - rewrite dom_insert_L, (ok_tables _ _ _ _ _ Hok). unfold table_set. cbn. rewrite Ht, Ht1. cbn. set_solver.
  - intros t _. by rewrite Ht1.
  - intros a Ha. rewrite dom_insert_L in Ha. pose proof (ok_brk _ _ _ _ _ Hok a).
    destruct (decide (a = brk w)) as [->|]; [lia|]. transitivity (brk w); [clear He; set_solver|lia].
  - apply Hok.
Qed.

Lemma grown_second w d L0 L1 U e : dict_ok w d L0 L1 U -> table (ht0 d) <> None -> rehashidx d = -1 -> 2 <= e <= 60 ->
  dict_ok (with_the_dict (Some (with_rehashidx 0 (with_ht true (new_ht (brk w) (2 ^ e)) d))) (grown e w))
    (with_rehashidx 0 (with_ht true (new_ht (brk w) (2 ^ e)) d)) L0 (replicate (Z.to_nat (2 ^ e)) []) U.
Proof.
  intros Hok Ht Hidle He. pose proof (re_idle _ _ _ (ok_rehash _ _ _ _ _ Hok) Hidle) as Ht1.
  assert (HL1 : L1 = []).
  { pose proof (ok_ht1 _ _ _ _ _ Hok) as Htab. unfold table_ok in Htab. rewrite Ht1 in Htab. apply Htab. }
  assert (Hfresh : brk w ∉ dom (tables w)).
  { intros Hin. pose proof (ok_brk _ _ _ _ _ Hok _ (or_intror Hin)). lia. }
  destruct (table (ht0 d)) as [t0|] eqn:Et0; [|done].
  pose proof (table_live _ _ _ _ _ false t0 Hok Et0) as Hlive. assert (t0 <> brk w) by congruence.
  pose proof (ok_ht0 _ _ _ _ _ Hok) as H0. split; cbn.
  - done.
  - eapply table_ok_frame; [| |exact H0]; [done|]. cbn. intros t Et. rewrite Et0 in Et. injection Et as <-.
    by rewrite lookup_insert_ne by done.
  - eexists. split; [by rewrite lookup_insert_eq|]. by apply shape_new.
  - split; cbn; [done|]. intros _. rewrite Et0. unfold table_ok in H0. rewrite Et0 in H0. destruct H0 as (ps & _ & Hs).
    rewrite <- (sh_size _ _ _ _ Hs). pose proof (zlen_nonneg L0). split_and!; [done..|lia|lia|lia].
  - rewrite concat_empty. pose proof (ok_nodes _ _ _ _ _ Hok) as Hn. rewrite HL1 in Hn.
    by eapply nodes_ok_frame, Hn.
  - rewrite dom_insert_L, (ok_tables _ _ _ _ _ Hok). unfold table_set. cbn. rewrite Et0, Ht1. cbn. set_solver.
  - intros t. rewrite Et0. congruence.
  - intros a Ha. rewrite dom_insert_L in Ha. pose proof (ok_brk _ _ _ _ _ Hok a).
    destruct (decide (a = brk w)) as [->|]; [lia|]. transitivity (brk w); [clear He; set_solver|lia].
  - apply Hok.
Qed.

(** What [dictExpand] leaves when it succeeds. *)
Definition expanded (e : Z) d w : world K V :=
  match table (ht0 d) with
  | None => with_the_dict (Some (with_ht false (new_ht (brk w) (2 ^ e)) d)) (grown e w)
  | Some _ => with_the_dict (Some (with_rehashidx 0 (with_ht true (new_ht (brk w) (2 ^ e)) d))) (grown e w)
  end.

Lemma dictExpand_eq w d L0 L1 U size : dict_ok w d L0 L1 U -> size <= 2 ^ 60 -> exists e, 2 <= e <= 60 /\
  size <= 2 ^ e /\ (e = 2 \/ 2 ^ (e - 1) < size) /\
  dictExpand size w = if dictIsRehashing d || (size <? used (ht0 d)) || (2 ^ e =? hsize (ht0 d))
                      then Ret DICT_ERR w else Ret DICT_OK (expanded e d w).
Proof.
  intros Hok Hs. destruct (dictNextPower_eq size w Hs) as (e & He & E & Hge & Hlow). exists e. do 3 (split; [done|]).
  unfold dictExpand. rewrite (bind_ret_eq _ _ _ _ _ (the_eq w d (ok_dict _ _ _ _ _ Hok))).
  destruct (dictIsRehashing d || (size <? used (ht0 d))); [done|]. rewrite (bind_ret_eq _ _ _ _ _ E). cbn [orb].
  destruct (2 ^ e =? hsize (ht0 d)); [done|]. unfold bind at 1, new_buckets. cbv zeta. fold (grown e w).
  assert (Hd : the_dict (grown e w) = Some d) by apply (ok_dict _ _ _ _ _ Hok).
  unfold expanded. destruct (table (ht0 d)).
  - rewrite (bind_ret_eq _ _ _ _ _ (upd_dict_eq (grown e w) d _ Hd)).
    by erewrite bind_ret_eq by (apply upd_dict_eq; reflexivity).
  - by rewrite (bind_ret_eq _ _ _ _ _ (upd_dict_eq (grown e w) d _ Hd)).
Qed.

(** The same entries under the same keys, in a dictionary that can be searched. *)
Definition rearranged w d (L0 L1 : list (list (node K V))) U w' : Prop := exists d' L0' L1',
  dict_ok w' d' L0' L1' U /\ concat L0' ++ concat L1' ≡ₚ concat L0 ++ concat L1 /\
  iterators d' = iterators d /\ quiet w w' /\ (table (ht0 d) <> None -> table (ht0 d') <> None).

Lemma rearranged_refl w d L0 L1 U : dict_ok w d L0 L1 U -> rearranged w d L0 L1 U w.
Proof. intros Hok. by exists d, L0, L1. Qed.

(** A table may have been added to the dictionary; nothing else has changed. *)
Record enlarged w d (L0 L1 : list (list (node K V))) U w' d' L0' L1' : Prop := {
  en_ok : dict_ok w' d' L0' L1' U;
  en_first : widened L0 L0';
  en_second : widened L1 L1';
  en_iterators : iterators d' = iterators d;
  en_quiet : quiet w w';
  en_brk : (brk w <= brk w')%positive;
  en_table : table (ht0 d) <> None -> table (ht0 d') <> None
}.
Lemma enlarged_refl w d L0 L1 U : dict_ok w d L0 L1 U -> enlarged w d L0 L1 U w d L0 L1.
Proof. intros Hok. by split; [|apply widened_refl..| | |apply Pos.le_refl|]. Qed.
Lemma enlarged_concat w d L0 L1 U w' d' L0' L1' : enlarged w d L0 L1 U w' d' L0' L1' ->
  concat L0' ++ concat L1' = concat L0 ++ concat L1.
Proof. intros He. by rewrite (widened_concat _ _ (en_first _ _ _ _ _ _ _ _ _ He)), (widened_concat _ _ (en_second _ _ _ _ _ _ _ _ _ He)). Qed.

Lemma expanded_ok w d L0 L1 U e : dict_ok w d L0 L1 U -> dictIsRehashing d = false -> 2 <= e <= 60 ->
  exists d' L0' L1', enlarged w d L0 L1 U (expanded e d w) d' L0' L1' /\ table (ht0 d') <> None.
Proof.
  intros Hok Hr He. destruct (rehashing_table _ _ _ _ _ Hok Hr) as [Ht1 ->]. unfold expanded.
  destruct (table (ht0 d)) as [t|] eqn:Et.
  - assert (Hidle : rehashidx d = -1) by (unfold dictIsRehashing in Hr; by apply negb_false_iff, Z.eqb_eq in Hr).
    pose proof (grown_second _ _ L0 [] U e Hok ltac:(congruence) Hidle He) as Hok'.
    do 3 eexists. split; [split; [exact Hok'| | |done|done|cbn; lia|]|]; [apply widened_refl|apply widened_new|cbn; congruence..].
  - pose proof (ok_ht0 _ _ _ _ _ Hok) as Hh. unfold table_ok in Hh. rewrite Et in Hh. destruct Hh as [_ ->].
    do 3 eexists. split; [split; [by apply (grown_first _ _ [] [] U)| | |done|done|cbn; lia|done]|done];
      [apply widened_new|apply widened_refl].
Qed.

Lemma ht0_bounds {g} w d L0 L1 U : dict_inv (g := g) w d L0 L1 U -> 0 <= used (ht0 d) <= 2 ^ 59 /\ 0 <= used (ht1 d) <= 2 ^ 59 /\
  used (ht0 d) = zlen (concat L0) /\ used (ht1 d) = zlen (concat L1) /\
  used (ht0 d) + used (ht1 d) <= 2 ^ 59.
Proof.
  intros Hok. pose proof (no_few _ _ _ (ok_nodes _ _ _ _ _ Hok)) as Hf. rewrite zlen_app in Hf.
  assert (Hu : forall t, used (ht d t) = zlen (concat (buckets L0 L1 t))).
  { intros t. pose proof (ok_ht _ _ _ _ _ t Hok) as Hh. unfold table_ok in Hh. destruct (table (ht d t)).
    - destruct Hh as (ps & _ & Hs). apply Hs.
    - by destruct Hh as [-> ->]. }
  pose proof (Hu false) as Hu0. pose proof (Hu true) as Hu1. cbn in Hu0, Hu1.
  pose proof (zlen_nonneg (concat L0)). pose proof (zlen_nonneg (concat L1)). lia.
Qed.

Lemma hsize_zero w d L0 L1 U : dict_ok w d L0 L1 U -> hsize (ht0 d) = 0 <-> table (ht0 d) = None.
Proof.
  intros Hok. pose proof (ok_ht0 _ _ _ _ _ Hok) as Hh. unfold table_ok in Hh. destruct (table (ht0 d)) as [t|] eqn:Et.
  - destruct Hh as (ps & _ & Hs). destruct (sh_pow _ _ _ _ Hs) as (e & He & ->). split; [|done].
    pose proof (Z.pow_pos_nonneg 2 e). lia.
  - by destruct Hh as [-> _].
Qed.

(** The check before every insertion never fails, and leaves a table. *)
Lemma expandIfNeeded_ok w d L0 L1 U : dict_ok w d L0 L1 U -> exists w' d' L0' L1',
  _dictExpandIfNeeded w = Ret DICT_OK w' /\ enlarged w d L0 L1 U w' d' L0' L1' /\ table (ht0 d') <> None.
Proof.
  intros Hok. unfold _dictExpandIfNeeded. rewrite (bind_ret_eq get _ w w w eq_refl).
  rewrite (bind_ret_eq _ _ _ _ _ (the_eq w d (ok_dict _ _ _ _ _ Hok))).
  destruct (dictIsRehashing d) eqn:Er.
  { exists w, d, L0, L1. destruct (rehashing_busy _ _ _ _ _ Hok Er) as [Ht _]. by pose proof (enlarged_refl _ _ _ _ _ Hok). }
  destruct (ht0_bounds _ _ _ _ _ Hok) as (Hu0 & _ & _).
  assert (Hgrow : forall size, used (ht0 d) <= size <= 2 ^ 60 -> hsize (ht0 d) < size -> exists w' d' L0' L1',
    dictExpand size w = Ret DICT_OK w' /\ enlarged w d L0 L1 U w' d' L0' L1' /\ table (ht0 d') <> None).
  { intros size Hs1 Hs2. destruct (dictExpand_eq _ _ _ _ _ size Hok ltac:(lia)) as (e & He & Hge & _ & E).
    rewrite Er, (proj2 (Z.ltb_ge _ _)), (proj2 (Z.eqb_neq _ _)) in E by lia. cbn in E.
    destruct (expanded_ok _ _ _ _ _ e Hok Er He) as (d' & L0' & L1' & ?). by exists (expanded e d w), d', L0', L1'. }
  destruct (Z.eqb_spec (hsize (ht0 d)) 0) as [Ez|Hz].
  - apply Hgrow; [|unfold DICT_HT_INITIAL_SIZE; lia]. pose proof (ok_ht0 _ _ _ _ _ Hok) as Hh. unfold table_ok in Hh.
    rewrite (proj1 (hsize_zero _ _ _ _ _ Hok) Ez) in Hh. destruct Hh as [-> _]. unfold DICT_HT_INITIAL_SIZE. cbn. lia.
  - destruct (Z.leb_spec (hsize (ht0 d)) (used (ht0 d))) as [Hle|Hlt]; cbn [andb].
    + assert (Hpos : 0 < hsize (ht0 d)).
      { pose proof (ok_ht0 _ _ _ _ _ Hok) as Hh. unfold table_ok in Hh. destruct (table (ht0 d)).
        - destruct Hh as (ps & _ & Hs). destruct (sh_pow _ _ _ _ Hs) as (e & He & ->). apply Z.pow_pos_nonneg; lia.
        - destruct Hh as [Eh _]. by rewrite Eh in Hz. }
      rewrite (u64_id (used (ht0 d) * 2)) by lia.
      destruct (_ || _); [apply Hgrow; lia|]. exists w, d, L0, L1. split_and!; [done|by apply enlarged_refl|by rewrite <- hsize_zero].
    + exists w, d, L0, L1. split_and!; [done|by apply enlarged_refl|by rewrite <- hsize_zero].
Qed.
End laws.
Abbreviation dict_ok type := (dict_inv type (g := true)).
