(* ===== verification/DictRehash.v ===== *)
(** The hash table of dict.c: taking an entry out of a bucket and putting one in,
    and, from these, that rehashing keeps every entry and comes to an end. *)
From S2P Require Import Prelude Util Dict DictProofs.
#[local] Open Scope Z_scope.

Section changes.
Context {K V : Type} {EK : EqDecision K} (type : dictType K V) {C : Type} {EC : EqDecision C} {CC : Countable C} {DL : DictLaws type C}.
Implicit Types (w : world K V) (E : gmap positive (dictEntry K V)) (l N U R : list (node K V))
  (L : list (list (node K V))) (n : node K V) (k : K) (d : dict) (h : dictht).

Definition entry_of (q : option positive) n : dictEntry K V := {| key := nkey n; v := nval n; next := q |}.

Lemma chain_ext E E' p l : (forall n, n ∈ l -> E' !! addr n = E !! addr n) -> chain E p l -> chain E' p l.
Proof.
  revert p. induction l as [|n l IH]; intros p He Hc; [done|]. destruct Hc as [-> (q & Hq & Hc)].
  split; [done|]. exists q. rewrite He by apply elem_of_cons, or_introl, eq_refl. split; [done|].
  apply IH; [|done]. intros m Hm. apply He, elem_of_cons. by right.
Qed.

(** *** The entries alive *)
Lemma nodes_ok_perm w N N' U U' : N ≡ₚ N' -> U ≡ₚ U' -> nodes_ok type w N U -> nodes_ok type w N' U'.
Proof.
  intros HN HU [H1 H2 H3 H4 H5]. split.
  - by rewrite <- HN.
  - by rewrite <- HN, <- HU.
  - rewrite H3. apply set_eq. intros a. rewrite !elem_of_list_to_set. by rewrite HN, HU.
  - by rewrite <- HU.
  - unfold zlen in *. by rewrite <- HN.
Qed.

(** An entry is taken out of the table. *)
Lemma nodes_ok_unlink w w' N n R U q : nodes_ok type w N U -> N ≡ₚ n :: R -> dom (entries w') = dom (entries w) ->
  (forall m, m ∈ n :: U -> entries w' !! addr m = entries w !! addr m) -> entries w !! addr n = Some (entry_of q n) ->
  nodes_ok type w' R (n :: U).
Proof.
  intros Hn HN Hd He Hq. apply (nodes_ok_perm _ _ (n :: R) U U HN) in Hn as [H1 H2 H3 H4 H5]; [|done].
  assert (Hp : R ++ n :: U ≡ₚ (n :: R) ++ U) by (symmetry; apply Permutation_middle). split.
  - by apply NoDup_cons in H1 as [_ H1].
  - by rewrite Hp.
  - rewrite Hd, H3. apply set_eq. intros a. rewrite !elem_of_list_to_set. by rewrite Hp.
  - constructor.
    + exists q. by rewrite He by apply elem_of_cons, or_introl, eq_refl.
    + rewrite Forall_forall in H4 |- *. intros m Hm. rewrite He by (apply elem_of_cons; by right). by apply H4.
  - rewrite zlen_cons in H5. lia.
Qed.

(** One that was taken out is put in. *)
Lemma nodes_ok_link w w' N n U N' : nodes_ok type w N (n :: U) -> N' ≡ₚ n :: N -> dom (entries w') = dom (entries w) ->
  (forall m, m ∈ U -> entries w' !! addr m = entries w !! addr m) ->
  (forall m, m ∈ N -> content (nkey m) <> content (nkey n)) -> zlen N < 2 ^ 59 -> nodes_ok type w' N' U.
Proof.
  intros [H1 H2 H3 H4 H5] HN Hd He Hc Hz. apply (nodes_ok_perm _ (n :: N) _ U U (symmetry HN)); [done|].
  assert (Hp : N ++ n :: U ≡ₚ (n :: N) ++ U) by (symmetry; apply Permutation_middle). split.
  - cbn. apply NoDup_cons. split; [|done]. intros Hin. apply list_elem_of_fmap in Hin as (m & Em & Hm).
    by apply (Hc m Hm).
  - by rewrite <- Hp.
  - rewrite Hd, H3. apply set_eq. intros a. rewrite !elem_of_list_to_set. by rewrite Hp.
  - apply Forall_cons in H4 as [_ H4]. rewrite Forall_forall in H4 |- *. intros m Hm. rewrite He by done. by apply H4.
  - rewrite zlen_cons. lia.
Qed.

Lemma nodes_ok_new w w' N n U q : nodes_ok type w N U -> addr n ∉ dom (entries w) ->
  entries w' = <[addr n := entry_of q n]> (entries w) -> nodes_ok type w' N (n :: U).
Proof.
  intros [H1 H2 H3 H4 H5] Hn E. assert (Hp : N ++ n :: U ≡ₚ n :: (N ++ U)) by (symmetry; apply Permutation_middle).
  assert (Ha : addr n ∉ addr <$> N ++ U) by (rewrite H3 in Hn; by rewrite elem_of_list_to_set in Hn). split; [done|..].
  - rewrite Hp. cbn. by apply NoDup_cons.
  - rewrite E, dom_insert_L, H3. apply set_eq. intros a. rewrite elem_of_union, !elem_of_list_to_set, Hp. cbn.
    rewrite elem_of_cons, elem_of_singleton. done.
  - rewrite E. constructor; [exists q; by rewrite lookup_insert_eq|]. rewrite Forall_forall in H4 |- *. intros m Hm.
    rewrite lookup_insert_ne; [by apply H4|]. intros Em. apply Ha. rewrite Em. apply list_elem_of_fmap_2, elem_of_app. by right.
  - done.
Qed.

Lemma nodes_ok_free w w' N n U : nodes_ok type w N (n :: U) -> entries w' = delete (addr n) (entries w) ->
  nodes_ok type w' N U.
Proof.
  intros [H1 H2 H3 H4 H5] E. assert (Hp : N ++ n :: U ≡ₚ n :: (N ++ U)) by (symmetry; apply Permutation_middle).
  rewrite Hp in H2. cbn in H2. apply NoDup_cons in H2 as [Hn H2]. split; [done|done|..].
  - rewrite E, dom_delete_L, H3. apply set_eq. intros a. rewrite elem_of_difference, !elem_of_list_to_set, Hp. cbn.
    rewrite elem_of_cons, elem_of_singleton. split; [tauto|]. intros Ha. split; [by right|]. by intros ->.
  - apply Forall_cons in H4 as [_ H4]. rewrite Forall_forall in H4 |- *. intros m Hm. rewrite E, lookup_delete_ne; [by apply H4|].
    intros Em. apply Hn. rewrite Em. apply list_elem_of_fmap_2, elem_of_app. by right.
  - done.
Qed.

(** *** A bucket is replaced *)
Definition upd0 (t : bool) (i : nat) l (L0 : list (list (node K V))) := if t then L0 else <[i := l]> L0.
Definition upd1 (t : bool) (i : nat) l (L1 : list (list (node K V))) := if t then <[i := l]> L1 else L1.

Lemma buckets_perm t i l L0 L1 : buckets L0 L1 t !! i = Some l -> exists R, concat L0 ++ concat L1 ≡ₚ l ++ R /\
  forall l', concat (upd0 t i l' L0) ++ concat (upd1 t i l' L1) ≡ₚ l' ++ R.
Proof.
  intros Hl. destruct (concat_bucket _ i l Hl) as (R & HR & HR').
  destruct t; cbn [buckets upd0 upd1] in *; [exists (concat L0 ++ R)|exists (R ++ concat L1)]; (split; [rewrite HR|intros l'; rewrite HR']).
  all: solve_Permutation.
Qed.

Definition set_used (t : bool) (u : Z) d : dict :=
  with_ht t {| table := table (ht d t); hsize := hsize (ht d t); sizemask := sizemask (ht d t); used := u |} d.

Lemma dict_ok_bucket {g} w d L0 L1 U w' t b ps i p l l' U' u :
  dict_inv (g := g) type w d L0 L1 U -> table (ht d t) = Some b -> tables w !! b = Some ps -> buckets L0 L1 t !! i = Some l ->
  u = zlen (concat (<[i := l']> (buckets L0 L1 t))) -> the_dict w' = Some (set_used t u d) ->
  tables w' = <[b := <[i := p]> ps]> (tables w) ->
  chain (entries w') p l' ->
  (forall n, n ∈ concat L0 ++ concat L1 -> n ∉ l -> entries w' !! addr n = entries w !! addr n) ->
  Forall (fun n => slot type (hsize (ht d t)) (nkey n) = Z.of_nat i) l' ->
  nodes_ok type w' (concat (upd0 t i l' L0) ++ concat (upd1 t i l' L1)) U' ->
  (g = true -> t = false -> rehashidx d <= Z.of_nat i \/ l' = []) ->
  (brk w <= brk w')%positive -> (forall a, a ∈ dom (entries w') -> (a < brk w')%positive) ->
  dict_inv (g := g) type w' (set_used t u d) (upd0 t i l' L0) (upd1 t i l' L1) U'.
Proof.
  intros Hok Hb Hps Hl Hu Hd' HT Hc He Hsl Hn Hre Hbrk Hbrk'.
  destruct (nodes_buckets _ _ _ _ _ _ Hok) as (Ha0 & Ha1 & _ & _).
  assert (Hdis : forall m, m ∈ concat (buckets L0 L1 (negb t)) -> m ∈ l -> False).
  { intros m Hm Hm'. pose proof (no_addrs _ _ _ _ (ok_nodes _ _ _ _ _ _ Hok)) as Ha. rewrite !fmap_app in Ha.
    apply NoDup_app in Ha as (Ha & _ & _). apply NoDup_app in Ha as (_ & Ha & _).
    assert (Hin : m ∈ concat (buckets L0 L1 t)) by (apply elem_of_concat; by exists i, l).
    destruct t; cbn in *; eapply Ha; by apply list_elem_of_fmap_2. }
  assert (Hother : table_ok type w' (ht d (negb t)) (buckets L0 L1 (negb t))).
  { pose proof (ok_ht _ _ _ _ _ _ (negb t) Hok) as Ho. unfold table_ok in Ho |- *.
    destruct (table (ht d (negb t))) as [b'|] eqn:Eb'; [|done]. destruct Ho as (ps' & Hps' & Hs'). exists ps'.
    assert (b <> b') by (intros ->; destruct t; cbn in *; by apply (ok_apart _ _ _ _ _ _ Hok b')).
    split; [by rewrite HT, lookup_insert_ne|]. eapply shape_frame, Hs'. intros x Hx q. apply chain_ext.
    intros m Hm. assert (Hin : m ∈ concat (buckets L0 L1 (negb t))).
    { apply list_elem_of_lookup in Hx as [j Hj]. apply elem_of_concat. by exists j, x. }
    apply He; [apply elem_of_app; destruct t; auto|]. intros Hm'. by eapply Hdis. }
  assert (Hthis : table_ok type w' (ht (set_used t u d) t) (<[i := l']> (buckets L0 L1 t))).
  { pose proof (ok_ht _ _ _ _ _ _ t Hok) as Ht. unfold table_ok in Ht |- *.
    replace (table (ht (set_used t u d) t)) with (Some b) by (rewrite <- Hb; by destruct t).
    rewrite Hb in Ht. destruct Ht as (ps' & Hps' & Hs). replace ps' with ps in * by congruence.
    exists (<[i := p]> ps). split; [by rewrite HT, lookup_insert_eq|].
    eapply (shape_update _ (entries w) (entries w') (ht d t)); [exact Hs|by apply lookup_lt_Some in Hl|done| |done|by destruct t..].
    intros j x Hji Hj q. apply chain_ext. intros m Hm. apply He.
    - assert (Hin : m ∈ concat (buckets L0 L1 t)) by (apply elem_of_concat; by exists j, x).
      apply elem_of_app. destruct t; auto.
    - intros Hm'. assert (Ha : NoDup (addr <$> concat (buckets L0 L1 t))) by by destruct t.
      eapply (bucket_disjoint addr _ _ _ _ _ (addr m) Ha Hl Hj); [done|by apply list_elem_of_fmap_2..]. }
  assert (Htabs : table_set (set_used t u d) = table_set d) by by destruct t.
  split; [done|..].
  - by destruct t.
  - by destruct t.
  - intros Hg. pose proof (ok_consistent _ _ _ _ _ _ Hok Hg) as [R1 R2]. split.
    + destruct t; apply R1.
    + intros Hr. replace (rehashidx (set_used t u d)) with (rehashidx d) in Hr |- * by by destruct t.
      destruct (R2 Hr) as (T0 & T1 & Hb0 & Hem). destruct t; (split_and!; [done|done|apply Hb0|apply Hb0|]); [exact Hem|].
      cbn. intros j Hj x Hx. destruct (decide (j = i)) as [->|Hji].
      * rewrite list_lookup_insert_eq in Hx by (by apply lookup_lt_Some in Hl). injection Hx as <-.
        destruct (Hre Hg eq_refl) as [?|?]; [lia|done].
      * rewrite list_lookup_insert_ne in Hx by done. by eapply Hem.
  - done.
  - rewrite Htabs, <- (ok_tables _ _ _ _ _ _ Hok), HT, dom_insert_lookup_L by by eexists. done.
  - intros b'. pose proof (ok_apart _ _ _ _ _ _ Hok b'). by destruct t.
  - intros a [Ha|Ha]; [by apply Hbrk'|]. rewrite HT, dom_insert_lookup_L in Ha by by eexists.
    pose proof (ok_brk _ _ _ _ _ _ Hok a (or_intror Ha)). lia.
  - destruct t; apply Hok.
Qed.

(** *** Cutting a chain *)
Lemma chain_node E p l1 n l2 : chain E p (l1 ++ n :: l2) -> exists q, E !! addr n = Some (entry_of q n) /\ chain E q l2.
Proof.
  revert p. induction l1 as [|m l1 IH]; intros p Hc; [apply Hc|]. destruct Hc as (_ & q & _ & Hc). by eapply IH.
Qed.
Lemma chain_cut E p l0 m n l2 q : chain E p (l0 ++ m :: n :: l2) -> NoDup (addr <$> l0 ++ m :: n :: l2) ->
  E !! addr n = Some (entry_of q n) -> chain (<[addr m := entry_of q m]> E) p (l0 ++ m :: l2).
Proof.
  revert p. induction l0 as [|x l0 IH]; intros p Hc Hd Hq.
  - destruct Hc as [-> (q1 & Hm & Hc)]. destruct Hc as [-> (q2 & Hn & Hc)]. rewrite Hq in Hn. injection Hn as <-.
    split; [done|]. exists q. rewrite lookup_insert_eq. split; [done|]. cbn in Hd. apply NoDup_cons in Hd as [Hm' _].
    apply chain_insert; [|done]. intros Hin. apply Hm'. by right.
  - destruct Hc as [-> (q1 & Hx & Hc)]. cbn in Hd. apply NoDup_cons in Hd as [Hx' Hd]. split; [done|]. exists q1.
    rewrite lookup_insert_ne; [split; [done|by apply IH]|]. intros Em. apply Hx'. rewrite <- Em.
    rewrite fmap_app. apply elem_of_app. right. by left.
Qed.

Lemma bucket_nodes {g} w d L0 L1 U t i l : dict_inv (g := g) type w d L0 L1 U -> buckets L0 L1 t !! i = Some l ->
  NoDup (addr <$> l) /\ (forall n, n ∈ l -> n ∈ concat L0 ++ concat L1) /\
  (g = true -> rehashidx d <= Z.of_nat i \/ l = [] \/ t = true).
Proof.
  intros Hok Hl. destruct (nodes_buckets _ _ _ _ _ _ Hok) as (Ha0 & Ha1 & _ & _). split_and!.
  - assert (Ha : NoDup (addr <$> concat (buckets L0 L1 t))) by by destruct t.
    destruct (concat_bucket _ i l Hl) as (R & HR & _). rewrite HR, fmap_app in Ha. by apply NoDup_app in Ha as [Ha _].
  - intros n Hn. assert (Hin : n ∈ concat (buckets L0 L1 t)) by (apply elem_of_concat; by exists i, l).
    apply elem_of_app. destruct t; auto.
  - intros ->. destruct t; [by right; right|]. destruct (Z.le_gt_cases (rehashidx d) (Z.of_nat i)) as [|Hlt]; [by left|].
    right. left. destruct (decide (rehashidx d = -1)); [lia|].
    destruct (re_busy _ _ _ (ok_rehash _ _ _ _ _ _ Hok)) as (_ & _ & _ & Hem); [done|]. by eapply Hem.
Qed.

Lemma used_zlen {g} w d L0 L1 U t : dict_inv (g := g) type w d L0 L1 U ->
  used (ht d t) = zlen (concat (buckets L0 L1 t)) /\ 0 <= used (ht d t) <= 2 ^ 59.
Proof. intros Hok. destruct (ht0_bounds _ _ _ _ _ _ Hok) as (H1 & H2 & H3 & H4 & _). by destruct t. Qed.

Lemma zlen_bucket L i l l' : L !! i = Some l -> zlen (concat (<[i := l']> L)) = zlen (concat L) - zlen l + zlen l'.
Proof.
  intros Hl. destruct (concat_bucket L i l Hl) as (R & HR & HR'). unfold zlen. rewrite HR, HR', !length_app. lia.
Qed.

(** *** An entry leaves its bucket *)
Lemma unlink_ok {g} w d L0 L1 U w' t b ps i l1 n l2 q :
  dict_inv (g := g) type w d L0 L1 U -> table (ht d t) = Some b -> tables w !! b = Some ps ->
  buckets L0 L1 t !! i = Some (l1 ++ n :: l2) -> entries w !! addr n = Some (entry_of q n) ->
  the_dict w' = Some (set_used t (used (ht d t) - 1) d) -> brk w' = brk w ->
  match last l1 with
  | None => entries w' = entries w /\ tables w' = <[b := <[i := q]> ps]> (tables w)
  | Some m => entries w' = <[addr m := entry_of q m]> (entries w) /\ tables w' = tables w
  end ->
  dict_inv (g := g) type w' (set_used t (used (ht d t) - 1) d) (upd0 t i (l1 ++ l2) L0) (upd1 t i (l1 ++ l2) L1) (n :: U).
Proof.
  intros Hok Hb Hps Hl Hq Hd' Hbrk Hcut. destruct (bucket_nodes _ _ _ _ _ _ _ _ Hok Hl) as (Hnd & Hin & Hre).
  pose proof (ok_ht _ _ _ _ _ _ t Hok) as Ht. unfold table_ok in Ht. rewrite Hb in Ht.
  destruct Ht as (ps' & Hps' & Hs). replace ps' with ps in * by congruence.
  destruct (Forall2_lookup_r _ _ _ _ _ (sh_chains _ _ _ _ _ Hs) Hl) as (p & Hp & Hc).
  destruct (buckets_perm _ _ _ _ _ Hl) as (R & HR & HR').
  assert (Hdom : dom (entries w') = dom (entries w)).
  { destruct (last l1) as [m|] eqn:El; destruct Hcut as [-> _]; [|done]. apply dom_insert_lookup_L.
    apply last_Some in El as [l0 ->]. rewrite <- app_assoc in Hc.
    destruct (chain_node _ _ l0 m _ Hc) as (qm & Hm & _). by eexists. }
  assert (Hsame : forall a, (forall m, last l1 = Some m -> a <> addr m) -> entries w' !! a = entries w !! a).
  { intros a Ha. destruct (last l1) as [m|] eqn:El; destruct Hcut as [-> _]; [|done].
    by rewrite lookup_insert_ne by (apply not_eq_sym; by apply Ha). }
  assert (Hlast : forall m, last l1 = Some m -> m ∈ l1) by (intros m Hm; apply last_Some in Hm as [l0 ->]; apply elem_of_app; right; by left).
  pose proof (no_addrs _ _ _ _ (ok_nodes _ _ _ _ _ _ Hok)) as Hall.
  assert (Hfree : forall m x, last l1 = Some m -> x ∈ n :: U -> addr x <> addr m).
  { intros m x Hm%Hlast Hx E. rewrite HR in Hall.
    assert (Hall' : NoDup (addr <$> l1 ++ (n :: U) ++ l2 ++ R))
      by (assert (Hp' : l1 ++ (n :: U) ++ l2 ++ R ≡ₚ ((l1 ++ n :: l2) ++ R) ++ U) by solve_Permutation; by rewrite Hp').
    rewrite fmap_app in Hall'. apply NoDup_app in Hall' as (_ & Hall' & _). apply (Hall' (addr x)).
    - rewrite E. by apply list_elem_of_fmap_2.
    - rewrite fmap_app. apply elem_of_app. left. by apply list_elem_of_fmap_2. }
  eapply (dict_ok_bucket w d L0 L1 U w' t b ps i (match last l1 with None => q | Some _ => p end) _ (l1 ++ l2)); try done.
  - rewrite (zlen_bucket _ _ _ _ Hl), (proj1 (used_zlen _ _ _ _ _ t Hok)). zlen_solve.
  - destruct (last l1) as [m|]; destruct Hcut as [_ ->]; [|done]. by rewrite (list_insert_id _ _ _ Hp), insert_id.
  - destruct (last l1) as [m|] eqn:El; destruct Hcut as [-> _].
    + apply last_Some in El as [l0 ->]. rewrite <- app_assoc in Hc, Hnd |- *. eapply chain_cut; [exact Hc|exact Hnd|exact Hq].
    + apply last_None in El as ->. destruct Hc as [_ (q' & Hq' & Hc)]. cbn. rewrite Hq in Hq'. by injection Hq' as <-.
  - intros x Hx Hnx. apply Hsame. intros m Hm E. apply Hnx. assert (Hm' : m ∈ l1 ++ n :: l2) by (apply elem_of_app; left; by apply Hlast).
    replace x with m; [done|]. rewrite fmap_app in Hall. apply NoDup_app in Hall as (Hall & _ & _).
    symmetry. apply (NoDup_fmap_inj_on addr _ _ _ Hall); [done|by apply Hin|done].
  - pose proof (sh_placed _ _ _ _ _ Hs i _ Hl) as Hpl. apply Forall_app in Hpl as [H1 H2]. apply Forall_cons in H2 as [_ H2].
    by apply Forall_app.
  - eapply (nodes_ok_unlink w w' _ n); [apply Hok| |done| |done].
    + rewrite HR, HR'. solve_Permutation.
    + intros x Hx. apply Hsame. intros m Hm. by apply Hfree.
  - intros Hg ->. destruct (Hre Hg) as [?|[E|?]]; [by left| |done]. by destruct l1.
  - by rewrite Hbrk.
  - intros a Ha. rewrite Hdom in Ha. rewrite Hbrk. apply (ok_brk _ _ _ _ _ _ Hok). by left.
Qed.

Lemma unlinked_apart w N n U m : nodes_ok type w N (n :: U) -> m ∈ N ++ U -> addr m <> addr n.
Proof.
  intros Hn Hm E. pose proof (no_addrs _ _ _ _ Hn) as Ha.
  rewrite <- Permutation_middle in Ha. cbn in Ha. apply NoDup_cons in Ha as [Ha _]. apply Ha. rewrite <- E.
  by apply list_elem_of_fmap_2.
Qed.

(** *** An unlinked entry becomes the head of a bucket *)
Lemma link_ok w d L0 L1 U w' t b ps i l n head :
  dict_ok type w d L0 L1 (n :: U) -> table (ht d t) = Some b -> tables w !! b = Some ps ->
  buckets L0 L1 t !! i = Some l -> ps !! i = Some head ->
  slot type (hsize (ht d t)) (nkey n) = Z.of_nat i -> (t = false -> rehashidx d <= Z.of_nat i) ->
  (forall m, m ∈ concat L0 ++ concat L1 -> content (nkey m) <> content (nkey n)) ->
  zlen (concat L0 ++ concat L1) < 2 ^ 59 ->
  the_dict w' = Some (set_used t (used (ht d t) + 1) d) -> brk w' = brk w ->
  entries w' = <[addr n := entry_of head n]> (entries w) -> tables w' = <[b := <[i := Some (addr n)]> ps]> (tables w) ->
  dict_ok type w' (set_used t (used (ht d t) + 1) d) (upd0 t i (n :: l) L0) (upd1 t i (n :: l) L1) U.
Proof.
  intros Hok Hb Hps Hl Hp Hsl Hre Hc Hz Hd' Hbrk HE HT.
  pose proof (ok_nodes _ _ _ _ _ _ Hok) as Hn. pose proof (no_unlinked _ _ _ _ Hn) as HU.
  apply Forall_cons in HU as [(q0 & Hq0) _].
  assert (Hdom : dom (entries w') = dom (entries w)) by (rewrite HE; apply dom_insert_lookup_L; by eexists).
  assert (Hsame : forall m, m ∈ (concat L0 ++ concat L1) ++ U -> entries w' !! addr m = entries w !! addr m).
  { intros m Hm. rewrite HE, lookup_insert_ne; [done|]. apply not_eq_sym. by eapply unlinked_apart. }
  destruct (bucket_nodes _ _ _ _ _ _ _ _ Hok Hl) as (_ & Hin & _).
  pose proof (ok_ht _ _ _ _ _ _ t Hok) as Ht. unfold table_ok in Ht. rewrite Hb in Ht.
  destruct Ht as (ps' & Hps' & Hs). replace ps' with ps in * by congruence.
  destruct (buckets_perm _ _ _ _ _ Hl) as (R & HR & HR').
  eapply (dict_ok_bucket w d L0 L1 (n :: U) w' t b ps i (Some (addr n)) l (n :: l)); try done.
  - rewrite (zlen_bucket _ _ _ _ Hl), (proj1 (used_zlen _ _ _ _ _ t Hok)). zlen_solve.
  - split; [done|]. exists head. rewrite HE at 1. rewrite lookup_insert_eq. split; [done|].
    apply (chain_ext (entries w)); [intros m Hm; apply Hsame, elem_of_app; left; by apply Hin|].
    by apply (Forall2_lookup_lr _ _ _ _ _ _ (sh_chains _ _ _ _ _ Hs) Hp).
  - intros m Hm _. apply Hsame, elem_of_app. by left.
  - constructor; [done|]. by apply (sh_placed _ _ _ _ _ Hs).
  - eapply (nodes_ok_link w w' _ n); [exact Hn| |done| |done|done].
    + rewrite HR', HR. done.
    + intros m Hm. apply Hsame, elem_of_app. by right.
  - intros _ ->. left. by apply Hre.
  - by rewrite Hbrk.
  - intros a Ha. rewrite Hdom in Ha. rewrite Hbrk. apply (ok_brk _ _ _ _ _ _ Hok). by left.
Qed.

(** *** Entries outside the tables *)
Lemma dict_ok_entries {g} w d L0 L1 U w' U' : dict_inv (g := g) type w d L0 L1 U -> the_dict w' = the_dict w -> tables w' = tables w ->
  (forall n, n ∈ concat L0 ++ concat L1 -> entries w' !! addr n = entries w !! addr n) ->
  nodes_ok type w' (concat L0 ++ concat L1) U' -> (brk w <= brk w')%positive ->
  (forall a, a ∈ dom (entries w') -> (a < brk w')%positive) -> dict_inv (g := g) type w' d L0 L1 U'.
Proof.
  intros Hok Hd HT He Hn Hb Hb'.
  assert (Htab : forall t, table_ok type w' (ht d t) (buckets L0 L1 t)).
  { intros t. pose proof (ok_ht _ _ _ _ _ _ t Hok) as Ht. unfold table_ok in Ht |- *.
    destruct (table (ht d t)) as [b|]; [|done]. destruct Ht as (ps & Hps & Hs). exists ps. rewrite HT. split; [done|].
    eapply shape_frame, Hs. intros l Hl p. apply chain_ext. intros m Hm.
    apply list_elem_of_lookup in Hl as [i Hi]. apply He. by apply (bucket_nodes _ _ _ _ _ t i l Hok Hi). }
  split.
  - rewrite Hd. apply Hok.
  - apply (Htab false).
  - apply (Htab true).
  - apply Hok.
  - done.
  - rewrite HT. apply Hok.
  - apply Hok.
  - intros a [Ha|Ha]; [by apply Hb'|]. rewrite HT in Ha. pose proof (ok_brk _ _ _ _ _ _ Hok a (or_intror Ha)). lia.
  - apply Hok.
Qed.

Lemma node_live {g} w d L0 L1 U n : dict_inv (g := g) type w d L0 L1 U -> n ∈ concat L0 ++ concat L1 -> addr n ∈ dom (entries w).
Proof.
  intros Hok Hn. rewrite (no_exact _ _ _ _ (ok_nodes _ _ _ _ _ _ Hok)). apply elem_of_list_to_set.
  apply list_elem_of_fmap_2, elem_of_app. by left.
Qed.

Lemma new_ok w d L0 L1 U w' n q : dict_ok type w d L0 L1 U -> addr n = brk w -> the_dict w' = the_dict w ->
  tables w' = tables w -> brk w' = Pos.succ (brk w) -> entries w' = <[addr n := entry_of q n]> (entries w) ->
  dict_ok type w' d L0 L1 (n :: U).
Proof.
  intros Hok Ha Hd HT Hb HE. assert (Hfresh : addr n ∉ dom (entries w)).
  { intros Hin. pose proof (ok_brk _ _ _ _ _ _ Hok _ (or_introl Hin)). lia. }
  eapply dict_ok_entries; try done.
  - intros m Hm. rewrite HE, lookup_insert_ne; [done|]. intros E. apply Hfresh. rewrite E. by eapply node_live.
  - eapply nodes_ok_new; [apply Hok|done|done].
  - rewrite Hb. lia.
  - intros a Hin. rewrite HE, dom_insert_L in Hin. rewrite Hb. apply elem_of_union in Hin as [->%elem_of_singleton|Hin]; [lia|].
    pose proof (ok_brk _ _ _ _ _ _ Hok _ (or_introl Hin)). lia.
Qed.

Lemma free_ok {g} w d L0 L1 U w' n : dict_inv (g := g) type w d L0 L1 (n :: U) -> the_dict w' = the_dict w -> tables w' = tables w ->
  brk w' = brk w -> entries w' = delete (addr n) (entries w) -> dict_inv (g := g) type w' d L0 L1 U.
Proof.
  intros Hok Hd HT Hb HE. eapply dict_ok_entries; try done.
  - intros m Hm. rewrite HE, lookup_delete_ne; [done|]. apply not_eq_sym. eapply unlinked_apart; [apply Hok|].
    apply elem_of_app. by left.
  - eapply nodes_ok_free; [apply Hok|done].
  - by rewrite Hb.
  - intros a Hin. rewrite HE, dom_delete_L in Hin. rewrite Hb. apply (ok_brk _ _ _ _ _ _ Hok). left. set_solver.
Qed.

(** The [next] of an unlinked entry does not matter. *)
Lemma relink_ok w d L0 L1 U w' n q : dict_ok type w d L0 L1 (n :: U) -> the_dict w' = the_dict w -> tables w' = tables w ->
  brk w' = brk w -> entries w' = <[addr n := entry_of q n]> (entries w) -> dict_ok type w' d L0 L1 (n :: U).
Proof.
  intros Hok Hd HT Hb HE. pose proof (ok_nodes _ _ _ _ _ _ Hok) as Hn. pose proof (no_unlinked _ _ _ _ Hn) as HU.
  apply Forall_cons in HU as [(q0 & Hq0) HU].
  assert (Hdom : dom (entries w') = dom (entries w)) by (rewrite HE; apply dom_insert_lookup_L; by eexists).
  assert (Hsame : forall m, m ∈ (concat L0 ++ concat L1) ++ U -> entries w' !! addr m = entries w !! addr m).
  { intros m Hm. rewrite HE, lookup_insert_ne; [done|]. apply not_eq_sym. by eapply unlinked_apart. }
  eapply dict_ok_entries; try done.
  - intros m Hm. apply Hsame, elem_of_app. by left.
  - split; [apply Hn|apply Hn|rewrite Hdom; apply Hn| |apply Hn]. constructor; [exists q; by rewrite HE, lookup_insert_eq|].
    rewrite Forall_forall in HU |- *. intros m Hm. rewrite Hsame by (apply elem_of_app; by right). by apply HU.
  - by rewrite Hb.
  - intros a Ha. rewrite Hdom in Ha. rewrite Hb. apply (ok_brk _ _ _ _ _ _ Hok). by left.
Qed.
End changes.

Section moving.
Context {K V : Type} {EK : EqDecision K} (type : dictType K V) {C : Type} {EC : EqDecision C} {CC : Countable C} {DL : DictLaws type C}.
Implicit Types (w : world K V) (l N U R : list (node K V)) (L : list (list (node K V))) (n : node K V) (d : dict).

Lemma add_used_eq w d t x : the_dict w = Some d -> 0 <= used (ht d t) + x < 2 ^ 64 ->
  add_used t x w = Ret tt (with_the_dict (Some (set_used t (used (ht d t) + x) d)) w).
Proof.
  intros Hd Hu. unfold add_used. rewrite (upd_dict_eq w d _ Hd). unfold set_used, with_used. by rewrite u64_id.
Qed.
Lemma load_entry w p e : entries w !! p = Some e -> load p w = Ret e w.
Proof. unfold load. by intros ->. Qed.
Lemma save_eq w p e e' : entries w !! p = Some e -> save p e' w = Ret tt (with_entries (<[p := e']> (entries w)) w).
Proof. unfold save. by intros ->. Qed.

(** The parts of a dictionary that moving an entry leaves alone. *)
Definition layout d := (table (ht0 d), hsize (ht0 d), table (ht1 d), hsize (ht1 d), rehashidx d, iterators d).
Lemma layout_used t u d : layout (set_used t u d) = layout d.
Proof. by destruct t. Qed.

(** While the entries of bucket [i] move, the bucket in the heap still points to
    the first of them: [de] is where it should point. *)
Record draining w d L0 L1 U (i : nat) (de : option positive) l b0 ps0 b1 : Prop := {
  dr_ok : dict_ok type (with_tables (<[b0 := <[i := de]> ps0]> (tables w)) w) d L0 L1 U;
  dr_bucket : L0 !! i = Some l;
  dr_ht0 : table (ht0 d) = Some b0;
  dr_ht1 : table (ht1 d) = Some b1;
  dr_table : tables w !! b0 = Some ps0
}.

Lemma draining_chain w d L0 L1 U i de l b0 ps0 b1 : draining w d L0 L1 U i de l b0 ps0 b1 ->
  chain (entries w) de l /\ (i < length ps0)%nat /\ b0 <> b1 /\ NoDup (addr <$> l).
Proof.
  intros [Hok Hl H0 H1 HT]. pose proof (ok_ht0 _ _ _ _ _ _ Hok) as Ht. unfold table_ok in Ht. rewrite H0 in Ht.
  destruct Ht as (ps & Hps & Hs). cbn in Hps. rewrite lookup_insert_eq in Hps. injection Hps as <-.
  pose proof (sh_chains _ _ _ _ _ Hs) as Hch. pose proof (Forall2_length _ _ _ Hch) as Hlen. rewrite length_insert in Hlen.
  pose proof (lookup_lt_Some _ _ _ Hl) as Hi. split_and!.
  - apply (Forall2_lookup_lr _ _ _ i _ _ Hch); [|done]. rewrite list_lookup_insert_eq by lia. done.
  - lia.
  - intros ->. by apply (ok_apart _ _ _ _ _ _ Hok b1).
  - by apply (bucket_nodes _ _ _ _ _ _ false i l Hok Hl).
Qed.

Lemma moved_fresh (N N' : list (node K V)) n : NoDup ((fun m => content (nkey m)) <$> N) -> N ≡ₚ n :: N' ->
  forall m, m ∈ N' -> content (nkey m) <> content (nkey n).
Proof.
  intros Hd HN m Hm E. rewrite HN in Hd. cbn in Hd. apply NoDup_cons in Hd as [Hd _]. apply Hd. rewrite <- E.
  by apply (list_elem_of_fmap_2 (fun m => content (nkey m))).
Qed.

(** One entry moves: it is unlinked from the one table and linked into the other. *)
Lemma move_ok w d L0 L1 U i n l b0 ps0 b1 q ps1 j l1 head w' :
  draining w d L0 L1 U i (Some (addr n)) (n :: l) b0 ps0 b1 -> entries w !! addr n = Some (entry_of q n) ->
  tables w !! b1 = Some ps1 -> L1 !! j = Some l1 -> ps1 !! j = Some head -> Z.of_nat j = slot type (hsize (ht1 d)) (nkey n) ->
  let d' := set_used true (used (ht1 d) + 1) (set_used false (used (ht0 d) - 1) d) in
  the_dict w' = Some d' -> brk w' = brk w -> entries w' = <[addr n := entry_of head n]> (entries w) ->
  tables w' = <[b1 := <[j := Some (addr n)]> ps1]> (tables w) ->
  draining w' d' (<[i := l]> L0) (<[j := n :: l1]> L1) U i q l b0 ps0 b1 /\
  concat (<[i := l]> L0) ++ concat (<[j := n :: l1]> L1) ≡ₚ concat L0 ++ concat L1.
Proof.
  intros HD Hq Hps1 Hl1 Hhead Hj d' Hd' Hbrk HE HT. pose proof (draining_chain _ _ _ _ _ _ _ _ _ _ _ HD) as (Hc & Hi & Hb & Hnd).
  destruct HD as [Hok Hl H0 H1 HT0].
  destruct (buckets_perm false i (n :: l) L0 L1 Hl) as (R & HR & HR'). cbn [upd0 upd1] in HR'.
  assert (HN : concat L0 ++ concat L1 ≡ₚ n :: (concat (<[i := l]> L0) ++ concat L1)) by by rewrite HR, HR'.
  pose proof (ok_nodes _ _ _ _ _ _ Hok) as Hnodes.
  set (w1 := with_the_dict (Some (set_used false (used (ht0 d) - 1) d)) (with_tables (<[b0 := <[i := q]> ps0]> (tables w)) w)).
  assert (Hok1 : dict_ok type w1 (set_used false (used (ht0 d) - 1) d) (<[i := l]> L0) L1 (n :: U)).
  { eapply (unlink_ok type _ d L0 L1 U w1 false b0 _ i [] n l q Hok); cbn; try done.
    - by rewrite lookup_insert_eq.
    - split; [done|]. by rewrite insert_insert_eq, list_insert_insert_eq. }
  destruct (buckets_perm true j l1 (<[i := l]> L0) L1 Hl1) as (R1 & HR1 & HR1'). cbn [upd0 upd1] in HR1'.
  split; [|by rewrite HR1', HN, HR1]. split; [| |done|done|].
  - eapply (link_ok type w1 _ (<[i := l]> L0) L1 U _ true b1 ps1 j l1 n head Hok1); cbn; try done.
    + by rewrite lookup_insert_ne.
    + eapply moved_fresh; [apply Hnodes|exact HN].
    + pose proof (no_few _ _ _ _ Hnodes) as Hz. unfold zlen in *. rewrite HN in Hz. cbn in Hz. lia.
    + rewrite HT. by rewrite insert_insert_ne by done.
  - rewrite list_lookup_insert_eq; [done|]. by apply lookup_lt_Some in Hl.
  - rewrite HT. by rewrite lookup_insert_ne.
Qed.

Lemma move_turn_ok w d L0 L1 U i n l b0 ps0 b1 : draining w d L0 L1 U i (Some (addr n)) (n :: l) b0 ps0 b1 ->
  exists w' d' L0' L1' q, move_turn type (Some (addr n)) w = Ret (inl q) w' /\ draining w' d' L0' L1' U i q l b0 ps0 b1 /\
    concat L0' ++ concat L1' ≡ₚ concat L0 ++ concat L1 /\ layout d' = layout d /\ quiet w w'.
Proof.
  intros HD. pose proof (draining_chain _ _ _ _ _ _ _ _ _ _ _ HD) as (Hc & Hi & Hb & Hnd).
  destruct Hc as [_ (q & Hq & _)]. pose proof (dr_ok _ _ _ _ _ _ _ _ _ _ _ HD) as Hok.
  pose proof (dr_ht1 _ _ _ _ _ _ _ _ _ _ _ HD) as H1. pose proof (ok_dict _ _ _ _ _ _ Hok) as Hd. cbn in Hd.
  pose proof (ok_ht1 _ _ _ _ _ _ Hok) as Ht1. unfold table_ok in Ht1. rewrite H1 in Ht1.
  destruct Ht1 as (ps1 & Hps1 & Hs1). cbn in Hps1. rewrite lookup_insert_ne in Hps1 by done.
  destruct (shape_bucket _ _ _ _ _ (nkey n) Hs1) as (j & head & l1 & Hj & Hhead & Hl1 & _).
  assert (Hjl : (j < length ps1)%nat) by by apply lookup_lt_Some in Hhead.
  pose proof (used_zlen _ _ _ _ _ _ false Hok) as [Eu0 Hu0]. pose proof (used_zlen _ _ _ _ _ _ true Hok) as [_ Hu1].
  cbn [ht buckets] in Eu0, Hu0, Hu1.
  assert (Hpos : 1 <= used (ht0 d)).
  { rewrite Eu0. pose proof (zlen_bucket L0 i _ [] (dr_bucket _ _ _ _ _ _ _ _ _ _ _ HD)) as Hz. rewrite zlen_cons in Hz.
    pose proof (zlen_nonneg (concat (<[i := []]> L0))). pose proof (zlen_nonneg l). change (zlen (@nil (node K V))) with 0 in Hz. lia. }
  edestruct (move_ok w d L0 L1 U i n l b0 ps0 b1 q ps1 j l1 head) as [HD' HP]; [done..| | | | |].
  5:{ eexists _, _, _, _, q. split; [|split; [exact HD'|split; [exact HP|split; [by rewrite !layout_used|]]]].
      - unfold move_turn. rewrite (bind_ret_eq _ _ _ _ _ (load_entry w _ _ Hq)). cbn [entry_of key next v].
        rewrite (bind_ret_eq _ _ _ _ _ (the_eq w d Hd)).
        unfold dictHashKey. rewrite (proj1 (shape_index _ _ _ _ _ (nkey n) Hs1)), <- Hj, H1.
        rewrite (bind_ret_eq _ _ _ _ _ (bucket_eq w b1 ps1 j head Hps1 Hhead)).
        rewrite (bind_ret_eq _ _ _ _ _ (save_eq w _ _ _ Hq)).
        erewrite bind_ret_eq by (apply set_bucket_eq; [exact Hps1|exact Hjl]).
        erewrite bind_ret_eq by (apply add_used_eq; [exact Hd|cbn [ht]; lia]).
        erewrite bind_ret_eq by (apply add_used_eq; [reflexivity|cbn; lia]). reflexivity.
      - done. }
  all: done.
Qed.

Lemma move_loop_ok U i b0 ps0 b1 l : forall m w d L0 L1 de, (length l < m)%nat ->
  draining w d L0 L1 U i de l b0 ps0 b1 -> exists w' d' L0' L1',
    while_loop m (move_turn type) de w = Ret tt w' /\ draining w' d' L0' L1' U i None [] b0 ps0 b1 /\
    concat L0' ++ concat L1' ≡ₚ concat L0 ++ concat L1 /\ layout d' = layout d /\ quiet w w'.
Proof.
  induction l as [|n l IH]; intros m w d L0 L1 de Hm HD; (destruct m as [|m]; [cbn in Hm; lia|]).
  all: pose proof (draining_chain _ _ _ _ _ _ _ _ _ _ _ HD) as (Hc & _); cbn [while_loop].
  - cbn in Hc. subst de. by exists w, d, L0, L1.
  - pose proof (proj1 Hc) as ->. destruct (move_turn_ok _ _ _ _ _ _ _ _ _ _ _ HD) as (w1 & d1 & L01 & L11 & q & E & HD1 & HP & Hl & Hq).
    destruct (IH m w1 d1 L01 L11 q) as (w' & d' & L0' & L1' & E' & HD' & HP' & Hl' & Hq'); [cbn in Hm; lia|done|].
    exists w', d', L0', L1'. rewrite (bind_ret_eq _ _ _ _ _ E). split_and!; [done|done|by rewrite HP'|congruence|by etransitivity].
Qed.

Lemma move_chain_ok w d L0 L1 U i de l b0 ps0 b1 : draining w d L0 L1 U i de l b0 ps0 b1 -> exists w' d' L0' L1',
    move_chain type de w = Ret tt w' /\ draining w' d' L0' L1' U i None [] b0 ps0 b1 /\
    concat L0' ++ concat L1' ≡ₚ concat L0 ++ concat L1 /\ layout d' = layout d /\ quiet w w'.
Proof.
  intros HD. pose proof (draining_chain _ _ _ _ _ _ _ _ _ _ _ HD) as (Hc & _ & _ & Hnd).
  unfold move_chain, chain_fuel. erewrite bind_ret_eq by (erewrite bind_ret_eq by reflexivity; reflexivity).
  apply (move_loop_ok U i b0 ps0 b1 l); [|done]. pose proof (chain_short _ _ _ Hc Hnd). lia.
Qed.

(** *** Emptied buckets *)
Lemma layout_eqs d d' : layout d' = layout d -> table (ht0 d') = table (ht0 d) /\ hsize (ht0 d') = hsize (ht0 d) /\
  table (ht1 d') = table (ht1 d) /\ rehashidx d' = rehashidx d /\ iterators d' = iterators d.
Proof. unfold layout. intros E. by injection E as -> -> -> _ -> ->. Qed.

Lemma rehashidx_ok w d L0 L1 U i : dict_ok type w d L0 L1 U -> rehashidx d = Z.of_nat i -> L0 !! i = Some [] ->
  dict_ok type (with_the_dict (Some (with_rehashidx (rehashidx d + 1) d)) w) (with_rehashidx (rehashidx d + 1) d) L0 L1 U.
Proof.
  intros Hok Hr Hi. pose proof (ok_rehash _ _ _ _ _ _ Hok) as [_ R2]. destruct R2 as (T0 & T1 & Hb & Hem); [lia|].
  pose proof (ok_ht0 _ _ _ _ _ _ Hok) as H0. unfold table_ok in H0. destruct (table (ht0 d)) as [b|] eqn:Eb; [|done].
  destruct H0 as (ps & _ & Hs). pose proof (sh_size _ _ _ _ _ Hs) as Hz. pose proof (lookup_lt_Some _ _ _ Hi).
  split; [done|apply Hok|apply Hok| |by eapply nodes_ok_frame, Hok|apply Hok..]. split; cbn; [lia|]. intros _. split_and!; [by rewrite Eb|done|lia|unfold zlen in Hz; lia|].
  intros j Hj l Hl. destruct (decide (j = i)) as [->|]; [congruence|]. apply (Hem j); [lia|done].
Qed.

Lemma first_full w d L0 L1 U : dict_ok type w d L0 L1 U -> dictIsRehashing d = true -> used (ht0 d) <> 0 ->
  exists k l, L0 !! k = Some l /\ l <> [] /\ rehashidx d <= Z.of_nat k /\ Z.of_nat k < hsize (ht0 d).
Proof.
  intros Hok Hr Hu. destruct (rehashing_busy _ _ _ _ _ _ Hok Hr) as (T0 & _ & Hb & Hem).
  destruct (used_zlen _ _ _ _ _ _ false Hok) as [Eu _]. cbn in Eu.
  destruct (concat L0) as [|n R] eqn:Ec; [by rewrite Eu in Hu|].
  assert (Hn : n ∈ concat L0) by (rewrite Ec; by left). apply elem_of_concat in Hn as (k & l & Hk & Hn).
  exists k, l. split; [done|]. assert (Hne : l <> []) by (intros ->; by apply elem_of_nil in Hn). split; [done|]. split.
  - destruct (Z.le_gt_cases (rehashidx d) (Z.of_nat k)); [done|]. exfalso. apply Hne. by apply (Hem k).
  - pose proof (ok_ht0 _ _ _ _ _ _ Hok) as H0. unfold table_ok in H0. destruct (table (ht0 d)); [|done].
    destruct H0 as (ps & _ & Hs). rewrite <- (sh_size _ _ _ _ _ Hs). apply lookup_lt_Some in Hk. unfold zlen. lia.
Qed.

(** The bucket at [rehashidx], in the heap and in the proof. *)
Lemma current_bucket w d L0 L1 U : dict_ok type w d L0 L1 U -> dictIsRehashing d = true -> rehashidx d < hsize (ht0 d) ->
  exists b0 ps0 i de l, table (ht0 d) = Some b0 /\ tables w !! b0 = Some ps0 /\ rehashidx d = Z.of_nat i /\
    ps0 !! i = Some de /\ L0 !! i = Some l /\ chain (entries w) de l.
Proof.
  intros Hok Hr Hlt. destruct (rehashing_busy _ _ _ _ _ _ Hok Hr) as (T0 & _ & Hb & _).
  pose proof (ok_ht0 _ _ _ _ _ _ Hok) as H0. unfold table_ok in H0. destruct (table (ht0 d)) as [b0|]; [|done].
  destruct H0 as (ps0 & Hps0 & Hs). destruct (lookup_lt_is_Some_2 L0 (Z.to_nat (rehashidx d))) as [l Hl].
  { pose proof (sh_size _ _ _ _ _ Hs). unfold zlen in *. lia. }
  destruct (Forall2_lookup_r _ _ _ _ _ (sh_chains _ _ _ _ _ Hs) Hl) as (de & Hde & Hc).
  exists b0, ps0, (Z.to_nat (rehashidx d)), de, l. split_and!; [done|done|lia|done..].
Qed.

Lemma skip_loop_ok w d L0 L1 U : dict_ok type w d L0 L1 U -> dictIsRehashing d = true -> used (ht0 d) <> 0 ->
  forall m ev, hsize (ht0 d) - rehashidx d < Z.of_nat m -> exists r x,
    while_loop m skip_turn ev w = Ret r (with_the_dict (Some (with_rehashidx x d)) w) /\
    dict_ok type (with_the_dict (Some (with_rehashidx x d)) w) (with_rehashidx x d) L0 L1 U /\
    rehashidx d <= x <= hsize (ht0 d) /\ (r = None -> rehashidx d < x) /\ (r <> None -> x < hsize (ht0 d)).
Proof.
  intros Hok Hr Hu m. revert w d Hok Hr Hu. induction m as [|m IH]; intros w d Hok Hr Hu ev Hm.
  { pose proof (rehashing_busy _ _ _ _ _ _ Hok Hr). lia. }
  destruct (first_full _ _ _ _ _ Hok Hr Hu) as (k & lk & Hk & Hne & Hk1 & Hk2).
  destruct (current_bucket _ _ _ _ _ Hok Hr ltac:(lia)) as (b0 & ps0 & i & de & l & Hb0 & Hps0 & Hi & Hde & Hl & Hc).
  pose proof (ok_dict _ _ _ _ _ _ Hok) as Hd. pose proof (rehashing_busy _ _ _ _ _ _ Hok Hr) as (_ & _ & Hb & _).
  cbn [while_loop]. unfold skip_turn at 1. rewrite bind_assoc, (bind_ret_eq _ _ _ _ _ (the_eq w d Hd)), Hb0, Hi, bind_assoc.
  rewrite (bind_ret_eq _ _ _ _ _ (bucket_eq w b0 ps0 i de Hps0 Hde)). destruct de as [p|].
  - exists (Some ev), (rehashidx d). assert (Ed : with_rehashidx (rehashidx d) d = d) by by destruct d. rewrite Ed.
    assert (Ew : with_the_dict (Some d) w = w) by (rewrite <- Hd; by destruct w). rewrite Ew.
    split_and!; [done|done|lia|lia|done|lia].
  - destruct l as [|n l]; [|by destruct Hc]. pose proof (rehashidx_ok _ _ _ _ _ _ Hok Hi Hl) as Hok'. rewrite <- Hi.
    rewrite bind_assoc, (bind_ret_eq _ _ _ _ _ (upd_dict_eq w d _ Hd)). cbv zeta.
    set (d1 := with_rehashidx (rehashidx d + 1) d) in *. destruct (i32 (ev - 1) =? 0).
    + exists None, (rehashidx d + 1). split_and!; [done|done|lia|lia|lia|done].
    + assert (k <> i) by (intros ->; congruence).
      destruct (IH _ d1 Hok') with (ev := i32 (ev - 1)) as (r & x & E & Hokx & Hx & HN & HS); [| |cbn; lia|].
      * unfold dictIsRehashing, d1. cbn. apply negb_true_iff, Z.eqb_neq. lia.
      * done.
      * exists r, x. cbn in Hx, HN, HS. split; [exact E|]. split; [exact Hokx|]. split_and!; [lia|lia|lia|done].
Qed.

(** What rehashing changes: neither the contents nor the size of the first table. *)
Definition progressed w d (L0 L1 : list (list (node K V))) U w' d' : Prop := exists L0' L1',
  dict_ok type w' d' L0' L1' U /\ concat L0' ++ concat L1' ≡ₚ concat L0 ++ concat L1 /\ quiet w w' /\
  iterators d' = iterators d /\ hsize (ht0 d') = hsize (ht0 d) /\ table (ht0 d') = table (ht0 d) /\
  rehashidx d <= rehashidx d' /\ dictIsRehashing d' = true.

(** A bucket is moved; the rest of a turn of the loop. *)
Definition move_bucket {A} (a : A) : M (world K V) A :=
  let* d := the in
  let* de := bucket (table (ht0 d)) (rehashidx d) in
  move_chain type de ;;;
  set_bucket (table (ht0 d)) (rehashidx d) None ;;;
  upd_dict (with_rehashidx (rehashidx d + 1)) ;;;
  ret a.

Lemma rehashing_idx d x : 0 <= x -> rehashidx d = x -> dictIsRehashing d = true.
Proof. intros Hx E. unfold dictIsRehashing. apply negb_true_iff, Z.eqb_neq. lia. Qed.

Lemma move_bucket_ok {A} (a : A) w d L0 L1 U : dict_ok type w d L0 L1 U -> dictIsRehashing d = true ->
  rehashidx d < hsize (ht0 d) -> exists w' d', move_bucket a w = Ret a w' /\ progressed w d L0 L1 U w' d' /\
    rehashidx d' = rehashidx d + 1.
Proof.
  intros Hok Hr Hlt. destruct (current_bucket _ _ _ _ _ Hok Hr Hlt) as (b0 & ps0 & i & de & l & Hb0 & Hps0 & Hi & Hde & Hl & Hc).
  destruct (rehashing_busy _ _ _ _ _ _ Hok Hr) as (_ & T1 & _). destruct (table (ht1 d)) as [b1|] eqn:Eb1; [|done].
  assert (HD : draining w d L0 L1 U i de l b0 ps0 b1).
  { split; try done. rewrite (list_insert_id _ _ _ Hde), (insert_id _ _ _ Hps0). by destruct w. }
  destruct (move_chain_ok _ _ _ _ _ _ _ _ _ _ _ HD) as (w1 & d1 & L01 & L11 & E & HD1 & HP & Hlay & Hq).
  apply layout_eqs in Hlay as (E1 & E2 & E3 & E4 & E5).
  pose proof (draining_chain _ _ _ _ _ _ _ _ _ _ _ HD1) as (_ & Hilt & _). destruct HD1 as [Hok1 Hl1 Hb1 _ HT1].
  set (w2 := with_tables _ w1) in Hok1. pose proof (rehashidx_ok w2 d1 L01 L11 U i Hok1 ltac:(congruence) Hl1) as Hok2.
  exists (with_the_dict (Some (with_rehashidx (rehashidx d1 + 1) d1)) w2), (with_rehashidx (rehashidx d1 + 1) d1).
  split; [|split; [|cbn; lia]].
  - unfold move_bucket. rewrite (bind_ret_eq _ _ _ _ _ (the_eq w d (ok_dict _ _ _ _ _ _ Hok))), Hb0, Hi.
    rewrite (bind_ret_eq _ _ _ _ _ (bucket_eq w b0 ps0 i de Hps0 Hde)), (bind_ret_eq _ _ _ _ _ E).
    rewrite (bind_ret_eq _ _ _ _ _ (set_bucket_eq w1 b0 ps0 i None HT1 Hilt)). fold w2.
    rewrite (bind_ret_eq _ _ _ _ _ (upd_dict_eq w2 d1 _ (ok_dict _ _ _ _ _ _ Hok1))), E4, Hi. done.
  - exists L01, L11. split; [done|]. split; [done|]. split; [done|]. split; [done|]. split; [done|]. split; [cbn; congruence|].
    split; [cbn; lia|]. eapply (rehashing_idx _ (rehashidx d1 + 1)); [lia|done].
Qed.

Lemma progressed_refl w d L0 L1 U : dict_ok type w d L0 L1 U -> dictIsRehashing d = true -> progressed w d L0 L1 U w d.
Proof. intros Hok Hr. exists L0, L1. split_and!; try done. Qed.

Lemma rehash_loop_ok U : forall m w d L0 L1 c ev, dict_ok type w d L0 L1 U -> dictIsRehashing d = true ->
  hsize (ht0 d) - rehashidx d < Z.of_nat m -> exists r w' d',
    while_loop m (rehash_turn type) (c, ev) w = Ret r w' /\ progressed w d L0 L1 U w' d' /\
    (used (ht0 d) = 0 -> d' = d) /\ (c <> 0 -> used (ht0 d) <> 0 -> rehashidx d < rehashidx d') /\
    (r = false -> rehashidx d < rehashidx d').
Proof.
  induction m as [|m IH]; intros w d L0 L1 c ev Hok Hr Hm.
  { pose proof (rehashing_busy _ _ _ _ _ _ Hok Hr). lia. }
  pose proof (ok_dict _ _ _ _ _ _ Hok) as Hd. pose proof (rehashing_busy _ _ _ _ _ _ Hok Hr) as (_ & _ & Hb & _).
  cbn [while_loop]. unfold rehash_turn at 1. rewrite bind_assoc, (bind_ret_eq _ _ _ _ _ (the_eq w d Hd)).
  destruct (Z.eqb_spec c 0) as [|Hn]; cbn [orb].
  { exists true, w, d. split; [done|]. split; [by apply progressed_refl|]. by split_and!. }
  destruct (Z.eqb_spec (used (ht0 d)) 0) as [|Hu].
  { exists true, w, d. split; [done|]. split; [by apply progressed_refl|]. by split_and!. }
  destruct (first_full _ _ _ _ _ Hok Hr Hu) as (k & lk & _ & _ & Hk1 & Hk2).
  assert (Hsz : hsize (ht0 d) <= 2 ^ 60).
  { pose proof (ok_ht0 _ _ _ _ _ _ Hok) as H0. unfold table_ok in H0. destruct (table (ht0 d)).
    - destruct H0 as (ps & _ & Hs). destruct (sh_pow _ _ _ _ _ Hs) as (e & He & ->). apply Z.pow_le_mono_r; lia.
    - destruct H0 as [-> _]. cbn. lia. }
  rewrite u64_id, (proj2 (Z.leb_gt _ _)) by lia. unfold skip_empty. rewrite !bind_assoc.
  rewrite (bind_ret_eq _ _ _ _ _ (the_eq w d Hd)).
  destruct (skip_loop_ok _ _ _ _ _ Hok Hr Hu (Datatypes.S (Z.to_nat (hsize (ht0 d)))) ev ltac:(lia))
    as (r & x & E & Hok1 & Hx & HrN & HrS). rewrite (bind_ret_eq _ _ _ _ _ E). clear E.
  assert (Hr1 : dictIsRehashing (with_rehashidx x d) = true) by (eapply (rehashing_idx _ x); [lia|done]).
  destruct r as [ev'|].
  - specialize (HrS ltac:(done)). destruct (move_bucket_ok (inl (i32 (c - 1), ev') : Z * Z + bool) _ _ _ _ _ Hok1 Hr1 ltac:(cbn; lia))
      as (w2 & d2 & E2 & (L02 & L12 & Hok2 & HP2 & Hq2 & Hit2 & Hs2 & Ht2 & Hx2 & Hr2) & Hidx2).
    unfold move_bucket in E2. rewrite (bind_ret_eq _ _ _ _ _ E2). cbn in Hit2, Hs2, Ht2, Hx2, Hidx2.
    destruct (IH w2 d2 L02 L12 (i32 (c - 1)) ev' Hok2 Hr2) as (r' & w' & d' & E' & (L0' & L1' & Hok' & HP' & Hq' & Hit' & Hs' & Ht' & Hx' & Hr') & _).
    + lia.
    + exists r', w', d'. split; [exact E'|]. split; [|by split_and!; [|intros; lia..]]. exists L0', L1'. split; [done|]. split; [by rewrite HP'|].
      split; [by etransitivity; [exact Hq2|]|]. split_and!; try congruence. lia.
  - specialize (HrN eq_refl). eexists false, _, (with_rehashidx x d). split; [done|]. split; [|done].
    exists L0, L1. split_and!; try done. cbn. lia.
Qed.

(** *** The end of rehashing *)
Lemma table_ok_size w h L : table_ok type w h L -> zlen L = hsize h /\ 0 <= hsize h <= 2 ^ 60.
Proof.
  unfold table_ok. destruct (table h).
  - intros (ps & _ & Hs). split; [apply Hs|]. destruct (sh_pow _ _ _ _ _ Hs) as (e & He & ->).
    pose proof (Z.pow_le_mono_r 2 e 60). pose proof (Z.pow_pos_nonneg 2 e). lia.
  - by intros [-> ->].
Qed.

(** The first table is dropped and the second takes its place. *)
Definition swapped d : dict :=
  {| ht0 := ht1 d; ht1 := reset; rehashidx := -1; iterators := iterators d |}.

Lemma swap_ok w d L0 L1 U b0 : dict_ok type w d L0 L1 U -> dictIsRehashing d = true -> used (ht0 d) = 0 ->
  table (ht0 d) = Some b0 ->
  dict_ok type (with_the_dict (Some (swapped d)) (with_tables (delete b0 (tables w)) w)) (swapped d) L1 [] U /\
  concat L0 = [].
Proof.
  intros Hok Hr Hu Hb0. destruct (rehashing_busy _ _ _ _ _ _ Hok Hr) as (_ & T1 & _).
  destruct (used_zlen _ _ _ _ _ _ false Hok) as [Eu _]. cbn in Eu. rewrite Hu in Eu.
  assert (Hnil : concat L0 = []) by (apply length_zero_iff_nil; unfold zlen in Eu; lia). split; [|done].
  pose proof (ok_ht1 _ _ _ _ _ _ Hok) as H1. pose proof (ok_apart _ _ _ _ _ _ Hok b0 Hb0) as Hap.
  destruct (table (ht1 d)) as [b1|] eqn:Eb1; [|done]. pose proof (ok_tables _ _ _ _ _ _ Hok) as HT.
  unfold table_set in HT. rewrite Hb0, Eb1 in HT. split; cbn.
  - done.
  - eapply table_ok_frame; [| |exact H1]; [done|]. intros b Eb. cbn. apply lookup_delete_ne. congruence.
  - done.
  - by split; cbn.
  - rewrite app_nil_r. pose proof (ok_nodes _ _ _ _ _ _ Hok) as Hn. rewrite Hnil in Hn. by eapply nodes_ok_frame, Hn.
  - rewrite dom_delete_L, HT. unfold table_set. cbn. rewrite Eb1. cbn. assert (b0 <> b1) by congruence. set_solver.
  - done.
  - intros a [Ha|Ha]; apply (ok_brk _ _ _ _ _ _ Hok); [by left|right]. set_solver.
  - apply Hok.
Qed.

Lemma free_table_eq w b ps : tables w !! b = Some ps ->
  free_table (Some b) w = Ret tt (with_tables (delete b (tables w)) w).
Proof. unfold free_table. by intros ->. Qed.

Lemma check_rehashed_ok w d L0 L1 U : dict_ok type w d L0 L1 U -> dictIsRehashing d = true -> exists r w' d' L0' L1',
  check_rehashed w = Ret r w' /\ dict_ok type w' d' L0' L1' U /\ concat L0' ++ concat L1' = concat L0 ++ concat L1 /\
  iterators d' = iterators d /\ quiet w w' /\ table (ht0 d') <> None /\ dictIsRehashing d' = r /\ (r = true -> d' = d /\ used (ht0 d) <> 0).
Proof.
  intros Hok Hr. pose proof (ok_dict _ _ _ _ _ _ Hok) as Hd. unfold check_rehashed.
  rewrite (bind_ret_eq _ _ _ _ _ (the_eq w d Hd)). destruct (rehashing_busy _ _ _ _ _ _ Hok Hr) as (T0 & T1 & _).
  destruct (Z.eqb_spec (used (ht0 d)) 0) as [Hu|Hu]; [|by exists true, w, d, L0, L1].
  destruct (table (ht0 d)) as [b0|] eqn:Eb0; [|done]. destruct (swap_ok _ _ _ _ _ _ Hok Hr Hu Eb0) as [Hok' Hnil].
  pose proof (table_live _ _ _ _ _ _ false b0 Hok Eb0) as Hlive. apply elem_of_dom in Hlive as [ps Hps].
  exists false. eexists _, (swapped d), L1, []. rewrite Hnil. split; [|by rewrite app_nil_r].
  rewrite (bind_ret_eq _ _ _ _ _ (free_table_eq w b0 ps Hps)).
  erewrite bind_ret_eq by (apply upd_dict_eq; exact Hd). unfold _dictReset.
  erewrite bind_ret_eq by (apply upd_dict_eq; reflexivity).
  erewrite bind_ret_eq by (apply upd_dict_eq; reflexivity). done.
Qed.

(** How much of the first table is left to visit, plus one while rehashing. *)
Definition rehash_left d : Z := if dictIsRehashing d then 1 + hsize (ht0 d) - rehashidx d else 0.

(** Rehashing keeps the contents; it makes progress unless asked for nothing or in a
    forked process; its result tells whether more is left. *)
Lemma dictRehash_ok w d L0 L1 U c : dict_ok type w d L0 L1 U -> exists r w' d' L0' L1',
  dictRehash type c w = Ret r w' /\ dict_ok type w' d' L0' L1' U /\
  concat L0' ++ concat L1' ≡ₚ concat L0 ++ concat L1 /\ iterators d' = iterators d /\ quiet w w' /\
  (table (ht0 d) <> None -> table (ht0 d') <> None) /\
  (g_IsForkedProcess w = false -> dictIsRehashing d' = r) /\
  (g_IsForkedProcess w = false -> c <> 0 -> dictIsRehashing d = true -> rehash_left d' < rehash_left d) /\
  (dictIsRehashing d = false -> w' = w).
Proof.
  intros Hok. pose proof (ok_dict _ _ _ _ _ _ Hok) as Hd. unfold dictRehash. rewrite (bind_ret_eq get _ w w w eq_refl).
  destruct (g_IsForkedProcess w) eqn:Ef; [by exists false, w, d, L0, L1|].
  cbv zeta. rewrite (bind_ret_eq _ _ _ _ _ (the_eq w d Hd)).
  destruct (dictIsRehashing d) eqn:Er; cbn [negb]; [|by exists false, w, d, L0, L1].
  unfold rehash_loop. rewrite bind_assoc, (bind_ret_eq _ _ _ _ _ (the_eq w d Hd)).
  destruct (rehashing_busy _ _ _ _ _ _ Hok Er) as (T0 & _ & Hb & _).
  destruct (rehash_loop_ok U (Datatypes.S (Z.to_nat (hsize (ht0 d)))) w d L0 L1 c (i32 (c * 10)) Hok Er ltac:(lia))
    as (go & w1 & d1 & E & (L01 & L11 & Hok1 & HP1 & Hq1 & Hit1 & Hs1 & Ht1 & Hx1 & Hr1) & Hsame & Hprog & Hno).
  rewrite (bind_ret_eq _ _ _ _ _ E). destruct go.
  - destruct (check_rehashed_ok _ _ _ _ _ Hok1 Hr1) as (r & w' & d' & L0' & L1' & E' & Hok' & HP' & Hit' & Hq' & Ht' & Hr' & Hmore).
    exists r, w', d', L0', L1'. split; [done|]. split; [done|]. split; [by rewrite HP'|]. split; [congruence|].
    split; [by etransitivity|]. split; [done|]. split; [done|]. split; [|done]. intros _ Hc _. unfold rehash_left.
    rewrite Er, Hr'. destruct r; [|lia]. destruct (Hmore eq_refl) as [-> Hu]. rewrite Hs1.
    assert (rehashidx d < rehashidx d1); [|lia]. apply Hprog; [done|]. intros Hu0. by rewrite (Hsame Hu0) in Hu.
  - exists true, w1, d1, L01, L11. split; [done|]. split; [done|]. split; [done|]. split; [done|]. split; [done|].
    split; [by rewrite Ht1|]. split; [done|]. split; [|done]. intros _ Hc _. unfold rehash_left. rewrite Er, Hr1, Hs1.
    specialize (Hno eq_refl). lia.
Qed.
End moving.
