(* ===== verification/DictOps.v ===== *)
(** The hash table of dict.c: finding, adding, replacing, removing, unlinking and
    clearing, each with what it does to the contents. *)
From S2P Require Import Prelude Util Dict DictProofs DictRehash.
#[local] Open Scope Z_scope.

Section ops.
Context {K V : Type} {EK : EqDecision K} (type : dictType K V) {C : Type} {EC : EqDecision C} {CC : Countable C} {DL : DictLaws type C}.
Implicit Types (w : world K V) (l N U R : list (node K V)) (L : list (list (node K V))) (n : node K V) (k : K) (d : dict)
  (E : gmap positive (dictEntry K V)).

(** *** Where the entries are *)

(** Every entry with its key: neither changes while it is stored. *)
Definition identity n : positive * K := (addr n, nkey n).
Definition places L : list (list (positive * K)) := fmap (M := list) identity <$> L.

Lemma places_same L i l l' : L !! i = Some l -> identity <$> l' = identity <$> l -> places (<[i := l']> L) = places L.
Proof. intros Hl E. unfold places. rewrite list_fmap_insert, E. apply list_insert_id. by rewrite list_lookup_fmap, Hl. Qed.

(** From one layout of the entries to another: tables may have been added, then
    an entry, not older than [low], at the head of a bucket. *)
Inductive spread (low : positive) (B0 B1 : list (list (positive * K))) :
    list (list (positive * K)) -> list (list (positive * K)) -> Prop :=
  | spread_wider A0 A1 : widened B0 A0 -> widened B1 A1 -> spread low B0 B1 A0 A1
  | spread_head A0 A1 (t : bool) j x a : widened B0 A0 -> widened B1 A1 -> (if t then A1 else A0) !! j = Some x ->
      (low <= a.1)%positive ->
      spread low B0 B1 (if t then A0 else <[j := a :: x]> A0) (if t then <[j := a :: x]> A1 else A1).

(** No entry has left its place. *)
Record steady w d L0 L1 U w' d' L0' L1' : Prop := {
  st_ok : dict_ok type w' d' L0' L1' U;
  st_spread : spread (brk w) (places L0) (places L1) (places L0') (places L1');
  st_iterators : iterators d' = iterators d;
  st_brk : (brk w <= brk w')%positive
}.
Lemma enlarged_steady w d L0 L1 U w' d' L0' L1' : enlarged type w d L0 L1 U w' d' L0' L1' ->
  steady w d L0 L1 U w' d' L0' L1'.
Proof. intros [Hok H0 H1 Hi _ Hb _]. split; [done| |done|done]. by apply spread_wider; apply widened_fmap. Qed.
Lemma steady_same_places w d L0 L1 U w1 d1 L01 L11 w' d' L0' L1' : steady w d L0 L1 U w1 d1 L01 L11 ->
  dict_ok type w' d' L0' L1' U -> places L0' = places L01 -> places L1' = places L11 -> iterators d' = iterators d1 ->
  brk w' = brk w1 -> steady w d L0 L1 U w' d' L0' L1'.
Proof. intros [_ Hs Hi Hb] Hok E0 E1 Hi' Hb'. split; [done|by rewrite E0, E1|congruence|by rewrite Hb']. Qed.

(** *** Searching, with a step of rehashing *)
Lemma rearranged_trans w d L0 L1 U w1 d1 L01 L11 w' : dict_ok type w1 d1 L01 L11 U ->
  concat L01 ++ concat L11 ≡ₚ concat L0 ++ concat L1 -> iterators d1 = iterators d -> quiet w w1 ->
  (table (ht0 d) <> None -> table (ht0 d1) <> None) -> rearranged type w1 d1 L01 L11 U w' -> rearranged type w d L0 L1 U w'.
Proof.
  intros Hok HP Hit Hq Ht (d' & L0' & L1' & Hok' & HP' & Hit' & Hq' & Ht'). exists d', L0', L1'.
  split; [done|]. split; [by rewrite HP'|]. split; [congruence|]. split; [by etransitivity|]. auto.
Qed.

Lemma step_ok w d L0 L1 U : dict_ok type w d L0 L1 U -> exists w', step_if_rehashing type w = Ret tt w' /\
  rearranged type w d L0 L1 U w'.
Proof.
  intros Hok. pose proof (ok_dict _ _ _ _ _ _ Hok) as Hd. unfold step_if_rehashing, _dictRehashStep.
  rewrite (bind_ret_eq _ _ _ _ _ (the_eq w d Hd)).
  destruct (dictIsRehashing d); [|exists w; split; [done|by apply rearranged_refl]].
  rewrite (bind_ret_eq _ _ _ _ _ (the_eq w d Hd)).
  destruct (iterators d =? 0); [|exists w; split; [done|by apply rearranged_refl]].
  destruct (dictRehash_ok type w d L0 L1 U 1 Hok) as (r & w' & d' & L0' & L1' & E & Hok' & HP & Hit & Hq & Ht & _).
  exists w'. rewrite (bind_ret_eq _ _ _ _ _ E). split; [done|]. by exists d', L0', L1'.
Qed.

Lemma no_table w d L0 L1 U : dict_ok type w d L0 L1 U -> table (ht0 d) = None -> concat L0 ++ concat L1 = [].
Proof.
  intros Hok Ht. pose proof (ok_ht0 _ _ _ _ _ _ Hok) as H0. unfold table_ok in H0. rewrite Ht in H0. destruct H0 as [_ ->].
  destruct (dictIsRehashing d) eqn:Er.
  - by destruct (rehashing_busy _ _ _ _ _ _ Hok Er).
  - by destruct (rehashing_table _ _ _ _ _ _ Hok Er) as [_ ->].
Qed.

(** What a search finds, in any arrangement of the entries. *)
Lemma lookup_rearranged w d L0 L1 U d' L0' L1' w' c : dict_ok type w d L0 L1 U -> dict_ok type w' d' L0' L1' U ->
  concat L0' ++ concat L1' ≡ₚ concat L0 ++ concat L1 ->
  lookup_node type c (concat L0' ++ concat L1') = lookup_node type c (concat L0 ++ concat L1).
Proof. intros Hok Hok' HP. apply lookup_node_perm; [apply (ok_nodes _ _ _ _ _ _ Hok')|done]. Qed.

(** [w1] is the world after the step of rehashing, or [w] where a safe iterator
    prevents it. *)
Definition stepped w d L0 L1 U w1 d1 L01 L11 : Prop :=
  step_if_rehashing type w = Ret tt w1 /\ dict_ok type w1 d1 L01 L11 U /\
  concat L01 ++ concat L11 ≡ₚ concat L0 ++ concat L1 /\ (table (ht0 d) <> None -> table (ht0 d1) <> None).

Lemma stepped_iterating w d L0 L1 U : dict_ok type w d L0 L1 U -> iterators d <> 0 -> stepped w d L0 L1 U w d L0 L1.
Proof.
  intros Hok Hi. pose proof (ok_dict _ _ _ _ _ _ Hok) as Hd. split; [|done]. unfold step_if_rehashing, _dictRehashStep.
  rewrite (bind_ret_eq _ _ _ _ _ (the_eq w d Hd)). destruct (dictIsRehashing d); [|done].
  rewrite (bind_ret_eq _ _ _ _ _ (the_eq w d Hd)). by rewrite (proj2 (Z.eqb_neq _ _) Hi).
Qed.

Lemma find_at w d L0 L1 U w1 d1 L01 L11 k : dict_ok type w d L0 L1 U -> stepped w d L0 L1 U w1 d1 L01 L11 -> exists w',
  dictFind type k w = Ret (addr <$> lookup_node type (content k) (concat L0 ++ concat L1)) w' /\ (w' = w \/ w' = w1).
Proof.
  intros Hok (E & Hok1 & HP & Ht). pose proof (ok_dict _ _ _ _ _ _ Hok) as Hd. unfold dictFind. rewrite (bind_ret_eq _ _ _ _ _ (the_eq w d Hd)).
  destruct (ht0_bounds _ _ _ _ _ _ Hok) as (Hu0 & Hu1 & Eu0 & Eu1 & Hsum). rewrite u64_id by lia.
  destruct (Z.eqb_spec (used (ht0 d) + used (ht1 d)) 0) as [Hz|Hz].
  - exists w. split; [|by left]. rewrite Eu0, Eu1, <- zlen_app in Hz.
    by rewrite (proj1 (length_zero_iff_nil (concat L0 ++ concat L1))) by (unfold zlen in Hz; lia).
  - exists w1. rewrite (bind_ret_eq _ _ _ _ _ E). rewrite <- (lookup_rearranged w d _ _ U d1 _ _ w1 _ Hok Hok1 HP).
    split; [|by right]. apply (search_tables_eq type w1 d1 L01 L11 U k Hok1). apply Ht. intros E0.
    apply Hz. pose proof (no_table _ _ _ _ _ Hok E0) as Hnil. rewrite Eu0, Eu1, <- zlen_app, Hnil. done.
Qed.

(** *** Setting a value *)
Definition with_val (x : V) n : node K V := {| addr := addr n; nkey := nkey n; nval := Some x |}.

Lemma chain_value E p l1 n l2 q x : chain E p (l1 ++ n :: l2) -> NoDup (addr <$> l1 ++ n :: l2) ->
  E !! addr n = Some (entry_of q n) -> chain (<[addr n := entry_of q (with_val x n)]> E) p (l1 ++ with_val x n :: l2).
Proof.
  revert p. induction l1 as [|m l1 IH]; intros p Hc Hd Hq.
  - destruct Hc as [-> (q' & Hn & Hc)]. rewrite Hq in Hn. injection Hn as <-. split; [done|]. exists q.
    rewrite lookup_insert_eq. split; [done|]. cbn in Hd. apply NoDup_cons in Hd as [Hn _]. by apply chain_insert.
  - destruct Hc as [-> (q1 & Hm & Hc)]. cbn in Hd. apply NoDup_cons in Hd as [Hm' Hd]. split; [done|]. exists q1.
    rewrite lookup_insert_ne; [split; [done|by apply IH]|]. intros En. apply Hm'. rewrite <- En, fmap_app.
    apply elem_of_app. right. by left.
Qed.

Lemma find_bucket w d L0 L1 U n : dict_ok type w d L0 L1 U -> n ∈ concat L0 ++ concat L1 ->
  exists t b ps i p l1 l2, table (ht d t) = Some b /\ tables w !! b = Some ps /\ ps !! i = Some p /\
    buckets L0 L1 t !! i = Some (l1 ++ n :: l2) /\ chain (entries w) p (l1 ++ n :: l2).
Proof.
  intros Hok Hn. assert (Hex : exists t i l, buckets L0 L1 t !! i = Some l /\ n ∈ l).
  { apply elem_of_app in Hn as [(i & l & Hi & Hl)%elem_of_concat|(i & l & Hi & Hl)%elem_of_concat];
      [by exists false, i, l|by exists true, i, l]. }
  destruct Hex as (t & i & l & Hi & Hl). apply list_elem_of_split in Hl as (l1 & l2 & ->).
  pose proof (ok_ht _ _ _ _ _ _ t Hok) as Ht. unfold table_ok in Ht.
  destruct (table (ht d t)) as [b|] eqn:Eb; [|by destruct Ht as [_ Ht]; rewrite Ht in Hi].
  destruct Ht as (ps & Hps & Hs). destruct (Forall2_lookup_r _ _ _ _ _ (sh_chains _ _ _ _ _ Hs) Hi) as (p & Hp & Hc).
  by exists t, b, ps, i, p, l1, l2.
Qed.

Lemma nodes_ok_value w w' N n R U q x : nodes_ok type w N U -> N ≡ₚ n :: R -> entries w !! addr n = Some (entry_of q n) ->
  entries w' = <[addr n := entry_of q (with_val x n)]> (entries w) -> nodes_ok type w' (with_val x n :: R) U.
Proof.
  intros Hn HN Hq HE. apply (nodes_ok_perm type _ _ (n :: R) U U) in Hn; [|done|done].
  pose proof Hn as [H1 H2 H3 H4 H5]. split; [done|done| | |done].
  - rewrite HE, dom_insert_lookup_L by by eexists. done.
  - rewrite Forall_forall in H4 |- *. intros m Hm. rewrite HE, lookup_insert_ne; [by apply H4|]. intros Em.
    cbn in H2. apply NoDup_cons in H2 as [H2 _]. apply H2. rewrite Em, fmap_app. apply elem_of_app. right.
    by apply list_elem_of_fmap_2.
Qed.

Lemma set_used_same t d : set_used t (used (ht d t)) d = d.
Proof. by destruct t, d as [[] [] ? ?]. Qed.

Lemma value_ok w d L0 L1 U n R q x w' : dict_ok type w d L0 L1 U -> concat L0 ++ concat L1 ≡ₚ n :: R ->
  entries w !! addr n = Some (entry_of q n) -> the_dict w' = the_dict w -> tables w' = tables w -> brk w' = brk w ->
  entries w' = <[addr n := entry_of q (with_val x n)]> (entries w) -> exists L0' L1',
    dict_ok type w' d L0' L1' U /\ concat L0' ++ concat L1' ≡ₚ with_val x n :: R /\
    places L0' = places L0 /\ places L1' = places L1.
Proof.
  intros Hok HN Hq Hd HT Hb HE. assert (Hn : n ∈ concat L0 ++ concat L1) by (rewrite HN; by left).
  destruct (find_bucket _ _ _ _ _ _ Hok Hn) as (t & b & ps & i & p & l1 & l2 & Hb0 & Hps & Hp & Hl & Hc).
  destruct (bucket_nodes _ _ _ _ _ _ _ _ _ Hok Hl) as (Hnd & Hin & Hre).
  destruct (buckets_perm _ _ _ _ _ Hl) as (R' & HR & HR').
  assert (HRR : R ≡ₚ l1 ++ l2 ++ R').
  { apply (Permutation_cons_inv (a := n)). rewrite <- HN, HR. solve_Permutation. }
  exists (upd0 t i (l1 ++ with_val x n :: l2) L0), (upd1 t i (l1 ++ with_val x n :: l2) L1).
  assert (HP : concat (upd0 t i (l1 ++ with_val x n :: l2) L0) ++ concat (upd1 t i (l1 ++ with_val x n :: l2) L1) ≡ₚ with_val x n :: R).
  { rewrite HR', HRR. solve_Permutation. }
  assert (Haddr : identity <$> l1 ++ with_val x n :: l2 = identity <$> l1 ++ n :: l2) by by rewrite !fmap_app.
  split; [|split; [exact HP|split]].
  2: destruct t; [done|by eapply places_same].
  2: destruct t; [by eapply places_same|done].
  rewrite <- (set_used_same t d).
  eapply (dict_ok_bucket type w d L0 L1 U w' t b ps i p _ (l1 ++ with_val x n :: l2) U _ Hok Hb0 Hps Hl).
  - rewrite (zlen_bucket _ _ _ _ Hl), (proj1 (used_zlen _ _ _ _ _ _ t Hok)). zlen_solve.
  - rewrite set_used_same, Hd. apply Hok.
  - by rewrite (list_insert_id _ _ _ Hp), (insert_id _ _ _ Hps).
  - rewrite HE. by apply chain_value.
  - intros m Hm Hml. rewrite HE, lookup_insert_ne; [done|]. intros Em. apply Hml.
    replace m with n; [apply elem_of_app; right; by left|].
    pose proof (no_addrs _ _ _ _ (ok_nodes _ _ _ _ _ _ Hok)) as Ha. rewrite fmap_app in Ha. apply NoDup_app in Ha as (Ha & _ & _).
    by apply (NoDup_fmap_inj_on addr _ _ _ Ha).
  - pose proof (ok_ht _ _ _ _ _ _ t Hok) as Ht. unfold table_ok in Ht. rewrite Hb0 in Ht. destruct Ht as (ps' & _ & Hs).
    pose proof (sh_placed _ _ _ _ _ Hs i _ Hl) as Hpl. apply Forall_app in Hpl as [P1 P2]. apply Forall_cons in P2 as [P2 P3].
    apply Forall_app. split; [done|]. by constructor.
  - eapply nodes_ok_perm; [symmetry; exact HP|reflexivity|]. eapply nodes_ok_value; [apply Hok|exact HN|exact Hq|done].
  - intros _ ->. destruct (Hre eq_refl) as [?|[E0|?]]; [by left| |done]. by destruct l1.
  - by rewrite Hb.
  - intros a Ha. rewrite HE, dom_insert_lookup_L in Ha by by eexists. rewrite Hb. apply (ok_brk _ _ _ _ _ _ Hok). by left.
Qed.

Lemma node_entry w d L0 L1 U n : dict_ok type w d L0 L1 U -> n ∈ concat L0 ++ concat L1 ->
  exists q, entries w !! addr n = Some (entry_of q n).
Proof.
  intros Hok Hn. destruct (find_bucket _ _ _ _ _ _ Hok Hn) as (t & b & ps & i & p & l1 & l2 & _ & _ & _ & _ & Hc).
  destruct (chain_node _ _ _ _ _ Hc) as (q & Hq & _). by exists q.
Qed.

Lemma set_val_ok w d L0 L1 U n R x : dict_ok type w d L0 L1 U -> concat L0 ++ concat L1 ≡ₚ n :: R -> exists w' L0' L1',
  dictSetVal type (addr n) x w = Ret tt w' /\ dict_ok type w' d L0' L1' U /\
  concat L0' ++ concat L1' ≡ₚ with_val (dup_val type x) n :: R /\ quiet w w' /\ brk w' = brk w /\
  places L0' = places L0 /\ places L1' = places L1.
Proof.
  intros Hok HN. destruct (node_entry _ _ _ _ _ n Hok) as (q & Hq); [rewrite HN; by left|].
  destruct (value_ok w d L0 L1 U n R q (dup_val type x)
    (with_entries (<[addr n := entry_of q (with_val (dup_val type x) n)]> (entries w)) w)) as (L0' & L1' & Hok' & HP & HB); [done..|].
  eexists _, L0', L1'. split; [|split; [exact Hok'|split; [exact HP|by destruct HB]]]. unfold dictSetVal.
  rewrite (bind_ret_eq _ _ _ _ _ (load_entry w _ _ Hq)). apply (save_eq w _ _ _ Hq).
Qed.

(** *** Adding *)
Definition new_node (a : positive) k : node K V := {| addr := a; nkey := dup_key type k; nval := None |}.

(** A new entry becomes the head of bucket [i] of the table that takes them. *)
Lemma link_new_ok w d L0 L1 U k b ps i l head : dict_ok type w d L0 L1 U -> let t := dictIsRehashing d in
  table (ht d t) = Some b -> tables w !! b = Some ps -> ps !! i = Some head -> buckets L0 L1 t !! i = Some l ->
  Z.of_nat i = slot type (hsize (ht d t)) k -> lookup_node type (content k) (concat L0 ++ concat L1) = None ->
  zlen (concat L0 ++ concat L1) < 2 ^ 59 -> exists w' d' a,
    (let* entry := new_entry {| key := dup_key type k; v := None; next := head |} in
     set_bucket (Some b) (Z.of_nat i) (Some entry) ;;; add_used t 1 ;;; ret (Some entry, None : option positive)) w
      = Ret (Some a, None) w' /\ dict_ok type w' d' (upd0 t i (new_node a k :: l) L0) (upd1 t i (new_node a k :: l) L1) U /\
    iterators d' = iterators d /\ quiet w w' /\ (brk w <= a < brk w')%positive.
Proof.
  intros Hok t Hb Hps Hp Hl Hi Hnone Hfew. set (n := new_node (brk w) k).
  set (w1 := with_brk (Pos.succ (brk w)) (with_entries (<[brk w := entry_of head n]> (entries w)) w)).
  assert (Hok1 : dict_ok type w1 d L0 L1 (n :: U)) by by eapply (new_ok type w d L0 L1 U w1 n head).
  destruct (used_zlen _ _ _ _ _ _ t Hok) as [_ Hu].
  set (w' := with_the_dict (Some (set_used t (used (ht d t) + 1) d))
               (with_tables (<[b := <[i := Some (brk w)]> ps]> (tables w)) w1)).
  assert (Hslot : slot type (hsize (ht d t)) (nkey n) = Z.of_nat i).
  { rewrite Hi. unfold slot. change (nkey n) with (dup_key type k). f_equal. apply hash_content, dup_content. }
  assert (Hok' : dict_ok type w' (set_used t (used (ht d t) + 1) d) (upd0 t i (n :: l) L0) (upd1 t i (n :: l) L1) U).
  { eapply (link_ok type w1 d L0 L1 U w' t b ps i l n head Hok1); try done.
    - intros Ht. destruct (rehashing_table _ _ _ _ _ _ Hok Ht) as [Ht1 _]. unfold t, dictIsRehashing in Ht.
      apply negb_false_iff, Z.eqb_eq in Ht. lia.
    - intros m Hm. cbn. rewrite dup_content. by apply lookup_node_None with (n := m) in Hnone.
    - cbn. by rewrite insert_insert_eq. }
  exists w', (set_used t (used (ht d t) + 1) d), (brk w).
  split; [|split; [done|split; [by destruct t|split; [done|cbn; lia]]]].
  unfold new_entry. unfold bind at 1. fold w1.
  rewrite (bind_ret_eq _ _ _ _ _ (set_bucket_eq w1 b ps i (Some (brk w)) Hps (lookup_lt_Some _ _ _ Hp))).
  erewrite bind_ret_eq by (apply add_used_eq; [apply (ok_dict _ _ _ _ _ _ Hok)|lia]). done.
Qed.

Lemma inserted_steady w d L0 L1 U w1 d1 L01 L11 t i l n w' d' : enlarged type w d L0 L1 U w1 d1 L01 L11 ->
  buckets L01 L11 t !! i = Some l -> dict_ok type w' d' (upd0 t i (n :: l) L01) (upd1 t i (n :: l) L11) U ->
  iterators d' = iterators d1 -> (brk w1 <= addr n < brk w')%positive ->
  steady w d L0 L1 U w' d' (upd0 t i (n :: l) L01) (upd1 t i (n :: l) L11).
Proof.
  intros Hen Hl Hok' Hit Ha. pose proof (en_brk _ _ _ _ _ _ _ _ _ _ Hen). pose proof (en_iterators _ _ _ _ _ _ _ _ _ _ Hen).
  split; [done| |congruence|lia].
  assert (Hx : (if t then places L11 else places L01) !! i = Some (identity <$> l)).
  { unfold places. destruct t; cbn in Hl; by rewrite list_lookup_fmap, Hl. }
  pose proof (spread_head (brk w) (places L0) (places L1) _ _ t i _ (identity n)
    (widened_fmap identity _ _ (en_first _ _ _ _ _ _ _ _ _ _ Hen)) (widened_fmap identity _ _ (en_second _ _ _ _ _ _ _ _ _ _ Hen)) Hx ltac:(cbn; lia)) as Hs.
  unfold places in *. destruct t; cbn [upd0 upd1]; by rewrite list_fmap_insert.
Qed.

Lemma new_table_exists w d L0 L1 U : dict_ok type w d L0 L1 U -> table (ht0 d) <> None ->
  exists b ps, table (ht d (dictIsRehashing d)) = Some b /\ tables w !! b = Some ps /\
    shape type (entries w) (ht d (dictIsRehashing d)) ps (buckets L0 L1 (dictIsRehashing d)).
Proof.
  intros Hok Ht0. pose proof (ok_ht _ _ _ _ _ _ (dictIsRehashing d) Hok) as Ht.
  assert (table (ht d (dictIsRehashing d)) <> None).
  { destruct (dictIsRehashing d) eqn:Er; [|done]. by apply (rehashing_busy _ _ _ _ _ _ Hok Er). }
  unfold table_ok in Ht. destruct (table (ht d (dictIsRehashing d))) as [b|]; [|done].
  destruct Ht as (ps & Hps & Hs). by exists b, ps.
Qed.

Lemma add_raw_at w d0 M0 M1 w1 d L0 L1 U k : stepped w d0 M0 M1 U w1 d L0 L1 -> zlen (concat L0 ++ concat L1) < 2 ^ 59 ->
  match lookup_node type (content k) (concat L0 ++ concat L1) with
  | Some n => exists w' d' L0' L1', dictAddRaw type k w = Ret (None, Some (addr n)) w' /\
      enlarged type w1 d L0 L1 U w' d' L0' L1'
  | None => exists w' d' L0' L1' a, dictAddRaw type k w = Ret (Some a, None) w' /\ steady w1 d L0 L1 U w' d' L0' L1' /\
      concat L0' ++ concat L1' ≡ₚ new_node a k :: (concat L0 ++ concat L1) /\ quiet w1 w'
  end.
Proof.
  intros (E1 & Hok & _) Hfew. destruct (expandIfNeeded_ok _ _ _ _ _ _ Hok) as (w2 & d2 & L02 & L12 & E2 & Hen & Ht2).
  pose proof (en_ok _ _ _ _ _ _ _ _ _ _ Hen) as Hok2. pose proof (search_tables_eq _ _ _ _ _ _ k Hok2 Ht2) as E3.
  rewrite (enlarged_concat _ _ _ _ _ _ _ _ _ _ Hen) in E3.
  unfold dictAddRaw. rewrite (bind_ret_eq _ _ _ _ _ E1). unfold _dictKeyIndex. rewrite bind_assoc, (bind_ret_eq _ _ _ _ _ E2).
  cbn [Z.eqb DICT_OK DICT_ERR]. rewrite bind_assoc, (bind_ret_eq _ _ _ _ _ E3).
  destruct (lookup_node type (content k) (concat L0 ++ concat L1)) as [n|] eqn:En; cbn [fmap option_fmap option_map].
  { by exists w2, d2, L02, L12. }
  rewrite bind_assoc, (bind_ret_eq _ _ _ _ _ (the_eq w2 d2 (ok_dict _ _ _ _ _ _ Hok2))).
  destruct (new_table_exists _ _ _ _ _ Hok2 Ht2) as (b & ps & Hb & Hps & Hs).
  destruct (shape_bucket _ _ _ _ _ k Hs) as (i & head & l & Hi & Hhead & Hl & _).
  unfold dictHashKey. unfold bind at 1, ret at 1. cbv beta iota.
  rewrite (proj1 (shape_index _ _ _ _ _ k Hs)), <- Hi, (proj2 (Z.eqb_neq _ (-1))) by lia.
  rewrite (bind_ret_eq _ _ _ _ _ (the_eq w2 d2 (ok_dict _ _ _ _ _ _ Hok2))). cbv zeta. rewrite Hb.
  rewrite (bind_ret_eq _ _ _ _ _ (bucket_eq w2 b ps i head Hps Hhead)).
  rewrite <- (enlarged_concat _ _ _ _ _ _ _ _ _ _ Hen) in En, Hfew |- *.
  destruct (link_new_ok w2 d2 L02 L12 U k b ps i l head Hok2 Hb Hps Hhead Hl Hi En Hfew) as (w' & d' & a & E & Hok' & Hit & Hq & Ha).
  destruct (buckets_perm _ i l L02 L12 Hl) as (R & HR & HR'). do 2 eexists. eexists _, _, a. split; [exact E|].
  split; [by eapply inserted_steady|]. split; [by rewrite HR', HR|]. transitivity w2; [apply Hen|done].
Qed.

Lemma lookup_node_head c n N : content (nkey n) = c -> lookup_node type c (n :: N) = Some n.
Proof. intros E. cbn. by rewrite bool_decide_true. Qed.

Lemma lookup_split c N n : lookup_node type c N = Some n -> exists R, N ≡ₚ n :: R.
Proof.
  intros E. apply List.find_some in E as [Hn _]. apply list_elem_of_In, list_elem_of_split in Hn as (l1 & l2 & ->).
  exists (l1 ++ l2). solve_Permutation.
Qed.

(** What the destructors were called with, the last call first. *)
Definition key_log (k : K) : list K := if keyDestructor type then [k] else [].
Definition val_log (x : V) : list V := if valDestructor type then [x] else [].
Definition logged (ks : list K) (xs : list V) w w' : Prop :=
  freed_keys w' = ks ++ freed_keys w /\ freed_vals w' = xs ++ freed_vals w /\ same_rest w w'.
Lemma logged_quiet w w' : logged [] [] w w' <-> quiet w w'.
Proof. done. Qed.
Lemma logged_trans ks xs ks' xs' w w1 w' : logged ks xs w w1 -> logged ks' xs' w1 w' -> logged (ks' ++ ks) (xs' ++ xs) w w'.
Proof.
  intros (H1 & H2 & H3) (H4 & H5 & H6). split_and!; [by rewrite H4, H1, app_assoc|by rewrite H5, H2, app_assoc|by etransitivity].
Qed.

(** The value of a new entry. *)
Lemma set_new_ok w d L0 L1 U w1 d1 L01 L11 n R x : steady w d L0 L1 U w1 d1 L01 L11 -> concat L01 ++ concat L11 ≡ₚ n :: R ->
  exists w' L0' L1', dictSetVal type (addr n) x w1 = Ret tt w' /\ steady w d L0 L1 U w' d1 L0' L1' /\
    concat L0' ++ concat L1' ≡ₚ with_val (dup_val type x) n :: R /\ quiet w1 w'.
Proof.
  intros Hst HN. destruct (set_val_ok w1 d1 L01 L11 U n R x (st_ok _ _ _ _ _ _ _ _ _ Hst) HN)
    as (w' & L0' & L1' & E & Hok' & HP & Hq & Hb & H0 & H1).
  exists w', L0', L1'. split; [done|]. split; [by eapply steady_same_places|done].
Qed.

Lemma add_at w d0 M0 M1 w1 d L0 L1 U k x : stepped w d0 M0 M1 U w1 d L0 L1 -> zlen (concat L0 ++ concat L1) < 2 ^ 59 ->
  match lookup_node type (content k) (concat L0 ++ concat L1) with
  | Some n => exists w' d' L0' L1', dictAdd type k x w = Ret DICT_ERR w' /\ enlarged type w1 d L0 L1 U w' d' L0' L1'
  | None => exists w' d' L0' L1' a, dictAdd type k x w = Ret DICT_OK w' /\ steady w1 d L0 L1 U w' d' L0' L1' /\
      concat L0' ++ concat L1' ≡ₚ with_val (dup_val type x) (new_node a k) :: (concat L0 ++ concat L1) /\ quiet w1 w'
  end.
Proof.
  intros Hst Hfew. pose proof (add_raw_at _ _ _ _ _ _ _ _ _ k Hst Hfew) as Hadd. unfold dictAdd.
  destruct (lookup_node type (content k) (concat L0 ++ concat L1)) as [n|].
  - destruct Hadd as (w' & d' & L0' & L1' & E & Hen). exists w', d', L0', L1'. by rewrite (bind_ret_eq _ _ _ _ _ E).
  - destruct Hadd as (w2 & d2 & L02 & L12 & a & E & Hs & HP & Hq).
    destruct (set_new_ok _ _ _ _ _ _ _ _ _ _ _ x Hs HP) as (w' & L0' & L1' & E' & Hs' & HP' & Hq').
    exists w', d2, L0', L1', a. rewrite (bind_ret_eq _ _ _ _ _ E), (bind_ret_eq _ _ _ _ _ E').
    split_and!; try done. by transitivity w2.
Qed.

Lemma free_val_eq w x e : v e = Some x ->
  dictFreeVal type e w = Ret tt (with_freed (freed_keys w) (val_log x ++ freed_vals w) w).
Proof.
  intros E. unfold dictFreeVal, val_log. destruct (valDestructor type).
  - by rewrite E.
  - by destruct w.
Qed.
Lemma free_key_eq w e : dictFreeKey type e w = Ret tt (with_freed (key_log (key e) ++ freed_keys w) (freed_vals w) w).
Proof. unfold dictFreeKey, key_log. destruct (keyDestructor type); [done|by destruct w]. Qed.

Lemma dict_ok_logs {g} w d L0 L1 U ks xs : dict_inv (g := g) type w d L0 L1 U -> dict_inv (g := g) type (with_freed ks xs w) d L0 L1 U.
Proof.
  intros Hok. eapply dict_ok_entries; [exact Hok|done..| |done|].
  - by eapply nodes_ok_frame, Hok.
  - intros a Ha. apply (ok_brk _ _ _ _ _ _ Hok). by left.
Qed.

(** Replacing: the new value is set before the old one is released. *)
Lemma replace_at w d0 M0 M1 w1 d L0 L1 U k x : stepped w d0 M0 M1 U w1 d L0 L1 -> zlen (concat L0 ++ concat L1) < 2 ^ 59 ->
  match lookup_node type (content k) (concat L0 ++ concat L1) with
  | Some n => forall y R, nval n = Some y -> concat L0 ++ concat L1 ≡ₚ n :: R ->
      exists w' d' L0' L1', dictReplace type k x w = Ret 0 w' /\ steady w1 d L0 L1 U w' d' L0' L1' /\
        concat L0' ++ concat L1' ≡ₚ with_val (dup_val type x) n :: R /\ logged [] (val_log y) w1 w'
  | None => exists w' d' L0' L1' a, dictReplace type k x w = Ret 1 w' /\ steady w1 d L0 L1 U w' d' L0' L1' /\
      concat L0' ++ concat L1' ≡ₚ with_val (dup_val type x) (new_node a k) :: (concat L0 ++ concat L1) /\ quiet w1 w'
  end.
Proof.
  intros Hst Hfew. pose proof (add_raw_at _ _ _ _ _ _ _ _ _ k Hst Hfew) as Hadd. unfold dictReplace.
  destruct (lookup_node type (content k) (concat L0 ++ concat L1)) as [n|].
  - intros y R Hy HN. destruct Hadd as (w2 & d2 & L02 & L12 & E & Hen).
    rewrite <- (enlarged_concat _ _ _ _ _ _ _ _ _ _ Hen) in HN.
    destruct (node_entry _ _ _ _ _ n (en_ok _ _ _ _ _ _ _ _ _ _ Hen)) as (q & Hl); [rewrite HN; by left|].
    destruct (set_new_ok _ _ _ _ _ _ _ _ _ _ _ x (enlarged_steady _ _ _ _ _ _ _ _ _ Hen) HN) as (w3 & L0' & L1' & E' & Hs & HP' & Hq').
    eexists _, d2, L0', L1'. rewrite (bind_ret_eq _ _ _ _ _ E), (bind_ret_eq _ _ _ _ _ (load_entry w2 _ _ Hl)).
    rewrite (bind_ret_eq _ _ _ _ _ E'). erewrite bind_ret_eq by (apply free_val_eq; exact Hy).
    pose proof (en_quiet _ _ _ _ _ _ _ _ _ _ Hen) as (Q1 & Q2 & Q3). destruct Hq' as (Q4 & Q5 & Q6).
    split; [done|]. split; [|split; [done|]].
    + eapply steady_same_places; [exact Hs|apply dict_ok_logs; apply Hs|done..].
    + split; [cbn; congruence|]. split; [cbn; congruence|by transitivity w2].
  - destruct Hadd as (w2 & d2 & L02 & L12 & a & E & Hs & HP & Hq).
    destruct (set_new_ok _ _ _ _ _ _ _ _ _ _ _ x Hs HP) as (w' & L0' & L1' & E' & Hs' & HP' & Hq').
    exists w', d2, L0', L1', a. rewrite (bind_ret_eq _ _ _ _ _ E), (bind_ret_eq _ _ _ _ _ E').
    split_and!; try done. by transitivity w2.
Qed.

(** *** Releasing an entry *)
Definition released n x w : world K V :=
  with_freed (key_log (nkey n) ++ freed_keys w) (val_log x ++ freed_vals w) (with_entries (delete (addr n) (entries w)) w).

Lemma release_entry_eq w n q x : entries w !! addr n = Some (entry_of q n) -> nval n = Some x ->
  release_entry type (addr n) w = Ret tt (released n x w).
Proof.
  intros Hq Hx. unfold release_entry. rewrite (bind_ret_eq _ _ _ _ _ (load_entry w _ _ Hq)).
  rewrite (bind_ret_eq _ _ _ _ _ (free_key_eq w _)). erewrite bind_ret_eq by (apply free_val_eq; exact Hx).
  unfold free_entry. cbn [entries with_freed]. by rewrite Hq.
Qed.

Lemma released_ok {g} w d L0 L1 U n x : dict_inv (g := g) type w d L0 L1 (n :: U) -> dict_inv (g := g) type (released n x w) d L0 L1 U.
Proof.
  intros Hok. apply dict_ok_logs. by eapply (free_ok type w d L0 L1 U _ n Hok).
Qed.

Lemma unlinked_entry {g} w d L0 L1 U n : dict_inv (g := g) type w d L0 L1 (n :: U) -> exists q, entries w !! addr n = Some (entry_of q n).
Proof. intros Hok. pose proof (no_unlinked _ _ _ _ (ok_nodes _ _ _ _ _ _ Hok)) as HU. by apply Forall_cons in HU as [? _]. Qed.

Lemma free_unlinked_ok w d L0 L1 U n x : dict_ok type w d L0 L1 (n :: U) -> nval n = Some x -> exists w',
  dictFreeUnlinkedEntry type (Some (addr n)) w = Ret tt w' /\ dict_ok type w' d L0 L1 U /\
  logged (key_log (nkey n)) (val_log x) w w'.
Proof.
  intros Hok Hx. destruct (unlinked_entry _ _ _ _ _ _ Hok) as (q & Hq). exists (released n x w).
  split; [by eapply release_entry_eq|]. split; [by apply released_ok|done].
Qed.

(** *** Removing *)

(** What [delete_turn] does with the entry that was found. *)
Definition remove_found (idx : Z) (nofree t : bool) (prevHe : option positive) (e : dictEntry K V) (p : positive)
    : M (world K V) (option positive * option positive + option positive) :=
  let* d := the in
  unlink (table (ht d t)) idx prevHe e ;;;
  (if negb nofree then release_entry type p else ret tt) ;;;
  add_used t (-1) ;;;
  ret (inr (Some p)).

Lemma delete_loop_eq w k idx nofree t l : forall m l1 p, (length l < m)%nat -> chain (entries w) p l ->
  (lookup_node type (content k) l = None /\
     while_loop m (delete_turn type k idx nofree t) (addr <$> last l1, p) w = Ret None w) \/
  (exists l' n l2 q, l = l' ++ n :: l2 /\ lookup_node type (content k) l = Some n /\ entries w !! addr n = Some (entry_of q n) /\
     forall b w', remove_found idx nofree t (addr <$> last (l1 ++ l')) (entry_of q n) (addr n) w = Ret (inr b) w' ->
       while_loop m (delete_turn type k idx nofree t) (addr <$> last l1, p) w = Ret b w').
Proof.
  induction l as [|n l IH]; intros m l1 p Hm Hc; (destruct m as [|m]; [cbn in Hm; lia|]); cbn [while_loop].
  - left. cbn in Hc. by subst p.
  - destruct Hc as [-> (q & Hq & Hc)]. unfold delete_turn at 1. rewrite !bind_assoc, (bind_ret_eq _ _ _ _ _ (load_entry w _ _ Hq)).
    cbn [key next]. rewrite (same_key_content type). cbn [lookup_node List.find]. case_bool_decide as Ec.
    + right. exists [], n, l, q. do 3 (split; [done|]). intros b w' E. rewrite app_nil_r in E. unfold delete_turn at 1.
      rewrite bind_assoc, (bind_ret_eq _ _ _ _ _ (load_entry w _ _ Hq)). cbn [key next].
      rewrite (same_key_content type), bool_decide_true by done. unfold remove_found in E. by rewrite (bind_ret_eq _ _ _ _ _ E).
    + destruct (IH m (l1 ++ [n]) q ltac:(cbn in Hm; lia) Hc) as [[En E]|(l' & n' & l2 & q' & -> & En & Hq' & E)];
        rewrite last_snoc in E; cbn [fmap option_fmap option_map] in E.
      * left. split; [done|exact E].
      * right. exists (n :: l'), n', l2, q'. do 3 (split; [done|]). intros b w' Er. unfold delete_turn at 1.
        rewrite bind_assoc, (bind_ret_eq _ _ _ _ _ (load_entry w _ _ Hq)). cbn [key next].
        rewrite (same_key_content type), bool_decide_false by done.
        apply E. by rewrite <- app_assoc.
Qed.

Definition unlinked (b : positive) (ps : list (option positive)) (i : nat) l1 (q : option positive) w : world K V :=
  match last l1 with
  | None => with_tables (<[b := <[i := q]> ps]> (tables w)) w
  | Some m => with_entries (<[addr m := entry_of q m]> (entries w)) w
  end.

Lemma unlink_eq w b ps i l1 n l2 p q : tables w !! b = Some ps -> (i < length ps)%nat -> chain (entries w) p (l1 ++ n :: l2) ->
  unlink (Some b) (Z.of_nat i) (addr <$> last l1) (entry_of q n) w = Ret tt (unlinked b ps i l1 q w).
Proof.
  intros Hps Hi Hc. unfold unlink, unlinked. destruct (last l1) as [m|] eqn:El; cbn [fmap option_fmap option_map].
  - apply last_Some in El as [l0 ->]. rewrite <- app_assoc in Hc. destruct (chain_node _ _ l0 m _ Hc) as (qm & Hm & _).
    rewrite (bind_ret_eq _ _ _ _ _ (load_entry w _ _ Hm)). by rewrite (save_eq w _ _ _ Hm).
  - by apply set_bucket_eq.
Qed.

Lemma remove_found_ok w d L0 L1 U t b ps i p l1 n l2 q x nofree : dict_ok type w d L0 L1 U -> table (ht d t) = Some b ->
  tables w !! b = Some ps -> ps !! i = Some p -> buckets L0 L1 t !! i = Some (l1 ++ n :: l2) ->
  chain (entries w) p (l1 ++ n :: l2) -> entries w !! addr n = Some (entry_of q n) -> nval n = Some x ->
  exists w', remove_found (Z.of_nat i) nofree t (addr <$> last l1) (entry_of q n) (addr n) w
      = Ret (inr (Some (addr n))) w' /\
    dict_ok type w' (set_used t (used (ht d t) - 1) d) (upd0 t i (l1 ++ l2) L0) (upd1 t i (l1 ++ l2) L1)
      (if nofree then n :: U else U) /\ brk w' = brk w /\
    (if nofree then quiet w w' else logged (key_log (nkey n)) (val_log x) w w').
Proof.
  intros Hok Hb Hps Hp Hl Hc Hq Hx. pose proof (ok_dict _ _ _ _ _ _ Hok) as Hd.
  set (wu := unlinked b ps i l1 q w). set (d' := set_used t (used (ht d t) - 1) d).
  assert (Hsame : the_dict wu = Some d /\ freed_keys wu = freed_keys w /\ freed_vals wu = freed_vals w /\ same_rest w wu
    /\ brk wu = brk w) by (unfold wu, unlinked; by destruct (last l1)).
  destruct Hsame as (Hdu & Hk & Hv & Hr & Hbrk).
  assert (Hok' : dict_ok type (with_the_dict (Some d') wu) d' (upd0 t i (l1 ++ l2) L0) (upd1 t i (l1 ++ l2) L1) (n :: U)).
  { eapply (unlink_ok type w d L0 L1 U _ t b ps i l1 n l2 q); try done. unfold wu, unlinked. by destruct (last l1). }
  destruct (unlinked_entry _ _ _ _ _ _ Hok') as (q' & Hq').
  destruct (used_zlen _ _ _ _ _ _ t Hok) as [Eu Hu]. pose proof (zlen_bucket _ _ _ (l1 ++ l2) Hl) as Hz. rewrite <- Eu in Hz.
  pose proof (zlen_nonneg (concat (<[i:=l1 ++ l2]> (buckets L0 L1 t)))). rewrite !zlen_app, zlen_cons in Hz.
  exists (with_the_dict (Some d') (if nofree then wu else released n x wu)). split; [|split; [|split]].
  - unfold remove_found. rewrite (bind_ret_eq _ _ _ _ _ (the_eq w d Hd)), Hb.
    rewrite (bind_ret_eq _ _ _ _ _ (unlink_eq w b ps i l1 n l2 p q Hps (lookup_lt_Some _ _ _ Hp) Hc)). fold wu.
    assert (E : (if negb nofree then release_entry type (addr n) else ret tt) wu = Ret tt (if nofree then wu else released n x wu)).
    { destruct nofree; [done|]. by apply (release_entry_eq wu n q' x). }
    rewrite (bind_ret_eq _ _ _ _ _ E). erewrite bind_ret_eq; [done|]. rewrite (add_used_eq _ d).
    + done.
    + by destruct nofree.
    + lia.
  - destruct nofree; [done|]. apply (released_ok (with_the_dict (Some d') wu) d' _ _ U n x Hok').
  - by destruct nofree.
  - destruct nofree; [done|]. split; [cbn; by rewrite Hk|]. split; [cbn; by rewrite Hv|]. done.
Qed.

(** The world without the node [n], and what is known of it. *)
Definition deleted w d L0 L1 U n (x : V) (nofree : bool) w' : Prop := exists t i l1 l2,
  buckets L0 L1 t !! i = Some (l1 ++ n :: l2) /\
  dict_ok type w' (set_used t (used (ht d t) - 1) d) (upd0 t i (l1 ++ l2) L0) (upd1 t i (l1 ++ l2) L1)
    (if nofree then n :: U else U) /\ brk w' = brk w /\
  (if nofree then quiet w w' else logged (key_log (nkey n)) (val_log x) w w').

Lemma deleted_perm w d L0 L1 U n x nofree w' : deleted w d L0 L1 U n x nofree w' -> exists d' L0' L1',
  dict_ok type w' d' L0' L1' (if nofree then n :: U else U) /\
  concat L0 ++ concat L1 ≡ₚ n :: (concat L0' ++ concat L1') /\ iterators d' = iterators d /\
  (if nofree then quiet w w' else logged (key_log (nkey n)) (val_log x) w w').
Proof.
  intros (t & i & l1 & l2 & Hl & Hok & _ & Hlog). do 3 eexists. split; [exact Hok|]. split; [|split; [by destruct t|done]].
  destruct (buckets_perm _ _ _ _ _ Hl) as (R & HR & HR'). rewrite HR, HR'. solve_Permutation.
Qed.

Lemma delete_from_ok w d L0 L1 U t k nofree : dict_ok type w d L0 L1 U -> table (ht d t) <> None ->
  match lookup_node type (content k) (concat (buckets L0 L1 t)) with
  | None => delete_from type k (dictHashKey type k) nofree t w = Ret None w
  | Some n => forall x, nval n = Some x -> exists w', deleted w d L0 L1 U n x nofree w' /\
      delete_from type k (dictHashKey type k) nofree t w = Ret (Some (addr n)) w'
  end.
Proof.
  intros Hok Ht. pose proof (ok_ht _ _ _ _ _ _ t Hok) as Htab. unfold table_ok in Htab.
  destruct (table (ht d t)) as [b|] eqn:Eb; [|done]. destruct Htab as (ps & Hps & Hs).
  destruct (nodes_buckets _ _ _ _ _ _ Hok) as (_ & _ & Hc0 & Hc1).
  assert (Hc : NoDup ((fun n => content (nkey n)) <$> concat (buckets L0 L1 t))) by by destruct t.
  destruct (shape_bucket _ _ _ _ _ k Hs) as (i & p & l & Hi & Hp & Hl & Hch).
  destruct (bucket_nodes _ _ _ _ _ _ _ _ _ Hok Hl) as (Hnd & _ & _).
  rewrite <- (lookup_node_slot _ _ _ _ _ _ _ _ Hs Hi Hl Hc).
  assert (E : delete_from type k (dictHashKey type k) nofree t w =
    while_loop (Datatypes.S (base.size (entries w))) (delete_turn type k (Z.of_nat i) nofree t) (None, p) w).
  { unfold delete_from. rewrite (bind_ret_eq _ _ _ _ _ (the_eq w d (ok_dict _ _ _ _ _ _ Hok))), Eb.
    unfold dictHashKey. cbv zeta. rewrite (proj1 (shape_index _ _ _ _ _ k Hs)), <- Hi.
    rewrite (bind_ret_eq _ _ _ _ _ (bucket_eq w b ps i p Hps Hp)). unfold chain_fuel.
    by erewrite bind_ret_eq by (erewrite bind_ret_eq by reflexivity; reflexivity). }
  rewrite E. pose proof (chain_short _ _ _ Hch Hnd) as Hfuel.
  destruct (delete_loop_eq w k (Z.of_nat i) nofree t l (Datatypes.S (base.size (entries w))) [] p ltac:(lia) Hch)
    as [[-> E']|(l1 & n & l2 & q & -> & -> & Hq & E')]; [done|].
  intros x Hx. cbn [app] in E'.
  destruct (remove_found_ok w d L0 L1 U t b ps i p l1 n l2 q x nofree) as (w' & Er & Hrest); [done..|].
  exists w'. split; [|by apply E']. by exists t, i, l1, l2.
Qed.

(** The search through both tables. *)
Lemma generic_delete_at w d0 M0 M1 w1 d L0 L1 U k nofree : dict_ok type w d0 M0 M1 U -> stepped w d0 M0 M1 U w1 d L0 L1 ->
  match lookup_node type (content k) (concat L0 ++ concat L1) with
  | None => exists w', dictGenericDelete type k nofree w = Ret None w' /\ (w' = w \/ w' = w1)
  | Some n => forall x, nval n = Some x -> exists w',
      dictGenericDelete type k nofree w = Ret (Some (addr n)) w' /\ deleted w1 d L0 L1 U n x nofree w'
  end.
Proof.
  intros Hok0 (E & Hok & HP & Ht). unfold dictGenericDelete.
  rewrite (bind_ret_eq _ _ _ _ _ (the_eq w d0 (ok_dict _ _ _ _ _ _ Hok0))). destruct (ht0_bounds _ _ _ _ _ _ Hok0) as (_ & _ & Eu0 & Eu1 & _).
  destruct ((used (ht0 d0) =? 0) && (used (ht1 d0) =? 0)) eqn:Ez.
  { apply andb_true_iff in Ez as [E0%Z.eqb_eq E1%Z.eqb_eq]. rewrite E0 in Eu0. rewrite E1 in Eu1.
    rewrite (proj1 (length_zero_iff_nil (concat L0 ++ concat L1))); [|rewrite HP, length_app; unfold zlen in *; lia].
    exists w. split; [done|by left]. }
  assert (Ht0 : table (ht0 d) <> None).
  { apply Ht. intros E0. pose proof (no_table _ _ _ _ _ Hok0 E0) as Hnil. apply app_eq_nil in Hnil as [N0 N1].
    rewrite N0 in Eu0. rewrite N1 in Eu1. by rewrite Eu0, Eu1 in Ez. }
  rewrite (bind_ret_eq _ _ _ _ _ E). cbv zeta. rewrite lookup_node_app.
  pose proof (delete_from_ok w1 d L0 L1 U false k nofree Hok Ht0) as H0. cbn [buckets] in H0.
  destruct (lookup_node type (content k) (concat L0)) as [n|].
  - intros x Hx. destruct (H0 x Hx) as (w' & Hdel & E'). exists w'. by rewrite (bind_ret_eq _ _ _ _ _ E').
  - rewrite (bind_ret_eq _ _ _ _ _ H0), (bind_ret_eq _ _ _ _ _ (the_eq w1 d (ok_dict _ _ _ _ _ _ Hok))).
    destruct (dictIsRehashing d) eqn:Er; cbn [negb].
    + pose proof (delete_from_ok w1 d L0 L1 U true k nofree Hok) as H1. cbn [buckets ht] in H1.
      specialize (H1 ltac:(by apply (rehashing_busy _ _ _ _ _ _ Hok Er))).
      destruct (lookup_node type (content k) (concat L1)) as [n|].
      * intros x Hx. destruct (H1 x Hx) as (w' & Hdel & E'). by exists w'.
      * exists w1. split; [done|by right].
    + destruct (rehashing_table _ _ _ _ _ _ Hok Er) as [_ ->]. cbn. exists w1. split; [done|by right].
Qed.
End ops.
