(* ===== verification/DictClear.v ===== *)
(** The hash table of dict.c: emptying and releasing a dictionary. Every entry is
    released once, with its key and its value, and so are the tables. *)
From S2P Require Import Prelude Util Dict DictProofs DictRehash DictOps.
#[local] Open Scope Z_scope.

Section clear.
Context {K V : Type} {EK : EqDecision K} (type : dictType K V) {C : Type} {EC : EqDecision C} {CC : Countable C} {DL : DictLaws type C}.
Implicit Types (w : world K V) (l N U : list (node K V)) (L : list (list (node K V))) (n : node K V) (d : dict).

(** The destructors were called for the nodes [N], each once. *)
Definition freed N w w' : Prop :=
  freed_keys w' ≡ₚ (if keyDestructor type then nkey <$> N else []) ++ freed_keys w /\
  freed_vals w' ≡ₚ (if valDestructor type then omap nval N else []) ++ freed_vals w /\ same_rest w w'.

Lemma freed_nil w w' : quiet w w' -> freed [] w w'.
Proof. intros (H1 & H2 & H3). unfold freed. rewrite H1, H2. by destruct (keyDestructor type), (valDestructor type). Qed.
Lemma freed_perm N N' w w' : N ≡ₚ N' -> freed N w w' -> freed N' w w'.
Proof.
  intros HN (H1 & H2 & H3). split; [|split; [|done]].
  - rewrite H1. destruct (keyDestructor type); [by rewrite HN|done].
  - rewrite H2. destruct (valDestructor type); [by rewrite HN|done].
Qed.
Lemma freed_trans N N' w w1 w' : freed N w w1 -> freed N' w1 w' -> freed (N ++ N') w w'.
Proof.
  intros (H1 & H2 & H3) (H4 & H5 & H6). split; [|split; [|by etransitivity]].
  - rewrite H4, H1. destruct (keyDestructor type); [rewrite fmap_app; solve_Permutation|done].
  - rewrite H5, H2. destruct (valDestructor type); [rewrite omap_app; solve_Permutation|done].
Qed.
Lemma freed_one n x w w' : nval n = Some x -> logged (key_log type (nkey n)) (val_log type x) w w' -> freed [n] w w'.
Proof.
  intros Hx (H1 & H2 & H3). unfold freed, key_log, val_log in *. cbn. rewrite Hx, H1, H2.
  by destruct (keyDestructor type), (valDestructor type).
Qed.

(** Every value was set. *)
Definition valued N : Prop := Forall (fun n => is_Some (nval n)) N.

(** While a table is cleared, its buckets in the heap still point to what was
    there: [ps'] is what they should be. *)
Definition patched (b : positive) (ps' : list (option positive)) w : world K V := with_tables (<[b := ps']> (tables w)) w.

Lemma patched_shape {g} w d L0 L1 U t b ps' : dict_inv type (g := g) (patched b ps' w) d L0 L1 U -> table (ht d t) = Some b ->
  shape type (entries w) (ht d t) ps' (buckets L0 L1 t).
Proof.
  intros Hok Hb. pose proof (ok_ht _ _ _ _ _ _ t Hok) as Ht. unfold table_ok in Ht. rewrite Hb in Ht.
  destruct Ht as (ps & Hps & Hs). cbn in Hps. rewrite lookup_insert_eq in Hps. by injection Hps as <-.
Qed.

Lemma clear_entry_ok {g} w d L0 L1 U t b ps' i n l : dict_inv type (g := g) (patched b ps' w) d L0 L1 U ->
  table (ht d t) = Some b -> buckets L0 L1 t !! i = Some (n :: l) -> is_Some (nval n) -> exists w' q,
    clear_entry type t (Some (addr n)) w = Ret (inl q) w' /\
    dict_inv type (g := g) (patched b (<[i := q]> ps') w') (set_used t (used (ht d t) - 1) d) (upd0 t i l L0) (upd1 t i l L1) U /\
    tables w' = tables w /\ freed [n] w w'.
Proof.
  intros Hok Hb Hl [x Hx]. pose proof (patched_shape _ _ _ _ _ _ _ _ Hok Hb) as Hs.
  destruct (Forall2_lookup_r _ _ _ _ _ (sh_chains _ _ _ _ _ Hs) Hl) as (p & Hp & Hc). destruct Hc as [-> (q & Hq & Hc)].
  destruct (used_zlen _ _ _ _ _ _ t Hok) as [Eu Hu]. pose proof (zlen_bucket _ _ _ l Hl) as Hz. rewrite <- Eu, zlen_cons in Hz.
  pose proof (zlen_nonneg (concat (<[i:=l]> (buckets L0 L1 t)))).
  set (wf := released type n x w). set (w' := with_the_dict (Some (set_used t (used (ht d t) - 1) d)) wf).
  exists w', q. split; [|split; [|split; [done|]]].
  - unfold clear_entry. rewrite (bind_ret_eq _ _ _ _ _ (load_entry w _ _ Hq)).
    rewrite (bind_ret_eq _ _ _ _ _ (release_entry_eq type w n q x Hq Hx)). fold wf. cbn [next].
    erewrite bind_ret_eq; [done|]. rewrite (add_used_eq _ d); [done|apply (ok_dict _ _ _ _ _ _ Hok)|lia].
  - apply (released_ok type (with_the_dict (Some (set_used t (used (ht d t) - 1) d)) (patched b (<[i := q]> ps') w)) _ _ _ U n x).
    eapply (unlink_ok type (patched b ps' w) d L0 L1 U _ t b ps' i [] n l q Hok); try done.
    + cbn. by rewrite lookup_insert_eq.
    + split; [done|]. cbn. by rewrite insert_insert_eq.
  - by apply (freed_one n x).
Qed.

Lemma clear_chain_ok {g} U t b i l : forall m w d L0 L1 ps' p, dict_inv type (g := g) (patched b ps' w) d L0 L1 U ->
  table (ht d t) = Some b -> buckets L0 L1 t !! i = Some l -> ps' !! i = Some p -> valued l -> (length l < m)%nat ->
  exists w' u, while_loop m (clear_entry type t) p w = Ret tt w' /\
    dict_inv type (g := g) (patched b (<[i := None]> ps') w') (set_used t u d) (upd0 t i [] L0) (upd1 t i [] L1) U /\
    tables w' = tables w /\ freed l w w'.
Proof.
  induction l as [|n l IH]; intros m w d L0 L1 ps' p Hok Hb Hl Hp Hv Hm; (destruct m as [|m]; [cbn in Hm; lia|]); cbn [while_loop].
  all: pose proof (patched_shape _ _ _ _ _ _ _ _ Hok Hb) as Hs; pose proof (Forall2_lookup_lr _ _ _ _ _ _ (sh_chains _ _ _ _ _ Hs) Hp Hl) as Hc.
  - cbn in Hc. subst p. exists w, (used (ht d t)). split; [done|]. rewrite set_used_same, (list_insert_id _ _ _ Hp).
    replace (upd0 t i [] L0) with L0 by (destruct t; [done|symmetry; by apply list_insert_id]).
    replace (upd1 t i [] L1) with L1 by (destruct t; [symmetry; by apply list_insert_id|done]).
    split; [done|]. split; [done|by apply freed_nil].
  - destruct Hc as [-> _]. apply Forall_cons in Hv as [Hn Hv].
    destruct (clear_entry_ok w d L0 L1 U t b ps' i n l Hok Hb Hl Hn) as (w1 & q & E & Hok1 & HT & Hf).
    assert (Hi : (i < length (buckets L0 L1 t))%nat) by by apply lookup_lt_Some in Hl.
    destruct (IH m w1 (set_used t (used (ht d t) - 1) d) (upd0 t i l L0) (upd1 t i l L1) (<[i := q]> ps') q Hok1)
      as (w' & u & E' & Hok' & HT' & Hf').
    + by destruct t.
    + destruct t; cbn in *; by rewrite list_lookup_insert_eq.
    + rewrite list_lookup_insert_eq; [done|]. by apply lookup_lt_Some in Hp.
    + done.
    + cbn in Hm. lia.
    + exists w', u. rewrite (bind_ret_eq _ _ _ _ _ E). split; [done|]. rewrite list_insert_insert_eq in Hok'.
      replace (set_used t u (set_used t (used (ht d t) - 1) d)) with (set_used t u d) in Hok' by by destruct t.
      replace (upd0 t i [] (upd0 t i l L0)) with (upd0 t i [] L0) in Hok' by (destruct t; [done|cbn; by rewrite list_insert_insert_eq]).
      replace (upd1 t i [] (upd1 t i l L1)) with (upd1 t i [] L1) in Hok' by (destruct t; [cbn; by rewrite list_insert_insert_eq|done]).
      split; [done|]. split; [congruence|]. by apply (freed_trans [n] l w w1 w').
Qed.

(** *** All buckets of a table *)

(** The buckets before [i] are empty, and those from [i] on are untouched. *)
Record clearing {g : bool} w d L0 L1 U (t : bool) (b : positive) (i : nat) (ps ps' : list (option positive)) : Prop := {
  cl_ok : dict_inv type (g := g) (patched b ps' w) d L0 L1 U;
  cl_table : table (ht d t) = Some b;
  cl_heap : tables w !! b = Some ps;
  cl_rest : forall j, (i <= j)%nat -> ps' !! j = ps !! j;
  cl_done : forall j l, (j < i)%nat -> buckets L0 L1 t !! j = Some l -> l = []
}.

Lemma all_empty {A} (B : list (list A)) : (forall j x, B !! j = Some x -> x = []) -> concat B = [].
Proof.
  induction B as [|y B IH]; intros Hl; [done|]. cbn. rewrite (Hl 0%nat y eq_refl). apply IH. intros j x Hj. by apply (Hl (Datatypes.S j)).
Qed.

Lemma clearing_turn {g} w d L0 L1 U t b i ps ps' l p : clearing (g := g) w d L0 L1 U t b i ps ps' ->
  buckets L0 L1 t !! i = Some l -> ps !! i = Some p -> valued l -> exists w' u,
  while_loop (Datatypes.S (base.size (entries w))) (clear_entry type t) p w = Ret tt w' /\
  clearing (g := g) w' (set_used t u d) (upd0 t i [] L0) (upd1 t i [] L1) U t b (Datatypes.S i) ps (<[i := None]> ps') /\
  freed l w w'.
Proof.
  intros [Hok Hb HT Hrest Hdone] Hl Hp Hv. rewrite <- (Hrest i) in Hp by lia.
  pose proof (patched_shape _ _ _ _ _ _ _ _ Hok Hb) as Hs. pose proof (Forall2_lookup_lr _ _ _ _ _ _ (sh_chains _ _ _ _ _ Hs) Hp Hl) as Hc.
  assert (Hnd : NoDup (addr <$> l)) by apply (bucket_nodes _ _ _ _ _ _ t i l Hok Hl).
  pose proof (chain_short _ _ _ Hc Hnd) as Hfuel.
  destruct (clear_chain_ok U t b i l (Datatypes.S (base.size (entries w))) w d L0 L1 ps' p Hok Hb Hl Hp Hv ltac:(lia))
    as (w' & u & E & Hok' & HT' & Hf). exists w', u. split; [|split; [|done]].
  - done.
  - split; [done|by destruct t|by rewrite HT'| |].
    + intros j Hj. rewrite list_lookup_insert_ne by lia. apply Hrest. lia.
    + intros j x Hj Hx. assert (Hi : (i < length (buckets L0 L1 t))%nat) by by apply lookup_lt_Some in Hl.
      assert (Hx' : <[i := []]> (buckets L0 L1 t) !! j = Some x) by by destruct t.
      destruct (decide (j = i)) as [->|Hji].
      * rewrite list_lookup_insert_eq in Hx' by done. by injection Hx' as <-.
      * rewrite list_lookup_insert_ne in Hx' by done. apply (Hdone j); [lia|done].
Qed.

Lemma clear_loop_ok {g} U t b ps : forall m i w d L0 L1 ps', clearing (g := g) w d L0 L1 U t b i ps ps' ->
  valued (concat (buckets L0 L1 t)) -> hsize (ht d t) - Z.of_nat i < Z.of_nat m -> Z.of_nat i <= hsize (ht d t) ->
  exists w' j ps'' u L0' L1', while_loop m (clear_turn type t) (Z.of_nat i) w = Ret tt w' /\
    clearing (g := g) w' (set_used t u d) L0' L1' U t b j ps ps'' /\ concat (buckets L0' L1' t) = [] /\
    buckets L0' L1' (negb t) = buckets L0 L1 (negb t) /\ freed (concat (buckets L0 L1 t)) w w'.
Proof.
  induction m as [|m IH]; intros i w d L0 L1 ps' Hcl Hv Hm Hi; [lia|]. pose proof Hcl as [Hok Hb HT Hrest Hdone].
  pose proof (patched_shape _ _ _ _ _ _ _ _ Hok Hb) as Hs. destruct (used_zlen _ _ _ _ _ _ t Hok) as [Eu Hu].
  assert (Hd : the_dict w = Some d) by apply (ok_dict _ _ _ _ _ _ Hok).
  cbn [while_loop]. unfold clear_turn at 1. rewrite bind_assoc, (bind_ret_eq _ _ _ _ _ (the_eq w d Hd)).
  assert (Hexit : concat (buckets L0 L1 t) = [] -> exists w' j ps'' u L0' L1',
    ret (A := unit) tt w = Ret tt w' /\ clearing (g := g) w' (set_used t u d) L0' L1' U t b j ps ps'' /\
    concat (buckets L0' L1' t) = [] /\ buckets L0' L1' (negb t) = buckets L0 L1 (negb t) /\ freed (concat (buckets L0 L1 t)) w w').
  { intros E. exists w, i, ps', (used (ht d t)), L0, L1. rewrite set_used_same, E. split_and!; try done. by apply freed_nil. }
  destruct (Z.ltb_spec (Z.of_nat i) (hsize (ht d t))) as [Hlt|Hge]; cbn [andb].
  - destruct (Z.ltb_spec 0 (used (ht d t))) as [Hpos|Hnone].
    + destruct (lookup_lt_is_Some_2 (buckets L0 L1 t) i) as [l Hl].
      { pose proof (sh_size _ _ _ _ _ Hs). unfold zlen in *. lia. }
      destruct (Forall2_lookup_r _ _ _ _ _ (sh_chains _ _ _ _ _ Hs) Hl) as (p & Hp & _). rewrite Hrest in Hp by lia.
      destruct (concat_bucket _ i l Hl) as (R & HR & HR'). assert (Hvl : valued l /\ valued R).
      { unfold valued in *. rewrite HR in Hv. by apply Forall_app in Hv. }
      destruct (clearing_turn w d L0 L1 U t b i ps ps' l p Hcl Hl Hp (proj1 Hvl)) as (w1 & u & E & Hcl1 & Hf).
      rewrite bind_assoc, Hb, (bind_ret_eq _ _ _ _ _ (bucket_eq w b ps i p HT Hp)).
      unfold chain_fuel. rewrite bind_assoc. erewrite bind_ret_eq by (erewrite bind_ret_eq by reflexivity; reflexivity).
      rewrite bind_assoc, (bind_ret_eq _ _ _ _ _ E). unfold bind at 1, ret at 1.
      replace (Z.of_nat i + 1) with (Z.of_nat (Datatypes.S i)) by lia.
      assert (Ec : concat (buckets (upd0 t i [] L0) (upd1 t i [] L1) t) ≡ₚ R).
      { replace (buckets (upd0 t i [] L0) (upd1 t i [] L1) t) with (<[i := []]> (buckets L0 L1 t)) by by destruct t. apply HR'. }
      destruct (IH (Datatypes.S i) w1 _ _ _ _ Hcl1) as (w' & j & ps'' & u' & L0' & L1' & E' & Hcl' & Hnil & Hoth & Hf').
      * unfold valued. rewrite Ec. apply Hvl.
      * replace (hsize (ht (set_used t u d) t)) with (hsize (ht d t)) by by destruct t. lia.
      * replace (hsize (ht (set_used t u d) t)) with (hsize (ht d t)) by by destruct t. lia.
      * exists w', j, ps'', u', L0', L1'. split; [done|]. replace (set_used t u' (set_used t u d)) with (set_used t u' d) in Hcl' by by destruct t.
        split; [done|]. split; [done|]. split; [rewrite Hoth; by destruct t|].
        eapply freed_perm; [|by eapply (freed_trans l _ w w1 w')]. by rewrite HR, Ec.
    + apply Hexit. apply length_zero_iff_nil. unfold zlen in *. lia.
  - apply Hexit, all_empty. intros j l Hj. apply (Hdone j); [|done]. apply lookup_lt_Some in Hj.
    pose proof (sh_size _ _ _ _ _ Hs). unfold zlen in *. lia.
Qed.

Lemma weaken {g} w d L0 L1 U : dict_inv type (g := g) w d L0 L1 U -> dict_inv type (g := false) w d L0 L1 U.
Proof. intros Hok. split; try apply Hok. done. Qed.

(** A table without entries is released and its record reset. *)
Lemma reset_ok {g} w d L0 L1 U t b : dict_inv type (g := g) w d L0 L1 U -> table (ht d t) = Some b ->
  concat (buckets L0 L1 t) = [] ->
  dict_inv type (g := false) (with_the_dict (Some (with_ht t reset d)) (with_tables (delete b (tables w)) w))
    (with_ht t reset d) (if t then L0 else []) (if t then [] else L1) U.
Proof.
  intros Hok Hb Hnil.
  assert (Hother : table (ht d (negb t)) <> Some b).
  { intros E. destruct t; cbn in *; by apply (ok_apart _ _ _ _ _ _ Hok b). }
  assert (Hkeep : table_ok type (with_tables (delete b (tables w)) w) (ht d (negb t)) (buckets L0 L1 (negb t))).
  { eapply table_ok_frame; [| |apply (ok_ht type w d L0 L1 U (negb t) Hok)]; [done|].
    intros b' E. cbn. apply lookup_delete_ne. congruence. }
  split.
  - done.
  - by destruct t.
  - by destruct t.
  - done.
  - pose proof (ok_nodes _ _ _ _ _ _ Hok) as Hn.
    replace (concat (if t then L0 else []) ++ concat (if t then [] else L1)) with (concat L0 ++ concat L1).
    + by eapply nodes_ok_frame, Hn.
    + destruct t; cbn in *; rewrite Hnil; done.
  - cbn. rewrite dom_delete_L, (ok_tables _ _ _ _ _ _ Hok). unfold table_set. destruct t; cbn in *; rewrite Hb; cbn.
    + destruct (table (ht0 d)) as [b'|]; cbn; [|set_solver]. assert (b <> b') by congruence. set_solver.
    + destruct (table (ht1 d)) as [b'|]; cbn; [|set_solver]. assert (b <> b') by congruence. set_solver.
  - by destruct t.
  - intros a [Ha|Ha]; apply (ok_brk _ _ _ _ _ _ Hok); [by left|right]. cbn in Ha. rewrite dom_delete_L in Ha. set_solver.
  - destruct t; apply Hok.
Qed.

Lemma clear_ok {g} w d L0 L1 U t : dict_inv type (g := g) w d L0 L1 U -> valued (concat (buckets L0 L1 t)) -> exists w',
  _dictClear type t w = Ret DICT_OK w' /\
  dict_inv type (g := false) w' (with_ht t reset d) (if t then L0 else []) (if t then [] else L1) U /\
  freed (concat (buckets L0 L1 t)) w w'.
Proof.
  intros Hok Hv. pose proof (ok_dict _ _ _ _ _ _ Hok) as Hd. unfold _dictClear. rewrite (bind_ret_eq _ _ _ _ _ (the_eq w d Hd)).
  pose proof (ok_ht _ _ _ _ _ _ t Hok) as Ht. pose proof (table_ok_size _ _ _ _ Ht) as [Hz Hsz].
  unfold table_ok in Ht. destruct (table (ht d t)) as [b|] eqn:Eb.
  - destruct Ht as (ps & Hps & Hs).
    assert (Hcl : clearing (g := g) w d L0 L1 U t b 0 ps ps).
    { split; try done; [|lia]. unfold patched. rewrite (insert_id _ _ _ Hps). by destruct w. }
    destruct (clear_loop_ok U t b ps (Datatypes.S (Z.to_nat (hsize (ht d t)))) 0 w d L0 L1 ps Hcl Hv ltac:(lia) ltac:(lia))
      as (w1 & j & ps'' & u & L0' & L1' & E & [Hok1 Hb1 HT1 _ _] & Hnil & Hoth & Hf).
    pose proof (reset_ok (patched b ps'' w1) _ L0' L1' U t b Hok1 Hb1 Hnil) as Hok2.
    assert (Hd1 : the_dict w1 = Some (set_used t u d)) by apply (ok_dict _ _ _ _ _ _ Hok1).
    eexists. rewrite (bind_ret_eq _ _ _ _ _ E), (bind_ret_eq _ _ _ _ _ (the_eq w1 _ Hd1)), Hb1.
    rewrite (bind_ret_eq _ _ _ _ _ (free_table_eq w1 b ps HT1)). unfold _dictReset.
    erewrite bind_ret_eq by (apply upd_dict_eq; exact Hd1). split; [done|]. split; [|done].
    replace (with_ht t reset (set_used t u d)) with (with_ht t reset d) in Hok2 |- * by by destruct t.
    replace (if t then L0' else []) with (if t then L0 else []) in Hok2 by (destruct t; [done|done]).
    replace (if t then [] else L1') with (if t then [] else L1) in Hok2 by (destruct t; [done|done]).
    cbn [patched tables with_tables] in Hok2. rewrite delete_insert_eq in Hok2. exact Hok2.
  - destruct Ht as [Ht Hnil]. rewrite Hnil.
    assert (E : while_loop (Datatypes.S (Z.to_nat (hsize (ht d t)))) (clear_turn type t) 0 w = Ret tt w).
    { cbn [while_loop]. unfold clear_turn at 1. rewrite bind_assoc, (bind_ret_eq _ _ _ _ _ (the_eq w d Hd)), Ht. done. }
    rewrite (bind_ret_eq _ _ _ _ _ E), (bind_ret_eq _ _ _ _ _ (the_eq w d Hd)), Eb.
    rewrite (bind_ret_eq (free_table None) _ w tt w eq_refl).
    unfold _dictReset. erewrite bind_ret_eq by (apply upd_dict_eq; exact Hd).
    assert (Ed : with_ht t reset d = d) by (destruct t; cbn in Ht; rewrite <- Ht; by destruct d).
    eexists. split; [done|]. rewrite Ed. split; [|by apply freed_nil].
    assert (Ew : with_the_dict (Some d) w = w) by (rewrite <- Hd; by destruct w). rewrite Ew.
    replace (if t then L0 else []) with L0 by (destruct t; [done|by symmetry]).
    replace (if t then [] else L1) with L1 by (destruct t; [by symmetry|done]). by eapply weaken.
Qed.

Lemma clear_both w d L0 L1 U : dict_ok type w d L0 L1 U -> valued (concat L0 ++ concat L1) -> exists w1 w',
  _dictClear type false w = Ret DICT_OK w1 /\ _dictClear type true w1 = Ret DICT_OK w' /\
  dict_inv type (g := false) w' (with_ht true reset (with_ht false reset d)) [] [] U /\ freed (concat L0 ++ concat L1) w w'.
Proof.
  intros Hok Hv. apply Forall_app in Hv as [Hv0 Hv1].
  destruct (clear_ok w d L0 L1 U false Hok Hv0) as (w1 & E1 & Hok1 & Hf1). cbn in Hok1.
  destruct (clear_ok w1 _ [] L1 U true Hok1 Hv1) as (w' & E' & Hok' & Hf'). exists w1, w'.
  split; [done|]. split; [done|]. split; [done|]. by eapply freed_trans.
Qed.

Lemma empty_ok w d L0 L1 U : dict_ok type w d L0 L1 U -> valued (concat L0 ++ concat L1) -> exists w',
  dictEmpty type w = Ret tt w' /\ dict_ok type w' _dictInit [] [] U /\ freed (concat L0 ++ concat L1) w w'.
Proof.
  intros Hok Hv. destruct (clear_both w d L0 L1 U Hok Hv) as (w1 & w2 & E1 & E2 & Hok2 & Hf).
  unfold dictEmpty. eexists. rewrite (bind_ret_eq _ _ _ _ _ E1), (bind_ret_eq _ _ _ _ _ E2).
  erewrite bind_ret_eq by (apply upd_dict_eq; apply (ok_dict _ _ _ _ _ _ Hok2)).
  split; [apply upd_dict_eq; reflexivity|]. split; [|done]. pose proof Hok2 as [_ _ _ _ Hn HT _ Hbrk _].
  split; try done. by eapply nodes_ok_frame, Hn.
Qed.

Lemma release_ok w d L0 L1 U : dict_ok type w d L0 L1 U -> valued (concat L0 ++ concat L1) -> exists w',
  dictRelease type w = Ret tt w' /\ the_dict w' = None /\ tables w' = ∅ /\
  dom (entries w') = list_to_set (addr <$> U) /\ freed (concat L0 ++ concat L1) w w'.
Proof.
  intros Hok Hv. destruct (clear_both w d L0 L1 U Hok Hv) as (w1 & w2 & E1 & E2 & Hok2 & Hf).
  unfold dictRelease. exists (with_the_dict None w2). rewrite (bind_ret_eq _ _ _ _ _ E1), (bind_ret_eq _ _ _ _ _ E2).
  rewrite (bind_ret_eq _ _ _ _ _ (the_eq w2 _ (ok_dict _ _ _ _ _ _ Hok2))). split; [done|]. split; [done|]. split; [|split; [|done]].
  - apply dom_empty_inv_L. apply (ok_tables _ _ _ _ _ _ Hok2).
  - apply (no_exact _ _ _ _ (ok_nodes _ _ _ _ _ _ Hok2)).
Qed.
End clear.
