(* ===== verification/DictMap.v ===== *)
(** The hash table of dict.c is a finite map: any sequence of calls on a new
    dictionary answers as one, whatever tables it went through, and releases
    what it was given. *)
From S2P Require Import Prelude Util Dict DictProofs DictRehash DictOps DictClear.
#[local] Open Scope Z_scope.

(** ** Specification *)

(** The map from contents to the stored key and value; and what the destructors
    were called with. *)
Record spec (K V C : Type) `{Countable C} := { bound : gmap C (K * V); gone_keys : list K; gone_vals : list V }.
Arguments bound {K V C _ _}.
Arguments gone_keys {K V C _ _}.
Arguments gone_vals {K V C _ _}.

(** [Unlink] stands for [dictUnlink], a look at the value, and [dictFreeUnlinkedEntry]. *)
Inductive command (K V : Type) :=
  | Add (k : K) (x : V) | Replace (k : K) (x : V) | Fetch (k : K) | Remove (k : K) | Unlink (k : K)
  | Size | Empty | Resize | Expand (n : Z) | Rehash (n : Z) | EnableResize | DisableResize.
Arguments Add {K V}.
Arguments Replace {K V}.
Arguments Fetch {K V}.
Arguments Remove {K V}.
Arguments Unlink {K V}.
Arguments Size {K V}.
Arguments Empty {K V}.
Arguments Resize {K V}.
Arguments Expand {K V}.
Arguments Rehash {K V}.
Arguments EnableResize {K V}.
Arguments DisableResize {K V}.

(** [Done] answers what only depends on the tables. *)
Inductive answer (V : Type) := Int (z : Z) | Val (x : option V) | Done.
Arguments Int {V}.
Arguments Val {V}.
Arguments Done {V}.

Section map.
Context {K V : Type} {EK : EqDecision K} (type : dictType K V) {C : Type} {EC : EqDecision C} {CC : Countable C} {DL : DictLaws type C}.
Implicit Types (w : world K V) (N U R : list (node K V)) (L : list (list (node K V))) (n : node K V) (k : K) (x : V) (d : dict)
  (s : spec K V C).

Definition put_bound k (p : K * V) s : spec K V C :=
  {| bound := <[content (type := type) k := p]> (bound s); gone_keys := gone_keys s; gone_vals := gone_vals s |}.
Definition lose_val x s : spec K V C :=
  {| bound := bound s; gone_keys := gone_keys s; gone_vals := val_log type x ++ gone_vals s |}.
Definition lose k (p : K * V) s : spec K V C :=
  {| bound := delete (content (type := type) k) (bound s);
     gone_keys := key_log type p.1 ++ gone_keys s; gone_vals := val_log type p.2 ++ gone_vals s |}.
Definition lose_all s : spec K V C :=
  {| bound := ∅;
     gone_keys := (if keyDestructor type then (map_to_list (bound s)).*2.*1 else []) ++ gone_keys s;
     gone_vals := (if valDestructor type then (map_to_list (bound s)).*2.*2 else []) ++ gone_vals s |}.

Definition respond (c : command K V) s : spec K V C * answer V :=
  let look k := bound s !! content (type := type) k in
  match c with
  | Add k x => match look k with
               | Some _ => (s, Int DICT_ERR)
               | None => (put_bound k (dup_key type k, dup_val type x) s, Int DICT_OK)
               end
  | Replace k x => match look k with
                   | Some (k', y) => (lose_val y (put_bound k (k', dup_val type x) s), Int 0)
                   | None => (put_bound k (dup_key type k, dup_val type x) s, Int 1)
                   end
  | Fetch k => (s, Val (snd <$> look k))
  | Remove k => match look k with Some p => (lose k p s, Int DICT_OK) | None => (s, Int DICT_ERR) end
  | Unlink k => match look k with Some p => (lose k p s, Val (Some p.2)) | None => (s, Val None) end
  | Size => (s, Int (Z.of_nat (base.size (bound s))))
  | Empty => (lose_all s, Done)
  | _ => (s, Done)
  end.

(** The calls behind a command. *)
Definition perform (c : command K V) : M (world K V) (answer V) :=
  match c with
  | Add k x => let* r := dictAdd type k x in ret (Int r)
  | Replace k x => let* r := dictReplace type k x in ret (Int r)
  | Fetch k => let* r := dictFetchValue type k in ret (Val r)
  | Remove k => let* r := dictDelete type k in ret (Int r)
  | Unlink k =>
      let* he := dictUnlink type k in
      match he with
      | None => ret (Val None)
      | Some p => let* e := load p in dictFreeUnlinkedEntry type he ;;; ret (Val (v e))
      end
  | Size => let* d := the in ret (Int (dictSize d))
  | Empty => dictEmpty type ;;; ret Done
  | Resize => dictResize ;;; ret Done
  | Expand n => dictExpand n ;;; ret Done
  | Rehash n => dictRehash type n ;;; ret Done
  | EnableResize => dictEnableResize ;;; ret Done
  | DisableResize => dictDisableResize ;;; ret Done
  end.

Definition reasonable (c : command K V) : Prop := match c with Expand n => n <= 2 ^ 60 | _ => True end.

Fixpoint perform_all (cs : list (command K V)) : M (world K V) (list (answer V)) :=
  match cs with
  | [] => ret []
  | c :: cs => let* a := perform c in let* l := perform_all cs in ret (a :: l)
  end.
Fixpoint respond_all (cs : list (command K V)) s : spec K V C * list (answer V) :=
  match cs with
  | [] => (s, [])
  | c :: cs => let '(s, a) := respond c s in let '(s, l) := respond_all cs s in (s, a :: l)
  end.

(** ** The contents of a dictionary as a map *)
Definition binding n : option (C * (K * V)) := (fun x => (content (type := type) (nkey n), (nkey n, x))) <$> nval n.
Definition contents N : gmap C (K * V) := list_to_map (omap binding N).
Definition distinct N : Prop := NoDup ((fun n => content (type := type) (nkey n)) <$> N).

Lemma contents_cons n R x : nval n = Some x -> contents (n :: R) = <[content (nkey n) := (nkey n, x)]> (contents R).
Proof. intros Hx. unfold contents. cbn. unfold binding at 1. by rewrite Hx. Qed.

Lemma binding_keys N : valued N -> (omap binding N).*1 = (fun n => content (type := type) (nkey n)) <$> N.
Proof.
  induction N as [|n N IH]; intros Hv; [done|]. apply Forall_cons in Hv as [[x Hx] Hv]. cbn. unfold binding at 1.
  rewrite Hx. cbn. by rewrite IH.
Qed.
Lemma contents_perm N N' : distinct N -> valued N -> N ≡ₚ N' -> contents N = contents N'.
Proof. intros Hd Hv HN. apply list_to_map_proper; [by rewrite binding_keys|by rewrite HN]. Qed.
Lemma contents_none N c : valued N -> c ∉ (fun n => content (type := type) (nkey n)) <$> N -> contents N !! c = None.
Proof. intros Hv Hc. apply not_elem_of_list_to_map. by rewrite binding_keys. Qed.

Lemma contents_lookup N c : distinct N -> valued N ->
  contents N !! c = lookup_node type c N ≫= fun n => (fun x => (nkey n, x)) <$> nval n.
Proof.
  intros Hd Hv. destruct (lookup_node type c N) as [n|] eqn:En; cbn.
  - destruct (lookup_split type _ _ _ En) as [R HR]. apply lookup_node_Some in En as [Hn <-]; [|done].
    rewrite (contents_perm _ _ Hd Hv HR). unfold valued in Hv. rewrite Forall_forall in Hv. destruct (Hv n Hn) as [x Hx].
    by rewrite (contents_cons n R x Hx), lookup_insert_eq, Hx.
  - apply contents_none; [done|]. intros Hin. apply list_elem_of_fmap in Hin as (n & -> & Hn).
    by apply (proj1 (lookup_node_None type _ _) En n Hn).
Qed.

Lemma contents_size N : distinct N -> valued N -> base.size (contents N) = length N.
Proof.
  induction N as [|n N IH]; intros Hd Hv; [done|]. apply NoDup_cons in Hd as [Hn Hd].
  apply Forall_cons in Hv as [[x Hx] Hv]. rewrite (contents_cons _ _ _ Hx), map_size_insert_None by by apply contents_none.
  cbn. by rewrite IH.
Qed.

Lemma contents_list N : distinct N -> valued N ->
  (map_to_list (contents N)).*2.*1 ≡ₚ nkey <$> N /\ (map_to_list (contents N)).*2.*2 ≡ₚ omap nval N.
Proof.
  intros Hd Hv. unfold contents. rewrite map_to_list_to_map by by rewrite binding_keys. clear Hd.
  induction N as [|n N IH]; [done|]. apply Forall_cons in Hv as [[x Hx] Hv]. destruct (IH Hv) as [I1 I2].
  cbn. unfold binding. rewrite Hx. cbn. split; by f_equiv.
Qed.

(** A dictionary implements a map. *)
Definition holds w d L0 L1 s : Prop := dict_ok type w d L0 L1 [] /\ valued (concat L0 ++ concat L1) /\
  bound s = contents (concat L0 ++ concat L1) /\ freed_keys w ≡ₚ gone_keys s /\ freed_vals w ≡ₚ gone_vals s.
Definition implements w s : Prop := exists d L0 L1, holds w d L0 L1 s.

Lemma ok_distinct w d L0 L1 U : dict_ok type w d L0 L1 U -> distinct (concat L0 ++ concat L1).
Proof. intros Hok. apply (ok_nodes _ _ _ _ _ _ Hok). Qed.

Lemma look_eq w d L0 L1 s k : holds w d L0 L1 s ->
  match lookup_node type (content k) (concat L0 ++ concat L1) with
  | None => bound s !! content k = None
  | Some n => exists x R, nval n = Some x /\ bound s !! content k = Some (nkey n, x) /\ content (nkey n) = content k /\
      concat L0 ++ concat L1 ≡ₚ n :: R
  end.
Proof.
  intros (Hok & Hv & Hb & _). pose proof (ok_distinct _ _ _ _ _ Hok) as Hd. rewrite Hb, (contents_lookup _ _ Hd Hv).
  destruct (lookup_node type (content k) (concat L0 ++ concat L1)) as [n|] eqn:En; [|done].
  destruct (lookup_split type _ _ _ En) as [R HR]. apply lookup_node_Some in En as [Hn Hc]; [|done].
  unfold valued in Hv. rewrite Forall_forall in Hv. destruct (Hv n Hn) as [x Hx]. exists x, R. cbn. by rewrite Hx.
Qed.

Lemma holds_rearranged w d L0 L1 s w' d' L0' L1' : holds w d L0 L1 s -> dict_ok type w' d' L0' L1' [] ->
  concat L0' ++ concat L1' ≡ₚ concat L0 ++ concat L1 -> quiet w w' -> holds w' d' L0' L1' s.
Proof.
  intros (Hok & Hv & Hb & Hk & Hx) Hok' HP (Q1 & Q2 & _).
  pose proof (ok_distinct _ _ _ _ _ Hok) as Hd. split; [done|]. split; [unfold valued; by rewrite HP|].
  split; [rewrite Hb; by apply contents_perm|]. by rewrite Q1, Q2.
Qed.

Lemma implements_rearranged w d L0 L1 s w' : holds w d L0 L1 s -> rearranged type w d L0 L1 [] w' -> implements w' s.
Proof. intros Hh (d' & L0' & L1' & Hok' & HP & _ & Hq & _). exists d', L0', L1'. by eapply holds_rearranged. Qed.
Lemma holds_enlarged w d L0 L1 s w' d' L0' L1' : holds w d L0 L1 s -> enlarged type w d L0 L1 [] w' d' L0' L1' ->
  holds w' d' L0' L1' s.
Proof.
  intros Hh He. eapply holds_rearranged; [exact Hh|apply He| |apply He]. by rewrite (enlarged_concat type _ _ _ _ _ _ _ _ _ He).
Qed.

(** An entry more, or with another value. *)
Lemma holds_put w d L0 L1 s w' d' L0' L1' n R k y xs : holds w d L0 L1 s ->
  concat L0 ++ concat L1 ≡ₚ R \/ concat L0 ++ concat L1 ≡ₚ n :: R ->
  dict_ok type w' d' L0' L1' [] -> concat L0' ++ concat L1' ≡ₚ with_val y n :: R -> content (nkey n) = content k ->
  logged [] xs w w' ->
  holds w' d' L0' L1' {| bound := <[content k := (nkey n, y)]> (bound s); gone_keys := gone_keys s; gone_vals := xs ++ gone_vals s |}.
Proof.
  intros (Hok & Hv & Hb & Hk & Hx) HN Hok' HN' Hc (Q1 & Q2 & _).
  pose proof (ok_distinct _ _ _ _ _ Hok) as Hd. pose proof (ok_distinct _ _ _ _ _ Hok') as Hd'.
  assert (HvR : valued R).
  { unfold valued in *. destruct HN as [HN|HN]; rewrite HN in Hv; [done|]. by apply Forall_cons in Hv as [_ Hv]. }
  assert (Hv' : valued (concat L0' ++ concat L1')).
  { unfold valued. rewrite HN'. constructor; [by eexists|done]. }
  split; [done|]. split; [done|]. split; [|cbn in *; by rewrite Q1, Q2, Hk, Hx].
  cbn [bound]. rewrite Hb, (contents_perm _ _ Hd' Hv' HN'), (contents_cons (with_val y n) R y eq_refl). cbn [nkey with_val]. rewrite Hc.
  destruct HN as [HN|HN]; rewrite (contents_perm _ _ Hd Hv HN); [done|].
  assert (is_Some (nval n)) as [z Hz] by (unfold valued in Hv; rewrite HN in Hv; by apply Forall_cons in Hv as [? _]).
  by rewrite (contents_cons n R z Hz), Hc, insert_insert_eq.
Qed.

Lemma holds_lose w d L0 L1 s w' d' L0' L1' n k y : holds w d L0 L1 s ->
  dict_ok type w' d' L0' L1' [] -> concat L0 ++ concat L1 ≡ₚ n :: (concat L0' ++ concat L1') ->
  content (nkey n) = content k -> nval n = Some y -> logged (key_log type (nkey n)) (val_log type y) w w' ->
  holds w' d' L0' L1' (lose k (nkey n, y) s).
Proof.
  intros (Hok & Hv & Hb & Hk & Hx) Hok' HN Hc Hy (Q1 & Q2 & _).
  pose proof (ok_distinct _ _ _ _ _ Hok) as Hd. pose proof Hv as Hv'. unfold valued in Hv'. rewrite HN in Hv'. apply Forall_cons in Hv' as [_ Hv'].
  split; [done|]. split; [done|]. split; [|cbn; by rewrite Q1, Q2, Hk, Hx]. cbn [bound lose].
  rewrite Hb, (contents_perm _ _ Hd Hv HN), (contents_cons n _ y Hy), Hc, delete_insert_id; [done|].
  apply contents_none; [done|]. unfold distinct in Hd. rewrite HN in Hd. apply NoDup_cons in Hd as [Hd _]. by rewrite <- Hc.
Qed.

Lemma few w d L0 L1 s : holds w d L0 L1 s -> zlen (concat L0 ++ concat L1) = Z.of_nat (base.size (bound s)).
Proof. intros (Hok & Hv & Hb & _). rewrite Hb, contents_size by (done || by eapply ok_distinct). done. Qed.

(** A step of rehashing comes before most operations. *)
Lemma step_holds w d L0 L1 s : holds w d L0 L1 s -> exists w1 d1 L01 L11,
  stepped type w d L0 L1 [] w1 d1 L01 L11 /\ holds w1 d1 L01 L11 s.
Proof.
  intros Hh. pose proof Hh as (Hok & _). destruct (step_ok type w d L0 L1 [] Hok) as (w1 & E & (d1 & L01 & L11 & Hok1 & HP & _ & Hq & Ht)).
  exists w1, d1, L01, L11. split; [by split_and!|]. by eapply holds_rearranged.
Qed.

(** What a command does from [w1], the world after that step. *)
Definition done_at w w1 d L0 L1 c s : Prop := exists w' d' L0' L1', perform c w = Ret (respond c s).2 w' /\
  holds w' d' L0' L1' (respond c s).1 /\ steady type w1 d L0 L1 [] w' d' L0' L1'.

Lemma add_done k x w d0 M0 M1 w1 d L0 L1 s : stepped type w d0 M0 M1 [] w1 d L0 L1 -> holds w1 d L0 L1 s ->
  Z.of_nat (base.size (bound s)) < 2 ^ 59 -> done_at w w1 d L0 L1 (Add k x) s.
Proof.
  intros Hst Hh Hf. pose proof (add_at type _ _ _ _ _ _ _ _ _ k x Hst) as Hadd. rewrite (few _ _ _ _ _ Hh) in Hadd.
  specialize (Hadd Hf). pose proof (look_eq _ _ _ _ _ k Hh) as Hl. unfold done_at, perform, respond.
  destruct (lookup_node type (content k) (concat L0 ++ concat L1)) as [n|].
  - destruct Hl as (y & R & _ & -> & _). destruct Hadd as (w' & d' & L0' & L1' & E & Hen). exists w', d', L0', L1'.
    rewrite (bind_ret_eq _ _ _ _ _ E). split; [done|]. split; [by eapply holds_enlarged|by apply enlarged_steady].
  - rewrite Hl. destruct Hadd as (w' & d' & L0' & L1' & a & E & Hs & HN & Hq). exists w', d', L0', L1'.
    rewrite (bind_ret_eq _ _ _ _ _ E). split; [done|]. split; [|done].
    apply (holds_put w1 d L0 L1 s w' d' L0' L1' (new_node type a k) (concat L0 ++ concat L1) k (dup_val type x) []); try done.
    + by left.
    + apply Hs.
    + apply dup_content.
Qed.

Lemma replace_done k x w d0 M0 M1 w1 d L0 L1 s : stepped type w d0 M0 M1 [] w1 d L0 L1 -> holds w1 d L0 L1 s ->
  Z.of_nat (base.size (bound s)) < 2 ^ 59 -> done_at w w1 d L0 L1 (Replace k x) s.
Proof.
  intros Hst Hh Hf. pose proof (replace_at type _ _ _ _ _ _ _ _ _ k x Hst) as Hadd. rewrite (few _ _ _ _ _ Hh) in Hadd.
  specialize (Hadd Hf). pose proof (look_eq _ _ _ _ _ k Hh) as Hl. unfold done_at, perform, respond.
  destruct (lookup_node type (content k) (concat L0 ++ concat L1)) as [n|].
  - destruct Hl as (y & R & Hy & -> & Hc & HN). destruct (Hadd y R Hy HN) as (w' & d' & L0' & L1' & E & Hs & HN' & Hq).
    exists w', d', L0', L1'. rewrite (bind_ret_eq _ _ _ _ _ E). split; [done|]. split; [|done].
    apply (holds_put w1 d L0 L1 s w' d' L0' L1' n R k (dup_val type x) (val_log type y)); try done; [by right|apply Hs].
  - rewrite Hl. destruct Hadd as (w' & d' & L0' & L1' & a & E & Hs & HN & Hq). exists w', d', L0', L1'.
    rewrite (bind_ret_eq _ _ _ _ _ E). split; [done|]. split; [|done].
    apply (holds_put w1 d L0 L1 s w' d' L0' L1' (new_node type a k) (concat L0 ++ concat L1) k (dup_val type x) []); try done.
    + by left.
    + apply Hs.
    + apply dup_content.
Qed.

Lemma fetch_done k w d0 M0 M1 w1 d L0 L1 s : holds w d0 M0 M1 s -> stepped type w d0 M0 M1 [] w1 d L0 L1 -> holds w1 d L0 L1 s ->
  exists w', perform (Fetch k) w = Ret (respond (Fetch k) s).2 w' /\ (w' = w \/ w' = w1).
Proof.
  intros Hh0 Hst Hh. pose proof (look_eq _ _ _ _ _ k Hh0) as Hl. pose proof Hh0 as (Hok0 & _). pose proof Hh as (Hok & _).
  destruct (find_at type w d0 M0 M1 [] w1 d L0 L1 k Hok0 Hst) as (w' & E & Hw'). exists w'. split; [|done].
  unfold perform, respond, dictFetchValue. rewrite bind_assoc, (bind_ret_eq _ _ _ _ _ E).
  destruct (lookup_node type (content k) (concat M0 ++ concat M1)) as [n|]; cbn; [|by rewrite Hl].
  destruct Hl as (y & R & Hy & -> & _ & HN). assert (Hq : exists q, entries w' !! addr n = Some (entry_of q n)).
  { destruct Hw' as [->| ->]; (eapply node_entry; [eassumption|]); [|destruct Hst as (_ & _ & -> & _)]; rewrite HN; by left. }
  destruct Hq as [q Hq]. rewrite bind_assoc, (bind_ret_eq _ _ _ _ _ (load_entry w' _ _ Hq)). cbn. by rewrite Hy.
Qed.

Lemma perform_fetch k w s : implements w s -> exists w',
  perform (Fetch k) w = Ret (respond (Fetch k) s).2 w' /\ implements w' (respond (Fetch k) s).1.
Proof.
  intros (d & L0 & L1 & Hh). destruct (step_holds _ _ _ _ _ Hh) as (w1 & d1 & L01 & L11 & Hst & Hh1).
  destruct (fetch_done k _ _ _ _ _ _ _ _ _ Hh Hst Hh1) as (w' & E & Hw'). exists w'. split; [done|].
  destruct Hw' as [->| ->]; by do 3 eexists.
Qed.

(** Removing, after the step. *)
Lemma remove_done k w d0 M0 M1 w1 d L0 L1 s : holds w d0 M0 M1 s -> stepped type w d0 M0 M1 [] w1 d L0 L1 -> holds w1 d L0 L1 s ->
  match lookup_node type (content k) (concat L0 ++ concat L1) with
  | None => bound s !! content k = None /\ exists w', perform (Remove k) w = Ret (Int DICT_ERR) w' /\ (w' = w \/ w' = w1)
  | Some n => exists w' x, perform (Remove k) w = Ret (Int DICT_OK) w' /\ bound s !! content k = Some (nkey n, x) /\
      deleted type w1 d L0 L1 [] n x false w' /\
      forall d' L0' L1', dict_ok type w' d' L0' L1' [] -> concat L0 ++ concat L1 ≡ₚ n :: (concat L0' ++ concat L1') ->
        holds w' d' L0' L1' (lose k (nkey n, x) s)
  end.
Proof.
  intros Hh0 Hst Hh. pose proof Hh0 as (Hok0 & _). pose proof (look_eq _ _ _ _ _ k Hh) as Hl.
  pose proof (generic_delete_at type w d0 M0 M1 w1 d L0 L1 [] k false Hok0 Hst) as Hdel. unfold perform, dictDelete.
  destruct (lookup_node type (content k) (concat L0 ++ concat L1)) as [n|].
  - destruct Hl as (y & R & Hy & Hb & Hc & _). destruct (Hdel y Hy) as (w' & E & Hgone). exists w', y.
    rewrite bind_assoc, (bind_ret_eq _ _ _ _ _ E). split; [done|]. split; [done|]. split; [done|]. intros d' L0' L1' Hok' HN.
    apply (holds_lose w1 d L0 L1 s w' d' L0' L1' n k y); try done. by destruct Hgone as (t & i & l1 & l2 & _ & _ & _ & ?).
  - split; [done|]. destruct Hdel as (w' & E & Hw'). exists w'. by rewrite bind_assoc, (bind_ret_eq _ _ _ _ _ E).
Qed.

Lemma perform_remove k w s : implements w s -> exists w',
  perform (Remove k) w = Ret (respond (Remove k) s).2 w' /\ implements w' (respond (Remove k) s).1.
Proof.
  intros (d & L0 & L1 & Hh). destruct (step_holds _ _ _ _ _ Hh) as (w1 & d1 & L01 & L11 & Hst & Hh1).
  pose proof (remove_done k _ _ _ _ _ _ _ _ _ Hh Hst Hh1) as Hdel. unfold respond.
  destruct (lookup_node type (content k) (concat L01 ++ concat L11)) as [n|].
  - destruct Hdel as (w' & x & E & -> & Hgone & Hlose). exists w'. split; [done|].
    destruct (deleted_perm type _ _ _ _ _ _ _ _ _ Hgone) as (d' & L0' & L1' & Hok' & HN & _). exists d', L0', L1'. by apply Hlose.
  - destruct Hdel as (-> & w' & E & Hw'). exists w'. split; [done|]. destruct Hw' as [->| ->]; by do 3 eexists.
Qed.

Lemma perform_unlink k w s : implements w s -> exists w',
  perform (Unlink k) w = Ret (respond (Unlink k) s).2 w' /\ implements w' (respond (Unlink k) s).1.
Proof.
  intros (d0 & M0 & M1 & Hh0). destruct (step_holds _ _ _ _ _ Hh0) as (w1 & d & L0 & L1 & Hst & Hh).
  pose proof Hh0 as (Hok0 & _). pose proof (look_eq _ _ _ _ _ k Hh) as Hl.
  pose proof (generic_delete_at type w d0 M0 M1 w1 d L0 L1 [] k true Hok0 Hst) as Hdel. unfold perform, respond, dictUnlink.
  destruct (lookup_node type (content k) (concat L0 ++ concat L1)) as [n|].
  - destruct Hl as (y & R & Hy & -> & Hc & _). destruct (Hdel y Hy) as (w2 & E & Hgone).
    destruct (deleted_perm type _ _ _ _ _ _ _ _ _ Hgone) as (d' & L0' & L1' & Hok2 & HN & _ & Hq).
    destruct (unlinked_entry type _ _ _ _ _ _ Hok2) as (q & Hq'). rewrite (bind_ret_eq _ _ _ _ _ E), (bind_ret_eq _ _ _ _ _ (load_entry w2 _ _ Hq')).
    destruct (free_unlinked_ok type w2 d' L0' L1' [] n y Hok2 Hy) as (w' & E' & Hok' & Hlog). exists w'.
    rewrite (bind_ret_eq _ _ _ _ _ E'). cbn [v entry_of]. rewrite Hy. split; [done|]. exists d', L0', L1'.
    apply (holds_lose w1 d L0 L1 s w' d' L0' L1' n k y); try done.
    rewrite <- (app_nil_r (key_log _ _)), <- (app_nil_r (val_log _ _)). by apply (logged_trans [] [] _ _ w1 w2 w').
  - rewrite Hl. destruct Hdel as (w' & E & Hw'). exists w'. rewrite (bind_ret_eq _ _ _ _ _ E).
    split; [done|]. destruct Hw' as [->| ->]; by do 3 eexists.
Qed.

Lemma perform_empty w s : implements w s -> exists w',
  perform Empty w = Ret (respond Empty s).2 w' /\ implements w' (respond Empty s).1.
Proof.
  intros (d & L0 & L1 & Hok & Hv & Hb & Hk & Hx). destruct (empty_ok type w d L0 L1 [] Hok Hv) as (w' & E & Hok' & F1 & F2 & _).
  pose proof (contents_list _ (ok_distinct _ _ _ _ _ Hok) Hv) as [C1 C2].
  exists w'. unfold perform. rewrite (bind_ret_eq _ _ _ _ _ E). split; [done|]. exists _dictInit, [], [].
  split; [done|]. split; [constructor|]. split; [done|]. cbn. rewrite F1, F2, Hk, Hx, Hb.
  by destruct (keyDestructor type), (valDestructor type); rewrite ?C1, ?C2.
Qed.

Lemma perform_size w s : implements w s -> perform Size w = Ret (respond Size s).2 w.
Proof.
  intros (d & L0 & L1 & Hh). pose proof Hh as (Hok & _). unfold perform. rewrite (bind_ret_eq _ _ _ _ _ (the_eq w d (ok_dict _ _ _ _ _ _ Hok))).
  unfold dictSize. destruct (ht0_bounds _ _ _ _ _ _ Hok) as (H0 & H1 & E0 & E1 & Hs). rewrite u64_id by lia.
  by rewrite E0, E1, <- zlen_app, (few _ _ _ _ _ Hh).
Qed.

Lemma expand_enlarged w d L0 L1 U size : dict_ok type w d L0 L1 U -> size <= 2 ^ 60 -> exists r w' d' L0' L1',
  dictExpand size w = Ret r w' /\ enlarged type w d L0 L1 U w' d' L0' L1'.
Proof.
  intros Hok Hs. destruct (dictExpand_eq type w d L0 L1 U size Hok Hs) as (e & He & _ & _ & E). rewrite E.
  destruct (dictIsRehashing d) eqn:Er; cbn [orb]; [by exists DICT_ERR, w, d, L0, L1; split; [|apply enlarged_refl]|].
  destruct (_ || _); [by exists DICT_ERR, w, d, L0, L1; split; [|apply enlarged_refl]|].
  destruct (expanded_ok type w d L0 L1 U e Hok Er He) as (d' & L0' & L1' & Hen & _).
  by exists DICT_OK, (expanded e d w), d', L0', L1'.
Qed.

(** Resizing to what is stored never asks for more than there is. *)
Lemma resize_enlarged w d L0 L1 U : dict_ok type w d L0 L1 U -> exists r w' d' L0' L1',
  dictResize w = Ret r w' /\ enlarged type w d L0 L1 U w' d' L0' L1'.
Proof.
  intros Hok. unfold dictResize. rewrite (bind_ret_eq get _ w w w eq_refl), (bind_ret_eq _ _ _ _ _ (the_eq w d (ok_dict _ _ _ _ _ _ Hok))).
  destruct (_ || _); [by exists DICT_ERR, w, d, L0, L1; split; [|apply enlarged_refl]|]. cbv zeta.
  apply expand_enlarged; [done|]. unfold DICT_HT_INITIAL_SIZE, i32. destruct (_ <? _); [lia|].
  pose proof (Z.mod_pos_bound (used (ht0 d) + 2147483648) 4294967296). lia.
Qed.

(** Commands that change the tables at most. *)
Lemma tables_done c w d L0 L1 s : holds w d L0 L1 s -> reasonable c ->
  match c with Size | Resize | Expand _ | EnableResize | DisableResize => done_at w w d L0 L1 c s | _ => True end.
Proof.
  intros Hh Hc. pose proof Hh as (Hok & Hv & Hb & Hk & Hx). pose proof (enlarged_steady type w d L0 L1 []) as Hst.
  assert (Hglobal : forall b, holds (with_resize b w) d L0 L1 s /\ steady type w d L0 L1 [] (with_resize b w) d L0 L1).
  { intros b. assert (Hok' : dict_ok type (with_resize b w) d L0 L1 []).
    { eapply dict_ok_entries; [exact Hok|done|done|done| |done|].
      - by eapply nodes_ok_frame, Hok.
      - intros a Ha. apply (ok_brk _ _ _ _ _ _ Hok). by left. }
    split; [done|]. split; [done| |done|apply Pos.le_refl]. apply spread_wider; apply widened_refl. }
  destruct c as [k x|k x|k|k|k| | | |n|n| |]; try done.
  - exists w, d, L0, L1. split; [apply perform_size; by do 3 eexists|]. split; [done|]. by apply Hst, enlarged_refl.
  - destruct (resize_enlarged w d L0 L1 [] Hok) as (r & w' & d' & L0' & L1' & E & Hen). exists w', d', L0', L1'. unfold perform.
    rewrite (bind_ret_eq _ _ _ _ _ E). split; [done|]. split; [by eapply holds_enlarged|by apply Hst].
  - destruct (expand_enlarged w d L0 L1 [] n Hok Hc) as (r & w' & d' & L0' & L1' & E & Hen). exists w', d', L0', L1'. unfold perform.
    rewrite (bind_ret_eq _ _ _ _ _ E). split; [done|]. split; [by eapply holds_enlarged|by apply Hst].
  - exists (with_resize true w), d, L0, L1. split; [done|apply Hglobal].
  - exists (with_resize false w), d, L0, L1. split; [done|apply Hglobal].
Qed.

(** Every command answers as the map does. *)
Lemma command_ok c w s : implements w s -> Z.of_nat (base.size (bound s)) < 2 ^ 59 -> reasonable c -> exists w',
  perform c w = Ret (respond c s).2 w' /\ implements w' (respond c s).1.
Proof.
  intros Hi Hf Hc. pose proof Hi as (d & L0 & L1 & Hh). destruct (step_holds _ _ _ _ _ Hh) as (w1 & d1 & L01 & L11 & Hst & Hh1).
  assert (Hdone : forall w1 d L0 L1, done_at w w1 d L0 L1 c s -> exists w',
    perform c w = Ret (respond c s).2 w' /\ implements w' (respond c s).1).
  { intros w2 d2 L02 L12 (w' & d' & L0' & L1' & E & Hh' & _). exists w'. split; [done|]. by exists d', L0', L1'. }
  destruct c as [k x|k x|k|k|k| | | |n|n| |].
  - eapply Hdone, add_done; [exact Hst|done..].
  - eapply Hdone, replace_done; [exact Hst|done..].
  - by apply perform_fetch.
  - by apply perform_remove.
  - by apply perform_unlink.
  - eapply Hdone, (tables_done Size); done.
  - by apply perform_empty.
  - eapply Hdone, (tables_done Resize); done.
  - eapply Hdone, (tables_done (Expand n)); done.
  - pose proof Hh as (Hok & _).
    destruct (dictRehash_ok type w d L0 L1 [] n Hok) as (r & w' & d' & L0' & L1' & E & Hok' & HP & Hit & Hq & Ht & _).
    exists w'. unfold perform. rewrite (bind_ret_eq _ _ _ _ _ E). split; [done|]. exists d', L0', L1'. eapply holds_rearranged; [exact Hh|done..].
  - eapply Hdone, (tables_done EnableResize); done.
  - eapply Hdone, (tables_done DisableResize); done.
Qed.

(** ** Sequences of commands *)
Definition no_bindings : spec K V C := {| bound := ∅; gone_keys := []; gone_vals := [] |}.

(** A heap without blocks; [dict_can_resize] and [g_IsForkedProcess] may be anything. *)
Definition blank (resize forked : bool) : world K V :=
  {| the_dict := None; entries := ∅; tables := ∅; brk := 1; freed_keys := []; freed_vals := [];
     dict_can_resize := resize; g_IsForkedProcess := forked |}.

Lemma create_ok resize forked : exists w, dictCreate (blank resize forked) = Ret tt w /\ implements w no_bindings.
Proof.
  exists (with_the_dict (Some _dictInit) (blank resize forked)). split; [done|]. exists _dictInit, [], [].
  split; [|by split_and!; [constructor|..]]. split.
  - done.
  - done.
  - done.
  - intros _. by split.
  - split; [constructor|constructor|done|constructor|done].
  - done.
  - done.
  - intros a. cbn. rewrite !dom_empty. set_solver.
  - done.
Qed.

Lemma respond_size c s : (base.size (bound (respond c s).1) <= Datatypes.S (base.size (bound s)))%nat.
Proof.
  assert (Hput : forall k p, (base.size (<[content (type := type) k := p]> (bound s)) <= Datatypes.S (base.size (bound s)))%nat).
  { intros k p. destruct (bound s !! content k) eqn:E.
    - rewrite map_size_insert_Some by done. lia.
    - rewrite map_size_insert_None by done. lia. }
  assert (Hlose : forall k, (base.size (delete (content (type := type) k) (bound s)) <= Datatypes.S (base.size (bound s)))%nat).
  { intros k. rewrite map_size_delete. destruct (bound s !! content k); cbn; lia. }
  destruct c as [k x|k x|k|k|k| | | |n|n| |]; cbn; rewrite ?map_size_empty; try lia.
  all: destruct (bound s !! content k) as [[k' y]|]; cbn; try lia; first [apply Hput|apply Hlose].
Qed.

Lemma respond_all_size cs : forall s, (base.size (bound (respond_all cs s).1) <= base.size (bound s) + length cs)%nat.
Proof.
  induction cs as [|c cs IH]; intros s; cbn; [lia|]. pose proof (respond_size c s) as Hc.
  destruct (respond c s) as [s1 a]. specialize (IH s1). destruct (respond_all cs s1) as [s2 l]. cbn in *. lia.
Qed.

Lemma perform_all_ok cs : forall w s, implements w s -> Z.of_nat (base.size (bound s)) + Z.of_nat (length cs) <= 2 ^ 59 ->
  Forall reasonable cs -> exists w', perform_all cs w = Ret (respond_all cs s).2 w' /\ implements w' (respond_all cs s).1.
Proof.
  induction cs as [|c cs IH]; intros w s Hi Hf Hc; [by exists w|]. apply Forall_cons in Hc as [Hc Hcs].
  cbn [length] in Hf. destruct (command_ok c w s Hi) as (w1 & E & Hi1); [lia|done|]. pose proof (respond_size c s) as Hsz.
  cbn [perform_all respond_all]. rewrite (bind_ret_eq _ _ _ _ _ E). destruct (respond c s) as [s1 a]. cbn [fst snd] in *.
  destruct (IH w1 s1 Hi1) as (w' & E' & Hi'); [lia|done|]. rewrite (bind_ret_eq _ _ _ _ _ E').
  destruct (respond_all cs s1) as [s2 l]. by exists w'.
Qed.

Lemma release_all w s : implements w s -> exists w', dictRelease type w = Ret tt w' /\ the_dict w' = None /\
  entries w' = ∅ /\ tables w' = ∅ /\ freed_keys w' ≡ₚ gone_keys (lose_all s) /\ freed_vals w' ≡ₚ gone_vals (lose_all s).
Proof.
  intros (d & L0 & L1 & Hok & Hv & Hb & Hk & Hx). destruct (release_ok type w d L0 L1 [] Hok Hv) as (w' & E & Hd & HT & HE & F1 & F2 & _).
  pose proof (contents_list _ (ok_distinct _ _ _ _ _ Hok) Hv) as [C1 C2]. exists w'. split; [done|]. split; [done|].
  split; [by apply dom_empty_inv_L|]. split; [done|]. cbn. rewrite F1, F2, Hk, Hx, Hb.
  by destruct (keyDestructor type), (valDestructor type); rewrite ?C1, ?C2.
Qed.
End map.

(** C10: a dictionary is a finite map. For any dictionary type whose comparison is
    equality of contents and whose hash and duplicates depend on contents, any
    sequence of additions, replacements, lookups, removals, unlinkings, clearings
    and resizings on a new dictionary - with incremental rehashing at work, allowed
    to resize or not, in a forked process or not - runs without undefined
    behaviour and answers as the map from contents to stored keys and values;
    after it, [dictRelease] leaves no block of the heap behind, and the destructors
    have been called for exactly the keys and values the map lost, each once. *)
Theorem dict_refines_map {K V} `{EqDecision K} (type : dictType K V) {C} `{Countable C} {DL : DictLaws type C}
    resize forked cs : Z.of_nat (length cs) <= 2 ^ 59 -> Forall reasonable cs ->
  let final := (respond_all type cs (no_bindings (C := C))).1 in
  exists w w', (dictCreate ;;; perform_all type cs) (blank resize forked) = Ret (respond_all type cs (no_bindings (C := C))).2 w /\
    dictRelease type w = Ret tt w' /\ the_dict w' = None /\ entries w' = ∅ /\ tables w' = ∅ /\
    freed_keys w' ≡ₚ gone_keys (lose_all type final) /\ freed_vals w' ≡ₚ gone_vals (lose_all type final).
Proof.
  intros Hlen Hc final. destruct (create_ok type (C := C) resize forked) as (w0 & E0 & Hi0).
  destruct (perform_all_ok type cs w0 _ Hi0) as (w & E & Hi); [cbn; rewrite map_size_empty; lia|done|].
  destruct (release_all type w _ Hi) as (w' & E' & Hrest). exists w, w'. rewrite (bind_ret_eq _ _ _ _ _ E0). done.
Qed.

(** ** On concrete inputs *)

(** Keys are numbers, of which only the last three digits are content. *)
Definition digits_type : dictType Z Z := {|
  hashFunction := fun k => (k mod 1000) * 40503 mod 65536;
  keyDup := Some (fun k => k + 1000);
  valDup := None;
  keyCompare := Some (fun k k' => k mod 1000 =? k' mod 1000);
  keyDestructor := true;
  valDestructor := true
|}.
#[export] Instance digits_laws : DictLaws digits_type Z.
Proof.
  refine {| content := fun k => k mod 1000 |}.
  - intros k k'. unfold dictCompareKeys. cbn. destruct (Z.eqb_spec (k mod 1000) (k' mod 1000)); by case_bool_decide.
  - intros k k' E. cbn. by rewrite E.
  - intros k. cbn. pose proof (Z.mod_pos_bound (k mod 1000 * 40503) 65536). lia.
  - intros k. cbn. rewrite <- (Z.mul_1_l 1000) at 1. by rewrite Z.mod_add.
Defined.

Definition sample_commands : list (command Z Z) :=
  map (fun i => Add (Z.of_nat i) (Z.of_nat i * 10)) (seq 0 9) ++
  [Replace 2003 7; Add 4 1; Fetch 3; Remove 8; Unlink 5; Fetch 5; Resize; Rehash 1; Size].

(** Nine entries and the first growth beyond four and then eight buckets. *)
Lemma dict_refines_map_witness : exists w w',
  (dictCreate ;;; perform_all digits_type sample_commands) (blank true false) =
    Ret (replicate 9 (Int DICT_OK) ++ [Int 0; Int DICT_ERR; Val (Some 7); Int DICT_OK; Val (Some 50); Val None; Done; Done; Int 7]) w /\
  dictRelease digits_type w = Ret tt w' /\ entries w' = ∅ /\ tables w' = ∅.
Proof.
  destruct (dict_refines_map digits_type true false sample_commands) as (w & w' & E & E' & _ & He & Ht & _).
  - vm_compute. discriminate.
  - cbn [sample_commands map seq app]. repeat (apply Forall_cons; split; [exact I|]). by apply Forall_nil.
  - assert (R : (respond_all digits_type sample_commands no_bindings).2 =
      replicate 9 (Int DICT_OK) ++ [Int 0; Int DICT_ERR; Val (Some 7); Int DICT_OK; Val (Some 50); Val None; Done; Done; Int 7])
      by (vm_compute; reflexivity).
    rewrite R in E. exists w, w'. exact (conj E (conj E' (conj He Ht))).
Defined.

(** Nine entries, of which the last one makes the table grow: both tables are in use. *)
Definition nine : list (command Z Z) := map (fun i => Add (Z.of_nat i) (Z.of_nat i * 10)) (seq 0 9).
Definition nine_world : world Z Z :=
  match (dictCreate ;;; perform_all digits_type nine) (blank true false) with Ret _ w => w | _ => blank true false end.
Definition nine_map : spec Z Z Z := (respond_all digits_type nine no_bindings).1.

Lemma nine_ok : implements digits_type nine_world nine_map.
Proof.
  destruct (create_ok digits_type (C := Z) true false) as (w0 & E0 & Hi0).
  destruct (perform_all_ok digits_type nine w0 no_bindings Hi0) as (w & E & Hi).
  - vm_compute. discriminate.
  - unfold nine. cbn [map seq]. repeat (apply Forall_cons; split; [exact I|]). by apply Forall_nil.
  - unfold nine_world. by rewrite (bind_ret_eq _ _ _ _ _ E0), E.
Qed.

(** A size from 2^61 on: the number of bytes of the table wraps to zero, and the first
    entry is stored outside of it. *)
Example huge_table_has_no_buckets :
  (dictCreate ;;; dictExpand (2 ^ 61) ;;; dictAdd digits_type 1 1) (blank true false) = Fault OutOfBounds.
Proof. vm_compute. reflexivity. Qed.
