(* ===== verification/DictScan.v ===== *)
(** [dictScan] of dict.c: a cursor that counts in reversed bits, so that a scan
    whose calls are interleaved with any changes of the dictionary, of its size
    included, returns every entry that is there throughout. *)
From S2P Require Import Prelude Util Dict DictProofs DictRehash DictOps DictClear DictMap.
#[local] Open Scope Z_scope.

(** ** Reversing the bits of a word *)

(** A turn of the loop: bits whose place is set in the mask come from [s] places
    above, the others from [s] places below. *)
Definition rev_step (s mask v : Z) : Z := Z.lor (Z.land (Z.shiftr v s) mask) (Z.land (u64 (Z.shiftl v s)) (not64 mask)).
Definition rev_source (s mask i : Z) : Z := if Z.testbit mask i then i + s else i - s.

Lemma u64_testbit x i : 0 <= i -> Z.testbit (u64 x) i = if i <? 64 then Z.testbit x i else false.
Proof.
  intros Hi. unfold u64. change 18446744073709551616 with (2 ^ 64). destruct (Z.ltb_spec i 64).
  - by apply Z.mod_pow2_bits_low.
  - apply Z.mod_pow2_bits_high. lia.
Qed.
Lemma not64_testbit x i : 0 <= i < 64 -> Z.testbit (not64 x) i = negb (Z.testbit x i).
Proof. intros Hi. unfold not64. rewrite u64_testbit, (proj2 (Z.ltb_lt _ _)) by lia. apply Z.lnot_spec. lia. Qed.

Lemma u64_bits x : 0 <= x -> (forall i, 64 <= i -> Z.testbit x i = false) -> 0 <= x < 2 ^ 64.
Proof.
  intros Hx Hb. assert (E : x = u64 x).
  { apply Z.bits_inj'. intros i Hi. rewrite u64_testbit by done. destruct (Z.ltb_spec i 64); [done|by apply Hb]. }
  rewrite E. apply Z.mod_pos_bound. lia.
Qed.
Lemma bits_u64 x i : 0 <= x < 2 ^ 64 -> 64 <= i -> Z.testbit x i = false.
Proof.
  intros Hx Hi. rewrite <- (Z.mod_small x (2 ^ 64)) by done. apply Z.mod_pow2_bits_high. lia.
Qed.

Lemma rev_step_bit s mask v i : 0 <= s -> 0 <= i < 64 -> 0 <= rev_source s mask i ->
  Z.testbit (rev_step s mask v) i = Z.testbit v (rev_source s mask i).
Proof.
  intros Hs Hi Hsrc. unfold rev_step, rev_source in *. rewrite Z.lor_spec, !Z.land_spec, Z.shiftr_spec, not64_testbit by lia.
  rewrite u64_testbit, (proj2 (Z.ltb_lt i 64)), Z.shiftl_spec by lia. destruct (Z.testbit mask i); cbn.
  - by rewrite andb_true_r, andb_false_r, orb_false_r.
  - by rewrite andb_false_r, andb_true_r.
Qed.
Lemma rev_step_range s mask v : 0 <= v < 2 ^ 64 -> 0 <= mask < 2 ^ 64 -> 0 <= rev_step s mask v < 2 ^ 64.
Proof.
  intros Hv Hm. assert (Hn : 0 <= not64 mask < 2 ^ 64) by (apply Z.mod_pos_bound; lia). unfold rev_step. apply u64_bits.
  - apply Z.lor_nonneg. split; apply Z.land_nonneg; right; lia.
  - intros i Hi. rewrite Z.lor_spec, !Z.land_spec, (bits_u64 mask i), (bits_u64 (not64 mask) i) by done.
    by rewrite !andb_false_r.
Qed.

(** The six turns, the last one first, with their masks. *)
Definition rev_steps : list (Z * Z) :=
  [(1, 0x5555555555555555); (2, 0x3333333333333333); (4, 0x0f0f0f0f0f0f0f0f); (8, 0x00ff00ff00ff00ff);
   (16, 0x0000ffff0000ffff); (32, 0x00000000ffffffff)].
Definition run_steps (l : list (Z * Z)) (v : Z) : Z := fold_right (fun p v => rev_step p.1 p.2 v) v l.
(** Where bit [i] of the result comes from. *)
Fixpoint trace (l : list (Z * Z)) (i : Z) : option Z :=
  match l with
  | [] => Some i
  | (s, mask) :: l => let j := rev_source s mask i in
      if (0 <=? s) && (0 <=? j) && (j <? 64) then trace l j else None
  end.

Lemma rev_eq v : rev v = run_steps rev_steps v.
Proof. reflexivity. Qed.

Lemma run_steps_bit l : forall v i j, 0 <= i < 64 -> trace l i = Some j -> Z.testbit (run_steps l v) i = Z.testbit v j.
Proof.
  induction l as [|[s mask] l IH]; intros v i j Hi Ht; [by injection Ht as <-|]. cbn [trace] in Ht.
  destruct (_ && _) eqn:E; [|done]. apply andb_true_iff in E as [[E1%Z.leb_le E2%Z.leb_le]%andb_true_iff E3%Z.ltb_lt].
  cbn [run_steps fold_right fst snd]. rewrite rev_step_bit by lia. by apply IH.
Qed.

Lemma trace_all : forallb (fun i => bool_decide (trace rev_steps (Z.of_nat i) = Some (63 - Z.of_nat i))) (seq 0 64) = true.
Proof. vm_compute. reflexivity. Qed.

(** [rev] reverses the 64 bits of its argument. *)
Lemma rev_bit v i : 0 <= i < 64 -> Z.testbit (rev v) i = Z.testbit v (63 - i).
Proof.
  intros Hi. rewrite rev_eq. apply run_steps_bit; [done|]. pose proof trace_all as Ha. rewrite forallb_forall in Ha.
  specialize (Ha (Z.to_nat i)). rewrite bool_decide_eq_true in Ha. rewrite <- (Z2Nat.id i) by lia. apply Ha.
  apply in_seq. lia.
Qed.
Lemma rev_range v : 0 <= v < 2 ^ 64 -> 0 <= rev v < 2 ^ 64.
Proof.
  intros Hv. rewrite rev_eq. cbn [rev_steps run_steps fold_right fst snd]. by repeat (apply rev_step_range; [|lia]).
Qed.
Lemma rev_rev v : 0 <= v < 2 ^ 64 -> rev (rev v) = v.
Proof.
  intros Hv. apply Z.bits_inj'. intros i Hi. destruct (Z.ltb_spec i 64).
  - rewrite !rev_bit by lia. f_equal. lia.
  - rewrite !bits_u64; [done|done|done|by apply rev_range, rev_range|done].
Qed.
Lemma rev_zero v : 0 <= v < 2 ^ 64 -> rev v = 0 -> v = 0.
Proof. intros Hv E. by rewrite <- (rev_rev v Hv), E. Qed.

(** ** The cursor

    A table of 2^k buckets is a division of the 2^64 reversed hashes into 2^k intervals
    of equal length, and a bucket is one of them. *)
Lemma lor_ones r b : 0 <= b -> Z.lor r (Z.ones b) + 1 = (r / 2 ^ b + 1) * 2 ^ b.
Proof.
  intros Hb. pose proof (Z.pow_pos_nonneg 2 b).
  assert (Hdiv : Z.lor r (Z.ones b) / 2 ^ b = r / 2 ^ b).
  { rewrite <- !Z.shiftr_div_pow2, Z.shiftr_lor by lia. rewrite (Z.shiftr_div_pow2 (Z.ones b)) by lia.
    rewrite Z.ones_equiv, Z.div_small by lia. apply Z.lor_0_r. }
  assert (Hmod : Z.lor r (Z.ones b) mod 2 ^ b = 2 ^ b - 1).
  { rewrite <- Z.land_ones by lia. replace (2 ^ b - 1) with (Z.ones b) by (rewrite Z.ones_equiv; lia). apply Z.bits_inj'. intros i Hi.
    rewrite Z.land_spec, Z.lor_spec. by destruct (Z.testbit (Z.ones b) i), (Z.testbit r i). }
  pose proof (Z.div_mod (Z.lor r (Z.ones b)) (2 ^ b)). lia.
Qed.

Lemma rev_or_mask v k : 0 <= v < 2 ^ 64 -> 0 <= k <= 64 -> rev (Z.lor v (not64 (2 ^ k - 1))) = Z.lor (rev v) (Z.ones (64 - k)).
Proof.
  intros Hv Hk. assert (Hn : 0 <= not64 (2 ^ k - 1) < 2 ^ 64) by (apply Z.mod_pos_bound; lia).
  assert (Hl : 0 <= Z.lor v (not64 (2 ^ k - 1)) < 2 ^ 64).
  { apply u64_bits; [apply Z.lor_nonneg; lia|]. intros i Hi. rewrite Z.lor_spec, !bits_u64 by done. done. }
  apply Z.bits_inj'. intros i Hi. rewrite Z.lor_spec, Z.testbit_ones_nonneg by lia.
  destruct (Z.ltb_spec i 64) as [Hlt|Hge].
  - rewrite !rev_bit, Z.lor_spec, not64_testbit by lia. f_equal.
    replace (2 ^ k - 1) with (Z.ones k) by (rewrite Z.ones_equiv; lia). rewrite Z.testbit_ones_nonneg by lia.
    destruct (Z.ltb_spec (63 - i) k), (Z.ltb_spec i (64 - k)); cbn; lia.
  - rewrite !bits_u64 by (done || by apply rev_range). destruct (Z.ltb_spec i (64 - k)); [lia|done].
Qed.

Lemma u64_range x : 0 <= u64 x < 2 ^ 64.
Proof. apply Z.mod_pos_bound. lia. Qed.

Lemma next_cursor_rev v k : 0 <= v < 2 ^ 64 -> 0 <= k <= 64 ->
  0 <= next_cursor v (2 ^ k - 1) < 2 ^ 64 /\
  rev (next_cursor v (2 ^ k - 1)) = u64 ((rev v / 2 ^ (64 - k) + 1) * 2 ^ (64 - k)).
Proof.
  intros Hv Hk. unfold next_cursor. cbv zeta. rewrite rev_or_mask, lor_ones by (done || lia).
  split; [apply rev_range, u64_range|]. apply rev_rev, u64_range.
Qed.

(** The bucket of a hash is that of the cursor when both lie in the same interval. *)
Lemma same_bucket v h k : 0 <= v < 2 ^ 64 -> 0 <= h < 2 ^ 64 -> 0 <= k <= 64 ->
  rev v / 2 ^ (64 - k) = rev h / 2 ^ (64 - k) -> Z.land v (2 ^ k - 1) = h mod 2 ^ k.
Proof.
  intros Hv Hh Hk E. rewrite <- Z.land_ones by lia. replace (2 ^ k - 1) with (Z.ones k) by (rewrite Z.ones_equiv; lia).
  apply Z.bits_inj'. intros i Hi. rewrite !Z.land_spec, Z.testbit_ones_nonneg by lia.
  destruct (Z.ltb_spec i k) as [Hlt|]; [|by rewrite !andb_false_r]. f_equal.
  assert (Hb : forall x, 0 <= x < 2 ^ 64 -> Z.testbit x i = Z.testbit (rev x / 2 ^ (64 - k)) (k - 1 - i)).
  { intros x Hx. rewrite Z.div_pow2_bits by lia. replace (k - 1 - i + (64 - k)) with (63 - i) by lia.
    rewrite <- (rev_rev x) at 1 by done. rewrite rev_bit by lia. done. }
  by rewrite !Hb, E by done.
Qed.

(** The test of the inner loop: whether the cursor has left the interval of the smaller table. *)
Lemma mask_test v k0 k1 : 0 <= v < 2 ^ 64 -> 0 <= k0 <= k1 -> k1 <= 64 ->
  Z.land v (Z.lxor (2 ^ k0 - 1) (2 ^ k1 - 1)) = 0 <-> rev v mod 2 ^ (64 - k0) / 2 ^ (64 - k1) = 0.
Proof.
  intros Hv Hk0 Hk1. replace (2 ^ k0 - 1) with (Z.ones k0) by (rewrite Z.ones_equiv; lia).
  replace (2 ^ k1 - 1) with (Z.ones k1) by (rewrite Z.ones_equiv; lia).
  assert (Hl : forall i, 0 <= i -> Z.testbit (Z.land v (Z.lxor (Z.ones k0) (Z.ones k1))) i =
    Z.testbit v i && (k0 <=? i) && (i <? k1)).
  { intros i Hi. rewrite Z.land_spec, Z.lxor_spec, !Z.testbit_ones_nonneg by lia.
    destruct (Z.ltb_spec i k0), (Z.ltb_spec i k1), (Z.leb_spec k0 i), (Z.testbit v i); cbn; lia. }
  assert (Hr : forall i, 0 <= i -> Z.testbit (rev v mod 2 ^ (64 - k0) / 2 ^ (64 - k1)) i =
    Z.testbit (rev v) (i + (64 - k1)) && (i + (64 - k1) <? 64 - k0)).
  { intros i Hi. rewrite Z.div_pow2_bits by lia. destruct (Z.ltb_spec (i + (64 - k1)) (64 - k0)).
    - rewrite Z.mod_pow2_bits_low by lia. by rewrite andb_true_r.
    - rewrite Z.mod_pow2_bits_high by lia. by rewrite andb_false_r. }
  split; intros E; apply Z.bits_inj'; intros i Hi; rewrite Z.bits_0.
  - rewrite Hr by done. destruct (Z.ltb_spec (i + (64 - k1)) (64 - k0)); [|apply andb_false_r].
    rewrite rev_bit by lia. pose proof (Hl (63 - (i + (64 - k1))) ltac:(lia)) as Hb. rewrite E, Z.bits_0 in Hb.
    rewrite (proj2 (Z.leb_le _ _)), (proj2 (Z.ltb_lt _ _)), !andb_true_r in Hb by lia. by rewrite <- Hb.
  - rewrite Hl by done. destruct (Z.leb_spec k0 i), (Z.ltb_spec i k1); rewrite ?andb_false_r; try done.
    pose proof (Hr (k1 - 1 - i) ltac:(lia)) as Hb. rewrite E, Z.bits_0, (proj2 (Z.ltb_lt _ _)), andb_true_r in Hb by lia.
    rewrite rev_bit in Hb by lia. replace (63 - (k1 - 1 - i + (64 - k1))) with i in Hb by lia. by rewrite <- Hb.
Qed.

(** ** One call *)
Section scan.
Context {K V : Type} {EK : EqDecision K} (type : dictType K V) {C : Type} {EC : EqDecision C} {CC : Countable C} {DL : DictLaws type C}.
Implicit Types (w : world K V) (l N U : list (node K V)) (L : list (list (node K V))) (n : node K V) (d : dict).

(** The place of a node in the order of a scan. *)
Definition place n : Z := rev (hashFunction type (nkey n)).

Lemma emit_chain_eq w l : forall m p emitted, (length l < m)%nat -> chain (entries w) p l ->
  while_loop m (fun '(de, emitted) =>
    match de with
    | None => ret (inr emitted)
    | Some p => let* e := load p in ret (inl (next e, emitted ++ [p]))
    end) (p, emitted) w = Ret (emitted ++ (addr <$> l)) w.
Proof.
  induction l as [|n l IH]; intros m p emitted Hm Hc; (destruct m as [|m]; [cbn in Hm; lia|]); cbn [while_loop].
  - cbn in Hc. subst p. by rewrite app_nil_r.
  - destruct Hc as [-> (q & Hq & Hc)]. rewrite bind_assoc, (bind_ret_eq _ _ _ _ _ (load_entry w _ _ Hq)).
    unfold bind at 1, ret at 1. cbn [next]. rewrite (IH m q (emitted ++ [addr n])) by (done || cbn in Hm; lia).
    by rewrite <- app_assoc.
Qed.

(** A visit to a bucket emits the nodes whose place is in the interval of the cursor. *)
Lemma emit_bucket_ok w d L0 L1 U t v emitted : dict_ok type w d L0 L1 U -> table (ht d t) <> None -> 0 <= v < 2 ^ 64 ->
  exists k l, 2 <= k <= 60 /\ hsize (ht d t) = 2 ^ k /\ sizemask (ht d t) = 2 ^ k - 1 /\
    emit_bucket t (Z.land v (sizemask (ht d t))) emitted w = Ret (emitted ++ (addr <$> l)) w /\
    (forall n, n ∈ l -> n ∈ concat L0 ++ concat L1) /\
    (forall n, n ∈ concat (buckets L0 L1 t) -> place n / 2 ^ (64 - k) = rev v / 2 ^ (64 - k) -> n ∈ l).
Proof.
  intros Hok Ht Hv. pose proof (ok_ht _ _ _ _ _ _ t Hok) as Htab. unfold table_ok in Htab.
  destruct (table (ht d t)) as [b|] eqn:Eb; [|done]. destruct Htab as (ps & Hps & Hs).
  destruct (sh_pow _ _ _ _ _ Hs) as (k & Hk & Hsz). pose proof (sh_mask _ _ _ _ _ Hs) as Hm. rewrite Hsz in Hm.
  assert (Hland : Z.land v (sizemask (ht d t)) = v mod 2 ^ k).
  { rewrite Hm. replace (2 ^ k - 1) with (Z.ones k) by (rewrite Z.ones_equiv; lia). apply Z.land_ones. lia. }
  pose proof (Z.mod_pos_bound v (2 ^ k) ltac:(lia)) as Hi. rewrite <- Hland in Hi.
  destruct (lookup_lt_is_Some_2 (buckets L0 L1 t) (Z.to_nat (Z.land v (sizemask (ht d t))))) as [l Hl].
  { pose proof (sh_size _ _ _ _ _ Hs) as Hz. unfold zlen in Hz. lia. }
  destruct (Forall2_lookup_r _ _ _ _ _ (sh_chains _ _ _ _ _ Hs) Hl) as (p & Hp & Hc).
  destruct (bucket_nodes _ _ _ _ _ _ _ _ _ Hok Hl) as (Hnd & Hin & _).
  pose proof (chain_short _ _ _ Hc Hnd) as Hfuel. exists k, l. split; [done|]. split; [done|]. split; [done|]. split; [|split; [done|]].
  - unfold emit_bucket. rewrite (bind_ret_eq _ _ _ _ _ (the_eq w d (ok_dict _ _ _ _ _ _ Hok))), Eb.
    rewrite <- (Z2Nat.id (Z.land v (sizemask (ht d t)))) by lia. rewrite (bind_ret_eq _ _ _ _ _ (bucket_eq w b ps _ p Hps Hp)).
    unfold chain_fuel. erewrite bind_ret_eq by (erewrite bind_ret_eq by reflexivity; reflexivity).
    by apply emit_chain_eq; [lia|].
  - intros n Hn E. apply elem_of_concat in Hn as (j & l' & Hj & Hn). pose proof (sh_placed _ _ _ _ _ Hs j l' Hj) as Hpl.
    rewrite Forall_forall in Hpl. specialize (Hpl n Hn). unfold slot in Hpl. rewrite Hsz in Hpl.
    pose proof (hash_range (nkey n) : 0 <= hashFunction type (nkey n) < 2 ^ 64) as Hh.
    pose proof (same_bucket v _ k Hv Hh ltac:(lia) (eq_sym E)) as Esame. rewrite Hm, Esame, Hpl, Nat2Z.id in Hl.
    rewrite Hj in Hl. by injection Hl as <-.
Qed.

(** A call returns the end of an interval and has emitted what is between the cursor
    and that end. [b] is the logarithm of the length of the intervals of the smaller table. *)
Definition scanned w d (L0 L1 : list (list (node K V))) (v : Z) (r : Z * list positive) : Prop := exists b,
  4 <= b <= 62 /\ (2 ^ (64 - b) = hsize (ht0 d) \/ 2 ^ (64 - b) = hsize (ht1 d)) /\ 0 <= r.1 < 2 ^ 64 /\ rev r.1 = u64 ((rev v / 2 ^ b + 1) * 2 ^ b) /\
  (forall n, n ∈ concat L0 ++ concat L1 -> rev v <= place n < (rev v / 2 ^ b + 1) * 2 ^ b -> addr n ∈ r.2) /\
  (forall a, a ∈ r.2 -> a ∈ addr <$> concat L0 ++ concat L1).

Lemma interval_div x y b : 0 <= b -> 0 <= x -> x <= y < (x / 2 ^ b + 1) * 2 ^ b -> y / 2 ^ b = x / 2 ^ b.
Proof.
  intros Hb Hx Hy. pose proof (Z.pow_pos_nonneg 2 b). pose proof (Z.div_le_mono x y (2 ^ b)).
  assert (y / 2 ^ b < x / 2 ^ b + 1); [|lia]. apply Z.div_lt_upper_bound; lia.
Qed.

(** A step of the inner loop goes to the next multiple of the length of the larger
    table's intervals; the test tells whether that ends the interval, number [q], of
    the smaller table. *)
Lemma interval_step k0 k1 q v v' : 0 <= v < 2 ^ 64 -> 0 <= v' < 2 ^ 64 -> 2 <= k0 <= k1 -> k1 <= 60 -> 0 <= q ->
  let B0 := 2 ^ (64 - k0) in let B1 := 2 ^ (64 - k1) in let x := (rev v / B1 + 1) * B1 in
  (q + 1) * B0 <= 2 ^ 64 -> q * B0 <= rev v < (q + 1) * B0 -> rev v' = u64 x ->
  rev v / B1 < (q + 1) * 2 ^ (k1 - k0) /\ rev v < x <= (q + 1) * B0 /\
  if Z.land v' (Z.lxor (2 ^ k0 - 1) (2 ^ k1 - 1)) =? 0 then x = (q + 1) * B0 else rev v' = x /\ x < (q + 1) * B0.
Proof.
  intros Hv Hv' Hk0 Hk1 Hq B0 B1 x Hq64 Hr Hrev.
  assert (HB : B0 = 2 ^ (k1 - k0) * B1) by (unfold B0, B1; rewrite <- Z.pow_add_r by lia; f_equal; lia).
  assert (HB1 : 0 < B1) by (apply Z.pow_pos_nonneg; lia). assert (HP : 0 < 2 ^ (k1 - k0)) by (apply Z.pow_pos_nonneg; lia).
  assert (Hlt : rev v / B1 < (q + 1) * 2 ^ (k1 - k0)) by (apply Z.div_lt_upper_bound; lia).
  assert (Hx : rev v < x <= (q + 1) * B0).
  { pose proof (Z.div_mod (rev v) B1). pose proof (Z.mod_pos_bound (rev v) B1 HB1). unfold x. split; [lia|]. rewrite HB. nia. }
  split; [done|]. split; [done|]. pose proof (mask_test v' k0 k1 Hv' ltac:(lia) ltac:(lia)) as Htest. fold B0 B1 in Htest.
  destruct (Z.eq_dec x ((q + 1) * B0)) as [Ex|Hne].
  - rewrite (proj2 (Z.eqb_eq _ _)); [done|]. apply Htest. rewrite Hrev, Ex.
    assert (Eu : u64 ((q + 1) * B0) mod B0 = 0); [|rewrite Eu; apply Z.div_0_l; lia].
    destruct (Z.eq_dec ((q + 1) * B0) (2 ^ 64)) as [->|Hne]; [done|]. rewrite u64_id by lia. apply Z.mod_mul. lia.
  - assert (Ev : rev v' = x) by (rewrite Hrev; apply u64_id; pose proof (rev_range v Hv); lia).
    rewrite (proj2 (Z.eqb_neq _ _)); [split; [done|lia]|]. rewrite Htest, Ev.
    assert (Emod : x mod B0 = x - q * B0) by (symmetry; apply (Z.mod_unique _ _ q); lia).
    rewrite Emod. assert (x - q * B0 = (rev v / B1 + 1 - q * 2 ^ (k1 - k0)) * B1) as -> by (unfold x; lia).
    rewrite Z.div_mul by lia. nia.
Qed.

(** The inner loop, from a cursor [v] in the interval number [q] of the smaller table. *)
Lemma scan_loop_ok w d L0 L1 U t1 k0 k1 q v0 : dict_ok type w d L0 L1 U -> table (ht d t1) <> None ->
  hsize (ht d t1) = 2 ^ k1 -> 2 <= k0 <= k1 -> k1 <= 60 -> 0 <= q -> (q + 1) * 2 ^ (64 - k0) <= 2 ^ 64 ->
  forall m v emitted, 0 <= v < 2 ^ 64 -> q * 2 ^ (64 - k0) <= rev v < (q + 1) * 2 ^ (64 - k0) ->
  (q + 1) * 2 ^ (k1 - k0) - rev v / 2 ^ (64 - k1) <= Z.of_nat m -> v0 <= rev v ->
  (forall n, n ∈ concat (buckets L0 L1 t1) -> v0 <= place n < rev v -> addr n ∈ emitted) -> exists v' out,
    while_loop m (scan_turn t1 (2 ^ k0 - 1) (2 ^ k1 - 1)) (v, emitted) w = Ret (v', emitted ++ out) w /\
    0 <= v' < 2 ^ 64 /\ rev v' = u64 ((q + 1) * 2 ^ (64 - k0)) /\
    (forall n, n ∈ concat (buckets L0 L1 t1) -> v0 <= place n < (q + 1) * 2 ^ (64 - k0) -> addr n ∈ emitted ++ out) /\
    (forall a, a ∈ out -> a ∈ addr <$> concat L0 ++ concat L1).
Proof.
  intros Hok Ht Hsz Hk0 Hk1 Hq Hq64. induction m as [|m IH]; intros v emitted Hv Hr Hm Hv0 Hem.
  { destruct (next_cursor_rev v k1 Hv ltac:(lia)) as [Hv' Hrev].
    destruct (interval_step k0 k1 q v _ Hv Hv' Hk0 Hk1 Hq Hq64 Hr Hrev) as (Hlt & _). lia. }
  destruct (emit_bucket_ok w d L0 L1 U t1 v emitted Hok Ht Hv) as (k & l & Hk & Hsz' & Hmask & E & Hin & Hall).
  assert (k = k1) as -> by (apply (Z.pow_inj_r 2); lia). rewrite Hmask in E.
  destruct (next_cursor_rev v k1 Hv ltac:(lia)) as [Hv' Hrev]. set (v' := next_cursor v (2 ^ k1 - 1)) in *.
  destruct (interval_step k0 k1 q v v' Hv Hv' Hk0 Hk1 Hq Hq64 Hr Hrev) as (Hlt & Hx & Hend).
  set (x := (rev v / 2 ^ (64 - k1) + 1) * 2 ^ (64 - k1)) in *.
  assert (Hem' : forall n, n ∈ concat (buckets L0 L1 t1) -> v0 <= place n < x -> addr n ∈ emitted ++ (addr <$> l)).
  { intros n Hn Hp. apply elem_of_app. destruct (Z.lt_ge_cases (place n) (rev v)); [left; apply Hem; [done|lia]|].
    right. apply list_elem_of_fmap_2, Hall; [done|]. apply interval_div; [lia|apply rev_range; lia|]. fold x. lia. }
  assert (Hout : forall a, a ∈ addr <$> l -> a ∈ addr <$> concat L0 ++ concat L1).
  { intros a Ha. apply list_elem_of_fmap in Ha as (n & -> & Hn). by apply list_elem_of_fmap_2, Hin. }
  cbn [while_loop]. unfold scan_turn at 1. rewrite bind_assoc, (bind_ret_eq _ _ _ _ _ E). fold v'. unfold bind at 1, ret at 1.
  destruct (_ =? 0).
  - exists v', (addr <$> l). split; [done|]. split; [done|]. rewrite <- Hend. by split_and!.
  - destruct Hend as [Ev Hless]. destruct (IH v' (emitted ++ (addr <$> l)) Hv') as (v'' & out & E' & Hv'' & Hrev' & Hem'' & Hout').
    + lia.
    + rewrite Ev. unfold x. rewrite Z.div_mul by lia. lia.
    + lia.
    + by rewrite Ev.
    + exists v'', ((addr <$> l) ++ out). rewrite app_assoc. do 4 (split; [done|]).
      intros a Ha. apply elem_of_app in Ha as [Ha|Ha]; auto.
Qed.

(** While rehashing, the smaller table is visited first, then the expansions of the
    cursor in the larger one. *)
Lemma scan_two_ok w d L0 L1 U v : dict_ok type w d L0 L1 U -> 0 <= v < 2 ^ 64 -> dictIsRehashing d = true ->
  let t0 := hsize (ht1 d) <? hsize (ht0 d) in
  let t1 := negb t0 in exists r,
  (let* emitted := emit_bucket t0 (Z.land v (sizemask (ht d t0))) [] in
   while_loop (Datatypes.S (Z.to_nat (hsize (ht d t1)))) (scan_turn t1 (sizemask (ht d t0)) (sizemask (ht d t1))) (v, emitted)) w
   = Ret r w /\ scanned w d L0 L1 v r.
Proof.
  intros Hok Hv Er t0 t1. destruct (rehashing_busy _ _ _ _ _ _ Hok Er) as (Ht0 & Ht1 & _).
  assert (Ht : forall t, table (ht d t) <> None) by by intros [].
  destruct (emit_bucket_ok w d L0 L1 U t0 v [] Hok (Ht t0) Hv) as (k0 & l & Hk0 & Hsz0 & Hm0 & E & Hin & Hall).
  destruct (emit_bucket_ok w d L0 L1 U t1 v [] Hok (Ht t1) Hv) as (k1 & _ & Hk1 & Hsz1 & Hm1 & _).
  assert (Hk : k0 <= k1).
  { apply (Z.pow_le_mono_r_iff 2); [lia|lia|]. rewrite <- Hsz0, <- Hsz1. unfold t1, t0.
    destruct (Z.ltb_spec (hsize (ht1 d)) (hsize (ht0 d))); cbn; lia. }
  rewrite (bind_ret_eq _ _ _ _ _ E), Hm0, Hm1. cbn [app]. set (B0 := 2 ^ (64 - k0)). set (q := rev v / B0).
  pose proof (rev_range v Hv) as Hrv. assert (HB0 : 0 < B0) by (apply Z.pow_pos_nonneg; lia).
  pose proof (Z.div_mod (rev v) B0 ltac:(lia)) as Hdm. fold q in Hdm. pose proof (Z.mod_pos_bound (rev v) B0 HB0).
  assert (Hq : 0 <= q) by (apply Z.div_pos; lia).
  assert (Hq64 : (q + 1) * B0 <= 2 ^ 64).
  { assert (H64 : 2 ^ 64 = 2 ^ k0 * B0) by (unfold B0; rewrite <- Z.pow_add_r by lia; f_equal; lia).
    assert (q < 2 ^ k0) by (apply Z.div_lt_upper_bound; lia). rewrite H64. nia. }
  destruct (scan_loop_ok w d L0 L1 U t1 k0 k1 q (rev v) Hok (Ht _) Hsz1 ltac:(lia) ltac:(lia) Hq Hq64
    (Datatypes.S (Z.to_nat (hsize (ht d t1)))) v (addr <$> l) Hv) as (v' & out & E' & Hv' & Hrev & Hem & Hout).
  - fold B0. lia.
  - assert (HB : B0 = 2 ^ (k1 - k0) * 2 ^ (64 - k1)) by (unfold B0; rewrite <- Z.pow_add_r by lia; f_equal; lia).
    assert (q * 2 ^ (k1 - k0) <= rev v / 2 ^ (64 - k1)).
    { apply Z.div_le_lower_bound; [apply Z.pow_pos_nonneg; lia|]. assert (Hlow : B0 * q <= rev v) by lia. rewrite HB in Hlow. lia. }
    pose proof (Z.pow_le_mono_r 2 (k1 - k0) k1 ltac:(lia) ltac:(lia)). rewrite Hsz1. lia.
  - lia.
  - intros n _ Hn. lia.
  - exists (v', (addr <$> l) ++ out). split; [exact E'|]. exists (64 - k0). fold B0 q. cbn [fst snd].
    replace (64 - (64 - k0)) with k0 by lia. split; [lia|]. split; [rewrite <- Hsz0; destruct t0; [by right|by left]|].
    split; [done|]. split; [done|]. split.
    + intros n Hn Hp. apply elem_of_app in Hn.
      assert (Hn' : n ∈ concat (buckets L0 L1 t0) \/ n ∈ concat (buckets L0 L1 t1)) by (unfold t1; destruct t0; cbn; tauto).
      destruct Hn' as [Hn'|Hn']; [|by apply Hem]. apply elem_of_app. left. apply list_elem_of_fmap_2, Hall; [done|].
      by apply interval_div; [lia|lia|].
    + intros a Ha. apply elem_of_app in Ha as [Ha|Ha]; [|by apply Hout]. apply list_elem_of_fmap in Ha as (n & -> & Hn).
      by apply list_elem_of_fmap_2, Hin.
Qed.

Lemma scan_ok w d L0 L1 U v : dict_ok type w d L0 L1 U -> 0 <= v < 2 ^ 64 -> concat L0 ++ concat L1 <> [] -> exists r,
  dictScan v w = Ret r w /\ scanned w d L0 L1 v r.
Proof.
  intros Hok Hv Hne. unfold dictScan. rewrite (bind_ret_eq _ _ _ _ _ (the_eq w d (ok_dict _ _ _ _ _ _ Hok))).
  unfold dictSize. destruct (ht0_bounds _ _ _ _ _ _ Hok) as (Hu0 & Hu1 & Eu0 & Eu1 & Hsum). rewrite u64_id by lia.
  destruct (Z.eqb_spec (used (ht0 d) + used (ht1 d)) 0) as [Hz|_].
  { exfalso. apply Hne. rewrite Eu0, Eu1, <- zlen_app in Hz. apply length_zero_iff_nil. unfold zlen in Hz. lia. }
  assert (Ht0 : table (ht0 d) <> None) by (intros E; by apply Hne, (no_table type w d L0 L1 U Hok)).
  destruct (dictIsRehashing d) eqn:Er; cbn [negb]; [by apply (scan_two_ok w d L0 L1 U v Hok Hv Er)|].
  destruct (emit_bucket_ok w d L0 L1 U false v [] Hok Ht0 Hv) as (k & l & Hk & Hsz & Hm & E & Hin & Hall).
  cbn [ht] in *. rewrite (bind_ret_eq _ _ _ _ _ E), Hm. eexists. split; [reflexivity|]. exists (64 - k).
  destruct (next_cursor_rev v k Hv ltac:(lia)) as [Hv' Hrev]. replace (64 - (64 - k)) with k by lia.
  cbn [fst snd app]. destruct (rehashing_table _ _ _ _ _ _ Hok Er) as [_ ->]. split_and!; try done; try lia.
  - intros n Hn Hp. apply list_elem_of_fmap_2, Hall; [by rewrite app_nil_r in Hn|]. apply interval_div; [lia|apply rev_range; lia|done].
  - intros a Ha. apply list_elem_of_fmap in Ha as (n & -> & Hn). by apply list_elem_of_fmap_2, Hin.
Qed.

(** ** A scan

    Its calls, each with the world it is made in and the entries it returns; what
    happens to the dictionary between two calls is left open. *)
Inductive scan_calls : Z -> list (world K V * list positive) -> Z -> Prop :=
  | last_call v w v' out : dictScan v w = Ret (v', out) w -> scan_calls v [(w, out)] v'
  | more_calls v w v1 out calls v' : dictScan v w = Ret (v1, out) w -> v1 <> 0 -> scan_calls v1 calls v' ->
      scan_calls v ((w, out) :: calls) v'.

(** A call returned an entry with the content of [k]. *)
Definition returns k (call : world K V * list positive) : Prop :=
  exists a e, a ∈ call.2 /\ entries call.1 !! a = Some e /\ content (key e) = content k.
Definition stores k w : Prop := exists s : spec K V C, implements type w s /\ is_Some (bound s !! content k).

Lemma stores_node k w : stores k w -> exists d L0 L1 n, dict_ok type w d L0 L1 [] /\ n ∈ concat L0 ++ concat L1 /\
  content (nkey n) = content k.
Proof.
  intros (s & (d & L0 & L1 & Hh) & [p Hp]). exists d, L0, L1. pose proof Hh as (Hok & _).
  pose proof (look_eq type w d L0 L1 s k Hh) as Hl.
  destruct (lookup_node type (content k) (concat L0 ++ concat L1)) as [n|] eqn:En; [|congruence].
  exists n. apply lookup_node_Some in En as [Hn Hc]; [done|]. by eapply ok_distinct.
Qed.

(** Where the key of [k] is in the order of a scan. *)
Definition key_place k : Z := rev (hashFunction type k).

(** A call on a dictionary that holds [k] returns it or ends at or before it. *)
Lemma call_passes k v w v' out : 0 <= v < 2 ^ 64 -> stores k w -> rev v <= key_place k -> dictScan v w = Ret (v', out) w ->
  0 <= v' < 2 ^ 64 /\ (returns k (w, out) \/ v' <> 0 /\ rev v' <= key_place k).
Proof.
  intros Hv Hst Hp E. destruct (stores_node k w Hst) as (d & L0 & L1 & n & Hok & Hn & Hc).
  destruct (scan_ok w d L0 L1 [] v Hok Hv) as (r & E' & (b & Hb & _ & Hr & Hrev & Hall & _)); [by intros Hnil; rewrite Hnil in Hn; apply elem_of_nil in Hn|].
  rewrite E in E'. injection E' as <-. cbn [fst snd] in *. split; [done|].
  assert (Epl : place n = key_place k) by (unfold place, key_place; f_equal; by apply (hash_content (type := type))).
  destruct (Z.lt_ge_cases (key_place k) ((rev v / 2 ^ b + 1) * 2 ^ b)) as [Hlt|Hge].
  - left. destruct (node_entry type w d L0 L1 [] n Hok Hn) as (q & Hq). exists (addr n), (entry_of q n).
    split; [apply Hall; [done|rewrite Epl; lia]|done].
  - right. pose proof (rev_range v Hv) as Hrv. pose proof (rev_range _ (hash_range k : 0 <= hashFunction type k < 2 ^ 64)) as Hk.
    fold (key_place k) in Hk. pose proof (Z.pow_pos_nonneg 2 b). pose proof (Z.div_pos (rev v) (2 ^ b)).
    rewrite u64_id in Hrev by nia. split; [|lia]. intros ->. change (rev 0) with 0 in Hrev. nia.
Qed.

Lemma scan_returns k v calls v' : scan_calls v calls v' -> v' = 0 -> 0 <= v < 2 ^ 64 -> rev v <= key_place k ->
  Forall (fun call => stores k call.1) calls -> Exists (returns k) calls.
Proof.
  intros Hs. induction Hs as [v w v' out E|v w v1 out calls v' E Hv1 Hs IH]; intros Hz Hv Hp Hst; apply Forall_cons in Hst as [Hst Hrest].
  - destruct (call_passes k v w v' out Hv Hst Hp E) as [_ [Hr|[Hne _]]]; [by left|done].
  - destruct (call_passes k v w v1 out Hv Hst Hp E) as [Hv1' [Hr|[_ Hp1]]]; [by left|]. right. by apply IH.
Qed.

(** Tables of at most 2^e buckets allow at most 2^e calls. *)
Definition tables_within (e : Z) w : Prop := exists (s : spec K V C) d, implements type w s /\ the_dict w = Some d /\
  hsize (ht0 d) <= 2 ^ e /\ hsize (ht1 d) <= 2 ^ e.

Lemma call_advances e v w v' out : 0 <= e <= 60 -> 0 <= v < 2 ^ 64 -> tables_within e w -> dictScan v w = Ret (v', out) w -> v' <> 0 ->
  0 <= v' < 2 ^ 64 /\ rev v / 2 ^ (64 - e) + 1 <= rev v' / 2 ^ (64 - e).
Proof.
  intros He Hv (s & d0 & (d & L0 & L1 & Hok & _) & Hd & Hs0 & Hs1) E Hne.
  rewrite (ok_dict _ _ _ _ _ _ Hok) in Hd. injection Hd as <-.
  assert (Hnil : concat L0 ++ concat L1 <> []).
  { intros Hnil. apply Hne. unfold dictScan in E. rewrite (bind_ret_eq _ _ _ _ _ (the_eq w d (ok_dict _ _ _ _ _ _ Hok))) in E.
    destruct (ht0_bounds _ _ _ _ _ _ Hok) as (_ & _ & Eu0 & Eu1 & _). unfold dictSize in E.
    rewrite Eu0, Eu1, <- zlen_app, Hnil in E. by injection E. }
  destruct (scan_ok w d L0 L1 [] v Hok Hv Hnil) as (r & E' & (b & Hb & Hsz & Hr & Hrev & _)). rewrite E in E'. injection E' as <-.
  cbn [fst] in *. split; [done|]. assert (Hbe : 64 - e <= b).
  { destruct (Z.le_gt_cases (64 - e) b); [done|]. exfalso. assert (2 ^ e < 2 ^ (64 - b)) by (apply Z.pow_lt_mono_r; lia). lia. }
  pose proof (rev_range v Hv) as Hrv. pose proof (Z.pow_pos_nonneg 2 b). pose proof (Z.div_pos (rev v) (2 ^ b)).
  assert (H64 : 2 ^ 64 = 2 ^ (64 - b) * 2 ^ b) by (rewrite <- Z.pow_add_r by lia; f_equal; lia).
  assert (rev v / 2 ^ b < 2 ^ (64 - b)) by (apply Z.div_lt_upper_bound; lia).
  assert (Hlt : (rev v / 2 ^ b + 1) * 2 ^ b < 2 ^ 64).
  { destruct (Z.eq_dec ((rev v / 2 ^ b + 1) * 2 ^ b) (2 ^ 64)) as [Ex|]; [|nia]. rewrite Ex in Hrev.
    exfalso. by apply Hne, rev_zero. }
  rewrite u64_id in Hrev by nia. rewrite Hrev. set (B := 2 ^ (64 - e)). assert (HB : 2 ^ b = 2 ^ (b - (64 - e)) * B).
  { unfold B. rewrite <- Z.pow_add_r by lia. f_equal. lia. }
  assert (0 < B) by (apply Z.pow_pos_nonneg; lia). rewrite HB at 2. rewrite Z.mul_assoc, Z.div_mul by lia.
  assert (rev v / B < (rev v / 2 ^ b + 1) * 2 ^ (b - (64 - e))); [|lia].
  apply Z.div_lt_upper_bound; [done|]. pose proof (Z.div_mod (rev v) (2 ^ b)). pose proof (Z.mod_pos_bound (rev v) (2 ^ b)). nia.
Qed.

Lemma scan_bounded e v calls v' : 0 <= e <= 60 -> scan_calls v calls v' -> 0 <= v < 2 ^ 64 ->
  Forall (fun call => tables_within e call.1) calls -> Z.of_nat (length calls) <= 2 ^ e - rev v / 2 ^ (64 - e).
Proof.
  intros He Hs. induction Hs as [v w v' out E|v w v1 out calls v' E Hv1 Hs IH]; intros Hv Ht; apply Forall_cons in Ht as [Ht Hrest].
  - pose proof (rev_range v Hv). assert (rev v / 2 ^ (64 - e) < 2 ^ e); [|cbn [length]; lia].
    apply Z.div_lt_upper_bound; [apply Z.pow_pos_nonneg; lia|]. rewrite <- Z.pow_add_r by lia. replace (64 - e + e) with 64 by lia. lia.
  - destruct (call_advances e v w v1 out He Hv Ht E Hv1) as [Hv1' Hadv]. specialize (IH Hv1' Hrest). cbn [length]. lia.
Qed.
(** A call always returns, and what it returns are entries. *)
Definition only_entries (call : world K V * list positive) : Prop := forall a, a ∈ call.2 -> is_Some (entries call.1 !! a).

Lemma dictScan_returns e v w : tables_within e w -> 0 <= v < 2 ^ 64 -> exists v' out,
  dictScan v w = Ret (v', out) w /\ 0 <= v' < 2 ^ 64 /\ only_entries (w, out).
Proof.
  intros (s & _ & (d & L0 & L1 & Hok & _) & _) Hv. destruct (concat L0 ++ concat L1) as [|n N] eqn:EN.
  - exists 0, []. split; [|split; [lia|by intros a ?%elem_of_nil]].
    unfold dictScan. rewrite (bind_ret_eq _ _ _ _ _ (the_eq w d (ok_dict _ _ _ _ _ _ Hok))).
    destruct (ht0_bounds _ _ _ _ _ _ Hok) as (_ & _ & Eu0 & Eu1 & _). unfold dictSize. by rewrite Eu0, Eu1, <- zlen_app, EN.
  - destruct (scan_ok w d L0 L1 [] v Hok Hv) as ([v' out] & E & (b & _ & _ & Hr & _ & _ & Hin)); [by rewrite EN|].
    exists v', out. split; [exact E|]. split; [exact Hr|]. intros a Ha%Hin. apply list_elem_of_fmap in Ha as (m & -> & Hm).
    destruct (node_entry type w d L0 L1 [] m Hok Hm) as (q & Hq). by eexists.
Qed.

(** The scan ends, whatever dictionary each of its calls finds. *)
Lemma scan_ends e worlds : 0 <= e <= 60 -> (forall i, tables_within e (worlds i)) ->
  forall m i v, 0 <= v < 2 ^ 64 -> 2 ^ e - rev v / 2 ^ (64 - e) <= Z.of_nat m ->
  exists calls, scan_calls v calls 0 /\ fst <$> calls = worlds <$> seq i (length calls) /\ Forall only_entries calls.
Proof.
  intros He Ht. induction m as [|m IH]; intros i v Hv Hm.
  { pose proof (rev_range v Hv). assert (rev v / 2 ^ (64 - e) < 2 ^ e); [|lia]. apply Z.div_lt_upper_bound; [apply Z.pow_pos_nonneg; lia|].
    rewrite <- Z.pow_add_r by lia. replace (64 - e + e) with 64 by lia. lia. }
  destruct (dictScan_returns e v (worlds i) (Ht i) Hv) as (v1 & out & E & Hv1 & Hout).
  destruct (Z.eq_dec v1 0) as [->|Hne].
  - exists [(worlds i, out)]. split; [by apply last_call|]. split; [done|]. by constructor.
  - destruct (call_advances e v (worlds i) v1 out He Hv (Ht i) E Hne) as [_ Hadv].
    destruct (IH (Datatypes.S i) v1 Hv1 ltac:(lia)) as (calls & Hs & Hw & Hall).
    exists ((worlds i, out) :: calls). split; [by eapply more_calls|]. split; [by cbn; rewrite Hw|]. by constructor.
Qed.
End scan.

(** C15: a scan ends and misses nothing. Let [worlds i] be the state in which call [i]
    of a scan is made: the dictionary may change between two calls in any way that
    leaves it a dictionary - entries come and go, tables grow, shrink and are
    rehashed - and have tables of any size up to 2^e buckets. From cursor 0
    every call returns, a call returns 0 after at most 2^e of them, and only stored
    entries are returned; every key that is stored at each of the calls is returned by
    one of them. *)
Theorem dict_scan_complete {K V} {EK : EqDecision K} (type : dictType K V) {C} {EC : EqDecision C} {CC : Countable C}
    {DL : DictLaws type C} e (worlds : nat -> world K V) : 0 <= e <= 60 -> (forall i, tables_within type e (worlds i)) ->
  exists calls, scan_calls 0 calls 0 /\ fst <$> calls = worlds <$> seq 0 (length calls) /\
    Z.of_nat (length calls) <= 2 ^ e /\ Forall only_entries calls /\
    forall k, (forall i, (i < length calls)%nat -> stores type k (worlds i)) -> Exists (returns type k) calls.
Proof.
  intros He Ht. destruct (scan_ends type e worlds He Ht (Z.to_nat (2 ^ e)) 0%nat 0) as (calls & Hs & Hw & Hall); [lia| |].
  { change (rev 0) with 0. rewrite Z.div_0_l by (apply Z.pow_nonzero; lia). lia. }
  exists calls. split; [done|]. split; [done|].
  assert (Hcall : forall P, (forall i, (i < length calls)%nat -> P (worlds i)) -> Forall (fun call => P call.1) calls).
  { intros P HP. assert (Hws : Forall P (fst <$> calls)); [|by rewrite Forall_fmap in Hws].
    rewrite Hw. apply Forall_fmap, Forall_forall. intros i Hi. apply HP. apply elem_of_seq in Hi. lia. }
  split; [|split; [done|]].
  - pose proof (scan_bounded type e 0 calls 0 He Hs ltac:(lia) (Hcall _ (fun i _ => Ht i))) as Hb.
    change (rev 0) with 0 in Hb. rewrite Z.div_0_l in Hb by (apply Z.pow_nonzero; lia). lia.
  - intros k Hk. eapply scan_returns; [exact Hs|done|done| |by apply Hcall]. change (rev 0) with 0. apply rev_range, (hash_range k).
Qed.

(** ** A scan whose calls are separated by commands *)
Section interleaved.
Context {K V : Type} {EK : EqDecision K} (type : dictType K V) {C : Type} {EC : EqDecision C} {CC : Countable C} {DL : DictLaws type C}.

(** Before each call a batch of commands is performed: the states the calls find. *)
Fixpoint stages (batches : list (list (command K V))) (w : world K V) : list (world K V) :=
  match batches with
  | [] => []
  | b :: bs => match perform_all type b w with Ret _ w1 => w1 :: stages bs w1 | _ => [] end
  end.
(** After the last batch nothing changes. *)
Definition stage (batches : list (list (command K V))) (w : world K V) (i : nat) : world K V :=
  default w (stages batches w !! Nat.min i (length batches - 1)).

(** The bound of the tables, and whether [k] is bound after each batch. *)
Definition tables_fit (e : Z) (w : world K V) : bool :=
  match the_dict w with Some d => (hsize (ht0 d) <=? 2 ^ e) && (hsize (ht1 d) <=? 2 ^ e) | None => false end.
Fixpoint always_bound (k : K) (batches : list (list (command K V))) (s : spec K V C) : bool :=
  match batches with
  | [] => true
  | b :: bs => let s := (respond_all type b s).1 in bool_decide (is_Some (bound s !! content k)) && always_bound k bs s
  end.

Lemma stages_ok k e bs : forall w s, implements type w s ->
  Z.of_nat (base.size (bound s)) + Z.of_nat (length (concat bs)) <= 2 ^ 59 -> Forall (Forall reasonable) bs ->
  forallb (tables_fit e) (stages bs w) = true -> always_bound k bs s = true ->
  length (stages bs w) = length bs /\ Forall (fun w => tables_within type e w /\ stores type k w) (stages bs w).
Proof.
  induction bs as [|b bs IH]; intros w s Hi Hf Hr He Ha; [done|]. apply Forall_cons in Hr as [Hrb Hr].
  cbn [concat] in Hf. rewrite length_app in Hf. cbn [stages always_bound] in *.
  destruct (perform_all_ok type b w s Hi) as (w1 & Ew & Hi1); [lia|done|]. rewrite Ew in *.
  pose proof (respond_all_size type b s) as Hsz. cbn [forallb length] in *.
  apply andb_true_iff in He as [He1 He]. apply andb_true_iff in Ha as [Ha1%bool_decide_eq_true Ha].
  destruct (IH w1 _ Hi1 ltac:(lia) Hr He Ha) as [Hl Hall]. split; [by rewrite Hl|]. constructor; [|done].
  unfold tables_fit in He1. destruct (the_dict w1) as [d|] eqn:Ed; [|done].
  apply andb_true_iff in He1 as [H1%Z.leb_le H2%Z.leb_le]. split; [by eexists _, d|by eexists].
Qed.

Lemma stage_ok k e bs w s : bs <> [] -> implements type w s ->
  Z.of_nat (base.size (bound s)) + Z.of_nat (length (concat bs)) <= 2 ^ 59 -> Forall (Forall reasonable) bs ->
  forallb (tables_fit e) (stages bs w) = true -> always_bound k bs s = true ->
  forall i, tables_within type e (stage bs w i) /\ stores type k (stage bs w i).
Proof.
  intros Hne Hi Hf Hr He Ha i. destruct (stages_ok k e bs w s Hi Hf Hr He Ha) as [Hl Hall]. unfold stage.
  assert (Hlt : (Nat.min i (length bs - 1) < length (stages bs w))%nat) by (destruct bs; [done|cbn [length] in *; lia]).
  destruct (lookup_lt_is_Some_2 _ _ Hlt) as [x Hx]. rewrite Hx. cbn. by apply (Forall_lookup_1 _ _ _ _ Hall Hx).
Qed.
End interleaved.

(** The table grows from four buckets to eight after the first call, and the key 3 waits
    in a bucket that is split. *)
Definition sample_batches : list (list (command Z Z)) :=
  [[Add 0 0; Add 1 1; Add 2 2; Add 3 3]; [Add 4 4; Add 5 5]; [Remove 0; Add 6 6]; [Rehash 1]; [Fetch 6]; [Replace 3 9]; []; []; []].

Lemma dict_scan_complete_witness : exists calls,
  scan_calls 0 calls 0 /\ fst <$> calls = stage digits_type sample_batches (with_the_dict (Some _dictInit) (blank true false)) <$> seq 0 (length calls) /\
  Z.of_nat (length calls) <= 2 ^ 3 /\ Exists (returns digits_type 3) calls.
Proof.
  destruct (create_ok digits_type (C := Z) true false) as (w & E0 & Hi). injection E0 as <-.
  assert (Hst : forall i, tables_within digits_type 3 (stage digits_type sample_batches (with_the_dict (Some _dictInit) (blank true false)) i) /\
    stores digits_type 3 (stage digits_type sample_batches (with_the_dict (Some _dictInit) (blank true false)) i)).
  { apply (stage_ok digits_type 3 3 sample_batches _ no_bindings); [done|exact Hi|vm_compute; discriminate| |by vm_compute|by vm_compute].
    repeat (apply Forall_cons; split; [repeat (apply Forall_cons; split; [exact I|]); by apply Forall_nil|]). by apply Forall_nil. }
  destruct (dict_scan_complete digits_type 3 _ ltac:(lia) (fun i => proj1 (Hst i))) as (calls & Hs & Hw & Hl & _ & Hk).
  exists calls. split; [exact Hs|]. split; [exact Hw|]. split; [exact Hl|]. apply Hk. intros i _. apply Hst.
Defined.
