(* ===== verification/DictIter.v ===== *)
(** Iterators of dict.c: a safe iterator returns every entry that was there when it
    started exactly once, whatever is added, replaced and looked up meanwhile and
    whichever of the entries are removed as they are returned; an unsafe one returns
    all entries of a dictionary that is left alone. The end of incremental rehashing: by
    itself, call after call of [dictRehash], and in the time-boxed loop of
    [dictRehashMilliseconds]. *)
From S2P Require Import Prelude Util Dict DictProofs DictRehash DictOps DictClear DictMap.
#[local] Open Scope Z_scope.

(** ** Lists *)
Lemma NoDup_pivot {A B} (f : A -> B) l1 l2 l1' l2' x y : NoDup (f <$> l1 ++ x :: l2) -> f x = f y ->
  l1 ++ x :: l2 = l1' ++ y :: l2' -> l1 = l1' /\ x = y /\ l2 = l2'.
Proof.
  revert l1'. induction l1 as [|z l1 IH]; intros [|z' l1'] Hd Hf E; cbn in *.
  - by injection E as -> ->.
  - injection E as -> ->. apply NoDup_cons in Hd as [Hd _]. exfalso. apply Hd. rewrite Hf, fmap_app. apply elem_of_app.
    right. by left.
  - injection E as -> <-. apply NoDup_cons in Hd as [Hd _]. exfalso. apply Hd. rewrite <- Hf, fmap_app. apply elem_of_app.
    right. by left.
  - injection E as -> E. apply NoDup_cons in Hd as [_ Hd]. by destruct (IH l1' Hd Hf E) as (-> & -> & ->).
Qed.
Lemma concat_drop {A} (L : list (list A)) i l : L !! i = Some l -> concat (drop i L) = l ++ concat (drop (Datatypes.S i) L).
Proof. intros Hi. by rewrite (drop_S _ _ _ Hi). Qed.
Lemma concat_drop_new {A} i m : concat (drop i (replicate m (@nil A))) = [].
Proof. rewrite drop_replicate. apply concat_empty. Qed.

Lemma filter_every {A} (P : A -> Prop) `{!forall x, Decision (P x)} l : Forall P l -> filter P l = l.
Proof. induction 1 as [|x l Hx Hl IH]; [done|]. by rewrite filter_cons_True, IH. Qed.

Section iter.
Context {K V : Type} {EK : EqDecision K} (type : dictType K V) {C : Type} {EC : EqDecision C} {CC : Countable C} {DL : DictLaws type C}.
Implicit Types (w : world K V) (n : node K V) (l U : list (node K V)) (L : list (list (node K V))) (k : K) (d : dict)
  (B : list (list (positive * K))) (it : dictIterator).
Variable pointer : option positive -> Z.

#[local] Opaque dictFingerprint.

(** ** What is left to return *)
Definition half {A} (t : bool) (B0 B1 : list (list A)) := if t then B1 else B0.

(** The entries from bucket [i] of table [t] on. *)
Definition ahead {A} (t : bool) (i : nat) (B0 B1 : list (list A)) : list A :=
  concat (drop i (half t B0 B1)) ++ (if t then [] else concat B1).

Lemma places_half t L0 L1 : half t (places L0) (places L1) = places (buckets L0 L1 t).
Proof. by destruct t. Qed.
Lemma places_concat L : concat (places L) = identity <$> concat L.
Proof. unfold places. induction L as [|l L IH]; [done|]. cbn. by rewrite fmap_app, IH. Qed.

(** An iterator that has returned the entry [a] and has [R] to come; [here] tells that
    [a] is still stored. *)
Definition resting it (a : positive * K) (here : bool) (R : list (positive * K)) B0 B1 : Prop := exists i pre post,
  index it = Z.of_nat i /\ entry it = Some a.1 /\ nextEntry it = fst <$> head post /\
  half (itable it) B0 B1 !! i = Some (pre ++ post) /\ (here = true -> exists pre0, pre = pre0 ++ [a]) /\
  R = post ++ ahead (itable it) (Datatypes.S i) B0 B1.

(** What [dictNext] gives: the next entry, or the end. *)
Definition arrived it (R : list (positive * K)) B0 B1 : Prop :=
  match R with
  | [] => 0 <= index it
  | a :: R => resting it a true R B0 B1
  end.

Lemma table_index t it : 0 <= index it -> (index it =? -1) && negb t = false.
Proof. intros Hi. by rewrite (proj2 (Z.eqb_neq _ _)) by lia. Qed.

(** ** One call of [dictNext] *)
Lemma chain_head E p l : chain E p l -> p = addr <$> head l.
Proof. destruct l as [|n l]; [done|]. by intros [-> _]. Qed.
Lemma identity_head l : fst <$> head (identity <$> l) = addr <$> head l.
Proof. by destruct l. Qed.

Lemma bucket_at {g} w d L0 L1 U t i l : dict_inv type (g := g) w d L0 L1 U -> buckets L0 L1 t !! i = Some l ->
  bucket (table (ht d t)) (Z.of_nat i) w = Ret (addr <$> head l) w /\ chain (entries w) (addr <$> head l) l.
Proof.
  intros Hok Hl. pose proof (ok_ht _ _ _ _ _ _ t Hok) as Ht. unfold table_ok in Ht.
  destruct (table (ht d t)) as [b|]; [|destruct Ht as [_ Ht]; by rewrite Ht in Hl].
  destruct Ht as (ps & Hps & Hs). destruct (Forall2_lookup_r _ _ _ _ _ (sh_chains _ _ _ _ _ Hs) Hl) as (p & Hp & Hc).
  rewrite <- (chain_head _ _ _ Hc). split; [by eapply bucket_eq|done].
Qed.

Lemma hsize_length {g} w d L0 L1 U t : dict_inv type (g := g) w d L0 L1 U ->
  hsize (ht d t) = Z.of_nat (length (buckets L0 L1 t)) /\ i64 (hsize (ht d t)) = hsize (ht d t).
Proof.
  intros Hok. destruct (table_ok_size type _ _ _ (ok_ht _ _ _ _ _ _ t Hok)) as [Hz Hb]. split; [done|].
  unfold i64. rewrite Z.mod_small; lia.
Qed.

Definition kin it it' : Prop := safe it' = safe it /\ fingerprint it' = fingerprint it.

(** The entry the iterator is on, if there is one, is returned. *)
Definition settle it : M (world K V) (dictIterator + dictIterator * option positive) :=
  match entry it with
  | Some p =>
      let* e := load p in
      ret (inr ({| index := index it; itable := itable it; safe := safe it; entry := Some p;
                   nextEntry := next e; fingerprint := fingerprint it |}, Some p))
  | None => ret (inl it)
  end.
Lemma next_turn_settle it : next_turn pointer it =
  (let* r := advance pointer it in match r with inr it => ret (inr (it, None)) | inl it => settle it end).
Proof. done. Qed.

Lemma settle_at {g} w d L0 L1 U t i l1 l2 it : dict_inv type (g := g) w d L0 L1 U -> buckets L0 L1 t !! i = Some (l1 ++ l2) ->
  itable it = t -> index it = Z.of_nat i -> entry it = addr <$> head l2 ->
  match l2 with
  | [] => settle it w = Ret (inl it) w
  | n :: l => exists it', settle it w = Ret (inr (it', Some (addr n))) w /\ kin it it' /\
      resting it' (identity n) true ((identity <$> l) ++ ahead t (Datatypes.S i) (places L0) (places L1)) (places L0) (places L1)
  end.
Proof.
  intros Hok Hl <- Hi He. unfold settle. rewrite He. destruct l2 as [|n l]; [done|].
  destruct (bucket_at _ _ _ _ _ _ _ _ Hok Hl) as [_ Hc]. destruct (chain_node _ _ _ _ _ Hc) as (q & Hq & Hc').
  cbn [head fmap option_fmap option_map]. rewrite (bind_ret_eq _ _ _ _ _ (load_entry w _ _ Hq)). eexists. split; [reflexivity|].
  split; [done|]. exists i, ((identity <$> l1) ++ [identity n]), (identity <$> l). cbn. rewrite places_half, identity_head.
  split_and!; [done|done|by apply chain_head in Hc'| |by exists (identity <$> l1)|done].
  unfold places. rewrite list_lookup_fmap, Hl. cbn. by rewrite fmap_app, <- app_assoc.
Qed.

(** From [it], a call that still has [m] turns returns the first of [R]. *)
Definition comes (m : nat) it (R : list (positive * K)) w L0 L1 : Prop := exists it',
  while_loop m (next_turn pointer) it w = Ret (it', fst <$> head R) w /\ kin it it' /\ arrived it' R (places L0) (places L1).

Lemma ahead_step t i L0 L1 l : buckets L0 L1 t !! i = Some l ->
  ahead t i (places L0) (places L1) = (identity <$> l) ++ ahead t (Datatypes.S i) (places L0) (places L1).
Proof.
  intros Hl. unfold ahead. rewrite places_half, (concat_drop _ i (identity <$> l)), app_assoc; [done|].
  unfold places. by rewrite list_lookup_fmap, Hl.
Qed.

(** A turn that has come to bucket [i]. *)
Lemma land {g} w d L0 L1 U m t i l it : dict_inv type (g := g) w d L0 L1 U -> buckets L0 L1 t !! i = Some l ->
  itable it = t -> index it = Z.of_nat i -> entry it = addr <$> head l ->
  (l = [] -> comes m it (ahead t (Datatypes.S i) (places L0) (places L1)) w L0 L1) ->
  exists it', (let* r := settle it in match r with inl it => while_loop m (next_turn pointer) it | inr b => ret b end) w
    = Ret (it', fst <$> head (ahead t i (places L0) (places L1))) w /\ kin it it' /\
    arrived it' (ahead t i (places L0) (places L1)) (places L0) (places L1).
Proof.
  intros Hok Hl Ht Hi He Hgo. pose proof (settle_at w d L0 L1 U t i [] l it Hok Hl Ht Hi He) as Hset.
  rewrite (ahead_step _ _ _ _ _ Hl). destruct l as [|n l].
  - rewrite (bind_ret_eq _ _ _ _ _ Hset). by apply Hgo.
  - destruct Hset as (it' & E & Hk & Hr). exists it'. by rewrite (bind_ret_eq _ _ _ _ _ E).
Qed.

Lemma first_bucket {g} w d L0 L1 U t : dict_inv type (g := g) w d L0 L1 U -> table (ht d t) <> None ->
  is_Some (buckets L0 L1 t !! 0%nat).
Proof.
  intros Hok Ht. pose proof (ok_ht _ _ _ _ _ _ t Hok) as Hh. unfold table_ok in Hh. destruct (table (ht d t)); [|done].
  destruct Hh as (ps & _ & Hs). apply lookup_lt_is_Some_2. destruct (sh_pow _ _ _ _ _ Hs) as (e & He & Hp).
  pose proof (sh_size _ _ _ _ _ Hs) as Hz. rewrite Hp in Hz. pose proof (Z.pow_pos_nonneg 2 e). unfold zlen in Hz. lia.
Qed.

Lemma walk_ok w d L0 L1 U : dict_ok type w d L0 L1 U -> forall m t i it, itable it = t -> entry it = None ->
  index it + 1 = Z.of_nat i -> (index it =? -1) && negb t = false -> (i <= length (buckets L0 L1 t))%nat ->
  (length (buckets L0 L1 t) - i + (if t then 0 else length L1) + 2 <= m)%nat ->
  comes m it (ahead t i (places L0) (places L1)) w L0 L1.
Proof.
  intros Hok m. induction m as [|m IH]; intros t i it Ht He Hi Hs Hle Hm; [lia|].
  pose proof (ok_dict _ _ _ _ _ _ Hok) as Hd. destruct (hsize_length _ _ _ _ _ t Hok) as [Hz Hz'].
  unfold comes. cbn [while_loop]. rewrite next_turn_settle. unfold advance, start_iterator. rewrite He, Ht, Hs, !bind_assoc.
  unfold bind at 1, ret at 1. cbv beta iota. unfold next_bucket. rewrite bind_assoc, (bind_ret_eq _ _ _ _ _ (the_eq w d Hd)).
  cbv zeta. rewrite Ht, Hz', Hz, Hi. destruct (Z.leb_spec (Z.of_nat (length (buckets L0 L1 t))) (Z.of_nat i)) as [Hge|Hlt].
  - assert (i = length (buckets L0 L1 t)) as -> by lia.
    destruct (dictIsRehashing d && negb t) eqn:Er.
    + apply andb_true_iff in Er as [Er Ef%negb_true_iff]. rewrite Ef in *.
      destruct (rehashing_busy _ _ _ _ _ _ Hok Er) as (_ & T1 & _).
      destruct (first_bucket _ _ _ _ _ true Hok T1) as [l Hl]. cbn [buckets] in Hl.
      pose proof (lookup_lt_Some _ _ _ Hl) as Hlen.
      destruct (bucket_at w d L0 L1 U true 0 l Hok Hl) as [Eb _]. cbn [ht] in Eb. change 0 with (Z.of_nat 0).
      rewrite !bind_assoc, (bind_ret_eq _ _ _ _ _ Eb).
      assert (Ea : ahead false (length (buckets L0 L1 false)) (places L0) (places L1) = ahead true 0 (places L0) (places L1)).
      { unfold ahead. rewrite places_half, drop_ge by (unfold places; by rewrite length_fmap). cbn. by rewrite app_nil_r. }
      rewrite Ea. refine (land w d L0 L1 U m true 0 l (at_bucket 0 true _ it) Hok Hl eq_refl eq_refl eq_refl _). intros ->. apply IH; cbn [buckets] in *; try done; lia.
    + exists (at_bucket (Z.of_nat (length (buckets L0 L1 t))) t None it).
      assert (Ea : ahead t (length (buckets L0 L1 t)) (places L0) (places L1) = []).
      { unfold ahead. rewrite places_half, drop_ge by (unfold places; by rewrite length_fmap). cbn.
        destruct t; [done|]. rewrite andb_true_r in Er. by destruct (rehashing_table _ _ _ _ _ _ Hok Er) as [_ ->]. }
      rewrite Ea. split; [done|]. split; [done|]. cbn. lia.
  - destruct (lookup_lt_is_Some_2 (buckets L0 L1 t) i) as [l Hl]; [lia|].
    destruct (bucket_at _ _ _ _ _ _ _ _ Hok Hl) as [Eb _]. rewrite !bind_assoc, (bind_ret_eq _ _ _ _ _ Eb).
    refine (land w d L0 L1 U m t i l (at_bucket _ t _ it) Hok Hl eq_refl eq_refl eq_refl _). intros ->. apply IH; cbn; try done; [lia|by rewrite (proj2 (Z.eqb_neq _ _)) by lia|lia|lia].
Qed.

(** What a call of [dictNext] does to an iterator with [R] to come. *)
Definition returns_next it R w L0 L1 : Prop := exists it', dictNext pointer it w = Ret (it', fst <$> head R) w /\ kin it it' /\
  arrived it' R (places L0) (places L1).

Lemma next_fuel w d L0 L1 U : dict_ok type w d L0 L1 U ->
  Z.to_nat (hsize (ht0 d) + hsize (ht1 d)) = (length L0 + length L1)%nat.
Proof.
  intros Hok. destruct (hsize_length _ _ _ _ _ false Hok) as [H0 _]. destruct (hsize_length _ _ _ _ _ true Hok) as [H1 _].
  cbn in H0, H1. lia.
Qed.

Lemma dictNext_resting w d L0 L1 U it a here R : dict_ok type w d L0 L1 U ->
  resting it a here R (places L0) (places L1) -> returns_next it R w L0 L1.
Proof.
  intros Hok (i & pre & post & Hi & He & Hn & Hl & _ & ->). unfold returns_next, dictNext.
  rewrite (bind_ret_eq _ _ _ _ _ (the_eq w d (ok_dict _ _ _ _ _ _ Hok))), (next_fuel _ _ _ _ _ Hok). cbn [Nat.add while_loop].
  rewrite next_turn_settle. unfold advance at 1. rewrite He. rewrite places_half in Hl. unfold places in Hl. rewrite list_lookup_fmap in Hl.
  destruct (buckets L0 L1 (itable it) !! i) as [l|] eqn:El; [|done]. cbn in Hl. injection Hl as Hl.
  apply fmap_app_inv in Hl as (l1 & l2 & -> & -> & ->). rewrite identity_head in Hn.
  assert (He' : entry (at_bucket (index it) (itable it) (nextEntry it) it) = addr <$> head l2) by done.
  pose proof (settle_at w d L0 L1 U (itable it) i l1 l2 (at_bucket (index it) (itable it) (nextEntry it) it) Hok El eq_refl Hi He') as Hset.
  unfold bind at 1 2, ret at 1. cbv beta iota. destruct l2 as [|n l].
  - rewrite Hset. apply lookup_lt_Some in El.
    apply (walk_ok w d L0 L1 U Hok (Datatypes.S (Datatypes.S (length L0 + length L1))) (itable it) (Datatypes.S i)
             (at_bucket (index it) (itable it) (nextEntry it) it)); cbn [at_bucket index entry itable]; try done.
    + lia.
    + apply table_index. lia.
    + destruct (itable it); cbn [buckets] in *; lia.
  - destruct Hset as (it' & E & Hk & Hr). exists it'. by rewrite E.
Qed.

(** The first call. *)
Definition started it d w : world K V * dictIterator :=
  if safe it then (with_the_dict (Some (with_iterators (u64 (iterators d + 1)) d)) w, it)
  else (w, {| index := index it; itable := itable it; safe := safe it; entry := entry it;
              nextEntry := nextEntry it; fingerprint := dictFingerprint pointer d |}).

Lemma iterators_ok w d L0 L1 U c : dict_ok type w d L0 L1 U -> 0 <= c < 2 ^ 64 ->
  dict_ok type (with_the_dict (Some (with_iterators c d)) w) (with_iterators c d) L0 L1 U.
Proof.
  intros [H1 H2 H3 H4 H5 H6 H7 H8 H9] Hc. split; try done.
  - intros Hg. destruct (H4 Hg) as [R1 R2]. by split.
  - by eapply nodes_ok_frame, H5.
Qed.

Lemma next_bucket_walk w d L0 L1 U it : dict_ok type w d L0 L1 U -> index it = -1 -> itable it = false -> entry it = None ->
  exists it', (let* r := (let* r := next_bucket it in match r with inr it => ret (inr (it, None)) | inl it => settle it end) in
      match r with inl it => while_loop (2 + (length L0 + length L1)) (next_turn pointer) it | inr b => ret b end) w
    = Ret (it', fst <$> head (identity <$> concat L0 ++ concat L1)) w /\ kin it it' /\
    arrived it' (identity <$> concat L0 ++ concat L1) (places L0) (places L1).
Proof.
  intros Hok Hi Ht He. assert (Ha : identity <$> concat L0 ++ concat L1 = ahead false 0 (places L0) (places L1)).
  { change (ahead false 0 (places L0) (places L1)) with (concat (places L0) ++ concat (places L1)).
    by rewrite !places_concat, fmap_app. }
  rewrite Ha. pose proof (ok_dict _ _ _ _ _ _ Hok) as Hd. destruct (hsize_length _ _ _ _ _ false Hok) as [Hz Hz'].
  unfold next_bucket. rewrite !bind_assoc, (bind_ret_eq _ _ _ _ _ (the_eq w d Hd)). cbv zeta. rewrite Ht, Hi, Hz', Hz.
  change (-1 + 1) with 0. cbn [buckets negb]. destruct (L0 !! 0%nat) as [l|] eqn:Hl0.
  - pose proof (lookup_lt_Some _ _ _ Hl0) as Hlen. assert (Hl : buckets L0 L1 false !! 0%nat = Some l) by done.
    destruct (bucket_at w d L0 L1 U false 0 l Hok Hl) as [Eb _]. rewrite (proj2 (Z.leb_gt _ _)) by lia.
    cbn [ht] in Eb |- *. change 0 with (Z.of_nat 0). rewrite !bind_assoc, (bind_ret_eq _ _ _ _ _ Eb).
    refine (land w d L0 L1 U _ false 0 l (at_bucket 0 false _ it) Hok Hl eq_refl eq_refl eq_refl _). intros ->.
    apply (walk_ok w d L0 L1 U Hok _ false 1); try done; cbn [buckets]; lia.
  - assert (L0 = []) as -> by by destruct L0. assert (Er : dictIsRehashing d = false).
    { destruct (dictIsRehashing d) eqn:Er; [|done]. destruct (rehashing_busy _ _ _ _ _ _ Hok Er) as (T0 & _).
      by destruct (first_bucket _ _ _ _ _ false Hok T0). }
    rewrite Er. cbn [length Z.of_nat Z.leb andb]. destruct (rehashing_table _ _ _ _ _ _ Hok Er) as [_ ->].
    by exists (at_bucket 0 false None it).
Qed.

Lemma dictNext_fresh w d L0 L1 U it : dict_ok type w d L0 L1 U -> (safe it = true -> iterators d + 1 < 2 ^ 64) -> index it = -1 -> itable it = false ->
  entry it = None -> let '(w1, it1) := started it d w in exists it',
    dictNext pointer it w = Ret (it', fst <$> head (identity <$> concat L0 ++ concat L1)) w1 /\ kin it1 it' /\
    arrived it' (identity <$> concat L0 ++ concat L1) (places L0) (places L1).
Proof.
  intros Hok Hc Hi Ht He. pose proof (ok_dict _ _ _ _ _ _ Hok) as Hd.
  assert (E : dictNext pointer it w = (let* it1 := start_iterator pointer it in
    let* r := (let* r := next_bucket it1 in match r with inr it => ret (inr (it, None)) | inl it => settle it end) in
    match r with inl it => while_loop (2 + (length L0 + length L1)) (next_turn pointer) it | inr b => ret b end) w).
  { unfold dictNext. rewrite (bind_ret_eq _ _ _ _ _ (the_eq w d Hd)), (next_fuel _ _ _ _ _ Hok). cbn [Nat.add while_loop].
    rewrite next_turn_settle. unfold advance at 1. rewrite He. unfold bind. by destruct (start_iterator pointer it w). }
  rewrite E. unfold start_iterator, started. rewrite Hi, Ht. cbn [Z.eqb negb andb Pos.eqb].
  pose proof (ok_iterators _ _ _ _ _ _ Hok) as Hb. destruct (safe it); [specialize (Hc eq_refl)|].
  - rewrite !bind_assoc, (bind_ret_eq _ _ _ _ _ (upd_dict_eq w d _ Hd)).
    apply (next_bucket_walk _ (with_iterators (u64 (iterators d + 1)) d) L0 L1 U it); try done.
    apply iterators_ok; [done|]. rewrite u64_id; lia.
  - rewrite !bind_assoc, (bind_ret_eq _ _ _ _ _ (the_eq w d Hd)).
    by apply (next_bucket_walk w d L0 L1 U).
Qed.

Lemma dictNext_first w d L0 L1 U : dict_ok type w d L0 L1 U -> exists it,
  dictNext pointer dictGetIterator w = Ret (it, fst <$> head (identity <$> concat L0 ++ concat L1)) w /\
  safe it = false /\ fingerprint it = dictFingerprint pointer d /\ arrived it (identity <$> concat L0 ++ concat L1) (places L0) (places L1).
Proof.
  intros Hok. pose proof (dictNext_fresh w d L0 L1 U dictGetIterator Hok ltac:(done) eq_refl eq_refl eq_refl) as Hn.
  unfold started in Hn. destruct Hn as (it & E & [Hs Hp] & Hr). cbn [safe fingerprint] in Hp. exists it. exact (conj E (conj Hs (conj Hp Hr))).
Qed.

(** ** What happens between two calls *)
Section meanwhile.
(** Entries below [low] were there when the iteration began. *)
Variable low : positive.
Definition old (x : positive * K) : Prop := (x.1 < low)%positive.
#[export] Instance old_decision x : Decision (old x) := decide (x.1 < low)%positive.

(** Iterators stay where they are; up to [c] younger entries are added to what they have
    to come. *)
Definition undisturbed (c : nat) B0 B1 B0' B1' : Prop := forall it a here R, resting it a here R B0 B1 ->
  exists R', resting it a here R' B0' B1' /\ filter old R' = filter old R /\ (length R' <= length R + c)%nat.

Lemma undisturbed_refl B0 B1 : undisturbed 0 B0 B1 B0 B1.
Proof. intros it a here R Hr. exists R. split_and!; [done|done|lia]. Qed.
Lemma undisturbed_trans c c' B0 B1 A0 A1 B0' B1' : undisturbed c B0 B1 A0 A1 -> undisturbed c' A0 A1 B0' B1' ->
  undisturbed (c + c') B0 B1 B0' B1'.
Proof.
  intros H1 H2 it a here R Hr. destruct (H1 _ _ _ _ Hr) as (R1 & Hr1 & E1 & L1). destruct (H2 _ _ _ _ Hr1) as (R' & Hr' & E' & L').
  exists R'. split_and!; [done|congruence|lia].
Qed.

Lemma half_widened (t : bool) B0 B1 A0 A1 : widened B0 A0 -> widened B1 A1 -> widened (half t B0 B1) (half t A0 A1).
Proof. by destruct t. Qed.
Lemma ahead_widened t i B0 B1 A0 A1 : widened B0 A0 -> widened B1 A1 -> ahead t i A0 A1 = ahead t i B0 B1.
Proof.
  intros H0 H1. unfold ahead. f_equal; [|destruct t; [done|by apply widened_concat]].
  destruct (half_widened t _ _ _ _ H0 H1) as [->|[-> [m ->]]]; [done|]. by rewrite concat_drop_new, drop_nil.
Qed.
Lemma undisturbed_wider B0 B1 A0 A1 : widened B0 A0 -> widened B1 A1 -> undisturbed 0 B0 B1 A0 A1.
Proof.
  intros H0 H1 it a here R (i & pre & post & Hi & He & Hn & Hl & Hh & ->). exists (post ++ ahead (itable it) (Datatypes.S i) B0 B1).
  split; [|split; [done|lia]]. exists i, pre, post. split_and!; try done; [|by rewrite (ahead_widened _ _ _ _ _ _ H0 H1)].
  destruct (half_widened (itable it) _ _ _ _ H0 H1) as [->|[E _]]; [done|]. by rewrite E in Hl.
Qed.

(** A younger entry at the head of a bucket. *)
Lemma concat_head (P : positive * K -> Prop) `{!forall x, Decision (P x)} B j x a i : B !! j = Some x -> ~ P a ->
  filter P (concat (drop i (<[j := a :: x]> B))) = filter P (concat (drop i B)) /\
  (length (concat (drop i (<[j := a :: x]> B))) <= Datatypes.S (length (concat (drop i B))))%nat.
Proof.
  intros Hj Ha. revert i B Hj. induction j as [|j IH]; intros i [|y B] Hj; try done.
  - injection Hj as ->. destruct i as [|i]; [|split; [done|cbn; lia]]. rewrite !drop_0.
    change (concat (<[0%nat := a :: x]> (x :: B))) with (a :: concat (x :: B)). by rewrite filter_cons_False.
  - destruct i as [|i]; [|by apply (IH i B)]. destruct (IH 0%nat B Hj) as [E L]. rewrite !drop_0 in *.
    change (concat (<[Datatypes.S j := a :: x]> (y :: B))) with (y ++ concat (<[j := a :: x]> B)). change (concat (y :: B)) with (y ++ concat B).
    rewrite !filter_app, E, !length_app. split; [done|lia].
Qed.

Lemma undisturbed_head B0 B1 (t : bool) j x a : (if t then B1 else B0) !! j = Some x -> ~ old a ->
  undisturbed 1 B0 B1 (if t then B0 else <[j := a :: x]> B0) (if t then <[j := a :: x]> B1 else B1).
Proof.
  intros Hj Ha it b here R (i & pre & post & Hi & He & Hn & Hl & Hh & ->).
  set (B0' := if t then B0 else <[j := a :: x]> B0). set (B1' := if t then <[j := a :: x]> B1 else B1).
  assert (Hahead : filter old (ahead (itable it) (Datatypes.S i) B0' B1') = filter old (ahead (itable it) (Datatypes.S i) B0 B1) /\
    (length (ahead (itable it) (Datatypes.S i) B0' B1') <= Datatypes.S (length (ahead (itable it) (Datatypes.S i) B0 B1)))%nat).
  { unfold ahead, half, B0', B1'. rewrite !filter_app, !length_app. destruct t.
    - destruct (itable it).
      + destruct (concat_head old B1 j x a (Datatypes.S i) Hj Ha) as [-> ?]. cbn. split; [done|lia].
      + destruct (concat_head old B1 j x a 0 Hj Ha) as [E ?]. rewrite !drop_0 in *. rewrite E. split; [done|lia].
    - destruct (itable it); [split; [done|lia]|].
      destruct (concat_head old B0 j x a (Datatypes.S i) Hj Ha) as [-> ?]. split; [done|lia]. }
  destruct Hahead as [Hf Hlen]. exists (post ++ ahead (itable it) (Datatypes.S i) B0' B1').
  split; [|split; [by rewrite !filter_app, Hf|rewrite !length_app; lia]].
  assert (Hh' : exists pre', half (itable it) B0' B1' !! i = Some (pre' ++ post) /\
    (here = true -> exists pre0, pre' = pre0 ++ [b])).
  { destruct (decide (itable it = t /\ i = j)) as [[Et ->]|Hne].
    - exists (a :: pre). split.
      + unfold B0', B1'. rewrite Et in *. assert (x = pre ++ post) as -> by (destruct t; cbn in Hl; congruence).
        destruct t; cbn [half] in *; apply list_lookup_insert_eq; by apply lookup_lt_Some in Hl.
      + intros E. destruct (Hh E) as [pre0 ->]. by exists (a :: pre0).
    - exists pre. split; [|done]. unfold B0', B1'. destruct (itable it), t; cbn [half] in *; try done;
        rewrite list_lookup_insert_ne; [done|naive_solver|done|naive_solver]. }
  destruct Hh' as (pre' & Hl' & Hh'). by exists i, pre', post.
Qed.

Lemma undisturbed_spread b B0 B1 B0' B1' : (low <= b)%positive -> spread b B0 B1 B0' B1' -> undisturbed 1 B0 B1 B0' B1'.
Proof.
  intros Hb [A0 A1 H0 H1|A0 A1 t j x a H0 H1 Hj Ha].
  - intros it c here R Hr. destruct (undisturbed_wider _ _ _ _ H0 H1 _ _ _ _ Hr) as (R' & Hr' & E & L). exists R'. split_and!; [done|done|lia].
  - apply (undisturbed_trans 0 1 _ _ A0 A1); [by apply undisturbed_wider|]. apply undisturbed_head; [done|]. unfold old. lia.
Qed.
End meanwhile.

(** An entry is removed while an iterator is on it. *)
Lemma addr_identity l : addr <$> l = fst <$> (identity <$> l).
Proof. by rewrite <- list_fmap_compose. Qed.
Lemma same_spot {A} (f : node K V -> A) L0 L1 t i l t' i' l' x : NoDup (f <$> concat L0 ++ concat L1) ->
  buckets L0 L1 t !! i = Some l -> buckets L0 L1 t' !! i' = Some l' -> x ∈ f <$> l -> x ∈ f <$> l' -> t = t' /\ i = i'.
Proof.
  intros Hd Hl Hl' Hx Hx'. rewrite fmap_app in Hd. apply NoDup_app in Hd as (Hd0 & Hd & Hd1).
  assert (Hin : forall (s : bool) j m, buckets L0 L1 s !! j = Some m -> x ∈ f <$> m -> x ∈ f <$> concat (buckets L0 L1 s)).
  { intros s j m Hm Hxm. apply list_elem_of_fmap in Hxm as (y & -> & Hy). apply list_elem_of_fmap_2, elem_of_concat. by exists j, m. }
  destruct (decide (t = t')) as [<-|Hne].
  - split; [done|]. destruct (decide (i = i')); [done|]. exfalso.
    refine (bucket_disjoint f (buckets L0 L1 t) i i' l l' x _ Hl Hl' n Hx Hx'). by destruct t.
  - exfalso. destruct t, t'; try done; [apply (Hd x (Hin false _ _ Hl' Hx') (Hin true _ _ Hl Hx))|apply (Hd x (Hin false _ _ Hl Hx) (Hin true _ _ Hl' Hx'))].
Qed.

Lemma ok_addresses {g} w d L0 L1 U : dict_inv type (g := g) w d L0 L1 U -> NoDup (addr <$> concat L0 ++ concat L1).
Proof. intros Hok. pose proof (no_addrs _ _ _ _ (ok_nodes _ _ _ _ _ _ Hok)) as Ha. rewrite fmap_app in Ha. by apply NoDup_app in Ha as [Ha _]. Qed.

(** Where the entry under an iterator is. *)
Lemma resting_node w d L0 L1 U it a R : dict_ok type w d L0 L1 U -> resting it a true R (places L0) (places L1) ->
  exists n, n ∈ concat L0 ++ concat L1 /\ identity n = a.
Proof.
  intros Hok (i & pre & post & _ & _ & _ & Hl & Hh & _). destruct (Hh eq_refl) as [pre0 ->]. rewrite places_half in Hl.
  unfold places in Hl. rewrite list_lookup_fmap in Hl. destruct (buckets L0 L1 (itable it) !! i) as [l|] eqn:El; [|done].
  injection Hl as Hl. assert (Ha : a ∈ identity <$> l) by (rewrite Hl; apply elem_of_app; left; apply elem_of_app; right; by left).
  apply list_elem_of_fmap in Ha as (n & -> & Hn). exists n. split; [|done]. apply elem_of_app.
  destruct (itable it); [right|left]; apply elem_of_concat; by exists i, l.
Qed.

Lemma resting_deleted w d L0 L1 U t i l1 n l2 it R : dict_ok type w d L0 L1 U -> buckets L0 L1 t !! i = Some (l1 ++ n :: l2) ->
  resting it (identity n) true R (places L0) (places L1) ->
  resting it (identity n) false R (places (upd0 t i (l1 ++ l2) L0)) (places (upd1 t i (l1 ++ l2) L1)).
Proof.
  intros Hok Hl (j & pre & post & Hi & He & Hn & Hl' & Hh & ->). destruct (Hh eq_refl) as [pre0 ->]. rewrite places_half in Hl'.
  unfold places in Hl'. rewrite list_lookup_fmap in Hl'. destruct (buckets L0 L1 (itable it) !! j) as [l|] eqn:El; [|done].
  injection Hl' as Hl'. pose proof (ok_addresses _ _ _ _ _ Hok) as Hnd.
  assert (Hx : addr n ∈ addr <$> l).
  { rewrite addr_identity, Hl', !fmap_app.
    apply elem_of_app. left. apply elem_of_app. right. by left. }
  assert (Hx' : addr n ∈ addr <$> l1 ++ n :: l2) by (apply list_elem_of_fmap_2, elem_of_app; right; by left).
  destruct (same_spot addr L0 L1 _ _ _ _ _ _ _ Hnd El Hl Hx Hx') as [Et ->]. rewrite Et in *. rewrite Hl in El. injection El as <-.
  rewrite fmap_app, <- app_assoc in Hl'. cbn in Hl'. destruct (bucket_nodes type _ _ _ _ _ _ _ _ Hok Hl) as (Hnl & _ & _).
  apply (NoDup_pivot fst) in Hl' as (<- & _ & <-); [|by rewrite addr_identity, fmap_app in Hnl|done].
  exists i, (identity <$> l1), (identity <$> l2). rewrite Et, places_half.
  assert (Hb : buckets (upd0 t i (l1 ++ l2) L0) (upd1 t i (l1 ++ l2) L1) t = <[i := l1 ++ l2]> (buckets L0 L1 t)) by by destruct t.
  split_and!; [done|done|done| |done|].
  - rewrite Hb. unfold places. rewrite list_lookup_fmap, list_lookup_insert_eq by by apply lookup_lt_Some in Hl. cbn. by rewrite fmap_app.
  - f_equal. unfold ahead. rewrite !places_half, Hb. f_equal; [|by destruct t].
    unfold places. by rewrite list_fmap_insert, drop_insert_lt by lia.
Qed.

(** ** Traversals *)

(** Commands that may be called while an iteration is on. *)
Definition harmless (c : command K V) : Prop :=
  match c with
  | Add _ _ | Replace _ _ | Fetch _ | Size | Resize | EnableResize | DisableResize => True
  | Expand n => n <= 2 ^ 60
  | _ => False
  end.

(** What a client does with an entry: commands, its removal perhaps, more commands. *)
Record visit := { before : list (command K V); drop_it : bool; afterwards : list (command K V) }.

Definition attend (p : positive) (b : visit) : M (world K V) unit :=
  let* e := load p in
  perform_all type (before b) ;;;
  (if drop_it b then dictDelete type (key e) ;;; ret tt else ret tt) ;;;
  perform_all type (afterwards b) ;;;
  ret tt.

(** [while((de = dictNext(iter)) != NULL) ...; dictReleaseIterator(iter);], with a visit of
    the script for every entry and a [break] when it is used up: the entries, each with its
    key when it was returned, and whether the loop came to its end. *)
Fixpoint handle (script : list visit) (r : dictIterator * option positive) : M (world K V) (list (positive * K) * bool) :=
  let '(it, he) := r in
  match he with
  | None => dictReleaseIterator pointer it ;;; ret ([], true)
  | Some p =>
      let* e := load p in
      match script with
      | [] => dictReleaseIterator pointer it ;;; ret ([(p, key e)], false)
      | b :: script =>
          attend p b ;;;
          let* r := dictNext pointer it in
          let* (seen, ended) := handle script r in
          ret ((p, key e) :: seen, ended)
      end
  end.
Definition traverse (script : list visit) it : M (world K V) (list (positive * K) * bool) :=
  let* r := dictNext pointer it in handle script r.

(** The same on the map, for the keys that were seen. *)
Implicit Types s : spec K V C.
Definition serve (b : visit) k s : spec K V C :=
  let s := (respond_all type (before b) s).1 in
  let s := if drop_it b then (respond type (Remove k) s).1 else s in
  (respond_all type (afterwards b) s).1.
Fixpoint serve_all (script : list visit) (ks : list K) s : spec K V C :=
  match script, ks with
  | b :: script, k :: ks => serve_all script ks (serve b k s)
  | _, _ => s
  end.
(** Every key is stored when it is returned. *)
Fixpoint all_stored (script : list visit) (ks : list K) s : Prop :=
  match ks with
  | [] => True
  | k :: ks => (exists x, bound s !! content (type := type) k = Some (k, x)) /\
      match script with b :: script => all_stored script ks (serve b k s) | [] => True end
  end.

Definition visit_ok (b : visit) : Prop := Forall harmless (before b) /\ Forall harmless (afterwards b).
Definition cost (b : visit) : nat := (length (before b) + length (afterwards b))%nat.
Definition cost_all (script : list visit) : nat := sum_list_with cost script.

Section traversal.
Variable low : positive.
Abbreviation undisturbed := (undisturbed low).

(** A state of the dictionary between two calls of a safe iterator. *)
Definition during (c : Z) w d L0 L1 s : Prop := holds type w d L0 L1 s /\ iterators d = c + 1 /\ (low <= brk w)%positive.

Lemma command_undisturbed cm c w d L0 L1 s : during c w d L0 L1 s -> 0 <= c -> harmless cm -> Z.of_nat (base.size (bound s)) < 2 ^ 59 ->
  exists w' d' L0' L1', perform type cm w = Ret (respond type cm s).2 w' /\ during c w' d' L0' L1' (respond type cm s).1 /\
    undisturbed 1 (places L0) (places L1) (places L0') (places L1').
Proof.
  intros (Hh & Hi & Hlow) Hc Hcm Hf. pose proof Hh as (Hok & _).
  pose proof (stepped_iterating type w d L0 L1 [] Hok ltac:(lia)) as Hst.
  assert (Hgo : done_at type w w d L0 L1 cm s -> exists w' d' L0' L1', perform type cm w = Ret (respond type cm s).2 w' /\
    during c w' d' L0' L1' (respond type cm s).1 /\ undisturbed 1 (places L0) (places L1) (places L0') (places L1')).
  { intros (w' & d' & L0' & L1' & E & Hh' & [_ Hs Hit Hb]). exists w', d', L0', L1'. split; [done|].
    split; [split; [done|split; [congruence|lia]]|]. by eapply undisturbed_spread. }
  pose proof (tables_done type cm w d L0 L1 s Hh) as Ht.
  destruct cm as [k x|k x|k|k|k| | | |n|n| |]; try done; try (apply Hgo, Ht; exact Hcm).
  - eapply Hgo, add_done; [exact Hst|done..].
  - eapply Hgo, replace_done; [exact Hst|done..].
  - destruct (fetch_done type k w d L0 L1 w d L0 L1 s Hh Hst Hh) as (w' & E & Hw'). exists w', d, L0, L1. split; [done|].
    assert (w' = w) as -> by by destruct Hw'. split; [done|]. intros it a here R Hr. exists R. split_and!; [done|done|lia].
Qed.

Lemma commands_undisturbed cs c : forall w d L0 L1 s, during c w d L0 L1 s -> 0 <= c -> Forall harmless cs ->
  Z.of_nat (base.size (bound s) + length cs) <= 2 ^ 59 -> exists w' d' L0' L1',
    perform_all type cs w = Ret (respond_all type cs s).2 w' /\ during c w' d' L0' L1' (respond_all type cs s).1 /\
    undisturbed (length cs) (places L0) (places L1) (places L0') (places L1').
Proof.
  induction cs as [|cm cs IH]; intros w d L0 L1 s Hd Hc Hcs Hf.
  { exists w, d, L0, L1. split; [done|]. split; [done|]. apply undisturbed_refl. }
  apply Forall_cons in Hcs as [Hcm Hcs]. cbn [length] in Hf. pose proof (respond_size type cm s) as Hsz.
  destruct (command_undisturbed cm c w d L0 L1 s Hd Hc Hcm ltac:(lia)) as (w1 & d1 & L01 & L11 & E & Hd1 & Hu).
  cbn [perform_all respond_all]. rewrite (bind_ret_eq _ _ _ _ _ E). destruct (respond type cm s) as [s1 y]. cbn [fst snd] in *.
  destruct (IH w1 d1 L01 L11 s1 Hd1 Hc Hcs ltac:(lia)) as (w' & d' & L0' & L1' & E' & Hd' & Hu').
  rewrite (bind_ret_eq _ _ _ _ _ E'). destruct (respond_all type cs s1) as [s2 l]. exists w', d', L0', L1'.
  split; [done|]. split; [done|]. by apply (undisturbed_trans low 1 (length cs) _ _ (places L01) (places L11)).
Qed.

Lemma serve_size b k s : (base.size (bound (serve b k s)) <= base.size (bound s) + cost b)%nat.
Proof.
  unfold serve, cost. set (s1 := (respond_all type (before b) s).1). pose proof (respond_all_size type (before b) s) as H1. fold s1 in H1.
  set (s2 := if drop_it b then (respond type (Remove k) s1).1 else s1).
  assert (H2 : (base.size (bound s2) <= base.size (bound s1))%nat).
  { unfold s2. destruct (drop_it b); [|done]. cbn. destruct (bound s1 !! content k) as [p|]; [|done]. cbn.
    rewrite map_size_delete. destruct (bound s1 !! content k); cbn; lia. }
  pose proof (respond_all_size type (afterwards b) s2). lia.
Qed.

(** The entry under the iterator is stored. *)
Lemma current_stored w d L0 L1 s it a R : holds type w d L0 L1 s -> resting it a true R (places L0) (places L1) ->
  exists n x q, n ∈ concat L0 ++ concat L1 /\ identity n = a /\ entries w !! a.1 = Some (entry_of q n) /\
    bound s !! content (type := type) a.2 = Some (a.2, x) /\
    lookup_node type (content a.2) (concat L0 ++ concat L1) = Some n.
Proof.
  intros Hh Hr. pose proof Hh as (Hok & Hv & Hb & _). destruct (resting_node _ _ _ _ _ _ _ _ Hok Hr) as (n & Hn & <-).
  destruct (node_entry type _ _ _ _ _ n Hok Hn) as (q & Hq). unfold valued in Hv. rewrite Forall_forall in Hv.
  destruct (Hv n Hn) as [x Hx]. exists n, x, q. assert (El : lookup_node type (content (nkey n)) (concat L0 ++ concat L1) = Some n).
  { apply lookup_node_Some; [by eapply ok_distinct|done]. }
  split_and!; try done. cbn. rewrite Hb, contents_lookup; [|by eapply ok_distinct|unfold valued; by rewrite Forall_forall].
  by rewrite El; cbn; rewrite Hx.
Qed.

(** The entry under the iterator is removed. *)
Lemma drop_ok c w d L0 L1 s it a R : during c w d L0 L1 s -> 0 <= c -> resting it a true R (places L0) (places L1) ->
  exists w' d' L0' L1', (dictDelete type a.2 ;;; ret tt) w = Ret tt w' /\
    during c w' d' L0' L1' (respond type (Remove a.2) s).1 /\ resting it a false R (places L0') (places L1').
Proof.
  intros (Hh & Hi & Hlow) Hc Hr. pose proof Hh as (Hok & _).
  destruct (current_stored _ _ _ _ _ _ _ _ Hh Hr) as (n & x & q & Hn & <- & _ & Hb & El). cbn [identity snd] in *.
  pose proof (stepped_iterating type w d L0 L1 [] Hok ltac:(lia)) as Hst.
  pose proof (remove_done type (nkey n) w d L0 L1 w d L0 L1 s Hh Hst Hh) as Hdel. rewrite El in Hdel.
  destruct Hdel as (w' & y & E & Hb' & (t & i & l1 & l2 & Hl & Hok' & Hbrk & _) & Hlose).
  assert (y = x) as -> by congruence. unfold perform in E.
  destruct (buckets_perm t i _ L0 L1 Hl) as (R' & HR & HR').
  assert (HN : concat L0 ++ concat L1 ≡ₚ n :: (concat (upd0 t i (l1 ++ l2) L0) ++ concat (upd1 t i (l1 ++ l2) L1))).
  { rewrite HR, HR'. solve_Permutation. }
  exists w', (set_used t (used (ht d t) - 1) d), (upd0 t i (l1 ++ l2) L0), (upd1 t i (l1 ++ l2) L1).
  assert (Ed : (dictDelete type (nkey n) ;;; ret tt) w = Ret tt w').
  { unfold bind, ret in E |- *. destruct (dictDelete type (nkey n) w); try done. by injection E as _ ->. }
  split; [done|]. split.
  - split; [|split; [by destruct t|by rewrite Hbrk]]. cbn [respond]. rewrite Hb. by apply Hlose.
  - by apply (resting_deleted w d L0 L1 []).
Qed.

Lemma attend_ok b c w d L0 L1 s it a R : during c w d L0 L1 s -> 0 <= c -> resting it a true R (places L0) (places L1) ->
  visit_ok b -> Z.of_nat (base.size (bound s) + cost b) <= 2 ^ 59 -> exists w' d' L0' L1' here R',
    attend a.1 b w = Ret tt w' /\ during c w' d' L0' L1' (serve b a.2 s) /\ resting it a here R' (places L0') (places L1') /\
    filter (old low) R' = filter (old low) R /\ (length R' <= length R + cost b)%nat.
Proof.
  intros Hd Hc Hr [Hb Ha] Hf. unfold cost in Hf. pose proof Hd as (Hh & _).
  destruct (current_stored _ _ _ _ _ _ _ _ Hh Hr) as (n & x & q & _ & <- & Hq & _). cbn [identity fst snd] in *.
  unfold attend. rewrite (bind_ret_eq _ _ _ _ _ (load_entry w _ _ Hq)). cbn [key entry_of].
  destruct (commands_undisturbed _ c _ _ _ _ _ Hd Hc Hb ltac:(lia)) as (w1 & d1 & L01 & L11 & E1 & Hd1 & Hu1).
  rewrite (bind_ret_eq _ _ _ _ _ E1). destruct (Hu1 _ _ _ _ Hr) as (R1 & Hr1 & Ef1 & Hl1).
  pose proof (respond_all_size type (before b) s) as Hs1. unfold serve. set (s1 := (respond_all type (before b) s).1) in *.
  set (s2 := if drop_it b then (respond type (Remove (nkey n)) s1).1 else s1).
  assert (Hdrop : exists w2 d2 L02 L12, (if drop_it b then dictDelete type (nkey n) ;;; ret tt else ret tt) w1 = Ret tt w2 /\
    during c w2 d2 L02 L12 s2 /\ resting it (identity n) (negb (drop_it b)) R1 (places L02) (places L12)).
  { unfold s2. destruct (drop_it b); [by apply (drop_ok c w1 d1 L01 L11 s1 it (identity n) R1)|]. by exists w1, d1, L01, L11. }
  destruct Hdrop as (w2 & d2 & L02 & L12 & E2 & Hd2 & Hr2). rewrite (bind_ret_eq _ _ _ _ _ E2).
  assert (Hs2 : (base.size (bound s2) <= base.size (bound s1))%nat).
  { unfold s2. destruct (drop_it b); [|done]. cbn. destruct (bound s1 !! content (nkey n)) as [p|]; [|done]. cbn.
    rewrite map_size_delete. destruct (bound s1 !! content (nkey n)); cbn; lia. }
  destruct (commands_undisturbed _ c _ _ _ _ _ Hd2 Hc Ha ltac:(lia)) as (w3 & d3 & L03 & L13 & E3 & Hd3 & Hu3).
  rewrite (bind_ret_eq _ _ _ _ _ E3). destruct (Hu3 _ _ _ _ Hr2) as (R3 & Hr3 & Ef3 & Hl3).
  exists w3, d3, L03, L13, (negb (drop_it b)), R3. unfold cost. split_and!; [done|done|done|congruence|lia].
Qed.

Lemma release_safe c w d L0 L1 s it : during c w d L0 L1 s -> 0 <= c -> c + 1 < 2 ^ 64 -> safe it = true -> 0 <= index it ->
  exists w' d', dictReleaseIterator pointer it w = Ret tt w' /\ holds type w' d' L0 L1 s /\ iterators d' = c.
Proof.
  intros (Hh & Hi & _) Hc Hc' Hs Hx. pose proof Hh as (Hok & Hrest). unfold dictReleaseIterator.
  rewrite table_index by done. cbn [negb]. rewrite Hs.
  exists (with_the_dict (Some (with_iterators c d)) w), (with_iterators c d). split; [|split; [|done]].
  - rewrite (upd_dict_eq w d _ (ok_dict _ _ _ _ _ _ Hok)), Hi. by rewrite u64_id, Z.add_simpl_r by lia.
  - split; [|done]. apply iterators_ok; [done|lia].
Qed.

Lemma handle_ok c script : 0 <= c -> c + 1 < 2 ^ 64 -> forall w d L0 L1 s it R, during c w d L0 L1 s -> safe it = true ->
  arrived it R (places L0) (places L1) -> Forall visit_ok script -> Z.of_nat (base.size (bound s) + cost_all script) <= 2 ^ 59 ->
  exists seen ended w' d' L0' L1', handle script (it, fst <$> head R) w = Ret (seen, ended) w' /\
    holds type w' d' L0' L1' (serve_all script seen.*2 s) /\ iterators d' = c /\ all_stored script seen.*2 s /\
    (exists rest, filter (old low) R = filter (old low) seen ++ rest /\ (ended = true -> rest = [])) /\
    ((length R + cost_all script <= length script)%nat -> ended = true).
Proof.
  intros Hc Hc'. induction script as [|b script IH]; intros w d L0 L1 s it R Hd Hs Hr Hv Hf; (destruct R as [|a R]; cbn [head fmap option_fmap option_map]).
  1,3: destruct (release_safe c _ _ _ _ _ _ Hd Hc Hc' Hs Hr) as (w' & d' & E & Hh' & Hi');
    exists [], true, w', d', L0, L1; cbn [handle]; rewrite (bind_ret_eq _ _ _ _ _ E); split_and!; try done; by exists [].
  all: pose proof Hd as (Hh & _); destruct (current_stored _ _ _ _ _ _ _ _ Hh Hr) as (n & x & q & _ & <- & Hq & Hb & _);
    cbn [identity fst snd] in *; pose proof (load_entry w _ _ Hq) as Eq; cbn [handle]; rewrite (bind_ret_eq _ _ _ _ _ Eq).
  - pose proof Hr as (i & _ & _ & Hi & _).
    destruct (release_safe c _ _ _ _ _ _ Hd Hc Hc' Hs ltac:(lia)) as (w' & d' & E & Hh' & Hi').
    exists [identity n], false, w', d', L0, L1. rewrite (bind_ret_eq _ _ _ _ _ E).
    split_and!; [done|done|done|by split; [exists x|]| |cbn; lia]. exists (filter (old low) R). by rewrite <- filter_app.
  - apply Forall_cons in Hv as [Hb' Hv]. cbn [cost_all sum_list_with] in Hf.
    destruct (attend_ok b c w d L0 L1 s it (identity n) R Hd Hc Hr Hb' ltac:(lia)) as (w1 & d1 & L01 & L11 & here & R1 & E1 & Hd1 & Hr1 & Ef & Hl).
    cbn [identity fst snd] in *. rewrite (bind_ret_eq _ _ _ _ _ E1). pose proof Hd1 as ((Hok1 & _) & _).
    destruct (dictNext_resting _ _ _ _ _ _ _ _ _ Hok1 Hr1) as (it' & E2 & [Hs2 _] & Hr2). rewrite (bind_ret_eq _ _ _ _ _ E2).
    pose proof (serve_size b (nkey n) s) as Hsz.
    destruct (IH w1 d1 L01 L11 (serve b (nkey n) s) it' R1 Hd1 ltac:(congruence) Hr2 Hv) as
      (seen & ended & w' & d' & L0' & L1' & E & Hh' & Hi' & Hall & (rest & Er & Hend) & Hn); [unfold cost_all in *; lia|].
    exists (identity n :: seen), ended, w', d', L0', L1'. rewrite (bind_ret_eq _ _ _ _ _ E).
    split_and!; [done|done|done|by split; [exists x|]| |].
    + exists rest. split; [|done]. change (identity n :: R) with ([identity n] ++ R). change (identity n :: seen) with ([identity n] ++ seen).
      by rewrite !filter_app, <- Ef, Er, app_assoc.
    + cbn [length cost_all sum_list_with]. intros Hlen. apply Hn. unfold cost_all in *. lia.
Qed.
End traversal.

(** ** An iteration over a dictionary that is left alone *)
Definition idle : visit := {| before := []; drop_it := false; afterwards := [] |}.

Lemma idle_run m w d L0 L1 it : dict_ok type w d L0 L1 [] -> safe it = false -> fingerprint it = dictFingerprint pointer d ->
  forall R, arrived it R (places L0) (places L1) -> (length R <= m)%nat ->
  handle (replicate m idle) (it, fst <$> head R) w = Ret (R, true) w.
Proof.
  intros Hok. pose proof (ok_dict _ _ _ _ _ _ Hok) as Hd. revert it. induction m as [|m IH]; intros it Hs Hp R Hr Hm.
  all: destruct R as [|a R]; cbn [head fmap option_fmap option_map replicate handle].
  1,3: unfold dictReleaseIterator; rewrite table_index by done; cbn [negb]; rewrite Hs, bind_assoc, (bind_ret_eq _ _ _ _ _ (the_eq w d Hd)), Hp, Z.eqb_refl; done.
  { cbn in Hm. lia. }
  destruct (resting_node _ _ _ _ _ _ _ _ Hok Hr) as (n & Hn & <-). destruct (node_entry type _ _ _ _ _ n Hok Hn) as (q & Hq).
  rewrite (bind_ret_eq _ _ _ _ _ (load_entry w _ _ Hq)). unfold attend. cbn [identity fst]. rewrite !bind_assoc.
  rewrite (bind_ret_eq _ _ _ _ _ (load_entry w _ _ Hq)). cbn [idle before drop_it afterwards perform_all].
  destruct (dictNext_resting _ _ _ _ _ _ _ _ _ Hok Hr) as (it' & E & [Hs' Hp'] & Hr').
  assert (E' : handle (replicate m idle) (it', fst <$> head R) w = Ret (R, true) w).
  { apply IH; [congruence|congruence|done|cbn in Hm; lia]. }
  unfold bind, ret. by rewrite E, E'.
Qed.

Definition stored_keys s : list K := (map_to_list (bound s)).*2.*1.

Lemma stored_identity w d L0 L1 s : holds type w d L0 L1 s -> (identity <$> concat L0 ++ concat L1).*2 ≡ₚ stored_keys s /\
  NoDup (identity <$> concat L0 ++ concat L1).*1 /\ length (concat L0 ++ concat L1) = base.size (bound s) /\
  forall x, x ∈ identity <$> concat L0 ++ concat L1 -> (x.1 < brk w)%positive.
Proof.
  intros Hh. pose proof Hh as (Hok & Hv & Hb & _). pose proof (ok_distinct type _ _ _ _ _ Hok) as Hd. split_and!.
  - unfold stored_keys. rewrite Hb. destruct (contents_list type _ Hd Hv) as [-> _]. by rewrite <- list_fmap_compose.
  - rewrite <- addr_identity. by eapply ok_addresses.
  - pose proof (few type _ _ _ _ _ Hh) as Hf. unfold zlen in Hf. lia.
  - intros x Hx. apply list_elem_of_fmap in Hx as (n & -> & Hn). apply (ok_brk _ _ _ _ _ _ Hok). left. by eapply node_live.
Qed.
End iter.

(** Entries the heap had already handed out in the world [w]; addresses are not used
    again. *)
Definition existing {K V} (w : world K V) (x : positive * K) : Prop := (x.1 < brk w)%positive.
#[export] Instance existing_decision {K V} (w : world K V) x : Decision (existing w x) := decide (x.1 < brk w)%positive.

(** C16: a loop over a safe iterator may use the dictionary meanwhile. Whatever it adds,
    replaces and looks up, however it resizes, and whichever of the entries it removes
    while it is on them: nothing undefined happens, the dictionary stays the map that
    those commands lead to, and every entry that is returned is stored then; of the
    entries that were there at the start none is returned twice, and all have been when
    the loop ends, which it does after as many turns as there were entries and commands;
    in the end the dictionary has as many iterators as before. *)
Theorem dict_safe_iteration {K V} `{EqDecision K} (type : dictType K V) {C} `{Countable C} {DL : DictLaws type C}
    pointer script w s d : implements type (C := C) w s -> the_dict w = Some d -> iterators d + 1 < 2 ^ 64 ->
  Forall visit_ok script -> Z.of_nat (base.size (bound s) + cost_all script) <= 2 ^ 59 ->
  exists seen ended w' d', traverse type pointer script dictGetSafeIterator w = Ret (seen, ended) w' /\
    implements type w' (serve_all type script seen.*2 s) /\ the_dict w' = Some d' /\ iterators d' = iterators d /\
    all_stored type script seen.*2 s /\
    NoDup (filter (existing w) seen).*1 /\ (filter (existing w) seen).*2 ⊆+ stored_keys s /\
    (ended = true -> (filter (existing w) seen).*2 ≡ₚ stored_keys s) /\
    ((base.size (bound s) + cost_all script <= length script)%nat -> ended = true).
Proof.
  intros (d0 & L0 & L1 & Hh) Hd Hi Hv Hf. pose proof Hh as (Hok & _).
  assert (d0 = d) as -> by (pose proof (ok_dict _ _ _ _ _ _ Hok); congruence). pose proof (ok_iterators _ _ _ _ _ _ Hok) as Hb.
  pose proof (dictNext_fresh type pointer w d L0 L1 [] dictGetSafeIterator Hok ltac:(done) eq_refl eq_refl eq_refl) as Hn.
  cbn [started safe dictGetSafeIterator] in Hn. destruct Hn as (it & E & [Hs _] & Hr). rewrite u64_id in E by lia.
  set (w1 := with_the_dict _ w) in E. set (N := identity <$> concat L0 ++ concat L1) in *.
  assert (Hdur : during type (brk w) (iterators d) w1 (with_iterators (iterators d + 1) d) L0 L1 s).
  { split; [|split; [done|apply Pos.le_refl]]. destruct Hh as (_ & Hrest). split; [|exact Hrest]. apply iterators_ok; [done|lia]. }
  destruct (handle_ok type pointer (brk w) (iterators d) script ltac:(lia) Hi w1 _ L0 L1 s it N Hdur Hs Hr Hv Hf)
    as (seen & ended & w' & d' & L0' & L1' & E' & Hh' & Hi' & Hall & (rest & Er & Hend) & Hcount).
  destruct (stored_identity type _ _ _ _ _ Hh) as (Hkeys & Hnd & Hlen & Hlow). fold N in Hkeys, Hnd, Hlow.
  assert (HN : filter (existing w) N = N) by by apply filter_every, Forall_forall.
  change (old (brk w)) with (existing w) in Er. assert (Er' : N = filter (existing w) seen ++ rest) by by rewrite <- HN. 
  exists seen, ended, w', d'. split; [unfold traverse; by rewrite (bind_ret_eq _ _ _ _ _ E)|].
  split; [by exists d', L0', L1'|]. pose proof Hh' as (Hok' & _). split; [apply Hok'|]. split; [done|]. split; [done|].
  rewrite Er' in Hnd, Hkeys. rewrite fmap_app in Hnd. rewrite fmap_app in Hkeys. split; [by apply NoDup_app in Hnd as [? _]|].
  split; [rewrite <- Hkeys; by apply submseteq_inserts_r|]. split; [intros ->; by rewrite (Hend eq_refl), app_nil_r in Hkeys|].
  intros Hle. apply Hcount. unfold N. rewrite length_fmap. lia.
Qed.

(** A loop over an iterator that is not safe returns every entry of a dictionary that
    is left alone exactly once, passes the check of the fingerprint and changes nothing. *)
Theorem dict_iteration {K V} `{EqDecision K} (type : dictType K V) {C} `{Countable C} {DL : DictLaws type C}
    pointer m w s : implements type (C := C) w s -> (base.size (bound s) <= m)%nat ->
  exists seen, traverse type pointer (replicate m idle) dictGetIterator w = Ret (seen, true) w /\
    NoDup seen.*1 /\ seen.*2 ≡ₚ stored_keys s.
Proof.
  intros (d & L0 & L1 & Hh) Hm. pose proof Hh as (Hok & _). exists (identity <$> concat L0 ++ concat L1).
  destruct (dictNext_first type pointer w d L0 L1 [] Hok) as (it & E & Hs & Hp & Hr).
  destruct (stored_identity type _ _ _ _ _ Hh) as (Hkeys & Hnd & Hlen & _). split; [|done].
  unfold traverse. rewrite (bind_ret_eq _ _ _ _ _ E). apply (idle_run type pointer m w d L0 L1 it Hok Hs Hp _ Hr). by rewrite length_fmap, Hlen.
Qed.

(** ** On concrete inputs *)

(** The first entry is removed and added again, two are added, all others are removed. *)
Definition sample_script : list (visit (K := Z) (V := Z)) :=
  {| before := [Fetch 3; Replace 4 1]; drop_it := true; afterwards := [Add 0 5] |} ::
  {| before := [Add 20 1]; drop_it := false; afterwards := [Add 21 1; Size] |} ::
  replicate 14 {| before := []; drop_it := true; afterwards := [] |}.

Lemma dict_safe_iteration_witness : exists seen w',
  traverse digits_type (fun _ => 0) sample_script dictGetSafeIterator nine_world = Ret (seen, true) w' /\
  (filter (existing nine_world) seen).*2 ≡ₚ stored_keys nine_map.
Proof.
  destruct (dict_safe_iteration digits_type (fun _ => 0) sample_script nine_world nine_map
    (match the_dict nine_world with Some d => d | None => _dictInit end)) as (seen & ended & w' & d' & E & _ & _ & _ & _ & _ & _ & Hall & Hend).
  - exact nine_ok.
  - vm_compute. reflexivity.
  - vm_compute. reflexivity.
  - unfold sample_script. cbn [replicate]. repeat (apply Forall_cons; split; [split; repeat (apply Forall_cons; split; [exact I|]); by apply Forall_nil|]).
    by apply Forall_nil.
  - vm_compute. discriminate.
  - assert (Ht : ended = true) by (apply Hend; apply Nat.leb_le; vm_compute; reflexivity).
    exists seen, w'. rewrite Ht in E. exact (conj E (Hall Ht)).
Defined.

Lemma dict_iteration_witness : exists seen, traverse digits_type (fun _ => 0) (replicate 9 idle) dictGetIterator nine_world = Ret (seen, true) nine_world /\
  NoDup seen.*1 /\ seen.*2 ≡ₚ stored_keys nine_map.
Proof. apply (dict_iteration digits_type (fun _ => 0) 9 nine_world nine_map nine_ok). apply Nat.leb_le. vm_compute. reflexivity. Defined.

(** [dictEmpty] forgets the iterators that are running: when one is released, the count
    wraps, and incremental rehashing stays off. *)
Example emptied_while_iterating :
  match (let* (it, _) := dictNext (fun _ => 0) dictGetSafeIterator in
         dictEmpty digits_type ;;; dictReleaseIterator (fun _ => 0) it) nine_world with
  | Ret _ w => iterators <$> the_dict w
  | _ => None
  end = Some (2 ^ 64 - 1).
Proof. vm_compute. reflexivity. Qed.

Section ends.
Context {K V : Type} {EK : EqDecision K} (type : dictType K V) {C : Type} {EC : EqDecision C} {CC : Countable C} {DL : DictLaws type C}.
Implicit Types (w : world K V) (d : dict) (s : spec K V C).

(** Calls of [dictRehash] with the numbers of steps [ns]: what they returned. *)
Fixpoint rehash_calls (ns : list Z) : M (world K V) (list bool) :=
  match ns with
  | [] => ret []
  | n :: ns => let* r := dictRehash type n in let* rs := rehash_calls ns in ret (r :: rs)
  end.

(** A map whose dictionary has [left] buckets to go until rehashing is over. *)
Definition due w s (left : Z) : Prop := (exists d L0 L1, holds type w d L0 L1 s /\ rehash_left d = left) /\
  g_IsForkedProcess w = false /\ 0 <= left.

Lemma rehash_left_bounds w d L0 L1 U : dict_ok type w d L0 L1 U -> 0 <= rehash_left d <= 1 + hsize (ht0 d) /\
  (rehash_left d = 0 <-> dictIsRehashing d = false).
Proof.
  intros Hok. unfold rehash_left. destruct (table_ok_size type _ _ _ (ok_ht0 _ _ _ _ _ _ Hok)) as [_ Hz].
  destruct (dictIsRehashing d) eqn:Er; [|split; [lia|done]].
  destruct (rehashing_busy _ _ _ _ _ _ Hok Er) as (_ & _ & Hb & _). split; [lia|]. split; [lia|done].
Qed.

Lemma rehash_call w s left n : due w s left -> n <> 0 -> exists r w' left', dictRehash type n w = Ret r w' /\ due w' s left' /\
  left' <= Z.max 0 (left - 1) /\ (r = false <-> left' = 0).
Proof.
  intros ((d & L0 & L1 & Hh & <-) & Hf & _) Hn. pose proof Hh as (Hok & _). pose proof (rehash_left_bounds _ _ _ _ _ Hok) as [Hb Hz].
  destruct (dictRehash_ok type w d L0 L1 [] n Hok) as (r & w' & d' & L0' & L1' & E & Hok' & HP & Hit & Hq & _ & Hr & Hless & Hsame).
  pose proof (rehash_left_bounds _ _ _ _ _ Hok') as [Hb' Hz']. specialize (Hr Hf).
  exists r, w', (rehash_left d'). split; [done|]. split; [|split; [|rewrite Hz'; split; congruence]].
  - destruct Hq as (Q1 & Q2 & Q3 & Hg). split; [|split; [congruence|lia]]. exists d', L0', L1'. split; [|done].
    eapply holds_rearranged; [exact Hh|done..].
  - destruct (dictIsRehashing d) eqn:Er; [specialize (Hless Hf Hn eq_refl); lia|]. specialize (Hsame eq_refl).
    assert (d' = d) as ->; [|lia]. rewrite Hsame in Hok'. pose proof (ok_dict _ _ _ _ _ _ Hok). pose proof (ok_dict _ _ _ _ _ _ Hok'). congruence.
Qed.

Lemma rehash_calls_ok ns : forall w s left, due w s left -> Forall (fun n => n <> 0) ns -> exists rs w' left',
  rehash_calls ns w = Ret rs w' /\ due w' s left' /\ left' <= Z.max 0 (left - zlen ns).
Proof.
  induction ns as [|n ns IH]; intros w s left Hw Hn.
  { exists [], w, left. pose proof Hw as (_ & _ & Hl). split_and!; try done. unfold zlen. cbn. lia. }
  apply Forall_cons in Hn as [Hn Hns]. destruct (rehash_call w s left n Hw Hn) as (r & w1 & left1 & E & Hw1 & Hl1 & _).
  destruct (IH w1 s left1 Hw1 Hns) as (rs & w' & left' & E' & Hw' & Hle). exists (r :: rs), w', left'. cbn [rehash_calls].
  rewrite (bind_ret_eq _ _ _ _ _ E), (bind_ret_eq _ _ _ _ _ E'). split_and!; [done|done|]. rewrite zlen_cons. pose proof (zlen_nonneg ns). lia.
Qed.

Lemma milliseconds_loop clock ms s : forall m w left i rehashes, due w s left -> left < Z.of_nat m -> exists r w' left',
  while_loop m (rehash_round type clock ms) (i, rehashes) w = Ret r w' /\ due w' s left' /\
  (left' = 0 \/ exists j, ms < clock j - clock 0%nat).
Proof.
  induction m as [|m IH]; intros w left i rehashes Hw Hm; [destruct Hw as (_ & _ & Hl); lia|].
  destruct (rehash_call w s left 100 Hw ltac:(done)) as (r & w1 & left1 & E & Hw1 & Hl1 & Hr).
  cbn [while_loop]. unfold rehash_round at 1. rewrite bind_assoc, (bind_ret_eq _ _ _ _ _ E). destruct r.
  - destruct (ms <? clock i - clock 0%nat) eqn:Ec.
    + exists (i32 (rehashes + 100)), w1, left1. split; [done|]. split; [done|]. right. exists i. by apply Z.ltb_lt.
    + assert (left1 <> 0) by (intros E0; by apply Hr in E0). pose proof Hw1 as (_ & _ & H1).
      apply (IH w1 left1 (Datatypes.S i) (i32 (rehashes + 100)) Hw1). lia.
  - exists rehashes, w1, left1. split; [done|]. split; [done|]. left. by apply Hr.
Qed.
End ends.

(** C17: rehashing comes to its end. Outside a forked process, calls of [dictRehash] that
    ask for any number of steps but none finish it within one call more than the first
    table has buckets, and [dictRehashMilliseconds] returns whatever the clock does, with
    rehashing finished unless its time was over; the map stays the same. *)
Theorem dict_rehashing_ends {K V} `{EqDecision K} (type : dictType K V) {C} `{Countable C} {DL : DictLaws type C} w s d :
  implements type (C := C) w s -> the_dict w = Some d -> g_IsForkedProcess w = false ->
  (forall ns, Forall (fun n => n <> 0) ns -> hsize (ht0 d) < zlen ns -> exists rs w' d', rehash_calls type ns w = Ret rs w' /\
     implements type w' s /\ the_dict w' = Some d' /\ dictIsRehashing d' = false) /\
  (forall clock ms, exists r w' d', dictRehashMilliseconds type clock ms w = Ret r w' /\
     implements type w' s /\ the_dict w' = Some d' /\
     (dictIsRehashing d' = false \/ exists j, ms < clock j - clock 0%nat)).
Proof.
  intros (d0 & L0 & L1 & Hh) Hd Hf. pose proof Hh as (Hok & _).
  assert (d0 = d) as -> by (pose proof (ok_dict _ _ _ _ _ _ Hok); congruence).
  destruct (rehash_left_bounds type _ _ _ _ _ Hok) as [Hb _].
  assert (Hdue : due type w s (rehash_left d)) by (split; [by exists d, L0, L1|split; [done|lia]]).
  assert (Hover : forall w' left, due type w' s left -> exists d', implements type w' s /\ the_dict w' = Some d' /\
    (left = 0 -> dictIsRehashing d' = false)).
  { intros w' left ((d' & L0' & L1' & Hh' & <-) & _). pose proof Hh' as (Hok' & _). exists d'. split; [by exists d', L0', L1'|].
    split; [apply Hok'|]. apply (rehash_left_bounds type _ _ _ _ _ Hok'). }
  split.
  - intros ns Hns Hlen. destruct (rehash_calls_ok type ns w s _ Hdue Hns) as (rs & w' & left' & E & Hw' & Hle).
    destruct (Hover _ _ Hw') as (d' & Hi' & Hd' & Hend). exists rs, w', d'. split_and!; [done..|]. apply Hend.
    pose proof Hw' as (_ & _ & ?). lia.
  - intros clock ms. unfold dictRehashMilliseconds.
    destruct (milliseconds_loop type clock ms s (2 + Z.to_nat (hsize (ht0 d))) w _ 1%nat 0 Hdue ltac:(lia)) as (r & w' & left' & E & Hw' & Hor).
    destruct (Hover _ _ Hw') as (d' & Hi' & Hd' & Hend). exists r, w', d'. rewrite (bind_ret_eq _ _ _ _ _ (the_eq w d Hd)).
    split_and!; [done..|]. destruct Hor as [E0|Hj]; [left; by apply Hend|by right].
Qed.

(** ** On concrete inputs *)

(** From eight buckets to sixteen. *)
Lemma dict_rehashing_ends_witness : exists rs w' d', rehash_calls digits_type (replicate 9 1) nine_world = Ret rs w' /\
  implements digits_type w' nine_map /\ the_dict w' = Some d' /\ dictIsRehashing d' = false.
Proof.
  destruct (dict_rehashing_ends digits_type nine_world nine_map (match the_dict nine_world with Some d => d | None => _dictInit end) nine_ok)
    as [Hcalls _].
  - vm_compute. reflexivity.
  - vm_compute. reflexivity.
  - apply Hcalls; [repeat (apply Forall_cons; split; [discriminate|]); by apply Forall_nil|vm_compute; reflexivity].
Defined.
