(* ===== verification/DictRandom.v ===== *)
(** Random entries of dict.c: [dictGetRandomKey] and [dictGetSomeKeys] return entries that
    are stored, the latter no more than there is room for, and any entry may come out. *)
From S2P Require Import Prelude Util Dict DictProofs DictRehash DictOps DictClear DictMap DictIter.
#[local] Open Scope Z_scope.

Section random.
Context {K V : Type} {EK : EqDecision K} (type : dictType K V) {C : Type} {EC : EqDecision C} {CC : Countable C} {DL : DictLaws type C}.
Implicit Types (w : world K V) (d : dict) (s : spec K V C) (l N U : list (node K V)) (L : list (list (node K V))) (n : node K V).
Variable rnd : nat -> Z.

(** ** A random bucket *)

(** Where [random_turn] looks: the table and the bucket. *)
Definition pick d (r : Z) : bool * Z :=
  if dictIsRehashing d then
    let h := rehashidx d + r mod (hsize (ht0 d) + hsize (ht1 d) - rehashidx d) in
    if hsize (ht0 d) <=? h then (true, h - hsize (ht0 d)) else (false, h)
  else (false, Z.land r (sizemask (ht0 d))).

Lemma pick_bucket w d L0 L1 U r : dict_ok type w d L0 L1 U -> table (ht0 d) <> None ->
  exists i l, (pick d r).2 = Z.of_nat i /\ buckets L0 L1 (pick d r).1 !! i = Some l.
Proof.
  intros Hok Ht. unfold pick. destruct (hsize_length type _ _ _ _ _ false Hok) as [H0 _].
  destruct (hsize_length type _ _ _ _ _ true Hok) as [H1 _]. cbn [ht buckets] in H0, H1.
  assert (Hin : forall (t : bool) h, 0 <= h < Z.of_nat (length (buckets L0 L1 t)) ->
    exists i l, h = Z.of_nat i /\ buckets L0 L1 t !! i = Some l).
  { intros t h Hh. destruct (lookup_lt_is_Some_2 (buckets L0 L1 t) (Z.to_nat h)) as [l Hl]; [lia|].
    exists (Z.to_nat h), l. split; [lia|done]. }
  destruct (dictIsRehashing d) eqn:Er.
  - destruct (rehashing_busy _ _ _ _ _ _ Hok Er) as (_ & T1 & Hb & _).
    destruct (first_bucket type _ _ _ _ _ true Hok T1) as [l1 Hl1]. apply lookup_lt_Some in Hl1. cbn [buckets] in Hl1.
    pose proof (Z.mod_pos_bound r (hsize (ht0 d) + hsize (ht1 d) - rehashidx d) ltac:(lia)). cbv zeta.
    destruct (Z.leb_spec (hsize (ht0 d)) (rehashidx d + r mod (hsize (ht0 d) + hsize (ht1 d) - rehashidx d))); cbn [fst snd];
      apply Hin; cbn [buckets]; lia.
  - cbn [fst snd]. apply Hin. cbn [buckets]. pose proof (ok_ht0 _ _ _ _ _ _ Hok) as Hh. unfold table_ok in Hh.
    destruct (table (ht0 d)); [|done]. destruct Hh as (ps & _ & Hs). destruct (sh_pow _ _ _ _ _ Hs) as (e & He & Hp).
    rewrite (sh_mask _ _ _ _ _ Hs), <- H0, Hp. replace (2 ^ e - 1) with (Z.ones e) by (rewrite Z.ones_equiv; lia).
    rewrite Z.land_ones by lia. apply Z.mod_pos_bound. lia.
Qed.

Lemma random_turn_eq w d L0 L1 U i : dict_ok type w d L0 L1 U -> table (ht0 d) <> None ->
  exists j l, (pick d (rnd i)).2 = Z.of_nat j /\ buckets L0 L1 (pick d (rnd i)).1 !! j = Some l /\
    random_turn rnd i w = Ret (match addr <$> head l with None => inl (Datatypes.S i) | Some p => inr (Some p, Datatypes.S i) end) w.
Proof.
  intros Hok Ht. destruct (pick_bucket w d L0 L1 U (rnd i) Hok Ht) as (j & l & Hj & Hl). exists j, l. split; [done|]. split; [done|].
  destruct (bucket_at type _ _ _ _ _ _ _ _ Hok Hl) as [Eb _]. rewrite <- Hj in Eb.
  unfold random_turn. rewrite (bind_ret_eq _ _ _ _ _ (the_eq w d (ok_dict _ _ _ _ _ _ Hok))).
  rewrite (bind_ret_eq _ _ w (addr <$> head l) w); [by destruct (addr <$> head l)|]. unfold pick in *.
  destruct (table_ok_size type _ _ _ (ok_ht0 _ _ _ _ _ _ Hok)) as [_ Hz0]. destruct (table_ok_size type _ _ _ (ok_ht1 _ _ _ _ _ _ Hok)) as [_ Hz1].
  destruct (dictIsRehashing d) eqn:Er; [|exact Eb]. destruct (rehashing_busy _ _ _ _ _ _ Hok Er) as (_ & T1 & Hb & _).
  destruct (first_bucket type _ _ _ _ _ true Hok T1) as [l1 Hl1]. apply lookup_lt_Some in Hl1. cbn [buckets] in Hl1.
  destruct (hsize_length type _ _ _ _ _ true Hok) as [H1 _]. cbn [ht buckets] in H1. cbv zeta in *.
  rewrite (u64_id (hsize (ht0 d) + hsize (ht1 d))), u64_id, (proj2 (Z.eqb_neq _ _)) by lia.
  pose proof (Z.mod_pos_bound (rnd i) (hsize (ht0 d) + hsize (ht1 d) - rehashidx d) ltac:(lia)).
  rewrite u64_id by lia. destruct (_ <=? _); exact Eb.
Qed.

(** The draws up to one that hits a bucket with entries. *)
Definition hits d L0 L1 (r : Z) : Prop := exists j l, (pick d r).2 = Z.of_nat j /\ buckets L0 L1 (pick d r).1 !! j = Some l /\ l <> [].

Lemma random_loop w d L0 L1 U m : dict_ok type w d L0 L1 U -> table (ht0 d) <> None -> forall i,
  (while_loop m (random_turn rnd) i w = NoFuel /\ forall j, (i <= j < i + m)%nat -> ~ hits d L0 L1 (rnd j)) \/
  (exists j t b l, (i <= j < i + m)%nat /\ pick d (rnd j) = (t, Z.of_nat b) /\ buckets L0 L1 t !! b = Some l /\ l <> [] /\
     while_loop m (random_turn rnd) i w = Ret (addr <$> head l, Datatypes.S j) w).
Proof.
  intros Hok Ht. induction m as [|m IH]; intros i.
  { left. split; [done|]. lia. }
  destruct (random_turn_eq w d L0 L1 U i Hok Ht) as (b & l & Hb & Hl & E). cbn [while_loop]. rewrite (bind_ret_eq _ _ _ _ _ E).
  destruct l as [|n l]; cbn [head fmap option_fmap option_map].
  - destruct (IH (Datatypes.S i)) as [[E' Hno]|(j & t & b' & l & Hj & Hrest)].
    + left. split; [exact E'|]. intros j Hj. destruct (decide (j = i)) as [->|]; [|apply Hno; lia].
      intros (b' & l & Hb' & Hl' & Hne). assert (b' = b) as -> by lia. congruence.
    + right. exists j, t, b', l. split; [lia|done].
  - right. exists i, (pick d (rnd i)).1, b, (n :: l). split; [lia|]. rewrite <- Hb. by rewrite <- surjective_pairing.
Qed.

(** ** A random entry of a chain *)
Lemma chain_length_eq w p l : chain (entries w) p l -> NoDup (addr <$> l) -> zlen l < 2 ^ 31 ->
  chain_length p w = Ret (zlen l) w.
Proof.
  intros Hc Hd Hz. pose proof (chain_short _ _ _ Hc Hd) as Hf. unfold chain_length, chain_fuel.
  erewrite bind_ret_eq by (erewrite bind_ret_eq by reflexivity; reflexivity). clear Hd.
  assert (Hgen : forall m acc, (length l < m)%nat -> 0 <= acc -> acc + zlen l < 2 ^ 31 ->
    while_loop m (fun '(he, listlen) => match he with
      | None => ret (inr listlen)
      | Some p => let* e := load p in ret (inl (next e, i32 (listlen + 1)))
      end) (p, acc) w = Ret (acc + zlen l) w); [|by apply (Hgen _ 0); lia].
  clear Hf Hz. revert p Hc. induction l as [|n l IH]; intros p Hc m acc Hm Ha Hs; (destruct m as [|m]; [cbn in Hm; lia|]); cbn [while_loop].
  - cbn in Hc. subst p. unfold zlen. cbn. by rewrite Z.add_0_r.
  - destruct Hc as [-> (q & Hq & Hc)]. rewrite zlen_cons in Hs |- *. pose proof (zlen_nonneg l). rewrite bind_assoc.
    rewrite (bind_ret_eq _ _ _ _ _ (load_entry w _ _ Hq)). cbn [next].
    assert (Ei : i32 (acc + 1) = acc + 1) by (unfold i32; rewrite Z.mod_small; lia). unfold bind at 1, ret at 1. cbv beta iota.
    rewrite Ei, (IH q Hc m (acc + 1)) by (cbn in Hm; lia). f_equal. lia.
Qed.

Lemma chain_nth_eq w m : forall p l, chain (entries w) p l -> (m < length l)%nat -> chain_nth m p w = Ret (addr <$> l !! m) w.
Proof.
  induction m as [|m IH]; intros p [|n l] Hc Hm; cbn in Hm; try lia; destruct Hc as [-> (q & Hq & Hc)]; [done|].
  cbn [chain_nth]. rewrite (bind_ret_eq _ _ _ _ _ (load_entry w _ _ Hq)). apply IH; [done|lia].
Qed.

Lemma nonempty_table w d L0 L1 U : dict_ok type w d L0 L1 U -> concat L0 ++ concat L1 <> [] -> table (ht0 d) <> None.
Proof. intros Hok Hne E. by pose proof (no_table type _ _ _ _ _ Hok E). Qed.

(** An entry of the map [s]. *)
Definition stored_entry w s (p : positive) : Prop := exists e x, entries w !! p = Some e /\ v e = Some x /\
  bound s !! content (type := type) (key e) = Some (key e, x).

Lemma node_stored w d L0 L1 s n : holds type w d L0 L1 s -> n ∈ concat L0 ++ concat L1 ->
  exists x q, nval n = Some x /\ entries w !! addr n = Some (entry_of q n) /\ bound s !! content (type := type) (nkey n) = Some (nkey n, x).
Proof.
  intros (Hok & Hv & Hb & _) Hn. destruct (node_entry type _ _ _ _ _ n Hok Hn) as (q & Hq).
  pose proof Hv as Hv'. unfold valued in Hv'. rewrite Forall_forall in Hv'. destruct (Hv' n Hn) as [x Hx]. exists x, q.
  split; [done|]. split; [done|]. rewrite Hb, contents_lookup; [|by eapply ok_distinct|done].
  assert (El : lookup_node type (content (nkey n)) (concat L0 ++ concat L1) = Some n).
  { apply lookup_node_Some; [by eapply ok_distinct|done]. }
  by rewrite El; cbn; rewrite Hx.
Qed.
Lemma stored_node w d L0 L1 s n : holds type w d L0 L1 s -> n ∈ concat L0 ++ concat L1 -> stored_entry w s (addr n).
Proof. intros Hh Hn. destruct (node_stored _ _ _ _ _ _ Hh Hn) as (x & q & Hx & Hq & Hb). by exists (entry_of q n), x. Qed.

Lemma bucket_member L0 L1 (t : bool) i l n : buckets L0 L1 t !! i = Some l -> n ∈ l -> n ∈ concat L0 ++ concat L1.
Proof. intros Hl Hn. apply elem_of_app. destruct t; [right|left]; apply elem_of_concat; by exists i, l. Qed.

(** What [dictGetRandomKey] does once it looks: [w] is the world after the step of
    rehashing. *)
Lemma random_entry w d L0 L1 s m : holds type w d L0 L1 s -> concat L0 ++ concat L1 <> [] ->
  Z.of_nat (base.size (bound s)) < 2 ^ 31 ->
  let look := (let* (he, i) := while_loop m (random_turn rnd) 0%nat in
    let* listlen := chain_length he in
    if listlen =? 0 then fail DivByZero else chain_nth (Z.to_nat (rnd i mod listlen)) he) in
  (look w = NoFuel /\ forall j, (j < m)%nat -> ~ hits d L0 L1 (rnd j)) \/
  (exists j t b l n, (j < m)%nat /\ pick d (rnd j) = (t, Z.of_nat b) /\ buckets L0 L1 t !! b = Some l /\
     l !! Z.to_nat (rnd (Datatypes.S j) mod zlen l) = Some n /\ look w = Ret (Some (addr n)) w).
Proof.
  intros Hh Hne Hsz look. pose proof Hh as (Hok & _). pose proof (nonempty_table _ _ _ _ _ Hok Hne) as Ht.
  destruct (random_loop w d L0 L1 [] m Hok Ht 0) as [[E Hno]|(j & t & b & l & Hj & Hp & Hl & Hnl & E)].
  - left. split; [|intros j Hj; apply Hno; lia]. unfold look, bind. by rewrite E.
  - right. destruct (bucket_at type _ _ _ _ _ _ _ _ Hok Hl) as [_ Hc]. destruct (bucket_nodes type _ _ _ _ _ _ _ _ Hok Hl) as (Hnd & _ & _).
    pose proof (few type _ _ _ _ _ Hh) as Hf. destruct (buckets_perm t b l L0 L1 Hl) as (R & HR & _).
    assert (Hll : 0 < zlen l < 2 ^ 31).
    { rewrite <- Hf in Hsz. unfold zlen in *. rewrite HR, length_app in Hsz. destruct l; [done|]. cbn [length] in *. lia. }
    pose proof (Z.mod_pos_bound (rnd (Datatypes.S j)) (zlen l) ltac:(lia)).
    assert (Hm : (Z.to_nat (rnd (Datatypes.S j) mod zlen l) < length l)%nat) by (unfold zlen in *; lia).
    destruct (lookup_lt_is_Some_2 l _ Hm) as [n Hn]. exists j, t, b, l, n. split; [lia|]. split; [done|]. split; [done|]. split; [done|].
    unfold look. rewrite (bind_ret_eq _ _ _ _ _ E). rewrite (bind_ret_eq _ _ _ _ _ (chain_length_eq w _ l Hc Hnd ltac:(lia))).
    rewrite (proj2 (Z.eqb_neq _ _)) by lia. rewrite (chain_nth_eq w _ _ l Hc Hm). by rewrite Hn.
Qed.

Lemma nonempty_size w d L0 L1 s : holds type w d L0 L1 s -> (dictSize d =? 0) = (base.size (bound s) =? 0)%nat.
Proof.
  intros Hh. pose proof Hh as (Hok & _). destruct (ht0_bounds _ _ _ _ _ _ Hok) as (Hu0 & Hu1 & E0 & E1 & Hsum).
  unfold dictSize. rewrite u64_id, E0, E1, <- zlen_app, (few type _ _ _ _ _ Hh) by lia.
  destruct (Z.eqb_spec (Z.of_nat (base.size (bound s))) 0), (Nat.eqb_spec (base.size (bound s)) 0); lia || done.
Qed.
End random.

Section random_key.
Context {K V : Type} {EK : EqDecision K} (type : dictType K V) {C : Type} {EC : EqDecision C} {CC : Countable C} {DL : DictLaws type C}.
Implicit Types (w : world K V) (d : dict) (s : spec K V C).

Lemma get_random_key_eq rnd fuel w d L0 L1 s : holds type w d L0 L1 s -> base.size (bound s) <> 0%nat ->
  Z.of_nat (base.size (bound s)) < 2 ^ 31 -> exists w1 d1 L01 L11, holds type w1 d1 L01 L11 s /\ concat L01 ++ concat L11 <> [] /\
  step_if_rehashing type w = Ret tt w1 /\
  dictGetRandomKey type rnd fuel w = (let* (he, i) := while_loop fuel (random_turn rnd) 0%nat in
    let* listlen := chain_length he in
    if listlen =? 0 then fail DivByZero else chain_nth (Z.to_nat (rnd i mod listlen)) he) w1.
Proof.
  intros Hh Hne Hsz. destruct (step_holds type _ _ _ _ _ Hh) as (w1 & d1 & L01 & L11 & (E & _) & Hh1).
  exists w1, d1, L01, L11. split; [done|]. split; [|split; [done|]].
  - intros Hnil. pose proof (few type _ _ _ _ _ Hh1) as Hf. rewrite Hnil in Hf. unfold zlen in Hf. cbn in Hf. lia.
  - pose proof Hh as (Hok & _). unfold dictGetRandomKey. rewrite (bind_ret_eq _ _ _ _ _ (the_eq w d (ok_dict _ _ _ _ _ _ Hok))).
    rewrite (nonempty_size type _ _ _ _ _ Hh), (proj2 (Nat.eqb_neq _ _) Hne). by rewrite (bind_ret_eq _ _ _ _ _ E).
Qed.

(** Random numbers that lead to a given entry. *)
Lemma draw_exists w d L0 L1 s n : holds type w d L0 L1 s -> n ∈ concat L0 ++ concat L1 -> Z.of_nat (base.size (bound s)) < 2 ^ 31 ->
  exists r0 r1 t b l, pick d r0 = (t, Z.of_nat b) /\ buckets L0 L1 t !! b = Some l /\ 0 <= r1 /\ r1 mod zlen l = r1 /\
    l !! Z.to_nat r1 = Some n.
Proof.
  intros Hh Hn Hsz. pose proof Hh as (Hok & _). destruct (find_bucket type _ _ _ _ _ n Hok Hn) as (t & bp & ps & i & p & l1 & l2 & Hb & Hps & Hp & Hl & _).
  destruct (hsize_length type _ _ _ _ _ false Hok) as [H0 _]. destruct (hsize_length type _ _ _ _ _ true Hok) as [H1 _]. cbn [ht buckets] in H0, H1.
  pose proof (lookup_lt_Some _ _ _ Hl) as Hi.
  assert (Hr0 : exists r0, pick d r0 = (t, Z.of_nat i)).
  { unfold pick. destruct (dictIsRehashing d) eqn:Er.
    - destruct (rehashing_busy _ _ _ _ _ _ Hok Er) as (_ & T1 & Hx & Hem). destruct t; cbn [buckets] in Hi, Hl.
      + exists (hsize (ht0 d) + Z.of_nat i - rehashidx d). rewrite Z.mod_small by lia. cbv zeta.
        replace (rehashidx d + (hsize (ht0 d) + Z.of_nat i - rehashidx d)) with (hsize (ht0 d) + Z.of_nat i) by lia.
        rewrite (proj2 (Z.leb_le _ _)) by lia. f_equal. lia.
      + destruct (Z.le_gt_cases (rehashidx d) (Z.of_nat i)) as [Hge|Hlt].
        * exists (Z.of_nat i - rehashidx d). destruct (first_bucket type _ _ _ _ _ true Hok T1) as [m Hm]. apply lookup_lt_Some in Hm.
          cbn [buckets] in Hm. rewrite Z.mod_small by lia. cbv zeta. rewrite Zplus_minus, (proj2 (Z.leb_gt _ _)) by lia. done.
        * specialize (Hem i Hlt _ Hl). by destruct l1.
    - destruct (rehashing_table _ _ _ _ _ _ Hok Er) as [_ E1]. destruct t; cbn [buckets] in Hi, Hl; [by rewrite E1 in Hl|].
      exists (Z.of_nat i). f_equal. pose proof (ok_ht0 _ _ _ _ _ _ Hok) as Hh0. unfold table_ok in Hh0. cbn [ht] in Hb. rewrite Hb in Hh0.
      destruct Hh0 as (ps' & _ & Hs). destruct (sh_pow _ _ _ _ _ Hs) as (e & He & Hpw).
      rewrite (sh_mask _ _ _ _ _ Hs), Hpw. replace (2 ^ e - 1) with (Z.ones e) by (rewrite Z.ones_equiv; lia).
      rewrite Z.land_ones by lia. apply Z.mod_small. lia. }
  destruct Hr0 as [r0 Hr0]. exists r0, (zlen l1), t, i, (l1 ++ n :: l2). pose proof (zlen_nonneg l1). pose proof (zlen_nonneg l2).
  split; [done|]. split; [done|]. split; [done|]. split; [rewrite Z.mod_small; [done|zlen_solve]|].
  unfold zlen. rewrite Nat2Z.id. by apply list_lookup_middle.
Qed.
End random_key.

(** ** Several entries *)
Section some_keys.
Context {K V : Type} {EK : EqDecision K} (type : dictType K V) {C : Type} {EC : EqDecision C} {CC : Countable C} {DL : DictLaws type C}.
Implicit Types (w : world K V) (d : dict) (s : spec K V C) (l : list (node K V)) (L : list (list (node K V))).
Variable rnd : nat -> Z.

(** The rehashing done first. *)
Lemma rehash_turns_ok count m : forall w d L0 L1 s j, holds type w d L0 L1 s -> j <= count -> count - j < Z.of_nat m -> exists w' d' L0' L1',
  while_loop m (rehash_turn_of type count) j w = Ret tt w' /\ holds type w' d' L0' L1' s /\
  (table (ht0 d) <> None -> table (ht0 d') <> None).
Proof.
  induction m as [|m IH]; intros w d L0 L1 s j Hh Hj Hm; [lia|]. cbn [while_loop]. unfold rehash_turn_of at 1.
  destruct (Z.ltb_spec j count); [|by exists w, d, L0, L1]. pose proof Hh as (Hok & _). pose proof (ok_dict _ _ _ _ _ _ Hok) as Hd.
  rewrite bind_assoc, (bind_ret_eq _ _ _ _ _ (the_eq w d Hd)). destruct (dictIsRehashing d) eqn:Er; [|by exists w, d, L0, L1].
  destruct (step_holds type _ _ _ _ _ Hh) as (w1 & d1 & L01 & L11 & (E & _ & _ & Ht) & Hh1).
  unfold step_if_rehashing in E. rewrite (bind_ret_eq _ _ _ _ _ (the_eq w d Hd)), Er in E. rewrite bind_assoc, (bind_ret_eq _ _ _ _ _ E).
  destruct (IH w1 d1 L01 L11 s (j + 1) Hh1 ltac:(lia) ltac:(lia)) as (w' & d' & L0' & L1' & E' & Hh' & Ht').
  exists w', d', L0', L1'. split; [exact E'|]. split; [done|auto].
Qed.

Section sampled.
Variables (w : world K V) (d : dict) (L0 L1 : list (list (node K V))) (s : spec K V C).
Hypothesis Hh : holds type w d L0 L1 s.

(** What has been stored into [des] so far. *)
Definition sampled (count : Z) (out : list positive) (full : bool) : Prop :=
  Forall (stored_entry type w s) out /\ (if full then zlen out <= count else zlen out < count).

Lemma collect_ok count l : forall p out, chain (entries w) p l -> NoDup (addr <$> l) -> (forall n, n ∈ l -> n ∈ concat L0 ++ concat L1) ->
  sampled count out false -> exists out' full, collect count p out w = Ret (out', full) w /\ sampled count out' full.
Proof.
  intros p out Hc Hd Hin Ho. pose proof (chain_short _ _ _ Hc Hd) as Hf. unfold collect, chain_fuel.
  erewrite bind_ret_eq by (erewrite bind_ret_eq by reflexivity; reflexivity).
  assert (Hm : (length l < Datatypes.S (base.size (entries w)))%nat) by lia. revert Hm.
  generalize (Datatypes.S (base.size (entries w))) as m. clear Hd Hf. revert p out Hc Ho Hin.
  induction l as [|n l IH]; intros p out Hc Ho Hin m Hm; (destruct m as [|m]; [cbn in Hm; lia|]); cbn [while_loop].
  - cbn in Hc. subst p. by exists out, false.
  - destruct Hc as [-> (q & Hq & Hc)]. rewrite bind_assoc, (bind_ret_eq _ _ _ _ _ (load_entry w _ _ Hq)). cbv zeta. cbn [next].
    assert (Hst : stored_entry type w s (addr n)) by (eapply stored_node; [exact Hh|apply Hin; by left]).
    destruct Ho as [Ho Hz]. assert (Ho' : Forall (stored_entry type w s) (out ++ [addr n])) by (apply Forall_app; split; [done|by apply Forall_singleton]).
    rewrite zlen_app. change (zlen [addr n]) with 1. destruct (Z.eqb_spec (zlen out + 1) count).
    + exists (out ++ [addr n]), true. split; [done|]. split; [done|]. rewrite zlen_app. change (zlen [addr n]) with 1. lia.
    + apply IH; [done| |intros n' Hn'; apply Hin; by right|cbn in Hm; lia]. split; [done|]. rewrite zlen_app.
      change (zlen [addr n]) with 1. lia.
Qed.

Lemma sample_table_ok count mask rehashing t x : 0 <= mask -> 0 <= spot x -> sampled count (des x) false ->
  rehashing = dictIsRehashing d -> exists y full, sample_table rnd count mask rehashing t x w = Ret (y, full) w /\
    0 <= spot y /\ sampled count (des y) full.
Proof.
  intros Hm Hx Hs Hr. pose proof Hh as (Hok & _). unfold sample_table.
  rewrite (bind_ret_eq _ _ _ _ _ (the_eq w d (ok_dict _ _ _ _ _ _ Hok))). cbv zeta.
  destruct (_ && (spot x <? hsize (ht1 d))) eqn:E1; [by exists x, false|].
  set (i := if rehashing && negb t && (spot x <? rehashidx d) then rehashidx d else spot x).
  assert (Hi : 0 <= i).
  { unfold i. destruct (rehashing && negb t && (spot x <? rehashidx d)) eqn:E2; [|done].
    apply andb_true_iff in E2 as [E2 _]. apply andb_true_iff in E2 as [E2 _]. rewrite Hr in E2.
    destruct (rehashing_busy _ _ _ _ _ _ Hok E2) as (_ & _ & ? & _). lia. }
  destruct (hsize_length type _ _ _ _ _ t Hok) as [Hz _]. destruct (Z.leb_spec (hsize (ht d t)) i).
  { eexists _, false. split; [reflexivity|]. by cbn. }
  destruct (lookup_lt_is_Some_2 (buckets L0 L1 t) (Z.to_nat i)) as [l Hl]; [lia|].
  destruct (bucket_at type _ _ _ _ _ _ _ _ Hok Hl) as [Eb Hc]. rewrite Z2Nat.id in Eb by done. rewrite (bind_ret_eq _ _ _ _ _ Eb).
  destruct (bucket_nodes type _ _ _ _ _ _ _ _ Hok Hl) as (Hnd & _ & _).
  destruct (addr <$> head l) as [p|] eqn:Ep.
  - destruct (collect_ok count l (Some p) (des x) Hc Hnd) as (out & full & E & Hout); [intros n Hn; by eapply bucket_member|done|].
    rewrite (bind_ret_eq _ _ _ _ _ E). eexists _, full. split; [reflexivity|]. by cbn.
  - destruct ((5 <=? emptylen x + 1) && (count <? emptylen x + 1)); eexists _, false; (split; [reflexivity|]); cbn; (split; [|done]); [|done]. by apply Z.land_nonneg; right.
Qed.

Lemma sample_loop_ok count mask m : 0 <= mask -> forall x steps, 0 <= spot x -> 0 <= steps < Z.of_nat m ->
  sampled count (des x) (count <=? zlen (des x)) -> exists out,
  while_loop m (sample_turn rnd count mask (dictIsRehashing d)) (x, steps) w = Ret out w /\ sampled count out true.
Proof.
  intros Hmask. induction m as [|m IH]; intros x steps Hx Hsteps Hs; [lia|]. cbn [while_loop]. unfold sample_turn at 1.
  assert (Hfull : forall out b, sampled count out b -> sampled count out true) by (intros out [] [H1 H2]; split; (done || lia)).
  destruct (Z.ltb_spec (zlen (des x)) count) as [Hlt|Hge]; cbn [andb]; [|exists (des x); split; [done|by eapply Hfull]].
  destruct (Z.eqb_spec steps 0) as [->|Hne]; cbn [negb]; [exists (des x); split; [done|by eapply Hfull]|].
  rewrite (proj2 (Z.leb_gt _ _)) in Hs by lia.
  destruct (sample_table_ok count mask (dictIsRehashing d) false x Hmask Hx Hs eq_refl) as (y & full & E & Hy & Hsy).
  rewrite bind_assoc, (bind_ret_eq _ _ _ _ _ E). destruct full; [by exists (des y)|]. rewrite bind_assoc.
  assert (E2 : exists z full, (if dictIsRehashing d then sample_table rnd count mask (dictIsRehashing d) true y else ret (y, false)) w
    = Ret (z, full) w /\ 0 <= spot z /\ sampled count (des z) full).
  { destruct (dictIsRehashing d) eqn:Er; [|by exists y, false]. rewrite <- Er. by apply sample_table_ok. }
  destruct E2 as (z & full & E2 & Hz & Hsz). rewrite (bind_ret_eq _ _ _ _ _ E2). destruct full; [by exists (des z)|].
  apply IH; cbn [spot des]; [by apply Z.land_nonneg; right|lia|]. destruct Hsz as [H1 H2]. by rewrite (proj2 (Z.leb_gt _ _)).
Qed.
End sampled.

Lemma u32_bounds x : 0 <= u32 x < 2 ^ 32.
Proof. unfold u32. apply Z.mod_pos_bound. lia. Qed.
End some_keys.

(** C18: [dictGetSomeKeys] stores at most [count] entries - there is room for no more - and
    as many as the dictionary has at most, all of them entries that are stored, whatever
    the random numbers; it comes to an end and the map stays the same. *)
Theorem some_keys_fit {K V} `{EqDecision K} (type : dictType K V) {C} `{Countable C} {DL : DictLaws type C} rnd w s count :
  implements type (C := C) w s -> 0 <= count < 2 ^ 32 -> exists out w', dictGetSomeKeys type rnd count w = Ret out w' /\
    implements type w' s /\ zlen out <= count /\ zlen out <= Z.of_nat (base.size (bound s)) /\ Forall (stored_entry type w' s) out.
Proof.
  intros (d & L0 & L1 & Hh) Hc. pose proof Hh as (Hok & _). pose proof (ok_dict _ _ _ _ _ _ Hok) as Hd. unfold dictGetSomeKeys.
  rewrite (bind_ret_eq _ _ _ _ _ (the_eq w d Hd)). cbv zeta.
  destruct (ht0_bounds _ _ _ _ _ _ Hok) as (Hu0 & Hu1 & E0 & E1 & Hsum).
  assert (Esz : dictSize d = Z.of_nat (base.size (bound s))).
  { unfold dictSize. rewrite u64_id by lia. rewrite E0, E1, <- zlen_app. by apply few with (1 := Hh). }
  set (m := if dictSize d <? count then u32 (dictSize d) else count).
  assert (Hm : 0 <= m <= count /\ m <= dictSize d).
  { unfold m. destruct (Z.ltb_spec (dictSize d) count); [|lia]. unfold u32. rewrite Z.mod_small; lia. }
  destruct (rehash_turns_ok type m (Datatypes.S (Z.to_nat m)) w d L0 L1 s 0 Hh ltac:(lia) ltac:(lia)) as (w1 & d1 & L01 & L11 & E & Hh1 & _).
  rewrite (bind_ret_eq _ _ _ _ _ E). pose proof Hh1 as (Hok1 & _). rewrite (bind_ret_eq _ _ _ _ _ (the_eq w1 d1 (ok_dict _ _ _ _ _ _ Hok1))).
  pose proof (u32_bounds (m * 10)) as Hst. pose proof (u32_bounds (sizemask (ht0 d1))) as H0. pose proof (u32_bounds (sizemask (ht1 d1))) as H1.
  match goal with |- context [Z.land (rnd 0%nat) ?x] => set (mask := x) end.
  assert (Hmask : 0 <= mask) by (unfold mask; destruct (_ && _); lia).
  destruct (sample_loop_ok type rnd w1 d1 L01 L11 s Hh1 m mask (Datatypes.S (Z.to_nat (u32 (m * 10)))) Hmask
    {| spot := Z.land (rnd 0%nat) mask; emptylen := 0; des := []; drawn := 1 |} (u32 (m * 10))) as (out & E' & Hout & Hz).
  - by apply Z.land_nonneg; right.
  - lia.
  - cbn [des]. split; [by constructor|]. change (zlen (@nil positive)) with 0. destruct (Z.leb_spec m 0); lia.
  - exists out, w1. split; [exact E'|]. split; [by exists d1, L01, L11|]. split; [lia|]. split; [lia|done].
Qed.


(** [dictGetRandomKey] returns NULL on an empty dictionary. Otherwise there are good
    random numbers, and it returns an entry that is stored as soon as one of those it
    draws for a bucket is good, and looks on as long as none is; for every key there are
    random numbers that make it return the entry of that key at once. The map stays the
    same. *)
Theorem random_key_is_stored {K V} `{EqDecision K} (type : dictType K V) {C} `{Countable C} {DL : DictLaws type C} w s :
  implements type (C := C) w s -> Z.of_nat (base.size (bound s)) < 2 ^ 31 ->
  (base.size (bound s) = 0%nat -> forall rnd fuel, dictGetRandomKey type rnd fuel w = Ret None w) /\
  (base.size (bound s) <> 0%nat -> exists w' (good : Z -> Prop), implements type w' s /\
    (forall rnd fuel, (exists j, (j < fuel)%nat /\ good (rnd j)) ->
       exists p, dictGetRandomKey type rnd fuel w = Ret (Some p) w' /\ stored_entry type w' s p) /\
    (forall rnd fuel, (forall j, (j < fuel)%nat -> ~ good (rnd j)) -> dictGetRandomKey type rnd fuel w = NoFuel) /\
    forall k, is_Some (bound s !! content (type := type) k) -> exists rnd p e, good (rnd 0%nat) /\
      dictGetRandomKey type rnd 1 w = Ret (Some p) w' /\ entries w' !! p = Some e /\ content (type := type) (key e) = content k).
Proof.
  intros (d & L0 & L1 & Hh) Hsz. split.
  { intros Hz rnd fuel. pose proof Hh as (Hok & _). unfold dictGetRandomKey.
    rewrite (bind_ret_eq _ _ _ _ _ (the_eq w d (ok_dict _ _ _ _ _ _ Hok))). by rewrite (nonempty_size type _ _ _ _ _ Hh), Hz. }
  intros Hne. destruct (get_random_key_eq type (fun _ => 0) 0 w d L0 L1 s Hh Hne Hsz) as (w1 & d1 & L01 & L11 & Hh1 & Hnil & E & _).
  assert (Heq : forall rnd fuel, dictGetRandomKey type rnd fuel w = (let* (he, i) := while_loop fuel (random_turn rnd) 0%nat in
    let* listlen := chain_length he in
    if listlen =? 0 then fail DivByZero else chain_nth (Z.to_nat (rnd i mod listlen)) he) w1).
  { intros rnd fuel. destruct (get_random_key_eq type rnd fuel w d L0 L1 s Hh Hne Hsz) as (w2 & ? & ? & ? & _ & _ & E2 & ->).
    rewrite E in E2. by injection E2 as ->. }
  exists w1, (hits d1 L01 L11). split; [by exists d1, L01, L11|]. split_and!.
  - intros rnd fuel (j & Hj & Hgood). rewrite Heq.
    destruct (random_entry type rnd w1 d1 L01 L11 s fuel Hh1 Hnil Hsz) as [[_ Hno]|(j' & t & b & l & n & _ & _ & Hl & Hn & ->)].
    + by destruct (Hno j Hj).
    + exists (addr n). split; [done|]. apply (stored_node type w1 d1 L01 L11 s n Hh1).
      apply (bucket_member L01 L11 t b l n Hl). by eapply list_elem_of_lookup_2.
  - intros rnd fuel Hno. rewrite Heq.
    destruct (random_entry type rnd w1 d1 L01 L11 s fuel Hh1 Hnil Hsz) as [[-> _]|(j' & t & b & l & n & Hj & Hp & Hl & Hn & _)]; [done|].
    exfalso. apply (Hno j' Hj). exists b, l. rewrite Hp. split; [done|]. split; [done|]. by intros ->.
  - intros k [[k' x] Hk]. pose proof (look_eq type _ _ _ _ _ k Hh1) as Hlook.
    destruct (lookup_node type (content k) (concat L01 ++ concat L11)) as [n|] eqn:En; [|congruence]. clear Hlook.
    pose proof Hh1 as (Hok1 & _). apply lookup_node_Some in En as [Hn Hc]; [|by eapply ok_distinct].
    destruct (draw_exists type w1 d1 L01 L11 s n Hh1 Hn Hsz) as (r0 & r1 & t & b & l & Hp & Hl & Hr1 & Hmod & Hnth).
    set (rnd := fun i : nat => match i with O => r0 | _ => r1 end). exists rnd, (addr n).
    destruct (node_stored type w1 d1 L01 L11 s n Hh1 Hn) as (y & q & _ & Hq & _). exists (entry_of q n). rewrite Heq.
    assert (Hgood : hits d1 L01 L11 (rnd 0%nat)).
    { exists b, l. cbn [rnd]. rewrite Hp. split; [done|]. split; [done|]. by intros ->. }
    split; [done|]. split; [|done].
    destruct (random_entry type rnd w1 d1 L01 L11 s 1 Hh1 Hnil Hsz) as [[_ Hno]|(j' & t' & b' & l' & n' & Hj & Hp' & Hl' & Hn' & ->)].
    + by destruct (Hno 0%nat ltac:(lia)).
    + assert (j' = 0%nat) as -> by lia. cbn [rnd] in Hp', Hn'. rewrite Hp in Hp'. injection Hp' as <- Eb.
      assert (b' = b) as -> by lia. rewrite Hl in Hl'. injection Hl' as <-. rewrite Hmod, Hnth in Hn'. by injection Hn' as ->.
Qed.

Lemma random_key_is_stored_witness : exists w' rnd p e, dictGetRandomKey digits_type rnd 1 nine_world = Ret (Some p) w' /\
  entries w' !! p = Some e /\ key e mod 1000 = 4.
Proof.
  destruct (random_key_is_stored digits_type nine_world nine_map nine_ok) as [_ Hfull].
  - vm_compute. reflexivity.
  - destruct Hfull as (w' & good & _ & _ & _ & Hany); [vm_compute; discriminate|].
    destruct (Hany 4) as (rnd & p & e & _ & E & He & Hc); [vm_compute; by eexists|]. exists w', rnd, p, e.
    exact (conj E (conj He Hc)).
Defined.

Lemma some_keys_fit_witness : exists out w', dictGetSomeKeys digits_type (fun i => Z.of_nat i * 7919) 6 nine_world = Ret out w' /\
  zlen out <= 6 /\ Forall (stored_entry digits_type w' nine_map) out.
Proof.
  destruct (some_keys_fit digits_type (fun i => Z.of_nat i * 7919) nine_world nine_map 6 nine_ok) as (out & w' & E & _ & Hz & _ & Hs).
  - vm_compute. split; [discriminate|reflexivity].
  - exists out, w'. exact (conj E (conj Hz Hs)).
Defined.
