(* ===== verification/Zskiplist.v ===== *)
(** The sorted sets of Redis in their skip list encoding (t_zset.c, with what it
    uses of sds.c, server.c and object.c), on 64-bit Windows: a skip list
    of the elements ordered by score, and a dictionary (Dict) from the elements to
    their nodes.

    Nodes are blocks of a heap, addressed by positive numbers. Memory that
    [zmalloc] returns is not initialised: [None] until it is written. The sum of two
    scores is that of IEEE 754. Both structures share the string of an element;
    a string is its bytes, and [sdsfree] leaves a trace. *)
From Stdlib Require Import Floats.SpecFloat.
From S2P Require Import Prelude Util Dict.
#[local] Open Scope Z_scope.

Definition ZSKIPLIST_MAXLEVEL : Z := 64.
Definition ZADD_INCR : Z := 1.
Definition ZADD_NX : Z := 2.
Definition ZADD_XX : Z := 4.
Definition ZADD_NOP : Z := 8.
Definition ZADD_NAN : Z := 16.
Definition ZADD_ADDED : Z := 32.
Definition ZADD_UPDATED : Z := 64.
Definition HASHTABLE_MIN_FILL : Z := 10.

(** ** Strings *)

(** The strings of the server are at most 512 MB long; [dictSdsKeyCompare] relies on
    their length being an [int]. *)
Record sds := { text : list Z; text_short : Is_true (zlen text <? 2147483648) }.
#[export] Instance sds_eq_dec : EqDecision sds.
Proof.
  intros [t H] [t' H']. destruct (decide (t = t')) as [->|Hne].
  - left. f_equal. apply proof_irrel.
  - right. congruence.
Defined.

(** The sign of what [memcmp] returns for the first [n] bytes. *)
Fixpoint memcmp (n : nat) (a b : list Z) : Z :=
  match n, a, b with
  | Datatypes.S n, x :: a, y :: b => if x <? y then -1 else if y <? x then 1 else memcmp n a b
  | _, _, _ => 0
  end.
Definition sdscmp (s1 s2 : sds) : Z :=
  let l1 := zlen (text s1) in
  let l2 := zlen (text s2) in
  let minlen := if l1 <? l2 then l1 else l2 in
  let cmp := memcmp (Z.to_nat minlen) (text s1) (text s2) in
  if cmp =? 0 then (if l2 <? l1 then 1 else if l1 <? l2 then -1 else 0) else cmp.

Definition dictSdsKeyCompare (key1 key2 : sds) : bool :=
  let l1 := i32 (zlen (text key1)) in
  let l2 := i32 (zlen (text key2)) in
  if negb (l1 =? l2) then false else memcmp (Z.to_nat l1) (text key1) (text key2) =? 0.

(** [dictSdsHash] is [siphash] of the bytes with the seed of the server, a parameter here. *)
Definition zsetDictType (siphash : list Z -> Z) : dictType sds positive := {|
  hashFunction := fun key => siphash (text key);
  keyDup := None;
  valDup := None;
  keyCompare := Some dictSdsKeyCompare;
  keyDestructor := false;
  valDestructor := false
|}.

(** ** Data *)
Definition double := spec_float.
Definition isnan (x : double) : bool := match x with S754_nan => true | _ => false end.

Record zskiplistLevel := { forward : option (option positive); span : option Z }.
(** [level] names the flexible array member; its length is what was allocated. *)
Record zskiplistNode := { ele : option sds; score : double; backward : option (option positive); level : list zskiplistLevel }.
Record zskiplist := { header : positive; tail : option positive; zlength : Z; zlevel : Z }.

(** The set, with its skip list if there is one; the live nodes; the strings that were
    released, the last one first; how many numbers were drawn; and the world of its
    dictionary. [zbrk] is the next address to be handed out. *)
Record zworld := { zsl : option zskiplist; nodes : gmap positive zskiplistNode; zbrk : positive; zfreed : list sds;
  draws : nat; zdict : world sds positive }.

Definition with_zsl z w : zworld :=
  {| zsl := z; nodes := nodes w; zbrk := zbrk w; zfreed := zfreed w; draws := draws w; zdict := zdict w |}.
Definition with_nodes N w : zworld :=
  {| zsl := zsl w; nodes := N; zbrk := zbrk w; zfreed := zfreed w; draws := draws w; zdict := zdict w |}.
Definition with_zbrk p w : zworld :=
  {| zsl := zsl w; nodes := nodes w; zbrk := p; zfreed := zfreed w; draws := draws w; zdict := zdict w |}.
Definition with_zfreed l w : zworld :=
  {| zsl := zsl w; nodes := nodes w; zbrk := zbrk w; zfreed := l; draws := draws w; zdict := zdict w |}.
Definition with_draws n w : zworld :=
  {| zsl := zsl w; nodes := nodes w; zbrk := zbrk w; zfreed := zfreed w; draws := n; zdict := zdict w |}.
Definition with_zdict d w : zworld :=
  {| zsl := zsl w; nodes := nodes w; zbrk := zbrk w; zfreed := zfreed w; draws := draws w; zdict := d |}.

Abbreviation D := (M zworld).

Definition the_zsl : D zskiplist := fun w =>
  match zsl w with Some z => Ret z w | None => Fault OutOfBounds end.
Definition upd_zsl (f : zskiplist -> zskiplist) : D unit :=
  let* z := the_zsl in let* w := get in put (with_zsl (Some (f z)) w).
Definition with_tail t z : zskiplist := {| header := header z; tail := t; zlength := zlength z; zlevel := zlevel z |}.
Definition with_zlength n z : zskiplist := {| header := header z; tail := tail z; zlength := u64 n; zlevel := zlevel z |}.
Definition with_zlevel n z : zskiplist := {| header := header z; tail := tail z; zlength := zlength z; zlevel := n |}.

(** An operation of the dictionary. *)
Definition in_dict {A} (m : M (world sds positive) A) : D A := fun w =>
  match m (zdict w) with
  | Ret a d => Ret a (with_zdict d w)
  | Fault e => Fault e
  | NoFuel => NoFuel
  end.

(** ** Access to nodes *)

(** The value of memory that may not be initialised. *)
Definition init {A} (x : option A) : D A := match x with Some a => ret a | None => fail Uninit end.

(** [*p] *)
Definition znode (p : positive) : D zskiplistNode := fun w =>
  match nodes w !! p with Some n => Ret n w | None => Fault OutOfBounds end.
Definition upd_node (p : positive) (f : zskiplistNode -> zskiplistNode) : D unit :=
  let* n := znode p in let* w := get in put (with_nodes (<[p := f n]> (nodes w)) w).
Definition with_ele e n : zskiplistNode := {| ele := e; score := score n; backward := backward n; level := level n |}.
Definition with_score s n : zskiplistNode := {| ele := ele n; score := s; backward := backward n; level := level n |}.
Definition with_backward b n : zskiplistNode := {| ele := ele n; score := score n; backward := Some b; level := level n |}.
Definition with_level l n : zskiplistNode := {| ele := ele n; score := score n; backward := backward n; level := l |}.

(** [p->level[i]] *)
Definition cell (p : positive) (i : Z) : D zskiplistLevel :=
  let* n := znode p in
  match (if 0 <=? i then level n !! Z.to_nat i else None) with Some c => ret c | None => fail OutOfBounds end.
Definition get_forward (p : positive) (i : Z) : D (option positive) := let* c := cell p i in init (forward c).
Definition get_span (p : positive) (i : Z) : D Z := let* c := cell p i in init (span c).
Definition set_cell (p : positive) (i : Z) (c : zskiplistLevel) : D unit :=
  upd_node p (fun n => with_level (<[Z.to_nat i := c]> (level n)) n).
Definition set_forward (p : positive) (i : Z) (f : option positive) : D unit :=
  let* c := cell p i in set_cell p i {| forward := Some f; span := span c |}.
Definition set_span (p : positive) (i n : Z) : D unit :=
  let* c := cell p i in set_cell p i {| forward := forward c; span := Some (u64 n) |}.
(** The element of a node; what the code compares is never that of the header. *)
Definition get_ele (p : positive) : D sds :=
  let* n := znode p in match ele n with Some e => ret e | None => fail NullDeref end.

(** A local array of [ZSKIPLIST_MAXLEVEL] elements. *)
Definition local_array {A} : list (option A) := replicate (Z.to_nat ZSKIPLIST_MAXLEVEL) None.
Definition get_slot {A} (l : list (option A)) (i : Z) : D A :=
  match (if 0 <=? i then l !! Z.to_nat i else None) with
  | Some x => init x
  | None => fail OutOfBounds
  end.
Definition put_slot {A} (l : list (option A)) (i : Z) (x : A) : D (list (option A)) :=
  if (0 <=? i) && (i <? zlen l) then ret (<[Z.to_nat i := Some x]> l) else fail OutOfBounds.

(** A walk over the nodes meets each of them at most once. *)
Definition list_fuel : D nat := let* w := get in ret (Datatypes.S (base.size (nodes w))).

(** [for (i = n-1; i >= 0; i--)], without and with a way out. *)
Fixpoint for_down {A} (n : nat) (body : Z -> A -> D A) (a : A) : D A :=
  match n with
  | O => ret a
  | Datatypes.S n => let* a := body (Z.of_nat n) a in for_down n body a
  end.
Fixpoint for_down_until {A B} (n : nat) (body : Z -> A -> D (A + B)) (a : A) : D (A + B) :=
  match n with
  | O => ret (inl a)
  | Datatypes.S n =>
      let* r := body (Z.of_nat n) a in
      match r with inl a => for_down_until n body a | inr b => ret (inr b) end
  end.

(** ** Creation and release *)
Definition sdsfree (s : option sds) : D unit :=
  match s with None => ret tt | Some s => let* w := get in put (with_zfreed (s :: zfreed w) w) end.
Definition zfree_node (p : positive) : D unit :=
  znode p ;;; let* w := get in put (with_nodes (delete p (nodes w)) w).

Definition zslCreateNode (lvl : Z) (s : double) (e : option sds) : D positive := fun w =>
  let n := {| ele := e; score := s; backward := None;
              level := replicate (Z.to_nat lvl) {| forward := None; span := None |} |} in
  Ret (zbrk w) (with_zbrk (Pos.succ (zbrk w)) (with_nodes (<[zbrk w := n]> (nodes w)) w)).

Definition zslCreate : D unit :=
  let* h := zslCreateNode ZSKIPLIST_MAXLEVEL (S754_zero false) None in
  for_loop (Z.to_nat ZSKIPLIST_MAXLEVEL) 0 (fun j _ => set_forward h j None ;;; set_span h j 0) tt ;;;
  upd_node h (with_backward None) ;;;
  let* w := get in
  put (with_zsl (Some {| header := h; tail := None; zlength := 0; zlevel := 1 |}) w).

Definition zslFreeNode (p : positive) : D unit :=
  let* n := znode p in sdsfree (ele n) ;;; zfree_node p.

Definition free_turn (node : option positive) : D (option positive + unit) :=
  match node with
  | None => ret (inr tt)
  | Some p => let* next := get_forward p 0 in zslFreeNode p ;;; ret (inl next)
  end.
Definition zslFree : D unit :=
  let* z := the_zsl in
  let* node := get_forward (header z) 0 in
  zfree_node (header z) ;;;
  let* n := list_fuel in
  while_loop n free_turn node ;;;
  let* w := get in put (with_zsl None w).

(** ** The walk down the levels *)

(** [while (x->level[i].forward && ...) { ...; x = x->level[i].forward; }]: [go] is the rest of the condition,
    of [x] and the next node, and [step] what else the body does. *)
Definition walk_turn {A} (go : A -> positive -> positive -> D bool) (step : A -> positive -> D A) (i : Z)
    (s : A * positive) : D (A * positive + A * positive) :=
  let '(a, x) := s in
  let* f := get_forward x i in
  match f with
  | None => ret (inr (a, x))
  | Some p =>
      let* b := go a x p in
      if (b : bool) then let* a := step a x in ret (inl (a, p)) else ret (inr (a, x))
  end.
Definition walk {A} (go : A -> positive -> positive -> D bool) (step : A -> positive -> D A) (i : Z) (a : A) (x : positive)
    : D (A * positive) :=
  let* n := list_fuel in while_loop n (walk_turn go step i) (a, x).

(** The loop that most operations start with; they keep the node where they left each
    level. *)
Definition find_update {A} (go : Z -> A -> positive -> positive -> D bool) (step : Z -> A -> positive -> D A) (a : A)
    : D (A * positive * list (option positive)) :=
  let* z := the_zsl in
  for_down (Z.to_nat (zlevel z)) (fun i '(a, x, update) =>
    let* (a, x) := walk (go i) (step i) i a x in
    let* update := put_slot update i x in
    ret (a, x, update)) (a, header z, local_array).
(** The same without the array. *)
Definition find_place (go : positive -> D bool) : D positive :=
  let* z := the_zsl in
  for_down (Z.to_nat (zlevel z)) (fun i x =>
    let* (_, x) := walk (fun _ _ => go) (fun a _ => ret a) i tt x in ret x) (header z).

(** [p->score < score || (p->score == score && sdscmp(p->ele,ele) < 0)]; the ranking has [<=]. *)
Definition precedes (s : double) (e : sds) (lt : Z -> bool) (p : positive) : D bool :=
  let* n := znode p in
  if SFltb (score n) s then ret true
  else if SFeqb (score n) s then let* e' := get_ele p in ret (lt (sdscmp e' e)) else ret false.

(** ** Insertion *)
Section random.
(** [random i] is what the call number [i] returns; the level of a new node is determined
    by at most [luck] calls. *)
Variable random : nat -> Z.
Variable luck : nat.

(** [(random()&0xFFFF) < (ZSKIPLIST_P * 0xFFFF)], with [ZSKIPLIST_P] = 1/4 *)
Definition level_turn (lvl : Z) : D (Z + Z) := fun w =>
  Ret (if 4 * Z.land (random (draws w)) 65535 <? 65535 then inl (i32 (lvl + 1)) else inr lvl)
      (with_draws (Datatypes.S (draws w)) w).
Definition zslRandomLevel : D Z :=
  let* lvl := while_loop luck level_turn 1 in
  ret (if lvl <? ZSKIPLIST_MAXLEVEL then lvl else ZSKIPLIST_MAXLEVEL).

(** The walk of [zslInsert] at a level, which also counts the nodes it passes. *)
Definition insert_search (s : double) (e : sds) (top i : Z)
    (a : list (option Z) * positive * list (option positive)) : D (list (option Z) * positive * list (option positive)) :=
  let '(rank, x, update) := a in
  let* r := (if i =? top then ret 0 else get_slot rank (i + 1)) in
  let* (r, x) := walk (fun _ _ => precedes s e (fun c => c <? 0)) (fun r x => let* n := get_span x i in ret (u32 (r + n))) i r x in
  let* rank := put_slot rank i r in
  let* update := put_slot update i x in
  ret (rank, x, update).

(** [for (i = zsl->level; i < level; i++)] *)
Definition raise_level (i : Z) (a : list (option Z) * list (option positive)) : D (list (option Z) * list (option positive)) :=
  let '(rank, update) := a in
  let* z := the_zsl in
  let* rank := put_slot rank i 0 in
  let* update := put_slot update i (header z) in
  set_span (header z) i (zlength z) ;;;
  ret (rank, update).

(** [for (i = 0; i < level; i++)] *)
Definition link_level (x : positive) (rank : list (option Z)) (update : list (option positive)) (i : Z) : D unit :=
  let* u := get_slot update i in
  let* f := get_forward u i in
  set_forward x i f ;;;
  set_forward u i (Some x) ;;;
  let* r0 := get_slot rank 0 in
  let* ri := get_slot rank i in
  let* n := get_span u i in
  set_span x i (n - u32 (r0 - ri)) ;;;
  set_span u i (u32 (u32 (r0 - ri) + 1)).
(** [for (i = level; i < zsl->level; i++)] *)
Definition widen_level (update : list (option positive)) (i : Z) : D unit :=
  let* u := get_slot update i in let* n := get_span u i in set_span u i (n + 1).

Definition set_backward_or_tail (f : option positive) (b : option positive) : D unit :=
  match f with Some p => upd_node p (with_backward b) | None => upd_zsl (with_tail b) end.

Definition zslInsert (s : double) (e : sds) : D positive :=
  if isnan s then fail AssertFail
  else
    let* z := the_zsl in
    let* (rank, _, update) :=
      for_down (Z.to_nat (zlevel z)) (insert_search s e (zlevel z - 1)) (local_array, header z, local_array) in
    let* lvl := zslRandomLevel in
    let* (rank, update) :=
      (if zlevel z <? lvl then
         let* a := for_loop (Z.to_nat (lvl - zlevel z)) (zlevel z) raise_level (rank, update) in
         upd_zsl (with_zlevel lvl) ;;; ret a
       else ret (rank, update)) in
    let* x := zslCreateNode lvl s (Some e) in
    for_loop (Z.to_nat lvl) 0 (fun i _ => link_level x rank update i) tt ;;;
    let* z := the_zsl in
    for_loop (Z.to_nat (zlevel z - lvl)) lvl (fun i _ => widen_level update i) tt ;;;
    let* u := get_slot update 0 in
    upd_node x (with_backward (if (u =? header z)%positive then None else Some u)) ;;;
    let* f := get_forward x 0 in
    set_backward_or_tail f (Some x) ;;;
    upd_zsl (fun z => with_zlength (zlength z + 1) z) ;;;
    ret x.

(** ** Deletion *)

(** [for (i = 0; i < zsl->level; i++)] *)
Definition unlink_level (x : positive) (update : list (option positive)) (i : Z) : D unit :=
  let* u := get_slot update i in
  let* f := get_forward u i in
  if bool_decide (f = Some x) then
    let* n := get_span u i in
    let* m := get_span x i in
    set_span u i (n + (m - 1)) ;;;
    let* f := get_forward x i in
    set_forward u i f
  else
    let* n := get_span u i in set_span u i (n - 1).

(** [while(zsl->level > 1 && zsl->header->level[zsl->level-1].forward == NULL) zsl->level--;] *)
Definition lower_turn (_ : unit) : D (unit + unit) :=
  let* z := the_zsl in
  if 1 <? zlevel z then
    let* f := get_forward (header z) (zlevel z - 1) in
    match f with
    | None => upd_zsl (with_zlevel (zlevel z - 1)) ;;; ret (inl tt)
    | Some _ => ret (inr tt)
    end
  else ret (inr tt).

Definition zslDeleteNode (x : positive) (update : list (option positive)) : D unit :=
  let* z := the_zsl in
  for_loop (Z.to_nat (zlevel z)) 0 (fun i _ => unlink_level x update i) tt ;;;
  let* f := get_forward x 0 in
  let* n := znode x in
  let* b := init (backward n) in
  set_backward_or_tail f b ;;;
  while_loop (Z.to_nat ZSKIPLIST_MAXLEVEL) lower_turn tt ;;;
  upd_zsl (fun z => with_zlength (zlength z - 1) z).

Definition nothing {A} (i : Z) (a : A) (x : positive) : D A := ret a.
(** The walk to the place of an element, and the node that follows it. *)
Definition seek (s : double) (e : sds) : D (list (option positive) * option positive) :=
  let* (_, x, update) := find_update (fun _ _ _ => precedes s e (fun c => c <? 0)) nothing tt in
  let* f := get_forward x 0 in
  ret (update, f).

(** [x && score == x->score && sdscmp(x->ele,ele) == 0] *)
Definition is_element (s : double) (e : sds) (x : option positive) : D bool :=
  match x with
  | None => ret false
  | Some p =>
      let* n := znode p in
      if SFeqb s (score n) then let* e' := get_ele p in ret (sdscmp e' e =? 0) else ret false
  end.

(** With [keep] the node is only unlinked, and also returned ([*node = x]). *)
Definition zslDelete (s : double) (e : sds) (keep : bool) : D (Z * option positive) :=
  let* (update, x) := seek s e in
  let* b := is_element s e x in
  match x with
  | Some p =>
      if (b : bool) then
        zslDeleteNode p update ;;;
        (if keep then ret (1, Some p) else zslFreeNode p ;;; ret (1, None))
      else ret (0, None)
  | None => ret (0, None)
  end.

(** [p == NULL || p->score < s] with [SFltb], and [p == NULL || p->score > s] with its converse *)
Definition null_or (cmp : double -> bool) (p : option positive) : D bool :=
  match p with None => ret true | Some p => let* n := znode p in ret (cmp (score n)) end.

Definition zslUpdateScore (curscore : double) (e : sds) (newscore : double) : D positive :=
  let* (update, x) := seek curscore e in
  let* b := is_element curscore e x in
  match x with
  | Some p =>
      if (b : bool) then
        let* n := znode p in
        let* back := init (backward n) in
        let* above := null_or (fun s => SFltb s newscore) back in
        let* below :=
          (if (above : bool) then let* f := get_forward p 0 in null_or (fun s => SFltb newscore s) f else ret false) in
        if (below : bool) then upd_node p (with_score newscore) ;;; ret p
        else
          zslDeleteNode p update ;;;
          let* e' := get_ele p in
          let* newnode := zslInsert newscore e' in
          upd_node p (with_ele None) ;;;
          zslFreeNode p ;;;
          ret newnode
      else fail AssertFail
  | None => fail AssertFail
  end.
End random.

(** ** Ranges of scores *)
Record zrangespec := { min : double; max : double; minex : bool; maxex : bool }.

Definition zslValueGteMin (value : double) (spec : zrangespec) : bool :=
  if minex spec then SFltb (min spec) value else SFleb (min spec) value.
Definition zslValueLteMax (value : double) (spec : zrangespec) : bool :=
  if maxex spec then SFltb value (max spec) else SFleb value (max spec).

(** The tests of [zslIsInRange] and [zslIsInLexRange] on the two ends of the list. *)
Definition ends_in_range (gte lte : positive -> D bool) : D bool :=
  let* z := the_zsl in
  match tail z with
  | None => ret false
  | Some x =>
      let* b := gte x in
      if negb b then ret false
      else
        let* f := get_forward (header z) 0 in
        match f with
        | None => ret false
        | Some x => lte x
        end
  end.

(** What follows the tests in [zslFirstInRange] and [zslFirstInLexRange]. *)
Definition first_in_range (gte lte : positive -> D bool) : D (option positive) :=
  let* x := find_place (fun p => let* b := gte p in ret (negb b)) in
  let* f := get_forward x 0 in
  match f with
  | None => fail AssertFail
  | Some x => let* b := lte x in ret (if (b : bool) then Some x else None)
  end.
(** The same for the last node; the walk may not leave the header. *)
Definition last_in_range (gte lte : positive -> D bool) : D (option positive) :=
  let* x := find_place lte in
  let* b := gte x in ret (if (b : bool) then Some x else None).

Definition score_gte (range : zrangespec) (p : positive) : D bool := let* n := znode p in ret (zslValueGteMin (score n) range).
Definition score_lte (range : zrangespec) (p : positive) : D bool := let* n := znode p in ret (zslValueLteMax (score n) range).

Definition zslIsInRange (range : zrangespec) : D bool :=
  if SFltb (max range) (min range) || (SFeqb (min range) (max range) && (minex range || maxex range)) then ret false
  else ends_in_range (score_gte range) (score_lte range).
Definition zslFirstInRange (range : zrangespec) : D (option positive) :=
  let* b := zslIsInRange range in
  if (b : bool) then first_in_range (score_gte range) (score_lte range) else ret None.
Definition zslLastInRange (range : zrangespec) : D (option positive) :=
  let* b := zslIsInRange range in
  if (b : bool) then last_in_range (score_gte range) (score_lte range) else ret None.

(** ** Ranges of strings *)

(** [shared.minstring] and [shared.maxstring] are known by their addresses. *)
Inductive lexbound := Minstring | Maxstring | Str (s : sds).
Record zlexrangespec := { lmin : lexbound; lmax : lexbound; lminex : bool; lmaxex : bool }.

(** Two pointers to the same string are pointers to equal strings, for which [sdscmp]
    returns 0 too. *)
Definition sdscmplex (a b : lexbound) : Z :=
  match a, b with
  | Minstring, Minstring | Maxstring, Maxstring => 0
  | Minstring, _ | _, Maxstring => -1
  | Maxstring, _ | _, Minstring => 1
  | Str a, Str b => sdscmp a b
  end.
Definition zslLexValueGteMin (value : sds) (spec : zlexrangespec) : bool :=
  if lminex spec then 0 <? sdscmplex (Str value) (lmin spec) else 0 <=? sdscmplex (Str value) (lmin spec).
Definition zslLexValueLteMax (value : sds) (spec : zlexrangespec) : bool :=
  if lmaxex spec then sdscmplex (Str value) (lmax spec) <? 0 else sdscmplex (Str value) (lmax spec) <=? 0.

Definition ele_gte (range : zlexrangespec) (p : positive) : D bool := let* e := get_ele p in ret (zslLexValueGteMin e range).
Definition ele_lte (range : zlexrangespec) (p : positive) : D bool := let* e := get_ele p in ret (zslLexValueLteMax e range).

Definition zslIsInLexRange (range : zlexrangespec) : D bool :=
  let cmp := sdscmplex (lmin range) (lmax range) in
  if (0 <? cmp) || ((cmp =? 0) && (lminex range || lmaxex range)) then ret false
  else ends_in_range (ele_gte range) (ele_lte range).
Definition zslFirstInLexRange (range : zlexrangespec) : D (option positive) :=
  let* b := zslIsInLexRange range in
  if (b : bool) then first_in_range (ele_gte range) (ele_lte range) else ret None.
Definition zslLastInLexRange (range : zlexrangespec) : D (option positive) :=
  let* b := zslIsInLexRange range in
  if (b : bool) then last_in_range (ele_gte range) (ele_lte range) else ret None.

(** *** Reading a bound

    [item->ptr] of an object that is not an integer: the bytes of a string, behind
    which there is a NUL. [dest] and [ex] keep their value where the result is
    [C_ERR]; a new string is one of [sdsnewlen]. *)
Inductive robj := EncodingInt (n : Z) | EncodingStr (s : sds).

Lemma rest_short (x : Z) (l : list Z) : Is_true (zlen (x :: l) <? 2147483648) -> Is_true (zlen l <? 2147483648).
Proof. rewrite zlen_cons. intros H%Is_true_true%Z.ltb_lt. apply Is_true_true, Z.ltb_lt. lia. Qed.

(** [sdsnewlen(c+1,sdslen(c)-1)], for a string that is not empty *)
Definition rest_of (s : sds) : sds :=
  match s with
  | {| text := []; text_short := H |} => {| text := []; text_short := H |}
  | {| text := x :: l; text_short := H |} => {| text := l; text_short := rest_short x l H |}
  end.

Definition zslParseLexRangeItem (item : sds) : option (lexbound * bool) :=
  let c i := default 0 (text item !! i) in
  match c 0%nat with
  | 43 => if negb (c 1%nat =? 0) then None else Some (Maxstring, true)
  | 45 => if negb (c 1%nat =? 0) then None else Some (Minstring, true)
  | 40 => Some (Str (rest_of item), true)
  | 91 => Some (Str (rest_of item), false)
  | _ => None
  end.

(** [spec->min] is NULL ([None]) until it is set. *)
Definition free_bound (b : option lexbound) : D unit :=
  match b with Some (Str s) => sdsfree (Some s) | _ => ret tt end.
Definition zslFreeLexRange (spec : zlexrangespec) : D unit :=
  free_bound (Some (lmin spec)) ;;; free_bound (Some (lmax spec)).

(** [None] is [C_ERR]. *)
Definition zslParseLexRange (min max : robj) : D (option zlexrangespec) :=
  match min, max with
  | EncodingStr min, EncodingStr max =>
      match zslParseLexRangeItem min with
      | None => free_bound None ;;; free_bound None ;;; ret None
      | Some (m, mex) =>
          match zslParseLexRangeItem max with
          | None => free_bound (Some m) ;;; free_bound None ;;; ret None
          | Some (x, xex) => ret (Some {| lmin := m; lmax := x; lminex := mex; lmaxex := xex |})
          end
      end
  | _, _ => ret None
  end.

(** ** Ranks *)

(** [for (i = zsl->level-1; i >= 0; i--)] of [zslGetRank], left where the element is met. *)
Definition rank_turn (s : double) (e : sds) (i : Z) (a : Z * positive) : D (Z * positive + Z) :=
  let '(rank, x) := a in
  let* (rank, x) := walk (fun _ _ => precedes s e (fun c => c <=? 0)) (fun r x => let* n := get_span x i in ret (u64 (r + n))) i rank x in
  let* n := znode x in
  match ele n with
  | Some e' => if sdscmp e' e =? 0 then ret (inr rank) else ret (inl (rank, x))
  | None => ret (inl (rank, x))
  end.
Definition zslGetRank (s : double) (e : sds) : D Z :=
  let* z := the_zsl in
  let* r := for_down_until (Z.to_nat (zlevel z)) (rank_turn s e) (0, header z) in
  ret (match r with inr rank => rank | inl _ => 0 end).

(** [traversed += x->level[i].span] *)
Definition add_span (i traversed : Z) (x : positive) : D Z := let* n := get_span x i in ret (u64 (traversed + n)).

Definition by_rank_turn (rank i : Z) (a : Z * positive) : D (Z * positive + positive) :=
  let '(traversed, x) := a in
  let* (traversed, x) := walk (fun t x _ => let* n := get_span x i in ret (u64 (t + n) <=? rank)) (add_span i) i traversed x in
  ret (if traversed =? rank then inr x else inl (traversed, x)).
Definition zslGetElementByRank (rank : Z) : D (option positive) :=
  let* z := the_zsl in
  let* r := for_down_until (Z.to_nat (zlevel z)) (by_rank_turn rank) (0, header z) in
  ret (match r with inr x => Some x | inl _ => None end).

(** ** Sorted sets: the skip list with its dictionary *)
Section zset.
Variable siphash : list Z -> Z.
Variable random : nat -> Z.
Variable luck : nat.
Let type := zsetDictType siphash.

(** [while (x && ...) { next = ...; zslDeleteNode; dictDelete; zslFreeNode; removed++; x = next; }], where [go] is
    the rest of the condition, of how many were removed and the node. *)
Definition range_turn (go : Z -> positive -> D bool) (update : list (option positive)) (a : Z * option positive)
    : D (Z * option positive + Z) :=
  let '(removed, x) := a in
  match x with
  | None => ret (inr removed)
  | Some p =>
      let* b := go removed p in
      if (b : bool) then
        let* next := get_forward p 0 in
        zslDeleteNode p update ;;;
        let* e := get_ele p in
        in_dict (dictDelete type e) ;;;
        zslFreeNode p ;;;
        ret (inl (u64 (removed + 1), next))
      else ret (inr removed)
  end.
Definition delete_range (go : Z -> positive -> D bool) (update : list (option positive)) (x : positive) : D Z :=
  let* f := get_forward x 0 in
  let* n := list_fuel in
  while_loop n (range_turn go update) (0, f).

Definition zslDeleteRangeByScore (range : zrangespec) : D Z :=
  let* (_, x, update) := find_update (fun _ _ _ p => let* n := znode p in
    ret (if minex range then SFleb (score n) (min range) else SFltb (score n) (min range))) nothing tt in
  delete_range (fun _ p => let* n := znode p in
    ret (if maxex range then SFltb (score n) (max range) else SFleb (score n) (max range))) update x.

Definition zslDeleteRangeByLex (range : zlexrangespec) : D Z :=
  let* (_, x, update) := find_update (fun _ _ _ p => let* b := ele_gte range p in ret (negb b)) nothing tt in
  delete_range (fun _ => ele_lte range) update x.

(** [traversed] grows with [removed] in the second loop. *)
Definition zslDeleteRangeByRank (start fin : Z) : D Z :=
  let* (traversed, x, update) :=
    find_update (fun i t x _ => let* n := get_span x i in ret (u64 (t + n) <? start)) add_span 0 in
  delete_range (fun removed _ => ret (u64 (u64 (traversed + 1) + removed) <=? fin)) update x.

Definition createZsetObject : D unit := in_dict dictCreate ;;; zslCreate.
Definition freeZsetObject : D unit := in_dict (dictRelease type) ;;; zslFree.

(** The cases of the following functions for the encoding as a skip list. *)
Definition zsetLength : D Z := let* z := the_zsl in ret (zlength z).

(** [*(double * )dictGetVal(de)]: the dictionary points into the nodes. *)
Definition entry_node (de : positive) : D positive :=
  let* e := in_dict (load de) in match v e with Some p => ret p | None => fail Uninit end.
Definition entry_score (de : positive) : D double :=
  let* p := entry_node de in let* n := znode p in ret (score n).

(** [None] is [C_ERR]. *)
Definition zsetScore (member : sds) : D (option double) :=
  let* de := in_dict (dictFind type member) in
  match de with
  | None => ret None
  | Some de => let* s := entry_score de in ret (Some s)
  end.

(** The return value, the flags, and what is stored into [*newscore]. *)
Definition added : Type := Z * Z * option double.

(** The element is there, with the entry [de]. *)
Definition update_element (nx incr : bool) (s : double) (e : sds) (de : positive) : D added :=
  if nx then ret (1, ZADD_NOP, None)
  else
    let* curscore := entry_score de in
    let s := if incr then SFadd 53 1024 s curscore else s in
    if incr && isnan s then ret (0, ZADD_NAN, None)
    else
      let newscore := if incr then Some s else None in
      if negb (SFeqb s curscore) then
        let* znode := zslUpdateScore random luck curscore e s in
        let* old := in_dict (load de) in
        in_dict (save de {| key := key old; v := Some znode; next := next old |}) ;;;
        ret (1, ZADD_UPDATED, newscore)
      else ret (1, 0, newscore).

Definition zsetAdd (s : double) (e : sds) (flags : Z) : D added :=
  let incr := negb (Z.land flags ZADD_INCR =? 0) in
  let nx := negb (Z.land flags ZADD_NX =? 0) in
  let xx := negb (Z.land flags ZADD_XX =? 0) in
  if isnan s then ret (0, ZADD_NAN, None)
  else
    let* de := in_dict (dictFind type e) in
    match de with
    | Some de => update_element nx incr s e de
    | None =>
        if negb xx then
          let* znode := zslInsert random luck s e in
          let* r := in_dict (dictAdd type e znode) in
          if negb (r =? DICT_OK) then fail AssertFail else ret (1, ZADD_ADDED, Some s)
        else ret (1, ZADD_NOP, None)
    end.

(** [dictSlots] and [dictSize] *)
Definition htNeedsResize (d : dict) : bool :=
  let size := i64 (hsize (ht0 d) + hsize (ht1 d)) in
  let used := i64 (used (ht0 d) + used (ht1 d)) in
  (DICT_HT_INITIAL_SIZE <? size) && (Z.quot (used * 100) size <? HASHTABLE_MIN_FILL).

Definition zsetDel (e : sds) : D Z :=
  let* he := in_dict (dictUnlink type e) in
  match he with
  | None => ret 0
  | Some de =>
      let* s := entry_score de in
      in_dict (dictFreeUnlinkedEntry type he) ;;;
      let* (retval, _) := zslDelete s e false in
      if retval =? 0 then fail AssertFail
      else
        let* d := in_dict the in
        (if htNeedsResize d then in_dict dictResize ;;; ret tt else ret tt) ;;;
        ret 1
  end.

Definition zsetRank (e : sds) (reverse : bool) : D Z :=
  let* llen := zsetLength in
  let* de := in_dict (dictFind type e) in
  match de with
  | None => ret (-1)
  | Some de =>
      let* s := entry_score de in
      let* rank := zslGetRank s e in
      if rank =? 0 then fail AssertFail else ret (if reverse then i64 (llen - rank) else i64 (rank - 1))
  end.
End zset.
