(* ===== verification/ZslOrder.v ===== *)
(** The order of a sorted set: scores are compared as the processor compares
    doubles, elements byte by byte. Both are lexicographic orders on lists of integers, so
    what elements a range contains is a matter of one total order. *)
From Stdlib Require Import Floats.SpecFloat Sorting.Sorted.
From S2P Require Import Prelude Util Dict Zskiplist.
#[local] Open Scope Z_scope.

(** ** The lexicographic order *)
Fixpoint lcmp (a b : list Z) : comparison :=
  match a, b with
  | [], [] => Eq
  | [], _ => Lt
  | _, [] => Gt
  | x :: a, y :: b => match x ?= y with Eq => lcmp a b | c => c end
  end.

Lemma lcmp_refl a : lcmp a a = Eq.
Proof. induction a as [|x a IH]; cbn; [done|]. by rewrite Z.compare_refl. Qed.
Lemma lcmp_eq a b : lcmp a b = Eq <-> a = b.
Proof.
  split; [|intros ->; apply lcmp_refl]. revert b. induction a as [|x a IH]; intros [|y b]; cbn; try done.
  destruct (Z.compare_spec x y) as [->|?|?]; try done. by intros ->%IH.
Qed.
Lemma lcmp_antisym a b : lcmp b a = CompOpp (lcmp a b).
Proof.
  revert b. induction a as [|x a IH]; intros [|y b]; cbn; try done.
  rewrite (Z.compare_antisym x y), IH. by destruct (x ?= y).
Qed.
Lemma lcmp_trans a b c : lcmp a b = Lt -> lcmp b c = Lt -> lcmp a c = Lt.
Proof.
  revert b c. induction a as [|x a IH]; intros [|y b] [|z c]; cbn; try done.
  destruct (Z.compare_spec x y) as [->|Hxy|?], (Z.compare_spec y z) as [->|Hyz|?]; try done.
  - apply IH.
  - intros _ _. by rewrite (proj2 (Z.compare_lt_iff _ _) Hxy).
  - intros _ _. by rewrite (proj2 (Z.compare_lt_iff x z) ltac:(lia)).
Qed.
Lemma lcmp_app a a' b b' : length a = length a' ->
  lcmp (a ++ b) (a' ++ b') = match lcmp a a' with Eq => lcmp b b' | c => c end.
Proof.
  revert a'. induction a as [|x a IH]; intros [|y a'] Hl; try done. cbn. injection Hl as Hl.
  destruct (x ?= y); [by apply IH|done|done].
Qed.

(** [ltl] and [lel] as booleans. *)
Definition ltl (a b : list Z) : bool := match lcmp a b with Lt => true | _ => false end.
Definition lel (a b : list Z) : bool := match lcmp a b with Gt => false | _ => true end.
Lemma ltl_irrefl a : ltl a a = false.
Proof. unfold ltl. by rewrite lcmp_refl. Qed.
Lemma ltl_trans a b c : ltl a b = true -> ltl b c = true -> ltl a c = true.
Proof.
  unfold ltl. destruct (lcmp a b) eqn:E1, (lcmp b c) eqn:E2; try done. by rewrite (lcmp_trans _ _ _ E1 E2).
Qed.
Lemma lel_ltl a b : lel a b = negb (ltl b a).
Proof. unfold lel, ltl. rewrite (lcmp_antisym a b). by destruct (lcmp a b). Qed.
Lemma lel_alt a b : lel a b = ltl a b || bool_decide (a = b).
Proof.
  unfold lel, ltl. destruct (lcmp a b) eqn:E; [apply lcmp_eq in E; by rewrite bool_decide_true|done|].
  rewrite bool_decide_false; [done|]. intros ->. by rewrite lcmp_refl in E.
Qed.
Lemma ltl_lel_trans a b c : ltl a b = true -> lel b c = true -> ltl a c = true.
Proof.
  intros H1 H2. rewrite lel_alt in H2. apply orb_true_iff in H2 as [H2|H2]; [by eapply ltl_trans|].
  by apply bool_decide_eq_true in H2 as ->.
Qed.
Lemma lel_ltl_trans a b c : lel a b = true -> ltl b c = true -> ltl a c = true.
Proof.
  intros H1 H2. rewrite lel_alt in H1. apply orb_true_iff in H1 as [H1|H1]; [by eapply ltl_trans|].
  by apply bool_decide_eq_true in H1 as ->.
Qed.
Lemma ltl_lel a b : ltl a b = true -> lel a b = true.
Proof. unfold ltl, lel. by destruct (lcmp a b). Qed.
Lemma lel_trans a b c : lel a b = true -> lel b c = true -> lel a c = true.
Proof.
  intros H1 H2. rewrite (lel_alt a b) in H1. apply orb_true_iff in H1 as [H1|H1].
  - apply ltl_lel. by eapply ltl_lel_trans.
  - by apply bool_decide_eq_true in H1 as ->.
Qed.
Lemma ltl_lel_false a b : ltl a b = true -> lel b a = false.
Proof. rewrite lel_ltl. by intros ->. Qed.

(** ** Scores *)

(** The order of [SFcompare]: signs, then exponents, then mantissas. *)
Definition skey (x : double) : list Z :=
  match x with
  | S754_zero _ => [0; 0; 0]
  | S754_infinity s => [if s then -2 else 2; 0; 0]
  | S754_finite false m e => [1; e; Z.pos m]
  | S754_finite true m e => [-1; - e; Z.neg m]
  | S754_nan => [3; 0; 0]
  end.
Lemma length_skey x : length (skey x) = 3%nat.
Proof. by destruct x as [s|s| |[] m e]. Qed.

Lemma SFcompare_key a b : isnan a = false -> isnan b = false -> SFcompare a b = Some (lcmp (skey a) (skey b)).
Proof.
  destruct a as [s|s| |[] m e], b as [s'|s'| |[] m' e']; try done; intros _ _; cbn; try (by repeat case_match).
  - f_equal. rewrite Z.compare_opp, (Z.compare_antisym e e').
    destruct (e ?= e'); cbn; try done. unfold Pos.compare. by destruct (Pos.compare_cont Eq m m').
  - f_equal. destruct (e ?= e'); try done. unfold Pos.compare. by destruct (Pos.compare_cont Eq m m').
Qed.
Lemma SFltb_key a b : isnan a = false -> isnan b = false -> SFltb a b = ltl (skey a) (skey b).
Proof. intros Ha Hb. unfold SFltb. by rewrite SFcompare_key. Qed.
Lemma SFleb_key a b : isnan a = false -> isnan b = false -> SFleb a b = lel (skey a) (skey b).
Proof. intros Ha Hb. unfold SFleb, lel. rewrite SFcompare_key by done. by destruct (lcmp _ _). Qed.
Lemma SFeqb_key a b : isnan a = false -> isnan b = false -> SFeqb a b = bool_decide (skey a = skey b).
Proof.
  intros Ha Hb. unfold SFeqb. rewrite SFcompare_key by done. destruct (lcmp _ _) eqn:E.
  - apply lcmp_eq in E. by rewrite bool_decide_true.
  - rewrite bool_decide_false; [done|]. intros H%lcmp_eq. congruence.
  - rewrite bool_decide_false; [done|]. intros H%lcmp_eq. congruence.
Qed.

(** ** Strings *)
Definition sign (c : comparison) : Z := match c with Lt => -1 | Eq => 0 | Gt => 1 end.

Lemma memcmp_ge n a b : (length a <= n)%nat -> (length b <= n)%nat -> length a = length b -> memcmp n a b = sign (lcmp a b).
Proof.
  revert a b. induction n as [|n IH]; intros [|x a] [|y b] Ha Hb Hl; try (cbn in *; (done || lia)).
  cbn [memcmp lcmp]. destruct (Z.compare_spec x y) as [->|Hxy|Hxy].
  - rewrite Z.ltb_irrefl. cbn in *. apply IH; lia.
  - by rewrite (proj2 (Z.ltb_lt _ _) Hxy).
  - rewrite (proj2 (Z.ltb_ge x y)) by lia. by rewrite (proj2 (Z.ltb_lt _ _) Hxy).
Qed.
Lemma sdscmp_sign s1 s2 : sdscmp s1 s2 = sign (lcmp (text s1) (text s2)).
Proof.
  unfold sdscmp. generalize (text s1) (text s2). clear s1 s2. intros a b.
  set (n := Z.to_nat (if zlen a <? zlen b then zlen a else zlen b)).
  assert (Hn : n = Nat.min (length a) (length b)).
  { unfold n, zlen. destruct (Z.ltb_spec (Z.of_nat (length a)) (Z.of_nat (length b))); lia. }
  rewrite Hn. clear n Hn. unfold zlen. revert b. induction a as [|x a IH]; intros [|y b]; try done.
  cbn [length Nat.min memcmp lcmp]. destruct (Z.compare_spec x y) as [->|Hxy|Hxy].
  - assert (Hs : forall n m, (Z.of_nat (Datatypes.S n) <? Z.of_nat (Datatypes.S m)) = (Z.of_nat n <? Z.of_nat m)).
    { intros n m. apply Bool.eq_iff_eq_true. rewrite !Z.ltb_lt. lia. }
    by rewrite Z.ltb_irrefl, !Hs, <- IH.
  - by rewrite (proj2 (Z.ltb_lt _ _) Hxy).
  - rewrite (proj2 (Z.ltb_ge x y)) by lia. by rewrite (proj2 (Z.ltb_lt _ _) Hxy).
Qed.
Lemma sds_eq (s1 s2 : sds) : text s1 = text s2 -> s1 = s2.
Proof. destruct s1 as [t H], s2 as [t' H']. cbn. intros <-. f_equal. apply proof_irrel. Qed.
Lemma sdscmp_lt s1 s2 : (sdscmp s1 s2 <? 0) = ltl (text s1) (text s2).
Proof. rewrite sdscmp_sign. unfold ltl. by destruct (lcmp _ _). Qed.
Lemma sdscmp_le s1 s2 : (sdscmp s1 s2 <=? 0) = lel (text s1) (text s2).
Proof. rewrite sdscmp_sign. unfold lel. by destruct (lcmp _ _). Qed.
Lemma sdscmp_eq s1 s2 : (sdscmp s1 s2 =? 0) = bool_decide (s1 = s2).
Proof.
  rewrite sdscmp_sign. destruct (lcmp (text s1) (text s2)) eqn:E.
  - apply lcmp_eq, sds_eq in E. by rewrite bool_decide_true.
  - rewrite bool_decide_false; [done|]. intros ->. by rewrite lcmp_refl in E.
  - rewrite bool_decide_false; [done|]. intros ->. by rewrite lcmp_refl in E.
Qed.

Lemma dictSdsKeyCompare_eq k k' : dictSdsKeyCompare k k' = bool_decide (text k = text k').
Proof.
  pose proof (text_short k) as Hk. pose proof (text_short k') as Hk'. apply Is_true_true, Z.ltb_lt in Hk, Hk'.
  pose proof (zlen_nonneg (text k)) as Lk. pose proof (zlen_nonneg (text k')) as Lk'.
  assert (Hid : forall x, 0 <= x < 2147483648 -> i32 x = x).
  { intros x Hx. unfold i32. rewrite Z.mod_small by lia. lia. }
  unfold dictSdsKeyCompare. rewrite !Hid by lia. destruct (Z.eqb_spec (zlen (text k)) (zlen (text k'))) as [Hl|Hl]; cbn [negb].
  - unfold zlen in *. rewrite memcmp_ge by lia. destruct (lcmp (text k) (text k')) eqn:E.
    + apply lcmp_eq in E. by rewrite bool_decide_true.
    + rewrite bool_decide_false; [done|]. intros H%lcmp_eq. congruence.
    + rewrite bool_decide_false; [done|]. intros H%lcmp_eq. congruence.
  - rewrite bool_decide_false; [done|]. congruence.
Qed.
