(* ===== verification/ZslLinks.v ===== *)
(** The levels of a skip list: a level links the nodes that are high enough to be in
    it, and records how far apart they are. What the walk down the levels finds, in
    terms of positions in the list. *)
From Stdlib Require Import Floats.SpecFloat.
From S2P Require Import Prelude Util Dict Zskiplist.
#[local] Open Scope Z_scope.

(** ** Levels *)

(** A node as a level sees it: its address and how many levels it has. *)
Abbreviation tower := (positive * nat)%type.
Implicit Types (N : gmap positive zskiplistNode) (m b lo hi : list tower) (e : option positive * Z) (i : nat).

Definition short i (t : tower) : Prop := (t.2 <= i)%nat.

(** The first node of [m] that is in level [i], and how far away it is; [e] follows [m]. *)
Fixpoint hop i m e : option positive * Z :=
  match m with
  | [] => e
  | (p, h) :: m => if (i <? h)%nat then (Some p, 1) else let '(q, n) := hop i m e in (q, n + 1)
  end.
Definition full e : zskiplistLevel := {| forward := Some e.1; span := Some e.2 |}.
Definition cell_at N (p : positive) i : option zskiplistLevel := N !! p ≫= fun n => level n !! i.

(** The members of level [i] among [m] are linked. *)
Fixpoint linked N i m e : Prop :=
  match m with
  | [] => True
  | (p, h) :: m => ((i < h)%nat -> cell_at N p i = Some (full (hop i m e))) /\ linked N i m e
  end.

Lemma hop_app i m m' e : hop i (m ++ m') e = hop i m (hop i m' e).
Proof. induction m as [|[p h] m IH]; cbn; [done|]. by rewrite IH. Qed.
Lemma linked_app N i m m' e : linked N i (m ++ m') e <-> linked N i m (hop i m' e) /\ linked N i m' e.
Proof. induction m as [|[p h] m IH]; cbn; [naive_solver|]. rewrite IH, hop_app. tauto. Qed.
Lemma hop_short i m e : Forall (short i) m -> hop i m e = (e.1, e.2 + zlen m).
Proof.
  induction m as [|[p h] m IH]; intros Hm; [destruct e; cbn; by rewrite Z.add_0_r|].
  apply Forall_cons in Hm as [Hh Hm]. unfold short in Hh. cbn in Hh. cbn [hop].
  rewrite (proj2 (Nat.ltb_ge _ _)), IH by done. f_equal. rewrite zlen_cons. lia.
Qed.
Lemma hop_tall i p h m e : (i < h)%nat -> hop i ((p, h) :: m) e = (Some p, 1).
Proof. intros Hh. cbn [hop]. by rewrite (proj2 (Nat.ltb_lt _ _)). Qed.
(** Across nodes that are not in the level. *)
Lemma hop_over i b p h m e : Forall (short i) b -> (i < h)%nat -> hop i (b ++ (p, h) :: m) e = (Some p, zlen b + 1).
Proof. intros Hb Hh. rewrite hop_app, hop_short, hop_tall by done. f_equal. cbn. lia. Qed.
Lemma linked_short N i m e : Forall (short i) m -> linked N i m e.
Proof.
  induction m as [|[p h] m IH]; intros Hm; [done|]. apply Forall_cons in Hm as [Hh Hm]. split; [|by apply IH].
  unfold short in Hh. cbn in Hh. lia.
Qed.
Lemma linked_frame N N' i m e : (forall p, p ∈ m.*1 -> cell_at N' p i = cell_at N p i) -> linked N i m e -> linked N' i m e.
Proof.
  induction m as [|[p h] m IH]; intros Hf Hl; [done|]. destruct Hl as [Hp Hm]. cbn in Hf. split.
  - rewrite Hf by by left. done.
  - apply IH; [|done]. intros q Hq. apply Hf. by right.
Qed.
(** The link of a node of the level. *)
Lemma linked_at N i m p h m' e : linked N i (m ++ (p, h) :: m') e -> (i < h)%nat -> cell_at N p i = Some (full (hop i m' e)).
Proof. intros [_ [Hp _]]%linked_app. done. Qed.

(** The next node of a level, by cases. *)
Lemma next_tall i m : Forall (short i) m \/
  exists b q h m', m = b ++ (q, h) :: m' /\ Forall (short i) b /\ (i < h)%nat.
Proof.
  induction m as [|[p h] m IH]; [by left|]. destruct (decide (i < h)%nat) as [Hh|Hh].
  - right. by exists [], p, h, m.
  - assert (Hs : short i (p, h)) by (unfold short; cbn; lia). destruct IH as [IH|(b & q & h' & m' & -> & Hb & Hh')].
    + left. by constructor.
    + right. exists ((p, h) :: b), q, h', m'. split; [done|]. split; [by constructor|done].
Qed.

(** ** Changing a cell *)
Definition put_cell (p : positive) i (c : zskiplistLevel) N : gmap positive zskiplistNode :=
  alter (fun n => with_level (<[i := c]> (level n)) n) p N.

(** What a node is apart from its links. *)
Definition core (n : zskiplistNode) : option sds * double * option (option positive) * nat :=
  (ele n, score n, backward n, length (level n)).
Definition same_core N N' : Prop := forall p, core <$> N' !! p = core <$> N !! p.
#[export] Instance same_core_preorder : PreOrder same_core.
Proof. split; [done|]. intros N1 N2 N3 H1 H2 p. by rewrite H2, H1. Qed.

Lemma same_core_put p i c N : same_core N (put_cell p i c N).
Proof.
  intros q. unfold put_cell. destruct (decide (q = p)) as [->|Hq].
  - rewrite lookup_alter_eq. destruct (N !! p) as [n|]; [|done]. cbn. unfold core. cbn. by rewrite length_insert.
  - by rewrite lookup_alter_ne.
Qed.
Lemma same_core_dom N N' : same_core N N' -> dom N' = dom N.
Proof.
  intros H. apply set_eq. intros p. rewrite !elem_of_dom. specialize (H p).
  destruct (N !! p), (N' !! p); naive_solver.
Qed.
Lemma cell_put_eq p i c c' N : cell_at N p i = Some c' -> cell_at (put_cell p i c N) p i = Some c.
Proof.
  unfold cell_at, put_cell. rewrite lookup_alter_eq. destruct (N !! p) as [n|]; [|done]. cbn. intros Hi.
  apply list_lookup_insert_eq. by eapply lookup_lt_Some.
Qed.
Lemma cell_put_ne p i c N q j : q <> p \/ j <> i -> cell_at (put_cell p i c N) q j = cell_at N q j.
Proof.
  unfold cell_at, put_cell. intros H. destruct (decide (q = p)) as [->|Hq]; [|by rewrite lookup_alter_ne].
  rewrite lookup_alter_eq. destruct (N !! p) as [n|]; [|done]. cbn. rewrite list_lookup_insert_ne by naive_solver. done.
Qed.

(** Only the cells of level [i] may differ. *)
Definition level_only i N N' : Prop := same_core N N' /\ forall q j, j <> i -> cell_at N' q j = cell_at N q j.
#[export] Instance level_only_preorder i : PreOrder (level_only i).
Proof.
  split; [by split|]. intros N1 N2 N3 [H1 H2] [H3 H4]. split; [by etransitivity|]. intros q j Hj. by rewrite H4, H2.
Qed.
Lemma level_only_put p i c N : level_only i N (put_cell p i c N).
Proof. split; [apply same_core_put|]. intros q j Hj. apply cell_put_ne. by right. Qed.

(** ** Reading and writing *)
Section access.
Implicit Types (w : zworld) (p : positive).

Lemma znode_eq w p n : nodes w !! p = Some n -> znode p w = Ret n w.
Proof. unfold znode. by intros ->. Qed.
Lemma upd_node_eq w p n f : nodes w !! p = Some n -> upd_node p f w = Ret tt (with_nodes (<[p := f n]> (nodes w)) w).
Proof. intros Hn. unfold upd_node. by rewrite (bind_ret_eq _ _ _ _ _ (znode_eq w p n Hn)). Qed.
Lemma cell_eq w p i c : cell_at (nodes w) p i = Some c -> cell p (Z.of_nat i) w = Ret c w.
Proof.
  unfold cell_at, cell. destruct (nodes w !! p) as [n|] eqn:Hn; [|done]. cbn. intros Hc.
  rewrite (bind_ret_eq _ _ _ _ _ (znode_eq w p n Hn)), (proj2 (Z.leb_le _ _)), Nat2Z.id, Hc by lia. done.
Qed.
Lemma get_forward_eq w p i c f : cell_at (nodes w) p i = Some c -> forward c = Some f -> get_forward p (Z.of_nat i) w = Ret f w.
Proof. intros Hc Hf. unfold get_forward. rewrite (bind_ret_eq _ _ _ _ _ (cell_eq w p i c Hc)), Hf. done. Qed.
Lemma get_span_eq w p i c n : cell_at (nodes w) p i = Some c -> span c = Some n -> get_span p (Z.of_nat i) w = Ret n w.
Proof. intros Hc Hf. unfold get_span. rewrite (bind_ret_eq _ _ _ _ _ (cell_eq w p i c Hc)), Hf. done. Qed.
Lemma set_cell_eq w p i c c' : cell_at (nodes w) p i = Some c' ->
  set_cell p (Z.of_nat i) c w = Ret tt (with_nodes (put_cell p i c (nodes w)) w).
Proof.
  unfold cell_at, set_cell. destruct (nodes w !! p) as [n|] eqn:Hn; [|done]. intros _. rewrite (upd_node_eq w p n _ Hn), Nat2Z.id.
  unfold put_cell. do 2 f_equal. apply map_eq. intros q. destruct (decide (q = p)) as [->|Hq].
  - by rewrite lookup_insert_eq, lookup_alter_eq, Hn.
  - by rewrite lookup_insert_ne, lookup_alter_ne.
Qed.
Lemma set_forward_eq w p i c f : cell_at (nodes w) p i = Some c ->
  set_forward p (Z.of_nat i) f w = Ret tt (with_nodes (put_cell p i {| forward := Some f; span := span c |} (nodes w)) w).
Proof. intros Hc. unfold set_forward. rewrite (bind_ret_eq _ _ _ _ _ (cell_eq w p i c Hc)). by eapply set_cell_eq. Qed.
Lemma set_span_eq w p i c n : cell_at (nodes w) p i = Some c ->
  set_span p (Z.of_nat i) n w = Ret tt (with_nodes (put_cell p i {| forward := forward c; span := Some (u64 n) |} (nodes w)) w).
Proof. intros Hc. unfold set_span. rewrite (bind_ret_eq _ _ _ _ _ (cell_eq w p i c Hc)). by eapply set_cell_eq. Qed.

Lemma get_slot_eq {A} w (l : list (option A)) i x : l !! i = Some (Some x) -> get_slot l (Z.of_nat i) w = Ret x w.
Proof. intros Hl. unfold get_slot. rewrite (proj2 (Z.leb_le _ _)), Nat2Z.id, Hl by lia. done. Qed.
Lemma put_slot_eq {A} w (l : list (option A)) i x : (i < length l)%nat ->
  put_slot l (Z.of_nat i) x w = Ret (<[i := Some x]> l) w.
Proof.
  intros Hl. unfold put_slot. rewrite (proj2 (Z.leb_le _ _)), (proj2 (Z.ltb_lt _ _)), Nat2Z.id by (unfold zlen; lia). done.
Qed.
End access.

(** ** Walking *)

(** In level [i], the last node of [lo] is [x], at position [k]. *)
Definition spot i lo (x : positive) (k : nat) : Prop :=
  exists a h c, lo = a ++ (x, h) :: c /\ (i < h)%nat /\ Forall (short i) c /\ k = length a.

Lemma spot_lower i lo x k : spot i lo x k -> exists h, lo !! k = Some (x, h) /\ (i < h)%nat.
Proof. intros (a & h & c & -> & Hh & _ & ->). exists h. by rewrite list_lookup_middle. Qed.

Section walk.
Context {A : Type} (go : A -> positive -> positive -> D bool) (step : A -> positive -> D A) (i : nat).
Context (w : zworld) (lo hi : list tower) (e : option positive * Z) (g : nat -> A).
Hypothesis Hlinked : linked (nodes w) i (lo ++ hi) e.
Hypothesis Hend : e.1 = None.

(** The walk passes the nodes of [lo] and stops before those of [hi]. *)
Hypothesis Hgo : forall k x h k' q h', lo !! k = Some (x, h) -> lo !! k' = Some (q, h') -> (k < k')%nat ->
  cell_at (nodes w) x i = Some (full (Some q, Z.of_nat k' - Z.of_nat k)) ->
  go (g k) x q w = Ret true w /\ step (g k) x w = Ret (g k') w.
Hypothesis Hstop : forall k x h j q h', lo !! k = Some (x, h) -> hi !! j = Some (q, h') ->
  cell_at (nodes w) x i = Some (full (Some q, zlen lo + Z.of_nat j - Z.of_nat k)) -> go (g k) x q w = Ret false w.

Lemma walk_turns n : forall k x h, (length lo - k < n)%nat -> lo !! k = Some (x, h) -> (i < h)%nat -> exists x' k',
  while_loop n (walk_turn go step (Z.of_nat i)) (g k, x) w = Ret (g k', x') w /\ spot i lo x' k'.
Proof.
  induction n as [|n IH]; intros k x h Hn Hk Hh; [lia|]. cbn [while_loop]. unfold walk_turn at 1.
  pose proof (take_drop_middle lo k _ Hk) as Hlo. pose proof (lookup_lt_Some _ _ _ Hk) as Hlt.
  set (a := take k lo) in *. set (c := drop (Datatypes.S k) lo) in *.
  assert (La : length a = k) by (unfold a; rewrite length_take; lia). assert (Lc : (length c = length lo - Datatypes.S k)%nat) by (unfold c; by rewrite length_drop).
  assert (Hc : cell_at (nodes w) x i = Some (full (hop i (c ++ hi) e))).
  { rewrite <- Hlo, <- app_assoc in Hlinked. by eapply linked_at. }
  destruct (next_tall i c) as [Hs|(b & q & h' & c' & Ec & Hb & Hh')].
  - assert (Hend' : spot i lo x k) by by exists a, h, c.
    exists x, k. split; [|done]. destruct (next_tall i hi) as [Hs'|(b & q & h' & c' & Ehi & Hb & Hh')].
    + rewrite hop_short in Hc by by apply Forall_app.
      rewrite bind_assoc, (bind_ret_eq _ _ _ _ _ (get_forward_eq w x i _ None Hc ltac:(cbn; by rewrite Hend))). done.
    + rewrite Ehi, hop_app, hop_over, hop_short in Hc by done. cbn [fst snd] in Hc.
      rewrite bind_assoc, (bind_ret_eq _ _ _ _ _ (get_forward_eq w x i _ (Some q) Hc eq_refl)).
      rewrite bind_assoc, (bind_ret_eq _ _ w false w); [done|]. eapply Hstop; [exact Hk| |].
      * rewrite Ehi. by apply list_lookup_middle.
      * rewrite Hc. do 3 f_equal. unfold zlen in *. rewrite Lc. lia.
  - rewrite Ec, <- app_assoc in Hc. cbn [app] in Hc. rewrite hop_over in Hc by done.
    assert (Hk' : lo !! (k + length b + 1)%nat = Some (q, h')).
    { rewrite <- Hlo, lookup_app_r by lia. rewrite La. replace (k + length b + 1 - k)%nat with (Datatypes.S (length b)) by lia. cbn.
      rewrite Ec. by apply list_lookup_middle. }
    rewrite bind_assoc, (bind_ret_eq _ _ _ _ _ (get_forward_eq w x i _ (Some q) Hc eq_refl)).
    destruct (Hgo k x h _ q h' Hk Hk' ltac:(lia)) as [Eg Es].
    { rewrite Hc. do 3 f_equal. unfold zlen. lia. }
    rewrite bind_assoc, (bind_ret_eq _ _ _ _ _ Eg), bind_assoc, (bind_ret_eq _ _ _ _ _ Es).
    pose proof (lookup_lt_Some _ _ _ Hk') as Hlt'. apply (IH _ q h'); [lia|done|done].
Qed.
End walk.

(** ** Splicing a level *)

(** What follows the last node of a level is replaced: [b] by [b'] between [c], which is not in
    the level, and [hi]. *)
Lemma relink N N' i a u h c b b' hi e : (i < h)%nat -> Forall (short i) c ->
  linked N i (a ++ (u, h) :: c ++ b ++ hi) e -> (forall q, q ∈ a.*1 \/ q ∈ hi.*1 -> cell_at N' q i = cell_at N q i) ->
  cell_at N' u i = Some (full (hop i (c ++ b' ++ hi) e)) -> linked N' i b' (hop i hi e) ->
  linked N' i (a ++ (u, h) :: c ++ b' ++ hi) e.
Proof.
  intros Hh Hc Hl Hf Hu Hb'. apply linked_app in Hl as [Ha [_ Hl]]. apply linked_app in Hl as [_ Hl].
  apply linked_app in Hl as [_ Hhi]. rewrite hop_tall in Ha by done. apply linked_app. split.
  - rewrite hop_tall by done. eapply linked_frame; [|exact Ha]. intros q Hq. apply Hf. by left.
  - split; [done|]. apply linked_app. split; [by apply linked_short|]. apply linked_app. split; [done|].
    eapply linked_frame; [|exact Hhi]. intros q Hq. apply Hf. by right.
Qed.

(** Positions: how far the last node of [lo] is from its end. *)
Lemma spot_gap i lo x k : spot i lo x k -> exists a h c, lo = a ++ (x, h) :: c /\ (i < h)%nat /\ Forall (short i) c /\
  k = length a /\ zlen c = zlen lo - 1 - Z.of_nat k.
Proof.
  intros (a & h & c & -> & Hh & Hc & ->). exists a, h, c. do 4 (split; [done|]). unfold zlen. rewrite length_app. cbn. lia.
Qed.
Lemma hop_bound i m e : 0 <= e.2 -> 0 <= (hop i m e).2 <= zlen m + e.2.
Proof.
  intros He. induction m as [|[p h] m IH]; [pose proof (zlen_nonneg (@nil tower)); cbn [hop]; lia|]. rewrite zlen_cons. pose proof (zlen_nonneg m). cbn [hop].
  destruct (_ <? _)%nat; [cbn; lia|]. destruct (hop i m e) as [q n]. cbn in *. lia.
Qed.
(** The next node of a level is one of those that follow. *)
Lemma hop_elem i m p n : hop i m (None, n) = (Some p, (hop i m (None, n)).2) -> p ∈ m.*1.
Proof.
  induction m as [|[q h] m IH]; [done|]. cbn [hop]. destruct (_ <? _)%nat.
  - intros [= ->]. by left.
  - destruct (hop i m (None, n)) as [q' n'] eqn:E. cbn [snd]. intros [= ->]. right. by apply IH.
Qed.
Lemma spot_elem i lo x k : spot i lo x k -> x ∈ lo.*1.
Proof. intros (a & h & c & -> & _). rewrite fmap_app. apply elem_of_app. right. by left. Qed.
