(* ===== verification/ZslProofs.v ===== *)
(** What a skip list looks like in the heap, and what the walk down its levels
    leaves in [update]. *)
From Stdlib Require Import Floats.SpecFloat.
From S2P Require Import Prelude Util Dict Zskiplist ZslOrder ZslLinks.
#[local] Open Scope Z_scope.

(** A node of the list, as the proofs see it. *)
Record item := { iaddr : positive; iheight : nat; iscore : double; iele : sds }.
Definition tower_of (it : item) : tower := (iaddr it, iheight it).
Implicit Types (w : zworld) (z : zskiplist) (l llo lhi : list item) (it : item) (N : gmap positive zskiplistNode).

(** The header is in every level. *)
Definition towers z l : list tower := (header z, 64%nat) :: (tower_of <$> l).
Definition NIL : option positive * Z := (None, 0).
Definition top l : nat := foldr (fun it => Nat.max (iheight it)) 1%nat l.

(** The nodes of [l] hold their items; [prev] is the node before them. *)
Fixpoint fields N (prev : option positive) l : Prop :=
  match l with
  | [] => True
  | it :: l => core <$> N !! iaddr it = Some (Some (iele it), iscore it, Some prev, iheight it) /\ fields N (Some (iaddr it)) l
  end.
Definition last_addr (prev : option positive) l : option positive :=
  match last l with Some it => Some (iaddr it) | None => prev end.

(** The addresses in use; the nodes [U] were created or unlinked and not released yet. The
    list has [T] levels, which between operations are those its nodes need. *)
Definition used_by z l (U : list positive) : list positive := header z :: (iaddr <$> l) ++ U.

Record zsl_inv (T : nat) w z l (U : list positive) : Prop := {
  zo_zsl : zsl w = Some z;
  zo_length : zlength z = zlen l;
  zo_few : zlen l < 2 ^ 32;
  zo_tail : tail z = last_addr None l;
  zo_level : zlevel z = Z.of_nat T;
  zo_top : (top l <= T <= 64)%nat;
  zo_heights : Forall (fun it => 1 <= iheight it <= 64)%nat l;
  zo_addrs : NoDup (used_by z l U);
  zo_dom : dom (nodes w) = list_to_set (used_by z l U);
  zo_brk : Forall (fun p => p < zbrk w)%positive (used_by z l U);
  zo_header : core <$> nodes w !! header z = Some (None, S754_zero false, Some None, 64%nat);
  zo_fields : fields (nodes w) None l;
  zo_linked : forall i, (i < T)%nat -> linked (nodes w) i (towers z l) NIL;
  zo_above : forall i, (T <= i < 64)%nat -> exists s, cell_at (nodes w) (header z) i = Some (full (None, s))
}.
Definition zsl_ok w z l U : Prop := zsl_inv (top l) w z l U.

(** ** Lists of items *)
Lemma fields_app N prev l l' : fields N prev (l ++ l') <-> fields N prev l /\ fields N (last_addr prev l) l'.
Proof.
  revert prev. induction l as [|it l IH]; intros prev; [cbn; tauto|]. cbn [app fields]. rewrite IH.
  replace (last_addr (Some (iaddr it)) l) with (last_addr prev (it :: l)); [tauto|].
  unfold last_addr. destruct l as [|it' l]; [done|]. cbn [last]. by destruct (last (it' :: l)) eqn:E; [|apply last_None in E].
Qed.
Lemma fields_frame N N' prev l : (forall p, p ∈ iaddr <$> l -> core <$> N' !! p = core <$> N !! p) ->
  fields N prev l -> fields N' prev l.
Proof.
  revert prev. induction l as [|it l IH]; intros prev Hf Hl; [done|]. destruct Hl as [Hit Hl]. cbn in Hf. split.
  - rewrite Hf by by left. done.
  - apply IH; [|done]. intros p Hp. apply Hf. by right.
Qed.
Lemma fields_at N prev l l' it : fields N prev (l ++ it :: l') ->
  core <$> N !! iaddr it = Some (Some (iele it), iscore it, Some (last_addr prev l), iheight it).
Proof. intros [_ [H _]]%fields_app. done. Qed.
Lemma last_addr_snoc prev l it : last_addr prev (l ++ [it]) = Some (iaddr it).
Proof. unfold last_addr. by rewrite last_snoc. Qed.
Lemma last_addr_app prev l l' : last_addr prev (l ++ l') = last_addr (last_addr prev l) l'.
Proof. unfold last_addr. rewrite last_app. by destruct (last l'). Qed.
Lemma last_addr_cons prev it l : last_addr prev (it :: l) = last_addr (Some (iaddr it)) l.
Proof. change (it :: l) with ([it] ++ l). by rewrite last_addr_app. Qed.

Lemma top_cons it l : top (it :: l) = Nat.max (iheight it) (top l).
Proof. done. Qed.
Lemma top_ge l : (1 <= top l)%nat.
Proof. induction l as [|it l IH]; [done|]. rewrite top_cons. lia. Qed.
Lemma top_app l l' : top (l ++ l') = Nat.max (top l) (top l').
Proof.
  induction l as [|it l IH]; cbn [app]; [pose proof (top_ge l'); change (top []) with 1%nat; lia|]. rewrite !top_cons. lia.
Qed.
Lemma top_le l : Forall (fun it => 1 <= iheight it <= 64)%nat l -> (top l <= 64)%nat.
Proof.
  induction 1 as [|it l Hit _ IH]; [change (top []) with 1%nat; lia|]. rewrite top_cons. lia.
Qed.
Lemma top_short l i : (top l <= i)%nat -> Forall (short i) (tower_of <$> l).
Proof.
  induction l as [|it l IH]; intros Hi; [constructor|]. rewrite top_cons in Hi.
  constructor; [unfold short; cbn; lia|]. apply IH. lia.
Qed.
(** A level below the highest one is not empty. *)
Lemma top_tall l i : (i < top l)%nat -> (1 <= i)%nat -> exists l1 it l2, l = l1 ++ it :: l2 /\ (i < iheight it)%nat /\
  Forall (short i) (tower_of <$> l1).
Proof.
  induction l as [|it l IH]; intros Hi H1; [change (top []) with 1%nat in Hi; lia|]. rewrite top_cons in Hi.
  destruct (decide (i < iheight it)%nat) as [Hit|Hit].
  - exists [], it, l. split; [done|]. split; [done|constructor].
  - destruct IH as (l1 & it' & l2 & -> & Hit' & Hs); [lia|done|]. exists (it :: l1), it', l2.
    split; [done|]. split; [done|]. constructor; [unfold short; cbn; lia|done].
Qed.

Lemma towers_app z l l' : towers z (l ++ l') = towers z l ++ (tower_of <$> l').
Proof. unfold towers. by rewrite fmap_app. Qed.
Lemma tower_mid l it l' : tower_of <$> l ++ it :: l' = (tower_of <$> l) ++ (iaddr it, iheight it) :: (tower_of <$> l').
Proof. by rewrite fmap_app. Qed.
Lemma towers_mid z l it l' : towers z (l ++ it :: l') = towers z l ++ (iaddr it, iheight it) :: (tower_of <$> l').
Proof. unfold towers. by rewrite tower_mid. Qed.
Lemma towers_addrs z l : (towers z l).*1 = header z :: (iaddr <$> l).
Proof. unfold towers. cbn. f_equal. by rewrite <- list_fmap_compose. Qed.
Lemma tower_addrs l : (tower_of <$> l).*1 = iaddr <$> l.
Proof. by rewrite <- list_fmap_compose. Qed.
Lemma towers_lookup z l k p h : towers z l !! Datatypes.S k = Some (p, h) -> exists it, l !! k = Some it /\ tower_of it = (p, h).
Proof. cbn. intros (it & E & Hl)%list_lookup_fmap_Some. by exists it. Qed.
Lemma zlen_towers z l : zlen (towers z l) = zlen l + 1.
Proof. unfold towers. rewrite zlen_cons, zlen_fmap. lia. Qed.

(** ** Reading a skip list *)
Section reading.
Context (T : nat) w z l (U : list positive) (Hok : zsl_inv T w z l U).

Lemma the_zsl_eq : the_zsl w = Ret z w.
Proof. unfold the_zsl. by rewrite (zo_zsl _ _ _ _ _ Hok). Qed.
Lemma upd_zsl_eq f : upd_zsl f w = Ret tt (with_zsl (Some (f z)) w).
Proof. unfold upd_zsl. by rewrite (bind_ret_eq _ _ _ _ _ the_zsl_eq). Qed.

Lemma list_fuel_eq : exists n, list_fuel w = Ret n w /\ (length l + length U + 1 < n)%nat.
Proof.
  eexists. split; [done|]. rewrite <- size_dom, (zo_dom _ _ _ _ _ Hok), size_list_to_set by apply Hok.
  unfold used_by. cbn [length]. rewrite length_app, length_fmap. lia.
Qed.

Lemma item_node it : it ∈ l -> exists n, nodes w !! iaddr it = Some n /\ ele n = Some (iele it) /\ score n = iscore it /\
  length (level n) = iheight it.
Proof.
  intros (l1 & l2 & ->)%list_elem_of_split. pose proof (fields_at _ _ _ _ _ (zo_fields _ _ _ _ _ Hok)) as Hc.
  destruct (nodes w !! iaddr it) as [n|]; [|done]. exists n. split; [done|]. cbn in Hc. injection Hc as ?? _ ?. done.
Qed.
Lemma item_back l1 it l2 : l = l1 ++ it :: l2 -> exists n, nodes w !! iaddr it = Some n /\ backward n = Some (last_addr None l1).
Proof.
  intros ->. pose proof (fields_at _ _ _ _ _ (zo_fields _ _ _ _ _ Hok)) as Hc.
  destruct (nodes w !! iaddr it) as [n|]; [|done]. exists n. split; [done|]. cbn in Hc. by injection Hc as _ _ ? _.
Qed.
Lemma get_ele_eq it : it ∈ l -> get_ele (iaddr it) w = Ret (iele it) w.
Proof.
  intros Hit. destruct (item_node it Hit) as (n & Hn & He & _). unfold get_ele.
  rewrite (bind_ret_eq _ _ _ _ _ (znode_eq w _ _ Hn)), He. done.
Qed.

(** The first level holds every node. *)
Lemma hop_zero l' : Forall (fun it => 1 <= iheight it <= 64)%nat l' ->
  hop 0 (tower_of <$> l') NIL = match l' with [] => NIL | it :: _ => (Some (iaddr it), 1) end.
Proof. intros Hh. destruct l' as [|it l']; [done|]. apply Forall_cons in Hh as [Hh _]. apply hop_tall. lia. Qed.
Definition first_addr l' : option positive := iaddr <$> head l'.
Lemma forward_zero llo lhi x h a : l = llo ++ lhi -> towers z llo = a ++ [(x, h)] -> (0 < h)%nat ->
  get_forward x 0 w = Ret (first_addr lhi) w.
Proof.
  intros -> Ea Hh. pose proof (zo_linked _ _ _ _ _ Hok 0%nat ltac:(pose proof (top_ge (llo ++ lhi)); pose proof (zo_top _ _ _ _ _ Hok); lia)) as Hl.
  rewrite towers_app, Ea, <- app_assoc in Hl. apply linked_at in Hl; [|done].
  pose proof (zo_heights _ _ _ _ _ Hok) as Hhs. apply Forall_app in Hhs as [_ Hhs]. rewrite (hop_zero _ Hhs) in Hl.
  apply (get_forward_eq w x 0%nat _ _ Hl). by destruct lhi.
Qed.
Lemma forward_item l1 it l2 : l = l1 ++ it :: l2 -> get_forward (iaddr it) 0 w = Ret (first_addr l2) w.
Proof.
  intros E. eapply (forward_zero (l1 ++ [it]) l2 _ (iheight it) (towers z l1)); [by rewrite <- app_assoc| |].
  - by rewrite towers_app.
  - pose proof (zo_heights _ _ _ _ _ Hok) as Hh. rewrite E in Hh. apply Forall_app in Hh as [_ Hh]. apply Forall_cons in Hh as [Hh _]. lia.
Qed.
Lemma forward_header : get_forward (header z) 0 w = Ret (first_addr l) w.
Proof. apply (forward_zero [] l _ 64%nat []); [done|done|lia]. Qed.
End reading.

(** ** The walk down the levels *)

(** What a walk is after: it decides, at any node, whether the next one - at position [k'],
    from 1 - is among the first [n], and keeps [g k], a function of its position. *)
Definition guides {A} w l (n : nat) (go : Z -> A -> positive -> positive -> D bool) (step : Z -> A -> positive -> D A)
    (g : nat -> A) : Prop :=
  forall i k x k' it, (k < k')%nat -> l !! pred k' = Some it ->
    get_span x (Z.of_nat i) w = Ret (Z.of_nat k' - Z.of_nat k) w ->
    go (Z.of_nat i) (g k) x (iaddr it) w = Ret (bool_decide (k' <= n)%nat) w /\
    ((k' <= n)%nat -> step (Z.of_nat i) (g k) x w = Ret (g k') w).

(** A condition on the next node alone. *)
Lemma guides_items w llo lhi go (F : item -> bool) : (forall it, it ∈ llo ++ lhi -> go (iaddr it) w = Ret (F it) w) ->
  Forall (fun it => F it = true) llo -> Forall (fun it => F it = false) lhi ->
  guides w (llo ++ lhi) (length llo) (fun _ (_ : unit) _ => go) nothing (fun _ => tt).
Proof.
  intros Hgo Hlo Hhi i k x k' it Hk Hit _. split; [|done].
  rewrite Hgo by by eapply list_elem_of_lookup_2. f_equal. destruct (decide (k' <= length llo)%nat) as [Hle|Hle].
  - rewrite bool_decide_true by done. rewrite lookup_app_l in Hit by lia. eapply Forall_lookup_1 in Hlo; done.
  - rewrite bool_decide_false by done. rewrite lookup_app_r in Hit by lia. eapply Forall_lookup_1 in Hhi; done.
Qed.

(** What [update] is for: in each of the first [n] levels, the last node of [llo]. *)
Definition spots z llo (n : nat) (update : list (option positive)) : Prop :=
  forall i, (i < n)%nat -> exists x k, update !! i = Some (Some x) /\ spot i (towers z llo) x k.

Section descent.
Context (T : nat) w z llo lhi (U : list positive) (Hok : zsl_inv T w z (llo ++ lhi) U).
Context {A : Type} (go : Z -> A -> positive -> positive -> D bool) (step : Z -> A -> positive -> D A) (g : nat -> A).
Hypothesis Hguide : guides w (llo ++ lhi) (length llo) go step g.

Lemma walk_level_ok i k x h : (i < T)%nat -> towers z llo !! k = Some (x, h) -> (i < h)%nat -> exists x' k',
  walk (go (Z.of_nat i)) (step (Z.of_nat i)) (Z.of_nat i) (g k) x w = Ret (g k', x') w /\ spot i (towers z llo) x' k'.
Proof.
  intros Hi Hk Hh. destruct (list_fuel_eq _ _ _ _ _ Hok) as (n & En & Hn). unfold walk. rewrite (bind_ret_eq _ _ _ _ _ En).
  assert (Hspan : forall x i c, cell_at (nodes w) x i = Some (full c) -> get_span x (Z.of_nat i) w = Ret c.2 w)
    by (intros x0 i0 c Hc; by eapply get_span_eq).
  eapply (walk_turns (go (Z.of_nat i)) (step (Z.of_nat i)) i w (towers z llo) (tower_of <$> lhi) NIL g); [| | | | |exact Hk|done].
  - rewrite <- towers_app. by apply Hok.
  - done.
  - intros k0 x0 h0 k' q h' Hk0 Hk' Hlt Hc. destruct k' as [|k']; [lia|]. apply towers_lookup in Hk' as (it & Hit & [= <- <-]).
    pose proof (lookup_lt_Some _ _ _ Hit) as Hlen.
    destruct (Hguide i k0 x0 (Datatypes.S k') it Hlt) as [Eg Es].
    + cbn. by apply lookup_app_l_Some.
    + by rewrite (Hspan _ _ _ Hc).
    + rewrite bool_decide_true in Eg by lia. split; [done|]. apply Es. lia.
  - intros k0 x0 h0 j q h' Hk0 Hj Hc. apply list_lookup_fmap_Some in Hj as (it & [= -> ->] & Hit).
    pose proof (lookup_lt_Some _ _ _ Hk0) as Hlen. unfold towers in Hlen. cbn [length] in Hlen. rewrite length_fmap in Hlen.
    destruct (Hguide i k0 x0 (length llo + 1 + j)%nat it ltac:(lia)) as [Eg _].
    + rewrite lookup_app_r by lia. replace (pred (length llo + 1 + j) - length llo)%nat with j by lia. done.
    + rewrite (Hspan _ _ _ Hc), zlen_towers. do 2 f_equal. cbn [snd]. unfold zlen. lia.
    + rewrite bool_decide_false in Eg by lia. done.
  - unfold towers in *. cbn [length]. rewrite length_fmap. rewrite length_app in Hn. lia.
Qed.

(** The descent from any node of level [n]: nothing happens without levels. *)
Lemma descend_update n : forall k x h upd, (n <= T)%nat -> length upd = 64%nat -> towers z llo !! k = Some (x, h) -> (n <= h)%nat ->
  exists x' k' upd',
  for_down n (fun i '(a, x, update) =>
    let* (a, x) := walk (go i) (step i) i a x in
    let* update := put_slot update i x in ret (a, x, update)) (g k, x, upd) w = Ret (g k', x', upd') w /\
  length upd' = 64%nat /\ spots z llo n upd' /\ (forall i, (n <= i)%nat -> upd' !! i = upd !! i) /\
  ((n = 0 /\ x' = x /\ k' = k)%nat \/ spot 0 (towers z llo) x' k').
Proof.
  induction n as [|n IH]; intros k x h upd Hn Hupd Hk Hh.
  { exists x, k, upd. split; [done|]. split; [done|]. split; [intros i Hi; lia|]. split; [done|]. by left. }
  cbn [for_down]. destruct (walk_level_ok n k x h) as (x1 & k1 & E1 & Hs1); [lia|done|lia|].
  pose proof (zo_top _ _ _ _ _ Hok) as Ht.
  rewrite bind_assoc, (bind_ret_eq _ _ _ _ _ E1), bind_assoc, (bind_ret_eq _ _ _ _ _ (put_slot_eq w upd n x1 ltac:(lia))).
  destruct (spot_lower _ _ _ _ Hs1) as (h1 & Hk1 & Hh1).
  destruct (IH k1 x1 h1 (<[n := Some x1]> upd)) as (x2 & k2 & upd2 & E2 & Hl2 & Hsp2 & Hr2 & He2);
    [lia|by rewrite length_insert|done|lia|].
  exists x2, k2, upd2. split; [exact E2|]. split; [done|]. split; [|split].
  - intros i Hi. destruct (decide (i = n)) as [->|Hne]; [|apply Hsp2; lia]. exists x1, k1. rewrite Hr2 by lia.
    rewrite list_lookup_insert_eq by lia. done.
  - intros i Hi. rewrite Hr2 by lia. apply list_lookup_insert_ne. lia.
  - right. destruct He2 as [(-> & -> & ->)|He2]; done.
Qed.

Lemma find_update_ok : exists x update a, find_update go step (g 0%nat) w = Ret (g (length llo), x, update) w /\
  length update = 64%nat /\ spots z llo T update /\ (exists h, towers z llo = a ++ [(x, h)] /\ (0 < h)%nat).
Proof.
  unfold find_update. rewrite (bind_ret_eq _ _ _ _ _ (the_zsl_eq _ _ _ _ _ Hok)), (zo_level _ _ _ _ _ Hok), Nat2Z.id.
  pose proof (zo_top _ _ _ _ _ Hok) as Ht.
  destruct (descend_update T 0 (header z) 64 local_array) as (x & k & upd & E & Hl & Hs & _ & He); [done|done|done|lia|].
  pose proof (top_ge (llo ++ lhi)) as Hge. destruct He as [(He & _)|(a & h & c & Ea & Hh & Hc & ->)]; [lia|].
  assert (c = []) as ->.
  { assert (Hc0 : c = [] \/ exists t, t ∈ c /\ t ∈ tower_of <$> llo).
    { destruct c as [|t c]; [by left|]. right. exists t. split; [by left|]. unfold towers in Ea. destruct a as [|? a].
      - injection Ea as _ _ Ea. rewrite Ea. by left.
      - injection Ea as _ Ea. rewrite Ea. apply elem_of_app. right. apply elem_of_cons. right. by left. }
    destruct Hc0 as [->|(t & Ht1 & Ht2)]; [done|]. rewrite Forall_forall in Hc. specialize (Hc t Ht1).
    apply list_elem_of_fmap in Ht2 as (it & -> & Hit). pose proof (zo_heights _ _ _ _ _ Hok) as Hhs. apply Forall_app in Hhs as [Hhs _].
    rewrite Forall_forall in Hhs. specialize (Hhs it Hit). unfold short in Hc. cbn in Hc. lia. }
  exists x, upd, a. replace (length llo) with (length a); [split; [exact E|]; split; [done|]; split; [done|by exists h]|].
  pose proof (f_equal length Ea) as Hlen. unfold towers in Hlen. rewrite length_app in Hlen. cbn in Hlen. rewrite length_fmap in Hlen. lia.
Qed.
End descent.
