(* ===== verification/ZslInsert.v ===== *)
(** Inserting into a skip list: the walk counts the nodes it passes, the level of the
    new node is drawn, and every level is spliced. *)
From Stdlib Require Import Floats.SpecFloat.
From S2P Require Import Prelude Util Dict DictProofs Zskiplist ZslOrder ZslLinks ZslProofs.
#[local] Open Scope Z_scope.
Implicit Types (w : zworld) (z : zskiplist) (l llo lhi : list item) (it : item) (N : gmap positive zskiplistNode).

(** ** The order of the elements *)
Definition okey (s : double) (e : sds) : list Z := skey s ++ text e.
Definition ikey it : list Z := okey (iscore it) (iele it).

Lemma okey_ltl s e s' e' : isnan s = false -> isnan s' = false ->
  (if SFltb s s' then true else if SFeqb s s' then ltl (text e) (text e') else false) = ltl (okey s e) (okey s' e').
Proof.
  intros Hs Hs'. unfold okey, ltl. rewrite lcmp_app by by rewrite !length_skey.
  unfold SFltb, SFeqb. rewrite SFcompare_key by done. by destruct (lcmp (skey s) (skey s')).
Qed.
Lemma okey_lel s e s' e' : isnan s = false -> isnan s' = false ->
  (if SFltb s s' then true else if SFeqb s s' then lel (text e) (text e') else false) = lel (okey s e) (okey s' e').
Proof.
  intros Hs Hs'. unfold okey, lel. rewrite lcmp_app by by rewrite !length_skey.
  unfold SFltb, SFeqb. rewrite SFcompare_key by done. by destruct (lcmp (skey s) (skey s')).
Qed.

Definition scored l : Prop := Forall (fun it => isnan (iscore it) = false) l.

Section precedes.
Context (T : nat) w z l (U : list positive) (Hok : zsl_inv T w z l U) (Hnan : scored l).

Lemma precedes_eq s e lt it : it ∈ l -> precedes s e lt (iaddr it) w =
  Ret (if SFltb (iscore it) s then true else if SFeqb (iscore it) s then lt (sdscmp (iele it) e) else false) w.
Proof.
  intros Hit. destruct (item_node _ _ _ _ _ Hok it Hit) as (n & Hn & _ & Hsc & _). unfold precedes.
  rewrite (bind_ret_eq _ _ _ _ _ (znode_eq w _ _ Hn)), Hsc. destruct (SFltb _ _); [done|]. destruct (SFeqb _ _); [|done].
  by rewrite (bind_ret_eq _ _ _ _ _ (get_ele_eq _ _ _ _ _ Hok it Hit)).
Qed.
Lemma scored_elem it : it ∈ l -> isnan (iscore it) = false.
Proof. pose proof Hnan as H. unfold scored in H. rewrite Forall_forall in H. apply H. Qed.
Lemma precedes_lt s e it : isnan s = false -> it ∈ l ->
  precedes s e (fun c => c <? 0) (iaddr it) w = Ret (ltl (ikey it) (okey s e)) w.
Proof. intros Hs Hit. rewrite precedes_eq, sdscmp_lt, okey_ltl by (done || by apply scored_elem). done. Qed.
Lemma precedes_le s e it : isnan s = false -> it ∈ l ->
  precedes s e (fun c => c <=? 0) (iaddr it) w = Ret (lel (ikey it) (okey s e)) w.
Proof. intros Hs Hit. rewrite precedes_eq, sdscmp_le, okey_lel by (done || by apply scored_elem). done. Qed.
End precedes.

(** A condition on the next node, for a walk that keeps its position. *)
Lemma guides_counting {A} T w z llo lhi U go (step : Z -> A -> positive -> D A) (g : nat -> A) (F : item -> bool) :
  zsl_inv T w z (llo ++ lhi) U ->
  (forall it, it ∈ llo ++ lhi -> go (iaddr it) w = Ret (F it) w) ->
  Forall (fun it => F it = true) llo -> Forall (fun it => F it = false) lhi ->
  (forall i x k k', (k' <= length llo)%nat -> get_span x i w = Ret (Z.of_nat k' - Z.of_nat k) w ->
    step i (g k) x w = Ret (g k') w) ->
  guides w (llo ++ lhi) (length llo) (fun _ (_ : A) _ => go) step g.
Proof.
  intros Hok Hgo Hlo Hhi Hstep i k x k' it Hk Hit Hs.
  destruct (guides_items w llo lhi go F Hgo Hlo Hhi i k x k' it Hk Hit Hs) as [E _]. split; [exact E|].
  intros Hle. by apply Hstep.
Qed.

(** ** The walk of [zslInsert] *)

(** In each level, the last node of [llo] and its position. *)
Definition ranked z llo (n : nat) (rank : list (option Z)) (update : list (option positive)) : Prop :=
  forall i, (i < n)%nat -> exists x k, update !! i = Some (Some x) /\ rank !! i = Some (Some (Z.of_nat k)) /\
    spot i (towers z llo) x k.

Lemma insert_descent T w z llo lhi U s e n : zsl_inv T w z (llo ++ lhi) U -> scored (llo ++ lhi) -> isnan s = false ->
  Forall (fun it => ltl (ikey it) (okey s e) = true) llo -> Forall (fun it => ltl (ikey it) (okey s e) = false) lhi ->
  forall k x h rank upd, (n <= T)%nat -> length rank = 64%nat -> length upd = 64%nat -> towers z llo !! k = Some (x, h) -> (n <= h)%nat ->
  (n = T /\ k = 0%nat) \/ (n < T)%nat /\ rank !! n = Some (Some (Z.of_nat k)) ->
  exists rank' x' upd', for_down n (insert_search s e (zlevel z - 1)) (rank, x, upd) w = Ret (rank', x', upd') w /\
    length rank' = 64%nat /\ length upd' = 64%nat /\ ranked z llo n rank' upd' /\
    forall i, (n <= i)%nat -> upd' !! i = upd !! i /\ rank' !! i = rank !! i.
Proof.
  intros Hok Hnan Hs Hlo Hhi. pose proof (zo_top _ _ _ _ _ Hok) as Ht. pose proof (zo_few _ _ _ _ _ Hok) as Hfew.
  assert (Hg : guides w (llo ++ lhi) (length llo) (fun _ _ _ => precedes s e (fun c => c <? 0))
    (fun i r x => let* n := get_span x i in ret (u32 (r + n))) Z.of_nat).
  { apply (guides_counting T w z llo lhi U _ _ _ (fun it => ltl (ikey it) (okey s e))); [done| |done|done|].
    - intros it Hit. by apply (precedes_lt T w z (llo ++ lhi) U).
    - intros i x k k' Hk E. rewrite (bind_ret_eq _ _ _ _ _ E). unfold ret. f_equal.
      replace (Z.of_nat k + (Z.of_nat k' - Z.of_nat k)) with (Z.of_nat k') by lia. apply u32_id.
      unfold is_u32, zlen in *. rewrite length_app in Hfew. lia. }
  induction n as [|n IH]; intros k x h rank upd Hn Hrank Hupd Hk Hh Hr.
  { exists rank, x, upd. split; [done|]. split; [done|]. split; [done|]. split; [intros i Hi; lia|done]. }
  cbn [for_down]. unfold insert_search at 1.
  assert (Er : (if Z.of_nat n =? zlevel z - 1 then ret 0 else get_slot rank (Z.of_nat n + 1)) w = Ret (Z.of_nat k) w).
  { rewrite (zo_level _ _ _ _ _ Hok). destruct (Z.eqb_spec (Z.of_nat n) (Z.of_nat T - 1)) as [Ez|Ez].
    - by destruct Hr as [[_ ->]|[? _]]; [|lia].
    - destruct Hr as [[? _]|[_ Hr]]; [lia|]. replace (Z.of_nat n + 1) with (Z.of_nat (Datatypes.S n)) by lia. by apply get_slot_eq. }
  destruct (walk_level_ok T w z llo lhi U Hok _ _ _ Hg n k x h) as (x1 & k1 & E1 & Hs1); [lia|done|lia|].
  rewrite bind_assoc, (bind_ret_eq _ _ _ _ _ Er), bind_assoc, (bind_ret_eq _ _ _ _ _ E1).
  rewrite bind_assoc, (bind_ret_eq _ _ _ _ _ (put_slot_eq w rank n (Z.of_nat k1) ltac:(lia))).
  rewrite bind_assoc, (bind_ret_eq _ _ _ _ _ (put_slot_eq w upd n x1 ltac:(lia))).
  destruct (spot_lower _ _ _ _ Hs1) as (h1 & Hk1 & Hh1).
  destruct (IH k1 x1 h1 (<[n := Some (Z.of_nat k1)]> rank) (<[n := Some x1]> upd)) as (rank' & x' & upd' & E & Hlr & Hlu & Hrk & Hrest);
    [lia|by rewrite length_insert..|done|lia|right; split; [lia|apply list_lookup_insert_eq; lia]|].
  exists rank', x', upd'. split; [exact E|]. split; [done|]. split; [done|]. split.
  - intros i Hi. destruct (decide (i = n)) as [->|Hne]; [|apply Hrk; lia]. exists x1, k1.
    destruct (Hrest n ltac:(lia)) as [-> ->]. by rewrite !list_lookup_insert_eq by lia.
  - intros i Hi. destruct (Hrest i ltac:(lia)) as [-> ->]. by rewrite !list_lookup_insert_ne by lia.
Qed.

(** ** The level of a new node *)

(** Among any [luck] numbers in a row, one ends the draw: it is not below a quarter of
    the range. *)
Class Lucky (random : nat -> Z) (luck : nat) : Prop := {
  lucky : forall d, exists j, (j < luck)%nat /\ 16384 <= Z.land (random (d + j)%nat) 65535;
  luck_int : Z.of_nat luck < 2147483648
}.

Section level.
Context (random : nat -> Z) (luck : nat) `{Lucky random luck}.

Lemma level_loop n : forall d lvl w, (exists j, (j < n)%nat /\ 16384 <= Z.land (random (d + j)%nat) 65535) ->
  1 <= lvl -> lvl + Z.of_nat n <= 2147483648 -> draws w = d ->
  exists lvl' d', while_loop n (level_turn random) lvl w = Ret lvl' (with_draws d' w) /\ 1 <= lvl'.
Proof.
  induction n as [|n IH]; intros d lvl w (j & Hj & Hbig) Hl Hn Hd; [lia|]. cbn [while_loop]. unfold level_turn at 1, bind at 1.
  rewrite Hd. destruct (Z.ltb_spec (4 * Z.land (random d) 65535) 65535) as [Hs|Hs].
  - destruct j as [|j]; [rewrite Nat.add_0_r in Hbig; lia|]. assert (Ei : i32 (lvl + 1) = lvl + 1) by (unfold i32; rewrite Z.mod_small by lia; lia).
    destruct (IH (Datatypes.S d) (i32 (lvl + 1)) (with_draws (Datatypes.S d) w)) as (lvl' & d' & E & Hl').
    + exists j. split; [lia|]. by rewrite Nat.add_succ_comm.
    + lia.
    + lia.
    + done.
    + exists lvl', d'. by rewrite E.
  - by exists lvl, (Datatypes.S d).
Qed.

Lemma zslRandomLevel_ok w : exists ht d, zslRandomLevel random luck w = Ret (Z.of_nat ht) (with_draws d w) /\ (1 <= ht <= 64)%nat.
Proof.
  destruct (level_loop luck (draws w) 1 w (lucky (draws w))) as (lvl & d & E & Hl); [lia|pose proof luck_int; lia|done|].
  exists (Z.to_nat (if lvl <? ZSKIPLIST_MAXLEVEL then lvl else ZSKIPLIST_MAXLEVEL)), d. unfold zslRandomLevel, ZSKIPLIST_MAXLEVEL.
  rewrite (bind_ret_eq _ _ _ _ _ E). destruct (Z.ltb_spec lvl 64); (split; [unfold ret; f_equal; lia|lia]).
Qed.
End level.

(** ** More levels *)

(** The same list in a world that differs in nothing a skip list is made of. *)
Lemma zsl_inv_same T w w' z l U : zsl_inv T w z l U -> zsl w' = zsl w -> nodes w' = nodes w -> zbrk w' = zbrk w -> zsl_inv T w' z l U.
Proof. intros [H1 H2 H3 H4 H5 H6 H7 H8 H9 H10 H11 H12 H13 H14] E1 E2 E3. by split; rewrite ?E1, ?E2, ?E3. Qed.

Lemma zsl_inv_links T T' w w' z z' l U : zsl_inv T w z l U -> same_core (nodes w) (nodes w') -> zbrk w' = zbrk w ->
  zsl w' = Some z' -> header z' = header z -> tail z' = tail z -> zlength z' = zlength z -> zlevel z' = Z.of_nat T' ->
  (top l <= T' <= 64)%nat -> (forall i, (i < T')%nat -> linked (nodes w') i (towers z l) NIL) ->
  (forall i, (T' <= i < 64)%nat -> exists s, cell_at (nodes w') (header z) i = Some (full (None, s))) -> zsl_inv T' w' z' l U.
Proof.
  intros [H1 H2 H3 H4 H5 H6 H7 H8 H9 H10 H11 H12 H13 H14] Hc Eb Ez Eh Et El Elv HT Hlink Habove.
  split; unfold towers, used_by in *; rewrite ?Eh, ?Et, ?El; try done.
  - by rewrite (same_core_dom _ _ Hc).
  - by rewrite Eb.
  - by rewrite (Hc (header z)).
  - eapply fields_frame; [|exact H12]. intros p _. apply Hc.
Qed.

(** The levels that a high node adds start at the header and end nowhere. *)
Section raise.
Context T w z l U (Hok : zsl_inv T w z l U) (ht : nat) (Hht : (ht <= 64)%nat).
Context (rank0 : list (option Z)) (update0 : list (option positive)).
Hypothesis Hlr : length rank0 = 64%nat.
Hypothesis Hlu : length update0 = 64%nat.

(** After the levels from [T] to [i]. *)
Definition raised (i : Z) (a : list (option Z) * list (option positive)) (w' : zworld) : Prop :=
  let '(rank, update) := a in
  exists N, w' = with_nodes N w /\ same_core (nodes w) N /\ length rank = 64%nat /\ length update = 64%nat /\
    (forall j, (j < T)%nat -> update !! j = update0 !! j /\ rank !! j = rank0 !! j) /\
    (forall j, (T <= j)%nat -> Z.of_nat j < i -> update !! j = Some (Some (header z)) /\ rank !! j = Some (Some 0)) /\
    (forall q j, q <> header z \/ (j < T)%nat \/ i <= Z.of_nat j -> cell_at N q j = cell_at (nodes w) q j) /\
    (forall j, (T <= j)%nat -> Z.of_nat j < i -> cell_at N (header z) j = Some (full (None, zlen l))).

Lemma raise_level_ok j a w' : Z.of_nat T <= j < Z.of_nat ht -> raised j a w' -> wp (raise_level j a) (raised (j + 1)) w'.
Proof.
  intros Hj. destruct a as [rank update]. intros (N & -> & Hc & L1 & L2 & H1 & H2 & H3 & H4).
  assert (Hjn : j = Z.of_nat (Z.to_nat j)) by lia. set (n := Z.to_nat j) in *. rewrite Hjn.
  unfold raise_level. assert (Ez : the_zsl (with_nodes N w) = Ret z (with_nodes N w)).
  { unfold the_zsl. cbn. by rewrite (zo_zsl _ _ _ _ _ Hok). }
  destruct (zo_above _ _ _ _ _ Hok n ltac:(lia)) as [s Hs].
  assert (Hcell : cell_at (nodes (with_nodes N w)) (header z) n = Some (full (None, s))).
  { cbn. rewrite H3 by lia. done. }
  eapply wp_eq.
  { rewrite (bind_ret_eq _ _ _ _ _ Ez). rewrite (bind_ret_eq _ _ _ _ _ (put_slot_eq _ rank n 0 ltac:(lia))).
    rewrite (bind_ret_eq _ _ _ _ _ (put_slot_eq _ update n (header z) ltac:(lia))).
    rewrite (bind_ret_eq _ _ _ _ _ (set_span_eq _ (header z) n _ _ Hcell)). reflexivity. }
  cbn [nodes with_nodes forward full fst].
  assert (Hlen : u64 (zlength z) = zlen l).
  { rewrite (zo_length _ _ _ _ _ Hok). pose proof (zo_few _ _ _ _ _ Hok). pose proof (zlen_nonneg l). apply Z.mod_small. lia. }
  rewrite Hlen. eexists. split; [reflexivity|]. split; [etransitivity; [exact Hc|apply same_core_put]|].
  rewrite !length_insert. split; [done|]. split; [done|]. split; [|split; [|split]].
  - intros i Hi. rewrite !list_lookup_insert_ne by lia. by apply H1.
  - intros i Hi Hin. destruct (decide (i = n)) as [->|Hne]; [by rewrite !list_lookup_insert_eq by lia|].
    rewrite !list_lookup_insert_ne by done. apply H2; lia.
  - intros q i Hq. rewrite cell_put_ne by (destruct Hq as [?|?]; [by left|right; lia]). apply H3. destruct Hq as [?|Hq]; [by left|right; lia].
  - intros i Hi Hin. destruct (decide (i = n)) as [->|Hne]; [by apply (cell_put_eq _ _ _ _ _ Hcell)|].
    rewrite cell_put_ne by by right. apply H4; lia.
Qed.
End raise.

(** What an operation of the skip list leaves alone. *)
Definition aside w w' : Prop := zdict w' = zdict w /\ zfreed w' = zfreed w.
#[export] Instance aside_preorder : PreOrder aside.
Proof. split; [done|]. intros w1 w2 w3 [H1 H2] [H3 H4]. split; congruence. Qed.

Lemma header_level N z l i : Forall (short i) (tower_of <$> l) -> (i < 64)%nat ->
  cell_at N (header z) i = Some (full (None, zlen l)) -> linked N i (towers z l) NIL.
Proof.
  intros Hs Hi Hc. split; [|by apply linked_short]. intros _. rewrite hop_short, zlen_fmap by done. done.
Qed.
Lemma spot_header z l i : Forall (short i) (tower_of <$> l) -> (i < 64)%nat -> spot i (towers z l) (header z) 0.
Proof. intros Hs Hi. by exists [], 64%nat, (tower_of <$> l). Qed.

Lemma raise_ok T w z llo lhi U ht rank update : zsl_inv T w z (llo ++ lhi) U -> (ht <= 64)%nat -> length rank = 64%nat ->
  length update = 64%nat -> ranked z llo T rank update -> exists rank' update' w' z',
  (if zlevel z <? Z.of_nat ht then
     let* a := for_loop (Z.to_nat (Z.of_nat ht - zlevel z)) (zlevel z) raise_level (rank, update) in
     upd_zsl (with_zlevel (Z.of_nat ht)) ;;; ret a
   else ret (rank, update)) w = Ret (rank', update') w' /\
  zsl_inv (Nat.max T ht) w' z' (llo ++ lhi) U /\ header z' = header z /\ ranked z llo (Nat.max T ht) rank' update' /\
  zbrk w' = zbrk w /\ aside w w'.
Proof.
  intros Hok Hht Hlr Hlu Hrk. rewrite (zo_level _ _ _ _ _ Hok). pose proof (zo_top _ _ _ _ _ Hok) as HT.
  destruct (Z.ltb_spec (Z.of_nat T) (Z.of_nat ht)) as [Hlt|Hge].
  2: { exists rank, update, w, z. rewrite Nat.max_l by lia. done. }
  assert (Hwp : wp (for_loop (Z.to_nat (Z.of_nat ht - Z.of_nat T)) (Z.of_nat T) raise_level (rank, update))
    (raised T w z (llo ++ lhi) rank update (Z.of_nat T + Z.of_nat (Z.to_nat (Z.of_nat ht - Z.of_nat T)))) w).
  { apply wp_for.
    - exists (nodes w). split; [by destruct w|]. split; [done|]. do 3 (split; [done|]). split; [lia|]. split; [done|lia].
    - intros j a w' Hj. eapply raise_level_ok; [exact Hok|done..|lia]. }
  apply wp_inv in Hwp as ([rank' update'] & w' & E & (N & -> & Hc & _ & _ & H1 & H2 & H3 & H4)).
  replace (Z.of_nat T + _) with (Z.of_nat ht) in * by lia. rewrite (bind_ret_eq _ _ _ _ _ E).
  exists rank', update'. do 2 eexists. split; [|split; [|split; [|split; [|split]]]].
  - unfold upd_zsl, the_zsl, bind, get, put. cbn. rewrite (zo_zsl _ _ _ _ _ Hok). reflexivity.
  - rewrite Nat.max_r by lia. eapply zsl_inv_links; [exact Hok|done..| | |].
    + lia.
    + intros i Hi. cbn [nodes with_nodes with_zsl]. destruct (decide (i < T)%nat) as [HiT|HiT].
      * eapply linked_frame; [|by apply (zo_linked _ _ _ _ _ Hok)]. intros p _. apply H3. by right; left.
      * apply header_level; [apply top_short; lia|lia|]. apply H4; lia.
    + intros i Hi. destruct (zo_above _ _ _ _ _ Hok i ltac:(lia)) as [s Hs]. exists s. cbn [nodes with_nodes with_zsl].
      rewrite H3 by lia. done.
  - done.
  - intros i Hi. destruct (decide (i < T)%nat) as [HiT|HiT].
    + destruct (H1 i HiT) as [-> ->]. by apply Hrk.
    + destruct (H2 i ltac:(lia) ltac:(lia)) as [-> ->]. exists (header z), 0%nat. split; [done|]. split; [done|].
      apply spot_header; [|lia]. apply top_short. rewrite top_app in HT. lia.
  - done.
  - done.
Qed.

(** ** Creating the node *)
Lemma create_node_ok T w z l U ht s e : zsl_inv T w z l U -> (ht <= 64)%nat -> exists x w',
  zslCreateNode (Z.of_nat ht) s (Some e) w = Ret x w' /\ zsl_inv T w' z l (x :: U) /\ aside w w' /\
  (exists n, nodes w' !! x = Some n /\ ele n = Some e /\ score n = s /\ length (level n) = ht /\
     forall i, (i < ht)%nat -> cell_at (nodes w') x i = Some {| forward := None; span := None |}) /\
  x ∉ used_by z l U.
Proof.
  intros Hok Hht. exists (zbrk w). eexists. split; [reflexivity|].
  assert (Hnew : zbrk w ∉ used_by z l U).
  { intros Hin. pose proof (zo_brk _ _ _ _ _ Hok) as Hb. rewrite Forall_forall in Hb. specialize (Hb _ Hin). lia. }
  assert (Hcells : forall p i, p ∈ used_by z l U -> forall n, cell_at (<[zbrk w := n]> (nodes w)) p i = cell_at (nodes w) p i).
  { intros p i Hp n. unfold cell_at. rewrite lookup_insert_ne; [done|]. by intros <-. }
  assert (HU : used_by z l (zbrk w :: U) ≡ₚ zbrk w :: used_by z l U) by (unfold used_by; solve_Permutation).
  destruct Hok as [H1 H2 H3 H4 H5 H6 H7 H8 H9 H10 H11 H12 H13 H14].
  split; [|split; [done|split; [|done]]].
  - split; cbn [nodes zsl zbrk with_nodes with_zbrk with_zsl]; try done.
    + rewrite HU. by constructor.
    + rewrite dom_insert_L, H9. apply set_eq. intros p. rewrite elem_of_union, elem_of_singleton, !elem_of_list_to_set, HU. set_solver.
    + rewrite HU. constructor; [lia|]. eapply Forall_impl; [exact H10|]. cbn. lia.
    + rewrite lookup_insert_ne; [done|]. intros Ep. apply Hnew. rewrite Ep. by left.
    + eapply fields_frame; [|exact H12]. intros p Hp. rewrite lookup_insert_ne; [done|]. intros Ep. apply Hnew. rewrite Ep.
      right. apply elem_of_app. by left.
    + intros i Hi. eapply linked_frame; [|by apply H13]. intros p Hp. apply Hcells. rewrite towers_addrs in Hp.
      apply elem_of_cons in Hp as [->|Hp]; [by left|]. right. apply elem_of_app. by left.
    + intros i Hi. destruct (H14 i Hi) as [v Hv]. exists v. by rewrite Hcells by by left.
  - eexists. split; [cbn; by rewrite lookup_insert_eq|]. split; [done|]. split; [done|]. cbn [level].
    rewrite length_replicate. split; [lia|]. intros i Hi. unfold cell_at. cbn [nodes with_nodes with_zbrk].
    rewrite lookup_insert_eq. cbn. apply lookup_replicate_2. lia.
Qed.

(** ** Splicing the levels *)
Lemma link_level_ok w lo hi x ht i u k rank update cx : (i < ht)%nat -> spot i lo u k ->
  update !! i = Some (Some u) -> rank !! i = Some (Some (Z.of_nat k)) -> rank !! 0%nat = Some (Some (zlen lo - 1)) ->
  linked (nodes w) i (lo ++ hi) NIL -> NoDup (x :: (lo ++ hi).*1) -> cell_at (nodes w) x i = Some cx -> zlen (lo ++ hi) < 2 ^ 32 ->
  exists N, link_level x rank update (Z.of_nat i) w = Ret tt (with_nodes N w) /\ level_only i (nodes w) N /\
    linked N i (lo ++ (x, ht) :: hi) NIL.
Proof.
  intros Hht Hsp Hu Hr Hr0 Hl Hnd Hx Hfew. pose proof (spot_elem _ _ _ _ Hsp) as Hin. apply NoDup_cons in Hnd as [Hx' Hnd].
  destruct (spot_gap _ _ _ _ Hsp) as (a & h & c & -> & Hh & Hc & -> & Hgap).
  rewrite <- app_assoc in Hl, Hx', Hnd, Hfew |- *. cbn [app] in Hl, Hx', Hnd, Hfew |- *.
  assert (Hne : u <> x) by (intros ->; apply Hx'; rewrite fmap_app; apply elem_of_app; right; by left).
  pose proof (linked_at _ _ _ _ _ _ _ Hl Hh) as Hcu. rewrite hop_app, hop_short in Hcu by done.
  pose proof (hop_bound i hi NIL ltac:(done)) as Hb. destruct (hop i hi NIL) as [q n0] eqn:Eh. cbn [fst snd] in Hcu, Hb.
  rewrite zlen_app, zlen_cons, zlen_app in Hfew. pose proof (zlen_nonneg a). pose proof (zlen_nonneg c).
  rewrite zlen_app, zlen_cons in Hr0. unfold NIL in Hb. cbn in Hb. fold (@zlen tower a) in *.
  unfold link_level. rewrite (bind_ret_eq _ _ _ _ _ (get_slot_eq w _ _ _ Hu)), (bind_ret_eq _ _ _ _ _ (get_forward_eq w u i _ q Hcu eq_refl)).
  rewrite (bind_ret_eq _ _ _ _ _ (set_forward_eq w x i cx q Hx)). set (N1 := put_cell x i _ (nodes w)).
  assert (H1 : cell_at (nodes (with_nodes N1 w)) u i = Some (full (q, n0 + zlen c))) by (cbn; unfold N1; by rewrite cell_put_ne by by left).
  rewrite (bind_ret_eq _ _ _ _ _ (set_forward_eq _ u i _ (Some x) H1)). cbn [nodes with_nodes]. set (N2 := put_cell u i _ N1).
  assert (H2 : cell_at (nodes (with_nodes N2 (with_nodes N1 w))) u i = Some {| forward := Some (Some x); span := Some (n0 + zlen c) |})
    by (cbn; eapply cell_put_eq, H1).
  assert (H2x : cell_at N2 x i = Some {| forward := Some q; span := span cx |}).
  { unfold N2. rewrite cell_put_ne by by left. by eapply cell_put_eq. }
  change (with_nodes N2 (with_nodes N1 w)) with (with_nodes N2 w) in *.
  rewrite (bind_ret_eq _ _ _ _ _ (get_slot_eq _ rank 0%nat _ Hr0)), (bind_ret_eq _ _ _ _ _ (get_slot_eq _ _ _ _ Hr)).
  rewrite (bind_ret_eq _ _ _ _ _ (get_span_eq _ u i _ _ H2 eq_refl)).
  rewrite (bind_ret_eq _ _ _ _ _ (set_span_eq (with_nodes N2 w) x i _ _ H2x)). cbn [nodes with_nodes forward].
  replace (u32 (zlen a + (1 + zlen c) - 1 - zlen a)) with (zlen c) by (rewrite u32_id by (unfold is_u32; lia); lia).
  replace (n0 + zlen c - zlen c) with n0 by lia. set (N3 := put_cell x i _ N2).
  assert (H3 : cell_at (nodes (with_nodes N3 (with_nodes N2 w))) u i = Some {| forward := Some (Some x); span := Some (n0 + zlen c) |}).
  { cbn. unfold N3. by rewrite cell_put_ne by by left. }
  rewrite (set_span_eq _ u i _ _ H3). cbn [nodes with_nodes forward].
  assert (Eu : u64 (u32 (zlen c + 1)) = zlen c + 1).
  { rewrite u32_id by (unfold is_u32; lia). apply Z.mod_small. lia. }
  assert (En : u64 n0 = n0) by (apply Z.mod_small; lia). rewrite Eu.
  eexists. split; [reflexivity|]. split.
  { etransitivity; [apply (level_only_put x)|]. etransitivity; [apply (level_only_put u)|].
    etransitivity; [apply (level_only_put x)|]. apply level_only_put. }
  apply (relink (nodes w) _ i a u h c [] [(x, ht)] hi NIL); [done|done|done| | |].
  - intros p Hp. assert (p <> u /\ p <> x) as [Hpu Hpx].
    { rewrite fmap_app in Hx', Hnd. cbn in Hx', Hnd. split.
      - intros ->. apply NoDup_app in Hnd as (_ & Hnd & Hnd'). destruct Hp as [Hp|Hp]; [apply (Hnd u Hp); by left|].
        apply NoDup_cons in Hnd' as [Hnd' _]. apply Hnd'. rewrite fmap_app. apply elem_of_app. by right.
      - intros ->. apply Hx'. destruct Hp as [Hp|Hp]; apply elem_of_app; [by left|right; right]. rewrite fmap_app. apply elem_of_app. by right. }
    unfold N3, N2, N1. by rewrite !cell_put_ne by by left.
  - cbn [app]. rewrite hop_over by done. by apply (cell_put_eq _ _ _ _ _ H3).
  - split; [|done]. intros _. cbn [hop]. rewrite cell_put_ne by by left; congruence. 
    rewrite Eh. unfold N3. rewrite (cell_put_eq _ _ _ _ _ H2x), En. done.
Qed.

Lemma widen_level_ok w lo hi x ht i u k update : (ht <= i)%nat -> spot i lo u k -> update !! i = Some (Some u) ->
  linked (nodes w) i (lo ++ hi) NIL -> NoDup (x :: (lo ++ hi).*1) -> zlen (lo ++ hi) < 2 ^ 32 ->
  exists N, widen_level update (Z.of_nat i) w = Ret tt (with_nodes N w) /\ level_only i (nodes w) N /\
    linked N i (lo ++ (x, ht) :: hi) NIL.
Proof.
  intros Hht Hsp Hu Hl Hnd Hfew. apply NoDup_cons in Hnd as [_ Hnd].
  destruct (spot_gap _ _ _ _ Hsp) as (a & h & c & -> & Hh & Hc & -> & Hgap).
  rewrite <- app_assoc in Hl, Hnd, Hfew |- *. cbn [app] in Hl, Hnd, Hfew |- *.
  pose proof (linked_at _ _ _ _ _ _ _ Hl Hh) as Hcu. pose proof (hop_bound i (c ++ hi) NIL ltac:(done)) as Hb.
  rewrite zlen_app, zlen_cons in Hfew. pose proof (zlen_nonneg a). cbn [snd NIL] in Hb.
  unfold widen_level. rewrite (bind_ret_eq _ _ _ _ _ (get_slot_eq w _ _ _ Hu)), (bind_ret_eq _ _ _ _ _ (get_span_eq w u i _ _ Hcu eq_refl)).
  rewrite (set_span_eq w u i _ _ Hcu). eexists. split; [reflexivity|]. split; [apply level_only_put|].
  assert (Hs : short i (x, ht)) by done.
  apply (relink (nodes w) _ i a u h c [] [(x, ht)] hi NIL); [done|done|done| | |].
  - intros p Hp. apply cell_put_ne. left. rewrite fmap_app in Hnd. cbn in Hnd. apply NoDup_app in Hnd as (_ & Hnd & Hnd'). intros ->.
    destruct Hp as [Hp|Hp]; [apply (Hnd u Hp); by left|].
    apply NoDup_cons in Hnd' as [Hnd' _]. apply Hnd'. rewrite fmap_app. apply elem_of_app. by right.
  - rewrite (cell_put_eq _ _ _ _ _ Hcu). unfold full. cbn [forward fst snd]. rewrite u64_id by lia.
    rewrite !hop_app, (hop_short i c), (hop_short i [(x, ht)]) by (done || by constructor). rewrite (hop_short i c) by done.
    cbn [fst snd]. do 3 f_equal. unfold zlen. cbn. lia.
  - apply linked_short. by constructor.
Qed.

(** ** A loop over the levels *)

(** Below level [j] the list is [m] already; the other levels, those of the nodes [keep] and the
    rest of the nodes are as in [w]. *)
Definition reaching (keep : positive -> Prop) w (m : list tower) (j : Z) (_ : unit) w' : Prop :=
  exists N, w' = with_nodes N w /\ same_core (nodes w) N /\ (forall i, Z.of_nat i < j -> linked N i m NIL) /\
    (forall q i, j <= Z.of_nat i \/ keep q -> cell_at N q i = cell_at (nodes w) q i).

Lemma reaching_start keep w m : reaching keep w m 0 tt w.
Proof. exists (nodes w). split; [by destruct w|]. split; [done|]. split; [lia|done]. Qed.
Lemma reaching_step keep w m body w' (i : nat) : reaching keep w m (Z.of_nat i) tt w' ->
  (forall N, w' = with_nodes N w -> same_core (nodes w) N -> (forall q, cell_at N q i = cell_at (nodes w) q i) ->
     exists N', body w' = Ret tt (with_nodes N' w') /\ level_only i N N' /\ linked N' i m NIL /\
       forall q, keep q -> cell_at N' q i = cell_at N q i) ->
  wp body (fun a => reaching keep w m (Z.of_nat i + 1) a) w'.
Proof.
  intros (N & Ew & Hc & Hlow & Hhigh) Hbody. destruct (Hbody N Ew Hc) as (N' & E & [Hc' Hlev] & Hl & Hk).
  { intros q. apply Hhigh. lia. }
  eapply wp_eq; [exact E|]. subst w'. exists N'. split; [done|]. split; [by etransitivity|]. split.
  - intros j Hj. destruct (decide (j = i)) as [->|Hne]; [done|]. eapply linked_frame; [|apply Hlow; lia].
    intros p _. by apply Hlev.
  - intros q j Hj. rewrite <- Hhigh by (destruct Hj; [left; lia|by right]).
    destruct (decide (j = i)) as [->|Hne]; [|by apply Hlev]. destruct Hj as [Hj|Hj]; [lia|]. by apply Hk.
Qed.

Lemma no_keep (R : _ -> Prop) i N m (C : gmap positive zskiplistNode -> positive -> Prop) :
  (exists N', R N' /\ level_only i N N' /\ linked N' i m NIL) ->
  exists N', R N' /\ level_only i N N' /\ linked N' i m NIL /\ forall q, False -> C N' q.
Proof. intros (N' & H1 & H2 & H3). by exists N'. Qed.

(** ** Backward links *)
Lemma cell_at_fields N p n n' q i : N !! p = Some n -> level n' = level n -> cell_at (<[p := n']> N) q i = cell_at N q i.
Proof.
  intros Hn E. unfold cell_at. destruct (decide (q = p)) as [->|Hq]; [|by rewrite lookup_insert_ne].
  rewrite lookup_insert_eq, Hn. cbn. by rewrite E.
Qed.

(** The first of the nodes [lhi] gets a new predecessor, or the list a new end. *)
Lemma set_backward_ok w z prev b lhi : zsl w = Some z -> fields (nodes w) prev lhi -> NoDup (iaddr <$> lhi) ->
  tail z = last_addr prev lhi -> exists N z', set_backward_or_tail (first_addr lhi) b w = Ret tt (with_zsl (Some z') (with_nodes N w)) /\
    fields N b lhi /\ (forall q i, cell_at N q i = cell_at (nodes w) q i) /\ (forall q, q ∉ iaddr <$> lhi -> core <$> N !! q = core <$> nodes w !! q) /\
    dom N = dom (nodes w) /\ z' = with_tail (last_addr b lhi) z.
Proof.
  intros Hz Hf Hnd Ht. destruct lhi as [|it lhi].
  - exists (nodes w), (with_tail b z). split; [|done]. unfold set_backward_or_tail, upd_zsl, the_zsl, bind, get, put. cbn. rewrite Hz. by destruct w.
  - destruct Hf as [Hit Hf]. destruct (nodes w !! iaddr it) as [n|] eqn:Hn; [|done]. cbn in Hit.
    exists (<[iaddr it := with_backward b n]> (nodes w)), z. apply NoDup_cons in Hnd as [Hnd _]. split.
    { cbn. rewrite (upd_node_eq w _ n _ Hn). f_equal. unfold with_zsl, with_nodes. cbn. by rewrite Hz. }
    split; [|split; [|split; [|split]]].
    + split; [rewrite lookup_insert_eq; cbn; unfold core in *; cbn in *; congruence|].
      eapply fields_frame; [|exact Hf]. intros p Hp. rewrite lookup_insert_ne; [done|]. by intros <-.
    + intros q i. by apply (cell_at_fields _ _ n).
    + intros q Hq. rewrite lookup_insert_ne; [done|]. intros <-. apply Hq. by left.
    + by apply dom_insert_lookup_L.
    + rewrite last_addr_cons in Ht |- *. rewrite <- Ht. by destruct z.
Qed.

(** ** [zslInsert] *)
Lemma ranked_spots z llo T rank update : ranked z llo T rank update -> spots z llo T update.
Proof. intros Hr i Hi. destruct (Hr i Hi) as (x & k & Hu & _ & Hs). by exists x, k. Qed.

(** In level 0, the last node of [llo] is its last. *)
Lemma spot_zero z llo x k : Forall (fun it => 1 <= iheight it <= 64)%nat llo -> spot 0 (towers z llo) x k ->
  k = length llo /\ Some x = last_addr (Some (header z)) llo.
Proof.
  intros Hh (a & h & c & Ea & _ & Hc & ->). assert (c = []) as ->.
  { destruct c as [|t c]; [done|]. apply Forall_cons in Hc as [Ht _]. assert (Hin : t ∈ tower_of <$> llo).
    { unfold towers in Ea. destruct a as [|? a]; [injection Ea as _ _ Ea|injection Ea as _ Ea]; rewrite Ea; [by left|].
      apply elem_of_app. right. apply elem_of_cons. right. by left. }
    apply list_elem_of_fmap in Hin as (it & -> & Hit). rewrite Forall_forall in Hh. specialize (Hh it Hit). unfold short in Ht. cbn in Ht. lia. }
  split.
  - pose proof (f_equal length Ea) as Hl. unfold towers in Hl. rewrite length_app in Hl. cbn in Hl. rewrite length_fmap in Hl. lia.
  - destruct llo as [|it llo _] using rev_ind.
    + unfold towers in Ea. destruct a as [|? a]; [by injection Ea as -> _|]. apply (f_equal length) in Ea. cbn in Ea. rewrite length_app in Ea. cbn in Ea. lia.
    + rewrite last_addr_snoc. unfold towers in Ea. rewrite fmap_app in Ea.
      apply (app_inj_tail ((header z, 64%nat) :: (tower_of <$> llo)) a (tower_of it)) in Ea as [_ [= <- _]]. done.
Qed.

Lemma used_nodup z l U x : NoDup (used_by z l (x :: U)) -> NoDup (x :: (towers z l).*1).
Proof.
  rewrite towers_addrs. unfold used_by. intros H.
  assert (HP : header z :: (iaddr <$> l) ++ x :: U ≡ₚ (x :: header z :: (iaddr <$> l)) ++ U) by solve_Permutation.
  rewrite HP in H. by apply NoDup_app in H as [H _].
Qed.

Lemma splice_levels_ok T w z llo lhi U x ht rank update : zsl_inv T w z (llo ++ lhi) (x :: U) -> (1 <= ht <= T)%nat ->
  ranked z llo T rank update -> zlen (llo ++ lhi) + 1 < 2 ^ 32 ->
  (forall i, (i < ht)%nat -> cell_at (nodes w) x i = Some {| forward := None; span := None |}) ->
  exists w1 N, for_loop (Z.to_nat (Z.of_nat ht)) 0 (fun i _ => link_level x rank update i) tt w = Ret tt w1 /\ the_zsl w1 = Ret z w1 /\
    for_loop (Z.to_nat (zlevel z - Z.of_nat ht)) (Z.of_nat ht) (fun i _ => widen_level update i) tt w1 = Ret tt (with_nodes N w) /\
    same_core (nodes w) N /\ (forall i, (i < T)%nat -> linked N i (towers z llo ++ (x, ht) :: (tower_of <$> lhi)) NIL) /\
    (forall q i, (T <= i)%nat -> cell_at N q i = cell_at (nodes w) q i).
Proof.
  intros Hok Hht Hrk Hfew Hx. set (m := towers z llo ++ (x, ht) :: (tower_of <$> lhi)).
  pose proof (used_nodup _ _ _ _ (zo_addrs _ _ _ _ _ Hok)) as Hnd. rewrite towers_app in Hnd.
  assert (Hlen : zlen (towers z llo ++ (tower_of <$> lhi)) < 2 ^ 32) by (rewrite <- towers_app, zlen_towers; lia).
  assert (Hr0 : rank !! 0%nat = Some (Some (zlen (towers z llo) - 1))).
  { destruct (Hrk 0%nat ltac:(lia)) as (x0 & k0 & _ & Hr & Hs). pose proof (zo_heights _ _ _ _ _ Hok) as Hh. apply Forall_app in Hh as [Hh _].
    destruct (spot_zero _ _ _ _ Hh Hs) as [-> _]. rewrite Hr, zlen_towers. do 2 f_equal. unfold zlen. lia. }
  assert (Hold : forall i N, (i < T)%nat -> (forall q, cell_at N q i = cell_at (nodes w) q i) ->
    linked N i (towers z llo ++ (tower_of <$> lhi)) NIL).
  { intros i N Hi Hf. eapply linked_frame; [intros p _; apply Hf|]. rewrite <- towers_app. by apply Hok. }
  assert (H1 : wp (for_loop (Z.to_nat (Z.of_nat ht)) 0 (fun i _ => link_level x rank update i) tt)
    (reaching (fun _ => False) w m (0 + Z.of_nat (Z.to_nat (Z.of_nat ht)))) w).
  { apply wp_for; [apply reaching_start|]. intros j [] w' Hj Hre. rewrite <- (Z2Nat.id j) in * by lia. apply (reaching_step _ w m _ w' _ Hre).
    intros N -> Hc Hf. destruct (Hrk (Z.to_nat j) ltac:(lia)) as (u & k & Hu & Hr & Hs).
    apply no_keep. eapply link_level_ok; [lia|exact Hs|done|done|done| |done| |done]; cbn [nodes with_nodes]; [apply Hold; [lia|done]|].
    rewrite Hf. apply Hx. lia. }
  apply wp_inv in H1 as ([] & w1 & E1 & Hre1). exists w1.
  assert (Ez : the_zsl w1 = Ret z w1).
  { destruct Hre1 as (N & -> & _). unfold the_zsl. cbn. by rewrite (zo_zsl _ _ _ _ _ Hok). }
  rewrite (zo_level _ _ _ _ _ Hok).
  assert (H2 : wp (for_loop (Z.to_nat (Z.of_nat T - Z.of_nat ht)) (Z.of_nat ht) (fun i _ => widen_level update i) tt)
    (reaching (fun _ => False) w m (Z.of_nat ht + Z.of_nat (Z.to_nat (Z.of_nat T - Z.of_nat ht)))) w1).
  { apply wp_for.
    - by replace (0 + Z.of_nat (Z.to_nat (Z.of_nat ht))) with (Z.of_nat ht) in Hre1 by lia.
    - intros j [] w' Hj Hre. rewrite <- (Z2Nat.id j) in * by lia. apply (reaching_step _ w m _ w' _ Hre).
      intros N -> Hc Hf. destruct (Hrk (Z.to_nat j) ltac:(lia)) as (u & k & Hu & Hr & Hs).
      apply no_keep. eapply widen_level_ok; [lia|exact Hs|done| |done|done]. apply Hold; [lia|done]. }
  apply wp_inv in H2 as ([] & w2 & E2 & (N & -> & Hc & Hlow & Hhigh)). exists N. do 4 (split; [done|]). split.
  - intros i Hi. apply Hlow. lia.
  - intros q i Hi. apply Hhigh. lia.
Qed.

Lemma last_addr_header z llo lhi U u : NoDup (used_by z (llo ++ lhi) U) -> Some u = last_addr (Some (header z)) llo ->
  (if (u =? header z)%positive then None else Some u) = last_addr None llo.
Proof.
  intros Hnd Hu. destruct llo as [|it llo _] using rev_ind; [cbn in Hu; injection Hu as ->; by rewrite Pos.eqb_refl|].
  rewrite last_addr_snoc in Hu |- *. injection Hu as ->. rewrite (proj2 (Pos.eqb_neq _ _)); [done|]. intros E.
  apply NoDup_cons in Hnd as [Hnd _]. apply Hnd. rewrite <- E, !fmap_app. apply elem_of_app. left. apply elem_of_app. left.
  apply elem_of_app. right. by left.
Qed.

(** The addresses of the list with the new node, and of the nodes on either side of it. *)
Lemma used_insert z llo lhi U it : used_by z (llo ++ it :: lhi) U ≡ₚ used_by z (llo ++ lhi) (iaddr it :: U).
Proof. unfold used_by. rewrite !fmap_app. cbn. solve_Permutation. Qed.

(** The end of [zslInsert]: from the spliced levels in [w], with the fields of [w0]. *)
Section finish.
Context T w0 w z llo lhi U it (Hok : zsl_inv T w0 z (llo ++ lhi) (iaddr it :: U)).
Hypothesis Hfew : zlen (llo ++ lhi) + 1 < 2 ^ 32.
Hypothesis Hheight : (1 <= iheight it <= 64)%nat.
Hypothesis Htop : T = top (llo ++ it :: lhi).
Hypothesis Hrest : zsl w = zsl w0 /\ zbrk w = zbrk w0 /\ same_core (nodes w0) (nodes w).
Hypothesis Hcore : exists b, core <$> nodes w !! iaddr it = Some (Some (iele it), iscore it, b, iheight it).
Hypothesis Hlink : forall i, (i < T)%nat -> linked (nodes w) i (towers z (llo ++ it :: lhi)) NIL.
Hypothesis Habove : forall i, (T <= i < 64)%nat -> exists s, cell_at (nodes w) (header z) i = Some (full (None, s)).

Lemma new_nodup : NoDup (iaddr it :: header z :: (iaddr <$> llo) ++ (iaddr <$> lhi)).
Proof.
  pose proof (used_nodup _ _ _ _ (zo_addrs _ _ _ _ _ Hok)) as H. by rewrite towers_addrs, fmap_app in H.
Qed.

(** The fields of all nodes, behind the new links. *)
Lemma relinked_fields N1 N2 b : (forall q, q <> iaddr it -> core <$> N1 !! q = core <$> nodes w0 !! q) ->
  (forall q, q ∉ iaddr <$> lhi -> core <$> N2 !! q = core <$> N1 !! q) -> fields N2 (Some (iaddr it)) lhi ->
  core <$> N1 !! iaddr it = Some (Some (iele it), iscore it, Some b, iheight it) -> b = last_addr None llo ->
  fields N2 None (llo ++ it :: lhi) /\ core <$> N2 !! header z = Some (None, S754_zero false, Some None, 64%nat).
Proof.
  intros H1 H2 Hhi Hit ->. pose proof new_nodup as Hnd. apply NoDup_cons in Hnd as [Hx Hnd]. apply NoDup_cons in Hnd as [Hh Hnd].
  apply NoDup_app in Hnd as (_ & Hdis & _). pose proof (zo_fields _ _ _ _ _ Hok) as Hf. apply fields_app in Hf as [Hf _]. split.
  - apply fields_app. split; [|split; [|done]].
    + eapply fields_frame; [|exact Hf]. intros q Hq. rewrite H2 by by apply Hdis. apply H1. intros ->. apply Hx. right.
      apply elem_of_app. by left.
    + rewrite H2, Hit; [done|]. intros Hq. apply Hx. right. apply elem_of_app. by right.
  - rewrite H2, H1; [apply Hok| |].
    + intros E. apply Hx. rewrite <- E. by left.
    + intros Hq. apply Hh. apply elem_of_app. by right.
Qed.

Lemma insert_finish update u : update !! 0%nat = Some (Some u) -> Some u = last_addr (Some (header z)) llo ->
  exists w' z', (let* u := get_slot update 0 in
    upd_node (iaddr it) (with_backward (if (u =? header z)%positive then None else Some u)) ;;;
    let* f := get_forward (iaddr it) 0 in
    set_backward_or_tail f (Some (iaddr it)) ;;;
    upd_zsl (fun z => with_zlength (zlength z + 1) z) ;;;
    ret (iaddr it)) w = Ret (iaddr it) w' /\ zsl_ok w' z' (llo ++ it :: lhi) U /\ header z' = header z /\ aside w w'.
Proof.
  intros Hu0 Hu. destruct Hrest as (Ez & Eb & Hc), Hcore as (b & Hx). pose proof new_nodup as Hnd.
  pose proof Hok as [H1 H2 H3 H4 H5 H6 H7 H8 H9 H10 H11 H12 H13 H14].
  destruct (nodes w !! iaddr it) as [n|] eqn:Hn; [|done]. cbn in Hx.
  rewrite (bind_ret_eq _ _ _ _ _ (get_slot_eq w update 0%nat u Hu0)), (last_addr_header _ _ _ _ _ H8 Hu).
  rewrite (bind_ret_eq _ _ _ _ _ (upd_node_eq w _ n _ Hn)). set (N1 := <[iaddr it := _]> (nodes w)).
  assert (Hcells : forall q i, cell_at N1 q i = cell_at (nodes w) q i) by (intros q i; by apply (cell_at_fields _ _ n)).
  assert (Hcores : forall q, q <> iaddr it -> core <$> N1 !! q = core <$> nodes w0 !! q).
  { intros q Hq. unfold N1. rewrite lookup_insert_ne by congruence. apply Hc. }
  assert (Hf : get_forward (iaddr it) 0 (with_nodes N1 w) = Ret (first_addr lhi) (with_nodes N1 w)).
  { pose proof (Hlink 0%nat ltac:(pose proof (top_ge (llo ++ it :: lhi)); lia)) as Hl. rewrite towers_mid in Hl. apply linked_at in Hl; [|lia]. apply Forall_app in H7 as [_ H7]. rewrite (hop_zero _ H7), <- Hcells in Hl.
    apply (get_forward_eq (with_nodes N1 w) _ 0%nat _ _ Hl). by destruct lhi. }
  rewrite (bind_ret_eq _ _ _ _ _ Hf). apply fields_app in H12 as [F1 F2].
  assert (Hlhi : NoDup (iaddr <$> lhi)) by (apply NoDup_cons in Hnd as [_ Hnd]; apply NoDup_cons in Hnd as [_ Hnd]; by apply NoDup_app in Hnd as (_ & _ & Hnd)).
  destruct (set_backward_ok (with_nodes N1 w) z (last_addr None llo) (Some (iaddr it)) lhi) as (N2 & z2 & E2 & F3 & Hcells2 & Hcores2 & Hd2 & ->);
    [cbn; by rewrite Ez| |done|by rewrite H4, last_addr_app|].
  { eapply fields_frame; [|exact F2]. intros q Hq. apply Hcores. intros ->. apply NoDup_cons in Hnd as [Hnd _]. apply Hnd. right. apply elem_of_app. by right. }
  rewrite (bind_ret_eq _ _ _ _ _ E2). eexists. exists (with_zlength (zlength z + 1) (with_tail (last_addr (Some (iaddr it)) lhi) z)).
  split; [reflexivity|]. split; [|done].
  destruct (relinked_fields N1 N2 (last_addr None llo) Hcores Hcores2 F3) as [F4 F5]; [unfold N1; rewrite lookup_insert_eq; unfold core in *; cbn in *; congruence|done|].
  cbn [nodes with_nodes] in Hcells2, Hd2. pose proof (zlen_nonneg (llo ++ lhi)).
  assert (Hl : zlen (llo ++ it :: lhi) = zlen (llo ++ lhi) + 1) by (rewrite !zlen_app, zlen_cons; lia).
  split; cbn [zsl nodes zbrk with_zsl with_nodes header tail zlength zlevel with_tail with_zlength used_by towers]; try done.
  - rewrite H2, u64_id by lia. lia.
  - lia.
  - by rewrite last_addr_app, last_addr_cons.
  - by rewrite H5, Htop.
  - rewrite <- Htop. lia.
  - apply Forall_app in H7 as [? ?]. apply Forall_app. split; [done|by constructor].
  - by rewrite used_insert.
  - rewrite Hd2. unfold N1. rewrite dom_insert_lookup_L by by rewrite Hn. rewrite (same_core_dom _ _ Hc), H9. by rewrite used_insert.
  - rewrite Eb. by rewrite used_insert.
  - intros i Hi. rewrite <- Htop in Hi. eapply linked_frame; [|by apply Hlink]. intros p _. by rewrite Hcells2, Hcells.
  - intros i Hi. rewrite <- Htop in Hi. destruct (Habove i Hi) as [s Hs]. exists s. by rewrite Hcells2, Hcells.
Qed.
End finish.

Lemma zslInsert_ok random luck `{Lucky random luck} w z llo lhi U s e : zsl_ok w z (llo ++ lhi) U -> scored (llo ++ lhi) ->
  isnan s = false -> zlen (llo ++ lhi) + 1 < 2 ^ 32 ->
  Forall (fun it => ltl (ikey it) (okey s e) = true) llo -> Forall (fun it => ltl (ikey it) (okey s e) = false) lhi ->
  exists it w' z', zslInsert random luck s e w = Ret (iaddr it) w' /\ iscore it = s /\ iele it = e /\
    zsl_ok w' z' (llo ++ it :: lhi) U /\ header z' = header z /\ aside w w'.
Proof.
  intros Hok Hnan Hs Hfew Hlo Hhi. set (T := top (llo ++ lhi)) in *. pose proof (zo_top _ _ _ _ _ Hok) as HT.
  unfold zslInsert. rewrite Hs, (bind_ret_eq _ _ _ _ _ (the_zsl_eq _ _ _ _ _ Hok)).
  destruct (insert_descent T w z llo lhi U s e T Hok Hnan Hs Hlo Hhi 0%nat (header z) 64%nat local_array local_array)
    as (rank & x0 & upd & E1 & Hlr & Hlu & Hrk & _); [done|done|done|done|lia|by left|].
  rewrite (zo_level _ _ _ _ _ Hok) in E1. rewrite (zo_level _ _ _ _ _ Hok), Nat2Z.id in *. rewrite (bind_ret_eq _ _ _ _ _ E1).
  destruct (zslRandomLevel_ok random luck w) as (ht & d & E2 & Hht). rewrite (bind_ret_eq _ _ _ _ _ E2).
  assert (Hok2 : zsl_inv T (with_draws d w) z (llo ++ lhi) U) by by eapply zsl_inv_same.
  destruct (raise_ok _ _ _ _ _ _ ht rank upd Hok2 ltac:(lia) Hlr Hlu Hrk) as (rank3 & upd3 & w3 & z3 & E3 & Hok3 & Eh & Hrk3 & _ & Ha3).
  rewrite (zo_level _ _ _ _ _ Hok2) in E3. rewrite (bind_ret_eq _ _ _ _ _ E3).
  destruct (create_node_ok _ _ _ _ _ ht s e Hok3 ltac:(lia)) as (x & w4 & E4 & Hok4 & Ha4 & (n & Hn & En1 & En2 & En3 & Hcx) & Hx).
  rewrite (bind_ret_eq _ _ _ _ _ E4). set (it := {| iaddr := x; iheight := ht; iscore := s; iele := e |}).
  assert (Hrk3' : ranked z3 llo (Nat.max T ht) rank3 upd3) by (unfold ranked, towers in *; by rewrite Eh).
  destruct (splice_levels_ok _ _ _ _ _ _ x ht rank3 upd3 Hok4 ltac:(lia) Hrk3' Hfew Hcx) as (w5 & N & E5 & Ez5 & E5' & Hc5 & Hl5 & Hh5).
  rewrite (bind_ret_eq _ _ _ _ _ E5), (bind_ret_eq _ _ _ _ _ Ez5), (bind_ret_eq _ _ _ _ _ E5'). destruct (Hrk3' 0%nat ltac:(lia)) as (u & k & Hu & _ & Hsp).
  pose proof (zo_heights _ _ _ _ _ Hok) as Hhs. apply Forall_app in Hhs as [Hhs _].
  destruct (spot_zero _ _ _ _ Hhs Hsp) as [_ Hlast].
  assert (Htop : Nat.max T ht = top (llo ++ it :: lhi)).
  { unfold T. rewrite !top_app, top_cons. cbn [iheight it]. lia. }
  destruct (insert_finish (Nat.max T ht) w4 (with_nodes N w4) z3 llo lhi U it) with (update := upd3) (u := u) as (w' & z' & E6 & Hok' & Eh' & Ha6); try done.
  - exists (backward n). cbn [nodes with_nodes iaddr it iele iscore iheight]. rewrite (Hc5 x), Hn. unfold core. cbn. by rewrite En1, En2, En3.
  - intros i Hi. rewrite towers_app. by apply Hl5.
  - intros i Hi. destruct (zo_above _ _ _ _ _ Hok4 i Hi) as [v Hv]. exists v. cbn [nodes with_nodes]. by rewrite Hh5 by lia.
  - exists it, w', z'. split; [exact E6|]. split; [done|]. split; [done|]. split; [done|]. split; [congruence|].
    transitivity (with_draws d w); [done|]. etransitivity; [exact Ha3|]. etransitivity; [exact Ha4|]. etransitivity; [|exact Ha6]. done.
Qed.
