(* ===== verification/ZslDelete.v ===== *)
(** Deleting from a skip list: the levels of a node are bridged, and empty levels
    disappear. *)
From Stdlib Require Import Floats.SpecFloat.
From S2P Require Import Prelude Util Dict DictProofs Zskiplist ZslOrder ZslLinks ZslProofs ZslInsert.
#[local] Open Scope Z_scope.
Implicit Types (w : zworld) (z : zskiplist) (l llo lhi : list item) (it : item) (N : gmap positive zskiplistNode).

(** ** Bridging a level *)
Lemma unlink_level_ok w lo hi x ht i u k update : spot i lo u k -> update !! i = Some (Some u) ->
  linked (nodes w) i (lo ++ (x, ht) :: hi) NIL -> NoDup (lo ++ (x, ht) :: hi).*1 -> zlen (lo ++ hi) < 2 ^ 32 ->
  exists N, unlink_level x update (Z.of_nat i) w = Ret tt (with_nodes N w) /\ level_only i (nodes w) N /\
    linked N i (lo ++ hi) NIL /\ forall q, q = x -> cell_at N q i = cell_at (nodes w) q i.
Proof.
  intros Hsp Hu Hl Hnd Hfew. destruct (spot_gap _ _ _ _ Hsp) as (a & h & c & -> & Hh & Hc & -> & _).
  rewrite <- app_assoc in Hl, Hnd, Hfew |- *. cbn [app] in Hl, Hnd, Hfew |- *.
  pose proof (linked_at _ _ _ _ _ _ _ Hl Hh) as Hcu. rewrite hop_app, hop_short in Hcu by done.
  assert (Hcx : (i < ht)%nat -> cell_at (nodes w) x i = Some (full (hop i hi NIL))).
  { intros Hht. rewrite app_comm_cons, app_assoc in Hl. by apply linked_at in Hl. }
  pose proof (hop_bound i hi NIL ltac:(done)) as Hb. rewrite !zlen_app, zlen_cons, zlen_app in Hfew.
  pose proof (zlen_nonneg a). pose proof (zlen_nonneg c). cbn [snd NIL] in Hb.
  assert (Hne : forall q, q ∈ a.*1 \/ q ∈ hi.*1 \/ q = x -> q <> u).
  { rewrite fmap_app in Hnd. cbn in Hnd. rewrite fmap_app in Hnd. cbn in Hnd. apply NoDup_app in Hnd as (_ & Hd & Hnd).
    apply NoDup_cons in Hnd as [Hnd _]. intros q [Hq|Hq] ->; [apply (Hd u Hq); by left|]. apply Hnd, elem_of_app. right. apply elem_of_cons. naive_solver. }
  assert (Hf : forall N', (forall q, q <> u -> cell_at N' q i = cell_at (nodes w) q i) -> cell_at N' u i = Some (full (hop i (c ++ hi) NIL)) ->
    linked N' i (a ++ (u, h) :: c ++ hi) NIL).
  { intros N' Hq Hu'. apply (relink (nodes w) N' i a u h c [(x, ht)] [] hi NIL); [done|done|done| |done|done].
    intros q Hin. apply Hq, Hne. naive_solver. }
  unfold unlink_level. rewrite (bind_ret_eq _ _ _ _ _ (get_slot_eq w _ _ _ Hu)).
  destruct (decide (i < ht)%nat) as [Hht|Hht].
  - rewrite hop_tall in Hcu by done. specialize (Hcx Hht). cbn [fst snd] in Hcu.
    rewrite (bind_ret_eq _ _ _ _ _ (get_forward_eq w u i _ (Some x) Hcu eq_refl)), bool_decide_true by done.
    rewrite (bind_ret_eq _ _ _ _ _ (get_span_eq w u i _ _ Hcu eq_refl)), (bind_ret_eq _ _ _ _ _ (get_span_eq w x i _ _ Hcx eq_refl)).
    rewrite (bind_ret_eq _ _ _ _ _ (set_span_eq w u i _ _ Hcu)). cbn [forward full fst snd]. set (N1 := put_cell u i _ (nodes w)).
    assert (Hcx1 : cell_at N1 x i = cell_at (nodes w) x i) by (unfold N1; apply cell_put_ne; left; apply Hne; naive_solver).
    rewrite Hcx in Hcx1. rewrite (bind_ret_eq _ _ _ _ _ (get_forward_eq (with_nodes N1 w) x i _ _ Hcx1 eq_refl)).
    rewrite (set_forward_eq (with_nodes N1 w) u i _ _ (cell_put_eq _ _ _ _ _ Hcu)). cbn [nodes with_nodes span].
    rewrite u64_id by lia. eexists. split; [reflexivity|]. split; [etransitivity; apply level_only_put|].
    assert (Hq : forall q, q <> u -> cell_at (put_cell u i {| forward := Some (hop i hi NIL).1; span := Some (1 + zlen c + ((hop i hi NIL).2 - 1)) |} N1) q i =
      cell_at (nodes w) q i).
    { intros q Hq. rewrite cell_put_ne by by left. unfold N1. by rewrite cell_put_ne by by left. }
    split; [|intros q ->; apply Hq; naive_solver]. apply Hf; [exact Hq|].
    rewrite hop_app, (hop_short i c) by done. etransitivity; [exact (cell_put_eq _ _ _ _ _ (cell_put_eq _ _ _ _ _ Hcu))|].
    unfold full. cbn [fst snd]. do 3 f_equal. lia.
  - assert (Hs : Forall (short i) [(x, ht)]) by (constructor; [unfold short; cbn; lia|done]).
    change ((x, ht) :: hi) with ([(x, ht)] ++ hi) in Hcu. rewrite hop_app, hop_short in Hcu by done. cbn [fst snd] in Hcu.
    rewrite (bind_ret_eq _ _ _ _ _ (get_forward_eq w u i _ _ Hcu eq_refl)), bool_decide_false.
    2: { intros E. unfold NIL in E. apply (NoDup_app a.*1) in Hnd || rewrite fmap_app in Hnd. cbn in Hnd. rewrite fmap_app in Hnd. cbn in Hnd.
         apply NoDup_app in Hnd as (_ & _ & Hnd). apply NoDup_cons in Hnd as [_ Hnd]. apply NoDup_app in Hnd as (_ & _ & Hnd).
         apply NoDup_cons in Hnd as [Hnd _]. apply Hnd. apply (hop_elem i hi x 0). rewrite <- E. by destruct (hop i hi (None, 0)). }
    rewrite (bind_ret_eq _ _ _ _ _ (get_span_eq w u i _ _ Hcu eq_refl)), (set_span_eq w u i _ _ Hcu). cbn [forward].
    assert (E1 : zlen [(x, ht)] = 1) by done. rewrite E1. cbn [full forward fst snd].
    rewrite u64_id by lia. eexists. split; [reflexivity|]. split; [apply level_only_put|].
    split; [|intros q ->; apply cell_put_ne; left; apply Hne; naive_solver].
    apply Hf; [intros q Hq; by apply cell_put_ne; left|]. rewrite (cell_put_eq _ _ _ _ _ Hcu), hop_app, (hop_short i c) by done.
    unfold full. cbn [fst snd]. do 3 f_equal. lia.
Qed.

(** ** Empty levels *)
Lemma lower_ok n : forall T w z l, zsl w = Some z -> zlevel z = Z.of_nat T -> (top l <= T <= 64)%nat -> (T - top l < n)%nat ->
  (forall i, (i < T)%nat -> linked (nodes w) i (towers z l) NIL) ->
  while_loop n lower_turn tt w = Ret tt (with_zsl (Some (with_zlevel (Z.of_nat (top l)) z)) w).
Proof.
  induction n as [|n IH]; intros T w z l Hz HzT HT Hn Hl; [lia|]. cbn [while_loop]. unfold lower_turn at 1. pose proof (top_ge l) as H1.
  assert (Ez : the_zsl w = Ret z w) by (unfold the_zsl; by rewrite Hz). rewrite bind_assoc, (bind_ret_eq _ _ _ _ _ Ez), HzT.
  assert (Hsame : T = top l -> with_zsl (Some (with_zlevel (Z.of_nat (top l)) z)) w = w).
  { intros <-. rewrite <- HzT. destruct w, z. unfold with_zsl. cbn in *. by rewrite Hz. }
  destruct (Z.ltb_spec 1 (Z.of_nat T)) as [HT1|HT1]; [|rewrite Hsame by lia; done].
  pose proof (Hl (T - 1)%nat ltac:(lia)) as Hlast. destruct Hlast as [Hc _]. specialize (Hc ltac:(lia)).
  replace (Z.of_nat T - 1) with (Z.of_nat (T - 1)) by lia. destruct (decide (T = top l)) as [->|Hne].
  - destruct (top_tall l (top l - 1)) as (l1 & it & l2 & -> & Hit & Hs); [lia|lia|].
    rewrite tower_mid, hop_over in Hc by done.
    rewrite bind_assoc, (bind_ret_eq _ _ _ _ _ (get_forward_eq w _ _ _ (Some (iaddr it)) Hc eq_refl)). by rewrite Hsame.
  - rewrite hop_short in Hc by (apply top_short; lia).
    rewrite bind_assoc, (bind_ret_eq _ _ _ _ _ (get_forward_eq w _ _ _ None Hc eq_refl)).
    set (w1 := with_zsl (Some (with_zlevel (Z.of_nat (T - 1)) z)) w).
    assert (E1 : upd_zsl (with_zlevel (Z.of_nat (T - 1))) w = Ret tt w1) by (unfold upd_zsl; by rewrite (bind_ret_eq _ _ _ _ _ Ez)).
    rewrite bind_assoc, (bind_ret_eq _ _ _ _ _ E1). unfold ret at 1, bind at 1.
    rewrite (IH (T - 1)%nat w1 (with_zlevel (Z.of_nat (T - 1)) z) l); [done|done|done|lia|lia|]. intros i Hi. apply Hl. lia.
Qed.

(** ** [zslDeleteNode] *)
Section delete_node.
Context T w z llo it lhi U (Hok : zsl_inv T w z (llo ++ it :: lhi) U) (update : list (option positive)) (Hup : spots z llo T update).

Lemma old_nodup : NoDup (header z :: (iaddr <$> llo) ++ iaddr it :: (iaddr <$> lhi)).
Proof.
  pose proof (zo_addrs _ _ _ _ _ Hok) as H. unfold used_by in H. rewrite fmap_app, app_comm_cons in H. by apply NoDup_app in H as [H _].
Qed.

Lemma bridge_levels_ok : exists N,
  for_loop (Z.to_nat (zlevel z)) 0 (fun i _ => unlink_level (iaddr it) update i) tt w = Ret tt (with_nodes N w) /\
  same_core (nodes w) N /\ (forall i, (i < T)%nat -> linked N i (towers z (llo ++ lhi)) NIL) /\
  (forall q i, (T <= i)%nat \/ q = iaddr it -> cell_at N q i = cell_at (nodes w) q i).
Proof.
  rewrite (zo_level _ _ _ _ _ Hok).
  assert (Hwp : wp (for_loop (Z.to_nat (Z.of_nat T)) 0 (fun i _ => unlink_level (iaddr it) update i) tt)
    (reaching (fun q => q = iaddr it) w (towers z (llo ++ lhi)) (0 + Z.of_nat (Z.to_nat (Z.of_nat T)))) w).
  { apply wp_for; [apply reaching_start|]. intros j [] w' Hj Hre. rewrite <- (Z2Nat.id j) in * by lia.
    apply (reaching_step _ w _ _ w' _ Hre). intros N -> Hc Hf. destruct (Hup (Z.to_nat j) ltac:(lia)) as (u & k & Hu & Hs).
    rewrite towers_app. eapply unlink_level_ok; [exact Hs|done| | |].
    - cbn [nodes with_nodes]. eapply linked_frame; [intros p _; apply Hf|]. rewrite <- towers_mid. apply (zo_linked _ _ _ _ _ Hok). lia.
    - rewrite <- towers_mid, towers_addrs, fmap_app. apply old_nodup.
    - rewrite <- towers_app, zlen_towers. pose proof (zo_few _ _ _ _ _ Hok) as Hfew. rewrite zlen_app, zlen_cons in Hfew. rewrite zlen_app. lia. }
  apply wp_inv in Hwp as ([] & w' & E & (N & -> & Hc & Hlow & Hhigh)). exists N. split; [exact E|]. split; [done|]. split.
  - intros i Hi. apply Hlow. lia.
  - intros q i Hi. apply Hhigh. destruct Hi; [left; lia|by right].
Qed.

Lemma used_delete : used_by z (llo ++ it :: lhi) U ≡ₚ used_by z (llo ++ lhi) (iaddr it :: U).
Proof. apply used_insert. Qed.

Lemma zslDeleteNode_ok : exists w' z', zslDeleteNode (iaddr it) update w = Ret tt w' /\ zsl_ok w' z' (llo ++ lhi) (iaddr it :: U) /\
  header z' = header z /\ aside w w' /\ zbrk w' = zbrk w /\
  (exists n, nodes w' !! iaddr it = Some n /\ ele n = Some (iele it) /\ length (level n) = iheight it).
Proof.
  destruct bridge_levels_ok as (N & E1 & Hc1 & Hl1 & Hh1). pose proof old_nodup as Hnd.
  apply NoDup_cons in Hnd as [Hh Hnd]. apply NoDup_app in Hnd as (_ & Hdis & Hnd). apply NoDup_cons in Hnd as [Hx Hnd].
  pose proof Hok as [H1 H2 H3 H4 H5 H6 H7 H8 H9 H10 H11 H12 H13 H14].
  apply fields_app in H12 as [F1 [Fx F2]]. apply Forall_app in H7 as [G1 G2]. apply Forall_cons in G2 as [G2 G3].
  unfold zslDeleteNode. rewrite (bind_ret_eq _ _ _ _ _ (the_zsl_eq _ _ _ _ _ Hok)), (bind_ret_eq _ _ _ _ _ E1).
  assert (Hf : get_forward (iaddr it) 0 (with_nodes N w) = Ret (first_addr lhi) (with_nodes N w)).
  { pose proof (H13 0%nat ltac:(pose proof (top_ge (llo ++ it :: lhi)); lia)) as Hl. rewrite towers_mid in Hl. apply linked_at in Hl; [|lia].
    rewrite (hop_zero _ G3), <- Hh1 in Hl by by right. apply (get_forward_eq (with_nodes N w) _ 0%nat _ _ Hl). by destruct lhi. }
  rewrite (bind_ret_eq _ _ _ _ _ Hf). rewrite <- (Hc1 (iaddr it)) in Fx. destruct (N !! iaddr it) as [n|] eqn:Hn; [|done].
  rewrite (bind_ret_eq _ _ _ _ _ (znode_eq (with_nodes N w) _ _ Hn)).
  assert (Eb : init (backward n) (with_nodes N w) = Ret (last_addr None llo) (with_nodes N w)) by (cbn in Fx; by injection Fx as _ _ -> _).
  rewrite (bind_ret_eq _ _ _ _ _ Eb).
  destruct (set_backward_ok (with_nodes N w) z (Some (iaddr it)) (last_addr None llo) lhi) as (N2 & z2 & E2 & F3 & Hcells2 & Hcores2 & Hd2 & ->);
    [done| |done|by rewrite H4, last_addr_app, last_addr_cons|].
  { eapply fields_frame; [|exact F2]. intros q _. apply Hc1. }
  cbn [nodes with_nodes] in Hcells2, Hcores2, Hd2. rewrite (bind_ret_eq _ _ _ _ _ E2).
  set (w2 := with_zsl _ _). set (z2 := with_tail _ z) in *.
  assert (Htop : (top (llo ++ lhi) <= T <= 64)%nat) by (rewrite top_app, top_cons in H6; rewrite top_app; lia).
  assert (Hl2 : forall i, (i < T)%nat -> linked N2 i (towers z (llo ++ lhi)) NIL).
  { intros i Hi. eapply linked_frame; [|by apply Hl1]. intros p _. apply Hcells2. }
  pose proof (top_ge (llo ++ lhi)) as Ht1.
  rewrite (bind_ret_eq _ _ _ _ _ (lower_ok (Z.to_nat ZSKIPLIST_MAXLEVEL) T w2 z2 (llo ++ lhi) eq_refl H5 Htop ltac:(change (Z.to_nat ZSKIPLIST_MAXLEVEL) with 64%nat; lia) Hl2)).
  eexists. exists (with_zlength (zlength z - 1) (with_zlevel (Z.of_nat (top (llo ++ lhi))) z2)). split; [reflexivity|].
  assert (Hlen : zlen (llo ++ it :: lhi) = zlen (llo ++ lhi) + 1) by (rewrite !zlen_app, zlen_cons; lia). pose proof (zlen_nonneg (llo ++ lhi)).
  split; [|split; [done|split; [done|split; [done|]]]].
  - split; cbn [zsl nodes zbrk with_zsl with_nodes header tail zlength zlevel with_tail with_zlength with_zlevel z2 w2]; try done;
      repeat match goal with |- context [used_by ?y ?l ?V] => progress change (used_by y l V) with (used_by z l V) end.
    + rewrite H2, u64_id by lia. lia.
    + lia.
    + by rewrite last_addr_app.
    + lia.
    + by apply Forall_app.
    + by rewrite <- used_delete.
    + rewrite Hd2, (same_core_dom _ _ Hc1), H9. by rewrite used_delete.
    + by rewrite <- used_delete.
    + rewrite Hcores2, (Hc1 (header z)); [done|]. intros Hq. apply Hh, elem_of_app. right. by right.
    + apply fields_app. split; [|done]. eapply fields_frame; [|exact F1]. intros q Hq. rewrite Hcores2; [apply Hc1|]. intros Hq'. apply (Hdis q Hq). by right.
    + intros i Hi. apply Hl2. lia.
    + intros i Hi. destruct (decide (i < T)%nat) as [HiT|HiT].
      * exists (zlen (llo ++ lhi)). destruct (Hl2 i HiT) as [Hc _]. rewrite Hc, hop_short, zlen_fmap by (lia || (apply top_short; lia)). done.
      * destruct (H14 i ltac:(lia)) as [s Hs]. exists s. by rewrite Hcells2, Hh1 by (left; lia).
  - pose proof (Hcores2 (iaddr it) Hx) as Hx2. rewrite Hn in Hx2. cbn in Fx.
    destruct (N2 !! iaddr it) as [n2|] eqn:En2; cbn in Hx2; [|done]. exists n2. split; [exact En2|]. cbn in Hx2. injection Hx2 as E3 _ _ E4. injection Fx as E5 _ _ E6. by rewrite E3, E4.
Qed.
End delete_node.
