(* ===== verification/ZslOps.v ===== *)
(** The operations of a skip list on one element, against a sorted list of scores with
    elements: insertion, deletion, and changing a score. *)
From Stdlib Require Import Floats.SpecFloat Sorting.Sorted.
From stdpp Require Import sorting.
From S2P Require Import Prelude Util Dict DictProofs Zskiplist ZslOrder ZslLinks ZslProofs ZslInsert ZslDelete.
#[local] Open Scope Z_scope.
Implicit Types (w : zworld) (z : zskiplist) (l llo lhi : list item) (it : item) (N : gmap positive zskiplistNode).

(** ** Sorted lists *)

(** An element with its score. *)
Abbreviation member := (double * sds)%type.
Definition pkey (p : member) : list Z := okey p.1 p.2.
Definition pair_of it : member := (iscore it, iele it).
Definition ordered (ps : list member) : Prop := StronglySorted (fun p q => ltl (pkey p) (pkey q) = true) ps.
Implicit Types (ps : list member) (p q : member).

(** [F] holds of the first part of the list. *)
Definition initial (F : member -> bool) ps : Prop :=
  forall p q, p ∈ ps -> q ∈ ps -> ltl (pkey p) (pkey q) = true -> F q = true -> F p = true.
Definition without (F : member -> bool) ps : list member := List.filter (fun p => negb (F p)) ps.

Lemma filter_all (F : member -> bool) ps : Forall (fun p => F p = true) ps -> List.filter F ps = ps /\ without F ps = [].
Proof.
  unfold without. induction 1 as [|p ps Hp _ [IH1 IH2]]; [done|]. cbn. by rewrite Hp, IH1.
Qed.
Lemma filter_none (F : member -> bool) ps : Forall (fun p => F p = false) ps -> List.filter F ps = [] /\ without F ps = ps.
Proof.
  unfold without. induction 1 as [|p ps Hp _ [IH1 IH2]]; [done|]. cbn. rewrite Hp. cbn. by rewrite IH2.
Qed.
Lemma elem_of_filter_bool (F : member -> bool) p ps : p ∈ List.filter F ps <-> p ∈ ps /\ F p = true.
Proof. by rewrite !list_elem_of_In, filter_In. Qed.

Lemma cut F ps : ordered ps -> initial F ps -> ps = List.filter F ps ++ without F ps.
Proof.
  induction 1 as [|p ps Ho IH Hp]; intros Hi; [done|].
  assert (Hi' : initial F ps) by (intros q r Hq Hr; apply Hi; by right). specialize (IH Hi').
  unfold without in *. cbn. destruct (F p) eqn:Ep; cbn; [by rewrite <- IH|].
  assert (Hn : Forall (fun q => F q = false) ps).
  { apply Forall_forall. intros q Hq. destruct (F q) eqn:Eq; [|done]. rewrite Forall_forall in Hp.
    rewrite <- Ep. symmetry. apply (Hi p q); [by left|by right|by apply Hp|done]. }
  destruct (filter_none F ps Hn) as [E1 E2]. unfold without in E2. by rewrite E1, E2.
Qed.
Lemma cut_unique F ps1 ps2 : Forall (fun p => F p = true) ps1 -> Forall (fun p => F p = false) ps2 ->
  List.filter F (ps1 ++ ps2) = ps1 /\ without F (ps1 ++ ps2) = ps2.
Proof.
  intros H1 H2. unfold without. rewrite !List.filter_app. destruct (filter_all F ps1 H1) as [-> E1], (filter_none F ps2 H2) as [-> E2].
  unfold without in E1, E2. rewrite E1, E2. by rewrite app_nil_r.
Qed.

Lemma cut_items F l : ordered (pair_of <$> l) -> initial F (pair_of <$> l) -> exists llo lhi, l = llo ++ lhi /\
  Forall (fun it => F (pair_of it) = true) llo /\ Forall (fun it => F (pair_of it) = false) lhi /\
  pair_of <$> llo = List.filter F (pair_of <$> l) /\ pair_of <$> lhi = without F (pair_of <$> l).
Proof.
  intros Ho Hi. pose proof (cut F _ Ho Hi) as E. apply fmap_app_inv in E as (llo & lhi & E1 & E2 & ->). exists llo, lhi.
  split; [done|]. split; [|split; [|by split]]; apply Forall_forall; intros it Hit.
  - assert (Hin : pair_of it ∈ List.filter F (pair_of <$> llo ++ lhi)) by (rewrite E1; by apply list_elem_of_fmap_2).
    by apply elem_of_filter_bool in Hin as [_ ?].
  - assert (Hin : pair_of it ∈ without F (pair_of <$> llo ++ lhi)) by (rewrite E2; by apply list_elem_of_fmap_2).
    unfold without in Hin. apply elem_of_filter_bool in Hin as [_ Hin]. by apply negb_true_iff in Hin.
Qed.

(** *** Inserting and removing *)
Definition insert_member p ps : list member :=
  List.filter (fun q => ltl (pkey q) (pkey p)) ps ++ p :: without (fun q => ltl (pkey q) (pkey p)) ps.
Definition remove_member p ps : list member := without (fun q => bool_decide (pkey q = pkey p)) ps.

Lemma initial_ltl k ps : initial (fun q => ltl (pkey q) k) ps.
Proof. intros p q _ _ H1 H2. by eapply ltl_trans. Qed.
Lemma initial_lel k ps : initial (fun q => lel (pkey q) k) ps.
Proof. intros p q _ _ H1 H2. apply ltl_lel. by eapply ltl_lel_trans. Qed.

Lemma ordered_app ps1 ps2 : ordered (ps1 ++ ps2) <->
  (forall p q, p ∈ ps1 -> q ∈ ps2 -> ltl (pkey p) (pkey q) = true) /\ ordered ps1 /\ ordered ps2.
Proof. apply StronglySorted_app. Qed.
Lemma ordered_cons p ps : ordered (p :: ps) <-> Forall (fun q => ltl (pkey p) (pkey q) = true) ps /\ ordered ps.
Proof. apply StronglySorted_cons. Qed.

(** The place of a key that is in the list, and of one that is not. *)
Lemma ordered_around p ps1 ps2 : ordered (ps1 ++ p :: ps2) ->
  Forall (fun q => ltl (pkey q) (pkey p) = true) ps1 /\ Forall (fun q => ltl (pkey p) (pkey q) = true) ps2.
Proof.
  intros [H [_ [Hp _]%ordered_cons]]%ordered_app. split; [|done]. apply Forall_forall. intros q Hq. apply H; [done|by left].
Qed.
Lemma ordered_insert p ps : ordered ps -> pkey p ∉ pkey <$> ps -> ordered (insert_member p ps).
Proof.
  intros Ho Hn. unfold insert_member. set (F := fun q => ltl (pkey q) (pkey p)).
  pose proof (cut F ps Ho (initial_ltl _ _)) as E.
  assert (Hhi : forall q, q ∈ without F ps -> ltl (pkey p) (pkey q) = true).
  { intros q [Hq HF]%elem_of_filter_bool. apply negb_true_iff in HF. unfold F in HF.
    assert (Hle : lel (pkey p) (pkey q) = true) by by rewrite lel_ltl, HF. rewrite lel_alt in Hle. apply orb_true_iff in Hle as [?|He]; [done|].
    apply bool_decide_eq_true in He. exfalso. apply Hn. rewrite He. by apply list_elem_of_fmap_2. }
  rewrite E in Ho. apply ordered_app in Ho as (H & H1 & H2). apply ordered_app. split; [|split; [done|]].
  - intros q r Hq Hr. apply elem_of_cons in Hr as [->|Hr]; [|by apply H]. by apply elem_of_filter_bool in Hq as [_ ?].
  - apply ordered_cons. split; [|done]. by apply Forall_forall.
Qed.
Lemma ordered_filter (F : member -> bool) ps : ordered ps -> ordered (List.filter F ps).
Proof.
  induction 1 as [|p ps Ho IH Hp]; [constructor|]. cbn. destruct (F p); [|done]. apply ordered_cons. split; [|done].
  rewrite Forall_forall in Hp |- *. intros q [Hq _]%elem_of_filter_bool. by apply Hp.
Qed.
Lemma ltl_neq a b : ltl a b = true -> a <> b.
Proof. intros H ->. by rewrite ltl_irrefl in H. Qed.
Lemma remove_middle p q ps1 ps2 : ordered (ps1 ++ q :: ps2) -> pkey q = pkey p -> remove_member p (ps1 ++ q :: ps2) = ps1 ++ ps2.
Proof.
  intros Ho Hk. apply ordered_around in Ho as [H1 H2]. unfold remove_member, without. rewrite List.filter_app. cbn.
  rewrite bool_decide_true by done. cbn. f_equal; rewrite <- Hk in *.
  - apply (filter_all (fun r => negb (bool_decide (pkey r = pkey q)))). eapply Forall_impl; [exact H1|]. intros r Hr.
    apply negb_true_iff, bool_decide_eq_false. by apply ltl_neq.
  - apply (filter_all (fun r => negb (bool_decide (pkey r = pkey q)))). eapply Forall_impl; [exact H2|]. intros r Hr.
    apply negb_true_iff, bool_decide_eq_false. intros E. by apply (ltl_neq _ _ Hr).
Qed.

(** ** Releasing a node *)
Lemma zslFreeNode_ok T w z l U x n : zsl_inv T w z l (x :: U) -> nodes w !! x = Some n -> exists w', zslFreeNode x w = Ret tt w' /\
  zsl_inv T w' z l U /\ zdict w' = zdict w /\ zfreed w' = option_list (ele n) ++ zfreed w.
Proof.
  intros Hok Hn. set (w1 := with_zfreed (option_list (ele n) ++ zfreed w) w).
  exists (with_nodes (delete x (nodes w)) w1). split; [|split; [|done]].
  { unfold zslFreeNode. rewrite (bind_ret_eq _ _ _ _ _ (znode_eq w x n Hn)).
    assert (E1 : sdsfree (ele n) w = Ret tt w1) by (unfold w1; destruct (ele n); [done|]; by destruct w).
    rewrite (bind_ret_eq _ _ _ _ _ E1). unfold zfree_node. by rewrite (bind_ret_eq _ _ w1 _ _ (znode_eq w1 x n Hn)). }
  assert (HU : used_by z l (x :: U) ≡ₚ x :: used_by z l U) by (unfold used_by; solve_Permutation).
  destruct Hok as [H1 H2 H3 H4 H5 H6 H7 H8 H9 H10 H11 H12 H13 H14]. rewrite HU in H8. apply NoDup_cons in H8 as [Hx H8].
  assert (Hcell : forall (q : positive) i, q ∈ used_by z l U -> cell_at (delete x (nodes w)) q i = cell_at (nodes w) q i).
  { intros q i Hq. unfold cell_at. rewrite lookup_delete_ne; [done|]. by intros ->. }
  split; cbn [zsl nodes zbrk with_nodes with_zfreed w1]; try done.
  - rewrite dom_delete_L, H9. apply set_eq. intros q. rewrite elem_of_difference, elem_of_singleton, !elem_of_list_to_set, HU. set_solver.
  - rewrite HU in H10. by apply Forall_cons in H10 as [_ H10].
  - rewrite lookup_delete_ne; [done|]. intros ->. apply Hx. by left.
  - eapply fields_frame; [|exact H12]. intros q Hq. rewrite lookup_delete_ne; [done|]. intros ->. apply Hx. right. apply elem_of_app. by left.
  - intros i Hi. eapply linked_frame; [|by apply H13]. intros q Hq. apply Hcell. rewrite towers_addrs in Hq.
    apply elem_of_cons in Hq as [->|Hq]; [by left|]. right. apply elem_of_app. by left.
  - intros i Hi. destruct (H14 i Hi) as [s Hs]. exists s. rewrite Hcell; [done|]. by left.
Qed.

(** ** The place of an element *)
Lemma below_key l s e : ordered (pair_of <$> l) -> exists llo lhi, l = llo ++ lhi /\
  Forall (fun it => ltl (ikey it) (okey s e) = true) llo /\ Forall (fun it => ltl (ikey it) (okey s e) = false) lhi /\
  pair_of <$> llo = List.filter (fun q => ltl (pkey q) (okey s e)) (pair_of <$> l) /\
  pair_of <$> lhi = without (fun q => ltl (pkey q) (okey s e)) (pair_of <$> l).
Proof. intros Ho. apply (cut_items (fun q => ltl (pkey q) (okey s e)) l Ho), initial_ltl. Qed.

Section one.
Context (random : nat -> Z) (luck : nat) `{Lucky random luck}.
Context w z l (U : list positive) (Hok : zsl_ok w z l U) (Hnan : scored l) (Ho : ordered (pair_of <$> l)).

Lemma insert_member_ok s e : isnan s = false -> zlen l + 1 < 2 ^ 32 -> exists it w' z' l', zslInsert random luck s e w = Ret (iaddr it) w' /\
  pair_of it = (s, e) /\ zsl_ok w' z' l' U /\
  pair_of <$> l' = insert_member (s, e) (pair_of <$> l) /\ l' ≡ₚ it :: l /\ aside w w'.
Proof.
  intros Hs Hfew. destruct (below_key l s e Ho) as (llo & lhi & El & Hlo & Hhi & E1 & E2).
  pose proof Hok as Hok'. pose proof Hnan as Hnan'. rewrite El in Hok', Hnan', Hfew.
  destruct (zslInsert_ok random luck w z llo lhi U s e Hok' Hnan' Hs Hfew Hlo Hhi) as (it & w' & z' & E & Es & Ee & Hok2 & _ & Ha).
  assert (Ep : pair_of it = (s, e)) by (unfold pair_of; by rewrite Es, Ee).
  exists it, w', z', (llo ++ it :: lhi). split; [exact E|]. split; [done|].
  split; [done|]. split; [|split; [rewrite El; solve_Permutation|done]].
  rewrite fmap_app. cbn. unfold insert_member. change (pkey (s, e)) with (okey s e). rewrite <- E1, <- E2. by rewrite Ep.
Qed.

Lemma seek_ok s e : isnan s = false -> exists llo lhi update, l = llo ++ lhi /\
  Forall (fun it => ltl (ikey it) (okey s e) = true) llo /\ Forall (fun it => ltl (ikey it) (okey s e) = false) lhi /\
  seek s e w = Ret (update, first_addr lhi) w /\ spots z llo (top l) update.
Proof.
  intros Hs. destruct (below_key l s e Ho) as (llo & lhi & El & Hlo & Hhi & _). exists llo, lhi. pose proof Hok as Hok'. rewrite El in Hok'.
  destruct (find_update_ok (top (llo ++ lhi)) w z llo lhi U Hok' (fun _ _ _ => precedes s e (fun c => c <? 0)) nothing (fun _ => tt))
    as (x & update & a & E & _ & Hsp & (h & Ea & Hh)).
  { apply (guides_items w llo lhi _ (fun it => ltl (ikey it) (okey s e))); [|done|done]. intros it Hit. rewrite <- El in Hit, Hok'.
    by apply (precedes_lt _ w z l U Hok Hnan). }
  exists update. split; [done|]. split; [done|]. split; [done|]. split; [|by rewrite El]. unfold seek. rewrite (bind_ret_eq _ _ _ _ _ E).
  by rewrite (bind_ret_eq _ _ _ _ _ (forward_zero _ _ _ _ _ Hok' llo lhi x h a eq_refl Ea Hh)).
Qed.

Lemma is_element_ok s e llo lhi : isnan s = false -> l = llo ++ lhi -> Forall (fun it => ltl (ikey it) (okey s e) = false) lhi ->
  is_element s e (first_addr lhi) w = Ret (match lhi with it :: _ => bool_decide (ikey it = okey s e) | [] => false end) w.
Proof.
  intros Hs El Hhi. destruct lhi as [|it lhi]; [done|]. cbn.
  assert (Hit : it ∈ l) by (rewrite El; apply elem_of_app; right; by left).
  destruct (item_node _ _ _ _ _ Hok it Hit) as (n & Hn & _ & Hsc & _). rewrite (bind_ret_eq _ _ _ _ _ (znode_eq w _ _ Hn)), Hsc.
  rewrite SFeqb_key by (done || by apply (scored_elem l Hnan)).
  assert (Hk : ikey it = okey s e <-> skey s = skey (iscore it) /\ iele it = e).
  { unfold ikey, okey. split; [|intros [-> ->]; done]. intros E. apply app_inj_1 in E as [E1 E2%sds_eq]; [done|]. by rewrite !length_skey. }
  destruct (bool_decide_reflect (skey s = skey (iscore it))) as [E|E].
  - rewrite (bind_ret_eq _ _ _ _ _ (get_ele_eq _ _ _ _ _ Hok it Hit)), sdscmp_eq. unfold ret. f_equal.
    apply bool_decide_ext. rewrite Hk. tauto.
  - rewrite bool_decide_false; [done|]. rewrite Hk. tauto.
Qed.

(** [zslDelete] finds the element with this key, if there is one. *)
Lemma zslDelete_ok s e : isnan s = false ->
  (exists l1 it l2 w' z', l = l1 ++ it :: l2 /\ ikey it = okey s e /\ zslDelete s e false w = Ret (1, None) w' /\
     zsl_ok w' z' (l1 ++ l2) U /\ zdict w' = zdict w /\ zfreed w' = iele it :: zfreed w) \/
  (okey s e ∉ ikey <$> l /\ zslDelete s e false w = Ret (0, None) w).
Proof.
  intros Hs. destruct (seek_ok s e Hs) as (llo & lhi & update & El & Hlo & Hhi & E & Hsp).
  unfold zslDelete. rewrite (bind_ret_eq _ _ _ _ _ E), (bind_ret_eq _ _ _ _ _ (is_element_ok s e llo lhi Hs El Hhi)).
  assert (Hlo' : okey s e ∉ ikey <$> llo).
  { intros (it & Eit & Hit)%list_elem_of_fmap. rewrite Forall_forall in Hlo. apply (ltl_neq _ _ (Hlo it Hit)). done. }
  destruct lhi as [|it lhi]; [right; rewrite app_nil_r in El; by subst llo|]. cbn [first_addr head fmap option_fmap option_map].
  destruct (bool_decide_reflect (ikey it = okey s e)) as [Hk|Hk].
  - left. pose proof Hok as Hok'. unfold zsl_ok in Hok'. rewrite El in Hsp. unfold zsl_ok in Hok'. rewrite El in Hok'.
    destruct (zslDeleteNode_ok _ w z llo it lhi U Hok' update Hsp) as (w1 & z1 & E1 & Hok1 & _ & [Hd1 Hf1] & _ & (n & Hn & He & _)).
    destruct (zslFreeNode_ok _ w1 z1 _ U _ n Hok1 Hn) as (w2 & E2 & Hok2 & Hd2 & Hf2). exists llo, it, lhi, w2, z1.
    split; [done|]. split; [done|]. rewrite (bind_ret_eq _ _ _ _ _ E1), (bind_ret_eq _ _ _ _ _ E2). split; [done|]. split; [done|].
    split; [congruence|]. by rewrite Hf2, He, Hf1.
  - right. split; [|done]. rewrite El, fmap_app. intros [Hin|Hin]%elem_of_app; [done|]. cbn in Hin. apply elem_of_cons in Hin as [Hin|Hin]; [done|].
    assert (Hlt : forall it', it' ∈ lhi -> ltl (ikey it) (ikey it') = true).
    { intros it' Hit'. pose proof Ho as Hord. rewrite El, fmap_app in Hord. apply ordered_app in Hord as (_ & _ & Hord). cbn in Hord.
      apply ordered_cons in Hord as [Hord _]. rewrite Forall_forall in Hord. apply (Hord (pair_of it')). by apply list_elem_of_fmap_2. }
    apply list_elem_of_fmap in Hin as (it' & Eit & Hit'). specialize (Hlt it' Hit'). apply Forall_cons in Hhi as [Hh _].
    rewrite <- Eit in Hlt. congruence.
Qed.
End one.

(** ** Changing a score *)
Definition rescore it s : item := {| iaddr := iaddr it; iheight := iheight it; iscore := s; iele := iele it |}.

Lemma rescore_ok T w z l1 it l2 U s : zsl_inv T w z (l1 ++ it :: l2) U -> exists w',
  upd_node (iaddr it) (with_score s) w = Ret tt w' /\ zsl_inv T w' z (l1 ++ rescore it s :: l2) U /\ aside w w'.
Proof.
  intros Hok. destruct (item_node _ _ _ _ _ Hok it ltac:(apply elem_of_app; right; by left)) as (n & Hn & _).
  exists (with_nodes (<[iaddr it := with_score s n]> (nodes w)) w). split; [by apply upd_node_eq|]. split; [|done].
  pose proof (old_nodup _ _ _ _ _ _ _ Hok) as Hnd. apply NoDup_cons in Hnd as [Hh Hnd]. apply NoDup_app in Hnd as (_ & Hd & Hnd).
  apply NoDup_cons in Hnd as [Hx _].
  assert (Hcell : forall (q : positive) i, cell_at (<[iaddr it := with_score s n]> (nodes w)) q i = cell_at (nodes w) q i)
    by (intros q i; by apply (cell_at_fields _ _ n)).
  assert (Ea : iaddr <$> l1 ++ rescore it s :: l2 = iaddr <$> l1 ++ it :: l2) by by rewrite !fmap_app.
  assert (Et : tower_of <$> l1 ++ rescore it s :: l2 = tower_of <$> l1 ++ it :: l2) by by rewrite !fmap_app.
  assert (Etop : top (l1 ++ rescore it s :: l2) = top (l1 ++ it :: l2)) by by rewrite !top_app, !top_cons.
  destruct Hok as [H1 H2 H3 H4 H5 H6 H7 H8 H9 H10 H11 H12 H13 H14].
  split; cbn [zsl nodes zbrk with_nodes]; unfold used_by, towers in *; rewrite ?Ea, ?Et, ?Etop; try done.
  - rewrite H2, !zlen_app, !zlen_cons. done.
  - rewrite zlen_app, zlen_cons in *. done.
  - by rewrite H4, !last_addr_app, !last_addr_cons.
  - apply Forall_app in H7 as [? H7]. apply Forall_cons in H7 as [? ?]. apply Forall_app. split; [done|by constructor].
  - by rewrite dom_insert_lookup_L by by rewrite Hn.
  - rewrite lookup_insert_ne; [done|]. intros E. apply Hh. rewrite <- E. apply elem_of_app. right. by left.
  - apply fields_app in H12 as [F1 [Fx F2]]. rewrite Hn in Fx. apply fields_app. split; [|split].
    + eapply fields_frame; [|exact F1]. intros q Hq. rewrite lookup_insert_ne; [done|]. intros <-. apply (Hd _ Hq). by left.
    + cbn [iaddr rescore iele iscore iheight]. rewrite lookup_insert_eq. unfold core in *. cbn in *. congruence.
    + eapply fields_frame; [|exact F2]. intros q Hq. rewrite lookup_insert_ne; [done|]. by intros <-.
  - intros i Hi. eapply linked_frame; [intros q _; apply Hcell|]. by apply H13.
  - intros i Hi. rewrite Hcell. by apply H14.
Qed.

Lemma okey_score s s' e e' : ltl (skey s) (skey s') = true -> ltl (okey s e) (okey s' e') = true.
Proof.
  intros H. unfold ltl, okey in *. rewrite lcmp_app by by rewrite !length_skey. by destruct (lcmp (skey s) (skey s')).
Qed.
Lemma okey_inj s s' e e' : okey s e = okey s' e' -> skey s = skey s' /\ e = e'.
Proof. intros E. apply app_inj_1 in E as [E1 E2%sds_eq]; [done|]. by rewrite !length_skey. Qed.

Lemma null_or_eq T w z l U cmp (o : option item) : zsl_inv T w z l U -> (forall it, o = Some it -> it ∈ l) ->
  null_or cmp (iaddr <$> o) w = Ret (match o with Some it => cmp (iscore it) | None => true end) w.
Proof.
  intros Hok Ho. destruct o as [it|]; [|done].
  destruct (item_node _ _ _ _ _ Hok it (Ho it eq_refl)) as (n & Hn & _ & Hsc & _). cbn. by rewrite (bind_ret_eq _ _ _ _ _ (znode_eq w _ _ Hn)), Hsc.
Qed.

(** Between its neighbours, the new key is where the old one was. *)
Lemma rescore_place l1 it l2 s : ordered (pair_of <$> l1 ++ it :: l2) -> scored (l1 ++ it :: l2) -> isnan s = false ->
  match last l1 with Some p => SFltb (iscore p) s | None => true end = true ->
  match head l2 with Some p => SFltb s (iscore p) | None => true end = true ->
  pair_of <$> l1 ++ rescore it s :: l2 = insert_member (s, iele it) (pair_of <$> l1 ++ l2).
Proof.
  intros Ho Hnan Hs H1 H2. rewrite !fmap_app in *. cbn in *. unfold insert_member.
  set (F := fun q => ltl (pkey q) (pkey (s, iele it))). unfold scored in Hnan. rewrite Forall_forall in Hnan.
  assert (E1 : Forall (fun q => F q = true) (pair_of <$> l1)).
  { destruct l1 as [|p l1 _] using rev_ind; [constructor|]. rewrite last_snoc in H1.
    rewrite SFltb_key in H1 by (done || (apply Hnan; rewrite !elem_of_app; left; right; by left)).
    assert (Hp : ltl (ikey p) (okey s (iele it)) = true) by by apply okey_score.
    rewrite fmap_app in *. apply Forall_app. split; [|by constructor]. apply ordered_app in Ho as (_ & Ho & _).
    apply ordered_around in Ho as [Ho _]. eapply Forall_impl; [exact Ho|]. intros q Hq. exact (ltl_trans _ _ _ Hq Hp). }
  assert (E2 : Forall (fun q => F q = false) (pair_of <$> l2)).
  { destruct l2 as [|p l2]; [constructor|]. cbn in H2.
    rewrite SFltb_key in H2 by (done || (apply Hnan; rewrite elem_of_app; right; right; by left)).
    assert (Hp : ltl (okey s (iele it)) (ikey p) = true) by by apply okey_score. apply ordered_app in Ho as (_ & _ & Ho).
    apply ordered_cons in Ho as [_ Ho]. cbn in Ho |- *. apply ordered_cons in Ho as [Ho _].
    assert (Hall : forall q, ltl (okey s (iele it)) (pkey q) = true -> F q = false).
    { intros q Hq. unfold F. destruct (ltl (pkey q) _) eqn:E; [|done]. pose proof (ltl_trans _ _ _ Hq E) as Hbad. cbn in Hbad. by rewrite ltl_irrefl in Hbad. }
    constructor; [by apply Hall|]. eapply Forall_impl; [exact Ho|]. intros q Hq. apply Hall. exact (ltl_trans _ _ _ Hp Hq). }
  by destruct (cut_unique F _ _ E1 E2) as [-> ->].
Qed.

(** There is one way to cut a sorted list at the key of one of its elements. *)
Lemma cut_at_key l1 it l2 llo lhi k : ordered (pair_of <$> l1 ++ it :: l2) -> l1 ++ it :: l2 = llo ++ lhi -> ikey it = k ->
  Forall (fun it => ltl (ikey it) k = true) llo -> Forall (fun it => ltl (ikey it) k = false) lhi -> llo = l1 /\ lhi = it :: l2.
Proof.
  intros Ho El Hk Hlo Hhi. set (F := fun q => ltl (pkey q) k).
  assert (A1 : Forall (fun q => F q = true) (pair_of <$> llo)) by by apply Forall_fmap.
  assert (A2 : Forall (fun q => F q = false) (pair_of <$> lhi)) by by apply Forall_fmap.
  rewrite fmap_app in Ho. destruct (ordered_around _ _ _ Ho) as [B1 B2]. change (pkey (pair_of it)) with (ikey it) in B1, B2. rewrite Hk in B1, B2.
  assert (B3 : Forall (fun q => F q = false) (pair_of <$> it :: l2)).
  { unfold F. constructor; [change (pkey (pair_of it)) with (ikey it); rewrite Hk; apply ltl_irrefl|]. eapply Forall_impl; [exact B2|].
    intros q Hq. destruct (ltl (pkey q) k) eqn:E; [|done]. pose proof (ltl_trans _ _ _ Hq E) as Hbad. by rewrite ltl_irrefl in Hbad. }
  destruct (cut_unique F _ _ A1 A2) as [C1 _], (cut_unique F _ _ B1 B3) as [C2 _].
  rewrite <- !fmap_app, <- El in C1. rewrite <- fmap_app in C2. rewrite C2 in C1.
  apply app_inj_1 in El as [-> ->]; [done|]. apply (f_equal length) in C1. by rewrite !length_fmap in C1.
Qed.

Lemma without_old_ordered l1 it l2 : ordered (pair_of <$> l1 ++ it :: l2) -> ordered (pair_of <$> l1 ++ l2).
Proof.
  rewrite !fmap_app. intros (H & H1 & H2)%ordered_app. cbn in H2. apply ordered_cons in H2 as [_ H2]. apply ordered_app.
  split; [|done]. intros p q Hp Hq. apply H; [done|]. by right.
Qed.

Section update.
Context (random : nat -> Z) (luck : nat) `{Lucky random luck}.
Context w z (U : list positive) l1 it l2 (Hok : zsl_ok w z (l1 ++ it :: l2) U) (Hnan : scored (l1 ++ it :: l2)).
Hypothesis Ho : ordered (pair_of <$> l1 ++ it :: l2).
Context (s : double) (Hs : isnan s = false).

(** The node is replaced. *)
Lemma reinsert_ok update : spots z l1 (top (l1 ++ it :: l2)) update -> exists it' w' z' l',
  (zslDeleteNode (iaddr it) update ;;;
   let* e' := get_ele (iaddr it) in
   let* newnode := zslInsert random luck s e' in
   upd_node (iaddr it) (with_ele None) ;;;
   zslFreeNode (iaddr it) ;;;
   ret newnode) w = Ret (iaddr it') w' /\ pair_of it' = (s, iele it) /\ zsl_ok w' z' l' U /\
  pair_of <$> l' = insert_member (s, iele it) (pair_of <$> l1 ++ l2) /\ l' ≡ₚ it' :: (l1 ++ l2) /\ aside w w'.
Proof.
  intros Hsp. destruct (zslDeleteNode_ok _ w z l1 it l2 U Hok update Hsp) as (w1 & z1 & E1 & Hok1 & _ & Ha1 & _ & (n & Hn & He & _)).
  rewrite (bind_ret_eq _ _ _ _ _ E1).
  assert (E2 : get_ele (iaddr it) w1 = Ret (iele it) w1) by (unfold get_ele; by rewrite (bind_ret_eq _ _ _ _ _ (znode_eq w1 _ _ Hn)), He).
  rewrite (bind_ret_eq _ _ _ _ _ E2).
  assert (Hnan' : scored (l1 ++ l2)) by (unfold scored in *; apply Forall_app in Hnan as [? Hn2]; apply Forall_cons in Hn2 as [_ ?]; by apply Forall_app).
  assert (Hfew : zlen (l1 ++ l2) + 1 < 2 ^ 32).
  { pose proof (zo_few _ _ _ _ _ Hok) as Hf. rewrite zlen_app, zlen_cons in Hf. rewrite zlen_app. lia. }
  destruct (insert_member_ok random luck w1 z1 (l1 ++ l2) _ Hok1 Hnan' (without_old_ordered _ _ _ Ho) s (iele it) Hs Hfew)
    as (it' & w2 & z2 & l' & E3 & Hp & Hok2 & Hl & HP & Ha2).
  rewrite (bind_ret_eq _ _ _ _ _ E3).
  assert (Hx : is_Some (nodes w2 !! iaddr it)).
  { apply elem_of_dom. rewrite (zo_dom _ _ _ _ _ Hok2). apply elem_of_list_to_set. right. apply elem_of_app. right. by left. }
  destruct Hx as [n2 Hn2]. rewrite (bind_ret_eq _ _ _ _ _ (upd_node_eq w2 _ n2 _ Hn2)). set (w3 := with_nodes _ w2).
  assert (Hok3 : zsl_inv (top l') w3 z2 l' (iaddr it :: U)).
  { pose proof (used_nodup _ _ _ _ (zo_addrs _ _ _ _ _ Hok2)) as Hnd. apply NoDup_cons in Hnd as [Hnd _]. rewrite towers_addrs in Hnd.
    assert (Hcell : forall (q : positive) i, cell_at (nodes w3) q i = cell_at (nodes w2) q i) by (intros q i; by apply (cell_at_fields _ _ n2)).
    destruct Hok2 as [H1 H2 H3 H4 H5 H6 H7 H8 H9 H10 H11 H12 H13 H14]. split; cbn [zsl zbrk w3 with_nodes]; try done.
    - cbn. by rewrite dom_insert_lookup_L by by rewrite Hn2.
    - cbn. rewrite lookup_insert_ne; [done|]. intros Eq. apply Hnd. rewrite Eq. by left.
    - eapply fields_frame; [|exact H12]. intros q Hq. cbn. rewrite lookup_insert_ne; [done|]. intros <-. apply Hnd. by right.
    - intros i Hi. eapply linked_frame; [intros q _; apply Hcell|]. by apply H13.
    - intros i Hi. rewrite Hcell. by apply H14. }
  destruct (zslFreeNode_ok _ w3 z2 l' U (iaddr it) (with_ele None n2) Hok3) as (w4 & E4 & Hok4 & Hd4 & Hf4); [cbn; apply lookup_insert_eq|].
  rewrite (bind_ret_eq _ _ _ _ _ E4). exists it', w4, z2, l'. do 5 (split; [done|]).
  transitivity w1; [done|]. transitivity w2; [done|]. by split.
Qed.

Lemma zslUpdateScore_ok cur : isnan cur = false -> SFeqb cur (iscore it) = true -> exists it' w' z' l',
  zslUpdateScore random luck cur (iele it) s w = Ret (iaddr it') w' /\ pair_of it' = (s, iele it) /\ zsl_ok w' z' l' U /\
  pair_of <$> l' = insert_member (s, iele it) (pair_of <$> l1 ++ l2) /\ l' ≡ₚ it' :: (l1 ++ l2) /\ aside w w'.
Proof.
  intros Hcur Heq. set (l := l1 ++ it :: l2) in *. assert (Hit : it ∈ l) by (apply elem_of_app; right; by left).
  assert (Hk : ikey it = okey cur (iele it)).
  { rewrite SFeqb_key in Heq by (done || by apply (scored_elem l Hnan)). apply bool_decide_eq_true in Heq. unfold ikey, okey. by rewrite Heq. }
  destruct (seek_ok w z l U Hok Hnan Ho cur (iele it) Hcur) as (llo & lhi & update & El & Hlo & Hhi & E & Hsp).
  destruct (cut_at_key l1 it l2 llo lhi _ Ho El Hk Hlo Hhi) as [-> ->]. unfold zslUpdateScore. rewrite (bind_ret_eq _ _ _ _ _ E).
  rewrite (bind_ret_eq _ _ _ _ _ (is_element_ok w z l U Hok Hnan cur (iele it) l1 (it :: l2) Hcur eq_refl Hhi)).
  cbn [first_addr head fmap option_fmap option_map]. rewrite bool_decide_true by done.
  destruct (item_back _ _ _ _ _ Hok l1 it l2 eq_refl) as (n & Hn & Hb). rewrite (bind_ret_eq _ _ _ _ _ (znode_eq w _ _ Hn)), Hb.
  assert (Hlast : last_addr None l1 = iaddr <$> last l1) by (unfold last_addr; by destruct (last l1)).
  unfold bind at 1. cbn [init]. unfold ret at 1. rewrite Hlast.
  assert (Hin1 : forall p : item, last l1 = Some p -> p ∈ l) by (intros p Hp; apply elem_of_app; left; by apply last_Some_elem_of).
  rewrite (bind_ret_eq _ _ _ _ _ (null_or_eq _ w z l U _ (last l1) Hok Hin1)).
  destruct (match last l1 with Some p => SFltb (iscore p) s | None => true end) eqn:Eabove.
  2: { unfold bind at 1, ret at 1. by apply reinsert_ok. }
  rewrite bind_assoc, (bind_ret_eq _ _ _ _ _ (forward_item _ _ _ _ _ Hok l1 it l2 eq_refl)).
  assert (Hin2 : forall p : item, head l2 = Some p -> p ∈ l).
  { intros p Hp. destruct l2 as [|p' l2']; [done|]. injection Hp as ->. apply elem_of_app. right. right. by left. }
  rewrite (bind_ret_eq _ _ _ _ _ (null_or_eq _ w z l U _ (head l2) Hok Hin2)).
  destruct (match head l2 with Some p => SFltb s (iscore p) | None => true end) eqn:Ebelow; [|by apply reinsert_ok].
  destruct (rescore_ok _ w z l1 it l2 U s Hok) as (w' & E' & Hok' & Ha). rewrite (bind_ret_eq _ _ _ _ _ E').
  exists (rescore it s), w', z, (l1 ++ rescore it s :: l2). split; [done|]. split; [done|]. split.
  { unfold zsl_ok. replace (top (l1 ++ rescore it s :: l2)) with (top l); [done|]. unfold l. by rewrite !top_app, !top_cons. }
  split; [by apply rescore_place|]. split; [solve_Permutation|done].
Qed.
End update.
