(* ===== verification/ZslRange.v ===== *)
(** Looking into a skip list: the ends of a range of scores or of strings, ranks, and
    the element of a rank. Its creation and its release. *)
From Stdlib Require Import Floats.SpecFloat Sorting.Sorted.
From stdpp Require Import sorting.
From S2P Require Import Prelude Util Dict DictProofs Zskiplist ZslOrder ZslLinks ZslProofs ZslInsert ZslDelete ZslOps.
#[local] Open Scope Z_scope.
Implicit Types (w : zworld) (z : zskiplist) (l llo lhi : list item) (it : item) (ps : list member) (p q : member).

(** ** The ends of a range *)
Section place.
Context T w z llo lhi (U : list positive) (Hok : zsl_inv T w z (llo ++ lhi) U).

Lemma find_place_ok go (F : item -> bool) : (forall it, it ∈ llo ++ lhi -> go (iaddr it) w = Ret (F it) w) ->
  Forall (fun it => F it = true) llo -> Forall (fun it => F it = false) lhi ->
  exists x h a, find_place go w = Ret x w /\ towers z llo = a ++ [(x, h)] /\ (0 < h)%nat.
Proof.
  intros Hgo Hlo Hhi. pose proof (guides_items w llo lhi go F Hgo Hlo Hhi) as Hg. pose proof (zo_top _ _ _ _ _ Hok) as HT.
  pose proof (top_ge (llo ++ lhi)) as Hge. unfold find_place.
  rewrite (bind_ret_eq _ _ _ _ _ (the_zsl_eq _ _ _ _ _ Hok)), (zo_level _ _ _ _ _ Hok), Nat2Z.id.
  assert (Hdown : forall n k x h, (n <= T)%nat -> towers z llo !! k = Some (x, h) -> (n <= h)%nat -> (0 < n)%nat -> exists x' k',
    for_down n (fun i x => let* (_, x) := walk (fun _ _ => go) (fun a _ => ret a) i tt x in ret x) x w = Ret x' w /\ spot 0 (towers z llo) x' k').
  { induction n as [|n IH]; intros k x h Hn Hk Hh Hpos; [lia|]. cbn [for_down].
    destruct (walk_level_ok T w z llo lhi U Hok _ _ _ Hg n k x h) as (x1 & k1 & E1 & Hs1); [lia|done|lia|].
    rewrite bind_assoc, (bind_ret_eq _ _ _ _ _ E1). destruct (spot_lower _ _ _ _ Hs1) as (h1 & Hk1 & Hh1).
    destruct n as [|n]; [by exists x1, k1|]. apply (IH k1 x1 h1); [lia|done|lia|lia]. }
  destruct (Hdown T 0%nat (header z) 64%nat) as (x & k & E & Hs); [done|done|lia|lia|].
  pose proof (zo_heights _ _ _ _ _ Hok) as Hhs. apply Forall_app in Hhs as [Hhs _]. pose proof (spot_zero _ _ _ _ Hhs Hs) as [-> Hx].
  destruct Hs as (a & h & c & Ea & Hh & Hc & Hlen). exists x, h, a. split; [done|]. split; [|done].
  assert (c = []) as ->; [|done]. apply length_zero_iff_nil. pose proof (f_equal length Ea) as Hl. unfold towers in Hl.
  rewrite length_app in Hl. cbn in Hl. rewrite length_fmap in Hl. lia.
Qed.
End place.

(** A range: from where [G] holds to where [L] ceases to hold. *)
Definition between (G L : member -> bool) ps : list member := List.filter (fun p => G p && L p) ps.

Section range.
Context w z l (U : list positive) (Hok : zsl_ok w z l U) (Ho : ordered (pair_of <$> l)).
Context (G L : member -> bool) (gte lte : positive -> D bool).
Hypothesis Hgte : forall it, it ∈ l -> gte (iaddr it) w = Ret (G (pair_of it)) w.
Hypothesis Hlte : forall it, it ∈ l -> lte (iaddr it) w = Ret (L (pair_of it)) w.
Hypothesis HG : initial (fun p => negb (G p)) (pair_of <$> l).
Hypothesis HL : initial L (pair_of <$> l).

Lemma below_range : exists llo lhi, l = llo ++ lhi /\ Forall (fun it => G (pair_of it) = false) llo /\ Forall (fun it => G (pair_of it) = true) lhi.
Proof.
  destruct (cut_items _ l Ho HG) as (llo & lhi & El & H1 & H2 & _). exists llo, lhi. split; [done|].
  split; eapply Forall_impl; try done; cbn; intros it H; [by apply negb_true_iff in H|by apply negb_false_iff in H].
Qed.
Lemma within_range : exists llo lhi, l = llo ++ lhi /\ Forall (fun it => L (pair_of it) = true) llo /\ Forall (fun it => L (pair_of it) = false) lhi.
Proof. destruct (cut_items _ l Ho HL) as (llo & lhi & El & H1 & H2 & _). by exists llo, lhi. Qed.

Lemma between_none l' : Forall (fun it => G (pair_of it) && L (pair_of it) = false) l' -> between G L (pair_of <$> l') = [].
Proof. intros H. apply (filter_none (fun p => G p && L p)). by apply Forall_fmap. Qed.

Lemma ends_in_range_ok : ends_in_range gte lte w =
  Ret (match last l, head l with Some t, Some h => G (pair_of t) && L (pair_of h) | _, _ => false end) w.
Proof.
  unfold ends_in_range. rewrite (bind_ret_eq _ _ _ _ _ (the_zsl_eq _ _ _ _ _ Hok)), (zo_tail _ _ _ _ _ Hok). unfold last_addr.
  destruct (last l) as [t|] eqn:Et; [|done]. rewrite (bind_ret_eq _ _ _ _ _ (Hgte t (last_Some_elem_of _ _ Et))).
  destruct (G (pair_of t)); cbn [negb andb]; [|by destruct (head l)].
  rewrite (bind_ret_eq _ _ _ _ _ (forward_header _ _ _ _ _ Hok)). unfold first_addr. destruct (head l) as [h|] eqn:Eh; [|done].
  apply Hlte. by apply head_Some_elem_of.
Qed.

(** Where the ends are not in range, nothing is. *)
Lemma ends_empty : match last l, head l with Some t, Some h => G (pair_of t) && L (pair_of h) | _, _ => false end = false ->
  between G L (pair_of <$> l) = [].
Proof.
  intros H. apply between_none. destruct below_range as (lo1 & hi1 & E1 & A1 & B1). destruct within_range as (lo2 & hi2 & E2 & A2 & B2).
  destruct hi1 as [|t hi1 _] using rev_ind.
  { rewrite app_nil_r in E1. rewrite E1. eapply Forall_impl; [exact A1|]. cbn. by intros it ->. }
  destruct lo2 as [|h lo2].
  { cbn in E2. rewrite E2. eapply Forall_impl; [exact B2|]. cbn. intros it ->. apply andb_false_r. }
  apply Forall_app in B1 as [_ B1]. apply Forall_cons in B1 as [B1 _]. apply Forall_cons in A2 as [A2 _].
  assert (Et : last l = Some t) by (rewrite E1, app_assoc; apply last_snoc). assert (Eh : head l = Some h) by (by rewrite E2).
  rewrite Et, Eh, B1, A2 in H. done.
Qed.

Lemma first_in_range_ok : match last l with Some t => G (pair_of t) | None => false end = true -> exists o : option item,
  first_in_range gte lte w = Ret (iaddr <$> o) w /\ pair_of <$> o = head (between G L (pair_of <$> l)) /\ (forall it, o = Some it -> it ∈ l).
Proof.
  intros Ht. destruct below_range as (llo & lhi & El & Hlo & Hhi). pose proof Hok as Hok'. rewrite El in Hok'.
  destruct (find_place_ok _ w z llo lhi U Hok' (fun p : positive => let* b := gte p in ret (negb b)) (fun it => negb (G (pair_of it)))) as (x & h & a & E & Ea & Hh).
  { intros it Hit. rewrite <- El in Hit. by rewrite (bind_ret_eq _ _ _ _ _ (Hgte it Hit)). }
  { eapply Forall_impl; [exact Hlo|]. cbn. by intros it ->. }
  { eapply Forall_impl; [exact Hhi|]. cbn. by intros it ->. }
  unfold first_in_range. rewrite (bind_ret_eq _ _ _ _ _ E), (bind_ret_eq _ _ _ _ _ (forward_zero _ _ _ _ _ Hok' llo lhi x h a eq_refl Ea Hh)).
  destruct lhi as [|it lhi].
  { rewrite app_nil_r in El. destruct (last l) as [t|] eqn:Et; [|done]. rewrite El in Et. apply last_Some_elem_of in Et.
    rewrite Forall_forall in Hlo. by rewrite (Hlo t Et) in Ht. }
  assert (Hit : it ∈ l) by (rewrite El; apply elem_of_app; right; by left). cbn [first_addr head fmap option_fmap option_map].
  rewrite (bind_ret_eq _ _ _ _ _ (Hlte it Hit)). apply Forall_cons in Hhi as [HGit Hhi].
  assert (Eb : between G L (pair_of <$> l) = between G L (pair_of <$> it :: lhi)).
  { rewrite El, fmap_app. unfold between. rewrite List.filter_app. fold (between G L (pair_of <$> llo)).
    rewrite between_none; [done|]. eapply Forall_impl; [exact Hlo|]. cbn. by intros ? ->. }
  rewrite Eb. unfold between. cbn. rewrite HGit. cbn. destruct (L (pair_of it)) eqn:EL.
  - exists (Some it). split; [done|]. split; [done|]. by intros ? [= ->].
  - exists None. split; [done|]. split; [|done]. fold (between G L (pair_of <$> lhi)). rewrite between_none; [done|].
    apply Forall_forall. intros it' Hit'. destruct (L (pair_of it')) eqn:EL'; [|apply andb_false_r]. exfalso.
    assert (Hlt : ltl (pkey (pair_of it)) (pkey (pair_of it')) = true).
    { rewrite El, fmap_app in Ho. cbn in Ho. apply ordered_around in Ho as [_ Ho2]. rewrite Forall_forall in Ho2. apply Ho2. by apply list_elem_of_fmap_2. }
    assert (Hin' : it' ∈ l) by (rewrite El; apply elem_of_app; right; by right).
    pose proof (HL _ _ (list_elem_of_fmap_2 pair_of _ _ Hit) (list_elem_of_fmap_2 pair_of _ _ Hin') Hlt EL'). congruence.
Qed.

Lemma last_in_range_ok : match head l with Some h => L (pair_of h) | None => false end = true -> exists o : option item,
  last_in_range gte lte w = Ret (iaddr <$> o) w /\ pair_of <$> o = last (between G L (pair_of <$> l)) /\ (forall it, o = Some it -> it ∈ l).
Proof.
  intros Hh. destruct within_range as (llo & lhi & El & Hlo & Hhi). pose proof Hok as Hok'. rewrite El in Hok'.
  destruct (find_place_ok _ w z llo lhi U Hok' lte (fun it => L (pair_of it))) as (x & h & a & E & Ea & _); [|done|done|].
  { intros it Hit. rewrite <- El in Hit. by apply Hlte. }
  destruct llo as [|it llo _] using rev_ind.
  { rewrite El in Hh. destruct lhi as [|it lhi]; [done|]. apply Forall_cons in Hhi as [Hhi _]. cbn in Hh. congruence. }
  rewrite towers_mid in Ea. apply app_inj_tail in Ea as [_ [= <- _]].
  assert (Hit : it ∈ l) by (rewrite El, !elem_of_app; left; right; by left).
  unfold last_in_range. rewrite (bind_ret_eq _ _ _ _ _ E), (bind_ret_eq _ _ _ _ _ (Hgte it Hit)).
  assert (Eb : between G L (pair_of <$> l) = between G L (pair_of <$> llo ++ [it])).
  { rewrite El, (fmap_app _ _ lhi). unfold between. rewrite List.filter_app. fold (between G L (pair_of <$> lhi)).
    rewrite between_none; [by rewrite app_nil_r|]. eapply Forall_impl; [exact Hhi|]. cbn. intros ? ->. apply andb_false_r. }
  rewrite Eb. apply Forall_app in Hlo as [_ HLit]. apply Forall_cons in HLit as [HLit _]. destruct (G (pair_of it)) eqn:EG.
  - exists (Some it). split; [done|]. split; [|by intros ? [= ->]]. assert (Ef : between G L [pair_of it] = [pair_of it]) by (unfold between; cbn; by rewrite EG, HLit).
    rewrite fmap_app. unfold between in *. rewrite List.filter_app. change (pair_of <$> [it]) with [pair_of it]. by rewrite Ef, last_snoc.
  - exists None. split; [done|]. split; [|done]. rewrite between_none; [done|]. apply Forall_forall. intros it' Hit'.
    destruct (G (pair_of it')) eqn:EG'; [|done]. exfalso. apply elem_of_app in Hit' as [Hit'|Hit'].
    2: { apply list_elem_of_singleton in Hit' as ->. congruence. }
    assert (Hlt : ltl (pkey (pair_of it')) (pkey (pair_of it)) = true).
    { rewrite El, <- app_assoc, fmap_app in Ho. apply ordered_app in Ho as (Ho1 & _). apply Ho1; [by apply list_elem_of_fmap_2|by left]. }
    assert (Hin' : it' ∈ l) by (rewrite El, !elem_of_app; by left; left).
    pose proof (HG _ _ (list_elem_of_fmap_2 pair_of _ _ Hin') (list_elem_of_fmap_2 pair_of _ _ Hit) Hlt) as Hg. cbn in Hg.
    rewrite EG, EG' in Hg. by specialize (Hg eq_refl).
Qed.
End range.

(** *** Intervals of keys *)

(** Scores and strings have keys, and the bounds of both kinds of range too. *)
Section interval.
Context (K : member -> list Z) (m x : list Z) (mex xex : bool).
Definition above_min (k : list Z) : bool := if mex then ltl m k else lel m k.
Definition below_max (k : list Z) : bool := if xex then ltl k x else lel k x.
Definition empty_interval : bool := ltl x m || (bool_decide (m = x) && (mex || xex)).

Lemma above_min_mono k k' : lel k k' = true -> above_min k = true -> above_min k' = true.
Proof. unfold above_min. destruct mex; intros H1 H2; [by eapply ltl_lel_trans|by eapply lel_trans]. Qed.
Lemma below_max_mono k k' : lel k k' = true -> below_max k' = true -> below_max k = true.
Proof. unfold below_max. destruct xex; intros H1 H2; [by eapply lel_ltl_trans|by eapply lel_trans]. Qed.
Lemma interval_empty k : empty_interval = true -> above_min k && below_max k = false.
Proof.
  unfold empty_interval, above_min, below_max. intros Hbad. apply not_true_iff_false. intros [E1 E2]%andb_true_iff.
  assert (Hle : lel m x = true).
  { destruct mex, xex; [apply ltl_lel, (ltl_trans m k x E1 E2)|apply ltl_lel, (ltl_lel_trans m k x E1 E2)|
      apply ltl_lel, (lel_ltl_trans m k x E1 E2)|exact (lel_trans m k x E1 E2)]. }
  apply orb_true_iff in Hbad as [Hbad|Hbad]; [by rewrite (ltl_lel_false _ _ Hbad) in Hle|].
  apply andb_true_iff in Hbad as [->%bool_decide_eq_true Hex].
  assert (Hlt : ltl x x = true).
  { destruct mex, xex; [exact (ltl_trans x k x E1 E2)|exact (ltl_lel_trans x k x E1 E2)|exact (lel_ltl_trans x k x E1 E2)|done]. }
  by rewrite ltl_irrefl in Hlt.
Qed.

Definition Gk p : bool := above_min (K p).
Definition Lk p : bool := below_max (K p).

Context w z l (U : list positive) (Hok : zsl_ok w z l U) (Ho : ordered (pair_of <$> l)).
Hypothesis HK : forall p q, p ∈ pair_of <$> l -> q ∈ pair_of <$> l -> ltl (pkey p) (pkey q) = true -> lel (K p) (K q) = true.
Context (gte lte : positive -> D bool).
Hypothesis Hgte : forall it, it ∈ l -> gte (iaddr it) w = Ret (Gk (pair_of it)) w.
Hypothesis Hlte : forall it, it ∈ l -> lte (iaddr it) w = Ret (Lk (pair_of it)) w.

Lemma initial_G : initial (fun p => negb (Gk p)) (pair_of <$> l).
Proof.
  intros p q Hp Hq Hlt. rewrite !negb_true_iff, <- !not_true_iff_false. intros Hn HG. apply Hn. eapply above_min_mono; [|exact HG]. by apply HK.
Qed.
Lemma initial_L : initial Lk (pair_of <$> l).
Proof. intros p q Hp Hq Hlt. apply below_max_mono. by apply HK. Qed.

(** [zslFirstInRange], [zslLastInRange] and their likes for strings. *)
Definition in_range : D bool := if empty_interval then ret false else ends_in_range gte lte.

Lemma in_range_ok : exists b, in_range w = Ret b w /\
  if b then match last l with Some t => Gk (pair_of t) | None => false end = true /\
            match head l with Some h => Lk (pair_of h) | None => false end = true
  else between Gk Lk (pair_of <$> l) = [].
Proof.
  unfold in_range. destruct empty_interval eqn:Hbad.
  { exists false. split; [done|]. apply (filter_none (fun p => Gk p && Lk p)), Forall_forall. intros p _. by apply interval_empty. }
  rewrite (ends_in_range_ok w z l U Hok Gk Lk gte lte Hgte Hlte). eexists. split; [reflexivity|].
  destruct (match last l with Some _ => _ | None => _ end) eqn:E.
  - destruct (last l), (head l); try done. by apply andb_true_iff in E.
  - by apply (ends_empty l Ho Gk Lk initial_G initial_L).
Qed.
Lemma first_ok : exists o : option item, (let* b := in_range in if (b : bool) then first_in_range gte lte else ret None) w = Ret (iaddr <$> o) w /\
  pair_of <$> o = head (between Gk Lk (pair_of <$> l)) /\ (forall it, o = Some it -> it ∈ l).
Proof.
  destruct in_range_ok as (b & E & Hb). rewrite (bind_ret_eq _ _ _ _ _ E). destruct b.
  - exact (first_in_range_ok w z l U Hok Ho Gk Lk gte lte Hgte Hlte initial_G initial_L (proj1 Hb)).
  - exists None. by rewrite Hb.
Qed.
Lemma last_ok : exists o : option item, (let* b := in_range in if (b : bool) then last_in_range gte lte else ret None) w = Ret (iaddr <$> o) w /\
  pair_of <$> o = last (between Gk Lk (pair_of <$> l)) /\ (forall it, o = Some it -> it ∈ l).
Proof.
  destruct in_range_ok as (b & E & Hb). rewrite (bind_ret_eq _ _ _ _ _ E). destruct b.
  - exact (last_in_range_ok w z l U Hok Ho Gk Lk gte lte Hgte Hlte initial_G initial_L (proj2 Hb)).
  - exists None. by rewrite Hb.
Qed.
End interval.

Lemma filter_ext_bool (F G : member -> bool) ps : (forall p, p ∈ ps -> F p = G p) -> List.filter F ps = List.filter G ps.
Proof. intros H. apply filter_ext_in. intros p Hp. by apply H, list_elem_of_In. Qed.

(** *** Ranges of scores *)
Definition in_score_range (r : zrangespec) : list member -> list member :=
  between (fun p => zslValueGteMin p.1 r) (fun p => zslValueLteMax p.1 r).
Definition score_key p : list Z := skey p.1.

Lemma member_score l p : scored l -> p ∈ pair_of <$> l -> isnan p.1 = false.
Proof. intros Hnan (it & -> & Hit)%list_elem_of_fmap. by apply (scored_elem l Hnan). Qed.
(** Earlier members do not have a higher score. *)
Lemma ltl_score p q : ltl (pkey p) (pkey q) = true -> lel (score_key p) (score_key q) = true.
Proof.
  unfold ltl, lel, pkey, okey, score_key. rewrite lcmp_app by by rewrite !length_skey. by destruct (lcmp (skey p.1) (skey q.1)).
Qed.

Section scores.
Context (r : zrangespec) (Hmin : isnan (min r) = false) (Hmax : isnan (max r) = false).

Lemma GteMin_key s : isnan s = false -> zslValueGteMin s r = above_min (skey (min r)) (minex r) (skey s).
Proof. intros Hs. unfold zslValueGteMin, above_min. by rewrite SFltb_key, SFleb_key by done. Qed.
Lemma LteMax_key s : isnan s = false -> zslValueLteMax s r = below_max (skey (max r)) (maxex r) (skey s).
Proof. intros Hs. unfold zslValueLteMax, below_max. by rewrite SFltb_key, SFleb_key by done. Qed.
Lemma score_range_key l : scored l -> in_score_range r (pair_of <$> l) =
  between (Gk score_key (skey (min r)) (minex r)) (Lk score_key (skey (max r)) (maxex r)) (pair_of <$> l).
Proof.
  intros Hnan. apply filter_ext_bool. intros p Hp%(member_score l); [|done]. unfold Gk, Lk. by rewrite GteMin_key, LteMax_key.
Qed.

Context w z l (U : list positive) (Hok : zsl_ok w z l U) (Hnan : scored l) (Ho : ordered (pair_of <$> l)).

Lemma score_gte_eq it : it ∈ l -> score_gte r (iaddr it) w = Ret (Gk score_key (skey (min r)) (minex r) (pair_of it)) w.
Proof.
  intros Hit. destruct (item_node _ _ _ _ _ Hok it Hit) as (n & Hn & _ & Hs & _). unfold score_gte.
  rewrite (bind_ret_eq _ _ _ _ _ (znode_eq w _ _ Hn)), Hs, GteMin_key by by apply (scored_elem l Hnan). done.
Qed.
Lemma score_lte_eq it : it ∈ l -> score_lte r (iaddr it) w = Ret (Lk score_key (skey (max r)) (maxex r) (pair_of it)) w.
Proof.
  intros Hit. destruct (item_node _ _ _ _ _ Hok it Hit) as (n & Hn & _ & Hs & _). unfold score_lte.
  rewrite (bind_ret_eq _ _ _ _ _ (znode_eq w _ _ Hn)), Hs, LteMax_key by by apply (scored_elem l Hnan). done.
Qed.
Lemma zslIsInRange_eq : zslIsInRange r = in_range (skey (min r)) (skey (max r)) (minex r) (maxex r) (score_gte r) (score_lte r).
Proof. unfold zslIsInRange, in_range, empty_interval. by rewrite SFltb_key, SFeqb_key by done. Qed.

Lemma zslFirstInRange_ok : exists o : option item, zslFirstInRange r w = Ret (iaddr <$> o) w /\
  pair_of <$> o = head (in_score_range r (pair_of <$> l)) /\ (forall it, o = Some it -> it ∈ l).
Proof.
  rewrite score_range_key by done. unfold zslFirstInRange. rewrite zslIsInRange_eq.
  apply (first_ok score_key _ _ _ _ w z l U Hok Ho (fun p q _ _ => ltl_score p q) _ _ score_gte_eq score_lte_eq).
Qed.
Lemma zslLastInRange_ok : exists o : option item, zslLastInRange r w = Ret (iaddr <$> o) w /\
  pair_of <$> o = last (in_score_range r (pair_of <$> l)) /\ (forall it, o = Some it -> it ∈ l).
Proof.
  rewrite score_range_key by done. unfold zslLastInRange. rewrite zslIsInRange_eq.
  apply (last_ok score_key _ _ _ _ w z l U Hok Ho (fun p q _ _ => ltl_score p q) _ _ score_gte_eq score_lte_eq).
Qed.
End scores.

(** *** Ranges of strings *)
Definition in_lex_range (r : zlexrangespec) : list member -> list member :=
  between (fun p => zslLexValueGteMin p.2 r) (fun p => zslLexValueLteMax p.2 r).
Definition bkey (b : lexbound) : list Z := match b with Minstring => [0] | Str s => 1 :: text s | Maxstring => [2] end.
Definition text_key p : list Z := bkey (Str p.2).

Lemma sdscmplex_sign a b : sdscmplex a b = sign (lcmp (bkey a) (bkey b)).
Proof. destruct a, b; try done. cbn. apply sdscmp_sign. Qed.

(** Members of one score are in the order of their elements. *)
Definition one_score ps : Prop := forall p q, p ∈ ps -> q ∈ ps -> skey p.1 = skey q.1.
Lemma ltl_text ps p q : one_score ps -> p ∈ ps -> q ∈ ps -> ltl (pkey p) (pkey q) = true -> lel (text_key p) (text_key q) = true.
Proof.
  intros H1 Hp Hq. unfold ltl, lel, pkey, okey, text_key. rewrite lcmp_app by by rewrite !length_skey. rewrite (H1 p q Hp Hq), lcmp_refl. cbn.
  by destruct (lcmp (text p.2) (text q.2)).
Qed.

Section strings.
Context (r : zlexrangespec).

Lemma LexGteMin_key e : zslLexValueGteMin e r = above_min (bkey (lmin r)) (lminex r) (bkey (Str e)).
Proof.
  unfold zslLexValueGteMin, above_min, ltl, lel. rewrite !sdscmplex_sign, (lcmp_antisym (bkey (lmin r))). by destruct (lcmp (bkey (lmin r)) _).
Qed.
Lemma LexLteMax_key e : zslLexValueLteMax e r = below_max (bkey (lmax r)) (lmaxex r) (bkey (Str e)).
Proof. unfold zslLexValueLteMax, below_max, ltl, lel. rewrite !sdscmplex_sign. by destruct (lcmp _ (bkey (lmax r))). Qed.
Lemma lex_range_key ps : in_lex_range r ps = between (Gk text_key (bkey (lmin r)) (lminex r)) (Lk text_key (bkey (lmax r)) (lmaxex r)) ps.
Proof. apply filter_ext_bool. intros p _. unfold Gk, Lk. by rewrite LexGteMin_key, LexLteMax_key. Qed.

Context w z l (U : list positive) (Hok : zsl_ok w z l U) (Ho : ordered (pair_of <$> l)) (Hone : one_score (pair_of <$> l)).

Lemma ele_gte_eq it : it ∈ l -> ele_gte r (iaddr it) w = Ret (Gk text_key (bkey (lmin r)) (lminex r) (pair_of it)) w.
Proof. intros Hit. unfold ele_gte. by rewrite (bind_ret_eq _ _ _ _ _ (get_ele_eq _ _ _ _ _ Hok it Hit)), LexGteMin_key. Qed.
Lemma ele_lte_eq it : it ∈ l -> ele_lte r (iaddr it) w = Ret (Lk text_key (bkey (lmax r)) (lmaxex r) (pair_of it)) w.
Proof. intros Hit. unfold ele_lte. by rewrite (bind_ret_eq _ _ _ _ _ (get_ele_eq _ _ _ _ _ Hok it Hit)), LexLteMax_key. Qed.
Lemma zslIsInLexRange_eq :
  zslIsInLexRange r = in_range (bkey (lmin r)) (bkey (lmax r)) (lminex r) (lmaxex r) (ele_gte r) (ele_lte r).
Proof.
  unfold zslIsInLexRange, in_range, empty_interval, ltl. rewrite !sdscmplex_sign, (lcmp_antisym (bkey (lmin r))).
  destruct (lcmp (bkey (lmin r)) (bkey (lmax r))) eqn:E; cbn; [| |done].
  - apply lcmp_eq in E. by rewrite bool_decide_true.
  - rewrite bool_decide_false; [done|]. intros H. rewrite H, lcmp_refl in E. done.
Qed.

Lemma zslFirstInLexRange_ok : exists o : option item, zslFirstInLexRange r w = Ret (iaddr <$> o) w /\
  pair_of <$> o = head (in_lex_range r (pair_of <$> l)) /\ (forall it, o = Some it -> it ∈ l).
Proof.
  rewrite lex_range_key. unfold zslFirstInLexRange. rewrite zslIsInLexRange_eq.
  apply (first_ok text_key _ _ _ _ w z l U Hok Ho (fun p q => ltl_text _ p q Hone) _ _ ele_gte_eq ele_lte_eq).
Qed.
Lemma zslLastInLexRange_ok : exists o : option item, zslLastInLexRange r w = Ret (iaddr <$> o) w /\
  pair_of <$> o = last (in_lex_range r (pair_of <$> l)) /\ (forall it, o = Some it -> it ∈ l).
Proof.
  rewrite lex_range_key. unfold zslLastInLexRange. rewrite zslIsInLexRange_eq.
  apply (last_ok text_key _ _ _ _ w z l U Hok Ho (fun p q => ltl_text _ p q Hone) _ _ ele_gte_eq ele_lte_eq).
Qed.
End strings.

(** ** Ranks *)
Section ranks.
Context T w z l (U : list positive) (Hok : zsl_inv T w z l U).

Lemma span_sum k k' : (k' <= length l)%nat -> u64 (Z.of_nat k + (Z.of_nat k' - Z.of_nat k)) = Z.of_nat k'.
Proof.
  intros Hk. pose proof (zo_few _ _ _ _ _ Hok) as Hf. unfold zlen in Hf. replace (Z.of_nat k + _) with (Z.of_nat k') by lia. apply u64_id. lia.
Qed.

(** A walk whose condition is a bound [n] on the position of the next node. *)
Lemma guides_rank n test (llo := take n l) (lhi := drop n l) : (forall k', (k' <= length l)%nat -> test (Z.of_nat k') = bool_decide (k' <= n)%nat) ->
  guides w (llo ++ lhi) (length llo) (fun i t x _ => let* m := get_span x i in ret (test (u64 (t + m)))) add_span Z.of_nat.
Proof.
  intros Htest i k x k' it Hk Hit Hs. unfold llo, lhi in *. rewrite take_drop in Hit. pose proof (lookup_lt_Some _ _ _ Hit) as Hlt.
  unfold add_span. rewrite !(bind_ret_eq _ _ _ _ _ Hs), span_sum by lia. split; [|done]. unfold ret. f_equal.
  rewrite Htest by lia. apply bool_decide_ext. rewrite length_take. lia.
Qed.
End ranks.

(** The elements of a sorted set are different. *)
Definition distinct_eles l : Prop := NoDup (iele <$> l).

(** The walk of [zslGetRank] passes the element. *)
Lemma rank_guides w z l1 it l2 U (llo := l1 ++ [it]) : zsl_ok w z (llo ++ l2) U -> scored (llo ++ l2) ->
  ordered (pair_of <$> llo ++ l2) ->
  guides w (llo ++ l2) (length llo) (fun _ _ _ => precedes (iscore it) (iele it) (fun c => c <=? 0))
    (fun i r x => let* n := get_span x i in ret (u64 (r + n))) Z.of_nat.
Proof.
  intros Hok Hnan Ho. assert (El : l1 ++ it :: l2 = llo ++ l2) by (unfold llo; by rewrite <- app_assoc). rewrite <- El in Ho.
  rewrite fmap_app in Ho. destruct (ordered_around (pair_of it) (fmap (M := list) pair_of l1) (fmap (M := list) pair_of l2) Ho) as [A1 A2].
  assert (Hns : isnan (iscore it) = false) by (apply (scored_elem _ Hnan); rewrite <- El; apply elem_of_app; right; by left).
  apply (guides_counting (top (llo ++ l2)) w z llo l2 U _ _ _ (fun it' => lel (ikey it') (ikey it))); [exact Hok| | | |].
  - intros it' Hit'. by apply (precedes_le (top (llo ++ l2)) w z (llo ++ l2) U Hok Hnan).
  - unfold llo. apply Forall_app. split; [|constructor; [rewrite lel_ltl, ltl_irrefl; done|constructor]].
    apply Forall_fmap in A1. eapply Forall_impl; [exact A1|]. intros it' H'. by apply ltl_lel.
  - apply Forall_fmap in A2. eapply Forall_impl; [exact A2|]. intros it' H'. by apply ltl_lel_false.
  - intros i x k k' Hk' E. rewrite (bind_ret_eq _ _ _ _ _ E), (span_sum (top (llo ++ l2)) w z (llo ++ l2) U Hok); [done|]. rewrite length_app. lia.
Qed.

Lemma zslGetRank_ok w z l1 it l2 U : zsl_ok w z (l1 ++ it :: l2) U -> scored (l1 ++ it :: l2) ->
  ordered (pair_of <$> l1 ++ it :: l2) -> distinct_eles (l1 ++ it :: l2) -> zslGetRank (iscore it) (iele it) w = Ret (zlen l1 + 1) w.
Proof.
  intros Hok Hnan Ho Hdis. set (llo := l1 ++ [it]). assert (El : l1 ++ it :: l2 = llo ++ l2) by (unfold llo; by rewrite <- app_assoc).
  rewrite El in Hok, Hnan, Ho, Hdis. pose proof (rank_guides w z l1 it l2 U Hok Hnan Ho) as Hg. fold llo in Hg. pose proof (zo_top _ _ _ _ _ Hok) as HT.
  assert (Hdown : forall n k x h, (n <= top (llo ++ l2))%nat -> towers z llo !! k = Some (x, h) -> (n <= h)%nat -> (0 < n)%nat ->
    for_down_until n (rank_turn (iscore it) (iele it)) (Z.of_nat k, x) w = Ret (inr (zlen l1 + 1)) w).
  { induction n as [|n IH]; intros k x h Hn Hkx Hh Hpos; [lia|]. cbn [for_down_until]. unfold rank_turn at 1.
    destruct (walk_level_ok (top (llo ++ l2)) w z llo l2 U Hok _ _ _ Hg n k x h) as (x1 & k1 & E1 & Hs1); [lia|done|lia|].
    rewrite bind_assoc, (bind_ret_eq _ _ _ _ _ E1). destruct (spot_lower _ _ _ _ Hs1) as (h1 & Hk1 & Hh1).
    assert (Hlast : n = 0%nat -> k1 = length llo).
    { intros ->. pose proof (zo_heights _ _ _ _ _ Hok) as Hhs. apply Forall_app in Hhs as [Hhs _]. by apply (spot_zero z llo x1 k1 Hhs) in Hs1 as [-> _]. }
    destruct k1 as [|k1].
    - injection Hk1 as <- _. destruct n as [|n]; [unfold llo in Hlast; rewrite length_app in Hlast; cbn in Hlast; specialize (Hlast eq_refl); lia|].
      pose proof (zo_header _ _ _ _ _ Hok) as Hc. destruct (nodes w !! header z) as [nh|] eqn:Enh; [|done].
      rewrite bind_assoc, (bind_ret_eq _ _ _ _ _ (znode_eq w _ _ Enh)). cbn in Hc. injection Hc as -> _ _ _.
      apply (IH 0%nat (header z) 64%nat); [lia|done|lia|lia].
    - apply towers_lookup in Hk1 as Hk1'. destruct Hk1' as (it1 & Hit1 & [= Ex Eh]). 
      assert (Hin1 : it1 ∈ llo ++ l2) by (apply elem_of_app; left; by eapply list_elem_of_lookup_2).
      destruct (item_node _ _ _ _ _ Hok it1 Hin1) as (n1 & Hn1 & He1 & _). rewrite Ex in Hn1.
      rewrite bind_assoc, (bind_ret_eq _ _ _ _ _ (znode_eq w _ _ Hn1)), He1, sdscmp_eq.
      destruct (bool_decide_reflect (iele it1 = iele it)) as [Ee|Ee].
      + unfold bind, ret. do 2 f_equal. assert (Hidx : k1 = length l1); [|unfold zlen; lia].
        apply (NoDup_lookup (iele <$> llo ++ l2) _ _ (iele it) Hdis).
        * rewrite list_lookup_fmap. unfold llo in *. rewrite (lookup_app_l_Some _ _ _ _ Hit1). cbn. by rewrite Ee.
        * rewrite list_lookup_fmap, <- El, list_lookup_middle by done. done.
      + destruct n as [|n]; [|apply (IH (Datatypes.S k1) x1 h1); [lia|done|lia|lia]]. exfalso. specialize (Hlast eq_refl).
        unfold llo in Hlast, Hit1. rewrite length_app in Hlast. cbn in Hlast. rewrite lookup_app_r in Hit1 by lia.
        replace (k1 - length l1)%nat with 0%nat in Hit1 by lia. by injection Hit1 as <-. }
  unfold zslGetRank. rewrite (bind_ret_eq _ _ _ _ _ (the_zsl_eq _ _ _ _ _ Hok)), (zo_level _ _ _ _ _ Hok), Nat2Z.id.
  pose proof (top_ge (llo ++ l2)). rewrite (bind_ret_eq _ _ _ _ _ (Hdown (top (llo ++ l2)) 0%nat (header z) 64%nat ltac:(lia) eq_refl ltac:(lia) ltac:(lia))). done.
Qed.

(** The element of a rank; rank 0 is the header. *)
Lemma zslGetElementByRank_ok w z l U rank : zsl_ok w z l U -> 0 <= rank ->
  zslGetElementByRank rank w = Ret (if rank =? 0 then Some (header z) else iaddr <$> l !! Z.to_nat (rank - 1)) w.
Proof.
  intros Hok Hr. set (n := Z.to_nat rank). assert (Hn : Z.of_nat n = rank) by (unfold n; lia). clearbody n. set (llo := take n l). set (lhi := drop n l).
  assert (El : llo ++ lhi = l) by apply take_drop. pose proof Hok as Hok'. unfold zsl_ok in Hok'. rewrite <- El in Hok'.
  pose proof (guides_rank (top l) w z l U Hok n (fun t => t <=? rank)) as Hg. fold llo lhi in Hg.
  specialize (Hg ltac:(intros k' _; apply Bool.eq_iff_eq_true; rewrite bool_decide_eq_true, Z.leb_le; lia)).
  pose proof (zo_top _ _ _ _ _ Hok') as HT. pose proof (top_ge (llo ++ lhi)) as Hge.
  set (res := if rank =? 0 then Some (header z) else iaddr <$> l !! Z.to_nat (rank - 1)).
  assert (Hat : forall k x h, towers z llo !! k = Some (x, h) -> Z.of_nat k = rank -> res = Some x).
  { intros k x h Hk Ek. unfold res. destruct k as [|k]; [injection Hk as <- _; by rewrite <- Ek|].
    apply towers_lookup in Hk as (it & Hit & [= <- _]). rewrite (proj2 (Z.eqb_neq _ _)) by lia.
    replace (Z.to_nat (rank - 1)) with k by lia. rewrite <- El, (lookup_app_l_Some _ _ _ _ Hit). done. }
  assert (Hdown : forall m k x h, (m <= top (llo ++ lhi))%nat -> towers z llo !! k = Some (x, h) -> (m <= h)%nat -> (0 < m)%nat ->
    exists r, for_down_until m (by_rank_turn rank) (Z.of_nat k, x) w = Ret r w /\ match r with inr x => Some x | inl _ => None end = res).
  { induction m as [|m IH]; intros k x h Hm Hk Hh Hpos; [lia|]. cbn [for_down_until]. unfold by_rank_turn at 1.
    destruct (walk_level_ok (top (llo ++ lhi)) w z llo lhi U Hok' _ _ _ Hg m k x h) as (x1 & k1 & E1 & Hs1); [lia|done|lia|].
    rewrite bind_assoc, (bind_ret_eq _ _ _ _ _ E1). destruct (spot_lower _ _ _ _ Hs1) as (h1 & Hk1 & Hh1).
    unfold bind at 1, ret at 1. cbv beta iota. destruct (Z.eqb_spec (Z.of_nat k1) rank) as [Ek|Ek].
    - exists (inr x1). split; [done|]. symmetry. by eapply Hat.
    - destruct m as [|m]; [|by apply (IH k1 x1 h1); [lia|done|lia|lia]]. exists (inl (Z.of_nat k1, x1)). split; [done|].
      pose proof (zo_heights _ _ _ _ _ Hok') as Hhs. apply Forall_app in Hhs as [Hhs _]. destruct (spot_zero z llo x1 k1 Hhs Hs1) as [-> _].
      unfold res. unfold llo in Ek. rewrite length_take in Ek. rewrite (proj2 (Z.eqb_neq _ _)) by lia.
      by rewrite (lookup_ge_None_2 l) by lia. }
  destruct (Hdown (top (llo ++ lhi)) 0%nat (header z) 64%nat ltac:(reflexivity) eq_refl ltac:(lia) ltac:(lia)) as (r & E & Hres).
  unfold zslGetElementByRank. rewrite (bind_ret_eq _ _ _ _ _ (the_zsl_eq _ _ _ _ _ Hok)), (zo_level _ _ _ _ _ Hok'), Nat2Z.id.
  rewrite (bind_ret_eq _ _ _ _ _ E). unfold ret. f_equal. by destruct r.
Qed.

Implicit Types (N : gmap positive zskiplistNode).

(** ** Creation *)

(** A heap without nodes. *)
Definition zblank (d : world sds positive) (n : nat) : zworld :=
  {| zsl := None; nodes := ∅; zbrk := 1; zfreed := []; draws := n; zdict := d |}.
(** The header is the first node. *)
Definition bare_header : zskiplistNode :=
  {| ele := None; score := S754_zero false; backward := Some None; level := replicate 64 (full NIL) |}.
Definition empty_zsl : zskiplist := {| header := 1; tail := None; zlength := 0; zlevel := 1 |}.
Definition created (d : world sds positive) (n : nat) : zworld :=
  {| zsl := Some empty_zsl; nodes := {[1%positive := bare_header]}; zbrk := 2; zfreed := []; draws := n; zdict := d |}.

Lemma zslCreate_ok d n : zslCreate (zblank d n) = Ret tt (created d n) /\ zsl_ok (created d n) empty_zsl [] [].
Proof.
  assert (Hc : forall i, (i < 64)%nat -> cell_at {[1%positive := bare_header]} 1 i = Some (full (None, 0))).
  { intros i Hi. unfold cell_at. rewrite lookup_singleton_eq. cbn [mbind option_bind bare_header level]. by apply lookup_replicate. }
  split; [vm_compute; reflexivity|]. split; try done.
  - cbn. lia.
  - constructor; [set_solver|constructor].
  - repeat constructor.
  - intros i Hi. split; [intros _|done]. apply Hc. cbn in Hi. lia.
  - intros i Hi. exists 0. apply Hc. lia.
Qed.

(** ** Release *)
Lemma free_loop n : forall w prev l, (length l < n)%nat -> fields (nodes w) prev l -> linked (nodes w) 0 (tower_of <$> l) NIL ->
  Forall (fun it => 1 <= iheight it <= 64)%nat l -> NoDup (iaddr <$> l) -> dom (nodes w) = list_to_set (iaddr <$> l) ->
  exists w', while_loop n free_turn (first_addr l) w = Ret tt w' /\ nodes w' = ∅ /\ zdict w' = zdict w /\
    zfreed w' = reverse (iele <$> l) ++ zfreed w.
Proof.
  induction n as [|n IH]; intros w prev l Hn Hf Hl Hh Hnd Hdom; [lia|]. destruct l as [|it l].
  { exists w. split; [done|]. split; [by apply dom_empty_inv_L|done]. }
  destruct Hf as [Hit Hf], Hl as [Hc Hl]. apply Forall_cons in Hh as [Hh1 Hh]. apply NoDup_cons in Hnd as [Hx Hnd].
  cbn [while_loop first_addr head fmap option_fmap option_map free_turn]. specialize (Hc ltac:(lia)). fold (fmap (M := list) tower_of l) in Hc. rewrite (hop_zero l Hh) in Hc.
  assert (Ef : get_forward (iaddr it) 0 w = Ret (first_addr l) w) by (apply (get_forward_eq w _ 0%nat _ _ Hc); by destruct l).
  rewrite bind_assoc, (bind_ret_eq _ _ _ _ _ Ef). destruct (nodes w !! iaddr it) as [nd|] eqn:En; [|done]. cbn in Hit. injection Hit as He _ _ _.
  set (w1 := with_nodes (delete (iaddr it) (nodes w)) (with_zfreed (iele it :: zfreed w) w)).
  assert (E1 : zslFreeNode (iaddr it) w = Ret tt w1).
  { unfold zslFreeNode. rewrite (bind_ret_eq _ _ _ _ _ (znode_eq w _ _ En)), He. unfold sdsfree, get, put, bind at 1 2, zfree_node.
    by rewrite (bind_ret_eq _ _ _ _ _ (znode_eq (with_zfreed (iele it :: zfreed w) w) _ _ En)). }
  rewrite bind_assoc, (bind_ret_eq _ _ _ _ _ E1). unfold ret at 1, bind at 1.
  destruct (IH w1 (Some (iaddr it)) l) as (w' & E' & H1 & H2 & H3); try done.
  - cbn in Hn. lia.
  - eapply fields_frame; [|exact Hf]. intros q Hq. cbn. rewrite lookup_delete_ne; [done|]. intros Eq. apply Hx. by rewrite Eq.
  - eapply linked_frame; [|exact Hl]. intros q Hq. rewrite tower_addrs in Hq. unfold cell_at. cbn. rewrite lookup_delete_ne; [done|]. intros Eq. apply Hx. by rewrite Eq.
  - cbn. rewrite dom_delete_L, Hdom. cbn. set_solver.
  - exists w'. split; [exact E'|]. split; [done|]. split; [done|]. rewrite H3, fmap_cons. by rewrite reverse_cons, <- app_assoc.
Qed.

Lemma zslFree_ok w z l : zsl_ok w z l [] -> exists w', zslFree w = Ret tt w' /\ zsl w' = None /\ nodes w' = ∅ /\ zdict w' = zdict w /\
  zfreed w' = reverse (iele <$> l) ++ zfreed w.
Proof.
  intros Hok. unfold zslFree. rewrite (bind_ret_eq _ _ _ _ _ (the_zsl_eq _ _ _ _ _ Hok)), (bind_ret_eq _ _ _ _ _ (forward_header _ _ _ _ _ Hok)).
  pose proof (zo_header _ _ _ _ _ Hok) as Hhd. destruct (nodes w !! header z) as [nh|] eqn:Eh; [|done].
  set (w1 := with_nodes (delete (header z) (nodes w)) w).
  assert (E1 : zfree_node (header z) w = Ret tt w1) by (unfold zfree_node; by rewrite (bind_ret_eq _ _ _ _ _ (znode_eq w _ _ Eh))).
  rewrite (bind_ret_eq _ _ _ _ _ E1). unfold list_fuel. pose proof (zo_addrs _ _ _ _ _ Hok) as Hnd. unfold used_by in Hnd.
  rewrite app_nil_r in Hnd. apply NoDup_cons in Hnd as [Hx Hnd].
  assert (Hdom : dom (nodes w1) = list_to_set (iaddr <$> l)).
  { cbn. rewrite dom_delete_L, (zo_dom _ _ _ _ _ Hok). unfold used_by. rewrite app_nil_r. cbn. set_solver. }
  pose proof (zo_linked _ _ _ _ _ Hok 0%nat ltac:(pose proof (top_ge l); lia)) as [_ Hl].
  destruct (free_loop (Datatypes.S (base.size (nodes w1))) w1 None l) as (w' & E' & H1 & H2 & H3); try done.
  - rewrite <- size_dom, Hdom, size_list_to_set, length_fmap by done. lia.
  - eapply fields_frame; [|apply (zo_fields _ _ _ _ _ Hok)]. intros q Hq. cbn. rewrite lookup_delete_ne; [done|]. intros Eq. apply Hx. by rewrite Eq.
  - eapply linked_frame; [|exact Hl]. intros q Hq. rewrite tower_addrs in Hq. unfold cell_at. cbn. rewrite lookup_delete_ne; [done|]. intros Eq. apply Hx. by rewrite Eq.
  - apply Hok.
  - exists (with_zsl None w'). unfold get at 1, bind at 1. unfold bind at 1, ret at 1. rewrite (bind_ret_eq _ _ _ _ _ E'). done.
Qed.
