(* ===== verification/ZsetDict.v ===== *)
(** The dictionary of a sorted set: it maps the text of every element to the element
    and the address of its node. What the code asks of it, in terms of the list. *)
From Stdlib Require Import Floats.SpecFloat Sorting.Sorted.
From S2P Require Import Prelude Util Dict DictProofs DictRehash DictOps DictMap Zskiplist ZslOrder ZslLinks ZslProofs ZslInsert ZslDelete ZslOps ZslRange.
#[local] Open Scope Z_scope.
Implicit Types (l : list item) (it : item) (d : world sds positive) (e : sds).

Lemma bind_inv {X A B} (m : M X A) (f : A -> M X B) s b s' : bind m f s = Ret b s' -> exists a s1, m s = Ret a s1 /\ f a s1 = Ret b s'.
Proof. unfold bind. destruct (m s) as [a s1| |]; [|done..]. intros E. by exists a, s1. Qed.

(** ** The index of a list *)
Definition entry_of_item it : list Z * (sds * positive) := (text (iele it), (iele it, iaddr it)).
Definition index_of l : gmap (list Z) (sds * positive) := list_to_map (entry_of_item <$> l).

Lemma index_keys l : (entry_of_item <$> l).*1 = text <$> (iele <$> l).
Proof. by rewrite <- !list_fmap_compose. Qed.
#[export] Instance text_inj : Inj (=) (=) text.
Proof. intros e e'. apply sds_eq. Qed.
Lemma index_nodup l : distinct_eles l -> NoDup (entry_of_item <$> l).*1.
Proof. intros H. rewrite index_keys. by apply NoDup_fmap_2; [apply _|]. Qed.
Lemma index_perm l l' : distinct_eles l -> l ≡ₚ l' -> index_of l = index_of l'.
Proof. intros H HP. apply list_to_map_proper; [by apply index_nodup|by rewrite HP]. Qed.
Lemma index_lookup l1 it l2 : distinct_eles (l1 ++ it :: l2) -> index_of (l1 ++ it :: l2) !! text (iele it) = Some (iele it, iaddr it).
Proof.
  intros H. apply elem_of_list_to_map; [by apply index_nodup|]. rewrite fmap_app. apply elem_of_app. right. by left.
Qed.
Lemma index_none l e : e ∉ iele <$> l -> index_of l !! text e = None.
Proof.
  intros H. apply not_elem_of_list_to_map. rewrite index_keys. intros (e' & Ee & He')%list_elem_of_fmap. apply sds_eq in Ee as ->. done.
Qed.
Lemma index_delete l1 it l2 : distinct_eles (l1 ++ it :: l2) -> delete (text (iele it)) (index_of (l1 ++ it :: l2)) = index_of (l1 ++ l2).
Proof.
  intros H. assert (HP : l1 ++ it :: l2 ≡ₚ it :: (l1 ++ l2)) by solve_Permutation. rewrite (index_perm _ _ H HP).
  unfold distinct_eles in H. rewrite HP in H. cbn in H. apply NoDup_cons in H as [H _]. unfold index_of. cbn.
  apply delete_insert_id. by apply index_none.
Qed.
Lemma index_size l : distinct_eles l -> base.size (index_of l) = length l.
Proof.
  induction l as [|it l IH]; intros H; [done|]. apply NoDup_cons in H as [H1 H2]. unfold index_of. cbn.
  rewrite map_size_insert_None by by apply index_none. fold (index_of l). by rewrite IH.
Qed.

(** ** The type of the dictionary *)

(** The default hash function computes a 64-bit number. *)
Class Hash64 (siphash : list Z -> Z) : Prop := hash64 t : 0 <= siphash t < 2 ^ 64.

#[export] Instance zset_dict_laws siphash `{Hash64 siphash} : DictLaws (zsetDictType siphash) (list Z).
Proof.
  refine {| content := text |}.
  - intros k k'. apply dictSdsKeyCompare_eq.
  - intros k k' E. cbn. by rewrite E.
  - intros k. apply (hash64 (text k)).
  - done.
Defined.

Section tracked.
Context (siphash : list Z -> Z) `{Hash64 siphash}.
Abbreviation type := (zsetDictType siphash).

Definition indexed l : spec sds positive (list Z) := {| bound := index_of l; gone_keys := []; gone_vals := [] |}.
(** The dictionary [d] knows the nodes of [l]. *)
Definition tracked d l : Prop := implements type d (indexed l).

Lemma tracked_perm d l l' : distinct_eles l -> l ≡ₚ l' -> tracked d l -> tracked d l'.
Proof. intros Hd HP. unfold tracked, indexed. by rewrite (index_perm l l' Hd HP). Qed.

Lemma find_none d l e : tracked d l -> e ∉ iele <$> l -> exists d', dictFind type e d = Ret None d' /\ tracked d' l.
Proof.
  intros (dd & L0 & L1 & Hh) He. destruct (step_holds _ _ _ _ _ _ Hh) as (d1 & dd1 & L01 & L11 & Hst & Hh1).
  destruct (find_at type d dd L0 L1 [] d1 dd1 L01 L11 e (proj1 Hh) Hst) as (d' & E & Hd').
  pose proof (look_eq type d dd L0 L1 (indexed l) e Hh) as Hl. exists d'. rewrite E.
  destruct (lookup_node type (content e) (concat L0 ++ concat L1)) as [n|].
  - destruct Hl as (x & R & _ & Hb & _). cbn in Hb. by rewrite (index_none l e He) in Hb.
  - split; [done|]. destruct Hd' as [->| ->]; by do 3 eexists.
Qed.

(** The entry that is found, whose value the code may overwrite. *)
Lemma find_some d l1 it l2 : tracked d (l1 ++ it :: l2) -> distinct_eles (l1 ++ it :: l2) -> exists de d' en,
  dictFind type (iele it) d = Ret (Some de) d' /\ tracked d' (l1 ++ it :: l2) /\ entries d' !! de = Some en /\ v en = Some (iaddr it) /\
  forall l' it', l' ≡ₚ it' :: (l1 ++ l2) -> iele it' = iele it ->
    tracked (with_entries (<[de := {| key := key en; v := Some (iaddr it'); next := next en |}]> (entries d')) d') l'.
Proof.
  intros (dd & L0 & L1 & Hh) Hdis. destruct (step_holds _ _ _ _ _ _ Hh) as (d1 & dd1 & L01 & L11 & Hst & Hh1).
  destruct (find_at type d dd L0 L1 [] d1 dd1 L01 L11 (iele it) (proj1 Hh) Hst) as (d' & E & Hd').
  pose proof (look_eq type d dd L0 L1 _ (iele it) Hh) as Hl. cbn [bound indexed] in Hl.
  destruct (lookup_node type (content (iele it)) (concat L0 ++ concat L1)) as [n|].
  2: { exfalso. pose proof (index_lookup l1 it l2 Hdis) as Hi. cbn in Hl. congruence. }
  destruct Hl as (x & R & Hx & Hb & Hc & HN). pose proof (index_lookup l1 it l2 Hdis) as Hi. cbn in Hb. rewrite Hi in Hb.
  injection Hb as Hk Hx'. subst x.
  assert (Hex : exists dd' L0' L1', holds type d' dd' L0' L1' (indexed (l1 ++ it :: l2)) /\ concat L0' ++ concat L1' ≡ₚ n :: R).
  { destruct Hd' as [->| ->]; [by exists dd, L0, L1|]. exists dd1, L01, L11. split; [done|]. destruct Hst as (_ & _ & HP & _). by rewrite HP. }
  destruct Hex as (dd' & L0' & L1' & Hh' & HN').
  destruct (node_entry type d' dd' L0' L1' [] n (proj1 Hh')) as (q & Hq); [rewrite HN'; by left|].
  exists (addr n), d', (entry_of q n). cbn [v entry_of key next]. split; [exact E|]. split; [by do 3 eexists|]. split; [done|]. split; [done|].
  intros l' it' HP Hit'. set (d2 := with_entries _ d').
  destruct (value_ok type d' dd' L0' L1' [] n R q (iaddr it') d2 (proj1 Hh') HN' Hq eq_refl eq_refl eq_refl eq_refl) as (L0'' & L1'' & Hok2 & HN2 & _).
  exists dd', L0'', L1''.
  pose proof (holds_put type d' dd' L0' L1' _ d2 dd' L0'' L1'' n R (iele it) (iaddr it') [] Hh' (or_intror HN') Hok2 HN2 Hc) as Hput.
  replace (indexed l') with {| bound := <[content (type := type) (iele it) := (nkey n, iaddr it')]> (bound (indexed (l1 ++ it :: l2)));
    gone_keys := gone_keys (indexed (l1 ++ it :: l2)); gone_vals := [] ++ gone_vals (indexed (l1 ++ it :: l2)) |}; [by apply Hput|].
  unfold indexed. cbn [bound gone_keys gone_vals app]. f_equal. change (content (type := type) (iele it)) with (text (iele it)).
  assert (HP0 : l1 ++ it :: l2 ≡ₚ it :: (l1 ++ l2)) by solve_Permutation. rewrite (index_perm _ _ Hdis HP0).
  assert (Hdis' : distinct_eles (it' :: l1 ++ l2)) by (unfold distinct_eles in *; rewrite HP0 in Hdis; cbn in *; by rewrite Hit').
  rewrite (index_perm l' (it' :: l1 ++ l2)); [|unfold distinct_eles; by rewrite HP|done]. unfold index_of. cbn.
  by rewrite insert_insert_eq, <- Hk, Hit'.
Qed.

Lemma add_tracked d l it : tracked d l -> iele it ∉ iele <$> l -> distinct_eles l -> zlen l < 2 ^ 32 -> exists d',
  dictAdd type (iele it) (iaddr it) d = Ret DICT_OK d' /\ tracked d' (it :: l).
Proof.
  intros Ht He Hdis Hf. destruct (command_ok type (Add (iele it) (iaddr it)) d (indexed l) Ht) as (d' & E & Hi).
  - cbn. rewrite index_size by done. unfold zlen in Hf. lia.
  - done.
  - unfold perform in E. apply bind_inv in E as (r & d1 & E & E'). injection E' as E' ->. exists d'.
    unfold respond in E', Hi. cbn [bound indexed] in E', Hi. change (content (type := type) (iele it)) with (text (iele it)) in *.
    rewrite (index_none l _ He) in E', Hi. cbn in E'. injection E' as ->. done.
Qed.

Lemma delete_tracked d l1 it l2 : tracked d (l1 ++ it :: l2) -> distinct_eles (l1 ++ it :: l2) -> zlen (l1 ++ it :: l2) < 2 ^ 32 -> exists r d',
  dictDelete type (iele it) d = Ret r d' /\ tracked d' (l1 ++ l2).
Proof.
  intros Ht Hdis Hf. destruct (command_ok type (Remove (iele it)) d _ Ht) as (d' & E & Hi).
  - cbn. rewrite index_size by done. unfold zlen in Hf. lia.
  - done.
  - unfold perform in E. apply bind_inv in E as (r & d1 & E & E'). injection E' as E' ->. exists r, d'. split; [done|].
    unfold respond in Hi. cbn [bound indexed] in Hi. change (content (type := type) (iele it)) with (text (iele it)) in *.
    rewrite (index_lookup _ _ _ Hdis) in Hi. unfold tracked, indexed. by rewrite <- (index_delete _ _ _ Hdis).
Qed.

Lemma unlink_tracked d l1 it l2 : tracked d (l1 ++ it :: l2) -> distinct_eles (l1 ++ it :: l2) -> zlen (l1 ++ it :: l2) < 2 ^ 32 ->
  exists de d1 en d2, dictUnlink type (iele it) d = Ret (Some de) d1 /\ entries d1 !! de = Some en /\ v en = Some (iaddr it) /\
    dictFreeUnlinkedEntry type (Some de) d1 = Ret tt d2 /\ tracked d2 (l1 ++ l2).
Proof.
  intros Ht Hdis Hf. destruct (command_ok type (Unlink (iele it)) d _ Ht) as (d2 & E & Hi).
  - cbn. rewrite index_size by done. unfold zlen in Hf. lia.
  - done.
  - unfold respond in Hi, E. cbn [bound indexed] in Hi, E. change (content (type := type) (iele it)) with (text (iele it)) in *.
    rewrite (index_lookup _ _ _ Hdis) in Hi, E. unfold perform in E. apply bind_inv in E as (he & d1 & E1 & E). destruct he as [de|]; [|done].
    apply bind_inv in E as (en & d1' & E2 & E). unfold load in E2. destruct (entries d1 !! de) as [en'|] eqn:Een; [|done]. injection E2 as -> <-.
    apply bind_inv in E as ([] & d2' & E3 & E). injection E as Ev ->. exists de, d1, en, d2. do 4 (split; [done|]).
    unfold tracked, indexed. by rewrite <- (index_delete _ _ _ Hdis).
Qed.

Lemma unlink_none d l e : tracked d l -> e ∉ iele <$> l -> exists d', dictUnlink type e d = Ret None d' /\ tracked d' l.
Proof.
  intros (dd & L0 & L1 & Hh) He. destruct (step_holds _ _ _ _ _ _ Hh) as (d1 & dd1 & L01 & L11 & Hst & Hh1).
  pose proof (generic_delete_at type d dd L0 L1 d1 dd1 L01 L11 [] e true (proj1 Hh) Hst) as Hdel.
  pose proof (look_eq type d1 dd1 L01 L11 (indexed l) e Hh1) as Hl. unfold dictUnlink.
  destruct (lookup_node type (content e) (concat L01 ++ concat L11)) as [n|].
  - destruct Hl as (x & R & _ & Hb & _). cbn in Hb. by rewrite (index_none l e He) in Hb.
  - destruct Hdel as (d' & E & Hd'). exists d'. split; [done|]. destruct Hd' as [->| ->]; by do 3 eexists.
Qed.

Lemma resize_tracked d l : tracked d l -> distinct_eles l -> zlen l < 2 ^ 32 -> exists dd, the d = Ret dd d /\ exists r d', dictResize d = Ret r d' /\ tracked d' l.
Proof.
  intros Ht Hdis Hf. pose proof Ht as (dd & L0 & L1 & Hok & _). exists dd. split; [by apply the_eq, Hok|].
  destruct (command_ok type Resize d _ Ht) as (d' & E & Hi).
  - cbn. rewrite index_size by done. unfold zlen in Hf. lia.
  - done.
  - unfold perform in E. apply bind_inv in E as (r & d1 & E & E'). injection E' as ->. by exists r, d'.
Qed.

Lemma create_tracked resize forked : exists d, dictCreate (blank resize forked) = Ret tt d /\ tracked d [].
Proof. apply (create_ok type (C := list Z)). Qed.

Lemma release_tracked d l : tracked d l -> exists d', dictRelease type d = Ret tt d' /\ the_dict d' = None /\ entries d' = ∅ /\ tables d' = ∅ /\
  freed_keys d' = [] /\ freed_vals d' = [].
Proof.
  intros Ht. destruct (release_all type d _ Ht) as (d' & E & H1 & H2 & H3 & H4 & H5). exists d'.
  apply Permutation_nil_r in H4, H5. done.
Qed.
End tracked.
