(* ===== verification/ZsetOps.v ===== *)
(** The operations of a sorted set that keep its skip list and its dictionary together,
    each against the list of its members. *)
From Stdlib Require Import Floats.SpecFloat Sorting.Sorted.
From stdpp Require Import sorting.
From S2P Require Import Prelude Util Dict DictProofs DictOps DictMap Zskiplist ZslOrder ZslLinks ZslProofs ZslInsert ZslDelete ZslOps ZslRange ZsetDict.
#[local] Open Scope Z_scope.
Implicit Types (w : zworld) (z : zskiplist) (l : list item) (it : item) (d : world sds positive) (e : sds) (ps : list member).

Lemma i64_id x : -9223372036854775808 <= x < 9223372036854775808 -> i64 x = x.
Proof. intros Hx. unfold i64. rewrite Z.mod_small by lia. lia. Qed.

(** ** Members by element *)
Definition find_member e ps : option (nat * member) := list_find (fun p => p.2 = e) ps.
Definition remove_ele e ps : list member := without (fun p => bool_decide (p.2 = e)) ps.

Lemma member_cases e l : (exists l1 it l2, l = l1 ++ it :: l2 /\ iele it = e) \/ e ∉ iele <$> l.
Proof.
  destruct (decide (e ∈ iele <$> l)) as [He|He]; [|by right]. left.
  apply list_elem_of_fmap in He as (it & -> & (l1 & l2 & ->)%list_elem_of_split). by exists l1, it, l2.
Qed.
Lemma distinct_around l1 it l2 : distinct_eles (l1 ++ it :: l2) ->
  Forall (fun it' => iele it' <> iele it) l1 /\ Forall (fun it' => iele it' <> iele it) l2 /\ distinct_eles (l1 ++ l2).
Proof.
  unfold distinct_eles. rewrite !fmap_app, fmap_cons. intros (H1 & H2 & H3)%NoDup_app. apply NoDup_cons in H3 as [H3 H4].
  split; [|split].
  - apply Forall_forall. intros it' Hit' E. apply (H2 (iele it')); [by apply list_elem_of_fmap_2|]. rewrite E. by left.
  - apply Forall_forall. intros it' Hit' E. apply H3. rewrite <- E. by apply list_elem_of_fmap_2.
  - apply NoDup_app. split; [done|]. split; [|done]. intros x Hx Hx'. apply (H2 x Hx). by right.
Qed.
Lemma find_at_place l1 it l2 : distinct_eles (l1 ++ it :: l2) ->
  find_member (iele it) (pair_of <$> l1 ++ it :: l2) = Some (length l1, pair_of it).
Proof.
  intros (H1 & _)%distinct_around. apply list_find_Some. split; [|split; [done|]].
  - rewrite list_lookup_fmap, lookup_app_r, Nat.sub_diag by done. done.
  - intros j p (it' & -> & Hit')%list_lookup_fmap_Some Hj. rewrite lookup_app_l in Hit' by done.
    by apply (Forall_lookup_1 _ _ _ _ H1 Hit').
Qed.
Lemma find_nowhere e l : e ∉ iele <$> l -> find_member e (pair_of <$> l) = None /\ remove_ele e (pair_of <$> l) = pair_of <$> l.
Proof.
  intros He. split.
  - apply list_find_None, Forall_fmap, Forall_forall. intros it Hit E. apply He. change (iele it = e) in E. rewrite <- E. by apply list_elem_of_fmap_2.
  - apply filter_none, Forall_fmap, Forall_forall. intros it Hit. apply bool_decide_eq_false. intros E. apply He. change (iele it = e) in E. rewrite <- E. by apply list_elem_of_fmap_2.
Qed.
Lemma remove_at_place l1 it l2 : distinct_eles (l1 ++ it :: l2) ->
  remove_ele (iele it) (pair_of <$> l1 ++ it :: l2) = pair_of <$> l1 ++ l2.
Proof.
  intros (H1 & H2 & _)%distinct_around. unfold remove_ele, without. rewrite !fmap_app, List.filter_app. cbn.
  rewrite bool_decide_true by done. cbn. f_equal.
  - apply (filter_all (fun p => negb (bool_decide (p.2 = iele it)))), Forall_fmap. eapply Forall_impl; [exact H1|]. cbn. intros it' Hne.
    by rewrite bool_decide_false.
  - apply (filter_all (fun p => negb (bool_decide (p.2 = iele it)))), Forall_fmap. eapply Forall_impl; [exact H2|]. cbn. intros it' Hne.
    by rewrite bool_decide_false.
Qed.
Lemma same_place l1 it l2 l1' it' l2' : distinct_eles (l1 ++ it :: l2) -> l1 ++ it :: l2 = l1' ++ it' :: l2' -> iele it' = iele it ->
  l1 = l1' /\ l2 = l2'.
Proof.
  intros Hd E Ee. pose proof (find_at_place _ _ _ Hd) as F. rewrite E in Hd, F. pose proof (find_at_place _ _ _ Hd) as F'.
  rewrite Ee in F'. rewrite F in F'. injection F' as Hlen _. apply app_inj_1 in E as [-> [= _ ->]]; done.
Qed.

(** ** Sorted sets *)
Section zset.
Context (siphash : list Z -> Z) `{Hash64 siphash} (random : nat -> Z) (luck : nat) `{Lucky random luck}.
Abbreviation type := (zsetDictType siphash).

Record zset_ok w z l : Prop := {
  zs_list : zsl_ok w z l [];
  zs_scored : scored l;
  zs_ordered : ordered (pair_of <$> l);
  zs_distinct : distinct_eles l;
  zs_tracked : tracked siphash (zdict w) l
}.

Lemma in_dict_eq {A} (m : M (world sds positive) A) w a d : m (zdict w) = Ret a d -> in_dict m w = Ret a (with_zdict d w).
Proof. intros E. unfold in_dict. by rewrite E. Qed.
Lemma zsl_inv_zdict T w z l U d : zsl_inv T w z l U -> zsl_inv T (with_zdict d w) z l U.
Proof. by intros [H1 H2 H3 H4 H5 H6 H7 H8 H9 H10 H11 H12 H13 H14]. Qed.
Lemma zset_ok_zdict w z l d : zset_ok w z l -> tracked siphash d l -> zset_ok (with_zdict d w) z l.
Proof. intros [H1 H2 H3 H4 H5] Ht. split; [by apply zsl_inv_zdict|done..]. Qed.
(** The list changed, and the dictionary with it. *)
Lemma zset_ok_list w z l w' z' l' : zset_ok w z l -> zsl_ok w' z' l' [] -> scored l' -> ordered (pair_of <$> l') -> distinct_eles l' ->
  tracked siphash (zdict w') l' -> zset_ok w' z' l'.
Proof. by split. Qed.

Lemma zsetLength_eq w z l : zset_ok w z l -> zsetLength w = Ret (zlen l) w.
Proof. intros [Hok _ _ _ _]. unfold zsetLength. by rewrite (bind_ret_eq _ _ _ _ _ (the_zsl_eq _ _ _ _ _ Hok)), <- (zo_length _ _ _ _ _ Hok). Qed.

(** What an entry of the dictionary leads to. *)
Lemma entry_score_eq w d z l it de en : zsl_ok w z l [] -> it ∈ l -> entries d !! de = Some en -> v en = Some (iaddr it) ->
  entry_score de (with_zdict d w) = Ret (iscore it) (with_zdict d w).
Proof.
  intros Hok Hit Hde Hv. destruct (item_node _ _ _ _ _ Hok it Hit) as (n & Hn & _ & Hs & _). unfold entry_score, entry_node.
  assert (El : in_dict (load de) (with_zdict d w) = Ret en (with_zdict d w)) by (unfold in_dict, load; cbn; by rewrite Hde).
  rewrite bind_assoc, (bind_ret_eq _ _ _ _ _ El), Hv. unfold ret at 1, bind at 1.
  by rewrite (bind_ret_eq _ _ _ _ _ (znode_eq (with_zdict d w) _ _ Hn)), Hs.
Qed.

(** *** [zsetScore] *)
Lemma zsetScore_ok w z l e : zset_ok w z l -> exists w', zsetScore siphash e w = Ret (fst ∘ snd <$> find_member e (pair_of <$> l)) w' /\
  zset_ok w' z l /\ zfreed w' = zfreed w.
Proof.
  intros Hok. pose proof Hok as [Hl Hs Ho Hd Ht]. unfold zsetScore. destruct (member_cases e l) as [(l1 & it & l2 & -> & <-)|He].
  - destruct (find_some siphash _ _ _ _ Ht Hd) as (de & d' & en & E & Ht' & Hen & Hv & _).
    rewrite (bind_ret_eq _ _ _ _ _ (in_dict_eq _ w _ _ E)), find_at_place by done.
    rewrite (bind_ret_eq _ _ _ _ _ (entry_score_eq w d' z _ it de en Hl ltac:(apply elem_of_app; right; by left) Hen Hv)).
    exists (with_zdict d' w). split; [done|]. split; [by apply zset_ok_zdict|done].
  - destruct (find_none siphash _ _ _ Ht He) as (d' & E & Ht'). destruct (find_nowhere _ _ He) as [-> _].
    rewrite (bind_ret_eq _ _ _ _ _ (in_dict_eq _ w _ _ E)). exists (with_zdict d' w). split; [done|]. split; [by apply zset_ok_zdict|done].
Qed.

(** *** [zsetRank] *)
Definition rank_of (reverse : bool) e ps : Z :=
  match find_member e ps with
  | Some (i, _) => if reverse then zlen ps - 1 - Z.of_nat i else Z.of_nat i
  | None => -1
  end.
Lemma zsetRank_ok w z l e reverse : zset_ok w z l -> exists w', zsetRank siphash e reverse w = Ret (rank_of reverse e (pair_of <$> l)) w' /\
  zset_ok w' z l /\ zfreed w' = zfreed w.
Proof.
  intros Hok. pose proof Hok as [Hl Hs Ho Hd Ht]. unfold zsetRank, rank_of. rewrite (bind_ret_eq _ _ _ _ _ (zsetLength_eq w z l Hok)).
  destruct (member_cases e l) as [(l1 & it & l2 & -> & <-)|He].
  - destruct (find_some siphash _ _ _ _ Ht Hd) as (de & d' & en & E & Ht' & Hen & Hv & _). set (w' := with_zdict d' w).
    assert (Hit : it ∈ l1 ++ it :: l2) by (apply elem_of_app; right; by left). pose proof (zset_ok_zdict _ _ _ _ Hok Ht') as Hok'. fold w' in Hok'.
    rewrite (bind_ret_eq _ _ _ _ _ (in_dict_eq _ w _ _ E)), find_at_place by done.
    rewrite (bind_ret_eq _ _ _ _ _ (entry_score_eq w d' z _ it de en Hl Hit Hen Hv)).
    rewrite (bind_ret_eq _ _ _ _ _ (zslGetRank_ok w' z l1 it l2 [] (zs_list _ _ _ Hok') Hs Ho Hd)).
    exists w'. split; [|done]. pose proof (zo_few _ _ _ _ _ Hl) as Hf. rewrite zlen_app, zlen_cons in Hf. rewrite zlen_fmap, zlen_app, zlen_cons.
    pose proof (zlen_nonneg l1). pose proof (zlen_nonneg l2). rewrite (proj2 (Z.eqb_neq (zlen l1 + 1) 0)) by lia.
    unfold ret. destruct reverse; f_equal; (rewrite i64_id by lia); unfold zlen; lia.
  - destruct (find_none siphash _ _ _ Ht He) as (d' & E & Ht'). destruct (find_nowhere _ _ He) as [-> _].
    rewrite (bind_ret_eq _ _ _ _ _ (in_dict_eq _ w _ _ E)). exists (with_zdict d' w). split; [done|]. split; [by apply zset_ok_zdict|done].
Qed.
End zset.
