(* ===== verification/ZsetEdit.v ===== *)
(** The operations that change a sorted set: adding and updating, removing one element,
    and removing a range. *)
From Stdlib Require Import Floats.SpecFloat Sorting.Sorted.
From stdpp Require Import sorting.
From S2P Require Import Prelude Util Dict DictProofs DictOps DictMap Zskiplist ZslOrder ZslLinks ZslProofs ZslInsert ZslDelete ZslOps ZslRange ZsetDict ZsetOps.
#[local] Open Scope Z_scope.
Implicit Types (w : zworld) (z : zskiplist) (l : list item) (it : item) (d : world sds positive) (e : sds) (ps : list member).

(** ** What is promised *)

(** The members after [ZADD], and its answer. *)
Definition add_member (s : double) e (flags : Z) ps : list member * added :=
  let incr := negb (Z.land flags ZADD_INCR =? 0) in
  let nx := negb (Z.land flags ZADD_NX =? 0) in
  let xx := negb (Z.land flags ZADD_XX =? 0) in
  if isnan s then (ps, (0, ZADD_NAN, None))
  else
    match find_member e ps with
    | None => if xx then (ps, (1, ZADD_NOP, None)) else (insert_member (s, e) ps, (1, ZADD_ADDED, Some s))
    | Some (_, (cur, _)) =>
        if nx then (ps, (1, ZADD_NOP, None))
        else
          let s' := if incr then SFadd 53 1024 s cur else s in
          let newscore := if incr then Some s' else None in
          if isnan s' then (ps, (0, ZADD_NAN, None))
          else if SFeqb s' cur then (ps, (1, 0, newscore))
          else (insert_member (s', e) (remove_ele e ps), (1, ZADD_UPDATED, newscore))
    end.

Lemma scored_perm l l' : l ≡ₚ l' -> scored l -> scored l'.
Proof. intros HP Hs. unfold scored in *. by rewrite <- HP. Qed.
Lemma distinct_perm l l' : l ≡ₚ l' -> distinct_eles l -> distinct_eles l'.
Proof. unfold distinct_eles. intros HP. by rewrite HP. Qed.
Lemma pkey_ele (s s' : double) e e' : pkey (s, e) = pkey (s', e') -> e = e'.
Proof. by intros [_ E]%okey_inj. Qed.
Lemma pkey_absent s e l : e ∉ iele <$> l -> pkey (s, e) ∉ pkey <$> (pair_of <$> l).
Proof.
  intros He (p & Ep & (it & -> & Hit)%list_elem_of_fmap)%list_elem_of_fmap. apply He.
  apply pkey_ele in Ep. rewrite Ep. by apply list_elem_of_fmap_2.
Qed.

Section zset.
Context (siphash : list Z -> Z) `{Hash64 siphash} (random : nat -> Z) (luck : nat) `{Lucky random luck}.
Abbreviation type := (zsetDictType siphash).
Abbreviation zset_ok := (zset_ok siphash).

(** *** Adding *)
Lemma add_new_ok w z l s e : zset_ok w z l -> e ∉ iele <$> l -> isnan s = false -> zlen l + 1 < 2 ^ 32 -> exists w' z' l',
  (let* znode := zslInsert random luck s e in
   let* r := in_dict (dictAdd type e znode) in
   if negb (r =? DICT_OK) then fail AssertFail else ret (1, ZADD_ADDED, Some s)) w = Ret (1, ZADD_ADDED, Some s) w' /\
  zset_ok w' z' l' /\ pair_of <$> l' = insert_member (s, e) (pair_of <$> l) /\ zfreed w' = zfreed w.
Proof.
  intros [Hl Hsc Ho Hd Ht] He Hs Hfew.
  destruct (insert_member_ok random luck w z l [] Hl Hsc Ho s e Hs Hfew) as (it & w1 & z1 & l' & E1 & [= Es Ee] & Hl1 & Hp & HP & [Hd1 Hf1]).
  rewrite (bind_ret_eq _ _ _ _ _ E1). rewrite <- Ee in He. rewrite <- Hd1 in Ht.
  destruct (add_tracked siphash (zdict w1) l it Ht He Hd ltac:(lia)) as (d' & E2 & Ht2). rewrite Ee in E2.
  rewrite (bind_ret_eq _ _ _ _ _ (in_dict_eq _ w1 _ _ E2)). exists (with_zdict d' w1), z1, l'. split; [done|].
  assert (Hd' : distinct_eles (it :: l)) by by apply NoDup_cons.
  split; [|done]. split.
  - by apply zsl_inv_zdict.
  - apply (scored_perm (it :: l)); [done|]. apply Forall_cons. by rewrite Es.
  - rewrite Hp. apply ordered_insert; [done|]. apply pkey_absent. by rewrite <- Ee.
  - by apply (distinct_perm (it :: l)).
  - by apply (tracked_perm siphash _ (it :: l)).
Qed.

Lemma rescored l1 it l2 it' l' : scored (l1 ++ it :: l2) -> distinct_eles (l1 ++ it :: l2) -> l' ≡ₚ it' :: (l1 ++ l2) ->
  isnan (iscore it') = false -> iele it' = iele it -> scored l' /\ distinct_eles l'.
Proof.
  unfold scored, distinct_eles. intros Hsc Hd HP' Hs He. rewrite HP'.
  assert (HP : l1 ++ it :: l2 ≡ₚ it :: (l1 ++ l2)) by solve_Permutation. rewrite HP in Hsc, Hd.
  apply Forall_cons in Hsc as [_ Hsc]. split; [by apply Forall_cons|]. cbn in *. by rewrite He.
Qed.

(** The entry of the dictionary is made to point to the new node. *)
Lemma repoint_eq w de en p : entries (zdict w) !! de = Some en ->
  (let* old := in_dict (load de) in in_dict (save de {| key := key old; v := Some p; next := next old |})) w =
  Ret tt (with_zdict (with_entries (<[de := {| key := key en; v := Some p; next := next en |}]> (entries (zdict w))) (zdict w)) w).
Proof.
  intros Hen. assert (El : in_dict (load de) w = Ret en w) by (unfold in_dict, load; rewrite Hen; by destruct w).
  rewrite (bind_ret_eq _ _ _ _ _ El). unfold in_dict, save, load, put, get, bind, ret. by rewrite ?Hen.
Qed.

(** *** Changing the score *)
Lemma change_ok w d' z l1 it l2 de en s : zset_ok w z (l1 ++ it :: l2) -> tracked siphash d' (l1 ++ it :: l2) ->
  entries d' !! de = Some en -> isnan s = false ->
  (forall l' it', l' ≡ₚ it' :: (l1 ++ l2) -> iele it' = iele it ->
    tracked siphash (with_entries (<[de := {| key := key en; v := Some (iaddr it'); next := next en |}]> (entries d')) d') l') ->
  exists w' z' l', (let* znode := zslUpdateScore random luck (iscore it) (iele it) s in
    let* old := in_dict (load de) in
    in_dict (save de {| key := key old; v := Some znode; next := next old |})) (with_zdict d' w) = Ret tt w' /\
  zset_ok w' z' l' /\ pair_of <$> l' = insert_member (s, iele it) (pair_of <$> l1 ++ l2) /\ zfreed w' = zfreed w.
Proof.
  intros Hok Ht Hen Hs Hput. apply (zset_ok_zdict siphash _ _ _ d') in Hok; [|done]. destruct Hok as [Hl Hsc Ho Hd _].
  assert (Hit : it ∈ l1 ++ it :: l2) by (apply elem_of_app; right; by left). pose proof (scored_elem _ Hsc it Hit) as Hns.
  assert (Heq : SFeqb (iscore it) (iscore it) = true) by (rewrite SFeqb_key by done; by apply bool_decide_eq_true).
  destruct (zslUpdateScore_ok random luck (with_zdict d' w) z [] l1 it l2 Hl Hsc Ho s Hs (iscore it) Hns Heq)
    as (it' & w1 & z1 & l' & E1 & [= Es Ee] & Hl1 & Hp & HP & [Hd1 Hf1]).
  rewrite (bind_ret_eq _ _ _ _ _ E1). cbn in Hd1, Hf1. rewrite (repoint_eq w1 de en) by by rewrite Hd1. rewrite Hd1.
  eexists. exists z1, l'. split; [reflexivity|]. split; [|done].
  destruct (rescored _ _ _ _ _ Hsc Hd HP) as [Hsc' Hd']; [by rewrite Es|done|].
  destruct (distinct_around _ _ _ Hd) as (H1 & H2 & H3). split.
  - by apply zsl_inv_zdict.
  - done.
  - rewrite Hp. apply ordered_insert; [by eapply without_old_ordered|]. apply pkey_absent. rewrite fmap_app.
    intros [(x & Ex & Hx)%list_elem_of_fmap|(x & Ex & Hx)%list_elem_of_fmap]%elem_of_app; rewrite Forall_forall in H1, H2; [by apply (H1 x Hx)|by apply (H2 x Hx)].
  - done.
  - by apply Hput.
Qed.

Lemma store_score_ok w d' z l1 it l2 de en s newscore : zset_ok w z (l1 ++ it :: l2) -> tracked siphash d' (l1 ++ it :: l2) ->
  entries d' !! de = Some en -> isnan s = false ->
  (forall l' it', l' ≡ₚ it' :: (l1 ++ l2) -> iele it' = iele it ->
    tracked siphash (with_entries (<[de := {| key := key en; v := Some (iaddr it'); next := next en |}]> (entries d')) d') l') ->
  let r : list member * added := if SFeqb s (iscore it) then (pair_of <$> l1 ++ it :: l2, (1, 0, newscore))
    else (insert_member (s, iele it) (remove_ele (iele it) (pair_of <$> l1 ++ it :: l2)), (1, ZADD_UPDATED, newscore)) in
  exists w' z' l', (if negb (SFeqb s (iscore it)) then
      let* znode := zslUpdateScore random luck (iscore it) (iele it) s in
      let* old := in_dict (load de) in
      in_dict (save de {| key := key old; v := Some znode; next := next old |}) ;;;
      ret (1, ZADD_UPDATED, newscore)
    else ret (1, 0, newscore)) (with_zdict d' w) = Ret r.2 w' /\
  zset_ok w' z' l' /\ pair_of <$> l' = r.1 /\ zfreed w' = zfreed w.
Proof.
  intros Hok Ht Hen Hs Hput r. unfold r. destruct (SFeqb s (iscore it)); cbn [negb fst snd].
  { exists (with_zdict d' w), z, (l1 ++ it :: l2). split; [done|]. split; [by apply zset_ok_zdict|done]. }
  destruct (change_ok w d' z l1 it l2 de en s Hok Ht Hen Hs Hput) as (w' & z' & l' & E & Hok' & Hp & Hf). exists w', z', l'.
  rewrite remove_at_place by apply Hok. split; [|done]. unfold bind in *.
  destruct (zslUpdateScore random luck (iscore it) (iele it) s (with_zdict d' w)) as [p w1| |]; [|done..].
  destruct (in_dict (load de) w1) as [en' w2| |]; [|done..]. by rewrite E.
Qed.

Lemma zsetAdd_ok w z l s e flags : zset_ok w z l -> zlen l + 1 < 2 ^ 32 ->
  exists w' z' l', zsetAdd siphash random luck s e flags w = Ret (add_member s e flags (pair_of <$> l)).2 w' /\
  zset_ok w' z' l' /\ pair_of <$> l' = (add_member s e flags (pair_of <$> l)).1 /\ zfreed w' = zfreed w.
Proof.
  intros Hok Hfew. unfold zsetAdd, add_member. destruct (isnan s) eqn:Hs; [by exists w, z, l|]. pose proof Hok as [_ _ _ Hd Ht].
  destruct (member_cases e l) as [(l1 & it & l2 & -> & <-)|He].
  2: { destruct (find_none siphash _ _ _ Ht He) as (d' & E & Ht'). destruct (find_nowhere _ _ He) as [-> _].
       rewrite (bind_ret_eq _ _ _ _ _ (in_dict_eq _ w _ _ E)). apply (zset_ok_zdict siphash _ _ _ d') in Hok; [|done].
       destruct (negb (Z.land flags ZADD_XX =? 0)); cbn [negb]; [by exists (with_zdict d' w), z, l|].
       exact (add_new_ok (with_zdict d' w) z l s e Hok He Hs Hfew). }
  destruct (find_some siphash _ _ _ _ Ht Hd) as (de & d' & en & E & Ht' & Hen & Hv & Hput).
  rewrite (bind_ret_eq _ _ _ _ _ (in_dict_eq _ w _ _ E)), find_at_place by done. cbn [pair_of]. unfold update_element.
  assert (Hit : it ∈ l1 ++ it :: l2) by (apply elem_of_app; right; by left). pose proof (zset_ok_zdict _ _ _ _ _ Hok Ht') as Hok'.
  destruct (negb (Z.land flags ZADD_NX =? 0)); [by exists (with_zdict d' w), z, (l1 ++ it :: l2)|].
  rewrite (bind_ret_eq _ _ _ _ _ (entry_score_eq w d' z _ it de en (zs_list _ _ _ _ Hok) Hit Hen Hv)).
  destruct (negb (Z.land flags ZADD_INCR =? 0)); cbn [andb].
  - destruct (isnan (SFadd 53 1024 s (iscore it))) eqn:Hs'; [by exists (with_zdict d' w), z, (l1 ++ it :: l2)|].
    by apply (store_score_ok w d' z l1 it l2 de en _ (Some (SFadd 53 1024 s (iscore it)))).
  - rewrite Hs. by apply (store_score_ok w d' z l1 it l2 de en s None).
Qed.

(** *** Removing an element *)
Lemma resize_ok w z l : zset_ok w z l -> exists w', (let* dd := in_dict the in
    (if htNeedsResize dd then in_dict dictResize ;;; ret tt else ret tt) ;;; ret 1) w = Ret 1 w' /\ zset_ok w' z l /\ zfreed w' = zfreed w.
Proof.
  intros Hok. pose proof Hok as [Hl _ _ Hd Ht]. pose proof (zo_few _ _ _ _ _ Hl) as Hf.
  destruct (resize_tracked siphash _ l Ht Hd Hf) as (dd & Ed & r & d' & E & Ht').
  assert (Et : in_dict the w = Ret dd w) by (rewrite (in_dict_eq _ w _ _ Ed); by destruct w). rewrite (bind_ret_eq _ _ _ _ _ Et).
  destruct (htNeedsResize dd); [|by exists w]. exists (with_zdict d' w). split; [|split; [by apply zset_ok_zdict|done]].
  by rewrite bind_assoc, (bind_ret_eq _ _ _ _ _ (in_dict_eq _ w _ _ E)).
Qed.

Lemma zsetDel_ok w z l e : zset_ok w z l ->
  let found := match find_member e (pair_of <$> l) with Some _ => true | None => false end in
  exists w' z' l', zsetDel siphash e w = Ret (Z.b2z found) w' /\ zset_ok w' z' l' /\ pair_of <$> l' = remove_ele e (pair_of <$> l) /\
    zfreed w' = (if found then [e] else []) ++ zfreed w.
Proof.
  intros Hok found. pose proof Hok as [Hl Hsc Ho Hd Ht]. unfold zsetDel, found. clear found.
  destruct (member_cases e l) as [(l1 & it & l2 & -> & <-)|He].
  2: { destruct (unlink_none siphash _ _ _ Ht He) as (d' & E & Ht'). destruct (find_nowhere _ _ He) as [-> ->].
       rewrite (bind_ret_eq _ _ _ _ _ (in_dict_eq _ w _ _ E)). exists (with_zdict d' w), z, l.
       split; [done|]. split; [by apply zset_ok_zdict|done]. }
  pose proof (zo_few _ _ _ _ _ Hl) as Hf. rewrite find_at_place, remove_at_place by done.
  destruct (unlink_tracked siphash _ _ _ _ Ht Hd Hf) as (de & d1 & en & d2 & E1 & Hen & Hv & E2 & Ht2).
  assert (Hit : it ∈ l1 ++ it :: l2) by (apply elem_of_app; right; by left). pose proof (scored_elem _ Hsc it Hit) as Hns.
  rewrite (bind_ret_eq _ _ _ _ _ (in_dict_eq _ w _ _ E1)).
  rewrite (bind_ret_eq _ _ _ _ _ (entry_score_eq w d1 z _ it de en Hl Hit Hen Hv)).
  rewrite (bind_ret_eq _ _ _ _ _ (in_dict_eq _ (with_zdict d1 w) _ _ E2)). set (w2 := with_zdict d2 _).
  assert (Hl2 : zsl_ok w2 z (l1 ++ it :: l2) []) by by apply zsl_inv_zdict, zsl_inv_zdict.
  destruct (zslDelete_ok w2 z _ [] Hl2 Hsc Ho (iscore it) (iele it) Hns) as [(l1' & it' & l2' & w3 & z3 & El & Ek & E3 & Hok3 & Hd3 & Hf3)|[Habs _]].
  2: { exfalso. apply Habs. change (okey (iscore it) (iele it)) with (ikey it). by apply list_elem_of_fmap_2. }
  apply okey_inj in Ek as [_ Ee]. destruct (same_place _ _ _ _ _ _ Hd El Ee) as [<- <-].
  rewrite (bind_ret_eq _ _ _ _ _ E3). destruct (distinct_around _ _ _ Hd) as (_ & _ & Hd').
  assert (Hok' : zset_ok w3 z3 (l1 ++ l2)).
  { split; [done| |by eapply without_old_ordered|done|by rewrite Hd3].
    unfold scored in *. apply Forall_app in Hsc as [? Hsc]. apply Forall_cons in Hsc as [_ ?]. by apply Forall_app. }
  destruct (resize_ok w3 z3 _ Hok') as (w4 & E4 & Hok4 & Hf4). exists w4, z3, (l1 ++ l2).
  split; [exact E4|]. split; [done|]. split; [done|]. by rewrite Hf4, Hf3, Ee.
Qed.
End zset.
