(* ===== verification/ZsetRange.v ===== *)
(** Removing a range of scores, of strings or of ranks from a sorted set: the elements
    between two places of the list go, from its skip list and from its dictionary. *)
From Stdlib Require Import Floats.SpecFloat Sorting.Sorted.
From stdpp Require Import sorting.
From S2P Require Import Prelude Util Dict DictProofs DictOps DictMap Zskiplist ZslOrder ZslLinks ZslProofs ZslInsert ZslDelete ZslOps ZslRange ZsetDict ZsetOps ZsetEdit.
#[local] Open Scope Z_scope.
Implicit Types (w : zworld) (z : zskiplist) (l llo mid hi : list item) (it : item) (d : world sds positive) (e : sds) (ps : list member).

Section ranges.
Context (siphash : list Z -> Z) `{Hash64 siphash}.
Abbreviation type := (zsetDictType siphash).
Abbreviation zset_ok := (zset_ok siphash).

(** The elements [llo ++ hi] of a set with [llo ++ it :: hi]. *)
Lemma zset_ok_less w z llo it hi w' z' : zset_ok w z (llo ++ it :: hi) -> zsl_ok w' z' (llo ++ hi) [] -> tracked siphash (zdict w') (llo ++ hi) ->
  zset_ok w' z' (llo ++ hi).
Proof.
  intros [_ Hsc Ho Hd _] Hl Ht. destruct (distinct_around _ _ _ Hd) as (_ & _ & Hd').
  split; [done| |by eapply without_old_ordered|done|done].
  unfold scored in *. apply Forall_app in Hsc as [? Hsc]. apply Forall_cons in Hsc as [_ ?]. by apply Forall_app.
Qed.
Lemma spots_less z z' llo n n' update : spots z llo n update -> header z' = header z -> (n' <= n)%nat -> spots z' llo n' update.
Proof. intros Hs Hh Hn i Hi. unfold towers. rewrite Hh. apply Hs. lia. Qed.

(** ** The loop *)
Section loop.
Context (go : Z -> positive -> D bool) (F : Z -> item -> bool).
Hypothesis Hgo : forall w z l removed it, zsl_ok w z l [] -> it ∈ l -> go removed (iaddr it) w = Ret (F removed it) w.

(** One turn removes the first element after [llo]. *)
Lemma range_turn_ok w z llo it hi update removed : zset_ok w z (llo ++ it :: hi) -> spots z llo (top (llo ++ it :: hi)) update ->
  0 <= removed < 2 ^ 32 -> F removed it = true -> exists w' z',
  range_turn siphash go update (removed, Some (iaddr it)) w = Ret (inl (removed + 1, first_addr hi)) w' /\
  zset_ok w' z' (llo ++ hi) /\ spots z' llo (top (llo ++ hi)) update /\ zfreed w' = iele it :: zfreed w.
Proof.
  intros Hok Hsp Hr HF. pose proof Hok as [Hl _ _ Hd Ht]. assert (Hit : it ∈ llo ++ it :: hi) by (apply elem_of_app; right; by left).
  unfold range_turn. rewrite (bind_ret_eq _ _ _ _ _ (Hgo _ _ _ removed it Hl Hit)), HF.
  rewrite (bind_ret_eq _ _ _ _ _ (forward_item _ _ _ _ _ Hl llo it hi eq_refl)).
  destruct (zslDeleteNode_ok _ w z llo it hi [] Hl update Hsp) as (w1 & z1 & E1 & Hl1 & Hh & [Hd1 Hf1] & _ & (n & Hn & He & _)).
  rewrite (bind_ret_eq _ _ _ _ _ E1).
  assert (E2 : get_ele (iaddr it) w1 = Ret (iele it) w1) by (unfold get_ele; by rewrite (bind_ret_eq _ _ _ _ _ (znode_eq w1 _ _ Hn)), He).
  rewrite (bind_ret_eq _ _ _ _ _ E2). rewrite <- Hd1 in Ht.
  destruct (delete_tracked siphash _ _ _ _ Ht Hd (zo_few _ _ _ _ _ Hl)) as (r & d' & E3 & Ht').
  rewrite (bind_ret_eq _ _ _ _ _ (in_dict_eq _ w1 _ _ E3)).
  destruct (zslFreeNode_ok _ (with_zdict d' w1) z1 _ [] (iaddr it) n (zsl_inv_zdict _ _ _ _ _ d' Hl1) Hn) as (w2 & E4 & Hl2 & Hd2 & Hf2).
  rewrite (bind_ret_eq _ _ _ _ _ E4). exists w2, z1. rewrite u64_id by lia. split; [done|]. split; [|split].
  - eapply zset_ok_less; [done..|]. by rewrite Hd2.
  - apply (spots_less z _ _ (top (llo ++ it :: hi))); [done..|]. rewrite !top_app, top_cons. lia.
  - rewrite Hf2, He. cbn. by rewrite Hf1.
Qed.

Lemma delete_loop n llo hi update : forall mid w z removed, (length mid < n)%nat -> zset_ok w z (llo ++ mid ++ hi) ->
  spots z llo (top (llo ++ mid ++ hi)) update -> 0 <= removed -> removed + zlen mid < 2 ^ 32 ->
  (forall j it, mid !! j = Some it -> F (removed + Z.of_nat j) it = true) ->
  (forall it, head hi = Some it -> F (removed + zlen mid) it = false) -> exists w' z',
  while_loop n (range_turn siphash go update) (removed, first_addr (mid ++ hi)) w = Ret (removed + zlen mid) w' /\
  zset_ok w' z' (llo ++ hi) /\ zfreed w' = reverse (iele <$> mid) ++ zfreed w.
Proof.
  induction n as [|n IH]; intros mid w z removed Hn Hok Hsp Hr0 Hr Hmid Hhi; [lia|]. cbn [while_loop]. destruct mid as [|it mid].
  - rewrite Z.add_0_r in *. exists w, z. split; [|done]. cbn [app]. destruct hi as [|it hi]; [done|]. unfold range_turn at 1. cbn.
    assert (Hit : it ∈ llo ++ it :: hi) by (apply elem_of_app; right; by left).
    by rewrite bind_assoc, (bind_ret_eq _ _ _ _ _ (Hgo _ _ _ removed it (zs_list _ _ _ _ Hok) Hit)), (Hhi it eq_refl).
  - rewrite zlen_cons in *. pose proof (zlen_nonneg mid). cbn [app] in Hok, Hsp. pose proof (Hmid 0%nat it eq_refl) as HF. rewrite Z.add_0_r in HF.
    destruct (range_turn_ok w z llo it (mid ++ hi) update removed Hok Hsp ltac:(lia) HF) as (w1 & z1 & E1 & Hok1 & Hsp1 & Hf1).
    cbn [app first_addr head fmap option_fmap option_map]. rewrite (bind_ret_eq _ _ _ _ _ E1).
    destruct (IH mid w1 z1 (removed + 1)) as (w' & z' & E & Hok' & Hf'); [cbn in Hn; lia|done..|lia|lia| | |].
    + intros j it' Hj. replace (removed + 1 + Z.of_nat j) with (removed + Z.of_nat (Datatypes.S j)) by lia. by apply Hmid.
    + intros it' Hit'. replace (removed + 1 + zlen mid) with (removed + (1 + zlen mid)) by lia. by apply Hhi.
    + exists w', z'. split; [rewrite E; f_equal; lia|]. split; [done|]. rewrite Hf', Hf1, fmap_cons, reverse_cons, <- app_assoc. done.
Qed.

(** From the last node before the range. *)
Lemma delete_range_ok w z llo mid hi update x h a : zset_ok w z (llo ++ mid ++ hi) -> spots z llo (top (llo ++ mid ++ hi)) update ->
  towers z llo = a ++ [(x, h)] -> (0 < h)%nat -> (forall j it, mid !! j = Some it -> F (Z.of_nat j) it = true) ->
  (forall it, head hi = Some it -> F (zlen mid) it = false) -> exists w' z',
  delete_range siphash go update x w = Ret (zlen mid) w' /\ zset_ok w' z' (llo ++ hi) /\ zfreed w' = reverse (iele <$> mid) ++ zfreed w.
Proof.
  intros Hok Hsp Ea Hh Hmid Hhi. pose proof (zs_list _ _ _ _ Hok) as Hl. unfold delete_range.
  rewrite (bind_ret_eq _ _ _ _ _ (forward_zero _ _ _ _ _ Hl llo (mid ++ hi) x h a eq_refl Ea Hh)).
  destruct (list_fuel_eq _ _ _ _ _ Hl) as (n & En & Hn). rewrite (bind_ret_eq _ _ _ _ _ En).
  pose proof (zo_few _ _ _ _ _ Hl) as Hf. rewrite !zlen_app in Hf. pose proof (zlen_nonneg llo). pose proof (zlen_nonneg hi).
  rewrite !length_app in Hn. apply (delete_loop n llo hi update mid w z 0); try done; lia.
Qed.
End loop.

(** ** Ranges of scores and of strings *)
Lemma cut_range (G L : member -> bool) l : ordered (pair_of <$> l) -> initial (fun p => negb (G p)) (pair_of <$> l) ->
  initial L (pair_of <$> l) -> exists llo mid hi, l = llo ++ mid ++ hi /\ Forall (fun it => G (pair_of it) = false) llo /\
  Forall (fun it => G (pair_of it) = true /\ L (pair_of it) = true) mid /\ Forall (fun it => G (pair_of it) = true /\ L (pair_of it) = false) hi.
Proof.
  intros Ho HG HL. destruct (cut_items _ l Ho HG) as (llo & rest & -> & H1 & H2 & _). rewrite fmap_app in Ho, HL.
  apply ordered_app in Ho as (_ & _ & Ho).
  destruct (cut_items L rest Ho) as (mid & hi & -> & H3 & H4 & _).
  { intros p q Hp Hq. apply HL; apply elem_of_app; by right. }
  apply Forall_app in H2 as [H2 H2']. exists llo, mid, hi. split; [done|]. split; [|split].
  - eapply Forall_impl; [exact H1|]. cbn. intros it Hit. by apply negb_true_iff.
  - apply Forall_and. split; [|done]. eapply Forall_impl; [exact H2|]. cbn. intros it Hit. by apply negb_false_iff.
  - apply Forall_and. split; [|done]. eapply Forall_impl; [exact H2'|]. cbn. intros it Hit. by apply negb_false_iff.
Qed.
Definition outside (G L : member -> bool) ps : list member := without (fun p => G p && L p) ps.
Lemma between_outside (G L : member -> bool) llo mid hi : Forall (fun it => G (pair_of it) = false) llo ->
  Forall (fun it => G (pair_of it) = true /\ L (pair_of it) = true) mid -> Forall (fun it => G (pair_of it) = true /\ L (pair_of it) = false) hi ->
  between G L (pair_of <$> llo ++ mid ++ hi) = pair_of <$> mid /\ outside G L (pair_of <$> llo ++ mid ++ hi) = pair_of <$> llo ++ hi.
Proof.
  intros H1 H2 H3. set (F p := G p && L p).
  destruct (filter_none F (pair_of <$> llo)) as [A1 B1]; [apply Forall_fmap; eapply Forall_impl; [exact H1|]; unfold F; cbn; by intros it ->|].
  destruct (filter_all F (pair_of <$> mid)) as [A2 B2]; [apply Forall_fmap; eapply Forall_impl; [exact H2|]; unfold F; cbn; by intros it [-> ->]|].
  destruct (filter_none F (pair_of <$> hi)) as [A3 B3]; [apply Forall_fmap; eapply Forall_impl; [exact H3|]; unfold F; cbn; by intros it [-> ->]|].
  change (between G L) with (List.filter F). change (outside G L) with (without F). unfold without in *.
  rewrite !fmap_app, !List.filter_app. rewrite A1, A2, A3, B1, B2, B3. by rewrite app_nil_r.
Qed.

Section conditions.
Context (G L : member -> bool) (below within : positive -> D bool).
Hypothesis Hbelow : forall w z l it, zsl_ok w z l [] -> scored l -> it ∈ l -> below (iaddr it) w = Ret (negb (G (pair_of it))) w.
Hypothesis Hwithin : forall w z l it, zsl_ok w z l [] -> it ∈ l -> within (iaddr it) w = Ret (L (pair_of it)) w.

Lemma delete_between_ok w z l : zset_ok w z l -> initial (fun p => negb (G p)) (pair_of <$> l) -> initial L (pair_of <$> l) -> exists w' z' l',
  (let* (_, x, update) := find_update (fun _ _ _ => below) nothing tt in delete_range siphash (fun _ => within) update x) w =
    Ret (zlen (between G L (pair_of <$> l))) w' /\
  zset_ok w' z' l' /\ pair_of <$> l' = outside G L (pair_of <$> l) /\ zfreed w' = reverse (snd <$> between G L (pair_of <$> l)) ++ zfreed w.
Proof.
  intros Hok HG HL. destruct (cut_range G L l (zs_ordered _ _ _ _ Hok) HG HL) as (llo & mid & hi & -> & H1 & H2 & H3).
  destruct (between_outside G L llo mid hi H1 H2 H3) as [-> ->]. pose proof (zs_list _ _ _ _ Hok) as Hl.
  destruct (find_update_ok _ w z llo (mid ++ hi) [] Hl (fun _ _ _ => below) nothing (fun _ => tt)) as (x & update & a & E & _ & Hsp & h & Ea & Hh).
  { apply (guides_items w llo (mid ++ hi) below (fun it => negb (G (pair_of it)))).
    - intros it Hit. by apply (Hbelow w z _ it Hl (zs_scored _ _ _ _ Hok)).
    - eapply Forall_impl; [exact H1|]. cbn. by intros it ->.
    - apply Forall_app. split; [eapply Forall_impl; [exact H2|]|eapply Forall_impl; [exact H3|]]; cbn; by intros it [-> _]. }
  rewrite (bind_ret_eq _ _ _ _ _ E).
  destruct (delete_range_ok (fun _ => within) (fun _ it => L (pair_of it)) (fun w z l _ it => Hwithin w z l it) w z llo mid hi update x h a)
    as (w' & z' & E' & Hok' & Hf'); try done.
  - intros j it Hj. by apply (Forall_lookup_1 _ _ _ _ H2 Hj).
  - intros it Hit. destruct hi as [|it' hi]; [done|]. injection Hit as ->. by apply Forall_cons in H3 as [[_ H3] _].
  - exists w', z', (llo ++ hi). rewrite zlen_fmap. split; [done|]. split; [done|]. split; [done|].
    rewrite Hf'. f_equal. f_equal. by rewrite <- list_fmap_compose.
Qed.
End conditions.

Definition out_of_scores (r : zrangespec) : list member -> list member :=
  outside (fun p => zslValueGteMin p.1 r) (fun p => zslValueLteMax p.1 r).
Definition out_of_lex (r : zlexrangespec) : list member -> list member :=
  outside (fun p => zslLexValueGteMin p.2 r) (fun p => zslLexValueLteMax p.2 r).

Lemma zslDeleteRangeByScore_ok w z l r : zset_ok w z l -> isnan (min r) = false -> isnan (max r) = false -> exists w' z' l',
  zslDeleteRangeByScore siphash r w = Ret (zlen (in_score_range r (pair_of <$> l))) w' /\
  zset_ok w' z' l' /\ pair_of <$> l' = out_of_scores r (pair_of <$> l) /\
  zfreed w' = reverse (snd <$> in_score_range r (pair_of <$> l)) ++ zfreed w.
Proof.
  intros Hok Hmin Hmax. pose proof (zs_scored _ _ _ _ Hok) as Hsc.
  eapply (delete_between_ok (fun p => zslValueGteMin p.1 r) (fun p => zslValueLteMax p.1 r)
    (fun p => let* n := znode p in ret (if minex r then SFleb (score n) (min r) else SFltb (score n) (min r)))
    (fun p => let* n := znode p in ret (if maxex r then SFltb (score n) (max r) else SFleb (score n) (max r)))); [| |exact Hok| |].
  - intros w0 z0 l0 it Hl Hs Hit. destruct (item_node _ _ _ _ _ Hl it Hit) as (n & Hn & _ & Es & _).
    rewrite (bind_ret_eq _ _ _ _ _ (znode_eq w0 _ _ Hn)), Es. unfold zslValueGteMin. cbn. pose proof (scored_elem _ Hs it Hit) as Hns.
    rewrite !SFltb_key, !SFleb_key by done. rewrite !lel_ltl. destruct (minex r); by rewrite ?negb_involutive.
  - intros w0 z0 l0 it Hl Hit. destruct (item_node _ _ _ _ _ Hl it Hit) as (n & Hn & _ & Es & _).
    by rewrite (bind_ret_eq _ _ _ _ _ (znode_eq w0 _ _ Hn)), Es.
  - intros p q Hp Hq Hlt. rewrite !negb_true_iff, <- !not_true_iff_false. intros Hnot HGp. apply Hnot.
    rewrite GteMin_key by (done || exact (member_score l q Hsc Hq)). rewrite GteMin_key in HGp by (done || exact (member_score l p Hsc Hp)). eapply above_min_mono; [|exact HGp]. by apply (ltl_score p q).
  - intros p q Hp Hq Hlt. rewrite !LteMax_key by (done || exact (member_score l p Hsc Hp) || exact (member_score l q Hsc Hq)). apply below_max_mono. by apply (ltl_score p q).
Qed.

Lemma zslDeleteRangeByLex_ok w z l r : zset_ok w z l -> one_score (pair_of <$> l) -> exists w' z' l',
  zslDeleteRangeByLex siphash r w = Ret (zlen (in_lex_range r (pair_of <$> l))) w' /\
  zset_ok w' z' l' /\ pair_of <$> l' = out_of_lex r (pair_of <$> l) /\
  zfreed w' = reverse (snd <$> in_lex_range r (pair_of <$> l)) ++ zfreed w.
Proof.
  intros Hok Hone. eapply (delete_between_ok (fun p => zslLexValueGteMin p.2 r) (fun p => zslLexValueLteMax p.2 r)
    (fun p => let* b := ele_gte r p in ret (negb b)) (ele_lte r)); [| |exact Hok| |].
  - intros w0 z0 l0 it Hl _ Hit. unfold ele_gte. by rewrite bind_assoc, (bind_ret_eq _ _ _ _ _ (get_ele_eq _ _ _ _ _ Hl it Hit)).
  - intros w0 z0 l0 it Hl Hit. unfold ele_lte. by rewrite (bind_ret_eq _ _ _ _ _ (get_ele_eq _ _ _ _ _ Hl it Hit)).
  - intros p q Hp Hq Hlt. rewrite !negb_true_iff, <- !not_true_iff_false, !LexGteMin_key. intros Hnot HGp. apply Hnot.
    eapply above_min_mono; [|exact HGp]. by apply (ltl_text (pair_of <$> l) p q Hone).
  - intros p q Hp Hq Hlt. rewrite !LexLteMax_key. apply below_max_mono. by apply (ltl_text (pair_of <$> l) p q Hone).
Qed.

(** ** Ranges of ranks *)

(** The members of ranks [a] to [b], from 1. *)
Definition of_ranks (a b : Z) ps : list member := take (Z.to_nat (b - a + 1)) (drop (Z.to_nat (a - 1)) ps).
Definition out_of_ranks (a b : Z) ps : list member :=
  take (Z.to_nat (a - 1)) ps ++ drop (Z.to_nat (b - a + 1)) (drop (Z.to_nat (a - 1)) ps).

Lemma zslDeleteRangeByRank_ok w z l a b : zset_ok w z l -> 1 <= a -> exists w' z' l',
  zslDeleteRangeByRank siphash a b w = Ret (zlen (of_ranks a b (pair_of <$> l))) w' /\
  zset_ok w' z' l' /\ pair_of <$> l' = out_of_ranks a b (pair_of <$> l) /\ zfreed w' = reverse (snd <$> of_ranks a b (pair_of <$> l)) ++ zfreed w.
Proof.
  intros Hok Ha. pose proof (zs_list _ _ _ _ Hok) as Hl. set (n := Z.to_nat (a - 1)). set (m := Z.to_nat (b - a + 1)).
  pose proof (zo_few _ _ _ _ _ Hl) as Hfew. assert (En : Z.of_nat n = a - 1 /\ Z.of_nat m = Z.max 0 (b - a + 1)) by (unfold n, m; lia).
  set (llo := take n l). set (mid := take m (drop n l)). set (hi := drop m (drop n l)).
  assert (El : l = llo ++ mid ++ hi) by (unfold llo, mid, hi; by rewrite !take_drop).
  pose proof (guides_rank (top l) w z l [] Hl n (fun t => t <? a)) as Hg.
  specialize (Hg ltac:(intros k' _; apply Bool.eq_iff_eq_true; rewrite bool_decide_eq_true, Z.ltb_lt; unfold n; lia)).
  assert (Ed : drop n l = mid ++ hi) by (unfold mid, hi; by rewrite take_drop). rewrite Ed in Hg. fold llo in Hg.
  unfold of_ranks, out_of_ranks. fold n m. rewrite <- !fmap_drop, <- !fmap_take. fold llo mid hi. rewrite <- fmap_app, zlen_fmap.
  rewrite El in Hok, Hl, Hfew. 
  assert (Hlo : hi <> [] -> length llo = n /\ length mid = m).
  { intros Hne. unfold hi in Hne. pose proof (length_drop (drop n l) m) as Hlen. rewrite (length_drop l n) in Hlen.
    destruct (drop m (drop n l)); [done|]. cbn in Hlen. unfold llo, mid. rewrite !length_take, length_drop. lia. }
  assert (Hmid : mid <> [] -> length llo = n).
  { intros Hne. unfold mid in Hne. pose proof (length_drop l n) as Hlen. destruct (drop n l); [by rewrite take_nil in Hne|].
    cbn in Hlen. unfold llo. rewrite length_take. lia. }
  assert (Hm : (length mid <= m)%nat) by (unfold mid; rewrite length_take; lia). clearbody llo mid hi. clear l El Ed.
  destruct (find_update_ok _ w z llo (mid ++ hi) [] Hl _ _ Z.of_nat Hg) as (x & update & c & E & _ & Hsp & h & Ea & Hh).
  unfold zslDeleteRangeByRank. rewrite (bind_ret_eq _ _ _ _ _ E). rewrite !zlen_app in Hfew. pose proof (zlen_nonneg hi). unfold zlen in Hfew.
  destruct (delete_range_ok (fun removed _ => ret (u64 (u64 (Z.of_nat (length llo) + 1) + removed) <=? b))
    (fun removed _ => u64 (u64 (Z.of_nat (length llo) + 1) + removed) <=? b) (fun _ _ _ _ _ _ _ => eq_refl) w z llo mid hi update x h c)
    as (w' & z' & E' & Hok' & Hf'); try done.
  - intros j it Hj. pose proof (lookup_lt_Some _ _ _ Hj) as Hlt. specialize (Hmid ltac:(by intros ->)). rewrite (u64_id (Z.of_nat (length llo) + 1)), u64_id by lia. apply Z.leb_le. lia.
  - intros it Hit. destruct Hlo as [H1 H2]; [by intros ->|]. unfold zlen. rewrite (u64_id (Z.of_nat (length llo) + 1)), u64_id by lia. apply Z.leb_gt. lia.
  - exists w', z', (llo ++ hi). split; [done|]. split; [done|]. split; [done|]. rewrite Hf'. f_equal. f_equal. by rewrite <- list_fmap_compose.
Qed.
End ranges.
