(* ===== verification/Zset.v ===== *)
(** Sorted sets as their clients see them: a list of elements with scores, sorted by
    score and then by element. Any sequence of operations on a new set answers what
    the list answers, and the release of the set returns all memory. *)
From Stdlib Require Import Floats.SpecFloat Sorting.Sorted.
From stdpp Require Import sorting.
From S2P Require Import Prelude Util Dict DictProofs DictOps DictMap Zskiplist ZslOrder ZslLinks ZslProofs ZslInsert ZslDelete ZslOps ZslRange ZsetDict ZsetOps ZsetEdit ZsetRange.
#[local] Open Scope Z_scope.
Implicit Types (w : zworld) (z : zskiplist) (l : list item) (it : item) (e : sds) (ps : list member).

(** ** Operations *)
Inductive zcommand :=
  | ZAdd (s : double) (e : sds) (flags : Z)
  | ZRem (e : sds)
  | ZScore (e : sds)
  | ZRank (e : sds) (reverse : bool)
  | ZCard
  | ZElement (rank : Z)
  | ZFirst (r : zrangespec)
  | ZLast (r : zrangespec)
  | ZFirstLex (r : zlexrangespec)
  | ZLastLex (r : zlexrangespec)
  | ZRemRangeByScore (r : zrangespec)
  | ZRemRangeByLex (r : zlexrangespec)
  | ZRemRangeByRank (first final : Z).

Inductive zanswer :=
  | AnAddition (a : added)
  | ANumber (n : Z)
  | AScore (s : option double)
  | AMember (p : option member).

(** What the node that an operation returned holds. *)
Definition read_node (p : option positive) : D (option member) :=
  match p with
  | None => ret None
  | Some p => let* n := znode p in let* e := get_ele p in ret (Some (score n, e))
  end.

Section operations.
Variable siphash : list Z -> Z.
Variable random : nat -> Z.
Variable luck : nat.

Definition zperform (c : zcommand) : D zanswer :=
  match c with
  | ZAdd s e flags => let* a := zsetAdd siphash random luck s e flags in ret (AnAddition a)
  | ZRem e => let* n := zsetDel siphash e in ret (ANumber n)
  | ZScore e => let* s := zsetScore siphash e in ret (AScore s)
  | ZRank e reverse => let* n := zsetRank siphash e reverse in ret (ANumber n)
  | ZCard => let* n := zsetLength in ret (ANumber n)
  | ZElement rank => let* x := zslGetElementByRank rank in let* p := read_node x in ret (AMember p)
  | ZFirst r => let* x := zslFirstInRange r in let* p := read_node x in ret (AMember p)
  | ZLast r => let* x := zslLastInRange r in let* p := read_node x in ret (AMember p)
  | ZFirstLex r => let* x := zslFirstInLexRange r in let* p := read_node x in ret (AMember p)
  | ZLastLex r => let* x := zslLastInLexRange r in let* p := read_node x in ret (AMember p)
  | ZRemRangeByScore r => let* n := zslDeleteRangeByScore siphash r in ret (ANumber n)
  | ZRemRangeByLex r => let* n := zslDeleteRangeByLex siphash r in ret (ANumber n)
  | ZRemRangeByRank a b => let* n := zslDeleteRangeByRank siphash a b in ret (ANumber n)
  end.

Fixpoint zrun (cs : list zcommand) : D (list zanswer) :=
  match cs with
  | [] => ret []
  | c :: cs => let* a := zperform c in let* answers := zrun cs in ret (a :: answers)
  end.
End operations.

(** ** Specification *)

(** The members in order, the strings that were added, and those that were released. *)
Record zspec := { members : list member; taken : list sds; released : list sds }.
Implicit Types (s : zspec).

Definition empty_set : zspec := {| members := []; taken := []; released := [] |}.
Definition drop_members ps (gone : list sds) s : zspec :=
  {| members := ps; taken := taken s; released := reverse gone ++ released s |}.

Definition zrespond (c : zcommand) s : zspec * zanswer :=
  let ps := members s in
  match c with
  | ZAdd x e flags =>
      let '(ps', a) := add_member x e flags ps in
      ({| members := ps'; taken := (if a.1.2 =? ZADD_ADDED then [e] else []) ++ taken s; released := released s |}, AnAddition a)
  | ZRem e =>
      match find_member e ps with
      | Some _ => (drop_members (remove_ele e ps) [e] s, ANumber 1)
      | None => (s, ANumber 0)
      end
  | ZScore e => (s, AScore (fst ∘ snd <$> find_member e ps))
  | ZRank e reverse => (s, ANumber (rank_of reverse e ps))
  | ZCard => (s, ANumber (zlen ps))
  | ZElement rank => (s, AMember (ps !! Z.to_nat (rank - 1)))
  | ZFirst r => (s, AMember (head (in_score_range r ps)))
  | ZLast r => (s, AMember (last (in_score_range r ps)))
  | ZFirstLex r => (s, AMember (head (in_lex_range r ps)))
  | ZLastLex r => (s, AMember (last (in_lex_range r ps)))
  | ZRemRangeByScore r => let gone := in_score_range r ps in (drop_members (out_of_scores r ps) (snd <$> gone) s, ANumber (zlen gone))
  | ZRemRangeByLex r => let gone := in_lex_range r ps in (drop_members (out_of_lex r ps) (snd <$> gone) s, ANumber (zlen gone))
  | ZRemRangeByRank a b => let gone := of_ranks a b ps in (drop_members (out_of_ranks a b ps) (snd <$> gone) s, ANumber (zlen gone))
  end.
Fixpoint zrun_spec (cs : list zcommand) s : zspec * list zanswer :=
  match cs with
  | [] => (s, [])
  | c :: cs => let '(s, a) := zrespond c s in let '(s, answers) := zrun_spec cs s in (s, a :: answers)
  end.

(** Bounds are numbers; elements are compared as strings when they have one score; ranks start
    at 1; the dictionary has room. *)
Definition numeric_range (r : zrangespec) : bool := negb (isnan (min r)) && negb (isnan (max r)).
Definition same_score ps : bool :=
  match ps with [] => true | p :: ps => forallb (fun q => bool_decide (skey q.1 = skey p.1)) ps end.
Definition allowed (c : zcommand) s : bool :=
  match c with
  | ZAdd _ _ _ => zlen (members s) + 1 <? 2 ^ 32
  | ZElement rank => 1 <=? rank
  | ZFirst r | ZLast r | ZRemRangeByScore r => numeric_range r
  | ZFirstLex _ | ZLastLex _ | ZRemRangeByLex _ => same_score (members s)
  | ZRemRangeByRank a _ => 1 <=? a
  | _ => true
  end.
Fixpoint all_allowed (cs : list zcommand) s : bool :=
  match cs with [] => true | c :: cs => allowed c s && all_allowed cs (zrespond c s).1 end.

Lemma numeric_range_eq r : numeric_range r = true -> isnan (min r) = false /\ isnan (max r) = false.
Proof. unfold numeric_range. by destruct (isnan (min r)), (isnan (max r)). Qed.
Lemma same_score_eq ps : same_score ps = true -> one_score ps.
Proof.
  destruct ps as [|p ps]; [intros _ q r Hq; by apply elem_of_nil in Hq|]. cbn. rewrite forallb_forall. intros Hall.
  assert (Hp : forall q, q ∈ p :: ps -> skey q.1 = skey p.1).
  { intros q [->|Hq]%elem_of_cons; [done|]. apply list_elem_of_In, Hall in Hq. by apply bool_decide_eq_true in Hq. }
  intros q r Hq Hr. by rewrite (Hp q Hq), (Hp r Hr).
Qed.

(** ** Nothing is lost *)
Definition balanced s : Prop := taken s ≡ₚ released s ++ (snd <$> members s).

Lemma filter_perm (F : member -> bool) ps : ps ≡ₚ List.filter F ps ++ without F ps.
Proof.
  unfold without. induction ps as [|p ps IH]; [done|]. cbn. destruct (F p); cbn; [by rewrite <- IH|]. rewrite IH at 1. apply Permutation_middle.
Qed.
Lemma insert_perm p ps : insert_member p ps ≡ₚ p :: ps.
Proof. unfold insert_member. rewrite <- Permutation_middle. by rewrite <- filter_perm. Qed.
Lemma ranks_perm a b ps : ps ≡ₚ of_ranks a b ps ++ out_of_ranks a b ps.
Proof.
  unfold of_ranks, out_of_ranks. rewrite <- (take_drop (Z.to_nat (a - 1)) ps) at 1.
  rewrite <- (take_drop (Z.to_nat (b - a + 1)) (drop _ ps)) at 1. solve_Permutation.
Qed.
Lemma found_perm e l i p : distinct_eles l -> find_member e (pair_of <$> l) = Some (i, p) ->
  p.2 = e /\ pair_of <$> l ≡ₚ p :: remove_ele e (pair_of <$> l).
Proof.
  intros Hd Hf. destruct (member_cases e l) as [(l1 & it & l2 & -> & <-)|He].
  - rewrite find_at_place in Hf by done. injection Hf as _ <-. split; [done|]. rewrite remove_at_place by done. rewrite !fmap_app. cbn. solve_Permutation.
  - by rewrite (proj1 (find_nowhere _ _ He)) in Hf.
Qed.
Lemma drop_balanced s ps gone : balanced s -> members s ≡ₚ gone ++ ps -> balanced (drop_members ps (snd <$> gone) s).
Proof. unfold balanced. cbn. intros -> ->. rewrite fmap_app, reverse_Permutation. solve_Permutation. Qed.
Lemma add_balanced x e flags l s : distinct_eles l -> members s = pair_of <$> l -> balanced s -> balanced (zrespond (ZAdd x e flags) s).1.
Proof.
  intros Hd Hm Hb. unfold balanced in *. cbn. rewrite Hm in *. unfold add_member. destruct (isnan x); [done|].
  destruct (find_member e (pair_of <$> l)) as [[i [cur e']]|] eqn:Ef.
  - destruct (negb (Z.land flags ZADD_NX =? 0)); [done|]. set (s' := if negb (Z.land flags ZADD_INCR =? 0) then SFadd 53 1024 x cur else x).
    destruct (isnan s'); [done|]. destruct (SFeqb s' cur); [done|]. cbn. rewrite insert_perm, Hb.
    destruct (found_perm _ _ _ _ Hd Ef) as [<- HP]. rewrite HP at 1. done.
  - destruct (negb (Z.land flags ZADD_XX =? 0)); [done|]. cbn. rewrite insert_perm, Hb. cbn. solve_Permutation.
Qed.

(** ** The set refines the list *)
Section refinement.
Context (siphash : list Z -> Z) `{Hash64 siphash} (random : nat -> Z) (luck : nat) `{Lucky random luck}.
Abbreviation zperform := (zperform siphash random luck).
Abbreviation zrun := (zrun siphash random luck).

Definition presents w s : Prop := exists z l, zset_ok siphash w z l /\ pair_of <$> l = members s /\ zfreed w = released s /\ balanced s.

Lemma read_node_eq w z l U (o : option item) : zsl_ok w z l U -> (forall it, o = Some it -> it ∈ l) ->
  read_node (iaddr <$> o) w = Ret (pair_of <$> o) w.
Proof.
  intros Hok Ho. destruct o as [it|]; [|done]. specialize (Ho it eq_refl). cbn.
  destruct (item_node _ _ _ _ _ Hok it Ho) as (n & Hn & _ & Hs & _).
  by rewrite (bind_ret_eq _ _ _ _ _ (znode_eq w _ _ Hn)), (bind_ret_eq _ _ _ _ _ (get_ele_eq _ _ _ _ _ Hok it Ho)), Hs.
Qed.

(** Operations that read one node. *)
Lemma node_answer w z l (op : D (option positive)) answer : zset_ok siphash w z l ->
  (exists o : option item, op w = Ret (iaddr <$> o) w /\ pair_of <$> o = answer /\ (forall it, o = Some it -> it ∈ l)) ->
  (let* x := op in let* p := read_node x in ret (AMember p)) w = Ret (AMember answer) w.
Proof.
  intros Hok (o & E & <- & Ho). rewrite (bind_ret_eq _ _ _ _ _ E).
  by rewrite (bind_ret_eq _ _ _ _ _ (read_node_eq w z l [] o (zs_list _ _ _ _ Hok) Ho)).
Qed.
(** Operations that remove a range. *)
Lemma removal_answer w z l s (op : D Z) gone ps : pair_of <$> l = members s -> zfreed w = released s -> balanced s -> members s ≡ₚ gone ++ ps ->
  (exists w' z' l', op w = Ret (zlen gone) w' /\ zset_ok siphash w' z' l' /\ pair_of <$> l' = ps /\ zfreed w' = reverse (snd <$> gone) ++ zfreed w) ->
  exists w', (let* n := op in ret (ANumber n)) w = Ret (ANumber (zlen gone)) w' /\ presents w' (drop_members ps (snd <$> gone) s).
Proof.
  intros Hm Hf Hb HP (w' & z' & l' & E & Hok & Hm' & Hf'). exists w'. rewrite (bind_ret_eq _ _ _ _ _ E). split; [done|].
  exists z', l'. split; [done|]. split; [done|]. split; [by rewrite Hf', Hf|]. by apply drop_balanced.
Qed.

Lemma perform_add_ok w s x e flags : presents w s -> allowed (ZAdd x e flags) s = true ->
  exists w', zperform (ZAdd x e flags) w = Ret (zrespond (ZAdd x e flags) s).2 w' /\ presents w' (zrespond (ZAdd x e flags) s).1.
Proof.
  intros (z & l & Hok & Hm & Hf & Hb) Ha. cbn [allowed] in Ha. rewrite <- Hm, zlen_fmap in Ha.
  pose proof (add_balanced x e flags l s (zs_distinct _ _ _ _ Hok) (eq_sym Hm) Hb) as Hb'.
  destruct (zsetAdd_ok siphash random luck w z l x e flags Hok ltac:(lia)) as (w' & z' & l' & E & Hok' & Hm' & Hf'). exists w'.
  unfold zperform. rewrite (bind_ret_eq _ _ _ _ _ E). cbn [zrespond] in *. rewrite Hm in *.
  destruct (add_member x e flags (members s)) as [ps' a]. split; [done|]. exists z', l'. split; [done|]. split; [done|]. split; [|done]. cbn. congruence.
Qed.
Lemma perform_rem_ok w s e : presents w s -> exists w', zperform (ZRem e) w = Ret (zrespond (ZRem e) s).2 w' /\ presents w' (zrespond (ZRem e) s).1.
Proof.
  intros (z & l & Hok & Hm & Hf & Hb). destruct (zsetDel_ok siphash w z l e Hok) as (w' & z' & l' & E & Hok' & Hm' & Hf').
  exists w'. unfold zperform. rewrite (bind_ret_eq _ _ _ _ _ E). cbn [zrespond]. rewrite Hm in *.
  destruct (find_member e (members s)) as [[i p]|] eqn:Ef.
  - split; [done|]. rewrite <- Hm in Ef. destruct (found_perm _ _ _ _ (zs_distinct _ _ _ _ Hok) Ef) as [<- HP]. rewrite Hm in HP.
    exists z', l'. split; [done|]. split; [done|]. split; [cbn; by rewrite Hf', Hf|]. by apply (drop_balanced s (remove_ele p.2 (members s)) [p]).
  - split; [done|]. exists z', l'. split; [done|]. rewrite Hm', Hf', Hf. split; [|done].
    destruct (member_cases e l) as [(l1 & it & l2 & -> & <-)|He].
    + rewrite <- Hm, find_at_place in Ef by apply Hok. done.
    + rewrite <- Hm. destruct (find_nowhere _ _ He) as [_ ->]. done.
Qed.

Lemma zperform_ok c w s : presents w s -> allowed c s = true -> exists w', zperform c w = Ret (zrespond c s).2 w' /\ presents w' (zrespond c s).1.
Proof.
  intros Hp Ha. pose proof Hp as (z & l & Hok & Hm & Hf & Hb). pose proof (zs_list _ _ _ _ Hok) as Hl.
  pose proof (zs_scored _ _ _ _ Hok) as Hsc. pose proof (zs_ordered _ _ _ _ Hok) as Ho.
  assert (Hread : forall w', zset_ok siphash w' z l -> zfreed w' = zfreed w -> presents w' s).
  { intros w' Hok' Hf'. exists z, l. split; [done|]. split; [done|]. split; [congruence|done]. }
  destruct c as [x e flags|e|e|e reverse| |rank|r|r|r|r|r|r|a b]; cbn [allowed] in Ha.
  - by apply perform_add_ok.
  - by apply perform_rem_ok.
  - destruct (zsetScore_ok siphash w z l e Hok) as (w' & E & Hok' & Hf'). exists w'. unfold zperform. rewrite (bind_ret_eq _ _ _ _ _ E), Hm.
    split; [done|]. by apply Hread.
  - destruct (zsetRank_ok siphash w z l e reverse Hok) as (w' & E & Hok' & Hf'). exists w'. unfold zperform. rewrite (bind_ret_eq _ _ _ _ _ E), Hm.
    split; [done|]. by apply Hread.
  - exists w. unfold zperform. rewrite (bind_ret_eq _ _ _ _ _ (zsetLength_eq siphash w z l Hok)). cbn [zrespond fst snd]. by rewrite <- Hm, zlen_fmap.
  - exists w. split; [|done]. apply (node_answer w z l); [done|]. exists (l !! Z.to_nat (rank - 1)).
    rewrite (zslGetElementByRank_ok w z l [] rank Hl) by lia. rewrite (proj2 (Z.eqb_neq rank 0)) by lia.
    split; [done|]. split; [by rewrite <- Hm, list_lookup_fmap|]. intros it. apply list_elem_of_lookup_2.
  - exists w. split; [|done]. apply numeric_range_eq in Ha as [H1 H2]. cbn [zrespond snd]. rewrite <- Hm. apply (node_answer w z l); [done|].
    by apply (zslFirstInRange_ok r H1 H2 w z l []).
  - exists w. split; [|done]. apply numeric_range_eq in Ha as [H1 H2]. cbn [zrespond snd]. rewrite <- Hm. apply (node_answer w z l); [done|].
    by apply (zslLastInRange_ok r H1 H2 w z l []).
  - exists w. split; [|done]. apply same_score_eq in Ha. cbn [zrespond snd]. rewrite <- Hm in *. apply (node_answer w z l); [done|].
    by apply (zslFirstInLexRange_ok r w z l []).
  - exists w. split; [|done]. apply same_score_eq in Ha. cbn [zrespond snd]. rewrite <- Hm in *. apply (node_answer w z l); [done|].
    by apply (zslLastInLexRange_ok r w z l []).
  - apply numeric_range_eq in Ha as [H1 H2]. apply (removal_answer w z l); [done..|apply filter_perm|]. rewrite <- Hm. by apply (zslDeleteRangeByScore_ok siphash w z).
  - apply same_score_eq in Ha. apply (removal_answer w z l); [done..|apply filter_perm|]. rewrite <- Hm in *. by apply (zslDeleteRangeByLex_ok siphash w z).
  - apply (removal_answer w z l); [done..|apply ranks_perm|]. rewrite <- Hm. apply (zslDeleteRangeByRank_ok siphash w z); [done|lia].
Qed.

Lemma zrun_ok cs : forall w s, presents w s -> all_allowed cs s = true -> exists w', zrun cs w = Ret (zrun_spec cs s).2 w' /\ presents w' (zrun_spec cs s).1.
Proof.
  induction cs as [|c cs IH]; intros w s Hp Ha; [by exists w|]. apply andb_true_iff in Ha as [Hc Ha].
  destruct (zperform_ok c w s Hp Hc) as (w1 & E1 & Hp1). cbn [Zset.zrun zrun_spec]. rewrite (bind_ret_eq _ _ _ _ _ E1).
  destruct (zrespond c s) as [s1 a]. destruct (IH w1 s1 Hp1 Ha) as (w' & E & Hp'). rewrite (bind_ret_eq _ _ _ _ _ E).
  exists w'. by destruct (zrun_spec cs s1).
Qed.

Lemma create_zset_ok resize forked n : exists w, createZsetObject (zblank (blank resize forked) n) = Ret tt w /\ presents w empty_set.
Proof.
  destruct (create_tracked siphash resize forked) as (d & E & Ht). exists (created d n). unfold createZsetObject.
  rewrite (bind_ret_eq _ _ _ _ _ (in_dict_eq _ (zblank _ n) _ _ E)). destruct (zslCreate_ok d n) as [E' Hl]. split; [exact E'|].
  exists empty_zsl, []. split; [|split; [reflexivity|split; [reflexivity|constructor]]].
  split; [exact Hl|constructor|constructor|constructor|exact Ht].
Qed.

Lemma free_zset_ok w s : presents w s -> exists w', freeZsetObject siphash w = Ret tt w' /\ zsl w' = None /\ nodes w' = ∅ /\
  the_dict (zdict w') = None /\ entries (zdict w') = ∅ /\ tables (zdict w') = ∅ /\ zfreed w' ≡ₚ taken s.
Proof.
  intros (z & l & Hok & Hm & Hf & Hb). destruct (release_tracked siphash _ l (zs_tracked _ _ _ _ Hok)) as (d' & E & D1 & D2 & D3 & _ & _).
  destruct (zslFree_ok (with_zdict d' w) z l (zsl_inv_zdict _ _ _ _ _ d' (zs_list _ _ _ _ Hok))) as (w' & E' & Z1 & Z2 & Z3 & Z4).
  exists w'. unfold freeZsetObject. rewrite (bind_ret_eq _ _ _ _ _ (in_dict_eq _ w _ _ E)). split; [exact E'|].
  rewrite Z3. do 5 (split; [done|]). rewrite Z4. cbn. rewrite Hf. unfold balanced in Hb. rewrite Hb, <- Hm, reverse_Permutation.
  rewrite <- list_fmap_compose. rewrite Permutation_app_comm. done.
Qed.
End refinement.

(** C11: a sorted set is a sorted list. On a new set, any sequence of additions
    (with the flags NX, XX and INCR), removals, lookups of scores, of ranks and of
    elements by rank, lookups of the ends of ranges of scores and of strings, and
    removals of such ranges answers what a list answers that is sorted by score and
    then by element - whatever hash function and random numbers are used, as long as
    the numbers do not stay low. The members stay sorted, no element is there twice, and
    after the release of the set no node, entry or table is left and every string
    that was added has been released exactly once. *)
Theorem sorted_set_refines siphash `{Hash64 siphash} random luck `{Lucky random luck} resize forked n cs :
  all_allowed cs empty_set = true ->
  let final := (zrun_spec cs empty_set).1 in
  exists w w', (createZsetObject ;;; zrun siphash random luck cs) (zblank (blank resize forked) n) = Ret (zrun_spec cs empty_set).2 w /\
  ordered (members final) /\ NoDup (snd <$> members final) /\
  freeZsetObject siphash w = Ret tt w' /\ zsl w' = None /\ nodes w' = ∅ /\
  the_dict (zdict w') = None /\ entries (zdict w') = ∅ /\ tables (zdict w') = ∅ /\ zfreed w' ≡ₚ taken final.
Proof.
  intros Ha final. destruct (create_zset_ok siphash resize forked n) as (w0 & E0 & Hp0).
  destruct (zrun_ok siphash random luck cs w0 empty_set Hp0 Ha) as (w & E & Hp). destruct (free_zset_ok siphash w _ Hp) as (w' & E' & Hrest).
  exists w, w'. rewrite (bind_ret_eq _ _ _ _ _ E0). split; [exact E|]. destruct Hp as (z & l & [_ _ Ho Hd _] & Hm & _). fold final in Hm.
  rewrite <- Hm. split; [exact Ho|]. split; [|exact (conj E' Hrest)]. unfold distinct_eles in Hd. by rewrite <- list_fmap_compose.
Qed.

(** C19: the rank of an element leads back to it. In any set that a sequence of
    operations has produced, [zslGetRank] with the score and the string of the element
    at position [i] of the list returns [i + 1], and [zslGetElementByRank] of
    this rank returns the node with that score and string. *)
Theorem rank_round_trip siphash `{Hash64 siphash} w s i x e : presents siphash w s -> members s !! i = Some (x, e) -> exists p,
  zslGetRank x e w = Ret (Z.of_nat i + 1) w /\ zslGetElementByRank (Z.of_nat i + 1) w = Ret (Some p) w /\
  read_node (Some p) w = Ret (Some (x, e)) w.
Proof.
  intros (z & l & [Hl Hsc Ho Hd _] & Hm & _) Hi. rewrite <- Hm in Hi. apply list_lookup_fmap_Some in Hi as (it & [= -> ->] & Hi).
  assert (Hit : it ∈ l) by by eapply list_elem_of_lookup_2. pose proof (list_elem_of_split_length _ _ _ Hi) as (l1 & l2 & El & Ei).
  exists (iaddr it). split; [|split].
  - rewrite El in *. rewrite (zslGetRank_ok w z l1 it l2 [] Hl Hsc Ho Hd). unfold zlen. by rewrite Ei.
  - rewrite (zslGetElementByRank_ok w z l [] _ Hl) by lia. rewrite (proj2 (Z.eqb_neq _ 0)) by lia.
    replace (Z.to_nat (Z.of_nat i + 1 - 1)) with i by lia. by rewrite Hi.
  - apply (read_node_eq w z l [] (Some it) Hl). by intros it' [= <-].
Qed.

(** ** On concrete inputs *)

(** Every third number is low. *)
Definition some_luck (i : nat) : Z := if (i mod 3 =? 1)%nat then 100 else 65535.
#[export] Instance some_luck_lucky : Lucky some_luck 2.
Proof.
  split; [|lia]. intros d. destruct (decide (d mod 3 = 1)%nat) as [Hd|Hd]; [exists 1%nat|exists 0%nat]; (split; [lia|]); unfold some_luck.
  - replace ((d + 1) mod 3 =? 1)%nat with false; [vm_compute; congruence|]. symmetry. apply Nat.eqb_neq. rewrite Nat.Div0.add_mod, Hd. cbn. lia.
  - rewrite Nat.add_0_r, (proj2 (Nat.eqb_neq _ _) Hd). vm_compute. congruence.
Qed.
Definition short_hash (t : list Z) : Z := zlen t mod 2.
#[export] Instance short_hash_64 : Hash64 short_hash.
Proof. intros t. unfold short_hash. pose proof (Z.mod_pos_bound (zlen t) 2). lia. Qed.

Definition sa : sds := {| text := [97]; text_short := I |}.
Definition sb : sds := {| text := [98; 98]; text_short := I |}.
Definition sc : sds := {| text := [99]; text_short := I |}.
Definition one : double := S754_finite false 4503599627370496 (-52).
Definition two : double := S754_finite false 4503599627370496 (-51).
Definition three : double := S754_finite false 6755399441055744 (-51).

Definition some_commands : list zcommand :=
  [ZAdd one sb 0; ZAdd one sa 0; ZFirstLex {| lmin := Str sb; lmax := Maxstring; lminex := false; lmaxex := false |};
   ZAdd two sc 0; ZAdd two sa ZADD_INCR; ZRank sa false; ZScore sa; ZAdd one sc ZADD_NX;
   ZLast {| min := one; max := three; minex := false; maxex := true |};
   ZRemRangeByRank 2 2; ZElement 2; ZRem sb; ZCard].

Lemma sorted_set_refines_witness : all_allowed some_commands empty_set = true /\ exists w w',
  (createZsetObject ;;; zrun short_hash some_luck 2 some_commands) (zblank (blank true false) 0) =
    Ret [AnAddition (1, ZADD_ADDED, Some one); AnAddition (1, ZADD_ADDED, Some one); AMember (Some (one, sb));
         AnAddition (1, ZADD_ADDED, Some two); AnAddition (1, ZADD_UPDATED, Some three); ANumber 2; AScore (Some three);
         AnAddition (1, ZADD_NOP, None); AMember (Some (two, sc)); ANumber 1; AMember (Some (three, sa)); ANumber 1; ANumber 1] w /\
  freeZsetObject short_hash w = Ret tt w' /\ nodes w' = ∅ /\ zfreed w' ≡ₚ [sc; sa; sb].
Proof.
  assert (Ha : all_allowed some_commands empty_set = true) by (vm_compute; reflexivity). split; [exact Ha|].
  destruct (sorted_set_refines short_hash some_luck 2 true false 0 some_commands Ha) as (w & w' & E & _ & _ & E' & _ & Hn & _ & _ & _ & HP).
  exists w, w'. split; [|split; [exact E'|split; [exact Hn|]]].
  - rewrite E. f_equal.
  - rewrite HP. vm_compute. reflexivity.
Defined.

Lemma rank_round_trip_witness : exists w, presents short_hash w (zrun_spec [ZAdd two sb 0; ZAdd one sa 0] empty_set).1 /\
  zslGetRank two sb w = Ret 2 w /\ exists p, zslGetElementByRank 2 w = Ret (Some p) w /\ read_node (Some p) w = Ret (Some (two, sb)) w.
Proof.
  destruct (create_zset_ok short_hash true false 0) as (w0 & _ & Hp0).
  destruct (zrun_ok short_hash some_luck 2 [ZAdd two sb 0; ZAdd one sa 0] w0 empty_set Hp0 ltac:(vm_compute; reflexivity)) as (w & _ & Hp).
  exists w. split; [exact Hp|]. assert (Hi : members (zrun_spec [ZAdd two sb 0; ZAdd one sa 0] empty_set).1 !! 1%nat = Some (two, sb)) by (vm_compute; reflexivity).
  destruct (rank_round_trip short_hash w _ 1 two sb Hp Hi) as (p & E1 & E2 & E3). split; [exact E1|]. exists p. split; [exact E2|exact E3].
Defined.
