(* ===== verification/Ziplist.v ===== *)
(** ziplist.c of the Redis the project ships: a list of strings and integers in one
    block of bytes. Every entry starts with the length of the one before it, in one
    byte or in five, so that the list can be walked in both directions; an entry whose
    length changes may make the next one grow, and so on.

    A list is its block; a pointer into it is an offset. Loads and stores of
    integers are those of Intset; [zrealloc] and [zmalloc] always succeed. *)
From S2P Require Import Prelude Intset Util.
#[local] Open Scope Z_scope.

Definition ZIP_END : Z := 255.
Definition ZIP_BIG_PREVLEN : Z := 254.
Definition ZIP_STR_MASK : Z := 192.
Definition ZIP_STR_06B : Z := 0.
Definition ZIP_STR_14B : Z := 64.
Definition ZIP_STR_32B : Z := 128.
Definition ZIP_INT_16B : Z := 192.
Definition ZIP_INT_32B : Z := 208.
Definition ZIP_INT_64B : Z := 224.
Definition ZIP_INT_24B : Z := 240.
Definition ZIP_INT_8B : Z := 254.
Definition ZIP_INT_IMM_MASK : Z := 15.
Definition ZIP_INT_IMM_MIN : Z := 241.
Definition ZIP_INT_IMM_MAX : Z := 253.
Definition INT24_MAX : Z := 8388607.
Definition INT24_MIN : Z := - INT24_MAX - 1.
Definition INT8_MIN : Z := -128.
Definition INT8_MAX : Z := 127.
Definition UINT16_MAX : Z := 65535.
Definition UCHAR_MAX : Z := 255.
Definition ZIPLIST_HEADER_SIZE : Z := 10.
Definition ZIPLIST_END_SIZE : Z := 1.

Definition ZIP_IS_STR (enc : Z) : bool := Z.land enc ZIP_STR_MASK <? ZIP_STR_MASK.

(** [p] is the offset of the entry. *)
Record zlentry := { prevrawlensize : Z; prevrawlen : Z; lensize : Z; len : Z; headersize : Z; zencoding : Z; zp : Z }.

Section ziplist.
Context {S : Type}.

(** ** Fields of the header *)
Definition ZIPLIST_BYTES (zl : buf) : M S Z := load_le zl 0 4.
Definition ZIPLIST_TAIL_OFFSET (zl : buf) : M S Z := load_le zl 4 4.
Definition ZIPLIST_LENGTH (zl : buf) : M S Z := load_le zl 8 2.
Definition set_bytes (zl : buf) (n : Z) : M S buf := store_le zl 0 4 n.
Definition set_tail_offset (zl : buf) (n : Z) : M S buf := store_le zl 4 4 n.
Definition set_zllen (zl : buf) (n : Z) : M S buf := store_le zl 8 2 n.
Definition ZIPLIST_ENTRY_HEAD : Z := ZIPLIST_HEADER_SIZE.
Definition ZIPLIST_ENTRY_TAIL (zl : buf) : M S Z := ZIPLIST_TAIL_OFFSET zl.
Definition ZIPLIST_ENTRY_END (zl : buf) : M S Z := let* n := ZIPLIST_BYTES zl in ret (n - 1).
Definition ZIPLIST_INCR_LENGTH (zl : buf) (incr : Z) : M S buf :=
  let* n := ZIPLIST_LENGTH zl in
  if n <? UINT16_MAX then let* n := ZIPLIST_LENGTH zl in set_zllen zl (n + incr) else ret zl.

(** ** Encodings *)
Definition zipIntSize (encoding : Z) : M S Z :=
  if encoding =? ZIP_INT_8B then ret 1
  else if encoding =? ZIP_INT_16B then ret 2
  else if encoding =? ZIP_INT_24B then ret 3
  else if encoding =? ZIP_INT_32B then ret 4
  else if encoding =? ZIP_INT_64B then ret 8
  else if (ZIP_INT_IMM_MIN <=? encoding) && (encoding <=? ZIP_INT_IMM_MAX) then ret 0
  else fail AssertFail.

(** Storing a list of bytes one after the other. *)
Fixpoint put_bytes (zl : buf) (p : Z) (l : list Z) : M S buf :=
  match l with [] => ret zl | x :: l => let* zl := wr zl p x in put_bytes zl (p + 1) l end.

(** The block and the returned number; [p] may be NULL. *)
Definition zipStoreEntryEncoding (zl : buf) (p : option Z) (encoding rawlen : Z) : M S (buf * Z) :=
  let bytes :=
    if ZIP_IS_STR encoding then
      if rawlen <=? 63 then [Z.lor ZIP_STR_06B rawlen]
      else if rawlen <=? 16383 then
        [Z.lor ZIP_STR_14B (Z.land (Z.shiftr rawlen 8) 63); Z.land rawlen 255]
      else
        [ZIP_STR_32B; Z.land (Z.shiftr rawlen 24) 255; Z.land (Z.shiftr rawlen 16) 255;
         Z.land (Z.shiftr rawlen 8) 255; Z.land rawlen 255]
    else [encoding] in
  match p with
  | None => ret (zl, zlen bytes)
  | Some p => let* zl := put_bytes zl p bytes in ret (zl, zlen bytes)
  end.

(** [ZIP_DECODE_LENGTH]: the encoding, [lensize] and [len]. *)
Definition ZIP_DECODE_LENGTH (zl : buf) (p : Z) : M S (Z * Z * Z) :=
  let* c := rd zl p in
  let encoding := if c <? ZIP_STR_MASK then Z.land c ZIP_STR_MASK else c in
  if encoding <? ZIP_STR_MASK then
    if encoding =? ZIP_STR_06B then ret (encoding, 1, Z.land c 63)
    else if encoding =? ZIP_STR_14B then
      let* c1 := rd zl (p + 1) in ret (encoding, 2, Z.lor (Z.shiftl (Z.land c 63) 8) c1)
    else if encoding =? ZIP_STR_32B then
      let* c1 := rd zl (p + 1) in
      let* c2 := rd zl (p + 2) in
      let* c3 := rd zl (p + 3) in
      let* c4 := rd zl (p + 4) in
      ret (encoding, 5, u32 (Z.lor (Z.lor (Z.lor (Z.shiftl c1 24) (Z.shiftl c2 16)) (Z.shiftl c3 8)) c4))
    else fail AssertFail
  else let* n := zipIntSize encoding in ret (encoding, 1, n).

Definition zipStorePrevEntryLengthLarge (zl : buf) (p : option Z) (len : Z) : M S (buf * Z) :=
  match p with
  | None => ret (zl, 5)
  | Some p => let* zl := wr zl p ZIP_BIG_PREVLEN in let* zl := store_le zl (p + 1) 4 len in ret (zl, 5)
  end.
Definition zipStorePrevEntryLength (zl : buf) (p : option Z) (len : Z) : M S (buf * Z) :=
  match p with
  | None => ret (zl, if len <? ZIP_BIG_PREVLEN then 1 else 5)
  | Some q =>
      if len <? ZIP_BIG_PREVLEN then let* zl := wr zl q len in ret (zl, 1)
      else zipStorePrevEntryLengthLarge zl p len
  end.

Definition ZIP_DECODE_PREVLENSIZE (zl : buf) (p : Z) : M S Z :=
  let* c := rd zl p in ret (if c <? ZIP_BIG_PREVLEN then 1 else 5).
(** [prevlensize] and [prevlen] *)
Definition ZIP_DECODE_PREVLEN (zl : buf) (p : Z) : M S (Z * Z) :=
  let* size := ZIP_DECODE_PREVLENSIZE zl p in
  if size =? 1 then let* n := rd zl p in ret (size, n)
  else let* n := load_le zl (p + 1) 4 in ret (size, n).

Definition zipPrevLenByteDiff (zl : buf) (p len : Z) : M S Z :=
  let* size := ZIP_DECODE_PREVLENSIZE zl p in
  let* (_, n) := zipStorePrevEntryLength zl None len in
  ret (i32 (n - size)).

Definition zipRawEntryLength (zl : buf) (p : Z) : M S Z :=
  let* size := ZIP_DECODE_PREVLENSIZE zl p in
  let* (_, lensize, len) := ZIP_DECODE_LENGTH zl (p + size) in
  ret (u32 (size + lensize + len)).

(** The value and its encoding, when the result is 1. *)
Definition zipTryEncoding (entry : buf) (entrylen : Z) : M S (option (Z * Z)) :=
  if (32 <=? entrylen) || (entrylen =? 0) then ret None
  else
    let* (r, value) := string2ll entry entrylen in
    match value with
    | Some value =>
        if r =? 0 then ret None
        else
          let encoding :=
            if (0 <=? value) && (value <=? 12) then u8 (ZIP_INT_IMM_MIN + value)
            else if (INT8_MIN <=? value) && (value <=? INT8_MAX) then ZIP_INT_8B
            else if (INT16_MIN <=? value) && (value <=? INT16_MAX) then ZIP_INT_16B
            else if (INT24_MIN <=? value) && (value <=? INT24_MAX) then ZIP_INT_24B
            else if (INT32_MIN <=? value) && (value <=? INT32_MAX) then ZIP_INT_32B
            else ZIP_INT_64B in
          ret (Some (value, encoding))
    | None => ret None
    end.

Definition zipSaveInteger (zl : buf) (p value encoding : Z) : M S buf :=
  if encoding =? ZIP_INT_8B then wr zl p value
  else if encoding =? ZIP_INT_16B then store_le zl p 2 value
  else if encoding =? ZIP_INT_24B then store_le zl p 3 (Z.shiftr (u32 (Z.shiftl value 8)) 8)
  else if encoding =? ZIP_INT_32B then store_le zl p 4 value
  else if encoding =? ZIP_INT_64B then store_le zl p 8 value
  else if (ZIP_INT_IMM_MIN <=? encoding) && (encoding <=? ZIP_INT_IMM_MAX) then ret zl
  else fail AssertFail.

Definition zipLoadInteger (zl : buf) (p encoding : Z) : M S Z :=
  if encoding =? ZIP_INT_8B then let* v := rd zl p in ret (as_signed 1 v)
  else if encoding =? ZIP_INT_16B then let* v := load_le zl p 2 in ret (as_signed 2 v)
  else if encoding =? ZIP_INT_32B then let* v := load_le zl p 4 in ret (as_signed 4 v)
  else if encoding =? ZIP_INT_24B then let* v := load_le zl p 3 in ret (Z.shiftr (as_signed 4 (256 * v)) 8)
  else if encoding =? ZIP_INT_64B then let* v := load_le zl p 8 in ret (as_signed 8 v)
  else if (ZIP_INT_IMM_MIN <=? encoding) && (encoding <=? ZIP_INT_IMM_MAX) then ret (Z.land encoding ZIP_INT_IMM_MASK - 1)
  else fail AssertFail.

Definition zipEntry (zl : buf) (p : Z) : M S zlentry :=
  let* (size, prev) := ZIP_DECODE_PREVLEN zl p in
  let* (enc, lensize, len) := ZIP_DECODE_LENGTH zl (p + size) in
  ret {| prevrawlensize := size; prevrawlen := prev; lensize := lensize; len := len; headersize := u32 (size + lensize);
         zencoding := enc; zp := p |}.

(** ** The list *)
Definition ziplistNew : M S buf :=
  let bytes := ZIPLIST_HEADER_SIZE + ZIPLIST_END_SIZE in
  let* zl := set_bytes (uninit bytes) bytes in
  let* zl := set_tail_offset zl ZIPLIST_HEADER_SIZE in
  let* zl := set_zllen zl 0 in
  wr zl (bytes - 1) ZIP_END.

Definition ziplistResize (zl : buf) (len : Z) : M S buf :=
  let zl := zrealloc zl len in
  let* zl := set_bytes zl len in
  wr zl (u32 (len - 1)) ZIP_END.

(** Every entry takes at least two bytes. *)
Definition list_turns (zl : buf) : nat := Datatypes.S (length zl).

Definition memmove (zl : buf) (dst src n : Z) : M S buf := memcpy zl dst zl src n.

(** Room for the five bytes of the length in front of [next]. *)
Definition grow_next (zl : buf) (p curlen rawlen rawlensize : Z) (next : zlentry) : M S (buf * Z) :=
  let extra := rawlensize - prevrawlensize next in
  let* zl := ziplistResize zl (u32 (curlen + extra)) in
  let np := p + rawlen in
  let* zl := (let* t := ZIPLIST_TAIL_OFFSET zl in if negb (t =? np) then set_tail_offset zl (u32 (t + extra)) else ret zl) in
  let* zl := memmove zl (np + rawlensize) (np + prevrawlensize next) (curlen - np - prevrawlensize next - 1) in
  let* (zl, _) := zipStorePrevEntryLength zl (Some np) (u32 rawlen) in
  ret (zl, curlen + extra).

Definition cascade_turn (a : buf * Z * Z) : M S (buf * Z * Z + buf) :=
  let '(zl, p, curlen) := a in
  let* c := rd zl p in
  if c =? ZIP_END then ret (inr zl)
  else
    let* cur := zipEntry zl p in
    let rawlen := u32 (headersize cur + len cur) in
    let* (_, rawlensize) := zipStorePrevEntryLength zl None (u32 rawlen) in
    let* c := rd zl (p + rawlen) in
    if c =? ZIP_END then ret (inr zl)
    else
      let* next := zipEntry zl (p + rawlen) in
      if prevrawlen next =? rawlen then ret (inr zl)
      else if prevrawlensize next <? rawlensize then
        let* (zl, curlen) := grow_next zl p curlen rawlen rawlensize next in
        ret (inl (zl, p + rawlen, curlen))
      else
        let* (zl, _) := (if rawlensize <? prevrawlensize next then zipStorePrevEntryLengthLarge zl (Some (p + rawlen)) (u32 rawlen)
                         else zipStorePrevEntryLength zl (Some (p + rawlen)) (u32 rawlen)) in
        ret (inr zl).
Definition __ziplistCascadeUpdate (zl : buf) (p : Z) : M S buf :=
  let* curlen := ZIPLIST_BYTES zl in
  while_loop (list_turns zl) cascade_turn (zl, p, curlen).

(** [for (i = 0; p[0] != ZIP_END && i < num; i++)] *)
Definition count_turn (zl : buf) (num : Z) (a : Z * Z) : M S (Z * Z + Z * Z) :=
  let '(p, i) := a in
  let* c := rd zl p in
  if c =? ZIP_END then ret (inr (p, i))
  else if i <? num then let* n := zipRawEntryLength zl p in ret (inl (p + n, u32 (i + 1)))
  else ret (inr (p, i)).

(** The tail is moved by the bytes that go, and by those the entry at [p] takes more unless it is the last. *)
Definition close_tail (zl : buf) (p totlen nextdiff : Z) : M S buf :=
  let* t := ZIPLIST_TAIL_OFFSET zl in
  let* zl := set_tail_offset zl (u32 (t - totlen)) in
  let* tail := zipEntry zl p in
  let* c := rd zl (p + u32 (headersize tail + len tail)) in
  if negb (c =? ZIP_END) then let* t := ZIPLIST_TAIL_OFFSET zl in set_tail_offset zl (u32 (t + nextdiff)) else ret zl.

(** The entries between [first] and [p] are overwritten by what follows them; the new
    block and [nextdiff]. *)
Definition close_gap (zl : buf) (first : zlentry) (p totlen : Z) : M S (buf * Z) :=
  let* nextdiff := zipPrevLenByteDiff zl p (prevrawlen first) in
  let p := p - nextdiff in
  let* (zl, _) := zipStorePrevEntryLength zl (Some p) (prevrawlen first) in
  let* zl := close_tail zl p totlen nextdiff in
  let* n := ZIPLIST_BYTES zl in
  let* zl := memmove zl (zp first) p (n - p - 1) in
  ret (zl, nextdiff).

Definition __ziplistDelete (zl : buf) (p num : Z) : M S buf :=
  let* first := zipEntry zl p in
  let* (p, deleted) := while_loop (list_turns zl) (count_turn zl num) (p, 0) in
  let totlen := u32 (p - zp first) in
  if 0 <? totlen then
    let* c := rd zl p in
    let* (zl, nextdiff) :=
      (if negb (c =? ZIP_END) then close_gap zl first p totlen
       else let* zl := set_tail_offset zl (u32 (zp first - prevrawlen first)) in ret (zl, 0)) in
    let offset := zp first in
    let* n := ZIPLIST_BYTES zl in
    let* zl := ziplistResize zl (u32 (n - totlen + nextdiff)) in
    let* zl := ZIPLIST_INCR_LENGTH zl (- deleted) in
    if negb (nextdiff =? 0) then __ziplistCascadeUpdate zl offset else ret zl
  else ret zl.

(** The length of the entry in front of [p]. *)
Definition prevlen_at (zl : buf) (p : Z) : M S Z :=
  let* c := rd zl p in
  if negb (c =? ZIP_END) then let* (_, prevlen) := ZIP_DECODE_PREVLEN zl p in ret prevlen
  else
    let* ptail := ZIPLIST_ENTRY_TAIL zl in
    let* c := rd zl ptail in
    if negb (c =? ZIP_END) then zipRawEntryLength zl ptail else ret 0.

(** A gap of [reqlen] bytes in front of [p]. *)
Definition open_gap (zl : buf) (p curlen reqlen nextdiff : Z) (forcelarge : bool) : M S buf :=
  let* zl := memmove zl (p + reqlen) (p - nextdiff) (curlen - p - 1 + nextdiff) in
  let* (zl, _) := (if forcelarge then zipStorePrevEntryLengthLarge zl (Some (p + reqlen)) (u32 reqlen)
                   else zipStorePrevEntryLength zl (Some (p + reqlen)) (u32 reqlen)) in
  let* t := ZIPLIST_TAIL_OFFSET zl in
  let* zl := set_tail_offset zl (u32 (t + reqlen)) in
  let* tail := zipEntry zl (p + reqlen) in
  let* c := rd zl (p + (reqlen + headersize tail + len tail)) in
  if negb (c =? ZIP_END) then let* t := ZIPLIST_TAIL_OFFSET zl in set_tail_offset zl (u32 (t + nextdiff)) else ret zl.

(** [value] is 123456789 and [encoding] 0 when the text is not that of a number. *)
Definition write_entry (zl : buf) (p prevlen : Z) (s : buf) (slen value encoding : Z) : M S buf :=
  let* (zl, n) := zipStorePrevEntryLength zl (Some p) prevlen in
  let p := p + n in
  let* (zl, n) := zipStoreEntryEncoding zl (Some p) encoding slen in
  let p := p + n in
  let* zl := (if ZIP_IS_STR encoding then memcpy zl p s 0 slen else zipSaveInteger zl p value encoding) in
  ZIPLIST_INCR_LENGTH zl 1.

(** The room is made: the entry that follows stores the new length, and the update runs if it had to
    grow or shrink for that. *)
Definition make_room (zl : buf) (p curlen reqlen : Z) : M S buf :=
  let* c := rd zl p in
  let* nextdiff := (if negb (c =? ZIP_END) then zipPrevLenByteDiff zl p (u32 reqlen) else ret 0) in
  let '(nextdiff, forcelarge) := if (nextdiff =? -4) && (reqlen <? 4) then (0, true) else (nextdiff, false) in
  let* zl := ziplistResize zl (u32 (curlen + reqlen + nextdiff)) in
  let* c := rd zl p in
  let* zl := (if negb (c =? ZIP_END) then open_gap zl p curlen reqlen nextdiff forcelarge else set_tail_offset zl (u32 p)) in
  if negb (nextdiff =? 0) then __ziplistCascadeUpdate zl (p + reqlen) else ret zl.

Definition __ziplistInsert (zl : buf) (p : Z) (s : buf) (slen : Z) : M S buf :=
  let* curlen := ZIPLIST_BYTES zl in
  let* prevlen := prevlen_at zl p in
  let* r := zipTryEncoding s slen in
  let '(value, encoding) := match r with Some ve => ve | None => (123456789, 0) end in
  let* reqlen := (match r with Some _ => zipIntSize encoding | None => ret slen end) in
  let* (_, n) := zipStorePrevEntryLength zl None prevlen in
  let* (_, m) := zipStoreEntryEncoding zl None encoding slen in
  let reqlen := reqlen + n + m in
  let* zl := make_room zl p curlen reqlen in
  write_entry zl p prevlen s slen value encoding.

(** A list cannot be merged with NULL, nor with itself ([same]). The merged list, and whether
    it took the place of the first. *)
Definition ziplistMerge (first second : option buf) (same : bool) : M S (option (buf * bool)) :=
  match first, second with
  | Some first, Some second =>
      if same then ret None
      else
        let* first_bytes := ZIPLIST_BYTES first in
        let* first_len := ZIPLIST_LENGTH first in
        let* second_bytes := ZIPLIST_BYTES second in
        let* second_len := ZIPLIST_LENGTH second in
        let append := second_len <=? first_len in
        let zlbytes := first_bytes + second_bytes - ZIPLIST_HEADER_SIZE - ZIPLIST_END_SIZE in
        let zllength := first_len + second_len in
        let zllength := if zllength <? UINT16_MAX then zllength else UINT16_MAX in
        let* first_offset := ZIPLIST_TAIL_OFFSET first in
        let* second_offset := ZIPLIST_TAIL_OFFSET second in
        let* target :=
          (if append then
             let target := zrealloc first zlbytes in
             memcpy target (first_bytes - ZIPLIST_END_SIZE) second ZIPLIST_HEADER_SIZE (second_bytes - ZIPLIST_HEADER_SIZE)
           else
             let target := zrealloc second zlbytes in
             let* target := memmove target (first_bytes - ZIPLIST_END_SIZE) ZIPLIST_HEADER_SIZE (second_bytes - ZIPLIST_HEADER_SIZE) in
             memcpy target 0 first 0 (first_bytes - ZIPLIST_END_SIZE)) in
        let* target := set_bytes target zlbytes in
        let* target := set_zllen target zllength in
        let* target := set_tail_offset target (first_bytes - ZIPLIST_END_SIZE + (second_offset - ZIPLIST_HEADER_SIZE)) in
        let* target := __ziplistCascadeUpdate target first_offset in
        ret (Some (target, append))
  | _, _ => ret None
  end.

Definition ziplistPush (zl : buf) (s : buf) (slen : Z) (at_head : bool) : M S buf :=
  let* p := (if at_head then ret ZIPLIST_ENTRY_HEAD else ZIPLIST_ENTRY_END zl) in
  __ziplistInsert zl p s slen.

(** ** Access *)

(** The loops leave the last [index] behind, which is -1 when they counted to its end. *)
Definition back_turn (zl : buf) (a : Z * Z * Z) : M S (Z * Z * Z + Z * Z) :=
  let '(p, prevlen, index) := a in
  if 0 <? prevlen then
    if negb (index =? 0) then
      let p := p - prevlen in
      let* (_, prevlen) := ZIP_DECODE_PREVLEN zl p in ret (inl (p, prevlen, index - 1))
    else ret (inr (p, index - 1))
  else ret (inr (p, index)).
Definition forth_turn (zl : buf) (a : Z * Z) : M S (Z * Z + Z * Z) :=
  let '(p, index) := a in
  let* c := rd zl p in
  if c =? ZIP_END then ret (inr (p, index))
  else if negb (index =? 0) then let* n := zipRawEntryLength zl p in ret (inl (p + n, index - 1))
  else ret (inr (p, index - 1)).

Definition ziplistIndex (zl : buf) (index : Z) : M S (option Z) :=
  let* (p, index) :=
    (if index <? 0 then
       let index := i32 (- index) - 1 in
       let* p := ZIPLIST_ENTRY_TAIL zl in
       let* c := rd zl p in
       if negb (c =? ZIP_END) then
         let* (_, prevlen) := ZIP_DECODE_PREVLEN zl p in
         while_loop (list_turns zl) (back_turn zl) (p, prevlen, index)
       else ret (p, index)
     else while_loop (list_turns zl) (forth_turn zl) (ZIPLIST_ENTRY_HEAD, index)) in
  let* c := rd zl p in
  ret (if (c =? ZIP_END) || (0 <? index) then None else Some p).

Definition ziplistNext (zl : buf) (p : Z) : M S (option Z) :=
  let* c := rd zl p in
  if c =? ZIP_END then ret None
  else
    let* n := zipRawEntryLength zl p in
    let p := p + n in
    let* c := rd zl p in
    ret (if c =? ZIP_END then None else Some p).

Definition ziplistPrev (zl : buf) (p : Z) : M S (option Z) :=
  let* c := rd zl p in
  if c =? ZIP_END then
    let* p := ZIPLIST_ENTRY_TAIL zl in
    let* c := rd zl p in
    ret (if c =? ZIP_END then None else Some p)
  else if p =? ZIPLIST_ENTRY_HEAD then ret None
  else
    let* (_, prevlen) := ZIP_DECODE_PREVLEN zl p in
    if 0 <? prevlen then ret (Some (p - prevlen)) else fail AssertFail.

(** What [ziplistGet] stores: the place of a string in the block and its length, or an integer;
    [None] is the result 0. *)
Inductive zlvalue := ZlString (p n : Z) | ZlInteger (v : Z).
Definition ziplistGet (zl : buf) (p : option Z) : M S (option zlvalue) :=
  match p with
  | None => ret None
  | Some p =>
      let* c := rd zl p in
      if c =? ZIP_END then ret None
      else
        let* entry := zipEntry zl p in
        if ZIP_IS_STR (zencoding entry) then ret (Some (ZlString (p + headersize entry) (len entry)))
        else let* v := zipLoadInteger zl (p + headersize entry) (zencoding entry) in ret (Some (ZlInteger v))
  end.

Definition ziplistInsert (zl : buf) (p : Z) (s : buf) (slen : Z) : M S buf := __ziplistInsert zl p s slen.

(** Also returns the pointer, which stays where it was. *)
Definition ziplistDelete (zl : buf) (p : Z) : M S (buf * Z) :=
  let* zl := __ziplistDelete zl p 1 in ret (zl, p).

Definition ziplistDeleteRange (zl : buf) (index num : Z) : M S buf :=
  let* p := ziplistIndex zl index in
  match p with None => ret zl | Some p => __ziplistDelete zl p num end.

(** [memcmp(b1+o1, b2+o2, n) == 0] *)
Fixpoint memcmp_same (b1 : buf) (o1 : Z) (b2 : buf) (o2 : Z) (n : nat) : M S bool :=
  match n with
  | O => ret true
  | Datatypes.S n =>
      let* x := rd b1 o1 in
      let* y := rd b2 o2 in
      if x =? y then memcmp_same b1 (o1 + 1) b2 (o2 + 1) n else ret false
  end.

Definition ziplistCompare (zl : buf) (p : Z) (sstr : buf) (slen : Z) : M S Z :=
  let* c := rd zl p in
  if c =? ZIP_END then ret 0
  else
    let* entry := zipEntry zl p in
    if ZIP_IS_STR (zencoding entry) then
      if len entry =? slen then let* b := memcmp_same zl (p + headersize entry) sstr 0 (Z.to_nat slen) in ret (b2z b)
      else ret 0
    else
      let* r := zipTryEncoding sstr slen in
      match r with
      | Some (sval, _) => let* zval := zipLoadInteger zl (p + headersize entry) (zencoding entry) in ret (b2z (zval =? sval))
      | None => ret 0
      end.

(** Whether the entry at [q] is the one searched for; [vencoding] and [vll] are kept for the next. *)
Definition find_compare (zl : buf) (q encoding len : Z) (vstr : buf) (vlen vencoding vll : Z) : M S (bool * Z * Z) :=
  if ZIP_IS_STR encoding then
    let* b := (if len =? vlen then memcmp_same zl q vstr 0 (Z.to_nat vlen) else ret false) in ret (b, vencoding, vll)
  else
    let* (vencoding, vll) :=
      (if vencoding =? 0 then
         let* r := zipTryEncoding vstr vlen in
         ret (match r with Some (v, e) => (e, v) | None => (UCHAR_MAX, vll) end)
       else ret (vencoding, vll)) in
    if vencoding =? 0 then fail AssertFail
    else if negb (vencoding =? UCHAR_MAX) then let* ll := zipLoadInteger zl q encoding in ret (ll =? vll, vencoding, vll)
    else ret (false, vencoding, vll).

Definition find_turn (zl : buf) (vstr : buf) (vlen skip : Z) (a : Z * Z * Z * Z) : M S (Z * Z * Z * Z + option Z) :=
  let '(p, skipcnt, vencoding, vll) := a in
  let* c := rd zl p in
  if c =? ZIP_END then ret (inr None)
  else
    let* prevlensize := ZIP_DECODE_PREVLENSIZE zl p in
    let* (encoding, lensize, len) := ZIP_DECODE_LENGTH zl (p + prevlensize) in
    let q := p + prevlensize + lensize in
    if skipcnt =? 0 then
      let* (found, vencoding, vll) := find_compare zl q encoding len vstr vlen vencoding vll in
      if (found : bool) then ret (inr (Some p)) else ret (inl (q + len, i32 skip, vencoding, vll))
    else ret (inl (q + len, skipcnt - 1, vencoding, vll)).
Definition ziplistFind (zl : buf) (p : Z) (vstr : buf) (vlen skip : Z) : M S (option Z) :=
  while_loop (list_turns zl) (find_turn zl vstr vlen skip) (p, 0, 0, 0).

Definition len_turn (zl : buf) (a : Z * Z) : M S (Z * Z + Z) :=
  let '(p, len) := a in
  let* c := rd zl p in
  if c =? ZIP_END then ret (inr len)
  else let* n := zipRawEntryLength zl p in ret (inl (p + n, u32 (len + 1))).
Definition ziplistLen (zl : buf) : M S (buf * Z) :=
  let* n := ZIPLIST_LENGTH zl in
  if n <? UINT16_MAX then let* n := ZIPLIST_LENGTH zl in ret (zl, n)
  else
    let* len := while_loop (list_turns zl) (len_turn zl) (ZIPLIST_HEADER_SIZE, 0) in
    let* zl := (if len <? UINT16_MAX then set_zllen zl len else ret zl) in
    ret (zl, len).

Definition ziplistBlobLen (zl : buf) : M S Z := ZIPLIST_BYTES zl.
End ziplist.
