(* ===== verification/ZlMem.v ===== *)
(** What a block of bytes holds at an offset, and what loads, stores, moves and
    changes of its size make of that. *)
From S2P Require Import Prelude Intset Util Ziplist.
#[local] Open Scope Z_scope.

(** The bytes [l] are at the offset [off]. *)
Definition has (b : buf) (off : Z) (l : list Z) : Prop :=
  0 <= off /\ off + zlen l <= zlen b /\ forall k x, l !! k = Some x -> b !! (Z.to_nat off + k)%nat = Some (Some x).
(** Between [lo] and [hi] nothing has changed. *)
Definition kept (b b' : buf) (lo hi : Z) : Prop := forall j, lo <= j < hi -> b' !! Z.to_nat j = b !! Z.to_nat j.
(** Nothing has changed but the bytes from [lo] to [hi]. *)
Definition frame (b b' : buf) (lo hi : Z) : Prop := zlen b' = zlen b /\ kept b b' 0 lo /\ kept b b' hi (zlen b).

Fixpoint le_bytes (n : nat) (v : Z) : list Z :=
  match n with O => [] | Datatypes.S n => v mod 256 :: le_bytes n (v / 256) end.

Lemma zlen_le_bytes n v : zlen (le_bytes n v) = Z.of_nat n.
Proof. revert v. induction n as [|n IH]; intros v; [done|]. cbn [le_bytes]. rewrite zlen_cons, IH. lia. Qed.

Section memory.
Context {S : Type}.
Implicit Types (b : buf) (l : list Z) (s : S).

(** ** What is there *)
Lemma has_lookup b off l k x : has b off l -> l !! Z.to_nat k = Some x -> 0 <= k -> b !! Z.to_nat (off + k) = Some (Some x).
Proof. intros (H0 & _ & H) Hk Hk0. rewrite <- (H _ _ Hk). f_equal. lia. Qed.
Lemma has_intro b off l : 0 <= off -> off + zlen l <= zlen b ->
  (forall k x, 0 <= k -> l !! Z.to_nat k = Some x -> b !! Z.to_nat (off + k) = Some (Some x)) -> has b off l.
Proof.
  intros H0 Hl H. split; [done|]. split; [done|]. intros k x Hk. rewrite <- (H (Z.of_nat k) x); [f_equal; lia|lia|by rewrite Nat2Z.id].
Qed.
Lemma has_nil b off : 0 <= off <= zlen b -> has b off [].
Proof. intros H. apply has_intro; [lia|rewrite zlen_nil; lia|done]. Qed.
Lemma has_app b off l l' : has b off (l ++ l') <-> has b off l /\ has b (off + zlen l) l'.
Proof.
  split.
  - intros (H0 & Hz & H). rewrite zlen_app in Hz. pose proof (zlen_nonneg l). pose proof (zlen_nonneg l'). split.
    + split; [done|]. split; [lia|]. intros k x Hk. apply H. by apply lookup_app_l_Some.
    + split; [lia|]. split; [lia|]. intros k x Hk. replace (Z.to_nat (off + zlen l) + k)%nat with (Z.to_nat off + (length l + k))%nat by (unfold zlen in *; lia).
      apply H. rewrite lookup_app_r by lia. by replace (length l + k - length l)%nat with k by lia.
  - intros [(H0 & Hz & H) (H0' & Hz' & H')]. split; [done|]. split; [rewrite zlen_app; lia|].
    intros k x [Hk|[Hk Hk']]%lookup_app_Some; [by apply H|]. rewrite <- (H' _ _ Hk'). f_equal. unfold zlen. lia.
Qed.
Lemma has_app_1 b off l l' : has b off (l ++ l') -> has b off l.
Proof. by intros [H _]%has_app. Qed.
Lemma has_app_2 b off l l' : has b off (l ++ l') -> has b (off + zlen l) l'.
Proof. by intros [_ H]%has_app. Qed.
Lemma has_at b off off' l : has b off l -> off = off' -> has b off' l.
Proof. by intros H <-. Qed.
Lemma has_bounds b off l : has b off l -> 0 <= off /\ off + zlen l <= zlen b.
Proof. by intros (H1 & H2 & _). Qed.
Lemma has_kept b b' lo hi off l : has b off l -> kept b b' lo hi -> lo <= off -> off + zlen l <= hi -> off + zlen l <= zlen b' -> has b' off l.
Proof.
  intros Hh Hk Hlo Hhi Hz. pose proof (has_bounds _ _ _ Hh) as [H0 _]. apply has_intro; [done|done|]. intros k x Hk0 Hx.
  pose proof (lookup_lt_Some _ _ _ Hx) as Hlt. rewrite Hk by (unfold zlen in *; lia). by eapply has_lookup.
Qed.
Lemma has_frame b b' lo hi off l : has b off l -> frame b b' lo hi -> off + zlen l <= lo \/ hi <= off -> has b' off l.
Proof.
  intros Hh (Hz & H1 & H2) Hd. pose proof (has_bounds _ _ _ Hh). destruct Hd as [Hd|Hd].
  - eapply (has_kept _ _ 0 lo); [done|done|lia|lia|lia].
  - eapply (has_kept _ _ hi (zlen b)); [done|done|lia|lia|lia].
Qed.
Lemma kept_frame b b' lo hi i j : frame b b' lo hi -> 0 <= i -> j <= zlen b -> j <= lo \/ hi <= i -> kept b b' i j.
Proof. intros (_ & H1 & H2) Hi Hj Hd x Hx. destruct Hd; [apply H1; lia|apply H2; lia]. Qed.
Lemma kept_trans b1 b2 b3 lo hi : kept b1 b2 lo hi -> kept b2 b3 lo hi -> kept b1 b3 lo hi.
Proof. intros H1 H2 j Hj. by rewrite H2, H1. Qed.
Lemma kept_sub b b' lo hi lo' hi' : kept b b' lo hi -> lo <= lo' -> hi' <= hi -> kept b b' lo' hi'.
Proof. intros H H1 H2 j Hj. apply H. lia. Qed.
Lemma kept_refl b lo hi : kept b b lo hi.
Proof. done. Qed.
(** A block that holds [l] and nothing else is [l]. *)
Lemma has_all b l : has b 0 l -> zlen l = zlen b -> b = Some <$> l.
Proof.
  intros (_ & _ & H) Hz. apply list_eq. intros k. destruct (l !! k) as [x|] eqn:Ek.
  - rewrite list_lookup_fmap, Ek. exact (H k x Ek).
  - rewrite list_lookup_fmap, Ek. cbn. apply lookup_ge_None in Ek. apply lookup_ge_None. unfold zlen in *. lia.
Qed.

(** ** Reading *)
Lemma rd_has b off x l s : has b off (x :: l) -> rd b off s = Ret x s.
Proof. intros H. pose proof (has_bounds _ _ _ H) as [H0 _]. apply rd_eq; [done|]. rewrite <- (Z.add_0_r off). by eapply (has_lookup b off (x :: l) 0). Qed.
Lemma load_has n : forall b off v s, has b off (le_bytes n v) -> load_le b off n s = Ret (v mod 256 ^ Z.of_nat n) s.
Proof.
  induction n as [|n IH]; intros b off v s H; cbn [load_le le_bytes] in *; [by rewrite Z.mod_1_r|].
  rewrite (bind_ret_eq _ _ _ _ _ (rd_has _ _ _ _ _ H)). apply (has_app_2 _ _ [v mod 256]) in H. rewrite zlen_cons, zlen_nil in H.
  rewrite (bind_ret_eq _ _ _ _ _ (IH b (off + 1) (v / 256) s H)). unfold ret. f_equal.
  rewrite Nat2Z.inj_succ, Z.pow_succ_r, Z.rem_mul_r by (try lia; apply Z.pow_pos_nonneg; lia). done.
Qed.

(** ** Writing *)
Lemma wr_has b off v s : 0 <= off < zlen b -> exists b', wr b off v s = Ret b' s /\ has b' off [u8 v] /\ frame b b' off (off + 1).
Proof.
  intros H. exists (<[Z.to_nat off := Some (u8 v)]> b). split; [by apply wr_eq|].
  assert (Hz : zlen (<[Z.to_nat off := Some (u8 v)]> b) = zlen b) by (unfold zlen; by rewrite length_insert). split; [|split; [done|split]].
  - apply has_intro; [lia|rewrite zlen_cons, zlen_nil; lia|]. intros k x Hk Hx. pose proof (lookup_lt_Some _ _ _ Hx) as Hlt. cbn in Hlt.
    assert (k = 0) as -> by lia. cbn in Hx. injection Hx as <-. rewrite Z.add_0_r, list_lookup_insert_eq; [done|]. unfold zlen in *. lia.
  - intros j Hj. apply list_lookup_insert_ne. lia.
  - intros j Hj. apply list_lookup_insert_ne. lia.
Qed.
Lemma frame_refl b lo hi : frame b b lo hi.
Proof. done. Qed.
Lemma frame_join b b' b'' lo mid hi : frame b b' lo mid -> frame b' b'' mid hi -> lo <= mid <= hi -> frame b b'' lo hi.
Proof.
  intros (Z1 & K1 & K2) (Z2 & K3 & K4) Hm. split; [congruence|]. split; intros j Hj.
  - rewrite K3, K1 by lia. done.
  - rewrite K4, K2 by lia. done.
Qed.
Lemma frame_trans b b' b'' lo hi : frame b b' lo hi -> frame b' b'' lo hi -> frame b b'' lo hi.
Proof. intros (Z1 & K1 & K2) (Z2 & K3 & K4). rewrite Z1 in *. split; [done|]. split; eapply kept_trans; done. Qed.
Lemma frame_widen b b' lo hi lo' hi' : frame b b' lo hi -> lo' <= lo -> hi <= hi' -> frame b b' lo' hi'.
Proof. intros (Z1 & K1 & K2) H1 H2. split; [done|]. split; [eapply kept_sub; [exact K1|lia|lia]|eapply kept_sub; [exact K2|lia|lia]]. Qed.

Lemma put_bytes_has l : forall b off s, Forall is_u8 l -> 0 <= off -> off + zlen l <= zlen b -> exists b',
  put_bytes b off l s = Ret b' s /\ has b' off l /\ frame b b' off (off + zlen l).
Proof.
  induction l as [|x l IH]; intros b off s Hu H0 Hz; cbn [put_bytes].
  { exists b. split; [done|]. rewrite zlen_nil in *. split; [apply has_nil; lia|apply frame_refl]. }
  apply Forall_cons in Hu as [Hx Hu]. rewrite zlen_cons in *. pose proof (zlen_nonneg l).
  destruct (wr_has b off x s) as (b1 & E1 & H1 & F1); [lia|]. rewrite (bind_ret_eq _ _ _ _ _ E1). rewrite u8_id in H1 by done.
  destruct (IH b1 (off + 1) s Hu) as (b2 & E2 & H2 & F2); [lia|rewrite (proj1 F1); lia|]. exists b2. split; [exact E2|]. split.
  - apply (has_app b2 off [x]). split; [eapply has_frame; [exact H1|exact F2|left; rewrite zlen_cons, zlen_nil; lia]|]. by rewrite zlen_cons, zlen_nil.
  - eapply frame_join; [exact F1| |lia]. replace (off + (1 + zlen l)) with (off + 1 + zlen l) by lia. done.
Qed.
Lemma store_put n : forall b off v s, store_le b off n v s = put_bytes b off (le_bytes n v) s.
Proof.
  induction n as [|n IH]; intros b off v s; cbn [store_le le_bytes put_bytes]; [done|].
  assert (E : wr b off v s = wr b off (v mod 256) s) by (unfold wr; by rewrite (u8_id (v mod 256)) by (apply (u8_range v))).
  unfold bind. rewrite E. destruct (wr b off (v mod 256) s) as [b' s'| |]; [|done..]. apply IH.
Qed.
Lemma le_bytes_u8 n : forall v, Forall is_u8 (le_bytes n v).
Proof. induction n as [|n IH]; intros v; constructor; [apply (u8_range v)|apply IH]. Qed.
Lemma store_has n b off v s : 0 <= off -> off + Z.of_nat n <= zlen b -> exists b',
  store_le b off n v s = Ret b' s /\ has b' off (le_bytes n v) /\ frame b b' off (off + Z.of_nat n).
Proof.
  intros H0 Hz. rewrite store_put, <- (zlen_le_bytes n v). apply put_bytes_has; [apply le_bytes_u8|done|by rewrite zlen_le_bytes].
Qed.

(** ** Moving *)
Lemma memcpy_has b doff src soff l s : has src soff l -> 0 <= doff -> doff + zlen l <= zlen b -> exists b',
  memcpy b doff src soff (zlen l) s = Ret b' s /\ has b' doff l /\ frame b b' doff (doff + zlen l).
Proof.
  intros Hs H0 Hz. pose proof (has_bounds _ _ _ Hs) as [Hs0 Hsz]. pose proof (zlen_nonneg l). unfold memcpy.
  rewrite !(proj2 (Z.leb_le _ _)) by lia. cbn [andb]. eexists. split; [reflexivity|]. unfold zlen in *.
  set (mid := take (Z.to_nat (Z.of_nat (length l))) (drop (Z.to_nat soff) src)).
  assert (Hmid : length mid = length l) by (unfold mid; rewrite length_take, length_drop; lia).
  assert (Hlen : length (take (Z.to_nat doff) b ++ mid ++ drop (Z.to_nat (doff + Z.of_nat (length l))) b) = length b).
  { rewrite !length_app, length_take, length_drop, Hmid. lia. }
  split; [|split; [unfold zlen; lia|split]].
  - apply has_intro; [done|unfold zlen; lia|]. intros k x Hk Hx. pose proof (lookup_lt_Some _ _ _ Hx).
    rewrite lookup_app_r by (rewrite length_take; lia). rewrite length_take, lookup_app_l by lia.
    unfold mid. rewrite lookup_take_lt, lookup_drop by lia. rewrite <- (has_lookup src soff l k x Hs Hx Hk). f_equal. lia.
  - intros j Hj. rewrite lookup_app_l by (rewrite length_take; lia). apply lookup_take_lt. lia.
  - intros j Hj. unfold zlen in Hj. rewrite !lookup_app_r by (rewrite ?length_take, ?Hmid; lia). rewrite length_take, Hmid, lookup_drop. f_equal. lia.
Qed.

(** ** Changing the size *)
Lemma realloc_kept b n : 0 <= n -> zlen (zrealloc b n) = n /\ kept b (zrealloc b n) 0 (Z.min n (zlen b)).
Proof.
  intros Hn. unfold zrealloc. split.
  - unfold zlen. rewrite length_app, length_take, length_replicate. lia.
  - intros j Hj. unfold zlen in Hj. rewrite lookup_app_l by (rewrite length_take; lia). apply lookup_take_lt. lia.
Qed.
End memory.
