(* ===== verification/ZlEntry.v ===== *)
(** Entries of a ziplist: the encodings of strings and integers, and how the code
    reads and writes them. *)
From S2P Require Import Prelude Intset IntsetProofs Util Decimal Ziplist ZlMem.
#[local] Open Scope Z_scope.

(** ** Values *)
Inductive zvalue := ZStr (t : list Z) | ZInt (v : Z).
Implicit Types (u : zvalue) (b : buf) (t : list Z).

(** The encoding byte of an integer and how many bytes follow it. *)
Definition int_encoding (v : Z) : Z :=
  if (0 <=? v) && (v <=? 12) then 241 + v
  else if (-128 <=? v) && (v <=? 127) then ZIP_INT_8B
  else if (-32768 <=? v) && (v <=? 32767) then ZIP_INT_16B
  else if (-8388608 <=? v) && (v <=? 8388607) then ZIP_INT_24B
  else if (-2147483648 <=? v) && (v <=? 2147483647) then ZIP_INT_32B
  else ZIP_INT_64B.
Definition int_size (v : Z) : nat :=
  if (0 <=? v) && (v <=? 12) then 0
  else if (-128 <=? v) && (v <=? 127) then 1
  else if (-32768 <=? v) && (v <=? 32767) then 2
  else if (-8388608 <=? v) && (v <=? 8388607) then 3
  else if (-2147483648 <=? v) && (v <=? 2147483647) then 4
  else 8.

Definition str_header (n : Z) : list Z :=
  if n <=? 63 then [n]
  else if n <=? 16383 then [64 + n / 256; n mod 256]
  else [128; n / 16777216 mod 256; n / 65536 mod 256; n / 256 mod 256; n mod 256].
Definition header_of u : list Z := match u with ZStr t => str_header (zlen t) | ZInt v => [int_encoding v] end.
Definition data_of u : list Z := match u with ZStr t => t | ZInt v => le_bytes (int_size v) v end.
Definition body u : list Z := header_of u ++ data_of u.
(** The encoding the code works with. *)
Definition code u : Z :=
  match u with
  | ZStr t => if zlen t <=? 63 then ZIP_STR_06B else if zlen t <=? 16383 then ZIP_STR_14B else ZIP_STR_32B
  | ZInt v => int_encoding v
  end.
Definition value_ok u : Prop := match u with ZStr t => Forall is_u8 t /\ zlen t < 2 ^ 32 | ZInt v => is_ll v end.

Lemma int_cases v : is_ll v ->
  (0 <= v <= 12 /\ int_encoding v = 241 + v /\ int_size v = 0%nat) \/
  (- 2 ^ 7 <= v < 2 ^ 7 /\ int_encoding v = ZIP_INT_8B /\ int_size v = 1%nat) \/
  (- 2 ^ 15 <= v < 2 ^ 15 /\ int_encoding v = ZIP_INT_16B /\ int_size v = 2%nat) \/
  (- 2 ^ 23 <= v < 2 ^ 23 /\ int_encoding v = ZIP_INT_24B /\ int_size v = 3%nat) \/
  (- 2 ^ 31 <= v < 2 ^ 31 /\ int_encoding v = ZIP_INT_32B /\ int_size v = 4%nat) \/
  (- 2 ^ 63 <= v < 2 ^ 63 /\ int_encoding v = ZIP_INT_64B /\ int_size v = 8%nat).
Proof.
  unfold int_encoding, int_size, is_ll, LLONG_MIN, LLONG_MAX. intros Hv.
  destruct ((0 <=? v) && (v <=? 12)) eqn:E1; [left; lia|right]. destruct ((-128 <=? v) && (v <=? 127)) eqn:E2; [left; lia|right].
  destruct ((-32768 <=? v) && (v <=? 32767)) eqn:E3; [left; lia|right]. destruct ((-8388608 <=? v) && (v <=? 8388607)) eqn:E4; [left; lia|right].
  destruct ((-2147483648 <=? v) && (v <=? 2147483647)) eqn:E5; [left; lia|right]. lia.
Qed.
Lemma int_encoding_range v : is_ll v -> 192 <= int_encoding v <= 254.
Proof. intros Hv. destruct (int_cases v Hv) as [(H & -> & _)|[(H & -> & _)|[(H & -> & _)|[(H & -> & _)|[(H & -> & _)|(H & -> & _)]]]]]; unfold ZIP_INT_8B, ZIP_INT_16B, ZIP_INT_24B, ZIP_INT_32B, ZIP_INT_64B; lia. Qed.

Lemma land_192 c : 0 <= c < 256 -> Z.land c 192 = 64 * (c / 64).
Proof.
  intros Hc. change 192 with (Z.shiftl 3 6).
  assert (E : Z.land c (Z.shiftl 3 6) = Z.shiftl (Z.land (Z.shiftr c 6) 3) 6).
  { apply Z.bits_inj'. intros n Hn. rewrite Z.land_spec. destruct (Z.ltb_spec n 6).
    - rewrite !Z.shiftl_spec_low by lia. apply andb_false_r.
    - rewrite !Z.shiftl_spec by lia. rewrite Z.land_spec, Z.shiftr_spec by lia. f_equal. f_equal. lia. }
  rewrite E, Z.shiftl_mul_pow2, Z.shiftr_div_pow2 by lia. change 3 with (Z.ones 2). rewrite Z.land_ones by lia.
  change (2 ^ 6) with 64. change (2 ^ 2) with 4. rewrite Z.mod_small; [lia|]. split; [apply Z.div_pos; lia|]. apply Z.div_lt_upper_bound; lia.
Qed.
Lemma is_str_code u : value_ok u -> ZIP_IS_STR (code u) = match u with ZStr _ => true | ZInt _ => false end.
Proof.
  intros Hu. unfold ZIP_IS_STR. destruct u as [t|v]; cbn [code].
  - by destruct (zlen t <=? 63), (zlen t <=? 16383).
  - pose proof (int_encoding_range v Hu). rewrite land_192 by lia. apply Z.ltb_ge. unfold ZIP_STR_MASK.
    assert (3 <= int_encoding v / 64) by (apply Z.div_le_lower_bound; lia). lia.
Qed.

Lemma lor_shift x y k : 0 <= k -> 0 <= y < 2 ^ k -> Z.lor (Z.shiftl x k) y = x * 2 ^ k + y.
Proof.
  intros Hk Hy. rewrite <- Z.shiftl_mul_pow2 by done. symmetry. rewrite <- Z.lxor_lor, <- Z.add_nocarry_lxor; [done| |].
  all: apply Z.bits_inj'; intros n Hn; rewrite Z.land_spec, Z.bits_0.
  all: destruct (Z.ltb_spec n k) as [Hlt|Hge]; [rewrite Z.shiftl_spec_low by lia; done|].
  all: rewrite <- (Z.mod_small y (2 ^ k)) by lia; rewrite Z.mod_pow2_bits_high by lia; apply andb_false_r.
Qed.
Lemma land_63 c : Z.land c 63 = c mod 64.
Proof. change 63 with (Z.ones 6). by rewrite Z.land_ones by lia. Qed.

Lemma str_header_u8 n : 0 <= n < 2 ^ 32 -> Forall is_u8 (str_header n).
Proof.
  intros Hn. unfold str_header. destruct (Z.leb_spec n 63); [|destruct (Z.leb_spec n 16383)]; repeat constructor; unfold is_u8; zdiv.
Qed.
Lemma four_bytes n : 0 <= n < 2 ^ 32 ->
  u32 (Z.lor (Z.lor (Z.lor (Z.shiftl (n / 16777216 mod 256) 24) (Z.shiftl (n / 65536 mod 256) 16)) (Z.shiftl (n / 256 mod 256) 8)) (n mod 256)) = n.
Proof.
  intros Hn. rewrite <- !Z.lor_assoc. rewrite (lor_shift _ (n mod 256) 8) by zdiv. rewrite (lor_shift _ _ 16) by zdiv.
  rewrite (lor_shift _ _ 24) by zdiv. rewrite u32_id; [|unfold is_u32; zdiv]. zdiv.
Qed.

(** ** Texts *)

(** A text is stored as an integer if it is the decimal text of one. *)
Definition value_of t : zvalue := match string2ll (Some <$> t) (zlen t) tt with Ret (_, Some v) _ => ZInt v | _ => ZStr t end.

Lemma string2ll_value {S} t rest (s : S) : string2ll ((Some <$> t) ++ rest) (zlen t) s =
  Ret (match value_of t with ZInt v => (1, Some v) | ZStr _ => (0, None) end) s.
Proof.
  assert (H : forall (S : Type) rest (s : S), exists o, string2ll ((Some <$> t) ++ rest) (zlen t) s = Ret (accepted o, o) s /\ forall v, o = Some v <-> decimal t v /\ is_ll v).
  { intros S0 r0 s0. pose proof (string2ll_ok t r0 s0) as Hw. apply wp_inv in Hw as ([r o] & s' & E & -> & H).
    apply parsed_iff in H as [Hr Ho]. cbn [fst snd] in *. subst r. by exists o. }
  destruct (H S rest s) as (o & E & Ho). destruct (H unit [] tt) as (o' & E' & Ho'). rewrite app_nil_r in E'. unfold value_of. rewrite E, E'.
  assert (o = o') as ->.
  { destruct o as [v|], o' as [v'|]; [|exfalso|exfalso|done].
    - by rewrite (proj2 (Ho' v) (proj1 (Ho v) eq_refl)).
    - pose proof (proj2 (Ho' v) (proj1 (Ho v) eq_refl)). done.
    - pose proof (proj2 (Ho v') (proj1 (Ho' v') eq_refl)). done. }
  by destruct o'.
Qed.
Lemma value_of_int t v : value_of t = ZInt v <-> decimal t v /\ is_ll v.
Proof.
  pose proof (string2ll_ok t [] tt) as Hw. apply wp_inv in Hw as ([r o] & s' & E & -> & H). apply parsed_iff in H as [Hr Ho]. cbn [fst snd] in *.
  rewrite app_nil_r in E. unfold value_of. rewrite E, <- Ho. destruct o as [v'|]; split; congruence.
Qed.
Lemma value_of_str t t' : value_of t = ZStr t' -> t = t'.
Proof. unfold value_of. destruct (string2ll _ _ _) as [[r [v|]] s'| |]; congruence. Qed.
Lemma value_of_cases t : (exists v, value_of t = ZInt v /\ is_ll v) \/ value_of t = ZStr t.
Proof.
  destruct (value_of t) as [t'|v] eqn:E; [right; by rewrite (value_of_str _ _ E)|left]. exists v. split; [done|]. by apply value_of_int in E as [_ E].
Qed.
(** Two texts are stored as the same value only if they are the same. *)
Lemma value_of_inj t t' : value_of t = value_of t' -> t = t'.
Proof.
  intros E. destruct (value_of t) as [t1|v] eqn:E1; symmetry in E.
  - apply value_of_str in E1, E. congruence.
  - apply value_of_int in E1 as [D1 _], E as [D2 _]. by eapply decimal_unique.
Qed.
Lemma int_text_short t v : value_of t = ZInt v -> 0 < zlen t <= 20.
Proof.
  intros E. split; [destruct t as [|c t]; [done|rewrite zlen_cons; pose proof (zlen_nonneg t); lia]|].
  apply value_of_int in E as [Hd Hv]. destruct (ll2string_ok (uninit 30) 30 v tt Hv) as (l & Hl & H20 & _); [vm_compute; split; congruence|].
  by rewrite (decimal_unique _ _ _ Hd Hl).
Qed.

(** ** Integers in bytes *)
Lemma le_bytes_mod n : forall v, le_bytes n (v mod 256 ^ Z.of_nat n) = le_bytes n v.
Proof.
  induction n as [|n IH]; intros v; [done|]. cbn [le_bytes]. rewrite Nat2Z.inj_succ, Z.pow_succ_r by lia.
  assert (Hp : 0 < 256 ^ Z.of_nat n) by (apply Z.pow_pos_nonneg; lia). rewrite Z.rem_mul_r by lia.
  replace (v mod 256 + 256 * ((v / 256) mod 256 ^ Z.of_nat n)) with (v mod 256 + (v / 256) mod 256 ^ Z.of_nat n * 256) by lia.
  rewrite Z.mod_add, Z.mod_mod, Z.div_add, (Z.div_small (v mod 256)) by (try lia; apply Z.mod_pos_bound; lia).
  by rewrite Z.add_0_l, IH.
Qed.
Lemma as_signed_mod n v : 1 <= n -> - 2 ^ (8 * n - 1) <= v < 2 ^ (8 * n - 1) -> as_signed n (v mod 2 ^ (8 * n)) = v.
Proof.
  intros Hn Hv. unfold as_signed. assert (E : 2 ^ (8 * n) = 2 * 2 ^ (8 * n - 1)) by (rewrite <- Z.pow_succ_r by lia; f_equal; lia).
  destruct (Z.leb_spec 0 v).
  - rewrite Z.mod_small by lia. by rewrite (proj2 (Z.ltb_lt _ _)) by lia.
  - assert (Em : v mod 2 ^ (8 * n) = v + 2 ^ (8 * n)) by (rewrite <- (Z.mod_add v 1) by lia; rewrite Z.mod_small; lia).
    rewrite Em, (proj2 (Z.ltb_ge _ _)) by lia. lia.
Qed.

(** ** Decoding and encoding *)
Section entries.
Context {S : Type}.
Implicit Types (s : S).

Lemma zipIntSize_eq v s : is_ll v -> zipIntSize (int_encoding v) s = Ret (Z.of_nat (int_size v)) s.
Proof.
  intros Hv. unfold zipIntSize. destruct (int_cases v Hv) as [(H & -> & ->)|[(H & -> & ->)|[(H & -> & ->)|[(H & -> & ->)|[(H & -> & ->)|(H & -> & ->)]]]]]; try done.
  unfold ZIP_INT_8B, ZIP_INT_16B, ZIP_INT_24B, ZIP_INT_32B, ZIP_INT_64B, ZIP_INT_IMM_MIN, ZIP_INT_IMM_MAX.
  rewrite !(proj2 (Z.eqb_neq _ _)) by lia. rewrite !(proj2 (Z.leb_le _ _)) by lia. done.
Qed.

Lemma decode_length_ok u b p s : value_ok u -> has b p (header_of u) ->
  ZIP_DECODE_LENGTH b p s = Ret (code u, zlen (header_of u), zlen (data_of u)) s.
Proof.
  unfold ZIP_DECODE_LENGTH. intros Hu Hh. destruct u as [t|v]; cbn [header_of code data_of value_ok] in *.
  2: { rewrite (bind_ret_eq _ _ _ _ _ (rd_has _ _ _ _ _ Hh)). pose proof (int_encoding_range v Hu). unfold ZIP_STR_MASK.
       rewrite (proj2 (Z.ltb_ge (int_encoding v) 192)) by lia. cbn beta iota. rewrite (proj2 (Z.ltb_ge (int_encoding v) 192)) by lia.
       by rewrite (bind_ret_eq _ _ _ _ _ (zipIntSize_eq v s Hu)), zlen_le_bytes. }
  destruct Hu as [_ Hn]. set (n := zlen t) in *. pose proof (zlen_nonneg t) as Hn0. fold n in Hn0. unfold str_header in *. destruct (Z.leb_spec n 63).
  - rewrite (bind_ret_eq _ _ _ _ _ (rd_has _ _ _ _ _ Hh)). unfold ZIP_STR_MASK, ZIP_STR_06B. rewrite (proj2 (Z.ltb_lt n 192)) by lia.
    rewrite land_192, Z.div_small, land_63, Z.mod_small by lia. done.
  - destruct (Z.leb_spec n 16383).
    + rewrite (bind_ret_eq _ _ _ _ _ (rd_has _ _ _ _ _ Hh)). assert (Hq : 0 <= n / 256 < 64) by zdiv. unfold ZIP_STR_MASK, ZIP_STR_06B, ZIP_STR_14B.
      rewrite (proj2 (Z.ltb_lt (64 + n / 256) 192)) by lia. rewrite land_192 by lia. replace ((64 + n / 256) / 64) with 1 by zdiv.
      change (64 * 1) with 64. cbn [Z.eqb Pos.eqb Z.ltb Z.compare Pos.compare Pos.compare_cont].
      apply (has_app_2 _ _ [64 + n / 256]) in Hh. change (zlen [64 + n / 256]) with 1 in Hh.
      rewrite (bind_ret_eq _ _ _ _ _ (rd_has _ _ _ _ _ Hh)), land_63, lor_shift by zdiv. unfold ret. do 2 f_equal. zdiv.
    + assert (H1 := Hh). rewrite (bind_ret_eq _ _ _ _ _ (rd_has _ _ _ _ _ Hh)). change (Z.land 128 ZIP_STR_MASK) with 128.
      cbn [Z.eqb Pos.eqb Z.ltb Z.compare Pos.compare Pos.compare_cont ZIP_STR_MASK ZIP_STR_06B ZIP_STR_14B ZIP_STR_32B].
      do 4 (apply (has_app_2 _ _ [_]) in Hh; rewrite zlen_cons, zlen_nil, Z.add_0_r in Hh;
        eapply has_at in Hh; [|rewrite <- ?Z.add_assoc; cbn; reflexivity]; rewrite (bind_ret_eq _ _ _ _ _ (rd_has _ _ _ _ _ Hh))).
      rewrite four_bytes by lia. done.
Qed.

(** What the code passes for the encoding of a new entry. *)
Definition new_code u : Z := match u with ZStr _ => 0 | ZInt v => int_encoding v end.
Definition text_len u (slen : Z) : Prop := match u with ZStr t => slen = zlen t | ZInt _ => True end.

Lemma is_str_new u : value_ok u -> ZIP_IS_STR (new_code u) = match u with ZStr _ => true | ZInt _ => false end.
Proof. destruct u as [t|v]; intros Hu; [done|]. apply (is_str_code (ZInt v) Hu). Qed.
Lemma header_bytes u slen : value_ok u -> text_len u slen ->
  (if ZIP_IS_STR (new_code u) then
    if slen <=? 63 then [Z.lor ZIP_STR_06B slen]
    else if slen <=? 16383 then [Z.lor ZIP_STR_14B (Z.land (Z.shiftr slen 8) 63); Z.land slen 255]
    else [ZIP_STR_32B; Z.land (Z.shiftr slen 24) 255; Z.land (Z.shiftr slen 16) 255; Z.land (Z.shiftr slen 8) 255; Z.land slen 255]
  else [new_code u]) = header_of u.
Proof.
  intros Hu Hl. rewrite is_str_new by done. destruct u as [t|v]; [|done]. cbn in *. subst slen. set (n := zlen t) in *.
  pose proof (zlen_nonneg t) as Hn. fold n in Hn. unfold str_header, ZIP_STR_06B, ZIP_STR_14B, ZIP_STR_32B. destruct (n <=? 63) eqn:E1; [done|].
  destruct (n <=? 16383) eqn:E2; rewrite !land_255; [|by rewrite !Z.shiftr_div_pow2 by lia].
  rewrite land_63, Z.shiftr_div_pow2 by lia. change (2 ^ 8) with 256. f_equal. change 64 with (Z.shiftl 1 6) at 1. rewrite lor_shift by zdiv.
  f_equal. zdiv.
Qed.
Lemma header_u8 u : value_ok u -> Forall is_u8 (header_of u).
Proof.
  destruct u as [t|v]; cbn; intros Hu; [apply str_header_u8; pose proof (zlen_nonneg t); lia|].
  pose proof (int_encoding_range v Hu). repeat constructor; unfold is_u8; lia.
Qed.
Lemma encoding_size u b slen s : value_ok u -> text_len u slen -> zipStoreEntryEncoding b None (new_code u) slen s = Ret (b, zlen (header_of u)) s.
Proof. intros Hu Hl. unfold zipStoreEntryEncoding. by rewrite header_bytes. Qed.
Lemma store_encoding_ok u b p slen s : value_ok u -> text_len u slen -> 0 <= p -> p + zlen (header_of u) <= zlen b -> exists b',
  zipStoreEntryEncoding b (Some p) (new_code u) slen s = Ret (b', zlen (header_of u)) s /\ has b' p (header_of u) /\ frame b b' p (p + zlen (header_of u)).
Proof.
  intros Hu Hl Hp Hz. unfold zipStoreEntryEncoding. rewrite header_bytes by done.
  destruct (put_bytes_has (header_of u) b p s (header_u8 u Hu) Hp Hz) as (b' & E & H). exists b'. by rewrite (bind_ret_eq _ _ _ _ _ E).
Qed.

(** ** Integers *)
Lemma save_integer_ok v b p s : is_ll v -> 0 <= p -> p + Z.of_nat (int_size v) <= zlen b -> exists b',
  zipSaveInteger b p v (int_encoding v) s = Ret b' s /\ has b' p (data_of (ZInt v)) /\ frame b b' p (p + Z.of_nat (int_size v)).
Proof.
  intros Hv Hp. unfold zipSaveInteger, data_of.
  destruct (int_cases v Hv) as [(H & -> & ->)|[(H & -> & ->)|[(H & -> & ->)|[(H & -> & ->)|[(H & -> & ->)|(H & -> & ->)]]]]]; intros Hz.
  - unfold ZIP_INT_8B, ZIP_INT_16B, ZIP_INT_24B, ZIP_INT_32B, ZIP_INT_64B, ZIP_INT_IMM_MIN, ZIP_INT_IMM_MAX.
    rewrite !(proj2 (Z.eqb_neq _ _)) by lia. rewrite !(proj2 (Z.leb_le _ _)) by lia. exists b. split; [done|].
    split; [apply has_nil; lia|apply frame_refl].
  - destruct (wr_has b p v s) as (b' & E & H1 & H2); [lia|]. exists b'. done.
  - destruct (store_has 2 b p v s Hp Hz) as (b' & E & H1). by exists b'.
  - destruct (store_has 3 b p (Z.shiftr (u32 (Z.shiftl v 8)) 8) s Hp Hz) as (b' & E & H1 & H2). exists b'. split; [exact E|]. split; [|done].
    rewrite <- (le_bytes_mod 3 v). replace (v mod 256 ^ Z.of_nat 3) with (Z.shiftr (u32 (Z.shiftl v 8)) 8); [done|].
    rewrite Z.shiftl_mul_pow2, Z.shiftr_div_pow2 by lia. unfold u32. change (256 ^ Z.of_nat 3) with 16777216. change (2 ^ 8) with 256. zdiv.
  - destruct (store_has 4 b p v s Hp Hz) as (b' & E & H1). by exists b'.
  - destruct (store_has 8 b p v s Hp Hz) as (b' & E & H1). by exists b'.
Qed.
Lemma load_signed n b p v s : (1 <= n)%nat -> - 2 ^ (8 * Z.of_nat n - 1) <= v < 2 ^ (8 * Z.of_nat n - 1) -> has b p (le_bytes n v) ->
  (let* x := load_le b p n in ret (as_signed (Z.of_nat n) x)) s = Ret v s.
Proof.
  intros Hn Hv Hh. rewrite (bind_ret_eq _ _ _ _ _ (load_has n b p v s Hh)). change 256 with (2 ^ 8). rewrite <- Z.pow_mul_r by lia.
  unfold ret. by rewrite as_signed_mod by lia.
Qed.
Lemma load_integer_ok v b p s : is_ll v -> has b p (data_of (ZInt v)) -> zipLoadInteger b p (int_encoding v) s = Ret v s.
Proof.
  intros Hv. unfold zipLoadInteger, data_of.
  destruct (int_cases v Hv) as [(H & -> & ->)|[(H & -> & ->)|[(H & -> & ->)|[(H & -> & ->)|[(H & -> & ->)|(H & -> & ->)]]]]]; intros Hh.
  - unfold ZIP_INT_8B, ZIP_INT_16B, ZIP_INT_24B, ZIP_INT_32B, ZIP_INT_64B, ZIP_INT_IMM_MIN, ZIP_INT_IMM_MAX, ZIP_INT_IMM_MASK.
    rewrite !(proj2 (Z.eqb_neq _ _)) by lia. rewrite !(proj2 (Z.leb_le _ _)) by lia. cbn [andb]. unfold ret. f_equal.
    change 15 with (Z.ones 4). rewrite Z.land_ones by lia. change (2 ^ 4) with 16. zdiv.
  - cbn [Z.eqb Pos.eqb ZIP_INT_8B]. rewrite (bind_ret_eq _ _ _ _ _ (rd_has _ _ _ _ _ Hh)). unfold ret. f_equal. by apply (as_signed_mod 1 v).
  - exact (load_signed 2 b p v s ltac:(lia) H Hh).
  - change (bind (load_le b p 3) (fun v => ret (Z.shiftr (as_signed 4 (256 * v)) 8)) s = Ret v s).
    rewrite (bind_ret_eq _ _ _ _ _ (load_has 3 b p v s Hh)). unfold ret. f_equal. change (256 ^ Z.of_nat 3) with 16777216.
    replace (256 * (v mod 16777216)) with ((256 * v) mod 2 ^ (8 * 4)) by (change (2 ^ (8 * 4)) with (256 * 16777216); rewrite Z.mul_mod_distr_l by lia; done).
    rewrite as_signed_mod by lia. rewrite Z.shiftr_div_pow2 by lia. change (2 ^ 8) with 256. zdiv.
  - exact (load_signed 4 b p v s ltac:(lia) H Hh).
  - exact (load_signed 8 b p v s ltac:(lia) H Hh).
Qed.

(** ** The encoding of a text *)
Lemma try_encoding_ok t rest s : zipTryEncoding ((Some <$> t) ++ rest) (zlen t) s =
  Ret (match value_of t with ZInt v => Some (v, int_encoding v) | ZStr _ => None end) s.
Proof.
  unfold zipTryEncoding. destruct (value_of_cases t) as [(v & Ev & Hv)|Es].
  - pose proof (int_text_short t v Ev) as Hl. rewrite (proj2 (Z.leb_gt _ _)), (proj2 (Z.eqb_neq _ _)) by lia. cbn [orb].
    rewrite (bind_ret_eq _ _ _ _ _ (string2ll_value t rest s)), Ev. unfold ret. cbn [Z.eqb]. do 3 f_equal. unfold int_encoding, ZIP_INT_IMM_MIN.
    destruct ((0 <=? v) && (v <=? 12)) eqn:E; [apply u8_id; unfold is_u8; lia|done].
  - destruct ((32 <=? zlen t) || (zlen t =? 0)); [by rewrite Es|]. by rewrite (bind_ret_eq _ _ _ _ _ (string2ll_value t rest s)), Es.
Qed.
End entries.
