(* ===== verification/ZlList.v ===== *)
(** The entries of a ziplist in its block: how the code reads an entry and walks from
    one to the next, and the update that runs through the list when the length of an
    entry changes. *)
From S2P Require Import Prelude Intset IntsetProofs Util Ziplist ZlMem ZlEntry.
#[local] Open Scope Z_scope.

(** ** Entries *)

(** An entry as it is stored: the length of the one before it, whether that takes five bytes, and
    the value. *)
Record ent := { eprev : Z; elarge : bool; eval : zvalue }.
Implicit Types (e : ent) (es : list ent) (b : buf) (u : zvalue).

Definition prev_bytes (large : bool) (n : Z) : list Z := if large then 254 :: le_bytes 4 n else [n].
Definition psize (large : bool) : Z := if large then 5 else 1.
Definition raw e : list Z := prev_bytes (elarge e) (eprev e) ++ body (eval e).
Definition rlen e : Z := zlen (raw e).
Definition bytes_of es : list Z := concat (raw <$> es).
Definition ent_ok e : Prop := 0 <= eprev e < 2 ^ 32 /\ (elarge e = false -> eprev e < 254) /\ value_ok (eval e) /\ rlen e < 2 ^ 32.

Lemma zlen_prev_bytes large n : zlen (prev_bytes large n) = psize large.
Proof. destruct large; [|done]. unfold prev_bytes. rewrite zlen_cons, zlen_le_bytes. done. Qed.
Lemma zlen_header u : 1 <= zlen (header_of u) <= 5.
Proof. destruct u as [t|v]; cbn; [unfold str_header; destruct (zlen t <=? 63), (zlen t <=? 16383)|]; unfold zlen; cbn; lia. Qed.
Lemma rlen_eq e : rlen e = psize (elarge e) + zlen (header_of (eval e)) + zlen (data_of (eval e)).
Proof. unfold rlen, raw, body. rewrite !zlen_app, zlen_prev_bytes. lia. Qed.
Lemma rlen_ge e : 2 <= rlen e.
Proof. rewrite rlen_eq. pose proof (zlen_header (eval e)). pose proof (zlen_nonneg (data_of (eval e))). destruct (elarge e); cbn; lia. Qed.
Lemma bytes_cons e es : bytes_of (e :: es) = raw e ++ bytes_of es.
Proof. done. Qed.
Lemma bytes_app es es' : bytes_of (es ++ es') = bytes_of es ++ bytes_of es'.
Proof. unfold bytes_of. by rewrite fmap_app, concat_app. Qed.
Lemma zlen_bytes_cons e es : zlen (bytes_of (e :: es)) = rlen e + zlen (bytes_of es).
Proof. by rewrite bytes_cons, zlen_app. Qed.
Lemma zlen_bytes_ge es : 2 * zlen es <= zlen (bytes_of es).
Proof. induction es as [|e es IH]; [done|]. rewrite zlen_bytes_cons, zlen_cons. pose proof (rlen_ge e). lia. Qed.

(** The offset of the last entry, for entries that start at [p]. *)
Fixpoint tail_at (p : Z) es : Z := match es with [] => p | e :: es => match es with [] => p | _ => tail_at (p + rlen e) es end end.
Lemma tail_cons p e es : es <> [] -> tail_at p (e :: es) = tail_at (p + rlen e) es.
Proof. by destruct es. Qed.
Lemma tail_app p es es' : es' <> [] -> tail_at p (es ++ es') = tail_at (p + zlen (bytes_of es)) es'.
Proof.
  intros Hne. revert p. induction es as [|e es IH]; intros p; [f_equal; unfold bytes_of; cbn; rewrite zlen_nil; lia|].
  cbn [app]. rewrite tail_cons by (by destruct es, es'). rewrite IH, zlen_bytes_cons. f_equal. lia.
Qed.
Lemma tail_bounds p es : p <= tail_at p es <= p + zlen (bytes_of es).
Proof.
  revert p. induction es as [|e es IH]; intros p; [cbn; unfold bytes_of; cbn; rewrite zlen_nil; lia|].
  rewrite zlen_bytes_cons. pose proof (rlen_ge e). pose proof (zlen_nonneg (bytes_of es)). destruct es as [|e' es]; [cbn [tail_at]; lia|].
  rewrite tail_cons by done. specialize (IH (p + rlen e)). lia.
Qed.

Section lists.
Context {S : Type}.
Implicit Types (s : S).

(** ** Reading an entry *)
Lemma has_raw b p e : has b p (raw e) -> has b p (prev_bytes (elarge e) (eprev e)) /\
  has b (p + psize (elarge e)) (header_of (eval e)) /\ has b (p + psize (elarge e) + zlen (header_of (eval e))) (data_of (eval e)).
Proof.
  unfold raw, body. intros [H1 H2]%has_app. split; [done|]. rewrite zlen_prev_bytes in H2. by apply has_app in H2.
Qed.
(** The first byte tells how the length in front is stored, and is never that of the end. *)
Lemma rd_prev b p large n s : has b p (prev_bytes large n) -> (large = false -> 0 <= n < 254) -> exists c, rd b p s = Ret c s /\
  (c =? ZIP_END) = false /\ (c <? ZIP_BIG_PREVLEN) = negb large.
Proof.
  intros H Hn. destruct large; eexists; (split; [exact (rd_has _ _ _ _ _ H)|]); [done|]. specialize (Hn eq_refl). unfold ZIP_END, ZIP_BIG_PREVLEN. cbn. lia.
Qed.
Lemma rd_entry b p e s : ent_ok e -> has b p (raw e) -> exists c, rd b p s = Ret c s /\ (c =? ZIP_END) = false /\ (c <? ZIP_BIG_PREVLEN) = negb (elarge e).
Proof. intros (H1 & H2 & _) [H _]%has_raw. apply (rd_prev b p (elarge e) (eprev e)); [done|]. intros Hl. specialize (H2 Hl). lia. Qed.
Lemma rd_end b p s : has b p [255] -> rd b p s = Ret ZIP_END s.
Proof. apply rd_has. Qed.

Lemma prevlensize_ok b p e s : ent_ok e -> has b p (raw e) -> ZIP_DECODE_PREVLENSIZE b p s = Ret (psize (elarge e)) s.
Proof.
  intros He H. destruct (rd_entry b p e s He H) as (c & E & _ & Ec). unfold ZIP_DECODE_PREVLENSIZE. rewrite (bind_ret_eq _ _ _ _ _ E), Ec. by destruct (elarge e).
Qed.
Lemma prevlen_ok b p e s : ent_ok e -> has b p (raw e) -> ZIP_DECODE_PREVLEN b p s = Ret (psize (elarge e), eprev e) s.
Proof.
  intros He H. unfold ZIP_DECODE_PREVLEN. rewrite (bind_ret_eq _ _ _ _ _ (prevlensize_ok b p e s He H)). destruct He as (H1 & H2 & _).
  destruct (has_raw _ _ _ H) as [Hp _]. destruct (elarge e); cbn [psize Z.eqb Pos.eqb prev_bytes] in *.
  - apply (has_app_2 _ _ [254]) in Hp. rewrite zlen_cons, zlen_nil, Z.add_0_r in Hp.
    rewrite (bind_ret_eq _ _ _ _ _ (load_has 4 _ _ _ _ Hp)). by rewrite Z.mod_small.
  - by rewrite (bind_ret_eq _ _ _ _ _ (rd_has _ _ _ _ _ Hp)).
Qed.
Lemma raw_length_ok b p e s : ent_ok e -> has b p (raw e) -> zipRawEntryLength b p s = Ret (rlen e) s.
Proof.
  intros He H. unfold zipRawEntryLength. rewrite (bind_ret_eq _ _ _ _ _ (prevlensize_ok b p e s He H)). destruct He as (_ & _ & Hv & Hr).
  destruct (has_raw _ _ _ H) as (_ & Hh & _). rewrite (bind_ret_eq _ _ _ _ _ (decode_length_ok _ b _ s Hv Hh)).
  unfold ret. rewrite <- rlen_eq, u32_id; [done|]. pose proof (rlen_ge e). unfold is_u32. lia.
Qed.
Definition entry_of p e : zlentry :=
  {| prevrawlensize := psize (elarge e); prevrawlen := eprev e; lensize := zlen (header_of (eval e)); len := zlen (data_of (eval e));
     headersize := psize (elarge e) + zlen (header_of (eval e)); zencoding := code (eval e); zp := p |}.
Lemma entry_ok b p e s : ent_ok e -> has b p (raw e) -> zipEntry b p s = Ret (entry_of p e) s.
Proof.
  intros He H. unfold zipEntry. rewrite (bind_ret_eq _ _ _ _ _ (prevlen_ok b p e s He H)). destruct He as (_ & _ & Hv & Hr).
  destruct (has_raw _ _ _ H) as (_ & Hh & _). rewrite (bind_ret_eq _ _ _ _ _ (decode_length_ok _ b _ s Hv Hh)).
  unfold ret, entry_of. do 2 f_equal. apply u32_id. pose proof (zlen_header (eval e)). unfold is_u32. destruct (elarge e); cbn; lia.
Qed.
Lemma entry_rlen p e : headersize (entry_of p e) + len (entry_of p e) = rlen e.
Proof. cbn. by rewrite rlen_eq. Qed.

(** ** Storing the length in front *)
Lemma store_large_ok b p n s : 0 <= p -> p + 5 <= zlen b -> exists b', zipStorePrevEntryLengthLarge b (Some p) n s = Ret (b', 5) s /\
  has b' p (prev_bytes true n) /\ frame b b' p (p + 5).
Proof.
  intros Hp Hz. unfold zipStorePrevEntryLengthLarge. destruct (wr_has b p ZIP_BIG_PREVLEN s) as (b1 & E1 & H1 & F1); [lia|].
  rewrite (bind_ret_eq _ _ _ _ _ E1). destruct (store_has 4 b1 (p + 1) n s) as (b2 & E2 & H2 & F2); [lia|rewrite (proj1 F1); lia|].
  rewrite (bind_ret_eq _ _ _ _ _ E2). exists b2. split; [done|]. split.
  - apply (has_app b2 p [254]). split; [|exact H2]. eapply has_frame; [exact H1|exact F2|]. left. unfold zlen. cbn. lia.
  - eapply frame_join; [exact F1| |lia]. by replace (p + 5) with (p + 1 + Z.of_nat 4) by lia.
Qed.
Lemma prevlen_size b n s : zipStorePrevEntryLength b None n s = Ret (b, psize (negb (n <? 254))) s.
Proof. unfold zipStorePrevEntryLength, ZIP_BIG_PREVLEN. by destruct (n <? 254). Qed.
Lemma store_prevlen_ok b p n s : 0 <= p -> p + psize (negb (n <? 254)) <= zlen b -> 0 <= n -> exists b',
  zipStorePrevEntryLength b (Some p) n s = Ret (b', psize (negb (n <? 254))) s /\
  has b' p (prev_bytes (negb (n <? 254)) n) /\ frame b b' p (p + psize (negb (n <? 254))).
Proof.
  intros Hp Hz Hn. unfold zipStorePrevEntryLength, ZIP_BIG_PREVLEN. destruct (n <? 254) eqn:E; cbn [negb psize] in *; [|by apply store_large_ok].
  destruct (wr_has b p n s) as (b1 & E1 & H1 & F1); [lia|]. rewrite (bind_ret_eq _ _ _ _ _ E1). rewrite u8_id in H1 by (unfold is_u8; lia).
  by exists b1.
Qed.
End lists.
