(* ===== verification/ZlCascade.v ===== *)
(** The update that runs through a ziplist when the length of an entry has changed. *)
From S2P Require Import Prelude Intset IntsetProofs Util Ziplist ZlMem ZlEntry ZlList.
#[local] Open Scope Z_scope.
Implicit Types (e cur next : ent) (es rest : list ent) (b : buf) (u : zvalue).

Definition with_prev e (large : bool) (n : Z) : ent := {| eprev := n; elarge := large; eval := eval e |}.
(** What becomes of the entries behind one of length [prev]: a length that needs five bytes now makes its
    entry grow, and the update goes on; otherwise it ends. *)
Fixpoint mend (prev : Z) es : list ent :=
  match es with
  | [] => []
  | next :: rest =>
      if eprev next =? prev then next :: rest
      else if negb (elarge next) && negb (prev <? 254) then with_prev next true prev :: mend (rlen (with_prev next true prev)) rest
      else with_prev next (elarge next) prev :: rest
  end.

(** Every entry knows the length of the one before it. *)
Fixpoint chained (prev : Z) es : Prop := match es with [] => True | e :: es => eprev e = prev /\ chained (rlen e) es end.

(** The entries from [p] on are the end of the list. *)
Record ending b (p : Z) es : Prop := {
  en_start : 10 <= p;
  en_bytes : has b 0 (le_bytes 4 (zlen b));
  en_tail : has b 4 (le_bytes 4 (tail_at p es));
  en_list : has b p (bytes_of es ++ [255]);
  en_size : zlen b = p + zlen (bytes_of es) + 1;
  en_small : zlen b < 2 ^ 32;
  en_ok : Forall ent_ok es
}.

Lemma rlen_large e n : elarge e = false -> rlen (with_prev e true n) = rlen e + 4.
Proof. intros H. rewrite !rlen_eq, H. cbn. lia. Qed.
Lemma rlen_same e n : rlen (with_prev e (elarge e) n) = rlen e.
Proof. by rewrite !rlen_eq. Qed.
Lemma tail_shift es : forall p d, es <> [] -> tail_at (p + d) es = tail_at p es + d.
Proof.
  induction es as [|e es IH]; intros p d Hne; [done|]. destruct es as [|e' es]; [done|]. rewrite !(tail_cons _ e) by done.
  rewrite <- IH by done. f_equal. lia.
Qed.
Lemma ending_more b p e es : ending b p (e :: es) -> ending b (p + rlen e) es \/ es = [].
Proof.
  intros [H1 H2 H3 H4 H5 H6 H7]. destruct es as [|e' es]; [by right|]. left. rewrite tail_cons in H3 by done. rewrite zlen_bytes_cons in H5.
  apply Forall_cons in H7 as [_ H7]. rewrite bytes_cons, <- app_assoc in H4. apply has_app in H4 as [_ H4].
  pose proof (rlen_ge e). split; try done; lia.
Qed.

Section cascade.
Context {S : Type}.
Implicit Types (s : S).

Lemma load4 b off v s : has b off (le_bytes 4 v) -> 0 <= v < 2 ^ 32 -> load_le b off 4 s = Ret v s.
Proof. intros H Hv. rewrite (load_has 4 _ _ _ _ H). by rewrite Z.mod_small. Qed.

Lemma zl_resize_ok b n s : 11 <= n < 2 ^ 32 -> exists b', ziplistResize b n s = Ret b' s /\ zlen b' = n /\ has b' 0 (le_bytes 4 n) /\
  has b' (n - 1) [255] /\ kept b b' 4 (Z.min (n - 1) (zlen b)).
Proof.
  intros Hn. destruct (realloc_kept b n ltac:(lia)) as [Hz Hk]. unfold ziplistResize, set_bytes.
  destruct (store_has 4 (zrealloc b n) 0 n s) as (b1 & E1 & H1 & F1); [lia|lia|]. rewrite (bind_ret_eq _ _ _ _ _ E1), u32_id by (unfold is_u32; lia).
  destruct (wr_has b1 (n - 1) ZIP_END s) as (b2 & E2 & H2 & F2); [rewrite (proj1 F1); lia|]. exists b2. split; [exact E2|].
  pose proof (proj1 F1) as Z1. pose proof (proj1 F2) as Z2. split; [congruence|]. split; [|split; [done|]].
  - eapply has_frame; [exact H1|exact F2|]. left. rewrite zlen_le_bytes. lia.
  - eapply kept_trans; [eapply kept_sub; [exact Hk|lia|lia]|]. eapply kept_trans; eapply kept_frame; try done; try lia.
Qed.

Lemma ok_large e n : ent_ok e -> 0 <= n < 2 ^ 32 -> rlen e + 4 < 2 ^ 32 -> ent_ok (with_prev e true n).
Proof.
  intros (H1 & H2 & H3 & H4) Hn Hr. split; [done|]. split; [done|]. split; [done|]. rewrite rlen_eq in *. cbn in *. destruct (elarge e); cbn in *; lia.
Qed.

(** The tail is moved unless the entry that grows is the last one. *)
Lemma zl_move_tail_ok b p cur next rest s : has b 4 (le_bytes 4 (tail_at p (cur :: next :: rest))) -> elarge next = false -> 10 <= p ->
  tail_at p (cur :: next :: rest) + 4 < 2 ^ 32 -> exists b',
  (let* t := ZIPLIST_TAIL_OFFSET b in if negb (t =? p + rlen cur) then set_tail_offset b (u32 (t + 4)) else ret b) s = Ret b' s /\
  has b' 4 (le_bytes 4 (tail_at p (cur :: with_prev next true (rlen cur) :: rest))) /\ frame b b' 4 8.
Proof.
  intros H Hl Hp Ht. pose proof (tail_bounds p (cur :: next :: rest)) as Hb. unfold ZIPLIST_TAIL_OFFSET.
  rewrite (bind_ret_eq _ _ _ _ _ (load4 _ _ _ _ H ltac:(lia))). rewrite !(tail_cons p cur) in * by done. destruct rest as [|e rest].
  - cbn [tail_at]. rewrite Z.eqb_refl. by exists b.
  - rewrite !(tail_cons (p + rlen cur)) in * by done. pose proof (tail_bounds (p + rlen cur + rlen next) (e :: rest)). pose proof (rlen_ge next).
    rewrite (proj2 (Z.eqb_neq _ _)) by lia. cbn [negb]. rewrite u32_id by (unfold is_u32; lia).
    rewrite rlen_large, Z.add_assoc by done. rewrite (tail_shift (e :: rest) (p + rlen cur + rlen next) 4) by done. pose proof (has_bounds _ _ _ H) as [_ Hz]. rewrite zlen_le_bytes in Hz.
    destruct (store_has 4 b 4 (tail_at (p + rlen cur + rlen next) (e :: rest) + 4) s) as (b' & E & H' & F); [lia|lia|]. exists b'. split; [exact E|]. split; [exact H'|exact F].
Qed.

Lemma grow_ok b p cur next rest s : ending b p (cur :: next :: rest) -> elarge next = false -> 254 <= rlen cur -> zlen b + 4 < 2 ^ 32 ->
  exists b', grow_next b p (zlen b) (rlen cur) 5 (entry_of (p + rlen cur) next) s = Ret (b', zlen b + 4) s /\
  ending b' p (cur :: with_prev next true (rlen cur) :: rest) /\ kept b b' 8 (p + rlen cur) /\ zlen b' = zlen b + 4.
Proof.
  intros [H1 H2 H3 H4 H5 H6 H7] Hl Hc Hz. pose proof (rlen_ge cur) as Rc. pose proof (rlen_ge next) as Rn.
  pose proof (zlen_nonneg (bytes_of rest)) as Rr. rewrite !zlen_bytes_cons in H5. set (np := p + rlen cur) in *. unfold grow_next.
  cbn [prevrawlensize entry_of]. rewrite Hl. cbn [psize]. change (5 - 1) with 4. rewrite u32_id by (unfold is_u32; lia).
  destruct (zl_resize_ok b (zlen b + 4) s) as (b1 & E1 & Z1 & B1 & L1 & K1); [lia|]. rewrite (bind_ret_eq _ _ _ _ _ E1).
  rewrite Z.min_r in K1 by lia.
  assert (T1 : has b1 4 (le_bytes 4 (tail_at p (cur :: next :: rest)))).
  { eapply has_kept; [exact H3|exact K1|lia| |]; rewrite zlen_le_bytes; lia. }
  pose proof (tail_bounds p (cur :: next :: rest)) as Tb. rewrite !zlen_bytes_cons in Tb.
  destruct (zl_move_tail_ok b1 p cur next rest s T1 Hl ltac:(lia) ltac:(lia)) as (b2 & E2 & T2 & F2).
  rewrite (bind_ret_eq _ _ _ _ _ E2). cbn [len lensize prevrawlen headersize]. pose proof (proj1 F2) as Z2.
  pose proof (kept_trans _ _ _ 8 (zlen b) (kept_sub _ _ _ _ 8 (zlen b) K1 ltac:(lia) ltac:(lia)) (kept_frame _ _ _ _ 8 (zlen b) F2 ltac:(lia) ltac:(lia) ltac:(lia))) as K2.
  set (l := body (eval next) ++ bytes_of rest).
  assert (Hl4 : has b (np + 1) l /\ zlen l = zlen b - np - 2).
  { rewrite bytes_cons, <- app_assoc in H4. apply has_app_2 in H4. rewrite bytes_cons, <- app_assoc in H4. unfold raw in H4. rewrite Hl, <- !app_assoc in H4.
    apply has_app_2 in H4. fold (rlen cur) in H4. fold np in H4. rewrite app_assoc in H4. fold l in H4. apply has_app_1 in H4. split; [exact H4|].
    assert (Zn : rlen next = 1 + zlen (body (eval next))) by (unfold rlen, raw; by rewrite Hl, zlen_app). unfold l. rewrite zlen_app. unfold np. lia. }
  destruct Hl4 as [Hl4 Zl]. pose proof (zlen_nonneg l).
  assert (Hl2 : has b2 (np + 1) l) by (eapply has_kept; [exact Hl4|exact K2|lia|lia|lia]).
  destruct (memcpy_has b2 (np + 5) b2 (np + 1) l s Hl2) as (b3 & E3 & H3' & F3); [lia|lia|]. unfold memmove. fold np.
  replace (zlen b - np - 1 - 1) with (zlen l) by lia. rewrite (bind_ret_eq _ _ _ _ _ E3). pose proof (proj1 F3) as Z3.
  rewrite u32_id by (unfold is_u32; lia). assert (Ec : negb (rlen cur <? 254) = true) by lia.
  destruct (store_prevlen_ok b3 np (rlen cur) s) as (b4 & E4 & H4' & F4); [lia|rewrite Ec; cbn; lia|lia|]. rewrite Ec in E4, H4', F4. cbn [psize] in *.
  rewrite (bind_ret_eq _ _ _ _ _ E4). pose proof (proj1 F4) as Z4. exists b4. split; [done|]. split; [|split; [|lia]].
  - assert (Hout : forall off x, has b2 off x -> off + zlen x <= np \/ zlen b + 3 <= off -> has b4 off x).
    { intros off x Hx Ho. eapply has_frame; [eapply has_frame; [exact Hx|exact F3|lia]|exact F4|lia]. }
    split; try done; try lia.
    + apply Hout; [|rewrite zlen_le_bytes; lia]. eapply has_frame; [|exact F2|left; rewrite zlen_le_bytes; lia]. replace (zlen b4) with (zlen b + 4) by lia. done.
    + apply Hout; [exact T2|rewrite zlen_le_bytes; lia].
    + rewrite bytes_cons, <- app_assoc. apply has_app. split.
      * apply Hout; [|left; fold (rlen cur); fold np; lia].
        apply (has_kept b b2 8 (zlen b)); [rewrite bytes_cons, <- app_assoc in H4; by apply has_app_1 in H4|exact K2|lia| |]; fold (rlen cur); lia.
      * fold (rlen cur) np. rewrite bytes_cons. unfold raw. cbn [elarge eprev eval with_prev]. rewrite <- !app_assoc. apply has_app. split; [done|].
        change (zlen (prev_bytes true (rlen cur))) with 5. rewrite app_assoc. fold l. apply has_app. split.
        -- eapply has_frame; [exact H3'|exact F4|lia].
        -- apply Hout; [|lia]. replace (np + 5 + zlen l) with (zlen b + 4 - 1) by lia. eapply has_frame; [exact L1|exact F2|lia].
    + rewrite !zlen_bytes_cons, rlen_large by done. lia.
    + apply Forall_cons in H7 as [H7 H8]. apply Forall_cons in H8 as [H8 H9]. constructor; [done|]. constructor; [|done].
      apply ok_large; [done|unfold ent_ok in H7; lia|lia].
  - eapply kept_trans; [eapply kept_sub; [exact K2|lia|lia]|]. eapply kept_trans; eapply kept_frame; try done; lia.
Qed.

(** The length is stored into the bytes that are there. *)
Lemma overwrite_ok b p cur next rest s : ending b p (cur :: next :: rest) -> elarge next = true \/ rlen cur < 254 -> exists b' k,
  (if psize (negb (rlen cur <? 254)) <? psize (elarge next) then zipStorePrevEntryLengthLarge b (Some (p + rlen cur)) (rlen cur)
   else zipStorePrevEntryLength b (Some (p + rlen cur)) (rlen cur)) s = Ret (b', k) s /\
  ending b' p (cur :: with_prev next (elarge next) (rlen cur) :: rest) /\ kept b b' 8 (p + rlen cur).
Proof.
  intros [H1 H2 H3 H4 H5 H6 H7] Hl. pose proof (rlen_ge cur) as Rc. pose proof (rlen_ge next) as Rc0. pose proof (zlen_nonneg (bytes_of rest)). rewrite !zlen_bytes_cons in H5.
  set (np := p + rlen cur) in *. assert (Hnp : np = p + rlen cur) by done.
  assert (Rn : psize (elarge next) < rlen next) by (rewrite rlen_eq; pose proof (zlen_header (eval next)); pose proof (zlen_nonneg (data_of (eval next))); lia).
  assert (Hst : exists b' k, (if psize (negb (rlen cur <? 254)) <? psize (elarge next) then zipStorePrevEntryLengthLarge b (Some np) (rlen cur)
    else zipStorePrevEntryLength b (Some np) (rlen cur)) s = Ret (b', k) s /\
    has b' np (prev_bytes (elarge next) (rlen cur)) /\ frame b b' np (np + psize (elarge next))).
  { destruct (elarge next) eqn:El, (negb (rlen cur <? 254)) eqn:Ec; cbn [psize Z.ltb Z.compare Pos.compare Pos.compare_cont] in *; [| |lia|].
    - destruct (store_prevlen_ok b np (rlen cur) s) as (b' & E & H'); [lia|rewrite Ec; cbn; lia|lia|]. rewrite Ec in *. by exists b', 5.
    - destruct (store_large_ok b np (rlen cur) s) as (b' & E & H'); [lia|lia|]. by exists b', 5.
    - destruct (store_prevlen_ok b np (rlen cur) s) as (b' & E & H'); [lia|rewrite Ec; cbn; lia|lia|]. rewrite Ec in *. by exists b', 1. }
  destruct Hst as (b' & k & E & Hp & F). exists b', k. split; [exact E|]. pose proof (proj1 F) as Z1. split.
  - assert (Hout : forall off x, has b off x -> off + zlen x <= np \/ np + psize (elarge next) <= off -> has b' off x) by (intros off x Hx Ho; eapply has_frame; [exact Hx|exact F|exact Ho]).
    rewrite bytes_cons, <- app_assoc in H4. apply has_app in H4 as [Hc Hr]. fold (rlen cur) np in Hr. rewrite bytes_cons in Hr. unfold raw in Hr.
    rewrite <- !app_assoc in Hr. apply has_app in Hr as [_ Hr]. rewrite zlen_prev_bytes in Hr.
    split; [done| | | | |lia|].
    + rewrite Z1. apply Hout; [done|]. rewrite zlen_le_bytes. lia.
    + rewrite !(tail_cons p cur) by done. replace (tail_at (p + rlen cur) (with_prev next (elarge next) (rlen cur) :: rest)) with (tail_at p (cur :: next :: rest)).
      * apply Hout; [done|]. rewrite zlen_le_bytes. lia.
      * rewrite tail_cons by done. destruct rest; [done|]. rewrite !(tail_cons (p + rlen cur)) by done. by rewrite rlen_same.
    + rewrite bytes_cons, <- app_assoc. apply has_app. split; [apply Hout; [done|left; fold (rlen cur); lia]|].
      fold (rlen cur) np. rewrite bytes_cons. unfold raw. cbn [elarge eprev eval with_prev]. rewrite <- !app_assoc. apply has_app. split; [done|].
      rewrite zlen_prev_bytes. apply Hout; [done|lia].
    + rewrite !zlen_bytes_cons, rlen_same. lia.
    + apply Forall_cons in H7 as [H7 H8]. apply Forall_cons in H8 as [H8 H9]. constructor; [done|]. constructor; [|done].
      destruct H8 as (K1 & K2 & K3 & K4). split; [|split; [|split; [done|by rewrite rlen_same]]]; cbn; [lia|]. intros El. rewrite El in Hl. destruct Hl; [done|lia].
  - eapply kept_frame; [exact F|lia|lia|lia].
Qed.

Lemma ending_cons b b' p cur es : ending b p (cur :: es) -> forall es', es' <> [] -> ending b' (p + rlen cur) es' -> kept b b' 8 (p + rlen cur) ->
  ending b' p (cur :: es').
Proof.
  intros [H1 H2 H3 H4 H5 H6 H7] es' Hne [K1 K2 K3 K4 K5 K6 K7] Hk. rewrite zlen_bytes_cons in H5. pose proof (zlen_nonneg (bytes_of es)).
  pose proof (zlen_nonneg (bytes_of es')). pose proof (rlen_ge cur). split; try done.
  - by rewrite tail_cons.
  - rewrite bytes_cons, <- app_assoc. apply has_app. split; [|exact K4]. rewrite bytes_cons, <- app_assoc in H4.
    apply (has_kept b b' 8 (p + rlen cur)); [by apply has_app_1 in H4|exact Hk|lia| |]; fold (rlen cur); lia.
  - rewrite zlen_bytes_cons. lia.
  - apply Forall_cons in H7 as [H7 _]. by constructor.
Qed.

Lemma cascade_loop n : forall es cur p b s, (length es < n)%nat -> ending b p (cur :: es) -> zlen b + 4 * zlen es < 2 ^ 32 -> exists b',
  while_loop n cascade_turn (b, p, zlen b) s = Ret b' s /\ ending b' p (cur :: mend (rlen cur) es) /\ kept b b' 8 p.
Proof.
  induction n as [|n IH]; intros es cur p b s Hn Hen Hz; [lia|]. cbn [while_loop]. unfold cascade_turn at 1.
  pose proof Hen as [H1 H2 H3 H4 H5 H6 H7]. apply Forall_cons in H7 as [Hc H7]. pose proof (rlen_ge cur) as Rc. pose proof H4 as H4'. rewrite bytes_cons, <- app_assoc in H4'.
  apply has_app in H4' as [Hcur Hes]. fold (rlen cur) in Hes. pose proof (zlen_nonneg (bytes_of es)) as Zb. rewrite zlen_bytes_cons in H5.
  destruct (rd_entry b p cur s Hc Hcur) as (c & Ec & Eend & _). rewrite bind_assoc, (bind_ret_eq _ _ _ _ _ Ec), Eend.
  rewrite bind_assoc, (bind_ret_eq _ _ _ _ _ (entry_ok b p cur s Hc Hcur)), entry_rlen, !(u32_id (rlen cur)) by (unfold is_u32; lia).
  rewrite bind_assoc, (bind_ret_eq _ _ _ _ _ (prevlen_size b _ s)).
  destruct es as [|next rest].
  { cbn in Hes. rewrite bind_assoc, (bind_ret_eq _ _ _ _ _ (rd_end b _ s Hes)). by exists b. }
  apply Forall_cons in H7 as [Hn0 H7]. pose proof Hes as Hnext. rewrite bytes_cons, <- app_assoc in Hnext. apply has_app_1 in Hnext.
  destruct (rd_entry b _ next s Hn0 Hnext) as (c' & Ec' & Eend' & _). rewrite bind_assoc, (bind_ret_eq _ _ _ _ _ Ec'), Eend'.
  rewrite bind_assoc, (bind_ret_eq _ _ _ _ _ (entry_ok b _ next s Hn0 Hnext)). cbn [prevrawlen prevrawlensize entry_of mend].
  destruct (eprev next =? rlen cur); [by exists b|].
  rewrite zlen_cons in Hz. pose proof (zlen_nonneg rest). destruct (negb (elarge next) && negb (rlen cur <? 254)) eqn:Eg.
  - apply andb_true_iff in Eg as [El Er]. apply negb_true_iff in El. rewrite El, Er. cbn [psize Z.ltb Z.compare Pos.compare Pos.compare_cont].
    destruct (grow_ok b p cur next rest s Hen El ltac:(lia) ltac:(lia)) as (b1 & E1 & Hen1 & K1 & Z1).
    rewrite bind_assoc, (bind_ret_eq _ _ _ _ _ E1), <- Z1. unfold ret at 1, bind at 1.
    destruct (ending_more _ _ _ _ Hen1) as [Hen2|Hnil]; [|done]. destruct (IH rest (with_prev next true (rlen cur)) (p + rlen cur) b1 s) as (b2 & E2 & Hen3 & K2).
    + cbn in Hn. lia.
    + done.
    + lia.
    + exists b2. split; [exact E2|]. split; [|eapply kept_trans; [eapply kept_sub; [exact K1|lia|lia]|eapply kept_sub; [exact K2|lia|lia]]].
      eapply ending_cons; [exact Hen1|done|exact Hen3|exact K2].
  - assert (Hover : psize (elarge next) <? psize (negb (rlen cur <? 254)) = false) by (destruct (elarge next), (rlen cur <? 254); done). rewrite Hover.
    destruct (overwrite_ok b p cur next rest s Hen) as (b1 & k & E1 & Hen1 & K1); [destruct (elarge next); [by left|right; cbn in Eg; lia]|].
    rewrite bind_assoc, (bind_ret_eq _ _ _ _ _ E1). exists b1. split; [done|]. split; [done|]. eapply kept_sub; [exact K1|lia|lia].
Qed.

Lemma cascade_ok b p cur es s : ending b p (cur :: es) -> zlen b + 4 * zlen es < 2 ^ 32 -> exists b',
  __ziplistCascadeUpdate b p s = Ret b' s /\ ending b' p (cur :: mend (rlen cur) es) /\ kept b b' 8 p.
Proof.
  intros Hen Hz. unfold __ziplistCascadeUpdate, ZIPLIST_BYTES. pose proof (en_small _ _ _ Hen). pose proof (zlen_nonneg b).
  rewrite (bind_ret_eq _ _ _ _ _ (load4 _ _ _ _ (en_bytes _ _ _ Hen) ltac:(lia))). apply cascade_loop; [|done|done].
  pose proof (en_size _ _ _ Hen) as H5. rewrite zlen_bytes_cons in H5. pose proof (zlen_bytes_ge es). pose proof (rlen_ge cur). pose proof (en_start _ _ _ Hen).
  unfold list_turns, zlen in *. lia.
Qed.

(** ** What the update is for *)
Lemma mend_same prev es : chained prev es -> mend prev es = es.
Proof. destruct es as [|e es]; [done|]. intros [He _]. cbn. by rewrite (proj2 (Z.eqb_eq _ _)). Qed.
Lemma mend_chained es : forall prev, match es with [] => True | e :: es => chained (rlen e) es end -> chained prev (mend prev es).
Proof.
  induction es as [|e es IH]; intros prev Hc; [done|]. cbn [mend]. destruct (Z.eqb_spec (eprev e) prev) as [Ep|Ep]; [done|].
  destruct (negb (elarge e) && negb (prev <? 254)); [|split; [done|by rewrite rlen_same]]. split; [done|]. apply IH. destruct es as [|e' es]; [done|]. by destruct Hc.
Qed.
Lemma mend_values prev es : eval <$> mend prev es = eval <$> es.
Proof.
  revert prev. induction es as [|e es IH]; intros prev; [done|]. cbn [mend]. destruct (eprev e =? prev); [done|].
  destruct (negb (elarge e) && negb (prev <? 254)); cbn; [by rewrite IH|done].
Qed.
End cascade.
