(* ===== verification/ZlInsert.v ===== *)
(** Insertion into a ziplist. *)
From S2P Require Import Prelude Intset IntsetProofs Util Ziplist ZlMem ZlEntry ZlList ZlCascade.
#[local] Open Scope Z_scope.
Implicit Types (e next : ent) (es rest : list ent) (b : buf) (u : zvalue).

(** ** The whole list *)

(** The header counts the entries as long as there are few. *)
Definition counts (n : Z) es : Prop := 0 <= n <= 65535 /\ (n < 65535 -> n = zlen es).
Record zl_ok b es (n : Z) : Prop := {
  zl_ending : ending b 10 es;
  zl_count : has b 8 (le_bytes 2 n);
  zl_counts : counts n es;
  zl_chained : chained 0 es
}.
(** The length of the entry in front. *)
Definition back (prev : Z) es : Z := match last es with Some e => rlen e | None => prev end.

Lemma back_snoc prev es e : back prev (es ++ [e]) = rlen e.
Proof. unfold back. by rewrite last_snoc. Qed.
Lemma back_cons prev e es : back prev (e :: es) = back (rlen e) es.
Proof. unfold back. destruct es as [|e' es]; [done|]. cbn [last]. by destruct (last (e' :: es)) eqn:E; [|apply last_None in E]. Qed.
Lemma chained_app prev es es' : chained prev (es ++ es') <-> chained prev es /\ chained (back prev es) es'.
Proof.
  revert prev. induction es as [|e es IH]; intros prev; [cbn; tauto|]. cbn [app chained]. rewrite IH, back_cons. tauto.
Qed.
Lemma back_range b p es : ending b p es -> 0 <= back 0 es < 2 ^ 32.
Proof.
  intros [H1 _ _ _ H5 H6 H7]. unfold back. destruct (last es) as [e|] eqn:E; [|lia]. apply last_Some_elem_of in E. rewrite Forall_forall in H7.
  destruct (H7 e E) as (_ & _ & _ & H). pose proof (rlen_ge e). lia.
Qed.

Section insert.
Context {S : Type}.
Implicit Types (s : S).

Lemma memcpy_any b doff src soff n s : 0 <= n -> 0 <= doff -> doff + n <= zlen b -> 0 <= soff -> soff + n <= zlen src -> exists b',
  memcpy b doff src soff n s = Ret b' s /\ frame b b' doff (doff + n) /\
  (forall off x, has src off x -> soff <= off -> off + zlen x <= soff + n -> has b' (doff + (off - soff)) x).
Proof.
  intros Hn Hd Hz Hs Hz'. unfold memcpy. rewrite !(proj2 (Z.leb_le _ _)) by lia. cbn [andb]. eexists. split; [reflexivity|].
  set (mid := take (Z.to_nat n) (drop (Z.to_nat soff) src)). unfold zlen in *.
  assert (Hmid : length mid = Z.to_nat n) by (unfold mid; rewrite length_take, length_drop; lia).
  assert (Hlen : length (take (Z.to_nat doff) b ++ mid ++ drop (Z.to_nat (doff + n)) b) = length b).
  { rewrite !length_app, length_take, length_drop, Hmid. lia. }
  split; [split; [unfold zlen; lia|split]|].
  - intros j Hj. rewrite lookup_app_l by (rewrite length_take; lia). apply lookup_take_lt. lia.
  - intros j Hj. unfold zlen in Hj. rewrite !lookup_app_r by (rewrite ?length_take, ?Hmid; lia). rewrite length_take, Hmid, lookup_drop. f_equal. lia.
  - intros off x Hx Ho Hox. pose proof (has_bounds _ _ _ Hx) as [_ Hb]. apply has_intro; [lia|unfold zlen in *; lia|].
    intros k y Hk Hy. pose proof (lookup_lt_Some _ _ _ Hy).
    rewrite lookup_app_r by (rewrite length_take; lia). rewrite length_take, lookup_app_l by lia.
    unfold mid. rewrite lookup_take_lt, lookup_drop by lia. rewrite <- (has_lookup src off x k y Hx Hy Hk). f_equal. lia.
Qed.

Lemma ziplistNew_ok s : exists b, ziplistNew s = Ret b s /\ zl_ok b [] 0.
Proof.
  exists (Some <$> [11; 0; 0; 0; 10; 0; 0; 0; 0; 0; 255]). split; [reflexivity|].
  assert (Hh : forall off l, off = 0 /\ l = [11; 0; 0; 0] \/ off = 4 /\ l = [10; 0; 0; 0] \/ off = 8 /\ l = [0; 0] \/ off = 10 /\ l = [255] ->
    has (Some <$> [11; 0; 0; 0; 10; 0; 0; 0; 0; 0; 255]) off l).
  { intros off l [[-> ->]|[[-> ->]|[[-> ->]|[-> ->]]]]; (apply has_intro; [lia|vm_compute; congruence|]); intros k x Hk Hx;
      pose proof (lookup_lt_Some _ _ _ Hx) as Hl; cbn in Hl; apply Z2Nat.id in Hk; rewrite <- Hk in *; rewrite Nat2Z.id in Hx.
    all: destruct (Z.to_nat k) as [|[|[|[|]]]]; try (cbn in Hx; lia || discriminate); cbn in Hx; injection Hx as <-; reflexivity. }
  split; [|by apply Hh; vm_compute; auto|by split; [lia|]|done].
  split; [lia|apply Hh; by left|apply Hh; right; by left|apply Hh; right; right; by right|done|done|done].
Qed.

Lemma incr_length_ok b n k s : has b 8 (le_bytes 2 n) -> 0 <= n <= 65535 -> exists b',
  ZIPLIST_INCR_LENGTH b k s = Ret b' s /\ has b' 8 (le_bytes 2 (if n <? 65535 then u16 (n + k) else n)) /\ frame b b' 8 10.
Proof.
  intros H Hn. unfold ZIPLIST_INCR_LENGTH, ZIPLIST_LENGTH, UINT16_MAX.
  assert (El : load_le b 8 2 s = Ret n s) by (rewrite (load_has 2 _ _ _ _ H); change (256 ^ Z.of_nat 2) with 65536; by rewrite Z.mod_small by lia).
  rewrite (bind_ret_eq _ _ _ _ _ El). destruct (n <? 65535); [|by exists b]. rewrite (bind_ret_eq _ _ _ _ _ El).
  pose proof (has_bounds _ _ _ H) as [_ Hz]. rewrite zlen_le_bytes in Hz.
  destruct (store_has 2 b 8 (n + k) s) as (b' & E & H' & F); [lia|lia|]. exists b'. split; [exact E|]. split; [|exact F].
  unfold u16. rewrite <- (le_bytes_mod 2 (n + k)) in H'. done.
Qed.

(** ** The parts of an insertion *)

(** What the insertion finds in front of [p]. *)
Lemma tail_entry es e : tail_at 10 (es ++ [e]) = 10 + zlen (bytes_of es).
Proof. by rewrite tail_app. Qed.
Lemma ending_split b p es1 es2 : ending b p (es1 ++ es2) -> has b p (bytes_of es1) /\ has b (p + zlen (bytes_of es1)) (bytes_of es2 ++ [255]) /\
  Forall ent_ok es1 /\ Forall ent_ok es2 /\ zlen b = p + zlen (bytes_of es1) + zlen (bytes_of es2) + 1.
Proof.
  intros [_ _ _ H4 H5 _ H7]. rewrite bytes_app in H4, H5. rewrite <- app_assoc in H4. apply has_app in H4 as [? ?]. rewrite zlen_app in H5.
  apply Forall_app in H7 as [? ?]. split; [done|]. split; [done|]. split; [done|]. split; [done|lia].
Qed.
Lemma ending_later b p es1 es2 : ending b p (es1 ++ es2) -> es2 <> [] -> ending b (p + zlen (bytes_of es1)) es2.
Proof.
  revert p. induction es1 as [|e es1 IH]; intros p H Hne; [by replace (p + _) with p by (change (zlen (bytes_of [])) with 0; lia)|].
  rewrite zlen_bytes_cons, Z.add_assoc. destruct (ending_more _ _ _ _ H) as [H'|H']; [by apply IH|]. by destruct es1, es2.
Qed.
Lemma has_text t (junk : buf) : has ((Some <$> t) ++ junk) 0 t.
Proof.
  apply has_intro; [lia|rewrite zlen_app, zlen_fmap; pose proof (zlen_nonneg junk); lia|]. intros k x Hk Hx. rewrite Z.add_0_l.
  apply lookup_app_l_Some. by rewrite list_lookup_fmap, Hx.
Qed.
Lemma prevlen_at_ok b es1 es2 n s : zl_ok b (es1 ++ es2) n -> prevlen_at b (10 + zlen (bytes_of es1)) s = Ret (back 0 es1) s.
Proof.
  intros [Hen _ _ Hch]. pose proof Hen as [_ _ H3 _ _ H6 _]. destruct (ending_split _ _ _ _ Hen) as (H1 & H2 & O1 & O2 & Hz). unfold prevlen_at.
  apply chained_app in Hch as [_ Hch]. destruct es2 as [|e es2].
  - rewrite (bind_ret_eq _ _ _ _ _ (rd_end b _ s H2)). cbn [negb Z.eqb Pos.eqb ZIP_END]. unfold ZIPLIST_ENTRY_TAIL, ZIPLIST_TAIL_OFFSET.
    pose proof (tail_bounds 10 (es1 ++ [])) as Hb. rewrite app_nil_r in *. pose proof (zlen_nonneg (bytes_of [])).
    rewrite (bind_ret_eq _ _ _ _ _ (load4 _ _ _ _ H3 ltac:(lia))). destruct es1 as [|e es1 _] using rev_ind.
    + by rewrite (bind_ret_eq _ _ _ _ _ (rd_end b _ s H2)).
    + rewrite tail_entry, back_snoc. rewrite bytes_app in H1. apply has_app_2 in H1. change (bytes_of [e]) with (raw e ++ []) in H1. rewrite app_nil_r in H1.
      apply Forall_app in O1 as [_ O1]. apply Forall_cons in O1 as [O1 _].
      destruct (rd_entry b _ e s O1 H1) as (c & Ec & Ee & _). rewrite (bind_ret_eq _ _ _ _ _ Ec), Ee. cbn [negb]. by apply raw_length_ok.
  - apply Forall_cons in O2 as [O2 _]. rewrite bytes_cons, <- app_assoc in H2. apply has_app_1 in H2.
    destruct (rd_entry b _ e s O2 H2) as (c & Ec & Ee & _). rewrite (bind_ret_eq _ _ _ _ _ Ec), Ee. cbn [negb].
    rewrite (bind_ret_eq _ _ _ _ _ (prevlen_ok b _ e s O2 H2)). by destruct Hch as [-> _].
Qed.

(** How the entry behind the new one is stored. *)
Definition large_next (reqlen : Z) next : bool := if elarge next && (reqlen <? 4) then true else negb (reqlen <? 254).
Definition diff_next (reqlen : Z) next : Z := psize (large_next reqlen next) - psize (elarge next).

Lemma rlen_diff reqlen next : rlen (with_prev next (large_next reqlen next) reqlen) = rlen next + diff_next reqlen next.
Proof. rewrite !rlen_eq. cbn. unfold diff_next. lia. Qed.
Lemma diff_range reqlen next : -4 <= diff_next reqlen next <= 4 /\ (reqlen < 4 -> 0 <= diff_next reqlen next) /\ (diff_next reqlen next <= 0 \/ 254 <= reqlen).
Proof. unfold diff_next, large_next. destruct (elarge next), (Z.ltb_spec reqlen 4), (Z.ltb_spec reqlen 254); cbn; lia. Qed.

Lemma byte_diff_ok b p next reqlen s : ent_ok next -> has b p (raw next) ->
  zipPrevLenByteDiff b p reqlen s = Ret (psize (negb (reqlen <? 254)) - psize (elarge next)) s.
Proof.
  intros Ho Hh. unfold zipPrevLenByteDiff. rewrite (bind_ret_eq _ _ _ _ _ (prevlensize_ok b p next s Ho Hh)), (bind_ret_eq _ _ _ _ _ (prevlen_size b reqlen s)).
  unfold ret. f_equal. by destruct (reqlen <? 254), (elarge next).
Qed.

(** The tail of what is moved starts behind the length in front. *)
Lemma entry_rest b p next rest : has b p (bytes_of (next :: rest) ++ [255]) -> has b (p + psize (elarge next)) (body (eval next) ++ bytes_of rest) /\
  zlen (body (eval next) ++ bytes_of rest) = zlen (bytes_of (next :: rest)) - psize (elarge next).
Proof.
  intros H. rewrite bytes_cons in H. unfold raw in H. rewrite <- !app_assoc in H. apply has_app_2 in H. rewrite zlen_prev_bytes, app_assoc in H.
  split; [by apply has_app_1 in H|]. rewrite bytes_cons, !zlen_app. unfold raw. rewrite zlen_app, zlen_prev_bytes. lia.
Qed.


Lemma adjust_tail_ok b q e rest (t0 a d : Z) (idx : zlentry -> Z) s : idx (entry_of q e) = q + rlen e -> 8 <= q -> ent_ok e -> has b q (bytes_of (e :: rest) ++ [255]) -> Forall ent_ok rest ->
  has b 4 (le_bytes 4 t0) -> 0 <= t0 + a < 2 ^ 32 -> 0 <= t0 < 2 ^ 32 -> 0 <= t0 + a + d < 2 ^ 32 -> exists b',
  (let* t := ZIPLIST_TAIL_OFFSET b in
   let* b := set_tail_offset b (u32 (t + a)) in
   let* tail := zipEntry b q in
   let* c := rd b (idx tail) in
   if negb (c =? ZIP_END) then let* t := ZIPLIST_TAIL_OFFSET b in set_tail_offset b (u32 (t + d)) else ret b) s = Ret b' s /\
  has b' 4 (le_bytes 4 (t0 + a + (match rest with [] => 0 | _ => d end))) /\ frame b b' 4 8.
Proof.
  intros Hi Hq Ho Hh Hr Ht H0 H1 H2. unfold ZIPLIST_TAIL_OFFSET at 1. rewrite (bind_ret_eq _ _ _ _ _ (load4 _ _ _ _ Ht H1)), u32_id by (unfold is_u32; lia).
  pose proof (has_bounds _ _ _ Ht) as [_ Hz]. rewrite zlen_le_bytes in Hz.
  destruct (store_has 4 b 4 (t0 + a) s) as (b1 & E1 & T1 & F1); [lia|lia|]. unfold set_tail_offset at 1. rewrite (bind_ret_eq _ _ _ _ _ E1).
  assert (Hh1 : has b1 q (bytes_of (e :: rest) ++ [255])) by (eapply has_frame; [exact Hh|exact F1|right; lia]).
  rewrite bytes_cons, <- app_assoc in Hh1. pose proof (has_app_1 _ _ _ _ Hh1) as He. apply has_app_2 in Hh1. fold (rlen e) in Hh1.
  rewrite (bind_ret_eq _ _ _ _ _ (entry_ok b1 q e s Ho He)), Hi. destruct rest as [|e' rest].
  - rewrite (bind_ret_eq _ _ _ _ _ (rd_end b1 _ s Hh1)). exists b1. split; [done|]. split; [by rewrite Z.add_0_r|done].
  - apply Forall_cons in Hr as [Hr _]. rewrite bytes_cons, <- app_assoc in Hh1. apply has_app_1 in Hh1.
    destruct (rd_entry b1 _ e' s Hr Hh1) as (c & Ec & Ee & _). rewrite (bind_ret_eq _ _ _ _ _ Ec), Ee. cbn [negb]. unfold ZIPLIST_TAIL_OFFSET.
    rewrite (bind_ret_eq _ _ _ _ _ (load4 _ _ _ _ T1 H0)), u32_id by (unfold is_u32; lia).
    pose proof (proj1 F1) as Z1. destruct (store_has 4 b1 4 (t0 + a + d) s) as (b2 & E2 & T2 & F2); [lia|lia|]. exists b2. split; [exact E2|]. split; [exact T2|].
    split; [rewrite (proj1 F2); done|]. destruct F1 as (_ & K1 & K2), F2 as (Z2 & K3 & K4). rewrite Z1 in K4. split; eapply kept_trans; done.
Qed.

Lemma open_gap_ok b0 b p next rest reqlen s (d := diff_next reqlen next) (large := large_next reqlen next) :
  ending b0 p (next :: rest) -> zlen b = zlen b0 + reqlen + d -> zlen b + 4 < 2 ^ 32 -> 2 <= reqlen ->
  has b 0 (le_bytes 4 (zlen b)) -> has b (zlen b - 1) [255] -> kept b0 b 4 (zlen b0 - 1) -> exists b',
  open_gap b p (zlen b0) reqlen d (elarge next && (reqlen <? 4)) s = Ret b' s /\
  ending b' (p + reqlen) (with_prev next large reqlen :: rest) /\ kept b0 b' 8 p.
Proof.
  intros [H1 H2 H3 H4 H5 H6 H7] Hz Hlt Hr Hb He K. pose proof (diff_range reqlen next) as Hd. fold d in Hd.
  destruct (entry_rest _ _ _ _ H4) as [Hl Zl]. set (l := body (eval next) ++ bytes_of rest) in *.
  assert (Rp : forall x, 1 <= psize x <= 5) by (intros []; cbn; lia). pose proof (Rp large) as Rl. pose proof (Rp (elarge next)) as Re. clear Rp.
  assert (Hdd : d = psize large - psize (elarge next)) by done. pose proof (zlen_nonneg l) as Z0. unfold open_gap, memmove.
  destruct (memcpy_any b (p + reqlen) b (p - d) (zlen b0 - p - 1 + d) s) as (b1 & E1 & F1 & M1); [lia..|]. rewrite (bind_ret_eq _ _ _ _ _ E1).
  pose proof (proj1 F1) as Z1. replace (p + reqlen + (zlen b0 - p - 1 + d)) with (zlen b - 1) in F1 by lia.
  assert (Hl1 : has b1 (p + reqlen + psize large) l).
  { eapply has_at; [apply (M1 (p + psize (elarge next)) l)|lia]; [|lia|lia]. apply (has_kept b0 b 4 (zlen b0 - 1)); [exact Hl|exact K|lia|lia|lia]. }
  assert (Hst : exists b2 k, (if elarge next && (reqlen <? 4) then zipStorePrevEntryLengthLarge b1 (Some (p + reqlen)) (u32 reqlen)
     else zipStorePrevEntryLength b1 (Some (p + reqlen)) (u32 reqlen)) s = Ret (b2, k) s /\
     has b2 (p + reqlen) (prev_bytes large reqlen) /\ frame b1 b2 (p + reqlen) (p + reqlen + psize large)).
  { rewrite u32_id by (unfold is_u32; lia). unfold large, large_next in *. destruct (elarge next && (reqlen <? 4)); cbn [psize] in *.
    - destruct (store_large_ok b1 (p + reqlen) reqlen s) as (b2 & E & H); [lia|lia|]. by exists b2, 5.
    - destruct (store_prevlen_ok b1 (p + reqlen) reqlen s) as (b2 & E & H); [lia|lia|lia|]. by eexists b2, _. }
  destruct Hst as (b2 & k & E2 & P2 & F2). rewrite (bind_ret_eq _ _ _ _ _ E2). pose proof (proj1 F2) as Z2.
  set (next' := with_prev next large reqlen).
  assert (Hout : forall off x, has b off x -> off + zlen x <= p + reqlen \/ zlen b - 1 <= off -> has b2 off x).
  { intros off x Hx Ho. eapply has_frame; [eapply has_frame; [exact Hx|exact F1|lia]|exact F2|lia]. }
  assert (L2 : has b2 (p + reqlen) (bytes_of (next' :: rest) ++ [255])).
  { rewrite bytes_cons. unfold raw. cbn [elarge eprev eval next' with_prev]. rewrite <- !app_assoc. apply has_app. split; [done|].
    rewrite zlen_prev_bytes, app_assoc. fold l. apply has_app. split; [eapply has_frame; [exact Hl1|exact F2|lia]|].
    eapply has_at; [apply Hout; [exact He|lia]|lia]. }
  pose proof (Forall_inv H7) as On. pose proof (Forall_inv_tail H7) as Or. pose proof (zlen_bytes_cons next rest) as Zc. pose proof (zlen_nonneg (bytes_of rest)) as Zr.
  assert (Rn : rlen next' = rlen next + d) by apply rlen_diff.
  assert (On' : ent_ok next').
  { destruct On as (K1 & K2 & K3 & K4). split; [cbn; lia|]. split; [|split; [done|lia]]. cbn. unfold large, large_next. destruct (elarge next && (reqlen <? 4)); [done|lia]. }
  pose proof (tail_bounds p (next :: rest)) as Tb.
  assert (T2 : has b2 4 (le_bytes 4 (tail_at p (next :: rest)))).
  { apply Hout; [|rewrite zlen_le_bytes; lia]. apply (has_kept b0 b 4 (zlen b0 - 1)); [exact H3|exact K|lia| |]; rewrite zlen_le_bytes; lia. }
  destruct (adjust_tail_ok b2 (p + reqlen) next' rest _ reqlen d (fun t => p + (reqlen + headersize t + len t)) s ltac:(pose proof (entry_rlen (p + reqlen) next'); cbv beta; lia) ltac:(lia) On' L2 Or T2
    ltac:(lia) ltac:(lia) ltac:(lia)) as (b3 & E3 & T3 & F3).
  exists b3. split; [exact E3|]. pose proof (proj1 F3) as Z3. split.
  - split; [lia| | | |rewrite zlen_bytes_cons; lia|lia|by constructor].
    + eapply has_frame; [|exact F3|left; rewrite zlen_le_bytes; lia]. rewrite Z3, Z2, Z1. apply Hout; [done|]. rewrite zlen_le_bytes. lia.
    + assert (Et : tail_at (p + reqlen) (next' :: rest) = tail_at p (next :: rest) + reqlen + match rest with [] => 0 | _ => d end); [|by rewrite Et].
      destruct rest as [|e rest]; [cbn [tail_at]; lia|]. rewrite (tail_cons _ next'), (tail_cons _ next) by done.
      replace (p + reqlen + rlen next') with (p + rlen next + (reqlen + d)) by lia. rewrite tail_shift by done. lia.
    + eapply has_frame; [exact L2|exact F3|right; lia].
  - eapply kept_trans; [eapply kept_sub; [exact K|lia|lia]|]. eapply kept_trans; [eapply (kept_frame b b1); [exact F1|lia|lia|lia]|].
    eapply kept_trans; [eapply (kept_frame b1 b2); [exact F2|lia|lia|lia]|eapply kept_frame; [exact F3|lia|lia|lia]].
Qed.

(** The gap is filled. *)
Definition new_ent (prev : Z) u : ent := {| eprev := prev; elarge := negb (prev <? 254); eval := u |}.
Definition new_value u : Z := match u with ZStr _ => 123456789 | ZInt v => v end.
Lemma write_data_ok u b p sb slen s : value_ok u -> text_len u slen -> match u with ZStr t => has sb 0 t | ZInt _ => True end ->
  0 <= p -> p + zlen (data_of u) <= zlen b -> exists b',
  (if ZIP_IS_STR (new_code u) then memcpy b p sb 0 slen else zipSaveInteger b p (new_value u) (new_code u)) s = Ret b' s /\
  has b' p (data_of u) /\ frame b b' p (p + zlen (data_of u)).
Proof.
  intros Hu Hl Hs Hp Hz. rewrite (is_str_new u Hu). destruct u as [t|v]; cbn [data_of text_len new_value new_code] in *.
  - rewrite Hl. by apply memcpy_has.
  - rewrite zlen_le_bytes in *. by apply save_integer_ok.
Qed.
Lemma write_entry_ok u b p prev sb slen n s : value_ok u -> text_len u slen -> match u with ZStr t => has sb 0 t | ZInt _ => True end ->
  10 <= p -> 0 <= prev -> p + rlen (new_ent prev u) <= zlen b -> has b 8 (le_bytes 2 n) -> 0 <= n <= 65535 -> exists b',
  write_entry b p prev sb slen (new_value u) (new_code u) s = Ret b' s /\ has b' p (raw (new_ent prev u)) /\
  has b' 8 (le_bytes 2 (if n <? 65535 then u16 (n + 1) else n)) /\ zlen b' = zlen b /\ kept b b' 0 8 /\ kept b b' 10 p /\
  kept b b' (p + rlen (new_ent prev u)) (zlen b).
Proof.
  intros Hu Hl Hs Hp Hprev Hz Hn Hn'. pose proof (rlen_eq (new_ent prev u)) as Re. cbn [new_ent elarge eval] in Re. unfold write_entry.
  set (e := new_ent prev u) in *. pose proof (zlen_header u) as Zh. pose proof (zlen_nonneg (data_of u)) as Zd.
  set (ps := psize (negb (prev <? 254))) in *. assert (Hps : 1 <= ps) by (unfold ps; destruct (prev <? 254); cbn; lia).
  destruct (store_prevlen_ok b p prev s) as (b1 & E1 & H1 & F1); [lia|fold ps; lia|lia|]. fold ps in E1, F1. rewrite (bind_ret_eq _ _ _ _ _ E1).
  pose proof (proj1 F1) as Z1. destruct (store_encoding_ok u b1 (p + ps) slen s Hu Hl) as (b2 & E2 & H2 & F2); [lia|lia|].
  rewrite (bind_ret_eq _ _ _ _ _ E2). pose proof (proj1 F2) as Z2.
  destruct (write_data_ok u b2 (p + ps + zlen (header_of u)) sb slen s Hu Hl Hs) as (b3 & E3 & H3 & F3); [lia|lia|]. rewrite (bind_ret_eq _ _ _ _ _ E3).
  pose proof (frame_join _ _ _ _ _ _ F1 F2 ltac:(lia)) as F12. pose proof (frame_join _ _ _ _ _ _ F12 F3 ltac:(lia)) as F.
  replace (p + ps + zlen (header_of u) + zlen (data_of u)) with (p + rlen e) in F by lia. pose proof (proj1 F) as Z3.
  destruct (incr_length_ok b3 n 1 s) as (b4 & E4 & H4 & F4); [eapply has_frame; [exact Hn|exact F|left; rewrite zlen_le_bytes; lia]|done|].
  exists b4. pose proof (proj1 F4) as Z4. split; [exact E4|]. split; [|split; [exact H4|split; [lia|]]].
  - unfold e, raw, body. cbn [new_ent elarge eval eprev]. eapply has_frame; [|exact F4|right; lia]. apply has_app. split.
    + eapply has_frame; [eapply has_frame; [exact H1|exact F2|]|exact F3|]; rewrite zlen_prev_bytes; fold ps; lia.
    + rewrite zlen_prev_bytes. fold ps. apply has_app. split; [|exact H3]. eapply has_frame; [exact H2|exact F3|lia].
  - split; [|split]; (eapply kept_trans; [eapply (kept_frame b b3); [exact F|lia..]|eapply (kept_frame b3 b4); [exact F4|lia..]]).
Qed.

(** What the gap is in. *)
Record ready b (p : Z) e es : Prop := {
  re_bytes : has b 0 (le_bytes 4 (zlen b));
  re_tail : has b 4 (le_bytes 4 (tail_at p (e :: es)));
  re_list : has b (p + rlen e) (bytes_of es ++ [255]);
  re_size : zlen b = p + rlen e + zlen (bytes_of es) + 1;
  re_small : zlen b < 2 ^ 32;
  re_ok : Forall ent_ok es
}.
Lemma ready_ending b p e es : ending b (p + rlen e) es -> es <> [] -> ready b p e es.
Proof. intros [H1 H2 H3 H4 H5 H6 H7] Hne. split; try done; by rewrite tail_cons. Qed.

Lemma zl_fill_ok b b1 es1 es2 es2' u sb slen n s (e := new_ent (back 0 es1) u) (p := 10 + zlen (bytes_of es1)) :
  value_ok u -> text_len u slen -> match u with ZStr t => has sb 0 t | ZInt _ => True end ->
  zl_ok b (es1 ++ es2) n -> ready b1 p e es2' -> kept b b1 8 p -> chained (rlen e) es2' -> zlen es2' = zlen es2 -> exists b',
  write_entry b1 p (back 0 es1) sb slen (new_value u) (new_code u) s = Ret b' s /\ zl_ok b' (es1 ++ e :: es2') (if n <? 65535 then n + 1 else n).
Proof.
  intros Hu Hl Hs [Hen Hc [Hn Hn'] Hch] [R1 R2 R3 R4 R5 R6] K Hch' Hcnt. destruct (ending_split _ _ _ _ Hen) as (H1 & H2 & O1 & O2 & Hz).
  pose proof (zlen_nonneg (bytes_of es1)). pose proof (zlen_nonneg (bytes_of es2')). pose proof (zlen_nonneg (bytes_of es2)). pose proof (rlen_ge e) as Re.
  assert (Hb : 0 <= back 0 es1 < 2 ^ 32).
  { unfold back. destruct (last es1) as [x|] eqn:El; [|lia]. apply last_Some_elem_of in El. rewrite Forall_forall in O1. destruct (O1 x El) as (_ & _ & _ & H'). pose proof (rlen_ge x). lia. }
  destruct (write_entry_ok u b1 p (back 0 es1) sb slen n s Hu Hl Hs) as (b' & E & He & Hc' & Zb & K1 & K2 & K3); [lia|lia|fold e; lia| |lia|].
  { apply (has_kept b b1 8 p); [exact Hc|exact K|lia| |]; rewrite zlen_le_bytes; lia. }
  fold e in He, K3. exists b'. split; [exact E|].
  assert (Hse : forall off x, has b1 off x -> off + zlen x <= 8 \/ p + rlen e <= off -> has b' off x).
  { intros off x Hx Ho. pose proof (has_bounds _ _ _ Hx). destruct Ho; [eapply has_kept; [exact Hx|exact K1|lia..]|eapply has_kept; [exact Hx|exact K3|lia..]]. }
  split.
  - split; [lia| | | | |lia|].
    + rewrite Zb. apply Hse; [done|]. rewrite zlen_le_bytes. lia.
    + rewrite tail_app by done. apply Hse; [exact R2|]. rewrite zlen_le_bytes. lia.
    + rewrite bytes_app, bytes_cons, <- !app_assoc. apply has_app. split; [|apply has_app; split; [exact He|apply Hse; [exact R3|fold (rlen e); lia]]].
      apply (has_kept b1 b' 10 p); [|exact K2|lia|lia|lia]. apply (has_kept b b1 8 p); [exact H1|exact K|lia|lia|lia].
    + rewrite bytes_app, zlen_app, zlen_bytes_cons. lia.
    + apply Forall_app. split; [done|]. constructor; [|done]. split; [cbn; lia|]. split; [cbn; lia|]. split; [done|lia].
  - destruct (Z.ltb_spec n 65535); [|done]. unfold u16 in Hc'. by rewrite Z.mod_small in Hc' by lia.
  - unfold counts. rewrite zlen_app in Hn'. rewrite zlen_app, zlen_cons. destruct (Z.ltb_spec n 65535); lia.
  - apply chained_app in Hch as [Hch _]. apply chained_app. by split; [|split].
Qed.

(** What becomes of the entries behind one of length [r]. *)
Definition behind (r : Z) es : list ent :=
  match es with
  | [] => []
  | next :: rest => let next' := with_prev next (large_next r next) r in next' :: mend (rlen next') rest
  end.
Lemma behind_chained r prev es : chained prev es -> chained r (behind r es).
Proof. destruct es as [|next rest]; [done|]. intros [_ H]. split; [done|]. apply mend_chained. destruct rest; [done|]. by destruct H. Qed.
Lemma behind_values r es : eval <$> behind r es = eval <$> es.
Proof. destruct es as [|next rest]; [done|]. cbn. by rewrite mend_values. Qed.
Lemma zlen_behind r es : zlen (behind r es) = zlen es.
Proof. pose proof (f_equal zlen (behind_values r es)) as H. by rewrite !zlen_fmap in H. Qed.

Lemma make_room_end b p e s : 10 <= p -> has b p [255] -> zlen b = p + 1 -> zlen b + rlen e + 8 < 2 ^ 32 -> exists b',
  make_room b p (zlen b) (rlen e) s = Ret b' s /\ ready b' p e [] /\ kept b b' 8 p.
Proof.
  intros H1 H4 H5 Hz. pose proof (rlen_ge e). unfold make_room.
  rewrite (bind_ret_eq _ _ _ _ _ (rd_end b p s H4)). cbn [negb Z.eqb Pos.eqb ZIP_END]. unfold ret at 1, bind at 1. cbn [andb Z.eqb].
  rewrite Z.add_0_r, u32_id by (unfold is_u32; lia). destruct (zl_resize_ok b (zlen b + rlen e) s) as (b1 & E1 & Z1 & B1 & L1 & K1); [lia|].
  rewrite (bind_ret_eq _ _ _ _ _ E1). assert (P1 : has b1 p [255]) by (eapply has_kept; [exact H4|exact K1|lia| |]; unfold zlen at 1; cbn [length]; lia).
  rewrite (bind_ret_eq _ _ _ _ _ (rd_end b1 p s P1)), u32_id by (unfold is_u32; lia). cbn [negb Z.eqb Pos.eqb ZIP_END].
  destruct (store_has 4 b1 4 p s) as (b2 & E2 & T2 & F2); [lia|lia|]. unfold set_tail_offset. rewrite (bind_ret_eq _ _ _ _ _ E2). pose proof (proj1 F2) as Z2.
  exists b2. split; [done|]. split; [split; try done|].
  - rewrite Z2. eapply has_frame; [|exact F2|left; rewrite zlen_le_bytes; lia]. by rewrite Z1.
  - cbn. eapply has_frame; [|exact F2|right; lia]. eapply has_at; [exact L1|lia].
  - change (zlen (bytes_of [])) with 0. lia.
  - lia.
  - eapply kept_trans; [eapply kept_sub; [exact K1|lia|lia]|]. eapply kept_frame; [exact F2|lia..].
Qed.

Lemma make_room_next b p e next rest prev s : ending b p (next :: rest) -> chained prev (next :: rest) ->
  zlen b + rlen e + 8 + 4 * zlen rest < 2 ^ 32 -> exists b',
  make_room b p (zlen b) (rlen e) s = Ret b' s /\ ready b' p e (behind (rlen e) (next :: rest)) /\ kept b b' 8 p.
Proof.
  intros Hen [_ Hch] Hz. pose proof Hen as [H1 H2 H3 H4 H5 H6 H7]. pose proof (rlen_ge e). pose proof (zlen_nonneg rest). unfold make_room.
  pose proof (Forall_inv H7) as On. rewrite bytes_cons, <- app_assoc in H4. apply has_app_1 in H4. rewrite zlen_bytes_cons in H5. pose proof (zlen_nonneg (bytes_of rest)). pose proof (rlen_ge next).
  destruct (rd_entry b p next s On H4) as (c & Ec & Ee & _). rewrite (bind_ret_eq _ _ _ _ _ Ec), Ee. cbn [negb]. rewrite (u32_id (rlen e)) by (unfold is_u32; lia).
  rewrite (bind_ret_eq _ _ _ _ _ (byte_diff_ok b p next (rlen e) s On H4)).
  set (d := diff_next (rlen e) next). pose proof (diff_range (rlen e) next) as Hd. fold d in Hd.
  assert (Er : (if (psize (negb (rlen e <? 254)) - psize (elarge next) =? -4) && (rlen e <? 4) then (0, true)
    else (psize (negb (rlen e <? 254)) - psize (elarge next), false)) = (d, elarge next && (rlen e <? 4))).
  { unfold d, diff_next, large_next. destruct (elarge next), (Z.ltb_spec (rlen e) 4), (Z.ltb_spec (rlen e) 254); cbn; (done || lia). }
  rewrite Er, u32_id by (unfold is_u32; lia). destruct (zl_resize_ok b (zlen b + rlen e + d) s) as (b1 & E1 & Z1 & B1 & L1 & K1); [lia|].
  rewrite (bind_ret_eq _ _ _ _ _ E1). assert (K : kept b b1 4 (zlen b - 1)) by (eapply kept_sub; [exact K1|lia|lia]).
  assert (P1 : has b1 p (raw next)) by (eapply has_kept; [exact H4|exact K|lia| |]; fold (rlen next); lia).
  destruct (rd_entry b1 p next s On P1) as (c' & Ec' & Ee' & _). rewrite (bind_ret_eq _ _ _ _ _ Ec'), Ee'. cbn [negb].
  destruct (open_gap_ok b b1 p next rest (rlen e) s Hen Z1 ltac:(fold d; lia) ltac:(lia) ltac:(by rewrite Z1) ltac:(by rewrite Z1) K) as (b2 & E2 & Hen2 & K2).
  fold d in E2. rewrite (bind_ret_eq _ _ _ _ _ E2). cbn [behind]. set (next' := with_prev next (large_next (rlen e) next) (rlen e)) in *.
  pose proof (en_size _ _ _ Hen2) as Z2. rewrite zlen_bytes_cons in Z2. assert (Rn : rlen next' = rlen next + d) by apply rlen_diff.
  destruct (Z.eqb_spec d 0) as [Ed|Ed]; cbn [negb].
  - exists b2. split; [done|]. split; [|done]. rewrite mend_same by (rewrite Rn, Ed, Z.add_0_r; exact Hch). by apply ready_ending.
  - destruct (cascade_ok b2 (p + rlen e) next' rest s Hen2) as (b3 & E3 & Hen3 & K3); [lia|]. exists b3. split; [exact E3|].
    split; [by apply ready_ending|]. eapply kept_trans; [exact K2|]. eapply kept_sub; [exact K3|lia|lia].
Qed.

(** The header's count once there is one more. *)
Definition more (n : Z) : Z := if n <? 65535 then n + 1 else n.
(** The part of an insertion that knows the value. *)
Lemma insert_value_ok b es1 es2 n u sb slen s (e := new_ent (back 0 es1) u) (p := 10 + zlen (bytes_of es1)) : zl_ok b (es1 ++ es2) n ->
  value_ok u -> text_len u slen -> match u with ZStr t => has sb 0 t | ZInt _ => True end -> zlen b + rlen e + 8 + 4 * zlen es2 < 2 ^ 32 -> exists b',
  (let* (_, k) := zipStorePrevEntryLength b None (back 0 es1) in
   let* (_, m) := zipStoreEntryEncoding b None (new_code u) slen in
   let reqlen := zlen (data_of u) + k + m in
   let* b := make_room b p (zlen b) reqlen in
   write_entry b p (back 0 es1) sb slen (new_value u) (new_code u)) s = Ret b' s /\
  zl_ok b' (es1 ++ e :: behind (rlen e) es2) (more n).
Proof.
  intros Hzl Hu Hl Hs Hz. pose proof Hzl as [Hen _ _ Hch]. destruct (ending_split _ _ _ _ Hen) as (_ & P2 & _ & O2 & Z2). apply chained_app in Hch as [_ Hch].
  rewrite (bind_ret_eq _ _ _ _ _ (prevlen_size b _ s)), (bind_ret_eq _ _ _ _ _ (encoding_size u b slen s Hu Hl)).
  replace (zlen (data_of u) + psize (negb (back 0 es1 <? 254)) + zlen (header_of u)) with (rlen e) by (rewrite rlen_eq; unfold e; cbn; lia).
  pose proof (zlen_nonneg (bytes_of es1)). pose proof (rlen_ge e). pose proof (zlen_nonneg es2).
  assert (Hroom : exists b', make_room b p (zlen b) (rlen e) s = Ret b' s /\ ready b' p e (behind (rlen e) es2) /\ kept b b' 8 p).
  { destruct es2 as [|next rest].
    - change (zlen (bytes_of [])) with 0 in Z2. change (zlen (@nil ent)) with 0 in Hz. apply make_room_end; [lia|exact P2|unfold p; lia|lia].
    - apply (make_room_next b p e next rest (back 0 es1)); [by apply ending_later|exact Hch|]. rewrite zlen_cons in Hz. lia. }
  destruct Hroom as (b1 & E1 & R1 & K1). rewrite (bind_ret_eq _ _ _ _ _ E1).
  eapply zl_fill_ok; try done; [by eapply behind_chained|apply zlen_behind].
Qed.

Lemma zl_insert_ok b es1 es2 n t junk s (e := new_ent (back 0 es1) (value_of t)) : zl_ok b (es1 ++ es2) n -> Forall is_u8 t ->
  zlen b + rlen e + 8 + 4 * zlen es2 < 2 ^ 32 -> exists b',
  __ziplistInsert b (10 + zlen (bytes_of es1)) ((Some <$> t) ++ junk) (zlen t) s = Ret b' s /\
  zl_ok b' (es1 ++ e :: behind (rlen e) es2) (more n).
Proof.
  intros Hzl Ht Hz. pose proof (zl_ending _ _ _ Hzl) as Hen. pose proof (en_small _ _ _ Hen). unfold __ziplistInsert, ZIPLIST_BYTES.
  rewrite (bind_ret_eq _ _ _ _ _ (load4 _ _ _ _ (en_bytes _ _ _ Hen) ltac:(pose proof (zlen_nonneg b); lia))), (bind_ret_eq _ _ _ _ _ (prevlen_at_ok b es1 es2 n s Hzl)).
  rewrite (bind_ret_eq _ _ _ _ _ (try_encoding_ok t junk s)). assert (Htx : has ((Some <$> t) ++ junk) 0 t) by apply has_text.
  destruct (value_of_cases t) as [(v & Ev & Hv)|Ev].
  - unfold e in *. rewrite Ev in *. rewrite (bind_ret_eq _ _ _ _ _ (zipIntSize_eq v s Hv)). rewrite <- (zlen_le_bytes (int_size v) v).
    by apply (insert_value_ok b es1 es2 n (ZInt v)).
  - unfold e in *. rewrite Ev in *. apply (insert_value_ok b es1 es2 n (ZStr t)); try done. split; [done|]. rewrite rlen_eq in Hz. cbn in Hz.
    pose proof (zlen_header (ZStr t)). pose proof (zlen_nonneg b). pose proof (zlen_nonneg es2). cbn in *. destruct (back 0 es1 <? 254); cbn in *; lia.
Qed.
End insert.
