(* ===== verification/ZlDelete.v ===== *)
(** Deletion from a ziplist. *)
From S2P Require Import Prelude Intset IntsetProofs Util Ziplist ZlMem ZlEntry ZlList ZlCascade ZlInsert.
#[local] Open Scope Z_scope.
Implicit Types (e first next : ent) (es rest : list ent) (b : buf) (u : zvalue).

Section delete.
Context {S : Type}.
Implicit Types (s : S).

(** ** How many go *)
Lemma count_loop num n : forall es p i b s, (length es < n)%nat -> has b p (bytes_of es ++ [255]) -> Forall ent_ok es -> 0 <= i <= num -> i + zlen es < 2 ^ 32 ->
  while_loop n (count_turn b num) (p, i) s =
  Ret (p + zlen (bytes_of (take (Z.to_nat (num - i)) es)), i + zlen (take (Z.to_nat (num - i)) es)) s.
Proof.
  induction n as [|n IH]; intros es p i b s Hn Hh Ho Hi Hz; [lia|]. cbn [while_loop]. unfold count_turn at 1. destruct es as [|e es].
  - rewrite bind_assoc, (bind_ret_eq _ _ _ _ _ (rd_end b p s Hh)). rewrite take_nil. change (zlen (bytes_of [])) with 0. change (zlen (@nil ent)) with 0.
    by rewrite !Z.add_0_r.
  - apply Forall_cons in Ho as [He Ho]. rewrite bytes_cons, <- app_assoc in Hh. pose proof (has_app_1 _ _ _ _ Hh) as Hr. apply has_app_2 in Hh. fold (rlen e) in Hh.
    destruct (rd_entry b p e s He Hr) as (c & Ec & Ee & _). rewrite bind_assoc, (bind_ret_eq _ _ _ _ _ Ec), Ee. rewrite zlen_cons in Hz. pose proof (zlen_nonneg es).
    destruct (Z.ltb_spec i num) as [Hlt|Hge].
    + rewrite bind_assoc, (bind_ret_eq _ _ _ _ _ (raw_length_ok b p e s He Hr)). unfold ret at 1, bind at 1. rewrite u32_id by (unfold is_u32; lia).
      cbn in Hn. rewrite (IH es) by (try done; lia). replace (Z.to_nat (num - i)) with (Datatypes.S (Z.to_nat (num - (i + 1)))) by lia. cbn [take].
      rewrite zlen_bytes_cons, zlen_cons. do 2 f_equal; lia.
    + replace (Z.to_nat (num - i)) with 0%nat by lia. rewrite take_0. change (zlen (bytes_of [])) with 0. change (zlen (@nil ent)) with 0. by rewrite !Z.add_0_r.
Qed.

Lemma decr_counts n es1 del es2 : counts n (es1 ++ del ++ es2) -> n < 65535 -> u16 (n - zlen del) = zlen (es1 ++ es2).
Proof.
  intros [H0 H1] Hn. specialize (H1 Hn). rewrite !zlen_app in *. unfold u16. pose proof (zlen_nonneg es1). pose proof (zlen_nonneg es2). pose proof (zlen_nonneg del).
  rewrite Z.mod_small; lia.
Qed.

(** The tail of what is in front. *)
Lemma tail_back p es : p + zlen (bytes_of es) - back 0 es = tail_at p es.
Proof.
  destruct es as [|e es _] using rev_ind; [change (zlen (bytes_of [])) with 0; cbn; lia|]. rewrite back_snoc, tail_app by done. cbn.
  rewrite bytes_app, zlen_app, zlen_bytes_cons. change (zlen (bytes_of [])) with 0. lia.
Qed.

Lemma ending_join b p es1 es2 : ending b (p + zlen (bytes_of es1)) es2 -> es2 <> [] -> 10 <= p -> has b p (bytes_of es1) -> Forall ent_ok es1 -> ending b p (es1 ++ es2).
Proof.
  intros [H1 H2 H3 H4 H5 H6 H7] Hne Hp Hh Ho. split; try done.
  - by rewrite tail_app.
  - rewrite bytes_app, <- app_assoc. by apply has_app.
  - rewrite bytes_app, zlen_app. lia.
  - by apply Forall_app.
Qed.

(** ** What is behind moves up *)
Definition closer (prev : Z) next : ent := with_prev next (negb (prev <? 254)) prev.

Lemma close_gap_ok b p0 del next rest prev s (p := p0 + zlen (bytes_of del)) (d := psize (negb (prev <? 254)) - psize (elarge next)) :
  ending b p (next :: rest) -> 10 <= p0 -> 0 <= prev < 2 ^ 32 -> 2 <= zlen (bytes_of del) -> d <= zlen (bytes_of del) -> exists b',
  (let* (b, _) := zipStorePrevEntryLength b (Some (p - d)) prev in
   let* b := close_tail b (p - d) (zlen (bytes_of del)) d in
   let* n := ZIPLIST_BYTES b in
   let* b := memmove b p0 (p - d) (n - (p - d) - 1) in
   ret (b, d)) s = Ret (b', d) s /\ zlen b' = zlen b /\ has b' 0 (le_bytes 4 (zlen b)) /\
  has b' 4 (le_bytes 4 (tail_at p0 (closer prev next :: rest))) /\ has b' p0 (bytes_of (closer prev next :: rest)) /\ kept b b' 8 p0.
Proof.
  intros [H1 H2 H3 H4 H5 H6 H7] Hp Hprev Hd Hdd. set (t := zlen (bytes_of del)) in *. assert (Et : t = zlen (bytes_of del)) by done. assert (Ep : p = p0 + t) by done.
  assert (Ed : d = psize (negb (prev <? 254)) - psize (elarge next)) by done. set (large := negb (prev <? 254)) in *.
  assert (Rp : forall x, 1 <= psize x <= 5) by (intros []; cbn; lia). pose proof (Rp large) as Rl. pose proof (Rp (elarge next)) as Re. clear Rp.
  set (next' := closer prev next). assert (Rn : rlen next' = rlen next + d) by (rewrite !rlen_eq; cbn; fold large; lia).
  pose proof (Forall_inv H7) as On. pose proof (Forall_inv_tail H7) as Or. pose proof (zlen_bytes_cons next rest) as Zc. pose proof (zlen_nonneg (bytes_of rest)) as Zr.
  pose proof (rlen_ge next) as Rg. pose proof (rlen_ge next') as Rg'. destruct (entry_rest _ _ _ _ H4) as [Hl Zl]. set (l := body (eval next) ++ bytes_of rest) in *.
  assert (Hend : has b (zlen b - 1) [255]) by (apply has_app_2 in H4; eapply has_at; [exact H4|lia]).
  pose proof (zlen_nonneg l).
  destruct (store_prevlen_ok b (p - d) prev s) as (b1 & E1 & P1 & F1); [lia|fold large; lia|lia|]. fold large in E1, P1, F1. rewrite (bind_ret_eq _ _ _ _ _ E1).
  pose proof (proj1 F1) as Z1. replace (p - d + psize large) with (p + psize (elarge next)) in F1 by lia.
  assert (L1 : has b1 (p - d) (bytes_of (next' :: rest) ++ [255])).
  { rewrite bytes_cons. unfold raw. cbn [elarge eprev eval next' closer with_prev]. rewrite <- !app_assoc. apply has_app. split; [exact P1|].
    rewrite zlen_prev_bytes, app_assoc. fold l. fold large. apply has_app. split.
    - eapply has_at; [eapply has_frame; [exact Hl|exact F1|right; lia]|lia].
    - eapply has_at; [eapply has_frame; [exact Hend|exact F1|right; lia]|lia]. }
  assert (On' : ent_ok next').
  { destruct On as (K1 & K2 & K3 & K4). split; [cbn; lia|]. split; [|split; [done|lia]]. cbn. lia. }
  pose proof (tail_bounds p (next :: rest)) as Tb.
  assert (T1 : has b1 4 (le_bytes 4 (tail_at p (next :: rest)))) by (eapply has_frame; [exact H3|exact F1|left; rewrite zlen_le_bytes; lia]).
  destruct (adjust_tail_ok b1 (p - d) next' rest _ (- t) d (fun x => p - d + u32 (headersize x + len x)) s
    ltac:(cbv beta; rewrite entry_rlen, u32_id; [done|unfold is_u32; lia]) ltac:(lia) On' L1 Or T1 ltac:(lia) ltac:(lia) ltac:(lia)) as (b2 & E2 & T2 & F2).
  assert (E2' : close_tail b1 (p - d) t d s = Ret b2 s) by exact E2. rewrite (bind_ret_eq _ _ _ _ _ E2'). pose proof (proj1 F2) as Z2.
  assert (B2 : has b2 0 (le_bytes 4 (zlen b))).
  { eapply has_frame; [eapply has_frame; [exact H2|exact F1|]|exact F2|]; rewrite zlen_le_bytes; lia. }
  unfold ZIPLIST_BYTES. rewrite (bind_ret_eq _ _ _ _ _ (load4 _ _ _ _ B2 ltac:(lia))). unfold memmove.
  assert (L2 : has b2 (p - d) (bytes_of (next' :: rest))) by (eapply has_frame; [exact (has_app_1 _ _ _ _ L1)|exact F2|right; lia]).
  pose proof (zlen_bytes_cons next' rest) as Zc'. destruct (memcpy_has b2 p0 b2 (p - d) _ s L2) as (b3 & E3 & L3 & F3); [lia|lia|].
  replace (zlen b - (p - d) - 1) with (zlen (bytes_of (next' :: rest))) by lia. rewrite (bind_ret_eq _ _ _ _ _ E3). pose proof (proj1 F3) as Z3.
  exists b3. split; [done|]. split; [lia|]. split; [|split; [|split; [exact L3|]]].
  - eapply has_frame; [exact B2|exact F3|left; rewrite zlen_le_bytes; lia].
  - eapply has_frame; [|exact F3|left; rewrite zlen_le_bytes; lia].
    assert (Ett : tail_at p0 (next' :: rest) = tail_at p (next :: rest) + - t + match rest with [] => 0 | _ => d end); [|by rewrite Ett].
    destruct rest as [|e rest]; [cbn [tail_at]; lia|]. rewrite (tail_cons _ next'), (tail_cons _ next) by done.
    replace (p0 + rlen next') with (p + rlen next + (d - t)) by lia. rewrite tail_shift by done. lia.
  - eapply kept_trans; [eapply (kept_frame b b1); [exact F1|lia..]|]. eapply kept_trans; [eapply (kept_frame b1 b2); [exact F2|lia..]|eapply (kept_frame b2 b3); [exact F3|lia..]].
Qed.

(** The block before its end is cut off. *)
Definition closed_up (prev : Z) es : list ent := match es with [] => [] | next :: rest => closer prev next :: rest end.
Record closed b b' es1 es2 : Prop := {
  cl_size : zlen b' = zlen b;
  cl_bytes : has b' 0 (le_bytes 4 (zlen b));
  cl_tail : has b' 4 (le_bytes 4 (tail_at 10 (es1 ++ closed_up (back 0 es1) es2)));
  cl_list : has b' (10 + zlen (bytes_of es1)) (bytes_of (closed_up (back 0 es1) es2));
  cl_kept : kept b b' 8 (10 + zlen (bytes_of es1))
}.
Definition closed_diff (prev : Z) es : Z := match es with [] => 0 | next :: _ => psize (negb (prev <? 254)) - psize (elarge next) end.

Lemma deleted_room prev del first : ent_ok first -> eprev first = prev -> zlen (bytes_of (first :: del)) >= 2 /\
  (psize (negb (prev <? 254)) = 5 -> zlen (bytes_of (first :: del)) >= 6).
Proof.
  intros (_ & H & _) <-. rewrite zlen_bytes_cons. pose proof (zlen_nonneg (bytes_of del)). pose proof (rlen_ge first). split; [lia|].
  rewrite rlen_eq in *. pose proof (zlen_header (eval first)). pose proof (zlen_nonneg (data_of (eval first))). intros Hs.
  destruct (elarge first); cbn [psize] in *; [lia|]. specialize (H eq_refl). destruct (Z.ltb_spec (eprev first) 254); [done|lia].
Qed.

Lemma close_ok b es1 first del es2 n s (p0 := 10 + zlen (bytes_of es1)) (t := zlen (bytes_of (first :: del))) : zl_ok b (es1 ++ (first :: del) ++ es2) n -> exists b',
  (let* c := rd b (p0 + t) in
   if negb (c =? ZIP_END) then close_gap b (entry_of p0 first) (p0 + t) t
   else let* b := set_tail_offset b (u32 (p0 - eprev first)) in ret (b, 0)) s = Ret (b', closed_diff (back 0 es1) es2) s /\ closed b b' es1 es2.
Proof.
  intros [Hen _ _ Hch]. pose proof (en_small _ _ _ Hen) as Hsm. pose proof (en_bytes _ _ _ Hen) as B. destruct (ending_split _ _ _ _ Hen) as (P1 & P2 & O1 & O2 & Hz).
  pose proof (back_range b 10 es1) as Hb. apply chained_app in Hch as [_ [Hf Hch]]. apply Forall_app in O2 as [Od O2]. pose proof (Forall_inv Od) as Of.
  destruct (deleted_room _ del first Of Hf) as [Hr Hr']. fold t in Hr, Hr'. rewrite bytes_app, zlen_app in Hz. fold t in Hz. pose proof (zlen_nonneg (bytes_of es1)).
  pose proof (zlen_nonneg (bytes_of es2)). rewrite bytes_app, <- app_assoc in P2. apply has_app_2 in P2. fold t p0 in P2.
  assert (Hprev : 0 <= back 0 es1 < 2 ^ 32) by (rewrite <- Hf; apply Of). destruct es2 as [|next rest].
  - rewrite (bind_ret_eq _ _ _ _ _ (rd_end b _ s P2)). cbn [negb Z.eqb Pos.eqb ZIP_END closed_diff]. rewrite Hf. pose proof (tail_back 10 es1) as Ht.
    pose proof (tail_bounds 10 es1). fold p0 in Ht. rewrite Ht, u32_id by (unfold is_u32; lia).
    destruct (store_has 4 b 4 (tail_at 10 es1) s) as (b1 & E1 & T1 & F1); [lia|lia|]. unfold set_tail_offset. rewrite (bind_ret_eq _ _ _ _ _ E1).
    exists b1. split; [done|]. split; [apply F1| | | |].
    + eapply has_frame; [exact B|exact F1|left; rewrite zlen_le_bytes; lia].
    + cbn [closed_up]. by rewrite app_nil_r.
    + apply has_nil. pose proof (proj1 F1). lia.
    + eapply kept_frame; [exact F1|lia..].
  - apply Forall_cons in O2 as [On O2]. pose proof P2 as Pn. rewrite bytes_cons, <- app_assoc in Pn. apply has_app_1 in Pn.
    destruct (rd_entry b _ next s On Pn) as (c & Ec & Ee & _). rewrite (bind_ret_eq _ _ _ _ _ Ec), Ee. cbn [negb closed_diff]. unfold close_gap.
    cbn [prevrawlen entry_of zp]. rewrite Hf, (bind_ret_eq _ _ _ _ _ (byte_diff_ok b _ next _ s On Pn)).
    assert (Hen2 : ending b (p0 + t) (next :: rest)) by (rewrite app_assoc in Hen; apply ending_later in Hen; [|done]; unfold p0, t; by rewrite bytes_app, zlen_app, Z.add_assoc in Hen).
    destruct (close_gap_ok b p0 (first :: del) next rest (back 0 es1) s Hen2) as (b' & E & Z' & B' & T' & L' & K'); [lia|lia|fold t; lia| |].
    { fold t. destruct (negb (back 0 es1 <? 254)), (elarge next); cbn [psize] in *; lia. }
    exists b'. split; [exact E|]. split; try done. cbn [closed_up]. by rewrite tail_app.
Qed.

(** What becomes of the entries behind those that go. *)
Definition closing (prev : Z) es : list ent :=
  match es with [] => [] | next :: rest => closer prev next :: mend (rlen (closer prev next)) rest end.
Definition fewer (n k : Z) : Z := if n <? 65535 then n - k else n.

Lemma closing_chained x prev es : chained x es -> chained prev (closing prev es).
Proof. destruct es as [|next rest]; [done|]. intros [_ H]. split; [done|]. apply mend_chained. destruct rest; [done|]. by destruct H. Qed.
Lemma closing_values prev es : eval <$> closing prev es = eval <$> es.
Proof. destruct es as [|next rest]; [done|]. cbn. by rewrite mend_values. Qed.
Lemma zlen_closed prev es : zlen (bytes_of (closed_up prev es)) = zlen (bytes_of es) + closed_diff prev es.
Proof. destruct es as [|next rest]; [done|]. cbn [closed_up closed_diff]. rewrite !zlen_bytes_cons, !rlen_eq. cbn. lia. Qed.
Lemma closed_up_ok prev p0 b es : Forall ent_ok es -> 0 <= prev < 2 ^ 32 -> has b p0 (bytes_of (closed_up prev es)) -> zlen b < 2 ^ 32 -> Forall ent_ok (closed_up prev es).
Proof.
  intros Ho Hp Hh Hz. destruct es as [|next rest]; [done|]. apply Forall_cons in Ho as [(H1 & H2 & H3 & H4) Ho]. constructor; [|done].
  pose proof (has_bounds _ _ _ Hh) as Hb. cbn [closed_up] in Hb. rewrite zlen_bytes_cons in Hb. pose proof (zlen_nonneg (bytes_of rest)).
  split; [cbn; lia|]. split; [cbn; lia|]. split; [done|lia].
Qed.

(** The block is cut and the header's count made smaller. *)
Lemma cut_ok b b1 es1 del es2 n s (t := zlen (bytes_of del)) : zl_ok b (es1 ++ del ++ es2) n -> closed b b1 es1 es2 ->
  closed_diff (back 0 es1) es2 <= t -> exists b',
  (let* b := ziplistResize b1 (u32 (zlen b - t + closed_diff (back 0 es1) es2)) in ZIPLIST_INCR_LENGTH b (- zlen del)) s = Ret b' s /\
  ending b' 10 (es1 ++ closed_up (back 0 es1) es2) /\ has b' 8 (le_bytes 2 (fewer n (zlen del))) /\ zlen b' <= zlen b.
Proof.
  intros [Hen Hc Hn Hch] [C1 C2 C3 C4 C5] Hd'. set (d := closed_diff (back 0 es1) es2) in *. pose proof (en_small _ _ _ Hen) as Hsm.
  destruct (ending_split _ _ _ _ Hen) as (P1 & P2 & O1 & O2 & Hz). apply Forall_app in O2 as [_ O2]. rewrite bytes_app, zlen_app in Hz. fold t in Hz.
  pose proof (zlen_closed (back 0 es1) es2) as Zc. fold d in Zc. pose proof (zlen_nonneg (bytes_of es1)) as Z0. pose proof (zlen_nonneg (bytes_of (closed_up (back 0 es1) es2))) as Z0'.
  set (es2' := closed_up (back 0 es1) es2) in *. assert (Hp : 0 <= back 0 es1 < 2 ^ 32).
  { unfold back. destruct (last es1) as [x|] eqn:El; [|lia]. apply last_Some_elem_of in El. rewrite Forall_forall in O1. destruct (O1 x El) as (_ & _ & _ & H'). pose proof (rlen_ge x). lia. }
  assert (O2' : Forall ent_ok es2') by (eapply closed_up_ok; [done..|exact C4|lia]).
  destruct (zl_resize_ok b1 (zlen b - t + d) s) as (b2 & E2 & Z2 & B2 & L2 & K2); [lia|]. rewrite u32_id by (unfold is_u32; lia). rewrite (bind_ret_eq _ _ _ _ _ E2).
  rewrite Z.min_l in K2 by lia. assert (K : kept b b2 8 (10 + zlen (bytes_of es1))) by (eapply kept_trans; [exact C5|eapply kept_sub; [exact K2|lia|lia]]).
  assert (Hc2 : has b2 8 (le_bytes 2 n)) by (eapply has_kept; [exact Hc|exact K|lia| |]; rewrite zlen_le_bytes; lia).
  destruct (incr_length_ok b2 n (- zlen del) s Hc2 (proj1 Hn)) as (b3 & E3 & Hc3 & F3). exists b3. pose proof (proj1 F3) as Z3. split; [exact E3|].
  assert (Hout : forall off x, has b2 off x -> off + zlen x <= 8 \/ 10 <= off -> has b3 off x) by (intros off x Hx Ho; eapply has_frame; [exact Hx|exact F3|exact Ho]).
  split; [split; [lia| | | | |lia|by apply Forall_app]|split; [|lia]].
  - rewrite Z3. apply Hout; [by rewrite Z2|rewrite zlen_le_bytes; lia].
  - apply Hout; [|rewrite zlen_le_bytes; lia]. eapply has_kept; [exact C3|exact K2|lia| |]; rewrite zlen_le_bytes; lia.
  - rewrite bytes_app, <- app_assoc. apply Hout; [|lia]. apply has_app. split; [eapply has_kept; [exact P1|exact K|lia..]|].
    apply has_app. split; [eapply has_kept; [exact C4|exact K2|lia..]|]. eapply has_at; [exact L2|lia].
  - rewrite bytes_app, zlen_app. lia.
  - unfold fewer. destruct (Z.ltb_spec n 65535) as [Hlt|]; [|done]. pose proof (decr_counts _ _ _ _ Hn Hlt) as Hu. destruct Hn as [H0 Hn]. specialize (Hn Hlt).
    rewrite !zlen_app in *. change (n + - zlen del) with (n - zlen del) in Hc3. rewrite Hu in Hc3. replace (n - zlen del) with (zlen es1 + zlen es2) by lia. done.
Qed.

Lemma closed_diff_range prev es : -4 <= closed_diff prev es <= 4 /\ (0 < closed_diff prev es -> psize (negb (prev <? 254)) = 5).
Proof. unfold closed_diff. destruct es as [|e es]; [done|]. by destruct (negb (prev <? 254)), (elarge e). Qed.
Lemma counts_fewer n es1 del es2 : counts n (es1 ++ del ++ es2) -> counts (fewer n (zlen del)) (es1 ++ closing (back 0 es1) es2).
Proof.
  intros [H0 H1]. pose proof (f_equal zlen (closing_values (back 0 es1) es2)) as Hv. rewrite !zlen_fmap in Hv. rewrite !zlen_app in H1. unfold fewer, counts.
  rewrite zlen_app, Hv. pose proof (zlen_nonneg es1). pose proof (zlen_nonneg es2). pose proof (zlen_nonneg del). destruct (Z.ltb_spec n 65535); lia.
Qed.
(** The update runs when the entry behind has changed its length. *)
Lemma delete_mend b es1 del es2 n s : ending b 10 (es1 ++ closed_up (back 0 es1) es2) -> has b 8 (le_bytes 2 n) -> counts n (es1 ++ closing (back 0 es1) es2) ->
  chained 0 (es1 ++ del ++ es2) -> zlen b + 4 * zlen es2 < 2 ^ 32 -> exists b',
  (if negb (closed_diff (back 0 es1) es2 =? 0) then __ziplistCascadeUpdate b (10 + zlen (bytes_of es1)) else ret b) s = Ret b' s /\
  zl_ok b' (es1 ++ closing (back 0 es1) es2) n.
Proof.
  intros Hen Hc Hn Hch Hz. apply chained_app in Hch as [Hch1 [_ Hch]%chained_app]. assert (Hch' : chained 0 (es1 ++ closing (back 0 es1) es2)).
  { apply chained_app. split; [done|]. by eapply closing_chained. }
  destruct (ending_split _ _ _ _ Hen) as (P1 & _ & O1 & _). destruct es2 as [|next rest]; [by exists b|].
  cbn [closed_diff closing closed_up] in *. set (next' := closer (back 0 es1) next) in *. destruct (Z.eqb_spec (psize (negb (back 0 es1 <? 254)) - psize (elarge next)) 0) as [Ed|Ed]; cbn [negb].
  - exists b. split; [done|]. rewrite mend_same in *; [by split|..]; destruct Hch as [_ Hch]; (replace (rlen next') with (rlen next) by (rewrite !rlen_eq; cbn; lia)); done.
  - pose proof (ending_later _ _ _ _ Hen ltac:(done)) as Hen2. rewrite zlen_cons in Hz. destruct (cascade_ok b _ next' rest s Hen2) as (b' & E & Hen' & K); [lia|].
    exists b'. split; [exact E|]. pose proof (zlen_nonneg (bytes_of es1)). pose proof (en_size _ _ _ Hen') as Zs. pose proof (zlen_nonneg (bytes_of (next' :: mend (rlen next') rest))).
    split; try done; [apply ending_join; try done|]; (eapply has_kept; [eassumption|exact K|lia|rewrite ?zlen_le_bytes; lia|rewrite ?zlen_le_bytes; lia]).
Qed.

Lemma delete_ok b es1 first del es2 n num s : zl_ok b (es1 ++ (first :: del) ++ es2) n -> take (Z.to_nat num) ((first :: del) ++ es2) = first :: del ->
  0 <= num -> zlen b + 4 * zlen es2 < 2 ^ 32 -> exists b',
  __ziplistDelete b (10 + zlen (bytes_of es1)) num s = Ret b' s /\ zl_ok b' (es1 ++ closing (back 0 es1) es2) (fewer n (zlen (first :: del))).
Proof.
  intros Hzl Htake Hnum Hz. pose proof Hzl as [Hen _ Hn Hch]. destruct (ending_split _ _ _ _ Hen) as (P1 & P2 & O1 & O2 & Hsz). pose proof (en_small _ _ _ Hen) as Hsm.
  set (p0 := 10 + zlen (bytes_of es1)) in *. set (t := zlen (bytes_of (first :: del))) in *. unfold __ziplistDelete. pose proof (zlen_nonneg (bytes_of es1)) as Z1.
  apply Forall_app in O2 as [Od O2]. pose proof (Forall_inv Od) as Of. pose proof P2 as Pf. cbn [app] in Pf. rewrite bytes_cons, <- app_assoc in Pf. apply has_app_1 in Pf.
  rewrite (bind_ret_eq _ _ _ _ _ (entry_ok b p0 first s Of Pf)).
  pose proof (zlen_bytes_ge ((first :: del) ++ es2)) as Hge. pose proof (zlen_nonneg ((first :: del) ++ es2)).
  rewrite (bind_ret_eq _ _ _ _ _ (count_loop num (list_turns b) ((first :: del) ++ es2) p0 0 b s ltac:(unfold list_turns, zlen in *; lia) P2 ltac:(by apply Forall_app) ltac:(lia) ltac:(lia))).
  rewrite Z.sub_0_r, Htake, Z.add_0_l. fold t. cbn [zp entry_of prevrawlen]. rewrite bytes_app, zlen_app in Hsz. fold t in Hsz.
  pose proof Hch as Hch'. apply chained_app in Hch' as [Hch1 [Hf Hch2]]. destruct (deleted_room _ del first Of Hf) as [Hr Hr']. fold t in Hr, Hr'.
  pose proof (zlen_nonneg (bytes_of es2)). replace (p0 + t - p0) with t by lia. rewrite u32_id by (unfold is_u32; lia). rewrite (proj2 (Z.ltb_lt _ _)) by lia.
  destruct (close_ok b es1 first del es2 n s Hzl) as (b1 & E1 & C1). fold p0 t in E1. rewrite <- bind_assoc, (bind_ret_eq _ _ _ _ _ E1).
  unfold ZIPLIST_BYTES. rewrite (bind_ret_eq _ _ _ _ _ (load4 _ _ _ _ (cl_bytes _ _ _ _ C1) ltac:(pose proof (zlen_nonneg b); lia))).
  destruct (closed_diff_range (back 0 es1) es2) as [Hd1 Hd2].
  destruct (cut_ok b b1 es1 (first :: del) es2 n s Hzl C1) as (b2 & E2 & Hen2 & Hc2 & Z2); [fold t; lia|].
  rewrite <- bind_assoc, (bind_ret_eq _ _ _ _ _ E2). pose proof (counts_fewer _ _ _ _ Hn) as Hn2.
  destruct (delete_mend b2 es1 (first :: del) es2 _ s Hen2 Hc2 Hn2 Hch) as (b3 & E3 & H3); [lia|]. by exists b3.
Qed.
End delete.
