(* ===== verification/ZlAccess.v ===== *)
(** Reading a ziplist: walking in both directions, indexing, fetching, comparing,
    searching and counting. Merging two of them. *)
From S2P Require Import Prelude Intset IntsetProofs Util Ziplist ZlMem ZlEntry ZlList ZlCascade ZlInsert ZlDelete.
#[local] Open Scope Z_scope.
Implicit Types (e next : ent) (es rest : list ent) (b : buf) (u : zvalue) (t : list Z).

(** The offset of the entry with [k] in front of it. *)
Definition pos es (k : nat) : Z := 10 + zlen (bytes_of (take k es)).
Lemma pos_split es1 es2 : pos (es1 ++ es2) (length es1) = 10 + zlen (bytes_of es1).
Proof. unfold pos. by rewrite take_app_length. Qed.
Lemma pos_0 es : pos es 0 = 10.
Proof. done. Qed.
Lemma pos_step es k e : es !! k = Some e -> pos es (Datatypes.S k) = pos es k + rlen e.
Proof. intros H. unfold pos. rewrite (take_S_r _ _ _ H), bytes_app, zlen_app, zlen_bytes_cons. change (zlen (bytes_of [])) with 0. lia. Qed.
Lemma pos_end es k : (length es <= k)%nat -> pos es k = 10 + zlen (bytes_of es).
Proof. intros H. unfold pos. by rewrite take_ge. Qed.

Section access.
Context {S : Type}.
Implicit Types (s : S).

Section walk.
Variables (b : buf) (es : list ent) (n : Z).
Hypothesis Hzl : zl_ok b es n.

Lemma walk_entry k e : es !! k = Some e -> has b (pos es k) (raw e) /\ ent_ok e.
Proof.
  intros Hk. destruct (zl_ending _ _ _ Hzl) as [_ _ _ H4 _ _ H7]. split; [|by eapply Forall_lookup_1]. rewrite <- (take_drop_middle _ _ _ Hk) in H4.
  rewrite bytes_app, bytes_cons, <- !app_assoc in H4. apply has_app_2, has_app_1 in H4. exact H4.
Qed.
Lemma walk_end k : es !! k = None -> has b (pos es k) [255].
Proof. intros Hk. apply lookup_ge_None in Hk. rewrite pos_end by done. destruct (zl_ending _ _ _ Hzl) as [_ _ _ H4 _ _ _]. by apply has_app_2 in H4. Qed.
Lemma walk_rd k s : exists c, rd b (pos es k) s = Ret c s /\ (c =? ZIP_END) = match es !! k with Some _ => false | None => true end.
Proof.
  destruct (es !! k) as [e|] eqn:Hk; [|exists ZIP_END; split; [by apply rd_end, walk_end|done]]. destruct (walk_entry k e Hk) as [H1 H2].
  destruct (rd_entry b _ e s H2 H1) as (c & E & Ee & _). by exists c.
Qed.
Lemma walk_length k e s : es !! k = Some e -> zipRawEntryLength b (pos es k) s = Ret (rlen e) s.
Proof. intros [H1 H2]%walk_entry. by apply raw_length_ok. Qed.
Lemma chained_back es1 e es2 prev : chained prev (es1 ++ e :: es2) -> eprev e = back prev es1.
Proof. intros [_ [H _]]%chained_app. done. Qed.
Lemma walk_back k e : es !! k = Some e -> eprev e = match k with O => 0 | Datatypes.S k => pos es (Datatypes.S k) - pos es k end.
Proof.
  intros Hk. pose proof (zl_chained _ _ _ Hzl) as Hch. rewrite <- (take_drop_middle _ _ _ Hk) in Hch. apply chained_back in Hch. rewrite Hch.
  destruct k as [|k]; [done|]. assert (Hlt : (k < length es)%nat) by (apply lookup_lt_Some in Hk; lia). destruct (lookup_lt_is_Some_2 _ _ Hlt) as [e' He'].
  rewrite (pos_step _ _ _ He'), (take_S_r _ _ _ He'), back_snoc. lia.
Qed.
Lemma walk_prevlen k e s : es !! k = Some e -> ZIP_DECODE_PREVLEN b (pos es k) s = Ret (psize (elarge e), eprev e) s.
Proof. intros [H1 H2]%walk_entry. by apply prevlen_ok. Qed.
Lemma pos_gt k e : es !! k = Some e -> pos es k < pos es (Datatypes.S k).
Proof. intros H. rewrite (pos_step _ _ _ H). pose proof (rlen_ge e). lia. Qed.
Lemma few_entries : zlen es < 2 ^ 31 /\ (length es < list_turns b)%nat.
Proof.
  destruct (zl_ending _ _ _ Hzl) as [_ _ _ _ H5 H6 _]. pose proof (zlen_bytes_ge es). unfold list_turns, zlen in *. lia.
Qed.
Lemma walk_tail s : ZIPLIST_ENTRY_TAIL b s = Ret (pos es (pred (length es))) s.
Proof.
  destruct (zl_ending _ _ _ Hzl) as [_ _ H3 _ H5 H6 _]. unfold ZIPLIST_ENTRY_TAIL, ZIPLIST_TAIL_OFFSET. pose proof (tail_bounds 10 es).
  rewrite (load4 _ _ _ _ H3 ltac:(lia)). f_equal. destruct es as [|e es' _] using rev_ind; [done|]. rewrite tail_entry, length_app. cbn [length].
  replace (pred (length es' + 1)) with (length es') by lia. by rewrite pos_split.
Qed.

(** ** Indexing *)
Lemma forth_loop m : forall k i s, (length es - k < m)%nat -> (k <= length es)%nat -> 0 <= i -> exists i',
  while_loop m (forth_turn b) (pos es k, i) s = Ret (pos es (min (k + Z.to_nat i) (length es)), i') s /\ ((k + Z.to_nat i < length es)%nat -> i' = -1).
Proof.
  induction m as [|m IH]; intros k i s Hm Hkl Hi; [lia|]. cbn [while_loop]. unfold forth_turn at 1. destruct (walk_rd k s) as (c & Ec & Ee).
  rewrite bind_assoc, (bind_ret_eq _ _ _ _ _ Ec), Ee. destruct (es !! k) as [e|] eqn:Hk.
  - pose proof (lookup_lt_Some _ _ _ Hk). destruct (Z.eqb_spec i 0) as [->|Hne]; cbn [negb].
    + exists (-1). rewrite Nat.add_0_r, Nat.min_l by lia. by split.
    + rewrite bind_assoc, (bind_ret_eq _ _ _ _ _ (walk_length k e s Hk)). unfold ret at 1, bind at 1. rewrite <- (pos_step _ _ _ Hk).
      destruct (IH (Datatypes.S k) (i - 1) s) as (i' & E & H2); [lia|lia|lia|]. exists i'.
      by replace (k + Z.to_nat i)%nat with (Datatypes.S k + Z.to_nat (i - 1))%nat by lia.
  - apply lookup_ge_None in Hk. exists i. rewrite Nat.min_r by lia. replace (length es) with k by lia. split; [done|lia].
Qed.

Lemma back_loop m : forall k e i s, (k < m)%nat -> es !! k = Some e -> 0 <= i -> exists i',
  while_loop m (back_turn b) (pos es k, eprev e, i) s = Ret (pos es (k - Z.to_nat i), i') s /\ (i' <= 0 <-> i <= Z.of_nat k).
Proof.
  induction m as [|m IH]; intros k e i s Hm Hk Hi; [lia|]. cbn [while_loop]. unfold back_turn at 1. pose proof (walk_back k e Hk) as Hp.
  destruct k as [|k]; cbn in Hp.
  - rewrite Hp. cbn [Z.ltb Z.compare]. exists i. split; [done|lia].
  - pose proof (lookup_lt_Some _ _ _ Hk) as Hlt. destruct (lookup_lt_is_Some_2 es k ltac:(lia)) as [e' He']. pose proof (pos_gt k e' He').
    rewrite (proj2 (Z.ltb_lt 0 (eprev e))) by lia. destruct (Z.eqb_spec i 0) as [->|Hne]; cbn [negb].
    + exists (-1). rewrite Nat.sub_0_r. split; [done|lia].
    + replace (pos es (Datatypes.S k) - eprev e) with (pos es k) by lia. rewrite bind_assoc, (bind_ret_eq _ _ _ _ _ (walk_prevlen k e' s He')).
      unfold ret at 1, bind at 1. destruct (IH k e' (i - 1) s) as (i' & E & H2); [lia|done|lia|]. exists i'.
      replace (Datatypes.S k - Z.to_nat i)%nat with (k - Z.to_nat (i - 1))%nat by lia. split; [exact E|lia].
Qed.

(** The index of an entry, from the end when it is negative. *)
Definition entry_index (i : Z) : option nat :=
  let k := if i <? 0 then zlen es + i else i in if (0 <=? k) && (k <? zlen es) then Some (Z.to_nat k) else None.
Lemma index_ok i s : - 2 ^ 31 < i < 2 ^ 31 -> ziplistIndex b i s = Ret (pos es <$> entry_index i) s.
Proof.
  intros Hi. pose proof few_entries as [Hf Ht]. unfold ziplistIndex, entry_index. destruct (Z.ltb_spec i 0) as [Hn|Hn].
  - replace (i32 (- i)) with (- i) by (unfold i32; rewrite Z.mod_small; lia). rewrite bind_assoc, (bind_ret_eq _ _ _ _ _ (walk_tail s)).
    destruct (walk_rd (pred (length es)) s) as (c & Ec & Ee). rewrite bind_assoc, (bind_ret_eq _ _ _ _ _ Ec), Ee.
    destruct (es !! pred (length es)) as [e|] eqn:Hk; cbn [negb].
    + pose proof (lookup_lt_Some _ _ _ Hk). rewrite bind_assoc, (bind_ret_eq _ _ _ _ _ (walk_prevlen _ e s Hk)).
      destruct (back_loop (list_turns b) (pred (length es)) e (- i - 1) s ltac:(lia) Hk ltac:(lia)) as (i' & E & H2). rewrite (bind_ret_eq _ _ _ _ _ E).
      destruct (walk_rd (pred (length es) - Z.to_nat (- i - 1)) s) as (c' & Ec' & Ee'). rewrite (bind_ret_eq _ _ _ _ _ Ec'), Ee'.
      destruct (lookup_lt_is_Some_2 es (pred (length es) - Z.to_nat (- i - 1)) ltac:(lia)) as [e' ->]. cbn [orb]. unfold zlen in *.
      destruct (Z.ltb_spec 0 i'), (Z.leb_spec 0 (Z.of_nat (length es) + i)), (Z.ltb_spec (Z.of_nat (length es) + i) (Z.of_nat (length es))); try lia; cbn; [done|].
      unfold ret. do 3 f_equal. lia.
    + apply lookup_ge_None in Hk. unfold ret at 1, bind at 1. rewrite (bind_ret_eq _ _ _ _ _ Ec), Ee. cbn [orb].
      rewrite (proj2 (Z.leb_gt _ _)); [done|]. unfold zlen. lia.
  - destruct (forth_loop (list_turns b) 0 i s ltac:(lia) ltac:(lia) Hn) as (i' & E & H2). change ZIPLIST_ENTRY_HEAD with (pos es 0).
    rewrite (bind_ret_eq _ _ _ _ _ E). cbn [Nat.add] in *. destruct (walk_rd (min (Z.to_nat i) (length es)) s) as (c & Ec & Ee). rewrite (bind_ret_eq _ _ _ _ _ Ec), Ee.
    unfold zlen in *. rewrite (proj2 (Z.leb_le 0 i) Hn). cbn [andb]. destruct (Z.ltb_spec i (Z.of_nat (length es))).
    + rewrite Nat.min_l by lia. destruct (lookup_lt_is_Some_2 es (Z.to_nat i) ltac:(lia)) as [e' ->]. rewrite H2 by lia. done.
    + rewrite (lookup_ge_None_2 es) by lia. done.
Qed.

(** ** The next and the previous entry *)
Lemma next_ok k s : (k <= length es)%nat -> ziplistNext b (pos es k) s = Ret (if decide (k + 1 < length es)%nat then Some (pos es (k + 1)) else None) s.
Proof.
  intros Hl. unfold ziplistNext. destruct (walk_rd k s) as (c & Ec & Ee). rewrite (bind_ret_eq _ _ _ _ _ Ec), Ee. destruct (es !! k) as [e|] eqn:Hk.
  - rewrite (bind_ret_eq _ _ _ _ _ (walk_length k e s Hk)), <- (pos_step _ _ _ Hk). destruct (walk_rd (Datatypes.S k) s) as (c' & Ec' & Ee').
    rewrite (bind_ret_eq _ _ _ _ _ Ec'), Ee'. rewrite Nat.add_1_r. case_decide as Hd.
    + by destruct (lookup_lt_is_Some_2 es _ Hd) as [e' ->].
    + by rewrite (lookup_ge_None_2 es) by lia.
  - apply lookup_ge_None in Hk. rewrite decide_False by lia. done.
Qed.
Lemma prev_ok k s : (k <= length es)%nat -> ziplistPrev b (pos es k) s = Ret (match k with O => None | Datatypes.S k => Some (pos es k) end) s.
Proof.
  intros Hl. unfold ziplistPrev. destruct (walk_rd k s) as (c & Ec & Ee). rewrite (bind_ret_eq _ _ _ _ _ Ec), Ee. destruct (es !! k) as [e|] eqn:Hk.
  - destruct k as [|k]; [done|]. pose proof (lookup_lt_Some _ _ _ Hk). destruct (lookup_lt_is_Some_2 es k ltac:(lia)) as [e' He']. pose proof (pos_gt k e' He').
    assert (10 <= pos es k) by (unfold pos; pose proof (zlen_nonneg (bytes_of (take k es))); lia).
    unfold ZIPLIST_ENTRY_HEAD, ZIPLIST_HEADER_SIZE. rewrite (proj2 (Z.eqb_neq _ 10)) by lia. rewrite (bind_ret_eq _ _ _ _ _ (walk_prevlen _ e s Hk)).
    pose proof (walk_back _ e Hk) as Hp. cbn in Hp. rewrite (proj2 (Z.ltb_lt _ _)) by lia. rewrite Hp. unfold ret. do 2 f_equal. lia.
  - apply lookup_ge_None in Hk. assert (k = length es) as -> by lia. rewrite (bind_ret_eq _ _ _ _ _ (walk_tail s)).
    destruct (walk_rd (pred (length es)) s) as (c' & Ec' & Ee'). rewrite (bind_ret_eq _ _ _ _ _ Ec'), Ee'. destruct (length es) as [|k] eqn:El; cbn [pred].
    + by rewrite (lookup_ge_None_2 es) by lia.
    + by destruct (lookup_lt_is_Some_2 es k ltac:(lia)) as [e' ->].
Qed.

(** ** The values *)

(** A string is given by its place in the block. *)
Definition gives (r : option zlvalue) (v : option zvalue) : Prop :=
  match r, v with
  | None, None => True
  | Some (ZlString p m), Some (ZStr t) => m = zlen t /\ has b p t
  | Some (ZlInteger x), Some (ZInt y) => x = y
  | _, _ => False
  end.
Lemma walk_data k e : es !! k = Some e -> has b (pos es k + headersize (entry_of (pos es k) e)) (data_of (eval e)) /\ value_ok (eval e).
Proof. intros [H1 H2]%walk_entry. apply has_raw in H1 as (_ & _ & H1). split; [|apply H2]. cbn. by rewrite Z.add_assoc. Qed.
Lemma walk_zipEntry k e s : es !! k = Some e -> zipEntry b (pos es k) s = Ret (entry_of (pos es k) e) s.
Proof. intros [H1 H2]%walk_entry. by apply entry_ok. Qed.
Lemma zl_get_ok k s : exists r, ziplistGet b (Some (pos es k)) s = Ret r s /\ gives r (eval <$> es !! k).
Proof.
  unfold ziplistGet. destruct (walk_rd k s) as (c & Ec & Ee). rewrite (bind_ret_eq _ _ _ _ _ Ec), Ee. destruct (es !! k) as [e|] eqn:Hk; [|by exists None].
  rewrite (bind_ret_eq _ _ _ _ _ (walk_zipEntry k e s Hk)). destruct (walk_data k e Hk) as [Hd Hv]. cbn [zencoding entry_of]. rewrite (is_str_code _ Hv).
  cbn [fmap option_fmap option_map len]. destruct (eval e) as [t|v] eqn:Ev.
  - eexists. split; [reflexivity|]. split; [cbn; by rewrite Ev|exact Hd].
  - cbn [code]. rewrite (bind_ret_eq _ _ _ _ _ (load_integer_ok v b _ s Hv Hd)). eexists. split; [reflexivity|done].
Qed.
Lemma get_null s : ziplistGet b None s = Ret None s.
Proof. done. Qed.
End walk.

Lemma memcmp_same_ok b1 b2 l1 : forall l2 o1 o2 s, has b1 o1 l1 -> has b2 o2 l2 -> length l1 = length l2 ->
  memcmp_same b1 o1 b2 o2 (length l1) s = Ret (bool_decide (l1 = l2)) s.
Proof.
  induction l1 as [|x l1 IH]; intros [|y l2] o1 o2 s H1 H2 Hl; try done. cbn [length memcmp_same].
  rewrite (bind_ret_eq _ _ _ _ _ (rd_has _ _ _ _ _ H1)), (bind_ret_eq _ _ _ _ _ (rd_has _ _ _ _ _ H2)).
  apply (has_app_2 _ _ [x]) in H1. apply (has_app_2 _ _ [y]) in H2. change (zlen [x]) with 1 in H1. change (zlen [y]) with 1 in H2.
  destruct (Z.eqb_spec x y) as [->|Hne].
  - rewrite (IH l2 _ _ _ H1 H2) by (by injection Hl). f_equal. apply bool_decide_ext. split; [by intros ->|by intros [=]].
  - rewrite bool_decide_eq_false_2; [done|]. by intros [=].
Qed.

(** ** Comparing and searching *)
Section texts.
Variables (b : buf) (es : list ent) (n : Z) (ts : list (list Z)).
Hypothesis Hzl : zl_ok b es n.
Hypothesis Hts : eval <$> es = value_of <$> ts.

Lemma text_at k e : es !! k = Some e -> exists t, ts !! k = Some t /\ eval e = value_of t.
Proof.
  intros Hk. pose proof (list_lookup_fmap eval es k) as H. rewrite Hts, Hk, list_lookup_fmap in H. destruct (ts !! k) as [t|]; [|done]. exists t. by injection H as ->.
Qed.
Lemma text_none k : es !! k = None <-> ts !! k = None.
Proof. pose proof (f_equal length Hts) as H. rewrite !length_fmap in H. by rewrite !lookup_ge_None, H. Qed.

(** The bytes of a string against a text. *)
Lemma same_text t' t junk p s : has b p t' ->
  (if zlen t' =? zlen t then memcmp_same b p ((Some <$> t) ++ junk) 0 (Z.to_nat (zlen t)) else ret false) s = Ret (bool_decide (t' = t)) s.
Proof.
  intros Hd. destruct (Z.eqb_spec (zlen t') (zlen t)) as [Hl|Hl].
  - unfold zlen in *. rewrite Nat2Z.id. replace (length t) with (length t') by lia. apply memcmp_same_ok; [done|apply has_text|lia].
  - rewrite bool_decide_eq_false_2; [done|]. by intros ->.
Qed.

(** An entry against a text that has been read as a number. *)
Lemma number_text t0 t v : value_of t0 = ZInt v -> match value_of t with ZInt x => v =? x | ZStr _ => false end = bool_decide (t0 = t).
Proof.
  intros H0. destruct (decide (t0 = t)) as [<-|Hne]; [rewrite bool_decide_eq_true_2, H0 by done; apply Z.eqb_refl|].
  rewrite bool_decide_eq_false_2 by done. destruct (value_of t) as [|x] eqn:E; [done|]. apply Z.eqb_neq. intros ->. apply Hne, value_of_inj. by rewrite H0.
Qed.
Lemma text_eq k t0 t : ts !! k = Some t0 -> bool_decide (ts !! k = Some t) = bool_decide (t0 = t).
Proof. intros ->. apply bool_decide_ext. split; [by intros [=]|by intros ->]. Qed.
Lemma compare_ok k t junk s : ziplistCompare b (pos es k) ((Some <$> t) ++ junk) (zlen t) s = Ret (b2z (bool_decide (ts !! k = Some t))) s.
Proof.
  unfold ziplistCompare. destruct (walk_rd b es n Hzl k s) as (c & Ec & Ee). rewrite (bind_ret_eq _ _ _ _ _ Ec), Ee. destruct (es !! k) as [e|] eqn:Hk.
  - destruct (text_at k e Hk) as (t0 & Ht & Ev). rewrite (text_eq _ _ _ Ht). destruct (walk_data b es n Hzl k e Hk) as [Hd Hv].
    rewrite (bind_ret_eq _ _ _ _ _ (walk_zipEntry b es n Hzl k e s Hk)). cbn [zencoding entry_of len]. rewrite (is_str_code _ Hv).
    symmetry in Ev. destruct (eval e) as [t'|v] eqn:Ee'; cbn [data_of code] in *.
    + rewrite (value_of_str _ _ Ev). pose proof (same_text t' t junk _ s Hd) as Hs.
      destruct (zlen t' =? zlen t); [by rewrite (bind_ret_eq _ _ _ _ _ Hs)|]. by injection Hs as <-.
    + rewrite (bind_ret_eq _ _ _ _ _ (try_encoding_ok t junk s)), <- (number_text t0 t v Ev). destruct (value_of t) as [|x]; [done|].
      by rewrite (bind_ret_eq _ _ _ _ _ (load_integer_ok v b _ s Hv Hd)).
  - apply text_none in Hk. by rewrite Hk.
Qed.

(** What [ziplistFind] remembers of the text it searches for. *)
Definition cached t (enc ll : Z) : Prop :=
  (enc = 0 /\ ll = 0) \/ match value_of t with ZInt v => enc = int_encoding v /\ ll = v | ZStr _ => enc = UCHAR_MAX end.
Lemma find_compare_ok k e t junk enc ll s : es !! k = Some e -> cached t enc ll -> exists enc' ll',
  find_compare b (pos es k + psize (elarge e) + zlen (header_of (eval e))) (code (eval e)) (zlen (data_of (eval e))) ((Some <$> t) ++ junk) (zlen t) enc ll s =
  Ret (bool_decide (ts !! k = Some t), enc', ll') s /\ cached t enc' ll'.
Proof.
  intros Hk Hc. destruct (text_at k e Hk) as (t0 & Ht & Ev). rewrite (text_eq _ _ _ Ht). destruct (walk_data b es n Hzl k e Hk) as [Hd Hv].
  cbn [headersize entry_of] in Hd. rewrite Z.add_assoc in Hd. unfold find_compare. rewrite (is_str_code _ Hv).
  symmetry in Ev. destruct (eval e) as [t'|v] eqn:Ee'; cbn [data_of code] in *.
  - rewrite (value_of_str _ _ Ev). rewrite (bind_ret_eq _ _ _ _ _ (same_text t' t junk _ s Hd)). by exists enc, ll.
  - assert (Hl : exists enc' ll', (if enc =? 0 then
         let* r := zipTryEncoding ((Some <$> t) ++ junk) (zlen t) in
         ret (match r with Some (v, e) => (e, v) | None => (UCHAR_MAX, ll) end) else ret (enc, ll)) s = Ret (enc', ll') s /\
       match value_of t with ZInt v => enc' = int_encoding v /\ ll' = v | ZStr _ => enc' = UCHAR_MAX end).
    { destruct (Z.eqb_spec enc 0) as [->|Hne].
      - rewrite (bind_ret_eq _ _ _ _ _ (try_encoding_ok t junk s)). destruct (value_of t) as [|x]; by eexists _, _.
      - exists enc, ll. split; [done|]. by destruct Hc as [[? _]|Hc]. }
    destruct Hl as (enc' & ll' & E & Hc'). rewrite (bind_ret_eq _ _ _ _ _ E), <- (number_text t0 t v Ev). exists enc', ll'. split; [|by right].
    destruct (value_of_cases t) as [(x & Ex & Hx)|Ex]; rewrite Ex in *.
    + destruct Hc' as [-> ->]. pose proof (int_encoding_range x Hx). rewrite (proj2 (Z.eqb_neq _ 0)) by lia. unfold UCHAR_MAX.
      rewrite (proj2 (Z.eqb_neq _ 255)) by lia. cbn [negb]. by rewrite (bind_ret_eq _ _ _ _ _ (load_integer_ok v b _ s Hv Hd)).
    + by rewrite Hc'.
Qed.

(** The search a caller has in mind: one entry in [skip + 1] is compared. *)
Fixpoint search t (skip c k : nat) (l : list (list Z)) : option nat :=
  match l with
  | [] => None
  | x :: l => match c with O => if decide (x = t) then Some k else search t skip skip (Datatypes.S k) l | Datatypes.S c => search t skip c (Datatypes.S k) l end
  end.
Lemma drop_some k (t : list Z) : ts !! k = Some t -> drop k ts = t :: drop (Datatypes.S k) ts.
Proof. intros H. by erewrite drop_S. Qed.
Lemma find_loop t junk skip m : forall k c enc ll s, (length es - k < m)%nat -> Z.of_nat skip < 2 ^ 31 -> cached t enc ll ->
  while_loop m (find_turn b ((Some <$> t) ++ junk) (zlen t) (Z.of_nat skip)) (pos es k, Z.of_nat c, enc, ll) s =
  Ret (pos es <$> search t skip c k (drop k ts)) s.
Proof.
  induction m as [|m IH]; intros k c enc ll s Hm Hsk Hc; [lia|]. cbn [while_loop]. unfold find_turn at 1. destruct (walk_rd b es n Hzl k s) as (ch & Ec & Ee).
  rewrite bind_assoc, (bind_ret_eq _ _ _ _ _ Ec), Ee. destruct (es !! k) as [e|] eqn:Hk.
  - destruct (walk_entry b es n Hzl k e Hk) as [Hr Ho]. destruct (has_raw _ _ _ Hr) as (_ & Hh & _). pose proof (lookup_lt_Some _ _ _ Hk).
    rewrite bind_assoc, (bind_ret_eq _ _ _ _ _ (prevlensize_ok b _ e s Ho Hr)), bind_assoc, (bind_ret_eq _ _ _ _ _ (decode_length_ok _ b _ s (proj1 (proj2 (proj2 Ho))) Hh)).
    destruct (text_at k e Hk) as (t0 & Ht & _). rewrite (drop_some _ _ Ht). cbn [search].
    assert (Hnext : pos es k + psize (elarge e) + zlen (header_of (eval e)) + zlen (data_of (eval e)) = pos es (Datatypes.S k)) by (rewrite (pos_step _ _ _ Hk), rlen_eq; lia).
    destruct c as [|c].
    + rewrite (proj2 (Z.eqb_eq _ 0)) by done. destruct (find_compare_ok k e t junk enc ll s Hk Hc) as (enc' & ll' & E & Hc').
      rewrite bind_assoc, (bind_ret_eq _ _ _ _ _ E), (text_eq _ _ _ Ht). destruct (decide (t0 = t)) as [Hd|Hd].
      * rewrite bool_decide_eq_true_2 by done. reflexivity.
      * rewrite bool_decide_eq_false_2 by done. unfold ret at 1, bind at 1. rewrite Hnext. replace (i32 (Z.of_nat skip)) with (Z.of_nat skip) by (unfold i32; rewrite Z.mod_small; lia).
        apply IH; [lia|done|done].
    + rewrite (proj2 (Z.eqb_neq _ 0)) by lia. unfold ret at 1, bind at 1. rewrite Hnext. replace (Z.of_nat (Datatypes.S c) - 1) with (Z.of_nat c) by lia. apply IH; [lia|done|done].
  - apply text_none, lookup_ge_None in Hk. by rewrite drop_ge.
Qed.
Lemma zl_find_ok t junk skip k s : Z.of_nat skip < 2 ^ 31 ->
  ziplistFind b (pos es k) ((Some <$> t) ++ junk) (zlen t) (Z.of_nat skip) s = Ret (pos es <$> search t skip 0 k (drop k ts)) s.
Proof.
  intros Hs. unfold ziplistFind. destruct (few_entries b es n Hzl) as [_ Hf]. apply (find_loop t junk skip (list_turns b) k 0); [lia|done|by left].
Qed.
End texts.

(** ** Counting *)
Lemma len_loop b es n m : zl_ok b es n -> forall k s, (length es - k < m)%nat -> (k <= length es)%nat ->
  while_loop m (len_turn b) (pos es k, Z.of_nat k) s = Ret (zlen es) s.
Proof.
  intros Hzl. destruct (few_entries b es n Hzl) as [Hf _]. unfold zlen in *. induction m as [|m IH]; intros k s Hm Hk; [lia|]. cbn [while_loop]. unfold len_turn at 1.
  destruct (walk_rd b es n Hzl k s) as (ch & Ec & Ee). rewrite bind_assoc, (bind_ret_eq _ _ _ _ _ Ec), Ee. destruct (es !! k) as [e|] eqn:He.
  - rewrite bind_assoc, (bind_ret_eq _ _ _ _ _ (walk_length b es n Hzl k e s He)). unfold ret at 1, bind at 1. pose proof (lookup_lt_Some _ _ _ He).
    rewrite <- (pos_step _ _ _ He), u32_id by (unfold is_u32; lia). replace (Z.of_nat k + 1) with (Z.of_nat (Datatypes.S k)) by lia. apply IH; lia.
  - apply lookup_ge_None in He. by replace (length es) with k by lia.
Qed.
Lemma len_ok b es n s : zl_ok b es n -> exists b' n', ziplistLen b s = Ret (b', zlen es) s /\ zl_ok b' es n' /\ zlen b' = zlen b.
Proof.
  intros Hzl. pose proof Hzl as [Hen Hc [Hn1 Hn2] Hch]. unfold ziplistLen, ZIPLIST_LENGTH, UINT16_MAX.
  assert (El : load_le b 8 2 s = Ret n s) by (rewrite (load_has 2 _ _ _ _ Hc); change (256 ^ Z.of_nat 2) with 65536; by rewrite Z.mod_small by lia).
  rewrite (bind_ret_eq _ _ _ _ _ El). destruct (Z.ltb_spec n 65535) as [Hlt|Hge].
  - rewrite (bind_ret_eq _ _ _ _ _ El). exists b, n. by rewrite <- Hn2.
  - destruct (few_entries b es n Hzl) as [Hf Ht]. rewrite (bind_ret_eq _ _ _ _ _ (len_loop b es n (list_turns b) Hzl 0 s ltac:(lia) ltac:(lia))).
    destruct (Z.ltb_spec (zlen es) 65535) as [Hlt|]; [|by exists b, n].
    destruct Hen as [H1 H2 H3 H4 H5 H6 H7]. pose proof (zlen_nonneg (bytes_of es)). pose proof (zlen_nonneg es).
    destruct (store_has 2 b 8 (zlen es) s) as (b' & E & Hc' & F); [lia|lia|]. unfold set_zllen. rewrite (bind_ret_eq _ _ _ _ _ E). exists b', (zlen es).
    split; [done|]. pose proof (proj1 F) as Z'. split; [|done]. split; [split; try done; try lia|done|unfold counts; lia|done].
    + rewrite Z'. eapply has_frame; [exact H2|exact F|left; rewrite zlen_le_bytes; lia].
    + eapply has_frame; [exact H3|exact F|left; rewrite zlen_le_bytes; lia].
    + eapply has_frame; [exact H4|exact F|right; lia].
Qed.
Lemma blob_len_ok b es n s : zl_ok b es n -> ziplistBlobLen b s = Ret (zlen b) s.
Proof.
  intros [Hen _ _ _]. pose proof (en_small _ _ _ Hen). apply load4; [apply (en_bytes _ _ _ Hen)|]. pose proof (zlen_nonneg b). lia.
Qed.
End access.

Section merge.
Context {S : Type}.
Implicit Types (s : S).

Lemma header_ok b es n s : zl_ok b es n -> ZIPLIST_BYTES b s = Ret (zlen b) s /\ ZIPLIST_LENGTH b s = Ret n s /\ ZIPLIST_TAIL_OFFSET b s = Ret (tail_at 10 es) s.
Proof.
  intros [[H1 H2 H3 H4 H5 H6 H7] Hc [Hn _] _]. pose proof (zlen_nonneg b). pose proof (tail_bounds 10 es). unfold ZIPLIST_BYTES, ZIPLIST_LENGTH, ZIPLIST_TAIL_OFFSET.
  split; [apply (load4 _ _ _ _ H2); lia|]. split; [|apply (load4 _ _ _ _ H3); lia].
  rewrite (load_has 2 _ _ _ _ Hc). change (256 ^ Z.of_nat 2) with 65536. by rewrite Z.mod_small by lia.
Qed.

(** The entries of the two lists, one after the other, wherever they are copied to. *)
Lemma join_ok b1 es1 n1 b2 es2 n2 s (size := zlen b1 + zlen b2 - 11) : zl_ok b1 es1 n1 -> zl_ok b2 es2 n2 -> exists b,
  (if n2 <=? n1 then
     let target := zrealloc b1 size in memcpy target (zlen b1 - 1) b2 10 (zlen b2 - 10)
   else
     let target := zrealloc b2 size in
     let* target := memmove target (zlen b1 - 1) 10 (zlen b2 - 10) in
     memcpy target 0 b1 0 (zlen b1 - 1)) s = Ret b s /\ zlen b = size /\ has b 10 (bytes_of (es1 ++ es2) ++ [255]).
Proof.
  intros [[_ _ _ L1 S1 _ _] _ _ _] [[_ _ _ L2 S2 _ _] _ _ _]. pose proof (zlen_nonneg (bytes_of es1)) as Z1. pose proof (zlen_nonneg (bytes_of es2)) as Z2.
  apply has_app_1 in L1. set (l := bytes_of es2 ++ [255]) in *. assert (Zl : zlen l = zlen b2 - 10) by (unfold l; rewrite zlen_app; change (zlen [255]) with 1; lia).
  assert (Hgoal : forall b, has b 10 (bytes_of es1) -> has b (zlen b1 - 1) l -> has b 10 (bytes_of (es1 ++ es2) ++ [255])).
  { intros b Ha Hb. rewrite bytes_app, <- app_assoc. apply has_app. split; [done|]. eapply has_at; [exact Hb|lia]. }
  destruct (n2 <=? n1); cbv zeta.
  - destruct (realloc_kept b1 size ltac:(unfold size; lia)) as [Zr K]. destruct (memcpy_has (zrealloc b1 size) (zlen b1 - 1) b2 10 l s L2) as (b & E & H & F); [lia|rewrite Zr; unfold size; lia|].
    rewrite Zl in E. exists b. split; [exact E|]. split; [rewrite (proj1 F); exact Zr|]. apply Hgoal; [|exact H].
    eapply has_frame; [|exact F|left; lia]. eapply has_kept; [exact L1|exact K|lia|unfold size; lia|rewrite Zr; unfold size; lia].
  - destruct (realloc_kept b2 size ltac:(unfold size; lia)) as [Zr K]. assert (Lr : has (zrealloc b2 size) 10 l) by (eapply has_kept; [exact L2|exact K|lia|unfold size; lia|rewrite Zr; unfold size; lia]).
    destruct (memcpy_has (zrealloc b2 size) (zlen b1 - 1) _ 10 l s Lr) as (b & E & H & F); [lia|rewrite Zr; unfold size; lia|]. unfold memmove. rewrite Zl in E. rewrite (bind_ret_eq _ _ _ _ _ E).
    pose proof (proj1 F) as Zb. destruct (memcpy_any b 0 b1 0 (zlen b1 - 1) s) as (b' & E' & F' & M); [lia|lia|rewrite Zb, Zr; unfold size; lia|lia|lia|].
    exists b'. split; [exact E'|]. split; [rewrite (proj1 F'), Zb; exact Zr|]. apply Hgoal.
    + eapply has_at; [apply (M 10 _ L1)|]; lia.
    + eapply has_frame; [exact H|exact F'|right; lia].
Qed.

Lemma bind3 {A B C D} (m : M S A) (f : A -> M S B) (g : B -> M S C) (k : C -> M S D) s :
  (let* x := m in let* y := f x in let* z := g y in k z) s = (let* z := (let* x := m in let* y := f x in g y) in k z) s.
Proof. rewrite bind_assoc. unfold bind. destruct (m s) as [x s1| |]; [|done..]. destruct (f x s1) as [y s2| |]; done. Qed.
Lemma fields_ok b bytes n tail s : 10 <= zlen b -> exists b',
  (let* b := set_bytes b bytes in let* b := set_zllen b n in set_tail_offset b tail) s = Ret b' s /\
  has b' 0 (le_bytes 4 bytes) /\ has b' 4 (le_bytes 4 tail) /\ has b' 8 (le_bytes 2 n) /\ frame b b' 0 10.
Proof.
  intros Hz. unfold set_bytes, set_zllen, set_tail_offset. destruct (store_has 4 b 0 bytes s) as (b1 & E1 & H1 & F1); [lia|lia|]. rewrite (bind_ret_eq _ _ _ _ _ E1).
  destruct (store_has 2 b1 8 n s) as (b2 & E2 & H2 & F2); [lia|rewrite (proj1 F1); lia|]. rewrite (bind_ret_eq _ _ _ _ _ E2).
  destruct (store_has 4 b2 4 tail s) as (b3 & E3 & H3 & F3); [lia|rewrite (proj1 F2), (proj1 F1); lia|]. exists b3. split; [exact E3|]. split; [|split; [exact H3|split]].
  - eapply has_frame; [eapply has_frame; [exact H1|exact F2|]|exact F3|]; rewrite zlen_le_bytes; lia.
  - eapply has_frame; [exact H2|exact F3|]; lia.
  - apply (frame_trans b b2); [apply (frame_trans b b1)|]; eapply frame_widen; [exact F1|lia|lia|exact F2|lia|lia|exact F3|lia|lia].
Qed.

Definition both (n1 n2 : Z) : Z := if n1 + n2 <? 65535 then n1 + n2 else 65535.
Lemma counts_both n1 n2 es1 es2 es2' : counts n1 es1 -> counts n2 es2 -> zlen es2' = zlen es2 -> counts (both n1 n2) (es1 ++ es2').
Proof. unfold counts, both. rewrite zlen_app. intros H1 H2 ->. destruct (Z.ltb_spec (n1 + n2) 65535); lia. Qed.

(** The update starts at the last entry of the first list. *)
Lemma merge_mend b es1 es2 n s : ending b 10 (es1 ++ es2) -> has b 8 (le_bytes 2 n) -> counts n (es1 ++ es2) -> chained 0 es1 -> chained 0 es2 -> es2 <> [] ->
  zlen b + 4 * zlen es2 < 2 ^ 32 -> exists b', __ziplistCascadeUpdate b (tail_at 10 es1) s = Ret b' s /\ zl_ok b' (es1 ++ mend (back 0 es1) es2) n.
Proof.
  intros Hen Hc Hn Hch1 Hch2 Hne Hz. pose proof (f_equal zlen (mend_values (back 0 es1) es2)) as Hv. rewrite !zlen_fmap in Hv.
  assert (Hch : chained 0 (es1 ++ mend (back 0 es1) es2)).
  { apply chained_app. split; [done|]. apply mend_chained. destruct es2; [done|]. by destruct Hch2. }
  assert (Hn' : counts n (es1 ++ mend (back 0 es1) es2)) by (unfold counts in *; rewrite zlen_app in *; by rewrite Hv).
  destruct es1 as [|cur es1 _] using rev_ind.
  - destruct es2 as [|e rest]; [done|]. change (back 0 []) with 0 in *. rewrite (mend_same 0 (e :: rest) Hch2) in *. destruct Hch2 as [He Hch2].
    rewrite zlen_cons in Hz. destruct (cascade_ok b 10 e rest s Hen) as (b' & E & Hen' & K); [lia|]. rewrite (mend_same _ _ Hch2) in Hen'. exists b'. split; [exact E|].
    split; try done. eapply has_kept; [exact Hc|exact K|lia|rewrite zlen_le_bytes; lia|]. rewrite zlen_le_bytes. pose proof (en_size _ _ _ Hen'). pose proof (zlen_nonneg (bytes_of (e :: rest))). lia.
  - rewrite tail_entry. rewrite <- app_assoc in Hen. cbn [app] in Hen. destruct (ending_split _ _ _ _ Hen) as (P1 & _ & O1 & _). pose proof (zlen_nonneg (bytes_of es1)).
    destruct (cascade_ok b _ cur es2 s (ending_later _ _ _ _ Hen ltac:(done)) Hz) as (b' & E & Hen' & K). exists b'. split; [exact E|]. rewrite back_snoc, <- app_assoc in *. cbn [app] in *.
    pose proof (en_size _ _ _ Hen') as Zs. pose proof (zlen_nonneg (bytes_of (cur :: mend (rlen cur) es2))).
    split; try done; [apply ending_join; try done|]; (eapply has_kept; [eassumption|exact K|lia|rewrite ?zlen_le_bytes; lia|rewrite ?zlen_le_bytes; lia]).
Qed.

Lemma merge_ok b1 es1 n1 b2 es2 n2 s : zl_ok b1 es1 n1 -> zl_ok b2 es2 n2 -> es2 <> [] -> zlen b1 + zlen b2 + 4 * zlen es2 < 2 ^ 32 -> exists b',
  ziplistMerge (Some b1) (Some b2) false s = Ret (Some (b', n2 <=? n1)) s /\ zl_ok b' (es1 ++ mend (back 0 es1) es2) (both n1 n2).
Proof.
  intros H1 H2 Hne Hz. unfold ziplistMerge. destruct (header_ok b1 es1 n1 s H1) as (B1 & C1 & T1). destruct (header_ok b2 es2 n2 s H2) as (B2 & C2 & T2).
  rewrite (bind_ret_eq _ _ _ _ _ B1), (bind_ret_eq _ _ _ _ _ C1), (bind_ret_eq _ _ _ _ _ B2), (bind_ret_eq _ _ _ _ _ C2), (bind_ret_eq _ _ _ _ _ T1), (bind_ret_eq _ _ _ _ _ T2).
  unfold ZIPLIST_HEADER_SIZE, ZIPLIST_END_SIZE, UINT16_MAX. replace (zlen b1 + zlen b2 - 10 - 1) with (zlen b1 + zlen b2 - 11) by lia.
  destruct (join_ok b1 es1 n1 b2 es2 n2 s H1 H2) as (b & E & Zb & L). cbv zeta in E. rewrite (bind_ret_eq _ _ _ _ _ E). fold (both n1 n2).
  pose proof (en_size _ _ _ (zl_ending _ _ _ H1)) as S1. pose proof (en_size _ _ _ (zl_ending _ _ _ H2)) as S2.
  pose proof (zlen_nonneg (bytes_of es1)). pose proof (zlen_nonneg (bytes_of es2)). pose proof (zlen_nonneg es2).
  replace (zlen b1 - 1 + (tail_at 10 es2 - 10)) with (tail_at 10 (es1 ++ es2)).
  2: { rewrite tail_app by done. rewrite tail_shift by done. lia. }
  destruct (fields_ok b (zlen b1 + zlen b2 - 11) (both n1 n2) (tail_at 10 (es1 ++ es2)) s ltac:(lia)) as (b' & E' & HB & HT & HC & F).
  rewrite bind3, (bind_ret_eq _ _ _ _ _ E'). pose proof (proj1 F) as Zb'.
  assert (Hen : ending b' 10 (es1 ++ es2)).
  { split; [lia|by rewrite Zb', Zb|done|eapply has_frame; [exact L|exact F|right; lia]|rewrite bytes_app, zlen_app; lia|lia|].
    apply Forall_app. split; [apply (en_ok _ _ _ (zl_ending _ _ _ H1))|apply (en_ok _ _ _ (zl_ending _ _ _ H2))]. }
  destruct (merge_mend b' es1 es2 (both n1 n2) s Hen HC (counts_both _ _ _ _ _ (zl_counts _ _ _ H1) (zl_counts _ _ _ H2) eq_refl) (zl_chained _ _ _ H1) (zl_chained _ _ _ H2) Hne) as (b'' & E'' & Hzl); [lia|].
  rewrite (bind_ret_eq _ _ _ _ _ E''). by exists b''.
Qed.
End merge.
