(* ===== verification/PackedList.v ===== *)
(** Ziplists as lists of texts: what a program that uses the functions of ziplist.c sees,
    command by command. *)
From S2P Require Import Prelude Intset IntsetProofs Util Ziplist ZlMem ZlEntry ZlList ZlCascade ZlInsert ZlDelete ZlAccess.
#[local] Open Scope Z_scope.
Notation text := (list Z).
Implicit Types (e : ent) (es : list ent) (b : buf) (t : text) (ts : list text).

(** ** The commands *)

(** [i] counts from the end when it is negative; [skip] entries are passed over after each that is compared. *)
Inductive zcommand :=
| ZPush (t : text) (at_head : bool)
| ZInsertBefore (i : Z) (t : text)
| ZDeleteRange (i num : Z)
| ZRemove (t : text) (skip : nat)
| ZMergeWith (ts : list text)
| ZAt (i : Z)
| ZBefore (i : Z)
| ZAfter (t : text) (skip : nat)
| ZEqual (i : Z) (t : text)
| ZLength.
Inductive zanswer := ADone | AValue (v : option zvalue) | ANumber (n : Z).

(** A string of the block as the bytes it has. *)
Definition fetched (b : buf) (r : option zlvalue) : option zvalue :=
  match r with
  | Some (ZlString p n) => Some (ZStr (default 0 <$> take (Z.to_nat n) (drop (Z.to_nat p) b)))
  | Some (ZlInteger v) => Some (ZInt v)
  | None => None
  end.

Section run.
Context {S : Type}.

Definition get_at (b : buf) (p : option Z) : M S (buf * zanswer) := let* r := ziplistGet b p in ret (b, AValue (fetched b r)).
Fixpoint push_all (b : buf) (ts : list text) : M S buf :=
  match ts with [] => ret b | t :: ts => let* b := ziplistPush b (Some <$> t) (zlen t) false in push_all b ts end.
(** Search from the first entry on. *)
Definition find_text (b : buf) (t : text) (skip : nat) : M S (option Z) :=
  let* p := ziplistIndex b 0 in
  match p with None => ret None | Some p => ziplistFind b p (Some <$> t) (zlen t) (Z.of_nat skip) end.
Definition run_command (c : zcommand) (b : buf) : M S (buf * zanswer) :=
  match c with
  | ZPush t at_head => let* b := ziplistPush b (Some <$> t) (zlen t) at_head in ret (b, ADone)
  | ZInsertBefore i t =>
      let* p := ziplistIndex b i in
      match p with None => ret (b, ADone) | Some p => let* b := ziplistInsert b p (Some <$> t) (zlen t) in ret (b, ADone) end
  | ZDeleteRange i num => let* b := ziplistDeleteRange b i num in ret (b, ADone)
  | ZRemove t skip =>
      let* p := find_text b t skip in
      match p with None => ret (b, ANumber 0) | Some p => let* (b, _) := ziplistDelete b p in ret (b, ANumber 1) end
  | ZMergeWith ts =>
      let* second := ziplistNew in
      let* second := push_all second ts in
      let* r := ziplistMerge (Some b) (Some second) false in
      match r with Some (b, _) => ret (b, ADone) | None => ret (b, ADone) end
  | ZAt i => let* p := ziplistIndex b i in get_at b p
  | ZBefore i =>
      let* p := ziplistIndex b i in
      match p with None => ret (b, AValue None) | Some p => let* p := ziplistPrev b p in get_at b p end
  | ZAfter t skip =>
      let* p := find_text b t skip in
      match p with None => ret (b, AValue None) | Some p => let* p := ziplistNext b p in get_at b p end
  | ZEqual i t =>
      let* p := ziplistIndex b i in
      match p with None => ret (b, ANumber 0) | Some p => let* r := ziplistCompare b p (Some <$> t) (zlen t) in ret (b, ANumber r) end
  | ZLength => let* (b, n) := ziplistLen b in ret (b, ANumber n)
  end.
Fixpoint run_commands (cs : list zcommand) (b : buf) : M S (buf * list zanswer) :=
  match cs with
  | [] => ret (b, [])
  | c :: cs => let* (b, a) := run_command c b in let* (b, l) := run_commands cs b in ret (b, a :: l)
  end.
End run.

(** ** What they mean *)
Definition index_of (ts : list text) (i : Z) : option nat :=
  let k := if i <? 0 then zlen ts + i else i in if (0 <=? k) && (k <? zlen ts) then Some (Z.to_nat k) else None.
Definition find_in (t : text) (skip : nat) (ts : list text) : option nat := search t skip 0 0 ts.
Definition value_at (ts : list text) (k : option nat) : option zvalue := value_of <$> (k ≫= fun k => ts !! k).
Definition meaning (c : zcommand) (ts : list text) : list text * zanswer :=
  match c with
  | ZPush t at_head => (if at_head then t :: ts else ts ++ [t], ADone)
  | ZInsertBefore i t => (match index_of ts i with Some k => take k ts ++ t :: drop k ts | None => ts end, ADone)
  | ZDeleteRange i num => (match index_of ts i with Some k => take k ts ++ drop (k + Z.to_nat num) ts | None => ts end, ADone)
  | ZRemove t skip => match find_in t skip ts with Some k => (take k ts ++ drop (k + 1) ts, ANumber 1) | None => (ts, ANumber 0) end
  | ZMergeWith ts' => (ts ++ ts', ADone)
  | ZAt i => (ts, AValue (value_at ts (index_of ts i)))
  | ZBefore i => (ts, AValue (value_at ts (match index_of ts i with Some (Datatypes.S k) => Some k | _ => None end)))
  | ZAfter t skip => (ts, AValue (value_at ts (Datatypes.S <$> find_in t skip ts)))
  | ZEqual i t => (ts, ANumber (b2z (bool_decide ((index_of ts i ≫= fun k => ts !! k) = Some t))))
  | ZLength => (ts, ANumber (zlen ts))
  end.
Fixpoint meanings (cs : list zcommand) (ts : list text) : list text * list zanswer :=
  match cs with
  | [] => (ts, [])
  | c :: cs => let '(ts, a) := meaning c ts in let '(ts, l) := meanings cs ts in (ts, a :: l)
  end.

(** The block has to stay below 4 GiB. *)
Fixpoint room (ts : list text) : Z := match ts with [] => 0 | t :: ts => 22 + zlen t + room ts end.
Definition fits (ts : list text) : Prop := 32 + room ts < 2 ^ 32.
Definition an_int (i : Z) : Prop := - 2 ^ 31 < i < 2 ^ 31.
Definition command_ok (c : zcommand) (ts : list text) : Prop :=
  match c with
  | ZPush t _ => Forall is_u8 t
  | ZInsertBefore i t => an_int i /\ Forall is_u8 t
  | ZDeleteRange i num => an_int i /\ 0 <= num < 2 ^ 32
  | ZRemove _ skip | ZAfter _ skip => Z.of_nat skip < 2 ^ 31
  | ZMergeWith ts' => ts' <> [] /\ Forall (Forall is_u8) ts'
  | ZAt i | ZBefore i | ZEqual i _ => an_int i
  | ZLength => True
  end /\ fits (fst (meaning c ts)).
Fixpoint commands_ok (cs : list zcommand) (ts : list text) : Prop :=
  match cs with [] => True | c :: cs => command_ok c ts /\ commands_ok cs (fst (meaning c ts)) end.

(** ** A block and its texts *)
Definition holds_texts b ts : Prop := exists es n, zl_ok b es n /\ eval <$> es = value_of <$> ts.

Lemma room_app ts ts' : room (ts ++ ts') = room ts + room ts'.
Proof. induction ts as [|t ts IH]; [done|]. cbn. lia. Qed.
Lemma room_nonneg ts : 0 <= room ts.
Proof. induction ts as [|t ts IH]; [done|]. cbn. pose proof (zlen_nonneg t). lia. Qed.
Lemma data_short t : zlen (data_of (value_of t)) <= 8 + zlen t.
Proof.
  pose proof (zlen_nonneg t). destruct (value_of_cases t) as [(v & -> & Hv)| ->]; cbn [data_of]; [|lia]. rewrite zlen_le_bytes.
  destruct (int_cases v Hv) as [(_ & _ & ->)|[(_ & _ & ->)|[(_ & _ & ->)|[(_ & _ & ->)|[(_ & _ & ->)|(_ & _ & ->)]]]]]; lia.
Qed.
Lemma entry_short e t : eval e = value_of t -> rlen e <= 18 + zlen t.
Proof.
  intros He. rewrite rlen_eq, He. pose proof (data_short t). pose proof (zlen_header (value_of t)). destruct (elarge e); cbn [psize]; lia.
Qed.
Lemma entries_short es : forall ts, eval <$> es = value_of <$> ts -> zlen (bytes_of es) + 4 * zlen es <= room ts.
Proof.
  induction es as [|e es IH]; intros ts H; destruct ts as [|t ts]; try done. injection H as He H. rewrite zlen_bytes_cons, zlen_cons. cbn [room]. pose proof (entry_short e t He). specialize (IH ts H). lia.
Qed.
Lemma block_short b es n ts : zl_ok b es n -> eval <$> es = value_of <$> ts -> zlen b + 4 * zlen es <= 11 + room ts /\ length es = length ts.
Proof.
  intros [Hen _ _ _] H. rewrite (en_size _ _ _ Hen). pose proof (entries_short es ts H). apply (f_equal length) in H. rewrite !length_fmap in H. split; [lia|done].
Qed.

Section commands.
Context {S : Type}.
Implicit Types (s : S).

(** ** Changes *)
Lemma insert_at b es n ts k t s : zl_ok b es n -> eval <$> es = value_of <$> ts -> (k <= length ts)%nat -> Forall is_u8 t -> fits (t :: ts) -> exists b',
  __ziplistInsert b (pos es k) (Some <$> t) (zlen t) s = Ret b' s /\ holds_texts b' (take k ts ++ t :: drop k ts).
Proof.
  intros Hzl Hts Hk Ht Hf. destruct (block_short b es n ts Hzl Hts) as [Hs Hl]. unfold pos. set (e := new_ent (back 0 (take k es)) (value_of t)).
  pose proof (entry_short e t eq_refl) as He. unfold fits in Hf. cbn [room] in Hf. pose proof (zlen_nonneg (take k es)).
  assert (Hd : zlen es = zlen (take k es) + zlen (drop k es)) by (by rewrite <- zlen_app, take_drop).
  destruct (zl_insert_ok b (take k es) (drop k es) n t [] s) as (b' & E & H'); [by rewrite take_drop|done|fold e; lia|]. rewrite app_nil_r in E.
  exists b'. split; [exact E|]. eexists _, _. split; [exact H'|]. rewrite fmap_app, fmap_cons, behind_values, fmap_take, fmap_drop, Hts. cbn [new_ent eval].
  by rewrite fmap_app, fmap_cons, fmap_take, fmap_drop.
Qed.

Lemma delete_none b p num s e : ent_ok e -> has b p (raw e) -> num = 0 -> __ziplistDelete b p num s = Ret b s.
Proof.
  intros Ho Hh ->. unfold __ziplistDelete. rewrite (bind_ret_eq _ _ _ _ _ (entry_ok b p e s Ho Hh)). unfold list_turns. cbn [while_loop]. unfold count_turn at 1.
  destruct (rd_entry b p e s Ho Hh) as (c & Ec & Ee & _). rewrite bind_assoc, bind_assoc, (bind_ret_eq _ _ _ _ _ Ec), Ee. cbn [Z.ltb Z.compare].
  unfold ret at 1, bind at 1. unfold ret at 1, bind at 1. cbn [zp entry_of]. rewrite Z.sub_diag. reflexivity.
Qed.
Lemma delete_at b es n ts k num s : zl_ok b es n -> eval <$> es = value_of <$> ts -> (k < length ts)%nat -> 0 <= num -> fits ts -> exists b',
  __ziplistDelete b (pos es k) num s = Ret b' s /\ holds_texts b' (take k ts ++ drop (k + Z.to_nat num) ts).
Proof.
  intros Hzl Hts Hk Hn Hf. destruct (block_short b es n ts Hzl Hts) as [Hs Hl]. destruct (lookup_lt_is_Some_2 es k ltac:(lia)) as [e He]. unfold fits in Hf.
  destruct (Z.eq_dec num 0) as [->|Hne].
  - destruct (walk_entry b es n Hzl k e He) as [Hh Ho]. exists b. rewrite Nat.add_0_r, take_drop. split; [by eapply delete_none|]. by exists es, n.
  - set (m := Z.to_nat num) in *. assert (Hdel : take m (drop k es) = e :: take (pred m) (drop (Datatypes.S k) es)).
    { rewrite (drop_S _ _ _ He). replace m with (Datatypes.S (pred m)) at 1 by lia. done. }
    assert (Hes : es = take k es ++ (e :: take (pred m) (drop (Datatypes.S k) es)) ++ drop (k + m) es) by (rewrite <- Hdel, <- drop_drop, take_drop, take_drop; done).
    pose proof Hzl as Hzl'. rewrite Hes in Hzl'. pose proof (zlen_nonneg es).
    assert (Hd : zlen (drop (k + m) es) <= zlen es) by (unfold zlen; rewrite length_drop; lia).
    destruct (delete_ok b (take k es) e _ (drop (k + m) es) n num s Hzl') as (b' & E & H'); [|lia|lia|].
    { fold m. rewrite <- Hdel, <- drop_drop, take_drop. done. }
    exists b'. split; [exact E|]. eexists _, _. split; [exact H'|]. rewrite fmap_app, closing_values, fmap_take, fmap_drop, Hts. by rewrite fmap_app, fmap_take, fmap_drop.
Qed.

Lemma end_pos b es n s : zl_ok b es n -> ZIPLIST_ENTRY_END b s = Ret (pos es (length es)) s.
Proof.
  intros Hzl. destruct (header_ok b es n s Hzl) as (B & _). unfold ZIPLIST_ENTRY_END. rewrite (bind_ret_eq _ _ _ _ _ B). unfold ret. f_equal.
  rewrite pos_end by lia. rewrite (en_size _ _ _ (zl_ending _ _ _ Hzl)). lia.
Qed.
Lemma push_ok b ts t at_head s : holds_texts b ts -> Forall is_u8 t -> fits (t :: ts) -> exists b',
  ziplistPush b (Some <$> t) (zlen t) at_head s = Ret b' s /\ holds_texts b' (if at_head then t :: ts else ts ++ [t]).
Proof.
  intros (es & n & Hzl & Hts) Ht Hf. destruct (block_short b es n ts Hzl Hts) as [_ Hl]. unfold ziplistPush. destruct at_head.
  - exact (insert_at b es n ts 0 t s Hzl Hts ltac:(lia) Ht Hf).
  - rewrite (bind_ret_eq _ _ _ _ _ (end_pos b es n s Hzl)). destruct (insert_at b es n ts (length es) t s Hzl Hts ltac:(lia) Ht Hf) as (b' & E & H').
    exists b'. split; [exact E|]. rewrite Hl, take_ge, drop_ge in H' by lia. exact H'.
Qed.
Lemma push_all_ok l : forall b ts s, holds_texts b ts -> Forall (Forall is_u8) l -> fits (ts ++ l) -> exists b',
  push_all b l s = Ret b' s /\ holds_texts b' (ts ++ l).
Proof.
  induction l as [|t l IH]; intros b ts s Hh Hl Hf; [exists b; by rewrite app_nil_r|]. apply Forall_cons in Hl as [Ht Hl]. pose proof (room_nonneg l).
  cbn [push_all]. destruct (push_ok b ts t false s Hh Ht) as (b1 & E1 & H1); [unfold fits in *; rewrite room_app in Hf; cbn [room] in *; lia|].
  rewrite (bind_ret_eq _ _ _ _ _ E1). destruct (IH b1 (ts ++ [t]) s H1 Hl) as (b2 & E2 & H2); [by rewrite <- app_assoc|]. exists b2. split; [exact E2|]. by rewrite <- app_assoc in H2.
Qed.
Lemma new_holds s : exists b, ziplistNew s = Ret b s /\ holds_texts b [].
Proof. destruct (ziplistNew_ok s) as (b & E & H). exists b. split; [exact E|]. by exists [], 0. Qed.
Lemma merge_with_ok b ts l s : holds_texts b ts -> l <> [] -> Forall (Forall is_u8) l -> fits (ts ++ l) -> exists b',
  run_command (ZMergeWith l) b s = Ret (b', ADone) s /\ holds_texts b' (ts ++ l).
Proof.
  intros (es & n & Hzl & Hts) Hne Hl Hf. cbn [run_command]. pose proof (room_nonneg ts) as R1. unfold fits in Hf. rewrite room_app in Hf.
  destruct (new_holds s) as (b0 & E0 & H0). rewrite (bind_ret_eq _ _ _ _ _ E0). destruct (push_all_ok l b0 [] s H0 Hl) as (b2 & E2 & es2 & n2 & Hzl2 & Hts2); [unfold fits; cbn; lia|].
  rewrite (bind_ret_eq _ _ _ _ _ E2). destruct (block_short _ _ _ _ Hzl Hts) as [Hs1 _]. destruct (block_short _ _ _ _ Hzl2 Hts2) as [Hs2 Hl2]. pose proof (zlen_nonneg es).
  destruct (merge_ok b es n b2 es2 n2 s Hzl Hzl2) as (b' & E & H'); [|cbn [app] in *; lia|].
  { intros ->. cbn in Hl2. by destruct l. }
  rewrite (bind_ret_eq _ _ _ _ _ E). exists b'. split; [done|]. eexists _, _. split; [exact H'|]. cbn [app] in Hts2. by rewrite fmap_app, mend_values, Hts, Hts2, fmap_app.
Qed.

(** ** Answers *)
Lemma index_ts b es n ts : zl_ok b es n -> eval <$> es = value_of <$> ts -> forall i s, an_int i -> ziplistIndex b i s = Ret (pos es <$> index_of ts i) s.
Proof.
  intros Hzl Hts i s Hi. rewrite (index_ok b es n Hzl i s Hi). unfold entry_index, index_of. destruct (block_short b es n ts Hzl Hts) as [_ Hl]. unfold zlen. by rewrite Hl.
Qed.
Lemma index_some ts i k : index_of ts i = Some k -> (k < length ts)%nat.
Proof. unfold index_of, zlen. destruct (i <? 0); cbv zeta; [destruct (Z.leb_spec 0 (Z.of_nat (length ts) + i)), (Z.ltb_spec (Z.of_nat (length ts) + i) (Z.of_nat (length ts)))|destruct (Z.leb_spec 0 i), (Z.ltb_spec i (Z.of_nat (length ts)))]; cbn; intros [=]; lia. Qed.
Lemma fetched_ok b r v : gives b r v -> fetched b r = v.
Proof.
  destruct r as [[p m|x]|], v as [[t|y]|]; try done; [|by intros ->]. intros [-> Hh]. cbn. do 2 f_equal. apply list_eq. intros i. rewrite list_lookup_fmap.
  destruct (decide (i < length t)%nat) as [Hi|Hi].
  - rewrite lookup_take_lt by (unfold zlen; lia). rewrite lookup_drop. destruct (lookup_lt_is_Some_2 _ _ Hi) as [x Hx]. destruct Hh as (_ & _ & Hh). by rewrite (Hh i x Hx), Hx.
  - rewrite (lookup_ge_None_2 (take _ _)) by (rewrite length_take; unfold zlen; lia). by rewrite lookup_ge_None_2 by lia.
Qed.
Lemma get_at_ok b es n ts k s : zl_ok b es n -> eval <$> es = value_of <$> ts -> get_at b (pos es <$> k) s = Ret (b, AValue (value_at ts k)) s.
Proof.
  intros Hzl Hts. unfold get_at. destruct k as [k|]; [|done]. destruct (zl_get_ok b es n Hzl k s) as (r & E & Hg). cbn [fmap option_fmap option_map]. rewrite (bind_ret_eq _ _ _ _ _ E).
  unfold ret. do 3 f_equal. rewrite (fetched_ok _ _ _ Hg). unfold value_at. cbn [mbind option_bind]. by rewrite <- !list_lookup_fmap, Hts.
Qed.
Lemma search_some t skip l : forall c k j, search t skip c k l = Some j -> (k <= j < k + length l)%nat.
Proof.
  induction l as [|x l IH]; intros c k j; [done|]. cbn [search length]. destruct c as [|c]; [destruct (decide (x = t)); [intros [= ->]; lia|]|]; intros H%IH; lia.
Qed.
Lemma find_text_ok b es n ts t skip s : zl_ok b es n -> eval <$> es = value_of <$> ts -> Z.of_nat skip < 2 ^ 31 -> find_text b t skip s = Ret (pos es <$> find_in t skip ts) s.
Proof.
  intros Hzl Hts Hs. unfold find_text. rewrite (bind_ret_eq _ _ _ _ _ (index_ts b es n ts Hzl Hts 0 s ltac:(unfold an_int; lia))).
  destruct ts as [|t0 ts]; [done|]. unfold index_of. cbn [Z.ltb Z.compare Z.leb andb]. rewrite (proj2 (Z.ltb_lt 0 _)) by (unfold zlen; cbn; lia). cbn [fmap option_fmap option_map].
  pose proof (zl_find_ok b es n (t0 :: ts) Hzl Hts t [] skip 0 s Hs) as H. rewrite app_nil_r, drop_0 in H. exact H.
Qed.

Lemma fits_insert ts k t : fits (take k ts ++ t :: drop k ts) -> fits (t :: ts).
Proof. unfold fits. rewrite room_app. cbn [room]. intros H. replace (room ts) with (room (take k ts) + room (drop k ts)) by (by rewrite <- room_app, take_drop). lia. Qed.
Lemma pack_change_ok c b ts s : holds_texts b ts -> fits ts -> command_ok c ts ->
  match c with ZPush _ _ | ZInsertBefore _ _ | ZDeleteRange _ _ | ZRemove _ _ | ZMergeWith _ => True | _ => False end -> exists b',
  run_command c b s = Ret (b', snd (meaning c ts)) s /\ holds_texts b' (fst (meaning c ts)).
Proof.
  intros Hh Hf [Hc Hf'] Hsel. destruct c as [t h|i t|i num|t skip|l| | | | |]; try done; cbn [meaning fst snd] in *.
  - assert (Hft : fits (t :: ts)) by (destruct h; [done|]; unfold fits in *; rewrite room_app in Hf'; cbn [room] in *; lia).
    destruct (push_ok b ts t h s Hh Hc Hft) as (b' & E & H'). exists b'. cbn [run_command]. by rewrite (bind_ret_eq _ _ _ _ _ E).
  - destruct Hc as [Hi Ht]. destruct Hh as (es & n & Hzl & Hts). cbn [run_command]. rewrite (bind_ret_eq _ _ _ _ _ (index_ts b es n ts Hzl Hts i s Hi)).
    destruct (index_of ts i) as [k|] eqn:Ek; cbn [fmap option_fmap option_map]; [|exists b; split; [done|by exists es, n]]. pose proof (index_some _ _ _ Ek).
    destruct (insert_at b es n ts k t s Hzl Hts ltac:(lia) Ht (fits_insert _ _ _ Hf')) as (b' & E & H'). exists b'. unfold ziplistInsert. by rewrite (bind_ret_eq _ _ _ _ _ E).
  - destruct Hc as [Hi Hnum]. destruct Hh as (es & n & Hzl & Hts). cbn [run_command]. unfold ziplistDeleteRange. rewrite bind_assoc, (bind_ret_eq _ _ _ _ _ (index_ts b es n ts Hzl Hts i s Hi)).
    destruct (index_of ts i) as [k|] eqn:Ek; cbn [fmap option_fmap option_map]; [|exists b; split; [done|by exists es, n]]. pose proof (index_some _ _ _ Ek).
    destruct (delete_at b es n ts k num s Hzl Hts ltac:(lia) ltac:(lia) Hf) as (b' & E & H'). exists b'. by rewrite (bind_ret_eq _ _ _ _ _ E).
  - destruct Hh as (es & n & Hzl & Hts). cbn [run_command]. rewrite (bind_ret_eq _ _ _ _ _ (find_text_ok b es n ts t skip s Hzl Hts Hc)).
    destruct (find_in t skip ts) as [k|] eqn:Ek; cbn [fmap option_fmap option_map]; [|exists b; split; [done|by exists es, n]]. pose proof (search_some _ _ _ _ _ _ Ek).
    destruct (delete_at b es n ts k 1 s Hzl Hts ltac:(lia) ltac:(lia) Hf) as (b' & E & H'). exists b'. unfold ziplistDelete. by rewrite bind_assoc, (bind_ret_eq _ _ _ _ _ E).
  - destruct Hc as [Hne Hl]. by apply merge_with_ok.
Qed.
Lemma read_ok c b ts s : holds_texts b ts -> command_ok c ts ->
  match c with ZPush _ _ | ZInsertBefore _ _ | ZDeleteRange _ _ | ZRemove _ _ | ZMergeWith _ => False | _ => True end -> exists b',
  run_command c b s = Ret (b', snd (meaning c ts)) s /\ holds_texts b' (fst (meaning c ts)).
Proof.
  intros (es & n & Hzl & Hts) [Hc _] Hsel. destruct (block_short b es n ts Hzl Hts) as [_ Hl]. assert (Hkeep : holds_texts b ts) by (by exists es, n).
  destruct c as [| | | | |i|i|t skip|i t|]; try done; cbn [meaning fst snd run_command] in *.
  - exists b. rewrite (bind_ret_eq _ _ _ _ _ (index_ts b es n ts Hzl Hts i s Hc)). split; [|done]. by apply (get_at_ok b es n).
  - exists b. split; [|done]. rewrite (bind_ret_eq _ _ _ _ _ (index_ts b es n ts Hzl Hts i s Hc)). destruct (index_of ts i) as [k|] eqn:Ek; [|done]. apply index_some in Ek.
    cbn [fmap option_fmap option_map]. rewrite (bind_ret_eq _ _ _ _ _ (prev_ok b es n Hzl k s ltac:(lia))).
    destruct k as [|k]; [exact (get_at_ok b es n ts None s Hzl Hts)|exact (get_at_ok b es n ts (Some k) s Hzl Hts)].
  - exists b. split; [|done]. rewrite (bind_ret_eq _ _ _ _ _ (find_text_ok b es n ts t skip s Hzl Hts Hc)). destruct (find_in t skip ts) as [k|] eqn:Ek; [|done]. apply search_some in Ek.
    cbn [fmap option_fmap option_map]. rewrite (bind_ret_eq _ _ _ _ _ (next_ok b es n Hzl k s ltac:(lia))), Nat.add_1_r. case_decide as Hd.
    + exact (get_at_ok b es n ts (Some (Datatypes.S k)) s Hzl Hts).
    + unfold value_at. cbn [mbind option_bind]. rewrite (lookup_ge_None_2 ts) by lia. done.
  - exists b. split; [|done]. rewrite (bind_ret_eq _ _ _ _ _ (index_ts b es n ts Hzl Hts i s Hc)). destruct (index_of ts i) as [k|] eqn:Ek; [|done].
    cbn [fmap option_fmap option_map mbind option_bind]. pose proof (compare_ok b es n ts Hzl Hts k t [] s) as E. rewrite app_nil_r in E. by rewrite (bind_ret_eq _ _ _ _ _ E).
  - destruct (len_ok b es n s Hzl) as (b' & n' & E & Hzl' & _). rewrite (bind_ret_eq _ _ _ _ _ E). exists b'. unfold zlen. rewrite Hl. split; [done|by exists es, n'].
Qed.
Lemma pack_run_ok cs : forall b ts s, holds_texts b ts -> fits ts -> commands_ok cs ts -> exists b',
  run_commands cs b s = Ret (b', snd (meanings cs ts)) s /\ holds_texts b' (fst (meanings cs ts)).
Proof.
  induction cs as [|c cs IH]; intros b ts s Hh Hf Hok; [by exists b|]. destruct Hok as [Hc Hok]. cbn [run_commands meanings].
  assert (Hstep : exists b', run_command c b s = Ret (b', snd (meaning c ts)) s /\ holds_texts b' (fst (meaning c ts))).
  { destruct c; first [by apply pack_change_ok|by apply read_ok]. }
  destruct Hstep as (b1 & E1 & H1). rewrite (bind_ret_eq _ _ _ _ _ E1). pose proof (proj2 Hc) as Hf1. destruct (meaning c ts) as [ts1 a]. cbn [fst snd] in *.
  destruct (IH b1 ts1 s H1 Hf1 Hok) as (b2 & E2 & H2). rewrite (bind_ret_eq _ _ _ _ _ E2). exists b2. by destruct (meanings cs ts1).
Qed.
End commands.

(** C13: a ziplist is a list of texts: whatever is pushed at either end, inserted, deleted, searched for and deleted, merged,
    fetched by its index from either end or as the neighbour of another entry, compared or counted, the answers are those
    of the list of texts in memory (a text that spells a 64-bit integer is given back as that integer), and the block still
    stands for that list at the end, whatever lengths and cascades the insertions and deletions caused.
    The texts are bytes, an index is an int, a search skips fewer than 2^31 entries, the block stays below 4 GiB, and the
    list merged in is not empty: merging with an empty second list is excluded, because ziplistMerge then leaves a wrong
    tail offset behind (lemma [merge_with_nothing]). *)
Theorem ziplist_refines {S} (cs : list zcommand) (s : S) : commands_ok cs [] -> exists b,
  (let* b := ziplistNew in run_commands cs b) s = Ret (b, snd (meanings cs [])) s /\ holds_texts b (fst (meanings cs [])).
Proof.
  intros Hok. destruct (new_holds s) as (b & E & H). rewrite (bind_ret_eq _ _ _ _ _ E). apply pack_run_ok; [done|done|done].
Qed.

(** A list with a cascade: two texts of 250 bytes, then one of 254 in front of them. *)
Definition some_commands : list zcommand :=
  [ZPush (replicate 250 97) false; ZPush (replicate 250 98) false; ZPush [49; 48; 50; 52] false; ZPush (replicate 254 99) true;
   ZAt (-1); ZAt 3; ZBefore (-1); ZAfter (replicate 250 97) 0; ZRemove (replicate 254 99) 0; ZInsertBefore 1 [45; 53];
   ZEqual 1 [45; 53]; ZMergeWith [[120]; [55]]; ZDeleteRange (-3) 2; ZAt (-1); ZLength].
Lemma some_commands_ok : commands_ok some_commands [].
Proof. cbn [commands_ok some_commands]. repeat split; try (vm_compute; congruence); try (unfold an_int; lia); try (by repeat constructor); try lia; try done. Qed.
Lemma ziplist_refines_witness : commands_ok some_commands [] /\ snd (meanings some_commands []) =
    [ADone; ADone; ADone; ADone; AValue (Some (ZInt 1024)); AValue (Some (ZInt 1024)); AValue (Some (ZStr (replicate 250 98)));
     AValue (Some (ZStr (replicate 250 98))); ANumber 1; ADone; ANumber 1; ADone; ADone; AValue (Some (ZInt 7)); ANumber 4] /\
  exists b, (let* b := ziplistNew in run_commands some_commands b) tt = Ret (b, snd (meanings some_commands [])) tt /\ holds_texts b (fst (meanings some_commands [])).
Proof. split; [exact some_commands_ok|]. split; [vm_compute; reflexivity|]. apply (ziplist_refines some_commands tt some_commands_ok). Defined.

(** C14: the update after an insertion, a deletion or a merge: of a list whose entries know the length of the one before
    them, except perhaps the one behind [p], it makes a list where all do. It ends, changes no value, keeps the order of the
    entries and every byte in front of [p] but the two sizes of the header, and leaves the header's sizes right, even when one
    length after the other grows from one byte to five. *)
Theorem cascade_restores {S} (b : buf) (p : Z) (cur : ent) (es : list ent) (s : S) : ending b p (cur :: es) ->
  match es with [] => True | next :: rest => chained (rlen next) rest end -> zlen b + 4 * zlen es < 2 ^ 32 -> exists b' es',
  __ziplistCascadeUpdate b p s = Ret b' s /\ ending b' p (cur :: es') /\ chained (rlen cur) es' /\ eval <$> es' = eval <$> es /\ kept b b' 8 p.
Proof.
  intros Hen Hch Hz. destruct (cascade_ok b p cur es s Hen Hz) as (b' & E & Hen' & K). exists b', (mend (rlen cur) es).
  split; [exact E|]. split; [exact Hen'|]. split; [by apply mend_chained|]. split; [apply mend_values|exact K].
Qed.

Definition block_of es (n : Z) : buf :=
  Some <$> (le_bytes 4 (11 + zlen (bytes_of es)) ++ le_bytes 4 (tail_at 10 es) ++ le_bytes 2 n ++ bytes_of es ++ [255]).
Lemma block_ending es n : Forall ent_ok es -> 11 + zlen (bytes_of es) < 2 ^ 32 -> ending (block_of es n) 10 es.
Proof.
  intros Ho Hz. set (l := le_bytes 4 (11 + zlen (bytes_of es)) ++ le_bytes 4 (tail_at 10 es) ++ le_bytes 2 n ++ bytes_of es ++ [255]).
  pose proof (has_text l []) as H. rewrite app_nil_r in H. change (Some <$> l) with (block_of es n) in H. assert (Zb : zlen (block_of es n) = 11 + zlen (bytes_of es)).
  { unfold block_of. rewrite zlen_fmap. rewrite !zlen_app, !zlen_le_bytes. change (zlen [255]) with 1. lia. }
  unfold l in H. apply has_app in H as [H1 H]. apply has_app in H as [H2 H]. apply has_app in H as [_ H3]. rewrite !zlen_le_bytes in *. split; try done; try lia.
  by rewrite Zb.
Qed.
Definition long_entry (prev : Z) (n : nat) : ent := {| eprev := prev; elarge := false; eval := ZStr (replicate n 97) |}.
Lemma long_entry_ok prev n : 0 <= prev < 254 -> Z.of_nat n < 2 ^ 31 -> ent_ok (long_entry prev n).
Proof.
  intros Hp Hn. assert (Hz : zlen (replicate n 97) = Z.of_nat n) by (unfold zlen; by rewrite length_replicate). split; [cbn; lia|]. split; [cbn; lia|]. split.
  - cbn. rewrite Hz. split; [|lia]. apply Forall_forall. intros x [-> _]%elem_of_replicate. unfold is_u8. lia.
  - rewrite rlen_eq. cbn [long_entry eval elarge psize data_of]. pose proof (zlen_header (ZStr (replicate n 97))). lia.
Qed.
(** The two entries behind the first have 250 bytes of text, and both grow. *)
Lemma cascade_restores_witness : exists b' es', __ziplistCascadeUpdate (block_of [long_entry 0 252; long_entry 5 250; long_entry 253 250] 3) 10 tt = Ret b' tt /\
  ending b' 10 (long_entry 0 252 :: es') /\ chained (rlen (long_entry 0 252)) es' /\ eval <$> es' = eval <$> [long_entry 5 250; long_entry 253 250] /\
  kept (block_of [long_entry 0 252; long_entry 5 250; long_entry 253 250] 3) b' 8 10.
Proof.
  apply (cascade_restores (block_of [long_entry 0 252; long_entry 5 250; long_entry 253 250] 3) 10 (long_entry 0 252) [long_entry 5 250; long_entry 253 250] tt).
  - apply block_ending; [|vm_compute; reflexivity]. repeat (apply Forall_cons; split; [apply long_entry_ok; lia|]). by apply Forall_nil.
  - split; [vm_compute; reflexivity|done].
  - vm_compute. reflexivity.
Defined.

(** ** Merging with an empty list *)

(** The tail offset of the merged list is that of its end: the last entry cannot be found from there any more. *)
Lemma merge_with_nothing : (let* first := ziplistNew in let* first := ziplistPush first [Some 97] 1 false in let* second := ziplistNew in
  let* r := ziplistMerge (Some first) (Some second) false in
  match r with
  | Some (b, _) => let* front := ziplistIndex b 0 in let* last := ziplistIndex b (-1) in ret (front, last)
  | None => ret (None, None)
  end) tt = Ret (Some 10, None) tt.
Proof. vm_compute. reflexivity. Qed.
