(* ===== verification/Quicklist.v ===== *)
(** quicklist.c of the Redis the project ships, on 64-bit Windows: a doubly linked list of
    ziplists, whose inner nodes may be compressed with LZF.

    Nodes are blocks of a heap, addressed by positive numbers; the other blocks (ziplists
    and their compressed forms) belong to a node or to the caller and are counted. The
    world also has what the uninitialised table of [lzf_compress] holds at each of its calls.
    There is one list; [zmalloc] and [zrealloc] always succeed. *)
From S2P Require Import Prelude Intset Util Lzf Ziplist.
#[local] Open Scope Z_scope.

Definition optimization_level : list Z := [4096; 8192; 16384; 32768; 65536].
Definition SIZE_SAFETY_LIMIT : Z := 8192.
Definition MIN_COMPRESS_BYTES : Z := 48.
Definition MIN_COMPRESS_IMPROVE : Z := 8.
Definition COMPRESS_MAX : Z := Z.shiftl 1 16.
Definition FILL_MAX : Z := Z.shiftl 1 15.
Definition QUICKLIST_NODE_ENCODING_RAW : Z := 1.
Definition QUICKLIST_NODE_ENCODING_LZF : Z := 2.
Definition i16 (x : Z) : Z := (x + 32768) mod 65536 - 32768.

(** ** Data *)

(** What [zl] of a node points to: a ziplist, or a [quicklistLZF] with its [sz] and its bytes. *)
Inductive zblock := Plain (b : buf) | Packed (n : Z) (compressed : list Z).
Record quicklistNode := { prev : option positive; next : option positive; zl : option zblock; sz : Z; count : Z;
  encoding : Z; recompress : bool }.
Record quicklist := { head : option positive; tail : option positive; qcount : Z; qlen : Z; fill : Z; compress : Z }.
Record qworld := { ql : option quicklist; nodes : gmap positive quicklistNode; brk : positive; blocks : Z;
  errno : Z; lzf_calls : nat; htabs : nat -> LZF_STATE }.

Definition with_ql q w : qworld := {| ql := q; nodes := nodes w; brk := brk w; blocks := blocks w; errno := errno w; lzf_calls := lzf_calls w; htabs := htabs w |}.
Definition with_nodes N w : qworld := {| ql := ql w; nodes := N; brk := brk w; blocks := blocks w; errno := errno w; lzf_calls := lzf_calls w; htabs := htabs w |}.
Definition with_brk p w : qworld := {| ql := ql w; nodes := nodes w; brk := p; blocks := blocks w; errno := errno w; lzf_calls := lzf_calls w; htabs := htabs w |}.
Definition with_blocks n w : qworld := {| ql := ql w; nodes := nodes w; brk := brk w; blocks := n; errno := errno w; lzf_calls := lzf_calls w; htabs := htabs w |}.
Definition with_errno n w : qworld := {| ql := ql w; nodes := nodes w; brk := brk w; blocks := blocks w; errno := n; lzf_calls := lzf_calls w; htabs := htabs w |}.
Definition with_lzf_calls n w : qworld := {| ql := ql w; nodes := nodes w; brk := brk w; blocks := blocks w; errno := errno w; lzf_calls := n; htabs := htabs w |}.

Definition with_prev p n : quicklistNode := {| prev := p; next := next n; zl := zl n; sz := sz n; count := count n; encoding := encoding n; recompress := recompress n |}.
Definition with_next p n : quicklistNode := {| prev := prev n; next := p; zl := zl n; sz := sz n; count := count n; encoding := encoding n; recompress := recompress n |}.
Definition with_zl b n : quicklistNode := {| prev := prev n; next := next n; zl := b; sz := sz n; count := count n; encoding := encoding n; recompress := recompress n |}.
Definition with_sz k n : quicklistNode := {| prev := prev n; next := next n; zl := zl n; sz := u32 k; count := count n; encoding := encoding n; recompress := recompress n |}.
Definition with_count k n : quicklistNode := {| prev := prev n; next := next n; zl := zl n; sz := sz n; count := u16 k; encoding := encoding n; recompress := recompress n |}.
Definition with_encoding e n : quicklistNode := {| prev := prev n; next := next n; zl := zl n; sz := sz n; count := count n; encoding := e; recompress := recompress n |}.
Definition with_recompress r n : quicklistNode := {| prev := prev n; next := next n; zl := zl n; sz := sz n; count := count n; encoding := encoding n; recompress := r |}.
Definition with_head p q : quicklist := {| head := p; tail := tail q; qcount := qcount q; qlen := qlen q; fill := fill q; compress := compress q |}.
Definition with_tail p q : quicklist := {| head := head q; tail := p; qcount := qcount q; qlen := qlen q; fill := fill q; compress := compress q |}.
Definition with_qcount n q : quicklist := {| head := head q; tail := tail q; qcount := u64 n; qlen := qlen q; fill := fill q; compress := compress q |}.
Definition with_qlen n q : quicklist := {| head := head q; tail := tail q; qcount := qcount q; qlen := u64 n; fill := fill q; compress := compress q |}.
(** Both are bit fields of 16 bits, the first one signed. *)
Definition with_fill n q : quicklist := {| head := head q; tail := tail q; qcount := qcount q; qlen := qlen q; fill := i16 n; compress := compress q |}.
Definition with_compress n q : quicklist := {| head := head q; tail := tail q; qcount := qcount q; qlen := qlen q; fill := fill q; compress := u16 n |}.

Abbreviation Q := (M qworld).

(** ** Access *)
Definition the_ql : Q quicklist := fun w => match ql w with Some q => Ret q w | None => Fault OutOfBounds end.
Definition upd_ql (f : quicklist -> quicklist) : Q unit := let* q := the_ql in let* w := get in put (with_ql (Some (f q)) w).
(** [*p] *)
Definition node (p : positive) : Q quicklistNode := fun w => match nodes w !! p with Some n => Ret n w | None => Fault OutOfBounds end.
Definition upd_node (p : positive) (f : quicklistNode -> quicklistNode) : Q unit :=
  let* n := node p in let* w := get in put (with_nodes (<[p := f n]> (nodes w)) w).
Definition deref (p : option positive) : Q positive := match p with Some p => ret p | None => fail NullDeref end.
(** A pointer that may be NULL is followed if it is not. *)
Definition if_node (p : option positive) (k : positive -> Q unit) : Q unit := match p with Some p => k p | None => ret tt end.
(** [zl] as a ziplist, and as a [quicklistLZF]. *)
Definition ziplist_of (p : positive) : Q buf :=
  let* n := node p in match zl n with Some (Plain b) => ret b | Some (Packed _ _) => fail BadCast | None => fail NullDeref end.
Definition lzf_of (p : positive) : Q (Z * list Z) :=
  let* n := node p in match zl n with Some (Packed k c) => ret (k, c) | Some (Plain _) => fail BadCast | None => fail NullDeref end.
Definition set_ziplist (p : positive) (b : buf) : Q unit := upd_node p (with_zl (Some (Plain b))).
Definition zmalloc_block : Q unit := let* w := get in put (with_blocks (blocks w + 1) w).
Definition zfree_block : Q unit := let* w := get in put (with_blocks (blocks w - 1) w).
Definition zfree_zl (b : option zblock) : Q unit := match b with Some _ => zfree_block | None => ret tt end.
Definition zfree_node (p : positive) : Q unit :=
  let* _ := node p in let* w := get in put (with_nodes (delete p (nodes w)) w).
(** A new block with an empty ziplist. *)
Definition new_ziplist : Q buf := zmalloc_block ;;; ziplistNew.
(** A call that may set [errno]. *)
Definition with_errno_of {A} (m : M Z A) : Q A := fun w =>
  match m (errno w) with Ret a e => Ret a (with_errno e w) | Fault f => Fault f | NoFuel => NoFuel end.
(** What the table of the next call of [lzf_compress] holds. *)
Definition next_htab : Q LZF_STATE := fun w => Ret (htabs w (lzf_calls w)) (with_lzf_calls (Datatypes.S (lzf_calls w)) w).

(** ** Creation *)
Definition quicklistCreate : Q unit :=
  let* w := get in
  put (with_ql (Some {| head := None; tail := None; qcount := 0; qlen := 0; compress := 0; fill := -2 |}) w).
Definition quicklistSetCompressDepth (compress : Z) : Q unit :=
  let compress := if COMPRESS_MAX <? compress then COMPRESS_MAX else if compress <? 0 then 0 else compress in
  upd_ql (with_compress compress).
Definition quicklistSetFill (fill : Z) : Q unit :=
  let fill := if FILL_MAX <? fill then FILL_MAX else if fill <? -5 then -5 else fill in
  upd_ql (with_fill fill).
Definition quicklistSetOptions (fill depth : Z) : Q unit := quicklistSetFill fill ;;; quicklistSetCompressDepth depth.
Definition quicklistNew (fill compress : Z) : Q unit := quicklistCreate ;;; quicklistSetOptions fill compress.
Definition quicklistCreateNode : Q positive :=
  let* w := get in
  let p := brk w in
  put (with_brk (Pos.succ p) (with_nodes (<[p := {| prev := None; next := None; zl := None; sz := 0; count := 0;
    encoding := QUICKLIST_NODE_ENCODING_RAW; recompress := false |}]> (nodes w)) w)) ;;; ret p.
Definition quicklistCount : Q Z := let* q := the_ql in ret (qcount q).

(** [while (len--)] *)
Fixpoint release_turns (n : nat) (current : option positive) : Q unit :=
  match n with
  | O => ret tt
  | Datatypes.S n =>
      let* p := deref current in
      let* x := node p in
      zfree_zl (zl x) ;;;
      upd_ql (fun q => with_qcount (qcount q - count x) q) ;;;
      zfree_node p ;;;
      upd_ql (fun q => with_qlen (qlen q - 1) q) ;;;
      release_turns n (next x)
  end.
Definition quicklistRelease : Q unit :=
  let* q := the_ql in
  release_turns (Z.to_nat (qlen q)) (head q) ;;;
  let* w := get in put (with_ql None w).

(** ** Compression *)
Definition __quicklistCompressNode (p : positive) : Q Z :=
  let* x := node p in
  if sz x <? MIN_COMPRESS_BYTES then ret 0
  else
    zmalloc_block ;;;
    let* b := ziplist_of p in
    let* data := rd_bytes b (sz x) in
    let* tab := next_htab in
    let* (n, out) := lzf_compress tab data (sz x) (uninit (sz x)) (sz x) in
    if (n =? 0) || (sz x <=? u32 (n + MIN_COMPRESS_IMPROVE)) then zfree_block ;;; ret 0
    else
      let* c := rd_bytes out n in
      zfree_zl (zl x) ;;;
      upd_node p (fun x => with_recompress false (with_encoding QUICKLIST_NODE_ENCODING_LZF (with_zl (Some (Packed n c)) x))) ;;;
      ret 1.
Definition quicklistCompressNode (p : option positive) : Q unit :=
  if_node p (fun p =>
    let* x := node p in
    if encoding x =? QUICKLIST_NODE_ENCODING_RAW then let* _ := __quicklistCompressNode p in ret tt else ret tt).
Definition __quicklistDecompressNode (p : positive) : Q Z :=
  let* x := node p in
  zmalloc_block ;;;
  let* (k, c) := lzf_of p in
  let* (n, out) := with_errno_of (lzf_decompress c k (uninit (sz x)) (sz x)) in
  if n =? 0 then zfree_block ;;; ret 0
  else
    zfree_zl (zl x) ;;;
    upd_node p (fun x => with_encoding QUICKLIST_NODE_ENCODING_RAW (with_zl (Some (Plain out)) x)) ;;;
    ret 1.
Definition quicklistDecompressNode (p : option positive) : Q unit :=
  if_node p (fun p =>
    let* x := node p in
    if encoding x =? QUICKLIST_NODE_ENCODING_LZF then let* _ := __quicklistDecompressNode p in ret tt else ret tt).
Definition quicklistDecompressNodeForUse (p : option positive) : Q unit :=
  if_node p (fun p =>
    let* x := node p in
    if encoding x =? QUICKLIST_NODE_ENCODING_LZF then
      let* _ := __quicklistDecompressNode p in upd_node p (with_recompress true)
    else ret tt).
Definition quicklistGetLzf (p : positive) : Q (Z * list Z) := lzf_of p.
Definition quicklistAllowsCompression (q : quicklist) : bool := negb (compress q =? 0).

(** [forward], [reverse], [depth] and [in_depth]; [None] when the function returns inside the loop. *)
Definition depth_turn (q : quicklist) (x : option positive) (a : option positive * option positive * Z * bool)
    : Q (option positive * option positive * Z * bool + option (option positive * option positive * Z * bool)) :=
  let '(forward, reverse, depth, in_depth) := a in
  if depth <? compress q then
    quicklistDecompressNode forward ;;;
    quicklistDecompressNode reverse ;;;
    let in_depth := in_depth || bool_decide (forward = x) || bool_decide (reverse = x) in
    if bool_decide (forward = reverse) then ret (inr None)
    else
      let* f := deref forward in
      let* f := node f in
      let* r := deref reverse in
      let* r := node r in
      ret (inl (next f, prev r, depth + 1, in_depth))
  else ret (inr (Some (forward, reverse, depth + 1, in_depth))).
Definition __quicklistCompress (x : option positive) : Q unit :=
  let* q := the_ql in
  if negb (quicklistAllowsCompression q) || (qlen q <? u32 (compress q * 2)) then ret tt
  else
    let* r := while_loop (Datatypes.S (Z.to_nat (compress q))) (depth_turn q x) (head q, tail q, 0, false) in
    match r with
    | None => ret tt
    | Some (forward, reverse, depth, in_depth) =>
        (if in_depth : bool then ret tt else quicklistCompressNode x) ;;;
        if 2 <? depth then quicklistCompressNode forward ;;; quicklistCompressNode reverse else ret tt
    end.
Definition quicklistCompress (p : positive) : Q unit :=
  let* x := node p in if recompress x then quicklistCompressNode (Some p) else __quicklistCompress (Some p).
Definition quicklistRecompressOnly (p : positive) : Q unit :=
  let* x := node p in if recompress x then quicklistCompressNode (Some p) else ret tt.

(** ** Nodes *)
(** The links of the new node, of its neighbours and of the list. *)
Definition link_node (old_node : option positive) (new_node : positive) (after : bool) : Q unit :=
  if after then
    upd_node new_node (with_prev old_node) ;;;
    if_node old_node (fun old =>
      let* o := node old in
      upd_node new_node (with_next (next o)) ;;;
      if_node (next o) (fun p => upd_node p (with_prev (Some new_node))) ;;;
      upd_node old (with_next (Some new_node))) ;;;
    let* q := the_ql in
    if bool_decide (tail q = old_node) then upd_ql (with_tail (Some new_node)) else ret tt
  else
    upd_node new_node (with_next old_node) ;;;
    if_node old_node (fun old =>
      let* o := node old in
      upd_node new_node (with_prev (prev o)) ;;;
      if_node (prev o) (fun p => upd_node p (with_next (Some new_node))) ;;;
      upd_node old (with_prev (Some new_node))) ;;;
    let* q := the_ql in
    if bool_decide (head q = old_node) then upd_ql (with_head (Some new_node)) else ret tt.
(** The rest of the function. *)
Definition linked_node (old_node : option positive) (new_node : positive) : Q unit :=
  (let* q := the_ql in
   if qlen q =? 0 then upd_ql (fun q => with_tail (Some new_node) (with_head (Some new_node) q)) else ret tt) ;;;
  if_node old_node quicklistCompress ;;;
  upd_ql (fun q => with_qlen (qlen q + 1) q).
Definition __quicklistInsertNode (old_node : option positive) (new_node : positive) (after : bool) : Q unit :=
  link_node old_node new_node after ;;; linked_node old_node new_node.
Definition _quicklistInsertNodeBefore (old_node : option positive) (new_node : positive) : Q unit := __quicklistInsertNode old_node new_node false.
Definition _quicklistInsertNodeAfter (old_node : option positive) (new_node : positive) : Q unit := __quicklistInsertNode old_node new_node true.

Definition _quicklistNodeSizeMeetsOptimizationRequirement (size fill : Z) : bool :=
  if 0 <=? fill then false
  else match optimization_level !! Z.to_nat (- fill - 1) with Some limit => size <=? limit | None => false end.
Definition sizeMeetsSafetyLimit (size : Z) : bool := size <=? SIZE_SAFETY_LIMIT.
Definition _quicklistNodeAllowInsert (p : option positive) (fill size : Z) : Q bool :=
  match p with
  | None => ret false
  | Some p =>
      let ziplist_overhead := if size <? 254 then 1 else 5 in
      let ziplist_overhead := ziplist_overhead + (if size <? 64 then 1 else if size <? 16384 then 2 else 5) in
      let* x := node p in
      let new_sz := u32 (sz x + size + ziplist_overhead) in
      ret (if _quicklistNodeSizeMeetsOptimizationRequirement new_sz fill then true
           else if negb (sizeMeetsSafetyLimit new_sz) then false
           else count x <? fill)
  end.
Definition _quicklistNodeAllowMerge (a b : option positive) (fill : Z) : Q bool :=
  match a, b with
  | Some a, Some b =>
      let* a := node a in
      let* b := node b in
      let merge_sz := u32 (sz a + sz b - 11) in
      ret (if _quicklistNodeSizeMeetsOptimizationRequirement merge_sz fill then true
           else if negb (sizeMeetsSafetyLimit merge_sz) then false
           else count a + count b <=? fill)
  | _, _ => ret false
  end.
Definition quicklistNodeUpdateSz (p : positive) : Q unit :=
  let* b := ziplist_of p in let* n := ziplistBlobLen b in upd_node p (with_sz n).

(** [node->zl = ziplistPush(node->zl, value, sz, where); quicklistNodeUpdateSz(node);] *)
Definition push_into (p : positive) (value : buf) (size : Z) (at_head : bool) : Q unit :=
  let* b := ziplist_of p in
  let* b := ziplistPush b value (u32 size) at_head in
  set_ziplist p b ;;; quicklistNodeUpdateSz p.
(** [node = quicklistCreateNode(); node->zl = ziplistPush(ziplistNew(), value, sz, where);] *)
Definition node_with (value : buf) (size : Z) (at_head : bool) : Q positive :=
  let* p := quicklistCreateNode in
  let* b := new_ziplist in
  let* b := ziplistPush b value (u32 size) at_head in
  set_ziplist p b ;;; ret p.

(** Whether a new head, or tail, was created. *)
Definition quicklistPushHead (value : buf) (size : Z) : Q bool :=
  let* q := the_ql in
  let orig_head := head q in
  let* allow := _quicklistNodeAllowInsert (head q) (fill q) size in
  (if allow : bool then let* h := deref (head q) in push_into h value size true
   else
     let* p := node_with value size true in
     quicklistNodeUpdateSz p ;;;
     _quicklistInsertNodeBefore (head q) p) ;;;
  upd_ql (fun q => with_qcount (qcount q + 1) q) ;;;
  let* q := the_ql in
  let* h := deref (head q) in
  upd_node h (fun x => with_count (count x + 1) x) ;;;
  ret (negb (bool_decide (orig_head = head q))).
Definition quicklistPushTail (value : buf) (size : Z) : Q bool :=
  let* q := the_ql in
  let orig_tail := tail q in
  let* allow := _quicklistNodeAllowInsert (tail q) (fill q) size in
  (if allow : bool then let* t := deref (tail q) in push_into t value size false
   else
     let* p := node_with value size false in
     quicklistNodeUpdateSz p ;;;
     _quicklistInsertNodeAfter (tail q) p) ;;;
  upd_ql (fun q => with_qcount (qcount q + 1) q) ;;;
  let* q := the_ql in
  let* t := deref (tail q) in
  upd_node t (fun x => with_count (count x + 1) x) ;;;
  ret (negb (bool_decide (orig_tail = tail q))).
Definition quicklistPush (value : buf) (size : Z) (at_head : bool) : Q bool :=
  if at_head then quicklistPushHead value size else quicklistPushTail value size.

(** The block of [b] becomes that of a node. *)
Definition quicklistAppendZiplist (b : buf) : Q unit :=
  let* p := quicklistCreateNode in
  set_ziplist p b ;;;
  let* (b, n) := ziplistLen b in
  set_ziplist p b ;;;
  upd_node p (with_count n) ;;;
  let* n := ziplistBlobLen b in
  upd_node p (with_sz n) ;;;
  let* q := the_ql in
  _quicklistInsertNodeAfter (tail q) p ;;;
  let* x := node p in
  upd_ql (fun q => with_qcount (qcount q + count x) q).

(** What [ziplistGet] found, as a text: where it is in memory and how long. *)
Definition as_text (b : buf) (v : zlvalue) : Q (buf * Z) :=
  match v with
  | ZlString off n => ret (take (Z.to_nat n) (drop (Z.to_nat off) b), n)
  | ZlInteger x => ll2string (replicate 32 (Some 0)) 32 x
  end.
Definition append_turn (b : buf) (p : option Z) : Q (option Z + unit) :=
  let* r := ziplistGet b p in
  match r, p with
  | Some v, Some p =>
      let* (value, n) := as_text b v in
      let* _ := quicklistPushTail value n in
      let* p := ziplistNext b p in ret (inl p)
  | _, _ => ret (inr tt)
  end.
Definition quicklistAppendValuesFromZiplist (b : buf) : Q unit :=
  let* p := ziplistIndex b 0 in
  while_loop (list_turns b) (append_turn b) p ;;;
  zfree_block.
Definition quicklistCreateFromZiplist (fill compress : Z) (b : buf) : Q unit :=
  quicklistNew fill compress ;;; quicklistAppendValuesFromZiplist b.

(** The links of its neighbours and of the list. *)
Definition unlink_node (p : positive) : Q unit :=
  let* x := node p in
  if_node (next x) (fun n => upd_node n (with_prev (prev x))) ;;;
  (let* x := node p in if_node (prev x) (fun n => upd_node n (with_next (next x)))) ;;;
  (let* q := the_ql in if bool_decide (tail q = Some p) then upd_ql (with_tail (prev x)) else ret tt) ;;;
  let* q := the_ql in if bool_decide (head q = Some p) then upd_ql (with_head (next x)) else ret tt.
Definition __quicklistDelNode (p : positive) : Q unit :=
  unlink_node p ;;;
  __quicklistCompress None ;;;
  let* x := node p in
  upd_ql (fun q => with_qcount (qcount q - count x) q) ;;;
  zfree_zl (zl x) ;;;
  zfree_node p ;;;
  upd_ql (fun q => with_qlen (qlen q - 1) q).

(** Whether the node is gone; the pointer of the entry stays where it was. *)
Definition quicklistDelIndex (p : positive) (zi : Z) : Q bool :=
  let* b := ziplist_of p in
  let* (b, _) := ziplistDelete b zi in
  set_ziplist p b ;;;
  upd_node p (fun x => with_count (count x - 1) x) ;;;
  let* x := node p in
  let gone := count x =? 0 in
  (if gone then __quicklistDelNode p else quicklistNodeUpdateSz p) ;;;
  upd_ql (fun q => with_qcount (qcount q - 1) q) ;;;
  ret gone.

(** ** Entries *)
Record quicklistEntry := { enode : option positive; zi : option Z; value : option zlvalue; offset : Z }.
Definition initEntry : quicklistEntry := {| enode := None; zi := None; value := None; offset := 123456789 |}.

(** The node that holds the entry, and how many are passed over. *)
Definition index_turn (forward : bool) (index : Z) (a : option positive * Z) : Q (option positive * Z + option positive * Z) :=
  let '(n, accum) := a in
  match n with
  | None => ret (inr (None, accum))
  | Some p =>
      let* x := node p in
      if index <? u64 (accum + count x) then ret (inr (Some p, accum))
      else ret (inl (if forward then next x else prev x, u64 (accum + count x)))
  end.
Definition quicklistIndex (idx : Z) : Q (option quicklistEntry) :=
  let* q := the_ql in
  let forward := negb (idx <? 0) in
  let index := if forward then idx else - idx - 1 in
  if qcount q <=? index then ret None
  else
    let* (n, accum) := while_loop (Datatypes.S (Z.to_nat (qlen q))) (index_turn forward index) (if forward then head q else tail q, 0) in
    match n with
    | None => ret None
    | Some p =>
        let offset := i32 (if forward then index - accum else - index - 1 + accum) in
        quicklistDecompressNodeForUse (Some p) ;;;
        let* b := ziplist_of p in
        let* zi := ziplistIndex b offset in
        let* v := ziplistGet b zi in
        ret (Some {| enode := Some p; zi := zi; value := v; offset := offset |})
    end.

Definition quicklistReplaceAtIndex (index : Z) (data : buf) (size : Z) : Q bool :=
  let* e := quicklistIndex index in
  match e with
  | Some {| enode := Some p; zi := Some zi |} =>
      let* b := ziplist_of p in
      let* (b, zi) := ziplistDelete b zi in
      set_ziplist p b ;;;
      let* b := ziplistInsert b zi data (u32 size) in
      set_ziplist p b ;;;
      quicklistNodeUpdateSz p ;;;
      quicklistCompress p ;;;
      ret true
  | Some _ => fail NullDeref
  | None => ret false
  end.

(** ** Ranges *)

(** [quicklistDeleteIfEmpty]: the pointer is NULL afterwards if the node was. *)
Definition quicklistDeleteIfEmpty (p : positive) : Q (option positive) :=
  let* x := node p in
  if count x =? 0 then __quicklistDelNode p ;;; ret None else ret (Some p).
Definition del_turn (a : option positive * Z * Z) : Q (option positive * Z * Z + unit) :=
  let '(p, offset, extent) := a in
  if extent =? 0 then ret (inr tt)
  else
    let* p := deref p in
    let* x := node p in
    let next := next x in
    let whole := (offset =? 0) && (count x <=? extent) in
    let del := if whole then count x
               else if (0 <=? offset) && (count x <=? extent) then u64 (count x - offset)
               else if offset <? 0 then (let del := u64 (- offset) in if extent <? del then extent else del)
               else extent in
    (if whole then __quicklistDelNode p
     else
       quicklistDecompressNodeForUse (Some p) ;;;
       let* b := ziplist_of p in
       let* b := ziplistDeleteRange b offset (u32 del) in
       set_ziplist p b ;;;
       quicklistNodeUpdateSz p ;;;
       upd_node p (fun x => with_count (count x - del) x) ;;;
       upd_ql (fun q => with_qcount (qcount q - del) q) ;;;
       let* r := quicklistDeleteIfEmpty p in
       if_node r quicklistRecompressOnly) ;;;
    ret (inl (next, 0, u64 (extent - del))).
Definition quicklistDelRange (start number : Z) : Q bool :=
  if number <=? 0 then ret false
  else
    let* q := the_ql in
    let extent := number in
    let extent := if (0 <=? start) && (u64 (qcount q - start) <? extent) then u64 (qcount q - start)
                  else if (start <? 0) && (u64 (- start) <? extent) then u64 (- start)
                  else extent in
    let* e := quicklistIndex start in
    match e with
    | None => ret false
    | Some e => while_loop (Datatypes.S (Z.to_nat (qlen q))) del_turn (enode e, offset e, extent) ;;; ret true
    end.
Definition quicklistCompare (b : buf) (p : Z) (p2 : buf) (p2_len : Z) : Q Z := ziplistCompare b p p2 p2_len.

(** ** Iterators *)
Record quicklistIter := { icurrent : option positive; izi : option Z; ioffset : Z; from_head : bool }.
Definition quicklistGetIterator (from_head : bool) : Q quicklistIter :=
  let* q := the_ql in
  ret {| icurrent := if from_head then head q else tail q; izi := None; ioffset := if from_head then 0 else -1; from_head := from_head |}.
Definition quicklistGetIteratorAtIdx (from_head : bool) (idx : Z) : Q (option quicklistIter) :=
  let* e := quicklistIndex idx in
  match e with
  | Some e => ret (Some {| icurrent := enode e; izi := None; ioffset := offset e; from_head := from_head |})
  | None => ret None
  end.
Definition quicklistReleaseIterator (iter : quicklistIter) : Q unit := if_node (icurrent iter) quicklistCompress.

(** One call of [quicklistNext], which calls itself at the end of a node. *)
Definition iter_turn (iter : quicklistIter) : Q (quicklistIter + quicklistIter * option quicklistEntry) :=
  match icurrent iter with
  | None => ret (inr (iter, None))
  | Some p =>
      let* (zi, offset) :=
        (match izi iter with
         | None =>
             quicklistDecompressNodeForUse (Some p) ;;;
             let* b := ziplist_of p in
             let* zi := ziplistIndex b (ioffset iter) in ret (zi, ioffset iter)
         | Some zi =>
             let* b := ziplist_of p in
             let* zi := (if from_head iter then ziplistNext b zi else ziplistPrev b zi) in
             ret (zi, ioffset iter + (if from_head iter then 1 else -1))
         end) in
      match zi with
      | Some _ =>
          let* b := ziplist_of p in
          let* v := ziplistGet b zi in
          ret (inr ({| icurrent := Some p; izi := zi; ioffset := offset; from_head := from_head iter |},
                    Some {| enode := Some p; zi := zi; value := v; offset := offset |}))
      | None =>
          quicklistCompress p ;;;
          let* x := node p in
          ret (inl {| icurrent := if from_head iter then next x else prev x; izi := None;
                      ioffset := if from_head iter then 0 else -1; from_head := from_head iter |})
      end
  end.
Definition quicklistNext (iter : option quicklistIter) : Q (option quicklistIter * option quicklistEntry) :=
  match iter with
  | None => ret (None, None)
  | Some iter =>
      let* q := the_ql in
      let* (iter, e) := while_loop (Datatypes.S (Datatypes.S (Z.to_nat (qlen q)))) iter_turn iter in ret (Some iter, e)
  end.

Definition quicklistDelEntry (iter : quicklistIter) (e : quicklistEntry) : Q quicklistIter :=
  let* p := deref (enode e) in
  let* x := node p in
  match zi e with
  | None => fail NullDeref
  | Some z =>
      let* gone := quicklistDelIndex p z in
      ret (if gone : bool then
             {| icurrent := if from_head iter then next x else prev x; izi := None;
                ioffset := if from_head iter then 0 else -1; from_head := from_head iter |}
           else {| icurrent := icurrent iter; izi := None; ioffset := ioffset iter; from_head := from_head iter |})
  end.

(** ** Merging and splitting nodes *)

(** The node that is kept, if the two were merged. The block of the other one is released and its [zl] is NULL. *)
Definition _quicklistZiplistMerge (a b : positive) : Q (option positive) :=
  quicklistDecompressNode (Some a) ;;;
  quicklistDecompressNode (Some b) ;;;
  let* za := ziplist_of a in
  let* zb := ziplist_of b in
  let* r := ziplistMerge (Some za) (Some zb) (bool_decide (a = b)) in
  match r with
  | Some (merged, append) =>
      let '(keep, nokeep) := if append : bool then (a, b) else (b, a) in
      set_ziplist keep merged ;;;
      zfree_block ;;;
      upd_node nokeep (with_zl None) ;;;
      let* (merged, n) := ziplistLen merged in
      set_ziplist keep merged ;;;
      upd_node keep (with_count n) ;;;
      quicklistNodeUpdateSz keep ;;;
      upd_node nokeep (with_count 0) ;;;
      __quicklistDelNode nokeep ;;;
      quicklistCompress keep ;;;
      ret (Some keep)
  | None => ret None
  end.
Definition merge_if (a b : option positive) : Q (option positive) :=
  let* a := deref a in let* b := deref b in _quicklistZiplistMerge a b.
Definition _quicklistMergeNodes (center : positive) : Q unit :=
  let* q := the_ql in
  let* c := node center in
  let prev_ := prev c in
  let* prev_prev := (match prev_ with Some p => let* x := node p in ret (prev x) | None => ret None end) in
  let next_ := next c in
  let* next_next := (match next_ with Some p => let* x := node p in ret (next x) | None => ret None end) in
  let* allow := _quicklistNodeAllowMerge prev_ prev_prev (fill q) in
  (if allow : bool then let* _ := merge_if prev_prev prev_ in ret tt else ret tt) ;;;
  let* allow := _quicklistNodeAllowMerge next_ next_next (fill q) in
  (if allow : bool then let* _ := merge_if next_ next_next in ret tt else ret tt) ;;;
  let* c := node center in
  let* allow := _quicklistNodeAllowMerge (Some center) (prev c) (fill q) in
  let* target := (if allow : bool then merge_if (prev c) (Some center) else ret (Some center)) in
  let* t := deref target in
  let* x := node t in
  let* allow := _quicklistNodeAllowMerge target (next x) (fill q) in
  if allow : bool then let* _ := merge_if target (next x) in ret tt else ret tt.

(** [int] arguments; -1 as a number of entries is the largest [unsigned int]. *)
Definition _quicklistSplitNode (p : positive) (offset : Z) (after : bool) : Q positive :=
  let* x := node p in
  let* new := quicklistCreateNode in
  zmalloc_block ;;;
  let* b := ziplist_of p in
  let* copy := memcpy (uninit (sz x)) 0 b 0 (sz x) in
  set_ziplist new copy ;;;
  let orig_start := if after then i32 (offset + 1) else 0 in
  let orig_extent := if after then -1 else offset in
  let new_start := if after then 0 else offset in
  let new_extent := if after then i32 (offset + 1) else -1 in
  let* b := ziplist_of p in
  let* b := ziplistDeleteRange b orig_start (u32 orig_extent) in
  let* (b, n) := ziplistLen b in
  set_ziplist p b ;;;
  upd_node p (with_count n) ;;;
  quicklistNodeUpdateSz p ;;;
  let* b := ziplist_of new in
  let* b := ziplistDeleteRange b new_start (u32 new_extent) in
  let* (b, n) := ziplistLen b in
  set_ziplist new b ;;;
  upd_node new (with_count n) ;;;
  quicklistNodeUpdateSz new ;;;
  ret new.

(** Into the ziplist of a node that may be compressed. *)
Definition insert_into (p : positive) (insert : buf -> Q buf) : Q unit :=
  quicklistDecompressNodeForUse (Some p) ;;;
  let* b := ziplist_of p in
  let* b := insert b in
  set_ziplist p b ;;;
  upd_node p (fun x => with_count (count x + 1) x) ;;;
  quicklistNodeUpdateSz p ;;;
  quicklistRecompressOnly p.
(** A new node with the value alone. *)
Definition single_node (value : buf) (size : Z) : Q positive :=
  let* p := node_with value size true in upd_node p (fun x => with_count (count x + 1) x) ;;; ret p.
Definition _quicklistInsert (e : quicklistEntry) (value : buf) (size : Z) (after : bool) : Q unit :=
  let* q := the_ql in
  match enode e with
  | None =>
      let* new := node_with value size true in
      __quicklistInsertNode None new after ;;;
      upd_node new (fun x => with_count (count x + 1) x) ;;;
      upd_ql (fun q => with_qcount (qcount q + 1) q)
  | Some p =>
      let* x := node p in
      let* room := _quicklistNodeAllowInsert (Some p) (fill q) size in
      let full := negb room in
      let at_tail := after && (offset e =? count x) in
      let* full_next := (if at_tail then let* room := _quicklistNodeAllowInsert (next x) (fill q) size in ret (negb room) else ret false) in
      let at_head := negb after && (offset e =? 0) in
      let* full_prev := (if at_head then let* room := _quicklistNodeAllowInsert (prev x) (fill q) size in ret (negb room) else ret false) in
      (if negb full && after then
         insert_into p (fun b =>
           match zi e with
           | None => fail NullDeref
           | Some z =>
               let* n := ziplistNext b z in
               match n with
               | None => ziplistPush b value (u32 size) false
               | Some n => ziplistInsert b n value (u32 size)
               end
           end)
       else if negb full && negb after then
         insert_into p (fun b => match zi e with None => fail NullDeref | Some z => ziplistInsert b z value (u32 size) end)
       else if full && at_tail && bool_decide (is_Some (next x)) && negb full_next && after then
         let* n := deref (next x) in insert_into n (fun b => ziplistPush b value (u32 size) true)
       else if full && at_head && bool_decide (is_Some (prev x)) && negb full_prev && negb after then
         let* n := deref (prev x) in insert_into n (fun b => ziplistPush b value (u32 size) false)
       else if full && ((at_tail && bool_decide (is_Some (next x)) && full_next && after) ||
                        (at_head && bool_decide (is_Some (prev x)) && full_prev && negb after)) then
         let* new := single_node value size in
         quicklistNodeUpdateSz new ;;;
         __quicklistInsertNode (Some p) new after
       else if full then
         quicklistDecompressNodeForUse (Some p) ;;;
         let* new := _quicklistSplitNode p (offset e) after in
         let* b := ziplist_of new in
         let* b := ziplistPush b value (u32 size) after in
         set_ziplist new b ;;;
         upd_node new (fun x => with_count (count x + 1) x) ;;;
         quicklistNodeUpdateSz new ;;;
         __quicklistInsertNode (Some p) new after ;;;
         _quicklistMergeNodes p
       else ret tt) ;;;
      upd_ql (fun q => with_qcount (qcount q + 1) q)
  end.
Definition quicklistInsertBefore (e : quicklistEntry) (value : buf) (size : Z) : Q unit := _quicklistInsert e value size false.
Definition quicklistInsertAfter (e : quicklistEntry) (value : buf) (size : Z) : Q unit := _quicklistInsert e value size true.

(** ** Rotation and popping *)

(** The value pushed is a pointer into the ziplist of the tail: if that is the block the value is pushed
    into, [zrealloc] releases it before it is read. *)
Definition quicklistRotate : Q unit :=
  let* q := the_ql in
  if qcount q <=? 1 then ret tt
  else
    let* t := deref (tail q) in
    let* b := ziplist_of t in
    let* p := ziplistIndex b (-1) in
    let* r := ziplistGet b p in
    match r with
    | None => fail Uninit
    | Some v =>
        let* (value, n) := as_text b v in
        let* same_block := (match v with
                            | ZlString _ _ => let* allow := _quicklistNodeAllowInsert (head q) (fill q) n in
                                              ret (allow && bool_decide (head q = tail q))
                            | ZlInteger _ => ret false end) in
        if same_block : bool then fail OutOfBounds
        else
          let* _ := quicklistPushHead value n in
          let* q := the_ql in
          let* t := deref (tail q) in
          let* p := (if qlen q =? 1 then let* b := ziplist_of t in ziplistIndex b (-1) else ret p) in
          match p with
          | None => fail NullDeref
          | Some p => let* _ := quicklistDelIndex t p in ret tt
          end
    end.

(** The bytes of a popped string as [saver] keeps them, or the integer; [None] is the result 0. *)
Definition quicklistPopCustom {A} (at_head : bool) (saver : buf -> Z -> Q A) : Q (option (A + Z)) :=
  let pos := if at_head then 0 else -1 in
  let* q := the_ql in
  if qcount q =? 0 then ret None
  else
    match (if at_head then head q else tail q) with
    | None => ret None
    | Some p =>
        let* b := ziplist_of p in
        let* zi := ziplistIndex b pos in
        let* r := ziplistGet b zi in
        match r, zi with
        | Some v, Some zi =>
            let* data := (match v with
                          | ZlString off n => let* d := saver (take (Z.to_nat n) (drop (Z.to_nat off) b)) n in ret (inl d)
                          | ZlInteger x => ret (inr x)
                          end) in
            let* _ := quicklistDelIndex p zi in ret (Some data)
        | _, _ => ret None
        end
    end.
Definition _quicklistSaver (data : buf) (size : Z) : Q buf := memcpy (uninit size) 0 data 0 size.
Definition quicklistPop (at_head : bool) : Q (option (buf + Z)) :=
  let* q := the_ql in
  if qcount q =? 0 then ret None else quicklistPopCustom at_head _quicklistSaver.
