(* ===== verification/QlList.v ===== *)
(** The list of a quicklist in its heap: nodes, their ziplists, compressed or not, the
    operations that compress and expand one of them, and compression from both ends of the
    list: which nodes are ziplists after it. *)
From S2P Require Import Prelude Intset IntsetProofs Util Lzf LzfProofs LzfCompress Ziplist ZlMem ZlEntry ZlList ZlCascade ZlInsert ZlAccess PackedList Quicklist.
#[local] Open Scope Z_scope.
Implicit Types (w : qworld) (x : quicklistNode) (p : positive) (ps : list positive) (ts : list text) (L : list (list text)) (b : buf).

(** ** Nodes *)

(** The texts of a node: few enough to count and to pack. *)
Definition small ts : Prop := zlen ts <= 32768 /\ ((exists t, ts = [t]) \/ room ts <= 2097152) /\ Forall (fun t => Forall is_u8 t /\ zlen t < 536870912) ts.
(** What a compressed block expands to. *)
Definition expands (k : Z) (c data : list Z) : Prop := forall back e, zlen data <= zlen back ->
  lzf_decompress c k back (zlen back) e = Ret (zlen data, (Some <$> data) ++ drop (length data) back) e.
Inductive packs : option zblock -> Z -> buf -> Prop :=
| packs_raw b : packs (Some (Plain b)) QUICKLIST_NODE_ENCODING_RAW b
| packs_lzf k c data : Forall is_u8 data -> expands k c data -> packs (Some (Packed k c)) QUICKLIST_NODE_ENCODING_LZF (Some <$> data).
Record node_ok x ts : Prop := {
  no_block : exists b, packs (zl x) (encoding x) b /\ holds_texts b ts /\ sz x = zlen b;
  no_small : small ts;
  no_recompress : recompress x = false
}.

(** ** The list *)
Definition before ps (i : nat) : option positive := match i with O => None | Datatypes.S i => ps !! i end.
Record listed w ps L : Prop := {
  li_nodup : NoDup ps;
  li_length : length ps = length L;
  li_nodes : forall i p, ps !! i = Some p -> exists x ts, nodes w !! p = Some x /\ L !! i = Some ts /\ node_ok x ts /\
    prev x = before ps i /\ next x = ps !! Datatypes.S i;
  li_htabs : forall i j, is_u32 (htabs w i j)
}.
(** Only the blocks of the nodes [ps] have changed. *)
Record same_env ps w w' : Prop := {
  se_ql : ql w' = ql w;
  se_brk : brk w' = brk w;
  se_blocks : blocks w' = blocks w;
  se_counts : forall p, count <$> nodes w' !! p = count <$> nodes w !! p;
  se_others : forall p, p ∉ ps -> nodes w' !! p = nodes w !! p
}.
Definition raw w p : Prop := exists x, nodes w !! p = Some x /\ encoding x = QUICKLIST_NODE_ENCODING_RAW.

Lemma same_env_refl ps w : same_env ps w w.
Proof. done. Qed.
Lemma same_env_trans ps w1 w2 w3 : same_env ps w1 w2 -> same_env ps w2 w3 -> same_env ps w1 w3.
Proof. intros [A1 A2 A3 A4 A5] [B1 B2 B3 B4 B5]. split; try congruence; intros p Hp; by rewrite B5, A5. Qed.

Lemma room_block b es n ts : zl_ok b es n -> eval <$> es = value_of <$> ts -> room ts <= 22 * zlen b /\ 2 * zlen ts <= zlen b.
Proof.
  intros Hzl Hts. rewrite (en_size _ _ _ (zl_ending _ _ _ Hzl)). pose proof (zlen_bytes_ge es). assert (Hl : zlen es = zlen ts).
  { apply (f_equal zlen) in Hts. by rewrite !zlen_fmap in Hts. }
  enough (room ts <= 22 * zlen (bytes_of es)) by lia. clear - Hts. revert ts Hts. induction es as [|e es IH]; intros ts Hts; destruct ts as [|t ts]; try done.
  injection Hts as He Hts. specialize (IH ts Hts). rewrite zlen_bytes_cons. cbn [room]. enough (22 + zlen t <= 22 * rlen e) by lia.
  rewrite rlen_eq, He. pose proof (zlen_header (value_of t)). pose proof (zlen_nonneg t). assert (1 <= psize (elarge e)) by (destruct (elarge e); cbn; lia).
  pose proof (zlen_nonneg (data_of (value_of t))). destruct (value_of_cases t) as [(v & Ev & _)|Ev]; [pose proof (int_text_short t v Ev); lia|rewrite Ev in *; cbn [data_of] in *; lia].
Qed.
Lemma small_fits ts : small ts -> fits ts.
Proof.
  intros (_ & H & Hf). unfold fits. destruct H as [[t ->]|H]; [|lia]. cbn [room]. apply Forall_cons in Hf as [[_ Hf] _]. lia.
Qed.
(** A ziplist has no byte that was never written. *)
Lemma block_bytes b ts : holds_texts b ts -> exists data, b = Some <$> data /\ Forall is_u8 data.
Proof.
  intros (es & n & [[H1 H2 H3 H4 H5 H6 H7] Hc Hn _] & _).
  set (l := le_bytes 4 (zlen b) ++ le_bytes 4 (tail_at 10 es) ++ le_bytes 2 n ++ bytes_of es ++ [255]).
  assert (Hl : has b 0 l). { unfold l. apply has_app. split; [done|]. rewrite zlen_le_bytes. apply has_app. split; [done|]. rewrite zlen_le_bytes. apply has_app. by split. }
  exists l. split; [apply has_all; [done|]; unfold l; rewrite !zlen_app, !zlen_le_bytes; change (zlen [255]) with 1; lia|].
  unfold l. repeat (apply Forall_app; split; [apply le_bytes_u8|]). apply Forall_app. split; [|by repeat constructor].
  clear - H7. induction H7 as [|e es He _ IH]; [constructor|]. rewrite bytes_cons. apply Forall_app. split; [|done].
  destruct He as (P1 & P2 & P3 & _). unfold ZlList.raw, body. apply Forall_app. split.
  - destruct (elarge e); cbn [prev_bytes]; [constructor; [unfold is_u8; lia|apply le_bytes_u8]|]. constructor; [|constructor]. specialize (P2 eq_refl). unfold is_u8. lia.
  - apply Forall_app. split; [by apply header_u8|]. destruct (eval e); [apply P3|apply le_bytes_u8].
Qed.

(** ** One node at a time *)
Lemma node_ret w p x : nodes w !! p = Some x -> node p w = Ret x w.
Proof. intros H. unfold node. by rewrite H. Qed.
Lemma upd_node_ret w p x f : nodes w !! p = Some x -> upd_node p f w = Ret tt (with_nodes (<[p := f x]> (nodes w)) w).
Proof. intros H. unfold upd_node. by rewrite (bind_ret_eq _ _ _ _ _ (node_ret w p x H)). Qed.
Lemma listed_node w ps L p : listed w ps L -> p ∈ ps -> exists x ts i, ps !! i = Some p /\ nodes w !! p = Some x /\ L !! i = Some ts /\ node_ok x ts.
Proof.
  intros Hl Hp. apply list_elem_of_lookup in Hp as [i Hi]. destruct (li_nodes _ _ _ Hl i p Hi) as (x & ts & Hx & Ht & Ho & _). by exists x, ts, i.
Qed.
Lemma listed_set w w' ps L i p x x' ts ts' : listed w ps L -> ps !! i = Some p -> nodes w !! p = Some x -> nodes w' = <[p := x']> (nodes w) -> L !! i = Some ts ->
  node_ok x' ts' -> prev x' = prev x -> next x' = next x -> htabs w' = htabs w -> listed w' ps (<[i := ts']> L).
Proof.
  intros [H1 H2 H3 H5] Hi Hx Hn Ht Ho Hp Hne Hh. split; [done|by rewrite length_insert| |by rewrite Hh].
  intros j q Hj. destruct (H3 j q Hj) as (y & tt & Hy & Hty & Hoy & Hpy & Hny). rewrite Hn. destruct (decide (j = i)) as [->|Hne'].
    + assert (q = p) as -> by congruence. assert (y = x) as -> by congruence. exists x', ts'. rewrite lookup_insert_eq, list_lookup_insert_eq by (by eapply lookup_lt_Some).
      split; [done|]. split; [done|]. split; [done|]. by rewrite Hp, Hne.
    + exists y, tt. rewrite lookup_insert_ne by (intros <-; apply Hne'; by eapply NoDup_lookup). by rewrite list_lookup_insert_ne.
Qed.

(** What compressing or expanding does to a node. *)
Record repacked w w' p x ts (x' : quicklistNode) : Prop := {
  rp_nodes : nodes w' = <[p := x']> (nodes w);
  rp_ok : node_ok x' ts;
  rp_prev : prev x' = prev x;
  rp_next : next x' = next x;
  rp_count : count x' = count x;
  rp_ql : ql w' = ql w;
  rp_brk : brk w' = brk w;
  rp_blocks : blocks w' = blocks w;
  rp_htabs : htabs w' = htabs w
}.
Lemma repacked_refl w p x ts : nodes w !! p = Some x -> node_ok x ts -> repacked w w p x ts x.
Proof. intros Hx Ho. split; try done. by rewrite insert_id. Qed.

Lemma zlen_texts_pos ts : ts <> [] -> 0 < zlen ts.
Proof. destruct ts; [done|]. intros _. rewrite zlen_cons. pose proof (zlen_nonneg ts). lia. Qed.
Lemma packed_size b ts : holds_texts b ts -> small ts -> 11 <= zlen b < 2 ^ 30.
Proof.
  intros (es & n & Hzl & Hts) (_ & Hs & Hf). destruct (block_short b es n ts Hzl Hts) as [Hz _]. pose proof (en_size _ _ _ (zl_ending _ _ _ Hzl)).
  pose proof (zlen_nonneg (bytes_of es)). pose proof (zlen_nonneg es). split; [lia|]. destruct Hs as [[t ->]|Hs]; [|lia]. cbn [room] in Hz. apply Forall_cons in Hf as [[_ Hf] _]. lia.
Qed.

Lemma packs_raw_inv z b : packs z QUICKLIST_NODE_ENCODING_RAW b -> z = Some (Plain b).
Proof. intros H. remember QUICKLIST_NODE_ENCODING_RAW as e eqn:Ee. destruct H; [done|discriminate Ee]. Qed.
Lemma packs_lzf_inv z e b : packs z e b -> e <> QUICKLIST_NODE_ENCODING_RAW -> e = QUICKLIST_NODE_ENCODING_LZF /\
  exists k c data, z = Some (Packed k c) /\ b = Some <$> data /\ expands k c data.
Proof. intros H Hne. destruct H as [|k c data Hu He]; [done|]. split; [done|]. by exists k, c, data. Qed.

(** The attempt to compress: either nothing comes of it, or a text that expands to the block. *)
Lemma compress_call tab data w : Forall is_u8 data -> 2 <= zlen data < 4294967296 -> (forall i, is_u32 (tab i)) -> exists n out,
  lzf_compress tab data (zlen data) (uninit (zlen data)) (zlen data) w = Ret (n, out) w /\
  (n = 0 \/ 0 < n <= zlen data /\ exists c, rd_bytes out n w = Ret c w /\ expands n c data).
Proof.
  intros Hu Hz Htab. pose proof (zlen_uninit (zlen data) ltac:(lia)) as Zu.
  pose proof (lzf_compress_ok data Hu ltac:(lia) tab (uninit (zlen data)) w ltac:(lia) Htab) as H. rewrite Zu in H.
  apply wp_inv in H as ([n out] & w' & E & -> & Hc). exists n, out. split; [exact E|].
  destruct (compressed_restores data (zlen data) (n, out) ltac:(lia) Hc) as [Hn|(Hn & _ & c & q & Eo & Zc & Hr)]; [by left|right]. cbn [fst snd] in *.
  split; [done|]. exists c. subst out. split; [rewrite <- Zc; apply rd_bytes_eq|exact Hr].
Qed.

Lemma compress_block w p x ts : nodes w !! p = Some x -> node_ok x ts -> (forall i j, is_u32 (htabs w i j)) -> exists w' x',
  quicklistCompressNode (Some p) w = Ret tt w' /\ repacked w w' p x ts x'.
Proof.
  intros Hx Ho Htab. pose proof Ho as [(b & Hp & Hh & Hsz) Hs Hr]. unfold quicklistCompressNode, if_node. rewrite (bind_ret_eq _ _ _ _ _ (node_ret w p x Hx)).
  destruct (Z.eqb_spec (encoding x) QUICKLIST_NODE_ENCODING_RAW) as [Ee|Ee]; [|by exists w, x; split; [|apply repacked_refl]].
  destruct (packed_size b ts Hh Hs) as [Hz1 Hz2]. destruct (block_bytes b ts Hh) as (data & -> & Hu). rewrite zlen_fmap in *.
  rewrite Ee in Hp. apply packs_raw_inv in Hp. unfold __quicklistCompressNode. rewrite bind_assoc, (bind_ret_eq _ _ _ _ _ (node_ret w p x Hx)), Hsz.
  unfold MIN_COMPRESS_BYTES. destruct (Z.ltb_spec (zlen data) 48) as [Hlt|Hge]; [by exists w, x; split; [|apply repacked_refl]|].
  set (w1 := with_blocks (blocks w + 1) w). assert (Hx1 : nodes w1 !! p = Some x) by done.
  rewrite bind_assoc. change (zmalloc_block w) with (Ret tt w1). rewrite (bind_ret_eq zmalloc_block _ w tt w1 eq_refl).
  assert (Eb : ziplist_of p w1 = Ret (Some <$> data) w1) by (unfold ziplist_of; by rewrite (bind_ret_eq _ _ _ _ _ (node_ret w1 p x Hx1)), Hp).
  rewrite bind_assoc, (bind_ret_eq _ _ _ _ _ Eb). pose proof (rd_bytes_eq data [] w1) as Er. rewrite app_nil_r in Er.
  rewrite bind_assoc, (bind_ret_eq _ _ _ _ _ Er). set (w2 := with_lzf_calls (Datatypes.S (lzf_calls w1)) w1).
  rewrite bind_assoc, (bind_ret_eq next_htab _ w1 (htabs w1 (lzf_calls w1)) w2 eq_refl).
  destruct (compress_call (htabs w1 (lzf_calls w1)) data w2 Hu ltac:(lia) ltac:(intros; apply Htab)) as (n & out & E & Hn). rewrite bind_assoc, (bind_ret_eq _ _ _ _ _ E).
  destruct (Z.eqb_spec n 0) as [->|Hn0]; cbn [orb].
  { exists (with_blocks (blocks w) w2), x. split; [cbn; do 2 f_equal; lia|]. split; try done. cbn. by rewrite insert_id. }
  destruct Hn as [|(Hn & c & Ec & Hex)]; [done|]. destruct (zlen data <=? u32 (n + MIN_COMPRESS_IMPROVE)).
  { exists (with_blocks (blocks w) w2), x. split; [cbn; do 2 f_equal; lia|]. split; try done. cbn. by rewrite insert_id. }
  rewrite bind_assoc, (bind_ret_eq _ _ _ _ _ Ec), Hp. set (w3 := with_blocks (blocks w2 - 1) w2).
  rewrite bind_assoc, (bind_ret_eq (zfree_zl (Some (Plain (Some <$> data)))) _ w2 tt w3 eq_refl). rewrite bind_assoc, (bind_ret_eq _ _ _ _ _ (upd_node_ret w3 p x _ Hx)).
  eexists _, _. split; [reflexivity|]. split; try done.
  - split; try done. exists (Some <$> data). rewrite zlen_fmap. by split; [constructor|].
  - cbn. lia.
Qed.

Lemma expand_block w p x ts : nodes w !! p = Some x -> node_ok x ts -> exists w' x',
  quicklistDecompressNode (Some p) w = Ret tt w' /\ repacked w w' p x ts x' /\ encoding x' = QUICKLIST_NODE_ENCODING_RAW.
Proof.
  intros Hx Ho. pose proof Ho as [(b & Hp & Hh & Hsz) Hs Hr]. unfold quicklistDecompressNode, if_node. rewrite (bind_ret_eq _ _ _ _ _ (node_ret w p x Hx)).
  destruct (decide (encoding x = QUICKLIST_NODE_ENCODING_RAW)) as [Ee|Ee].
  { rewrite Ee. exists w, x. split; [done|]. split; [by apply repacked_refl|done]. }
  destruct (packs_lzf_inv _ _ _ Hp Ee) as (-> & k & c & data & Ez & -> & Hex). change (QUICKLIST_NODE_ENCODING_LZF =? QUICKLIST_NODE_ENCODING_LZF) with true. cbn match.
  rewrite zlen_fmap in Hsz. destruct (packed_size _ _ Hh Hs) as [Hz1 Hz2]. rewrite zlen_fmap in *.
  unfold __quicklistDecompressNode. rewrite bind_assoc, (bind_ret_eq _ _ _ _ _ (node_ret w p x Hx)), Hsz.
  set (w1 := with_blocks (blocks w + 1) w). rewrite bind_assoc, (bind_ret_eq zmalloc_block _ w tt w1 eq_refl).
  assert (El : lzf_of p w1 = Ret (k, c) w1) by (unfold lzf_of; rewrite (bind_ret_eq _ _ _ _ _ (node_ret w1 p x Hx)); by rewrite Ez).
  rewrite bind_assoc, (bind_ret_eq _ _ _ _ _ El). pose proof (zlen_uninit (zlen data) ltac:(lia)) as Zu.
  pose proof (Hex (uninit (zlen data)) (errno w1) ltac:(lia)) as Ed. rewrite Zu, drop_ge, app_nil_r in Ed by (unfold zlen in *; lia).
  assert (Ed' : with_errno_of (lzf_decompress c k (uninit (zlen data)) (zlen data)) w1 = Ret (zlen data, Some <$> data) (with_errno (errno w1) w1)) by (unfold with_errno_of; by rewrite Ed).
  rewrite bind_assoc, (bind_ret_eq _ _ _ _ _ Ed'). rewrite (proj2 (Z.eqb_neq _ 0)) by lia. rewrite Ez. set (w2 := with_errno (errno w1) w1). set (w3 := with_blocks (blocks w2 - 1) w2).
  rewrite bind_assoc, (bind_ret_eq (zfree_zl (Some (Packed k c))) _ w2 tt w3 eq_refl). rewrite bind_assoc, (bind_ret_eq _ _ _ _ _ (upd_node_ret w3 p x _ Hx)).
  eexists _, (with_encoding QUICKLIST_NODE_ENCODING_RAW (with_zl (Some (Plain (Some <$> data))) x)). split; [reflexivity|]. split; [|done]. split; try done.
  - split; try done. exists (Some <$> data). rewrite zlen_fmap. by split; [constructor|].
  - cbn. lia.
Qed.

(** ** One node of the list *)
Lemma repacked_listed w w' ps L i p x ts x' : listed w ps L -> ps !! i = Some p -> nodes w !! p = Some x -> L !! i = Some ts -> repacked w w' p x ts x' ->
  listed w' ps L.
Proof.
  intros Hl Hi Hx Ht [R1 R2 R3 R4 R5 R6 R7 R8 R9]. rewrite <- (list_insert_id L i ts Ht). by eapply listed_set.
Qed.
Lemma repacked_raw w w' p x ts x' : nodes w !! p = Some x -> repacked w w' p x ts x' ->
  (forall q, q <> p -> raw w q -> raw w' q) /\ (encoding x' = QUICKLIST_NODE_ENCODING_RAW -> raw w' p).
Proof.
  intros Hx [R1 _ _ _ _ _ _ _ _]. split.
  - intros q Hq (y & Hy & Ey). exists y. by rewrite R1, lookup_insert_ne.
  - intros E. exists x'. by rewrite R1, lookup_insert_eq.
Qed.
Lemma repacked_env w w' ps L i p x ts x' : listed w ps L -> ps !! i = Some p -> nodes w !! p = Some x -> repacked w w' p x ts x' -> same_env ps w w'.
Proof.
  intros Hl Hi Hx [R1 _ _ _ R5 R6 R7 R8 _]. split; try done; intros q; rewrite R1.
  - destruct (decide (q = p)) as [->|Hne]; [rewrite lookup_insert_eq, Hx; cbn; by rewrite R5|by rewrite lookup_insert_ne].
  - intros Hq. rewrite lookup_insert_ne; [done|]. intros <-. apply Hq. by eapply list_elem_of_lookup_2.
Qed.
Lemma compress_at w ps L p : listed w ps L -> p ∈ ps -> exists w', quicklistCompressNode (Some p) w = Ret tt w' /\
  listed w' ps L /\ same_env ps w w' /\ (forall q, q <> p -> raw w q -> raw w' q).
Proof.
  intros Hl Hp. destruct (listed_node w ps L p Hl Hp) as (x & ts & i & Hi & Hx & Ht & Ho).
  destruct (compress_block w p x ts Hx Ho (li_htabs _ _ _ Hl)) as (w' & x' & E & R). exists w'. split; [exact E|].
  split; [by eapply repacked_listed|]. split; [by eapply repacked_env|]. by eapply repacked_raw.
Qed.
Lemma expand_at w ps L p : listed w ps L -> p ∈ ps -> exists w', quicklistDecompressNode (Some p) w = Ret tt w' /\
  listed w' ps L /\ same_env ps w w' /\ raw w' p /\ (forall q, raw w q -> raw w' q).
Proof.
  intros Hl Hp. destruct (listed_node w ps L p Hl Hp) as (x & ts & i & Hi & Hx & Ht & Ho).
  destruct (expand_block w p x ts Hx Ho) as (w' & x' & E & R & Er). exists w'. split; [exact E|].
  destruct (repacked_raw _ _ _ _ _ _ Hx R) as [Hk Hp']. specialize (Hp' Er). split; [by eapply repacked_listed|]. split; [by eapply repacked_env|]. split; [done|].
  intros q Hq. destruct (decide (q = p)) as [->|Hne]; [done|by apply Hk].
Qed.
Lemma compress_opt w ps L o : listed w ps L -> (forall p, o = Some p -> p ∈ ps) -> exists w', quicklistCompressNode o w = Ret tt w' /\
  listed w' ps L /\ same_env ps w w' /\ (forall q, o <> Some q -> raw w q -> raw w' q).
Proof.
  intros Hl Ho. destruct o as [p|]; [|by exists w]. destruct (compress_at w ps L p Hl (Ho p eq_refl)) as (w' & E & H1 & H2 & H3). exists w'.
  split; [exact E|]. split; [done|]. split; [done|]. intros q Hq. apply H3. congruence.
Qed.

(** ** The walk *)
Section walk.
Variables (ps : list positive) (L : list (list text)) (q : quicklist) (o : option positive).
Notation n := (length ps).
Notation c := (Z.to_nat (compress q)).
Hypothesis Hc : 0 <= compress q.
Hypothesis Hroom : (2 * c <= n + 1)%nat.

(** The nodes less than [d] from an end. *)
Definition near (d i : nat) : Prop := (i < d \/ n <= i + d)%nat.
Definition away (d : nat) : Prop := forall i p, ps !! i = Some p -> near d i -> o <> Some p.
Definition raw_near w (d : nat) : Prop := forall i p, ps !! i = Some p -> near d i -> raw w p.

Lemma node_at w i p : listed w ps L -> ps !! i = Some p -> exists x, node p w = Ret x w /\ prev x = before ps i /\ next x = ps !! Datatypes.S i.
Proof. intros Hl Hi. destruct (li_nodes _ _ _ Hl i p Hi) as (x & ts & Hx & _ & _ & H1 & H2). exists x. split; [by apply node_ret|done]. Qed.

Lemma depth_loop m : forall d flag w, (c - d < m)%nat -> (d <= c)%nat -> (2 * d <= n)%nat -> listed w ps L -> raw_near w d -> (flag = false -> away d) -> exists w' r,
  while_loop m (depth_turn q o) (ps !! d, before ps (n - d), Z.of_nat d, flag) w = Ret r w' /\ listed w' ps L /\ same_env ps w w' /\
  match r with
  | None => forall p, p ∈ ps -> raw w' p
  | Some (f, r, depth, flag) => f = ps !! c /\ r = before ps (n - c) /\ depth = compress q + 1 /\ (flag = false -> away c) /\ raw_near w' c /\ (2 * c <= n)%nat
  end.
Proof.
  induction m as [|m IH]; intros d flag w Hm Hd Hn Hl Hraw Hflag; [lia|]. cbn [while_loop]. unfold depth_turn at 1. destruct (Z.ltb_spec (Z.of_nat d) (compress q)) as [Hlt|Hge].
  - destruct (lookup_lt_is_Some_2 ps d ltac:(lia)) as [f Hf]. destruct (lookup_lt_is_Some_2 ps (n - 1 - d) ltac:(lia)) as [r Hr].
    assert (Hb : before ps (n - d) = Some r) by (replace (n - d)%nat with (Datatypes.S (n - 1 - d)) by lia; exact Hr). rewrite Hf, Hb.
    destruct (expand_at w ps L f Hl (list_elem_of_lookup_2 _ _ _ Hf)) as (w1 & E1 & Hl1 & S1 & R1 & K1).
    destruct (expand_at w1 ps L r Hl1 (list_elem_of_lookup_2 _ _ _ Hr)) as (w2 & E2 & Hl2 & S2 & R2 & K2).
    rewrite !bind_assoc, (bind_ret_eq _ _ _ _ _ E1), bind_assoc, (bind_ret_eq _ _ _ _ _ E2). pose proof (same_env_trans _ _ _ _ S1 S2) as S12.
    assert (Hraw' : raw_near w2 (Datatypes.S d)).
    { intros i p Hi Hnear. destruct (decide (i = d)) as [->|Hid]; [replace p with f by congruence; by apply K2|].
      destruct (decide (i = n - 1 - d)%nat) as [->|Hin]; [by replace p with r by congruence|]. apply K2, K1, (Hraw i p Hi). unfold near in *. lia. }
    destruct (decide (f = r)) as [->|Hne].
    + rewrite (bool_decide_eq_true_2 (Some r = Some r)) by done. exists w2, None. split; [done|]. split; [done|]. split; [done|].
      assert (d = n - 1 - d)%nat by (eapply NoDup_lookup; [apply Hl|done|done]). intros p [i Hi]%list_elem_of_lookup.
      apply (Hraw' i p Hi). apply lookup_lt_Some in Hi. unfold near. lia.
    + rewrite (bool_decide_eq_false_2 (Some f = Some r)) by congruence. destruct (node_at w2 d f Hl2 Hf) as (xf & Ef & _ & Nf). destruct (node_at w2 _ r Hl2 Hr) as (xr & Er & Pr & _).
      assert (d <> n - 1 - d)%nat by (intros Heq; rewrite <- Heq in Hr; congruence). cbn [deref].
      rewrite bind_assoc, (bind_ret_eq (ret f) _ w2 f w2 eq_refl), bind_assoc, (bind_ret_eq _ _ _ _ _ Ef), bind_assoc, (bind_ret_eq (ret r) _ w2 r w2 eq_refl), bind_assoc, (bind_ret_eq _ _ _ _ _ Er).
      rewrite Nf, Pr. replace (n - 1 - d)%nat with (n - Datatypes.S d)%nat by lia. replace (Z.of_nat d + 1) with (Z.of_nat (Datatypes.S d)) by lia.
      destruct (IH (Datatypes.S d) (flag || bool_decide (Some f = o) || bool_decide (Some r = o)) w2) as (w' & res & E & Hl' & S' & Hres); [lia|lia|lia|done|done| |].
      { intros [[Hfl Hb1]%orb_false_iff Hb2]%orb_false_iff i p Hi Hnear. apply bool_decide_eq_false in Hb1, Hb2. destruct (decide (i = d)) as [->|Hid]; [replace p with f by congruence; congruence|].
        destruct (decide (i = n - 1 - d)%nat) as [->|Hin]; [replace p with r by congruence; congruence|]. apply (Hflag Hfl i p Hi). unfold near in *. lia. }
      exists w', res. split; [exact E|]. split; [done|]. split; [by eapply same_env_trans|done].
  - assert (d = c) as -> by lia. exists w, (Some (ps !! c, before ps (n - c), Z.of_nat c + 1, flag)). split; [done|]. split; [done|]. split; [done|]. split; [done|]. split; [done|]. split; [lia|]. by split.
Qed.
End walk.

(** ** The whole function *)

(** Which nodes are never compressed: the ends; all of them when compression is off or the list is short. *)
Record plain_ends w ps (c : Z) : Prop := {
  pe_first : forall p, ps !! 0%nat = Some p -> raw w p;
  pe_last : forall p, before ps (length ps) = Some p -> raw w p;
  pe_all : c = 0 \/ zlen ps < 2 * c -> forall p, p ∈ ps -> raw w p
}.

Lemma compress_ok w ps L q o : listed w ps L -> ql w = Some q -> head q = ps !! 0%nat -> tail q = before ps (length ps) -> 0 <= compress q < 65536 ->
  (2 * compress q <= qlen q -> 2 * compress q <= zlen ps + 1) -> (forall p, o = Some p -> p ∈ ps) ->
  (compress q = 0 \/ qlen q < 2 * compress q -> plain_ends w ps (compress q)) -> exists w',
  __quicklistCompress o w = Ret tt w' /\ listed w' ps L /\ same_env ps w w' /\ plain_ends w' ps (compress q).
Proof.
  intros Hl Hq Hh Ht Hc Hlen Ho Hpe. unfold __quicklistCompress. assert (Eq : the_ql w = Ret q w) by (unfold the_ql; by rewrite Hq). rewrite (bind_ret_eq _ _ _ _ _ Eq).
  unfold quicklistAllowsCompression. rewrite u32_id by (unfold is_u32; lia). replace (compress q * 2) with (2 * compress q) by lia.
  destruct (Z.eqb_spec (compress q) 0) as [Ec|Ec]; cbn [negb orb]; [exists w; split; [done|]; split; [done|]; split; [done|]; apply Hpe; by left|].
  destruct (Z.ltb_spec (qlen q) (2 * compress q)) as [Hlt|Hge]; [exists w; split; [done|]; split; [done|]; split; [done|]; apply Hpe; by right|].
  specialize (Hlen Hge). clear Hpe. unfold zlen in Hlen. set (cc := Z.to_nat (compress q)).
  destruct (depth_loop ps L q o ltac:(lia) ltac:(lia) (Datatypes.S cc) 0 false w) as (w1 & r & E & Hl1 & S1 & Hr); [fold cc; lia|lia|lia|done| | |].
  { intros i p Hi [H|H]; [lia|]. apply lookup_lt_Some in Hi. lia. }
  { intros _ i p Hi [H|H]; [lia|]. apply lookup_lt_Some in Hi. lia. }
  rewrite Nat.sub_0_r, <- Ht, <- Hh in E. change (Z.of_nat 0) with 0 in E. rewrite (bind_ret_eq _ _ _ _ _ E).
  destruct r as [[[[f r] depth] flag]|].
  2: { exists w1. split; [done|]. split; [done|]. split; [done|]. split; [intros p Hp; apply Hr; by eapply list_elem_of_lookup_2| |by intros _].
       intros p Hp. apply Hr. destruct (length ps); [done|]. by eapply list_elem_of_lookup_2. }
  destruct Hr as (-> & -> & -> & Haway & Hraw & Hn). fold cc in Haway, Hraw, Hn.
  assert (H2 : exists w2, (if flag then ret tt else quicklistCompressNode o) w1 = Ret tt w2 /\ listed w2 ps L /\ same_env ps w1 w2 /\ raw_near ps w2 cc).
  { destruct flag; [by exists w1|]. destruct (compress_opt w1 ps L o Hl1 Ho) as (w2 & E2 & Hl2 & S2 & K2). exists w2. split; [exact E2|]. split; [done|]. split; [done|].
    intros i p Hi Hnear. apply K2; [by eapply (Haway eq_refl)|by eapply Hraw]. }
  destruct H2 as (w2 & E2 & Hl2 & S2 & R2). rewrite (bind_ret_eq _ _ _ _ _ E2).
  assert (H3 : exists w3, (if 2 <? compress q + 1 then quicklistCompressNode (ps !! cc) ;;; quicklistCompressNode (before ps (length ps - cc)) else ret tt) w2 = Ret tt w3 /\
    listed w3 ps L /\ same_env ps w2 w3 /\ raw_near ps w3 1).
  { destruct (Z.ltb_spec 2 (compress q + 1)) as [H3|H3].
    - destruct (compress_opt w2 ps L (ps !! cc) Hl2 ltac:(intros; by eapply list_elem_of_lookup_2)) as (w3 & E3 & Hl3 & S3 & K3). rewrite (bind_ret_eq _ _ _ _ _ E3).
      destruct (compress_opt w3 ps L (before ps (length ps - cc)) Hl3) as (w4 & E4 & Hl4 & S4 & K4); [intros p; destruct (length ps - cc)%nat; [done|]; by intros; eapply list_elem_of_lookup_2|].
      exists w4. split; [exact E4|]. split; [done|]. split; [by eapply same_env_trans|]. intros i p Hi Hnear. pose proof (lookup_lt_Some _ _ _ Hi).
      apply K4; [|apply K3; [|apply (R2 i p Hi); unfold near in *; lia]].
      + destruct (length ps - cc)%nat as [|k] eqn:Ek; [done|]. cbn [before]. intros Hk. assert (i = k) by (by eapply NoDup_lookup; [apply Hl|..]). unfold near in Hnear. lia.
      + intros Hk. assert (i = cc) by (by eapply NoDup_lookup; [apply Hl|..]). unfold near in Hnear. lia.
    - exists w2. split; [done|]. split; [done|]. split; [done|]. intros i p Hi Hnear. apply (R2 i p Hi). unfold near in *. lia. }
  destruct H3 as (w3 & E3 & Hl3 & S3 & R3). exists w3. split; [exact E3|]. split; [done|]. split; [by eapply same_env_trans; [exact S1|eapply same_env_trans]|].
  split; [intros p Hp; apply (R3 0%nat p Hp); unfold near; lia| |unfold zlen; lia].
  intros p Hp. destruct (length ps) as [|k] eqn:Ek; [done|]. apply (R3 k p Hp). unfold near. lia.
Qed.
