(* ===== verification/QlEnds.v ===== *)
(** The ends of a quicklist: pushing where the node has room and where a new one is linked
    in, deleting a node, and popping. *)
From S2P Require Import Prelude Intset IntsetProofs Util Lzf Ziplist ZlMem ZlEntry ZlList ZlCascade ZlInsert ZlDelete ZlAccess PackedList Quicklist QlList.
#[local] Open Scope Z_scope.
Implicit Types (w : qworld) (x : quicklistNode) (p : positive) (ps : list positive) (t : text) (ts : list text) (L : list (list text)) (q : quicklist) (b : buf).

(** ** The invariant *)

(** The list, with the texts of its nodes; nothing else is in the heap. *)
Record deque w q ps L : Prop := {
  dq_ql : ql w = Some q;
  dq_listed : listed w ps L;
  dq_head : head q = ps !! 0%nat;
  dq_tail : tail q = before ps (length ps);
  dq_len : qlen q = zlen ps;
  dq_count : qcount q = zlen (concat L);
  dq_compress : 0 <= compress q < 65536;
  dq_ends : plain_ends w ps (compress q);
  dq_brk : forall p, p ∈ ps -> (p < brk w)%positive;
  dq_dom : forall p x, nodes w !! p = Some x -> p ∈ ps;
  dq_counts : forall i p, ps !! i = Some p -> count <$> nodes w !! p = zlen <$> L !! i;
  dq_full : Forall (fun ts => ts <> []) L;
  dq_blocks : blocks w = zlen ps
}.

Lemma u64_small k : 0 <= k < 2 ^ 64 -> u64 k = k.
Proof. intros H. unfold u64. by rewrite Z.mod_small by lia. Qed.
Lemma the_ql_ret w q : ql w = Some q -> the_ql w = Ret q w.
Proof. intros H. unfold the_ql. by rewrite H. Qed.
Lemma upd_ql_ret w q f : ql w = Some q -> upd_ql f w = Ret tt (with_ql (Some (f q)) w).
Proof. intros H. unfold upd_ql. by rewrite (bind_ret_eq _ _ _ _ _ (the_ql_ret w q H)). Qed.
Lemma ziplist_ret w p x b : nodes w !! p = Some x -> zl x = Some (Plain b) -> ziplist_of p w = Ret b w.
Proof. intros H Hz. unfold ziplist_of. by rewrite (bind_ret_eq _ _ _ _ _ (node_ret w p x H)), Hz. Qed.

Lemma few_nodes L ps : length ps = length L -> Forall (fun ts => ts <> []) L -> zlen ps <= zlen (concat L).
Proof.
  unfold zlen. intros -> H. induction H as [|ts L Hne _ IH]; [done|]. cbn [concat]. rewrite length_app. destruct ts; [done|]. cbn [length] in *. lia.
Qed.
(** A node at an end is a ziplist. *)
Lemma end_node w q ps L i p : deque w q ps L -> ps !! i = Some p -> i = 0%nat \/ Datatypes.S i = length ps -> exists x ts b,
  nodes w !! p = Some x /\ L !! i = Some ts /\ node_ok x ts /\ encoding x = QUICKLIST_NODE_ENCODING_RAW /\ zl x = Some (Plain b) /\ holds_texts b ts /\
  sz x = zlen b /\ prev x = before ps i /\ next x = ps !! Datatypes.S i /\ count x = zlen ts.
Proof.
  intros D Hi He. destruct (li_nodes _ _ _ (dq_listed _ _ _ _ D) i p Hi) as (x & ts & Hx & Ht & Ho & Hp & Hn).
  assert (Hr : raw w p).
  { destruct He as [->|He]; [by apply (pe_first _ _ _ (dq_ends _ _ _ _ D))|]. apply (pe_last _ _ _ (dq_ends _ _ _ _ D)). by rewrite <- He. }
  destruct Hr as (x' & Hx' & Er). assert (x' = x) as -> by congruence. destruct (no_block _ _ Ho) as (b & Hpk & Hh & Hs). rewrite Er in Hpk. apply packs_raw_inv in Hpk.
  exists x, ts, b. pose proof (dq_counts _ _ _ _ D i p Hi) as Hc. rewrite Hx, Ht in Hc. injection Hc as Hc. by split_and!.
Qed.

(** A node at an end gets other texts. *)
Lemma edit_end w q ps L i p x ts x' ts' (q' := with_qcount (zlen (concat (<[i := ts']> L))) q) :
  deque w q ps L -> ps !! i = Some p -> nodes w !! p = Some x -> L !! i = Some ts -> encoding x' = QUICKLIST_NODE_ENCODING_RAW -> node_ok x' ts' -> count x' = zlen ts' -> ts' <> [] ->
  prev x' = prev x -> next x' = next x -> zlen (concat (<[i := ts']> L)) < 2 ^ 64 ->
  deque (with_ql (Some q') (with_nodes (<[p := x']> (nodes w)) w)) q' ps (<[i := ts']> L).
Proof.
  intros D Hi Hx Ht Er Ho Hc Hne Hp Hn Hb. pose proof D as [D1 D2 D3 D4 D5 D6 D7 D8 D9 D10 D11 D12 D13]. split; try done.
  - by eapply (listed_set w _ ps L i p x x' ts ts').
  - cbn. rewrite u64_small; [done|]. pose proof (zlen_nonneg (concat (<[i:=ts']> L))). lia.
  - assert (Hk : forall p', raw w p' -> raw (with_ql (Some q') (with_nodes (<[p := x']> (nodes w)) w)) p').
    { intros p' (y & Hy & Ey). unfold raw. cbn. destruct (decide (p' = p)) as [->|Hne']; [exists x'; by rewrite lookup_insert_eq|exists y; by rewrite lookup_insert_ne]. }
    destruct D8 as [E1 E2 E3]. split; [intros p' H; apply Hk; auto|intros p' H; apply Hk; auto|intros H p' Hp'; apply Hk; by apply E3].
  - intros p' y. cbn. destruct (decide (p' = p)) as [->|Hne']; [intros _; by eapply list_elem_of_lookup_2|]. rewrite lookup_insert_ne by done. apply D10.
  - intros j p' Hj. cbn. destruct (decide (j = i)) as [->|Hne'].
    + assert (p' = p) as -> by congruence. rewrite lookup_insert_eq, list_lookup_insert_eq by (by eapply lookup_lt_Some). cbn. by rewrite Hc.
    + rewrite lookup_insert_ne, list_lookup_insert_ne by (try done; intros <-; apply Hne'; by eapply NoDup_lookup; [apply D2|..]). by apply D11.
  - by apply Forall_insert.
Qed.

(** ** Pushing into a node that has room *)
Lemma allow_insert_ok w p x f size : nodes w !! p = Some x -> 0 <= sz x < 2 ^ 30 -> 0 <= size < 2 ^ 30 -> exists r,
  _quicklistNodeAllowInsert (Some p) f size w = Ret r w /\ (r = true -> sz x + size + 2 <= 65536).
Proof.
  intros Hx Hs Hz. unfold _quicklistNodeAllowInsert. set (o := (if size <? 254 then 1 else 5) + (if size <? 64 then 1 else if size <? 16384 then 2 else 5)).
  assert (Ho : 2 <= o <= 10) by (unfold o; destruct (size <? 254), (size <? 64), (size <? 16384); lia).
  rewrite (bind_ret_eq _ _ _ _ _ (node_ret w p x Hx)), u32_id by (unfold is_u32; lia). eexists. split; [reflexivity|].
  unfold _quicklistNodeSizeMeetsOptimizationRequirement, sizeMeetsSafetyLimit, SIZE_SAFETY_LIMIT.
  assert (Hl : forall k limit, optimization_level !! k = Some limit -> limit <= 65536).
  { intros k limit Hk. do 5 (destruct k as [|k]; [injection Hk as <-; lia|]). done. }
  destruct (0 <=? f); [destruct (Z.leb_spec (sz x + size + o) 8192); [lia|done]|].
  destruct (optimization_level !! Z.to_nat (- f - 1)) as [limit|] eqn:El.
  - destruct (Z.leb_spec (sz x + size + o) limit); [specialize (Hl _ _ El); lia|]. destruct (Z.leb_spec (sz x + size + o) 8192); [lia|done].
  - destruct (Z.leb_spec (sz x + size + o) 8192); [lia|done].
Qed.
Definition text_ok t : Prop := Forall is_u8 t /\ zlen t < 536870912.
Lemma small_more b ts t at_head : holds_texts b ts -> small ts -> text_ok t -> zlen b + zlen t + 2 <= 65536 -> small (if at_head : bool then t :: ts else ts ++ [t]).
Proof.
  intros (es & n & Hzl & Hts) (Hl & Hr & Hf) [Ht Htz] Hz. destruct (room_block b es n ts Hzl Hts) as [Hr1 Hr2]. pose proof (zlen_nonneg t).
  destruct at_head; (split; [|split]).
  - rewrite zlen_cons. lia.
  - right. cbn [room]. lia.
  - by constructor.
  - rewrite zlen_app, zlen_cons. change (zlen (@nil text)) with 0. lia.
  - right. rewrite room_app. cbn [room]. lia.
  - apply Forall_app. split; [done|]. by constructor.
Qed.
Lemma update_sz_ok w p x b ts : nodes w !! p = Some x -> zl x = Some (Plain b) -> holds_texts b ts ->
  quicklistNodeUpdateSz p w = Ret tt (with_nodes (<[p := with_sz (zlen b) x]> (nodes w)) w).
Proof.
  intros Hx Hz (es & n & Hzl & _). unfold quicklistNodeUpdateSz. rewrite (bind_ret_eq _ _ _ _ _ (ziplist_ret w p x b Hx Hz)).
  rewrite (bind_ret_eq _ _ _ _ _ (blob_len_ok b es n w Hzl)). by apply upd_node_ret.
Qed.
Lemma sz_block b ts x : holds_texts b ts -> sz (with_sz (zlen b) x) = zlen b.
Proof. intros (es & n & Hzl & _). pose proof (en_small _ _ _ (zl_ending _ _ _ Hzl)). pose proof (zlen_nonneg b). cbn. apply u32_id. unfold is_u32. lia. Qed.
Lemma push_into_ok w p x b ts t h : nodes w !! p = Some x -> zl x = Some (Plain b) -> holds_texts b ts -> text_ok t -> fits (t :: ts) -> exists b',
  push_into p (Some <$> t) (zlen t) h w = Ret tt (with_nodes (<[p := with_sz (zlen b') (with_zl (Some (Plain b')) x)]> (nodes w)) w) /\
  holds_texts b' (if h then t :: ts else ts ++ [t]).
Proof.
  intros Hx Hz Hh [Ht Htz] Hf. unfold push_into. rewrite (bind_ret_eq _ _ _ _ _ (ziplist_ret w p x b Hx Hz)), u32_id by (unfold is_u32; pose proof (zlen_nonneg t); lia).
  destruct (push_ok b ts t h w Hh Ht Hf) as (b' & E & Hh'). rewrite (bind_ret_eq _ _ _ _ _ E). exists b'. split; [|done].
  unfold set_ziplist. rewrite (bind_ret_eq _ _ _ _ _ (upd_node_ret w p x _ Hx)).
  rewrite (update_sz_ok _ p (with_zl (Some (Plain b')) x) b' _ (lookup_insert_eq _ _ _) eq_refl Hh'). cbn. by rewrite insert_insert_eq.
Qed.

Lemma concat_insert L i ts ts' : L !! i = Some ts -> zlen (concat (<[i := ts']> L)) = zlen (concat L) + (zlen ts' - zlen ts).
Proof.
  intros H. rewrite <- (take_drop_middle L i ts H) at 2. rewrite insert_take_drop by (by eapply lookup_lt_Some). rewrite !concat_app. cbn [concat]. rewrite !zlen_app. lia.
Qed.
(** The end of both pushes. *)
Definition bump (get_end : quicklist -> option positive) (orig : option positive) : Q bool :=
  upd_ql (fun q => with_qcount (qcount q + 1) q) ;;;
  let* q := the_ql in
  let* e := deref (get_end q) in
  upd_node e (fun x => with_count (count x + 1) x) ;;;
  ret (negb (bool_decide (orig = get_end q))).
(** A push where the end node has room. *)
Lemma push_existing w q ps L i p ts x b t o (h : bool) (ts' := if h then t :: ts else ts ++ [t]) (get_end : quicklist -> option positive) :
  deque w q ps L -> ps !! i = Some p -> i = 0%nat \/ Datatypes.S i = length ps -> nodes w !! p = Some x -> L !! i = Some ts -> node_ok x ts -> encoding x = QUICKLIST_NODE_ENCODING_RAW ->
  zl x = Some (Plain b) -> holds_texts b ts -> sz x = zlen b -> count x = zlen ts -> text_ok t -> zlen b + zlen t + 2 <= 65536 -> zlen (concat L) + 1 < 2 ^ 64 ->
  (forall k, get_end (with_qcount k q) = Some p) -> exists w' q' r,
  (push_into p (Some <$> t) (zlen t) h ;;; bump get_end o) w = Ret r w' /\ deque w' q' ps (<[i := ts']> L) /\ compress q' = compress q.
Proof.
  intros D Hi He Hx Ht Ho Er Hz Hh Hsz Hc Htx Hroom Hb Hend. pose proof (small_more b ts t h Hh (no_small _ _ Ho) Htx Hroom) as Hs'. fold ts' in Hs'.
  assert (Hf : fits (t :: ts)).
  { pose proof (small_fits _ Hs') as H. unfold ts' in H. destruct h; [done|]. unfold fits in *. rewrite room_app in H. cbn [room] in *. lia. }
  destruct (push_into_ok w p x b ts t h Hx Hz Hh Htx Hf) as (b' & E & Hh'). fold ts' in Hh'. rewrite (bind_ret_eq _ _ _ _ _ E).
  assert (Hzc : zlen ts' = zlen ts + 1) by (unfold ts'; destruct h; [rewrite zlen_cons|rewrite zlen_app, zlen_cons; change (zlen (@nil text)) with 0]; lia).
  assert (Hcat : zlen (concat (<[i := ts']> L)) = zlen (concat L) + 1) by (rewrite (concat_insert L i ts ts' Ht); lia).
  set (y := with_sz (zlen b') (with_zl (Some (Plain b')) x)). set (w1 := with_nodes (<[p := y]> (nodes w)) w).
  unfold bump. rewrite (bind_ret_eq _ _ _ _ _ (upd_ql_ret w1 q _ (dq_ql _ _ _ _ D))). set (q1 := with_qcount (qcount q + 1) q). set (w2 := with_ql (Some q1) w1).
  rewrite (bind_ret_eq _ _ _ _ _ (the_ql_ret w2 q1 eq_refl)). unfold q1 at 1. rewrite Hend. cbn [deref]. rewrite (bind_ret_eq (ret p) _ w2 p w2 eq_refl).
  rewrite (bind_ret_eq _ _ _ _ _ (upd_node_ret w2 p y _ (lookup_insert_eq _ _ _))). set (x' := with_count (count y + 1) y).
  assert (Hx' : count x' = zlen ts').
  { cbn. rewrite Hc, Hzc. unfold u16. rewrite Z.mod_small; [done|]. pose proof (proj1 Hs'). pose proof (zlen_nonneg ts). lia. }
  eexists _, q1, _. split; [reflexivity|]. split; [|done]. unfold w2, w1. cbn [nodes with_nodes with_ql]. rewrite insert_insert_eq.
  replace q1 with (with_qcount (zlen (concat (<[i := ts']> L))) q) by (unfold q1; by rewrite Hcat, (dq_count _ _ _ _ D)).
  apply (edit_end w q ps L i p x ts x' ts'); try done; [|by unfold ts'; destruct h, ts|lia].
  split; [|done|by apply Ho]. exists b'. cbn. split; [by rewrite Er; constructor|]. split; [done|]. apply (sz_block b' ts' x Hh').
Qed.

(** ** A new node at an end *)

(** The list and its ends, without the counts. *)
Record laid w q ps L : Prop := {
  la_ql : ql w = Some q;
  la_listed : listed w ps L;
  la_head : head q = ps !! 0%nat;
  la_tail : tail q = before ps (length ps);
  la_compress : 0 <= compress q < 65536;
  la_brk : forall p, p ∈ ps -> (p < brk w)%positive;
  la_dom : forall p x, nodes w !! p = Some x -> p ∈ ps
}.
Lemma deque_laid w q ps L : deque w q ps L -> laid w q ps L.
Proof. intros []. by split. Qed.
Lemma laid_env w w' q ps L : laid w q ps L -> listed w' ps L -> same_env ps w w' -> laid w' q ps L.
Proof.
  intros [H1 H2 H3 H4 H5 H6 H7] Hl [S1 S2 S3 S4 S5]. split; try done; [congruence|by rewrite S2|]. intros p x Hx.
  pose proof (S4 p) as Hc. rewrite Hx in Hc. destruct (nodes w !! p) as [y|] eqn:Ey; [by eapply H7|done].
Qed.
(** Nodes whose links alone may have changed. *)
Lemma relinked x o : forall ts, node_ok x ts -> node_ok (with_prev o x) ts /\ node_ok (with_next o x) ts.
Proof. intros ts [H1 H2 H3]. split; by split. Qed.

Lemma listed_front w w' ps L p y t : listed w ps L -> p ∉ ps -> nodes w' !! p = Some y -> prev y = None -> next y = ps !! 0%nat -> node_ok y [t] ->
  (forall i a x, ps !! i = Some a -> nodes w !! a = Some x -> nodes w' !! a = Some (match i with O => with_prev (Some p) x | _ => x end)) ->
  htabs w' = htabs w -> listed w' (p :: ps) ([t] :: L).
Proof.
  intros [H1 H2 H3 H4] Hp Hy Py Ny Oy Hn Hh. split; [by constructor|cbn; lia| |by rewrite Hh].
  intros [|i] a Ha; cbn in Ha.
  - injection Ha as <-. exists y, [t]. by rewrite Py, Ny.
  - destruct (H3 i a Ha) as (x & ts & Hx & Ht & Ho & P1 & P2). exists (match i with O => with_prev (Some p) x | _ => x end), ts.
    split; [by apply (Hn i)|]. split; [done|]. destruct i as [|i]; [split; [by apply relinked|by split]|by split].
Qed.
Lemma before_snoc ps p i : (i < length ps)%nat -> before (ps ++ [p]) i = before ps i.
Proof. intros Hi. destruct i as [|i]; [done|]. cbn. apply lookup_app_l. lia. Qed.
Lemma listed_back w w' ps L p y t : listed w ps L -> p ∉ ps -> nodes w' !! p = Some y -> prev y = before ps (length ps) -> next y = None -> node_ok y [t] ->
  (forall i a x, ps !! i = Some a -> nodes w !! a = Some x -> nodes w' !! a = Some (if decide (Datatypes.S i = length ps) then with_next (Some p) x else x)) ->
  htabs w' = htabs w -> listed w' (ps ++ [p]) (L ++ [[t]]).
Proof.
  intros [H1 H2 H3 H4] Hp Hy Py Ny Oy Hn Hh. split; [apply NoDup_app; split; [done|]; split; [by intros a Ha ->%list_elem_of_singleton|apply NoDup_singleton]|by rewrite !length_app; cbn; lia| |by rewrite Hh].
  intros i a Ha. destruct (decide (i < length ps)%nat) as [Hi|Hi].
  - rewrite lookup_app_l in Ha by done. destruct (H3 i a Ha) as (x & ts & Hx & Ht & Ho & P1 & P2). exists (if decide (Datatypes.S i = length ps) then with_next (Some p) x else x), ts.
    split; [by apply (Hn i)|]. rewrite lookup_app_l, before_snoc by lia. split; [done|]. destruct (decide (Datatypes.S i = length ps)) as [El|El].
    + split; [by apply relinked|]. split; [done|]. rewrite El, list_lookup_middle by done. done.
    + split; [done|]. split; [done|]. by rewrite lookup_app_l by lia.
  - pose proof (lookup_lt_Some _ _ _ Ha) as Hlt. rewrite length_app in Hlt. cbn in Hlt. assert (i = length ps) as -> by lia. rewrite list_lookup_middle in Ha by done. injection Ha as <-.
    exists y, [t]. split; [done|]. split; [rewrite H2; by apply list_lookup_middle|]. split; [done|]. rewrite Py, Ny. split.
    + destruct (length ps) as [|k] eqn:El; [done|]. cbn. by rewrite lookup_app_l by lia.
    + symmetry. apply lookup_ge_None. rewrite length_app. cbn. lia.
Qed.

(** ** Links *)

(** What a change of the links leaves alone. *)
Definition body x : option zblock * Z * Z * Z * bool := (zl x, sz x, count x, encoding x, recompress x).
Record links_only w w' : Prop := {
  lo_brk : brk w' = brk w;
  lo_blocks : blocks w' = blocks w;
  lo_htabs : htabs w' = htabs w;
  lo_nodes : forall a, body <$> nodes w' !! a = body <$> nodes w !! a
}.
Lemma links_refl w : links_only w w.
Proof. done. Qed.
Lemma links_trans w1 w2 w3 : links_only w1 w2 -> links_only w2 w3 -> links_only w1 w3.
Proof. intros [] []. split; congruence. Qed.
Lemma links_step w a x f : nodes w !! a = Some x -> body (f x) = body x -> links_only w (with_nodes (<[a := f x]> (nodes w)) w).
Proof.
  intros Hx Hf. split; try done. intros a'. cbn. destruct (decide (a' = a)) as [->|Hne]; [rewrite lookup_insert_eq, Hx; cbn; by rewrite Hf|by rewrite lookup_insert_ne].
Qed.
Lemma links_body w w' a x : links_only w w' -> nodes w !! a = Some x -> exists x', nodes w' !! a = Some x' /\ body x' = body x.
Proof. intros [_ _ _ H] Hx. specialize (H a). rewrite Hx in H. destruct (nodes w' !! a) as [x'|]; [|done]. exists x'. split; [done|]; apply (inj Some) in H; exact H. Qed.
Lemma links_raw w w' a : links_only w w' -> raw w a -> raw w' a.
Proof. intros H (x & Hx & E). destruct (links_body w w' a x H Hx) as (x' & Hx' & Hb). exists x'. split; [done|]. unfold body in Hb. congruence. Qed.
Lemma links_count w w' a : links_only w w' -> count <$> nodes w' !! a = count <$> nodes w !! a.
Proof.
  intros [_ _ _ H]. specialize (H a). destruct (nodes w' !! a), (nodes w !! a); try done. cbn in *. unfold body in H. f_equal. congruence.
Qed.

(** ** The new node *)
Definition fresh_node b : quicklistNode := {| prev := None; next := None; zl := Some (Plain b); sz := u32 (zlen b); count := 0; encoding := QUICKLIST_NODE_ENCODING_RAW; recompress := false |}.
Lemma fits_one t : text_ok t -> fits [t].
Proof. intros [_ H]. unfold fits. cbn [room]. lia. Qed.
Lemma fresh_ok b t : holds_texts b [t] -> text_ok t -> node_ok (fresh_node b) [t].
Proof.
  intros Hh Ht. split; [|split; [by vm_compute|split; [left; by exists t|by constructor]]|done]. exists b. split; [constructor|]. split; [done|].
  apply (sz_block b [t] (fresh_node b) Hh).
Qed.
Lemma node_with_ok w t h : text_ok t -> exists b, holds_texts b [t] /\
  (let* p := node_with (Some <$> t) (zlen t) h in quicklistNodeUpdateSz p ;;; ret p) w =
  Ret (brk w) (with_nodes (<[brk w := fresh_node b]> (nodes w)) (with_blocks (blocks w + 1) (with_brk (Pos.succ (brk w)) w))).
Proof.
  intros Ht. pose proof Ht as [Hu Hz]. pose proof (zlen_nonneg t). unfold node_with, quicklistCreateNode. set (p := brk w).
  set (x0 := {| prev := None; next := None; zl := None; sz := 0; count := 0; encoding := QUICKLIST_NODE_ENCODING_RAW; recompress := false |}).
  set (w1 := with_brk (Pos.succ p) (with_nodes (<[p:=x0]> (nodes w)) w)). set (w2 := with_blocks (blocks w1 + 1) w1).
  destruct (new_holds w2) as (b0 & E0 & H0). destruct (push_ok b0 [] t h w2 H0 Hu (fits_one t Ht)) as (b & E & Hb). assert (Hh : holds_texts b [t]) by (by destruct h).
  exists b. split; [exact Hh|]. rewrite !bind_assoc, (bind_ret_eq get _ w w w eq_refl).
  rewrite bind_assoc, (bind_ret_eq (put w1) _ w tt w1 eq_refl), (bind_ret_eq (ret p) _ w1 p w1 eq_refl).
  unfold new_ziplist. rewrite !bind_assoc, (bind_ret_eq zmalloc_block _ w1 tt w2 eq_refl), (bind_ret_eq _ _ _ _ _ E0), u32_id by (unfold is_u32; lia).
  rewrite bind_assoc, (bind_ret_eq _ _ _ _ _ E). unfold set_ziplist. rewrite bind_assoc, (bind_ret_eq _ _ _ _ _ (upd_node_ret w2 p x0 _ (lookup_insert_eq _ _ _))), (bind_ret_eq (ret p) _ _ p _ eq_refl).
  rewrite (bind_ret_eq _ _ _ _ _ (update_sz_ok _ p (with_zl (Some (Plain b)) x0) b _ (lookup_insert_eq _ _ _) eq_refl Hh)).
  unfold ret. f_equal. unfold w2, w1. cbn. by rewrite !insert_insert_eq.
Qed.

(** ** Linking it in *)
Lemma body_ok x x' ts : body x' = body x -> node_ok x ts -> node_ok x' ts.
Proof. unfold body. intros Hb [H1 H2 H3]. injection Hb as E1 E2 E3 E4 E5. split; [by rewrite E1, E2, E4|done|by rewrite E5]. Qed.

Lemma upd_links w a x f : nodes w !! a = Some x -> body (f x) = body x -> exists w', upd_node a f w = Ret tt w' /\ links_only w w' /\ ql w' = ql w /\ nodes w' = <[a := f x]> (nodes w).
Proof. intros Hx Hf. eexists. split; [exact (upd_node_ret w a x f Hx)|]. split; [by apply links_step|done]. Qed.
Lemma listed_ends w ps L : listed w ps L -> (forall a, ps !! 0%nat = Some a -> exists x, nodes w !! a = Some x /\ prev x = None) /\
  (forall a, before ps (length ps) = Some a -> exists x, nodes w !! a = Some x /\ next x = None).
Proof.
  intros Hl. split; intros a Ha.
  - destruct (li_nodes _ _ _ Hl _ _ Ha) as (x & ts & Hx & _ & _ & Hp & _). by exists x.
  - destruct (length ps) as [|k] eqn:El; [done|]. destruct (li_nodes _ _ _ Hl _ _ Ha) as (x & ts & Hx & _ & _ & _ & Hn). exists x. split; [done|]. rewrite Hn. apply lookup_ge_None. lia.
Qed.
Lemma link_front w w1 q ps L p y : laid w q ps L -> p ∉ ps -> nodes w1 = <[p := y]> (nodes w) -> ql w1 = Some q -> prev y = None -> exists w2,
  link_node (ps !! 0%nat) p false w1 = Ret tt w2 /\ links_only w1 w2 /\ ql w2 = Some (with_head (Some p) q) /\
  (exists y', nodes w2 !! p = Some y' /\ prev y' = None /\ next y' = ps !! 0%nat) /\
  (forall i a x, ps !! i = Some a -> nodes w !! a = Some x -> nodes w2 !! a = Some (match i with O => with_prev (Some p) x | _ => x end)).
Proof.
  intros La Hp Hn Hq Py. assert (Hy : nodes w1 !! p = Some y) by (by rewrite Hn, lookup_insert_eq). unfold link_node.
  destruct (upd_links w1 p y (with_next (ps !! 0%nat)) Hy eq_refl) as (w2 & E2 & K2 & Q2 & N2). rewrite Hn, insert_insert_eq in N2. rewrite (bind_ret_eq _ _ _ _ _ E2).
  assert (Hfin : forall w', ql w' = Some q -> (let* q := the_ql in if bool_decide (head q = ps !! 0%nat) then upd_ql (with_head (Some p)) else ret tt) w' = Ret tt (with_ql (Some (with_head (Some p) q)) w')).
  { intros w' Q'. rewrite (bind_ret_eq _ _ _ _ _ (the_ql_ret w' q Q')), bool_decide_eq_true_2 by apply La. by apply upd_ql_ret. }
  destruct (ps !! 0%nat) as [a|] eqn:Ea.
  - pose proof (list_elem_of_lookup_2 _ _ _ Ea) as Hin. assert (Hne : a <> p) by (by intros ->). destruct (proj1 (listed_ends _ _ _ (la_listed _ _ _ _ La)) a Ea) as (x & Hx & Px).
    assert (Hx2 : nodes w2 !! a = Some x) by (by rewrite N2, lookup_insert_ne). cbn [if_node]. rewrite bind_assoc, (bind_ret_eq _ _ _ _ _ (node_ret w2 a x Hx2)), Px. cbn [if_node].
    destruct (upd_links w2 p (with_next (Some a) y) (with_prev None)) as (w3 & E3 & K3 & Q3 & N3); [by rewrite N2, lookup_insert_eq|done|]. rewrite N2, insert_insert_eq in N3. rewrite bind_assoc, (bind_ret_eq _ _ _ _ _ E3).
    rewrite bind_assoc, (bind_ret_eq (ret tt) _ w3 tt w3 eq_refl). destruct (upd_links w3 a x (with_prev (Some p))) as (w4 & E4 & K4 & Q4 & N4); [by rewrite N3, lookup_insert_ne|done|].
    rewrite (bind_ret_eq _ _ _ _ _ E4), Hfin by congruence. eexists. split; [reflexivity|]. assert (K : links_only w1 w4) by (eapply links_trans; [exact K2|by eapply links_trans]).
    split; [destruct K; by split|]. split; [done|]. cbn. rewrite N4, N3. split; [eexists; rewrite lookup_insert_ne, lookup_insert_eq by done; done|].
    intros i b z Hb Hz. assert (Hbp : b <> p) by (intros ->; apply Hp; by eapply list_elem_of_lookup_2). destruct (decide (b = a)) as [->|Hba].
    + assert (i = 0%nat) as -> by (eapply NoDup_lookup; [apply La|done|done]). assert (z = x) as -> by congruence. by rewrite lookup_insert_eq.
    + rewrite !lookup_insert_ne by done. destruct i; [congruence|done].
  - cbn [if_node]. rewrite (bind_ret_eq (ret tt) _ w2 tt w2 eq_refl), Hfin by congruence. eexists. split; [reflexivity|]. split; [destruct K2; by split|]. split; [done|].
    cbn. rewrite N2. split; [eexists; by rewrite lookup_insert_eq|]. intros i b z Hb. apply lookup_lt_Some in Hb. apply lookup_ge_None in Ea. lia.
Qed.
Lemma link_back w w1 q ps L p y : laid w q ps L -> p ∉ ps -> nodes w1 = <[p := y]> (nodes w) -> ql w1 = Some q -> next y = None -> exists w2,
  link_node (before ps (length ps)) p true w1 = Ret tt w2 /\ links_only w1 w2 /\ ql w2 = Some (with_tail (Some p) q) /\
  (exists y', nodes w2 !! p = Some y' /\ prev y' = before ps (length ps) /\ next y' = None) /\
  (forall i a x, ps !! i = Some a -> nodes w !! a = Some x -> nodes w2 !! a = Some (if decide (Datatypes.S i = length ps) then with_next (Some p) x else x)).
Proof.
  intros La Hp Hn Hq Ny. assert (Hy : nodes w1 !! p = Some y) by (by rewrite Hn, lookup_insert_eq). unfold link_node. set (last := before ps (length ps)).
  destruct (upd_links w1 p y (with_prev last) Hy eq_refl) as (w2 & E2 & K2 & Q2 & N2). rewrite Hn, insert_insert_eq in N2. rewrite (bind_ret_eq _ _ _ _ _ E2).
  assert (Hfin : forall w', ql w' = Some q -> (let* q := the_ql in if bool_decide (tail q = last) then upd_ql (with_tail (Some p)) else ret tt) w' = Ret tt (with_ql (Some (with_tail (Some p) q)) w')).
  { intros w' Q'. rewrite (bind_ret_eq _ _ _ _ _ (the_ql_ret w' q Q')), bool_decide_eq_true_2 by apply La. by apply upd_ql_ret. }
  destruct last as [a|] eqn:Ea; unfold last in Ea.
  - destruct (proj2 (listed_ends _ _ _ (la_listed _ _ _ _ La)) a Ea) as (x & Hx & Nx). destruct (length ps) as [|k] eqn:El; [done|]. cbn [before] in Ea.
    assert (Hne : a <> p) by (intros ->; apply Hp; by eapply list_elem_of_lookup_2).
    assert (Hx2 : nodes w2 !! a = Some x) by (by rewrite N2, lookup_insert_ne). cbn [if_node]. rewrite bind_assoc, (bind_ret_eq _ _ _ _ _ (node_ret w2 a x Hx2)), Nx. cbn [if_node].
    destruct (upd_links w2 p (with_prev (Some a) y) (with_next None)) as (w3 & E3 & K3 & Q3 & N3); [by rewrite N2, lookup_insert_eq|done|]. rewrite N2, insert_insert_eq in N3. rewrite bind_assoc, (bind_ret_eq _ _ _ _ _ E3).
    rewrite bind_assoc, (bind_ret_eq (ret tt) _ w3 tt w3 eq_refl). destruct (upd_links w3 a x (with_next (Some p))) as (w4 & E4 & K4 & Q4 & N4); [by rewrite N3, lookup_insert_ne|done|].
    rewrite (bind_ret_eq _ _ _ _ _ E4), Hfin by congruence. eexists. split; [reflexivity|]. assert (K : links_only w1 w4) by (eapply links_trans; [exact K2|by eapply links_trans]).
    split; [destruct K; by split|]. split; [done|]. cbn. rewrite N4, N3. split; [eexists; rewrite lookup_insert_ne, lookup_insert_eq by done; done|].
    intros i b z Hb Hz. assert (Hbp : b <> p) by (intros ->; apply Hp; by eapply list_elem_of_lookup_2). destruct (decide (b = a)) as [->|Hba].
    + assert (i = k) as -> by (eapply NoDup_lookup; [apply La|done|done]). assert (z = x) as -> by congruence. rewrite lookup_insert_eq. by case_decide.
    + rewrite !lookup_insert_ne by done. case_decide as Hk; [|done]. injection Hk as ->. congruence.
  - cbn [if_node]. rewrite (bind_ret_eq (ret tt) _ w2 tt w2 eq_refl), Hfin by congruence. eexists. split; [reflexivity|]. split; [destruct K2; by split|]. split; [done|].
    cbn. rewrite N2. split; [eexists; by rewrite lookup_insert_eq|]. intros i b z Hb. apply lookup_lt_Some in Hb. destruct (length ps) as [|k] eqn:El; [lia|]. apply lookup_ge_None in Ea. lia.
Qed.

(** ** The compression after it *)
Lemma not_recompress w ps L p : listed w ps L -> p ∈ ps -> quicklistCompress p w = __quicklistCompress (Some p) w.
Proof.
  intros Hl Hp. destruct (listed_node w ps L p Hl Hp) as (x & ts & i & _ & Hx & _ & Ho). unfold quicklistCompress.
  by rewrite (bind_ret_eq _ _ _ _ _ (node_ret w p x Hx)), (no_recompress _ _ Ho).
Qed.
Lemma linked_ok w q ps L p old (q1 := if qlen q =? 0 then with_tail (Some p) (with_head (Some p) q) else q) :
  ql w = Some q -> listed w ps L -> 0 <= qlen q -> zlen ps = qlen q + 1 -> qlen q + 1 < 2 ^ 64 -> 0 <= compress q < 65536 ->
  head q1 = ps !! 0%nat -> tail q1 = before ps (length ps) -> (forall a, old = Some a -> a ∈ ps) -> (old = None -> qlen q = 0) ->
  (compress q = 0 \/ qlen q < 2 * compress q -> forall a, a ∈ ps -> raw w a) -> exists w' q',
  linked_node old p w = Ret tt w' /\ q' = with_qlen (qlen q + 1) q1 /\ ql w' = Some q' /\ listed w' ps L /\ plain_ends w' ps (compress q) /\
  same_env ps (with_ql (Some q') w) w'.
Proof.
  intros Hq Hl Hn Hz Hb Hc Hh Ht Hold Hnone Hraw. unfold linked_node. rewrite bind_assoc, (bind_ret_eq _ _ _ _ _ (the_ql_ret w q Hq)).
  assert (E1 : (if qlen q =? 0 then upd_ql (fun q => with_tail (Some p) (with_head (Some p) q)) else ret tt) w = Ret tt (with_ql (Some q1) w)).
  { unfold q1. destruct (qlen q =? 0); [exact (upd_ql_ret w q (fun q => with_tail (Some p) (with_head (Some p) q)) Hq)|]. unfold ret. f_equal. destruct w. cbn in *. by subst. }
  rewrite (bind_ret_eq _ _ _ _ _ E1). set (w1 := with_ql (Some q1) w). assert (Hl1 : listed w1 ps L) by (by destruct Hl).
  assert (Hq1 : qlen q1 = qlen q /\ compress q1 = compress q) by (unfold q1; by destruct (qlen q =? 0)). destruct Hq1 as [Q1 Q2].
  assert (Hpe : compress q1 = 0 \/ qlen q1 < 2 * compress q1 -> plain_ends w1 ps (compress q1)).
  { rewrite Q1, Q2. intros H. specialize (Hraw H). split; [intros a Ha; apply Hraw; by eapply list_elem_of_lookup_2| |by intros _].
    intros a Ha. destruct (length ps); [done|]. apply Hraw. by eapply list_elem_of_lookup_2. }
  assert (H2 : exists w2, if_node old quicklistCompress w1 = Ret tt w2 /\ listed w2 ps L /\ same_env ps w1 w2 /\ plain_ends w2 ps (compress q1)).
  { destruct old as [a|]; cbn [if_node].
    - rewrite (not_recompress w1 ps L a Hl1 (Hold a eq_refl)). apply compress_ok; try done; try lia.
    - exists w1. split; [done|]. split; [done|]. split; [done|]. apply Hpe. specialize (Hnone eq_refl). lia. }
  destruct H2 as (w2 & E2 & Hl2 & S2 & P2). rewrite (bind_ret_eq _ _ _ _ _ E2). assert (Q3 : ql w2 = Some q1) by (by rewrite (se_ql _ _ _ S2)).
  rewrite (upd_ql_ret w2 q1 _ Q3), Q1, <- Q2. eexists _, _. split; [reflexivity|]. split; [done|]. split; [done|]. split; [by destruct Hl2|]. split; [by destruct P2|].
  destruct S2. by split.
Qed.

(** ** The whole push *)
Lemma bump_new w q ps L i p x t get_end o : laid w q ps L -> plain_ends w ps (compress q) -> qlen q = zlen ps -> qcount q + 1 = zlen (concat L) -> zlen (concat L) < 2 ^ 64 ->
  ps !! i = Some p -> L !! i = Some [t] -> nodes w !! p = Some x -> count x = 0 -> (forall j a, ps !! j = Some a -> j <> i -> count <$> nodes w !! a = zlen <$> L !! j) ->
  Forall (fun ts => ts <> []) L -> blocks w = zlen ps -> (forall k, get_end (with_qcount k q) = Some p) -> exists w' q' r,
  bump get_end o w = Ret r w' /\ deque w' q' ps L /\ compress q' = compress q.
Proof.
  intros [H1 H2 H3 H4 H5 H6 H7] Hpe Hn Hc Hb Hi Ht Hx Hx0 Hcs Hf Hbl Hend. unfold bump. rewrite (bind_ret_eq _ _ _ _ _ (upd_ql_ret w q _ H1)).
  set (q1 := with_qcount (qcount q + 1) q). set (w1 := with_ql (Some q1) w). rewrite (bind_ret_eq _ _ _ _ _ (the_ql_ret w1 q1 eq_refl)). unfold q1 at 1. rewrite Hend. cbn [deref].
  rewrite (bind_ret_eq (ret p) _ w1 p w1 eq_refl), (bind_ret_eq _ _ _ _ _ (upd_node_ret w1 p x _ Hx)). eexists _, q1, _. split; [reflexivity|]. split; [|done].
  set (x' := with_count (count x + 1) x). assert (Hx' : count x' = 1) by (cbn; by rewrite Hx0). pose proof (zlen_nonneg (concat L)).
  destruct (listed_node w ps L p H2 (list_elem_of_lookup_2 _ _ _ Hi)) as (z & ts & j & Hj & Hz & Htj & Ho). assert (z = x) as -> by congruence.
  assert (j = i) as -> by (eapply NoDup_lookup; [apply H2|done|done]). assert (ts = [t]) as -> by congruence. clear Hz Hj Htj. cbn [nodes with_ql].
  split; try done.
  - rewrite <- (list_insert_id L i [t] Ht). apply (listed_set w _ ps L i p x x' [t] [t]); try done. by destruct Ho; split.
  - cbn. rewrite u64_small by lia. lia.
  - destruct Hpe as [E1 E2 E3]. assert (Hk : forall a, raw w a -> raw (with_nodes (<[p := x']> (nodes w)) w1) a).
    { intros a (y & Hy & Ey). unfold raw. cbn. destruct (decide (a = p)) as [->|Hne]; [exists x'; rewrite lookup_insert_eq; split; [done|]; cbn; congruence|exists y; by rewrite lookup_insert_ne]. }
    split; [intros a Ha; apply Hk; by apply E1|intros a Ha; apply Hk; by apply E2|intros Hs a Ha; apply Hk; by apply E3].
  - intros a y. cbn. destruct (decide (a = p)) as [->|Hne]; [intros _; by eapply list_elem_of_lookup_2|]. rewrite lookup_insert_ne by done. apply H7.
  - intros k a Ha. cbn. destruct (decide (k = i)) as [->|Hne].
    + assert (a = p) as -> by congruence. rewrite lookup_insert_eq, Ht. cbn [fmap option_fmap option_map]. by rewrite Hx'.
    + rewrite lookup_insert_ne by (intros <-; apply Hne; eapply NoDup_lookup; [apply H2|done|done]). by apply Hcs.
Qed.


Definition grown {A} (h : bool) (a : A) (l : list A) : list A := if h then a :: l else l ++ [a].
Definition new_index {A} (h : bool) (l : list A) : nat := if h then 0%nat else length l.
Definition end_of ps (h : bool) : option positive := if h then ps !! 0%nat else before ps (length ps).
Definition with_end (h : bool) (o : option positive) q : quicklist := if h then with_head o q else with_tail o q.
Definition get_end (h : bool) q : option positive := if h then head q else tail q.

Section grown.
Context {A : Type}.
Implicit Types (l : list A) (a : A).
Lemma zlen_grown h a l : zlen (grown h a l) = zlen l + 1.
Proof. destruct h; cbn [grown]; [by rewrite zlen_cons, Z.add_comm|]. by rewrite zlen_app. Qed.
Lemma elem_grown h a l c : c ∈ grown h a l <-> c = a \/ c ∈ l.
Proof. destruct h; cbn [grown]; set_solver. Qed.
Lemma grown_new h a l : grown h a l !! new_index h l = Some a.
Proof. destruct h; cbn [grown new_index]; [done|]. by apply list_lookup_middle. Qed.
Lemma grown_old {B} h a (d : B) l (l' : list B) j c : length l = length l' -> grown h a l !! j = Some c -> j <> new_index h l -> exists k, l !! k = Some c /\ grown h d l' !! j = l' !! k.
Proof.
  intros Hl Hj Hne. destruct h; cbn [grown new_index] in *; [destruct j as [|j]; [done|by exists j]|]. pose proof (lookup_lt_Some _ _ _ Hj) as Hlt. rewrite length_app in Hlt. cbn in Hlt.
  rewrite lookup_app_l in Hj by lia. exists j. by rewrite lookup_app_l by lia.
Qed.
Lemma Forall_grown (P : A -> Prop) h a l : P a -> Forall P l -> Forall P (grown h a l).
Proof. intros Ha Hl. destruct h; cbn [grown]; [by constructor|]. apply Forall_app. split; [done|by constructor]. Qed.
End grown.
Lemma concat_grown h t L : concat (grown h [t] L) = if h then t :: concat L else concat L ++ [t].
Proof. destruct h; cbn [grown]; [done|]. by rewrite concat_app. Qed.

Lemma link_end h w w1 q ps L p b t : laid w q ps L -> p ∉ ps -> nodes w1 = <[p := fresh_node b]> (nodes w) -> ql w1 = Some q -> htabs w1 = htabs w -> node_ok (fresh_node b) [t] -> exists w2,
  link_node (end_of ps h) p (negb h) w1 = Ret tt w2 /\ links_only w1 w2 /\ ql w2 = Some (with_end h (Some p) q) /\ listed w2 (grown h p ps) (grown h [t] L).
Proof.
  intros La Hp Hn Hq Hh Ho. assert (Hy : nodes w1 !! p = Some (fresh_node b)) by (by rewrite Hn, lookup_insert_eq). pose proof (la_listed _ _ _ _ La) as Hl.
  assert (Hb : forall w2 y', links_only w1 w2 -> nodes w2 !! p = Some y' -> node_ok y' [t] /\ htabs w2 = htabs w).
  { intros w2 y' K Hy'. destruct (links_body _ _ _ _ K Hy) as (y & Hy2 & Eb). assert (y = y') as -> by congruence. split; [by apply (body_ok (fresh_node b))|]. by rewrite (lo_htabs _ _ K). }
  destruct h; cbn [end_of negb with_end grown].
  - destruct (link_front w w1 q ps L p (fresh_node b) La Hp Hn Hq eq_refl) as (w2 & E & K & Q & (y' & Hy' & P1 & P2) & Hold). exists w2. split; [exact E|]. split; [done|]. split; [done|].
    destruct (Hb w2 y' K Hy'). by apply (listed_front w w2 ps L p y' t).
  - destruct (link_back w w1 q ps L p (fresh_node b) La Hp Hn Hq eq_refl) as (w2 & E & K & Q & (y' & Hy' & P1 & P2) & Hold). exists w2. split; [exact E|]. split; [done|]. split; [done|].
    destruct (Hb w2 y' K Hy'). by apply (listed_back w w2 ps L p y' t).
Qed.

Lemma bind_last {A B} (m : Q A) (f : A -> Q unit) (k : A -> Q B) w a w' : (let* a := m in f a ;;; ret a) w = Ret a w' -> (let* a := m in f a ;;; k a) w = k a w'.
Proof. unfold bind. destruct (m w) as [a1 w1| |]; try done. destruct (f a1 w1) as [[] w2| |]; try done. by intros [= -> ->]. Qed.
Lemma ends_grown h p q ps (q2 := with_end h (Some p) q) (q1 := if qlen q2 =? 0 then with_tail (Some p) (with_head (Some p) q2) else q2) :
  head q = ps !! 0%nat -> tail q = before ps (length ps) -> qlen q = zlen ps ->
  head q1 = grown h p ps !! 0%nat /\ tail q1 = before (grown h p ps) (length (grown h p ps)) /\ get_end h q1 = Some p.
Proof.
  intros Hh Ht Hn. assert (Hq : qlen q2 = zlen ps) by (unfold q2; by destruct h). unfold q1. rewrite Hq. destruct ps as [|a ps].
  - change (zlen [] =? 0) with true. cbn match. by destruct h.
  - rewrite (proj2 (Z.eqb_neq _ _)) by (rewrite zlen_cons; pose proof (zlen_nonneg ps); lia). unfold q2. destruct h; cbn [with_end grown get_end].
    + split; [done|]. split; [|done]. cbn [tail with_head]. by rewrite Ht.
    + split; [by cbn [head with_tail]; rewrite Hh|]. split; [|done]. rewrite length_app, Nat.add_1_r. cbn [before]. by rewrite list_lookup_middle.
Qed.

(** After the new node is linked in, whatever was compressed or expanded then. *)
Lemma laid_grown h w w1 w2 w3 q q3 ps L p b t (ps' := grown h p ps) : deque w q ps L -> p = brk w -> nodes w1 = <[p := fresh_node b]> (nodes w) -> brk w1 = Pos.succ p -> blocks w1 = blocks w + 1 ->
  links_only w1 w2 -> same_env ps' (with_ql (Some q3) w2) w3 -> listed w3 ps' (grown h [t] L) ->
  (forall a, a ∈ ps' -> (a < brk w3)%positive) /\ (forall a x, nodes w3 !! a = Some x -> a ∈ ps') /\ blocks w3 = zlen ps' /\
  (exists x, nodes w3 !! p = Some x /\ count x = 0) /\
  (forall j a, ps' !! j = Some a -> j <> new_index h ps -> count <$> nodes w3 !! a = zlen <$> grown h [t] L !! j).
Proof.
  intros D Hp Hn Hb Hbl K S Hl. pose proof (dq_listed _ _ _ _ D) as Hl0. assert (Hcs : forall a, count <$> nodes w3 !! a = count <$> nodes w1 !! a).
  { intros a. rewrite (se_counts _ _ _ S a). apply (links_count w1 w2 a K). }
  assert (Hpn : p ∉ ps) by (intros Hin; pose proof (dq_brk _ _ _ _ D p Hin); lia). split_and!.
  - intros a [->|Ha]%elem_grown; rewrite (se_brk _ _ _ S); cbn; rewrite (lo_brk _ _ K), Hb; [lia|]. pose proof (dq_brk _ _ _ _ D a Ha). lia.
  - intros a x Hx. apply elem_grown. specialize (Hcs a). rewrite Hx, Hn in Hcs. destruct (decide (a = p)) as [->|Hne]; [by left|right]. rewrite lookup_insert_ne in Hcs by done.
    destruct (nodes w !! a) as [y|] eqn:Ey; [|done]. by apply (dq_dom _ _ _ _ D a y).
  - rewrite (se_blocks _ _ _ S). cbn. rewrite (lo_blocks _ _ K), Hbl, (dq_blocks _ _ _ _ D). unfold ps'. by rewrite zlen_grown.
  - specialize (Hcs p). rewrite Hn, lookup_insert_eq in Hcs. destruct (nodes w3 !! p) as [x|]; [|done]. exists x. split; [done|]. by injection Hcs.
  - intros j a Hj Hne. destruct (grown_old h p [t] ps L j a (li_length _ _ _ Hl0) Hj Hne) as (k & Hk & ->). rewrite Hcs, Hn, lookup_insert_ne; [by apply (dq_counts _ _ _ _ D)|].
    intros ->. apply Hpn. by eapply list_elem_of_lookup_2.
Qed.

Lemma push_new w q ps L t h o : deque w q ps L -> text_ok t -> zlen (concat L) + 1 < 2 ^ 64 -> exists w' q' ps' r,
  ((let* p := node_with (Some <$> t) (zlen t) h in quicklistNodeUpdateSz p ;;; __quicklistInsertNode (end_of ps h) p (negb h)) ;;; bump (get_end h) o) w = Ret r w' /\
  deque w' q' ps' (grown h [t] L) /\ compress q' = compress q.
Proof.
  intros D Ht Hsum. pose proof (deque_laid _ _ _ _ D) as La. destruct (node_with_ok w t h Ht) as (b & Hh & E1). set (p := brk w) in *.
  set (w1 := with_nodes (<[p:=fresh_node b]> (nodes w)) (with_blocks (blocks w + 1) (with_brk (Pos.succ p) w))) in *. pose proof (bind_last _ quicklistNodeUpdateSz (fun p => __quicklistInsertNode (end_of ps h) p (negb h)) _ _ _ E1) as E1'.
  assert (Hpn : p ∉ ps) by (intros Hin; pose proof (dq_brk _ _ _ _ D p Hin); unfold p in *; lia). pose proof (few_nodes L ps (li_length _ _ _ (dq_listed _ _ _ _ D)) (dq_full _ _ _ _ D)) as Hfew.
  destruct (link_end h w w1 q ps L p b t La Hpn eq_refl (dq_ql _ _ _ _ D) eq_refl (fresh_ok b t Hh Ht)) as (w2 & E2 & K2 & Q2 & Hl2).
  set (q2 := with_end h (Some p) q) in *. assert (Hq2 : qlen q2 = zlen ps /\ compress q2 = compress q /\ qcount q2 = qcount q) by (rewrite <- (dq_len _ _ _ _ D); by destruct h). destruct Hq2 as (N2 & C2 & T2).
  destruct (ends_grown h p q ps (dq_head _ _ _ _ D) (dq_tail _ _ _ _ D) (dq_len _ _ _ _ D)) as (G1 & G2 & G3). fold q2 in G1, G2, G3. pose proof (zlen_nonneg ps) as Hpos.
  assert (Hraw : compress q2 = 0 \/ qlen q2 < 2 * compress q2 -> forall a, a ∈ grown h p ps -> raw w2 a).
  { rewrite C2, N2. intros Hs a Ha. apply (links_raw _ _ _ K2). apply elem_grown in Ha as [->|Ha]; [exists (fresh_node b); split; [by apply lookup_insert_eq|done]|].
    destruct (pe_all _ _ _ (dq_ends _ _ _ _ D) Hs a Ha) as (y & Hy & Ey). exists y. split; [|done]. cbn. rewrite lookup_insert_ne; [done|]. by intros <-. }
  destruct (linked_ok w2 q2 (grown h p ps) (grown h [t] L) p (end_of ps h) Q2 Hl2) as (w3 & q3 & E3 & Eq3 & Q3 & Hl3 & P3 & S3); try done.
  { lia. } { rewrite zlen_grown. lia. } { lia. } { rewrite C2. apply D. }
  { intros a Ha. apply elem_grown. right. destruct h; cbn [end_of] in Ha; [by eapply list_elem_of_lookup_2|]. destruct (length ps); [done|]. by eapply list_elem_of_lookup_2. }
  { intros Hno. rewrite N2. destruct ps as [|a ps']; [done|]. destruct h; [done|]. cbn [end_of length before] in Hno. apply lookup_ge_None in Hno. cbn in Hno. lia. }
  destruct (laid_grown h w w1 w2 w3 q q3 ps L p b t D eq_refl eq_refl eq_refl eq_refl K2 S3 Hl3) as (B1 & B2 & B3 & (x & Hx & Hx0) & B4).
  set (q1 := if qlen q2 =? 0 then with_tail (Some p) (with_head (Some p) q2) else q2) in *.
  assert (Hq3 : head q3 = head q1 /\ tail q3 = tail q1 /\ compress q3 = compress q /\ qcount q3 = qcount q /\ qlen q3 = zlen ps + 1).
  { rewrite Eq3, N2. cbn [head tail compress qcount qlen with_qlen]. rewrite u64_small by lia. unfold q1. destruct (qlen q2 =? 0); cbn; by rewrite ?C2, ?T2. }
  destruct Hq3 as (H1 & H2 & H3 & H4 & H5). assert (Hcat : zlen (concat (grown h [t] L)) = zlen (concat L) + 1) by (rewrite concat_grown; destruct h; [rewrite zlen_cons; lia|by rewrite zlen_app]).
  assert (Hlen : length ps = length L) by apply D.
  destruct (bump_new w3 q3 (grown h p ps) (grown h [t] L) (new_index h ps) p x t (get_end h) o) as (w4 & q4 & r & E4 & D4 & C4); try done.
  - split; try done; [by rewrite H1|by rewrite H2|rewrite H3; apply D].
  - by rewrite H3, <- C2.
  - by rewrite H5, zlen_grown.
  - rewrite H4, Hcat, (dq_count _ _ _ _ D). done.
  - lia.
  - apply grown_new.
  - unfold new_index. rewrite Hlen. apply grown_new.
  - by apply Forall_grown, D.
  - intros k. destruct h; cbn [get_end with_qcount head tail] in *; congruence.
  - exists w4, q4, (grown h p ps), r. split; [|by rewrite C4, H3]. unfold __quicklistInsertNode in E1'. rewrite (bind_ret_eq _ _ _ _ _ E2), E3 in E1'. by rewrite (bind_ret_eq _ _ _ _ _ E1').
Qed.

(** Both pushes have this form. *)
Definition push_at (h : bool) (value : buf) (size : Z) : Q bool :=
  let* q := the_ql in
  let* allow := _quicklistNodeAllowInsert (get_end h q) (fill q) size in
  (if allow : bool then let* e := deref (get_end h q) in push_into e value size h
   else let* p := node_with value size h in quicklistNodeUpdateSz p ;;; __quicklistInsertNode (get_end h q) p (negb h)) ;;;
  bump (get_end h) (get_end h q).
Lemma push_form h value size w : quicklistPush value size h w = push_at h value size w.
Proof. by destruct h. Qed.

Lemma end_of_get h w q ps L : deque w q ps L -> get_end h q = end_of ps h.
Proof. intros D. destruct h; [apply D|apply (dq_tail _ _ _ _ D)]. Qed.
(** An end of the list, and the index of its node. *)
Lemma end_cases ps h : ps = [] /\ end_of ps h = None \/ exists p i, ps !! i = Some p /\ end_of ps h = Some p /\ (i = 0%nat \/ Datatypes.S i = length ps) /\ i = (if h then 0%nat else pred (length ps)).
Proof.
  destruct ps as [|a ps]; [left; by destruct h|right]. destruct h; [exists a, 0%nat; split_and!; auto|]. destruct (lookup_lt_is_Some_2 (a :: ps) (length ps) ltac:(cbn; lia)) as [p Hp].
  exists p, (length ps). split_and!; auto.
Qed.
Lemma concat_end L i ts t (h : bool) : L !! i = Some ts -> i = (if h then 0%nat else pred (length L)) ->
  concat (<[i := if h then t :: ts else ts ++ [t]]> L) = if h then t :: concat L else concat L ++ [t].
Proof.
  intros Hi He. destruct h; subst i.
  - destruct L as [|ts' L]; [done|]. by injection Hi as ->.
  - destruct L as [|ts' L _] using rev_ind; [done|]. rewrite length_app, Nat.add_1_r in *. cbn [pred] in *. rewrite list_lookup_middle in Hi by done. injection Hi as ->.
    rewrite insert_app_r_alt by lia. rewrite Nat.sub_diag. cbn. rewrite !concat_app. cbn. by rewrite !app_nil_r, app_assoc.
Qed.
Lemma quicklistPush_ok h w q ps L t : deque w q ps L -> text_ok t -> zlen (concat L) + 1 < 2 ^ 64 -> exists w' q' ps' L' r,
  quicklistPush (Some <$> t) (zlen t) h w = Ret r w' /\ deque w' q' ps' L' /\ concat L' = (if h then t :: concat L else concat L ++ [t]) /\ compress q' = compress q.
Proof.
  intros D Ht Hs. rewrite push_form. unfold push_at. rewrite (bind_ret_eq _ _ _ _ _ (the_ql_ret w q (dq_ql _ _ _ _ D))), (end_of_get h w q ps L D).
  assert (Hnew : exists w' q' ps' L' r, ((let* p := node_with (Some <$> t) (zlen t) h in quicklistNodeUpdateSz p ;;; __quicklistInsertNode (end_of ps h) p (negb h)) ;;; bump (get_end h) (end_of ps h)) w = Ret r w' /\
    deque w' q' ps' L' /\ concat L' = (if h then t :: concat L else concat L ++ [t]) /\ compress q' = compress q).
  { destruct (push_new w q ps L t h (end_of ps h) D Ht Hs) as (w' & q' & ps' & r & E & D' & C'). exists w', q', ps', (grown h [t] L), r. split; [exact E|]. split; [done|]. split; [by rewrite concat_grown|done]. }
  destruct (end_cases ps h) as [[-> He]|(p & i & Hi & He & Hend & Ei)]; [rewrite He in *; exact Hnew|].
  destruct (end_node w q ps L i p D Hi Hend) as (x & ts & b & Hx & Hts & Ho & Er & Hz & Hh & Hsz & _ & _ & Hc). destruct (packed_size b ts Hh (no_small _ _ Ho)) as [Hb1 Hb2].
  destruct Ht as [Htu Htz]. pose proof (zlen_nonneg t). rewrite He in *.
  destruct (allow_insert_ok w p x (fill q) (zlen t) Hx ltac:(lia) ltac:(lia)) as (room & Ea & Hroom). rewrite (bind_ret_eq _ _ _ _ _ Ea). destruct room; [|exact Hnew].
  specialize (Hroom eq_refl). rewrite Hsz in Hroom. cbn [deref].
  destruct (push_existing w q ps L i p ts x b t (Some p) h (get_end h) D Hi Hend Hx Hts Ho Er Hz Hh Hsz Hc (conj Htu Htz) Hroom Hs) as (w' & q' & r & E & D' & C').
  { intros k. transitivity (get_end h q); [by destruct h|]. by rewrite (end_of_get h w q ps L D). }
  exists w', q', ps, (<[i := if h then t :: ts else ts ++ [t]]> L), r. split; [|split; [exact D'|split; [|done]]].
  - exact E.
  - apply concat_end; [done|]. rewrite <- (li_length _ _ _ (dq_listed _ _ _ _ D)). exact Ei.
Qed.

(** ** Unlinking a node *)
Definition relinked_by ps (i j : nat) x : quicklistNode :=
  if decide (j = Datatypes.S i) then with_prev (before ps i) x else if decide (Datatypes.S j = i) then with_next (ps !! Datatypes.S i) x else x.
Lemma before_delete ps i j : before (delete i ps) j = if decide (j <= i)%nat then before ps j else ps !! j.
Proof.
  destruct j as [|j]; [by rewrite decide_True by lia|]. cbn [before]. case_decide; [apply list_lookup_delete_lt|apply list_lookup_delete_ge]; lia.
Qed.
Lemma listed_unlink w w2 ps L i p : listed w ps L -> ps !! i = Some p -> htabs w2 = htabs w ->
  (forall j a x, j <> i -> ps !! j = Some a -> nodes w !! a = Some x -> nodes w2 !! a = Some (relinked_by ps i j x)) -> listed w2 (delete i ps) (delete i L).
Proof.
  intros [H1 H2 H3 H4] Hi Hh Hn. assert (HiL : is_Some (L !! i)) by (apply lookup_lt_is_Some; rewrite <- H2; by eapply lookup_lt_Some).
  split; [|by rewrite !length_delete, H2 by done| |by rewrite Hh].
  { eapply (NoDup_cons_1_2 p). rewrite <- (delete_Permutation ps i p Hi). exact H1. }
  intros j a Hj. rewrite list_lookup_delete in Hj. set (k := if decide (j < i)%nat then j else Datatypes.S j) in *.
  assert (Hk : k <> i) by (unfold k; case_decide; lia). destruct (H3 k a Hj) as (x & ts & Hx & Ht & Ho & P1 & P2). exists (relinked_by ps i k x), ts.
  split; [by apply Hn|]. split; [by rewrite list_lookup_delete|]. split; [unfold relinked_by; repeat case_decide; (done || by apply relinked)|].
  rewrite before_delete, list_lookup_delete. unfold relinked_by, k in *. destruct (decide (j < i)%nat) as [Hji|Hji].
  - rewrite (decide_False (P := j = Datatypes.S i)), (decide_True (P := (j <= i)%nat)) by lia. destruct (decide (Datatypes.S j = i)) as [Hs|Hs]; cbn [with_next prev next].
    + rewrite decide_False by lia. split; [done|by rewrite Hs].
    + rewrite decide_True by lia. done.
  - rewrite (decide_False (P := Datatypes.S (Datatypes.S j) = i)), (decide_False (P := (Datatypes.S j < i)%nat)) by lia.
    destruct (decide (Datatypes.S j = Datatypes.S i)) as [Hs|Hs]; cbn [with_prev prev next].
    + injection Hs as ->. rewrite decide_True by lia. done.
    + rewrite decide_False by lia. done.
Qed.

(** [f] at the node [o] points to. *)
Definition at_opt (o : option positive) (f : quicklistNode -> quicklistNode) (N : gmap positive quicklistNode) : gmap positive quicklistNode :=
  match o with Some a => alter f a N | None => N end.
Lemma lookup_at_opt o f N a : at_opt o f N !! a = if decide (o = Some a) then f <$> N !! a else N !! a.
Proof.
  destruct o as [c|]; cbn [at_opt]; [|by rewrite decide_False]. destruct (decide (c = a)) as [->|Hne].
  - by rewrite decide_True, lookup_alter_eq.
  - rewrite decide_False by congruence. by rewrite lookup_alter_ne.
Qed.
Lemma if_links w o f : (forall a, o = Some a -> is_Some (nodes w !! a)) -> (forall x, body (f x) = body x) -> exists w',
  if_node o (fun n => upd_node n f) w = Ret tt w' /\ links_only w w' /\ ql w' = ql w /\ nodes w' = at_opt o f (nodes w).
Proof.
  intros Ho Hf. destruct o as [a|]; [|by exists w]. destruct (Ho a eq_refl) as [x Hx]. destruct (upd_links w a x f Hx (Hf x)) as (w' & E & K & Q' & N'). exists w'.
  split; [exact E|]. split; [done|]. split; [done|]. rewrite N'. apply map_eq. intros c. cbn [at_opt].
  destruct (decide (c = a)) as [->|Hne]; [by rewrite lookup_insert_eq, lookup_alter_eq, Hx|by rewrite lookup_insert_ne, lookup_alter_ne].
Qed.

(** The ends of the list without the node [i]. *)
Lemma head_delete w q ps L i p : listed w ps L -> ps !! i = Some p -> head q = ps !! 0%nat -> (if bool_decide (head q = Some p) then ps !! Datatypes.S i else head q) = delete i ps !! 0%nat.
Proof.
  intros Hl Hi Hh. rewrite list_lookup_delete, Hh. destruct (decide (0 < i)%nat) as [H0|H0].
  - rewrite bool_decide_eq_false_2; [done|]. intros Hp. assert (i = 0%nat) by (eapply NoDup_lookup; [apply Hl|done|done]). lia.
  - assert (i = 0%nat) as -> by lia. by rewrite bool_decide_eq_true_2.
Qed.
Lemma tail_delete w q ps L i p : listed w ps L -> ps !! i = Some p -> tail q = before ps (length ps) ->
  (if bool_decide (tail q = Some p) then before ps i else tail q) = before (delete i ps) (length (delete i ps)).
Proof.
  intros Hl Hi Hh. pose proof (lookup_lt_Some _ _ _ Hi) as Hlt. rewrite before_delete, length_delete by done. rewrite Hh. destruct (length ps) as [|k] eqn:Ek; [lia|].
  cbn [before]. replace (Datatypes.S k - 1)%nat with k by lia. destruct (decide (k <= i)%nat) as [Hk|Hk].
  - assert (i = k) as -> by lia. by rewrite bool_decide_eq_true_2.
  - rewrite bool_decide_eq_false_2; [done|]. intros Hp. assert (i = k) by (eapply NoDup_lookup; [apply Hl|done|done]). lia.
Qed.
Definition without_node (i : nat) ps q : quicklist := with_tail (before (delete i ps) (length (delete i ps))) (with_head (delete i ps !! 0%nat) q).

Lemma unlink_node_ok w w1 q ps L i p x' : listed w ps L -> ps !! i = Some p -> nodes w1 = <[p := x']> (nodes w) -> ql w1 = Some q -> htabs w1 = htabs w ->
  prev x' = before ps i -> next x' = ps !! Datatypes.S i -> head q = ps !! 0%nat -> tail q = before ps (length ps) -> exists w2,
  unlink_node p w1 = Ret tt w2 /\ links_only w1 w2 /\ ql w2 = Some (without_node i ps q) /\ nodes w2 !! p = Some x' /\ listed w2 (delete i ps) (delete i L).
Proof.
  intros Hl Hi Hn Hq Hh Pp Pn Qh Qt. assert (Hy : nodes w1 !! p = Some x') by (by rewrite Hn, lookup_insert_eq). unfold unlink_node.
  assert (Hnext : next x' <> Some p) by (rewrite Pn; intros H; assert (i = Datatypes.S i) by (by eapply NoDup_lookup; [apply Hl|..]); lia).
  assert (Hprev : prev x' <> Some p) by (rewrite Pp; destruct i as [|i]; [done|]; cbn [before]; intros H; assert (i = Datatypes.S i) by (by eapply NoDup_lookup; [apply Hl|..]); lia).
  assert (Hin : forall k a, ps !! k = Some a -> is_Some (nodes w1 !! a)).
  { intros k a Ha. rewrite Hn. destruct (decide (a = p)) as [->|Hne]; [by rewrite lookup_insert_eq|rewrite lookup_insert_ne by done]. destruct (li_nodes _ _ _ Hl k a Ha) as (x & ? & Hx & _). by exists x. }
  rewrite (bind_ret_eq _ _ _ _ _ (node_ret w1 p x' Hy)).
  destruct (if_links w1 (next x') (with_prev (prev x'))) as (w2 & E2 & K2 & Q2 & N2); [intros a Ha; rewrite Pn in Ha; by eapply Hin|done|]. rewrite (bind_ret_eq _ _ _ _ _ E2).
  assert (Hy2 : nodes w2 !! p = Some x') by (by rewrite N2, lookup_at_opt, decide_False). rewrite bind_assoc, (bind_ret_eq _ _ _ _ _ (node_ret w2 p x' Hy2)).
  destruct (if_links w2 (prev x') (with_next (next x'))) as (w3 & E3 & K3 & Q3 & N3); [|done|].
  { intros a Ha. rewrite Pp in Ha. rewrite N2, lookup_at_opt. destruct i as [|i]; [done|]. destruct (Hin i a Ha) as [x Hx]. case_decide; rewrite Hx; by eexists. }
  rewrite (bind_ret_eq _ _ _ _ _ E3). assert (Hy3 : nodes w3 !! p = Some x') by (by rewrite N3, lookup_at_opt, decide_False). rewrite Hq in Q2. rewrite Q2 in Q3.
  set (q1 := with_tail (before (delete i ps) (length (delete i ps))) q). set (w4 := with_ql (Some q1) w3).
  assert (E4 : (let* q := the_ql in if bool_decide (tail q = Some p) then upd_ql (with_tail (prev x')) else ret tt) w3 = Ret tt w4).
  { rewrite (bind_ret_eq _ _ _ _ _ (the_ql_ret w3 q Q3)). unfold w4, q1. rewrite <- (tail_delete w q ps L i p Hl Hi Qt), Pp. case_bool_decide; [by apply upd_ql_ret|].
    unfold ret. f_equal. destruct w3, q. cbn in *. by subst. }
  rewrite (bind_ret_eq _ _ _ _ _ E4). exists (with_ql (Some (without_node i ps q)) w4). split.
  { rewrite (bind_ret_eq _ _ _ _ _ (the_ql_ret w4 q1 eq_refl)). change (head q1) with (head q). unfold without_node. rewrite <- (head_delete w q ps L i p Hl Hi Qh), Pn. case_bool_decide; [by apply (upd_ql_ret w4 q1)|].
    by destruct q. }
  assert (K : links_only w1 w3) by (by eapply links_trans). split; [destruct K; by split|]. split; [done|]. split; [exact Hy3|].
  eapply (listed_unlink w _ ps L i p); [done|done|cbn; rewrite (lo_htabs _ _ K); done|]. intros j a x Hj Ha Hx. cbn. rewrite N3, N2, !lookup_at_opt, Pp, Pn, Hn.
  assert (a <> p) by (intros ->; apply Hj; by eapply NoDup_lookup; [apply Hl|..]). rewrite lookup_insert_ne by done. unfold relinked_by.
  assert (D1 : ps !! Datatypes.S i = Some a <-> j = Datatypes.S i) by (split; [intros H'; by eapply NoDup_lookup; [apply Hl|..]|by intros <-]).
  assert (D2 : before ps i = Some a <-> Datatypes.S j = i) by (destruct i as [|i]; [done|]; cbn [before]; split; [intros H'; f_equal; by eapply NoDup_lookup; [apply Hl|..]|by intros [= ->]]).
  destruct (decide (j = Datatypes.S i)) as [Hs|Hs].
  - rewrite (decide_False (P := before ps i = Some a)) by (rewrite D2; lia). rewrite (decide_True (P := ps !! Datatypes.S i = Some a)) by (by apply D1). by rewrite Hx.
  - rewrite (decide_False (P := ps !! Datatypes.S i = Some a)) by (by rewrite D1). destruct (decide (Datatypes.S j = i)) as [Hs'|Hs']; [rewrite decide_True by (by apply D2); by rewrite Hx|]. by rewrite decide_False by (by rewrite D2).
Qed.

(** ** Deleting a node *)
Lemma delete_subset_elem {A} (l : list A) i a : a ∈ delete i l -> a ∈ l.
Proof. intros [j Hj]%list_elem_of_lookup. rewrite list_lookup_delete in Hj. by eapply list_elem_of_lookup_2. Qed.
Lemma not_in_delete ps i p : NoDup ps -> ps !! i = Some p -> p ∉ delete i ps.
Proof.
  intros Hd Hi [j Hj]%list_elem_of_lookup. rewrite list_lookup_delete in Hj. assert (He : (if decide (j < i)%nat then j else Datatypes.S j) = i) by (by eapply NoDup_lookup). case_decide; lia.
Qed.
Lemma before_in ps i p : before ps i = Some p -> p ∈ ps.
Proof. destruct i as [|i]; [done|]. cbn [before]. apply list_elem_of_lookup_2. Qed.
(** The world after the unlinking and the compression. *)
Lemma compress_without w w1 w2 q ps L i p x' : deque w q ps L -> ps !! i = Some p -> nodes w1 = <[p := x']> (nodes w) -> links_only w1 w2 -> ql w2 = Some (without_node i ps q) ->
  nodes w2 !! p = Some x' -> listed w2 (delete i ps) (delete i L) -> exists w3,
  __quicklistCompress None w2 = Ret tt w3 /\ listed w3 (delete i ps) (delete i L) /\ same_env (delete i ps) w2 w3 /\ plain_ends w3 (delete i ps) (compress q) /\ nodes w3 !! p = Some x'.
Proof.
  intros D Hi Hn K Hq Hp Hl. pose proof (dq_listed _ _ _ _ D) as Hl0. assert (Hlen : zlen (delete i ps) = zlen ps - 1).
  { unfold zlen. rewrite length_delete by done. apply lookup_lt_Some in Hi. lia. }
  destruct (compress_ok w2 (delete i ps) (delete i L) (without_node i ps q) None Hl Hq eq_refl eq_refl) as (w3 & E & Hl3 & S3 & P3); try done; [apply D|cbn; rewrite (dq_len _ _ _ _ D); lia| |].
  - cbn. rewrite (dq_len _ _ _ _ D). intros Hs. assert (Hraw : forall a, a ∈ delete i ps -> raw w2 a).
    { intros a Ha. apply (links_raw _ _ _ K). destruct (pe_all _ _ _ (dq_ends _ _ _ _ D) Hs a (delete_subset_elem _ _ _ Ha)) as (y & Hy & Ey). exists y. split; [|done].
      rewrite Hn, lookup_insert_ne; [done|]. intros <-. by eapply not_in_delete; [apply Hl0|..]. }
    split; [intros a Ha; apply Hraw; by eapply list_elem_of_lookup_2| |by intros _]. intros a Ha. destruct (length (delete i ps)); [done|]. apply Hraw. by eapply list_elem_of_lookup_2.
  - exists w3. split; [exact E|]. split; [done|]. split; [done|]. split; [done|]. rewrite (se_others _ _ _ S3); [done|]. apply not_in_delete; [apply Hl0|done].
Qed.
Lemma delNode_ok w w1 q ps L i p x' : deque w q ps L -> ps !! i = Some p -> nodes w1 = <[p := x']> (nodes w) -> ql w1 = Some q -> brk w1 = brk w -> blocks w1 = blocks w -> htabs w1 = htabs w ->
  prev x' = before ps i -> next x' = ps !! Datatypes.S i -> is_Some (zl x') -> zlen ps < 2 ^ 64 -> exists w2 q2,
  __quicklistDelNode p w1 = Ret tt w2 /\ ql w2 = Some q2 /\ qcount q2 = u64 (qcount q - count x') /\ compress q2 = compress q /\
  (forall n, u64 n = zlen (concat (delete i L)) -> deque (with_ql (Some (with_qcount n q2)) w2) (with_qcount n q2) (delete i ps) (delete i L)).
Proof.
  intros D Hi Hn Hq Hbrk Hbl Hh Pp Pn [z Hz] Hlen. pose proof (dq_listed _ _ _ _ D) as Hl0. unfold __quicklistDelNode.
  destruct (unlink_node_ok w w1 q ps L i p x' Hl0 Hi Hn Hq Hh Pp Pn (dq_head _ _ _ _ D) (dq_tail _ _ _ _ D)) as (w2 & E2 & K2 & Q2 & X2 & Hl2). rewrite (bind_ret_eq _ _ _ _ _ E2).
  destruct (compress_without w w1 w2 q ps L i p x' D Hi Hn K2 Q2 X2 Hl2) as (w3 & E3 & Hl3 & S3 & P3 & X3). rewrite (bind_ret_eq _ _ _ _ _ E3), (bind_ret_eq _ _ _ _ _ (node_ret w3 p x' X3)).
  assert (Q3 : ql w3 = Some (without_node i ps q)) by (by rewrite (se_ql _ _ _ S3)). rewrite (bind_ret_eq _ _ _ _ _ (upd_ql_ret w3 _ _ Q3)). set (q4 := with_qcount _ _). set (w4 := with_ql (Some q4) w3).
  rewrite Hz. set (w5 := with_blocks (blocks w4 - 1) w4). rewrite (bind_ret_eq (zfree_zl (Some z)) _ w4 tt w5 eq_refl). set (w6 := with_nodes (delete p (nodes w5)) w5).
  assert (E6 : zfree_node p w5 = Ret tt w6) by (unfold zfree_node; by rewrite (bind_ret_eq _ _ _ _ _ (node_ret w5 p x' X3))). rewrite (bind_ret_eq _ _ _ _ _ E6).
  rewrite (upd_ql_ret w6 q4 _ eq_refl). eexists _, _. split; [reflexivity|]. split; [reflexivity|]. split; [done|]. split; [done|]. intros n Hcount.
  assert (Hd : zlen (delete i ps) = zlen ps - 1) by (unfold zlen; rewrite length_delete by done; apply lookup_lt_Some in Hi; lia).
  pose proof (not_in_delete ps i p (li_nodup _ _ _ Hl0) Hi) as Hpn. pose proof (zlen_nonneg (delete i ps)).
  assert (Hcs : forall a, count <$> nodes w3 !! a = count <$> nodes w1 !! a) by (intros a; rewrite (se_counts _ _ _ S3 a); apply (links_count w1 w2 a K2)).
  assert (Hk : forall a, a <> p -> raw w3 a -> raw w6 a) by (intros a Ha (y & Hy & Ey); exists y; cbn; by rewrite lookup_delete_ne).
  split; cbn; try done.
  - destruct Hl3 as [A1 A2 A3 A4]. split; [done|done| |done]. intros j a Ha. destruct (A3 j a Ha) as (y & ts & Hy & Hyy). exists y, ts. cbn. rewrite lookup_delete_ne; [done|]. intros ->. apply Hpn. by eapply list_elem_of_lookup_2.
  - rewrite (dq_len _ _ _ _ D), Hd. apply u64_small. lia.
  - apply D.
  - destruct P3 as [A1 A2 A3]. split; intros; (apply Hk; [|by auto]); intros ->; apply Hpn; [by eapply list_elem_of_lookup_2| |done]. by eapply (before_in (delete i ps)).
  - intros a Ha. rewrite (se_brk _ _ _ S3), (lo_brk _ _ K2), Hbrk. apply (dq_brk _ _ _ _ D). by eapply delete_subset_elem.
  - intros a y. destruct (decide (a = p)) as [->|Hne]; [by rewrite lookup_delete_eq|]. rewrite lookup_delete_ne by done. intros Hy. specialize (Hcs a). rewrite Hy, Hn, lookup_insert_ne in Hcs by done.
    destruct (nodes w !! a) as [y'|] eqn:Ey; [|done]. pose proof (dq_dom _ _ _ _ D a y' Ey) as Hin. rewrite (delete_Permutation ps i p Hi) in Hin. by apply elem_of_cons in Hin as [->|].
  - intros j a Ha. assert (a <> p) by (intros ->; apply Hpn; by eapply list_elem_of_lookup_2). rewrite lookup_delete_ne, Hcs, Hn, lookup_insert_ne by done. rewrite list_lookup_delete in Ha. rewrite list_lookup_delete. by apply (dq_counts _ _ _ _ D).
  - apply Forall_delete, D.
  - rewrite (se_blocks _ _ _ S3), (lo_blocks _ _ K2), Hbl, (dq_blocks _ _ _ _ D). lia.
Qed.

(** ** Deleting the entry at an end *)
Lemma ungrown h t ts : take (new_index h ts) (grown h t ts) ++ drop (new_index h ts + 1) (grown h t ts) = ts.
Proof.
  destruct h; cbn [new_index grown]; [done|]. rewrite take_app_length, drop_ge, app_nil_r; [done|]. rewrite length_app. cbn. lia.
Qed.
Lemma small_less h t ts : small (grown h t ts) -> ts <> [] -> small ts.
Proof.
  intros (H1 & H2 & H3) Hne. rewrite zlen_grown in H1. split; [lia|]. assert (Hr : room (grown h t ts) = 22 + zlen t + room ts) by (destruct h; cbn [grown]; [done|rewrite room_app; cbn [room]; lia]).
  pose proof (zlen_nonneg t). split.
  - right. destruct H2 as [[t' H2]|H2]; [|lia]. exfalso. apply (f_equal zlen) in H2. rewrite zlen_grown in H2. pose proof (zlen_texts_pos ts Hne). change (zlen [t']) with 1 in H2. lia.
  - rewrite Forall_forall in *. intros t' Ht'. apply H3, elem_grown. by right.
Qed.
Lemma concat_less (h : bool) t ts L i : L !! i = Some (grown h t ts) -> i = (if h then 0%nat else pred (length L)) ->
  concat L = grown h t (concat (<[i := ts]> L)) /\ (ts = [] -> concat (<[i := ts]> L) = concat (delete i L)).
Proof.
  intros Hi He. split.
  - destruct h; subst i.
    + destruct L as [|ts' L]; [done|]. by injection Hi as ->.
    + destruct L as [|ts' L _] using rev_ind; [done|]. rewrite length_app, Nat.add_1_r in *. cbn [pred] in *. rewrite list_lookup_middle in Hi by done. injection Hi as ->.
      rewrite insert_app_r_alt by lia. rewrite Nat.sub_diag. cbn. rewrite !concat_app. cbn. by rewrite !app_nil_r, app_assoc.
  - intros ->. rewrite insert_take_drop by (by eapply lookup_lt_Some). rewrite delete_take_drop, !concat_app. done.
Qed.

Section del_index.
Variables (h : bool) (w : qworld) (q : quicklist) (ps : list positive) (L : list (list text)) (i : nat) (p : positive) (x : quicklistNode) (b : buf) (es : list ent) (n : Z) (t : text) (ts : list text).
Hypothesis D : deque w q ps L.
Hypothesis Hsum : zlen (concat L) < 2 ^ 64.
Hypothesis Hi : ps !! i = Some p.
Hypothesis Hend : i = (if h then 0%nat else pred (length ps)).
Hypothesis Hx : nodes w !! p = Some x.
Hypothesis Ht : L !! i = Some (grown h t ts).
Hypothesis Ho : node_ok x (grown h t ts).
Hypothesis Er : encoding x = QUICKLIST_NODE_ENCODING_RAW.
Hypothesis Hz : zl x = Some (Plain b).
Hypothesis Hzl : zl_ok b es n.
Hypothesis Hts : eval <$> es = value_of <$> grown h t ts.
Hypothesis Hc : count x = zlen (grown h t ts).
Hypothesis Hprev : prev x = before ps i.
Hypothesis Hnext : next x = ps !! Datatypes.S i.

Lemma shrink (s : qworld) : exists b' z, ziplistDelete b (pos es (new_index h ts)) s = Ret (b', z) s /\ holds_texts b' ts.
Proof.
  destruct (delete_at b es n _ (new_index h ts) 1 s Hzl Hts) as (b' & E & Hh); [apply lookup_lt_Some with t, grown_new|lia|by apply small_fits, Ho|].
  exists b', (pos es (new_index h ts)). change (Z.to_nat 1) with 1%nat in Hh. rewrite ungrown in Hh. split; [|done]. unfold ziplistDelete. by rewrite (bind_ret_eq _ _ _ _ _ E).
Qed.
Lemma delIndex_ok : exists w' q' ps' L' r, quicklistDelIndex p (pos es (new_index h ts)) w = Ret r w' /\ deque w' q' ps' L' /\ compress q' = compress q /\
  concat L = grown h t (concat L').
Proof.
  pose proof (li_length _ _ _ (dq_listed _ _ _ _ D)) as Hlen. destruct (concat_less h t ts L i Ht ltac:(by rewrite <- Hlen)) as [Hcat Hcat0].
  pose proof (few_nodes L ps Hlen (dq_full _ _ _ _ D)) as Hfew. destruct (no_small _ _ Ho) as [Hs _]. rewrite zlen_grown in Hs, Hc. pose proof (zlen_nonneg ts).
  unfold quicklistDelIndex. rewrite (bind_ret_eq _ _ _ _ _ (ziplist_ret w p x b Hx Hz)). destruct (shrink w) as (b' & z & E & Hh). rewrite (bind_ret_eq _ _ _ _ _ E).
  unfold set_ziplist. rewrite (bind_ret_eq _ _ _ _ _ (upd_node_ret w p x _ Hx)). set (x1 := with_zl (Some (Plain b')) x).
  rewrite (bind_ret_eq _ _ _ _ _ (upd_node_ret (with_nodes (<[p := x1]> (nodes w)) w) p x1 _ (lookup_insert_eq _ _ _))). cbn [nodes with_nodes]. rewrite insert_insert_eq.
  set (x2 := with_count (count x1 - 1) x1). set (w2 := with_nodes (<[p:=x2]> (nodes w)) (with_nodes (<[p:=x1]> (nodes w)) w)).
  assert (Hx2 : nodes w2 !! p = Some x2) by apply lookup_insert_eq. rewrite (bind_ret_eq _ _ _ _ _ (node_ret w2 p x2 Hx2)).
  assert (Hc2 : count x2 = zlen ts) by (cbn; rewrite Hc; unfold u16; rewrite Z.mod_small; lia). rewrite Hc2. cbv zeta.
  assert (Hn : forall l : list text, zlen (concat L) = zlen l + 1 -> u64 (qcount q - 1) = zlen l) by (intros l Hl; rewrite (dq_count _ _ _ _ D), Hl, u64_small; [lia|pose proof (zlen_nonneg l); lia]).
  destruct (Z.eqb_spec (zlen ts) 0) as [Hts0|Hts0].
  - assert (Ets : ts = []) by (destruct (decide (ts = [])) as [|Hne]; [done|apply zlen_texts_pos in Hne; lia]). destruct (delNode_ok w w2 q ps L i p x2 D Hi eq_refl (dq_ql _ _ _ _ D) eq_refl eq_refl eq_refl Hprev Hnext ltac:(by eexists) ltac:(lia)) as (w3 & q3 & E3 & Q3 & C3 & K3 & D3).
    rewrite (bind_ret_eq _ _ _ _ _ E3), (bind_ret_eq _ _ _ _ _ (upd_ql_ret w3 q3 _ Q3)). eexists _, (with_qcount (qcount q3 - 1) q3), (delete i ps), (delete i L), _. split; [reflexivity|]. rewrite (Hcat0 Ets) in Hcat.
    split; [|split; [exact K3|exact Hcat]]. apply D3. rewrite C3, Hc2, Hts0, Z.sub_0_r, (u64_small (qcount q)) by (rewrite (dq_count _ _ _ _ D); pose proof (zlen_nonneg (concat L)); lia).
    apply Hn. by rewrite Hcat, zlen_grown.
  - assert (Ets : ts <> []) by (by intros ->). rewrite (bind_ret_eq _ _ _ _ _ (update_sz_ok w2 p x2 b' ts Hx2 eq_refl Hh)).
    set (x3 := with_sz (zlen b') x2). set (w3 := with_nodes (<[p:=x3]> (nodes w2)) w2). rewrite (bind_ret_eq _ _ _ _ _ (upd_ql_ret w3 q _ (dq_ql _ _ _ _ D))).
    eexists _, (with_qcount (qcount q - 1) q), ps, (<[i := ts]> L), _. split; [reflexivity|]. unfold w3, w2. cbn [nodes with_nodes]. rewrite insert_insert_eq. split; [|split; [reflexivity|exact Hcat]].
    replace (with_qcount (qcount q - 1) q) with (with_qcount (zlen (concat (<[i := ts]> L))) q).
    + apply (edit_end w q ps L i p x (grown h t ts) x3 ts); try done; [|rewrite Hcat, zlen_grown in Hsum; lia].
      split; [|apply (small_less h t); [apply Ho|done]|apply Ho]. exists b'. cbn. split; [rewrite Er; constructor|]. split; [done|]. apply (sz_block b' ts x2 Hh).
    + unfold with_qcount. f_equal. rewrite (Hn (concat (<[i := ts]> L))) by (by rewrite Hcat, zlen_grown). apply u64_small. rewrite Hcat, zlen_grown in Hsum. pose proof (zlen_nonneg (concat (<[i:=ts]> L))). lia.
Qed.
End del_index.

(** ** Popping *)

(** What a text is given back as. *)
Definition popped t : buf + Z := match value_of t with ZStr t => inl (Some <$> t) | ZInt v => inr v end.
Lemma text_cut b off t : has b off t -> take (Z.to_nat (zlen t)) (drop (Z.to_nat off) b) = Some <$> t.
Proof.
  intros (H1 & H2 & H3). unfold zlen in *. apply list_eq. intros k. rewrite list_lookup_fmap. destruct (decide (k < length t)%nat) as [Hk|Hk].
  - rewrite lookup_take_lt, lookup_drop by lia. destruct (lookup_lt_is_Some_2 _ _ Hk) as [c Hc]. by rewrite (H3 k c Hc), Hc.
  - rewrite (lookup_ge_None_2 (take _ _)) by (rewrite length_take; lia). by rewrite lookup_ge_None_2 by lia.
Qed.
Lemma saver_ok t w : _quicklistSaver (Some <$> t) (zlen t) w = Ret (Some <$> t) w.
Proof.
  pose proof (zlen_nonneg t). unfold _quicklistSaver. pose proof (has_text t []) as Ht. rewrite app_nil_r in Ht.
  destruct (memcpy_has (uninit (zlen t)) 0 (Some <$> t) 0 t w Ht ltac:(lia)) as (b' & E & Hb & Hf & _); [by rewrite zlen_uninit by lia|].
  rewrite E. f_equal. apply has_all; [done|]. by rewrite Hf, zlen_uninit by lia.
Qed.
(** The value found is handed over. *)
Lemma handed b r v w : gives b r (Some v) -> exists z, r = Some z /\
  (match z with
   | ZlString off n => let* d := _quicklistSaver (take (Z.to_nat n) (drop (Z.to_nat off) b)) n in ret (inl d)
   | ZlInteger x => ret (inr x)
   end) w = Ret (match v with ZStr t => inl (Some <$> t) | ZInt v => inr v end) w.
Proof.
  destruct r as [[off n|x]|], v as [t|y]; try done; cbn [gives].
  - intros [-> Hh]. eexists. split; [reflexivity|]. cbn match. by rewrite (text_cut _ _ _ Hh), (bind_ret_eq _ _ _ _ _ (saver_ok t w)).
  - intros ->. by eexists.
Qed.

Lemma ends_of (h : bool) ts : ts <> [] -> exists t ts', ts = grown h t ts'.
Proof.
  intros Hne. destruct h; [destruct ts as [|t ts]; [done|by exists t, ts]|]. destruct ts as [|t ts _] using rev_ind; [done|by exists t, ts].
Qed.
Lemma end_index (h : bool) t ts : index_of (grown h t ts) (if h then 0 else -1) = Some (new_index h ts).
Proof.
  pose proof (zlen_nonneg ts). unfold index_of. rewrite zlen_grown. destruct h; cbn [Z.ltb Z.compare new_index]; cbv zeta.
  - by rewrite (proj2 (Z.ltb_lt 0 _)) by lia.
  - rewrite (proj2 (Z.leb_le 0 _)), (proj2 (Z.ltb_lt _ _)) by lia. cbn [andb]. unfold zlen. f_equal. lia.
Qed.
Lemma grown_inj {A} (h : bool) (a b : A) (l l' : list A) : grown h a l = grown h b l' -> a = b /\ l = l'.
Proof. destruct h; cbn [grown]; [by intros [= -> ->]|]. intros [-> [= ->]]%app_inj_2; done. Qed.

Lemma quicklistPop_empty h w q ps L : deque w q ps L -> concat L = [] -> quicklistPop h w = Ret None w.
Proof.
  intros D HL. unfold quicklistPop. rewrite (bind_ret_eq _ _ _ _ _ (the_ql_ret w q (dq_ql _ _ _ _ D))), (dq_count _ _ _ _ D), HL. done.
Qed.
Lemma quicklistPop_ok h w q ps L t l : deque w q ps L -> zlen (concat L) < 2 ^ 64 -> concat L = grown h t l -> exists w' q' ps' L',
  quicklistPop h w = Ret (Some (popped t)) w' /\ deque w' q' ps' L' /\ concat L' = l /\ compress q' = compress q.
Proof.
  intros D Hs HL. pose proof (li_length _ _ _ (dq_listed _ _ _ _ D)) as Hlen. destruct (end_cases ps h) as [[-> He]|(p & i & Hi & He & Hend & Ei)].
  { exfalso. destruct L; [|done]. apply (f_equal zlen) in HL. rewrite zlen_grown in HL. pose proof (zlen_nonneg l). change (zlen (concat [])) with 0 in HL. lia. }
  destruct (end_node w q ps L i p D Hi Hend) as (x & ts0 & b & Hx & Hts0 & Ho & Er & Hz & Hh & Hsz & Hp & Hn & Hc).
  destruct (ends_of h ts0) as (t' & ts & ->); [by apply (Forall_lookup_1 _ _ _ _ (dq_full _ _ _ _ D) Hts0)|]. pose proof Hh as (es & n & Hzl & Hts).
  assert (Hcount : (qcount q =? 0) = false) by (apply Z.eqb_neq; rewrite (dq_count _ _ _ _ D), HL, zlen_grown; pose proof (zlen_nonneg l); lia).
  unfold quicklistPop, quicklistPopCustom. rewrite (bind_ret_eq _ _ _ _ _ (the_ql_ret w q (dq_ql _ _ _ _ D))), Hcount, (bind_ret_eq _ _ _ _ _ (the_ql_ret w q (dq_ql _ _ _ _ D))), Hcount.
  pose proof (end_of_get h w q ps L D) as Hg. unfold get_end in Hg. rewrite Hg, He, (bind_ret_eq _ _ _ _ _ (ziplist_ret w p x b Hx Hz)).
  rewrite (bind_ret_eq _ _ _ _ _ (index_ts b es n _ Hzl Hts (if h then 0 else -1) w ltac:(unfold an_int; destruct h; lia))), end_index. cbn [fmap option_fmap option_map].
  destruct (zl_get_ok b es n Hzl (new_index h ts) w) as (r & Eg & Hgv). rewrite (bind_ret_eq _ _ _ _ _ Eg).
  assert (Hv : eval <$> es !! new_index h ts = Some (value_of t')) by (rewrite <- list_lookup_fmap, Hts, list_lookup_fmap, grown_new; done). rewrite Hv in Hgv.
  destruct (handed b r (value_of t') w Hgv) as (z & -> & Ez). rewrite (bind_ret_eq _ _ _ _ _ Ez).
  destruct (delIndex_ok h w q ps L i p x b es n t' ts D Hs Hi Ei Hx Hts0 Ho Er Hz Hzl Hts Hc Hp Hn) as (w' & q' & ps' & L' & r & Ed & D' & C' & Hcat).
  rewrite (bind_ret_eq _ _ _ _ _ Ed). rewrite HL in Hcat. destruct (grown_inj h _ _ _ _ Hcat) as [<- Hl]. exists w', q', ps', L'. done.
Qed.
