(* ===== verification/QuicklistDeque.v ===== *)
(** Quicklists as double-ended queues of texts: what a program that creates one, pushes,
    pops and counts sees, whatever is compressed meanwhile, and that nothing is left in
    memory when it is released. What goes wrong with other functions of quicklist.c. *)
From S2P Require Import Prelude Intset IntsetProofs Util Lzf Ziplist ZlEntry PackedList Quicklist QlList QlEnds.
#[local] Open Scope Z_scope.
Implicit Types (w : qworld) (x : quicklistNode) (p : positive) (ps : list positive) (t : text) (ts : list text) (L : list (list text)) (q : quicklist).

(** ** The commands *)
Inductive qcommand := QPush (t : text) (at_head : bool) | QPop (at_head : bool) | QCount.
Inductive qanswer := QDone | QPopped (v : option (buf + Z)) | QNumber (n : Z).
Definition run_qcommand (c : qcommand) : Q qanswer :=
  match c with
  | QPush t h => let* _ := quicklistPush (Some <$> t) (zlen t) h in ret QDone
  | QPop h => let* v := quicklistPop h in ret (QPopped v)
  | QCount => let* n := quicklistCount in ret (QNumber n)
  end.
Fixpoint run_qcommands (cs : list qcommand) : Q (list qanswer) :=
  match cs with [] => ret [] | c :: cs => let* a := run_qcommand c in let* l := run_qcommands cs in ret (a :: l) end.
(** The life of a list. *)
Definition quicklist_session (fill compress : Z) (cs : list qcommand) : Q (list qanswer) :=
  quicklistNew fill compress ;;; let* l := run_qcommands cs in quicklistRelease ;;; ret l.

(** ** What they mean *)
Definition take_end (h : bool) ts : option (text * list text) :=
  if h then match ts with [] => None | t :: ts => Some (t, ts) end
  else match reverse ts with [] => None | t :: ts => Some (t, reverse ts) end.
Definition qmeaning (c : qcommand) ts : list text * qanswer :=
  match c with
  | QPush t h => (if h then t :: ts else ts ++ [t], QDone)
  | QPop h => match take_end h ts with Some (t, ts) => (ts, QPopped (Some (popped t))) | None => (ts, QPopped None) end
  | QCount => (ts, QNumber (zlen ts))
  end.
Fixpoint qmeanings (cs : list qcommand) ts : list text * list qanswer :=
  match cs with
  | [] => (ts, [])
  | c :: cs => let '(ts, a) := qmeaning c ts in let '(ts, l) := qmeanings cs ts in (ts, a :: l)
  end.
Definition qcommand_ok (c : qcommand) : Prop := match c with QPush t _ => text_ok t | _ => True end.

Lemma take_end_spec h ts : match take_end h ts with Some (t, l) => ts = grown h t l | None => ts = [] end.
Proof.
  unfold take_end. destruct h; [by destruct ts|]. destruct (reverse ts) as [|t l] eqn:E; [by apply (f_equal reverse) in E; rewrite reverse_involutive in E|].
  apply (f_equal reverse) in E. rewrite reverse_involutive, reverse_cons in E. exact E.
Qed.
Lemma qmeaning_size c ts : zlen (fst (qmeaning c ts)) <= zlen ts + 1.
Proof.
  destruct c as [t h|h|]; cbn [qmeaning]; [destruct h; cbn [fst]; [rewrite zlen_cons; lia|by rewrite zlen_app]| |cbn [fst]; lia].
  pose proof (take_end_spec h ts) as H. destruct (take_end h ts) as [[t l]|]; cbn [fst]; [|lia]. rewrite H, zlen_grown. lia.
Qed.

(** ** Between creation and release *)
Lemma run_qcommand_ok c w q ps L : deque w q ps L -> qcommand_ok c -> zlen (concat L) + 1 < 2 ^ 64 -> exists w' q' ps' L',
  run_qcommand c w = Ret (snd (qmeaning c (concat L))) w' /\ deque w' q' ps' L' /\ concat L' = fst (qmeaning c (concat L)).
Proof.
  intros D Hok Hs. destruct c as [t h|h|]; cbn [run_qcommand qmeaning].
  - destruct (quicklistPush_ok h w q ps L t D Hok Hs) as (w' & q' & ps' & L' & r & E & D' & HL & _). rewrite (bind_ret_eq _ _ _ _ _ E). by exists w', q', ps', L'.
  - pose proof (take_end_spec h (concat L)) as H. destruct (take_end h (concat L)) as [[t l]|].
    + destruct (quicklistPop_ok h w q ps L t l D ltac:(lia) H) as (w' & q' & ps' & L' & E & D' & HL & _). rewrite (bind_ret_eq _ _ _ _ _ E). by exists w', q', ps', L'.
    + rewrite (bind_ret_eq _ _ _ _ _ (quicklistPop_empty h w q ps L D H)). by exists w, q, ps, L.
  - unfold quicklistCount. rewrite bind_assoc, (bind_ret_eq _ _ _ _ _ (the_ql_ret w q (dq_ql _ _ _ _ D))). exists w, q, ps, L. cbn [fst snd]. by rewrite <- (dq_count _ _ _ _ D).
Qed.
Lemma run_qcommands_ok cs : forall w q ps L, deque w q ps L -> Forall qcommand_ok cs -> zlen (concat L) + zlen cs < 2 ^ 64 -> exists w' q' ps' L',
  run_qcommands cs w = Ret (snd (qmeanings cs (concat L))) w' /\ deque w' q' ps' L' /\ concat L' = fst (qmeanings cs (concat L)).
Proof.
  induction cs as [|c cs IH]; intros w q ps L D Hok Hs; [by exists w, q, ps, L|]. apply Forall_cons in Hok as [Hc Hok]. rewrite zlen_cons in Hs. pose proof (zlen_nonneg cs).
  destruct (run_qcommand_ok c w q ps L D Hc ltac:(lia)) as (w1 & q1 & ps1 & L1 & E1 & D1 & HL1). cbn [run_qcommands qmeanings]. rewrite (bind_ret_eq _ _ _ _ _ E1).
  pose proof (qmeaning_size c (concat L)) as Hz. rewrite <- HL1 in Hz. destruct (IH w1 q1 ps1 L1 D1 Hok ltac:(lia)) as (w2 & q2 & ps2 & L2 & E2 & D2 & HL2).
  rewrite (bind_ret_eq _ _ _ _ _ E2). exists w2, q2, ps2, L2. destruct (qmeaning c (concat L)) as [ts1 a]. cbn [fst snd] in *. subst ts1. by destruct (qmeanings cs (concat L1)).
Qed.

(** ** Creation and release *)
Definition blank w : Prop := nodes w = ∅ /\ blocks w = 0 /\ forall i j, is_u32 (htabs w i j).
Lemma quicklistNew_ok fill compress w : blank w -> exists w' q, quicklistNew fill compress w = Ret tt w' /\ deque w' q [] [].
Proof.
  intros (Hn & Hb & Hh). eexists _, _. split; [reflexivity|]. split; cbn; try done.
  - split; [constructor|done|done|exact Hh].
  - cbn [Quicklist.compress with_compress]. unfold u16. apply Z.mod_pos_bound. lia.
  - split; [done|done|]. by intros _ p Hp%not_elem_of_nil.
  - by intros p Hp%not_elem_of_nil.
  - by intros p x; rewrite Hn.
Qed.
Lemma release_loop ps : forall w q, ql w = Some q -> NoDup ps -> blocks w = zlen ps -> (forall p x, nodes w !! p = Some x -> p ∈ ps) ->
  (forall i p, ps !! i = Some p -> exists x, nodes w !! p = Some x /\ next x = ps !! Datatypes.S i /\ is_Some (zl x)) -> exists w',
  release_turns (length ps) (ps !! 0%nat) w = Ret tt w' /\ nodes w' = ∅ /\ blocks w' = 0.
Proof.
  induction ps as [|p ps IH]; intros w q Hq Hd Hb Hdom Hn.
  - exists w. split; [done|]. split; [|done]. apply map_eq. intros a. rewrite lookup_empty. destruct (nodes w !! a) as [x|] eqn:E; [|done]. by apply Hdom, not_elem_of_nil in E.
  - destruct (Hn 0%nat p eq_refl) as (x & Hx & Nx & z & Hz). apply NoDup_cons in Hd as [Hp Hd]. cbn [length release_turns lookup list_lookup deref]. rewrite zlen_cons in Hb.
    rewrite (bind_ret_eq (ret p) _ w p w eq_refl), (bind_ret_eq _ _ _ _ _ (node_ret w p x Hx)), Hz.
    set (w1 := with_blocks (blocks w - 1) w). rewrite (bind_ret_eq (zfree_zl (Some z)) _ w tt w1 eq_refl), (bind_ret_eq _ _ _ _ _ (upd_ql_ret w1 q _ Hq)). set (q2 := with_qcount _ q). set (w2 := with_ql (Some q2) w1).
    set (w3 := with_nodes (delete p (nodes w2)) w2). assert (E3 : zfree_node p w2 = Ret tt w3) by (unfold zfree_node; by rewrite (bind_ret_eq _ _ _ _ _ (node_ret w2 p x Hx))).
    rewrite (bind_ret_eq _ _ _ _ _ E3), (bind_ret_eq _ _ _ _ _ (upd_ql_ret w3 q2 _ eq_refl)), Nx. eapply IH; [reflexivity|done|cbn; lia| |].
    + intros a y. cbn. destruct (decide (a = p)) as [->|Hne]; [by rewrite lookup_delete_eq|]. rewrite lookup_delete_ne by done. intros Hy%Hdom. by apply elem_of_cons in Hy as [->|].
    + intros i a Ha. destruct (Hn (Datatypes.S i) a Ha) as (y & Hy & Ny). exists y. cbn. rewrite lookup_delete_ne; [done|]. intros <-. apply Hp. by eapply list_elem_of_lookup_2.
Qed.
Lemma quicklistRelease_ok w q ps L : deque w q ps L -> exists w', quicklistRelease w = Ret tt w' /\ ql w' = None /\ nodes w' = ∅ /\ blocks w' = 0.
Proof.
  intros D. pose proof (dq_listed _ _ _ _ D) as Hl. unfold quicklistRelease. rewrite (bind_ret_eq _ _ _ _ _ (the_ql_ret w q (dq_ql _ _ _ _ D))), (dq_head _ _ _ _ D), (dq_len _ _ _ _ D).
  destruct (release_loop ps w q (dq_ql _ _ _ _ D) (li_nodup _ _ _ Hl) (dq_blocks _ _ _ _ D) (dq_dom _ _ _ _ D)) as (w1 & E1 & N1 & B1).
  { intros i p Hi. destruct (li_nodes _ _ _ Hl i p Hi) as (x & ts & Hx & _ & Ho & _ & Hn). exists x. split; [done|]. split; [done|]. destruct (no_block _ _ Ho) as (b & Hp & _). inversion Hp; by eexists. }
  unfold zlen. rewrite Nat2Z.id, (bind_ret_eq _ _ _ _ _ E1). by eexists.
Qed.

(** C12: a quicklist is a double-ended queue of texts: whatever is pushed and popped at either end and however often it is
    counted, with any number for the size of a node and any compression depth, the answers are those of the list of texts in
    memory (a text that spells a 64-bit integer is popped as that integer), through the filling, splitting off, compression,
    decompression and deletion of the ziplist nodes; and after the release no node, no ziplist and no compressed block is left.
    The texts are bytes, less than 512 MiB each; the table [lzf_compress] leaves uninitialised holds any numbers. *)
Theorem quicklist_refines (fill compress : Z) (cs : list qcommand) w : blank w -> Forall qcommand_ok cs -> zlen cs < 2 ^ 64 -> exists w',
  quicklist_session fill compress cs w = Ret (snd (qmeanings cs [])) w' /\ ql w' = None /\ nodes w' = ∅ /\ blocks w' = 0.
Proof.
  intros Hw Hok Hs. unfold quicklist_session. destruct (quicklistNew_ok fill compress w Hw) as (w1 & q1 & E1 & D1). rewrite (bind_ret_eq _ _ _ _ _ E1).
  destruct (run_qcommands_ok cs w1 q1 [] [] D1 Hok Hs) as (w2 & q2 & ps2 & L2 & E2 & D2 & _). rewrite (bind_ret_eq _ _ _ _ _ E2).
  destruct (quicklistRelease_ok w2 q2 ps2 L2 D2) as (w3 & E3 & H3). rewrite (bind_ret_eq _ _ _ _ _ E3). exists w3. split; [done|exact H3].
Qed.

Definition no_memory : qworld := {| ql := None; nodes := ∅; brk := 1; blocks := 0; errno := 0; lzf_calls := 0; htabs := fun _ _ => 0 |}.
Definition long_text (c : Z) : text := replicate 100 c.
(** One text a node and depth 1: the two nodes in the middle are compressed until they are the last. *)
Definition some_commands : list qcommand :=
  [QPush (long_text 65) false; QPush (long_text 66) false; QPush (long_text 67) true; QPush [49; 50] false; QPush (long_text 68) false; QCount;
   QPop true; QPop false; QPop false; QPop true; QPop false; QPop true].
Lemma quicklist_refines_witness : exists w', quicklist_session 1 1 some_commands no_memory = Ret [QDone; QDone; QDone; QDone; QDone; QNumber 5;
  QPopped (Some (inl (Some <$> long_text 67))); QPopped (Some (inl (Some <$> long_text 68))); QPopped (Some (inr 12)); QPopped (Some (inl (Some <$> long_text 65)));
  QPopped (Some (inl (Some <$> long_text 66))); QPopped None] w' /\ ql w' = None /\ nodes w' = ∅ /\ blocks w' = 0.
Proof.
  apply (quicklist_refines 1 1 some_commands no_memory).
  - split; [done|]. split; [done|]. intros i j. vm_compute. by split.
  - assert (Hl : forall c, is_u8 c -> text_ok (long_text c)) by (intros c Hc; split; [by apply Forall_replicate|reflexivity]).
    repeat (apply Forall_cons; split; [first [exact I|apply Hl; unfold is_u8; lia|split; [repeat constructor; unfold is_u8; lia|reflexivity]]|]). apply Forall_nil_2.
  - reflexivity.
Defined.

(** ** What goes wrong *)

Definition push_long (c : Z) (at_head : bool) : Q bool := quicklistPush (Some <$> long_text c) 100 at_head.
Definition four_nodes : Q unit :=
  quicklistNew 1 1 ;;; let* _ := push_long 65 false in let* _ := push_long 66 false in let* _ := push_long 67 false in let* _ := push_long 68 false in ret tt.
(** [quicklistIndex] leaves the node it expands marked for compression. If that node is the only one left, the next
    push compresses it although it is at an end, and the next pop takes what is compressed for a ziplist. *)
Lemma index_then_pop : (four_nodes ;;; let* _ := quicklistIndex 1 in let* _ := quicklistPop true in let* _ := quicklistPop false in let* _ := quicklistPop false in
  let* _ := push_long 69 true in quicklistPop false) no_memory = Fault BadCast.
Proof. vm_compute. reflexivity. Qed.
(** Without the look at an index the same calls answer. *)
Lemma no_index_then_pop : exists w, (four_nodes ;;; let* _ := quicklistPop true in let* _ := quicklistPop false in let* _ := quicklistPop false in
  let* _ := push_long 69 true in quicklistPop false) no_memory = Ret (Some (inl (Some <$> long_text 66))) w.
Proof. eexists. vm_compute. reflexivity. Qed.

(** The largest node size and the largest depth do not fit into the 16 bits of their fields. *)
Lemma largest_options fill depth w : FILL_MAX <= fill -> COMPRESS_MAX <= depth -> exists w' q, quicklistNew fill depth w = Ret tt w' /\ ql w' = Some q /\
  Quicklist.fill q = -32768 /\ compress q = 0.
Proof.
  intros Hf Hd. eexists _, _. split; [reflexivity|]. split; [reflexivity|]. cbn [Quicklist.fill compress with_compress with_fill]. split.
  - change FILL_MAX with 32768 in *. destruct (Z.ltb_spec 32768 fill); [done|]. destruct (Z.ltb_spec fill (-5)); [lia|]. by replace fill with 32768 by lia.
  - change COMPRESS_MAX with 65536 in *. destruct (Z.ltb_spec 65536 depth); [done|]. destruct (Z.ltb_spec depth 0); [lia|]. by replace depth with 65536 by lia.
Qed.

(** With a single node, [quicklistRotate] pushes a text that is in the block [zrealloc] releases. *)
Lemma rotate_one_node : (quicklistNew (-2) 0 ;;; let* _ := quicklistPush [Some 65] 1 false in let* _ := quicklistPush [Some 66] 1 false in quicklistRotate) no_memory = Fault OutOfBounds.
Proof. vm_compute. reflexivity. Qed.

(** Behind an entry found from the end, in a full node: the split takes the negative offset for one from the front. The
    count of the list says 3, and there is nothing to pop at the head. *)
Definition insert_after_last : Q (Z * option (buf + Z)) :=
  quicklistNew 2 0 ;;; let* _ := quicklistPush [Some 65] 1 false in let* _ := quicklistPush [Some 66] 1 false in
  let* e := quicklistIndex (-1) in
  match e with Some e => quicklistInsertAfter e [Some 67] 1 | None => ret tt end ;;;
  let* n := quicklistCount in let* v := quicklistPop true in ret (n, v).
Lemma insert_after_last_lost : exists w, insert_after_last no_memory = Ret (3, None) w.
Proof. eexists. vm_compute. reflexivity. Qed.
